(* ===== verification/_CoqProject ===== *)
-Q . S2P
Prelude.v
GoStrings.v
Regex.v
ShellMatch.v
ShellMatchFacts.v
Rules.v
Precedence.v
Mode.v
DenialTracking.v
SessionStore.v
BashLex.v
BashSecurity.v
ReadOnly.v
Paths.v
PathResolution.v
PathValidation.v
Persist.v
PersistFacts.v
CriticalPath.v
RiskClassifier.v
Evaluator.v
EvaluatorFacts.v
ModeTransition.v
ShadowedRules.v
Prompter.v
Heap.v
TurnQueue.v
QueueProcessor.v
ProcessorLoop.v
GoBase.v
RunCost.v
RunUsage.v
RunUsageFacts.v
RunBooks.v
RunSystem.v
RunProperties.v
RunWaiters.v
RunCheckpoint.v
RunLedger.v
RunPublish.v
RunDurable.v
RunReplay.v
ProviderUsage.v
RunOwner.v
ModelCall.v
Retry.v
CallProperties.v
StreamEnd.v
Cron.v
CronTasks.v
RuntimeItem.v
InputCoordinator.v
InputFacts.v
InputInvariant.v
InputRun.v
InputRecovery.v
InputLife.v
InputClaims.v
InputProperties.v
Messages.v
ReloadPairing.v
ApiNormalize.v
ToolSchedule.v
ToolGuard.v
ToolExecutor.v
ToolExecutorFacts.v
GoalData.v
GoalPersistence.v
GoalService.v
GoalCalls.v
GoalMachine.v
GoalFacts.v
GoalRefinement.v
GoalSimulation.v
GoalBooks.v
GoalProperties.v
RuntimeEvents.v
RuntimeStore.v
RuntimeStoreFacts.v
RuntimeStoreProperties.v
