(* ===== verification/Prelude.v ===== *)
(** * YHC: permissions, accounting, schedules, input, tool rounds, goals and runtime state

    YHC is a coding-agent runtime written in Go: a model proposes tool calls
    (shell commands, file edits, searches), and the runtime decides which of
    them run.  This library models nine parts of the engine and proves what
    makes them correct:

    - the permission kernel, [src/engine/permission], which takes that decision;
    - the queues that order the work of a session, [src/engine/queue];
    - the accounting of provider calls, their budgets and retries,
      [src/engine/execution];
    - the scheduler of recurring prompts, [src/engine/cron];
    - the runtime input coordinator, [src/engine/input_coordinator.go] and the
      durable prompts of [runtime_prompt_persistence.go];
    - the conversation history: its repair when a session is loaded
      ([src/engine/reload_pairing.go]) and the messages of a request
      ([src/engine/query.go]);
    - the round of tool calls: its schedule ([tool_schedule.go],
      [tool_orchestration.go]), the guard against repeated calls
      ([repeated_tool_guard.go]) and the executor that runs the calls
      ([execution/streaming.go]);
    - the goal of a session, which the model pursues over many turns
      ([goal_state.go] and the other [goal_*.go] files of [src/engine], and
      [transcript/goal_usage.go]);
    - the store of runtime state ([runtime_state.go]), which folds the events
      of a session ([events.go]) into the snapshots that user interfaces show.

    ** How the parts interact

    A proposed call is a tool name and an input (a JSON object).  The
    evaluator asks, in this order: the denial tracker (was the same operation
    denied less than thirty seconds ago?), the session store (did the user
    settle such operations?), the permission rules loaded from the settings
    files (which of the matching rules is the most specific?), the permission
    mode, the containment check of the acceptEdits mode, and the risk
    classifier, which for shell commands rests on the scanners of
    [bash_security.go].  An answer "ask" goes to the prompter, a rendezvous
    between the requesting goroutine and the user interface; the user's answer
    may be persisted in the session store or as a rule in a settings file.
    Changing the mode cleans up the store and the tracker.

    Everything that reaches a session (prompts of the user, messages of agents,
    hooks, goal continuations, stops) goes through the input coordinator, which
    writes it to a ledger before it can be seen; the query loop claims items at
    its safe points, and settles or releases them.  Each request to a model is
    admitted by the usage collector of the run, which may reserve its largest
    cost and make it wait for headroom; the call is retried under an attempt
    budget, and every admitted call is settled, marked ambiguous or released.
    The collector publishes checkpoints that a reader validates later.  The
    scheduler reads the tasks of a project and hands those that are due to the
    session.

    The conversation that a request carries is normalised first; when a session
    is resumed, the stored one is repaired.  The calls of the answer are collected
    while it streams and released together when the answer is committed; each of
    them takes a ticket of the repeated-call guard in the order of the model, and
    their results come back in that order.

    A session may have a goal.  Its service is the only owner of it: each
    operation builds the next goal, writes it into the checkpoint of the session
    and only then installs it.  While a turn works for the goal, every call of a
    provider is admitted into the checkpoint before it is sent and recorded in a
    ledger of the transcript when it is answered; a turn that completes without
    finishing the goal plans a continuation, an item of the input coordinator.  A
    restart reads the checkpoint back and reconciles it with the ledger and with
    the coordinator.

    What happens in a session is published as a stream of events.  A sequencer
    numbers the events of every thread, and the store of runtime state checks
    each of them against its snapshots and reduces it: conversations, tools,
    requests that wait for an answer, the plan and the goal of a thread, agents
    and their executions, tasks and worktrees, each within a limit.  An event
    about the goal carries a snapshot of the record that the goal service wrote,
    which the store validates with the validator of saved goals.

    ** Files, in dependency order

    - [Prelude] (this file): byte strings, errors, tactics, hint databases,
      lemmas on lists, finite sequences of steps.
    - [GoStrings], [Regex], [Paths], [Heap]: the parts of Go's standard
      library that the code calls, as far as it uses them: package [strings]
      on byte strings; [regexp] (parser, backtracking matcher, and its
      correctness with respect to the denotational relation [matches]);
      [path/filepath] on Unix ([Clean], [Join], [Dir], [Base], [Rel],
      [Match]); [container/heap] with the proof that [up] and [down] restore
      the heap order.
    - [ShellMatch], [ShellMatchFacts]: [shell_match.go], the matching of
      exact, prefix and wildcard shell rules; the wildcard chain of textual
      rewrites ending in a regular expression is proved equal to a
      three-line glob matcher.
    - [Rules]: [rules.go], the rules engine and the rule-string parser.
      [GoFormat] is the class of the formatting functions of package [fmt] and
      [encoding/json] that the engine falls back to.
    - [Precedence]: [precedence.go], specificity of matches and the decision
      that also names the winning rule.
    - [Mode]: [mode.go].
    - [DenialTracking]: [denial_tracking.go], counters, bounded history, rate
      limiter; specification: functions of the log of operations.
    - [SessionStore]: [session_store.go], the persisted decisions, loads from
      files included; specification: key by key, the decisions that the log of
      operations leaves under it.
    - [BashLex]: the byte scanners of [bash_security.go]
      ([SplitCommands], [DetectHeredoc], redirections, pipes, background).
    - [BashSecurity]: substitutions, dangerous patterns, [sed] writes,
      sensitive paths and [AnalyzeCommandSecurity] of [bash_security.go].
    - [ReadOnly]: the read-only classification of the same
      file.
    - [PathResolution]: [path_resolution.go] and [accept_edits.go] over the
      class [Host], which stands for the operating system ([GOOS], [Lstat],
      [Readlink], [EvalSymlinks]).
    - [PathValidation]: [path_validation.go].
    - [Persist], [PersistFacts]: [loader.go] and [persist.go], rule strings and
      the settings documents.
    - [CriticalPath]: [bash_critical_path.go], the removal of critical paths.
    - [RiskClassifier]: [risk_classifier.go].
    - [Evaluator], [EvaluatorFacts]: [evaluator.go], the whole pipeline.
    - [ModeTransition]: [mode_transition.go].
    - [ShadowedRules]: [shadowed_rules.go] and [bypass_killswitch.go].
    - [Prompter]: [check.go]; the prompter and [ResolveOnce] are step
      relations, so that every interleaving of their goroutines is covered.
    - [TurnQueue]: [queue/queue.go], the per-session queue, [Wait] as a step
      relation, and the queue manager with its shared store of queues.
    - [QueueProcessor]: [queue/processor.go], the priority queue, [Process] and
      [Drain].
    - [ProcessorLoop]: the processor of the same file as its callers and its
      goroutines share it, a step relation.
    - [GoBase]: more of Go's libraries: error trees with [errors.Is] and
      [errors.As]; machine integers at their width and decimal text; instants,
      the Gregorian calendar and locations; [unicode/utf8].
    - [RunCost]: [execution/run_cost.go], price cards, amounts and labels.
    - [RunUsage]: [run_usage.go], [run_usage_ledger.go] and
      [run_usage_checkpoint.go], the collector of a run.
    - [RunUsageFacts], [RunBooks], [RunSystem], [RunProperties], [RunWaiters]:
      the collector as the summary of a book with one entry per call, the
      transition system of a run, its invariants, and the callers that wait for
      headroom.
    - [RunCheckpoint]: [run_usage_checkpoint_validate.go], the reader of
      checkpoints; [RunLedger], [RunPublish], [RunDurable], [RunReplay]: it
      accepts what a run publishes.
    - [ProviderUsage]: [provider_usage.go] and [provider_usage_composite.go], the
      interface between callers and owners of accounts, with its laws as the
      class [Lawful]; [RunOwner]: the collector satisfies it.
    - [ModelCall]: the accounting of [call.go] and [generate_usage.go];
      [Retry]: [retry.go]; [CallProperties]: what they guarantee together,
      proved against [Lawful].
    - [StreamEnd]: [finish_reason.go] and [fallback.go].
    - [Cron]: cron expressions and their next run
      ([cron/cron.go]); [CronTasks]: the tasks file and the
      scheduler ([cron.go] and [storage.go]), in a state monad over a world
      with faulty file operations.
    - [RuntimeItem]: the items of the input coordinator, their validation and
      their receipts; [InputCoordinator]: its operations, one function from
      the state (memory and ledger) to the next, with failing writes, and its
      recovery; [InputFacts], [InputInvariant], [InputRun]: the invariant of
      every run of operations; [InputRecovery], [InputLife]: the recovery
      of a ledger, and the invariant of a coordinator that is stopped at any
      point and opened again; [InputClaims]: the ownership of claimed items;
      [InputProperties]: the theorems.
    - [Messages]: the messages of a conversation; [ReloadPairing]:
      the repair of a loaded one ([reload_pairing.go]);
      [ApiNormalize]: the messages of a request
      ([query.go]).
    - [ToolSchedule]: the schedule of a round, the decision
      after it and the batches ([tool_schedule.go], [tool_orchestration.go]);
      [ToolGuard]: the guard against repeated calls as a step relation over its
      tickets ([repeated_tool_guard.go]); [ToolExecutor], [ToolExecutorFacts]:
      the executor of streamed calls ([execution/streaming.go]), an operation
      per method, with its invariant over all runs and the goroutines that run
      beside the statuses of its tools.
    - [GoalData]: the goal, its texts, bindings and
      continuation cursors; [GoalPersistence]: the validator and the reader of
      saved goals, the ledger and its inspection; [GoalService]: the operations
      of the user and of the turns (a control request is two steps, the
      comparison and the change, with others in between); [GoalCalls]: provider calls, delivery and
      recovery, and the operations of a session as one type [op].
      [GoalMachine]: the abstract machine, whose steps are the changes a goal
      may undergo and the writes that carry them; [GoalFacts]: when the record
      of a goal is accepted; [GoalRefinement], [GoalSimulation]: every
      operation is a run of the machine; [GoalBooks]: the ledger and the goal
      agree; [GoalProperties]: the theorems, with a session as example.
    - [RuntimeEvents]: the events, their payloads and the snapshot of a goal
      ([events.go], [projection_lifecycle.go], [worktree/types.go]);
      [RuntimeStore]: the store with its checks, its reductions, the restore
      operations and the selectors ([runtime_state.go]), and the sequencer
      ([runtime_events.go]); [RuntimeStoreFacts]: the orders of eviction, what
      each reduction leaves alone, the invariant of a thread and of the store;
      [RuntimeStoreProperties]: the operations as one type, their runs and the
      theorems, with a session as example.

    ** How Go is modelled

    A [string] is a list of bytes.  A struct is a record, an enumeration of
    string constants an inductive type; the values such a type can hold beside
    the constants are kept where the code can see them ([Mode]).  A map is a
    [gmap], a slice a list.  A pointer that may be [nil] is an option.  A
    method that mutates its receiver returns the new one; goroutines and
    channels are step relations whose labels are the atomic actions (a
    critical section, a send, a receive).  Times are integers of nanoseconds
    and the clock is an argument ([now]).  The counters of the tracker are
    unbounded integers, since their 64-bit width cannot be exhausted by
    counting denials.  An index loop is a recursion on the rest of the string.
    In the accounting, the schedules and the coordinator [uint64] and [int]
    values are integers with their wrap-around written out ([u64], [i64]).  An
    assignment to a field is written [x <| field := v |>].  An interface value
    is a record of functions, an optional method an [option].

    ** Fuel

    Loops whose body may skip several bytes take fuel and answer [None] when
    it runs out.  Every caller gives one unit per byte and one more; the
    totality theorems ([BashLex.scanners_terminate],
    [ReadOnly.word_extraction_terminates], and the last part of
    [PathResolution.resolution_well_formed] for the climb to an existing
    ancestor) show that this is enough for every input, so the default value
    behind [None] is never taken.  The regular-expression matcher repeats a
    star at most as often as there are bytes left, which
    [Regex.mt_correct] shows to be exact.  [QueueProcessor.Process] takes
    one unit per attempt left, which [process_terminates] shows to be enough.
    The retry loop runs as often as there are attempts ([retry_returns]); an
    admission that waits takes one round per wake-up, and its theorems hold for
    any number of rounds.  The loops of the runtime store that give up entries
    run as often as there are entries ([RuntimeStoreFacts.enforce_limit_bound],
    [enforce_executions_bound], [bound_tools_ok]).  The loops over the range of a cron field count in
    [int] and can run for ever, so the parser answers [None] when its bound is
    not enough: [Cron.cron_field_roundtrip] gives a bound that is, and
    [Cron.cron_range_endless] a range for which none is.

    ** What the theorems show

    - Decision: the evaluator allows exactly in the cases of
      [EvaluatorFacts.evaluate_allow_iff]; a winning deny rule is final in
      every mode; plan and dontAsk fail closed; a denial suppresses the same
      operation and no other; what is allowed without a rule is read-only.
    - Rules: deny over ask over allow whatever the order, agreement of the two
      evaluation paths, the winner is most specific, wildcards are globs.
    - Shell: splitting loses no text and splits at separators, what the read-only
      classification checks of a command, the scanners are total.
    - Paths: containment is a prefix of components, acceptEdits accepts exactly the
      calls whose paths, with every link on the way, stay inside; the removal classifier is exact on quoted targets and additive on lines.
    - State: the tracker refines its log, the session store refines its
      key-by-key specification, transitions are guarded and clean up, settings updates change only the
      rules asked for, rule strings and saved stores round-trip, the exact
      rule built for a command grants that command only.
    - Concurrency: delivery of prompter results, [ResolveOnce], no lost wake-up
      of a single waiter, sessions have separate queues, the processor loses no
      item, calls of [Process] included, and runs one goroutine until it is
      stopped.
    - Queues: refinement to two FIFO queues, heap order, sorted draining,
      termination of [Process].
    - Accounting: totals, routes and costs are the sums of the book, each of whose
      entries is charged for the usage that a settlement of its call reported;
      sums do not wrap, limits hold at every moment, reservations cap the exposure, a waiter
      is woken when its request fits, published checkpoints are accepted by
      their reader.
    - Calls: a failed call is settled, the requests of one logical request stay
      within its budget, which its retry loops share, the retry loop returns, a refused combination of
      owners releases what it admitted.
    - Schedules: fields parse to what they denote, the next run is the first
      matching minute, the tasks file refines a list, a check fires exactly the
      due tasks.
    - Input: over the life of a coordinator, stops and openings included, the
      queue is well-formed and its ledger up to date whatever writes fail; a
      reopened ledger gives back the items that the transcript does not have; a claimed item is not handed
      out again before it is released; claims follow priority and order; a retry
      of an acknowledged prompt adds nothing.
    - History: a loaded conversation is repaired so that every call has exactly
      one result right after its message; a resumed one ends as the kind of
      interruption says; a request satisfies the rules of the providers, and the
      pairing of requests leaves a repaired conversation alone.
    - Tool rounds: a schedule exists for exactly the well-formed rounds and its
      batches are those of the orchestrator; the branch after a round; the guard
      counts consecutive repetitions and evaluates calls in order; the executor
      isolates the goroutines of unsafe tools, gives results back in the order of the model,
      starts nothing after a stop, and answers every call of a committed round.
    - Goals: whatever writes fail, every operation refines the abstract machine;
      the tokens a goal has used are those of its ledger; one call at a time is
      in progress; a restart gives the goal back and counts what a crash left
      uncounted; completion is earned and final; a control
      request changes nothing when the goal is not the expected one at its
      comparison, and what may happen before its change is said; a goal whose continuation is out of date is refused.
    - Runtime state: whatever operations run, the store stays within its limits
      (the worktrees unless a restore of them is refused half-way); a request
      waits until it is answered, and its thread is not given up before; the
      recent events of a thread are the newest of its log, in the order of their
      numbers; the time shown for a thread is the time it ran; a turn that is
      over stays over.

    Closed examples beside the theorems record behaviours that differ from the
    comments of the source (for instance a newline that hides a command from
    the read-only classification); each says so.

    ** What is not modelled

    The other parts of the engine and the tools, the servers, the user
    interfaces, the storage and the providers; inside [permission], the files
    that wrap model calls or stores ([classifier.go], [approvals*.go],
    [review*.go], [handlers.go], [interactive.go], [settings.go], [setup.go],
    [explainer.go],
    [dangerous_patterns.go]); inside [execution], the provider options and
    headers of a call, the random jitter of a delay, the files of checkpoints and
    the observers of the HTTP transport; the loop of a query in [query.go] and
    the body of a tool call in [tool_execution.go] (hooks, permissions, the tool
    itself), and the goroutines of [executeToolBatch]; the lock file of the scheduler; of the
    coordinator's collaborators, the image checks, the media
    store and the draft of the editor, which are parameters (the goal cursors
    are the class [ItemChecks] there, and [GoalData.validateGoalItem] here); of
    the goal, the slash command
    and the JSON of its tools, and the raw encoding of old admissions;
    the delivery of runtime events to their channels, the builders and the
    redaction of canonical projections, and payload fields that no reducer reads.
    JSON encoding, the file system and the callbacks
    are parameters with the hypotheses a theorem needs; of the coordinator's
    ledger, the one effect of JSON on its fields is modelled, the replacement of
    invalid UTF-8 ([InputCoordinator.json_text]).  [RecordGoalUsage] runs outside
    the locks of the goal and is one step here with the settlement around it;
    [GoalCalls.restore] is the restart of a process, not the resumption of a
    session inside one.  Mutexes are not
    modelled where every operation is one critical section.  [ToLower]
    lowers ASCII and the two other code points whose lower case is an ASCII
    letter, which is all that its comparisons with ASCII text can see.  Log
    output and the wording of error messages are left out where no decision
    depends on them.

    ** Order of the work

    Modelled first: the decision pipeline and everything it calls; then the
    state it keeps, the prompter and the queues; then the accounting of a run,
    model calls and retries, the scheduler and the input coordinator; then the
    history and the rounds of tool calls; then the goal and the runtime state.
    Next: the assembly of streamed messages, context compaction and the workboard;
    [dangerous_patterns.go], the approval and review stores and the settings
    facade. *)

From Stdlib Require Export Ascii ZArith Lia.
From Stdlib Require String.
From stdpp Require Export base gmap strings list sorting fin_maps.

(** ** Byte strings

    A Go [string] is an immutable sequence of bytes; it is modelled as a list
    of [ascii] (eight-bit characters), so that indexing, slicing and the loops
    [for i < n] of the source become list operations.  [lit] turns a Rocq
    string literal into such a list. *)

Abbreviation bytes := (list ascii).

Definition lit (s : string) : bytes := String.list_ascii_of_string s.

Declare Scope go_scope.
Delimit Scope go_scope with go.
Open Scope go_scope.

(** Go's [==] on comparable values, as a boolean. *)
Notation "x ==b y" := (bool_decide (x = y)) (at level 70, no associativity) : go_scope.
Notation "x <>b y" := (negb (bool_decide (x = y))) (at level 70, no associativity) : go_scope.

(** ** Errors

    Go's [(T, error)] results are values of a sum: [Ok] carries the value,
    [Err] the error. *)

Inductive result (E A : Type) : Type :=
| Ok (a : A)
| Err (e : E).
Arguments Ok {E A} a.
Arguments Err {E A} e.

Definition is_Ok {E A} (r : result E A) : bool :=
  match r with Ok _ => true | Err _ => false end.

(** ** Tactics *)

(** Case analysis on the scrutinee of a [match] or [if] of the goal, or of a
    hypothesis, keeping the equation. *)
Ltac split_match :=
  match goal with
  | |- context [ match ?e with _ => _ end ] => destruct e eqn:?
  end.

Ltac split_match_in H :=
  match type of H with
  | context [ match ?e with _ => _ end ] => destruct e eqn:?
  end.

(** Boolean reflection: turns the boolean connectives and [bool_decide] of the
    hypotheses into propositions. *)
Ltac breflect :=
  repeat match goal with
  | H : (_ && _) = true |- _ => apply andb_true_iff in H; destruct H
  | H : (_ || _) = false |- _ => apply orb_false_iff in H; destruct H
  | H : negb _ = true |- _ => apply negb_true_iff in H
  | H : negb _ = false |- _ => apply negb_false_iff in H
  | H : bool_decide _ = true |- _ => apply bool_decide_eq_true in H
  | H : bool_decide _ = false |- _ => apply bool_decide_eq_false in H
  end.

(** Decides the comparisons of string literals of the goal. *)
Ltac lits :=
  repeat match goal with
  | |- context [bool_decide (lit ?a = lit ?b)] =>
      let v := eval vm_compute in (bool_decide (lit a = lit b)) in
      change (bool_decide (lit a = lit b)) with v
  end; cbn [negb orb andb].

Create HintDb yhc.
#[export] Hint Constructors Forall : yhc.
Create Rewrite HintDb yhc_rw.

(** ** Updating one field of a record

    [x <| field := v |>] is the assignment [x.field = v] of the source and
    [x <| field ::= f |>] the assignment [x.field = f(x.field)].  A record
    declares the list of its fields by an instance of [Eta]; the function that
    rebuilds it with one field changed is found from that list. *)

Class Eta (R : Type) := eta : R -> R.
Class Setter {R E : Type} (getter : R -> E) := set : (E -> E) -> R -> R.
Arguments set {R E} getter {_} f x.

Ltac find_setter R getter :=
  let i := constr:(_ : Eta R) in
  let e := eval cbv delta [eta] in i in
  let e := lazymatch e with
           | (fun x => _) => e
           | _ => eval unfold e in e
           end in
  lazymatch eval pattern getter in e with
  | ?u _ => let r := eval cbv beta in (fun f => u (fun x => f (getter x))) in exact r
  end.

#[export] Hint Extern 1 (@Setter ?R _ ?getter) => find_setter R getter : typeclass_instances.

Notation "x <| field ::= f |>" := (set field f x)
  (at level 1, left associativity) : go_scope.
Notation "x <| field := v |>" := (set field (fun _ => v) x)
  (at level 1, left associativity) : go_scope.

(** ** Generic lemmas on lists *)

Section list_lemmas.
Context {A : Type}.
Implicit Types (l : list A) (x : A).

(** The loop [best := l[0]; for m in l[1:] { if better(m, best) { best = m } }]. *)
Fixpoint select_best (better : A -> A -> bool) (best : A) (l : list A) : A :=
  match l with
  | [] => best
  | m :: l' => select_best better (if better m best then m else best) l'
  end.

Lemma select_best_elem better l b : select_best better b l ∈ b :: l.
Proof.
  revert b; induction l as [|m l IH]; intros b; simpl; [set_solver|].
  specialize (IH (if better m b then m else b)). destruct (better m b); set_solver.
Qed.

(** When [better] is a strict order whose negation is transitive (a strict
    weak order), the selected element is not beaten by any other. *)
Lemma select_best_max better l b :
  (forall x, better x x = false) ->
  (forall x y z, better x y = false -> better y z = false -> better x z = false) ->
  (forall x y, better x y = true -> better y x = false) ->
  forall y, y ∈ b :: l -> better y (select_best better b l) = false.
Proof.
  intros Hirr Htr Has. revert b. induction l as [|m l IH]; intros b y; simpl.
  - intros ->%list_elem_of_singleton. apply Hirr.
  - intros [->|[->|Hy]%elem_of_cons]%elem_of_cons.
    + destruct (better m b) eqn:E.
      * eapply Htr; [apply Has, E|]. apply IH. set_solver.
      * apply IH. set_solver.
    + destruct (better m b) eqn:E.
      * apply IH. set_solver.
      * eapply Htr; [exact E|]. apply IH. set_solver.
    + apply IH. set_solver.
Qed.

(** [existsb] and [forallb] as statements on membership. *)
Lemma existsb_elem_of (f : A -> bool) l :
  existsb f l = true <-> exists x, x ∈ l /\ f x = true.
Proof.
  rewrite existsb_exists. split; intros (x & Hx & Hf); exists x;
    [rewrite list_elem_of_In|rewrite <- list_elem_of_In]; auto.
Qed.

Lemma forallb_elem_of (f : A -> bool) l :
  forallb f l = true <-> forall x, x ∈ l -> f x = true.
Proof.
  rewrite forallb_forall. split; intros H x Hx; apply H;
    [rewrite <- list_elem_of_In|rewrite list_elem_of_In]; auto.
Qed.

Lemma prefix_of_app_l_inv l1 l2 l3 : l1 ++ l2 `prefix_of` l1 ++ l3 -> l2 `prefix_of` l3.
Proof. intros [k Hk]. exists k. rewrite <- app_assoc in Hk. by simplify_list_eq. Qed.
End list_lemmas.

(** A sum over a list when one element changes. *)
Lemma sum_list_with_insert {A} (f : A -> nat) (l : list A) i x y :
  l !! i = Some x -> sum_list_with f (<[i := y]> l) + f x = sum_list_with f l + f y.
Proof.
  revert i. induction l as [|a l IH]; intros [|i] Hi; try done.
  - injection Hi as ->. cbn. lia.
  - specialize (IH i Hi). change (<[S i := y]> (a :: l)) with (a :: <[i := y]> l).
    cbn [sum_list_with]. lia.
Qed.

(** ** Finite sequences of steps *)

Section steps.
Context {S L : Type} (step : S -> L -> S -> Prop).

Inductive steps : S -> list L -> S -> Prop :=
| steps_nil s : steps s [] s
| steps_cons s1 l s2 ls s3 :
    step s1 l s2 -> steps s2 ls s3 -> steps s1 (l :: ls) s3.

Lemma steps_invariant (P : S -> Prop) :
  (forall s l s', P s -> step s l s' -> P s') ->
  forall s ls s', steps s ls s' -> P s -> P s'.
Proof. intros Hp s ls s'. induction 1; eauto. Qed.

Lemma steps_snoc s ls s1 l s2 : steps s ls s1 -> step s1 l s2 -> steps s (ls ++ [l]) s2.
Proof. induction 1; intros; cbn; econstructor; eauto. constructor. Qed.

Lemma steps_app s1 ls s2 ls' s3 : steps s1 ls s2 -> steps s2 ls' s3 -> steps s1 (ls ++ ls') s3.
Proof. induction 1; intros; cbn; [done|]. econstructor; eauto. Qed.
End steps.
