(* ===== verification/GoStrings.v ===== *)
(** * Go's [strings] package on byte strings

    The functions of the Go standard library that the permission code calls,
    on [bytes]: white space as [unicode.IsSpace] sees it in UTF-8 text,
    [TrimSpace], [Fields], prefixes and suffixes, searches, [ReplaceAll],
    [Split]/[SplitN]/[Join] and ASCII case folding.  The functions that take a
    separator are used by the source with a non-empty one only. *)

From S2P Require Import Prelude.

(** ** Bytes *)

Definition byte_val (c : ascii) : N := N_of_ascii c.

(** A byte given by its value, for the bytes that have no literal. *)
Definition chr (n : N) : ascii := ascii_of_N n.

Definition NL : ascii := chr 10.
Definition TAB : ascii := chr 9.
Definition CR : ascii := chr 13.
Definition SP : ascii := " "%char.
Definition SQUOTE : ascii := "'"%char.
Definition DQUOTE : ascii := chr 34.
Definition BSLASH : ascii := "\"%char.
Definition BTICK : ascii := "`"%char.

Definition is_ascii_byte (c : ascii) : bool := (byte_val c <? 128)%N.

Definition in_range (lo hi : N) (c : ascii) : bool :=
  (lo <=? byte_val c)%N && (byte_val c <=? hi)%N.

Definition byte_is (n : N) (c : ascii) : bool := (byte_val c =? n)%N.

Definition is_upper (c : ascii) : bool := in_range 65 90 c.
Definition is_lower (c : ascii) : bool := in_range 97 122 c.
Definition is_digit (c : ascii) : bool := in_range 48 57 c.

(** ** White space

    [unicode.IsSpace] holds of six ASCII characters, of U+0085 and U+00A0
    (two bytes in UTF-8) and of U+1680, U+2000-U+200A, U+2028, U+2029, U+202F,
    U+205F and U+3000 (three bytes). *)

Definition is_space1 (a : ascii) : bool := in_range 9 13 a || byte_is 32 a.

Definition is_space2 (a b : ascii) : bool :=
  byte_is 194 a && (byte_is 133 b || byte_is 160 b).

Definition is_space3 (a b c : ascii) : bool :=
  (byte_is 225 a && byte_is 154 b && byte_is 128 c)
  || (byte_is 226 a && byte_is 128 b
      && (in_range 128 138 c || byte_is 168 c || byte_is 169 c || byte_is 175 c))
  || (byte_is 226 a && byte_is 129 b && byte_is 159 c)
  || (byte_is 227 a && byte_is 128 b && byte_is 128 c).

(** Drops the leading white space, the shape of the multi-byte spaces being
    given (they are read backwards at the end of a string). *)
Fixpoint trim_by (sp2 : ascii -> ascii -> bool) (sp3 : ascii -> ascii -> ascii -> bool)
    (s : bytes) : bytes :=
  match s with
  | [] => []
  | a :: s1 =>
      if is_space1 a then trim_by sp2 sp3 s1 else
      match s1 with
      | [] => s
      | b :: s2 =>
          if sp2 a b then trim_by sp2 sp3 s2 else
          match s2 with
          | [] => s
          | c :: s3 => if sp3 a b c then trim_by sp2 sp3 s3 else s
          end
      end
  end.

Definition trim_left (s : bytes) : bytes := trim_by is_space2 is_space3 s.

Definition trim_right (s : bytes) : bytes :=
  reverse (trim_by (fun a b => is_space2 b a) (fun a b c => is_space3 c b a) (reverse s)).

Definition TrimSpace (s : bytes) : bytes := trim_right (trim_left s).

(** [strings.Fields]: the maximal runs of non-space bytes.  [cur] is the field
    being read, in reverse. *)
Definition flush_field (cur : bytes) : list bytes :=
  match cur with [] => [] | _ => [reverse cur] end.

Fixpoint fields_from (cur s : bytes) : list bytes :=
  match s with
  | [] => flush_field cur
  | a :: s1 =>
      if is_space1 a then flush_field cur ++ fields_from [] s1 else
      match s1 with
      | [] => fields_from (a :: cur) s1
      | b :: s2 =>
          if is_space2 a b then flush_field cur ++ fields_from [] s2 else
          match s2 with
          | [] => fields_from (a :: cur) s1
          | c :: s3 =>
              if is_space3 a b c then flush_field cur ++ fields_from [] s3
              else fields_from (a :: cur) s1
          end
      end
  end.

Definition Fields (s : bytes) : list bytes := fields_from [] s.

(** ** Prefixes, suffixes and searches *)

Definition HasPrefix (s p : bytes) : bool := bool_decide (p `prefix_of` s).
Definition HasSuffix (s p : bytes) : bool := bool_decide (p `suffix_of` s).

(** [strings.Index]; [None] is [-1]. *)
Fixpoint Index (s sub : bytes) : option nat :=
  if HasPrefix s sub then Some 0 else
  match s with
  | [] => None
  | _ :: s' => S <$> Index s' sub
  end.

Definition Contains (s sub : bytes) : bool :=
  match Index s sub with Some _ => true | None => false end.

Definition IndexByte (s : bytes) (c : ascii) : option nat := Index s [c].

(** [strings.LastIndex] of a one-byte string. *)
Fixpoint LastIndexByte (s : bytes) (c : ascii) : option nat :=
  match s with
  | [] => None
  | a :: s' =>
      match LastIndexByte s' c with
      | Some i => Some (S i)
      | None => if a ==b c then Some 0 else None
      end
  end.

Definition ContainsAny (s chars : bytes) : bool :=
  existsb (fun c => bool_decide (c ∈ chars)) s.

Fixpoint IndexAny (s chars : bytes) : option nat :=
  match s with
  | [] => None
  | a :: s' => if bool_decide (a ∈ chars) then Some 0 else S <$> IndexAny s' chars
  end.

(** [strings.Count] of a non-empty [sub]: non-overlapping occurrences; [skip]
    bytes are still part of the last one found. *)
Fixpoint count_from (sub : bytes) (skip : nat) (s : bytes) : nat :=
  match s with
  | [] => 0
  | _ :: s' =>
      match skip with
      | S k => count_from sub k s'
      | O => if HasPrefix s sub then S (count_from sub (length sub - 1) s')
             else count_from sub 0 s'
      end
  end.

Definition Count (s sub : bytes) : nat := count_from sub 0 s.

(** [strings.ReplaceAll] of a non-empty [old]. *)
Fixpoint replace_from (old new : bytes) (skip : nat) (s : bytes) : bytes :=
  match s with
  | [] => []
  | c :: s' =>
      match skip with
      | S k => replace_from old new k s'
      | O => if HasPrefix s old then new ++ replace_from old new (length old - 1) s'
             else c :: replace_from old new 0 s'
      end
  end.

Definition ReplaceAll (s old new : bytes) : bytes := replace_from old new 0 s.

(** [strings.SplitN(s, sep, n)] for a non-empty [sep] and [n > 0]; [limit] is
    the number of cuts still allowed, [None] for [strings.Split]. *)
Fixpoint split_from (sep : bytes) (limit : option nat) (skip : nat) (cur s : bytes)
    : list bytes :=
  match s with
  | [] => [reverse cur]
  | c :: s' =>
      match skip with
      | S k => split_from sep limit k cur s'
      | O =>
          if HasPrefix s sep then
            match limit with
            | Some 0 => [reverse cur ++ s]
            | Some (S l) => reverse cur :: split_from sep (Some l) (length sep - 1) [] s'
            | None => reverse cur :: split_from sep None (length sep - 1) [] s'
            end
          else split_from sep limit 0 (c :: cur) s'
      end
  end.

Definition Split (s sep : bytes) : list bytes := split_from sep None 0 [] s.
Definition SplitN (s sep : bytes) (n : nat) : list bytes := split_from sep (Some (n - 1)) 0 [] s.

Fixpoint Join (l : list bytes) (sep : bytes) : bytes :=
  match l with
  | [] => []
  | [x] => x
  | x :: l' => x ++ sep ++ Join l' sep
  end.

(** [strings.ToLower].  The source only compares the result with ASCII text,
    so the model is exact on what decides such a comparison: the ASCII letters,
    and the two code points outside ASCII whose lower case is an ASCII letter,
    U+0130 (lower case [i]) and U+212A (lower case [k]); every other byte is
    kept. *)
Definition lower_byte (c : ascii) : ascii :=
  if is_upper c then chr (byte_val c + 32)%N else c.

Fixpoint ToLower (s : bytes) : bytes :=
  match s with
  | [] => []
  | a :: s1 =>
      match s1 with
      | [] => [lower_byte a]
      | b :: s2 =>
          if byte_is 196 a && byte_is 176 b then "i"%char :: ToLower s2 else
          match s2 with
          | [] => lower_byte a :: ToLower s1
          | c :: s3 =>
              if byte_is 226 a && byte_is 132 b && byte_is 170 c
              then "k"%char :: ToLower s3
              else lower_byte a :: ToLower s1
          end
      end
  end.

(** [strings.EqualFold] with an ASCII text that has neither [k] nor [s], the
    only ASCII letters that fold with a letter outside ASCII. *)
Definition EqualFold (s t : bytes) : bool := map lower_byte s ==b map lower_byte t.

(** ** Lemmas *)

Section trim_lemmas.
Context (sp2 : ascii -> ascii -> bool) (sp3 : ascii -> ascii -> ascii -> bool).
Abbreviation trim := (trim_by sp2 sp3).

(** Induction on the length: [trim_by] may drop up to three bytes at once. *)
Lemma trim_by_suffix s : trim s `suffix_of` s.
Proof.
  induction s as [s IH] using (induction_ltof1 _ length); unfold ltof in IH.
  destruct s as [|a [|b [|c s]]]; simpl; repeat case_match; try done;
    first [apply suffix_cons_r | idtac]; try done;
    repeat first [ done | apply suffix_cons_r | apply IH; simpl; lia ].
Qed.

Lemma trim_by_idemp s : trim (trim s) = trim s.
Proof.
  induction s as [s IH] using (induction_ltof1 _ length); unfold ltof in IH.
  destruct s as [|a [|b [|c s]]]; simpl.
  - done.
  - destruct (is_space1 a) eqn:Ea; simpl; rewrite ?Ea; done.
  - destruct (is_space1 a) eqn:Ea; [apply (IH [b]); simpl; lia|].
    destruct (sp2 a b) eqn:Eb; simpl; rewrite ?Ea, ?Eb; done.
  - destruct (is_space1 a) eqn:Ea; [apply (IH (b :: c :: s)); simpl; lia|].
    destruct (sp2 a b) eqn:Eb; [apply (IH (c :: s)); simpl; lia|].
    destruct (sp3 a b c) eqn:Ec; [apply IH; simpl; lia|].
    simpl; rewrite Ea, Eb, Ec; done.
Qed.

(** Text that does not start with white space: neither does a prefix of it. *)
Lemma trim_by_prefix s t : trim s = s -> t `prefix_of` s -> trim t = t.
Proof.
  intros Hs [k ->].
  assert (Hlen : forall u v : bytes, v `suffix_of` u -> length v <= length u)
    by (intros; by apply suffix_length).
  destruct t as [|a [|b [|c t]]]; simpl in *; [done| | |].
  - destruct (is_space1 a) eqn:Ea; [|done].
    pose proof (Hlen _ _ (trim_by_suffix k)). apply (f_equal length) in Hs. simpl in *; lia.
  - destruct (is_space1 a) eqn:Ea.
    { pose proof (Hlen _ _ (trim_by_suffix (b :: k))). apply (f_equal length) in Hs.
      simpl in *; lia. }
    destruct (sp2 a b) eqn:Eb; [|done].
    pose proof (Hlen _ _ (trim_by_suffix k)). apply (f_equal length) in Hs. simpl in *; lia.
  - destruct (is_space1 a) eqn:Ea.
    { pose proof (Hlen _ _ (trim_by_suffix (b :: c :: t ++ k))).
      apply (f_equal length) in Hs. simpl in *; lia. }
    destruct (sp2 a b) eqn:Eb.
    { pose proof (Hlen _ _ (trim_by_suffix (c :: t ++ k))).
      apply (f_equal length) in Hs. simpl in *; lia. }
    destruct (sp3 a b c) eqn:Ec; [|done].
    pose proof (Hlen _ _ (trim_by_suffix (t ++ k))). apply (f_equal length) in Hs.
    simpl in *; lia.
Qed.
End trim_lemmas.

Lemma trim_right_prefix s : trim_right s `prefix_of` s.
Proof.
  unfold trim_right. rewrite <- (reverse_involutive s) at 2.
  destruct (trim_by_suffix (fun a b => is_space2 b a) (fun a b c => is_space3 c b a)
              (reverse s)) as [k Hk].
  exists (reverse k). rewrite <- reverse_app, <- Hk. done.
Qed.

Lemma trim_right_idemp s : trim_right (trim_right s) = trim_right s.
Proof. unfold trim_right. rewrite reverse_involutive, trim_by_idemp. done. Qed.

Lemma TrimSpace_left s : trim_left (TrimSpace s) = TrimSpace s.
Proof.
  apply trim_by_prefix with (s := trim_left s); [apply trim_by_idemp|].
  apply trim_right_prefix.
Qed.

Lemma TrimSpace_idemp s : TrimSpace (TrimSpace s) = TrimSpace s.
Proof.
  unfold TrimSpace at 1. rewrite TrimSpace_left. apply trim_right_idemp.
Qed.

(** [TrimSpace] returns a part of its argument. *)
Lemma TrimSpace_sub s : exists pre post, s = pre ++ TrimSpace s ++ post.
Proof.
  destruct (trim_by_suffix is_space2 is_space3 s) as [pre Hpre].
  destruct (trim_right_prefix (trim_left s)) as [post Hpost].
  exists pre, post. unfold TrimSpace. rewrite <- Hpost. exact Hpre.
Qed.

Lemma HasPrefix_true s p : HasPrefix s p = true <-> p `prefix_of` s.
Proof. apply bool_decide_eq_true. Qed.

Lemma HasPrefix_cons_ne s c d p : c <> d -> HasPrefix (c :: s) (d :: p) = false.
Proof.
  intros Hne. apply bool_decide_eq_false. intros H. apply Hne.
  symmetry. by eapply prefix_cons_inv_1.
Qed.

Lemma HasPrefix_cons s c p : HasPrefix (c :: s) (c :: p) = HasPrefix s p.
Proof.
  unfold HasPrefix. apply bool_decide_ext. split.
  - apply prefix_cons_inv_2.
  - apply prefix_cons.
Qed.

Lemma HasPrefix_app s p : HasPrefix (p ++ s) p = true.
Proof. apply HasPrefix_true. by apply prefix_app_r. Qed.

Lemma HasPrefix_nil s : HasPrefix s [] = true.
Proof. apply HasPrefix_true, prefix_nil. Qed.

Lemma replace_from_skip old new k s :
  replace_from old new k s = replace_from old new 0 (drop k s).
Proof.
  revert k; induction s as [|c s IH]; intros [|k]; simpl; try done.
Qed.

(** The equations of [ReplaceAll]. *)
Lemma ReplaceAll_match old new s :
  old <> [] -> ReplaceAll (old ++ s) old new = new ++ ReplaceAll s old new.
Proof.
  intros Hne. destruct old as [|a old]; [done|]. unfold ReplaceAll.
  cbn [app replace_from]. change (a :: old ++ s) with ((a :: old) ++ s).
  rewrite HasPrefix_app. f_equal.
  rewrite replace_from_skip. f_equal. simpl.
  rewrite Nat.sub_0_r. apply drop_app_length.
Qed.

Lemma ReplaceAll_nomatch old new c s :
  HasPrefix (c :: s) old = false -> ReplaceAll (c :: s) old new = c :: ReplaceAll s old new.
Proof. intros H. unfold ReplaceAll. cbn [replace_from]. by rewrite H. Qed.

Lemma ReplaceAll_nil old new : ReplaceAll [] old new = [].
Proof. done. Qed.

(** Counting a single byte. *)
Lemma Count_nil sub : Count [] sub = 0.
Proof. done. Qed.

Lemma Count_byte c s d : Count (c :: s) [d] = (if c ==b d then 1 else 0) + Count s [d].
Proof.
  unfold Count. cbn [count_from length Nat.sub].
  destruct (decide (c = d)) as [->|Hne].
  - rewrite HasPrefix_cons, HasPrefix_nil, bool_decide_eq_true_2 by done. done.
  - rewrite HasPrefix_cons_ne, bool_decide_eq_false_2 by done. done.
Qed.

Lemma Index_Some s sub i : Index s sub = Some i -> sub `prefix_of` drop i s.
Proof.
  revert i; induction s as [|c s IH]; intros i; simpl; destruct (HasPrefix _ _) eqn:E.
  - intros [= <-]. by apply HasPrefix_true in E.
  - done.
  - intros [= <-]. by apply HasPrefix_true in E.
  - intros (j & Hj & ->)%fmap_Some. by apply IH in Hj.
Qed.

Lemma Contains_app pre sub post : Contains (pre ++ sub ++ post) sub = true.
Proof.
  unfold Contains. induction pre as [|c pre IH]; simpl.
  - assert (H : HasPrefix (sub ++ post) sub = true) by apply HasPrefix_app.
    destruct (sub ++ post); simpl; by rewrite H.
  - destruct (HasPrefix _ _); [done|]. by destruct (Index _ _).
Qed.

Lemma Contains_true s sub : Contains s sub = true <-> exists pre post, s = pre ++ sub ++ post.
Proof.
  split.
  - unfold Contains. destruct (Index s sub) as [i|] eqn:E; [|done]. intros _.
    apply Index_Some in E as [k Hk]. exists (take i s), k. rewrite <- Hk.
    by rewrite take_drop.
  - intros (pre & post & ->). apply Contains_app.
Qed.

(** ** White space in ASCII text *)

Lemma byte_is_ascii n a : (128 <= n)%N -> is_ascii_byte a = true -> byte_is n a = false.
Proof.
  unfold is_ascii_byte, byte_is. rewrite N.ltb_lt, N.eqb_neq. lia.
Qed.

Lemma space2_ascii a b : is_ascii_byte a = true -> is_space2 a b = false.
Proof. intros Ha. unfold is_space2. by rewrite byte_is_ascii. Qed.

Lemma space3_ascii a b c : is_ascii_byte a = true -> is_space3 a b c = false.
Proof.
  intros Ha. unfold is_space3.
  by rewrite (byte_is_ascii 225 a), (byte_is_ascii 226 a), (byte_is_ascii 227 a) by done.
Qed.

(** ASCII text that starts (or ends) with no white space is left as it is. *)
Lemma trim_by_ascii sp2 sp3 c s :
  (forall a b, is_ascii_byte a = true -> is_ascii_byte b = true -> sp2 a b = false) ->
  (forall a b d, is_ascii_byte a = true -> is_ascii_byte d = true -> sp3 a b d = false) ->
  Forall (fun a => is_ascii_byte a = true) (c :: s) ->
  trim_by sp2 sp3 (c :: s) = c :: s <-> is_space1 c = false.
Proof.
  intros H2 H3 Hall. split.
  - cbn [trim_by]. destruct (is_space1 c); [|done]. intros Heq.
    pose proof (suffix_length _ _ (trim_by_suffix sp2 sp3 s)) as Hlen.
    rewrite Heq in Hlen. cbn in Hlen. lia.
  - intros Hc. cbn [trim_by]. rewrite Hc.
    destruct s as [|b s]; [done|]. apply Forall_cons in Hall as [Ha Hall].
    apply Forall_cons in Hall as [Hb Hall]. rewrite H2 by done.
    destruct s as [|d s]; [done|]. apply Forall_cons in Hall as [Hd _]. by rewrite H3.
Qed.

Lemma trim_left_ascii c s :
  Forall (fun a => is_ascii_byte a = true) (c :: s) ->
  trim_left (c :: s) = c :: s <-> is_space1 c = false.
Proof. apply trim_by_ascii; auto using space2_ascii, space3_ascii. Qed.

Lemma trim_right_ascii s c :
  Forall (fun a => is_ascii_byte a = true) (s ++ [c]) ->
  trim_right (s ++ [c]) = s ++ [c] <-> is_space1 c = false.
Proof.
  intros Hall. unfold trim_right. rewrite reverse_snoc.
  rewrite <- (trim_by_ascii (fun a b => is_space2 b a) (fun a b d => is_space3 d b a) c (reverse s));
    auto using space2_ascii, space3_ascii.
  - split; intros H.
    + apply (f_equal reverse) in H. by rewrite reverse_involutive, reverse_snoc in H.
    + rewrite H, reverse_cons, reverse_involutive. done.
  - rewrite <- reverse_snoc. by apply Forall_reverse.
Qed.

Lemma TrimSpace_fixed s : TrimSpace s = s <-> trim_left s = s /\ trim_right s = s.
Proof.
  split.
  - intros H. assert (Hl : trim_left s = s) by (rewrite <- H; apply TrimSpace_left).
    split; [done|]. unfold TrimSpace in H. by rewrite Hl in H.
  - intros [Hl Hr]. unfold TrimSpace. by rewrite Hl.
Qed.

#[export] Hint Rewrite TrimSpace_idemp HasPrefix_app HasPrefix_nil : yhc_rw.
