(* ===== verification/Regex.v ===== *)
(** * Go's [regexp] package

    The regular expressions of the permission code are kept as the strings of
    the source.  This file models the part of [regexp.Compile] they need (a
    lexer and a parser from the pattern text to an abstract syntax) and
    [MatchString] (an executable matcher, proved equivalent to a relational
    semantics of the syntax).

    Patterns and texts are byte strings; [.] and the negated classes consume
    one byte where Go consumes one UTF-8 sequence.  The source only uses them
    under [*] or [+] between ASCII atoms or whole characters, so the two agree
    on valid UTF-8 text (every JSON string is). *)

From S2P Require Import Prelude GoStrings.

(** ** Syntax *)

Inductive re : Type :=
| REps
| RCls (f : ascii -> bool)      (* one byte of a class *)
| RCat (a b : re)
| RAlt (a b : re)
| RStar (a : re)
| ROpt (a : re)
| RBegin                        (* ^ : beginning of text *)
| REnd                          (* $ : end of text *)
| RWordB.                       (* \b : ASCII word boundary *)

Definition RLit (c : ascii) : re := RCls (fun x => x ==b c).
Definition RPlus (a : re) : re := RCat a (RStar a).

(** ** Semantics

    A configuration is the byte before the current position, if any, and the
    rest of the text. *)

Definition conf : Type := option ascii * bytes.

Definition is_word (c : ascii) : bool := is_upper c || is_lower c || is_digit c || (c ==b "_"%char).

Definition is_word_opt (o : option ascii) : bool :=
  match o with Some c => is_word c | None => false end.

Definition at_word_boundary (p : option ascii) (s : bytes) : bool :=
  xorb (is_word_opt p) (is_word_opt (head s)).

Inductive matches : re -> conf -> conf -> Prop :=
| m_eps x : matches REps x x
| m_cls f p c s : f c = true -> matches (RCls f) (p, c :: s) (Some c, s)
| m_cat a b x y z : matches a x y -> matches b y z -> matches (RCat a b) x z
| m_alt_l a b x y : matches a x y -> matches (RAlt a b) x y
| m_alt_r a b x y : matches b x y -> matches (RAlt a b) x y
| m_star_nil a x : matches (RStar a) x x
| m_star_cons a x y z : matches a x y -> matches (RStar a) y z -> matches (RStar a) x z
| m_opt_nil a x : matches (ROpt a) x x
| m_opt_some a x y : matches a x y -> matches (ROpt a) x y
| m_begin s : matches RBegin (None, s) (None, s)
| m_end p : matches REnd (p, []) (p, [])
| m_wordb p s : at_word_boundary p s = true -> matches RWordB (p, s) (p, s).

(** ** The matcher

    [mt r p s k] looks for a match of [r] at [(p, s)] after which the
    continuation [k] accepts.  An iteration of a star that consumes nothing is
    not repeated, so [length s] iterations are enough. *)

(** The loop of a star, for a matcher [step] of its body. *)
Fixpoint star_loop (step : option ascii -> bytes -> (option ascii -> bytes -> bool) -> bool)
    (k : option ascii -> bytes -> bool) (n : nat) (p : option ascii) (s : bytes) : bool :=
  k p s || match n with
           | O => false
           | S n' => step p s (fun p' s' =>
                       (length s' <? length s)%nat && star_loop step k n' p' s')
           end.

Fixpoint mt (r : re) (p : option ascii) (s : bytes) (k : option ascii -> bytes -> bool)
    {struct r} : bool :=
  match r with
  | REps => k p s
  | RCls f => match s with c :: s' => f c && k (Some c) s' | [] => false end
  | RCat a b => mt a p s (fun p' s' => mt b p' s' k)
  | RAlt a b => mt a p s k || mt b p s k
  | RStar a =>
      star_loop (mt a) k (length s) p s
  | ROpt a => k p s || mt a p s k
  | RBegin => match p with None => k p s | Some _ => false end
  | REnd => match s with [] => k p s | _ => false end
  | RWordB => at_word_boundary p s && k p s
  end.

(** Unanchored search from a position on. *)
Fixpoint search (r : re) (p : option ascii) (s : bytes) : bool :=
  mt r p s (fun _ _ => true) ||
  match s with [] => false | c :: s' => search r (Some c) s' end.

(** [Regexp.MatchString]. *)
Definition MatchString (r : re) (s : bytes) : bool := search r None s.

(** ** Compilation *)

Inductive rtok : Type :=
| TCls (f : ascii -> bool)
| TDot | TStar | TPlus | TQuest | TOpen | TClose | TBar | TBegin | TEnd | TWordB.

(** [\s] of RE2: tab, line feed, form feed, carriage return, space. *)
Definition re_space (c : ascii) : bool :=
  byte_is 9 c || byte_is 10 c || byte_is 12 c || byte_is 13 c || byte_is 32 c.

Definition is_punct (c : ascii) : bool :=
  is_ascii_byte c && negb (is_upper c || is_lower c || is_digit c).

Definition lit_class (fold : bool) (c : ascii) : ascii -> bool :=
  if fold then fun x => lower_byte x ==b lower_byte c else fun x => x ==b c.

(** The lexer: [cls] is [Some (negated, members)] inside a bracket class. *)
Fixpoint rlex (fold : bool) (cls : option (bool * (ascii -> bool))) (s : bytes)
    : option (list rtok) :=
  match cls with
  | Some (neg, f) =>
      match s with
      | [] => None
      | a :: s1 =>
          if a ==b "]"%char then
            cons (TCls (fun x => xorb neg (f x))) <$> rlex fold None s1
          else
          match s1 with
          | [] => None
          | b :: s2 =>
              if a ==b BSLASH then
                if b ==b "s"%char
                then rlex fold (Some (neg, fun x => f x || re_space x)) s2
                else if b ==b "S"%char
                then rlex fold (Some (neg, fun x => f x || negb (re_space x))) s2
                else if is_punct b
                then rlex fold (Some (neg, fun x => f x || (x ==b b))) s2
                else None
              else
              match s2 with
              | [] => rlex fold (Some (neg, fun x => f x || lit_class fold a x)) s1
              | c :: s3 =>
                  if (b ==b "-"%char) && (c <>b "]"%char)
                  then rlex fold
                         (Some (neg, fun x => f x || in_range (byte_val a) (byte_val c) x)) s3
                  else rlex fold (Some (neg, fun x => f x || lit_class fold a x)) s1
              end
          end
      end
  | None =>
      match s with
      | [] => Some []
      | a :: s1 =>
          if a ==b BSLASH then
            match s1 with
            | [] => None
            | b :: s2 =>
                if b ==b "b"%char then cons TWordB <$> rlex fold None s2
                else if b ==b "s"%char then cons (TCls re_space) <$> rlex fold None s2
                else if b ==b "S"%char
                then cons (TCls (fun x => negb (re_space x))) <$> rlex fold None s2
                else if is_punct b
                then cons (TCls (fun x => x ==b b)) <$> rlex fold None s2
                else None
            end
          else if a ==b "["%char then
            match s1 with
            | [] => None
            | b :: s2 =>
                if b ==b "^"%char then rlex fold (Some (true, fun _ => false)) s2
                else rlex fold (Some (false, fun _ => false)) s1
            end
          else if a ==b "("%char then
            match s1 with
            | q :: c :: s3 =>
                if (q ==b "?"%char) && (c ==b ":"%char)
                then cons TOpen <$> rlex fold None s3
                else cons TOpen <$> rlex fold None s1
            | _ => cons TOpen <$> rlex fold None s1
            end
          else if a ==b ")"%char then cons TClose <$> rlex fold None s1
          else if a ==b "|"%char then cons TBar <$> rlex fold None s1
          else if a ==b "*"%char then cons TStar <$> rlex fold None s1
          else if a ==b "+"%char then cons TPlus <$> rlex fold None s1
          else if a ==b "?"%char then cons TQuest <$> rlex fold None s1
          else if a ==b "."%char then cons TDot <$> rlex fold None s1
          else if a ==b "^"%char then cons TBegin <$> rlex fold None s1
          else if a ==b "$"%char then cons TEnd <$> rlex fold None s1
          else cons (TCls (lit_class fold a)) <$> rlex fold None s1
      end
  end.

(** The parser: a stack of open groups.  A group is its finished alternatives
    and the factors of the current one, both in reverse; [q] says how the last
    factor was repeated (a second repetition operator is an error, a [?] after
    one only makes it lazy). *)
Inductive quant : Type := QNone | QGreedy | QLazy.

Record group := Group { g_alts : list re; g_cats : list re }.

Definition cat_of (cats : list re) : re := fold_left (fun acc a => RCat a acc) cats REps.

Definition re_of_group (g : group) : re :=
  fold_left (fun acc a => RAlt a acc) (g_alts g) (cat_of (g_cats g)).

Definition push (r : re) (g : group) : group := Group (g_alts g) (r :: g_cats g).

Definition repeat_last (f : re -> re) (q : quant) (g : group) : option group :=
  match q, g_cats g with
  | QNone, a :: cs => Some (Group (g_alts g) (f a :: cs))
  | _, _ => None
  end.

Fixpoint rparse (dotall : bool) (ts : list rtok) (stack : list group) (g : group) (q : quant)
    : option re :=
  match ts with
  | [] => match stack with [] => Some (re_of_group g) | _ => None end
  | t :: ts' =>
      match t with
      | TCls f => rparse dotall ts' stack (push (RCls f) g) QNone
      | TDot => rparse dotall ts' stack
                  (push (RCls (fun c => dotall || (c <>b NL))) g) QNone
      | TBegin => rparse dotall ts' stack (push RBegin g) QNone
      | TEnd => rparse dotall ts' stack (push REnd g) QNone
      | TWordB => rparse dotall ts' stack (push RWordB g) QNone
      | TStar => repeat_last RStar q g ≫= fun g' => rparse dotall ts' stack g' QGreedy
      | TPlus => repeat_last RPlus q g ≫= fun g' => rparse dotall ts' stack g' QGreedy
      | TQuest =>
          match q with
          | QGreedy => rparse dotall ts' stack g QLazy
          | _ => repeat_last ROpt q g ≫= fun g' => rparse dotall ts' stack g' QGreedy
          end
      | TBar => rparse dotall ts' stack
                  (Group (cat_of (g_cats g) :: g_alts g) []) QNone
      | TOpen => rparse dotall ts' (g :: stack) (Group [] []) QNone
      | TClose =>
          match stack with
          | [] => None
          | g' :: stack' => rparse dotall ts' stack' (push (re_of_group g) g') QNone
          end
      end
  end.

(** Well-formed UTF-8, which [regexp.Compile] requires of a pattern. *)
Definition is_cont (c : ascii) : bool := in_range 128 191 c.

Definition utf8_3 (a b c : ascii) : bool :=
  is_cont c &&
  ((byte_is 224 a && in_range 160 191 b) || (byte_is 237 a && in_range 128 159 b)
   || ((in_range 225 236 a || in_range 238 239 a) && is_cont b)).

Definition utf8_4 (a b c d : ascii) : bool :=
  is_cont c && is_cont d &&
  ((byte_is 240 a && in_range 144 191 b) || (byte_is 244 a && in_range 128 143 b)
   || (in_range 241 243 a && is_cont b)).

Fixpoint utf8_valid (s : bytes) : bool :=
  match s with
  | [] => true
  | a :: s1 =>
      if is_ascii_byte a then utf8_valid s1 else
      match s1 with
      | [] => false
      | b :: s2 =>
          if in_range 194 223 a && is_cont b then utf8_valid s2 else
          match s2 with
          | [] => false
          | c :: s3 =>
              if utf8_3 a b c then utf8_valid s3 else
              match s3 with
              | [] => false
              | d :: s4 => utf8_4 a b c d && utf8_valid s4
              end
          end
      end
  end.

(** [regexp.Compile]: the leading flag group, if any, then the expression. *)
Definition re_flags (s : bytes) : bool * bool * bytes :=
  if HasPrefix s (lit "(?is)") then (true, true, drop 5 s)
  else if HasPrefix s (lit "(?i)") then (true, false, drop 4 s)
  else if HasPrefix s (lit "(?s)") then (false, true, drop 4 s)
  else (false, false, s).

Definition Compile (s : bytes) : option re :=
  if utf8_valid s then
    let '(fold, dotall, body) := re_flags s in
    ts ← rlex fold None body;
    rparse dotall ts [] (Group [] []) QNone
  else None.

(** [regexp.MustCompile]; a pattern that does not compile matches nothing here
    (it would panic in Go).  Every pattern of the source compiles. *)
Definition MustCompile (s : bytes) : re :=
  match Compile s with Some r => r | None => RCls (fun _ => false) end.

(** ** The matcher decides the semantics *)

(** A match either consumes text or leaves the configuration as it was. *)
Lemma matches_progress r x y :
  matches r x y -> x = y \/ (length y.2 < length x.2)%nat.
Proof.
  induction 1; simpl in *;
    repeat match goal with H : _ \/ _ |- _ => destruct H; subst end; auto with lia.
Qed.

(** [mt] depends on its continuation extensionally, through its results. *)
Definition mt_correct_at (r : re) : Prop := forall p s k,
  mt r p s k = true <-> exists y, matches r (p, s) y /\ k y.1 y.2 = true.

Lemma star_loop_sound a k n p s :
  mt_correct_at a -> star_loop (mt a) k n p s = true ->
  exists y, matches (RStar a) (p, s) y /\ k y.1 y.2 = true.
Proof.
  intros Ha. revert p s. induction n as [|n IH]; intros p s; simpl.
  - rewrite orb_false_r. intros Hk. exists (p, s). split; [constructor|done].
  - intros [Hk|Hm]%orb_true_iff.
    + exists (p, s). split; [constructor|done].
    + apply Ha in Hm as ([p' s'] & Hm & Hk). simpl in Hk. breflect.
      destruct (IH p' s') as (y & Hy & Hky); [done|].
      exists y. split; [|done]. econstructor; eauto.
Qed.

Lemma star_loop_complete a k n x y :
  mt_correct_at a -> matches (RStar a) x y -> (length x.2 <= n)%nat ->
  k y.1 y.2 = true -> star_loop (mt a) k n x.1 x.2 = true.
Proof.
  intros Ha Hm. remember (RStar a) as r eqn:Er. revert n.
  induction Hm; try discriminate; injection Er as ->; intros n Hn Hk.
  - destruct n; simpl; by rewrite Hk.
  - destruct (matches_progress _ _ _ Hm1) as [->|Hlt]; [by apply IHHm2|].
    destruct n as [|n]; [lia|]. simpl. apply orb_true_iff. right.
    apply Ha. exists y. destruct x as [p s]. split; [done|]. simpl in *.
    apply andb_true_iff. split; [by apply Nat.ltb_lt|]. apply IHHm2; [done|lia|done].
Qed.

Lemma mt_correct_all r : mt_correct_at r.
Proof.
  induction r as [|f|a IHa b IHb|a IHa b IHb|a IHa|a IHa| | |]; intros p s k.
  - simpl. split.
    + intros Hk. exists (p, s). split; [constructor|done].
    + intros (y & Hm & Hk). by inversion Hm; subst.
  - simpl. split.
    + destruct s as [|c s]; [done|]. intros H; breflect. exists (Some c, s). by split; [constructor|].
    + intros (y & Hm & Hk). inversion Hm; subst. simpl in *. by apply andb_true_iff.
  - simpl. rewrite (IHa p s). split.
    + intros ([p' s'] & Hm & Hk). simpl in Hk. apply IHb in Hk as (z & Hz & Hk).
      exists z. split; [econstructor; eauto|done].
    + intros (z & Hm & Hk). inversion Hm; subst. destruct y as [p' s'].
      exists (p', s'). split; [done|]. simpl. apply IHb. eauto.
  - simpl. rewrite orb_true_iff, (IHa p s), (IHb p s). split.
    + intros [(y & Hm & Hk)|(y & Hm & Hk)]; exists y; (split; [|done]);
        [apply m_alt_l|apply m_alt_r]; done.
    + intros (y & Hm & Hk). inversion Hm; subst; [left|right]; eauto.
  - simpl. split.
    + by apply star_loop_sound.
    + intros (y & Hm & Hk). apply (star_loop_complete a k _ (p, s) y); auto.
  - simpl. rewrite orb_true_iff, (IHa p s). split.
    + intros [Hk|(y & Hm & Hk)]; [exists (p, s); split; [constructor|done]|].
      exists y. split; [by constructor|done].
    + intros (y & Hm & Hk). inversion Hm; subst; eauto.
  - simpl. split.
    + destruct p; [done|]. intros Hk. exists (None, s). by split; [constructor|].
    + intros (y & Hm & Hk). by inversion Hm; subst.
  - simpl. split.
    + destruct s; [|done]. intros Hk. exists (p, []). by split; [constructor|].
    + intros (y & Hm & Hk). by inversion Hm; subst.
  - simpl. rewrite andb_true_iff. split.
    + intros [Hb Hk]. exists (p, s). by split; [constructor|].
    + intros (y & Hm & Hk). by inversion Hm; subst.
Qed.

Lemma mt_correct r p s k :
  mt r p s k = true <-> exists y, matches r (p, s) y /\ k y.1 y.2 = true.
Proof. apply mt_correct_all. Qed.

(** [mt] respects pointwise equality of continuations. *)
Lemma mt_ext r p s k1 k2 :
  (forall p' s', k1 p' s' = k2 p' s') -> mt r p s k1 = mt r p s k2.
Proof.
  intros Hk. apply eq_true_iff_eq. rewrite !mt_correct.
  split; intros (y & Hm & Hy); exists y; (split; [done|]); congruence.
Qed.

#[export] Instance mt_proper r p s :
  Proper (pointwise_relation _ (pointwise_relation _ eq) ==> eq) (mt r p s).
Proof. intros k1 k2 Hk. apply mt_ext. exact Hk. Qed.

(** Before the text, the previous byte of a position inside it. *)
Definition conf_at (pre post : bytes) : conf := (last pre, post).

Lemma search_correct r pre s :
  search r (last pre) s = true <->
  exists skip rest y, s = skip ++ rest /\ matches r (conf_at (pre ++ skip) rest) y.
Proof.
  revert pre. induction s as [|c s IH]; intros pre; simpl; rewrite orb_true_iff, mt_correct.
  - split.
    + intros [(y & Hm & _)|]; [|done]. exists [], [], y. split; [done|]. by rewrite app_nil_r.
    + intros (skip & rest & y & Hs & Hm). left. symmetry in Hs.
      apply app_nil in Hs as [-> ->]. rewrite app_nil_r in Hm. eauto.
  - assert (Hl : Some c = last (pre ++ [c])) by (by rewrite last_snoc).
    rewrite Hl, IH. split.
    + intros [(y & Hm & _)|(skip & rest & y & -> & Hm)].
      * exists [], (c :: s), y. split; [done|]. by rewrite app_nil_r.
      * exists (c :: skip), rest, y. split; [done|].
        by rewrite <- app_assoc in Hm.
    + intros (skip & rest & y & Hs & Hm). destruct skip as [|c' skip]; simpl in *.
      * left. subst rest. rewrite app_nil_r in Hm. eauto.
      * right. injection Hs as -> ->. exists skip, rest, y. split; [done|].
        by rewrite <- app_assoc.
Qed.
