(* ===== verification/ShellMatch.v ===== *)
(** * Shell rule matching ([engine/permission/shell_match.go])

    [matchWildcardPattern] turns a rule pattern into a regular expression by a
    sequence of textual rewrites and runs it.  The model keeps every rewrite
    and the compilation; the main result is that, for ASCII patterns, the
    outcome is that of a direct glob matcher. *)

From S2P Require Import Prelude GoStrings Regex.

(** ** The code *)

Inductive ShellRuleType : Type := ShellRuleExact | ShellRulePrefix | ShellRuleWildcard.

#[export] Instance ShellRuleType_eq_dec : EqDecision ShellRuleType.
Proof. solve_decision. Defined.

Record ShellRule := {
  sr_Type : ShellRuleType;
  sr_Raw : bytes;
  sr_Command : bytes;
  sr_Prefix : bytes;
  sr_Pattern : bytes;
}.

(** [extractLegacyPrefix]: the prefix of a rule ["prefix:*"], [""] otherwise. *)
Definition extractLegacyPrefix (rule : bytes) : bytes :=
  if negb (HasSuffix rule (lit ":*")) then []
  else take (length rule - 2) rule.

(** Backslashes immediately before a position; [before] is the text before it,
    in reverse. *)
Fixpoint count_backslashes (before : bytes) : nat :=
  match before with
  | c :: before' => if c ==b BSLASH then S (count_backslashes before') else 0
  | [] => 0
  end.

Fixpoint has_unescaped_star (before s : bytes) : bool :=
  match s with
  | [] => false
  | c :: s' =>
      ((c ==b "*"%char) && Nat.even (count_backslashes before))
      || has_unescaped_star (c :: before) s'
  end.

Definition hasUnescapedWildcards (pattern : bytes) : bool :=
  if HasSuffix pattern (lit ":*") then false
  else has_unescaped_star [] pattern.

Definition ParseShellRule (rule : bytes) : ShellRule :=
  let prefix := extractLegacyPrefix rule in
  if prefix <>b [] then
    {| sr_Type := ShellRulePrefix; sr_Raw := rule; sr_Command := [];
       sr_Prefix := prefix; sr_Pattern := [] |}
  else if hasUnescapedWildcards rule then
    {| sr_Type := ShellRuleWildcard; sr_Raw := rule; sr_Command := [];
       sr_Prefix := []; sr_Pattern := rule |}
  else
    {| sr_Type := ShellRuleExact; sr_Raw := rule; sr_Command := rule;
       sr_Prefix := []; sr_Pattern := [] |}.

(** The sentinels U+F000 and U+F001, in UTF-8. *)
Definition escapedStarSentinel : bytes := [chr 239; chr 128; chr 128].
Definition escapedBackslashSentinel : bytes := [chr 239; chr 128; chr 129].

(** Phase 1: escape sequences become sentinels. *)
Fixpoint process_escapes (s : bytes) : bytes :=
  match s with
  | [] => []
  | ch :: s1 =>
      match s1 with
      | [] => [ch]
      | next :: s2 =>
          if ch ==b BSLASH then
            if next ==b "*"%char then escapedStarSentinel ++ process_escapes s2
            else if next ==b BSLASH then escapedBackslashSentinel ++ process_escapes s2
            else ch :: process_escapes s1
          else ch :: process_escapes s1
      end
  end.

(** [regexp.QuoteMeta]. *)
Definition meta_bytes : bytes := lit "\.+*?()|[]{}^$".
Definition quote_byte (c : ascii) : bytes :=
  if bool_decide (c ∈ meta_bytes) then [BSLASH; c] else [c].
Definition QuoteMeta (s : bytes) : bytes := flat_map quote_byte s.

(** Phases 1 to 4 of [matchWildcardPattern]: the body of the regular
    expression. *)
Definition wildcard_regex_body (pattern : bytes) : bytes :=
  let trimmed := TrimSpace pattern in
  let processedStr := process_escapes trimmed in
  let unescapedStarCount := Count processedStr (lit "*") in
  let normalized := ReplaceAll processedStr (lit "**") (lit "*") in
  let escaped := QuoteMeta normalized in
  let escaped := ReplaceAll escaped (lit "\*") (lit ".*") in
  let escaped := ReplaceAll escaped (QuoteMeta escapedStarSentinel) (lit "\*") in
  let escaped := ReplaceAll escaped (QuoteMeta escapedBackslashSentinel) (lit "\\") in
  if HasSuffix escaped (lit " .*") && (unescapedStarCount =? 1)
  then take (length escaped - 3) escaped ++ lit "( .*)?"
  else escaped.

Definition matchWildcardPattern (pattern command : bytes) : bool :=
  match Compile (lit "(?s)^" ++ wildcard_regex_body pattern ++ lit "$") with
  | None => pattern ==b command
  | Some re => MatchString re command
  end.

Definition MatchShellRule (pattern command : bytes) : bool :=
  let rule := ParseShellRule pattern in
  match sr_Type rule with
  | ShellRuleExact => command ==b sr_Command rule
  | ShellRulePrefix =>
      if command ==b sr_Prefix rule then true
      else HasPrefix command (sr_Prefix rule ++ lit " ")
  | ShellRuleWildcard => matchWildcardPattern (sr_Pattern rule) command
  end.

(** ** Specification: a glob matcher *)

Inductive gtok : Type := GStar | GLit (c : ascii).

#[export] Instance gtok_eq_dec : EqDecision gtok.
Proof. solve_decision. Defined.

(** The tokens of a pattern: ["\*"] and ["\\"] are literals. *)
Fixpoint glob_tokens (s : bytes) : list gtok :=
  match s with
  | [] => []
  | ch :: s1 =>
      let tok := if ch ==b "*"%char then GStar else GLit ch in
      match s1 with
      | [] => [tok]
      | next :: s2 =>
          if (ch ==b BSLASH) && ((next ==b "*"%char) || (next ==b BSLASH))
          then GLit next :: glob_tokens s2
          else tok :: glob_tokens s1
      end
  end.

(** Some suffix of the text satisfies [f]. *)
Fixpoint any_suffix (f : bytes -> bool) (s : bytes) : bool :=
  f s || match s with [] => false | _ :: s' => any_suffix f s' end.

Fixpoint glob_match (ts : list gtok) (s : bytes) : bool :=
  match ts with
  | [] => s ==b []
  | GLit c :: ts' => match s with x :: s' => (x ==b c) && glob_match ts' s' | [] => false end
  | GStar :: ts' => any_suffix (glob_match ts') s
  end.

(** A pattern with a single star, after a space at its end, also matches
    without the space. *)
Definition bare_tokens (ts : list gtok) : option (list gtok) :=
  match reverse ts with
  | GStar :: GLit c :: r =>
      if (c ==b " "%char) && bool_decide (GStar ∉ r) then Some (reverse r) else None
  | _ => None
  end.

Definition wildcard_spec (pattern command : bytes) : bool :=
  let ts := glob_tokens (TrimSpace pattern) in
  glob_match ts command
  || match bare_tokens ts with Some r => glob_match r command | None => false end.
