(* ===== verification/ShellMatchFacts.v ===== *)
(** * The wildcard matcher is a glob matcher

    The rewriting phases of [matchWildcardPattern] followed on a list of units
    (a star, an escaped star, an escaped backslash or a plain byte), down to
    the compiled regular expression. *)

From S2P Require Import Prelude GoStrings Regex ShellMatch.

Inductive unit : Type := UStar | UEscStar | UEscBack | ULit (c : ascii).

#[export] Instance unit_eq_dec : EqDecision unit.
Proof. solve_decision. Defined.

Fixpoint units (s : bytes) : list unit :=
  match s with
  | [] => []
  | ch :: s1 =>
      let u := if ch ==b "*"%char then UStar else ULit ch in
      match s1 with
      | [] => [u]
      | next :: s2 =>
          if ch ==b BSLASH then
            if next ==b "*"%char then UEscStar :: units s2
            else if next ==b BSLASH then UEscBack :: units s2
            else u :: units s1
          else u :: units s1
      end
  end.

(** The equation of [units] on two bytes or more, and those of the functions it
    mirrors. *)
Lemma units_cons2 a b s :
  units (a :: b :: s) =
  let u := if a ==b "*"%char then UStar else ULit a in
  if a ==b BSLASH then
    if b ==b "*"%char then UEscStar :: units s
    else if b ==b BSLASH then UEscBack :: units s
    else u :: units (b :: s)
  else u :: units (b :: s).
Proof. done. Qed.

Lemma glob_tokens_cons2 a b s :
  glob_tokens (a :: b :: s) =
  let tok := if a ==b "*"%char then GStar else GLit a in
  if (a ==b BSLASH) && ((b ==b "*"%char) || (b ==b BSLASH))
  then GLit b :: glob_tokens s
  else tok :: glob_tokens (b :: s).
Proof. done. Qed.

Lemma process_escapes_cons2 a b s :
  process_escapes (a :: b :: s) =
  if a ==b BSLASH then
    if b ==b "*"%char then escapedStarSentinel ++ process_escapes s
    else if b ==b BSLASH then escapedBackslashSentinel ++ process_escapes s
    else a :: process_escapes (b :: s)
  else a :: process_escapes (b :: s).
Proof. done. Qed.

Definition unit_tok (u : unit) : gtok :=
  match u with
  | UStar => GStar | UEscStar => GLit "*"%char | UEscBack => GLit BSLASH | ULit c => GLit c
  end.

(** A plain byte of a unit is an ASCII byte other than the star. *)
Definition unit_ok (u : unit) : Prop :=
  match u with ULit c => is_ascii_byte c = true /\ c <> "*"%char | _ => True end.

(** The text of a unit after each phase. *)
Definition enc (star estar eback : bytes) (q : ascii -> bytes) (u : unit) : bytes :=
  match u with UStar => star | UEscStar => estar | UEscBack => eback | ULit c => q c end.

Abbreviation S1 := escapedStarSentinel.
Abbreviation S2 := escapedBackslashSentinel.

Definition enc1 : unit -> bytes := enc (lit "*") S1 S2 (fun c => [c]).
Definition enc2 : unit -> bytes := enc (lit "\*") S1 S2 quote_byte.
Definition enc3 : unit -> bytes := enc (lit ".*") S1 S2 quote_byte.
Definition enc4 : unit -> bytes := enc (lit ".*") (lit "\*") S2 quote_byte.
Definition enc5 : unit -> bytes := enc (lit ".*") (lit "\*") (lit "\\") quote_byte.

Lemma units_tokens s : map unit_tok (units s) = glob_tokens s.
Proof.
  induction s as [s IH] using (induction_ltof1 _ length); unfold ltof in IH.
  destruct s as [|a [|b s]]; [done| |].
  - simpl. by case_bool_decide.
  - rewrite units_cons2, glob_tokens_cons2. cbv zeta.
    pose proof (IH s ltac:(simpl; lia)) as IH2. pose proof (IH (b :: s) ltac:(simpl; lia)) as IH1.
    destruct (a ==b BSLASH) eqn:Ea; simpl andb; cbv iota.
    2: { rewrite map_cons, IH1. f_equal. by destruct (a ==b "*"%char). }
    apply bool_decide_eq_true in Ea as ->.
    destruct (b ==b "*"%char) eqn:Eb; simpl orb; cbv iota.
    { apply bool_decide_eq_true in Eb as ->. rewrite map_cons, IH2. done. }
    destruct (b ==b BSLASH) eqn:Eb'.
    { apply bool_decide_eq_true in Eb' as ->. rewrite map_cons, IH2. done. }
    rewrite map_cons, IH1. done.
Qed.

Lemma units_ok s : Forall (fun c => is_ascii_byte c = true) s -> Forall unit_ok (units s).
Proof.
  induction s as [s IH] using (induction_ltof1 _ length); unfold ltof in IH.
  destruct s as [|a [|b s]]; intros Hs; [constructor| |].
  - apply Forall_cons in Hs as [Ha _]. simpl.
    case_bool_decide; repeat constructor; auto.
  - apply Forall_cons in Hs as [Ha Hs]. rewrite units_cons2. cbv zeta.
    assert (H1 : Forall unit_ok (units (b :: s))) by (apply IH; [simpl; lia|done]).
    assert (H2 : Forall unit_ok (units s))
      by (apply IH; [simpl; lia|by apply Forall_cons in Hs as [_ ?]]).
    assert (Hu : unit_ok (if a ==b "*"%char then UStar else ULit a))
      by (case_bool_decide; simpl; auto).
    repeat case_match; constructor; simpl; auto.
Qed.

(** Phase 1. *)
Lemma process_escapes_units s : process_escapes s = flat_map enc1 (units s).
Proof.
  assert (Hu : forall a, enc1 (if a ==b "*"%char then UStar else ULit a) = [a]).
  { intros a. case_bool_decide; subst; done. }
  induction s as [s IH] using (induction_ltof1 _ length); unfold ltof in IH.
  destruct s as [|a [|b s]]; [done| |].
  - cbn [process_escapes units flat_map]. by rewrite Hu.
  - rewrite process_escapes_cons2, units_cons2. cbv zeta.
    pose proof (IH s ltac:(simpl; lia)) as IH2. pose proof (IH (b :: s) ltac:(simpl; lia)) as IH1.
    rewrite IH2, IH1.
    destruct (a ==b BSLASH) eqn:Ea; [|cbn [flat_map]; by rewrite Hu].
    destruct (b ==b "*"%char) eqn:Eb; [done|].
    destruct (b ==b BSLASH) eqn:Eb'; [done|]. cbn [flat_map]; by rewrite Hu.
Qed.

(** The star count. *)
Definition star_count (us : list unit) : nat :=
  length (filter (fun u => u = UStar) us).

Lemma count_star_units us :
  Forall unit_ok us -> Count (flat_map enc1 us) (lit "*") = star_count us.
Proof.
  change (lit "*") with ["*"%char]. unfold star_count.
  induction 1 as [|u us Hu _ IH]; [done|]. rewrite filter_cons.
  destruct u as [| | |c]; cbn [flat_map enc1 enc unit_tok app]; change (lit "*") with ["*"%char];
    cbn [app escapedStarSentinel escapedBackslashSentinel]; rewrite !Count_byte, IH; try done.
  destruct Hu as [_ Hu]. rewrite bool_decide_eq_false_2 by done. done.
Qed.

(** Phase "**" to "*": pairs of adjacent stars are merged. *)
Fixpoint collapse (us : list unit) : list unit :=
  match us with
  | [] => []
  | u :: us1 =>
      match u, us1 with
      | UStar, UStar :: us2 => UStar :: collapse us2
      | _, _ => u :: collapse us1
      end
  end.

Lemma collapse_ok us : Forall unit_ok us -> Forall unit_ok (collapse us).
Proof.
  induction us as [us IH] using (induction_ltof1 _ length); unfold ltof in IH.
  destruct us as [|u us]; [done|]. intros [Hu Hus]%Forall_cons.
  assert (H1 : Forall unit_ok (collapse us)) by (apply IH; [simpl; lia|done]).
  destruct u; try (constructor; done). destruct us as [|v us]; [repeat constructor|].
  destruct v; try (constructor; done). constructor; [done|].
  apply IH; [simpl; lia|]. by apply Forall_cons in Hus as [_ ?].
Qed.

Lemma enc1_no_star u us :
  unit_ok u -> u <> UStar -> HasPrefix (enc1 u ++ flat_map enc1 us) (lit "*") = false.
Proof.
  intros Hu Hne. destruct u as [| | |c]; [done| | |];
    cbn [enc1 enc app escapedStarSentinel escapedBackslashSentinel]; apply HasPrefix_cons_ne; try done. by destruct Hu.
Qed.

Lemma ReplaceAll_starstar_skip u us :
  unit_ok u -> u <> UStar ->
  ReplaceAll (enc1 u ++ flat_map enc1 us) (lit "**") (lit "*")
  = enc1 u ++ ReplaceAll (flat_map enc1 us) (lit "**") (lit "*").
Proof.
  intros Hu Hne. destruct u as [| | |c]; [done| | |]; cbn [enc1 enc app escapedStarSentinel escapedBackslashSentinel].
  - do 3 (rewrite ReplaceAll_nomatch by (apply HasPrefix_cons_ne; done)). done.
  - do 3 (rewrite ReplaceAll_nomatch by (apply HasPrefix_cons_ne; done)). done.
  - rewrite ReplaceAll_nomatch; [done|]. apply HasPrefix_cons_ne. by destruct Hu.
Qed.

Lemma ReplaceAll_starstar us :
  Forall unit_ok us ->
  ReplaceAll (flat_map enc1 us) (lit "**") (lit "*") = flat_map enc1 (collapse us).
Proof.
  induction us as [us IH] using (induction_ltof1 _ length); unfold ltof in IH.
  destruct us as [|u us]; [done|]. intros [Hu Hus]%Forall_cons.
  assert (IH1 : ReplaceAll (flat_map enc1 us) (lit "**") (lit "*") = flat_map enc1 (collapse us))
    by (apply IH; [simpl; lia|done]).
  destruct (decide (u = UStar)) as [->|Hne].
  2: { cbn [flat_map]. rewrite ReplaceAll_starstar_skip, IH1 by done. by destruct u. }
  destruct us as [|v us]; [done|]. apply Forall_cons in Hus as [Hv Hus].
  destruct (decide (v = UStar)) as [->|Hnv].
  - change (flat_map enc1 (UStar :: UStar :: us)) with (lit "**" ++ flat_map enc1 us).
    rewrite ReplaceAll_match by done. rewrite IH by (simpl; lia || done). done.
  - cbn [flat_map]. change (enc1 UStar) with ["*"%char]. cbn [app].
    rewrite ReplaceAll_nomatch.
    + cbn [flat_map] in IH1. rewrite IH1. by destruct v.
    + change (lit "**") with ("*"%char :: lit "*"). rewrite HasPrefix_cons.
      by apply enc1_no_star.
Qed.

(** QuoteMeta. *)
Lemma QuoteMeta_units us :
  QuoteMeta (flat_map enc1 us) = flat_map enc2 us.
Proof.
  unfold QuoteMeta. induction us as [|u us IH]; [done|].
  cbn [flat_map]. rewrite flat_map_app, IH. f_equal.
  destruct u; try done. cbn. by rewrite app_nil_r.
Qed.

(** No encoded unit starts with a star once stars are quoted. *)
Lemma quote_byte_cases c :
  (quote_byte c = [BSLASH; c] /\ c ∈ meta_bytes) \/ (quote_byte c = [c] /\ c ∉ meta_bytes).
Proof. unfold quote_byte. case_bool_decide; auto. Qed.

Lemma BSLASH_meta : BSLASH ∈ meta_bytes.
Proof. apply (bool_decide_unpack _). vm_compute. exact I. Qed.

Lemma meta_ascii c : c ∈ meta_bytes -> is_ascii_byte c = true.
Proof.
  intros H. assert (Hall : forallb is_ascii_byte meta_bytes = true) by (vm_compute; done).
  by apply (proj1 (forallb_elem_of _ _) Hall).
Qed.

Lemma enc2_no_star us : Forall unit_ok us -> HasPrefix (flat_map enc2 us) (lit "*") = false.
Proof.
  intros Hok. destruct us as [|u us]; [done|]. apply Forall_cons in Hok as [Hu _].
  change (lit "*") with ["*"%char].
  destruct u as [| | |c]; cbn [flat_map enc2 enc app escapedStarSentinel escapedBackslashSentinel];
    try (apply HasPrefix_cons_ne; done).
  destruct Hu as [_ Hu].
  destruct (quote_byte_cases c) as [[-> _]|[-> _]]; apply HasPrefix_cons_ne; done.
Qed.

(** The quoted stars become [".*"]. *)
Lemma ReplaceAll_quoted_star us :
  Forall unit_ok us ->
  ReplaceAll (flat_map enc2 us) (lit "\*") (lit ".*") = flat_map enc3 us.
Proof.
  induction 1 as [|u us Hu Hus IH]; [done|].
  change (flat_map enc2 (u :: us)) with (enc2 u ++ flat_map enc2 us).
  change (flat_map enc3 (u :: us)) with (enc3 u ++ flat_map enc3 us). rewrite <- IH.
  destruct u as [| | |c].
  - change (enc2 UStar) with (lit "\*"). rewrite ReplaceAll_match by done. done.
  - cbn [enc2 enc3 enc app escapedStarSentinel].
    do 3 (rewrite ReplaceAll_nomatch by (apply HasPrefix_cons_ne; done)). done.
  - cbn [enc2 enc3 enc app escapedBackslashSentinel].
    do 3 (rewrite ReplaceAll_nomatch by (apply HasPrefix_cons_ne; done)). done.
  - destruct Hu as [_ Hu]. cbn [enc2 enc3 enc].
    assert (Hlast : forall d, HasPrefix (d :: flat_map enc2 us) (lit "\*") = false).
    { intros d. change (lit "\*") with (BSLASH :: lit "*").
      destruct (decide (d = BSLASH)) as [->|]; [|by apply HasPrefix_cons_ne].
      rewrite HasPrefix_cons. by apply enc2_no_star. }
    destruct (quote_byte_cases c) as [[-> _]|[-> _]]; cbn [app].
    + rewrite ReplaceAll_nomatch, ReplaceAll_nomatch; [done|apply Hlast|].
      change (lit "\*") with (BSLASH :: lit "*"). rewrite HasPrefix_cons.
      by apply HasPrefix_cons_ne.
    + by rewrite ReplaceAll_nomatch.
Qed.

(** The sentinels: no ASCII byte starts one. *)
Lemma ReplaceAll_ascii_skip w s old new :
  Forall (fun c => is_ascii_byte c = true) w ->
  ReplaceAll (w ++ s) (chr 239 :: old) new = w ++ ReplaceAll s (chr 239 :: old) new.
Proof.
  induction 1 as [|c w Hc _ IH]; [done|]. cbn [app].
  rewrite ReplaceAll_nomatch, IH; [done|]. apply HasPrefix_cons_ne. by intros ->.
Qed.

Lemma quote_byte_ascii c :
  is_ascii_byte c = true -> Forall (fun c => is_ascii_byte c = true) (quote_byte c).
Proof. intros H. destruct (quote_byte_cases c) as [[-> _]|[-> _]]; repeat constructor; done. Qed.

Lemma ReplaceAll_S1 us :
  Forall unit_ok us ->
  ReplaceAll (flat_map enc3 us) S1 (lit "\*") = flat_map enc4 us.
Proof.
  induction 1 as [|u us Hu Hus IH]; [done|].
  change (flat_map enc3 (u :: us)) with (enc3 u ++ flat_map enc3 us).
  change (flat_map enc4 (u :: us)) with (enc4 u ++ flat_map enc4 us). rewrite <- IH.
  destruct u as [| | |c].
  - apply ReplaceAll_ascii_skip. repeat constructor.
  - change (enc3 UEscStar) with S1. by rewrite ReplaceAll_match by done.
  - change (enc3 UEscBack) with [chr 239; chr 128; chr 129]. cbn [app].
    rewrite ReplaceAll_nomatch.
    2: { unfold S1. rewrite HasPrefix_cons, HasPrefix_cons. apply HasPrefix_cons_ne. done. }
    do 2 (rewrite ReplaceAll_nomatch by (apply HasPrefix_cons_ne; done)). done.
  - apply ReplaceAll_ascii_skip. apply quote_byte_ascii. by destruct Hu.
Qed.

Lemma ReplaceAll_S2 us :
  Forall unit_ok us ->
  ReplaceAll (flat_map enc4 us) S2 (lit "\\") = flat_map enc5 us.
Proof.
  induction 1 as [|u us Hu Hus IH]; [done|].
  change (flat_map enc4 (u :: us)) with (enc4 u ++ flat_map enc4 us).
  change (flat_map enc5 (u :: us)) with (enc5 u ++ flat_map enc5 us). rewrite <- IH.
  destruct u as [| | |c].
  - apply ReplaceAll_ascii_skip. repeat constructor.
  - apply ReplaceAll_ascii_skip. repeat constructor.
  - change (enc4 UEscBack) with S2. by rewrite ReplaceAll_match by done.
  - apply ReplaceAll_ascii_skip. apply quote_byte_ascii. by destruct Hu.
Qed.

(** The whole rewriting, up to the treatment of a final [" *"]. *)
Lemma phases_units s us :
  us = units s -> Forall unit_ok us ->
  ReplaceAll (ReplaceAll (ReplaceAll (QuoteMeta
    (ReplaceAll (process_escapes s) (lit "**") (lit "*")))
    (lit "\*") (lit ".*")) (QuoteMeta S1) (lit "\*")) (QuoteMeta S2) (lit "\\")
  = flat_map enc5 (collapse us).
Proof.
  intros -> Hok. rewrite process_escapes_units, ReplaceAll_starstar, QuoteMeta_units by done.
  apply collapse_ok in Hok.
  change (QuoteMeta S1) with S1. change (QuoteMeta S2) with S2.
  rewrite ReplaceAll_quoted_star, ReplaceAll_S1, ReplaceAll_S2 by done. done.
Qed.

(** *** The final [" .*"] *)

Lemma enc5_last u : exists w z, enc5 u = w ++ [z] /\
  (z = "*"%char -> u = UStar \/ u = UEscStar \/ u = ULit "*"%char) /\
  (z = " "%char -> u = ULit " "%char).
Proof.
  destruct u as [| | |c].
  - exists (lit "."), "*"%char. split; [done|]. split; [auto|done].
  - exists (lit "\"), "*"%char. split; [done|]. split; [auto|done].
  - exists (lit "\"), BSLASH. by repeat split.
  - cbn [enc5 enc]. destruct (quote_byte_cases c) as [[-> _]|[-> _]].
    + exists [BSLASH], c. repeat split; intros ->; auto.
    + exists [], c. repeat split; intros ->; auto.
Qed.

Lemma flat_map_snoc {A B} (f : A -> list B) l x : flat_map f (l ++ [x]) = flat_map f l ++ f x.
Proof. rewrite flat_map_app. simpl. by rewrite app_nil_r. Qed.

Lemma space_star_suffix us :
  Forall unit_ok us -> lit " .*" `suffix_of` flat_map enc5 us ->
  exists vs, us = vs ++ [ULit " "%char; UStar].
Proof.
  intros Hok [k Hk]. change (lit " .*") with (([" "%char] ++ ["."%char]) ++ ["*"%char]) in Hk.
  destruct us as [|u us _] using rev_ind.
  { apply (f_equal length) in Hk. rewrite !length_app in Hk. simpl in Hk. lia. }
  rewrite flat_map_snoc in Hk. apply Forall_app in Hok as [_ [Hu _]%Forall_cons].
  destruct (enc5_last u) as (w & z & Ez & Hz & _). rewrite Ez in Hk.
  rewrite !app_assoc in Hk. apply app_inj_tail in Hk as [Hk Hzz].
  destruct (Hz Hzz) as [-> | [-> | ->]].
  - change (enc5 UStar) with (["."%char] ++ ["*"%char]) in Ez.
    apply app_inj_tail in Ez as [<- _]. apply app_inj_tail in Hk as [Hk _].
    destruct us as [|v us _] using rev_ind.
    { apply (f_equal length) in Hk. rewrite !length_app in Hk. simpl in Hk. lia. }
    rewrite flat_map_snoc in Hk.
    destruct (enc5_last v) as (w' & z' & Ez' & _ & Hz'). rewrite Ez' in Hk.
    rewrite !app_assoc in Hk. apply app_inj_tail in Hk as [_ Hsp].
    rewrite (Hz' Hsp). exists us. by rewrite <- app_assoc.
  - change (enc5 UEscStar) with ([BSLASH] ++ ["*"%char]) in Ez.
    apply app_inj_tail in Ez as [<- _]. by apply app_inj_tail in Hk as [_ ?].
  - by destruct Hu.
Qed.

Lemma space_star_text vs :
  flat_map enc5 (vs ++ [ULit " "%char; UStar]) = flat_map enc5 vs ++ lit " .*".
Proof. rewrite flat_map_app. done. Qed.

(** *** Lexing and parsing the regular expression *)

Definition any_byte : ascii -> bool := fun c => true || (c <>b NL).

Definition unit_rtoks (u : unit) : list rtok :=
  match u with
  | UStar => [TDot; TStar]
  | UEscStar => [TCls (fun x => x ==b "*"%char)]
  | UEscBack => [TCls (fun x => x ==b BSLASH)]
  | ULit c => [TCls (fun x => x ==b c)]
  end.

Definition unit_re (u : unit) : re :=
  match u with
  | UStar => RStar (RCls any_byte)
  | UEscStar => RCls (fun x => x ==b "*"%char)
  | UEscBack => RCls (fun x => x ==b BSLASH)
  | ULit c => RCls (fun x => x ==b c)
  end.

Lemma not_meta_ne c m : c ∉ meta_bytes -> bool_decide (m ∈ meta_bytes) = true -> (c ==b m) = false.
Proof. intros Hc Hm. apply bool_decide_eq_false. intros ->. by apply bool_decide_eq_true in Hm. Qed.

Lemma meta_not_letter c d :
  c ∈ meta_bytes -> bool_decide (d ∈ meta_bytes) = false -> (c ==b d) = false.
Proof.
  intros Hc Hd. apply bool_decide_eq_false. intros ->. by apply bool_decide_eq_false in Hd.
Qed.

Lemma meta_punct c : c ∈ meta_bytes -> is_punct c = true.
Proof.
  intros H. assert (Hall : forallb is_punct meta_bytes = true) by (vm_compute; done).
  by apply (proj1 (forallb_elem_of _ _) Hall).
Qed.

Lemma rlex_plain c s :
  c ∉ meta_bytes ->
  rlex false None (c :: s) = cons (TCls (fun x => x ==b c)) <$> rlex false None s.
Proof.
  intros Hc. cbn [rlex]. rewrite !(not_meta_ne c) by (done || by vm_compute). done.
Qed.

Lemma rlex_escaped c s :
  c ∈ meta_bytes ->
  rlex false None (BSLASH :: c :: s) = cons (TCls (fun x => x ==b c)) <$> rlex false None s.
Proof.
  intros Hc. cbn [rlex]. rewrite bool_decide_eq_true_2 by done.
  rewrite !(meta_not_letter c) by (done || by vm_compute). rewrite meta_punct by done. done.
Qed.

Lemma rlex_unit u s :
  rlex false None (enc5 u ++ s) = app (unit_rtoks u) <$> rlex false None s.
Proof.
  destruct u as [| | |c].
  - cbn. by destruct (rlex false None s).
  - cbn [enc5 enc]. change (lit "\*" ++ s) with (BSLASH :: "*"%char :: s).
    by rewrite rlex_escaped by (apply (bool_decide_unpack _); vm_compute; exact I).
  - cbn [enc5 enc]. change (lit "\\" ++ s) with (BSLASH :: BSLASH :: s).
    by rewrite rlex_escaped by apply BSLASH_meta.
  - cbn [enc5 enc]. destruct (quote_byte_cases c) as [[-> Hc]|[-> Hc]]; cbn [app].
    + by apply rlex_escaped.
    + by apply rlex_plain.
Qed.

Lemma rlex_units us s :
  rlex false None (flat_map enc5 us ++ s) = app (flat_map unit_rtoks us) <$> rlex false None s.
Proof.
  induction us as [|u us IH].
  - cbn [flat_map app]. by destruct (rlex false None s).
  - cbn [flat_map]. rewrite <- app_assoc, rlex_unit, IH.
    destruct (rlex false None s); [|done]. simpl. by rewrite <- app_assoc.
Qed.

Lemma rparse_units us ts st g q :
  exists q', rparse true (flat_map unit_rtoks us ++ ts) st g q
    = rparse true ts st (Group (g_alts g) (reverse (map unit_re us) ++ g_cats g)) q'.
Proof.
  revert g q. induction us as [|u us IH]; intros g q.
  - exists q. by destruct g.
  - destruct (IH (push (unit_re u) g) (if decide (u = UStar) then QGreedy else QNone))
      as [q' Hq']. exists q'.
    cbn [flat_map map]. rewrite reverse_cons, <- !app_assoc.
    etransitivity; [|exact Hq']. destruct u; destruct g; reflexivity.
Qed.

(** *** Running the regular expression *)

(** [glob_match] with a test on what is left at the end. *)
Fixpoint glob_with (ts : list gtok) (G : bytes -> bool) (s : bytes) : bool :=
  match ts with
  | [] => G s
  | GLit c :: ts' =>
      match s with x :: s' => (x ==b c) && glob_with ts' G s' | [] => false end
  | GStar :: ts' => any_suffix (glob_with ts' G) s
  end.

Lemma any_suffix_ext f g s : (forall t, f t = g t) -> any_suffix f s = any_suffix g s.
Proof. intros H. induction s as [|c s IH]; simpl; rewrite H; [done|]. by rewrite IH. Qed.

Lemma glob_with_ext ts G H s : (forall t, G t = H t) -> glob_with ts G s = glob_with ts H s.
Proof.
  intros HG. revert s. induction ts as [|[|c] ts IH]; intros s; simpl; [done| |].
  - apply any_suffix_ext. done.
  - destruct s; [done|]. by rewrite IH.
Qed.

Lemma glob_match_with ts s : glob_match ts s = glob_with ts (fun s => s ==b []) s.
Proof.
  revert s. induction ts as [|[|c] ts IH]; intros s; simpl; [done| |].
  - by apply any_suffix_ext.
  - destruct s; [done|]. by rewrite IH.
Qed.

Lemma glob_with_app ts1 ts2 G s : glob_with (ts1 ++ ts2) G s = glob_with ts1 (glob_with ts2 G) s.
Proof.
  revert s. induction ts1 as [|[|c] ts1 IH]; intros s; simpl; [done| |].
  - by apply any_suffix_ext.
  - destruct s; [done|]. by rewrite IH.
Qed.

Lemma any_suffix_orb f g s : any_suffix (fun t => f t || g t) s = any_suffix f s || any_suffix g s.
Proof.
  induction s as [|c s IH]; simpl; [by rewrite !orb_false_r|].
  rewrite IH. destruct (f (c :: s)), (g (c :: s)), (any_suffix f s); done.
Qed.

Lemma glob_with_orb ts G H s :
  glob_with ts (fun t => G t || H t) s = glob_with ts G s || glob_with ts H s.
Proof.
  revert s. induction ts as [|[|c] ts IH]; intros s; simpl; [done| |].
  - rewrite <- any_suffix_orb. by apply any_suffix_ext.
  - destruct s; [done|]. rewrite IH. by rewrite andb_orb_distrib_r.
Qed.

(** Two adjacent stars match like one. *)
Lemma any_suffix_idemp f s : any_suffix (any_suffix f) s = any_suffix f s.
Proof.
  induction s as [|c s IH]; simpl; [by rewrite !orb_false_r|].
  rewrite IH. destruct (f (c :: s)), (any_suffix f s); done.
Qed.

Lemma glob_collapse us G s :
  glob_with (map unit_tok (collapse us)) G s = glob_with (map unit_tok us) G s.
Proof.
  revert s. induction us as [us IH] using (induction_ltof1 _ length); unfold ltof in IH.
  intros s. destruct us as [|u us]; [done|].
  assert (H1 : forall t, glob_with (map unit_tok (collapse us)) G t
                         = glob_with (map unit_tok us) G t)
    by (intros t; apply IH; simpl; lia).
  assert (Hcase : (exists vs, u = UStar /\ us = UStar :: vs) \/ collapse (u :: us) = u :: collapse us).
  { destruct u; auto. destruct us as [|[| | |c] us]; eauto. }
  destruct Hcase as [(vs & -> & ->)|Hc].
  - cbn [collapse map unit_tok glob_with].
    rewrite (any_suffix_ext _ _ s (fun t => IH vs ltac:(simpl; lia) t)).
    by rewrite any_suffix_idemp.
  - rewrite Hc. cbn [map glob_with]. destruct (unit_tok u).
    + by apply any_suffix_ext.
    + destruct s; [done|]. by rewrite H1.
Qed.

Lemma star_loop_any k n p s (G : bytes -> bool) :
  (forall p t, k p t = G t) -> length s <= n ->
  star_loop (mt (RCls any_byte)) k n p s = any_suffix G s.
Proof.
  intros Hk. revert p s. induction n as [|n IH]; intros p s Hn.
  - destruct s; [|simpl in Hn; lia]. simpl. by rewrite Hk.
  - destruct s as [|c s]; simpl in *; rewrite Hk; [done|]. f_equal.
    rewrite (proj2 (Nat.ltb_lt (length s) (S (length s)))) by lia. simpl.
    apply IH. lia.
Qed.

(** The expression of a list of units, followed by [r]. *)
Lemma mt_units us r k p s (G : bytes -> bool) :
  (forall p t, mt r p t k = G t) ->
  mt (fold_right RCat r (map unit_re us)) p s k = glob_with (map unit_tok us) G s.
Proof.
  intros Hr. revert p s. induction us as [|u us IH]; intros p s; [apply Hr|].
  cbn [map fold_right mt].
  destruct u as [| | |c]; cbn [unit_re unit_tok mt glob_with];
    try (destruct s; [done|]; by rewrite IH).
  apply star_loop_any; [|done]. intros; apply IH.
Qed.

Lemma mt_end p t : mt (RCat REnd REps) p t (fun _ _ => true) = (t ==b []).
Proof. destruct t; [done|]. by rewrite bool_decide_eq_false_2. Qed.

Lemma mt_opt a r p t k :
  mt (RCat (ROpt a) r) p t k = mt r p t k || mt a p t (fun p' t' => mt r p' t' k).
Proof. done. Qed.

Lemma MatchString_begin r s : MatchString (RCat RBegin r) s = mt r None s (fun _ _ => true).
Proof.
  assert (Hsome : forall t p, search (RCat RBegin r) (Some p) t = false).
  { induction t as [|c t IH]; intros p; simpl; [done|]. apply IH. }
  unfold MatchString. destruct s as [|c s]; cbn [search mt]; [by rewrite orb_false_r|].
  rewrite Hsome. by rewrite orb_false_r.
Qed.

Lemma cat_of_reverse l : cat_of (reverse l) = fold_right RCat REps l.
Proof.
  unfold cat_of. induction l as [|a l IH]; [done|].
  rewrite reverse_cons, fold_left_app, IH. done.
Qed.

(** *** Compilation *)

Lemma utf8_ascii s : Forall (fun c => is_ascii_byte c = true) s -> utf8_valid s = true.
Proof. induction 1 as [|c s Hc _ IH]; [done|]. cbn [utf8_valid]. by rewrite Hc. Qed.

Lemma enc5_ascii us :
  Forall unit_ok us -> Forall (fun c => is_ascii_byte c = true) (flat_map enc5 us).
Proof.
  induction 1 as [|u us Hu _ IH]; [constructor|]. cbn [flat_map]. apply Forall_app. split; [|done].
  destruct u; try (repeat constructor; done). apply quote_byte_ascii. by destruct Hu.
Qed.

Definition opt_space_star : re :=
  ROpt (RCat (RCls (fun x => x ==b " "%char)) (RCat (RStar (RCls any_byte)) REps)).

Lemma compile_units us tail ts tl :
  Forall unit_ok us -> Forall (fun c => is_ascii_byte c = true) tail ->
  rlex false None tail = Some ts ->
  (forall g q, rparse true ts [] g q
     = Some (re_of_group (Group (g_alts g) (reverse tl ++ g_cats g)))) ->
  Compile (lit "(?s)^" ++ flat_map enc5 us ++ tail)
  = Some (RCat RBegin (fold_right RCat REps (map unit_re us ++ tl))).
Proof.
  intros Hus Hasc Hlex Hparse. unfold Compile.
  rewrite utf8_ascii.
  2: { apply Forall_app; split; [repeat constructor|].
       apply Forall_app; split; [by apply enc5_ascii|done]. }
  change (re_flags (lit "(?s)^" ++ flat_map enc5 us ++ tail))
    with (false, true, "^"%char :: flat_map enc5 us ++ tail).
  cbv beta iota zeta.
  assert (Hl : rlex false None ("^"%char :: flat_map enc5 us ++ tail)
    = Some (TBegin :: flat_map unit_rtoks us ++ ts)).
  { change (rlex false None ("^"%char :: flat_map enc5 us ++ tail))
      with (cons TBegin <$> rlex false None (flat_map enc5 us ++ tail)).
    rewrite rlex_units, Hlex. done. }
  rewrite Hl. cbn [mbind option_bind rparse].
  destruct (rparse_units us ts [] (push RBegin (Group [] [])) QNone) as [q' ->].
  rewrite Hparse. cbn [g_alts g_cats push]. f_equal. unfold re_of_group. cbn [g_alts g_cats fold_left].
  change (reverse (map unit_re us) ++ [RBegin]) with (reverse (map unit_re us) ++ reverse [RBegin]).
  rewrite <- !reverse_app, cat_of_reverse. done.
Qed.

Lemma compile_plain us :
  Forall unit_ok us ->
  Compile (lit "(?s)^" ++ flat_map enc5 us ++ lit "$")
  = Some (RCat RBegin (fold_right RCat REps (map unit_re us ++ [REnd]))).
Proof.
  intros H. apply compile_units with (ts := [TEnd]); [done|repeat constructor|done|].
  intros [alts cats] q. reflexivity.
Qed.

Lemma compile_optional us :
  Forall unit_ok us ->
  Compile (lit "(?s)^" ++ flat_map enc5 us ++ lit "( .*)?$")
  = Some (RCat RBegin (fold_right RCat REps (map unit_re us ++ [opt_space_star; REnd]))).
Proof.
  intros H.
  apply compile_units with
    (ts := [TOpen; TCls (fun x => x ==b " "%char); TDot; TStar; TClose; TQuest; TEnd]);
    [done|repeat constructor|reflexivity|].
  intros [alts cats] q. reflexivity.
Qed.

(** *** The theorem *)

Lemma unit_tok_star u : unit_tok u = GStar <-> u = UStar.
Proof. by destruct u. Qed.

Lemma star_count_app us vs : star_count (us ++ vs) = star_count us + star_count vs.
Proof. unfold star_count. by rewrite filter_app, length_app. Qed.

Lemma star_count_0 us : star_count us = 0 <-> GStar ∉ map unit_tok us.
Proof.
  unfold star_count. induction us as [|u us IH]; [split; [set_solver|done]|].
  rewrite filter_cons. simpl map. rewrite not_elem_of_cons, <- IH.
  case_decide as Hu; simpl.
  - subst. simpl. split; [lia|]. by intros [? _].
  - split; [|tauto]. intros H. split; [|done]. intros Heq. apply Hu.
    by apply unit_tok_star.
Qed.

(** A lone star has nothing to collapse with. *)
Lemma collapse_id us : star_count us <= 1 -> collapse us = us.
Proof.
  induction us as [|u us IH]; [done|]. unfold star_count. rewrite filter_cons.
  intros H.
  assert (Hle : star_count us <= 1) by (unfold star_count; case_decide; simpl in H; lia).
  destruct u; simpl; rewrite ?IH by done; try done.
  destruct us as [|[| | |c] us]; try done.
  rewrite decide_True in H by done. rewrite filter_cons, decide_True in H by done.
  simpl in H. lia.
Qed.

Lemma bare_tokens_Some ts r :
  bare_tokens ts = Some r <-> ts = r ++ [GLit " "%char; GStar] /\ GStar ∉ r.
Proof.
  unfold bare_tokens. split.
  - intros H. destruct (reverse ts) as [|[|?] [|[|c] l]] eqn:E; try done.
    destruct (c ==b " "%char) eqn:Ec; [|done]. simpl in H. case_bool_decide; [|done].
    injection H as <-. apply bool_decide_eq_true in Ec as ->.
    apply (f_equal reverse) in E. rewrite reverse_involutive in E. subst ts.
    rewrite !reverse_cons, <- app_assoc. split; [done|]. by rewrite elem_of_reverse.
  - intros [-> Hr]. rewrite reverse_app. simpl.
    rewrite (bool_decide_eq_true_2 (GStar ∉ reverse r)) by (by rewrite elem_of_reverse).
    by rewrite reverse_involutive.
Qed.

Lemma map_unit_tok_bare us r :
  map unit_tok us = r ++ [GLit " "%char; GStar] -> Forall unit_ok us ->
  exists vs, us = vs ++ [ULit " "%char; UStar] /\ map unit_tok vs = r.
Proof.
  intros Hm Hok. apply map_eq_app in Hm as (vs & ws & -> & <- & Hw). exists vs.
  split; [|done]. f_equal.
  destruct ws as [|u [|v [|? ?]]]; try done. injection Hw as Hu Hv.
  apply unit_tok_star in Hv as ->. destruct u; try done. by injection Hu as ->.
Qed.

(** What the body of the regular expression is, and when it has the optional
    tail. *)
Lemma wildcard_regex_body_units p us :
  us = units (TrimSpace p) -> Forall unit_ok us ->
  (exists vs, us = vs ++ [ULit " "%char; UStar] /\ star_count vs = 0 /\
     wildcard_regex_body p = flat_map enc5 vs ++ lit "( .*)?")
  \/ (bare_tokens (map unit_tok us) = None /\
      wildcard_regex_body p = flat_map enc5 (collapse us)).
Proof.
  intros Hus Hok. unfold wildcard_regex_body.
  rewrite (phases_units _ us Hus Hok), process_escapes_units, <- Hus, count_star_units by done.
  destruct (HasSuffix _ _) eqn:Es; [destruct (star_count us =? 1) eqn:Ec|]; simpl.
  - left. apply Nat.eqb_eq in Ec. rewrite collapse_id in * by lia.
    apply bool_decide_eq_true in Es. destruct (space_star_suffix us Hok Es) as [vs ->].
    exists vs. split; [done|]. rewrite star_count_app in Ec.
    split; [unfold star_count in Ec at 2; simpl in Ec; lia|].
    rewrite space_star_text. f_equal.
    rewrite length_app. simpl length. by rewrite Nat.add_sub, take_app_length.
  - right. split; [|done]. destruct (bare_tokens _) as [r|] eqn:Eb; [|done].
    apply bare_tokens_Some in Eb as [Eb Hr].
    destruct (map_unit_tok_bare us r Eb Hok) as (vs & -> & <-).
    apply star_count_0 in Hr. rewrite star_count_app, Hr in Ec. done.
  - right. split; [|done]. destruct (bare_tokens _) as [r|] eqn:Eb; [|done].
    apply bare_tokens_Some in Eb as [Eb Hr].
    destruct (map_unit_tok_bare us r Eb Hok) as (vs & -> & <-).
    apply star_count_0 in Hr. rewrite collapse_id in Es.
    + rewrite space_star_text in Es. apply bool_decide_eq_false in Es.
      exfalso. apply Es. by exists (flat_map enc5 vs).
    + rewrite star_count_app, Hr. done.
Qed.

Lemma TrimSpace_Forall (P : ascii -> Prop) s : Forall P s -> Forall P (TrimSpace s).
Proof.
  destruct (TrimSpace_sub s) as (pre & post & Hs). rewrite Hs at 1.
  intros [_ [H _]%Forall_app]%Forall_app. done.
Qed.

Lemma wildcard_glob p s :
  Forall (fun c => is_ascii_byte c = true) p ->
  matchWildcardPattern p s = wildcard_spec p s.
Proof.
  intros Hp. unfold matchWildcardPattern, wildcard_spec.
  remember (units (TrimSpace p)) as us eqn:Hus. rewrite <- units_tokens, <- Hus.
  assert (Hok : Forall unit_ok us) by (subst us; apply units_ok, TrimSpace_Forall, Hp).
  destruct (wildcard_regex_body_units p us Hus Hok) as [(vs & -> & H0 & ->)|[Hb ->]].
  - apply Forall_app in Hok as [Hvs _]. rewrite <- app_assoc.
    change (lit "( .*)?" ++ lit "$") with (lit "( .*)?$").
    rewrite compile_optional, MatchString_begin, fold_right_app by done.
    rewrite map_app.
    rewrite (proj2 (bare_tokens_Some _ (map unit_tok vs))) by (split; [done|by apply star_count_0]).
    rewrite !glob_match_with, glob_with_app, orb_comm, <- glob_with_orb.
    apply mt_units. intros q t. cbn [fold_right]. unfold opt_space_star.
    rewrite mt_opt, mt_end. f_equal. destruct t as [|c t]; [done|].
    cbn [glob_with map unit_tok]. change (mt (RCat (RCls ?f) ?r) q (c :: t) ?k) with
      (f c && mt r (Some c) t k). f_equal.
    apply star_loop_any; [|done]. intros; apply mt_end.
  - rewrite compile_plain, MatchString_begin, fold_right_app by (by apply collapse_ok).
    rewrite Hb, orb_false_r, glob_match_with, <- glob_collapse.
    apply mt_units. intros q t. apply mt_end.
Qed.

(** ** Properties *)

(** C3: For every ASCII pattern and every text, the chain of textual rewrites and
    the regular expression it ends in decide exactly the glob semantics: a
    star stands for any text, an escaped star or backslash for itself, and a
    single star after a final space is optional together with that space. *)
Theorem wildcard_is_glob p s :
  forallb is_ascii_byte p = true -> matchWildcardPattern p s = wildcard_spec p s.
Proof. intros H. apply wildcard_glob. by apply Forall_forall, forallb_elem_of. Qed.

Lemma wildcard_is_glob_witness :
  matchWildcardPattern (lit "npm run \*.js *") (lit "npm run *.js")
  = wildcard_spec (lit "npm run \*.js *") (lit "npm run *.js").
Proof. apply wildcard_is_glob. by vm_compute. Defined.
