(* ===== verification/Rules.v ===== *)
(** * Permission rules ([engine/permission/rules.go])

    The rule type, the matching of a rule against a tool invocation, the
    deny-over-ask-over-allow engine and the ["tool(pattern):action"] syntax. *)

From S2P Require Import Prelude GoStrings Regex ShellMatch ShellMatchFacts.

(** ** Tool inputs

    A tool input is a decoded JSON object, Go's [map[string]any].  What the
    code observes of a value is whether it is a string; the other JSON values
    are kept as data for [fmt.Sprint] and [json.Marshal]. *)

Inductive any : Type :=
| AStr (s : bytes)
| ANil
| ABool (b : bool)
| AFloat (bits : Z)
| AArr (l : list any)
| AObj (l : list (bytes * any)).

Abbreviation input := (gmap bytes any).

(** Text formatting of the Go library that the rules only pass on: [fmt.Sprint]
    of a value that is not a string and of a whole input, and [json.Marshal]
    ([None] is an encoding error).  The results hold for every such printer. *)
Class GoFormat := {
  sprint_value : any -> bytes;
  sprint_input : input -> bytes;
  json_Marshal : input -> option bytes;
}.

(** [fmt.Sprint] of a string is the string. *)
Definition Sprint `{GoFormat} (v : any) : bytes :=
  match v with AStr s => s | _ => sprint_value v end.

(** The comma-ok assertion [v.(string)] on a map element. *)
Definition string_field (i : input) (key : bytes) : option bytes :=
  match i !! key with Some (AStr s) => Some s | _ => None end.

(** ** Rules *)

(** [PermissionAction] is a string type; [ActionOther] is any other string. *)
Inductive PermissionAction : Type :=
| ActionAllow | ActionDeny | ActionAsk
| ActionOther (s : bytes).

#[export] Instance PermissionAction_eq_dec : EqDecision PermissionAction.
Proof. solve_decision. Defined.

Definition action_string (a : PermissionAction) : bytes :=
  match a with
  | ActionAllow => lit "allow" | ActionDeny => lit "deny" | ActionAsk => lit "ask"
  | ActionOther s => s
  end.

Record PermissionRule := {
  ToolName : bytes;
  InputPattern : bytes;
  Action : PermissionAction;
  Source : bytes;
}.

#[export] Instance PermissionRule_eq_dec : EqDecision PermissionRule.
Proof. solve_decision. Defined.

(** The engine is its rules, in load order. *)
Record RulesEngine := { rules : list PermissionRule }.

Definition NewRulesEngine (rs : list PermissionRule) : RulesEngine := {| rules := rs |}.

(** [Snapshot]; [None] is the nil engine. *)
Definition Snapshot (e : option RulesEngine) : list PermissionRule :=
  match e with None => [] | Some e => rules e end.

(** ** Matching *)

Definition nth_part (l : list bytes) (i : nat) : bytes := nth i l [].

Definition matchPattern (pattern value : bytes) : bool :=
  if pattern ==b lit "*" then true
  else
    let server_match :=
      if HasPrefix pattern (lit "mcp__") && HasPrefix value (lit "mcp__") then
        let patternParts := SplitN pattern (lit "__") 3 in
        let valueParts := SplitN value (lit "__") 3 in
        ((length patternParts =? 2) && (length valueParts =? 3)
         && (nth_part patternParts 1 ==b nth_part valueParts 1))
        || ((length patternParts =? 3) && (nth_part patternParts 2 ==b lit "*")
            && (length valueParts =? 3)
            && (nth_part patternParts 1 ==b nth_part valueParts 1))
      else false in
    if server_match then true else matchWildcardPattern pattern value.

Section with_format.
Context `{GoFormat}.

(** The JSON fallback of [extractInputString]. *)
Definition input_fallback (toolInput : input) : bytes :=
  match json_Marshal toolInput with
  | Some encoded => encoded
  | None => sprint_input toolInput
  end.

Definition extractInputString (toolName : bytes) (toolInput : input) : bytes :=
  if size toolInput =? 0 then []
  else
    let selected :=
      if toolName ==b lit "Bash" then
        match toolInput !! lit "command" with Some cmd => Some (Sprint cmd) | None => None end
      else if (toolName ==b lit "Read") || (toolName ==b lit "Edit")
              || (toolName ==b lit "Write") then
        match toolInput !! lit "file_path" with
        | Some fp => Some (Sprint fp)
        | None => match toolInput !! lit "path" with
                  | Some p => Some (Sprint p) | None => None end
        end
      else if (toolName ==b lit "Glob") || (toolName ==b lit "Grep")
              || (toolName ==b lit "LS") then
        match toolInput !! lit "path" with Some p => Some (Sprint p) | None => None end
      else None in
    match selected with
    | Some s => s
    | None => input_fallback toolInput
    end.

Definition matchRule (rule : PermissionRule) (toolName : bytes) (toolInput : input) : bool :=
  if negb (matchPattern (ToolName rule) toolName) then false
  else if InputPattern rule ==b [] then true
  else matchPattern (InputPattern rule) (extractInputString toolName toolInput).

(** The flags of the loop of [EvaluateMatch]. *)
Record match_flags := {
  hasDeny : bool; hasAsk : bool; hasAllow : bool; matched : bool }.

Definition match_step (toolName : bytes) (toolInput : input)
    (f : match_flags) (r : PermissionRule) : match_flags :=
  if matchRule r toolName toolInput then
    match Action r with
    | ActionDeny => {| hasDeny := true; hasAsk := hasAsk f; hasAllow := hasAllow f; matched := true |}
    | ActionAsk => {| hasDeny := hasDeny f; hasAsk := true; hasAllow := hasAllow f; matched := true |}
    | ActionAllow => {| hasDeny := hasDeny f; hasAsk := hasAsk f; hasAllow := true; matched := true |}
    | ActionOther _ => {| hasDeny := hasDeny f; hasAsk := hasAsk f; hasAllow := hasAllow f; matched := true |}
    end
  else f.

Definition EvaluateMatch (e : option RulesEngine) (toolName : bytes) (toolInput : input)
    : PermissionAction * bool :=
  match e with
  | None => (ActionAsk, false)
  | Some e =>
      if length (rules e) =? 0 then (ActionAsk, false)
      else
        let f := fold_left (match_step toolName toolInput) (rules e)
                   {| hasDeny := false; hasAsk := false; hasAllow := false; matched := false |} in
        if hasDeny f then (ActionDeny, matched f)
        else if hasAsk f then (ActionAsk, matched f)
        else if hasAllow f then (ActionAllow, matched f)
        else (ActionAsk, false)
  end.

Definition Evaluate (e : option RulesEngine) (toolName : bytes) (toolInput : input)
    : PermissionAction :=
  (EvaluateMatch e toolName toolInput).1.
End with_format.

Definition IsToolBlanketDenied (e : option RulesEngine) (toolName : bytes) : bool :=
  match e with
  | None => false
  | Some e =>
      existsb (fun rule =>
        (Action rule ==b ActionDeny) && (InputPattern rule ==b [])
        && matchPattern (ToolName rule) toolName) (rules e)
  end.

(** ** The ["tool(pattern):action"] syntax *)

Inductive rule_error : Type :=
| ErrEmptyRule
| ErrMissingAction (s : bytes)
| ErrUnknownAction (s action : bytes)
| ErrEmptyTool (s : bytes).

Definition parseAction (s : bytes) : option PermissionAction :=
  let l := ToLower s in
  if l ==b lit "allow" then Some ActionAllow
  else if l ==b lit "deny" then Some ActionDeny
  else if l ==b lit "ask" then Some ActionAsk
  else None.

Definition isKnownParamName (s : bytes) : bool :=
  bool_decide (ToLower s ∈ map lit
    ["command"; "file_path"; "path"; "pattern"; "query"; "uri"; "url"]).

(** [s[lo:hi]]. *)
Definition slice (s : bytes) (lo hi : nat) : bytes := take (hi - lo) (drop lo s).

Definition parseToolPart (s : bytes) : bytes * bytes :=
  match IndexByte s "("%char with
  | None => (s, [])
  | Some openParen =>
      match LastIndexByte s ")"%char with
      | None => (s, [])
      | Some closeParen =>
          if closeParen <? openParen then (s, [])
          else
            let toolName := take openParen s in
            let inputPattern := slice s (openParen + 1) closeParen in
            match IndexByte inputPattern ":"%char with
            | Some (S k) =>
                if isKnownParamName (take (S k) inputPattern)
                then (toolName, drop (S k + 1) inputPattern)
                else (toolName, inputPattern)
            | _ => (toolName, inputPattern)
            end
      end
  end.

Definition ParseRuleString (s0 : bytes) : result rule_error PermissionRule :=
  let s := TrimSpace s0 in
  if s ==b [] then Err ErrEmptyRule
  else
    match LastIndexByte s ":"%char with
    | None => Err (ErrMissingAction s)
    | Some lastColon =>
        let actionStr := TrimSpace (drop (lastColon + 1) s) in
        let toolPart := TrimSpace (take lastColon s) in
        match parseAction actionStr with
        | None => Err (ErrUnknownAction s actionStr)
        | Some action =>
            let '(toolName, inputPattern) := parseToolPart toolPart in
            if toolName ==b [] then Err (ErrEmptyTool s)
            else Ok {| ToolName := toolName; InputPattern := inputPattern;
                       Action := action; Source := [] |}
        end
    end.

(** ** Lemmas on the engine *)

(** A plain tool name: ASCII, no surrounding white space, no backslash. *)
Definition plain_name (s : bytes) : bool :=
  forallb is_ascii_byte s && (TrimSpace s ==b s) && negb (bool_decide (BSLASH ∈ s)).

Lemma any_suffix_here f s : f s = true -> any_suffix f s = true.
Proof. intros H. destruct s; simpl; by rewrite H. Qed.

Lemma glob_self s : BSLASH ∉ s -> glob_match (glob_tokens s) s = true.
Proof.
  induction s as [|a s IH]; [done|]. intros [Ha Hs]%not_elem_of_cons. specialize (IH Hs).
  assert (Htok : glob_tokens (a :: s)
                 = (if a ==b "*"%char then GStar else GLit a) :: glob_tokens s).
  { destruct s as [|b s]; [done|]. rewrite glob_tokens_cons2.
    rewrite (bool_decide_eq_false_2 (a = BSLASH)) by done. done. }
  rewrite Htok. destruct (a ==b "*"%char); cbn [glob_match].
  - cbn [any_suffix]. rewrite (any_suffix_here _ s IH). by rewrite orb_true_r.
  - rewrite bool_decide_eq_true_2 by done. done.
Qed.

Lemma wildcard_of_matchPattern p v :
  matchWildcardPattern p v = true -> matchPattern p v = true.
Proof. unfold matchPattern. intros ->. by repeat case_match. Qed.

(** A plain name matches itself as a pattern. *)
Lemma plain_name_self s : plain_name s = true -> matchPattern s s = true.
Proof.
  unfold plain_name. intros H; breflect.
  apply wildcard_of_matchPattern. rewrite wildcard_glob.
  - unfold wildcard_spec. rewrite H1, glob_self by done. done.
  - apply Forall_forall. by apply forallb_elem_of.
Qed.

Section engine_lemmas.
Context `{GoFormat}.
Implicit Types (rs : list PermissionRule) (t : bytes) (i : input).

(** Some matching rule has the action. *)
Definition some_match (a : PermissionAction) rs t i : bool :=
  existsb (fun r => matchRule r t i && (Action r ==b a)) rs.

Lemma some_match_true a rs t i :
  some_match a rs t i = true <->
  exists r, r ∈ rs /\ matchRule r t i = true /\ Action r = a.
Proof.
  unfold some_match. rewrite existsb_elem_of.
  split; intros (r & Hr & Hm); exists r.
  - breflect. auto.
  - destruct Hm as [Hm Ha]. split; [done|]. rewrite Hm. by apply bool_decide_eq_true.
Qed.

Lemma fold_match_step rs t i f :
  let g := fold_left (match_step t i) rs f in
  hasDeny g = hasDeny f || some_match ActionDeny rs t i /\
  hasAsk g = hasAsk f || some_match ActionAsk rs t i /\
  hasAllow g = hasAllow f || some_match ActionAllow rs t i /\
  matched g = matched f || existsb (fun r => matchRule r t i) rs.
Proof.
  revert f. induction rs as [|r rs IH]; intros f; simpl.
  - by rewrite !orb_false_r.
  - destruct (IH (match_step t i f r)) as (H1 & H2 & H3 & H4).
    simpl in *. rewrite H1, H2, H3, H4. clear.
    unfold match_step. destruct (matchRule r t i); simpl; [|done].
    destruct (Action r); simpl; rewrite ?orb_true_r, ?orb_assoc, ?orb_false_r;
      repeat split; done.
Qed.

Lemma some_match_matched a rs t i :
  some_match a rs t i = true -> existsb (fun r => matchRule r t i) rs = true.
Proof.
  rewrite some_match_true, existsb_elem_of. intros (r & Hr & Hm & _). eauto.
Qed.

Lemma EvaluateMatch_cases rs t i :
  EvaluateMatch (Some (NewRulesEngine rs)) t i =
  if some_match ActionDeny rs t i then (ActionDeny, true)
  else if some_match ActionAsk rs t i then (ActionAsk, true)
  else if some_match ActionAllow rs t i then (ActionAllow, true)
  else (ActionAsk, false).
Proof.
  unfold EvaluateMatch. simpl. destruct rs as [|r rs]; [done|]. simpl (length _ =? 0).
  destruct (fold_match_step (r :: rs) t i
    {| hasDeny := false; hasAsk := false; hasAllow := false; matched := false |})
    as (H1 & H2 & H3 & H4).
  cbv zeta. simpl rules. rewrite H1, H2, H3, H4. cbn [hasDeny hasAsk hasAllow matched orb].
  repeat match goal with
  | |- context [if some_match ?a ?l t i then _ else _] =>
      let E := fresh in destruct (some_match a l t i) eqn:E;
      [by rewrite (some_match_matched _ _ _ _ E)|]
  end. done.
Qed.
End engine_lemmas.

(** ** Properties *)

Section engine_properties.
Context `{GoFormat}.

(** The engine answers by the strictest matching rule: deny when a matching
    rule denies, else ask when one asks, else allow when one allows, else the
    unmatched ask; so the order of the rules does not matter. *)
Theorem engine_deny_over_ask_over_allow rs t i :
  let matching a := exists r, r ∈ rs /\ matchRule r t i = true /\ Action r = a in
  let answer := EvaluateMatch (Some (NewRulesEngine rs)) t i in
  (answer = (ActionDeny, true) <-> matching ActionDeny) /\
  (answer = (ActionAsk, true) <-> ~ matching ActionDeny /\ matching ActionAsk) /\
  (answer = (ActionAllow, true) <->
     ~ matching ActionDeny /\ ~ matching ActionAsk /\ matching ActionAllow) /\
  (forall rs', rs' ≡ₚ rs -> EvaluateMatch (Some (NewRulesEngine rs')) t i = answer).
Proof.
  cbv zeta. rewrite <- !some_match_true, !EvaluateMatch_cases.
  split_and!; [by destruct (some_match ActionDeny rs t i), (some_match ActionAsk rs t i),
                 (some_match ActionAllow rs t i); naive_solver..|].
  intros rs' Hp. rewrite EvaluateMatch_cases.
  assert (E : forall a, some_match a rs' t i = some_match a rs t i).
  { intros a. apply eq_true_iff_eq. rewrite !some_match_true.
    split; intros (r & Hr & Hm); exists r; [rewrite <- Hp|rewrite Hp]; done. }
  by rewrite !E.
Qed.

(** A tool the engine reports as denied outright is denied for every input. *)
Theorem blanket_denied_always rs t i :
  IsToolBlanketDenied (Some (NewRulesEngine rs)) t = true ->
  Evaluate (Some (NewRulesEngine rs)) t i = ActionDeny.
Proof.
  unfold IsToolBlanketDenied. cbn. rewrite existsb_elem_of. intros (r & Hr & Hb). breflect.
  unfold Evaluate. rewrite EvaluateMatch_cases.
  assert (E : some_match ActionDeny rs t i = true).
  { apply some_match_true. exists r. split; [done|]. split; [|done].
    unfold matchRule. rewrite H1. by rewrite bool_decide_eq_true_2. }
  by rewrite E.
Qed.
End engine_properties.

(** Printers for the concrete examples. *)
Module Example_format.
#[export] Instance no_format : GoFormat := {|
  sprint_value := fun _ => []; sprint_input := fun _ => []; json_Marshal := fun _ => None |}.
End Example_format.

Section engine_examples.
Import Example_format.

Lemma blanket_denied_always_witness :
  Evaluate (Some (NewRulesEngine
    [{| ToolName := lit "mcp__db"; InputPattern := []; Action := ActionDeny; Source := [] |}]))
    (lit "mcp__db__drop") ∅ = ActionDeny.
Proof. apply blanket_denied_always. by vm_compute. Defined.
End engine_examples.
