(* ===== verification/Precedence.v ===== *)
(** * Rule precedence ([engine/permission/precedence.go]) *)

From S2P Require Import Prelude GoStrings Regex ShellMatch ShellMatchFacts Rules.

(** ** The code *)

Record RuleMatch := {
  rm_Rule : PermissionRule;
  rm_ToolExact : bool;
  rm_InputExact : bool;
  rm_Specificity : Z;
}.

Record RuleDecision := {
  rd_Action : PermissionAction;
  rd_Rule : option PermissionRule;
  rd_Matched : bool;
  rd_ToolExact : bool;
  rd_InputExact : bool;
  rd_Specificity : Z;
}.

(** [RuleDecision{Action: ActionAsk}]. *)
Definition no_decision : RuleDecision :=
  {| rd_Action := ActionAsk; rd_Rule := None; rd_Matched := false;
     rd_ToolExact := false; rd_InputExact := false; rd_Specificity := 0 |}.

(** The matches whose rule has a given action, in order. *)
Definition group_by_action (a : PermissionAction) (ms : list RuleMatch) : list RuleMatch :=
  filter (fun m => Action (rm_Rule m) = a) ms.

Definition ResolvePrecedence (ms : list RuleMatch) : PermissionAction * bool :=
  if length ms =? 0 then (ActionAsk, false)
  else
    let denyMatches := group_by_action ActionDeny ms in
    let askMatches := group_by_action ActionAsk ms in
    let allowMatches := group_by_action ActionAllow ms in
    if 0 <? length denyMatches then (ActionDeny, true)
    else if 0 <? length askMatches then (ActionAsk, true)
    else if 0 <? length allowMatches then (ActionAllow, true)
    else (ActionAsk, false).

(** Tool-exact first, then the presence of an input pattern, then its
    specificity, then input exactness. *)
Definition isMoreSpecific (a b : RuleMatch) : bool :=
  if negb (Bool.eqb (rm_ToolExact a) (rm_ToolExact b)) then rm_ToolExact a
  else
    let aHasInput := InputPattern (rm_Rule a) <>b [] in
    let bHasInput := InputPattern (rm_Rule b) <>b [] in
    if negb (Bool.eqb aHasInput bHasInput) then aHasInput
    else if negb (rm_Specificity a =? rm_Specificity b)%Z
    then (rm_Specificity b <? rm_Specificity a)%Z
    else if negb (Bool.eqb (rm_InputExact a) (rm_InputExact b)) then rm_InputExact a
    else false.

Definition decide_best (chosen : list RuleMatch) : RuleDecision :=
  match chosen with
  | [] => no_decision
  | first :: rest =>
      let best := select_best isMoreSpecific first rest in
      {| rd_Action := Action (rm_Rule best); rd_Rule := Some (rm_Rule best);
         rd_Matched := true; rd_ToolExact := rm_ToolExact best;
         rd_InputExact := rm_InputExact best; rd_Specificity := rm_Specificity best |}
  end.

Definition ResolvePrecedenceDecision (ms : list RuleMatch) : RuleDecision :=
  if length ms =? 0 then no_decision
  else
    let denyMatches := group_by_action ActionDeny ms in
    let askMatches := group_by_action ActionAsk ms in
    let allowMatches := group_by_action ActionAllow ms in
    if 0 <? length denyMatches then decide_best denyMatches
    else if 0 <? length askMatches then decide_best askMatches
    else if 0 <? length allowMatches then decide_best allowMatches
    else no_decision.

Definition ResolvePrecedenceWithWinner (ms : list RuleMatch)
    : PermissionAction * option PermissionRule * bool :=
  let decision := ResolvePrecedenceDecision ms in
  (rd_Action decision, rd_Rule decision, rd_Matched decision).

(** Go's [int] arithmetic on string lengths, far below overflow. *)
Definition computeSpecificity (pattern : bytes) : Z :=
  if pattern ==b [] then 0%Z
  else
    let score := Z.of_nat (length pattern) in
    let score := (score - Z.of_nat (Count pattern (lit "*")) * 10)%Z in
    let score := (score - Z.of_nat (Count pattern (lit "?")) * 5)%Z in
    let score := if HasPrefix pattern (lit "/") then (score + 10)%Z else score in
    let score := (score + Z.of_nat (Count pattern (lit "/")) * 5)%Z in
    if (score <? 1)%Z then 1%Z else score.

Section with_format.
Context `{GoFormat}.

(** What one rule contributes to the matches. *)
Definition rule_match (toolName inputStr : bytes) (rule : PermissionRule) : option RuleMatch :=
  let toolExact := ToolName rule ==b toolName in
  if negb toolExact && negb (matchPattern (ToolName rule) toolName) then None
  else if InputPattern rule ==b [] then
    Some {| rm_Rule := rule; rm_ToolExact := toolExact;
            rm_InputExact := false; rm_Specificity := 0 |}
  else if negb (matchPattern (InputPattern rule) inputStr) then None
  else
    Some {| rm_Rule := rule; rm_ToolExact := toolExact;
            rm_InputExact := negb (hasUnescapedWildcards (InputPattern rule));
            rm_Specificity := computeSpecificity (InputPattern rule) |}.

Definition collectMatches (e : RulesEngine) (toolName : bytes) (toolInput : input)
    : list RuleMatch :=
  let inputStr := extractInputString toolName toolInput in
  omap (rule_match toolName inputStr) (rules e).

Definition EvaluateDecision (e : option RulesEngine) (toolName : bytes) (toolInput : input)
    : RuleDecision :=
  match e with
  | None => no_decision
  | Some e =>
      if length (rules e) =? 0 then no_decision
      else ResolvePrecedenceDecision (collectMatches e toolName toolInput)
  end.

Definition EvaluateWithPrecedence (e : option RulesEngine) (toolName : bytes)
    (toolInput : input) : PermissionAction * option PermissionRule * bool :=
  let decision := EvaluateDecision e toolName toolInput in
  (rd_Action decision, rd_Rule decision, rd_Matched decision).
End with_format.

(** ** Specificity is a strict weak order *)

Lemma isMoreSpecific_irrefl a : isMoreSpecific a a = false.
Proof. unfold isMoreSpecific. rewrite !eqb_reflx, Z.eqb_refl. done. Qed.

Lemma isMoreSpecific_asym a b : isMoreSpecific a b = true -> isMoreSpecific b a = false.
Proof.
  unfold isMoreSpecific.
  destruct (rm_ToolExact a), (rm_ToolExact b); simpl; try done;
  destruct (InputPattern (rm_Rule a) ==b []), (InputPattern (rm_Rule b) ==b []); simpl; try done;
  destruct (rm_Specificity a =? rm_Specificity b)%Z eqn:E; simpl;
  rewrite (Z.eqb_sym (rm_Specificity b)), E; simpl;
  try (destruct (rm_InputExact a), (rm_InputExact b); done); lia.
Qed.

Lemma isMoreSpecific_neg_trans a b c :
  isMoreSpecific a b = false -> isMoreSpecific b c = false -> isMoreSpecific a c = false.
Proof.
  unfold isMoreSpecific.
  destruct (rm_ToolExact a), (rm_ToolExact b), (rm_ToolExact c); simpl; try done;
  destruct (InputPattern (rm_Rule a) ==b []), (InputPattern (rm_Rule b) ==b []),
           (InputPattern (rm_Rule c) ==b []); simpl; try done;
  destruct (rm_Specificity a =? rm_Specificity b)%Z eqn:E1;
  destruct (rm_Specificity b =? rm_Specificity c)%Z eqn:E2;
  destruct (rm_Specificity a =? rm_Specificity c)%Z eqn:E3; simpl; try lia;
  destruct (rm_InputExact a), (rm_InputExact b), (rm_InputExact c); done || lia.
Qed.

#[export] Hint Resolve isMoreSpecific_irrefl isMoreSpecific_asym isMoreSpecific_neg_trans : yhc.

(** ** The winner *)

Lemma decide_best_spec ms :
  ms <> [] ->
  exists best, best ∈ ms /\ (forall m, m ∈ ms -> isMoreSpecific m best = false) /\
    decide_best ms =
    {| rd_Action := Action (rm_Rule best); rd_Rule := Some (rm_Rule best);
       rd_Matched := true; rd_ToolExact := rm_ToolExact best;
       rd_InputExact := rm_InputExact best; rd_Specificity := rm_Specificity best |}.
Proof.
  destruct ms as [|m ms]; [done|]. intros _. exists (select_best isMoreSpecific m ms).
  split; [apply select_best_elem|]. split; [|done].
  intros y Hy. apply select_best_max with (l := ms); eauto with yhc.
Qed.

Lemma group_by_action_elem a ms m :
  m ∈ group_by_action a ms <-> Action (rm_Rule m) = a /\ m ∈ ms.
Proof. unfold group_by_action. by rewrite list_elem_of_filter. Qed.

Lemma decide_best_group a ms :
  group_by_action a ms <> [] ->
  rd_Action (decide_best (group_by_action a ms)) = a /\
  rd_Matched (decide_best (group_by_action a ms)) = true.
Proof.
  intros Hne. destruct (decide_best_spec _ Hne) as (best & Hb & _ & ->).
  apply group_by_action_elem in Hb as [Hb _]. done.
Qed.

Lemma length_pos_ne {A} (l : list A) : (0 <? length l) = true <-> l <> [].
Proof. destruct l; simpl; split; intros; done. Qed.

(** The decision with its winner takes the same action as the plain one. *)
Lemma decision_action ms :
  (rd_Action (ResolvePrecedenceDecision ms), rd_Matched (ResolvePrecedenceDecision ms))
  = ResolvePrecedence ms.
Proof.
  unfold ResolvePrecedenceDecision, ResolvePrecedence. destruct (length ms =? 0); [done|].
  cbv zeta.
  destruct (0 <? length (group_by_action ActionDeny ms)) eqn:E1;
    [apply length_pos_ne in E1; destruct (decide_best_group _ _ E1) as [-> ->]; done|].
  destruct (0 <? length (group_by_action ActionAsk ms)) eqn:E2;
    [apply length_pos_ne in E2; destruct (decide_best_group _ _ E2) as [-> ->]; done|].
  destruct (0 <? length (group_by_action ActionAllow ms)) eqn:E3;
    [apply length_pos_ne in E3; destruct (decide_best_group _ _ E3) as [-> ->]; done|].
  done.
Qed.

Section collect_lemmas.
Context `{GoFormat}.

Lemma rule_match_Some t s r m :
  rule_match t s r = Some m -> rm_Rule m = r /\ rm_ToolExact m = (ToolName r ==b t).
Proof. unfold rule_match. intros Hm. repeat case_match; simplify_eq; done. Qed.

(** On a plain tool name, collecting a match and matching are the same. *)
Lemma rule_match_matchRule t i r :
  plain_name t = true ->
  matchRule r t i = true <-> is_Some (rule_match t (extractInputString t i) r).
Proof.
  intros Hp. unfold rule_match, matchRule.
  assert (Hyes : forall m : RuleMatch, true = true <-> is_Some (Some m)) by (split; eauto).
  assert (Hno : false = true <-> is_Some (@None RuleMatch)) by (split; [done|by intros []]).
  destruct (ToolName r ==b t) eqn:Et; simpl.
  - apply bool_decide_eq_true in Et as ->. rewrite plain_name_self by done. simpl.
    destruct (InputPattern r ==b []); [apply Hyes|].
    by destruct (matchPattern (InputPattern r) _).
  - destruct (matchPattern (ToolName r) t); simpl; [|apply Hno].
    destruct (InputPattern r ==b []); [apply Hyes|].
    by destruct (matchPattern (InputPattern r) _).
Qed.

Lemma collect_elem t i rs m :
  m ∈ collectMatches (NewRulesEngine rs) t i ->
  rm_Rule m ∈ rs.
Proof.
  unfold collectMatches. rewrite list_elem_of_omap. intros (r & Hr & Hm).
  by apply rule_match_Some in Hm as [-> _].
Qed.

Lemma group_some_match a t i rs :
  plain_name t = true ->
  (0 <? length (group_by_action a (collectMatches (NewRulesEngine rs) t i)))
  = some_match a rs t i.
Proof.
  intros Hp. apply eq_true_iff_eq. rewrite length_pos_ne, some_match_true. split.
  - intros Hne. destruct (group_by_action a _) as [|m ms] eqn:E; [done|].
    assert (Hm : m ∈ group_by_action a (collectMatches (NewRulesEngine rs) t i))
      by (rewrite E; set_solver).
    apply group_by_action_elem in Hm as [Ha Hm].
    unfold collectMatches in Hm. apply list_elem_of_omap in Hm as (r & Hr & Hm).
    exists r. split; [done|]. split.
    + apply rule_match_matchRule; eauto.
    + by apply rule_match_Some in Hm as [<- _].
  - intros (r & Hr & Hm & Ha). apply rule_match_matchRule in Hm as [m Hm]; [|done].
    intros E. assert (Hin : m ∈ group_by_action a (collectMatches (NewRulesEngine rs) t i)).
    { apply group_by_action_elem. split.
      - by apply rule_match_Some in Hm as [-> _].
      - unfold collectMatches. rewrite list_elem_of_omap. eauto. }
    rewrite E in Hin. by apply not_elem_of_nil in Hin.
Qed.

Lemma collect_nonempty a t i rs :
  plain_name t = true -> some_match a rs t i = true ->
  (length (collectMatches (NewRulesEngine rs) t i) =? 0) = false.
Proof.
  intros Hp Hs. rewrite <- (group_some_match a t i rs Hp) in Hs.
  destruct (collectMatches _ _ _); [|done]. by simpl in Hs.
Qed.

Lemma precedence_equiv t i rs :
  plain_name t = true ->
  (rd_Action (EvaluateDecision (Some (NewRulesEngine rs)) t i),
   rd_Matched (EvaluateDecision (Some (NewRulesEngine rs)) t i))
  = EvaluateMatch (Some (NewRulesEngine rs)) t i.
Proof.
  intros Hp. rewrite EvaluateMatch_cases. unfold EvaluateDecision.
  destruct rs as [|r rs]; [done|]. simpl (length _ =? 0). cbv iota.
  rewrite decision_action. unfold ResolvePrecedence. cbv zeta.
  rewrite !group_some_match by done.
  destruct (length _ =? 0) eqn:E; [|done].
  destruct (some_match ActionDeny _ t i) eqn:E1;
    [by rewrite (collect_nonempty _ _ _ _ Hp E1) in E|].
  destruct (some_match ActionAsk _ t i) eqn:E2;
    [by rewrite (collect_nonempty _ _ _ _ Hp E2) in E|].
  destruct (some_match ActionAllow _ t i) eqn:E3;
    [by rewrite (collect_nonempty _ _ _ _ Hp E3) in E|]. done.
Qed.
End collect_lemmas.

(** ** Properties *)

Section precedence_properties.
Context `{GoFormat}.

(** The precedence path, which also names the winning rule, takes the same
    decision as the plain engine. *)
Theorem precedence_agrees t i rs :
  plain_name t = true ->
  (rd_Action (EvaluateDecision (Some (NewRulesEngine rs)) t i),
   rd_Matched (EvaluateDecision (Some (NewRulesEngine rs)) t i))
  = EvaluateMatch (Some (NewRulesEngine rs)) t i.
Proof. apply precedence_equiv. Qed.

(** The winning rule is one of the matching rules with the decided action,
    and no other such rule is more specific. *)
Theorem winner_most_specific e t i r :
  rd_Rule (EvaluateDecision (Some e) t i) = Some r ->
  let d := EvaluateDecision (Some e) t i in
  exists best, best ∈ collectMatches e t i /\ rm_Rule best = r /\ Action r = rd_Action d /\
    r ∈ rules e /\
    forall m, m ∈ collectMatches e t i -> Action (rm_Rule m) = rd_Action d ->
      isMoreSpecific m best = false.
Proof.
  cbv zeta. unfold EvaluateDecision. destruct (length (rules e) =? 0); [done|].
  set (ms := collectMatches e t i).
  assert (Hin : forall m, m ∈ ms -> rm_Rule m ∈ rules e).
  { intros m Hm. destruct e as [rs]. by apply (collect_elem t i rs m). }
  assert (Hgroup : forall a, (0 <? length (group_by_action a ms)) = true ->
    rd_Rule (decide_best (group_by_action a ms)) = Some r ->
    exists best, best ∈ ms /\ rm_Rule best = r /\
      Action r = rd_Action (decide_best (group_by_action a ms)) /\ r ∈ rules e /\
      forall m, m ∈ ms -> Action (rm_Rule m) = rd_Action (decide_best (group_by_action a ms)) ->
        isMoreSpecific m best = false).
  { intros a Hl%length_pos_ne. destruct (decide_best_spec _ Hl) as (best & Hb & Hmax & ->).
    cbn. intros [= <-]. apply group_by_action_elem in Hb as [Ha Hb]. exists best.
    split_and!; [done|done|done|by apply Hin|]. intros m Hm Hma. apply Hmax.
    apply group_by_action_elem. split; [congruence|done]. }
  unfold ResolvePrecedenceDecision. destruct (length ms =? 0); [done|]. cbv zeta.
  destruct (0 <? length (group_by_action ActionDeny ms)) eqn:E1; [by apply Hgroup|].
  destruct (0 <? length (group_by_action ActionAsk ms)) eqn:E2; [by apply Hgroup|].
  destruct (0 <? length (group_by_action ActionAllow ms)) eqn:E3; [by apply Hgroup|]. done.
Qed.
End precedence_properties.

(** "More specific" is a strict weak order on matches, so the scan for the best
    match is well defined whatever the order of the rules. *)
Theorem specificity_strict_weak :
  (forall a, isMoreSpecific a a = false) /\
  (forall a b, isMoreSpecific a b = true -> isMoreSpecific b a = false) /\
  (forall a b c, isMoreSpecific a b = false -> isMoreSpecific b c = false ->
     isMoreSpecific a c = false).
Proof. eauto with yhc. Qed.

Section precedence_examples.
Import Example_format.
Definition sample_rule (p : string) (a : PermissionAction) : PermissionRule :=
  {| ToolName := lit "Bash"; InputPattern := lit p; Action := a; Source := [] |}.
Definition sample_input : input := {[ lit "command" := AStr (lit "git push origin") ]}.

Lemma precedence_agrees_witness :
  (rd_Action (EvaluateDecision (Some (NewRulesEngine [sample_rule "git *" ActionAllow])) (lit "Bash") sample_input),
   rd_Matched (EvaluateDecision (Some (NewRulesEngine [sample_rule "git *" ActionAllow])) (lit "Bash") sample_input))
  = EvaluateMatch (Some (NewRulesEngine [sample_rule "git *" ActionAllow])) (lit "Bash") sample_input.
Proof. apply precedence_agrees. by vm_compute. Defined.

Lemma winner_most_specific_witness :
  exists best, best ∈ collectMatches (NewRulesEngine
      [sample_rule "git *" ActionAllow; sample_rule "git push origin*" ActionAllow]) (lit "Bash") sample_input /\
    rm_Rule best = sample_rule "git push origin*" ActionAllow.
Proof.
  destruct (winner_most_specific (NewRulesEngine
      [sample_rule "git *" ActionAllow; sample_rule "git push origin*" ActionAllow]) (lit "Bash") sample_input
      (sample_rule "git push origin*" ActionAllow)) as (best & H1 & H2 & _); [by vm_compute|].
  by exists best.
Defined.

(** Short wildcard patterns tie: both scores are raised to one, so the longer
    pattern is not the more specific one. *)
Theorem short_patterns_tie :
  computeSpecificity (lit "git *") = computeSpecificity (lit "git push *").
Proof. by vm_compute. Qed.
End precedence_examples.
