(* ===== verification/Mode.v ===== *)
(** * Permission modes ([engine/permission/mode.go]) *)

From S2P Require Import Prelude GoStrings Regex ShellMatch ShellMatchFacts Rules.

(** [Mode] is a string type; [ModeOther] is a string that is none of the seven
    constants. *)
Inductive Mode : Type :=
| ModeDefault | ModePlan | ModeAcceptEdits | ModeBypassPermissions
| ModeDontAsk | ModeAuto | ModeBubble
| ModeOther (s : bytes).

#[export] Instance Mode_eq_dec : EqDecision Mode.
Proof. solve_decision. Defined.

Definition mode_string (m : Mode) : bytes :=
  match m with
  | ModeDefault => lit "default" | ModePlan => lit "plan"
  | ModeAcceptEdits => lit "acceptEdits" | ModeBypassPermissions => lit "bypassPermissions"
  | ModeDontAsk => lit "dontAsk" | ModeAuto => lit "auto" | ModeBubble => lit "bubble"
  | ModeOther s => s
  end.

Definition named_modes : list Mode :=
  [ModeDefault; ModePlan; ModeAcceptEdits; ModeBypassPermissions; ModeDontAsk; ModeAuto; ModeBubble].

(** The conversion [Mode(s)]. *)
Definition mode_of_string (s : bytes) : Mode :=
  match find (fun m => mode_string m ==b s) named_modes with
  | Some m => m
  | None => ModeOther s
  end.

Definition IsBypassMode (m : Mode) : bool := m ==b ModeBypassPermissions.
Definition IsDenialTrackingEnabled (m : Mode) : bool := m ==b ModeAuto.
Definition ShouldAutoAllow (m : Mode) : bool := m ==b ModeBypassPermissions.

Definition DefaultBehavior (m : Mode) : PermissionAction :=
  match m with
  | ModeBypassPermissions => ActionAllow
  | ModePlan => ActionDeny
  | ModeDontAsk => ActionDeny
  | ModeAcceptEdits => ActionAsk
  | ModeAuto => ActionAsk
  | ModeBubble => ActionAsk
  | _ => ActionAsk
  end.

Definition AllowsToolByDefault (m : Mode) : bool := m ==b ModeBypassPermissions.

Definition DeniesToolByDefault (m : Mode) : bool := (m ==b ModePlan) || (m ==b ModeDontAsk).

Definition EvaluateWithMode (mode : Mode) (ruleAction : PermissionAction) (ruleMatched : bool)
    : PermissionAction :=
  if negb ruleMatched then DefaultBehavior mode
  else if (mode ==b ModeDontAsk) && (ruleAction ==b ActionAsk) then ActionDeny
  else if (mode ==b ModeBypassPermissions) && (ruleAction ==b ActionAsk) then ActionAllow
  else ruleAction.

Definition ModeTitle (m : Mode) : bytes :=
  match m with
  | ModeDefault => lit "Default"
  | ModePlan => lit "Plan Mode"
  | ModeAcceptEdits => lit "Accept Edits"
  | ModeBypassPermissions => lit "Bypass Permissions"
  | ModeDontAsk => lit "Don't Ask"
  | ModeAuto => lit "Auto Mode"
  | ModeBubble => lit "Bubble"
  | ModeOther _ => lit "Default"
  end.

Definition ParseMode (s : bytes) : Mode :=
  match mode_of_string s with
  | ModeOther _ => ModeDefault
  | m => m
  end.

Definition ValidModes : list Mode :=
  [ModeDefault; ModePlan; ModeAcceptEdits; ModeBypassPermissions; ModeDontAsk].

(** ** Lemmas *)

Lemma ParseMode_string m : m ∈ named_modes -> ParseMode (mode_string m) = m.
Proof. destruct m; try done. unfold named_modes. set_solver. Qed.

Lemma EvaluateWithMode_deny mode : EvaluateWithMode mode ActionDeny true = ActionDeny.
Proof. unfold EvaluateWithMode. simpl. by rewrite !andb_false_r. Qed.

Lemma EvaluateWithMode_allow mode a :
  EvaluateWithMode mode a true = ActionAllow ->
  a = ActionAllow \/ (a = ActionAsk /\ mode = ModeBypassPermissions).
Proof.
  unfold EvaluateWithMode. simpl. destruct a, mode; simpl; auto; discriminate.
Qed.

Lemma EvaluateWithMode_dontAsk a : EvaluateWithMode ModeDontAsk a true <> ActionAsk.
Proof. unfold EvaluateWithMode. by destruct a. Qed.

#[export] Hint Resolve EvaluateWithMode_deny EvaluateWithMode_allow : yhc.
