(* ===== verification/DenialTracking.v ===== *)
(** * Denial tracking ([engine/permission/denial_tracking.go])

    Counters, a bounded history and a per-operation rate limiter.  Instants are
    nanoseconds; the clock reading [time.Now()] of an operation is its argument
    [now]. *)

From S2P Require Import Prelude GoStrings Regex ShellMatch ShellMatchFacts Rules.

(** ** The code *)

Definition MaxConsecutive : Z := 3.
Definition MaxTotal : Z := 20.

(** 30 seconds, and the number of records kept. *)
Definition RateLimitWindow : Z := 30 * 1000000000.
Definition MaxHistorySize : nat := 100.

Inductive PermissionReason : Type :=
| ReasonRule | ReasonMode | ReasonSafetyCheck | ReasonClassifier | ReasonHook
| ReasonSandboxOverride | ReasonSubcommand | ReasonToolSpecific | ReasonWorkingDir
| ReasonAsyncAgent | ReasonPermissionPrompt | ReasonOther.

#[export] Instance PermissionReason_eq_dec : EqDecision PermissionReason.
Proof. solve_decision. Defined.

Record DenialRecord := {
  dr_ToolName : bytes;
  dr_Input : input;
  dr_Reason : PermissionReason;
  dr_Message : bytes;
  dr_Timestamp : Z;
}.

Record DenialTrackingState := {
  ConsecutiveDenials : Z;
  TotalDenials : Z;
  History : list DenialRecord;
  rateLimiter : gmap bytes Z;
}.

Definition NewDenialTrackingState : DenialTrackingState :=
  {| ConsecutiveDenials := 0; TotalDenials := 0; History := []; rateLimiter := ∅ |}.

(** The tool name, a zero byte and the main input of Bash and the file tools. *)
Definition denialRateLimitKey (toolName : bytes) (i : input) : bytes :=
  let inputKey :=
    if toolName ==b lit "Bash" then default [] (string_field i (lit "command"))
    else if (toolName ==b lit "Read") || (toolName ==b lit "Write") || (toolName ==b lit "Edit")
    then default [] (string_field i (lit "file_path"))
    else [] in
  toolName ++ [chr 0] ++ inputKey.

Definition RecordDenial (s : DenialTrackingState) : DenialTrackingState :=
  {| ConsecutiveDenials := ConsecutiveDenials s + 1; TotalDenials := TotalDenials s + 1;
     History := History s; rateLimiter := rateLimiter s |}.

Definition RecordDenialWithDetails (now : Z) (toolName : bytes) (i : input)
    (reason : PermissionReason) (message : bytes) (s : DenialTrackingState)
    : DenialTrackingState :=
  let record := {| dr_ToolName := toolName; dr_Input := i; dr_Reason := reason;
                   dr_Message := message; dr_Timestamp := now |} in
  let h := History s ++ [record] in
  let h := if MaxHistorySize <? length h then drop (length h - MaxHistorySize) h else h in
  {| ConsecutiveDenials := ConsecutiveDenials s + 1;
     TotalDenials := TotalDenials s + 1;
     History := h;
     rateLimiter := <[denialRateLimitKey toolName i := now]> (rateLimiter s) |}.

Definition RecordSuccess (s : DenialTrackingState) : DenialTrackingState :=
  {| ConsecutiveDenials := 0; TotalDenials := TotalDenials s;
     History := History s; rateLimiter := rateLimiter s |}.

Definition ShouldFallbackToPrompting (s : DenialTrackingState) : bool :=
  (MaxConsecutive <=? ConsecutiveDenials s)%Z || (MaxTotal <=? TotalDenials s)%Z.

Definition IsRateLimited (now : Z) (toolName : bytes) (i : input) (s : DenialTrackingState)
    : bool :=
  match rateLimiter s !! denialRateLimitKey toolName i with
  | None => false
  | Some lastDenied => (now - lastDenied <? RateLimitWindow)%Z
  end.

Definition ClearRateLimit (toolName : bytes) (i : input) (s : DenialTrackingState)
    : DenialTrackingState :=
  {| ConsecutiveDenials := ConsecutiveDenials s; TotalDenials := TotalDenials s;
     History := History s;
     rateLimiter := delete (denialRateLimitKey toolName i) (rateLimiter s) |}.

Definition ClearAllRateLimits (s : DenialTrackingState) : DenialTrackingState :=
  {| ConsecutiveDenials := ConsecutiveDenials s; TotalDenials := TotalDenials s;
     History := History s; rateLimiter := ∅ |}.

Definition ResetDenials (s : DenialTrackingState) : DenialTrackingState :=
  {| ConsecutiveDenials := 0; TotalDenials := 0; History := []; rateLimiter := ∅ |}.

Definition GetHistory (s : DenialTrackingState) : list DenialRecord := History s.

(** ** Operations as a state machine *)

Inductive denial_op : Type :=
| OpDenial
| OpDenialDetails (now : Z) (t : bytes) (i : input) (r : PermissionReason) (msg : bytes)
| OpSuccess
| OpClear (t : bytes) (i : input)
| OpClearAll
| OpReset.

Definition run_op (s : DenialTrackingState) (op : denial_op) : DenialTrackingState :=
  match op with
  | OpDenial => RecordDenial s
  | OpDenialDetails now t i r msg => RecordDenialWithDetails now t i r msg s
  | OpSuccess => RecordSuccess s
  | OpClear t i => ClearRateLimit t i s
  | OpClearAll => ClearAllRateLimits s
  | OpReset => ResetDenials s
  end.

Definition run_ops (s : DenialTrackingState) (ops : list denial_op) : DenialTrackingState :=
  fold_left run_op ops s.

(** ** Abstract specification: the log of operations

    What the tracker must answer is a function of the operations so far, most
    recent first. *)

(** When [k] was last denied and not cleared since. *)
Fixpoint last_denied (k : bytes) (log : list denial_op) : option Z :=
  match log with
  | [] => None
  | OpDenialDetails now t i _ _ :: log' =>
      if denialRateLimitKey t i ==b k then Some now else last_denied k log'
  | OpClear t i :: log' =>
      if denialRateLimitKey t i ==b k then None else last_denied k log'
  | OpClearAll :: _ | OpReset :: _ => None
  | _ :: log' => last_denied k log'
  end.

(** Denials since the last success or reset, and since the last reset. *)
Fixpoint consecutive (log : list denial_op) : Z :=
  match log with
  | [] => 0
  | OpDenial :: log' | OpDenialDetails _ _ _ _ _ :: log' => consecutive log' + 1
  | OpSuccess :: _ | OpReset :: _ => 0
  | _ :: log' => consecutive log'
  end.

Fixpoint total (log : list denial_op) : Z :=
  match log with
  | [] => 0
  | OpDenial :: log' | OpDenialDetails _ _ _ _ _ :: log' => total log' + 1
  | OpReset :: _ => 0
  | _ :: log' => total log'
  end.

(** The detailed denials since the last reset, oldest first. *)
Fixpoint records (log : list denial_op) : list DenialRecord :=
  match log with
  | [] => []
  | OpDenialDetails now t i r msg :: log' =>
      records log' ++ [{| dr_ToolName := t; dr_Input := i; dr_Reason := r;
                          dr_Message := msg; dr_Timestamp := now |}]
  | OpReset :: _ => []
  | _ :: log' => records log'
  end.

(** The last [n] elements. *)
Definition last_n {A} (n : nat) (l : list A) : list A := drop (length l - n) l.

Record tracks (log : list denial_op) (s : DenialTrackingState) : Prop := {
  tr_consecutive : ConsecutiveDenials s = consecutive log;
  tr_total : TotalDenials s = total log;
  tr_history : History s = last_n MaxHistorySize (records log);
  tr_limiter : forall k, rateLimiter s !! k = last_denied k log;
}.

Lemma last_n_snoc {A} n (l : list A) x :
  n <> 0 ->
  (let h := last_n n l ++ [x] in if n <? length h then drop (length h - n) h else h)
  = last_n n (l ++ [x]).
Proof.
  intros Hn. unfold last_n. cbv zeta. rewrite !length_app, length_drop. simpl length.
  destruct (decide (length l < n)) as [Hlt|Hge].
  - replace (length l - n) with 0 by lia. rewrite !drop_0.
    replace (length l + 1 - n) with 0 by lia.
    rewrite (proj2 (Nat.ltb_ge _ _)) by lia. done.
  - rewrite (proj2 (Nat.ltb_lt _ _)) by lia.
    replace (length l - (length l - n) + 1 - n) with 1 by lia.
    replace (length l + 1 - n) with (1 + (length l - n)) by lia.
    rewrite <- drop_app_le by lia. rewrite drop_drop. f_equal; lia.
Qed.

Lemma run_op_tracks log s op : tracks log s -> tracks (op :: log) (run_op s op).
Proof.
  intros [Hc Ht Hh Hl]. destruct op as [|now t i r msg| |t i| |]; split; simpl; auto;
    try (rewrite ?Hc, ?Ht; reflexivity).
  - rewrite Hh. apply last_n_snoc. unfold MaxHistorySize. lia.
  - intros k. rewrite <- Hl, lookup_insert. case_decide; case_bool_decide; congruence.
  - intros k. rewrite <- Hl, lookup_delete. case_decide; case_bool_decide; congruence.
Qed.

Lemma run_ops_tracks ops log s :
  tracks log s -> tracks (reverse ops ++ log) (run_ops s ops).
Proof.
  revert log s. induction ops as [|op ops IH]; intros log s H; [done|].
  rewrite reverse_cons, <- app_assoc. apply IH. by apply run_op_tracks.
Qed.

Lemma new_tracks : tracks [] NewDenialTrackingState.
Proof. by split. Qed.

Lemma consecutive_total log : (0 <= consecutive log <= total log)%Z.
Proof. induction log as [|[] log IH]; simpl; lia. Qed.

#[export] Hint Resolve new_tracks run_op_tracks run_ops_tracks : yhc.

(** ** Properties *)

(** C5: The tracker refines its log: after any sequence of operations its counters,
    its history and its rate limiter are the functions of the log that the
    specification gives; an operation is rate-limited exactly when it was last
    denied, and not cleared since, less than thirty seconds ago. *)
Theorem tracker_refines_log ops :
  let s := run_ops NewDenialTrackingState ops in
  let log := reverse ops in
  ConsecutiveDenials s = consecutive log /\ TotalDenials s = total log /\
  GetHistory s = last_n MaxHistorySize (records log) /\
  (forall now t i, IsRateLimited now t i s = true <->
     exists t0, last_denied (denialRateLimitKey t i) log = Some t0 /\
                (now - t0 < RateLimitWindow)%Z).
Proof.
  cbv zeta. destruct (run_ops_tracks ops [] NewDenialTrackingState new_tracks) as [H1 H2 H3 H4].
  rewrite app_nil_r in *. split_and!; [done..|]. intros now t i. unfold IsRateLimited.
  rewrite H4. destruct (last_denied _ _) as [t0|]; [|naive_solver].
  rewrite Z.ltb_lt. naive_solver.
Qed.

(** The history never exceeds its bound, no counter is negative or exceeds the
    total, and the fallback to prompting starts at the third denial in a row. *)
Theorem tracker_bounds ops :
  let s := run_ops NewDenialTrackingState ops in
  length (History s) <= MaxHistorySize /\
  (0 <= ConsecutiveDenials s <= TotalDenials s)%Z /\
  (ShouldFallbackToPrompting s = true <->
     (3 <= consecutive (reverse ops) \/ 20 <= total (reverse ops))%Z).
Proof.
  cbv zeta. destruct (run_ops_tracks ops [] NewDenialTrackingState new_tracks) as [H1 H2 H3 _].
  rewrite app_nil_r in *. assert (Hc := consecutive_total (reverse ops)).
  split_and!.
  - rewrite H3. unfold last_n. rewrite length_drop. lia.
  - lia.
  - lia.
  - unfold ShouldFallbackToPrompting, MaxConsecutive, MaxTotal. rewrite H1, H2.
    rewrite orb_true_iff, !Z.leb_le. done.
Qed.
