(* ===== verification/SessionStore.v ===== *)
(** * Persisted decisions ([engine/permission/session_store.go]) *)

From S2P Require Import Prelude GoStrings Regex ShellMatch ShellMatchFacts Rules.

(** ** The code *)

(** [DecisionScope] is a string type; [ScopeOther] is any other string. *)
Inductive DecisionScope : Type := ScopeProject | ScopeGlobal | ScopeOther (s : bytes).

#[export] Instance DecisionScope_eq_dec : EqDecision DecisionScope.
Proof. solve_decision. Defined.

Record SessionDecision := {
  sd_ToolName : bytes;
  sd_InputPattern : bytes;
  sd_Action : PermissionAction;
  sd_Scope : DecisionScope;
  sd_CreatedAt : Z;
  sd_Reason : bytes;
}.

#[export] Instance SessionDecision_eq_dec : EqDecision SessionDecision.
Proof. solve_decision. Defined.

(** The store is its decisions, in insertion order. *)
Abbreviation SessionStore := (list SessionDecision).

Definition NewSessionStore : SessionStore := [].

(** A decision is identified by its tool, input pattern and scope. *)
Definition sd_key (d : SessionDecision) : bytes * bytes * DecisionScope :=
  (sd_ToolName d, sd_InputPattern d, sd_Scope d).

(** The first decision with the same key is replaced, otherwise the decision is
    appended. *)
Fixpoint Add (decision : SessionDecision) (s : SessionStore) : SessionStore :=
  match s with
  | [] => [decision]
  | existing :: s' =>
      if sd_key existing ==b sd_key decision then decision :: s'
      else existing :: Add decision s'
  end.

(** Removes the first decision with the key; the boolean tells whether there
    was one. *)
Fixpoint Remove (toolName inputPattern : bytes) (scope : DecisionScope) (s : SessionStore)
    : SessionStore * bool :=
  match s with
  | [] => ([], false)
  | d :: s' =>
      if sd_key d ==b (toolName, inputPattern, scope) then (s', true)
      else let '(s'', b) := Remove toolName inputPattern scope s' in (d :: s'', b)
  end.

(** The empty scope string clears everything. *)
Definition Clear (scope : DecisionScope) (s : SessionStore) : SessionStore :=
  if scope ==b ScopeOther [] then []
  else filter (fun d => sd_Scope d <> scope) s.

Definition List (s : SessionStore) : list SessionDecision := s.

Section with_format.
Context `{GoFormat}.

(** Whether a decision applies to the invocation. *)
Definition decision_applies (toolName inputStr : bytes) (d : SessionDecision) : bool :=
  if sd_ToolName d <>b toolName then false
  else if sd_InputPattern d ==b [] then true
  else matchPattern (sd_InputPattern d) inputStr.

(** The loop of [Lookup]: a project decision returns at once, the first other
    one is remembered in [globalMatch]. *)
Fixpoint lookup_loop (toolName inputStr : bytes) (globalMatch : option SessionDecision)
    (ds : list SessionDecision) : option SessionDecision :=
  match ds with
  | [] => globalMatch
  | d :: ds' =>
      if decision_applies toolName inputStr d then
        if sd_Scope d ==b ScopeProject then Some d
        else lookup_loop toolName inputStr
               (match globalMatch with None => Some d | Some _ => globalMatch end) ds'
      else lookup_loop toolName inputStr globalMatch ds'
  end.

Definition Lookup (toolName : bytes) (toolInput : input) (s : SessionStore)
    : option SessionDecision :=
  lookup_loop toolName (extractInputString toolName toolInput) None s.
End with_format.

Definition SourceProject : bytes := lit "project-settings".
Definition SourceLocal : bytes := lit "local-settings".
Definition SourceUser : bytes := lit "user-settings".

Definition ToRules (s : SessionStore) : list PermissionRule :=
  map (fun d => {| ToolName := sd_ToolName d; InputPattern := sd_InputPattern d;
                   Action := sd_Action d;
                   Source := if sd_Scope d ==b ScopeGlobal then SourceUser else SourceLocal |}) s.

(** *** Persistence *)

Record persistedSessionFile := { psf_Version : Z; psf_Decisions : list SessionDecision }.

Definition sessionFileVersion : Z := 1.

(** The outcome of [os.ReadFile]. *)
Inductive read_result : Type := FileMissing | FileError | FileData (data : bytes).

Definition valid_decision (d : SessionDecision) : bool :=
  negb ((sd_ToolName d ==b [])
        || ((sd_Action d <>b ActionAllow) && (sd_Action d <>b ActionDeny)
            && (sd_Action d <>b ActionAsk))).

Section with_json.
(** [json.MarshalIndent] and [json.Unmarshal] of a session file. *)
Context (marshal : persistedSessionFile -> bytes)
        (unmarshal : bytes -> option persistedSessionFile).

(** The bytes that [SaveTo] writes. *)
Definition SaveTo (s : SessionStore) : bytes :=
  marshal {| psf_Version := sessionFileVersion; psf_Decisions := s |} ++ [NL].

(** [None] is the read error; a missing, empty or corrupt file loads nothing. *)
Definition LoadFrom (file : read_result) (s : SessionStore) : option SessionStore :=
  match file with
  | FileMissing => Some s
  | FileError => None
  | FileData data =>
      if length data =? 0 then Some s
      else
        match unmarshal data with
        | None => Some s
        | Some f =>
            if (psf_Version f <? 1)%Z then Some s
            else Some (s ++ filter (fun d => valid_decision d = true) (psf_Decisions f))
        end
  end.
End with_json.

(** ** Lemmas *)

(** At most one decision per key. *)
Definition unique_keys (s : SessionStore) : Prop := NoDup (map sd_key s).

Lemma Remove_elem t p sc s x : x ∈ (Remove t p sc s).1 -> x ∈ s.
Proof.
  induction s as [|e s IH]; simpl; [done|]. case_bool_decide; simpl; [set_solver|].
  destruct (Remove t p sc s) as [s'' b]. simpl in *. set_solver.
Qed.

Lemma Remove_unique t p sc s : unique_keys s -> unique_keys (Remove t p sc s).1.
Proof.
  unfold unique_keys. induction s as [|e s IH]; simpl; intros H; [done|].
  apply NoDup_cons in H as [He Hs]. case_bool_decide; simpl; [done|].
  destruct (Remove t p sc s) as [s'' b] eqn:E. simpl in *. constructor; [|by apply IH].
  intros Hin. apply He. apply list_elem_of_fmap in Hin as (x & Hx & Hin).
  apply list_elem_of_fmap. exists x. split; [done|].
  apply (Remove_elem t p sc). by rewrite E.
Qed.

(** With unique keys, removing a key leaves the others and nothing under it. *)
Lemma Remove_unique_elem t p sc s x :
  unique_keys s -> x ∈ (Remove t p sc s).1 <-> x ∈ s /\ sd_key x <> (t, p, sc).
Proof.
  unfold unique_keys. induction s as [|e s IH]; simpl; intros H; [set_solver|].
  apply NoDup_cons in H as [He Hs]. case_bool_decide as E; simpl.
  - split; [|set_solver]. intros Hx. split; [set_solver|]. intros Hk. apply He.
    rewrite E, <- Hk. by apply list_elem_of_fmap_2.
  - destruct (Remove t p sc s) as [s'' b] eqn:Er. simpl in *. rewrite !elem_of_cons, IH by done.
    split; [intros [->|[]]; auto|]. intros [[->|] ?]; auto.
Qed.

Section lookup_lemmas.
Context `{GoFormat}.

(** The first project decision that applies, else the first that applies. *)
Lemma lookup_loop_spec t s g ds :
  lookup_loop t s g ds =
  match find (fun d => decision_applies t s d && (sd_Scope d ==b ScopeProject)) ds with
  | Some d => Some d
  | None => match g with
            | Some d => Some d
            | None => find (decision_applies t s) ds
            end
  end.
Proof.
  revert g. induction ds as [|d ds IH]; intros g; simpl; [by destruct g|].
  destruct (decision_applies t s d); simpl; [|apply IH].
  destruct (sd_Scope d ==b ScopeProject); [done|]. rewrite IH.
  destruct (find _ ds); [done|]. by destruct g.
Qed.

Lemma find_elem {A} (f : A -> bool) l x : find f l = Some x -> x ∈ l /\ f x = true.
Proof. intros Hf. apply List.find_some in Hf. by rewrite <- list_elem_of_In in Hf. Qed.

Lemma Lookup_elem t i s d :
  Lookup t i s = Some d ->
  d ∈ s /\ sd_ToolName d = t /\
  (sd_InputPattern d = [] \/
   matchPattern (sd_InputPattern d) (extractInputString t i) = true).
Proof.
  assert (Happ : forall d, decision_applies t (extractInputString t i) d = true ->
    sd_ToolName d = t /\
    (sd_InputPattern d = [] \/
     matchPattern (sd_InputPattern d) (extractInputString t i) = true)).
  { intros e. unfold decision_applies. case_bool_decide; simpl; [|done].
    case_bool_decide; auto. }
  unfold Lookup. rewrite lookup_loop_spec.
  destruct (find _ s) as [e|] eqn:E1.
  - intros [= ->]. apply find_elem in E1 as [Hin Hb]. breflect. split; auto.
  - intros E2. apply find_elem in E2 as [Hin Hb]. split; auto.
Qed.
End lookup_lemmas.

(** ** Properties *)

Inductive store_op : Type :=
| StoreAdd (d : SessionDecision)
| StoreRemove (toolName inputPattern : bytes) (scope : DecisionScope)
| StoreClear (scope : DecisionScope)
| StoreLoad (file : read_result).

Section store_runs.
Context (unmarshal : bytes -> option persistedSessionFile).

(** A load that fails changes nothing. *)
Definition run_store_op (s : SessionStore) (op : store_op) : SessionStore :=
  match op with
  | StoreAdd d => Add d s
  | StoreRemove t p sc => (Remove t p sc s).1
  | StoreClear sc => Clear sc s
  | StoreLoad file => default s (LoadFrom unmarshal file s)
  end.

(** The decisions that a file holds, valid or not. *)
Definition file_decisions (file : read_result) : list SessionDecision :=
  match file with
  | FileData ((_ :: _) as data) =>
      match unmarshal data with
      | Some f => if (1 <=? psf_Version f)%Z then psf_Decisions f else []
      | None => []
      end
  | _ => []
  end.

Definition loads (op : store_op) : bool := match op with StoreLoad _ => true | _ => false end.

(** The decisions under a key, the oldest first. *)
Definition under (k : bytes * bytes * DecisionScope) : SessionStore -> list SessionDecision :=
  filter (fun d => sd_key d = k).

(** The specification, key by key, of a log with the most recent operation first:
    an addition replaces the oldest decision under the key and a removal removes
    it, clearing the scope of the key forgets them all, and a load adds what the
    file has for the key. *)
Fixpoint stored (k : bytes * bytes * DecisionScope) (log : list store_op) : list SessionDecision :=
  match log with
  | [] => []
  | StoreAdd d :: log' => if sd_key d ==b k then d :: tail (stored k log') else stored k log'
  | StoreRemove t p sc :: log' => if bool_decide ((t, p, sc) = k) then tail (stored k log') else stored k log'
  | StoreClear sc :: log' =>
      if (sc ==b ScopeOther []) || (sc ==b k.2) then [] else stored k log'
  | StoreLoad file :: log' =>
      stored k log' ++ filter (fun d => valid_decision d = true /\ sd_key d = k) (file_decisions file)
  end.

Lemma under_cons k d s : under k (d :: s) = if sd_key d ==b k then d :: under k s else under k s.
Proof. unfold under. rewrite filter_cons. by destruct (decide _) as [E|E]; case_bool_decide. Qed.

Lemma Add_under k d s : under k (Add d s) = if sd_key d ==b k then d :: tail (under k s) else under k s.
Proof.
  induction s as [|e s IH]; cbn [Add]; [apply under_cons|].
  destruct (sd_key e ==b sd_key d) eqn:E; breflect; rewrite !under_cons, ?IH, ?E.
  - by case_bool_decide.
  - do 2 case_bool_decide; congruence.
Qed.

Lemma Remove_under k t p sc s :
  under k (Remove t p sc s).1 = if bool_decide ((t, p, sc) = k) then tail (under k s) else under k s.
Proof.
  induction s as [|e s IH]; cbn [Remove]; [by case_bool_decide|].
  destruct (sd_key e ==b (t, p, sc)) eqn:E; breflect.
  - cbn [fst]. rewrite under_cons, E. by case_bool_decide.
  - destruct (Remove t p sc s) as [s' b]. cbn [fst] in *. rewrite !under_cons, IH. do 2 case_bool_decide; congruence.
Qed.

Lemma Clear_under k sc s :
  under k (Clear sc s) = if (sc ==b ScopeOther []) || (sc ==b k.2) then [] else under k s.
Proof.
  unfold Clear. destruct (sc ==b ScopeOther []); [done|]. cbn [orb]. unfold under.
  induction s as [|e s IH]; [by destruct (sc ==b k.2)|]. rewrite (filter_cons (fun d => sd_Scope d <> sc)).
  destruct (decide (sd_Scope e <> sc)) as [Hs|Hs]; rewrite !filter_cons, IH;
    destruct (decide (sd_key e = k)) as [<-|Hk]; try done; case_bool_decide as Hb; unfold sd_key in Hb; cbn in Hb; try done; congruence.
Qed.

Lemma LoadFrom_under k file s :
  under k (default s (LoadFrom unmarshal file s)) =
  under k s ++ filter (fun d => valid_decision d = true /\ sd_key d = k) (file_decisions file).
Proof.
  unfold LoadFrom, file_decisions. destruct file as [| |[|b data]]; cbn [from_option id length Nat.eqb]; try by rewrite app_nil_r.
  destruct (unmarshal (b :: data)) as [f|]; [|by rewrite app_nil_r].
  rewrite Z.leb_antisym. destruct (psf_Version f <? 1)%Z; cbn [from_option id negb]; [by rewrite app_nil_r|].
  unfold under. rewrite (filter_app (fun d => sd_key d = k)), list_filter_filter. f_equal. apply list_filter_iff. intros d. tauto.
Qed.

Lemma unique_keys_under s : unique_keys s <-> forall k, length (under k s) <= 1.
Proof.
  unfold unique_keys. induction s as [|e s IH]; cbn [map]; [by split; [cbn; lia|constructor]|].
  rewrite NoDup_cons, IH. assert (He : sd_key e ∉ map sd_key s <-> under (sd_key e) s = []).
  { unfold under. rewrite list_elem_of_In, in_map_iff. split.
    - intros Hn. destruct (filter _ s) as [|d l] eqn:E; [done|]. destruct Hn. exists d.
      assert (Hd : d ∈ filter (fun d => sd_key d = sd_key e) s) by (rewrite E; by left).
      apply list_elem_of_filter in Hd as [? ?]. by rewrite <- list_elem_of_In.
    - intros E (d & Hk & Hd%list_elem_of_In). assert (Hf : d ∈ filter (fun d => sd_key d = sd_key e) s)
        by by apply list_elem_of_filter. rewrite E in Hf. by apply not_elem_of_nil in Hf. }
  rewrite He. split.
  - intros [Hn Hl] k. rewrite under_cons. case_bool_decide as E; [|apply Hl]. subst k. by rewrite Hn.
  - intros Hl. split.
    + specialize (Hl (sd_key e)). rewrite under_cons, bool_decide_eq_true_2 in Hl by done. cbn [length] in Hl.
      apply length_zero_iff_nil. lia.
    + intros k. specialize (Hl k). rewrite under_cons in Hl. case_bool_decide; cbn [length] in Hl; lia.
Qed.

Lemma stored_unique k log : Forall (fun op => loads op = false) log -> length (stored k log) <= 1.
Proof.
  induction 1 as [|op log Hop _ IH]; [cbn; lia|].
  assert (length (tail (stored k log)) = 0) by (destruct (stored k log) as [|d [|]]; cbn in *; lia).
  destruct op; cbn [stored] in *; repeat case_match; cbn [length]; try lia; done.
Qed.

(** C11: the store refines a map from keys (tool, pattern and scope) to decisions.
    After any sequence of additions, removals, clearings and loads it holds under
    each key exactly what the specification gives, in order; and as long as
    nothing is loaded, that is at most one decision per key, the one added last
    and not removed or cleared since.  A load appends what the file has for a key
    to what is already there. *)
Theorem store_refines_map ops :
  let s := fold_left run_store_op ops NewSessionStore in
  (forall k, under k s = stored k (reverse ops))
  /\ (Forall (fun op => loads op = false) ops -> unique_keys s).
Proof.
  cbv zeta. assert (Hs : forall k, under k (fold_left run_store_op ops NewSessionStore) = stored k (reverse ops)).
  { intros k. induction ops as [|op ops IH] using rev_ind; [done|].
    rewrite fold_left_app, reverse_snoc. cbn [fold_left].
    destruct op as [d|t p sc|sc|file]; cbn [run_store_op stored];
      rewrite ?Add_under, ?Remove_under, ?Clear_under, ?LoadFrom_under; by rewrite IH. }
  split; [done|]. intros Hl. apply unique_keys_under. intros k. rewrite Hs. apply stored_unique.
  by apply Forall_reverse.
Qed.
End store_runs.

Section store_example.
Definition store_decision (action : PermissionAction) : SessionDecision :=
  {| sd_ToolName := lit "Bash"; sd_InputPattern := lit "npm *"; sd_Action := action;
     sd_Scope := ScopeProject; sd_CreatedAt := 7; sd_Reason := [] |}.

(** A decision replaced, and then saved and loaded again. *)
Definition store_log : list store_op := [StoreAdd (store_decision ActionAllow); StoreAdd (store_decision ActionDeny)].
Definition store_file (_ : bytes) : option persistedSessionFile :=
  Some {| psf_Version := 1; psf_Decisions := [store_decision ActionAsk] |}.

Lemma store_refines_map_witness :
  unique_keys (fold_left (run_store_op store_file) store_log NewSessionStore)
  /\ under (lit "Bash", lit "npm *", ScopeProject)
       (fold_left (run_store_op store_file) (store_log ++ [StoreLoad (FileData (lit "{}"))]) NewSessionStore)
     = [store_decision ActionDeny; store_decision ActionAsk].
Proof.
  split.
  - apply (proj2 (store_refines_map store_file store_log)). by repeat constructor.
  - rewrite (proj1 (store_refines_map store_file (store_log ++ [StoreLoad (FileData (lit "{}"))]))). by vm_compute.
Defined.
End store_example.

Section lookup_properties.
Context `{GoFormat}.

(** [Lookup] answers with a stored decision for the tool whose pattern covers
    the input; a project decision that applies wins over every other, and
    there is an answer whenever some decision applies. *)
Theorem lookup_project_first t i s :
  let covers d := decision_applies t (extractInputString t i) d = true in
  match Lookup t i s with
  | Some d =>
      d ∈ s /\ covers d /\ sd_ToolName d = t /\
      (forall d', d' ∈ s -> covers d' -> sd_Scope d' = ScopeProject -> sd_Scope d = ScopeProject)
  | None => forall d, d ∈ s -> ~ covers d
  end.
Proof.
  cbv zeta. assert (Hel := Lookup_elem t i s). unfold Lookup in *. rewrite lookup_loop_spec in *.
  set (inp := extractInputString t i) in *.
  destruct (find (fun d => decision_applies t inp d && (sd_Scope d ==b ScopeProject)) s)
    as [d|] eqn:E1.
  - destruct (Hel d eq_refl) as (H1 & H2 & _). apply find_elem in E1 as [_ Hb]. breflect.
    split_and!; auto.
  - assert (Hno : forall d', d' ∈ s -> decision_applies t inp d' = true ->
              sd_Scope d' <> ScopeProject).
    { intros d' Hd' Ha Hs. apply list_elem_of_In in Hd'.
      assert (Hf := List.find_none _ _ E1 d' Hd'). cbn in Hf. by rewrite Ha, Hs in Hf. }
    destruct (find (decision_applies t inp) s) as [d|] eqn:E2.
    + destruct (Hel d eq_refl) as (H1 & H2 & _). apply find_elem in E2 as [_ Hb].
      split_and!; [done..|]. intros d' Hd' Ha Hs. by destruct (Hno d' Hd' Ha).
    + intros d Hd. apply list_elem_of_In in Hd. rewrite (List.find_none _ _ E2 d Hd). done.
Qed.
End lookup_properties.

(** Saving a store of valid decisions and loading it into an empty store gives
    it back, when decoding inverts the encoding of the saved file. *)
Theorem save_load_roundtrip marshal unmarshal (s : SessionStore) :
  (let f := {| psf_Version := sessionFileVersion; psf_Decisions := s |} in
   unmarshal (marshal f ++ [NL]) = Some f) ->
  Forall (fun d => valid_decision d = true) s ->
  LoadFrom unmarshal (FileData (SaveTo marshal s)) NewSessionStore = Some s.
Proof.
  intros Hj Hv. unfold LoadFrom, SaveTo, NewSessionStore.
  destruct (length _ =? 0) eqn:E.
  { apply Nat.eqb_eq in E. rewrite length_app in E. cbn in E. lia. }
  rewrite Hj. cbn. f_equal. clear Hj E. induction Hv as [|d l Hd _ IH]; [done|].
  rewrite filter_cons_True by done. by rewrite IH.
Qed.

Section save_load_example.
Definition saved_decision : SessionDecision :=
  {| sd_ToolName := lit "Bash"; sd_InputPattern := lit "npm *"; sd_Action := ActionAllow;
     sd_Scope := ScopeProject; sd_CreatedAt := 7; sd_Reason := [] |}.

Lemma save_load_roundtrip_witness :
  LoadFrom (fun _ => Some {| psf_Version := 1; psf_Decisions := [saved_decision] |})
    (FileData (SaveTo (fun _ => lit "{}") [saved_decision])) NewSessionStore
  = Some [saved_decision].
Proof. apply save_load_roundtrip; [done | by repeat constructor]. Defined.
End save_load_example.
