(* ===== verification/BashLex.v ===== *)
(** * Scanning shell commands ([engine/permission/bash_security.go], first part)

    The byte-index loops of the source are functions on the rest of the
    command: [command[i]] is the head, [i+1 < n] says that the rest has a
    second byte.  A loop whose body can consume several bytes takes fuel and
    returns [None] when it runs out; [S (length command)] units are always
    enough (see [split_loop_total] and the lemmas like it), because every
    iteration consumes at least one byte. *)

From S2P Require Import Prelude GoStrings.

(** ** Inner loops *)

(** [for i < n && command[i] != q { i++ }]: the bytes passed over and the rest,
    which starts with [q] or is empty. *)
Fixpoint span_until (q : ascii) (s : bytes) : bytes * bytes :=
  match s with
  | [] => ([], [])
  | c :: s1 =>
      if c ==b q then ([], s)
      else let '(w, r) := span_until q s1 in (c :: w, r)
  end.

(** The same, a backslash taking the next byte with it. *)
Fixpoint span_escaped (q : ascii) (s : bytes) : bytes * bytes :=
  match s with
  | [] => ([], [])
  | c :: s1 =>
      if c ==b q then ([], s)
      else
        match s1 with
        | d :: s2 =>
            if c ==b BSLASH then let '(w, r) := span_escaped q s2 in (c :: d :: w, r)
            else let '(w, r) := span_escaped q s1 in (c :: w, r)
        | [] => ([c], [])
        end
  end.

(** [if i < n { i++ }] after such a loop. *)
Definition close_quote (wr : bytes * bytes) : bytes * bytes :=
  match wr with
  | (w, q :: r) => (w ++ [q], r)
  | (w, []) => (w, [])
  end.

(** [for i < n && depth > 0]: up to the parenthesis that closes the [depth]
    open ones, quoted text inside being passed over. *)
Fixpoint span_paren (fuel depth : nat) (s : bytes) : bytes * bytes :=
  match fuel, depth, s with
  | S fuel', S depth', c :: s1 =>
      let cont (d : nat) (w r : bytes) :=
        let '(w', r') := span_paren fuel' d r in (w ++ w', r') in
      if c ==b "("%char then cont (S depth) [c] s1
      else if c ==b ")"%char then cont depth' [c] s1
      else if c ==b SQUOTE then
        let '(w, r) := close_quote (span_until SQUOTE s1) in cont depth (c :: w) r
      else if c ==b DQUOTE then
        let '(w, r) := close_quote (span_escaped DQUOTE s1) in cont depth (c :: w) r
      else cont depth [c] s1
  | _, _, _ => ([], s)
  end.

(** ** [SplitCommands]

    One iteration of its loop reads text to append to the current command, or
    an operator that ends it. *)

Inductive token : Type := Text (w : bytes) | Op (w : bytes).

Definition token_text (t : token) : bytes := match t with Text w | Op w => w end.

Definition head_is (c : ascii) (s : bytes) : bool :=
  match s with d :: _ => d ==b c | [] => false end.

Definition text_from (w : bytes) (wr : bytes * bytes) : token * bytes :=
  let '(w', r) := wr in (Text (w ++ w'), r).

(** The cases after the quotes and the backslash escape. *)
Definition unquoted_token (ch : ascii) (s1 : bytes) : token * bytes :=
  if (ch ==b "$"%char) && head_is "("%char s1 then
    text_from [ch; "("%char] (span_paren (length s1) 1 (drop 1 s1))
  else if ch ==b BTICK then text_from [ch] (close_quote (span_escaped BTICK s1))
  else if ch ==b "("%char then text_from [ch] (span_paren (length s1) 1 s1)
  else if (ch ==b "&"%char) && head_is "&"%char s1 then (Op (lit "&&"), drop 1 s1)
  else if (ch ==b "|"%char) && head_is "|"%char s1 then (Op (lit "||"), drop 1 s1)
  else if ch ==b "|"%char then (Op (lit "|"), s1)
  else if ch ==b ";"%char then (Op (lit ";"), s1)
  else if ch ==b "&"%char then (Op (lit "&"), s1)
  else (Text [ch], s1).

Definition next_token (ch : ascii) (s1 : bytes) : token * bytes :=
  if ch ==b SQUOTE then text_from [ch] (close_quote (span_until SQUOTE s1))
  else if ch ==b DQUOTE then text_from [ch] (close_quote (span_escaped DQUOTE s1))
  else
    match ch ==b BSLASH, s1 with
    | true, next :: s2 => (Text [ch; next], s2)
    | _, _ => unquoted_token ch s1
    end.

(** [if s := strings.TrimSpace(current.String()); s != "" { append }]. *)
Definition flush_command (current : bytes) : list bytes :=
  let s := TrimSpace current in if s <>b [] then [s] else [].

Fixpoint split_loop (fuel : nat) (s current : bytes) : option (list bytes) :=
  match fuel with
  | O => None
  | S fuel' =>
      match s with
      | [] => Some (flush_command current)
      | ch :: s1 =>
          match next_token ch s1 with
          | (Text w, r) => split_loop fuel' r (current ++ w)
          | (Op _, r) => app (flush_command current) <$> split_loop fuel' r []
          end
      end
  end.

Definition SplitCommands (command0 : bytes) : list bytes :=
  let command := TrimSpace command0 in
  if command ==b [] then []
  else default [] (split_loop (S (length command)) command []).

(** ** [DetectHeredoc] *)

Fixpoint heredoc_loop (fuel : nat) (s : bytes) : option bool :=
  match fuel with
  | O => None
  | S fuel' =>
      match s with
      | [] => Some false
      | ch :: s1 =>
          if ch ==b SQUOTE then heredoc_loop fuel' (close_quote (span_until SQUOTE s1)).2
          else if ch ==b DQUOTE then heredoc_loop fuel' (close_quote (span_escaped DQUOTE s1)).2
          else if ch ==b "#"%char then heredoc_loop fuel' (span_until NL s1).2
          else if (ch ==b "<"%char) && head_is "<"%char s1 then
            if head_is "<"%char (drop 1 s1) then heredoc_loop fuel' (drop 2 s1)
            else Some true
          else heredoc_loop fuel' s1
      end
  end.

Definition DetectHeredoc (command : bytes) : bool :=
  if negb (Contains command (lit "<<")) then false
  else default false (heredoc_loop (S (length command)) command).

(** ** Output redirections *)

(** The bytes that end an unquoted target. *)
Definition target_end (c : ascii) : bool :=
  bool_decide (c ∈ [SP; TAB; NL; ";"%char; "&"%char; "|"%char; "<"%char; ">"%char;
                    "("%char; ")"%char]).

Fixpoint unquoted_target (s : bytes) : bytes :=
  match s with
  | [] => []
  | ch :: s1 =>
      if target_end ch then []
      else
        match s1 with
        | d :: s2 => if ch ==b BSLASH then d :: unquoted_target s2 else ch :: unquoted_target s1
        | [] => [ch]
        end
  end.

(** The text up to [q] with its backslash escapes taken off. *)
Fixpoint unescape_until (q : ascii) (s : bytes) : bytes :=
  match s with
  | [] => []
  | c :: s1 =>
      if c ==b q then []
      else
        match s1 with
        | d :: s2 =>
            if c ==b BSLASH then d :: unescape_until q s2 else c :: unescape_until q s1
        | [] => [c]
        end
  end.

(** [extractRedirectTarget(command, pos)], on the rest at [pos]. *)
Definition extractRedirectTarget (s : bytes) : bytes :=
  match s with
  | [] => []
  | c :: s1 =>
      if c ==b SQUOTE then (span_until SQUOTE s1).1
      else if c ==b DQUOTE then unescape_until DQUOTE s1
      else unquoted_target s
  end.

(** [for j < n && (command[j] == ' ' || command[j] == '\t') { j++ }]. *)
Fixpoint skip_blanks (s : bytes) : bytes :=
  match s with
  | c :: s1 => if (c ==b SP) || (c ==b TAB) then skip_blanks s1 else s
  | [] => []
  end.

(** The rest after [>] or [>>] and blanks. *)
Definition after_redirect (s1 : bytes) : bytes :=
  skip_blanks (if head_is ">"%char s1 then drop 1 s1 else s1).

(** [command[i-1]] once [consumed] has been passed over. *)
Definition last_or (prev : option ascii) (consumed : bytes) : option ascii :=
  match last consumed with Some c => Some c | None => prev end.

(** [prev] is [command[i-1]]; the result is the first target, if any. *)
Fixpoint redirection_loop (fuel : nat) (prev : option ascii) (s : bytes) : option (option bytes) :=
  match fuel with
  | O => None
  | S fuel' =>
      match s with
      | [] => Some None
      | ch :: s1 =>
          if ch ==b SQUOTE then
            redirection_loop fuel' (Some SQUOTE) (close_quote (span_until SQUOTE s1)).2
          else if ch ==b DQUOTE then
            redirection_loop fuel' (Some DQUOTE) (close_quote (span_escaped DQUOTE s1)).2
          else
            match ch ==b BSLASH, s1 with
            | true, next :: s2 => redirection_loop fuel' (Some next) s2
            | _, _ =>
            if ch ==b "#"%char then
              let '(w, r) := span_until NL s1 in redirection_loop fuel' (last_or (Some ch) w) r
            else if ch ==b ">"%char then
              if prev ==b Some "<"%char then redirection_loop fuel' (Some ch) s1
              else
                let rest := after_redirect s1 in
                let target := extractRedirectTarget rest in
                if target <>b [] then Some (Some target)
                else redirection_loop fuel'
                       (last_or (Some ch) (take (length s1 - length rest) s1)) rest
            else redirection_loop fuel' (Some ch) s1
            end
      end
  end.

(** [DetectOutputRedirection]; [(false, "")] is [None]. *)
Definition DetectOutputRedirection (command : bytes) : option bytes :=
  default None (redirection_loop (S (length command)) None command).

(** [collectAllRedirectTargets]: after a target the index moves by the length
    of its text, or by one when it is empty. *)
Fixpoint redirect_targets_loop (fuel : nat) (prev : option ascii) (s : bytes)
    : option (list bytes) :=
  match fuel with
  | O => None
  | S fuel' =>
      match s with
      | [] => Some []
      | ch :: s1 =>
          if ch ==b SQUOTE then
            redirect_targets_loop fuel' (Some SQUOTE) (close_quote (span_until SQUOTE s1)).2
          else if ch ==b DQUOTE then
            redirect_targets_loop fuel' (Some DQUOTE) (close_quote (span_escaped DQUOTE s1)).2
          else
            match ch ==b BSLASH, s1 with
            | true, next :: s2 => redirect_targets_loop fuel' (Some next) s2
            | _, _ =>
            if ch ==b "#"%char then
              let '(w, r) := span_until NL s1 in
              redirect_targets_loop fuel' (last_or (Some ch) w) r
            else if ch ==b ">"%char then
              if prev ==b Some "<"%char then redirect_targets_loop fuel' (Some ch) s1
              else
                let rest := after_redirect s1 in
                let target := extractRedirectTarget rest in
                let k := if length target =? 0 then 1 else length target in
                let before := last_or (Some ch) (take (length s1 - length rest) s1) in
                app (if target <>b [] then [target] else []) <$>
                  redirect_targets_loop fuel' (last_or before (take k rest)) (drop k rest)
            else redirect_targets_loop fuel' (Some ch) s1
            end
      end
  end.

Definition collectAllRedirectTargets (command : bytes) : list bytes :=
  default [] (redirect_targets_loop (S (length command)) None command).

(** ** Pipes and background operators *)

Fixpoint pipes_loop (fuel : nat) (s : bytes) : option bool :=
  match fuel with
  | O => None
  | S fuel' =>
      match s with
      | [] => Some false
      | ch :: s1 =>
          if ch ==b SQUOTE then pipes_loop fuel' (close_quote (span_until SQUOTE s1)).2
          else if ch ==b DQUOTE then pipes_loop fuel' (close_quote (span_escaped DQUOTE s1)).2
          else
            match ch ==b BSLASH, s1 with
            | true, _ :: s2 => pipes_loop fuel' s2
            | _, _ =>
            if ch ==b "|"%char then
              if head_is "|"%char s1 then pipes_loop fuel' (drop 1 s1) else Some true
            else pipes_loop fuel' s1
            end
      end
  end.

Definition detectPipesQuoteAware (command : bytes) : bool :=
  default false (pipes_loop (S (length command)) command).

Fixpoint background_loop (fuel : nat) (s : bytes) : option bool :=
  match fuel with
  | O => None
  | S fuel' =>
      match s with
      | [] => Some false
      | ch :: s1 =>
          if ch ==b SQUOTE then background_loop fuel' (close_quote (span_until SQUOTE s1)).2
          else if ch ==b DQUOTE then background_loop fuel' (close_quote (span_escaped DQUOTE s1)).2
          else
            match ch ==b BSLASH, s1 with
            | true, _ :: s2 => background_loop fuel' s2
            | _, _ =>
            if ch ==b "&"%char then
              if head_is "&"%char s1 then background_loop fuel' (drop 1 s1)
              else if head_is ">"%char s1 then background_loop fuel' (drop 1 s1)
              else Some true
            else background_loop fuel' s1
            end
      end
  end.

Definition detectBackgroundOpsQuoteAware (command : bytes) : bool :=
  default false (background_loop (S (length command)) command).

(** * Facts about the command scanners

    The scanners consume their input without losing a byte, never run out of
    fuel, and [SplitCommands] cuts exactly at the operators it reads. *)

(** ** The inner loops return a cut of their argument *)

Lemma span_until_app q s w r : span_until q s = (w, r) -> s = w ++ r.
Proof.
  revert w r. induction s as [|c s IH]; intros w r; simpl; [by intros [= <- <-]|].
  case_bool_decide; [by intros [= <- <-]|].
  destruct (span_until q s) as [w' r']. intros [= <- <-]. simpl. f_equal. by apply IH.
Qed.

Lemma span_escaped_app q s w r : span_escaped q s = (w, r) -> s = w ++ r.
Proof.
  revert w r. induction s as [s IH] using (induction_ltof1 _ length); unfold ltof in IH.
  intros w r. destruct s as [|c [|d s]]; simpl.
  - by intros [= <- <-].
  - case_bool_decide; by intros [= <- <-].
  - case_bool_decide; [by intros [= <- <-]|]. case_bool_decide.
    + destruct (span_escaped q s) as [w' r'] eqn:E. intros [= <- <-]. simpl. do 2 f_equal.
      apply IH; [simpl; lia|done].
    + change (if d ==b q then _ else _) with (span_escaped q (d :: s)).
      destruct (span_escaped q (d :: s)) as [w' r'] eqn:E. intros [= <- <-]. simpl. f_equal.
      apply IH; [simpl; lia|done].
Qed.

Lemma close_quote_app w r w' r' : close_quote (w, r) = (w', r') -> w ++ r = w' ++ r'.
Proof. destruct r as [|q r]; simpl; intros [= <- <-]; [done|]. by rewrite <- app_assoc. Qed.

Lemma close_until_app q s w r : close_quote (span_until q s) = (w, r) -> s = w ++ r.
Proof.
  destruct (span_until q s) as [w' r'] eqn:E. intros H. apply span_until_app in E as ->.
  by apply close_quote_app.
Qed.

Lemma close_escaped_app q s w r : close_quote (span_escaped q s) = (w, r) -> s = w ++ r.
Proof.
  destruct (span_escaped q s) as [w' r'] eqn:E. intros H. apply span_escaped_app in E as ->.
  by apply close_quote_app.
Qed.

Lemma span_paren_app fuel d s w r : span_paren fuel d s = (w, r) -> s = w ++ r.
Proof.
  revert d s w r. induction fuel as [|fuel IH]; intros d s w r; [by intros [= <- <-]|].
  destruct d as [|d]; [by intros [= <- <-]|]. destruct s as [|c s]; [by intros [= <- <-]|].
  assert (Hcont : forall d' w0 r0 w r,
    (let '(w', r') := span_paren fuel d' r0 in (w0 ++ w', r')) = (w, r) -> w0 ++ r0 = w ++ r).
  { intros d' w0 r0 w1 r1. destruct (span_paren fuel d' r0) as [w' r'] eqn:E.
    apply IH in E as ->. intros [= <- <-]. by rewrite app_assoc. }
  simpl. repeat case_bool_decide; intros Hw; try (by apply (Hcont _ [c]) in Hw).
  - destruct (close_quote (span_until SQUOTE s)) as [w0 r0] eqn:E.
    apply close_until_app in E as ->. by apply (Hcont _ (c :: w0)) in Hw.
  - destruct (close_quote (span_escaped DQUOTE s)) as [w0 r0] eqn:E.
    apply close_escaped_app in E as ->. by apply (Hcont _ (c :: w0)) in Hw.
Qed.

(** What is left after a scan is no longer than what it was given. *)
Lemma app_length_le {A} (s w r : list A) : s = w ++ r -> length r <= length s.
Proof. intros ->. rewrite length_app. lia. Qed.

Lemma close_until_le q s : length (close_quote (span_until q s)).2 <= length s.
Proof. destruct (close_quote _) as [w r] eqn:E. by eapply app_length_le, close_until_app. Qed.

Lemma close_escaped_le q s : length (close_quote (span_escaped q s)).2 <= length s.
Proof. destruct (close_quote _) as [w r] eqn:E. by eapply app_length_le, close_escaped_app. Qed.

Lemma span_until_le q s : length (span_until q s).2 <= length s.
Proof. destruct (span_until q s) as [w r] eqn:E. by eapply app_length_le, span_until_app. Qed.

Lemma span_paren_le fuel d s : length (span_paren fuel d s).2 <= length s.
Proof. destruct (span_paren fuel d s) as [w r] eqn:E. by eapply app_length_le, span_paren_app. Qed.

Lemma skip_blanks_le s : length (skip_blanks s) <= length s.
Proof. induction s as [|c s IH]; simpl; [lia|]. destruct (_ || _); simpl; lia. Qed.

Lemma after_redirect_le s : length (after_redirect s) <= length s.
Proof.
  unfold after_redirect. etransitivity; [apply skip_blanks_le|].
  destruct (head_is _ s); [|lia]. rewrite length_drop. lia.
Qed.

#[export] Hint Resolve close_until_le close_escaped_le span_until_le span_paren_le
  after_redirect_le : yhc.

(** ** Tokens *)

Definition operators : list bytes := map lit ["&&"; "||"; "|"; ";"; "&"].

Lemma head_is_cons c s : head_is c s = true -> s = c :: drop 1 s.
Proof. destruct s as [|d s]; simpl; [done|]. intros H. by apply bool_decide_eq_true in H as ->. Qed.

Lemma text_from_app s w wr t r :
  s = w ++ wr.1 ++ wr.2 -> text_from w wr = (t, r) -> s = token_text t ++ r.
Proof. destruct wr as [w' r']. simpl. intros -> [= <- <-]. simpl. by rewrite <- app_assoc. Qed.

Lemma unquoted_token_app ch s1 t r :
  unquoted_token ch s1 = (t, r) -> ch :: s1 = token_text t ++ r.
Proof.
  unfold unquoted_token.
  destruct ((ch ==b "$"%char) && head_is "("%char s1) eqn:E1.
  { breflect. destruct (span_paren _ _ _) as [w' r'] eqn:E. apply span_paren_app in E.
    apply text_from_app. simpl. rewrite (head_is_cons "("%char s1) by done. by rewrite E. }
  destruct (ch ==b BTICK) eqn:E2.
  { destruct (close_quote (span_escaped BTICK s1)) as [w' r'] eqn:E.
    apply close_escaped_app in E as ->. by apply text_from_app. }
  destruct (ch ==b "("%char) eqn:E3.
  { destruct (span_paren (length s1) 1 s1) as [w' r'] eqn:E.
    apply span_paren_app in E. apply text_from_app. simpl. by rewrite E at 1. }
  destruct ((ch ==b "&"%char) && head_is "&"%char s1) eqn:E4.
  { breflect. subst ch. intros [= <- <-]. simpl. by rewrite (head_is_cons "&"%char s1) at 1. }
  destruct ((ch ==b "|"%char) && head_is "|"%char s1) eqn:E5.
  { breflect. subst ch. intros [= <- <-]. simpl. by rewrite (head_is_cons "|"%char s1) at 1. }
  destruct (ch ==b "|"%char) eqn:E6; [breflect; subst; by intros [= <- <-]|].
  destruct (ch ==b ";"%char) eqn:E7; [breflect; subst; by intros [= <- <-]|].
  destruct (ch ==b "&"%char) eqn:E8; [breflect; subst; by intros [= <- <-]|].
  by intros [= <- <-].
Qed.

Lemma next_token_app ch s1 t r : next_token ch s1 = (t, r) -> ch :: s1 = token_text t ++ r.
Proof.
  unfold next_token.
  destruct (ch ==b SQUOTE) eqn:E1.
  { destruct (close_quote (span_until SQUOTE s1)) as [w' r'] eqn:E.
    apply close_until_app in E as ->. by apply text_from_app. }
  destruct (ch ==b DQUOTE) eqn:E2.
  { destruct (close_quote (span_escaped DQUOTE s1)) as [w' r'] eqn:E.
    apply close_escaped_app in E as ->. by apply text_from_app. }
  destruct (ch ==b BSLASH); [|apply unquoted_token_app].
  destruct s1 as [|next s2]; [apply unquoted_token_app|]. by intros [= <- <-].
Qed.

Lemma next_token_op ch s1 w r : next_token ch s1 = (Op w, r) -> w ∈ operators.
Proof.
  unfold next_token, unquoted_token, text_from. intros H.
  assert (Hops : forallb (fun o => bool_decide (o ∈ operators))
    [lit "&&"; lit "||"; lit "|"; lit ";"; lit "&"] = true) by (vm_compute; done).
  rewrite forallb_elem_of in Hops.
  repeat case_match; simplify_eq; apply (bool_decide_unpack _); apply Is_true_true;
    apply Hops; set_solver.
Qed.

Lemma next_token_le ch s1 t r : next_token ch s1 = (t, r) -> length r <= length s1.
Proof.
  intros H. assert (Ht : token_text t <> []).
  { unfold next_token, unquoted_token, text_from in H. repeat case_match; simplify_eq; done. }
  apply next_token_app in H. apply (f_equal length) in H.
  rewrite length_app in H. simpl in H. destruct (token_text t); [done|]. simpl in H. lia.
Qed.

(** ** [SplitCommands] *)

(** Fuel: one unit per byte left and one more. *)
Lemma split_loop_total fuel s cur : length s < fuel -> is_Some (split_loop fuel s cur).
Proof.
  revert s cur. induction fuel as [|fuel IH]; intros s cur Hf; [lia|].
  destruct s as [|ch s1]; simpl; [eauto|]. simpl in Hf.
  destruct (next_token ch s1) as [[w|w] r] eqn:E; apply next_token_le in E.
  - apply IH. lia.
  - destruct (IH r [] ltac:(lia)) as [out ->]. eauto.
Qed.

(** A command is its raw pieces with operators between them. *)
Inductive woven : bytes -> list bytes -> Prop :=
| woven_one r : woven r [r]
| woven_op r op s rs : op ∈ operators -> woven s rs -> woven (r ++ op ++ s) (r :: rs).

Lemma split_loop_woven fuel s cur out :
  split_loop fuel s cur = Some out ->
  exists raws, woven (cur ++ s) raws /\ out = flat_map flush_command raws.
Proof.
  revert s cur out. induction fuel as [|fuel IH]; intros s cur out; simpl; [done|].
  destruct s as [|ch s1].
  - intros [= <-]. exists [cur]. rewrite app_nil_r. split; [constructor|]. simpl.
    by rewrite app_nil_r.
  - destruct (next_token ch s1) as [[w|w] r] eqn:E.
    + pose proof (next_token_app _ _ _ _ E) as Happ. simpl in Happ. intros H.
      apply IH in H as (raws & Hw & ->). exists raws. split; [|done].
      rewrite Happ. by rewrite app_assoc.
    + pose proof (next_token_app _ _ _ _ E) as Happ. simpl in Happ.
      intros (out' & H & ->)%fmap_Some. apply IH in H as (raws & Hw & ->).
      exists (cur :: raws). split; [|done]. rewrite Happ. constructor; [|done].
      by eapply next_token_op.
Qed.

Lemma flush_command_trimmed r x : x ∈ flush_command r -> x <> [] /\ TrimSpace x = x.
Proof.
  unfold flush_command. case_bool_decide; simpl; [set_solver|].
  intros ->%list_elem_of_singleton. split; [done|]. apply TrimSpace_idemp.
Qed.

Lemma SplitCommands_woven c :
  exists raws, woven (TrimSpace c) raws /\ SplitCommands c = flat_map flush_command raws.
Proof.
  unfold SplitCommands. case_bool_decide as E.
  - rewrite E. exists [[]]. split; [constructor|done].
  - destruct (split_loop_total (S (length (TrimSpace c))) (TrimSpace c) [] ltac:(lia)) as [out Ho].
    rewrite Ho. simpl. by apply split_loop_woven in Ho.
Qed.

Lemma SplitCommands_trimmed c x : x ∈ SplitCommands c -> x <> [] /\ TrimSpace x = x.
Proof.
  destruct (SplitCommands_woven c) as (raws & _ & ->).
  rewrite list_elem_of_In, in_flat_map. intros (r & _ & Hx).
  apply (flush_command_trimmed r). by apply list_elem_of_In.
Qed.

(** *** Plain text and separators *)

(** Bytes that start no quoting, substitution or operator. *)
Definition plain_byte (c : ascii) : bool :=
  negb (bool_decide (c ∈ [SQUOTE; DQUOTE; BSLASH; "$"%char; BTICK; "("%char; "&"%char; "|"%char; ";"%char])).

Lemma next_token_plain c s : plain_byte c = true -> next_token c s = (Text [c], s).
Proof.
  unfold plain_byte. intros H; breflect.
  repeat match goal with Hn : _ ∉ _ :: _ |- _ => apply not_elem_of_cons in Hn as [? ?] end.
  unfold next_token, unquoted_token. rewrite !bool_decide_eq_false_2 by done. done.
Qed.

Lemma split_loop_plain fuel a s cur :
  forallb plain_byte a = true ->
  split_loop (length a + fuel) (a ++ s) cur = split_loop fuel s (cur ++ a).
Proof.
  revert cur. induction a as [|c a IH]; intros cur H; simpl; [by rewrite app_nil_r|].
  simpl in H; breflect. rewrite next_token_plain by done.
  rewrite IH by done. by rewrite <- app_assoc.
Qed.

(** More fuel does not change the result. *)
Lemma split_loop_mono fuel fuel' s cur out :
  split_loop fuel s cur = Some out -> fuel <= fuel' -> split_loop fuel' s cur = Some out.
Proof.
  revert fuel' s cur out. induction fuel as [|fuel IH]; intros fuel' s cur out; [done|].
  destruct fuel' as [|fuel']; [lia|]. intros H Hle. simpl in *.
  destruct s as [|ch s1]; [done|]. destruct (next_token ch s1) as [[w|w] r].
  - apply IH; [done|lia].
  - apply fmap_Some in H as (o & H & ->). rewrite (IH fuel' _ _ o) by (done || lia). done.
Qed.

(** The sub-commands of a text that is not trimmed first. *)
Definition split_text (s : bytes) : list bytes :=
  default [] (split_loop (S (length s)) s []).

Lemma SplitCommands_text c : TrimSpace c = c -> c <> [] -> SplitCommands c = split_text c.
Proof.
  intros Ht Hne. unfold SplitCommands, split_text. rewrite Ht.
  by rewrite bool_decide_eq_false_2.
Qed.

Lemma split_text_separator a op b :
  forallb plain_byte a = true -> op ∈ [lit ";"; lit "&&"; lit "||"] ->
  split_text (a ++ op ++ b) = flush_command a ++ split_text b.
Proof.
  intros Ha Hop. unfold split_text.
  destruct (split_loop_total (S (length b)) b [] ltac:(lia)) as [out Hb]. rewrite Hb.
  assert (Hstep : forall fuel, S (length b) <= fuel ->
    split_loop (length a + S fuel) (a ++ op ++ b) [] = Some (flush_command a ++ out)).
  { intros fuel Hf. rewrite split_loop_plain by done. simpl.
    assert (Hop' : exists ch w, op = ch :: w /\ next_token ch (w ++ b) = (Op op, b)).
    { rewrite !elem_of_cons in Hop. destruct Hop as [->|[->|[->|H]]]; [..|by apply not_elem_of_nil in H].
      - by exists ";"%char, [].
      - by exists "&"%char, ["&"%char].
      - by exists "|"%char, ["|"%char]. }
    destruct Hop' as (ch & w & Eop & Ht). rewrite Eop at 1. simpl. rewrite Ht.
    rewrite (split_loop_mono _ _ _ _ _ Hb Hf). done. }
  assert (Hlen : 1 <= length op).
  { rewrite !elem_of_cons in Hop. destruct Hop as [->|[->|[->|H]]]; [..|by apply not_elem_of_nil in H];
      simpl; lia. }
  pose proof (Hstep (length b + length op) ltac:(lia)) as H.
  replace (S (length (a ++ op ++ b))) with (length a + S (length b + length op))
    by (rewrite !length_app; lia).
  by rewrite H.
Qed.

(** ** The other scanners terminate with a result *)

(** Splits the branches of one iteration of a scanner on [ch :: s1] and closes
    each with the induction hypothesis on the fuel. *)
Ltac scanner_step IH s1 :=
  pose proof (close_until_le SQUOTE s1); pose proof (close_escaped_le DQUOTE s1);
  pose proof (span_until_le NL s1); pose proof (after_redirect_le s1);
  destruct (span_until NL s1) as [? ?]; simpl in *;
  repeat match goal with |- context [if ?b then _ else _] => destruct b end;
  try match goal with |- context [match s1 with _ => _ end] => destruct s1; simpl in * end;
  rewrite ?fmap_is_Some;
  first [ by eauto | apply IH; rewrite ?length_drop; simpl in *; lia ].

Lemma heredoc_loop_total fuel s : length s < fuel -> is_Some (heredoc_loop fuel s).
Proof.
  revert s. induction fuel as [|fuel IH]; intros s Hf; [lia|].
  destruct s as [|ch s1]; simpl in *; [eauto|]. scanner_step IH s1.
Qed.

Lemma pipes_loop_total fuel s : length s < fuel -> is_Some (pipes_loop fuel s).
Proof.
  revert s. induction fuel as [|fuel IH]; intros s Hf; [lia|].
  destruct s as [|ch s1]; simpl in *; [eauto|]. scanner_step IH s1.
Qed.

Lemma background_loop_total fuel s : length s < fuel -> is_Some (background_loop fuel s).
Proof.
  revert s. induction fuel as [|fuel IH]; intros s Hf; [lia|].
  destruct s as [|ch s1]; simpl in *; [eauto|]. scanner_step IH s1.
Qed.

Lemma redirection_loop_total fuel prev s :
  length s < fuel -> is_Some (redirection_loop fuel prev s).
Proof.
  revert prev s. induction fuel as [|fuel IH]; intros prev s Hf; [lia|].
  destruct s as [|ch s1]; simpl in *; [eauto|]. scanner_step IH s1.
Qed.

Lemma redirect_targets_loop_total fuel prev s :
  length s < fuel -> is_Some (redirect_targets_loop fuel prev s).
Proof.
  revert prev s. induction fuel as [|fuel IH]; intros prev s Hf; [lia|].
  destruct s as [|ch s1]; simpl in *; [eauto|]. scanner_step IH s1.
Qed.

(** ** Properties *)

(** Splitting loses no text: the trimmed command is the raw pieces joined by
    shell operators, and the sub-commands are the pieces, trimmed, that are not
    blank. *)
Theorem split_reconstructs c :
  exists raws, woven (TrimSpace c) raws /\
    SplitCommands c = flat_map flush_command raws /\
    forall x, x ∈ SplitCommands c -> x <> [] /\ TrimSpace x = x.
Proof.
  destruct (SplitCommands_woven c) as (raws & H1 & H2). exists raws.
  split_and!; [done|done|]. intros x. apply SplitCommands_trimmed.
Qed.

(** A separator after plain text splits there, whatever follows it. *)
Theorem split_at_separator a op b :
  forallb plain_byte a = true -> op ∈ [lit ";"; lit "&&"; lit "||"] ->
  TrimSpace (a ++ op ++ b) = a ++ op ++ b -> TrimSpace b = b -> b <> [] ->
  SplitCommands (a ++ op ++ b) = flush_command a ++ SplitCommands b.
Proof.
  intros Ha Hop Ht Hb Hne. rewrite (SplitCommands_text (a ++ op ++ b)) by (done || by destruct a, op).
  rewrite (SplitCommands_text b) by done. by apply split_text_separator.
Qed.

Lemma split_at_separator_witness :
  SplitCommands (lit "ls -l&&rm -rf 'a;b'") = [lit "ls -l"; lit "rm -rf 'a;b'"].
Proof.
  change (lit "ls -l&&rm -rf 'a;b'") with (lit "ls -l" ++ lit "&&" ++ lit "rm -rf 'a;b'").
  rewrite (split_at_separator (lit "ls -l") (lit "&&") (lit "rm -rf 'a;b'"));
    [by vm_compute | by vm_compute | set_solver | by vm_compute | by vm_compute | done].
Defined.

(** Every scanning loop ends within the fuel its caller gives it, one unit per
    byte and one more, for every command. *)
Theorem scanners_terminate s :
  is_Some (split_loop (S (length s)) s []) /\ is_Some (heredoc_loop (S (length s)) s) /\
  is_Some (pipes_loop (S (length s)) s) /\ is_Some (background_loop (S (length s)) s) /\
  (forall prev, is_Some (redirection_loop (S (length s)) prev s)) /\
  (forall prev, is_Some (redirect_targets_loop (S (length s)) prev s)).
Proof.
  split_and!; [apply split_loop_total; lia|apply heredoc_loop_total; lia|apply pipes_loop_total; lia
    |apply background_loop_total; lia| |].
  - intros prev. apply redirection_loop_total. lia.
  - intros prev. apply redirect_targets_loop_total. lia.
Qed.

(** The scanner of redirection targets advances by the length of the unquoted
    target, so that it takes up again inside a quoted one: the second target of
    this command is missed. *)
Theorem quoted_target_hides_next :
  collectAllRedirectTargets (lit "echo a > 'x y' > /etc/passwd") = [lit "x y"].
Proof. by vm_compute. Qed.
