(* ===== verification/BashSecurity.v ===== *)
(** * Security analysis of shell commands ([engine/permission/bash_security.go])

    Command substitutions, dangerous patterns, [sed] writes, sensitive paths
    and the overall analysis. *)

From S2P Require Import Prelude GoStrings Regex BashLex.

(** ** Command substitution *)

Inductive subst_kind : Type := DollarParen | Backtick | ProcessSubIn | ProcessSubOut.

#[export] Instance subst_kind_eq_dec : EqDecision subst_kind.
Proof. solve_decision. Defined.

Record CommandSubstitutionResult := {
  HasDollarParen : bool;
  HasBacktick : bool;
  HasProcessSubIn : bool;
  HasProcessSubOut : bool;
  Substitutions : list bytes;
}.

(** The text after an opening parenthesis up to the one that closes [depth] of
    them, or all of it. *)
Fixpoint balanced_content (depth : nat) (s : bytes) : bytes :=
  match s with
  | [] => []
  | c :: s1 =>
      if c ==b "("%char then c :: balanced_content (S depth) s1
      else if c ==b ")"%char then
        if depth =? 1 then [] else c :: balanced_content (depth - 1) s1
      else c :: balanced_content depth s1
  end.

(** [extractBalancedParen] at a position that holds an opening parenthesis. *)
Definition extractBalancedParen (s : bytes) : bytes :=
  match s with
  | c :: s1 => if c ==b "("%char then balanced_content 1 s1 else []
  | [] => []
  end.

Definition extractBacktickContent (s : bytes) : bytes :=
  match s with
  | c :: s1 => if c ==b BTICK then unescape_until BTICK s1 else []
  | [] => []
  end.

(** The loop of the process substitutions: parentheses are counted, quotes are
    not looked at. *)
Fixpoint skip_parens (depth : nat) (s : bytes) : bytes :=
  match depth, s with
  | S depth', c :: s1 =>
      if c ==b "("%char then skip_parens (S depth) s1
      else if c ==b ")"%char then skip_parens depth' s1
      else skip_parens depth s1
  | _, _ => s
  end.

(** Inside double quotes: the substitutions found, and the rest at the closing
    quote.  A [$(] is recorded but not skipped. *)
Fixpoint subst_dquote_loop (fuel : nat) (s : bytes)
    : option (list (subst_kind * bytes) * bytes) :=
  match fuel with
  | O => None
  | S fuel' =>
      match s with
      | [] => Some ([], [])
      | c :: s1 =>
          if c ==b DQUOTE then Some ([], s)
          else
            match c ==b BSLASH, s1 with
            | true, _ :: s2 => subst_dquote_loop fuel' s2
            | _, _ =>
                if c ==b BTICK then
                  '(ev, r) ← subst_dquote_loop fuel' (close_quote (span_escaped BTICK s1)).2;
                  Some ((Backtick, extractBacktickContent s) :: ev, r)
                else if (c ==b "$"%char) && head_is "("%char s1 then
                  '(ev, r) ← subst_dquote_loop fuel' s1;
                  Some ((DollarParen, extractBalancedParen s1) :: ev, r)
                else subst_dquote_loop fuel' s1
            end
      end
  end.

Fixpoint subst_loop (fuel : nat) (s : bytes) : option (list (subst_kind * bytes)) :=
  match fuel with
  | O => None
  | S fuel' =>
      match s with
      | [] => Some []
      | ch :: s1 =>
          if ch ==b SQUOTE then subst_loop fuel' (close_quote (span_until SQUOTE s1)).2
          else
            match ch ==b BSLASH, s1 with
            | true, _ :: s2 => subst_loop fuel' s2
            | _, _ =>
                if ch ==b DQUOTE then
                  '(ev, r) ← subst_dquote_loop fuel' s1;
                  ev' ← subst_loop fuel' (drop 1 r);
                  Some (ev ++ ev')
                else if (ch ==b "$"%char) && head_is "("%char s1 then
                  cons (DollarParen, extractBalancedParen s1) <$>
                    subst_loop fuel' (span_paren (length s1) 1 (drop 1 s1)).2
                else if ch ==b BTICK then
                  cons (Backtick, extractBacktickContent s) <$>
                    subst_loop fuel' (close_quote (span_escaped BTICK s1)).2
                else if (ch ==b "<"%char) && head_is "("%char s1 then
                  cons (ProcessSubIn, extractBalancedParen s1) <$>
                    subst_loop fuel' (skip_parens 1 (drop 1 s1))
                else if (ch ==b ">"%char) && head_is "("%char s1 then
                  cons (ProcessSubOut, extractBalancedParen s1) <$>
                    subst_loop fuel' (skip_parens 1 (drop 1 s1))
                else subst_loop fuel' s1
            end
      end
  end.

Definition has_kind (k : subst_kind) (ev : list (subst_kind * bytes)) : bool :=
  existsb (fun e => e.1 ==b k) ev.

Definition DetectCommandSubstitution (command : bytes) : CommandSubstitutionResult :=
  let ev := default [] (subst_loop (S (length command)) command) in
  {| HasDollarParen := has_kind DollarParen ev;
     HasBacktick := has_kind Backtick ev;
     HasProcessSubIn := has_kind ProcessSubIn ev;
     HasProcessSubOut := has_kind ProcessSubOut ev;
     Substitutions := filter (fun sub => sub <> []) (map snd ev) |}.

Definition HasAnySubstitution (r : CommandSubstitutionResult) : bool :=
  HasDollarParen r || HasBacktick r || HasProcessSubIn r || HasProcessSubOut r.

(** ** Dangerous patterns *)

Record DangerousPatternResult := {
  HasEval : bool; HasSource : bool; HasExec : bool; HasPipeToShell : bool;
  HasCurlPipe : bool; HasChmod : bool; HasSudo : bool; HasDDWrite : bool;
  Reasons : list bytes;
}.

Definition evalPattern : re := MustCompile (lit "\beval\s+").
Definition sourcePattern : re := MustCompile (lit "\b(?:source|\.)\s+").
Definition execPattern : re := MustCompile (lit "\bexec\s+").
Definition pipeToShellPattern : re :=
  MustCompile (lit "\|\s*(?:sh|bash|zsh|ksh|dash|fish|csh|tcsh|python[23]?|perl|ruby|node|php)\b").
Definition curlPipePattern : re :=
  MustCompile (lit "\b(?:curl|wget)\b[^|;]*\|\s*(?:sh|bash|zsh|sudo\s+(?:sh|bash)|python[23]?|perl|ruby|node)").
Definition chmodDangerousPattern : re :=
  MustCompile (lit "\bchmod\s+(?:\+[xXsS]|[0-7]*[7][0-7]*|a\+)").
Definition sudoPattern : re := MustCompile (lit "\bsudo\s+").
Definition ddWritePattern : re := MustCompile (lit "\bdd\b[^;|&]*\bof=").

(** The checks on one sub-command, each with its reason, in order. *)
Definition sub_command_checks : list (re * bytes) :=
  [(evalPattern, lit "uses 'eval' which executes dynamically constructed commands");
   (sourcePattern, lit "uses 'source' or '.' which executes a file in the current shell context");
   (execPattern, lit "uses 'exec' which replaces the current process");
   (chmodDangerousPattern, lit "changes file permissions to executable or overly permissive");
   (sudoPattern, lit "uses 'sudo' for elevated privileges");
   (ddWritePattern, lit "uses 'dd' with output file which can overwrite devices/files")].

Definition any_sub_matches (r : re) (subCmds : list bytes) : bool :=
  existsb (fun sub => MatchString r (TrimSpace sub)) subCmds.

Definition DetectDangerousPatterns (command : bytes) : DangerousPatternResult :=
  let subCmds := SplitCommands command in
  let hasPipeToShell := MatchString pipeToShellPattern command in
  let hasCurlPipe := MatchString curlPipePattern command in
  {| HasEval := any_sub_matches evalPattern subCmds;
     HasSource := any_sub_matches sourcePattern subCmds;
     HasExec := any_sub_matches execPattern subCmds;
     HasPipeToShell := hasPipeToShell;
     HasCurlPipe := hasCurlPipe;
     HasChmod := any_sub_matches chmodDangerousPattern subCmds;
     HasSudo := any_sub_matches sudoPattern subCmds;
     HasDDWrite := any_sub_matches ddWritePattern subCmds;
     Reasons :=
       flat_map (fun sub =>
         map snd (filter (fun c => MatchString c.1 (TrimSpace sub) = true) sub_command_checks))
         subCmds
       ++ (if hasPipeToShell then [lit "pipes output to a shell interpreter"] else [])
       ++ (if hasCurlPipe
           then [lit "downloads and executes remote code (curl/wget piped to shell)"] else []) |}.

Definition HasAnyDanger (r : DangerousPatternResult) : bool :=
  HasEval r || HasSource r || HasExec r || HasPipeToShell r
  || HasCurlPipe r || HasChmod r || HasSudo r || HasDDWrite r.

(** ** [sed] writes *)

Record SedWriteResult := {
  HasInPlace : bool; HasWriteCmd : bool; TargetFile : bytes; Hint : bytes }.

Definition sedInPlacePattern : re := MustCompile (lit "\bsed\b[^;|&]*\s(?:-i|--in-place)").
Definition sedWriteCmdPattern : re :=
  MustCompile (lit "\bsed\b[^;|&]*['" ++ [DQUOTE] ++ lit "]?[^'" ++ [DQUOTE] ++ lit "]*\bw\s+\S+").

Definition sedInPlaceHint : bytes :=
  lit "sed -i modifies files in-place; consider using the Edit tool for tracked, reversible file modifications".
Definition sedWriteHint : bytes :=
  lit "sed 'w' command writes to a file; consider using the Write tool instead".

Definition extractSedTarget (cmd : bytes) : bytes :=
  let parts := Fields cmd in
  if length parts <? 3 then []
  else
    let lastArg := default [] (last parts) in
    if HasPrefix lastArg (lit "'") || HasPrefix lastArg [DQUOTE]
       || HasPrefix lastArg (lit "s/") || HasPrefix lastArg (lit "/")
    then [] else lastArg.

Definition sed_step (result : SedWriteResult) (sub : bytes) : SedWriteResult :=
  let trimmed := TrimSpace sub in
  if negb (Contains trimmed (lit "sed")) then result
  else
    let result :=
      if MatchString sedInPlacePattern trimmed then
        {| HasInPlace := true; HasWriteCmd := HasWriteCmd result;
           TargetFile := extractSedTarget trimmed; Hint := sedInPlaceHint |}
      else result in
    if MatchString sedWriteCmdPattern trimmed then
      {| HasInPlace := HasInPlace result; HasWriteCmd := true;
         TargetFile := TargetFile result;
         Hint := if Hint result ==b [] then sedWriteHint else Hint result |}
    else result.

Definition DetectSedWrite (command : bytes) : SedWriteResult :=
  let result := {| HasInPlace := false; HasWriteCmd := false; TargetFile := []; Hint := [] |} in
  if negb (Contains command (lit "sed")) then result
  else fold_left sed_step (SplitCommands command) result.

Definition HasSedWrite (r : SedWriteResult) : bool := HasInPlace r || HasWriteCmd r.

(** ** Sensitive paths *)

Definition sensitivePaths : list bytes :=
  map lit ["/etc/"; "/usr/"; "/bin/"; "/sbin/"; "/boot/"; "/sys/"; "/proc/"; "/dev/";
           "/var/log/"; "/root/"; "/home/"].

Definition sensitiveFilePatterns : list re :=
  map (fun s => MustCompile (lit s))
    ["(?:^|/)\.bashrc$"; "(?:^|/)\.bash_profile$"; "(?:^|/)\.profile$"; "(?:^|/)\.zshrc$";
     "(?:^|/)\.ssh/"; "(?:^|/)\.env$"; "(?:^|/)\.gitconfig$"; "(?:^|/)passwd$";
     "(?:^|/)shadow$"; "(?:^|/)sudoers$"; "(?:^|/)crontab$"; "(?:^|/)authorized_keys$";
     "(?:^|/)id_rsa"; "(?:^|/)id_ed25519"].

Definition directSensitive : list bytes :=
  map lit ["/etc"; "/usr"; "/bin"; "/sbin"; "/boot"; "/sys"; "/proc"; "/dev"].

Definition IsWriteToSensitivePath (path : bytes) : bool :=
  if path ==b [] then false
  else
    let normalized := TrimSpace path in
    (HasPrefix normalized (lit "/")
     && (existsb (fun prefix => HasPrefix normalized prefix) sensitivePaths
         || existsb (fun p => normalized ==b p) directSensitive))
    || existsb (fun pattern => MatchString pattern normalized) sensitiveFilePatterns.

(** ** The analysis *)

Record SecurityAnalysis := {
  HasRedirection : bool;
  RedirectionTargets : list bytes;
  HasPipes : bool;
  HasBackgroundOps : bool;
  HasHeredoc : bool;
  SubCommands : list bytes;
  RiskFactors : list bytes;
}.

Definition AnalyzeCommandSecurity (command0 : bytes) : SecurityAnalysis :=
  let command := TrimSpace command0 in
  if command ==b [] then
    {| HasRedirection := false; RedirectionTargets := []; HasPipes := false;
       HasBackgroundOps := false; HasHeredoc := false; SubCommands := []; RiskFactors := [] |}
  else
    let subs := SplitCommands command in
    let heredoc := DetectHeredoc command in
    let pipes := detectPipesQuoteAware command in
    let background := detectBackgroundOpsQuoteAware command in
    let targets := collectAllRedirectTargets command in
    let redirection := 0 <? length targets in
    {| HasRedirection := redirection; RedirectionTargets := targets; HasPipes := pipes;
       HasBackgroundOps := background; HasHeredoc := heredoc; SubCommands := subs;
       RiskFactors :=
         (if heredoc then [lit "command contains heredoc construct which may obscure content"] else [])
         ++ (if pipes then [lit "command uses pipes which may chain operations"] else [])
         ++ (if background then [lit "command runs operations in background"] else [])
         ++ (if redirection then
               lit "command writes output to file via redirection" ::
               map (fun target => lit "redirection targets sensitive system path: " ++ target)
                 (filter (fun target => IsWriteToSensitivePath target = true) targets)
             else [])
         ++ (if 1 <? length subs then [lit "compound command with multiple sub-commands"] else []) |}.
