(* ===== verification/ReadOnly.v ===== *)
(** * Read-only commands ([engine/permission/bash_security.go], last part)

    The allow and deny lists of command words, the extraction of the words, and
    the classification of a command as read-only. *)

From S2P Require Import Prelude GoStrings BashLex BashSecurity Regex.

(** ** Command lists *)

Definition readOnlyCommands : list bytes := map lit
  ["ls"; "dir"; "stat"; "file"; "wc"; "du"; "df"; "find"; "locate"; "which";
   "whereis"; "type"; "readlink"; "realpath";
   "cat"; "head"; "tail"; "less"; "more"; "bat"; "hexdump"; "xxd"; "strings"; "od";
   "grep"; "egrep"; "fgrep"; "rg"; "ag"; "ack"; "diff"; "cmp"; "comm"; "sort";
   "uniq"; "tr"; "cut"; "paste"; "join"; "fmt"; "fold"; "column"; "expand"; "unexpand";
   "nl"; "pr"; "rev";
   "git status"; "git log"; "git diff"; "git show"; "git branch"; "git tag"; "git remote";
   "git blame"; "git shortlog"; "git describe"; "git rev-parse"; "git ls-files"; "git ls-tree";
   "git cat-file"; "git config --get"; "git config --list";
   "uname"; "hostname"; "whoami"; "id"; "date"; "uptime"; "env"; "printenv";
   "pwd"; "echo"; "printf"; "test";
   "go version"; "go env"; "go list"; "go doc"; "go vet";
   "node --version"; "npm --version"; "python --version"; "python3 --version";
   "pip list"; "pip3 list";
   "ps"; "top"; "htop"; "pgrep"; "lsof";
   "ifconfig"; "ip addr"; "netstat"; "ss"; "dig"; "nslookup"; "host"; "ping";
   "tar -tf"; "tar --list"; "unzip -l"; "zipinfo"; "jq"; "yq"; "tree"].

Definition readOnlyCommandPrefixes : list bytes := map lit
  ["ls"; "dir"; "stat"; "file"; "wc"; "du"; "df"; "find"; "locate"; "which";
   "whereis"; "type"; "readlink"; "realpath";
   "cat"; "head"; "tail"; "less"; "more"; "bat"; "hexdump"; "xxd"; "strings"; "od";
   "grep"; "egrep"; "fgrep"; "rg"; "ag"; "ack"; "diff"; "cmp"; "comm";
   "sort"; "uniq"; "tr"; "cut"; "paste"; "join"; "fmt"; "fold"; "column";
   "expand"; "unexpand"; "nl"; "pr"; "rev";
   "uname"; "hostname"; "whoami"; "id"; "date"; "uptime"; "env"; "printenv";
   "pwd"; "echo"; "printf"; "test";
   "ps"; "top"; "htop"; "pgrep"; "lsof";
   "ifconfig"; "netstat"; "ss"; "dig"; "nslookup"; "host"; "ping";
   "jq"; "yq"; "tree"].

Definition writeCommands : list bytes := map lit
  ["rm"; "rmdir"; "mv"; "cp"; "mkdir"; "touch"; "chmod"; "chown"; "chgrp";
   "ln"; "install"; "shred"; "truncate"; "dd"; "mkfs"; "mount"; "umount";
   "kill"; "killall"; "pkill"; "reboot"; "shutdown"; "halt"; "poweroff";
   "useradd"; "userdel"; "usermod"; "groupadd"; "passwd"; "chpasswd";
   "apt"; "apt-get"; "dpkg"; "yum"; "dnf"; "pacman"; "brew"; "snap";
   "pip"; "pip3"; "npm"; "yarn"; "pnpm"; "cargo"; "go install"; "go get";
   "docker"; "podman"; "kubectl"; "systemctl"; "service"; "crontab";
   "git push"; "git commit"; "git merge"; "git rebase"; "git reset"; "git checkout";
   "git stash"; "git cherry-pick"; "git revert"; "git pull"; "git fetch"; "git clone";
   "git add"; "git rm"; "git mv"; "git init"; "git clean"].

Definition readOnlyGitSubs : list bytes := map lit
  ["status"; "log"; "diff"; "show"; "branch"; "tag"; "remote"; "blame"; "shortlog"; "describe";
   "rev-parse"; "ls-files"; "ls-tree"; "cat-file"; "stash list"; "reflog"; "bisect"].

Definition readOnlyGoSubs : list bytes := map lit
  ["version"; "env"; "list"; "doc"; "vet"; "build"; "test"; "mod"].

(** Membership in a [map[string]bool] whose values are all [true]. *)
Definition member (w : bytes) (l : list bytes) : bool := bool_decide (w ∈ l).

(** ** Words *)

Definition env_first (c : ascii) : bool := is_upper c || is_lower c || (c ==b "_"%char).
Definition env_rest (c : ascii) : bool := is_upper c || is_lower c || is_digit c || (c ==b "_"%char).

Definition isValidEnvVarName (s : bytes) : bool :=
  match s with
  | [] => false
  | c :: s' => env_first c && forallb env_rest s'
  end.

(** [skipValue] of a value that starts with a double quote: the rest after the
    closing one. *)
Fixpoint skip_dquoted_value (s : bytes) : bytes :=
  match s with
  | [] => []
  | c :: s1 =>
      match c ==b BSLASH, s1 with
      | true, _ :: s2 => skip_dquoted_value s2
      | _, _ => if c ==b DQUOTE then s1 else skip_dquoted_value s1
      end
  end.

Definition skipValue (s : bytes) : bytes :=
  match s with
  | [] => s
  | c :: s1 =>
      if c ==b SQUOTE then
        match IndexByte s1 SQUOTE with
        | Some e => drop (e + 2) s
        | None => []
        end
      else if c ==b DQUOTE then skip_dquoted_value s1
      else
        match IndexAny s [SP; TAB] with
        | Some e => drop e s
        | None => []
        end
  end.

(** The loop that skips leading [VAR=value] words; fuel [S (length cmd)] is
    enough, since every round drops the name and the [=]. *)
Fixpoint skip_env (fuel : nat) (cmd : bytes) : option bytes :=
  match fuel with
  | O => None
  | S fuel' =>
      match IndexByte cmd "="%char with
      | Some (S k) =>
          let prefix := take (S k) cmd in
          if negb (ContainsAny prefix [SP; TAB]) && isValidEnvVarName prefix
          then skip_env fuel' (TrimSpace (skipValue (drop (S k + 1) cmd)))
          else Some cmd
      | _ => Some cmd
      end
  end.

Definition extractFirstWord (cmd0 : bytes) : bytes :=
  let cmd := TrimSpace cmd0 in
  let cmd := default [] (skip_env (S (length cmd)) cmd) in
  match Fields cmd with
  | [] => []
  | f :: _ => f
  end.

(** The fields from the first that is not of the form [name=value]. *)
Fixpoint skip_assignments (fields : list bytes) : list bytes :=
  match fields with
  | f :: fs => if Contains f (lit "=") && negb (HasPrefix f (lit "-"))
               then skip_assignments fs else fields
  | [] => []
  end.

Definition extractSecondWord (cmd0 : bytes) : bytes :=
  let fields := Fields (TrimSpace cmd0) in
  if length fields <? 2 then []
  else
    match skip_assignments fields with
    | _ :: w :: _ => w
    | _ => []
    end.

Definition extractFirstTwoWords (cmd : bytes) : bytes :=
  let first := extractFirstWord cmd in
  if first ==b [] then []
  else
    let second := extractSecondWord cmd in
    if second ==b [] then [] else first ++ lit " " ++ second.

Definition extractGitSubcommand (cmd : bytes) : bytes :=
  match find (fun f => negb (HasPrefix f (lit "-"))) (drop 1 (Fields cmd)) with
  | Some f => f
  | None => []
  end.

(** ** Classification *)

Definition isSubCommandReadOnly (cmd : bytes) : bool :=
  if cmd ==b [] then true
  else
    match DetectOutputRedirection cmd with
    | Some _ => false
    | None =>
        let firstWord := extractFirstWord cmd in
        if firstWord ==b [] then true
        else if member firstWord writeCommands then false
        else
          let twoWord := extractFirstTwoWords cmd in
          if (twoWord <>b []) && member twoWord writeCommands then false
          else if member firstWord readOnlyCommandPrefixes then true
          else if (twoWord <>b []) && member twoWord readOnlyCommands then true
          else if (firstWord ==b lit "git") && member (extractGitSubcommand cmd) readOnlyGitSubs
          then true
          else if (firstWord ==b lit "git")
                  && member (lit "git " ++ extractGitSubcommand cmd) writeCommands
          then false
          else if (firstWord ==b lit "go") && member (extractSecondWord cmd) readOnlyGoSubs
          then true
          else if firstWord ==b lit "make" then true
          else false
    end.

Definition IsReadOnlyCommand (command0 : bytes) : bool :=
  let command := TrimSpace command0 in
  if command ==b [] then true
  else forallb (fun sub => isSubCommandReadOnly (TrimSpace sub)) (SplitCommands command).

(** [ValidateReadOnlyMode]: the word named by the error message, [None] when the
    command is accepted. *)
Definition ValidateReadOnlyMode (command0 : bytes) : option bytes :=
  let command := TrimSpace command0 in
  if command ==b [] then None
  else
    match find (fun sub => negb (isSubCommandReadOnly (TrimSpace sub))) (SplitCommands command) with
    | Some sub => Some (extractFirstWord (TrimSpace sub))
    | None => None
    end.

(** * Facts about the security analysis and the read-only classification *)

(** ** Termination of the remaining scanners *)

Lemma subst_dquote_total fuel s :
  length s < fuel ->
  exists ev r, subst_dquote_loop fuel s = Some (ev, r) /\ length r <= length s.
Proof.
  revert s. induction fuel as [|fuel IH]; intros s Hf; [lia|].
  destruct s as [|c s1]; simpl in *; [by exists [], []|].
  pose proof (close_escaped_le BTICK s1) as Hb.
  destruct (c ==b DQUOTE); [exists [], (c :: s1); simpl; split; [done|lia]|].
  assert (Htail : exists ev r,
    (if c ==b BTICK then
       '(ev, r) ← subst_dquote_loop fuel (close_quote (span_escaped BTICK s1)).2;
       Some ((Backtick, extractBacktickContent (c :: s1)) :: ev, r)
     else if (c ==b "$"%char) && head_is "("%char s1 then
       '(ev, r) ← subst_dquote_loop fuel s1;
       Some ((DollarParen, extractBalancedParen s1) :: ev, r)
     else subst_dquote_loop fuel s1) = Some (ev, r) /\ length r <= S (length s1)).
  { destruct (IH (close_quote (span_escaped BTICK s1)).2 ltac:(lia)) as (e1 & r1 & H1 & L1).
    destruct (IH s1 ltac:(lia)) as (e2 & r2 & H2 & L2).
    rewrite H1, H2. simpl. destruct (c ==b BTICK); [|destruct (_ && _)]; simpl;
      do 2 eexists; (split; [done|lia]). }
  destruct (c ==b BSLASH); [|exact Htail]. destruct s1 as [|d s2]; [exact Htail|].
  destruct (IH s2) as (ev & r & H & L); simpl in *; [lia|]. exists ev, r. split; [done|lia].
Qed.

Lemma skip_parens_le d s : length (skip_parens d s) <= length s.
Proof.
  revert d. induction s as [|c s IH]; intros [|d]; simpl; try lia.
  pose proof (IH (S (S d))); pose proof (IH d); pose proof (IH (S d)).
  repeat case_bool_decide; lia.
Qed.

Lemma subst_loop_total fuel s : length s < fuel -> is_Some (subst_loop fuel s).
Proof.
  revert s. induction fuel as [|fuel IH]; intros s Hf; [lia|].
  destruct s as [|ch s1]; simpl in *; [eauto|].
  pose proof (close_until_le SQUOTE s1). pose proof (close_escaped_le BTICK s1).
  pose proof (span_paren_le (length s1) 1 (drop 1 s1)).
  pose proof (skip_parens_le 1 (drop 1 s1)). rewrite !length_drop in *.
  destruct (subst_dquote_total fuel s1 ltac:(lia)) as (ev & r & Hd & Hr). rewrite Hd. simpl.
  destruct (IH (drop 1 r)) as [ev' Hev]; [rewrite length_drop; lia|]. rewrite Hev. simpl.
  repeat match goal with |- context [if ?b then _ else _] => destruct b end;
  try match goal with |- context [match s1 with _ => _ end] => destruct s1; simpl in * end;
  rewrite ?fmap_is_Some; first [ by eauto | apply IH; simpl in *; lia ].
Qed.

(** Dropping a non-empty environment prefix shortens the command. *)
Lemma skip_dquoted_le s : length (skip_dquoted_value s) <= length s.
Proof.
  induction s as [s IH] using (induction_ltof1 _ length); unfold ltof in IH.
  destruct s as [|c [|d s]]; simpl; [lia| |].
  - destruct (c ==b BSLASH), (c ==b DQUOTE); simpl; lia.
  - pose proof (IH s ltac:(simpl; lia)).
    pose proof (IH (d :: s) ltac:(simpl; lia)) as Hds. simpl in Hds.
    destruct (c ==b BSLASH); [lia|]. destruct (c ==b DQUOTE); simpl; lia.
Qed.

Lemma skipValue_le s : length (skipValue s) <= length s.
Proof.
  destruct s as [|c s]; simpl; [lia|].
  pose proof (skip_dquoted_le s).
  repeat case_match; simpl; rewrite ?length_drop; simpl; lia.
Qed.

Lemma TrimSpace_le s : length (TrimSpace s) <= length s.
Proof.
  destruct (TrimSpace_sub s) as (pre & post & Hs). rewrite Hs at 2.
  rewrite !length_app. lia.
Qed.

Lemma skip_env_total fuel cmd : length cmd < fuel -> is_Some (skip_env fuel cmd).
Proof.
  revert cmd. induction fuel as [|fuel IH]; intros cmd Hf; [lia|]. cbn [skip_env].
  destruct (IndexByte cmd "="%char) as [[|k]|] eqn:E; [eauto| |eauto].
  destruct (_ && _); [|eauto]. apply IH.
  assert (Hk : S k < length cmd).
  { apply Index_Some in E as [w Hw]. apply (f_equal length) in Hw.
    rewrite length_drop in Hw. simpl in Hw. lia. }
  pose proof (TrimSpace_le (skipValue (drop (S k + 1) cmd))).
  pose proof (skipValue_le (drop (S k + 1) cmd)) as Hs. rewrite length_drop in Hs. lia.
Qed.

(** ** Soundness of the read-only classification *)

(** What an accepted sub-command satisfies: it redirects no output, its first
    word and first two words are not write commands, and one of the allowances
    applies. *)
Definition read_only_allowance (cmd : bytes) : Prop :=
  let first := extractFirstWord cmd in
  let two := extractFirstTwoWords cmd in
  first ∈ readOnlyCommandPrefixes
  \/ two ∈ readOnlyCommands
  \/ (first = lit "git" /\ extractGitSubcommand cmd ∈ readOnlyGitSubs)
  \/ (first = lit "go" /\ extractSecondWord cmd ∈ readOnlyGoSubs)
  \/ first = lit "make".

Definition read_only_ok (cmd : bytes) : Prop :=
  DetectOutputRedirection cmd = None /\
  (extractFirstWord cmd = [] \/
   ((extractFirstWord cmd ∉ writeCommands) /\ (extractFirstTwoWords cmd ∉ writeCommands) /\
    read_only_allowance cmd)).

Lemma member_true w l : member w l = true <-> w ∈ l.
Proof. apply bool_decide_eq_true. Qed.

Lemma member_false w l : member w l = false <-> w ∉ l.
Proof. apply bool_decide_eq_false. Qed.

Lemma empty_not_write : [] ∉ writeCommands.
Proof. apply member_false. vm_compute. done. Qed.

Lemma nonempty_member w l :
  (w <>b []) && member w l = false -> [] ∉ l -> w ∉ l.
Proof.
  intros [H|H]%andb_false_iff Hl; [|by apply member_false]. breflect. by subst.
Qed.

Lemma isSubCommandReadOnly_sound cmd :
  cmd <> [] -> isSubCommandReadOnly cmd = true -> read_only_ok cmd.
Proof.
  intros Hne. unfold isSubCommandReadOnly, read_only_ok, read_only_allowance. cbv zeta.
  rewrite bool_decide_eq_false_2 by done.
  destruct (DetectOutputRedirection cmd); [done|]. intros H. split; [done|].
  case_bool_decide as Ef; [by left|]. right.
  destruct (member (extractFirstWord cmd) writeCommands) eqn:E1; [done|].
  destruct ((extractFirstTwoWords cmd <>b []) && member (extractFirstTwoWords cmd) writeCommands)
    eqn:E2; [done|].
  apply member_false in E1. apply nonempty_member in E2; [|apply empty_not_write].
  split; [done|]. split; [done|].
  destruct (member (extractFirstWord cmd) readOnlyCommandPrefixes) eqn:E3;
    [left; by apply member_true|]. right.
  destruct ((extractFirstTwoWords cmd <>b []) && member (extractFirstTwoWords cmd) readOnlyCommands)
    eqn:E4; [left; breflect; by apply member_true|]. right.
  destruct ((extractFirstWord cmd ==b lit "git") && member (extractGitSubcommand cmd) readOnlyGitSubs)
    eqn:E5; [left; breflect; split; [done|by apply member_true]|]. right.
  destruct ((extractFirstWord cmd ==b lit "git")
    && member (lit "git " ++ extractGitSubcommand cmd) writeCommands); [done|].
  destruct ((extractFirstWord cmd ==b lit "go") && member (extractSecondWord cmd) readOnlyGoSubs)
    eqn:E6; [left; breflect; split; [done|by apply member_true]|]. right.
  by case_bool_decide.
Qed.

Lemma IsReadOnlyCommand_subs c :
  IsReadOnlyCommand c = true <->
  forall sub, sub ∈ SplitCommands c -> isSubCommandReadOnly sub = true.
Proof.
  assert (Hsplit : SplitCommands (TrimSpace c) = SplitCommands c)
    by (unfold SplitCommands; by rewrite TrimSpace_idemp).
  unfold IsReadOnlyCommand. rewrite Hsplit. case_bool_decide as E.
  - split; [|done]. intros _ sub Hsub. unfold SplitCommands in Hsub.
    rewrite E in Hsub. by apply not_elem_of_nil in Hsub.
  - rewrite forallb_elem_of. split; intros H sub Hsub; specialize (H sub Hsub);
      apply SplitCommands_trimmed in Hsub as [_ Ht]; by rewrite Ht in *.
Qed.

Lemma ValidateReadOnlyMode_None c : ValidateReadOnlyMode c = None <-> IsReadOnlyCommand c = true.
Proof.
  unfold ValidateReadOnlyMode, IsReadOnlyCommand. case_bool_decide; [done|].
  induction (SplitCommands (TrimSpace c)) as [|sub subs IH]; simpl; [done|].
  destruct (isSubCommandReadOnly (TrimSpace sub)); simpl; done.
Qed.

(** ** Properties *)

(** A command is classified as read-only only if every sub-command redirects no
    output and either has no word at all after its assignments, or its first
    words are not on the write list and are one of the allowances: a read-only
    command, a read-only git or go sub-command, or make.  This is what the code
    checks, not that nothing is written: [env_runs_anything] and
    [assignment_runs_anything] below. *)
Theorem read_only_sound c :
  IsReadOnlyCommand c = true -> forall sub, sub ∈ SplitCommands c -> read_only_ok sub.
Proof.
  intros H sub Hsub. apply isSubCommandReadOnly_sound.
  - by apply SplitCommands_trimmed in Hsub as [? _].
  - by apply (proj1 (IsReadOnlyCommand_subs c)).
Qed.

Lemma read_only_sound_witness : read_only_ok (lit "grep -n x").
Proof.
  apply (read_only_sound (lit "git status | grep -n x")); [by vm_compute|].
  assert (E : SplitCommands (lit "git status | grep -n x") = [lit "git status"; lit "grep -n x"])
    by (by vm_compute).
  rewrite E. set_solver.
Defined.

(** The validator of read-only mode accepts exactly the commands that the
    classifier calls read-only, and names the first offending word. *)
Theorem validate_agrees c :
  (ValidateReadOnlyMode c = None <-> IsReadOnlyCommand c = true) /\
  (forall w, ValidateReadOnlyMode c = Some w ->
     exists sub, sub ∈ SplitCommands c /\ isSubCommandReadOnly sub = false /\
                 w = extractFirstWord sub).
Proof.
  split; [apply ValidateReadOnlyMode_None|]. intros w. unfold ValidateReadOnlyMode.
  destruct (TrimSpace c ==b []); [done|].
  destruct (find _ (SplitCommands (TrimSpace c))) as [sub|] eqn:E; [|done]. intros [= <-].
  apply List.find_some in E as [Hin Hn]. rewrite <- list_elem_of_In in Hin. breflect.
  assert (Hs : SplitCommands (TrimSpace c) = SplitCommands c)
    by (unfold SplitCommands; by rewrite TrimSpace_idemp).
  rewrite Hs in Hin. destruct (SplitCommands_trimmed _ _ Hin) as [_ Ht].
  exists sub. rewrite Ht in *. done.
Qed.

(** The words of a command are found within the fuel given, so the
    classification is total. *)
Theorem word_extraction_terminates s :
  is_Some (skip_env (S (length s)) s) /\ is_Some (subst_loop (S (length s)) s).
Proof. split; [apply skip_env_total; lia|apply subst_loop_total; lia]. Qed.

(** [env] is on the read-only list, and with it every command that it runs. *)
Theorem env_runs_anything : IsReadOnlyCommand (lit "env rm -rf src") = true.
Proof. by vm_compute. Qed.

(** A command that only assigns a variable has no first word and counts as
    read-only, with the command that the assigned value substitutes. *)
Example assignment_runs_anything :
  IsReadOnlyCommand (lit "X=" ++ [DQUOTE] ++ lit "$(rm -rf y)" ++ [DQUOTE]) = true.
Proof. by vm_compute. Qed.

(** Entries of the read-only list that cannot take effect: the write list,
    which holds their first word, is consulted before. *)
Theorem shadowed_allowances :
  map (fun c => (member (lit c) readOnlyCommands, IsReadOnlyCommand (lit c)))
    ["npm --version"; "pip list"; "pip3 list"] = [(true, false); (true, false); (true, false)].
Proof. by vm_compute. Qed.
