(* ===== verification/Paths.v ===== *)
(** * Go's [path/filepath] on Unix paths

    The path functions the permission code calls.  [Clean] is given by its
    effect on the components of a path; the lemmas state that its result is
    canonical, that it is idempotent, and what [Rel] says of two clean paths. *)

From S2P Require Import Prelude GoStrings.

Definition SLASH : ascii := "/"%char.
Definition sep : bytes := [SLASH].
Definition dot : bytes := lit ".".
Definition dotdot : bytes := lit "..".

Definition IsAbs (path : bytes) : bool := HasPrefix path sep.

(** One component read by [Clean]; [out] holds the components kept, the last
    one first. *)
Definition clean_step (rooted : bool) (out : list bytes) (c : bytes) : list bytes :=
  if (c ==b []) || (c ==b dot) then out
  else if c ==b dotdot then
    match out with
    | top :: out' => if top ==b dotdot then c :: out else out'
    | [] => if rooted then [] else [c]
    end
  else c :: out.

Definition clean_comps (path : bytes) : list bytes :=
  reverse (fold_left (clean_step (IsAbs path)) (Split path sep) []).

(** The text of a path with the components [l]. *)
Definition path_of (rooted : bool) (l : list bytes) : bytes :=
  if rooted then sep ++ Join l sep
  else if l ==b [] then dot else Join l sep.

Definition Clean (path : bytes) : bytes := path_of (IsAbs path) (clean_comps path).

(** [filepath.Join]: the leading empty elements are dropped. *)
Fixpoint Join_path (elems : list bytes) : bytes :=
  match elems with
  | [] => []
  | e :: rest => if e ==b [] then Join_path rest else Clean (Join elems sep)
  end.

Definition Dir (path : bytes) : bytes :=
  match LastIndexByte path SLASH with
  | None => Clean []
  | Some i => Clean (take (i + 1) path)
  end.

Fixpoint drop_slashes (rev_path : bytes) : bytes :=
  match rev_path with
  | c :: r => if c ==b SLASH then drop_slashes r else rev_path
  | [] => []
  end.

Definition Base (path : bytes) : bytes :=
  if path ==b [] then dot
  else
    let stripped := reverse (drop_slashes (reverse path)) in
    let last := match LastIndexByte stripped SLASH with
                | None => stripped
                | Some i => drop (i + 1) stripped
                end in
    if last ==b [] then sep else last.

(** The components after the longest common prefix. *)
Fixpoint strip_common (b t : list bytes) : list bytes * list bytes :=
  match b, t with
  | x :: b', y :: t' => if x ==b y then strip_common b' t' else (b, t)
  | _, _ => (b, t)
  end.

Definition path_elems (path : bytes) : list bytes :=
  List.filter (fun c => c <>b []) (Split path sep).

(** [filepath.Rel]; [None] is the error. *)
Definition Rel (basepath targpath : bytes) : option bytes :=
  let base := Clean basepath in
  let targ := Clean targpath in
  if targ ==b base then Some dot
  else
    let base := if base ==b dot then [] else base in
    if negb (eqb (IsAbs base) (IsAbs targ)) then None
    else
      let '(b, t) := strip_common (path_elems base) (path_elems targ) in
      match b with
      | [] => Some (Join t sep)
      | x :: _ =>
          if x ==b dotdot then None
          else Some (Join (replicate (length b) dotdot ++ t) sep)
      end.

(** [filepath.Match] for patterns made of literal bytes and ["*"]. *)
Fixpoint Match (pattern name : bytes) : bool :=
  match pattern with
  | [] => name ==b []
  | p :: pattern' =>
      if p ==b "*"%char then
        (fix star (name : bytes) : bool :=
           Match pattern' name
           || match name with
              | c :: name' => (c <>b SLASH) && star name'
              | [] => false
              end) name
      else match name with
           | c :: name' => (c ==b p) && Match pattern' name'
           | [] => false
           end
  end.

(** ** Splitting and joining on the separator *)

Lemma split_byte_cons d cur a s :
  split_from [d] None 0 cur (a :: s) =
  if a ==b d then reverse cur :: split_from [d] None 0 [] s
  else split_from [d] None 0 (a :: cur) s.
Proof.
  cbn [split_from length Nat.sub]. destruct (decide (a = d)) as [->|Hne].
  - rewrite HasPrefix_cons, HasPrefix_nil, bool_decide_eq_true_2 by done. done.
  - rewrite HasPrefix_cons_ne, bool_decide_eq_false_2 by done. done.
Qed.

Lemma split_byte_app d cur w s :
  d ∉ w -> split_from [d] None 0 cur (w ++ s) = split_from [d] None 0 (reverse w ++ cur) s.
Proof.
  revert cur. induction w as [|a w IH]; intros cur; [done|].
  intros [Ha Hw]%not_elem_of_cons. rewrite <- app_comm_cons, split_byte_cons.
  rewrite bool_decide_eq_false_2 by congruence. rewrite (IH _ Hw). f_equal.
  by rewrite reverse_cons, <- app_assoc.
Qed.

Lemma Split_elem_free d s cur c :
  d ∉ cur -> c ∈ split_from [d] None 0 cur s -> d ∉ c.
Proof.
  revert cur. induction s as [|a s IH]; intros cur Hcur.
  - intros ->%list_elem_of_singleton. by rewrite elem_of_reverse.
  - rewrite split_byte_cons. destruct (a ==b d) eqn:E; breflect.
    + intros [->|Hc]%elem_of_cons; [by rewrite elem_of_reverse|].
      eapply IH; [|done]. apply not_elem_of_nil.
    + apply IH. rewrite not_elem_of_cons. auto.
Qed.

Lemma Split_slash_free s c : c ∈ Split s sep -> SLASH ∉ c.
Proof. apply Split_elem_free, not_elem_of_nil. Qed.

(** A list of texts without the separator survives joining and splitting. *)
Lemma Split_Join d l :
  l <> [] -> Forall (fun c => d ∉ c) l -> Split (Join l [d]) [d] = l.
Proof.
  unfold Split. intros Hne Hl. induction Hl as [|c l Hc Hl IH]; [done|].
  destruct l as [|c' l'].
  - cbn [Join]. rewrite <- (app_nil_r c) at 1. rewrite split_byte_app by done.
    cbn [split_from]. by rewrite app_nil_r, reverse_involutive.
  - change (Join (c :: c' :: l') [d]) with (c ++ [d] ++ Join (c' :: l') [d]).
    rewrite split_byte_app by done. cbn [app]. rewrite split_byte_cons.
    rewrite bool_decide_eq_true_2 by done. rewrite app_nil_r, reverse_involutive.
    f_equal. apply IH. done.
Qed.

(** ** Canonical component lists *)

(** An ordinary component: not empty, not ["."], not [".."], no separator. *)
Definition name_comp (c : bytes) : Prop :=
  c <> [] /\ c <> dot /\ c <> dotdot /\ SLASH ∉ c.

(** Components [Clean] leaves unchanged: names, after [".."]s when the path is
    relative. *)
Inductive canonical (rooted : bool) : list bytes -> Prop :=
| canonical_intro n l :
    Forall name_comp l -> (rooted = true -> n = 0) ->
    canonical rooted (replicate n dotdot ++ l).

Lemma clean_step_name rooted out c : name_comp c -> clean_step rooted out c = c :: out.
Proof.
  intros (H1 & H2 & H3 & _). unfold clean_step.
  by rewrite !bool_decide_eq_false_2 by done.
Qed.

Lemma clean_fold_names rooted out l :
  Forall name_comp l -> fold_left (clean_step rooted) l out = reverse l ++ out.
Proof.
  intros Hl. revert out. induction Hl as [|c l Hc _ IH]; intros out; [done|].
  cbn [fold_left]. rewrite clean_step_name by done. rewrite IH.
  by rewrite reverse_cons, <- app_assoc.
Qed.

Lemma clean_fold_up n k l :
  fold_left (clean_step false) (replicate n dotdot ++ l) (replicate k dotdot) =
  fold_left (clean_step false) l (replicate (n + k) dotdot).
Proof.
  revert k. induction n as [|n IH]; intros k; [done|]. cbn [replicate app fold_left].
  assert (Hs : clean_step false (replicate k dotdot) dotdot = replicate (S k) dotdot)
    by (by destruct k).
  rewrite Hs, IH. do 2 f_equal. lia.
Qed.

(** The state of the loop of [Clean]: the components kept are canonical. *)
Lemma canonical_step rooted out c :
  SLASH ∉ c -> canonical rooted (reverse out) ->
  canonical rooted (reverse (clean_step rooted out c)).
Proof.
  intros Hc Hout. unfold clean_step.
  destruct (c ==b []) eqn:E1; [done|]. destruct (c ==b dot) eqn:E2; [done|].
  cbn [orb]. breflect. destruct (c ==b dotdot) eqn:E3; breflect.
  - subst c. inversion Hout as [n l Hl Hr Heq].
    destruct l as [|x l _] using rev_ind.
    + rewrite app_nil_r in Heq. apply (f_equal reverse) in Heq.
      rewrite reverse_involutive, reverse_replicate in Heq. subst out.
      destruct rooted.
      * rewrite (Hr eq_refl). apply (canonical_intro true 0 []); auto.
      * assert (Hs : match replicate n dotdot with
                     | [] => [dotdot]
                     | top :: out' => if top ==b dotdot then dotdot :: replicate n dotdot else out'
                     end = replicate (S n) dotdot) by (by destruct n).
        rewrite Hs, reverse_replicate, <- (app_nil_r (replicate _ _)).
        by apply (canonical_intro false (S n) []).
    + apply (f_equal reverse) in Heq.
      rewrite reverse_involutive, app_assoc, reverse_snoc in Heq. subst out.
      apply Forall_app in Hl as [Hl Hx]. apply Forall_singleton in Hx as (_ & _ & Hx & _).
      rewrite bool_decide_eq_false_2 by done. rewrite reverse_involutive.
      by constructor.
  - rewrite reverse_cons. inversion Hout as [n l Hl Hr Heq].
    rewrite <- app_assoc. constructor; [|done].
    apply Forall_app; split; [done|]. apply Forall_singleton. repeat split; done.
Qed.

Lemma clean_comps_canonical p : canonical (IsAbs p) (clean_comps p).
Proof.
  unfold clean_comps. assert (Hfree := Split_slash_free p).
  assert (H0 : canonical (IsAbs p) (reverse [])) by (by apply (canonical_intro _ 0 [])).
  generalize dependent (@nil bytes).
  induction (Split p sep) as [|c l IH]; intros out Hout; [done|].
  cbn [fold_left]. apply IH; [set_solver|]. apply canonical_step; [|done].
  apply Hfree. set_solver.
Qed.

Lemma canonical_free rooted l : canonical rooted l -> Forall (fun c => SLASH ∉ c) l.
Proof.
  inversion 1 as [n l' Hl Hr Heq]. apply Forall_app. split.
  - apply Forall_replicate. apply (bool_decide_unpack _). by vm_compute.
  - eapply Forall_impl; [exact Hl|]. by intros c (_ & _ & _ & Hc).
Qed.

(** [Clean]'s loop leaves canonical components unchanged. *)
Lemma clean_fold_canonical rooted l :
  canonical rooted l -> fold_left (clean_step rooted) l [] = reverse l.
Proof.
  inversion 1 as [n l' Hl Hr Heq]. destruct rooted.
  - rewrite (Hr eq_refl). cbn [replicate app].
    by rewrite clean_fold_names, app_nil_r.
  - change (@nil bytes) with (replicate 0 dotdot).
    rewrite clean_fold_up, clean_fold_names by done.
    by rewrite reverse_app, reverse_replicate, Nat.add_0_r.
Qed.

Lemma IsAbs_cons c p : IsAbs (c :: p) = (c ==b SLASH).
Proof.
  unfold IsAbs, sep. destruct (decide (c = SLASH)) as [->|Hne].
  - by rewrite HasPrefix_cons, HasPrefix_nil, bool_decide_eq_true_2.
  - by rewrite HasPrefix_cons_ne, bool_decide_eq_false_2.
Qed.

Lemma Join_first_slash c l : c <> [] -> SLASH ∉ c -> IsAbs (Join (c :: l) sep) = false.
Proof.
  intros Hne Hc. destruct c as [|a c]; [done|].
  assert (Ha : a <> SLASH) by (intros ->; apply Hc; set_solver).
  destruct l; cbn [Join app]; rewrite IsAbs_cons; by apply bool_decide_eq_false.
Qed.

Lemma canonical_head rooted c l : canonical rooted (c :: l) -> c <> [] /\ SLASH ∉ c.
Proof.
  intros H. split.
  - inversion H as [n l' Hl Hr Heq]. destruct n as [|n]; cbn [replicate app] in Heq.
    + subst. by apply Forall_inv in Hl as (? & _).
    + injection Heq. intros _ <-. done.
  - apply canonical_free in H. by apply Forall_inv in H.
Qed.

Lemma path_of_abs rooted l : canonical rooted l -> IsAbs (path_of rooted l) = rooted.
Proof.
  intros H. unfold path_of. destruct rooted; [done|].
  destruct l as [|c l]; [done|]. rewrite bool_decide_eq_false_2 by done.
  apply canonical_head in H as [H1 H2]. by apply Join_first_slash.
Qed.

Lemma Split_slash_cons s : Split (sep ++ s) sep = [] :: Split s sep.
Proof. done. Qed.

Lemma path_of_comps rooted l : canonical rooted l -> clean_comps (path_of rooted l) = l.
Proof.
  intros H. unfold clean_comps. rewrite path_of_abs by done. unfold path_of.
  assert (Hs : l <> [] -> Split (Join l sep) sep = l)
    by (intros Hne; apply Split_Join; [done|by eapply canonical_free]).
  assert (Hf := clean_fold_canonical _ _ H).
  destruct rooted; [rewrite Split_slash_cons; cbn [fold_left]|];
    (destruct l as [|c l]; [done|]).
  - change (clean_step true [] []) with (@nil bytes).
    rewrite Hs, Hf by done. by rewrite reverse_involutive.
  - rewrite bool_decide_eq_false_2 by done. rewrite Hs, Hf by done.
    by rewrite reverse_involutive.
Qed.

Lemma Clean_abs p : IsAbs (Clean p) = IsAbs p.
Proof. apply path_of_abs, clean_comps_canonical. Qed.

Lemma Clean_comps p : clean_comps (Clean p) = clean_comps p.
Proof. apply path_of_comps, clean_comps_canonical. Qed.

Lemma Clean_idemp p : Clean (Clean p) = Clean p.
Proof. unfold Clean at 1. by rewrite Clean_abs, Clean_comps. Qed.

#[export] Hint Rewrite Clean_idemp Clean_comps Clean_abs : yhc_rw.

(** ** [Rel] between rooted paths *)

Lemma strip_common_spec b t b' t' :
  strip_common b t = (b', t') ->
  exists k, b = k ++ b' /\ t = k ++ t' /\
            match b', t' with x :: _, y :: _ => x <> y | _, _ => True end.
Proof.
  revert t. induction b as [|x b IH]; intros t.
  - intros [= <- <-]. by exists [].
  - destruct t as [|y t]; [intros [= <- <-]; by exists []|]. cbn [strip_common].
    destruct (x ==b y) eqn:E; breflect.
    + subst. intros (k & -> & -> & H)%IH. by exists (y :: k).
    + intros [= <- <-]. by exists [].
Qed.

Lemma filter_all {A} (f : A -> bool) l : Forall (fun x => f x = true) l -> List.filter f l = l.
Proof. induction 1 as [|x l Hx _ IH]; [done|]. simpl. by rewrite Hx, IH. Qed.

Lemma path_elems_rooted l : canonical true l -> path_elems (path_of true l) = l.
Proof.
  intros H. unfold path_elems, path_of. rewrite Split_slash_cons.
  cbn [List.filter]. rewrite (bool_decide_eq_true_2 ([] = [])) by done. cbn [negb].
  destruct l as [|c l]; [done|].
  assert (Hs : Split (Join (c :: l) sep) sep = c :: l)
    by (apply Split_Join; [done|by eapply canonical_free]).
  rewrite Hs. apply filter_all. inversion H as [n l' Hl Hr Heq]. rewrite (Hr eq_refl).
  eapply Forall_impl; [exact Hl|]. intros x (Hx & _). by rewrite bool_decide_eq_false_2.
Qed.

Lemma canonical_rooted l : canonical true l <-> Forall name_comp l.
Proof.
  split.
  - inversion 1 as [n l' Hl Hr Heq]. by rewrite (Hr eq_refl).
  - intros Hl. by apply (canonical_intro true 0 l).
Qed.

(** Whether [rel] leads out of the base directory. *)
Definition rel_inside (rel : bytes) : bool :=
  (rel ==b dot) || ((rel <>b dotdot) && negb (HasPrefix rel (dotdot ++ sep))).

Lemma rel_inside_up l : rel_inside (Join (dotdot :: l) sep) = false.
Proof. by destruct l. Qed.

Lemma rel_inside_name c l : name_comp c -> rel_inside (Join (c :: l) sep) = true.
Proof.
  intros (_ & _ & Hdd & Hfree). unfold rel_inside.
  assert (Hne : Join (c :: l) sep <> dotdot).
  { destruct l; cbn [Join]; [done|]. intros Heq.
    assert (Hin : SLASH ∈ dotdot) by (rewrite <- Heq; set_solver).
    revert Hin. by apply (bool_decide_unpack _). }
  rewrite (bool_decide_eq_false_2 (_ = dotdot)) by done. cbn [negb andb].
  rewrite orb_true_iff. right. apply negb_true_iff. apply bool_decide_eq_false.
  intros [k Hk]. destruct c as [|a [|b [|c' c]]].
  - destruct l; cbn in Hk; simplify_eq.
  - destruct l; cbn in Hk; simplify_eq.
  - destruct l; cbn in Hk; simplify_eq.
  - apply Hfree. destruct l; cbn in Hk; simplify_eq; set_solver.
Qed.

Lemma app_prefix_same {A} (k b t : list A) : k ++ b `prefix_of` k ++ t <-> b `prefix_of` t.
Proof. split; [apply prefix_of_app_l_inv|]. intros [r ->]. exists r. by rewrite app_assoc. Qed.

(** For rooted paths [Rel] stays inside the base exactly when the base's
    components are a prefix of the target's. *)
Lemma Rel_inside base targ :
  IsAbs base = true -> IsAbs targ = true ->
  match Rel base targ with Some rel => rel_inside rel | None => false end =
  bool_decide (clean_comps base `prefix_of` clean_comps targ).
Proof.
  intros Hb Ht. unfold Rel.
  assert (Cb := clean_comps_canonical base). rewrite Hb in Cb.
  assert (Ct := clean_comps_canonical targ). rewrite Ht in Ct.
  destruct (Clean targ ==b Clean base) eqn:E; breflect.
  - rewrite <- (Clean_comps base), <- (Clean_comps targ), E.
    symmetry. apply bool_decide_eq_true_2. reflexivity.
  - rewrite (bool_decide_eq_false_2 (Clean base = dot))
      by (intros Heq; apply (f_equal IsAbs) in Heq; by rewrite Clean_abs, Hb in Heq).
    rewrite !Clean_abs, Hb, Ht. cbn [eqb negb].
    unfold Clean. rewrite Hb, Ht, !path_elems_rooted by done.
    destruct (strip_common _ _) as [b t] eqn:Es.
    apply strip_common_spec in Es as (k & Eb & Et & Hd).
    apply canonical_rooted in Cb, Ct. rewrite Eb in Cb. rewrite Et in Ct.
    apply Forall_app in Cb as [_ Cb]. apply Forall_app in Ct as [_ Ct].
    destruct b as [|x b].
    + rewrite bool_decide_eq_true_2 by (rewrite Eb, Et, app_nil_r; by apply prefix_app_r).
      destruct t as [|y t]; [done|]. apply rel_inside_name. by inversion Ct.
    + assert (Hx : x <> dotdot) by (apply Forall_inv in Cb; by destruct Cb as (_&_&?&_)).
      rewrite (bool_decide_eq_false_2 (x = dotdot)) by done. cbn [length replicate app].
      rewrite rel_inside_up. symmetry. apply bool_decide_eq_false.
      rewrite Eb, Et, app_prefix_same. intros Hp.
      destruct t as [|y t]; [by apply prefix_nil_inv in Hp|].
      by apply prefix_cons_inv_1 in Hp.
Qed.

(** ** Directories, base names and textual prefixes *)

Lemma Join_snoc l x d : l <> [] -> Join (l ++ [x]) d = Join l d ++ d ++ x.
Proof.
  induction l as [|c l IH]; [done|]. intros _. destruct l as [|c' l]; [done|].
  change (Join ((c :: c' :: l) ++ [x]) d) with (c ++ d ++ Join ((c' :: l) ++ [x]) d).
  rewrite IH by done. change (Join (c :: c' :: l) d) with (c ++ d ++ Join (c' :: l) d).
  by rewrite <- !app_assoc.
Qed.

Lemma Join_app l m d : l <> [] -> m <> [] -> Join (l ++ m) d = Join l d ++ d ++ Join m d.
Proof.
  intros Hl Hm. induction l as [|c l IH]; [done|]. destruct l as [|c' l].
  - destruct m; done.
  - change (Join ((c :: c' :: l) ++ m) d) with (c ++ d ++ Join ((c' :: l) ++ m) d).
    rewrite IH by done. change (Join (c :: c' :: l) d) with (c ++ d ++ Join (c' :: l) d).
    by rewrite <- !app_assoc.
Qed.

Lemma Split_app_sep d cur a k :
  split_from [d] None 0 cur (a ++ [d] ++ k) =
  split_from [d] None 0 cur a ++ split_from [d] None 0 [] k.
Proof.
  revert cur. induction a as [|c a IH]; intros cur.
  - cbn [app]. rewrite split_byte_cons, bool_decide_eq_true_2 by done. done.
  - cbn [app] in *. rewrite !split_byte_cons. destruct (c ==b d); [|apply IH].
    by rewrite IH.
Qed.

Lemma LastIndexByte_none s c : c ∉ s -> LastIndexByte s c = None.
Proof.
  induction s as [|a s IH]; [done|]. intros [Ha Hs]%not_elem_of_cons. cbn.
  rewrite (IH Hs). by rewrite bool_decide_eq_false_2.
Qed.

Lemma LastIndexByte_app s t c :
  c ∉ t -> LastIndexByte (s ++ c :: t) c = Some (length s).
Proof.
  intros Ht. induction s as [|a s IH]; cbn.
  - by rewrite LastIndexByte_none, bool_decide_eq_true_2.
  - by rewrite IH.
Qed.

Lemma canonical_prefix rooted l x : canonical rooted (l ++ [x]) -> canonical rooted l.
Proof.
  inversion 1 as [n l' Hl Hr Heq]. destruct l' as [|y l' _] using rev_ind.
  - rewrite app_nil_r in Heq. destruct n as [|n]; [by destruct l|].
    rewrite replicate_S_end in Heq. apply app_inj_tail in Heq as [<- _].
    rewrite <- (app_nil_r (replicate _ _)). constructor; [done|].
    intros ->. by specialize (Hr eq_refl).
  - rewrite app_assoc in Heq. apply app_inj_tail in Heq as [<- _].
    apply Forall_app in Hl as [Hl _]. by constructor.
Qed.

Lemma canonical_last rooted l x :
  canonical rooted (l ++ [x]) -> x <> [] /\ SLASH ∉ x.
Proof.
  intros H. split.
  - inversion H as [n l' Hl Hr Heq]. destruct l' as [|y l' _] using rev_ind.
    + rewrite app_nil_r in Heq. destruct n as [|n]; [by destruct l|].
      rewrite replicate_S_end in Heq. by apply app_inj_tail in Heq as [_ <-].
    + rewrite app_assoc in Heq. apply app_inj_tail in Heq as [_ <-].
      apply Forall_app in Hl as [_ Hl]. by apply Forall_inv in Hl as (? & _).
  - apply canonical_free in H. apply Forall_app in H as [_ H]. by apply Forall_inv in H.
Qed.

(** A clean path is fixed by its components. *)
Lemma Clean_path_of rooted l : canonical rooted l -> Clean (path_of rooted l) = path_of rooted l.
Proof. intros H. unfold Clean. by rewrite path_of_abs, path_of_comps. Qed.

Lemma Clean_trailing rooted l :
  canonical rooted l -> l <> [] ->
  Clean (path_of rooted l ++ sep) = path_of rooted l.
Proof.
  intros H Hne.
  assert (Habs : IsAbs (path_of rooted l ++ sep) = rooted).
  { rewrite <- (path_of_abs rooted l H) at 2.
    destruct (path_of rooted l) as [|c p] eqn:E; [|cbn [app]; by rewrite !IsAbs_cons].
    apply (f_equal clean_comps) in E. rewrite path_of_comps in E by done. by subst. }
  unfold Clean. rewrite Habs. f_equal. unfold clean_comps. rewrite Habs.
  rewrite <- (path_of_comps rooted l H) at 2. unfold clean_comps.
  rewrite path_of_abs by done.
  assert (Hs : Split (path_of rooted l ++ sep) sep = Split (path_of rooted l) sep ++ [[]]).
  { unfold Split, sep. rewrite <- (app_nil_r [SLASH]) at 1. apply Split_app_sep. }
  rewrite Hs, fold_left_app. done.
Qed.

Lemma Dir_path_of rooted l x :
  canonical rooted (l ++ [x]) -> Dir (path_of rooted (l ++ [x])) = path_of rooted l.
Proof.
  intros H. destruct (canonical_last _ _ _ H) as [Hx Hfree].
  assert (Hl := canonical_prefix _ _ _ H).
  assert (Htxt : path_of rooted (l ++ [x]) =
                 (if rooted then [] else []) ++
                 match l with
                 | [] => if rooted then sep ++ x else x
                 | _ => path_of rooted l ++ sep ++ x
                 end).
  { unfold path_of. destruct l as [|c l].
    - cbn [app Join]. by destruct rooted.
    - destruct rooted; cbn [app].
      + change (c :: l ++ [x]) with ((c :: l) ++ [x]). by rewrite Join_snoc.
      + rewrite !bool_decide_eq_false_2 by done.
        change (c :: l ++ [x]) with ((c :: l) ++ [x]). by rewrite Join_snoc. }
  rewrite Htxt. unfold Dir. destruct l as [|c l].
  - destruct rooted; cbn [app].
    + change (sep ++ x) with ([] ++ SLASH :: x). by rewrite LastIndexByte_app.
    + by rewrite LastIndexByte_none.
  - set (p := path_of rooted (c :: l)).
    assert (E : (if rooted then [] else []) ++ p ++ sep ++ x = p ++ SLASH :: x)
      by (by destruct rooted).
    rewrite E, LastIndexByte_app by done.
    replace (p ++ SLASH :: x) with ((p ++ sep) ++ x) by (by rewrite <- app_assoc).
    rewrite take_app_length' by (rewrite length_app; done).
    by apply Clean_trailing.
Qed.

Lemma Dir_path_of_nil rooted : Dir (path_of rooted []) = path_of rooted [].
Proof. by destruct rooted. Qed.

(** Being textually below a rooted directory is having its components as a
    prefix. *)
Lemma below_prefix l m :
  Forall name_comp l -> Forall name_comp m -> l <> [] ->
  (path_of true m = path_of true l \/ path_of true l ++ sep `prefix_of` path_of true m)
  <-> l `prefix_of` m.
Proof.
  intros Hl Hm Hne.
  assert (Cl : canonical true l) by (by apply canonical_rooted).
  assert (Cm : canonical true m) by (by apply canonical_rooted).
  split.
  - intros [E|[k Hk]].
    + apply (f_equal clean_comps) in E. rewrite !path_of_comps in E by done. by subst.
    + apply (f_equal (fun s => Split s sep)) in Hk.
      unfold Split in Hk. rewrite <- app_assoc in Hk.
      assert (Hs := Split_app_sep SLASH [] (path_of true l) k).
      change [SLASH] with sep in Hs. rewrite Hs in Hk. clear Hs.
      assert (Hsp : forall q, Forall name_comp q -> q <> [] ->
                split_from sep None 0 [] (path_of true q) = [] :: q).
      { intros q Hq Hqe. change (split_from sep None 0 [] (path_of true q))
          with ([] :: Split (Join q sep) sep). f_equal. apply Split_Join; [done|].
        eapply Forall_impl; [exact Hq|]. by intros c (_&_&_&?). }
      rewrite (Hsp l) in Hk by done.
      destruct m as [|c m].
      * cbn in Hk. injection Hk as Hk. destruct l; [done|]. cbn in Hk.
        injection Hk as <- _. by apply Forall_inv in Hl as (? & _).
      * rewrite (Hsp (c :: m)) in Hk by done. cbn [app] in Hk. injection Hk as Hk.
        rewrite Hk. by apply prefix_app_r.
  - intros [r ->]. destruct r as [|y r]; [left; by rewrite app_nil_r|right].
    unfold path_of. rewrite (Join_app l (y :: r)) by done.
    exists (Join (y :: r) sep). by rewrite <- !app_assoc.
Qed.
