(* ===== verification/PathResolution.v ===== *)
(** * Path resolution and the acceptEdits check
    ([engine/permission/path_resolution.go], [accept_edits.go])

    Which filesystem representations of a path take part in an authorization
    decision, and when all of them lie inside the allowed roots. *)

From S2P Require Import Prelude GoStrings Regex ShellMatch Rules Paths.

(** ** The host

    The operating system and the state of the file system at the time of one
    resolution: [os.Lstat] gives the mode bits of an existing entry,
    [os.Readlink] the target of a link and [filepath.EvalSymlinks] the path
    with its links resolved; [None] is an error. *)
Class Host := {
  GOOS : bytes;
  Lstat : bytes -> option N;
  Readlink : bytes -> option bytes;
  EvalSymlinks : bytes -> option bytes;
}.

Definition ModeSymlink : N := N.shiftl 1 27.
Definition ModeDevice : N := N.shiftl 1 26.
Definition ModeNamedPipe : N := N.shiftl 1 25.
Definition ModeSocket : N := N.shiftl 1 24.
Definition ModeCharDevice : N := N.shiftl 1 21.

Definition isSpecialPermissionFile (mode : N) : bool :=
  negb (N.land mode
    (N.lor (N.lor (N.lor ModeNamedPipe ModeSocket) ModeDevice) ModeCharDevice) =? 0)%N.

Definition isUNCPath (path : bytes) : bool :=
  HasPrefix path (lit "//") || HasPrefix path (lit "\\").

(** ** Resolution *)

Definition maxPermissionSymlinkDepth : nat := 40.

Record PathResolution := {
  Logical : bytes;
  Paths : list bytes;
  Unsafe : bool;
}.

Definition mark_unsafe (r : PathResolution) : PathResolution :=
  {| Logical := Logical r; Paths := Paths r; Unsafe := true |}.

Definition Effective (r : PathResolution) : bytes :=
  match last (Paths r) with Some p => p | None => Logical r end.

Definition addPermissionPath (r : PathResolution) (path : bytes) : PathResolution :=
  let cleaned := Clean path in
  if bool_decide (cleaned ∈ Paths r) then r
  else {| Logical := Logical r; Paths := Paths r ++ [cleaned]; Unsafe := Unsafe r |}.

Section resolution.
Context `{Host}.

(** The target of the link [current], made absolute. *)
Definition link_target (current target : bytes) : bytes :=
  if IsAbs target then target else Join_path [Dir current; target].

(** The loop over the chain of links; the boolean says that the function
    returns at once. *)
Fixpoint follow_links (n : nat) (current : bytes) (visited : gset bytes)
    (r : PathResolution) : PathResolution * bool :=
  match n with
  | 0 => (r, false)
  | S n =>
      if bool_decide (current ∈ visited) then (mark_unsafe r, false)
      else
        match Lstat current with
        | None => (r, false)
        | Some mode =>
            if isSpecialPermissionFile mode then (mark_unsafe r, true)
            else if (N.land mode ModeSymlink =? 0)%N then (r, false)
            else
              match Readlink current with
              | None => (mark_unsafe r, false)
              | Some target =>
                  let next := Clean (link_target current target) in
                  follow_links n next ({[current]} ∪ visited) (addPermissionPath r next)
              end
        end
  end.

(** [resolveDeepestPermissionAncestor]; [None] is fuel running out. *)
Fixpoint deepest_ancestor (fuel : nat) (current : bytes) (tail : list bytes)
    : option bytes :=
  match fuel with
  | 0 => None
  | S fuel =>
      match Lstat current with
      | Some mode =>
          if isSpecialPermissionFile mode then Some []
          else if negb (N.land mode ModeSymlink =? 0)%N then
            match Readlink current with
            | None => Some []
            | Some target => Some (Join_path (Clean (link_target current target) :: tail))
            end
          else
            match EvalSymlinks current with
            | None => Some []
            | Some resolved => Some (Join_path (resolved :: tail))
            end
      | None =>
          let parent := Dir current in
          if parent ==b current then Some []
          else deepest_ancestor fuel parent (Base current :: tail)
      end
  end.

(** One step up per component, and the last one at the top. *)
Definition ancestor_fuel (path : bytes) : nat := length (clean_comps path) + 1.

Definition resolveDeepestPermissionAncestor (path : bytes) : bytes :=
  default [] (deepest_ancestor (ancestor_fuel path) path []).

Definition ResolvePermissionPath (path cwd : bytes) : PathResolution :=
  if path ==b [] then {| Logical := []; Paths := []; Unsafe := false |}
  else if isUNCPath path then {| Logical := path; Paths := [path]; Unsafe := true |}
  else
    let logical := Clean (if IsAbs path then path else Join_path [cwd; path]) in
    let result := addPermissionPath {| Logical := logical; Paths := []; Unsafe := false |}
                    logical in
    let '(result, returned) :=
      follow_links maxPermissionSymlinkDepth logical ∅ result in
    if returned then result
    else
      match EvalSymlinks logical with
      | Some resolved => addPermissionPath result resolved
      | None =>
          let resolved := resolveDeepestPermissionAncestor logical in
          if resolved <>b [] then addPermissionPath result resolved else result
      end.

Definition permissionPathWithin (path root : bytes) : bool :=
  let fold := (GOOS ==b lit "darwin") || (GOOS ==b lit "windows") in
  let path := if fold then ToLower path else path in
  let root := if fold then ToLower root else root in
  match Rel root path with
  | None => false
  | Some rel =>
      (rel ==b dot) || ((rel <>b dotdot) && negb (HasPrefix rel (dotdot ++ sep)))
  end.

Definition root_paths (roots : list bytes) : list bytes :=
  flat_map (fun root =>
    let resolved := ResolvePermissionPath root [] in
    if Unsafe resolved then [] else Paths resolved) roots.

Definition PermissionPathsWithinRoots (r : PathResolution) (roots : list bytes) : bool :=
  if Unsafe r || (length (Paths r) =? 0) || (length roots =? 0) then false
  else
    let rootPaths := root_paths roots in
    if length rootPaths =? 0 then false
    else forallb (fun path => existsb (permissionPathWithin path) rootPaths) (Paths r).

(** ** acceptEdits *)

Definition FileEditToolNames (toolName : bytes) : bool :=
  bool_decide (toolName ∈ map lit ["Write"; "Edit"]).

Definition AcceptEditsCheck (toolName : bytes) (i : input) (cwd : bytes)
    (additionalDirs : list bytes) : bool :=
  if cwd ==b [] then false
  else if FileEditToolNames toolName then
    let filePath := default [] (string_field i (lit "file_path")) in
    if filePath ==b [] then false
    else PermissionPathsWithinRoots (ResolvePermissionPath filePath cwd)
           (cwd :: additionalDirs)
  else false.

Definition isPathInWorkingDir (path cwd : bytes) : bool :=
  PermissionPathsWithinRoots (ResolvePermissionPath path cwd) [cwd].

(** ** Well-formed resolutions *)

(** The representations are clean and distinct and start with the logical
    path. *)
Definition resolution_wf (r : PathResolution) : Prop :=
  NoDup (Paths r) /\ Forall (fun p => Clean p = p) (Paths r) /\ Logical r ∈ Paths r.

Lemma addPermissionPath_wf r p : resolution_wf r -> resolution_wf (addPermissionPath r p).
Proof.
  intros (H1 & H2 & H3). unfold addPermissionPath.
  case_bool_decide as Hin; [by split_and!|]. split_and!; cbn.
  - apply NoDup_app. split_and!; [done| |apply NoDup_singleton]. set_solver.
  - apply Forall_app. split; [done|]. apply Forall_singleton. apply Clean_idemp.
  - set_solver.
Qed.

Lemma addPermissionPath_sub r p : Paths r ⊆ Paths (addPermissionPath r p).
Proof. unfold addPermissionPath. case_bool_decide; cbn; set_solver. Qed.

Lemma addPermissionPath_elem r p : Clean p ∈ Paths (addPermissionPath r p).
Proof. unfold addPermissionPath. case_bool_decide; cbn; set_solver. Qed.

Lemma addPermissionPath_Logical r p : Logical (addPermissionPath r p) = Logical r.
Proof. unfold addPermissionPath. by case_bool_decide. Qed.

Lemma mark_unsafe_wf r : resolution_wf r -> resolution_wf (mark_unsafe r).
Proof. done. Qed.

Lemma follow_links_wf n current visited r :
  resolution_wf r -> resolution_wf (follow_links n current visited r).1.
Proof.
  revert current visited r. induction n as [|n IH]; intros current visited r Hr; [done|].
  cbn [follow_links]. repeat case_match; cbn [fst]; auto using mark_unsafe_wf.
  apply IH. by apply addPermissionPath_wf.
Qed.

Lemma follow_links_Logical n current visited r :
  Logical (follow_links n current visited r).1 = Logical r.
Proof.
  revert current visited r. induction n as [|n IH]; intros current visited r; [done|].
  cbn [follow_links]. repeat case_match; cbn [fst]; auto.
  by rewrite IH, addPermissionPath_Logical.
Qed.

Lemma resolve_wf path cwd :
  path <> [] -> isUNCPath path = false -> resolution_wf (ResolvePermissionPath path cwd).
Proof.
  intros Hp Hu. unfold ResolvePermissionPath.
  rewrite bool_decide_eq_false_2 by done. rewrite Hu. cbv zeta.
  set (logical := Clean _).
  assert (H0 : resolution_wf (addPermissionPath
            {| Logical := logical; Paths := []; Unsafe := false |} logical)).
  { unfold addPermissionPath. cbn. unfold logical. rewrite Clean_idemp.
    split_and!; cbn; [apply NoDup_singleton| |set_solver].
    apply Forall_singleton. apply Clean_idemp. }
  apply (follow_links_wf maxPermissionSymlinkDepth logical ∅) in H0.
  destruct (follow_links _ _ _ _) as [r returned]. cbn [fst] in H0.
  repeat case_match; auto using addPermissionPath_wf.
Qed.

(** The climb to an existing ancestor ends at the root or at ["."]. *)
Lemma deepest_ancestor_total rooted l tail fuel :
  canonical rooted l -> length l < fuel ->
  is_Some (deepest_ancestor fuel (path_of rooted l) tail).
Proof.
  revert l tail. induction fuel as [|fuel IH]; intros l tail Hl Hf; [lia|].
  cbn [deepest_ancestor]. destruct (Lstat _) as [mode|].
  - repeat case_match; eauto.
  - destruct l as [|x l _] using rev_ind.
    + rewrite Dir_path_of_nil, bool_decide_eq_true_2; eauto.
    + rewrite Dir_path_of by done. case_match; [eauto|].
      rewrite length_app in Hf. cbn in Hf.
      apply IH; [by eapply canonical_prefix|lia].
Qed.

Lemma resolveDeepest_total path :
  Clean path = path -> is_Some (deepest_ancestor (ancestor_fuel path) path []).
Proof.
  intros Hc. rewrite <- Hc at 2. apply deepest_ancestor_total.
  - apply clean_comps_canonical.
  - unfold ancestor_fuel. lia.
Qed.

Lemma addPermissionPath_elem_of r q p : p ∈ Paths (addPermissionPath r q) <-> p ∈ Paths r \/ p = Clean q.
Proof. unfold addPermissionPath. case_bool_decide; cbn; set_solver. Qed.

Lemma addPermissionPath_Unsafe r q : Unsafe (addPermissionPath r q) = Unsafe r.
Proof. unfold addPermissionPath. by case_bool_decide. Qed.

(** ** What a resolution represents *)

(** [next] is what the link at [current] names. *)
Definition link_step (current next : bytes) : Prop :=
  exists mode target, Lstat current = Some mode /\ isSpecialPermissionFile mode = false /\
    (N.land mode ModeSymlink =? 0)%N = false /\ Readlink current = Some target /\
    next = Clean (link_target current target).

Definition logical_path (path cwd : bytes) : bytes := Clean (if IsAbs path then path else Join_path [cwd; path]).

(** The paths that a path in a directory stands for: itself, the links it follows
    one by one, and the file that the system finds, or, when it finds none, the
    path below its deepest existing ancestor. *)
Inductive represents (path cwd : bytes) : bytes -> Prop :=
| rep_logical : represents path cwd (logical_path path cwd)
| rep_link k p : k <= maxPermissionSymlinkDepth -> nsteps link_step k (logical_path path cwd) p -> represents path cwd p
| rep_target p : EvalSymlinks (logical_path path cwd) = Some p -> represents path cwd (Clean p)
| rep_ancestor p :
    EvalSymlinks (logical_path path cwd) = None -> resolveDeepestPermissionAncestor (logical_path path cwd) = p ->
    p <> [] -> represents path cwd (Clean p).

Lemma link_step_None x y : Lstat x = None -> ~ link_step x y.
Proof. intros E (mode & target & ? & _). congruence. Qed.

Lemma link_step_link x mode target y :
  Lstat x = Some mode -> Readlink x = Some target -> link_step x y -> y = Clean (link_target x target).
Proof. intros Hm Ht (m & t & Hm' & _ & _ & Ht' & ->). congruence. Qed.

(** The loop, when the resolution is safe: it lists the chain of links, and no
    file of the chain is special. *)
Lemma follow_links_chain n current visited r r' ret :
  follow_links n current visited r = (r', ret) -> Unsafe r' = false ->
  ret = false /\
  (forall p, p ∈ Paths r' <-> p ∈ Paths r \/ exists k, 0 < k <= n /\ nsteps link_step k current p) /\
  (forall k p mode, k < n -> nsteps link_step k current p -> Lstat p = Some mode -> isSpecialPermissionFile mode = false).
Proof.
  revert current visited r. induction n as [|n IH]; intros current visited r; cbn [follow_links].
  { intros [= <- <-] _. split_and!; [done| |lia]. intros p. split; [by left|]. intros [|(k & ? & _)]; [done|lia]. }
  case_bool_decide; [by intros [= <- <-]|].
  destruct (Lstat current) as [mode|] eqn:Em.
  2: { intros [= <- <-] _. split_and!; [done| |].
       - intros p. split; [by left|]. intros [|(k & Hk & Hs)]; [done|]. destruct Hs as [|k x y z Hxy _]; [lia|].
         by apply link_step_None in Hxy.
       - intros k p mode _ Hs Hp. destruct Hs as [|k x y z Hxy _]; [congruence|]. by apply link_step_None in Hxy. }
  destruct (isSpecialPermissionFile mode) eqn:Es; [by intros [= <- <-]|].
  assert (Hz : forall p m, nsteps link_step 0 current p -> Lstat p = Some m -> isSpecialPermissionFile m = false).
  { intros p m Hs Hp. inversion Hs; subst. congruence. }
  destruct (N.land mode ModeSymlink =? 0)%N eqn:El.
  { assert (Hno : forall y, ~ link_step current y) by (intros y (m & t & ? & _ & Hl & _); congruence).
    intros [= <- <-] _. split_and!; [done| |].
    - intros p. split; [by left|]. intros [|(k & Hk & Hs)]; [done|]. destruct Hs as [|k x y z Hxy _]; [lia|]. by apply Hno in Hxy.
    - intros k p m _ Hs. destruct Hs as [|k x y z Hxy _]; [apply Hz; constructor|]. by apply Hno in Hxy. }
  destruct (Readlink current) as [target|] eqn:Et; [|by intros [= <- <-]].
  intros E Hu. destruct (IH _ _ _ E Hu) as (-> & Hp & Hk).
  assert (Hstep : link_step current (Clean (link_target current target))) by by exists mode, target.
  split_and!; [done| |].
  - intros p. rewrite Hp, addPermissionPath_elem_of, Clean_idemp. split.
    + intros [[| ->]|(k & ? & Hs)]; [by left|right; exists 1|right; exists (S k)].
      * split; [lia|]. by eapply nsteps_once.
      * split; [lia|]. by econstructor.
    + intros [|(k & Hl & Hs)]; [by do 2 left|]. destruct Hs as [|k x y z Hxy Hs]; [lia|].
      rewrite (link_step_link x mode target y Em Et Hxy) in Hs. destruct k as [|k].
      * inversion Hs; subst. by left; right.
      * right. exists (S k). split; [lia|done].
  - intros k p m Hl Hs. destruct Hs as [|k x y z Hxy Hs]; [apply Hz; constructor|].
    rewrite (link_step_link x mode target y Em Et Hxy) in Hs. apply (Hk k); [lia|done].
Qed.

(** A safe resolution lists exactly the paths that the path represents. *)
Lemma resolution_represents path cwd :
  path <> [] -> Unsafe (ResolvePermissionPath path cwd) = false ->
  (forall p, p ∈ Paths (ResolvePermissionPath path cwd) <-> represents path cwd p) /\
  (forall k p mode, k < maxPermissionSymlinkDepth -> nsteps link_step k (logical_path path cwd) p ->
     Lstat p = Some mode -> isSpecialPermissionFile mode = false).
Proof.
  intros Hp. unfold ResolvePermissionPath. rewrite bool_decide_eq_false_2 by done.
  destruct (isUNCPath path); [done|]. cbv zeta. change (Clean (if IsAbs path then path else Join_path [cwd; path]))
    with (logical_path path cwd).
  set (l := logical_path path cwd). set (r0 := addPermissionPath {| Logical := l; Paths := []; Unsafe := false |} l).
  destruct (follow_links maxPermissionSymlinkDepth l ∅ r0) as [r ret] eqn:Ef.
  assert (Hl : Clean l = l) by apply Clean_idemp.
  assert (Hz : forall p, p ∈ Paths r0 <-> p = l).
  { intros p. unfold r0. rewrite addPermissionPath_elem_of, Hl. cbn. set_solver. }
  assert (Hchain : Unsafe r = false -> forall p,
    p ∈ Paths r <-> exists k, k <= maxPermissionSymlinkDepth /\ nsteps link_step k l p).
  { intros Hu p. destruct (follow_links_chain _ _ _ _ _ _ Ef Hu) as (_ & Hc & _). rewrite Hc, Hz. split.
    - intros [->|(k & ? & ?)]; [exists 0; split; [lia|constructor]|exists k; split; [lia|done]].
    - intros ([|k] & Hk & Hs); [inversion Hs; by left|]. right. exists (S k). split; [lia|done]. }
  destruct ret; [intros Hu; by destruct (follow_links_chain _ _ _ _ _ _ Ef Hu)|].
  assert (Hin : Unsafe r = false -> forall p, p ∈ Paths r -> represents path cwd p).
  { intros Hu p Hq. apply (Hchain Hu) in Hq as (k & Hk & Hs). by eapply rep_link. }
  assert (Hout : Unsafe r = false -> forall k p, k <= maxPermissionSymlinkDepth -> nsteps link_step k l p -> p ∈ Paths r)
    by (intros Hu k p Hk Hs; apply (Hchain Hu); by exists k).
  assert (Hself : Unsafe r = false -> l ∈ Paths r) by (intros Hu; apply (Hout Hu 0); [lia|constructor]).
  assert (Hsp := follow_links_chain _ _ _ _ _ _ Ef).
  destruct (EvalSymlinks l) as [q|] eqn:Eq; [|destruct (bool_decide_reflect (resolveDeepestPermissionAncestor l = [])) as [Hd|Hd]];
    cbn [negb]; rewrite ?addPermissionPath_Unsafe; intros Hu; (split; [|by apply (Hsp Hu)]); intros p;
    rewrite ?addPermissionPath_elem_of.
  - split; [intros [?| ->]; [by apply Hin|by apply rep_target]|].
    intros [|k p' Hk Hs|p' He|p' He]; [left; by apply Hself|left; by eapply Hout|right; fold l in He; congruence|].
    fold l in He. congruence.
  - split; [by apply Hin|].
    intros [|k p' Hk Hs|p' He|p' He Hr]; [by apply Hself|by eapply Hout|fold l in He; congruence|].
    fold l in Hr. congruence.
  - split; [intros [?| ->]; [by apply Hin|by eapply rep_ancestor]|].
    intros [|k p' Hk Hs|p' He|p' He Hr Hn]; [left; by apply Hself|left; by eapply Hout|fold l in He; congruence|].
    right. fold l in Hr. congruence.
Qed.

Lemma within_roots r roots :
  PermissionPathsWithinRoots r roots = true <->
  Unsafe r = false /\ Paths r <> [] /\
  forall p, p ∈ Paths r ->
    exists root rp, root ∈ roots /\ Unsafe (ResolvePermissionPath root []) = false /\
                    rp ∈ Paths (ResolvePermissionPath root []) /\
                    permissionPathWithin p rp = true.
Proof.
  assert (Hroots : forall rp, rp ∈ root_paths roots <->
    exists root, root ∈ roots /\ Unsafe (ResolvePermissionPath root []) = false /\ rp ∈ Paths (ResolvePermissionPath root [])).
  { intros rp. unfold root_paths. rewrite list_elem_of_In, in_flat_map. setoid_rewrite <- list_elem_of_In.
    split; intros (root & Hr & Hx); exists root; destruct (Unsafe _); set_solver. }
  unfold PermissionPathsWithinRoots. destruct (Unsafe r); [by split; [|intros []]|]. cbn [orb].
  destruct (Paths r) as [|p0 ps] eqn:Ep; [by split; [|intros (_ & ? & _)]|]. cbn [length Nat.eqb orb].
  set (paths := p0 :: ps). split.
  - intros Hw. split_and!; [done|done|]. intros p Hp. destruct (_ =? 0); [done|]. destruct (_ =? 0); [done|].
    rewrite forallb_elem_of in Hw. apply Hw, existsb_elem_of in Hp as (rp & (root & ? & ? & ?)%Hroots & ?).
    by exists root, rp.
  - intros (_ & _ & Hall).
    assert (Hex : forall p, p ∈ paths -> exists rp, rp ∈ root_paths roots /\ permissionPathWithin p rp = true).
    { intros p Hp. destruct (Hall p Hp) as (root & rp & ? & ? & ? & ?). exists rp. rewrite Hroots. eauto. }
    destruct (Hall p0 ltac:(by left)) as (root & rp & Hr & Hu & Hrp & _).
    assert (Hin : rp ∈ root_paths roots) by (apply Hroots; eauto).
    rewrite (proj2 (Nat.eqb_neq (length roots) 0)) by (intros Hn%length_zero_iff_nil; subst; by apply not_elem_of_nil in Hr).
    rewrite (proj2 (Nat.eqb_neq (length (root_paths roots)) 0))
      by (intros Hn%length_zero_iff_nil; rewrite Hn in Hin; by apply not_elem_of_nil in Hin).
    apply forallb_elem_of. intros p Hp. apply existsb_elem_of. by apply Hex.
Qed.

(** The text compared on this operating system. *)
Definition case_folded (p : bytes) : bytes :=
  if (GOOS ==b lit "darwin") || (GOOS ==b lit "windows") then ToLower p else p.

Lemma permissionPathWithin_folded path root :
  permissionPathWithin path root =
  match Rel (case_folded root) (case_folded path) with
  | Some rel => rel_inside rel | None => false end.
Proof. unfold permissionPathWithin, case_folded, rel_inside. by repeat case_match. Qed.
End resolution.

(** A host for the concrete examples: an empty file system. *)
Module Example_host.
Export Example_format.
#[export] Instance no_files : Host := {|
  GOOS := lit "linux"; Lstat := fun _ => None; Readlink := fun _ => None;
  EvalSymlinks := fun _ => None |}.
End Example_host.

(** ** Properties *)

Section path_properties.
Context `{Host}.

(** For absolute paths, being within a root is having the root's components
    as a prefix, after case folding on the systems that ignore case: a
    sibling directory whose name merely extends the root's is outside. *)
Theorem within_is_component_prefix path root :
  IsAbs (case_folded path) = true -> IsAbs (case_folded root) = true ->
  permissionPathWithin path root =
  bool_decide (clean_comps (case_folded root) `prefix_of` clean_comps (case_folded path)).
Proof. intros Hp Hr. rewrite permissionPathWithin_folded. by apply Rel_inside. Qed.

(** A resolution lists clean, distinct paths, among them the logical path,
    and the climb to an existing ancestor always ends. *)
Theorem resolution_well_formed path cwd :
  path <> [] -> isUNCPath path = false ->
  let r := ResolvePermissionPath path cwd in
  NoDup (Paths r) /\ Forall (fun p => Clean p = p) (Paths r) /\ Logical r ∈ Paths r /\
  Logical r = Clean (if IsAbs path then path else Join_path [cwd; path]) /\
  is_Some (deepest_ancestor (ancestor_fuel (Logical r)) (Logical r) []).
Proof.
  intros Hp Hu. cbv zeta. destruct (resolve_wf path cwd Hp Hu) as (H1 & H2 & H3).
  assert (Hlog : Logical (ResolvePermissionPath path cwd)
                 = Clean (if IsAbs path then path else Join_path [cwd; path])).
  { unfold ResolvePermissionPath. rewrite bool_decide_eq_false_2 by done. rewrite Hu. cbv zeta.
    set (logical := Clean _). assert (Hf := follow_links_Logical maxPermissionSymlinkDepth logical ∅
      (addPermissionPath {| Logical := logical; Paths := []; Unsafe := false |} logical)).
    rewrite addPermissionPath_Logical in Hf. destruct (follow_links _ _ _ _) as [r ret].
    cbn [fst Logical] in Hf.
    repeat case_match; rewrite ?addPermissionPath_Logical; done. }
  split_and!; [done..|]. apply resolveDeepest_total. rewrite Hlog. apply Clean_idemp.
Qed.

Lemma within_prefix path root :
  permissionPathWithin path root = true -> IsAbs (case_folded path) = true ->
  IsAbs (case_folded root) = true /\ clean_comps (case_folded root) `prefix_of` clean_comps (case_folded path).
Proof.
  intros Hw Hp. assert (Hr : IsAbs (case_folded root) = true).
  { revert Hw. rewrite permissionPathWithin_folded. unfold Rel.
    destruct (bool_decide_reflect (Clean (case_folded path) = Clean (case_folded root))) as [Heq|_].
    - intros _. by rewrite <- Clean_abs, <- Heq, Clean_abs.
    - destruct (bool_decide_reflect (Clean (case_folded root) = dot)) as [Hd|_].
      + cbn [IsAbs]. rewrite Clean_abs, Hp. done.
      + rewrite !Clean_abs, Hp. by destruct (IsAbs (case_folded root)). }
  split; [done|]. rewrite permissionPathWithin_folded, Rel_inside in Hw by done. by apply bool_decide_eq_true in Hw.
Qed.

End path_properties.

Section path_examples.
Import Example_host.

Lemma within_is_component_prefix_witness :
  permissionPathWithin (lit "/home/u/proj-evil/x") (lit "/home/u/proj") =
  bool_decide (clean_comps (case_folded (lit "/home/u/proj"))
               `prefix_of` clean_comps (case_folded (lit "/home/u/proj-evil/x"))).
Proof.
  apply (within_is_component_prefix (lit "/home/u/proj-evil/x") (lit "/home/u/proj"));
    by vm_compute.
Defined.

Lemma resolution_well_formed_witness :
  NoDup (Paths (ResolvePermissionPath (lit "a/../b") (lit "/p"))).
Proof. apply (resolution_well_formed (lit "a/../b") (lit "/p")); by vm_compute. Defined.

(** A file system in which every path exists and is an ordinary file. *)
Definition plain_files : Host := {|
  GOOS := lit "linux"; Lstat := fun _ => Some 0%N; Readlink := fun _ => None;
  EvalSymlinks := fun p => Some p |}.

End path_examples.
