(* ===== verification/PathValidation.v ===== *)
(** * File path validation ([engine/permission/path_validation.go])

    Which file operations are allowed on a path, given the project directory:
    system directories, paths outside the project and sensitive files. *)

From S2P Require Import Prelude GoStrings Paths.

Record PathValidationResult := {
  Allowed : bool;
  Reason : bytes;
  RequiresAsk : bool;
}.

Record sensitivePathPattern := {
  sp_Pattern : bytes;
  sp_Description : bytes;
  sp_Operations : list bytes;
}.

Definition sensitive (pattern description : string) (ops : list string) : sensitivePathPattern :=
  {| sp_Pattern := lit pattern; sp_Description := lit description;
     sp_Operations := map lit ops |}.

Definition sensitivePathPatterns : list sensitivePathPattern := [
  sensitive ".env" "Environment file with secrets" ["read"; "write"];
  sensitive ".env.*" "Environment file variant" ["read"; "write"];
  sensitive "*.pem" "PEM certificate/key file" ["read"];
  sensitive "*.key" "Private key file" ["read"];
  sensitive "id_rsa" "SSH private key" ["read"];
  sensitive "id_ed25519" "SSH private key" ["read"];
  sensitive "credentials.json" "Credentials file" ["read"];
  sensitive ".git/config" "Git config (may contain tokens)" ["write"];
  sensitive ".git/hooks/*" "Git hooks (code execution)" ["write"];
  sensitive ".claude/settings.json" "Claude settings" ["write"];
  sensitive ".claude/settings.local.json" "Claude local settings" ["write"]
].

Definition systemPaths : list bytes :=
  map lit ["/etc/"; "/usr/"; "/bin/"; "/sbin/"; "/boot/"; "/sys/"; "/proc/"].

Definition NormalizePath (path cwd : bytes) : bytes :=
  if IsAbs path then Clean path
  else if cwd ==b [] then Clean path
  else Clean (Join_path [cwd; path]).

Definition IsSystemPath (path : bytes) : bool :=
  let cleaned := Clean path in
  existsb (HasPrefix cleaned) systemPaths.

Definition IsOutsideProject (path cwd : bytes) : bool :=
  if cwd ==b [] then false
  else
    let normalized := NormalizePath path cwd in
    let cwdClean := Clean cwd in
    let cwdPrefix := cwdClean ++ sep in
    if normalized ==b cwdClean then false
    else negb (HasPrefix normalized cwdPrefix).

Fixpoint operationBlocked (blockedOps : list bytes) (operation : bytes) : bool :=
  match blockedOps with
  | [] => false
  | op :: ops =>
      if op ==b lit "all" then true
      else if op ==b operation then true
      else if (op ==b lit "write")
              && ((operation ==b lit "create") || (operation ==b lit "delete")) then true
      else operationBlocked ops operation
  end.

Definition matchSensitivePattern (pattern fullPath baseName : bytes) : bool :=
  let comparePattern := ToLower pattern in
  let comparePath := ToLower fullPath in
  let compareBase := ToLower baseName in
  if Contains pattern sep then
    let patternClean := Clean comparePattern in
    if HasSuffix comparePath (sep ++ patternClean) then true
    else
      let parts := Split comparePath sep in
      let patternParts := Split patternClean sep in
      if length patternParts <=? length parts then
        let tail := Join (drop (length parts - length patternParts) parts) sep in
        Match patternClean tail
      else false
  else if Match comparePattern compareBase then true
  else if HasPrefix comparePattern (lit ".env") then Match comparePattern compareBase
  else false.

Fixpoint sensitive_match (patterns : list sensitivePathPattern) (path base operation : bytes)
    : bool * bytes :=
  match patterns with
  | [] => (false, [])
  | sp :: rest =>
      if negb (operationBlocked (sp_Operations sp) operation)
      then sensitive_match rest path base operation
      else if matchSensitivePattern (sp_Pattern sp) path base
      then (true, sp_Description sp)
      else sensitive_match rest path base operation
  end.

Definition IsSensitivePath (path operation : bytes) : bool * bytes :=
  sensitive_match sensitivePathPatterns path (Base path) operation.

Definition refuse (reason : bytes) : PathValidationResult :=
  {| Allowed := false; Reason := reason; RequiresAsk := false |}.

Definition ValidateFilePath (path operation cwd : bytes) : PathValidationResult :=
  if path ==b [] then refuse (lit "empty file path")
  else
    let normalized := NormalizePath path cwd in
    if IsSystemPath normalized then
      refuse (lit "path is in a system directory: " ++ normalized)
    else if IsOutsideProject normalized cwd then
      if operation ==b lit "read" then
        {| Allowed := true;
           Reason := lit "reading outside project directory requires confirmation";
           RequiresAsk := true |}
      else refuse (lit "path is outside the project directory: " ++ normalized)
    else
      let '(is_sensitive, desc) := IsSensitivePath normalized operation in
      if is_sensitive then
        {| Allowed := false;
           Reason := lit "path matches sensitive pattern: " ++ desc;
           RequiresAsk := true |}
      else
        {| Allowed := true; Reason := lit "path is within project and not sensitive";
           RequiresAsk := false |}.

(** ** Lemmas *)

(** Joining onto a rooted directory gives a rooted path. *)
Lemma Join_path_abs cwd path :
  IsAbs cwd = true -> IsAbs (Join_path [cwd; path]) = true.
Proof.
  intros H. destruct cwd as [|c cwd]; [done|]. cbn [Join_path].
  rewrite bool_decide_eq_false_2 by done. rewrite Clean_abs.
  cbn [Join app]. by rewrite IsAbs_cons in *.
Qed.

Lemma NormalizePath_abs path cwd : IsAbs cwd = true -> IsAbs (NormalizePath path cwd) = true.
Proof.
  intros H. unfold NormalizePath. destruct (IsAbs path) eqn:E; [by rewrite Clean_abs|].
  destruct cwd as [|c cwd]; [done|]. rewrite bool_decide_eq_false_2 by done.
  rewrite Clean_abs. by apply Join_path_abs.
Qed.

Lemma NormalizePath_clean path cwd : Clean (NormalizePath path cwd) = NormalizePath path cwd.
Proof. unfold NormalizePath. repeat case_match; apply Clean_idemp. Qed.

Lemma NormalizePath_idemp path cwd :
  IsAbs cwd = true -> NormalizePath (NormalizePath path cwd) cwd = NormalizePath path cwd.
Proof.
  intros H. unfold NormalizePath at 1. rewrite NormalizePath_abs by done.
  apply NormalizePath_clean.
Qed.

(** Inside the project means that the directory's components are a prefix. *)
Lemma IsOutsideProject_comps path cwd :
  IsAbs cwd = true -> clean_comps cwd <> [] ->
  IsOutsideProject path cwd =
  negb (bool_decide (clean_comps cwd `prefix_of` clean_comps (NormalizePath path cwd))).
Proof.
  intros Hc Hne. unfold IsOutsideProject.
  rewrite bool_decide_eq_false_2 by (by intros ->).
  set (n := NormalizePath path cwd).
  assert (Hn : IsAbs n = true) by (by apply NormalizePath_abs).
  assert (En : n = path_of true (clean_comps n)).
  { rewrite <- Hn. symmetry. apply NormalizePath_clean. }
  assert (Ec : Clean cwd = path_of true (clean_comps cwd)) by (unfold Clean; by rewrite Hc).
  assert (Nc := clean_comps_canonical cwd). rewrite Hc, canonical_rooted in Nc.
  assert (Nn := clean_comps_canonical n). rewrite Hn, canonical_rooted in Nn.
  assert (B := below_prefix _ _ Nc Nn Hne). rewrite <- En, <- Ec in B.
  cbv zeta. destruct (n ==b Clean cwd) eqn:E; breflect.
  - rewrite bool_decide_eq_true_2; [done|]. apply B. by left.
  - f_equal. unfold HasPrefix. apply bool_decide_ext. rewrite <- B. naive_solver.
Qed.

Lemma sensitive_match_none patterns path base op :
  (sensitive_match patterns path base op).1 = false <->
  forall sp, sp ∈ patterns -> operationBlocked (sp_Operations sp) op = true ->
             matchSensitivePattern (sp_Pattern sp) path base = false.
Proof.
  induction patterns as [|sp l IH]; cbn [sensitive_match].
  - split; [|done]. intros _ sp Hsp. by apply not_elem_of_nil in Hsp.
  - destruct (operationBlocked (sp_Operations sp) op) eqn:E1; cbn [negb].
    + destruct (matchSensitivePattern (sp_Pattern sp) path base) eqn:E2; cbn [fst].
      * split; [done|]. intros Hall. rewrite <- E2. apply Hall; [set_solver|done].
      * rewrite IH. split; intros Hall sp'; [|set_solver].
        intros [->|Hin]%elem_of_cons; auto.
    + rewrite IH. split; intros Hall sp'; [|set_solver].
      intros [->|Hin]%elem_of_cons; [congruence|auto].
Qed.

(** ** Properties *)

(** A path that [ValidateFilePath] accepts for [operation] without asking: it
    is inside the project by its components, in no system directory, and
    matches no pattern protected against the operation. *)
Definition safe_path (path operation cwd : bytes) : Prop :=
  let n := NormalizePath path cwd in
  path <> [] /\ IsSystemPath n = false /\
  clean_comps cwd `prefix_of` clean_comps n /\
  forall sp, sp ∈ sensitivePathPatterns -> operationBlocked (sp_Operations sp) operation = true ->
    matchSensitivePattern (sp_Pattern sp) n (Base n) = false.

(** In a project directory other than the root, an operation is allowed
    without a question exactly on the safe paths; the only other operation
    allowed is a read outside the project and the system directories, which
    asks. *)
Theorem ValidateFilePath_spec path operation cwd :
  IsAbs cwd = true -> clean_comps cwd <> [] ->
  let v := ValidateFilePath path operation cwd in
  let n := NormalizePath path cwd in
  (Allowed v = true /\ RequiresAsk v = false <-> safe_path path operation cwd) /\
  (Allowed v = true /\ RequiresAsk v = true <->
     operation = lit "read" /\ path <> [] /\ IsSystemPath n = false /\
     ~ clean_comps cwd `prefix_of` clean_comps n).
Proof.
  intros Hc Hne. unfold ValidateFilePath, safe_path. cbv zeta.
  set (n := NormalizePath path cwd).
  destruct (path ==b []) eqn:Ep; breflect; [naive_solver|].
  destruct (IsSystemPath n) eqn:Es; [naive_solver|].
  assert (Hn : NormalizePath n cwd = n) by (by apply NormalizePath_idemp).
  rewrite (IsOutsideProject_comps n), Hn by done.
  destruct (bool_decide (clean_comps cwd `prefix_of` clean_comps n)) eqn:Eo; breflect; cbn [negb].
  - unfold IsSensitivePath. rewrite <- (sensitive_match_none sensitivePathPatterns).
    destruct (sensitive_match _ _ _ _) as [b d]. destruct b; cbn; naive_solver.
  - destruct (operation ==b lit "read") eqn:Er; breflect; cbn; naive_solver.
Qed.

Lemma ValidateFilePath_spec_witness :
  Allowed (ValidateFilePath (lit "src/../src/a.go") (lit "write") (lit "/home/u/proj")) = true /\
  safe_path (lit "src/../src/a.go") (lit "write") (lit "/home/u/proj").
Proof.
  split; [by vm_compute|].
  apply (ValidateFilePath_spec (lit "src/../src/a.go") (lit "write") (lit "/home/u/proj"));
    [by vm_compute | by vm_compute | by vm_compute].
Defined.

(** With the file system root as working directory every other path counts as
    outside the project: the prefix compared is ["//"]. *)
Theorem IsOutsideProject_root_cwd path :
  IsAbs path = true -> clean_comps path <> [] -> IsOutsideProject path (lit "/") = true.
Proof.
  intros Ha Hne. unfold IsOutsideProject, NormalizePath. rewrite Ha.
  change (Clean (lit "/")) with sep.
  rewrite (bool_decide_eq_false_2 (lit "/" = [])) by done.
  assert (Hp := clean_comps_canonical path). rewrite Ha in Hp.
  unfold Clean. rewrite Ha. destruct (clean_comps path) as [|c l] eqn:E; [done|].
  destruct (canonical_head _ _ _ Hp) as [H1 H2].
  destruct c as [|a c]; [done|].
  assert (Hs : a <> SLASH) by (intros ->; apply H2; set_solver).
  assert (Htxt : exists k, path_of true ((a :: c) :: l) = SLASH :: a :: k).
  { destruct l; cbn; eauto. }
  destruct Htxt as [k ->]. cbv zeta. rewrite (bool_decide_eq_false_2 (_ = sep)) by done.
  cbn [app sep]. unfold sep. cbn [app]. rewrite HasPrefix_cons, HasPrefix_cons_ne; done.
Qed.

Lemma IsOutsideProject_root_cwd_witness : IsOutsideProject (lit "/a.txt") (lit "/") = true.
Proof. apply IsOutsideProject_root_cwd; [by vm_compute | by vm_compute]. Defined.
