(* ===== verification/Persist.v ===== *)
(** * Rule strings in settings files
    ([engine/permission/loader.go], [engine/permission/persist.go])

    Parsing and printing of ["Tool(content)"], the loading order of the
    settings files, the read-merge-write step on a settings document, and the
    rules built from an invocation. *)

From S2P Require Import Prelude GoStrings Regex ShellMatch ShellMatchFacts Rules Precedence.
From S2P Require Import SessionStore Paths PathResolution.

(** ** Parsing ([loader.go]) *)

(** [findFirstUnescaped]: [i] is the index of the first byte of [s], [before]
    the text before it, in reverse. *)
Fixpoint first_unescaped (ch : ascii) (i : nat) (before s : bytes) : option nat :=
  match s with
  | [] => None
  | c :: s' =>
      if (c ==b ch) && Nat.even (count_backslashes before) then Some i
      else first_unescaped ch (S i) (c :: before) s'
  end.

Definition findFirstUnescaped (s : bytes) (ch : ascii) : option nat :=
  first_unescaped ch 0 [] s.

Fixpoint last_unescaped (ch : ascii) (i : nat) (before s : bytes) : option nat :=
  match s with
  | [] => None
  | c :: s' =>
      match last_unescaped ch (S i) (c :: before) s' with
      | Some j => Some j
      | None => if (c ==b ch) && Nat.even (count_backslashes before) then Some i else None
      end
  end.

Definition findLastUnescaped (s : bytes) (ch : ascii) : option nat :=
  last_unescaped ch 0 [] s.

Definition LPAREN : ascii := "("%char.
Definition RPAREN : ascii := ")"%char.

Definition escapable (c : ascii) : bool :=
  (c ==b LPAREN) || (c ==b RPAREN) || (c ==b BSLASH).

Fixpoint unescapeRuleContent (s : bytes) : bytes :=
  match s with
  | [] => []
  | c :: s1 =>
      match s1 with
      | [] => [c]
      | next :: s2 =>
          if (c ==b BSLASH) && escapable next then next :: unescapeRuleContent s2
          else c :: unescapeRuleContent s1
      end
  end.

Definition parseRuleValueString (s : bytes) : bytes * bytes :=
  match findFirstUnescaped s LPAREN with
  | None => (s, [])
  | Some openIdx =>
      match findLastUnescaped s RPAREN with
      | None => (s, [])
      | Some closeIdx =>
          if (closeIdx <=? openIdx) || negb (closeIdx =? length s - 1) then (s, [])
          else
            let toolName := take openIdx s in
            if toolName ==b [] then (s, [])
            else
              let rawContent := slice s (openIdx + 1) closeIdx in
              if (rawContent ==b []) || (rawContent ==b lit "*") then (toolName, [])
              else (toolName, unescapeRuleContent rawContent)
      end
  end.

Definition parseRuleValue (ruleStr : bytes) (action : PermissionAction) (source : bytes)
    : PermissionRule :=
  let '(toolName, inputPattern) := parseRuleValueString ruleStr in
  {| ToolName := toolName; InputPattern := inputPattern; Action := action; Source := source |}.

Record settingsPermissions := {
  sp_Allow : list bytes;
  sp_Deny : list bytes;
  sp_Ask : list bytes;
}.

Definition parsePermissionSection (perms : settingsPermissions) (source : bytes)
    : list PermissionRule :=
  map (fun r => parseRuleValue r ActionAllow source) (sp_Allow perms)
  ++ map (fun r => parseRuleValue r ActionDeny source) (sp_Deny perms)
  ++ map (fun r => parseRuleValue r ActionAsk source) (sp_Ask perms).

Record settingsJSON := {
  sj_Permissions : option settingsPermissions;
  sj_PermissionRules : list bytes;
}.

Definition with_source (source : bytes) (r : PermissionRule) : PermissionRule :=
  {| ToolName := ToolName r; InputPattern := InputPattern r;
     Action := Action r; Source := source |}.

(** A settings file as [os.ReadFile] and [json.Unmarshal] present it. *)
Inductive settings_file : Type :=
| SettingsMissing
| SettingsUnreadable (err : bytes)
| SettingsMalformed
| SettingsRead (s : settingsJSON).

Definition legacy_rules (source : bytes) (l : list bytes) : list PermissionRule :=
  omap (fun ruleStr => match ParseRuleString ruleStr with
                       | Ok rule => Some (with_source source rule)
                       | Err _ => None
                       end) l.

Definition loadRulesFromFile (file : settings_file) (source : bytes)
    : result bytes (list PermissionRule) :=
  match file with
  | SettingsMissing => Ok []
  | SettingsUnreadable err => Err err
  | SettingsMalformed => Ok []
  | SettingsRead settings =>
      Ok (match sj_Permissions settings with
          | Some perms => parsePermissionSection perms source
          | None => []
          end ++ legacy_rules source (sj_PermissionRules settings))
  end.

(** The three files, local, project and user, in the order they are read. *)
Definition LoadPermissionRules (localFile projectFile userFile : settings_file)
    : result bytes (list PermissionRule) :=
  match loadRulesFromFile localFile SourceLocal with
  | Err e => Err e
  | Ok localRules =>
      match loadRulesFromFile projectFile SourceProject with
      | Err e => Err e
      | Ok projectRules =>
          match loadRulesFromFile userFile SourceUser with
          | Err e => Err e
          | Ok userRules => Ok (localRules ++ projectRules ++ userRules)
          end
      end
  end.

(** ** Printing ([persist.go]) *)

Fixpoint escapeRuleContent (s : bytes) : bytes :=
  match s with
  | [] => []
  | c :: s' =>
      if escapable c then BSLASH :: c :: escapeRuleContent s'
      else c :: escapeRuleContent s'
  end.

Definition FormatRuleString (toolName inputPattern : bytes) : bytes :=
  if inputPattern ==b [] then toolName
  else toolName ++ lit "(" ++ escapeRuleContent inputPattern ++ lit ")".

Definition normalizeRule (rule : bytes) : bytes :=
  let '(toolName, inputPattern) := parseRuleValueString rule in
  FormatRuleString toolName inputPattern.

Definition resolvePath (cwd path : bytes) : bytes :=
  if path ==b [] then cwd
  else Clean (if IsAbs path then path else Join_path [cwd; path]).

Definition BuildRuleFromInvocation (toolName : bytes) (i : input) (cwd : bytes) : bytes :=
  if toolName ==b lit "Bash" then
    let cmd := TrimSpace (default [] (string_field i (lit "command"))) in
    if cmd ==b [] then toolName
    else
      match Fields cmd with
      | p0 :: _ :: _ => FormatRuleString toolName (p0 ++ lit " *")
      | _ => FormatRuleString toolName cmd
      end
  else if (toolName ==b lit "Read") || (toolName ==b lit "Write")
          || (toolName ==b lit "Edit") then
    let path := default [] (string_field i (lit "file_path")) in
    if path ==b [] then toolName
    else FormatRuleString toolName (Dir (resolvePath cwd path) ++ lit "/*")
  else if (toolName ==b lit "Grep") || (toolName ==b lit "Glob") then
    let path := default [] (string_field i (lit "path")) in
    let path := if path ==b [] then cwd else path in
    FormatRuleString toolName (resolvePath cwd path ++ lit "/*")
  else toolName.

Fixpoint escapeExactRuleWildcards (pattern : bytes) : bytes :=
  match pattern with
  | [] => []
  | c :: p =>
      if (c ==b "*"%char) || (c ==b BSLASH) then BSLASH :: c :: escapeExactRuleWildcards p
      else c :: escapeExactRuleWildcards p
  end.

Record ExactInvocationRule := {
  er_Value : bytes;
  er_Rule : PermissionRule;
}.

Inductive exact_error : Type :=
| ErrNoToolName
| ErrNoScopedInput (toolName : bytes)
| ErrNoCommand
| ErrNoPath (toolName key : bytes)
| ErrUnsafePath (toolName : bytes)
| ErrMarshal (toolName : bytes)
| ErrNotRepresentable (toolName : bytes)
| ErrNoRoundTrip (toolName : bytes).

Section exact_rule.
Context `{GoFormat, Host}.

Definition exactResolvedPathRule (toolName key : bytes) (i roundTripInput : input)
    (cwd : bytes) : result exact_error (bytes * input) :=
  let rawPath := default [] (string_field i key) in
  if TrimSpace rawPath ==b [] then Err (ErrNoPath toolName key)
  else
    let resolution := ResolvePermissionPath rawPath cwd in
    if Unsafe resolution || (Effective resolution ==b []) then Err (ErrUnsafePath toolName)
    else
      let effective := Effective resolution in
      Ok (effective, <[key := AStr effective]> roundTripInput).

Definition exactInvocationRulePattern (toolName : bytes) (i : input) (cwd : bytes)
    : result exact_error (bytes * input) :=
  if toolName ==b lit "Bash" then
    let command := TrimSpace (default [] (string_field i (lit "command"))) in
    if command ==b [] then Err ErrNoCommand
    else Ok (command, <[lit "command" := AStr command]> i)
  else if (toolName ==b lit "Read") || (toolName ==b lit "Write")
          || (toolName ==b lit "Edit") then
    exactResolvedPathRule toolName (lit "file_path") i i cwd
  else if toolName ==b lit "NotebookEdit" then
    exactResolvedPathRule toolName (lit "notebook_path") i i cwd
  else if (toolName ==b lit "Grep") || (toolName ==b lit "Glob") then
    let path := default [] (string_field i (lit "path")) in
    let path := if TrimSpace path ==b [] then cwd else path in
    let roundTripInput := <[lit "path" := AStr path]> i in
    exactResolvedPathRule toolName (lit "path") roundTripInput roundTripInput cwd
  else
    match json_Marshal i with
    | None => Err (ErrMarshal toolName)
    | Some encoded => Ok (encoded, i)
    end.

Definition BuildExactRuleFromInvocation (toolName0 : bytes) (i : input) (cwd : bytes)
    : result exact_error ExactInvocationRule :=
  let toolName := TrimSpace toolName0 in
  if toolName ==b [] then Err ErrNoToolName
  else if size i =? 0 then Err (ErrNoScopedInput toolName)
  else
    match exactInvocationRulePattern toolName i cwd with
    | Err e => Err e
    | Ok (pattern, roundTripInput) =>
        if pattern ==b [] then Err (ErrNotRepresentable toolName)
        else
          let value := FormatRuleString toolName (escapeExactRuleWildcards pattern) in
          let rule := parseRuleValue value ActionAllow [] in
          let decision := EvaluateDecision (Some (NewRulesEngine [rule])) toolName
                            roundTripInput in
          if negb (rd_Matched decision) || (rd_Action decision <>b ActionAllow)
             || negb (rd_ToolExact decision) || negb (rd_InputExact decision)
          then Err (ErrNoRoundTrip toolName)
          else Ok {| er_Value := value; er_Rule := rule |}
    end.
End exact_rule.

(** ** The settings document

    A document and its ["permissions"] section map keys to JSON values (the
    [json.RawMessage]s of the source, taken by their value). *)

Abbreviation document := (gmap bytes any).

(** [json.Unmarshal] into [[]string] succeeds on null and on arrays of strings
    and nulls. *)
Definition string_array (v : any) : bool :=
  match v with
  | ANil => true
  | AArr l => forallb (fun x => match x with AStr _ | ANil => true | _ => false end) l
  | _ => false
  end.

Definition toStringSlice (l : list any) : list bytes :=
  omap (fun x => match x with AStr s => Some s | _ => None end) l.

Definition permissionSettingsRules (raw : option any) : list bytes :=
  match raw with Some (AArr l) => toStringSlice l | _ => [] end.

Inductive settings_error : Type := ErrSettingsInvalid.

(** An object as a map; the last of several equal keys wins. *)
Definition object_map (l : list (bytes * any)) : document := list_to_map (reverse l).

Definition strictPermissionSettingsSection (fields : document)
    : result settings_error document :=
  let perms :=
    match fields !! lit "permissions" with
    | None | Some ANil => Some ∅
    | Some (AObj l) => Some (object_map l)
    | Some _ => None
    end in
  match perms with
  | None => Err ErrSettingsInvalid
  | Some perms =>
      if forallb (fun action =>
           match perms !! action_string action with
           | Some raw => string_array raw
           | None => true
           end) [ActionAllow; ActionDeny; ActionAsk]
      then Ok perms
      else Err ErrSettingsInvalid
  end.

Inductive settings_operation : Type := OpAdd | OpRemove.

(** The loop that appends the rules not seen yet. *)
Fixpoint add_rules (existing : list bytes) (seen : gset bytes) (changed : bool)
    (rules : list bytes) : list bytes * bool :=
  match rules with
  | [] => (existing, changed)
  | rule :: rest =>
      let n := normalizeRule rule in
      if bool_decide (n ∈ seen) then add_rules existing seen changed rest
      else add_rules (existing ++ [rule]) ({[n]} ∪ seen) true rest
  end.

Definition keep_rule (normalized : gset bytes) (rule : bytes) : bool :=
  negb (bool_decide (normalizeRule rule ∈ normalized)).

Definition changed_rules (existing rules : list bytes) (operation : settings_operation)
    : list bytes * bool :=
  match operation with
  | OpRemove =>
      let normalized : gset bytes := list_to_set (map normalizeRule rules) in
      (List.filter (keep_rule normalized) existing,
       existsb (fun rule => negb (keep_rule normalized rule)) existing)
  | OpAdd => add_rules existing (list_to_set (map normalizeRule existing)) false rules
  end.

Definition object_of (m : document) : any := AObj (map_to_list m).

Definition changePermissionSettings (fields : document) (rules : list bytes)
    (action : PermissionAction) (operation : settings_operation)
    : result settings_error (bool * document) :=
  match strictPermissionSettingsSection fields with
  | Err e => Err e
  | Ok perms =>
      let key := action_string action in
      let '(existing, changed) :=
        changed_rules (permissionSettingsRules (perms !! key)) rules operation in
      if negb changed then Ok (false, fields)
      else
        let perms :=
          if length existing =? 0 then delete key perms
          else <[key := AArr (map AStr existing)]> perms in
        Ok (true, <[lit "permissions" := object_of perms]> fields)
  end.
