(* ===== verification/PersistFacts.v ===== *)
(** * Facts and properties of the rule strings

    The round trip of ["Tool(content)"], the normal form used to recognise
    duplicates, the settings update and the exact rules. *)

From S2P Require Import Prelude GoStrings Regex ShellMatch ShellMatchFacts Rules Precedence.
From S2P Require Import Paths PathResolution Persist.

(** ** Escaping *)

Lemma unescape_cons2 c next s :
  unescapeRuleContent (c :: next :: s) =
  if (c ==b BSLASH) && escapable next then next :: unescapeRuleContent s
  else c :: unescapeRuleContent (next :: s).
Proof. done. Qed.

Lemma escapable_not_bslash c : escapable c = false -> (c ==b BSLASH) = false.
Proof. unfold escapable. intros H; breflect. by apply bool_decide_eq_false. Qed.

Lemma unescape_escape p : unescapeRuleContent (escapeRuleContent p) = p.
Proof.
  induction p as [|c p IH]; [done|]. cbn [escapeRuleContent].
  destruct (escapable c) eqn:E.
  - rewrite unescape_cons2, bool_decide_eq_true_2, E by done. cbn [andb]. by rewrite IH.
  - destruct (escapeRuleContent p) as [|next s] eqn:Ep.
    + cbn in IH. by subst p.
    + rewrite unescape_cons2, (escapable_not_bslash c) by done. cbn [andb]. by rewrite IH.
Qed.

Lemma escape_nonempty p : p <> [] -> escapeRuleContent p <> [].
Proof. destruct p as [|c p]; [done|]. cbn. by destruct (escapable c). Qed.

Lemma escape_star p : escapeRuleContent p = lit "*" -> p = lit "*".
Proof.
  intros H. rewrite <- (unescape_escape p), H. done.
Qed.

(** Escaped text never ends in an odd run of backslashes. *)
Lemma escape_even p before :
  Nat.even (count_backslashes before) = true ->
  Nat.even (count_backslashes (reverse (escapeRuleContent p) ++ before)) = true.
Proof.
  revert before. induction p as [|c p IH]; intros before Hb; [done|].
  cbn [escapeRuleContent]. destruct (escapable c) eqn:E.
  - rewrite !reverse_cons, <- !app_assoc. apply IH. cbn [app count_backslashes].
    destruct (c ==b BSLASH); [|done].
    by rewrite (bool_decide_eq_true_2 (BSLASH = BSLASH)).
  - rewrite reverse_cons, <- app_assoc. apply IH. cbn [app count_backslashes].
    by rewrite escapable_not_bslash.
Qed.

(** ** Unescaped delimiters *)

Lemma first_unescaped_app ch i before t r :
  first_unescaped ch i before t = None ->
  first_unescaped ch i before (t ++ r) = first_unescaped ch (i + length t) (reverse t ++ before) r.
Proof.
  revert i before. induction t as [|c t IH]; intros i before; cbn [first_unescaped app length].
  - by rewrite Nat.add_0_r.
  - destruct (_ && _); [done|]. intros H. rewrite IH by done.
    by rewrite reverse_cons, <- app_assoc, Nat.add_succ_comm.
Qed.

Lemma first_unescaped_Some ch i before s j :
  first_unescaped ch i before s = Some j ->
  exists t r, s = t ++ ch :: r /\ j = i + length t /\
    first_unescaped ch i before t = None /\
    Nat.even (count_backslashes (reverse t ++ before)) = true.
Proof.
  revert i before. induction s as [|c s IH]; intros i before; cbn [first_unescaped]; [done|].
  destruct (_ && _) eqn:E.
  - intros [= <-]. breflect. subst. exists [], s. split_and!; [done|cbn; lia|done|done].
  - intros (t & r & -> & -> & H1 & H2)%IH. exists (c :: t), r.
    split_and!; [done|cbn; lia| |].
    + cbn [first_unescaped]. by rewrite E.
    + by rewrite reverse_cons, <- app_assoc.
Qed.

Lemma last_unescaped_end ch i before s :
  Nat.even (count_backslashes (reverse s ++ before)) = true ->
  last_unescaped ch i before (s ++ [ch]) = Some (i + length s).
Proof.
  revert i before. induction s as [|c s IH]; intros i before Hs; cbn [last_unescaped app length].
  - rewrite bool_decide_eq_true_2 by done. cbn in Hs. rewrite Hs. f_equal. lia.
  - rewrite IH.
    + f_equal. lia.
    + by rewrite reverse_cons, <- app_assoc in Hs.
Qed.

(** A tool name that can be followed by a parenthesis. *)
Definition tool_text (t : bytes) : Prop :=
  findFirstUnescaped t LPAREN = None /\ Nat.even (count_backslashes (reverse t)) = true.

Lemma slice_middle (a b c : bytes) : slice (a ++ b ++ c) (length a) (length a + length b) = b.
Proof.
  unfold slice. rewrite drop_app_length, Nat.add_comm, Nat.add_sub, take_app_length. done.
Qed.

Lemma parse_content t e :
  tool_text t -> t <> [] ->
  Nat.even (count_backslashes (reverse e ++ LPAREN :: reverse t)) = true ->
  parseRuleValueString (t ++ lit "(" ++ e ++ lit ")") =
  if (e ==b []) || (e ==b lit "*") then (t, []) else (t, unescapeRuleContent e).
Proof.
  intros [Ht Hte] Hne He. unfold parseRuleValueString.
  assert (Ho : findFirstUnescaped (t ++ lit "(" ++ e ++ lit ")") LPAREN = Some (length t)).
  { unfold findFirstUnescaped. rewrite first_unescaped_app by done.
    change (lit "(" ++ e ++ lit ")") with (LPAREN :: (e ++ lit ")")).
    cbn [first_unescaped]. rewrite app_nil_r, bool_decide_eq_true_2, Hte by done. done. }
  assert (Hl : findLastUnescaped (t ++ lit "(" ++ e ++ lit ")") RPAREN
               = Some (length t + 1 + length e)).
  { unfold findLastUnescaped. change (lit ")") with [RPAREN].
    rewrite !app_assoc, last_unescaped_end.
    - f_equal. rewrite !length_app. cbn. lia.
    - rewrite app_nil_r, reverse_app. change (lit "(") with [LPAREN].
      by rewrite reverse_snoc. }
  rewrite Ho, Hl. rewrite !length_app. change (length (lit "(")) with 1.
  change (length (lit ")")) with 1.
  rewrite (proj2 (Nat.leb_gt _ _)) by lia.
  rewrite (proj2 (Nat.eqb_eq _ _)) by (cbn; lia). cbn [orb negb].
  rewrite take_app_length, (bool_decide_eq_false_2 (t = [])) by done.
  assert (Hs : slice (t ++ lit "(" ++ e ++ lit ")") (length t + 1) (length t + 1 + length e) = e).
  { rewrite app_assoc. replace (length t + 1) with (length (t ++ lit "("))
      by (by rewrite length_app). apply slice_middle. }
  by rewrite Hs.
Qed.

Lemma parse_format t p :
  tool_text t -> t <> [] -> p <> [] -> p <> lit "*" ->
  parseRuleValueString (FormatRuleString t p) = (t, p).
Proof.
  intros Ht Hne Hp Hs. unfold FormatRuleString. rewrite bool_decide_eq_false_2 by done.
  rewrite parse_content; [|done|done|by apply escape_even].
  rewrite (bool_decide_eq_false_2 (escapeRuleContent p = [])) by (by apply escape_nonempty).
  rewrite (bool_decide_eq_false_2 (escapeRuleContent p = lit "*"))
    by (intros H; by apply Hs, escape_star).
  cbn [orb]. by rewrite unescape_escape.
Qed.

Lemma parse_bare t : tool_text t -> parseRuleValueString t = (t, []).
Proof. intros [Ht _]. unfold parseRuleValueString. by rewrite Ht. Qed.

Lemma unescape_nonempty s : s <> [] -> unescapeRuleContent s <> [].
Proof.
  destruct s as [|c [|d s]]; [done|done|]. intros _. rewrite unescape_cons2.
  by destruct (_ && _).
Qed.

Lemma unescape_star s : unescapeRuleContent s = lit "*" -> s = lit "*".
Proof.
  destruct s as [|c [|d s]]; [done|done|]. rewrite unescape_cons2.
  destruct (_ && _) eqn:E; intros H.
  - breflect. injection H as ->. done.
  - apply (f_equal tail) in H. change (unescapeRuleContent (d :: s) = []) in H.
    by apply unescape_nonempty in H.
Qed.

(** What a successful parse says of the text. *)
Lemma parse_cases s :
  parseRuleValueString s = (s, []) \/
  exists t, tool_text t /\ t <> [] /\
    (parseRuleValueString s = (t, []) \/
     exists p, p <> [] /\ p <> lit "*" /\ parseRuleValueString s = (t, p)).
Proof.
  unfold parseRuleValueString.
  destruct (findFirstUnescaped s LPAREN) as [o|] eqn:Eo; [|by left].
  destruct (findLastUnescaped s RPAREN) as [cl|]; [|by left].
  destruct (_ || _); [by left|]. cbv zeta.
  apply first_unescaped_Some in Eo as (t & r & -> & -> & H1 & H2).
  rewrite Nat.add_0_l, take_app_length. rewrite app_nil_r in H2.
  destruct (t ==b []) eqn:Et; [by left|]. breflect. right. exists t.
  split; [by split|]. split; [done|]. set (raw := slice _ _ _).
  destruct (raw ==b []) eqn:E1; [by left|]. destruct (raw ==b lit "*") eqn:E2; [by left|].
  breflect. right. exists (unescapeRuleContent raw). split_and!; [| |done].
  - by apply unescape_nonempty.
  - intros H. by apply E2, unescape_star.
Qed.

(** Normalizing keeps the tool and the pattern a rule string denotes. *)
Lemma parse_normalize rule :
  parseRuleValueString (normalizeRule rule) = parseRuleValueString rule.
Proof.
  unfold normalizeRule.
  destruct (parse_cases rule) as [E | (t & Ht & Hne & [E | (p & Hp & Hs & E)])]; rewrite E.
  - cbn. exact E.
  - cbn. by apply parse_bare.
  - by apply parse_format.
Qed.

Lemma normalizeRule_idemp rule : normalizeRule (normalizeRule rule) = normalizeRule rule.
Proof. unfold normalizeRule at 1 3. by rewrite parse_normalize. Qed.

(** ** Equality of rule strings up to their meaning *)

Definition same_rule (r r' : bytes) : Prop := parseRuleValueString r = parseRuleValueString r'.

#[export] Instance same_rule_equiv : Equivalence same_rule.
Proof. split; unfold same_rule; [done|intros ??; done|intros ???; congruence]. Qed.

#[export] Instance normalizeRule_proper : Proper (same_rule ==> eq) normalizeRule.
Proof. intros r r' H. unfold normalizeRule. by rewrite H. Qed.

Lemma normalizeRule_same r r' : normalizeRule r = normalizeRule r' <-> same_rule r r'.
Proof.
  split; [|intros H; by rewrite H].
  intros H. unfold same_rule. by rewrite <- (parse_normalize r), H, parse_normalize.
Qed.

(** ** The settings update *)

Lemma add_rules_spec existing seen changed rules :
  seen = list_to_set (map normalizeRule existing) ->
  let r := add_rules existing seen changed rules in
  exists added, r.1 = existing ++ added /\ added `sublist_of` rules /\
    r.2 = changed || negb (added ==b []) /\
    (forall x, x ∈ rules -> exists y, y ∈ r.1 /\ same_rule y x) /\
    (forall x, x ∈ added -> forall y, y ∈ existing -> ~ same_rule y x).
Proof.
  revert existing seen changed. induction rules as [|x rules IH]; intros existing seen changed Hs;
    cbn [add_rules].
  - exists []. cbn. split_and!; [by rewrite app_nil_r|done|by rewrite orb_false_r|set_solver..].
  - destruct (bool_decide (normalizeRule x ∈ seen)) eqn:E; breflect.
    + destruct (IH existing seen changed Hs) as (added & H1 & H2 & H3 & H4 & H5).
      exists added. split_and!; [done|by constructor|done| |done].
      intros x' [->|Hx']%elem_of_cons; [|auto].
      subst seen. apply elem_of_list_to_set, list_elem_of_fmap in E as (y & Hy & Hin).
      exists y. cbv zeta in H1. rewrite H1. split; [set_solver|].
      by apply normalizeRule_same.
    + destruct (IH (existing ++ [x]) ({[normalizeRule x]} ∪ seen) true) as (added & H1 & H2 & H3 & H4 & H5).
      { subst seen. rewrite map_app, list_to_set_app_L. cbn. set_solver. }
      exists (x :: added). cbv zeta in *. rewrite <- app_assoc in H1. split_and!.
      * exact H1.
      * by constructor.
      * rewrite H3. by rewrite orb_true_r.
      * intros x' [->|Hx']%elem_of_cons; [|auto]. exists x. rewrite H1. split; [set_solver|done].
      * intros x' [->|Hx']%elem_of_cons y Hy; [|apply H5; set_solver].
        intros Hsame%normalizeRule_same. apply E. subst seen. rewrite <- Hsame.
        apply elem_of_list_to_set. apply list_elem_of_fmap. eauto.
Qed.

Lemma keep_rule_spec rules r :
  keep_rule (list_to_set (map normalizeRule rules)) r = true <->
  forall x, x ∈ rules -> ~ same_rule r x.
Proof.
  unfold keep_rule. rewrite negb_true_iff, bool_decide_eq_false, elem_of_list_to_set,
    list_elem_of_fmap.
  split.
  - intros H x Hx Hsame%normalizeRule_same. apply H. eauto.
  - intros H (x & Hx & Hin). apply (H x Hin). by apply normalizeRule_same.
Qed.

(** Without a change the list is the old one. *)
Lemma changed_rules_same existing rules op :
  (changed_rules existing rules op).2 = false -> (changed_rules existing rules op).1 = existing.
Proof.
  destruct op; cbn [changed_rules].
  - destruct (add_rules_spec existing (list_to_set (map normalizeRule existing)) false rules eq_refl)
      as (added & H1 & _ & H3 & _). cbv zeta in *. rewrite H3. intros H. cbn in H. breflect.
    by rewrite H1, H, app_nil_r.
  - cbn [fst snd]. intros H. apply filter_all. apply Forall_forall. intros x Hx.
    destruct (keep_rule _ x) eqn:E; [done|].
    rewrite <- H. apply existsb_elem_of. exists x. by rewrite E.
Qed.

(** The rules a document holds for an action. *)
Definition rules_of (fields : document) (key : bytes) : list bytes :=
  match strictPermissionSettingsSection fields with
  | Ok perms => permissionSettingsRules (perms !! key)
  | Err _ => []
  end.

Lemma toStringSlice_AStr l : toStringSlice (map AStr l) = l.
Proof. induction l as [|x l IH]; [done|]. cbn. f_equal. exact IH. Qed.

Lemma string_array_AStr l : string_array (AArr (map AStr l)) = true.
Proof. cbn. by induction l. Qed.

Lemma object_map_of m : object_map (map_to_list m) = m.
Proof.
  unfold object_map. rewrite <- (list_to_map_to_list m) at 2.
  apply list_to_map_proper; [|apply reverse_Permutation].
  rewrite fmap_reverse, reverse_Permutation. apply NoDup_fst_map_to_list.
Qed.

Lemma strict_ok fields perms :
  strictPermissionSettingsSection fields = Ok perms ->
  forall a, a ∈ [ActionAllow; ActionDeny; ActionAsk] ->
    match perms !! action_string a with Some raw => string_array raw | None => true end = true.
Proof.
  unfold strictPermissionSettingsSection.
  match goal with
  | |- match ?e with Some _ => _ | None => _ end = _ -> _ => destruct e as [p|]; [|done]
  end.
  destruct (forallb _ _) eqn:E; [|done]. intros [= <-]. by rewrite forallb_elem_of in E.
Qed.

Lemma strict_written (fields perms : document) :
  (forall a, a ∈ [ActionAllow; ActionDeny; ActionAsk] ->
    match perms !! action_string a with Some raw => string_array raw | None => true end = true) ->
  strictPermissionSettingsSection (<[lit "permissions" := object_of perms]> fields) = Ok perms.
Proof.
  intros H. unfold strictPermissionSettingsSection. rewrite lookup_insert_eq.
  unfold object_of. rewrite object_map_of. rewrite <- forallb_elem_of in H. by rewrite H.
Qed.

Lemma changed_section (perms : document) key existing :
  (forall a, a ∈ [ActionAllow; ActionDeny; ActionAsk] ->
    match perms !! action_string a with Some raw => string_array raw | None => true end = true) ->
  let perms' := if length existing =? 0 then delete key perms
                else <[key := AArr (map AStr existing)]> perms in
  (forall a, a ∈ [ActionAllow; ActionDeny; ActionAsk] ->
    match perms' !! action_string a with Some raw => string_array raw | None => true end = true) /\
  permissionSettingsRules (perms' !! key) = existing /\
  (forall k, k <> key -> perms' !! k = perms !! k).
Proof.
  intros H. cbv zeta. destruct existing as [|x existing]; cbn [length Nat.eqb].
  - rewrite lookup_delete_eq. split_and!; [|done|intros k Hk; by rewrite lookup_delete_ne].
    intros a Ha. destruct (decide (action_string a = key)) as [->|Hne].
    + by rewrite lookup_delete_eq.
    + rewrite lookup_delete_ne by done. by apply H.
  - rewrite lookup_insert_eq.
    split_and!; [|apply toStringSlice_AStr|intros k Hk; by rewrite lookup_insert_ne].
    intros a Ha. destruct (decide (action_string a = key)) as [->|Hne].
    + rewrite lookup_insert_eq. apply string_array_AStr.
    + rewrite lookup_insert_ne by done. by apply H.
Qed.

Lemma change_settings_spec fields rules action op ch fields' :
  changePermissionSettings fields rules action op = Ok (ch, fields') ->
  (forall k, k <> lit "permissions" -> fields' !! k = fields !! k) /\
  (forall k, k <> action_string action -> rules_of fields' k = rules_of fields k) /\
  rules_of fields' (action_string action)
  = (changed_rules (rules_of fields (action_string action)) rules op).1 /\
  ch = (changed_rules (rules_of fields (action_string action)) rules op).2.
Proof.
  unfold changePermissionSettings, rules_of.
  destruct (strictPermissionSettingsSection fields) as [perms|] eqn:E; [|done].
  destruct (changed_rules _ rules op) as [existing changed] eqn:Ec. cbn [fst snd].
  destruct changed; cbn [negb].
  - destruct (changed_section perms (action_string action) existing (strict_ok _ _ E))
      as (H1 & H2 & H3). cbv zeta in *.
    intros [= <- <-]. rewrite strict_written by done.
    split_and!; [intros k Hk; by rewrite lookup_insert_ne| |done|done].
    intros k Hk. by rewrite H3.
  - intros [= <- <-]. rewrite E. split_and!; [done|done| |done].
    apply (f_equal fst) in Ec as Ec1. apply (f_equal snd) in Ec as Ec2. cbn in Ec1, Ec2.
    rewrite <- Ec1. symmetry. by apply changed_rules_same.
Qed.

(** ** Exact patterns *)

Lemma glob_tokens_exact s : glob_tokens (escapeExactRuleWildcards s) = map GLit s.
Proof.
  induction s as [|c s IH]; [done|]. cbn [escapeExactRuleWildcards map].
  destruct ((c ==b "*"%char) || (c ==b BSLASH)) eqn:E.
  - rewrite glob_tokens_cons2, (bool_decide_eq_true_2 (BSLASH = BSLASH)), E by done.
    cbn [andb]. by rewrite IH.
  - apply orb_false_iff in E as [E1 E2]. destruct (escapeExactRuleWildcards s) as [|d r] eqn:Es.
    + cbn [glob_tokens]. rewrite E1. f_equal. exact IH.
    + rewrite glob_tokens_cons2, E2. cbn [andb]. by rewrite E1, IH.
Qed.

Lemma glob_match_lits s v : glob_match (map GLit s) v = (v ==b s).
Proof.
  revert v. induction s as [|c s IH]; intros v; [by apply bool_decide_ext|].
  cbn [map glob_match]. destruct v as [|x v]; [by rewrite bool_decide_eq_false_2|]. rewrite IH.
  destruct (decide (x = c)) as [->|Hne].
  - rewrite (bool_decide_eq_true_2 (c = c)) by done. apply bool_decide_ext. naive_solver.
  - rewrite (bool_decide_eq_false_2 (x = c)) by done. cbn [andb]. symmetry.
    apply bool_decide_eq_false. congruence.
Qed.

Lemma bare_tokens_lits s : bare_tokens (map GLit s) = None.
Proof.
  unfold bare_tokens.
  assert (H : Forall (fun t => t <> GStar) (reverse (map GLit s))).
  { apply Forall_reverse, Forall_forall. intros t (c & -> & _)%list_elem_of_fmap. done. }
  destruct (reverse (map GLit s)) as [|[|c] l]; try done.
  by apply Forall_inv in H.
Qed.

Lemma exact_star_free before s :
  Nat.even (count_backslashes before) = true ->
  has_unescaped_star before (escapeExactRuleWildcards s) = false.
Proof.
  revert before. induction s as [|c s IH]; intros before Hb; [done|].
  cbn [escapeExactRuleWildcards].
  destruct ((c ==b "*"%char) || (c ==b BSLASH)) eqn:E; cbn [has_unescaped_star].
  - change (BSLASH ==b "*"%char) with false. cbn [andb orb].
    cbn [count_backslashes]. rewrite (bool_decide_eq_true_2 (BSLASH = BSLASH)) by done.
    rewrite Nat.even_succ, <- Nat.negb_even, Hb, andb_false_r. cbn [negb orb].
    apply IH. cbn [count_backslashes]. destruct (c ==b BSLASH); [|done].
    by rewrite (bool_decide_eq_true_2 (BSLASH = BSLASH)).
  - apply orb_false_iff in E as [E1 E2]. rewrite E1. cbn [andb orb]. apply IH.
    cbn [count_backslashes]. by rewrite E2.
Qed.

Lemma exact_prefix w s :
  Forall (fun c => c <> BSLASH) w -> w `prefix_of` escapeExactRuleWildcards s -> w `prefix_of` s.
Proof.
  intros Hw. revert s. induction Hw as [|c w Hc _ IH]; intros s Hp; [apply prefix_nil|].
  destruct s as [|x s]; [by apply prefix_nil_inv in Hp|]. cbn [escapeExactRuleWildcards] in Hp.
  destruct (_ || _).
  - apply prefix_cons_inv_1 in Hp. done.
  - pose proof (prefix_cons_inv_1 _ _ _ _ Hp). subst.
    apply prefix_cons, IH. by eapply prefix_cons_inv_2.
Qed.

Lemma exact_Forall (P : ascii -> Prop) s :
  P BSLASH -> Forall P s -> Forall P (escapeExactRuleWildcards s).
Proof.
  intros Hb. induction 1 as [|c s Hc _ IH]; [constructor|].
  cbn [escapeExactRuleWildcards]. destruct (_ || _); auto with yhc.
Qed.

Lemma exact_app s t :
  escapeExactRuleWildcards (s ++ t) = escapeExactRuleWildcards s ++ escapeExactRuleWildcards t.
Proof.
  induction s as [|c s IH]; [done|]. cbn [app escapeExactRuleWildcards]. rewrite IH.
  by destruct (_ || _).
Qed.

(** Escaping keeps ASCII text without surrounding white space as it is for
    [TrimSpace]. *)
Lemma exact_trimmed s :
  Forall (fun c => is_ascii_byte c = true) s -> TrimSpace s = s ->
  TrimSpace (escapeExactRuleWildcards s) = escapeExactRuleWildcards s.
Proof.
  intros Ha Hs.
  assert (He := exact_Forall _ s (eq_refl : is_ascii_byte BSLASH = true) Ha).
  apply TrimSpace_fixed in Hs as [Hl Hr]. apply TrimSpace_fixed. split.
  - destruct s as [|c s]; [done|]. apply trim_left_ascii in Hl; [|done].
    cbn [escapeExactRuleWildcards] in *. destruct (_ || _); by apply trim_left_ascii.
  - destruct s as [|c s _] using rev_ind; [done|]. apply trim_right_ascii in Hr; [|done].
    rewrite exact_app in *. cbn [escapeExactRuleWildcards] in *. destruct (_ || _).
    + change [BSLASH; c] with ([BSLASH] ++ [c]) in *. rewrite app_assoc in *.
      by apply trim_right_ascii.
    + by apply trim_right_ascii.
Qed.

(** Patterns the exact rules are proved for: ASCII, trimmed, not an MCP name. *)
Definition exact_text (s : bytes) : bool :=
  forallb is_ascii_byte s && (TrimSpace s ==b s) && (s <>b [])
  && negb (HasPrefix s (lit "mcp__")).

Lemma matchPattern_exact s v :
  exact_text s = true -> matchPattern (escapeExactRuleWildcards s) v = (v ==b s).
Proof.
  unfold exact_text. intros H; breflect.
  assert (Ha : Forall (fun c => is_ascii_byte c = true) s)
    by (by apply Forall_forall, forallb_elem_of).
  unfold matchPattern. rewrite bool_decide_eq_false_2.
  - assert (Hm : HasPrefix (escapeExactRuleWildcards s) (lit "mcp__") = false).
    { apply bool_decide_eq_false. intros Hp. apply exact_prefix in Hp.
      - apply bool_decide_eq_false in H0. done.
      - repeat constructor; done. }
    rewrite Hm. cbn [andb]. rewrite wildcard_glob.
    + unfold wildcard_spec. rewrite exact_trimmed by done.
      rewrite glob_tokens_exact, bare_tokens_lits, glob_match_lits. by rewrite orb_false_r.
    + by apply exact_Forall.
  - destruct s as [|c s]; [done|]. cbn [escapeExactRuleWildcards].
    destruct (c ==b "*"%char) eqn:E; [done|]. cbn [orb].
    destruct (c ==b BSLASH); [done|]. breflect. intros [= -> _]. done.
Qed.

Lemma exact_nonempty s : s <> [] -> escapeExactRuleWildcards s <> [].
Proof. destruct s as [|c s]; [done|]. cbn. by destruct (_ || _). Qed.

Lemma exact_not_star s : escapeExactRuleWildcards s <> lit "*".
Proof.
  destruct s as [|c s]; [done|]. cbn [escapeExactRuleWildcards].
  destruct (c ==b "*"%char) eqn:E; [done|]. cbn [orb].
  destruct (c ==b BSLASH); [done|]. breflect. intros [= -> _]. done.
Qed.

Lemma exact_no_wildcards s : hasUnescapedWildcards (escapeExactRuleWildcards s) = false.
Proof. unfold hasUnescapedWildcards. rewrite exact_star_free by done. by destruct (HasSuffix _ _). Qed.

(** The rule parsed back from its string. *)
Lemma exact_rule_parsed t s a src :
  tool_text t -> t <> [] -> s <> [] ->
  parseRuleValue (FormatRuleString t (escapeExactRuleWildcards s)) a src =
  {| ToolName := t; InputPattern := escapeExactRuleWildcards s; Action := a; Source := src |}.
Proof.
  intros Ht Hne Hs. unfold parseRuleValue.
  by rewrite parse_format by auto using exact_nonempty, exact_not_star.
Qed.

Section exact_decision.
Context `{GoFormat}.

Lemma exact_decision t s i :
  s <> [] -> matchPattern (escapeExactRuleWildcards s) (extractInputString t i) = true ->
  let d := EvaluateDecision (Some (NewRulesEngine
             [{| ToolName := t; InputPattern := escapeExactRuleWildcards s;
                 Action := ActionAllow; Source := [] |}])) t i in
  rd_Matched d = true /\ rd_Action d = ActionAllow /\ rd_ToolExact d = true /\
  rd_InputExact d = true.
Proof.
  intros Hs Hm. unfold EvaluateDecision, NewRulesEngine, collectMatches.
  cbn [length rules Nat.eqb omap list_omap]. unfold rule_match. cbn [ToolName InputPattern].
  rewrite (bool_decide_eq_true_2 (t = t)) by done. cbn [negb andb].
  rewrite (bool_decide_eq_false_2 (_ = [])) by (by apply exact_nonempty).
  rewrite Hm. cbn. by rewrite exact_no_wildcards.
Qed.
End exact_decision.

(** ** Properties *)

(** The printed form of a tool and a pattern parses back to them, for every
    pattern but the stand-alone star (which denotes the tool-wide rule) and
    every tool name that holds no unescaped parenthesis. *)
Theorem rule_string_roundtrip t p :
  tool_text t -> t <> [] -> p <> lit "*" ->
  parseRuleValueString (FormatRuleString t p) = (t, p).
Proof.
  intros Ht Hne Hs. destruct (decide (p = [])) as [->|Hp].
  - cbn. by apply parse_bare.
  - by apply parse_format.
Qed.

Lemma rule_string_roundtrip_witness :
  parseRuleValueString (FormatRuleString (lit "Bash") (lit "echo \(a)*")) =
  (lit "Bash", lit "echo \(a)*").
Proof. apply rule_string_roundtrip; [split; by vm_compute | by vm_compute | by vm_compute]. Defined.

(** The normal form used to detect duplicates decides whether two rule strings
    denote the same tool and pattern, whatever the strings. *)
Theorem normalizeRule_decides r r' :
  normalizeRule r = normalizeRule r' <-> parseRuleValueString r = parseRuleValueString r'.
Proof. apply normalizeRule_same. Qed.

(** Persisting rules keeps the rules of the action in order and appends the
    new ones: every rule asked for is then present up to normalization, what is
    appended comes from the request and denotes no rule already there, the
    other actions' rules and the other keys of the document are unchanged. *)
Theorem settings_add_rules fields rules action ch fields' :
  changePermissionSettings fields rules action OpAdd = Ok (ch, fields') ->
  let key := action_string action in
  (exists added, rules_of fields' key = rules_of fields key ++ added /\
     added `sublist_of` rules /\
     (forall x, x ∈ added -> forall y, y ∈ rules_of fields key -> ~ same_rule y x)) /\
  (forall x, x ∈ rules -> exists y, y ∈ rules_of fields' key /\ same_rule y x) /\
  (forall k, k <> key -> rules_of fields' k = rules_of fields k) /\
  (forall k, k <> lit "permissions" -> fields' !! k = fields !! k).
Proof.
  intros (H1 & H2 & H3 & _)%change_settings_spec. cbv zeta.
  destruct (add_rules_spec (rules_of fields (action_string action)) _ false rules eq_refl)
    as (added & E1 & E2 & _ & E4 & E5).
  cbv zeta in *. cbn [changed_rules] in H3. rewrite H3. eauto 10.
Qed.

Lemma settings_add_rules_witness :
  exists y, y ∈ rules_of (<[lit "permissions" := AObj [(lit "allow", AArr [AStr (lit "Bash(*)")])]]> ∅)
                  (lit "allow") /\ same_rule y (lit "Bash").
Proof.
  apply (settings_add_rules
           (<[lit "permissions" := AObj [(lit "allow", AArr [AStr (lit "Bash(*)")])]]> ∅)
           [lit "Bash"] ActionAllow false); [by vm_compute|]. by left.
Defined.

(** Removing rules removes exactly the rules that denote one of those given,
    and keeps the others in order. *)
Theorem settings_remove_rules fields rules action ch fields' :
  changePermissionSettings fields rules action OpRemove = Ok (ch, fields') ->
  let key := action_string action in
  rules_of fields' key `sublist_of` rules_of fields key /\
  (forall y, y ∈ rules_of fields' key <->
     y ∈ rules_of fields key /\ forall x, x ∈ rules -> ~ same_rule y x) /\
  (forall k, k <> key -> rules_of fields' k = rules_of fields k) /\
  (forall k, k <> lit "permissions" -> fields' !! k = fields !! k).
Proof.
  intros (H1 & H2 & H3 & _)%change_settings_spec. cbv zeta in *. cbn [changed_rules fst] in H3.
  rewrite H3. split_and!; [|intros y|done|done].
  - generalize (rules_of fields (action_string action)) as l. intros l.
    induction l as [|x l IH]; [constructor|]. cbn [List.filter].
    destruct (keep_rule _ x); by constructor.
  - rewrite list_elem_of_In, filter_In, <- list_elem_of_In, keep_rule_spec. done.
Qed.

Lemma settings_remove_rules_witness :
  rules_of ∅ (lit "deny") `sublist_of` rules_of ∅ (lit "deny").
Proof. apply (settings_remove_rules ∅ [lit "Bash"] ActionDeny false). by vm_compute. Defined.

Section exact_properties.
Context `{GoFormat, Host}.

(** The exact rule built for a Bash command exists, and grants that command
    and nothing else: it applies to no other command and to no other tool
    (ASCII commands that do not look like an MCP tool name). *)
Theorem exact_bash_rule i cwd raw :
  string_field i (lit "command") = Some raw -> exact_text (TrimSpace raw) = true ->
  exists r, BuildExactRuleFromInvocation (lit "Bash") i cwd = Ok r /\
    forall tool i', matchRule (er_Rule r) tool i' =
      (tool ==b lit "Bash") && (extractInputString (lit "Bash") i' ==b TrimSpace raw).
Proof.
  intros Hraw He. set (cmd := TrimSpace raw) in *.
  assert (Hne : cmd <> []) by (unfold exact_text in He; by breflect).
  assert (Htool : tool_text (lit "Bash")) by (split; by vm_compute).
  assert (Hsize : (size i =? 0) = false).
  { apply Nat.eqb_neq. intros Hz%map_size_empty_inv. subst i.
    unfold string_field in Hraw. by rewrite lookup_empty in Hraw. }
  set (i1 := <[lit "command" := AStr cmd]> i).
  assert (Hin : extractInputString (lit "Bash") i1 = cmd).
  { assert (Hs1 : (size i1 =? 0) = false).
    { apply Nat.eqb_neq. intros Hz%map_size_empty_inv. by apply insert_non_empty in Hz. }
    unfold extractInputString. rewrite Hs1. unfold i1. rewrite lookup_insert_eq.
    by rewrite (bool_decide_eq_true_2 (lit "Bash" = lit "Bash")). }
  assert (Hm : matchPattern (escapeExactRuleWildcards cmd) (extractInputString (lit "Bash") i1)
               = true) by (rewrite matchPattern_exact, Hin by done; by apply bool_decide_eq_true).
  destruct (exact_decision (lit "Bash") cmd i1 Hne Hm) as (D1 & D2 & D3 & D4).
  exists {| er_Value := FormatRuleString (lit "Bash") (escapeExactRuleWildcards cmd);
            er_Rule := {| ToolName := lit "Bash"; InputPattern := escapeExactRuleWildcards cmd;
                          Action := ActionAllow; Source := [] |} |}. split.
  - unfold BuildExactRuleFromInvocation. change (TrimSpace (lit "Bash")) with (lit "Bash").
    rewrite (bool_decide_eq_false_2 (lit "Bash" = [])) by done. rewrite Hsize.
    unfold exactInvocationRulePattern. rewrite (bool_decide_eq_true_2 (lit "Bash" = lit "Bash")) by done.
    rewrite Hraw. change (TrimSpace (default [] (Some raw))) with cmd. cbv zeta.
    rewrite (bool_decide_eq_false_2 (cmd = [])) by done. fold i1.
    rewrite exact_rule_parsed by done. rewrite D1, D2, D3, D4.
    rewrite (bool_decide_eq_true_2 (ActionAllow = ActionAllow)) by done.
    by rewrite (bool_decide_eq_false_2 (cmd = [])).
  - intros tool i'. cbn [er_Rule]. unfold matchRule. cbn [ToolName InputPattern].
    assert (Ht : matchPattern (lit "Bash") tool = (tool ==b lit "Bash"))
      by (apply (matchPattern_exact (lit "Bash")); by vm_compute).
    rewrite Ht. destruct (tool ==b lit "Bash") eqn:Et; [|done]. breflect. subst tool.
    cbn [negb andb]. rewrite (bool_decide_eq_false_2 (_ = [])) by (by apply exact_nonempty).
    by rewrite matchPattern_exact.
Qed.
End exact_properties.

Section exact_examples.
Import Example_host.
Definition command_input (c : string) : input := {[ lit "command" := AStr (lit c) ]}.

Lemma exact_bash_rule_witness :
  exists r, BuildExactRuleFromInvocation (lit "Bash") (command_input " rm *.o ") (lit "/p") = Ok r /\
    forall tool i', matchRule (er_Rule r) tool i' =
      (tool ==b lit "Bash") && (extractInputString (lit "Bash") i' ==b lit "rm *.o").
Proof.
  apply (exact_bash_rule (command_input " rm *.o ") (lit "/p") (lit " rm *.o "));
    [by vm_compute | by vm_compute].
Defined.

(** A command that has the shape of an MCP server name is the exception: the
    exact rule built for it also grants the commands that extend it with a
    tool part, because the MCP clause of [matchPattern] reads the input. *)
Theorem exact_rule_widens_mcp_like_command :
  match BuildExactRuleFromInvocation (lit "Bash") (command_input "mcp__x") (lit "/p") with
  | Ok r => matchRule (er_Rule r) (lit "Bash") (command_input "mcp__x__y; rm -rf /")
  | Err _ => false
  end = true.
Proof. by vm_compute. Qed.
End exact_examples.
