(* ===== verification/CriticalPath.v ===== *)
(** * Critical paths of [rm] and [rmdir] ([engine/permission/bash_critical_path.go])

    The tokenizer of the supported shell subset and the classification of the
    removal targets that need a fresh permission decision. *)

From S2P Require Import Prelude GoStrings Paths.

(** ** The code *)

Record BashCriticalPathDecision := {
  Match_ : bool;
  ReasonCode : bytes;
}.

Definition no_match : BashCriticalPathDecision := {| Match_ := false; ReasonCode := [] |}.
Definition critical (reason : string) : BashCriticalPathDecision :=
  {| Match_ := true; ReasonCode := lit reason |}.

Record criticalPathWord := {
  value : bytes;
  unquotedTilde : bool;
  unquotedStars : list nat;
}.

(** The variables of the tokenizer. *)
Record tok_state := {
  segments : list (list criticalPathWord);
  segment : list criticalPathWord;
  cur_tilde : bool;
  cur_stars : list nat;
  cur_value : bytes;
  wordStarted : bool;
  requiresNext : bool;
}.

Definition tok_init : tok_state :=
  {| segments := []; segment := []; cur_tilde := false; cur_stars := []; cur_value := [];
     wordStarted := false; requiresNext := false |}.

Definition flushWord (st : tok_state) : tok_state :=
  if negb (wordStarted st) then st
  else {| segments := segments st;
          segment := segment st ++ [{| value := cur_value st; unquotedTilde := cur_tilde st;
                                       unquotedStars := cur_stars st |}];
          cur_tilde := false; cur_stars := []; cur_value := [];
          wordStarted := false; requiresNext := false |}.

Definition flushSegment (requireFollowing : bool) (st : tok_state) : option tok_state :=
  let st := flushWord st in
  if length (segment st) =? 0 then None
  else Some {| segments := segments st ++ [segment st]; segment := [];
               cur_tilde := cur_tilde st; cur_stars := cur_stars st;
               cur_value := cur_value st; wordStarted := wordStarted st;
               requiresNext := requireFollowing |}.

(** [wordStarted = true]. *)
Definition start_word (st : tok_state) : tok_state :=
  {| segments := segments st; segment := segment st; cur_tilde := cur_tilde st;
     cur_stars := cur_stars st; cur_value := cur_value st; wordStarted := true;
     requiresNext := requiresNext st |}.

(** [value.WriteByte(c)]. *)
Definition write_byte (c : ascii) (st : tok_state) : tok_state :=
  {| segments := segments st; segment := segment st; cur_tilde := cur_tilde st;
     cur_stars := cur_stars st; cur_value := cur_value st ++ [c];
     wordStarted := wordStarted st; requiresNext := requiresNext st |}.

Definition end_line (st : tok_state) : option tok_state :=
  let st := flushWord st in
  if 0 <? length (segment st) then flushSegment false st else Some st.

(** An ordinary byte outside quotes. *)
Definition plain_char (c : ascii) (st : tok_state) : option tok_state :=
  let st := start_word st in
  let tilde := ((c ==b "~"%char) && (length (cur_value st) =? 0)) || cur_tilde st in
  let stars := if c ==b "*"%char then cur_stars st ++ [length (cur_value st)]
               else cur_stars st in
  if (c ==b "?"%char) || (c ==b "["%char) || (c ==b "]"%char) then None
  else Some (write_byte c
    {| segments := segments st; segment := segment st; cur_tilde := tilde; cur_stars := stars;
       cur_value := cur_value st; wordStarted := wordStarted st;
       requiresNext := requiresNext st |}).

Inductive quoting : Type := Unquoted | InSingle | InDouble.

Definition expands (c : ascii) : bool := (c ==b "$"%char) || (c ==b BTICK).

(** The scanning loop; the loops over quoted text are the states [InSingle]
    and [InDouble].  [None] is the unsupported command. *)
Fixpoint tok (q : quoting) (s : bytes) (st : tok_state) : option tok_state :=
  match s with
  | [] => match q with Unquoted => Some st | _ => None end
  | c :: s1 =>
      match q with
      | InSingle =>
          if c ==b SQUOTE then tok Unquoted s1 st
          else if expands c then None
          else tok InSingle s1 (write_byte c st)
      | InDouble =>
          if c ==b DQUOTE then tok Unquoted s1 st
          else if expands c then None
          else if c ==b BSLASH then
            match s1 with
            | [] => None
            | d :: s2 => if d ==b NL then None else tok InDouble s2 (write_byte d st)
            end
          else tok InDouble s1 (write_byte c st)
      | Unquoted =>
          if (c ==b SP) || (c ==b TAB) || (c ==b CR) then tok Unquoted s1 (flushWord st)
          else if c ==b NL then
            match end_line st with Some st => tok Unquoted s1 st | None => None end
          else if c ==b ";"%char then
            match flushSegment false st with Some st => tok Unquoted s1 st | None => None end
          else if (c ==b "&"%char) || (c ==b "|"%char) then
            match s1 with
            | d :: s2 =>
                if d <>b c then None
                else match flushSegment true st with
                     | Some st => tok Unquoted s2 st
                     | None => None
                     end
            | [] => None
            end
          else if (c ==b "<"%char) || (c ==b ">"%char) || (c ==b "("%char)
                  || (c ==b ")"%char) || expands c then None
          else if c ==b BSLASH then
            match s1 with
            | d :: s2 => if d ==b NL then None
                         else tok Unquoted s2 (write_byte d (start_word st))
            | [] => None
            end
          else if c ==b SQUOTE then tok InSingle s1 (start_word st)
          else if c ==b DQUOTE then tok InDouble s1 (start_word st)
          else match plain_char c st with Some st => tok Unquoted s1 st | None => None end
      end
  end.

Definition supportedCriticalPathGlob (word : criticalPathWord) : bool :=
  match unquotedStars word with
  | [] => true
  | [i] =>
      (S i =? length (value word))
      && ((value word ==b lit "*") || HasSuffix (value word) (lit "/*"))
  | _ => false
  end.

Definition tokenizeCriticalPathCommand (command : bytes)
    : option (list (list criticalPathWord)) :=
  match tok Unquoted command tok_init with
  | None => None
  | Some st =>
      let st := flushWord st in
      if requiresNext st then None
      else
        let segs := if 0 <? length (segment st) then segments st ++ [segment st]
                    else segments st in
        if length segs =? 0 then None
        else if forallb (forallb supportedCriticalPathGlob) segs then Some segs else None
  end.

Definition classifyCriticalVolumePath (targetPath : bytes) : bytes :=
  if negb (HasPrefix targetPath (lit "/Volumes/")) then []
  else
    let relative := drop (length (lit "/Volumes/")) targetPath in
    match length (Split relative sep) with
    | 1 => lit "volume_root"
    | 2 => lit "volume_child"
    | _ => []
    end.

Definition classifyCriticalPathTarget (target : criticalPathWord) (cwd home : bytes)
    : BashCriticalPathDecision :=
  if length (unquotedStars target) =? 1 then critical "all_entries"
  else if (value target ==b lit "~") && unquotedTilde target then critical "home"
  else
    let resolved := Clean (if IsAbs (value target) then value target
                           else Join_path [cwd; value target]) in
    if resolved ==b sep then critical "root"
    else if resolved ==b home then critical "home"
    else
      let reason := classifyCriticalVolumePath resolved in
      if reason <>b [] then {| Match_ := true; ReasonCode := reason |}
      else if Dir resolved ==b sep then critical "root_child"
      else no_match.

(** The first matching target; [options] says that options may still come. *)
Fixpoint classify_targets (options : bool) (words : list criticalPathWord) (cwd home : bytes)
    : BashCriticalPathDecision :=
  match words with
  | [] => no_match
  | target :: rest =>
      if options && (value target ==b lit "--") then classify_targets false rest cwd home
      else if options && HasPrefix (value target) (lit "-") && (value target <>b lit "-")
      then classify_targets true rest cwd home
      else
        let decision := classifyCriticalPathTarget target cwd home in
        if Match_ decision then decision else classify_targets false rest cwd home
  end.

Definition classifyCriticalPathSegment (words : list criticalPathWord) (cwd home : bytes)
    : BashCriticalPathDecision :=
  let rest :=
    match words with
    | w :: words' =>
        if (value w ==b lit "command") || (value w ==b lit "builtin") then words' else words
    | [] => []
    end in
  match rest with
  | w :: targets =>
      if (value w ==b lit "rm") || (value w ==b lit "rmdir")
      then classify_targets true targets cwd home
      else no_match
  | [] => no_match
  end.

Fixpoint classify_segments (segs : list (list criticalPathWord)) (cwd home : bytes)
    : BashCriticalPathDecision :=
  match segs with
  | [] => no_match
  | seg :: rest =>
      let decision := classifyCriticalPathSegment seg cwd home in
      if Match_ decision then decision else classify_segments rest cwd home
  end.

Definition ClassifyBashCriticalPath (command cwd home : bytes) : BashCriticalPathDecision :=
  if negb (IsAbs cwd) || negb (IsAbs home) then no_match
  else
    match tokenizeCriticalPathCommand command with
    | None => no_match
    | Some segs => classify_segments segs (Clean cwd) (Clean home)
    end.

(** ** Which targets are critical *)

(** The path a literal target denotes. *)
Definition target_path (w cwd : bytes) : bytes :=
  Clean (if IsAbs w then w else Join_path [cwd; w]).

(** The root, its children, the home directory, and the volumes with their
    children. *)
Definition critical_place (p home : bytes) : bool :=
  let l := clean_comps p in
  (length l <=? 1) || (p ==b home)
  || (match l with v :: _ => v ==b lit "Volumes" | [] => false end && (length l <=? 3)).

Lemma volume_below m :
  Forall name_comp m -> m <> [] ->
  classifyCriticalVolumePath (path_of true (lit "Volumes" :: m)) =
  match length m with 1 => lit "volume_root" | 2 => lit "volume_child" | _ => [] end.
Proof.
  intros Hm Hne. unfold classifyCriticalVolumePath.
  assert (E : path_of true (lit "Volumes" :: m) = lit "/Volumes/" ++ Join m sep)
    by (by destruct m).
  rewrite E, HasPrefix_app, drop_app_length. cbn [negb].
  assert (Hs : Split (Join m sep) sep = m).
  { apply Split_Join; [done|]. eapply Forall_impl; [exact Hm|]. by intros c (_&_&_&?). }
  by rewrite Hs.
Qed.

Lemma name_Volumes : name_comp (lit "Volumes").
Proof. repeat split; try done. by apply (bool_decide_unpack _). Qed.

Lemma volume_elsewhere l :
  Forall name_comp l -> (match l with v :: _ :: _ => v ==b lit "Volumes" | _ => false end) = false ->
  classifyCriticalVolumePath (path_of true l) = [].
Proof.
  intros Hl Hv. unfold classifyCriticalVolumePath.
  destruct (HasPrefix _ _) eqn:E; [|done]. apply HasPrefix_true in E.
  assert (Hp : [lit "Volumes"] `prefix_of` l).
  { apply below_prefix; [|done|done|by right]. constructor; [apply name_Volumes|constructor]. }
  destruct Hp as [m ->]. destruct m as [|x m]; [|by vm_compute in Hv].
  apply prefix_length in E. vm_compute in E. lia.
Qed.

Lemma Dir_root l :
  Forall name_comp l -> l <> [] -> (Dir (path_of true l) ==b sep) = (length l =? 1).
Proof.
  intros Hl Hne. destruct l as [|x l _] using rev_ind; [done|].
  rewrite Dir_path_of by (by apply canonical_rooted).
  apply Forall_app in Hl as [Hl _]. destruct l as [|c l].
  - done.
  - rewrite bool_decide_eq_false_2.
    + rewrite length_app. cbn. by rewrite Nat.add_comm.
    + intros E. apply (f_equal clean_comps) in E.
      rewrite path_of_comps in E by (by apply canonical_rooted). done.
Qed.

Lemma target_path_abs w cwd : IsAbs cwd = true -> IsAbs (target_path w cwd) = true.
Proof.
  intros H. unfold target_path. rewrite Clean_abs. destruct (IsAbs w) eqn:E; [done|].
  destruct cwd as [|c cwd]; [done|]. cbn [Join_path].
  rewrite bool_decide_eq_false_2 by done. rewrite Clean_abs. cbn [Join app].
  by rewrite IsAbs_cons in *.
Qed.

(** The decision on a literal target, by the components of the path. *)
Lemma classify_target_literal w cwd home :
  IsAbs cwd = true ->
  Match_ (classifyCriticalPathTarget
            {| value := w; unquotedTilde := false; unquotedStars := [] |} cwd home) =
  critical_place (target_path w cwd) home.
Proof.
  intros Hc. unfold classifyCriticalPathTarget. cbn [unquotedStars length Nat.eqb].
  rewrite andb_false_r. cbn [value]. fold (target_path w cwd).
  assert (Ha := target_path_abs w cwd Hc).
  assert (Hl := clean_comps_canonical (target_path w cwd)).
  rewrite Ha, canonical_rooted in Hl.
  assert (Et : target_path w cwd = path_of true (clean_comps (target_path w cwd))).
  { rewrite <- Ha at 1. symmetry. apply Clean_idemp. }
  unfold critical_place. generalize dependent (clean_comps (target_path w cwd)).
  intros l Hl Et. rewrite Et. clear Et Ha.
  destruct l as [|c l].
  { by rewrite bool_decide_eq_true_2. }
  rewrite (bool_decide_eq_false_2 (path_of true (c :: l) = sep)).
  2:{ intros E. apply (f_equal clean_comps) in E.
      rewrite path_of_comps in E by (by apply canonical_rooted). done. }
  destruct (path_of true (c :: l) ==b home); [by rewrite orb_true_r|]. rewrite orb_false_r.
  rewrite Dir_root by done. destruct l as [|d l].
  { rewrite volume_elsewhere by done. done. }
  destruct (c ==b lit "Volumes") eqn:Ev.
  - breflect. subst c. rewrite volume_below by (done || by inversion Hl).
    by destruct l as [|e [|f l]].
  - rewrite volume_elsewhere by done. done.
Qed.

(** ** Quoted words *)

Definition squote (w : bytes) : bytes := SQUOTE :: w ++ [SQUOTE].

(** Text that can stand between single quotes. *)
Definition quotable (w : bytes) : bool :=
  forallb (fun c => (c <>b SQUOTE) && negb (expands c)) w.

Definition write_bytes (w : bytes) (st : tok_state) : tok_state :=
  {| segments := segments st; segment := segment st; cur_tilde := cur_tilde st;
     cur_stars := cur_stars st; cur_value := cur_value st ++ w;
     wordStarted := wordStarted st; requiresNext := requiresNext st |}.

Lemma tok_single w s st :
  quotable w = true -> tok InSingle (w ++ SQUOTE :: s) st = tok Unquoted s (write_bytes w st).
Proof.
  revert st. induction w as [|c w IH]; intros st Hw; cbn [app tok].
  - rewrite bool_decide_eq_true_2 by done. f_equal. destruct st. unfold write_bytes. cbn.
    by rewrite app_nil_r.
  - cbn [quotable forallb] in Hw. apply andb_true_iff in Hw as [Hc Hw]. breflect.
    rewrite (bool_decide_eq_false_2 (c = SQUOTE)) by done. rewrite H0.
    rewrite IH by done. f_equal. unfold write_bytes, write_byte. cbn. by rewrite <- app_assoc.
Qed.

Lemma tok_squote w s st :
  quotable w = true ->
  tok Unquoted (squote w ++ s) st = tok Unquoted s (write_bytes w (start_word st)).
Proof.
  intros Hw. unfold squote. rewrite <- app_comm_cons, <- app_assoc. cbn [app].
  rewrite <- tok_single by done. done.
Qed.

Definition literal_word (w : bytes) : criticalPathWord :=
  {| value := w; unquotedTilde := false; unquotedStars := [] |}.

(** The state between two words of a segment. *)
Definition at_word (segs : list (list criticalPathWord)) (seg : list criticalPathWord)
    (req : bool) : tok_state :=
  {| segments := segs; segment := seg; cur_tilde := false; cur_stars := []; cur_value := [];
     wordStarted := false; requiresNext := req |}.

Lemma tok_words ws segs seg req :
  ws <> [] -> Forall (fun w => quotable w = true) ws ->
  exists st, tok Unquoted (Join (map squote ws) [SP]) (at_word segs seg req) = Some st /\
    flushWord st = at_word segs (seg ++ map literal_word ws) false.
Proof.
  intros Hne Hws. revert seg req. induction Hws as [|w ws Hw Hws IH]; [done|].
  intros seg req. destruct ws as [|w' ws].
  - cbn [map Join]. rewrite <- (app_nil_r (squote w)), tok_squote by done. cbn [tok].
    eexists. split; [done|]. done.
  - change (Join (map squote (w :: w' :: ws)) [SP])
      with (squote w ++ [SP] ++ Join (map squote (w' :: ws)) [SP]).
    rewrite tok_squote by done. cbn [app tok].
    rewrite (bool_decide_eq_true_2 (SP = SP)) by done. cbn [orb].
    destruct (IH ltac:(done) (seg ++ [literal_word w]) false) as (st & H1 & H2).
    exists st. split; [exact H1|]. rewrite H2. unfold at_word. f_equal.
    by rewrite <- app_assoc.
Qed.

Lemma tokenize_quoted ws :
  ws <> [] -> Forall (fun w => quotable w = true) ws ->
  tokenizeCriticalPathCommand (Join (map squote ws) [SP]) = Some [map literal_word ws].
Proof.
  intros Hne Hws. unfold tokenizeCriticalPathCommand.
  destruct (tok_words ws [] [] false Hne Hws) as (st & H1 & H2).
  change tok_init with (at_word [] [] false). rewrite H1. cbv zeta. rewrite H2.
  cbn [at_word requiresNext segment segments app]. rewrite length_map.
  destruct ws as [|w ws]; [done|]. cbn [length Nat.ltb Nat.leb Nat.eqb].
  assert (Hg : forallb (forallb supportedCriticalPathGlob) [map literal_word (w :: ws)] = true).
  { cbn [forallb]. rewrite andb_true_r. apply forallb_elem_of.
    intros x (y & -> & _)%list_elem_of_fmap. done. }
  by rewrite Hg.
Qed.

(** ** Sequences of commands *)

(** Both sides of an implication between results take the same branch. *)
Ltac same_branch :=
  match goal with
  | |- None = Some _ -> _ => discriminate 1
  | |- (if ?b then _ else _) = _ -> _ => destruct b
  | |- match ?e with Some _ => _ | None => _ end = _ -> _ => destruct e
  | |- match ?l with [] => _ | _ :: _ => _ end = _ -> _ => is_var l; destruct l; cbn [app]
  end.

Lemma tok_app q s t st st' :
  tok q s st = Some st' -> tok q (s ++ t) st = tok Unquoted t st'.
Proof.
  revert q st. induction s as [s IH] using (induction_ltof1 _ length); unfold ltof in IH.
  intros q st. destruct s as [|c s]; [destruct q; cbn [tok app]; try done; by intros [= ->]|].
  assert (IH1 : forall q st, tok q s st = Some st' -> tok q (s ++ t) st = tok Unquoted t st')
    by (intros; apply IH; [cbn; lia|done]).
  assert (IH2 : forall d s2 q st, s = d :: s2 ->
            tok q s2 st = Some st' -> tok q (s2 ++ t) st = tok Unquoted t st')
    by (intros d s2 q' st0 -> ?; apply IH; [cbn; lia|done]).
  clear IH. rewrite <- app_comm_cons. cbn [tok].
  destruct q; repeat first [ apply IH1 | by eapply IH2 | same_branch ].
Qed.

(** Earlier segments do not influence the scan. *)
Definition after_segs (pre : list (list criticalPathWord)) (st : tok_state) : tok_state :=
  {| segments := pre ++ segments st; segment := segment st; cur_tilde := cur_tilde st;
     cur_stars := cur_stars st; cur_value := cur_value st; wordStarted := wordStarted st;
     requiresNext := requiresNext st |}.

Lemma flushWord_after pre st : flushWord (after_segs pre st) = after_segs pre (flushWord st).
Proof. unfold flushWord. cbn. by destruct (wordStarted st). Qed.

Lemma flushSegment_after pre r st :
  flushSegment r (after_segs pre st) = after_segs pre <$> flushSegment r st.
Proof.
  unfold flushSegment. rewrite flushWord_after. cbn.
  destruct (length (segment (flushWord st)) =? 0); [done|]. cbn. unfold after_segs. cbn.
  by rewrite app_assoc.
Qed.

Lemma end_line_after pre st : end_line (after_segs pre st) = after_segs pre <$> end_line st.
Proof.
  unfold end_line. rewrite flushWord_after. cbn [segment after_segs].
  destruct (0 <? length (segment (flushWord st))); [apply flushSegment_after|done].
Qed.

Lemma plain_char_after pre c st :
  plain_char c (after_segs pre st) = after_segs pre <$> plain_char c st.
Proof. unfold plain_char. cbn. by destruct (_ || _). Qed.

Lemma write_byte_after pre c st :
  write_byte c (after_segs pre st) = after_segs pre (write_byte c st).
Proof. done. Qed.

Lemma start_word_after pre st : start_word (after_segs pre st) = after_segs pre (start_word st).
Proof. done. Qed.

Lemma tok_after pre q s st : tok q s (after_segs pre st) = after_segs pre <$> tok q s st.
Proof.
  revert q st. induction s as [s IH] using (induction_ltof1 _ length); unfold ltof in IH.
  intros q st. destruct s as [|c s]; [by destruct q|].
  assert (IH1 : forall q st, tok q s (after_segs pre st) = after_segs pre <$> tok q s st)
    by (intros; apply IH; cbn; lia).
  assert (IH2 : forall d s2 q st, s = d :: s2 ->
            tok q s2 (after_segs pre st) = after_segs pre <$> tok q s2 st)
    by (intros d s2 q' st0 ->; apply IH; cbn; lia).
  clear IH. cbn [tok]. rewrite flushWord_after, end_line_after, !flushSegment_after, plain_char_after.
  destruct q;
    repeat first [ done
                 | progress rewrite ?start_word_after, ?write_byte_after
                 | apply IH1 | by eapply IH2
                 | match goal with
                   | |- (if ?b then _ else _) = _ => destruct b
                   | |- match _ <$> ?e with Some _ => _ | None => _ end = _ => destruct e; cbn [fmap option_fmap option_map]
                   | |- match ?l with [] => _ | _ :: _ => _ end = _ => is_var l; destruct l
                   end ].
Qed.

Lemma flushWord_idemp st : flushWord (flushWord st) = flushWord st.
Proof. unfold flushWord at 2 3. destruct (wordStarted st) eqn:E; cbn [negb]; [done|]. unfold flushWord. by rewrite E. Qed.

(** What a scan leaves when it accepts a command: no word in progress. *)
Definition at_rest (st : tok_state) : Prop :=
  cur_tilde st = false /\ cur_stars st = [] /\ cur_value st = [] /\ wordStarted st = false.

(** The word variables are reset while no word is in progress. *)
Definition idle_clean (st : tok_state) : Prop :=
  wordStarted st = false -> cur_tilde st = false /\ cur_stars st = [] /\ cur_value st = [].

Lemma flushWord_rest st : idle_clean st -> at_rest (flushWord st).
Proof.
  unfold idle_clean, at_rest, flushWord. destruct (wordStarted st) eqn:E; cbn [negb]; [done|].
  rewrite E. naive_solver.
Qed.

Lemma rest_idle st : at_rest st -> idle_clean st.
Proof. unfold at_rest, idle_clean. naive_solver. Qed.

Lemma flushSegment_rest r st st' : idle_clean st -> flushSegment r st = Some st' -> at_rest st'.
Proof.
  intros Hi%flushWord_rest. unfold flushSegment. destruct (_ =? 0); [done|].
  intros [= <-]. done.
Qed.

Lemma tok_idle q s st st' :
  idle_clean st -> (q <> Unquoted -> wordStarted st = true) ->
  tok q s st = Some st' -> idle_clean st'.
Proof.
  revert q st. induction s as [s IH] using (induction_ltof1 _ length); unfold ltof in IH.
  intros q st Hi Hq. destruct s as [|c s]; [destruct q; [by intros [= <-]|done|done]|].
  assert (IH1 : forall q st, idle_clean st -> (q <> Unquoted -> wordStarted st = true) ->
            tok q s st = Some st' -> idle_clean st') by (intros q' st0 ??; apply IH; [cbn; lia|done|done]).
  assert (IH2 : forall d s2 q st, s = d :: s2 -> idle_clean st ->
            (q <> Unquoted -> wordStarted st = true) -> tok q s2 st = Some st' -> idle_clean st')
    by (intros d s2 q' st0 -> ??; apply IH; [cbn; lia|done|done]).
  assert (Hstart : forall st0, wordStarted st0 = true -> idle_clean st0)
    by (intros st0 E; unfold idle_clean; by rewrite E).
  clear IH. cbn [tok].
  assert (Hpc : forall st1, plain_char c st = Some st1 -> idle_clean st1).
  { unfold plain_char. intros st1. destruct (_ || _ || _); [done|]. intros [= <-].
    by apply Hstart. }
  assert (Hel : forall st1, end_line st = Some st1 -> idle_clean st1).
  { unfold end_line. intros st1. assert (Hr := flushWord_rest _ Hi).
    destruct (_ <? _); [|by intros [= <-]; apply rest_idle].
    intros Hs. by eapply rest_idle, flushSegment_rest, Hs; apply rest_idle. }
  assert (Hfs : forall r st1, flushSegment r st = Some st1 -> idle_clean st1)
    by (intros r st1 Hs; by eapply rest_idle, flushSegment_rest).
  destruct q;
    repeat first
      [ apply IH1; [by eauto using rest_idle, flushWord_rest | by auto]
      | eapply IH2; [done | by eauto using rest_idle, flushWord_rest | by auto]
      | match goal with
        | |- None = Some _ -> _ => discriminate 1
        | |- (if ?b then _ else _) = _ -> _ => destruct b
        | |- match ?e with Some _ => _ | None => _ end = _ -> _ => destruct e eqn:?
        | |- match ?l with [] => _ | _ :: _ => _ end = _ -> _ => is_var l; destruct l
        end ].
Qed.

(** The segments a finished scan holds. *)
Definition scanned (st : tok_state) : list (list criticalPathWord) :=
  segments (flushWord st) ++ (if 0 <? length (segment (flushWord st))
                              then [segment (flushWord st)] else []).

Lemma tokenize_Some c segs :
  tokenizeCriticalPathCommand c = Some segs <->
  exists st, tok Unquoted c tok_init = Some st /\ requiresNext (flushWord st) = false /\
    scanned st = segs /\ segs <> [] /\
    forallb (forallb supportedCriticalPathGlob) segs = true.
Proof.
  unfold tokenizeCriticalPathCommand, scanned.
  destruct (tok Unquoted c tok_init) as [st|]; [|naive_solver]. cbv zeta.
  set (sg := if 0 <? length (segment (flushWord st)) then _ else segments _).
  assert (E : sg = segments (flushWord st) ++ (if 0 <? length (segment (flushWord st))
                              then [segment (flushWord st)] else [])).
  { unfold sg. destruct (_ <? _); [done|]. by rewrite app_nil_r. }
  split.
  - destruct (requiresNext (flushWord st)) eqn:E1; [done|].
    destruct (length sg =? 0) eqn:E2; [done|]. apply Nat.eqb_neq in E2.
    destruct (forallb (forallb supportedCriticalPathGlob) sg) eqn:E3; [|done]. intros [= <-].
    exists st. rewrite <- E. split_and!; try done. intros Hs. apply E2. by rewrite Hs.
  - intros (st' & [= <-] & E1 & E0 & E2 & E3). rewrite E0 in E. rewrite E, E1, E3.
    by destruct segs.
Qed.

Lemma end_line_scanned st :
  idle_clean st -> requiresNext (flushWord st) = false ->
  end_line st = Some (after_segs (scanned st) tok_init).
Proof.
  intros Hi Hr. unfold end_line, scanned.
  destruct (flushWord_rest _ Hi) as (H1 & H2 & H3 & H4).
  destruct (segment (flushWord st)) as [|w ws] eqn:E; cbn [length Nat.ltb Nat.leb].
  - rewrite app_nil_r. f_equal. unfold after_segs, tok_init. cbn.
    destruct (flushWord st). cbn in *. subst. by rewrite app_nil_r.
  - unfold flushSegment. rewrite flushWord_idemp, E. cbn [length Nat.eqb].
    unfold after_segs, tok_init. cbn. by rewrite H1, H2, H3, H4, app_nil_r.
Qed.

Lemma tokenize_newline c1 c2 s1 s2 :
  tokenizeCriticalPathCommand c1 = Some s1 -> tokenizeCriticalPathCommand c2 = Some s2 ->
  tokenizeCriticalPathCommand (c1 ++ NL :: c2) = Some (s1 ++ s2).
Proof.
  intros (st1 & T1 & R1 & <- & N1 & G1)%tokenize_Some (st2 & T2 & R2 & <- & N2 & G2)%tokenize_Some.
  apply tokenize_Some. exists (after_segs (scanned st1) st2).
  assert (I1 : idle_clean st1) by (eapply tok_idle; [|done|exact T1]; done).
  split_and!.
  - rewrite (tok_app _ _ _ _ _ T1). cbn [tok]. rewrite end_line_scanned by done.
    rewrite tok_after, T2. done.
  - by rewrite flushWord_after.
  - unfold scanned at 1. rewrite flushWord_after. cbn [after_segs segments segment].
    rewrite <- app_assoc. done.
  - intros H%app_eq_nil. naive_solver.
  - rewrite forallb_app, G1, G2. done.
Qed.

Lemma classify_segments_app s1 s2 cwd home :
  classify_segments (s1 ++ s2) cwd home =
  if Match_ (classify_segments s1 cwd home) then classify_segments s1 cwd home
  else classify_segments s2 cwd home.
Proof.
  induction s1 as [|g s1 IH]; [done|]. cbn [app classify_segments].
  destruct (Match_ (classifyCriticalPathSegment g cwd home)) eqn:E; [by rewrite E|exact IH].
Qed.

Lemma classify_rm_rf w cwd home :
  HasPrefix w (lit "-") = false ->
  classifyCriticalPathSegment (map literal_word [lit "rm"; lit "-rf"; w]) cwd home =
  let d := classifyCriticalPathTarget (literal_word w) cwd home in
  if Match_ d then d else no_match.
Proof.
  intros Hd. change (classifyCriticalPathSegment _ cwd home)
    with (classify_targets true [literal_word w] cwd home).
  cbn [classify_targets literal_word value].
  rewrite (bool_decide_eq_false_2 (w = lit "--")) by (by intros ->). by rewrite Hd.
Qed.

(** ** Properties *)

(** On the removal of a quoted target the classification is exact: it reports
    the command precisely when the path denoted is the root, a child of the
    root, the home directory, a mounted volume or a child of one. *)
Theorem rm_quoted_target_exact w cwd home :
  IsAbs cwd = true -> IsAbs home = true -> quotable w = true -> HasPrefix w (lit "-") = false ->
  Match_ (ClassifyBashCriticalPath (Join (map squote [lit "rm"; lit "-rf"; w]) [SP]) cwd home) =
  critical_place (target_path w (Clean cwd)) (Clean home).
Proof.
  intros Hc Hh Hw Hd. unfold ClassifyBashCriticalPath. rewrite Hc, Hh. cbn [negb orb].
  rewrite tokenize_quoted by (first [done | by repeat constructor]).
  rewrite <- classify_target_literal by (by rewrite Clean_abs). fold (literal_word w).
  cbn [classify_segments].
  rewrite (classify_rm_rf w) by done. cbv zeta.
  by destruct (classifyCriticalPathTarget _ _ _) as [[] r].
Qed.

Lemma rm_quoted_target_exact_witness :
  Match_ (ClassifyBashCriticalPath (lit "'rm' '-rf' '../../..'") (lit "/home/u/p") (lit "/home/u"))
  = critical_place (lit "/") (lit "/home/u").
Proof.
  apply (rm_quoted_target_exact (lit "../../..") (lit "/home/u/p") (lit "/home/u"));
    by vm_compute.
Defined.

(** A script is reported exactly when one of its lines is: putting supported
    commands on separate lines neither hides a critical removal nor adds one. *)
Theorem classify_lines c1 c2 cwd home :
  is_Some (tokenizeCriticalPathCommand c1) -> is_Some (tokenizeCriticalPathCommand c2) ->
  Match_ (ClassifyBashCriticalPath (c1 ++ NL :: c2) cwd home) =
  Match_ (ClassifyBashCriticalPath c1 cwd home) || Match_ (ClassifyBashCriticalPath c2 cwd home).
Proof.
  intros [s1 H1] [s2 H2]. unfold ClassifyBashCriticalPath.
  destruct (_ || _); [done|]. rewrite (tokenize_newline _ _ _ _ H1 H2), H1, H2.
  rewrite classify_segments_app. by destruct (Match_ (classify_segments s1 _ _)) eqn:E; rewrite ?E.
Qed.

Lemma classify_lines_witness :
  Match_ (ClassifyBashCriticalPath (lit "echo 'a b' && ls" ++ NL :: lit "rm -rf ~") (lit "/p") (lit "/h"))
  = true.
Proof.
  rewrite (classify_lines (lit "echo 'a b' && ls") (lit "rm -rf ~") (lit "/p") (lit "/h"));
    [by vm_compute | eexists; by vm_compute | eexists; by vm_compute].
Defined.
