(* ===== verification/RiskClassifier.v ===== *)
(** * Static risk classification ([engine/permission/risk_classifier.go]) *)

From S2P Require Import Prelude GoStrings Regex ShellMatch Rules BashLex BashSecurity ReadOnly.

Inductive ToolRiskLevel : Type := RiskReadOnly | RiskWrite | RiskDestructive | RiskUnknown.

#[export] Instance ToolRiskLevel_eq_dec : EqDecision ToolRiskLevel.
Proof. solve_decision. Defined.

Record RiskClassification := {
  rc_Level : ToolRiskLevel;
  rc_Reason : bytes;
}.

(** The two tool sets. *)
Record ToolRiskClassifier := {
  readOnlyTools : list bytes;
  writeTools : list bytes;
}.

Definition NewToolRiskClassifier : ToolRiskClassifier := {|
  readOnlyTools := map lit
    ["Read"; "Grep"; "Glob"; "WebFetch"; "WebSearch"; "AskUserQuestion"; "EnterPlanMode";
     "ExitPlanMode"; "TaskCreate"; "TaskGet"; "TaskUpdate"; "TaskList"; "TaskStop";
     "TaskOutput"; "Agent"; "TodoWrite"];
  writeTools := map lit ["Write"; "Edit"];
|}.

Definition truncateForReason (s : bytes) : bytes :=
  if length s <=? 60 then s else take 57 s ++ lit "...".

Definition containsForceFlag (command : bytes) : bool :=
  existsb (fun f => (f ==b lit "--force") || (f ==b lit "-f")) (Fields command).

Definition destructiveCommands : list bytes := map lit
  ["rm"; "rmdir"; "shred"; "mkfs"; "dd"; "kill"; "killall"; "pkill"; "reboot"; "shutdown";
   "halt"; "poweroff"].

(** The value of the map [destructiveGitOps] at a key, [false] when absent. *)
Definition destructiveGitOps (command twoWord : bytes) : bool :=
  if twoWord ==b lit "git push" then containsForceFlag command
  else member twoWord (map lit ["git reset"; "git clean"; "git rebase"; "git cherry-pick"]).

Definition isDestructiveBashCommand (command : bytes) : bool :=
  let firstWord := extractFirstWord command in
  if member firstWord destructiveCommands then true
  else
    let twoWord := extractFirstTwoWords command in
    if destructiveGitOps command twoWord then true
    else
      let dangerousResult := DetectDangerousPatterns command in
      HasCurlPipe dangerousResult || HasEval dangerousResult || HasDDWrite dangerousResult.

Definition classifyBashCommand (i : input) : RiskClassification :=
  let command := default [] (string_field i (lit "command")) in
  if command ==b [] then {| rc_Level := RiskUnknown; rc_Reason := lit "empty bash command" |}
  else
    let command := TrimSpace command in
    if IsReadOnlyCommand command then
      {| rc_Level := RiskReadOnly;
         rc_Reason := lit "bash command is read-only: " ++ truncateForReason command |}
    else if isDestructiveBashCommand command then
      {| rc_Level := RiskDestructive;
         rc_Reason := lit "bash command is destructive: " ++ truncateForReason command |}
    else
      {| rc_Level := RiskWrite;
         rc_Reason := lit "bash command modifies state: " ++ truncateForReason command |}.

(** [Classify]; [None] is the nil classifier. *)
Definition Classify (c : option ToolRiskClassifier) (toolName : bytes) (toolInput : input)
    : RiskClassification :=
  match c with
  | None => {| rc_Level := RiskUnknown; rc_Reason := lit "no classifier configured" |}
  | Some c =>
      if member toolName (readOnlyTools c) then
        {| rc_Level := RiskReadOnly; rc_Reason := toolName ++ lit " is a read-only tool" |}
      else if member toolName (writeTools c) then
        {| rc_Level := RiskWrite; rc_Reason := toolName ++ lit " modifies files" |}
      else if HasPrefix toolName (lit "mcp__") then
        {| rc_Level := RiskWrite;
           rc_Reason := lit "MCP tool (external side effects possible)" |}
      else if toolName ==b lit "Bash" then classifyBashCommand toolInput
      else {| rc_Level := RiskUnknown; rc_Reason := lit "unknown tool " ++ toolName |}
  end.

(** ** Lemmas *)

Lemma IsReadOnlyCommand_trim c : IsReadOnlyCommand (TrimSpace c) = IsReadOnlyCommand c.
Proof. unfold IsReadOnlyCommand. by rewrite TrimSpace_idemp. Qed.

(** What the default classifier calls read-only: a tool of the list, or a
    non-empty Bash command that the read-only analysis accepts. *)
Lemma Classify_read_only toolName i :
  rc_Level (Classify (Some NewToolRiskClassifier) toolName i) = RiskReadOnly ->
  toolName ∈ readOnlyTools NewToolRiskClassifier \/
  (toolName = lit "Bash" /\ exists c, string_field i (lit "command") = Some c /\ c <> [] /\
     IsReadOnlyCommand c = true).
Proof.
  unfold Classify. destruct (member toolName (readOnlyTools _)) eqn:E1.
  { left. by apply bool_decide_eq_true in E1. }
  destruct (member toolName (writeTools _)); [done|].
  destruct (HasPrefix _ _); [done|]. destruct (toolName ==b lit "Bash") eqn:E2; [|done].
  breflect. unfold classifyBashCommand. destruct (string_field i (lit "command")) as [c|]; cbn [default]; [|done].
  change (id c) with c. destruct (c ==b []) eqn:E3; [done|]. breflect.
  rewrite IsReadOnlyCommand_trim. destruct (IsReadOnlyCommand c) eqn:E4; [eauto 6|].
  by destruct (isDestructiveBashCommand _).
Qed.
