(* ===== verification/Evaluator.v ===== *)
(** * The permission pipeline ([engine/permission/evaluator.go])

    The evaluator composes the denial rate limiter, the session store, the
    rules with specificity-first precedence, the mode, the acceptEdits check
    and the risk classifier. *)

From S2P Require Import Prelude GoStrings Regex ShellMatch ShellMatchFacts Rules Precedence Mode.
From S2P Require Import DenialTracking SessionStore Paths PathResolution BashLex BashSecurity ReadOnly RiskClassifier.

(** ** State *)

Inductive EvaluationSource : Type :=
| SourceEvalSessionStore | SourceEvalRule | SourceEvalMode | SourceEvalRateLimit
| SourceEvalClassification | SourceEvalAcceptEdits.

#[export] Instance EvaluationSource_eq_dec : EqDecision EvaluationSource.
Proof. solve_decision. Defined.

(** [er_RiskLevel] is [None] for the empty level. *)
Record EvaluationResult := {
  er_Decision : PermissionAction;
  er_Reason : bytes;
  er_Source : EvaluationSource;
  er_MatchedRule : option PermissionRule;
  er_RiskLevel : option ToolRiskLevel;
}.

(** The pointer fields may be nil. *)
Record Evaluator := {
  ev_SessionStore : option SessionStore;
  ev_Rules : option RulesEngine;
  ev_Mode : Mode;
  ev_DenialTracking : option DenialTrackingState;
  ev_Classifier : option ToolRiskClassifier;
  ev_WorkingDir : bytes;
}.

Record EvaluatorConfig := {
  cfg_SessionStore : option SessionStore;
  cfg_Rules : list PermissionRule;
  cfg_Mode : Mode;
  cfg_WorkingDir : bytes;
}.

Definition NewEvaluator (cfg : EvaluatorConfig) : Evaluator := {|
  ev_SessionStore := Some (default NewSessionStore (cfg_SessionStore cfg));
  ev_Rules := Some (NewRulesEngine (cfg_Rules cfg));
  ev_Mode := if mode_string (cfg_Mode cfg) ==b [] then ModeDefault else cfg_Mode cfg;
  ev_DenialTracking := Some NewDenialTrackingState;
  ev_Classifier := Some NewToolRiskClassifier;
  ev_WorkingDir := cfg_WorkingDir cfg;
|}.

(** ** Specificity-first resolution *)

Definition actionPriority (a : PermissionAction) : nat :=
  match a with
  | ActionDeny => 3 | ActionAsk => 2 | ActionAllow => 1 | ActionOther _ => 0
  end.

(** [m] replaces [best]: more specific, or as specific with a higher priority. *)
Definition outranks (m best : RuleMatch) : bool :=
  if isMoreSpecific m best then true
  else if negb (isMoreSpecific best m)
  then actionPriority (Action (rm_Rule best)) <? actionPriority (Action (rm_Rule m))
  else false.

Definition formatRuleDescription (rule : option PermissionRule) : bytes :=
  match rule with
  | None => lit "<nil>"
  | Some rule =>
      ToolName rule
      ++ (if InputPattern rule <>b [] then lit "(" ++ InputPattern rule ++ lit ")" else [])
      ++ lit ":" ++ action_string (Action rule)
      ++ (if Source rule <>b [] then lit " [" ++ Source rule ++ lit "]" else [])
  end.

Section with_format.
Context `{GoFormat, Host}.

Definition resolveWithSpecificity (e : option RulesEngine) (toolName : bytes)
    (toolInput : input) : PermissionAction * option PermissionRule * bool :=
  match e with
  | None => (ActionAsk, None, false)
  | Some e =>
      match collectMatches e toolName toolInput with
      | [] => (ActionAsk, None, false)
      | first :: rest =>
          let best := select_best outranks first rest in
          (Action (rm_Rule best), Some (rm_Rule best), true)
      end
  end.

(** ** The pipeline *)

(** U+2192, the arrow of the reason text. *)
Definition arrow : bytes := [chr 226; chr 134; chr 146].

Definition simple_result (d : PermissionAction) (reason : bytes) (source : EvaluationSource)
    : EvaluationResult :=
  {| er_Decision := d; er_Reason := reason; er_Source := source;
     er_MatchedRule := None; er_RiskLevel := None |}.

(** Steps 4b to 6: no rule matched. *)
Definition evaluate_unmatched (e : Evaluator) (toolName : bytes) (toolInput : input)
    : EvaluationResult :=
  let mode := ev_Mode e in
  if (mode ==b ModeAcceptEdits) && AcceptEditsCheck toolName toolInput (ev_WorkingDir e) [] then
    simple_result ActionAllow
      (lit "auto-allowed by acceptEdits mode (file operation within working directory)")
      SourceEvalAcceptEdits
  else
    let modeDefault := DefaultBehavior mode in
    match (modeDefault ==b ActionAsk), ev_Classifier e with
    | true, Some classifier =>
        let classification := Classify (Some classifier) toolName toolInput in
        match rc_Level classification with
        | RiskReadOnly =>
            {| er_Decision := ActionAllow;
               er_Reason := lit "auto-allowed: " ++ toolName ++ lit " classified as read-only ("
                            ++ rc_Reason classification ++ lit ")";
               er_Source := SourceEvalClassification; er_MatchedRule := None;
               er_RiskLevel := Some RiskReadOnly |}
        | RiskDestructive =>
            {| er_Decision := ActionAsk;
               er_Reason := lit "requires confirmation: " ++ toolName
                            ++ lit " classified as destructive ("
                            ++ rc_Reason classification ++ lit ")";
               er_Source := SourceEvalClassification; er_MatchedRule := None;
               er_RiskLevel := Some RiskDestructive |}
        | _ =>
            {| er_Decision := modeDefault;
               er_Reason := lit "mode " ++ mode_string mode ++ lit " default (" ++ toolName
                            ++ lit " classified as write-level risk: "
                            ++ rc_Reason classification ++ lit ")";
               er_Source := SourceEvalMode; er_MatchedRule := None;
               er_RiskLevel := Some RiskWrite |}
        end
    | _, _ =>
        simple_result modeDefault
          (lit "no rule matched; mode " ++ mode_string mode ++ lit " default = "
           ++ action_string modeDefault) SourceEvalMode
    end.

(** Steps 3 and 4a: the rules. *)
Definition evaluate_rules (e : Evaluator) (toolName : bytes) (toolInput : input)
    : EvaluationResult :=
  let '(ruleAction, matchedRule, ruleMatched) :=
    match ev_Rules e with
    | None => (ActionOther [], None, false)
    | Some _ => resolveWithSpecificity (ev_Rules e) toolName toolInput
    end in
  if ruleMatched then
    let finalAction := EvaluateWithMode (ev_Mode e) ruleAction true in
    {| er_Decision := finalAction;
       er_Reason :=
         lit "rule matched: " ++ formatRuleDescription matchedRule
         ++ (if finalAction <>b ruleAction
             then lit " (transformed " ++ action_string ruleAction ++ arrow
                  ++ action_string finalAction ++ lit " by mode "
                  ++ mode_string (ev_Mode e) ++ lit ")"
             else []);
       er_Source := SourceEvalRule; er_MatchedRule := matchedRule; er_RiskLevel := None |}
  else evaluate_unmatched e toolName toolInput.

(** [Evaluator.Evaluate] at the instant [now]. *)
Definition Evaluator_Evaluate (now : Z) (e : Evaluator) (toolName : bytes) (toolInput : input)
    : EvaluationResult :=
  if match ev_DenialTracking e with
     | Some t => IsRateLimited now toolName toolInput t
     | None => false
     end
  then simple_result ActionDeny (lit "rate-limited: same operation was recently denied")
         SourceEvalRateLimit
  else
    match ev_SessionStore e with
    | Some store =>
        match Lookup toolName toolInput store with
        | Some decision =>
            simple_result (sd_Action decision)
              (lit "persisted " ++ action_string (sd_Action decision)
               ++ lit " decision from session store") SourceEvalSessionStore
        | None => evaluate_rules e toolName toolInput
        end
    | None => evaluate_rules e toolName toolInput
    end.
End with_format.

(** ** Updates *)

Definition with_tracking (f : DenialTrackingState -> DenialTrackingState) (e : Evaluator)
    : Evaluator :=
  {| ev_SessionStore := ev_SessionStore e; ev_Rules := ev_Rules e; ev_Mode := ev_Mode e;
     ev_DenialTracking := f <$> ev_DenialTracking e; ev_Classifier := ev_Classifier e;
     ev_WorkingDir := ev_WorkingDir e |}.

Definition with_store (f : SessionStore -> SessionStore) (e : Evaluator) : Evaluator :=
  {| ev_SessionStore := f <$> ev_SessionStore e; ev_Rules := ev_Rules e; ev_Mode := ev_Mode e;
     ev_DenialTracking := ev_DenialTracking e; ev_Classifier := ev_Classifier e;
     ev_WorkingDir := ev_WorkingDir e |}.

Definition Evaluator_RecordDenial (now : Z) (toolName : bytes) (i : input) (reason : bytes)
    (e : Evaluator) : Evaluator :=
  with_tracking (RecordDenialWithDetails now toolName i ReasonRule reason) e.

Definition Evaluator_RecordSuccess (e : Evaluator) : Evaluator := with_tracking RecordSuccess e.

(** [CreatedAt] is the zero time. *)
Definition PersistDecision (toolName inputPattern : bytes) (action : PermissionAction)
    (scope : DecisionScope) (reason : bytes) (e : Evaluator) : Evaluator :=
  with_store (Add {| sd_ToolName := toolName; sd_InputPattern := inputPattern;
                     sd_Action := action; sd_Scope := scope; sd_CreatedAt := 0;
                     sd_Reason := reason |}) e.

Definition GetMode (e : Evaluator) : Mode := ev_Mode e.

Definition SetMode (mode : Mode) (e : Evaluator) : Evaluator :=
  {| ev_SessionStore := ev_SessionStore e; ev_Rules := ev_Rules e; ev_Mode := mode;
     ev_DenialTracking := ev_DenialTracking e; ev_Classifier := ev_Classifier e;
     ev_WorkingDir := ev_WorkingDir e |}.

(** ** Lemmas *)

Lemma outranks_irrefl m : outranks m m = false.
Proof. unfold outranks. rewrite isMoreSpecific_irrefl. cbn. apply Nat.ltb_irrefl. Qed.

Lemma outranks_false m b :
  outranks m b = false <->
  isMoreSpecific m b = false /\
  (isMoreSpecific b m = true \/ actionPriority (Action (rm_Rule m)) <= actionPriority (Action (rm_Rule b))).
Proof.
  unfold outranks. destruct (isMoreSpecific m b), (isMoreSpecific b m); cbn [negb];
    rewrite ?Nat.ltb_ge; naive_solver.
Qed.

Lemma outranks_asym a b : outranks a b = true -> outranks b a = false.
Proof.
  rewrite outranks_false. unfold outranks. destruct (isMoreSpecific a b) eqn:E.
  - intros _. split; [by apply isMoreSpecific_asym|by left].
  - destruct (isMoreSpecific b a) eqn:E'; [done|]. cbn [negb]. rewrite Nat.ltb_lt.
    intros ?. split; [done|right; lia].
Qed.

Lemma outranks_neg_trans a b c :
  outranks a b = false -> outranks b c = false -> outranks a c = false.
Proof.
  rewrite !outranks_false. intros [H1 H2] [H3 H4].
  split; [eapply isMoreSpecific_neg_trans; eauto|].
  destruct (isMoreSpecific c a) eqn:E; [by left|right].
  destruct H2 as [H2|H2].
  { exfalso. assert (Hba : isMoreSpecific b a = false) by (eapply isMoreSpecific_neg_trans; eauto).
    congruence. }
  destruct H4 as [H4|H4]; [|lia].
  exfalso. assert (Hcb : isMoreSpecific c b = false) by (eapply isMoreSpecific_neg_trans; eauto).
  congruence.
Qed.

#[export] Hint Resolve outranks_irrefl outranks_asym outranks_neg_trans : yhc.
