(* ===== verification/EvaluatorFacts.v ===== *)
(** * Properties of the permission pipeline

    What makes the evaluator allow an operation, and how the rate limiter, the
    persisted decisions, the rules and the mode interact. *)

From S2P Require Import Prelude GoStrings Regex ShellMatch ShellMatchFacts Rules Precedence Mode.
From S2P Require Import DenialTracking SessionStore Paths PathResolution BashLex BashSecurity ReadOnly.
From S2P Require Import ReadOnly RiskClassifier Evaluator.

Section pipeline.
Context `{GoFormat, Host}.
Implicit Types (e : Evaluator) (t : bytes) (i : input).

(** ** The ingredients of a decision *)

Definition rate_limited (now : Z) e t i : Prop :=
  exists tr, ev_DenialTracking e = Some tr /\ IsRateLimited now t i tr = true.

Definition session_decision e t i (d : SessionDecision) : Prop :=
  exists store, ev_SessionStore e = Some store /\ Lookup t i store = Some d.

(** A matching rule that no other matching rule outranks. *)
Definition wins e t i (best : RuleMatch) : Prop :=
  exists eng, ev_Rules e = Some eng /\ best ∈ collectMatches eng t i /\
    forall m, m ∈ collectMatches eng t i -> outranks m best = false.

Definition no_rule_matches e t i : Prop :=
  forall eng, ev_Rules e = Some eng -> collectMatches eng t i = [].

Lemma wins_matched e t i best : wins e t i best -> ~ no_rule_matches e t i.
Proof.
  intros (eng & He & Hb & _) Hn. rewrite (Hn eng He) in Hb. by apply not_elem_of_nil in Hb.
Qed.

(** Winners agree on the action, if it is one of the three. *)
Lemma wins_same_action e t i b b' :
  wins e t i b -> wins e t i b' ->
  actionPriority (Action (rm_Rule b)) = actionPriority (Action (rm_Rule b')).
Proof.
  intros (eng & He & Hb & Hm) (eng' & He' & Hb' & Hm'). simplify_eq.
  specialize (Hm b' Hb'). specialize (Hm' b Hb). apply outranks_false in Hm, Hm'.
  destruct Hm as [? [?|?]], Hm' as [? [?|?]]; try congruence. lia.
Qed.

Lemma actionPriority_inj a a' :
  actionPriority a = actionPriority a' -> actionPriority a <> 0 -> a = a'.
Proof. by destruct a, a'. Qed.

Lemma resolve_cases eng t i :
  (collectMatches eng t i = [] /\
   resolveWithSpecificity (Some eng) t i = (ActionAsk, None, false)) \/
  (exists best, best ∈ collectMatches eng t i /\
     (forall m, m ∈ collectMatches eng t i -> outranks m best = false) /\
     resolveWithSpecificity (Some eng) t i
     = (Action (rm_Rule best), Some (rm_Rule best), true)).
Proof.
  unfold resolveWithSpecificity. destruct (collectMatches eng t i) as [|m ms]; [by left|right].
  exists (select_best outranks m ms). split; [apply select_best_elem|]. split; [|done].
  intros y Hy. apply select_best_max with (l := ms); eauto with yhc.
Qed.

Lemma evaluate_rules_cases e t i :
  (no_rule_matches e t i /\ evaluate_rules e t i = evaluate_unmatched e t i) \/
  (exists best, wins e t i best /\
     er_Decision (evaluate_rules e t i) = EvaluateWithMode (ev_Mode e) (Action (rm_Rule best)) true /\
     er_Source (evaluate_rules e t i) = SourceEvalRule /\
     er_MatchedRule (evaluate_rules e t i) = Some (rm_Rule best)).
Proof.
  unfold evaluate_rules, no_rule_matches, wins.
  destruct (ev_Rules e) as [eng|] eqn:Er; [|left; split; [congruence|done]].
  destruct (resolve_cases eng t i) as [[Hn ->]|(best & Hb & Hm & ->)].
  - left. split; [|done]. congruence.
  - right. exists best. eauto 10.
Qed.

(** The pipeline, by the first step that decides. *)
Lemma evaluate_cases now e t i :
  (rate_limited now e t i /\ er_Decision (Evaluator_Evaluate now e t i) = ActionDeny /\
   er_Source (Evaluator_Evaluate now e t i) = SourceEvalRateLimit) \/
  (~ rate_limited now e t i /\
   ((exists d, session_decision e t i d /\
       er_Decision (Evaluator_Evaluate now e t i) = sd_Action d /\
       er_Source (Evaluator_Evaluate now e t i) = SourceEvalSessionStore) \/
    ((forall d, ~ session_decision e t i d) /\
     Evaluator_Evaluate now e t i = evaluate_rules e t i))).
Proof.
  unfold rate_limited, session_decision, Evaluator_Evaluate.
  set (lim := match ev_DenialTracking e with Some _ => _ | None => false end).
  assert (Hlim : lim = true <->
    exists tr, ev_DenialTracking e = Some tr /\ IsRateLimited now t i tr = true).
  { unfold lim. destruct (ev_DenialTracking e); naive_solver. }
  destruct lim; [left; split; [by apply Hlim|done]|right].
  split; [rewrite <- Hlim; done|].
  destruct (ev_SessionStore e) as [store|]; [|right; split; [naive_solver|done]].
  destruct (Lookup t i store) as [d|] eqn:El; [left; eauto 10|right]. split; [|done].
  naive_solver.
Qed.

(** ** Unmatched operations *)

(** The operations allowed when no rule speaks of them. *)
Definition mode_allows e t i : Prop :=
  ev_Mode e = ModeBypassPermissions \/
  (ev_Mode e = ModeAcceptEdits /\ AcceptEditsCheck t i (ev_WorkingDir e) [] = true) \/
  (DefaultBehavior (ev_Mode e) = ActionAsk /\
   exists c, ev_Classifier e = Some c /\ rc_Level (Classify (Some c) t i) = RiskReadOnly).

Lemma DefaultBehavior_allow m : DefaultBehavior m = ActionAllow <-> m = ModeBypassPermissions.
Proof. by destruct m. Qed.

(** The classifier's part of [evaluate_unmatched]. *)
Lemma classified_allow e t i (r : EvaluationResult) :
  r = match ev_Classifier e with
      | Some c => match rc_Level (Classify (Some c) t i) with
                  | RiskReadOnly => simple_result ActionAllow [] SourceEvalClassification
                  | _ => simple_result ActionAsk [] SourceEvalClassification
                  end
      | None => simple_result ActionAsk [] SourceEvalMode
      end ->
  er_Decision r = ActionAllow <->
  exists c, ev_Classifier e = Some c /\ rc_Level (Classify (Some c) t i) = RiskReadOnly.
Proof.
  intros ->. destruct (ev_Classifier e) as [c|]; [|by split; [|intros (? & ? & _)]].
  destruct (rc_Level (Classify (Some c) t i)) eqn:Ec; cbn [er_Decision simple_result];
    (split; [intros ?; try done; eauto|intros (c' & [= <-] & Hc); congruence]).
Qed.

Lemma unmatched_ask_allow e t i :
  DefaultBehavior (ev_Mode e) = ActionAsk ->
  (ev_Mode e = ModeAcceptEdits -> AcceptEditsCheck t i (ev_WorkingDir e) [] = false) ->
  er_Decision (evaluate_unmatched e t i) = ActionAllow <->
  exists c, ev_Classifier e = Some c /\ rc_Level (Classify (Some c) t i) = RiskReadOnly.
Proof.
  intros Hd Ha. erewrite <- classified_allow by reflexivity.
  unfold evaluate_unmatched. rewrite Hd, (bool_decide_eq_true_2 (ActionAsk = ActionAsk)) by done.
  destruct (_ && _) eqn:E; [breflect; by rewrite Ha in *|].
  destruct (ev_Classifier e) as [c|]; [|done]. by destruct (rc_Level _).
Qed.

Lemma unmatched_allow e t i :
  er_Decision (evaluate_unmatched e t i) = ActionAllow <-> mode_allows e t i.
Proof.
  unfold mode_allows.
  destruct (decide (ev_Mode e = ModeAcceptEdits /\ AcceptEditsCheck t i (ev_WorkingDir e) [] = true))
    as [[Em Ea]|Hno].
  { unfold evaluate_unmatched. rewrite Em, Ea. cbn. naive_solver. }
  destruct (decide (DefaultBehavior (ev_Mode e) = ActionAsk)) as [Hd|Hd].
  - rewrite unmatched_ask_allow.
    + split; [naive_solver|]. intros [Hb|[Hb|[_ Hb]]]; [|done|done].
      by rewrite Hb in Hd.
    + done.
    + intros Hm. destruct (AcceptEditsCheck _ _ _ _); naive_solver.
  - rewrite <- DefaultBehavior_allow. unfold evaluate_unmatched.
    rewrite (bool_decide_eq_false_2 (_ = ActionAsk)) by done.
    destruct (_ && _) eqn:E; [breflect; naive_solver|]. cbn. naive_solver.
Qed.

Lemma unmatched_deny_mode e t i :
  DeniesToolByDefault (ev_Mode e) = true ->
  er_Decision (evaluate_unmatched e t i) = ActionDeny.
Proof.
  unfold evaluate_unmatched, DeniesToolByDefault.
  by destruct (ev_Mode e).
Qed.
End pipeline.

(** ** Properties *)

Section pipeline_properties.
Context `{GoFormat, Host}.

(** C1: The evaluator allows an operation exactly when it is not rate-limited and
    either a persisted decision allows it, or, with no persisted decision, a
    winning rule allows it (an ask rule too in bypass mode), or no rule
    matches and the mode lets it pass: bypass, a contained edit under
    acceptEdits, or a read-only operation under an asking mode. *)
Theorem evaluate_allow_iff now e t i :
  er_Decision (Evaluator_Evaluate now e t i) = ActionAllow <->
  ~ rate_limited now e t i /\
  ((exists d, session_decision e t i d /\ sd_Action d = ActionAllow) \/
   ((forall d, ~ session_decision e t i d) /\
    ((exists best, wins e t i best /\
        (Action (rm_Rule best) = ActionAllow \/
         (Action (rm_Rule best) = ActionAsk /\ ev_Mode e = ModeBypassPermissions))) \/
     (no_rule_matches e t i /\ mode_allows e t i)))).
Proof.
  destruct (evaluate_cases now e t i) as [(Hl & -> & _)|[Hl [(d & Hs & -> & _)|[Hs ->]]]].
  - naive_solver.
  - split; [eauto 10|]. intros (_ & [(d' & Hs' & Ha)|[Hno _]]); [|naive_solver].
    destruct Hs as (st & E1 & E2), Hs' as (st' & E3 & E4). by simplify_eq.
  - destruct (evaluate_rules_cases e t i) as [[Hn ->]|(best & Hw & -> & _)].
    + rewrite unmatched_allow. split; [eauto 10|].
      intros (_ & [(d & Hd & _)|(_ & [(b & Hb & _)|[_ Hm]])]); [naive_solver| |done].
      by apply wins_matched in Hb.
    + split.
      * intros Ha. apply EvaluateWithMode_allow in Ha. eauto 12.
      * intros (_ & [(d & Hd & _)|(_ & [(b & Hb & Ha)|[Hn _]])]); [naive_solver| |].
        -- assert (E := wins_same_action _ _ _ _ _ Hw Hb).
           apply actionPriority_inj in E; [|rewrite E; by destruct Ha as [-> | [-> _]]].
           rewrite E. destruct Ha as [-> | [-> ->]]; [|done]. by destruct (ev_Mode e).
        -- by apply wins_matched in Hw.
Qed.

(** C2: A winning deny rule is final in every mode: without a persisted decision
    for the operation, the evaluator denies it. *)
Theorem deny_rule_is_final now e t i best :
  wins e t i best -> Action (rm_Rule best) = ActionDeny ->
  (forall d, ~ session_decision e t i d) ->
  er_Decision (Evaluator_Evaluate now e t i) = ActionDeny.
Proof.
  intros Hw Hd Hs.
  destruct (evaluate_cases now e t i) as [(Hl & -> & _)|[Hl [(d & Hs' & _)|[_ ->]]]];
    [done|naive_solver|].
  destruct (evaluate_rules_cases e t i) as [[Hn _]|(b & Hb & -> & _)].
  - by apply wins_matched in Hw.
  - assert (E := wins_same_action _ _ _ _ _ Hb Hw).
    apply actionPriority_inj in E; [|by rewrite E, Hd]. rewrite E, Hd. apply EvaluateWithMode_deny.
Qed.

(** In plan mode an operation that no rule and no persisted decision covers
    is denied, and in dontAsk mode the evaluator never answers ask, unless a
    persisted decision says so. *)
Theorem fail_closed_modes now e t i :
  (forall d, ~ session_decision e t i d) ->
  (ev_Mode e = ModePlan -> no_rule_matches e t i ->
     er_Decision (Evaluator_Evaluate now e t i) = ActionDeny) /\
  (ev_Mode e = ModeDontAsk -> er_Decision (Evaluator_Evaluate now e t i) <> ActionAsk).
Proof.
  intros Hs.
  destruct (evaluate_cases now e t i) as [(Hl & -> & _)|[Hl [(d & Hs' & _)|[_ ->]]]];
    [done|naive_solver|].
  destruct (evaluate_rules_cases e t i) as [[Hn ->]|(b & Hb & -> & _)]; split; intros Hm.
  - intros _. apply unmatched_deny_mode. by rewrite Hm.
  - rewrite unmatched_deny_mode by (by rewrite Hm). done.
  - intros Hn. by apply wins_matched in Hb.
  - rewrite Hm. apply EvaluateWithMode_dontAsk.
Qed.

(** A recorded denial makes the evaluator deny the same operation for thirty
    seconds, whatever the rules, the mode and the persisted decisions, and
    leaves the evaluation of operations with another key unchanged. *)
Theorem denial_suppresses now0 now e t i reason tr t' i' :
  ev_DenialTracking e = Some tr ->
  let e' := Evaluator_RecordDenial now0 t i reason e in
  ((now - now0 < RateLimitWindow)%Z ->
     er_Decision (Evaluator_Evaluate now e' t i) = ActionDeny) /\
  (denialRateLimitKey t' i' <> denialRateLimitKey t i ->
     Evaluator_Evaluate now e' t' i' = Evaluator_Evaluate now e t' i').
Proof.
  intros Htr. cbv zeta. split.
  - intros Hw. destruct (evaluate_cases now (Evaluator_RecordDenial now0 t i reason e) t i)
      as [(_ & -> & _)|[Hl _]]; [done|]. exfalso. apply Hl.
    unfold rate_limited, Evaluator_RecordDenial, with_tracking. cbn. rewrite Htr. cbn.
    eexists. split; [done|]. unfold IsRateLimited. cbn. rewrite lookup_insert_eq.
    by apply Z.ltb_lt.
  - intros Hk. unfold Evaluator_Evaluate, evaluate_rules, evaluate_unmatched.
    unfold Evaluator_RecordDenial, with_tracking. cbn. rewrite Htr. cbn.
    unfold IsRateLimited at 1. cbn. by rewrite lookup_insert_ne.
Qed.

(** Persisting a decision for the project settles every operation its pattern
    covers, as long as no other project decision is stored for the tool. *)
Theorem persisted_decision_applies now e t i p a reason store :
  ev_SessionStore e = Some store ->
  (forall d, d ∈ store -> sd_ToolName d = t -> sd_Scope d = ScopeProject -> sd_InputPattern d = p) ->
  (p = [] \/ matchPattern p (extractInputString t i) = true) ->
  let e' := PersistDecision t p a ScopeProject reason e in
  ~ rate_limited now e' t i ->
  er_Decision (Evaluator_Evaluate now e' t i) = a.
Proof.
  intros Hst Huniq Hp. cbv zeta. intros Hl.
  set (d := {| sd_ToolName := t; sd_InputPattern := p; sd_Action := a;
               sd_Scope := ScopeProject; sd_CreatedAt := 0; sd_Reason := reason |}).
  assert (Hd : decision_applies t (extractInputString t i) d = true).
  { unfold decision_applies, d. cbn. rewrite bool_decide_eq_true_2 by done. cbn.
    destruct (p ==b []) eqn:E; [done|]. breflect. naive_solver. }
  assert (Hadd : forall s, (forall x, x ∈ s -> sd_ToolName x = t -> sd_Scope x = ScopeProject ->
                              sd_InputPattern x = p) ->
            find (fun x => decision_applies t (extractInputString t i) x
                           && (sd_Scope x ==b ScopeProject)) (Add d s) = Some d).
  { intros s. induction s as [|x s IH]; intros Hs; cbn [Add find].
    - by rewrite Hd.
    - destruct (sd_key x ==b sd_key d) eqn:E; breflect; cbn [find].
      + by rewrite Hd.
      + destruct (decision_applies t (extractInputString t i) x && (sd_Scope x ==b ScopeProject))
          eqn:Ex; [|apply IH; set_solver].
        breflect. exfalso. apply E. unfold decision_applies in H1.
        destruct (sd_ToolName x ==b t) eqn:Et; [|done]. breflect.
        unfold sd_key. cbn. rewrite H2, Et. by rewrite (Hs x) by set_solver. }
  destruct (evaluate_cases now (PersistDecision t p a ScopeProject reason e) t i)
    as [(Hl' & _)|[_ Hc]]; [done|].
  assert (Hsd : session_decision (PersistDecision t p a ScopeProject reason e) t i d).
  { unfold session_decision, PersistDecision, with_store. cbn. rewrite Hst. cbn.
    eexists. split; [done|]. fold d. unfold Lookup. rewrite lookup_loop_spec.
    by rewrite Hadd. }
  destruct Hc as [(d' & Hs' & -> & _)|[Hno _]]; [|by apply Hno in Hsd].
  destruct Hsd as (s1 & E1 & E2), Hs' as (s2 & E3 & E4). by simplify_eq.
Qed.

(** C4: A Bash command that the evaluator allows without a rule, a persisted
    decision or bypass mode consists of sub-commands that the read-only
    analysis accepts. *)
Theorem auto_allowed_bash_is_read_only now e i :
  ev_Classifier e = Some NewToolRiskClassifier -> ev_Mode e <> ModeBypassPermissions ->
  (forall d, ~ session_decision e (lit "Bash") i d) -> no_rule_matches e (lit "Bash") i ->
  er_Decision (Evaluator_Evaluate now e (lit "Bash") i) = ActionAllow ->
  exists c, string_field i (lit "command") = Some c /\ c <> [] /\
    forall sub, sub ∈ SplitCommands c -> read_only_ok sub.
Proof.
  intros Hc Hb Hs Hn. destruct (evaluate_cases now e (lit "Bash") i)
    as [(_ & -> & _)|[_ [(d & Hd & _)|[_ ->]]]]; [done|by apply Hs in Hd|].
  destruct (evaluate_rules_cases e (lit "Bash") i) as [[_ ->]|(b & Hw & _)];
    [|by apply wins_matched in Hw].
  rewrite unmatched_allow. intros [?|[[_ Ha]|(_ & c & Ec & Hr)]]; [done| |].
  - unfold AcceptEditsCheck in Ha.
    by destruct (ev_WorkingDir e ==b []).
  - rewrite Hc in Ec. injection Ec as <-. apply Classify_read_only in Hr.
    destruct Hr as [Hin|(_ & cmd & Hf & Hne & Hro)].
    + exfalso. revert Hin. by apply (bool_decide_unpack _).
    + exists cmd. split; [done|]. split; [done|]. intros sub Hsub.
      apply isSubCommandReadOnly_sound; [by apply SplitCommands_trimmed in Hsub as [? _]|].
      by apply (proj1 (IsReadOnlyCommand_subs cmd)).
Qed.
End pipeline_properties.

(** ** Concrete evaluators *)

Module Example_evaluator.
Import Example_host.

Definition rule (t p : string) (a : PermissionAction) : PermissionRule :=
  {| ToolName := lit t; InputPattern := lit p; Action := a; Source := [] |}.

Definition evaluator (m : Mode) (rs : list PermissionRule) : Evaluator :=
  NewEvaluator {| cfg_SessionStore := None; cfg_Rules := rs; cfg_Mode := m;
                  cfg_WorkingDir := lit "/p" |}.

Definition bash (c : bytes) : input := {[ lit "command" := AStr c ]}.

Lemma no_session m rs t i d : ~ session_decision (evaluator m rs) t i d.
Proof. intros (st & [= <-] & E). done. Qed.

Lemma deny_rule_is_final_witness :
  er_Decision (Evaluator_Evaluate 0
    (evaluator ModeBypassPermissions [rule "Bash" "rm *" ActionDeny])
    (lit "Bash") (bash (lit "rm x"))) = ActionDeny.
Proof.
  apply (deny_rule_is_final 0 _ _ _
           {| rm_Rule := rule "Bash" "rm *" ActionDeny; rm_ToolExact := true;
              rm_InputExact := false; rm_Specificity := 1 |}).
  - exists (NewRulesEngine [rule "Bash" "rm *" ActionDeny]). split; [done|].
    assert (E : collectMatches (NewRulesEngine [rule "Bash" "rm *" ActionDeny]) (lit "Bash")
              (bash (lit "rm x")) =
            [{| rm_Rule := rule "Bash" "rm *" ActionDeny; rm_ToolExact := true;
                rm_InputExact := false; rm_Specificity := 1 |}]) by (by vm_compute).
    rewrite E. split; [by left|]. intros m ->%list_elem_of_singleton. by vm_compute.
  - done.
  - apply no_session.
Defined.

Lemma fail_closed_modes_witness :
  er_Decision (Evaluator_Evaluate 0 (evaluator ModePlan []) (lit "Write") ∅) = ActionDeny.
Proof.
  apply (fail_closed_modes 0 (evaluator ModePlan []) (lit "Write") ∅);
    [apply no_session | done | intros eng [= <-]; done].
Defined.

Lemma denial_suppresses_witness :
  er_Decision (Evaluator_Evaluate 5
    (Evaluator_RecordDenial 0 (lit "Bash") (bash (lit "ls")) [] (evaluator ModeBypassPermissions []))
    (lit "Bash") (bash (lit "ls"))) = ActionDeny.
Proof.
  apply (denial_suppresses 0 5 (evaluator ModeBypassPermissions []) (lit "Bash") (bash (lit "ls")) []
           NewDenialTrackingState [] ∅); [done | by vm_compute].
Defined.

Lemma persisted_decision_applies_witness :
  er_Decision (Evaluator_Evaluate 0
    (PersistDecision (lit "Bash") (lit "npm *") ActionAllow ScopeProject [] (evaluator ModePlan []))
    (lit "Bash") (bash (lit "npm test"))) = ActionAllow.
Proof.
  apply (persisted_decision_applies 0 (evaluator ModePlan []) (lit "Bash")
           (bash (lit "npm test")) (lit "npm *") ActionAllow [] []);
    [done | intros d Hd; by apply not_elem_of_nil in Hd | right; by vm_compute |].
  intros (tr & [= <-] & E). by vm_compute in E.
Defined.

Lemma auto_allowed_bash_is_read_only_witness :
  exists c, string_field (bash (lit "git log | head")) (lit "command") = Some c /\ c <> [] /\
    forall sub, sub ∈ SplitCommands c -> read_only_ok sub.
Proof.
  apply (auto_allowed_bash_is_read_only 0 (evaluator ModeDefault []) (bash (lit "git log | head")));
    [done | done | apply no_session | intros eng [= <-]; done | by vm_compute].
Defined.

(** In the default mode the evaluator auto-allows, as read-only, a script
    whose second line removes files: the splitting of a command into
    sub-commands does not split at a newline. *)
Theorem newline_hides_removal :
  let r := Evaluator_Evaluate 0 (evaluator ModeDefault []) (lit "Bash")
             (bash (lit "ls" ++ [NL] ++ lit "rm -rf src")) in
  er_Decision r = ActionAllow /\ er_Source r = SourceEvalClassification.
Proof. by vm_compute. Qed.

(** The same holds for an output redirection after a word that contains a
    hash sign, which the redirection scanner takes for a comment. *)
Theorem hash_hides_redirection :
  let r := Evaluator_Evaluate 0 (evaluator ModeDefault []) (lit "Bash")
             (bash (lit "echo a#b > .git/hooks/pre-commit")) in
  er_Decision r = ActionAllow /\ er_Source r = SourceEvalClassification.
Proof. by vm_compute. Qed.

(** The evaluator and the rules engine disagree on a broad deny with a
    specific allow: the engine denies, the evaluator allows, although the
    comment of step 3 calls a deny match absolute. *)
Theorem specific_allow_beats_deny :
  let rs := [rule "Bash" "" ActionDeny; rule "Bash" "rm /tmp/x" ActionAllow] in
  Evaluate (Some (NewRulesEngine rs)) (lit "Bash") (bash (lit "rm /tmp/x")) = ActionDeny /\
  er_Decision (Evaluator_Evaluate 0 (evaluator ModeDefault rs) (lit "Bash")
                 (bash (lit "rm /tmp/x"))) = ActionAllow.
Proof. by vm_compute. Qed.

(** A persisted ask decision is returned unchanged in dontAsk mode, which is
    documented never to prompt. *)
Theorem dontAsk_returns_persisted_ask :
  er_Decision (Evaluator_Evaluate 0
    (PersistDecision (lit "Bash") [] ActionAsk ScopeProject [] (evaluator ModeDontAsk []))
    (lit "Bash") (bash (lit "ls"))) = ActionAsk.
Proof. by vm_compute. Qed.
End Example_evaluator.
