(* ===== verification/ModeTransition.v ===== *)
(** * Mode transitions ([engine/permission/mode_transition.go]) *)

From S2P Require Import Prelude GoStrings Regex ShellMatch ShellMatchFacts Rules Precedence Mode.
From S2P Require Import DenialTracking SessionStore Paths PathResolution BashLex BashSecurity ReadOnly RiskClassifier.
From S2P Require Import Evaluator.

(** ** The code *)

Inductive ModeTransitionError : Type :=
| ErrNotAddressable (from to : Mode)
| ErrNotConfirmed (from to : Mode).

Record ModeTransitionResult := {
  mt_PreviousMode : Mode;
  mt_NewMode : Mode;
  mt_SessionDecisionsCleared : nat;
  mt_RateLimitsCleared : bool;
  mt_DenialTrackingReset : bool;
}.

Record TransitionValidation := {
  RequiresConfirmation : bool;
  ClearsWriteDecisions : bool;
  ClearsAllDecisions : bool;
  ResetsRateLimits : bool;
  ResetsDenialTracking : bool;
}.

Definition isValidTargetMode (m : Mode) : bool :=
  match m with
  | ModeDefault | ModePlan | ModeAcceptEdits | ModeBypassPermissions | ModeDontAsk => true
  | _ => false
  end.

(** The validation with the given cleanups and both resets. *)
Definition validation (confirm clearWrites clearAll : bool) : TransitionValidation :=
  {| RequiresConfirmation := confirm; ClearsWriteDecisions := clearWrites;
     ClearsAllDecisions := clearAll; ResetsRateLimits := true; ResetsDenialTracking := true |}.

Definition ValidateTransition (from to : Mode)
    : result ModeTransitionError TransitionValidation :=
  if from ==b to then
    Ok {| RequiresConfirmation := false; ClearsWriteDecisions := false;
          ClearsAllDecisions := false; ResetsRateLimits := false;
          ResetsDenialTracking := false |}
  else if negb (isValidTargetMode to) then Err (ErrNotAddressable from to)
  else if to ==b ModeBypassPermissions then Ok (validation true false false)
  else if to ==b ModePlan then Ok (validation false true false)
  else if from ==b ModeBypassPermissions then Ok (validation false false true)
  else if to ==b ModeDontAsk then Ok (validation false false false)
  else Ok (validation false false false).

Definition isWriteTool (toolName : bytes) : bool :=
  bool_decide (toolName ∈ map lit ["Write"; "Edit"; "Bash"]).

Definition write_allow (d : SessionDecision) : bool :=
  (sd_Action d ==b ActionAllow) && isWriteTool (sd_ToolName d).

(** The loop over the snapshot [ds]. *)
Fixpoint clear_loop (ds : list SessionDecision) (store : SessionStore) (cleared : nat)
    : SessionStore * nat :=
  match ds with
  | [] => (store, cleared)
  | d :: ds' =>
      if write_allow d
      then clear_loop ds' (Remove (sd_ToolName d) (sd_InputPattern d) (sd_Scope d) store).1
             (S cleared)
      else clear_loop ds' store cleared
  end.

Definition set_store (store : SessionStore) (e : Evaluator) : Evaluator :=
  with_store (fun _ => store) e.

Definition clearWriteDecisions (e : Evaluator) : Evaluator * nat :=
  match ev_SessionStore e with
  | None => (e, 0)
  | Some store =>
      let '(store', cleared) := clear_loop (List store) store 0 in
      (set_store store' e, cleared)
  end.

(** [TransitionTo]; [confirmBypass] is [None] for the nil callback, else the
    user's answer.  The evaluator is returned in every case. *)
Definition TransitionTo (confirmBypass : option bool) (to : Mode) (e : Evaluator)
    : Evaluator * ModeTransitionResult * option ModeTransitionError :=
  let from := GetMode e in
  let res cleared limits tracking :=
    {| mt_PreviousMode := from; mt_NewMode := to; mt_SessionDecisionsCleared := cleared;
       mt_RateLimitsCleared := limits; mt_DenialTrackingReset := tracking |} in
  if from ==b to then (e, res 0 false false, None)
  else
    match ValidateTransition from to with
    | Err err => (e, res 0 false false, Some err)
    | Ok v =>
        if RequiresConfirmation v && negb (default false confirmBypass)
        then (e, res 0 false false, Some (ErrNotConfirmed from to))
        else
          let '(e, cleared) :=
            if ClearsAllDecisions v then
              match ev_SessionStore e with
              | Some store => (set_store (Clear (ScopeOther []) store) e, length (List store))
              | None => (e, 0)
              end
            else if ClearsWriteDecisions v then clearWriteDecisions e
            else (e, 0) in
          let tracked := match ev_DenialTracking e with Some _ => true | None => false end in
          let e := if ResetsRateLimits v then with_tracking ClearAllRateLimits e else e in
          let e := if ResetsDenialTracking v then with_tracking ResetDenials e else e in
          (SetMode to e,
           res cleared (ResetsRateLimits v && tracked) (ResetsDenialTracking v && tracked),
           None)
    end.

(** ** Lemmas *)

Lemma clear_loop_unique ds store n :
  unique_keys store -> unique_keys (clear_loop ds store n).1.
Proof.
  revert store n. induction ds as [|d ds IH]; intros store n Hu; [done|]. cbn [clear_loop].
  destruct (write_allow d); [|by apply IH]. apply IH. by apply Remove_unique.
Qed.

(** With one decision per key, the loop removes exactly the decisions whose key
    belongs to a write-allow of the snapshot. *)
Lemma clear_loop_elem ds store n x :
  unique_keys store ->
  x ∈ (clear_loop ds store n).1 <->
  x ∈ store /\ forall d, d ∈ ds -> write_allow d = true -> sd_key x <> sd_key d.
Proof.
  revert store n. induction ds as [|d ds IH]; intros store n Hu; cbn [clear_loop].
  - split; [|naive_solver]. intros Hx. split; [done|]. intros d Hd. by apply not_elem_of_nil in Hd.
  - destruct (write_allow d) eqn:E.
    + rewrite IH by (by apply Remove_unique). rewrite Remove_unique_elem by done.
      split.
      * intros [[Hx Hk] Hall]. split; [done|]. intros d' [->|Hd']%elem_of_cons; auto.
      * intros [Hx Hall]. split_and!; [done| |].
        -- apply (Hall d); [set_solver|done].
        -- intros d' Hd'. apply Hall. set_solver.
    + rewrite IH by done. split; intros [Hx Hall]; (split; [done|]); intros d' Hd'.
      * apply elem_of_cons in Hd' as [->|Hd']; [congruence|auto].
      * apply Hall. set_solver.
Qed.

Lemma unique_key_eq (s : SessionStore) x y :
  unique_keys s -> x ∈ s -> y ∈ s -> sd_key x = sd_key y -> x = y.
Proof.
  unfold unique_keys. induction s as [|e s IH]; intros Hu Hx Hy E; [by apply not_elem_of_nil in Hx|].
  cbn in Hu. apply NoDup_cons in Hu as [He Hu].
  apply elem_of_cons in Hx as [->|Hx]; apply elem_of_cons in Hy as [->|Hy]; [done| | |auto].
  - exfalso. apply He. rewrite E. by apply list_elem_of_fmap_2.
  - exfalso. apply He. rewrite <- E. by apply list_elem_of_fmap_2.
Qed.

(** On a store with unique keys [clearWriteDecisions] is a filter. *)
Lemma clear_writes_elem store x :
  unique_keys store ->
  x ∈ (clear_loop store store 0).1 <-> x ∈ store /\ write_allow x = false.
Proof.
  intros Hu. rewrite clear_loop_elem by done. split.
  - intros [Hx Hall]. split; [done|]. destruct (write_allow x) eqn:E; [|done].
    by destruct (Hall x Hx E).
  - intros [Hx Hw]. split; [done|]. intros d Hd E Hk.
    assert (x = d) by (by eapply unique_key_eq). congruence.
Qed.

(** ** Properties *)

Definition store_of (e : Evaluator) : SessionStore := default [] (ev_SessionStore e).

(** Bypass mode is entered only with the user's confirmation, internal modes
    are no targets, and a refused transition changes nothing. *)
Theorem transition_guards confirm to e :
  let '(e', res, err) := TransitionTo confirm to e in
  (err <> None -> e' = e) /\
  (err = None -> ev_Mode e' = to /\
     (ev_Mode e <> to ->
        isValidTargetMode to = true /\
        (to = ModeBypassPermissions -> confirm = Some true))).
Proof.
  unfold TransitionTo, GetMode. destruct (ev_Mode e ==b to) eqn:E; breflect; [naive_solver|].
  unfold ValidateTransition. rewrite (bool_decide_eq_false_2 (ev_Mode e = to)) by done.
  destruct (isValidTargetMode to) eqn:Ev; cbn [negb]; [|naive_solver].
  repeat match goal with
  | |- context [if ?b then Ok _ else _] => destruct b eqn:?
  end; breflect; cbn [validation RequiresConfirmation ClearsAllDecisions ClearsWriteDecisions
    ResetsRateLimits ResetsDenialTracking andb];
  destruct (clearWriteDecisions e) as [e1 n]; destruct confirm as [[]|];
  destruct (ev_SessionStore e); cbn; repeat split; intros; first [done | congruence].
Qed.

(** A transition to another mode clears the denial state; entering plan mode
    drops exactly the write-allowing decisions of a store with one decision per
    key, and leaving bypass for any mode but plan empties the store. *)
Theorem transition_cleanup confirm to e store e' res :
  ev_SessionStore e = Some store -> unique_keys store -> ev_Mode e <> to ->
  TransitionTo confirm to e = (e', res, None) ->
  (forall tr, ev_DenialTracking e' = Some tr -> tr = NewDenialTrackingState) /\
  unique_keys (store_of e') /\
  (to = ModePlan -> forall d, d ∈ store_of e' <-> d ∈ store /\ write_allow d = false) /\
  (ev_Mode e = ModeBypassPermissions -> to <> ModePlan -> store_of e' = []).
Proof.
  intros Hs Hu Hne. unfold TransitionTo, GetMode.
  rewrite (bool_decide_eq_false_2 (ev_Mode e = to)) by done.
  unfold ValidateTransition. rewrite (bool_decide_eq_false_2 (ev_Mode e = to)) by done.
  assert (Htr : forall e0 tr, ev_DenialTracking (SetMode to (with_tracking ResetDenials
            (with_tracking ClearAllRateLimits e0))) = Some tr -> tr = NewDenialTrackingState).
  { intros e0 tr. cbn. destruct (ev_DenialTracking e0); [by intros [= <-]|done]. }
  destruct (negb (isValidTargetMode to)); [done|].
  destruct (to ==b ModeBypassPermissions) eqn:E1; breflect.
  { cbn [validation RequiresConfirmation ClearsAllDecisions ClearsWriteDecisions ResetsRateLimits
      ResetsDenialTracking andb]. destruct (negb _); [done|]. intros [= <- <-]. subst to.
    split_and!; [apply Htr| |done|naive_solver]. unfold store_of. cbn. by rewrite Hs. }
  destruct (to ==b ModePlan) eqn:E2; breflect.
  { subst to. unfold clearWriteDecisions. rewrite Hs. cbn [validation RequiresConfirmation
      ClearsAllDecisions ClearsWriteDecisions ResetsRateLimits ResetsDenialTracking andb].
    unfold List. assert (Hl := clear_writes_elem store). assert (Hlu := clear_loop_unique store store 0 Hu).
    destruct (clear_loop store store 0) as [store' n]. cbn [fst] in *.
    intros [= <- <-]. unfold store_of. cbn. rewrite Hs. cbn.
    split_and!; [apply Htr|done|intros _ d; by apply Hl|done]. }
  destruct (ev_Mode e ==b ModeBypassPermissions) eqn:E3; breflect.
  { rewrite Hs. cbn [validation RequiresConfirmation ClearsAllDecisions ClearsWriteDecisions
      ResetsRateLimits ResetsDenialTracking andb]. intros [= <- <-]. unfold store_of. cbn.
    rewrite Hs. cbn. split_and!; [apply Htr|constructor|done|done]. }
  assert (Hd : (if to ==b ModeDontAsk then Ok (validation false false false)
                else Ok (validation false false false))
               = @Ok ModeTransitionError _ (validation false false false)) by (by destruct (_ ==b _)).
  rewrite Hd. cbn [validation RequiresConfirmation ClearsAllDecisions ClearsWriteDecisions
    ResetsRateLimits ResetsDenialTracking andb]. intros [= <- <-]. unfold store_of. cbn.
  rewrite Hs. split_and!; [apply Htr|done|naive_solver|done].
Qed.

Module Example_transition.
Definition decision (t : string) (a : PermissionAction) : SessionDecision :=
  {| sd_ToolName := lit t; sd_InputPattern := []; sd_Action := a; sd_Scope := ScopeProject;
     sd_CreatedAt := 0; sd_Reason := [] |}.

Definition evaluator_with (store : SessionStore) (m : Mode) : Evaluator :=
  NewEvaluator {| cfg_SessionStore := Some store; cfg_Rules := []; cfg_Mode := m;
                  cfg_WorkingDir := [] |}.

Lemma transition_cleanup_witness :
  store_of (TransitionTo None ModeDefault
    (evaluator_with [decision "Bash" ActionAllow] ModeBypassPermissions)).1.1 = [].
Proof.
  eapply (transition_cleanup None ModeDefault
            (evaluator_with [decision "Bash" ActionAllow] ModeBypassPermissions)
            [decision "Bash" ActionAllow]); [done | | done | by vm_compute | done | done].
  apply NoDup_singleton.
Defined.

(** Loading appends, so a store can hold two decisions with one key; entering
    plan mode then removes the first one, here the deny, and keeps the write
    it was to clear. *)
Theorem plan_keeps_duplicated_write_allow :
  let store := default [] (LoadFrom (fun _ => Some {| psf_Version := 1;
                 psf_Decisions := [decision "Bash" ActionAllow] |})
                 (FileData [NL]) [decision "Bash" ActionDeny]) in
  store_of (TransitionTo None ModePlan (evaluator_with store ModeDefault)).1.1
  = [decision "Bash" ActionAllow].
Proof. by vm_compute. Qed.

(** Going from bypass to plan keeps the decisions that are not write-allows,
    although leaving bypass is documented to clear them all. *)
Theorem bypass_to_plan_keeps_decisions :
  store_of (TransitionTo None ModePlan
    (evaluator_with [decision "WebFetch" ActionAllow] ModeBypassPermissions)).1.1
  = [decision "WebFetch" ActionAllow].
Proof. by vm_compute. Qed.
End Example_transition.
