(* ===== verification/ShadowedRules.v ===== *)
(** * Shadowed rules and the bypass kill switch
    ([engine/permission/shadowed_rules.go], [engine/permission/bypass_killswitch.go]) *)

From S2P Require Import Prelude GoStrings Regex ShellMatch ShellMatchFacts Rules Precedence Mode.
From S2P Require Import DenialTracking SessionStore Paths PathResolution BashLex BashSecurity ReadOnly RiskClassifier.
From S2P Require Import Evaluator.

(** ** Shadowed rules *)

Inductive ShadowType : Type := ShadowTypeAsk | ShadowTypeDeny.

Record UnreachableRule := {
  ur_Rule : PermissionRule;
  ur_Reason : bytes;
  ur_ShadowedBy : PermissionRule;
  ur_ShadowType : ShadowType;
  ur_Fix : bytes;
}.

Record DetectUnreachableRulesOptions := { SandboxAutoAllowEnabled : bool }.

Definition IsSharedSettingSource (source : bytes) : bool :=
  (source ==b lit "projectSettings") || (source ==b lit "policySettings")
  || (source ==b lit "command").

Definition tool_wide (toolName : bytes) (r : PermissionRule) : bool :=
  (ToolName r ==b toolName) && (InputPattern r ==b []).

Definition findToolWideDenyRule (toolName : bytes) (denyRules : list PermissionRule)
    : option PermissionRule :=
  find (tool_wide toolName) denyRules.

(** Under a sandbox that auto-allows, an ask rule for Bash counts only when it
    comes from a shared source. *)
Definition findToolWideAskRule (toolName : bytes) (askRules : list PermissionRule)
    (opts : DetectUnreachableRulesOptions) : option PermissionRule :=
  find (fun r =>
    tool_wide toolName r
    && negb ((toolName ==b lit "Bash") && SandboxAutoAllowEnabled opts
             && negb (IsSharedSettingSource (Source r)))) askRules.

Definition quoted (s : bytes) : bytes := [DQUOTE] ++ s ++ [DQUOTE].

Definition generateShadowFixSuggestion (shadowType : ShadowType)
    (shadower shadowed : PermissionRule) : bytes :=
  let kind := match shadowType with ShadowTypeDeny => lit " deny" | ShadowTypeAsk => lit " ask" end in
  lit "Remove the " ++ quoted (ToolName shadower) ++ kind ++ lit " rule from " ++ Source shadower
  ++ lit ", or remove the specific allow rule from " ++ Source shadowed.

Definition unreachable_rule (askRules denyRules : list PermissionRule)
    (opts : DetectUnreachableRulesOptions) (allowRule : PermissionRule) : option UnreachableRule :=
  if InputPattern allowRule ==b [] then None
  else
    match findToolWideDenyRule (ToolName allowRule) denyRules with
    | Some shadower =>
        Some {| ur_Rule := allowRule;
                ur_Reason := lit "Blocked by " ++ quoted (ToolName shadower)
                             ++ lit " deny rule (from " ++ Source shadower ++ lit ")";
                ur_ShadowedBy := shadower; ur_ShadowType := ShadowTypeDeny;
                ur_Fix := generateShadowFixSuggestion ShadowTypeDeny shadower allowRule |}
    | None =>
        match findToolWideAskRule (ToolName allowRule) askRules opts with
        | Some shadower =>
            Some {| ur_Rule := allowRule;
                    ur_Reason := lit "Shadowed by " ++ quoted (ToolName shadower)
                                 ++ lit " ask rule (from " ++ Source shadower ++ lit ")";
                    ur_ShadowedBy := shadower; ur_ShadowType := ShadowTypeAsk;
                    ur_Fix := generateShadowFixSuggestion ShadowTypeAsk shadower allowRule |}
        | None => None
        end
    end.

Definition DetectUnreachableRules (allowRules askRules denyRules : list PermissionRule)
    (opts : DetectUnreachableRulesOptions) : list UnreachableRule :=
  omap (unreachable_rule askRules denyRules opts) allowRules.

(** ** The kill switch *)

(** The state; [checkFn] is an argument, [None] when nil. *)
Record BypassKillswitch := { ks_checked : bool; ks_killed : bool }.

Definition NewBypassKillswitch : BypassKillswitch := {| ks_checked := false; ks_killed := false |}.

(** [CheckAndDisable]; [checkFn] is the answer the check function would give,
    and the last component says whether it was called. *)
Definition CheckAndDisable (checkFn : option bool) (k : BypassKillswitch)
    : BypassKillswitch * bool * bool :=
  if ks_checked k then (k, ks_killed k, false)
  else
    match checkFn with
    | Some true => ({| ks_checked := true; ks_killed := true |}, true, true)
    | Some false => ({| ks_checked := true; ks_killed := ks_killed k |}, false, true)
    | None => ({| ks_checked := true; ks_killed := ks_killed k |}, false, false)
    end.

Definition IsKilled (k : BypassKillswitch) : bool := ks_killed k.

Definition Killswitch_Reset (k : BypassKillswitch) : BypassKillswitch := NewBypassKillswitch.

(** ** Properties *)

Lemma find_tool_wide f t rs r :
  (forall x, f x = true -> tool_wide t x = true) -> find f rs = Some r ->
  r ∈ rs /\ ToolName r = t /\ InputPattern r = [].
Proof.
  intros Hf H. apply find_elem in H as [Hin Hr]. apply Hf in Hr. unfold tool_wide in Hr.
  by breflect.
Qed.

Section shadow_properties.
Context `{GoFormat}.

(** An allow rule reported as blocked by a deny rule never takes effect in the
    rules engine: every operation of its tool is denied; and one reported as
    shadowed by an ask rule is never the reason to allow an operation. *)
Theorem unreachable_rules_never_allow allowRules askRules denyRules opts u i :
  Forall (fun r => Action r = ActionAsk) askRules ->
  Forall (fun r => Action r = ActionDeny) denyRules ->
  u ∈ DetectUnreachableRules allowRules askRules denyRules opts ->
  plain_name (ToolName (ur_Rule u)) = true ->
  let answer := EvaluateMatch (Some (NewRulesEngine (allowRules ++ askRules ++ denyRules)))
                  (ToolName (ur_Rule u)) i in
  ur_Rule u ∈ allowRules /\
  match ur_ShadowType u with
  | ShadowTypeDeny => answer = (ActionDeny, true)
  | ShadowTypeAsk => answer.1 <> ActionAllow
  end.
Proof.
  intros Hask Hdeny Hu Hp. cbv zeta. unfold DetectUnreachableRules in Hu.
  apply list_elem_of_omap in Hu as (r & Hr & Hu). unfold unreachable_rule in Hu.
  destruct (InputPattern r ==b []); [done|].
  assert (Hwide : forall x, ToolName x = ToolName r -> InputPattern x = [] ->
            plain_name (ToolName r) = true -> matchRule x (ToolName r) i = true).
  { intros x Ht Hi Hpl. unfold matchRule. rewrite Ht, plain_name_self by done. cbn.
    by rewrite Hi. }
  rewrite EvaluateMatch_cases.
  destruct (findToolWideDenyRule (ToolName r) denyRules) as [sh|] eqn:Ed.
  - injection Hu as <-. cbn in *. split; [done|].
    apply (find_tool_wide _ (ToolName r)) in Ed as (Hin & Ht & Hi); [|done].
    assert (E : some_match ActionDeny (allowRules ++ askRules ++ denyRules) (ToolName r) i = true).
    { apply some_match_true. exists sh. split; [set_solver|]. split; [by apply Hwide|].
      by apply (proj1 (Forall_forall _ _) Hdeny). }
    by rewrite E.
  - destruct (findToolWideAskRule (ToolName r) askRules opts) as [sh|] eqn:Ea; [|done].
    injection Hu as <-. cbn in *. split; [done|].
    apply (find_tool_wide _ (ToolName r)) in Ea as (Hin & Ht & Hi);
      [|by intros x Hx; apply andb_true_iff in Hx as [? _]].
    assert (E : some_match ActionAsk (allowRules ++ askRules ++ denyRules) (ToolName r) i = true).
    { apply some_match_true. exists sh. split; [set_solver|]. split; [by apply Hwide|].
      by apply (proj1 (Forall_forall _ _) Hask). }
    rewrite E. by destruct (some_match ActionDeny _ _ _).
Qed.
End shadow_properties.

(** The kill switch asks once: after a first check its answer does not change
    and the check function is not called again, until a reset. *)
Theorem killswitch_checks_once fn fn' k :
  let '(k1, r1, _) := CheckAndDisable fn k in
  let '(k2, r2, called) := CheckAndDisable fn' k1 in
  (ks_checked k = false -> ks_killed k = false -> r2 = r1) /\
  k2 = k1 /\ called = false /\ IsKilled k2 = r2.
Proof.
  unfold CheckAndDisable, IsKilled. destruct k as [[] []], fn as [[]|]; cbn; repeat split; done.
Qed.

Section shadow_examples.
Import Example_host.

Definition broad_deny : PermissionRule :=
  {| ToolName := lit "Bash"; InputPattern := []; Action := ActionDeny; Source := [] |}.
Definition specific_allow : PermissionRule :=
  {| ToolName := lit "Bash"; InputPattern := lit "ls *"; Action := ActionAllow; Source := [] |}.
Definition blocked_rule : UnreachableRule :=
  {| ur_Rule := specific_allow;
     ur_Reason := lit "Blocked by " ++ quoted (lit "Bash") ++ lit " deny rule (from )";
     ur_ShadowedBy := broad_deny; ur_ShadowType := ShadowTypeDeny;
     ur_Fix := generateShadowFixSuggestion ShadowTypeDeny broad_deny specific_allow |}.

Lemma unreachable_rules_never_allow_witness :
  EvaluateMatch (Some (NewRulesEngine [specific_allow; broad_deny])) (lit "Bash") ∅
  = (ActionDeny, true).
Proof.
  apply (unreachable_rules_never_allow [specific_allow] [] [broad_deny]
           {| SandboxAutoAllowEnabled := false |} blocked_rule ∅);
    [constructor | by repeat constructor | by left | by vm_compute].
Defined.

(** The evaluator, which resolves by specificity, does let the rule reported
    as unreachable decide. *)
Theorem unreachable_rule_decides_in_evaluator :
  DetectUnreachableRules [specific_allow] [] [broad_deny]
    {| SandboxAutoAllowEnabled := false |} = [blocked_rule] /\
  er_Decision (Evaluator_Evaluate 0
    (NewEvaluator {| cfg_SessionStore := None; cfg_Rules := [specific_allow; broad_deny];
                     cfg_Mode := ModeDefault; cfg_WorkingDir := [] |})
    (lit "Bash") {[ lit "command" := AStr (lit "ls /") ]}) = ActionAllow.
Proof. by vm_compute. Qed.
End shadow_examples.
