(* ===== verification/Prompter.v ===== *)
(** * Interactive prompts ([engine/permission/check.go])

    Permission results, the checker that records denials, and the two
    concurrent objects: the prompter, whose requests and resolutions run on
    different goroutines, and the [ResolveOnce] guard.  Their goroutines are
    modelled by a step relation with one step per atomic action (a section
    under the mutex, a channel operation, a compare-and-swap). *)

From S2P Require Import Prelude GoStrings Regex ShellMatch Rules DenialTracking.

(** ** Results and the checker *)

(** [PermissionDecision] is a string type. *)
Inductive PermissionDecision : Type :=
| DecisionAllow | DecisionDeny | DecisionAsk | DecisionOther (s : bytes).

#[export] Instance PermissionDecision_eq_dec : EqDecision PermissionDecision.
Proof. solve_decision. Defined.

Inductive PermissionResult : Type := {
  pr_Decision : PermissionDecision;
  pr_Reason : PermissionReason;
  pr_Message : bytes;
  pr_UpdatedInput : option input;
  pr_RuleName : bytes;
  pr_IsBypassed : bool;
  pr_ToolName : bytes;
  pr_SubResults : list PermissionResult;
}.

Definition IsAllowed (r : PermissionResult) : bool := pr_Decision r ==b DecisionAllow.
Definition IsDenied (r : PermissionResult) : bool := pr_Decision r ==b DecisionDeny.
Definition NeedsAsk (r : PermissionResult) : bool := pr_Decision r ==b DecisionAsk.

(** A result with the given decision and the fields the code sets. *)
Definition plain_result (d : PermissionDecision) (reason : PermissionReason)
    (message toolName : bytes) : PermissionResult :=
  {| pr_Decision := d; pr_Reason := reason; pr_Message := message; pr_UpdatedInput := None;
     pr_RuleName := []; pr_IsBypassed := false; pr_ToolName := toolName; pr_SubResults := [] |}.

(** [CanUseTool], without the context. *)
Abbreviation CanUseTool := (bytes -> input -> PermissionResult).

Definition SimpleCanUseTool (fn : bytes -> input -> bool * bytes) : CanUseTool :=
  fun toolName i =>
    let '(allowed, reason) := fn toolName i in
    if allowed then plain_result DecisionAllow ReasonOther reason toolName
    else plain_result DecisionDeny ReasonOther reason toolName.

Record Denial := { dn_ToolName : bytes; dn_ToolUseID : bytes; dn_Input : input }.

Record Checker := { Denials : list Denial; inner : CanUseTool }.

Definition NewChecker (inner : CanUseTool) : Checker := {| Denials := []; inner := inner |}.

Definition Check_tool (toolName toolUseID : bytes) (i : input) (c : Checker)
    : Checker * PermissionResult :=
  let result := inner c toolName i in
  if IsDenied result then
    ({| Denials := Denials c ++ [{| dn_ToolName := toolName; dn_ToolUseID := toolUseID;
                                    dn_Input := i |}];
        inner := inner c |}, result)
  else (c, result).

Definition Checker_Reset (c : Checker) : Checker := {| Denials := []; inner := inner c |}.

Definition GetDenials (c : Checker) : list Denial := Denials c.

(** ** The prompter *)

(** Where the goroutine of [RequestPermission] stands: in the [select], past
    it with the received result ([None] is the cancelled context), returned. *)
Inductive request_phase : Type :=
| Waiting
| Leaving (r : option PermissionResult)
| Returned (r : option PermissionResult).

(** A request with its response channel of capacity one. *)
Record PermissionRequest := {
  rq_ToolUseID : bytes;
  rq_ToolName : bytes;
  Response : option PermissionResult;
  rq_phase : request_phase;
}.

(** A goroutine in [Resolve]: before the lookup, holding the request it found,
    returned [false] without a request, or returned after the send. *)
Inductive resolve_phase : Type :=
| Looking
| Sending (k : nat)
| NotFound
| Answered (k : nat) (sent : bool).

Record resolve_call := {
  rv_ToolUseID : bytes;
  rv_result : PermissionResult;
  rv_phase : resolve_phase;
}.

(** The requests and calls so far, and the map of the prompter, which refers to
    requests by their position. *)
Record prompter_state := {
  requests : list PermissionRequest;
  calls : list resolve_call;
  pending : gmap bytes nat;
}.

Definition NewPermissionPrompter : prompter_state :=
  {| requests := []; calls := []; pending := ∅ |}.

Definition set_request (k : nat) (r : PermissionRequest) (s : prompter_state) : prompter_state :=
  {| requests := <[k := r]> (requests s); calls := calls s; pending := pending s |}.

Definition set_call (c : nat) (v : resolve_call) (s : prompter_state) : prompter_state :=
  {| requests := requests s; calls := <[c := v]> (calls s); pending := pending s |}.

Definition with_phase (p : request_phase) (buf : option PermissionResult) (r : PermissionRequest)
    : PermissionRequest :=
  {| rq_ToolUseID := rq_ToolUseID r; rq_ToolName := rq_ToolName r; Response := buf; rq_phase := p |}.

Definition call_phase (p : resolve_phase) (v : resolve_call) : resolve_call :=
  {| rv_ToolUseID := rv_ToolUseID v; rv_result := rv_result v; rv_phase := p |}.

(** [RequestPermission]: the request enters the map. *)
Definition request_start (toolName toolUseID : bytes) (s : prompter_state) : prompter_state :=
  {| requests := requests s ++ [{| rq_ToolUseID := toolUseID; rq_ToolName := toolName;
                                   Response := None; rq_phase := Waiting |}];
     calls := calls s;
     pending := <[toolUseID := length (requests s)]> (pending s) |}.

(** [RequestPermission]: the result it returns. *)
Definition request_result (r : PermissionRequest) (received : option PermissionResult)
    : PermissionResult :=
  match received with
  | Some result => result
  | None => plain_result DecisionDeny ReasonPermissionPrompt
              (lit "permission request cancelled") (rq_ToolName r)
  end.

(** [RequestPermission] after the [select]: the entry of the identifier leaves
    the map, whatever request it refers to. *)
Definition request_leave (k : nat) (r : PermissionRequest) (res : option PermissionResult)
    (s : prompter_state) : prompter_state :=
  {| requests := <[k := with_phase (Returned res) (Response r) r]> (requests s);
     calls := calls s;
     pending := delete (rq_ToolUseID r) (pending s) |}.

(** [Resolve]: the lookup. *)
Definition resolve_lookup (c : nat) (v : resolve_call) (s : prompter_state) : prompter_state :=
  set_call c (call_phase (match pending s !! rv_ToolUseID v with
                          | Some k => Sending k
                          | None => NotFound
                          end) v) s.

(** [Resolve]: the non-blocking send. *)
Definition resolve_send (c : nat) (v : resolve_call) (k : nat) (r : PermissionRequest)
    (s : prompter_state) : prompter_state :=
  match Response r with
  | None => set_call c (call_phase (Answered k true) v)
              (set_request k (with_phase (rq_phase r) (Some (rv_result v)) r) s)
  | Some _ => set_call c (call_phase (Answered k false) v) s
  end.

Inductive prompter_step : prompter_state -> unit -> prompter_state -> Prop :=
| step_request s toolName toolUseID :
    prompter_step s () (request_start toolName toolUseID s)
| step_receive s k r res :
    requests s !! k = Some r -> rq_phase r = Waiting -> Response r = Some res ->
    prompter_step s () (set_request k (with_phase (Leaving (Some res)) None r) s)
| step_cancel s k r :
    requests s !! k = Some r -> rq_phase r = Waiting ->
    prompter_step s () (set_request k (with_phase (Leaving None) (Response r) r) s)
| step_leave s k r res :
    requests s !! k = Some r -> rq_phase r = Leaving res ->
    prompter_step s () (request_leave k r res s)
| step_call s toolUseID result :
    prompter_step s ()
      {| requests := requests s;
         calls := calls s ++ [{| rv_ToolUseID := toolUseID; rv_result := result;
                                 rv_phase := Looking |}];
         pending := pending s |}
| step_lookup s c v :
    calls s !! c = Some v -> rv_phase v = Looking ->
    prompter_step s () (resolve_lookup c v s)
| step_send s c v k r :
    calls s !! c = Some v -> rv_phase v = Sending k -> requests s !! k = Some r ->
    prompter_step s () (resolve_send c v k r s).

Definition reachable (s : prompter_state) : Prop :=
  exists ls, steps prompter_step NewPermissionPrompter ls s.

(** ** Counting deliveries *)

Definition sent_to (k : nat) (v : resolve_call) : nat :=
  match rv_phase v with
  | Answered k' true => if k' =? k then 1 else 0
  | _ => 0
  end.

(** How many calls of [Resolve] returned true for request [k]. *)
Definition deliveries (k : nat) (s : prompter_state) : nat := sum_list_with (sent_to k) (calls s).

Definition buffered (r : PermissionRequest) : nat :=
  match Response r with Some _ => 1 | None => 0 end.

(** Whether the request took a result out of its channel. *)
Definition received (r : PermissionRequest) : option PermissionResult :=
  match rq_phase r with
  | Waiting => None
  | Leaving res | Returned res => res
  end.

Definition consumed (r : PermissionRequest) : nat :=
  match received r with Some _ => 1 | None => 0 end.


(** ** The invariant *)

Definition call_ok (s : prompter_state) (v : resolve_call) : Prop :=
  match rv_phase v with
  | Sending k | Answered k _ =>
      exists r, requests s !! k = Some r /\ rq_ToolUseID r = rv_ToolUseID v
  | _ => True
  end.

(** The result came from a successful [Resolve] for this request. *)
Definition delivered_by (s : prompter_state) (k : nat) (res : PermissionResult) : Prop :=
  exists v, v ∈ calls s /\ rv_phase v = Answered k true /\ rv_result v = res.

Record prompter_inv (s : prompter_state) : Prop := {
  inv_pending : forall id k, pending s !! id = Some k ->
    exists r, requests s !! k = Some r /\ rq_ToolUseID r = id;
  inv_calls : forall v, v ∈ calls s -> call_ok s v;
  inv_count : forall k r, requests s !! k = Some r -> deliveries k s = buffered r + consumed r;
  inv_source : forall k r res, requests s !! k = Some r ->
    Response r = Some res \/ received r = Some res -> delivered_by s k res;
}.

(** *** Requests keep their identity *)

(** Two states whose requests have the same identifiers. *)
Definition same_ids (s s' : prompter_state) : Prop :=
  forall k r, requests s !! k = Some r ->
    exists r', requests s' !! k = Some r' /\ rq_ToolUseID r' = rq_ToolUseID r.

Lemma call_ok_mono s s' v : same_ids s s' -> call_ok s v -> call_ok s' v.
Proof.
  unfold call_ok. intros Hs. destruct (rv_phase v); try done;
    intros (r & Hr & Hid); destruct (Hs _ _ Hr) as (r' & Hr' & E); exists r'; split; congruence.
Qed.

Lemma set_request_ids k r r' s :
  requests s !! k = Some r -> rq_ToolUseID r' = rq_ToolUseID r -> same_ids s (set_request k r' s).
Proof.
  intros Hr Hid k' r0 Hr0. cbn. destruct (decide (k' = k)) as [->|Hne].
  - exists r'. rewrite list_lookup_insert_eq by (by eapply lookup_lt_Some). split; [done|].
    congruence.
  - exists r0. by rewrite list_lookup_insert_ne.
Qed.

(** Changing one request with the calls as they are: what the new request must
    satisfy. *)
Lemma set_request_inv k r r' s :
  prompter_inv s -> requests s !! k = Some r -> rq_ToolUseID r' = rq_ToolUseID r ->
  buffered r' + consumed r' = buffered r + consumed r ->
  (forall res, Response r' = Some res \/ received r' = Some res ->
               Response r = Some res \/ received r = Some res) ->
  prompter_inv (set_request k r' s).
Proof.
  intros [H1 H2 H3 H4] Hr Hid Hc Hs. assert (Hids := set_request_ids _ _ _ _ Hr Hid).
  assert (Hlt := lookup_lt_Some _ _ _ Hr). split.
  - intros id k' Hp. destruct (H1 _ _ Hp) as (r0 & Hr0 & <-).
    destruct (Hids _ _ Hr0) as (r1 & Hr1 & E). eauto.
  - intros v Hv. eapply call_ok_mono; [exact Hids|]. by apply H2.
  - intros k' r0. cbn. destruct (decide (k' = k)) as [->|Hne].
    + rewrite list_lookup_insert_eq by done. intros [= <-]. rewrite Hc. by apply (H3 k r).
    + rewrite list_lookup_insert_ne by done. apply H3.
  - intros k' r0 res. cbn. destruct (decide (k' = k)) as [->|Hne].
    + rewrite list_lookup_insert_eq by done. intros [= <-] Hres. apply (H4 k r); [done|].
      by apply Hs.
    + rewrite list_lookup_insert_ne by done. apply H4.
Qed.

(** Moving one call to a phase that delivers nothing. *)
Lemma set_call_inv c v p s :
  prompter_inv s -> calls s !! c = Some v ->
  (forall k, p <> Answered k true) -> (forall k, rv_phase v <> Answered k true) ->
  call_ok s (call_phase p v) -> prompter_inv (set_call c (call_phase p v) s).
Proof.
  intros [H1 H2 H3 H4] Hv Hp Hv' Hok. assert (Hlt := lookup_lt_Some _ _ _ Hv).
  assert (Hz : forall k, sent_to k (call_phase p v) = 0 /\ sent_to k v = 0).
  { intros k. unfold sent_to, call_phase. cbn. split.
    - destruct p as [| | |k' []]; try done. by destruct (Hp k').
    - destruct (rv_phase v) as [| | |k' []] eqn:E; try done. by destruct (Hv' k'). }
  split; [exact H1| | |].
  - intros v' Hin. apply list_elem_of_lookup in Hin as (c' & Hc').
    cbn in Hc'. destruct (decide (c' = c)) as [->|Hne].
    + rewrite list_lookup_insert_eq in Hc' by done. simplify_eq. exact Hok.
    + rewrite list_lookup_insert_ne in Hc' by done. apply H2. by eapply list_elem_of_lookup_2.
  - intros k r Hr. rewrite <- (H3 k r Hr). unfold deliveries. cbn.
    assert (E := sum_list_with_insert (sent_to k) (calls s) c v (call_phase p v) Hv).
    destruct (Hz k) as [Z1 Z2]. rewrite Z1, Z2 in E. lia.
  - intros k r res Hr Hres. destruct (H4 k r res Hr Hres) as (v' & Hin & Hph & <-).
    exists v'. split; [|done]. cbn. apply list_elem_of_lookup in Hin as (c' & Hc').
    apply list_elem_of_lookup. exists c'. rewrite list_lookup_insert_ne; [done|].
    intros <-. simplify_eq. by apply (Hv' k).
Qed.

Lemma resolve_send_inv c v k r s :
  prompter_inv s -> calls s !! c = Some v -> rv_phase v = Sending k ->
  requests s !! k = Some r -> prompter_inv (resolve_send c v k r s).
Proof.
  intros Hi Hv Hp Hr. assert (Hok := inv_calls s Hi v ltac:(by eapply list_elem_of_lookup_2)).
  unfold call_ok in Hok. rewrite Hp in Hok. unfold resolve_send.
  destruct (Response r) as [res0|] eqn:Eb.
  { apply set_call_inv; [done|done|done|congruence|exact Hok]. }
  destruct Hi as [H1 H2 H3 H4].
  set (r' := with_phase (rq_phase r) (Some (rv_result v)) r).
  set (v' := call_phase (Answered k true) v).
  assert (Hids := set_request_ids k r r' s Hr eq_refl).
  assert (Hltk := lookup_lt_Some _ _ _ Hr). assert (Hltc := lookup_lt_Some _ _ _ Hv).
  assert (Hin' : v' ∈ <[c := v']> (calls s)).
  { eapply list_elem_of_lookup_2. by apply list_lookup_insert_eq. }
  assert (Hkeep : forall x k', x ∈ calls s -> rv_phase x = Answered k' true -> x ∈ <[c := v']> (calls s)).
  { intros x k' (c' & Hc')%list_elem_of_lookup Hx. apply list_elem_of_lookup. exists c'.
    rewrite list_lookup_insert_ne; [done|]. intros <-. simplify_eq. congruence. }
  split.
  - intros id k' Hpk. destruct (H1 _ _ Hpk) as (r0 & Hr0 & <-).
    destruct (Hids _ _ Hr0) as (r1 & Hr1 & E). eauto.
  - intros x Hx. apply list_elem_of_lookup in Hx as (c' & Hc'). cbn in Hc'.
    apply (call_ok_mono s); [exact Hids|]. destruct (decide (c' = c)) as [->|Hne].
    + rewrite list_lookup_insert_eq in Hc' by done. simplify_eq. exact Hok.
    + rewrite list_lookup_insert_ne in Hc' by done. apply H2. by eapply list_elem_of_lookup_2.
  - intros k' r0 Hr0. unfold deliveries. cbn in *.
    assert (E := sum_list_with_insert (sent_to k') (calls s) c v v' Hv).
    assert (Ev : sent_to k' v = 0) by (unfold sent_to; by rewrite Hp).
    assert (Ev' : sent_to k' v' = if k =? k' then 1 else 0) by done.
    rewrite Ev, Ev' in E. destruct (decide (k' = k)) as [->|Hne].
    + rewrite list_lookup_insert_eq in Hr0 by done. injection Hr0 as <-.
      specialize (H3 k r Hr). unfold deliveries in H3. rewrite Nat.eqb_refl in E.
      unfold buffered in *. cbn. rewrite Eb in H3.
      change (consumed r') with (consumed r). lia.
    + rewrite list_lookup_insert_ne in Hr0 by done. specialize (H3 k' r0 Hr0).
      unfold deliveries in H3. rewrite (proj2 (Nat.eqb_neq k k')) in E by done. lia.
  - intros k' r0 res Hr0 Hres. cbn in Hr0. destruct (decide (k' = k)) as [->|Hne].
    + rewrite list_lookup_insert_eq in Hr0 by done. injection Hr0 as <-.
      destruct Hres as [Hres|Hres].
      * cbn in Hres. injection Hres as <-. by exists v'.
      * destruct (H4 k r res Hr (or_intror Hres)) as (x & Hx & Hph & E). exists x. eauto.
    + rewrite list_lookup_insert_ne in Hr0 by done.
      destruct (H4 k' r0 res Hr0 Hres) as (x & Hx & Hph & E). exists x. eauto.
Qed.

Lemma request_start_inv toolName toolUseID s :
  prompter_inv s -> prompter_inv (request_start toolName toolUseID s).
Proof.
  intros [H1 H2 H3 H4].
  assert (Hids : same_ids s (request_start toolName toolUseID s)).
  { intros k r Hr. exists r. split; [|done]. cbn. by apply lookup_app_l_Some. }
  assert (Hnew : forall k, length (requests s) <= k -> deliveries k s = 0).
  { intros k Hk. unfold deliveries.
    assert (Hall : forall x, x ∈ calls s -> sent_to k x = 0).
    { intros x Hx. specialize (H2 x Hx). unfold call_ok in H2. unfold sent_to.
      destruct (rv_phase x) as [| | |k' []]; try done. destruct H2 as (r & Hr & _).
      apply lookup_lt_Some in Hr. rewrite (proj2 (Nat.eqb_neq k' k)); [done|lia]. }
    clear - Hall. induction (calls s) as [|x l IH]; [done|]. cbn. rewrite Hall by set_solver.
    apply IH. set_solver. }
  split.
  - intros id k. cbn. rewrite lookup_insert_Some. intros [[<- <-]|[Hne Hp]].
    + eexists. split; [by apply list_lookup_middle|done].
    + destruct (H1 _ _ Hp) as (r & Hr & <-). destruct (Hids _ _ Hr) as (r' & ? & ?). eauto.
  - intros v Hv. eapply call_ok_mono; [exact Hids|]. by apply H2.
  - intros k r. cbn. intros [Hr|[Hge Hr]]%lookup_app_Some; [by apply H3|].
    apply list_lookup_singleton_Some in Hr as [_ <-]. by apply Hnew.
  - intros k r res. cbn. intros [Hr|[Hge Hr]]%lookup_app_Some; [by apply H4|].
    apply list_lookup_singleton_Some in Hr as [_ <-]. cbn. naive_solver.
Qed.

Lemma request_leave_inv k r res s :
  prompter_inv s -> requests s !! k = Some r -> rq_phase r = Leaving res ->
  prompter_inv (request_leave k r res s).
Proof.
  intros Hi Hr Hp. set (r' := with_phase (Returned res) (Response r) r).
  assert (Hi' : prompter_inv (set_request k r' s)).
  { apply (set_request_inv k r); [done|done|done| |].
    - unfold buffered, consumed, received. cbn. by rewrite Hp.
    - unfold received. cbn. rewrite Hp. naive_solver. }
  destruct Hi' as [H1 H2 H3 H4]. split; [|exact H2|exact H3|exact H4].
  intros id k'. cbn. rewrite lookup_delete_Some. intros [_ Hpk]. by apply H1.
Qed.

Lemma prompter_step_inv s l s' : prompter_inv s -> prompter_step s l s' -> prompter_inv s'.
Proof.
  intros Hi. destruct 1 as [s tn id|s k r res Hr Hp Hb|s k r Hr Hp|s k r res Hr Hp|s id result
    |s c v Hv Hp|s c v k r Hv Hp Hr].
  - by apply request_start_inv.
  - apply (set_request_inv k r); [done|done|done| |].
    + unfold buffered, consumed, received. cbn. by rewrite Hp, Hb.
    + unfold received. cbn. rewrite Hp, Hb. naive_solver.
  - apply (set_request_inv k r); [done|done|done| |].
    + unfold buffered, consumed, received. cbn. by rewrite Hp.
    + unfold received. cbn. rewrite Hp. naive_solver.
  - by apply request_leave_inv.
  - destruct Hi as [H1 H2 H3 H4]. split; [exact H1| | |].
    + intros v [Hv| ->%list_elem_of_singleton]%elem_of_app; [by apply H2|done].
    + intros k r Hr. unfold deliveries. cbn. rewrite sum_list_with_app.
      rewrite <- (H3 k r Hr). unfold deliveries. cbn. lia.
    + intros k r res Hr Hres. destruct (H4 k r res Hr Hres) as (x & Hx & Hph & E).
      exists x. split; [cbn; set_solver|done].
  - apply set_call_inv; [done|done| |congruence|].
    + intros k. by destruct (pending s !! rv_ToolUseID v).
    + unfold call_ok. cbn. destruct (pending s !! rv_ToolUseID v) as [k|] eqn:E; [|done].
      apply (inv_pending s Hi _ _ E).
  - by apply resolve_send_inv.
Qed.

Lemma reachable_inv s : reachable s -> prompter_inv s.
Proof.
  intros [ls Hs]. eapply (steps_invariant prompter_step prompter_inv prompter_step_inv); [exact Hs|].
  split; cbn; set_solver.
Qed.

(** ** [ResolveOnce] *)

(** A goroutine in [ResolveOnce.Resolve]: before the compare-and-swap, holding
    the claim, or returned. *)
Inductive racer_phase : Type := Racing | Claimed | Finished (delivered : bool).

Record racer := { rc_result : PermissionResult; rc_phase : racer_phase }.

(** [ro_chan] lists the results sent, [ro_free] is the room left in the channel. *)
Record once_state := {
  claimed : bool;
  ro_chan : list PermissionResult;
  ro_free : nat;
  racers : list racer;
}.

(** [Claim]: the compare-and-swap, which returns whether it succeeded. *)
Definition Claim (s : once_state) : once_state * bool :=
  ({| claimed := true; ro_chan := ro_chan s; ro_free := ro_free s; racers := racers s |},
   negb (claimed s)).

Definition IsResolved (s : once_state) : bool := claimed s.

Definition set_racer (i : nat) (p : racer_phase) (r : racer) (s : once_state) : once_state :=
  {| claimed := claimed s; ro_chan := ro_chan s; ro_free := ro_free s;
     racers := <[i := {| rc_result := rc_result r; rc_phase := p |}]> (racers s) |}.

(** The non-blocking send of the claimant. *)
Definition once_send (i : nat) (r : racer) (s : once_state) : once_state :=
  match ro_free s with
  | 0 => set_racer i (Finished false) r s
  | S free =>
      set_racer i (Finished true) r
        {| claimed := claimed s; ro_chan := ro_chan s ++ [rc_result r]; ro_free := free;
           racers := racers s |}
  end.

Inductive once_step : once_state -> unit -> once_state -> Prop :=
| once_claim s i r :
    racers s !! i = Some r -> rc_phase r = Racing ->
    once_step s () (set_racer i (if (Claim s).2 then Claimed else Finished false) r (Claim s).1)
| once_resolve s i r :
    racers s !! i = Some r -> rc_phase r = Claimed ->
    once_step s () (once_send i r s)
| once_receive s :
    once_step s () {| claimed := claimed s; ro_chan := ro_chan s; ro_free := S (ro_free s);
                      racers := racers s |}.

(** The racers, all before the compare-and-swap, and a channel with room. *)
Definition once_init (free : nat) (results : list PermissionResult) : once_state :=
  {| claimed := false; ro_chan := []; ro_free := free;
     racers := map (fun r => {| rc_result := r; rc_phase := Racing |}) results |}.

Definition holds (r : racer) : nat :=
  match rc_phase r with Claimed | Finished true => 1 | _ => 0 end.

Definition won (r : racer) : nat := match rc_phase r with Finished true => 1 | _ => 0 end.

(** At most one racer holds or has used the claim, and the channel holds one
    result per delivery. *)
Definition once_inv (s : once_state) : Prop :=
  sum_list_with holds (racers s) <= (if claimed s then 1 else 0) /\
  length (ro_chan s) = sum_list_with won (racers s).

Lemma once_step_inv s l s' : once_inv s -> once_step s l s' -> once_inv s'.
Proof.
  unfold once_inv. intros [H1 H2]. destruct 1 as [s i r Hr Hp|s i r Hr Hp|s]; [| |done].
  - set (r' := {| rc_result := rc_result r;
                   rc_phase := if (Claim s).2 then Claimed else Finished false |}).
    assert (Eh := sum_list_with_insert holds (racers s) i r r' Hr).
    assert (Ew := sum_list_with_insert won (racers s) i r r' Hr).
    assert (Hh : holds r = 0) by (unfold holds; by rewrite Hp).
    assert (Hw : won r = 0) by (unfold won; by rewrite Hp).
    assert (Hh' : holds r' = if claimed s then 0 else 1) by (unfold holds; cbn; by destruct (claimed s)).
    assert (Hw' : won r' = 0) by (unfold won; cbn; by destruct (claimed s)).
    rewrite Hh, Hh' in Eh. rewrite Hw, Hw' in Ew. cbn [set_racer Claim fst claimed ro_chan racers].
    fold r'. destruct (claimed s); lia.
  - assert (Eh := fun b => sum_list_with_insert holds (racers s) i r
      {| rc_result := rc_result r; rc_phase := Finished b |} Hr).
    assert (Ew := fun b => sum_list_with_insert won (racers s) i r
      {| rc_result := rc_result r; rc_phase := Finished b |} Hr).
    assert (Hh : holds r = 1) by (unfold holds; by rewrite Hp).
    assert (Hw : won r = 0) by (unfold won; by rewrite Hp).
    unfold once_send. destruct (ro_free s) as [|free]; cbn.
    + specialize (Eh false). specialize (Ew false). rewrite Hh in Eh. rewrite Hw in Ew.
      cbn in Eh, Ew. lia.
    + specialize (Eh true). specialize (Ew true). rewrite Hh in Eh. rewrite Hw in Ew.
      cbn in Eh, Ew. rewrite length_app. cbn. lia.
Qed.

Lemma won_holds l : sum_list_with won l <= sum_list_with holds l.
Proof.
  induction l as [|r l IH]; [done|]. cbn. unfold won at 1, holds at 1.
  destruct (rc_phase r) as [| |[]]; lia.
Qed.

Lemma once_init_inv free results : once_inv (once_init free results).
Proof. split; cbn; induction results; cbn in *; lia. Qed.

(** ** Properties *)

(** C37: In every interleaving of requests, resolutions and cancellations: a result
    that a request returns (other than its cancellation) was delivered by a
    call of [Resolve] for the same identifier that returned true; and the
    calls that returned true for a request are the one whose result it took
    plus the one whose result is still in its channel, so at most one while it
    waits. *)
Theorem prompter_delivery s k r :
  reachable s -> requests s !! k = Some r ->
  deliveries k s = buffered r + consumed r /\
  (rq_phase r = Waiting -> deliveries k s <= 1) /\
  (forall res, rq_phase r = Returned (Some res) ->
     exists v, v ∈ calls s /\ rv_phase v = Answered k true /\ rv_result v = res /\
               rv_ToolUseID v = rq_ToolUseID r).
Proof.
  intros Hi%reachable_inv Hr. assert (Hc := inv_count s Hi k r Hr). split; [done|]. split.
  - intros Hp. rewrite Hc. unfold buffered, consumed, received. rewrite Hp.
    destruct (Response r); lia.
  - intros res Hp. destruct (inv_source s Hi k r res Hr) as (v & Hv & Hph & E).
    { right. unfold received. by rewrite Hp. }
    exists v. split_and!; [done..|]. assert (Hok := inv_calls s Hi v Hv).
    unfold call_ok in Hok. rewrite Hph in Hok. destruct Hok as (r' & Hr' & <-). congruence.
Qed.

(** However the racers interleave, at most one [ResolveOnce.Resolve] returns
    true, and what it sent is the only result ever in the channel. *)
Theorem resolve_once_single free results ls s :
  steps once_step (once_init free results) ls s ->
  sum_list_with won (racers s) <= 1 /\ length (ro_chan s) = sum_list_with won (racers s).
Proof.
  intros Hs. destruct (steps_invariant once_step once_inv once_step_inv _ _ _ Hs)
    as [H1 H2]; [apply once_init_inv|].
  split; [|done]. etrans; [apply won_holds|]. destruct (claimed s); lia.
Qed.

Module Example_prompter.
Definition yes : PermissionResult := plain_result DecisionAllow ReasonPermissionPrompt [] [].
Definition no : PermissionResult := plain_result DecisionDeny ReasonPermissionPrompt [] [].

(** One request, two resolutions that both looked it up, the first one sent. *)
Definition state_of (r : PermissionRequest) (vs : list resolve_call) : prompter_state :=
  {| requests := [r]; calls := vs; pending := {[ lit "t" := 0 ]} |}.
Definition req (buf : option PermissionResult) (p : request_phase) : PermissionRequest :=
  {| rq_ToolUseID := lit "t"; rq_ToolName := []; Response := buf; rq_phase := p |}.
Definition call (r : PermissionResult) (p : resolve_phase) : resolve_call :=
  {| rv_ToolUseID := lit "t"; rv_result := r; rv_phase := p |}.

Definition delivered_once : prompter_state :=
  state_of (req None (Leaving (Some yes))) [call yes (Answered 0 true)].

Lemma delivered_once_reachable : reachable delivered_once.
Proof.
  exists [(); (); (); (); ()].
  eapply steps_cons; [apply (step_request _ [] (lit "t"))|].
  eapply steps_cons; [apply (step_call _ (lit "t") yes)|].
  eapply steps_cons; [eapply (step_lookup _ 0); reflexivity|].
  eapply steps_cons; [eapply (step_send _ 0 _ 0); reflexivity|].
  eapply steps_cons; [eapply (step_receive _ 0); reflexivity|].
  apply steps_nil.
Qed.

Lemma prompter_delivery_witness : deliveries 0 delivered_once = 1.
Proof.
  apply (prompter_delivery delivered_once 0 (req None (Leaving (Some yes))));
    [apply delivered_once_reachable | reflexivity].
Defined.

Lemma resolve_once_single_witness :
  sum_list_with won (racers (once_init 1 [yes; no])) <= 1.
Proof. apply (resolve_once_single 1 [yes; no] [] (once_init 1 [yes; no])), steps_nil. Defined.

(** [Resolve] can return true for a request that already took another
    result: between the receive and the removal from the map the channel is
    empty again and the request can still be found.  The second decision is
    reported as delivered and lost. *)
Theorem second_resolution_accepted :
  exists s r, reachable s /\ requests s !! 0 = Some r /\
    received r = Some yes /\ Response r = Some no /\ deliveries 0 s = 2.
Proof.
  destruct delivered_once_reachable as [ls Hs].
  exists (state_of (req (Some no) (Leaving (Some yes)))
            [call yes (Answered 0 true); call no (Answered 0 true)]).
  exists (req (Some no) (Leaving (Some yes))). split; [|done].
  exists (ls ++ [(); (); ()]).
  assert (Happ : forall s1 l1 s2 l2 s3, steps prompter_step s1 l1 s2 ->
            steps prompter_step s2 l2 s3 -> steps prompter_step s1 (l1 ++ l2) s3)
    by (induction 1; cbn; eauto using @steps).
  eapply Happ; [exact Hs|].
  eapply steps_cons; [apply (step_call _ (lit "t") no)|].
  eapply steps_cons; [eapply (step_lookup _ 1); reflexivity|].
  eapply steps_cons; [eapply (step_send _ 1 _ 0); reflexivity|].
  apply steps_nil.
Qed.
End Example_prompter.
