(* ===== verification/Heap.v ===== *)
(** * Go's [container/heap]

    The array heap of the Go library on a list, for a comparison [less], with
    the sift loops of the library, and its correctness: the operations keep the
    heap order and the elements, and [Pop] returns an element that no other is
    less than. *)

From S2P Require Import Prelude.

Section heap.
Context {A : Type} (less : A -> A -> bool).

(** [h.Less(i, j)]. *)
Definition less_at (l : list A) (i j : nat) : bool :=
  match l !! i, l !! j with
  | Some x, Some y => less x y
  | _, _ => false
  end.

(** [h.Swap(i, j)]. *)
Definition swap (l : list A) (i j : nat) : list A :=
  match l !! i, l !! j with
  | Some x, Some y => <[i := y]> (<[j := x]> l)
  | _, _ => l
  end.

Definition parent (j : nat) : nat := (j - 1) / 2.

(** [up(h, j)]; the index at least halves, so [S j] rounds suffice. *)
Fixpoint up (fuel : nat) (l : list A) (j : nat) : option (list A) :=
  match fuel with
  | 0 => None
  | S fuel =>
      let i := parent j in
      if (i =? j) || negb (less_at l j i) then Some l
      else up fuel (swap l i j) i
  end.

(** [down(h, i, n)]; the index grows below [n]. *)
Fixpoint down (fuel : nat) (l : list A) (i n : nat) : option (list A) :=
  match fuel with
  | 0 => None
  | S fuel =>
      let j1 := 2 * i + 1 in
      if n <=? j1 then Some l
      else
        let j2 := j1 + 1 in
        let j := if (j2 <? n) && less_at l j2 j1 then j2 else j1 in
        if negb (less_at l j i) then Some l
        else down fuel (swap l i j) j n
  end.

Definition heap_push (x : A) (l : list A) : list A :=
  let l := l ++ [x] in
  default l (up (length l) l (length l - 1)).

(** [heap.Pop] of a non-empty heap. *)
Definition heap_pop (l : list A) : option (A * list A) :=
  let n := length l - 1 in
  let l := swap l 0 n in
  let l := default l (down (S n) l 0 n) in
  match last l with
  | Some x => Some (x, take n l)
  | None => None
  end.

(** ** Order *)

Class StrictWeak := {
  sw_irrefl : forall x, less x x = false;
  sw_asym : forall x y, less x y = true -> less y x = false;
  sw_trans : forall x y z, less x y = false -> less y z = false -> less x z = false;
}.

(** Heap order of the first [n] elements, except between [skip] and its
    children (or, for [up], its parent). *)
Definition ordered_at (l : list A) (k : nat) : Prop := less_at l k (parent k) = false.

Definition heap (l : list A) : Prop := forall k, 0 < k < length l -> ordered_at l k.

Lemma parent_lt k : 0 < k -> parent k < k.
Proof. intros Hk. unfold parent. apply Nat.Div0.div_lt_upper_bound; lia. Qed.

Lemma parent_child1 i : parent (2 * i + 1) = i.
Proof. unfold parent. replace (2 * i + 1 - 1) with (i * 2) by lia. by apply Nat.div_mul. Qed.

Lemma parent_child2 i : parent (2 * i + 1 + 1) = i.
Proof.
  unfold parent. replace (2 * i + 1 + 1 - 1) with (1 + i * 2) by lia.
  by rewrite Nat.div_add by lia.
Qed.

Lemma parent_inv k i : 0 < k -> parent k = i -> k = 2 * i + 1 \/ k = 2 * i + 1 + 1.
Proof.
  unfold parent. intros Hk <-. pose proof (Nat.div_mod_eq (k - 1) 2).
  pose proof (Nat.mod_upper_bound (k - 1) 2). lia.
Qed.

Lemma swap_length l i j : length (swap l i j) = length l.
Proof. unfold swap. repeat case_match; by rewrite ?length_insert. Qed.

Lemma swap_lookup l i j x y k :
  l !! i = Some x -> l !! j = Some y ->
  swap l i j !! k = if decide (k = i) then Some y else if decide (k = j) then Some x else l !! k.
Proof.
  intros Hi Hj. unfold swap. rewrite Hi, Hj.
  assert (i < length l) by (by eapply lookup_lt_Some).
  assert (j < length l) by (by eapply lookup_lt_Some).
  destruct (decide (k = i)) as [->|Hki].
  - rewrite list_lookup_insert_eq; [done|]. by rewrite length_insert.
  - rewrite list_lookup_insert_ne by done. destruct (decide (k = j)) as [->|Hkj].
    + by rewrite list_lookup_insert_eq.
    + by rewrite list_lookup_insert_ne.
Qed.

Lemma swap_perm l i j : swap l i j ≡ₚ l.
Proof.
  unfold swap. destruct (l !! i) as [x|] eqn:Hi; [|done].
  destruct (l !! j) as [y|] eqn:Hj; [|done].
  destruct (decide (i = j)) as [->|Hne].
  - assert (x = y) as <- by congruence.
    rewrite (list_insert_id l j x) by done. by rewrite list_insert_id.
  - apply Permutation_inj. split.
    { by rewrite !length_insert. }
    exists (fun k => if decide (k = i) then j else if decide (k = j) then i else k).
    split.
    + intros a b. repeat case_decide; congruence.
    + intros k. assert (S := swap_lookup l i j x y k Hi Hj). unfold swap in S.
      rewrite Hi, Hj in S. rewrite S.
      repeat case_decide; subst; congruence.
Qed.

Lemma less_at_true l i j :
  less_at l i j = true ->
  exists x y, l !! i = Some x /\ l !! j = Some y /\ less x y = true.
Proof.
  unfold less_at. destruct (l !! i) as [x|], (l !! j) as [y|]; try done. eauto.
Qed.

Lemma less_at_some l i j x y :
  l !! i = Some x -> l !! j = Some y -> less_at l i j = less x y.
Proof. unfold less_at. by intros -> ->. Qed.
End heap.

Section correctness.
Context {A : Type} (less : A -> A -> bool) `{!StrictWeak less}.
Implicit Types (l : list A).

(** Not less, between positions that exist, is transitive. *)
Lemma less_at_trans l i j k :
  j < length l -> less_at less l i j = false -> less_at less l j k = false ->
  less_at less l i k = false.
Proof.
  intros [y Hy]%lookup_lt_is_Some_2. unfold less_at. rewrite Hy.
  destruct (l !! i), (l !! k); try done. apply sw_trans; apply _.
Qed.

Lemma less_at_asym l i j : less_at less l i j = true -> less_at less l j i = false.
Proof.
  intros (x & y & Hx & Hy & Hl)%less_at_true. rewrite (less_at_some _ _ _ _ _ _ Hy Hx).
  apply sw_asym; [apply _|done].
Qed.

(** How a swap changes the comparisons. *)
Lemma less_at_swap l i j a b :
  i < length l -> j < length l ->
  let f k := if decide (k = i) then j else if decide (k = j) then i else k in
  less_at less (swap l i j) a b = less_at less l (f a) (f b).
Proof.
  intros [x Hx]%lookup_lt_is_Some_2 [y Hy]%lookup_lt_is_Some_2. cbv zeta.
  assert (Hf : forall k, swap l i j !! k =
            l !! (if decide (k = i) then j else if decide (k = j) then i else k)).
  { intros k. rewrite (swap_lookup l i j x y k Hx Hy). by repeat case_decide. }
  unfold less_at. by rewrite !Hf.
Qed.

(** *** Sifting up *)

Definition up_inv l (j : nat) : Prop :=
  (forall k, 0 < k < length l -> k <> j -> ordered_at less l k) /\
  (forall c, 0 < c < length l -> parent c = j -> 0 < j -> less_at less l c (parent j) = false).

Lemma up_step l j :
  0 < j < length l -> up_inv l j -> less_at less l j (parent j) = true ->
  up_inv (swap l (parent j) j) (parent j).
Proof.
  intros Hj [H1 H2] Hl. assert (Hp := parent_lt j ltac:(lia)). set (p := parent j) in *.
  assert (Hsw := less_at_swap l p j). unfold up_inv, ordered_at. rewrite swap_length. split.
  - intros k Hk Hkp. rewrite Hsw by lia.
    destruct (decide (k = p)) as [|_]; [done|]. destruct (decide (k = j)) as [->|Hkj].
    + rewrite decide_True by done. by apply less_at_asym.
    + destruct (decide (parent k = p)) as [Ep|Enp].
      * apply (less_at_trans l k p j); [lia| |by apply less_at_asym].
        assert (Ho := H1 k Hk Hkj). unfold ordered_at in Ho. by rewrite Ep in Ho.
      * destruct (decide (parent k = j)) as [Ej|Enj].
        -- apply H2; [lia|done|lia].
        -- by apply H1.
  - intros c Hc Ec Hpp. assert (Hpp' := parent_lt p Hpp). rewrite Hsw by lia.
    rewrite (decide_False (P := parent p = p)) by lia.
    rewrite (decide_False (P := parent p = j)) by lia.
    assert (Hop : less_at less l p (parent p) = false) by (apply H1; lia).
    destruct (decide (c = p)) as [->|Hcp].
    { assert (Hlt := parent_lt p Hpp). lia. }
    destruct (decide (c = j)) as [->|Hcj]; [done|].
    apply (less_at_trans l c p (parent p)); [lia| |done].
    assert (Ho := H1 c Hc Hcj). unfold ordered_at in Ho. by rewrite Ec in Ho.
Qed.

Lemma up_correct fuel l j :
  j < fuel -> j < length l -> up_inv l j ->
  exists l', up less fuel l j = Some l' /\ l' ≡ₚ l /\ heap less l'.
Proof.
  revert l j. induction fuel as [|fuel IH]; intros l j Hf Hj Hi; [lia|]. cbn [up].
  destruct (decide (j = 0)) as [->|Hj0].
  { exists l. split; [done|]. split; [done|]. intros k Hk. apply Hi; lia. }
  assert (Hp := parent_lt j ltac:(lia)).
  rewrite (proj2 (Nat.eqb_neq _ _)) by lia. cbn [orb].
  destruct (less_at less l j (parent j)) eqn:E; cbn [negb].
  - destruct (IH (swap l (parent j) j) (parent j)) as (l' & H1 & H2 & H3).
    + lia.
    + rewrite swap_length. lia.
    + apply up_step; [lia|done|done].
    + exists l'. split; [done|]. split; [|done]. by rewrite H2, swap_perm.
  - exists l. split; [done|]. split; [done|]. intros k Hk.
    destruct (decide (k = j)) as [->|Hkj]; [done|]. by apply Hi.
Qed.

Lemma heap_push_correct x l :
  heap less l -> heap_push less x l ≡ₚ x :: l /\ heap less (heap_push less x l).
Proof.
  intros Hh. unfold heap_push. cbv zeta. rewrite length_app. cbn [length].
  replace (length l + 1 - 1) with (length l) by lia.
  destruct (up_correct (length l + 1) (l ++ [x]) (length l)) as (l' & H1 & H2 & H3).
  - lia.
  - rewrite length_app. cbn. lia.
  - split.
    + intros k Hk Hne. rewrite length_app in Hk. cbn in Hk. unfold ordered_at, less_at.
      assert (Hp := parent_lt k ltac:(lia)).
      rewrite !lookup_app_l by lia. apply (Hh k). lia.
    + intros c Hc Hp Hl. rewrite length_app in Hc. cbn in Hc.
      assert (Hlt := parent_lt c ltac:(lia)). lia.
  - rewrite H1. cbn. split; [|done]. rewrite H2, Permutation_app_comm. done.
Qed.

(** *** Sifting down *)

Definition heap_upto l (n : nat) : Prop := forall k, 0 < k < n -> ordered_at less l k.

Definition down_inv l (n i : nat) : Prop :=
  (forall k, 0 < k < n -> parent k <> i -> ordered_at less l k) /\
  (forall c, 0 < c < n -> parent c = i -> 0 < i -> less_at less l c (parent i) = false).

(** The child that [down] compares: the other one is not less. *)
Definition least_child l (i n j : nat) : Prop :=
  0 < j < n /\ parent j = i /\
  forall c, 0 < c < n -> parent c = i -> less_at less l c j = false.

Lemma least_child_ok l i n :
  2 * i + 1 < n ->
  least_child l i n
    (if (2 * i + 1 + 1 <? n) && less_at less l (2 * i + 1 + 1) (2 * i + 1)
     then 2 * i + 1 + 1 else 2 * i + 1).
Proof.
  intros Hn. assert (Hself : forall k, less_at less l k k = false).
  { intros k. unfold less_at. destruct (l !! k); [|done]. apply sw_irrefl; apply _. }
  destruct ((2 * i + 1 + 1 <? n) && _) eqn:E.
  - apply andb_true_iff in E as [E1 E2]. apply Nat.ltb_lt in E1.
    split; [lia|]. split; [apply parent_child2|]. intros c Hc Hp.
    destruct (parent_inv c i ltac:(lia) Hp) as [-> | ->]; [by apply less_at_asym|done].
  - split; [lia|]. split; [apply parent_child1|]. intros c Hc Hp.
    destruct (parent_inv c i ltac:(lia) Hp) as [-> | ->]; [done|].
    apply andb_false_iff in E as [E|E]; [apply Nat.ltb_ge in E; lia|done].
Qed.

Lemma down_step l i n j :
  n <= length l -> down_inv l n i -> least_child l i n j -> less_at less l j i = true ->
  down_inv (swap l i j) n j.
Proof.
  intros Hn [H1 H2] (Hj & Hpj & Hmin) Hl.
  assert (Hij : i < j) by (rewrite <- Hpj; apply parent_lt; lia).
  assert (Hsw := less_at_swap l i j). unfold down_inv, ordered_at. split.
  - intros k Hk Hkj. rewrite Hsw by lia. rewrite (decide_False (P := parent k = j)) by done.
    destruct (decide (k = i)) as [->|Hki].
    { rewrite decide_False by (assert (Hlt := parent_lt i ltac:(lia)); lia).
      apply H2; [lia|done|lia]. }
    destruct (decide (k = j)) as [->|Hkj'].
    { rewrite decide_True by done. by apply less_at_asym. }
    destruct (decide (parent k = i)) as [Ep|Enp].
    + apply Hmin; [lia|done].
    + apply H1; [lia|done].
  - intros c Hc Ec _. assert (Hlt := parent_lt c ltac:(lia)). rewrite Hsw by lia.
    rewrite Hpj. rewrite (decide_False (P := c = i)), (decide_False (P := c = j)) by lia.
    rewrite decide_True by done. assert (Ho := H1 c Hc ltac:(lia)).
    unfold ordered_at in Ho. by rewrite Ec in Ho.
Qed.

Lemma down_correct fuel l i n :
  n <= length l -> n - i < fuel -> down_inv l n i ->
  exists l', down less fuel l i n = Some l' /\ l' ≡ₚ l /\ heap_upto l' n /\
    forall k, n <= k -> l' !! k = l !! k.
Proof.
  revert l i. induction fuel as [|fuel IH]; intros l i Hn Hf Hi; [lia|]. cbn [down].
  destruct (n <=? 2 * i + 1) eqn:E.
  { apply Nat.leb_le in E. exists l. split_and!; [done|done| |done]. intros k Hk.
    apply Hi; [lia|]. intros Hp. apply parent_inv in Hp; lia. }
  apply Nat.leb_gt in E. assert (Hc := least_child_ok l i n E).
  set (j := if _ && _ then _ else _) in *.
  assert (Hij : i < j).
  { destruct Hc as (Hj & Hp & _). rewrite <- Hp. apply parent_lt. lia. }
  destruct (less_at less l j i) eqn:El; cbn [negb].
  - destruct (IH (swap l i j) j) as (l' & H1 & H2 & H3 & H4).
    + by rewrite swap_length.
    + destruct Hc as (Hj & _). lia.
    + by apply down_step.
    + exists l'. split_and!; [done|by rewrite H2, swap_perm|done|].
      intros k Hk. rewrite H4 by done. destruct Hc as (Hj & _).
      destruct (lookup_lt_is_Some_2 l i ltac:(lia)) as [x Hx].
      destruct (lookup_lt_is_Some_2 l j ltac:(lia)) as [y Hy].
      rewrite (swap_lookup l i j x y k Hx Hy). by rewrite !decide_False by lia.
  - exists l. split_and!; [done|done| |done]. intros k Hk.
    destruct (decide (parent k = i)) as [Ep|Enp]; [|by apply Hi].
    unfold ordered_at. rewrite Ep. destruct Hc as (Hj & Hp & Hmin).
    apply (less_at_trans l k j i); [lia|by apply Hmin|done].
Qed.

(** The root of a heap is not greater than any element. *)
Lemma heap_root l k : heap less l -> k < length l -> less_at less l k 0 = false.
Proof.
  intros Hh. induction k as [k IH] using (well_founded_induction lt_wf). intros Hk.
  destruct (decide (k = 0)) as [->|Hk0].
  - unfold less_at. destruct (l !! 0); [|done]. apply sw_irrefl; apply _.
  - assert (Hp := parent_lt k ltac:(lia)).
    apply (less_at_trans l k (parent k) 0); [lia|apply Hh; lia|apply IH; lia].
Qed.

Lemma heap_pop_nil : heap_pop less (@nil A) = None.
Proof. done. Qed.

Lemma heap_pop_correct l :
  heap less l -> l <> [] ->
  exists x l', heap_pop less l = Some (x, l') /\ l !! 0 = Some x /\ l ≡ₚ x :: l' /\ heap less l' /\
    forall y, y ∈ l -> less y x = false.
Proof.
  intros Hh Hne. destruct l as [|x l0]; [done|]. set (l := x :: l0) in *.
  assert (Hlen : 0 < length l) by (cbn; lia). unfold heap_pop. cbv zeta.
  set (n := length l - 1). assert (Hn : n < length l) by lia.
  destruct (lookup_lt_is_Some_2 l n Hn) as [z Hz].
  assert (H0 : l !! 0 = Some x) by done.
  assert (Hsn : swap l 0 n !! n = Some x).
  { rewrite (swap_lookup l 0 n x z n H0 Hz). repeat case_decide; try done. congruence. }
  assert (Hi : down_inv (swap l 0 n) n 0).
  { split; [|intros; lia]. intros k Hk Hp. unfold ordered_at.
    assert (Hlt := parent_lt k ltac:(lia)). rewrite less_at_swap by lia.
    rewrite !decide_False by lia. apply Hh. lia. }
  destruct (down_correct (S n) (swap l 0 n) 0 n) as (l2 & E2 & P2 & U2 & K2);
    [rewrite swap_length; lia|lia|done|].
  rewrite E2. cbn [default]. change (id l2) with l2.
  assert (Hl2 : length l2 = S n) by (rewrite P2, swap_length; lia).
  assert (Hx2 : l2 !! n = Some x) by (by rewrite K2).
  assert (Hsplit : l2 = take n l2 ++ [x]).
  { rewrite <- (take_drop n l2) at 1. f_equal. rewrite (drop_S l2 x n Hx2).
    rewrite drop_ge by lia. done. }
  assert (Hlast : last l2 = Some x) by (rewrite Hsplit; apply last_snoc).
  rewrite Hlast. exists x, (take n l2). split_and!; [done|done| | |].
  - assert (Hp : l2 ≡ₚ x :: take n l2) by (rewrite Hsplit at 1; by rewrite Permutation_app_comm).
    by rewrite <- Hp, P2, swap_perm.
  - intros k Hk. rewrite length_take in Hk. unfold ordered_at, less_at.
    assert (Hlt := parent_lt k ltac:(lia)).
    rewrite !lookup_take_lt by lia. apply (U2 k). lia.
  - intros y (k & Hk)%list_elem_of_lookup.
    assert (Hr := heap_root l k Hh ltac:(by eapply lookup_lt_Some)).
    by rewrite (less_at_some _ _ _ _ _ _ Hk H0) in Hr.
Qed.
End correctness.
