(* ===== verification/TurnQueue.v ===== *)
(** * Turn queues ([engine/queue/queue.go])

    The per-session queue, in which commands overtake messages, its blocking
    [Wait] as a step relation, and the manager that hands out one queue per
    session. *)

From S2P Require Import Prelude GoStrings Regex ShellMatch Rules.

(** ** The code *)

Inductive ItemType : Type := ItemTypeMessage | ItemTypeCommand.

#[export] Instance ItemType_eq_dec : EqDecision ItemType.
Proof. solve_decision. Defined.

Record TurnItem := {
  ti_Type : ItemType;
  ti_Content : bytes;
  ti_Timestamp : Z;
  ti_Meta : option input;
}.

(** [notified] says that the channel of capacity one holds a token. *)
Record TurnQueue := {
  items : list TurnItem;
  notified : bool;
  closed : bool;
}.

Definition NewTurnQueue : TurnQueue := {| items := []; notified := false; closed := false |}.

(** [signal]: [Err] is the panic of a send on the closed channel. *)
Definition signal (q : TurnQueue) : result TurnQueue TurnQueue :=
  if closed q then Err q
  else Ok {| items := items q; notified := true; closed := closed q |}.

Definition enqueue (item : TurnItem) (q : TurnQueue) : result TurnQueue TurnQueue :=
  signal {| items := items q ++ [item]; notified := notified q; closed := closed q |}.

Definition EnqueueMessage (now : Z) (content : bytes) (meta : option input) (q : TurnQueue)
    : result TurnQueue TurnQueue :=
  enqueue {| ti_Type := ItemTypeMessage; ti_Content := content; ti_Timestamp := now;
             ti_Meta := meta |} q.

Definition EnqueueCommand (now : Z) (content : bytes) (q : TurnQueue)
    : result TurnQueue TurnQueue :=
  enqueue {| ti_Type := ItemTypeCommand; ti_Content := content; ti_Timestamp := now;
             ti_Meta := None |} q.

Definition is_command (item : TurnItem) : bool := ti_Type item ==b ItemTypeCommand.
Definition is_message (item : TurnItem) : bool := ti_Type item ==b ItemTypeMessage.

(** The loop of [nextIndex]. *)
Fixpoint next_index (i : nat) (l : list TurnItem) : nat :=
  match l with
  | [] => 0
  | item :: l' => if is_command item then i else next_index (S i) l'
  end.

Definition nextIndex (q : TurnQueue) : nat := next_index 0 (items q).

Definition set_items (l : list TurnItem) (q : TurnQueue) : TurnQueue :=
  {| items := l; notified := notified q; closed := closed q |}.

Definition Dequeue (q : TurnQueue) : option TurnItem * TurnQueue :=
  let idx := nextIndex q in
  match items q !! idx with
  | None => (None, q)
  | Some item => (Some item, set_items (take idx (items q) ++ drop (idx + 1) (items q)) q)
  end.

Definition DequeueAll (q : TurnQueue) : list TurnItem * TurnQueue :=
  if length (items q) =? 0 then ([], q)
  else (List.filter is_command (items q) ++ List.filter is_message (items q), set_items [] q).

Definition Len (q : TurnQueue) : nat := length (items q).

Definition HasCommands (q : TurnQueue) : bool := existsb is_command (items q).

Definition Peek (q : TurnQueue) : option TurnItem := items q !! nextIndex q.

Definition Close (q : TurnQueue) : TurnQueue :=
  if closed q then q else {| items := items q; notified := notified q; closed := true |}.

(** ** Abstract specification: two first-in first-out queues *)

Record two_queues := { cmds : list TurnItem; msgs : list TurnItem }.

Definition abs (q : TurnQueue) : two_queues :=
  {| cmds := List.filter is_command (items q); msgs := List.filter is_message (items q) |}.

Definition spec_enqueue (item : TurnItem) (a : two_queues) : two_queues :=
  if is_command item then {| cmds := cmds a ++ [item]; msgs := msgs a |}
  else {| cmds := cmds a; msgs := msgs a ++ [item] |}.

Definition spec_dequeue (a : two_queues) : option TurnItem * two_queues :=
  match cmds a, msgs a with
  | c :: cs, ms => (Some c, {| cmds := cs; msgs := ms |})
  | [], m :: ms => (Some m, {| cmds := []; msgs := ms |})
  | [], [] => (None, a)
  end.

(** ** Lemmas *)

Lemma is_message_command item : is_message item = negb (is_command item).
Proof. unfold is_message, is_command. by destruct (ti_Type item). Qed.

Lemma next_index_spec i l :
  (exists pre c post, l = pre ++ c :: post /\ is_command c = true /\
     List.filter is_command pre = [] /\ next_index i l = i + length pre) \/
  (List.filter is_command l = [] /\ next_index i l = 0).
Proof.
  revert i. induction l as [|item l IH]; intros i; [by right|]. cbn [next_index].
  destruct (is_command item) eqn:E.
  - left. exists [], item, l. cbn. split_and!; [done|done|done|lia].
  - destruct (IH (S i)) as [(pre & c & post & -> & Hc & Hf & ->)|[Hf ->]].
    + left. exists (item :: pre), c, post. cbn. rewrite E. split_and!; [done|done|done|lia].
    + right. cbn. by rewrite E.
Qed.

Lemma filter_no_command l : List.filter is_command l = [] -> List.filter is_message l = l.
Proof.
  induction l as [|item l IH]; [done|]. cbn. rewrite is_message_command.
  destruct (is_command item); [done|]. cbn. intros H. by rewrite IH.
Qed.

(** [Dequeue] takes the first command, else the first message. *)
Lemma Dequeue_abs q :
  (Dequeue q).1 = (spec_dequeue (abs q)).1 /\ abs (Dequeue q).2 = (spec_dequeue (abs q)).2.
Proof.
  unfold Dequeue, nextIndex, spec_dequeue, abs. cbn [cmds msgs].
  destruct (next_index_spec 0 (items q)) as [(pre & c & post & E & Hc & Hf & ->)|[Hf ->]].
  - rewrite E, Nat.add_0_l, list_lookup_middle by done. rewrite !List.filter_app. cbn.
    rewrite Hc, Hf, is_message_command, Hc. cbn. split; [done|].
    rewrite take_app_length. replace (length pre + 1) with (length (pre ++ [c]))
      by (by rewrite length_app).
    replace (pre ++ c :: post) with ((pre ++ [c]) ++ post) by (by rewrite <- app_assoc).
    rewrite drop_app_length, !List.filter_app, Hf. done.
  - rewrite Hf. destruct (items q) as [|m ms] eqn:E; cbn [lookup list_lookup].
    + cbn. by rewrite E.
    + rewrite (filter_no_command _ Hf). cbn. rewrite drop_0.
      cbn in Hf. destruct (is_command m); [done|]. by rewrite Hf, (filter_no_command _ Hf).
Qed.

Lemma filter_split_length l :
  length (List.filter is_command l) + length (List.filter is_message l) = length l.
Proof.
  induction l as [|item l IH]; [done|]. cbn. rewrite is_message_command.
  destruct (is_command item); cbn; lia.
Qed.

Lemma enqueue_abs item q q' :
  enqueue item q = Ok q' -> abs q' = spec_enqueue item (abs q) /\ closed q = false.
Proof.
  unfold enqueue, signal. cbn. destruct (closed q); [done|]. intros [= <-]. split; [|done].
  unfold abs, spec_enqueue. cbn. rewrite !List.filter_app. cbn. rewrite is_message_command.
  destruct (is_command item); cbn; by rewrite ?app_nil_r.
Qed.

(** Repeated [Dequeue], as a consumer that drains the queue does. *)
Fixpoint drain (n : nat) (q : TurnQueue) : list TurnItem * TurnQueue :=
  match n with
  | 0 => ([], q)
  | S n =>
      match Dequeue q with
      | (None, q') => ([], q')
      | (Some item, q') => let '(rest, q'') := drain n q' in (item :: rest, q'')
      end
  end.

Lemma drain_abs n q :
  Len q <= n -> (drain n q).1 = cmds (abs q) ++ msgs (abs q) /\ items (drain n q).2 = [].
Proof.
  revert q. induction n as [|n IH]; intros q Hn; cbn [drain].
  - unfold Len in Hn. assert (E : items q = []) by (destruct (items q); [done|cbn in Hn; lia]).
    unfold abs. by rewrite E.
  - destruct (Dequeue q) as [o q'] eqn:E. destruct (Dequeue_abs q) as [H1 H2].
    rewrite E in H1, H2. cbn [fst snd] in H1, H2.
    assert (L1 := filter_split_length (items q)). assert (L2 := filter_split_length (items q')).
    change (length (cmds (abs q)) + length (msgs (abs q)) = length (items q)) in L1.
    change (length (cmds (abs q')) + length (msgs (abs q')) = length (items q')) in L2.
    unfold Len in Hn, IH.
    revert H1 H2. unfold spec_dequeue. destruct (cmds (abs q)) as [|c cs] eqn:Ec.
    + destruct (msgs (abs q)) as [|m ms] eqn:Em; cbn [fst snd]; intros -> Hq.
      * assert (Eq : items q' = []).
        { rewrite Hq, Ec, Em in L2. destruct (items q'); [done|cbn in L2; lia]. }
        done.
      * destruct (IH q') as [I1 I2].
        { rewrite Hq in L2. cbn in L1, L2. lia. }
        rewrite Hq in I1. destruct (drain n q'). cbn in *. by rewrite I1.
    + cbn [fst snd]; intros -> Hq. destruct (IH q') as [I1 I2].
      { rewrite Hq in L2. cbn in L1, L2. lia. }
      rewrite Hq in I1. destruct (drain n q'). cbn in *. by rewrite I1.
Qed.

(** ** [Wait] *)

(** A goroutine in [Wait]: before the dequeue, before the test of [closed], in
    the [select], or returned ([None] is an error). *)
Inductive waiter : Type := AtDequeue | AtCheck | Blocked | WaitReturned (item : option TurnItem).

Record wait_state := { wq : TurnQueue; waiters : list waiter }.

Definition set_waiter (i : nat) (w : waiter) (q : TurnQueue) (s : wait_state) : wait_state :=
  {| wq := q; waiters := <[i := w]> (waiters s) |}.

(** [case _, ok := <-q.notify] with a token. *)
Definition take_token (q : TurnQueue) : TurnQueue :=
  {| items := items q; notified := false; closed := closed q |}.

Inductive wait_step : wait_state -> unit -> wait_state -> Prop :=
| ws_enqueue s item q :
    enqueue item (wq s) = Ok q -> wait_step s () {| wq := q; waiters := waiters s |}
| ws_close s :
    wait_step s () {| wq := Close (wq s); waiters := waiters s |}
| ws_dequeue s i item :
    waiters s !! i = Some AtDequeue -> (Dequeue (wq s)).1 = Some item ->
    wait_step s () (set_waiter i (WaitReturned (Some item)) (Dequeue (wq s)).2 s)
| ws_empty s i :
    waiters s !! i = Some AtDequeue -> (Dequeue (wq s)).1 = None ->
    wait_step s () (set_waiter i AtCheck (Dequeue (wq s)).2 s)
| ws_check s i :
    waiters s !! i = Some AtCheck ->
    wait_step s () (set_waiter i (if closed (wq s) then WaitReturned None else Blocked) (wq s) s)
| ws_wake s i :
    waiters s !! i = Some Blocked -> notified (wq s) = true ->
    wait_step s () (set_waiter i AtDequeue (take_token (wq s)) s)
| ws_closed s i :
    waiters s !! i = Some Blocked -> notified (wq s) = false -> closed (wq s) = true ->
    wait_step s () (set_waiter i (WaitReturned None) (wq s) s)
| ws_cancel s i :
    waiters s !! i = Some Blocked ->
    wait_step s () (set_waiter i (WaitReturned None) (wq s) s).

Definition wait_init (n : nat) : wait_state :=
  {| wq := NewTurnQueue; waiters := replicate n AtDequeue |}.

(** A waiter past the dequeue misses no item. *)
Definition no_lost_item (s : wait_state) : Prop :=
  length (waiters s) = 1 /\
  (waiters s = [AtCheck] \/ waiters s = [Blocked] ->
   items (wq s) <> [] -> notified (wq s) = true \/ closed (wq s) = true).

Lemma Dequeue_None q : (Dequeue q).1 = None -> items (Dequeue q).2 = [].
Proof.
  intros H. destruct (Dequeue_abs q) as [H1 H2]. rewrite H in H1. revert H1 H2.
  assert (L := filter_split_length (items (Dequeue q).2)).
  change (length (cmds (abs (Dequeue q).2)) + length (msgs (abs (Dequeue q).2))
          = length (items (Dequeue q).2)) in L.
  unfold spec_dequeue. destruct (cmds (abs q)) eqn:Ec, (msgs (abs q)) eqn:Em; try done.
  intros _ E. cbn [snd] in E. rewrite E, Ec, Em in L. by destruct (items (Dequeue q).2).
Qed.

Lemma wait_step_inv s l s' : no_lost_item s -> wait_step s l s' -> no_lost_item s'.
Proof.
  unfold no_lost_item. intros [Hl Hi]. destruct (waiters s) as [|w [|? ?]] eqn:Ew; try done.
  assert (Hset : forall i w', <[i := w']> [w] = if i =? 0 then [w'] else [w]) by (by intros []).
  destruct 1 as [s item q He|s|s i item Hw Hd|s i Hw Hd|s i Hw|s i Hw Hn|s i Hw Hn Hc|s i Hw];
    cbn [wq waiters set_waiter]; rewrite ?Ew, ?Hset; (split; [by try destruct i|]);
    try (rewrite Ew in Hw; destruct i as [|i]; [|done]; cbn in Hw; injection Hw as ->;
         cbn [Nat.eqb]).
  - unfold enqueue, signal in He. cbn in He. destruct (closed (wq s)); [done|].
    injection He as <-. cbn. auto.
  - intros _ _. right. unfold Close. by destruct (closed (wq s)) eqn:E.
  - intros [|]; done.
  - intros _ Hne. by rewrite (Dequeue_None _ Hd) in Hne.
  - destruct (closed (wq s)); [intros [|]; done|]. intros _ Hne. apply Hi; [by left|done].
  - intros [|]; done.
  - intros [|]; done.
  - intros [|]; done.
Qed.

(** ** The manager *)

(** Queues are shared by reference: [qm_store] holds every queue ever created
    and the map refers to them by position. *)
Record QueueManager := { qm_store : list TurnQueue; queues : gmap bytes nat }.

Definition NewQueueManager : QueueManager := {| qm_store := []; queues := ∅ |}.

Definition GetQueue (sessionID : bytes) (m : QueueManager) : nat * QueueManager :=
  match queues m !! sessionID with
  | Some q => (q, m)
  | None => (length (qm_store m),
             {| qm_store := qm_store m ++ [NewTurnQueue];
                queues := <[sessionID := length (qm_store m)]> (queues m) |})
  end.

Definition RemoveQueue (sessionID : bytes) (m : QueueManager) : QueueManager :=
  match queues m !! sessionID with
  | Some q => {| qm_store := alter Close q (qm_store m); queues := delete sessionID (queues m) |}
  | None => m
  end.

Inductive manager_op : Type := OpGet (sessionID : bytes) | OpRemoveQueue (sessionID : bytes).

Definition run_manager_op (m : QueueManager) (op : manager_op) : QueueManager :=
  match op with
  | OpGet id => (GetQueue id m).2
  | OpRemoveQueue id => RemoveQueue id m
  end.

(** Sessions have distinct, existing, open queues. *)
Definition manager_inv (m : QueueManager) : Prop :=
  (forall id q, queues m !! id = Some q ->
     exists tq, qm_store m !! q = Some tq /\ closed tq = false) /\
  (forall id id' q, queues m !! id = Some q -> queues m !! id' = Some q -> id = id').

Lemma run_manager_op_inv m op : manager_inv m -> manager_inv (run_manager_op m op).
Proof.
  intros [H1 H2]. destruct op as [id|id]; cbn [run_manager_op].
  - unfold GetQueue. destruct (queues m !! id) as [q|] eqn:E; [done|].
    assert (Hlt : forall i q, queues m !! i = Some q -> q < length (qm_store m)).
    { intros i q Hq. destruct (H1 i q Hq) as (tq & Ht & _). by eapply lookup_lt_Some. }
    split; cbn.
    + intros i q. rewrite lookup_insert_Some. intros [[<- <-]|[Hne Hq]].
      * exists NewTurnQueue. split; [|done]. by apply list_lookup_middle.
      * destruct (H1 i q Hq) as (tq & Ht & Hc). exists tq. split; [|done].
        by apply lookup_app_l_Some.
    + intros i i' q. rewrite !lookup_insert_Some.
      intros [[<- <-]|[Hne Hq]] [[<- Hq']|[Hne' Hq']]; try done.
      * apply Hlt in Hq'. lia.
      * subst q. apply Hlt in Hq. lia.
      * by eapply H2.
  - unfold RemoveQueue. destruct (queues m !! id) as [q|] eqn:E; [|done]. split; cbn.
    + intros i q'. rewrite lookup_delete_Some. intros [Hne Hq'].
      destruct (H1 i q' Hq') as (tq & Ht & Hc). exists tq. split; [|done].
      rewrite list_lookup_alter_ne; [done|]. intros ->. apply Hne. by eapply H2.
    + intros i i' q'. rewrite !lookup_delete_Some. intros [_ Hq] [_ Hq']. by eapply H2.
Qed.

Lemma manager_reachable ops : manager_inv (fold_left run_manager_op ops NewQueueManager).
Proof.
  assert (H0 : manager_inv NewQueueManager) by (by split).
  revert H0. generalize NewQueueManager. induction ops as [|op ops IH]; intros m Hm; [done|].
  apply IH. by apply run_manager_op_inv.
Qed.

(** ** Properties *)

(** C12: The queue behaves as two first-in first-out queues of which the command
    queue is served first: enqueueing appends to the item's queue, [Dequeue]
    and [Peek] give the head, and [DequeueAll] returns what repeated [Dequeue]
    would, leaving an empty queue. *)
Theorem turn_queue_refines q :
  (forall item q', enqueue item q = Ok q' -> abs q' = spec_enqueue item (abs q)) /\
  (Dequeue q).1 = (spec_dequeue (abs q)).1 /\ abs (Dequeue q).2 = (spec_dequeue (abs q)).2 /\
  Peek q = (spec_dequeue (abs q)).1 /\
  (DequeueAll q).1 = (drain (Len q) q).1 /\ items (DequeueAll q).2 = [].
Proof.
  destruct (Dequeue_abs q) as [H1 H2]. split; [intros item q' H; by apply enqueue_abs in H as [? _]|].
  split; [done|]. split; [done|]. split.
  - rewrite <- H1. unfold Peek, Dequeue. by destruct (items q !! nextIndex q).
  - rewrite (proj1 (drain_abs (Len q) q (le_n _))). unfold DequeueAll.
    destruct (items q) as [|x l] eqn:E; cbn [length Nat.eqb].
    + unfold abs. by rewrite E.
    + unfold abs. by rewrite E.
Qed.

(** A single waiter misses no item: whenever it is blocked while items are
    queued, a token is in the channel or the queue is closed, so it can go on. *)
Theorem single_waiter_wakes ls s :
  steps wait_step (wait_init 1) ls s -> waiters s = [Blocked] -> items (wq s) <> [] ->
  notified (wq s) = true \/ closed (wq s) = true.
Proof.
  intros Hs Hw Hne.
  destruct (steps_invariant wait_step no_lost_item wait_step_inv _ _ _ Hs) as [_ Hi].
  - split; [done|]. intros [|]; done.
  - apply Hi; [by right|done].
Qed.

(** After any sequence of [GetQueue] and [RemoveQueue], different sessions have
    different queues and none of the queues handed out for a current session
    is closed. *)
Theorem manager_sessions_apart ops :
  let m := fold_left run_manager_op ops NewQueueManager in
  (forall id q, queues m !! id = Some q ->
     exists tq, qm_store m !! q = Some tq /\ closed tq = false) /\
  (forall id id' q, queues m !! id = Some q -> queues m !! id' = Some q -> id = id').
Proof. apply manager_reachable. Qed.

Module Example_wait.
Definition message (s : string) : TurnItem :=
  {| ti_Type := ItemTypeMessage; ti_Content := lit s; ti_Timestamp := 0; ti_Meta := None |}.

Lemma single_waiter_wakes_witness :
  let q := {| items := [message "a"]; notified := true; closed := false |} in
  notified q = true \/ closed q = true.
Proof.
  apply (single_waiter_wakes [(); (); ()]
           {| wq := {| items := [message "a"]; notified := true; closed := false |};
              waiters := [Blocked] |}); [|done|done].
  eapply steps_cons; [eapply (ws_empty _ 0); reflexivity|].
  eapply steps_cons; [eapply (ws_check _ 0); reflexivity|].
  eapply steps_cons; [eapply (ws_enqueue _ (message "a")); reflexivity|].
  apply steps_nil.
Defined.

(** With two waiters an item can be stranded: two enqueues leave one token,
    so one waiter returns and the other stays blocked with an item queued. *)
Theorem two_waiters_strand_item :
  exists ls s, steps wait_step (wait_init 2) ls s /\
    waiters s !! 1 = Some Blocked /\ items (wq s) = [message "b"] /\
    notified (wq s) = false /\ closed (wq s) = false.
Proof.
  exists [(); (); (); (); (); (); (); ()].
  exists {| wq := {| items := [message "b"]; notified := false; closed := false |};
            waiters := [WaitReturned (Some (message "a")); Blocked] |}.
  split; [|done].
  eapply steps_cons; [eapply (ws_empty _ 0); reflexivity|].
  eapply steps_cons; [eapply (ws_empty _ 1); reflexivity|].
  eapply steps_cons; [eapply (ws_check _ 0); reflexivity|].
  eapply steps_cons; [eapply (ws_check _ 1); reflexivity|].
  eapply steps_cons; [eapply (ws_enqueue _ (message "a")); reflexivity|].
  eapply steps_cons; [eapply (ws_enqueue _ (message "b")); reflexivity|].
  eapply steps_cons; [eapply (ws_wake _ 0); reflexivity|].
  eapply steps_cons; [eapply (ws_dequeue _ 0 (message "a")); reflexivity|].
  apply steps_nil.
Qed.

(** A queue that [RemoveQueue] closed panics on the next enqueue of a holder. *)
Theorem enqueue_after_remove_panics :
  let '(q, m) := GetQueue (lit "s") NewQueueManager in
  match qm_store (RemoveQueue (lit "s") m) !! q with
  | Some tq => is_Ok (EnqueueMessage 0 (lit "hi") None tq)
  | None => true
  end = false.
Proof. by vm_compute. Qed.
End Example_wait.
