(* ===== verification/QueueProcessor.v ===== *)
(** * The priority queue and its processor ([engine/queue/processor.go])

    The queue is the array heap of [container/heap]; the field [index] that the
    heap interface maintains is never read and is left out.  An item belongs to
    the queue it is pushed on: it is not pushed twice, and the handler reads it
    only.  The handler, its effects and the context are parameters.  [Process]
    and [Drain] are here as one caller runs them; the shared processor with its
    goroutines is in [ProcessorLoop]. *)

From S2P Require Import Prelude GoStrings Regex ShellMatch Rules Heap.

(** ** The code *)

Definition PrioritySourceTool : Z := 30.
Definition PrioritySourceUser : Z := 50.
Definition PrioritySourceCommand : Z := 80.
Definition PrioritySourceSystem : Z := 100.

Definition SourcePriority (source : bytes) : Z :=
  if source ==b lit "system" then PrioritySourceSystem
  else if source ==b lit "command" then PrioritySourceCommand
  else if source ==b lit "user" then PrioritySourceUser
  else if source ==b lit "tool" then PrioritySourceTool
  else PrioritySourceUser.

(** Instants are nanoseconds; [None] is the zero time, before every other. *)
Record QueueItem := {
  qi_ID : bytes;
  qi_Content : bytes;
  qi_Priority : Z;
  qi_Source : bytes;
  qi_Retries : Z;
  qi_MaxRetries : Z;
  qi_CreatedAt : option Z;
  qi_Metadata : option input;
}.

(** [Time.Before]. *)
Definition Before (a b : option Z) : bool :=
  match a, b with
  | Some x, Some y => (x <? y)%Z
  | None, Some _ => true
  | _, None => false
  end.

Definition Less (a b : QueueItem) : bool :=
  if negb (qi_Priority a =? qi_Priority b)%Z then (qi_Priority b <? qi_Priority a)%Z
  else Before (qi_CreatedAt a) (qi_CreatedAt b).

Abbreviation PriorityQueue := (list QueueItem).

Definition NewPriorityQueue : PriorityQueue := [].

Definition Push (item : QueueItem) (pq : PriorityQueue) : PriorityQueue := heap_push Less item pq.

Definition Pop (pq : PriorityQueue) : option QueueItem * PriorityQueue :=
  if length pq =? 0 then (None, pq)
  else match heap_pop Less pq with
       | Some (item, pq') => (Some item, pq')
       | None => (None, pq)
       end.

Definition pq_Peek (pq : PriorityQueue) : option QueueItem := pq !! 0.

Definition pq_Clear (pq : PriorityQueue) : PriorityQueue := [].

(** The fields [Enqueue] fills in. *)
Definition with_defaults (now maxRetries : Z) (item : QueueItem) : QueueItem := {|
  qi_ID := qi_ID item; qi_Content := qi_Content item;
  qi_Priority := if (qi_Priority item =? 0)%Z && (qi_Source item <>b [])
                 then SourcePriority (qi_Source item) else qi_Priority item;
  qi_Source := qi_Source item; qi_Retries := qi_Retries item;
  qi_MaxRetries := if (qi_MaxRetries item =? 0)%Z then maxRetries else qi_MaxRetries item;
  qi_CreatedAt := match qi_CreatedAt item with None => Some now | Some t => Some t end;
  qi_Metadata := qi_Metadata item;
|}.

(** [item.Retries++]. *)
Definition retried (item : QueueItem) : QueueItem := {|
  qi_ID := qi_ID item; qi_Content := qi_Content item; qi_Priority := qi_Priority item;
  qi_Source := qi_Source item; qi_Retries := qi_Retries item + 1;
  qi_MaxRetries := qi_MaxRetries item; qi_CreatedAt := qi_CreatedAt item;
  qi_Metadata := qi_Metadata item;
|}.

Section process.
(** The state the handler works on, its errors, the handler, and the error of
    the context. *)
Context {W E : Type} (handler : QueueItem -> W -> W * option E) (ctx_err : W -> option E).

(** How [Process] ends: nothing left, context cancelled, retries exhausted
    (for which the error callback runs). *)
Inductive process_end : Type :=
| ProcessDone
| ProcessCancelled (e : E)
| ProcessFailed (item : QueueItem) (e : E).

(** [Process]; [None] is fuel running out. *)
Fixpoint Process (fuel : nat) (pq : PriorityQueue) (w : W)
    : option (process_end * PriorityQueue * W) :=
  match fuel with
  | 0 => None
  | S fuel =>
      match Pop pq with
      | (None, pq) => Some (ProcessDone, pq, w)
      | (Some item, pq) =>
          match ctx_err w with
          | Some e => Some (ProcessCancelled e, Push item pq, w)
          | None =>
              match handler item w with
              | (w, None) => Process fuel pq w
              | (w, Some e) =>
                  let item := retried item in
                  if (qi_Retries item <? qi_MaxRetries item)%Z
                  then Process fuel (Push item pq) w
                  else Some (ProcessFailed item e, pq, w)
              end
          end
      end
  end.

(** [processOne]: the queue, the state, the error returned, and whether the
    retry signalled the loop. *)
Definition processOne (pq : PriorityQueue) (w : W) : PriorityQueue * W * option E * bool :=
  match Pop pq with
  | (None, pq) => (pq, w, None, false)
  | (Some item, pq) =>
      match ctx_err w with
      | Some e => (Push item pq, w, Some e, false)
      | None =>
          match handler item w with
          | (w, None) => (pq, w, None, false)
          | (w, Some e) =>
              let item := retried item in
              if (qi_Retries item <? qi_MaxRetries item)%Z
              then (Push item pq, w, None, true)
              else (pq, w, Some e, false)
          end
      end
  end.
End process.

(** [Drain]. *)
Fixpoint drain_items (fuel : nat) (pq : PriorityQueue) : list QueueItem * PriorityQueue :=
  match fuel with
  | 0 => ([], pq)
  | S fuel =>
      match Pop pq with
      | (None, pq) => ([], pq)
      | (Some item, pq) => let '(rest, pq) := drain_items fuel pq in (item :: rest, pq)
      end
  end.

Definition Drain (pq : PriorityQueue) : list QueueItem * PriorityQueue :=
  drain_items (S (length pq)) pq.

(** ** Lemmas *)

#[export] Instance Less_strict_weak : StrictWeak Less.
Proof.
  split.
  - intros x. unfold Less. rewrite Z.eqb_refl. cbn. destruct (qi_CreatedAt x); [|done]. cbn. lia.
  - intros x y. unfold Less. rewrite (Z.eqb_sym (qi_Priority y)).
    destruct (qi_Priority x =? qi_Priority y)%Z eqn:Ep; cbn [negb].
    + destruct (qi_CreatedAt x), (qi_CreatedAt y); cbn; try done. lia.
    + lia.
  - intros x y z. unfold Less.
    destruct (qi_Priority x =? qi_Priority y)%Z eqn:E1;
    destruct (qi_Priority y =? qi_Priority z)%Z eqn:E2;
    destruct (qi_Priority x =? qi_Priority z)%Z eqn:E3; cbn [negb]; try lia;
    destruct (qi_CreatedAt x), (qi_CreatedAt y), (qi_CreatedAt z); cbn; try done; lia.
Qed.

Lemma Push_correct item pq :
  heap Less pq -> Push item pq ≡ₚ item :: pq /\ heap Less (Push item pq).
Proof. apply heap_push_correct. apply _. Qed.

(** [Pop] takes an item that no other precedes. *)
Lemma Pop_correct pq :
  heap Less pq ->
  (pq = [] /\ Pop pq = (None, [])) \/
  exists item pq', Pop pq = (Some item, pq') /\ pq_Peek pq = Some item /\
    pq ≡ₚ item :: pq' /\ heap Less pq' /\ forall x, x ∈ pq -> Less x item = false.
Proof.
  intros Hh. destruct (decide (pq = [])) as [->|Hne]; [by left|right].
  destruct (heap_pop_correct Less pq Hh Hne) as (item & pq' & H1 & H2 & H3 & H4 & H5).
  exists item, pq'. split; [|done]. unfold Pop. rewrite H1. by destruct pq.
Qed.

Lemma heap_nil : heap Less [].
Proof. intros k Hk. cbn in Hk. lia. Qed.

(** The items come out in order. *)
Definition not_after (x y : QueueItem) : Prop := Less y x = false.

Lemma drain_items_correct fuel pq :
  heap Less pq -> length pq < fuel ->
  (drain_items fuel pq).1 ≡ₚ pq /\ StronglySorted not_after (drain_items fuel pq).1 /\
  (drain_items fuel pq).2 = [].
Proof.
  revert pq. induction fuel as [|fuel IH]; intros pq Hh Hf; [lia|]. cbn [drain_items].
  destruct (Pop_correct pq Hh) as [[-> ->]|(item & pq' & -> & _ & Hp & Hh' & Hmin)].
  - cbn. split_and!; [done|constructor|done].
  - destruct (IH pq' Hh') as (P & S & N).
    { apply Permutation_length in Hp. cbn in Hp. lia. }
    destruct (drain_items fuel pq') as [rest pq'']. cbn in *. split_and!; [|constructor|done].
    + by rewrite P, Hp.
    + done.
    + apply Forall_forall. intros x Hx. unfold not_after. apply Hmin. rewrite Hp, <- P. set_solver.
Qed.

(** The handler calls still allowed for an item. *)
Definition attempts (item : QueueItem) : nat :=
  Z.to_nat (Z.max 1 (qi_MaxRetries item - qi_Retries item)).

Definition total_attempts (pq : PriorityQueue) : nat := sum_list_with attempts pq.

Lemma total_attempts_perm pq pq' : pq ≡ₚ pq' -> total_attempts pq = total_attempts pq'.
Proof. unfold total_attempts. induction 1; cbn; lia. Qed.

Lemma attempts_pos item : 1 <= attempts item.
Proof. unfold attempts. lia. Qed.

Lemma attempts_retried item :
  (qi_Retries (retried item) < qi_MaxRetries (retried item))%Z ->
  attempts (retried item) + 1 = attempts item.
Proof. unfold attempts. cbn. intros H. lia. Qed.

Section process_lemmas.
Context {W E : Type} (handler : QueueItem -> W -> W * option E) (ctx_err : W -> option E).

(** [Process] ends, on a queue that is a heap again; when it reports success
    the queue is empty, and an item it reports has used its retries. *)
Lemma Process_ends fuel pq w :
  heap Less pq -> total_attempts pq < fuel ->
  exists r pq' w', Process handler ctx_err fuel pq w = Some (r, pq', w') /\ heap Less pq' /\
    match r with
    | ProcessDone => pq' = []
    | ProcessCancelled e => ctx_err w' = Some e /\ pq' <> []
    | ProcessFailed item e => (qi_MaxRetries item <= qi_Retries item)%Z
    end.
Proof.
  revert pq w. induction fuel as [|fuel IH]; intros pq w Hh Hf; [lia|]. cbn [Process].
  destruct (Pop_correct pq Hh) as [[-> ->]|(item & pq' & -> & _ & Hp & Hh' & _)].
  { exists ProcessDone, [], w. split_and!; [done|apply heap_nil|done]. }
  apply total_attempts_perm in Hp. unfold total_attempts at 2 in Hp. cbn in Hp.
  fold (total_attempts pq') in Hp. assert (Ha := attempts_pos item).
  destruct (ctx_err w) as [e|] eqn:Ec.
  { destruct (Push_correct item pq' Hh') as [P1 P2].
    exists (ProcessCancelled e), (Push item pq'), w. split_and!; [done|done|done|].
    intros E0. rewrite E0 in P1. by apply Permutation_nil_cons in P1. }
  destruct (handler item w) as [w' [e|]].
  - destruct (qi_Retries (retried item) <? qi_MaxRetries (retried item))%Z eqn:Er.
    + apply Z.ltb_lt in Er. apply attempts_retried in Er.
      destruct (Push_correct (retried item) pq' Hh') as [P1 P2].
      apply (IH (Push (retried item) pq') w' P2).
      rewrite (total_attempts_perm _ _ P1). unfold total_attempts. cbn.
      fold (total_attempts pq'). lia.
    + apply Z.ltb_ge in Er. exists (ProcessFailed (retried item) e), pq', w'. done.
  - apply IH; [done|lia].
Qed.
End process_lemmas.

(** With a handler that only logs and never fails, [Process] logs what [Drain]
    returns. *)
Lemma Process_logs {E} fuel pq (log : list QueueItem) :
  heap Less pq -> length pq < fuel ->
  Process (E := E) (fun item w => (w ++ [item], None)) (fun _ => None) fuel pq log
  = Some (ProcessDone, [], log ++ (drain_items fuel pq).1).
Proof.
  revert pq log. induction fuel as [|fuel IH]; intros pq log Hh Hf; [lia|].
  cbn [Process drain_items].
  destruct (Pop_correct pq Hh) as [[-> ->]|(item & pq' & -> & _ & Hp & Hh' & _)].
  - cbn. by rewrite app_nil_r.
  - rewrite IH; [|done|apply Permutation_length in Hp; cbn in Hp; lia].
    destruct (drain_items fuel pq') as [rest pq'']. cbn. by rewrite <- app_assoc.
Qed.

(** ** Properties *)

(** The priority queue is a priority queue: pushing adds the item, popping
    removes an item that no other precedes (higher priority first, then earlier
    creation), and both keep the heap order. *)
Theorem priority_queue_correct pq :
  heap Less pq ->
  (forall item, Push item pq ≡ₚ item :: pq /\ heap Less (Push item pq)) /\
  ((pq = [] /\ Pop pq = (None, [])) \/
   exists item pq', Pop pq = (Some item, pq') /\ pq_Peek pq = Some item /\
     pq ≡ₚ item :: pq' /\ heap Less pq' /\ forall x, x ∈ pq -> Less x item = false).
Proof.
  intros Hh. split; [intros item; by apply Push_correct|]. by apply Pop_correct.
Qed.

Definition sample (id : string) (p t : Z) : QueueItem :=
  {| qi_ID := lit id; qi_Content := []; qi_Priority := p; qi_Source := []; qi_Retries := 0;
     qi_MaxRetries := 3; qi_CreatedAt := Some t; qi_Metadata := None |}.

Lemma priority_queue_correct_witness :
  Push (sample "b" 2 0) (Push (sample "a" 1 0) NewPriorityQueue)
  ≡ₚ sample "b" 2 0 :: Push (sample "a" 1 0) NewPriorityQueue.
Proof.
  apply (priority_queue_correct (Push (sample "a" 1 0) NewPriorityQueue)).
  apply Push_correct, heap_nil.
Defined.

(** [Drain] returns every item, by decreasing priority and then by creation
    time, and [Process] hands the items to a handler that succeeds in that very
    order. *)
Theorem drain_in_priority_order pq :
  heap Less pq ->
  (Drain pq).1 ≡ₚ pq /\ StronglySorted not_after (Drain pq).1 /\ (Drain pq).2 = [] /\
  Process (E := unit) (fun item w => (w ++ [item], None)) (fun _ => None) (S (length pq)) pq []
  = Some (ProcessDone, [], (Drain pq).1).
Proof.
  intros Hh. destruct (drain_items_correct (S (length pq)) pq Hh) as (H1 & H2 & H3); [lia|].
  split_and!; [done|done|done|]. by rewrite Process_logs by (done || lia).
Qed.

Lemma drain_in_priority_order_witness :
  StronglySorted not_after (Drain [sample "b" 2 0; sample "a" 1 0]).1.
Proof.
  apply (drain_in_priority_order [sample "b" 2 0; sample "a" 1 0]).
  intros k Hk. cbn in Hk. assert (k = 1) as -> by lia. by vm_compute.
Defined.

(** [Process] ends after at most as many handler calls as the items have
    attempts left (at least one each), whatever the handler answers: with
    nothing queued, with the current item put back when the context is
    cancelled, or with an item that used up its retries. *)
Theorem process_terminates {W E} (handler : QueueItem -> W -> W * option E)
    (ctx_err : W -> option E) pq w :
  heap Less pq ->
  exists r pq' w', Process handler ctx_err (S (total_attempts pq)) pq w = Some (r, pq', w') /\
    heap Less pq' /\
    match r with
    | ProcessDone => pq' = []
    | ProcessCancelled e => ctx_err w' = Some e /\ pq' <> []
    | ProcessFailed item e => (qi_MaxRetries item <= qi_Retries item)%Z
    end.
Proof. intros Hh. apply Process_ends; [done|lia]. Qed.

Lemma process_terminates_witness :
  exists r pq' w', Process (fun _ (w : nat) => (S w, Some 7)) (fun _ => None)
    (S (total_attempts [sample "a" 1 0])) [sample "a" 1 0] 0 = Some (r, pq', w') /\
    heap Less pq' /\
    match r with
    | ProcessDone => pq' = []
    | ProcessCancelled e => None = Some e /\ pq' <> []
    | ProcessFailed item e => (qi_MaxRetries item <= qi_Retries item)%Z
    end.
Proof.
  apply (process_terminates (fun _ (w : nat) => (S w, Some 7)) (fun _ => None)
           [sample "a" 1 0] 0).
  intros k Hk. cbn in Hk. lia.
Defined.
