(* ===== verification/ProcessorLoop.v ===== *)
(** * The background processor ([engine/queue/processor.go], [QueueProcessor])

    The processor is shared by its callers ([Enqueue], [Process], [Start], [Stop],
    [Drain], the setters) and by the goroutines that [Start] launches.  Its
    behaviour is a step relation: every step is one access to shared state (a
    critical section of [p.mu] or of the queue's mutex, a channel operation, a
    test of a context), so that every interleaving is covered.  A ledger
    records, beside the state, which items were enqueued and what became of
    them. *)

From S2P Require Import Prelude GoStrings Regex ShellMatch Rules Heap QueueProcessor.

(** ** The code *)

(** The fields of the processor; [qp_onError] says whether a callback is set,
    [qp_ctx] is the context that [p.ctx] and [p.cancel] belong to (contexts are
    numbered in the order of their creation). *)
Record QueueProcessor := {
  qp_queue : PriorityQueue;
  qp_processing : bool;
  qp_onError : bool;
  qp_maxRetries : Z;
  qp_ctx : option nat;
  qp_notified : bool;
}.

Definition NewQueueProcessor : QueueProcessor :=
  {| qp_queue := NewPriorityQueue; qp_processing := false; qp_onError := false;
     qp_maxRetries := 3; qp_ctx := None; qp_notified := false |}.

Definition set_queue (pq : PriorityQueue) (p : QueueProcessor) : QueueProcessor :=
  {| qp_queue := pq; qp_processing := qp_processing p; qp_onError := qp_onError p;
     qp_maxRetries := qp_maxRetries p; qp_ctx := qp_ctx p; qp_notified := qp_notified p |}.

Definition SetOnError (set : bool) (p : QueueProcessor) : QueueProcessor :=
  {| qp_queue := qp_queue p; qp_processing := qp_processing p; qp_onError := set;
     qp_maxRetries := qp_maxRetries p; qp_ctx := qp_ctx p; qp_notified := qp_notified p |}.

Definition SetMaxRetries (n : Z) (p : QueueProcessor) : QueueProcessor :=
  {| qp_queue := qp_queue p; qp_processing := qp_processing p; qp_onError := qp_onError p;
     qp_maxRetries := n; qp_ctx := qp_ctx p; qp_notified := qp_notified p |}.

(** The channel [p.notify]: the non-blocking send of [signal], and a receive. *)
Definition set_notified (b : bool) (p : QueueProcessor) : QueueProcessor :=
  {| qp_queue := qp_queue p; qp_processing := qp_processing p; qp_onError := qp_onError p;
     qp_maxRetries := qp_maxRetries p; qp_ctx := qp_ctx p; qp_notified := b |}.

Definition qp_signal : QueueProcessor -> QueueProcessor := set_notified true.

Definition set_processing (b : bool) (ctx : option nat) (p : QueueProcessor) : QueueProcessor :=
  {| qp_queue := qp_queue p; qp_processing := b; qp_onError := qp_onError p;
     qp_maxRetries := qp_maxRetries p; qp_ctx := ctx; qp_notified := qp_notified p |}.

(** [Start]; [fresh] is the context it creates, the boolean says that it
    launches [run]. *)
Definition Start (fresh : nat) (p : QueueProcessor) : QueueProcessor * bool :=
  if qp_processing p then (p, false) else (set_processing true (Some fresh) p, true).

(** [Stop]; the context it cancels is [qp_ctx p]. *)
Definition Stop (p : QueueProcessor) : QueueProcessor := set_processing false (qp_ctx p) p.

(** Where a goroutine running [run] is. *)
Inductive run_phase : Type :=
| AtTop                                  (* reads [p.ctx] *)
| AtLen (ctx : option nat)               (* [if p.queue.Len() > 0] *)
| AtPop (ctx : option nat)               (* [processOne]: pops *)
| AtCtx (ctx : option nat) (item : QueueItem)      (* [processOne]: tests [ctx.Err()] *)
| AtHandler (ctx : option nat) (item : QueueItem)  (* [processOne]: in the handler *)
| AtRetry (ctx : option nat)             (* [processOne]: signals the retry *)
| AtReport (ctx : option nat) (item : QueueItem)   (* [processOne]: reads [p.onError] *)
| AtSelect (ctx : option nat)            (* waits for a token or the end of the context *)
| AtExit                                 (* [case <-ctx.Done()] *)
| Exited.

(** Where a call of [Enqueue] is, after it has filled in the fields. *)
Inductive enqueue_phase : Type := EnqPush (item : QueueItem) | EnqSignal | EnqDone.

(** Where a call of [Process] is. *)
Inductive process_phase : Type :=
| ProcPop (ctx : option nat)                             (* pops *)
| ProcCtx (ctx : option nat) (item : QueueItem)          (* tests [ctx.Err()] *)
| ProcHandler (ctx : option nat) (item : QueueItem)      (* in the handler *)
| ProcReport (item : QueueItem)                          (* reads [p.onError] *)
| ProcDone.

(** What became of the items. *)
Record ledger := {
  enqueued : list QueueItem;
  handled : list QueueItem;
  exhausted : list QueueItem;
  reported : list QueueItem;
  drained : list QueueItem;
}.

Record system := {
  proc : QueueProcessor;
  cancelled : list bool;
  loops : list run_phase;
  enqueuers : list enqueue_phase;
  processes : list process_phase;
  book : ledger;
}.

(** ** Steps *)

Definition set_proc (p : QueueProcessor) (s : system) : system :=
  {| proc := p; cancelled := cancelled s; loops := loops s; enqueuers := enqueuers s;
     processes := processes s; book := book s |}.

Definition set_loop (i : nat) (ph : run_phase) (s : system) : system :=
  {| proc := proc s; cancelled := cancelled s; loops := <[i := ph]> (loops s);
     enqueuers := enqueuers s; processes := processes s; book := book s |}.

Definition set_enqueuer (i : nat) (ph : enqueue_phase) (s : system) : system :=
  {| proc := proc s; cancelled := cancelled s; loops := loops s;
     enqueuers := <[i := ph]> (enqueuers s); processes := processes s; book := book s |}.

Definition set_process (i : nat) (ph : process_phase) (s : system) : system :=
  {| proc := proc s; cancelled := cancelled s; loops := loops s; enqueuers := enqueuers s;
     processes := <[i := ph]> (processes s); book := book s |}.

Definition set_book (b : ledger) (s : system) : system :=
  {| proc := proc s; cancelled := cancelled s; loops := loops s;
     enqueuers := enqueuers s; processes := processes s; book := b |}.

Definition is_cancelled (ctx : option nat) (s : system) : bool :=
  match ctx with Some c => default false (cancelled s !! c) | None => false end.

Definition cancel (ctx : option nat) (s : system) : system :=
  match ctx with
  | Some c => {| proc := proc s; cancelled := <[c := true]> (cancelled s); loops := loops s;
                 enqueuers := enqueuers s; processes := processes s; book := book s |}
  | None => s
  end.

Definition log_enqueued (x : QueueItem) (b : ledger) : ledger :=
  {| enqueued := x :: enqueued b; handled := handled b; exhausted := exhausted b;
     reported := reported b; drained := drained b |}.
Definition log_handled (x : QueueItem) (b : ledger) : ledger :=
  {| enqueued := enqueued b; handled := x :: handled b; exhausted := exhausted b;
     reported := reported b; drained := drained b |}.
Definition log_exhausted (report : bool) (x : QueueItem) (b : ledger) : ledger :=
  {| enqueued := enqueued b; handled := handled b; exhausted := x :: exhausted b;
     reported := if report then x :: reported b else reported b; drained := drained b |}.
Definition log_drained (x : QueueItem) (b : ledger) : ledger :=
  {| enqueued := enqueued b; handled := handled b; exhausted := exhausted b;
     reported := reported b; drained := x :: drained b |}.

(** The steps of a call, by the method it belongs to. *)
Definition do_start (s : system) : system :=
  let '(p, launched) := Start (length (cancelled s)) (proc s) in
  if launched then
    {| proc := p; cancelled := cancelled s ++ [false]; loops := loops s ++ [AtTop];
       enqueuers := enqueuers s; processes := processes s; book := book s |}
  else set_proc p s.

Definition do_stop (s : system) : system :=
  set_proc (Stop (proc s)) (cancel (qp_ctx (proc s)) s).

Definition enqueue_begin (now : Z) (item : QueueItem) (s : system) : system :=
  {| proc := proc s; cancelled := cancelled s; loops := loops s;
     enqueuers := enqueuers s ++ [EnqPush (with_defaults now (qp_maxRetries (proc s)) item)];
     processes := processes s; book := book s |}.

Definition push_item (item : QueueItem) (s : system) : system :=
  set_proc (set_queue (Push item (qp_queue (proc s))) (proc s)) s.

Definition enqueue_push (i : nat) (item : QueueItem) (s : system) : system :=
  set_enqueuer i EnqSignal (set_book (log_enqueued item (book s)) (push_item item s)).

(** [item := p.queue.Pop()] of [processOne]. *)
Definition loop_pop (i : nat) (ctx : option nat) (s : system) : system :=
  match Pop (qp_queue (proc s)) with
  | (Some item, pq) => set_loop i (AtCtx ctx item) (set_proc (set_queue pq (proc s)) s)
  | (None, pq) => set_loop i (AtSelect ctx) (set_proc (set_queue pq (proc s)) s)
  end.

(** [if err := ctx.Err(); err != nil { p.queue.Push(item); return err }]. *)
Definition loop_ctx (i : nat) (ctx : option nat) (item : QueueItem) (s : system) : system :=
  if is_cancelled ctx s then set_loop i (AtSelect ctx) (push_item item s)
  else set_loop i (AtHandler ctx item) s.

(** The handler returns; a failure is retried or has exhausted the retries. *)
Definition loop_handled (i : nat) (ctx : option nat) (item : QueueItem) (fails : bool)
    (s : system) : system :=
  if fails then
    let item := retried item in
    if (qi_Retries item <? qi_MaxRetries item)%Z
    then set_loop i (AtRetry ctx) (push_item item s)
    else set_loop i (AtReport ctx item) s
  else set_loop i (AtSelect ctx) (set_book (log_handled item (book s)) s).

Definition drain_pop (s : system) : system :=
  match Pop (qp_queue (proc s)) with
  | (Some item, pq) =>
      set_book (log_drained item (book s)) (set_proc (set_queue pq (proc s)) s)
  | (None, pq) => set_proc (set_queue pq (proc s)) s
  end.

(** A caller makes a context of its own, and calls [Process]. *)
Definition new_context (s : system) : system :=
  {| proc := proc s; cancelled := cancelled s ++ [false]; loops := loops s; enqueuers := enqueuers s;
     processes := processes s; book := book s |}.

Definition process_begin (ctx : option nat) (s : system) : system :=
  {| proc := proc s; cancelled := cancelled s; loops := loops s; enqueuers := enqueuers s;
     processes := processes s ++ [ProcPop ctx]; book := book s |}.

(** [item := p.queue.Pop()] of [Process]. *)
Definition process_pop (i : nat) (ctx : option nat) (s : system) : system :=
  match Pop (qp_queue (proc s)) with
  | (Some item, pq) => set_process i (ProcCtx ctx item) (set_proc (set_queue pq (proc s)) s)
  | (None, pq) => set_process i ProcDone (set_proc (set_queue pq (proc s)) s)
  end.

Definition process_ctx (i : nat) (ctx : option nat) (item : QueueItem) (s : system) : system :=
  if is_cancelled ctx s then set_process i ProcDone (push_item item s)
  else set_process i (ProcHandler ctx item) s.

(** The handler returns; the loop goes on, except for exhausted retries. *)
Definition process_handled (i : nat) (ctx : option nat) (item : QueueItem) (fails : bool)
    (s : system) : system :=
  if fails then
    let item := retried item in
    if (qi_Retries item <? qi_MaxRetries item)%Z
    then set_process i (ProcPop ctx) (push_item item s)
    else set_process i (ProcReport item) s
  else set_process i (ProcPop ctx) (set_book (log_handled item (book s)) s).

Inductive label : Type := LStart | LStop | LCall | LRun.

#[export] Instance label_eq_dec : EqDecision label.
Proof. solve_decision. Defined.

Inductive qp_step : system -> label -> system -> Prop :=
| qs_start s : qp_step s LStart (do_start s)
| qs_stop s : qp_step s LStop (do_stop s)
| qs_onError s b : qp_step s LCall (set_proc (SetOnError b (proc s)) s)
| qs_maxRetries s n : qp_step s LCall (set_proc (SetMaxRetries n (proc s)) s)
| qs_parent s ctx : qp_step s LCall (cancel ctx s)
| qs_enqueue s now item : qp_step s LCall (enqueue_begin now item s)
| qs_push s i item :
    enqueuers s !! i = Some (EnqPush item) -> qp_step s LCall (enqueue_push i item s)
| qs_signal s i :
    enqueuers s !! i = Some EnqSignal ->
    qp_step s LCall (set_enqueuer i EnqDone (set_proc (qp_signal (proc s)) s))
| qs_drain s : qp_step s LCall (drain_pop s)
| qs_context s : qp_step s LCall (new_context s)
| qs_process s ctx : qp_step s LCall (process_begin ctx s)
| qs_proc_pop s i ctx :
    processes s !! i = Some (ProcPop ctx) -> qp_step s LCall (process_pop i ctx s)
| qs_proc_ctx s i ctx item :
    processes s !! i = Some (ProcCtx ctx item) -> qp_step s LCall (process_ctx i ctx item s)
| qs_proc_handled s i ctx item fails :
    processes s !! i = Some (ProcHandler ctx item) ->
    qp_step s LCall (process_handled i ctx item fails s)
| qs_proc_report s i item :
    processes s !! i = Some (ProcReport item) ->
    qp_step s LCall (set_process i ProcDone
                       (set_book (log_exhausted (qp_onError (proc s)) item (book s)) s))
| qs_top s i :
    loops s !! i = Some AtTop -> qp_step s LRun (set_loop i (AtLen (qp_ctx (proc s))) s)
| qs_len s i ctx :
    loops s !! i = Some (AtLen ctx) ->
    qp_step s LRun (set_loop i (if 0 <? length (qp_queue (proc s)) then AtPop ctx
                                else AtSelect ctx) s)
| qs_pop s i ctx : loops s !! i = Some (AtPop ctx) -> qp_step s LRun (loop_pop i ctx s)
| qs_ctx s i ctx item :
    loops s !! i = Some (AtCtx ctx item) -> qp_step s LRun (loop_ctx i ctx item s)
| qs_handled s i ctx item fails :
    loops s !! i = Some (AtHandler ctx item) -> qp_step s LRun (loop_handled i ctx item fails s)
| qs_retry s i ctx :
    loops s !! i = Some (AtRetry ctx) ->
    qp_step s LRun (set_loop i (AtSelect ctx) (set_proc (qp_signal (proc s)) s))
| qs_report s i ctx item :
    loops s !! i = Some (AtReport ctx item) ->
    qp_step s LRun (set_loop i (AtSelect ctx)
                      (set_book (log_exhausted (qp_onError (proc s)) item (book s)) s))
| qs_wake s i ctx :
    loops s !! i = Some (AtSelect ctx) -> qp_notified (proc s) = true ->
    qp_step s LRun (set_loop i AtTop (set_proc (set_notified false (proc s)) s))
| qs_done s i ctx :
    loops s !! i = Some (AtSelect ctx) -> is_cancelled ctx s = true ->
    qp_step s LRun (set_loop i AtExit s)
| qs_exit s i :
    loops s !! i = Some AtExit ->
    qp_step s LRun (set_loop i Exited (set_proc (set_processing false (qp_ctx (proc s)) (proc s)) s)).

Definition qp_init : system :=
  {| proc := NewQueueProcessor; cancelled := []; loops := []; enqueuers := []; processes := [];
     book := {| enqueued := []; handled := []; exhausted := []; reported := []; drained := [] |} |}.

(** ** Nothing is lost *)

(** An item up to its retry count. *)
Definition ident (item : QueueItem) : QueueItem := {|
  qi_ID := qi_ID item; qi_Content := qi_Content item; qi_Priority := qi_Priority item;
  qi_Source := qi_Source item; qi_Retries := 0; qi_MaxRetries := qi_MaxRetries item;
  qi_CreatedAt := qi_CreatedAt item; qi_Metadata := qi_Metadata item |}.

(** The item a goroutine or a call of [Process] holds. *)
Definition held (ph : run_phase) : list QueueItem :=
  match ph with AtCtx _ x | AtHandler _ x | AtReport _ x => [x] | _ => [] end.
Definition carried (ph : process_phase) : list QueueItem :=
  match ph with ProcCtx _ x | ProcHandler _ x | ProcReport x => [x] | _ => [] end.

Definition used_up (item : QueueItem) : Prop := (qi_MaxRetries item <= qi_Retries item)%Z.

Definition phase_ok (ph : run_phase) : Prop :=
  match ph with AtReport _ x => used_up x | _ => True end.
Definition process_ok (ph : process_phase) : Prop :=
  match ph with ProcReport x => used_up x | _ => True end.

(** The items that somebody works on. *)
Definition in_hand (s : system) : list QueueItem :=
  flat_map held (loops s) ++ flat_map carried (processes s).

Definition whereabouts (s : system) : list QueueItem :=
  qp_queue (proc s) ++ in_hand s ++ handled (book s) ++ exhausted (book s) ++ drained (book s).

Record accounted (s : system) : Prop := {
  acc_heap : heap Less (qp_queue (proc s));
  acc_items : map ident (enqueued (book s)) ≡ₚ map ident (whereabouts s);
  acc_used : Forall used_up (exhausted (book s));
  acc_loops : Forall phase_ok (loops s);
  acc_processes : Forall process_ok (processes s);
  acc_report : reported (book s) `sublist_of` exhausted (book s);
}.

Lemma flat_map_insert {A B} (f : A -> list B) (l : list A) i x y :
  l !! i = Some x ->
  exists rest, flat_map f l ≡ₚ f x ++ rest /\ flat_map f (<[i := y]> l) ≡ₚ f y ++ rest.
Proof.
  intros Hi. exists (flat_map f (take i l) ++ flat_map f (drop (S i) l)).
  assert (Hlt := lookup_lt_Some _ _ _ Hi). split.
  - rewrite <- (take_drop_middle l i x Hi) at 1. rewrite flat_map_app. cbn. solve_Permutation.
  - rewrite insert_take_drop by done. rewrite flat_map_app. cbn. solve_Permutation.
Qed.

(** Somebody who had [h] in hand has [h'] afterwards. *)
Definition swaps (s s' : system) (h h' : list QueueItem) : Prop :=
  Forall phase_ok (loops s') /\ Forall process_ok (processes s') /\
  exists rest, in_hand s ≡ₚ h ++ rest /\ in_hand s' ≡ₚ h' ++ rest.

Lemma swaps_loop i x y s s' :
  accounted s -> loops s !! i = Some x -> phase_ok y -> loops s' = <[i := y]> (loops s) ->
  processes s' = processes s -> swaps s s' (held x) (held y).
Proof.
  intros Ha Hi Hy El Ep. split; [rewrite El; apply Forall_insert; [apply Ha|done]|]. split; [rewrite Ep; apply Ha|].
  destruct (flat_map_insert held (loops s) i x y Hi) as (rest & P1 & P2).
  exists (rest ++ flat_map carried (processes s)). unfold in_hand. rewrite El, Ep, P1, P2. split; solve_Permutation.
Qed.

Lemma swaps_process i x y s s' :
  accounted s -> processes s !! i = Some x -> process_ok y -> processes s' = <[i := y]> (processes s) ->
  loops s' = loops s -> swaps s s' (carried x) (carried y).
Proof.
  intros Ha Hi Hy Ep El. split; [rewrite El; apply Ha|]. split; [rewrite Ep; apply Forall_insert; [apply Ha|done]|].
  destruct (flat_map_insert carried (processes s) i x y Hi) as (rest & P1 & P2).
  exists (flat_map held (loops s) ++ rest). unfold in_hand. rewrite El, Ep, P1, P2. split; solve_Permutation.
Qed.

(** Somebody moves on, the queue and the ledger changing with it: the items must
    be the same. *)
Lemma move_accounted s s' h h' :
  accounted s -> swaps s s' h h' -> heap Less (qp_queue (proc s')) ->
  Forall used_up (exhausted (book s')) -> reported (book s') `sublist_of` exhausted (book s') ->
  enqueued (book s') = enqueued (book s) ->
  map ident (qp_queue (proc s') ++ h' ++ handled (book s') ++ exhausted (book s') ++ drained (book s'))
    ≡ₚ map ident (qp_queue (proc s) ++ h ++ handled (book s) ++ exhausted (book s) ++ drained (book s)) ->
  accounted s'.
Proof.
  intros Ha (Hl & Hp & rest & P1 & P2) Hh Hu Hr He Hm. split; try done. rewrite He, (acc_items s Ha).
  transitivity (map ident rest ++ map ident (qp_queue (proc s) ++ h ++ handled (book s)
                  ++ exhausted (book s) ++ drained (book s))).
  - rewrite <- map_app. apply Permutation_map. unfold whereabouts. rewrite P1. solve_Permutation.
  - rewrite <- Hm, <- map_app. apply Permutation_map. unfold whereabouts. rewrite P2. solve_Permutation.
Qed.

(** Steps that touch none of this. *)
Lemma same_accounted s s' :
  accounted s -> qp_queue (proc s') = qp_queue (proc s) -> loops s' = loops s ->
  processes s' = processes s -> book s' = book s -> accounted s'.
Proof.
  intros [H1 H2 H3 H4 H5 H6] Eq El Ep Eb. split; unfold whereabouts, in_hand; by rewrite ?Eq, ?El, ?Ep, ?Eb.
Qed.

(** Nothing but what is in hand changes, and that is the same, or goes from the
    queue into a hand, back, or into the ledger. *)
Lemma keep_accounted s s' h h' :
  accounted s -> swaps s s' h h' -> h' = h -> qp_queue (proc s') = qp_queue (proc s) -> book s' = book s ->
  accounted s'.
Proof.
  intros Ha Hs -> Eq Eb. apply (move_accounted s s' h h Ha Hs); rewrite ?Eq, ?Eb; try done; apply Ha.
Qed.

Lemma pop_accounted s s' item pq :
  accounted s -> swaps s s' [] [item] -> qp_queue (proc s) ≡ₚ item :: pq -> heap Less pq ->
  qp_queue (proc s') = pq -> book s' = book s -> accounted s'.
Proof.
  intros Ha Hs Hp Hh Eq Eb. apply (move_accounted s s' [] [item] Ha Hs); rewrite ?Eq, ?Eb; try done; try apply Ha.
  apply Permutation_map. rewrite Hp. cbn. solve_Permutation.
Qed.

Lemma push_back_accounted s s' x item :
  accounted s -> swaps s s' [x] [] -> ident item = ident x ->
  qp_queue (proc s') = Push item (qp_queue (proc s)) -> book s' = book s -> accounted s'.
Proof.
  intros Ha Hs Hx Eq Eb. destruct (Push_correct item _ (acc_heap s Ha)) as [P1 P2].
  apply (move_accounted s s' [x] [] Ha Hs); rewrite ?Eq, ?Eb; try done; try apply Ha.
  rewrite P1. cbn [map app]. rewrite Hx, !(map_app ident (qp_queue (proc s))). apply Permutation_middle.
Qed.

Lemma handled_accounted s s' x :
  accounted s -> swaps s s' [x] [] -> qp_queue (proc s') = qp_queue (proc s) ->
  book s' = log_handled x (book s) -> accounted s'.
Proof.
  intros Ha Hs Eq Eb. apply (move_accounted s s' [x] [] Ha Hs); rewrite ?Eq, ?Eb; try done; try apply Ha.
Qed.

Lemma exhausted_accounted s s' x report :
  accounted s -> swaps s s' [x] [] -> used_up x -> qp_queue (proc s') = qp_queue (proc s) ->
  book s' = log_exhausted report x (book s) -> accounted s'.
Proof.
  intros Ha Hs Hu Eq Eb. apply (move_accounted s s' [x] [] Ha Hs); rewrite ?Eq, ?Eb; try done; try apply Ha; cbn.
  - constructor; [done|apply Ha].
  - assert (Hr := acc_report s Ha). destruct report; by constructor.
  - apply Permutation_map. solve_Permutation.
Qed.

(** An item whose handler failed, up to its retry count. *)
Lemma used_up_retried item : (qi_Retries (retried item) <? qi_MaxRetries (retried item))%Z = false -> used_up (retried item).
Proof. intros Hr%Z.ltb_ge. exact Hr. Qed.

Lemma loop_pop_accounted i ctx s :
  accounted s -> loops s !! i = Some (AtPop ctx) -> accounted (loop_pop i ctx s).
Proof.
  intros Ha Hi. unfold loop_pop.
  destruct (Pop_correct _ (acc_heap s Ha)) as [[Hq ->]|(item & pq & -> & _ & Hp & Hpq & _)].
  - eapply keep_accounted; [done|by eapply (swaps_loop i (AtPop ctx) (AtSelect ctx))|done..].
  - eapply pop_accounted; [done|by eapply (swaps_loop i (AtPop ctx) (AtCtx ctx item))|done..].
Qed.

Lemma loop_ctx_accounted i ctx item s :
  accounted s -> loops s !! i = Some (AtCtx ctx item) -> accounted (loop_ctx i ctx item s).
Proof.
  intros Ha Hi. unfold loop_ctx. destruct (is_cancelled ctx s).
  - eapply (push_back_accounted _ _ item item); [done|by eapply (swaps_loop i (AtCtx ctx item) (AtSelect ctx))|done..].
  - eapply keep_accounted; [done|by eapply (swaps_loop i (AtCtx ctx item) (AtHandler ctx item))|done..].
Qed.

Lemma loop_handled_accounted i ctx item fails s :
  accounted s -> loops s !! i = Some (AtHandler ctx item) ->
  accounted (loop_handled i ctx item fails s).
Proof.
  intros Ha Hi. unfold loop_handled. destruct fails.
  - destruct (_ <? _)%Z eqn:Er.
    + eapply (push_back_accounted _ _ item (retried item)); [done|by eapply (swaps_loop i (AtHandler ctx item) (AtRetry ctx))|done..].
    + apply used_up_retried in Er.
      apply (move_accounted s _ [item] [retried item] Ha); try done; try apply Ha; [|by rewrite !map_app].
      by eapply (swaps_loop i (AtHandler ctx item) (AtReport ctx (retried item))).
  - eapply handled_accounted; [done|by eapply (swaps_loop i (AtHandler ctx item) (AtSelect ctx))|done..].
Qed.

Lemma report_accounted i ctx item s :
  accounted s -> loops s !! i = Some (AtReport ctx item) ->
  accounted (set_loop i (AtSelect ctx)
               (set_book (log_exhausted (qp_onError (proc s)) item (book s)) s)).
Proof.
  intros Ha Hi. eapply exhausted_accounted; [done|by eapply (swaps_loop i (AtReport ctx item) (AtSelect ctx))| |done..].
  exact (Forall_lookup_1 _ _ _ _ (acc_loops s Ha) Hi).
Qed.

Lemma process_pop_accounted i ctx s :
  accounted s -> processes s !! i = Some (ProcPop ctx) -> accounted (process_pop i ctx s).
Proof.
  intros Ha Hi. unfold process_pop.
  destruct (Pop_correct _ (acc_heap s Ha)) as [[Hq ->]|(item & pq & -> & _ & Hp & Hpq & _)].
  - eapply keep_accounted; [done|by eapply (swaps_process i (ProcPop ctx) ProcDone)|done..].
  - eapply pop_accounted; [done|by eapply (swaps_process i (ProcPop ctx) (ProcCtx ctx item))|done..].
Qed.

Lemma process_ctx_accounted i ctx item s :
  accounted s -> processes s !! i = Some (ProcCtx ctx item) -> accounted (process_ctx i ctx item s).
Proof.
  intros Ha Hi. unfold process_ctx. destruct (is_cancelled ctx s).
  - eapply (push_back_accounted _ _ item item); [done|by eapply (swaps_process i (ProcCtx ctx item) ProcDone)|done..].
  - eapply keep_accounted; [done|by eapply (swaps_process i (ProcCtx ctx item) (ProcHandler ctx item))|done..].
Qed.

Lemma process_handled_accounted i ctx item fails s :
  accounted s -> processes s !! i = Some (ProcHandler ctx item) ->
  accounted (process_handled i ctx item fails s).
Proof.
  intros Ha Hi. unfold process_handled. destruct fails.
  - destruct (_ <? _)%Z eqn:Er.
    + eapply (push_back_accounted _ _ item (retried item)); [done|by eapply (swaps_process i (ProcHandler ctx item) (ProcPop ctx))|done..].
    + apply used_up_retried in Er.
      apply (move_accounted s _ [item] [retried item] Ha); try done; try apply Ha; [|by rewrite !map_app].
      by eapply (swaps_process i (ProcHandler ctx item) (ProcReport (retried item))).
  - eapply handled_accounted; [done|by eapply (swaps_process i (ProcHandler ctx item) (ProcPop ctx))|done..].
Qed.

Lemma process_report_accounted i item s :
  accounted s -> processes s !! i = Some (ProcReport item) ->
  accounted (set_process i ProcDone
               (set_book (log_exhausted (qp_onError (proc s)) item (book s)) s)).
Proof.
  intros Ha Hi. eapply exhausted_accounted; [done|by eapply (swaps_process i (ProcReport item) ProcDone)| |done..].
  exact (Forall_lookup_1 _ _ _ _ (acc_processes s Ha) Hi).
Qed.

Lemma process_begin_accounted ctx s : accounted s -> accounted (process_begin ctx s).
Proof.
  intros [H1 H2 H3 H4 H5 H6]. split; cbn; try done.
  - rewrite H2. unfold whereabouts, in_hand. cbn. by rewrite (flat_map_app carried), app_nil_r.
  - apply Forall_app. split; [done|by repeat constructor].
Qed.

Lemma enqueue_push_accounted i item s :
  accounted s -> accounted (enqueue_push i item s).
Proof.
  intros [H1 H2 H3 H4 H5 H6]. destruct (Push_correct item _ H1) as [P1 P2].
  split; cbn; try done. rewrite H2. unfold whereabouts, in_hand. cbn. by rewrite P1.
Qed.

Lemma drain_pop_accounted s : accounted s -> accounted (drain_pop s).
Proof.
  intros Ha. assert (Hh := acc_heap s Ha). unfold drain_pop.
  destruct (Pop_correct _ Hh) as [[Hq ->]|(item & pq & -> & _ & Hp & Hpq & _)].
  - by apply (same_accounted s).
  - destruct Ha as [H1 H2 H3 H4 H5 H6]. split; cbn; try done. rewrite H2. unfold whereabouts, in_hand. cbn.
    apply Permutation_map. rewrite Hp. solve_Permutation.
Qed.

Lemma do_start_accounted s : accounted s -> accounted (do_start s).
Proof.
  intros Ha. unfold do_start, Start. destruct (qp_processing (proc s)).
  - by apply (same_accounted s).
  - destruct Ha as [H1 H2 H3 H4 H5 H6]. split; cbn; try done.
    + rewrite H2. unfold whereabouts, in_hand. cbn. by rewrite (flat_map_app held), app_nil_r.
    + apply Forall_app. split; [done|by repeat constructor].
Qed.

Lemma cancel_accounted ctx s : accounted s -> accounted (cancel ctx s).
Proof. intros Ha. destruct ctx; [by apply (same_accounted s)|done]. Qed.

(** A goroutine that keeps what it holds, or holds nothing before and after. *)
Lemma walk_accounted i x y s p :
  accounted s -> loops s !! i = Some x -> phase_ok y -> held y = held x ->
  qp_queue p = qp_queue (proc s) -> accounted (set_loop i y (set_proc p s)).
Proof. intros Ha Hi Hy He Eq. eapply keep_accounted; [done|by eapply (swaps_loop i x y)|done..]. Qed.

Lemma qp_step_accounted s l s' : accounted s -> qp_step s l s' -> accounted s'.
Proof.
  intros Ha Hs. destruct Hs.
  - by apply do_start_accounted.
  - apply (same_accounted s); [done|done| | |]; unfold do_stop; by destruct (qp_ctx (proc s)).
  - by apply (same_accounted s).
  - by apply (same_accounted s).
  - by apply cancel_accounted.
  - by apply (same_accounted s).
  - by apply enqueue_push_accounted.
  - by apply (same_accounted s).
  - by apply drain_pop_accounted.
  - by apply (same_accounted s).
  - by apply process_begin_accounted.
  - by apply process_pop_accounted.
  - by apply process_ctx_accounted.
  - by apply process_handled_accounted.
  - by apply process_report_accounted.
  - by apply (walk_accounted _ AtTop _ s (proc s)).
  - apply (walk_accounted _ (AtLen ctx) _ s (proc s)); try done; by destruct (0 <? _).
  - by apply loop_pop_accounted.
  - by apply loop_ctx_accounted.
  - by apply loop_handled_accounted.
  - by apply (walk_accounted _ (AtRetry ctx)).
  - by apply report_accounted.
  - by apply (walk_accounted _ (AtSelect ctx)).
  - by apply (walk_accounted _ (AtSelect ctx) _ s (proc s)).
  - by apply (walk_accounted _ AtExit).
Qed.

Lemma qp_init_accounted : accounted qp_init.
Proof. split; cbn; try done. Qed.

(** ** One goroutine at a time *)

Definition live (ph : run_phase) : nat := match ph with Exited => 0 | _ => 1 end.

(** The context a goroutine works with, if it has read it. *)
Definition watches (p : QueueProcessor) (ph : run_phase) : Prop :=
  match ph with
  | AtLen c | AtPop c | AtCtx c _ | AtHandler c _ | AtRetry c | AtReport c _ | AtSelect c =>
      c = qp_ctx p
  | AtTop | AtExit | Exited => True
  end.

Record single (s : system) : Prop := {
  one_live : sum_list_with live (loops s) = if qp_processing (proc s) then 1 else 0;
  all_watch : Forall (watches (proc s)) (loops s);
}.

(** A goroutine moves on without exiting. *)
Lemma walk_single i x y s s' :
  single s -> loops s !! i = Some x -> loops s' = <[i := y]> (loops s) -> live y = live x ->
  watches (proc s) y -> qp_processing (proc s') = qp_processing (proc s) ->
  qp_ctx (proc s') = qp_ctx (proc s) -> single s'.
Proof.
  intros [H1 H2] Hi El Hl Hw Ep Ec. split.
  - rewrite El, Ep, <- H1. assert (E := sum_list_with_insert live (loops s) i x y Hi). lia.
  - rewrite El. apply Forall_insert.
    + eapply Forall_impl; [exact H2|]. intros ph. unfold watches. by rewrite Ec.
    + revert Hw. unfold watches. by rewrite Ec.
Qed.

Lemma same_single s s' :
  single s -> loops s' = loops s -> qp_processing (proc s') = qp_processing (proc s) ->
  qp_ctx (proc s') = qp_ctx (proc s) -> single s'.
Proof.
  intros [H1 H2] El Ep Ec. split; rewrite El; [by rewrite Ep|].
  eapply Forall_impl; [exact H2|]. intros ph. unfold watches. by rewrite Ec.
Qed.

(** With no goroutine left, every phase is the end. *)
Lemma none_live (l : list run_phase) : sum_list_with live l = 0 -> Forall (fun ph => ph = Exited) l.
Proof.
  induction l as [|ph l IH]; intros H; constructor; cbn in H.
  - destruct ph; cbn in H; lia || done.
  - apply IH. lia.
Qed.

Lemma do_start_single s : single s -> single (do_start s).
Proof.
  intros Hs. pose proof Hs as [H1 H2]. unfold do_start, Start.
  destruct (qp_processing (proc s)) eqn:Ep; [by apply (same_single s)|].
  split; cbn.
  - rewrite sum_list_with_app, H1. done.
  - apply Forall_app. split; [|by repeat constructor].
    eapply Forall_impl; [apply none_live, H1|]. by intros ph ->.
Qed.

Lemma exit_single i s :
  single s -> loops s !! i = Some AtExit ->
  single (set_loop i Exited (set_proc (set_processing false (qp_ctx (proc s)) (proc s)) s)).
Proof.
  intros [H1 H2] Hi. assert (E := sum_list_with_insert live (loops s) i AtExit Exited Hi).
  split; cbn in *.
  - destruct (qp_processing (proc s)); lia.
  - by apply Forall_insert.
Qed.

Lemma qp_step_single s l s' : l <> LStop -> single s -> qp_step s l s' -> single s'.
Proof.
  intros Hl Hs Hst.
  assert (Hw : forall i ph, loops s !! i = Some ph -> watches (proc s) ph).
  { intros i ph. apply Forall_lookup_1, Hs. }
  destruct Hst; try by apply (same_single s).
  - by apply do_start_single.
  - apply (same_single s); [done| | |]; by destruct ctx.
  - unfold drain_pop. case_match. by case_match; apply (same_single s).
  - unfold process_pop. case_match. by case_match; apply (same_single s).
  - unfold process_ctx. by case_match; apply (same_single s).
  - unfold process_handled. by repeat case_match; apply (same_single s).
  - by eapply (walk_single i AtTop).
  - specialize (Hw i _ ltac:(done)). eapply (walk_single i (AtLen ctx)); try done;
      by destruct (0 <? _).
  - specialize (Hw i _ ltac:(done)). unfold loop_pop. case_match.
    by case_match; eapply (walk_single i (AtPop ctx)).
  - specialize (Hw i _ ltac:(done)). unfold loop_ctx.
    by case_match; eapply (walk_single i (AtCtx ctx item)).
  - specialize (Hw i _ ltac:(done)). unfold loop_handled.
    by repeat case_match; eapply (walk_single i (AtHandler ctx item)).
  - specialize (Hw i _ ltac:(done)). by eapply (walk_single i (AtRetry ctx)).
  - specialize (Hw i _ ltac:(done)). by eapply (walk_single i (AtReport ctx item)).
  - by eapply (walk_single i (AtSelect ctx)).
  - by eapply (walk_single i (AtSelect ctx)).
  - by apply exit_single.
Qed.

Lemma qp_steps_single ls s s' : LStop ∉ ls -> single s -> steps qp_step s ls s' -> single s'.
Proof.
  intros Hls Hs Hst. induction Hst as [|s1 l s2 ls s3 H1 H2 IH]; [done|].
  apply not_elem_of_cons in Hls as [Hl Hls]. apply IH; [done|]. by eapply qp_step_single.
Qed.

(** ** Properties *)

(** C38: No item is lost or duplicated, however the callers, [Process] included,
    and the goroutines interleave: the items enqueued are, up to their retry
    counts, those in the queue, those that a goroutine or a call of [Process] is
    working on, those handled, those that used up their retries and those
    drained; the queue stays a heap, and the error callback only ever sees items
    without retries left. *)
Theorem processor_loses_nothing ls s :
  steps qp_step qp_init ls s ->
  map ident (enqueued (book s)) ≡ₚ
    map ident (qp_queue (proc s) ++ (flat_map held (loops s) ++ flat_map carried (processes s))
               ++ handled (book s) ++ exhausted (book s) ++ drained (book s)) /\
  heap Less (qp_queue (proc s)) /\
  (forall x, x ∈ exhausted (book s) -> (qi_MaxRetries x <= qi_Retries x)%Z) /\
  reported (book s) `sublist_of` exhausted (book s).
Proof.
  intros Hs. assert (Ha : accounted s).
  { eapply steps_invariant; [|exact Hs|apply qp_init_accounted].
    intros ? ? ?. apply qp_step_accounted. }
  split_and!; [apply (acc_items s Ha)|apply (acc_heap s Ha)| |apply (acc_report s Ha)].
  apply Forall_forall, (acc_used s Ha).
Qed.

(** As long as [Stop] is not called, at most one goroutine runs the loop, it is
    there exactly while the processor says it is processing, and the context
    it has read is the one the processor can cancel. *)
Theorem single_loop_without_stop ls s :
  steps qp_step qp_init ls s -> LStop ∉ ls ->
  sum_list_with live (loops s) = (if qp_processing (proc s) then 1 else 0) /\
  forall ph, ph ∈ loops s -> watches (proc s) ph.
Proof.
  intros Hs Hls. assert (Hq : single s).
  { eapply qp_steps_single; [exact Hls| |exact Hs]. by split. }
  split; [apply Hq|]. apply Forall_forall, Hq.
Qed.

Module Example_processor.

(** One step of the example runs. *)
Tactic Notation "run_step" uconstr(c) := eapply steps_cons; [eapply c; reflexivity|].

Definition pushed (id : string) (k : nat) (s : system) : system :=
  set_enqueuer k EnqDone
    (set_proc (qp_signal (proc (enqueue_push k (with_defaults 0 3 (sample id 1 0))
                                  (enqueue_begin 0 (sample id 1 0) s))))
       (enqueue_push k (with_defaults 0 3 (sample id 1 0)) (enqueue_begin 0 (sample id 1 0) s))).

(** [Start], an enqueued item, and its handling. *)
Definition after_one : system :=
  loop_handled 0 (Some 0) (with_defaults 0 3 (sample "a" 1 0)) false
    (loop_ctx 0 (Some 0) (with_defaults 0 3 (sample "a" 1 0))
      (loop_pop 0 (Some 0)
        (set_loop 0 (AtPop (Some 0)) (set_loop 0 (AtLen (Some 0))
          (pushed "a" 0 (do_start qp_init)))))).

Lemma after_one_reachable :
  steps qp_step qp_init [LStart; LCall; LCall; LCall; LRun; LRun; LRun; LRun; LRun] after_one.
Proof.
  eapply steps_cons; [apply qs_start|]. eapply steps_cons; [apply (qs_enqueue _ 0 (sample "a" 1 0))|].
  run_step (qs_push _ 0 (with_defaults 0 3 (sample "a" 1 0))). run_step (qs_signal _ 0).
  run_step (qs_top _ 0). run_step (qs_len _ 0 (Some 0)). run_step (qs_pop _ 0 (Some 0)).
  run_step (qs_ctx _ 0 (Some 0) (with_defaults 0 3 (sample "a" 1 0))).
  run_step (qs_handled _ 0 (Some 0) (with_defaults 0 3 (sample "a" 1 0)) false).
  apply steps_nil.
Defined.

Lemma processor_loses_nothing_witness :
  handled (book after_one) = [with_defaults 0 3 (sample "a" 1 0)] /\
  map ident (enqueued (book after_one)) ≡ₚ
    map ident (qp_queue (proc after_one) ++ flat_map held (loops after_one)
               ++ handled (book after_one) ++ exhausted (book after_one)
               ++ drained (book after_one)).
Proof.
  split; [reflexivity|].
  apply (processor_loses_nothing [LStart; LCall; LCall; LCall; LRun; LRun; LRun; LRun; LRun]).
  apply after_one_reachable.
Defined.

Lemma single_loop_without_stop_witness : sum_list_with live (loops after_one) = 1.
Proof.
  apply (single_loop_without_stop [LStart; LCall; LCall; LCall; LRun; LRun; LRun; LRun; LRun]);
    [apply after_one_reachable|].
  set_solver.
Defined.

(** A goroutine handles one item per wake-up and the channel holds one token,
    so items queued in a burst are left behind: here three items are enqueued,
    two are handled, and the goroutine waits with one item queued and no
    token. *)
Theorem burst_leaves_item :
  exists ls s, steps qp_step qp_init ls s /\ loops s = [AtSelect (Some 0)] /\
    qp_notified (proc s) = false /\ length (qp_queue (proc s)) = 1.
Proof.
  eexists _, _. split.
  - eapply steps_cons; [apply qs_start|].
    do 3 (eapply steps_cons; [apply (qs_enqueue _ 0 (sample "a" 1 0))|]).
    run_step (qs_push _ 0). run_step (qs_signal _ 0).
    run_step (qs_push _ 1). run_step (qs_signal _ 1).
    run_step (qs_push _ 2). run_step (qs_signal _ 2).
    run_step (qs_top _ 0). run_step (qs_len _ 0). run_step (qs_pop _ 0). run_step (qs_ctx _ 0).
    eapply steps_cons; [eapply (qs_handled _ 0 _ _ false); reflexivity|].
    eapply steps_cons; [eapply (qs_wake _ 0); reflexivity|].
    run_step (qs_top _ 0). run_step (qs_len _ 0). run_step (qs_pop _ 0). run_step (qs_ctx _ 0).
    eapply steps_cons; [eapply (qs_handled _ 0 _ _ false); reflexivity|].
    apply steps_nil.
  - by vm_compute.
Qed.

(** [Stop] clears the flag before the goroutine has ended.  A [Start] that
    follows launches a second goroutine, and when the first one ends it clears
    the flag again: here a goroutine is running while the processor says that
    it is not processing. *)
Theorem restart_clears_flag :
  exists ls s, steps qp_step qp_init ls s /\ qp_processing (proc s) = false /\
    loops s = [Exited; AtSelect (Some 1)] /\ is_cancelled (Some 1) s = false.
Proof.
  eexists _, _. split.
  - eapply steps_cons; [apply qs_start|]. run_step (qs_top _ 0). run_step (qs_len _ 0).
    eapply steps_cons; [apply qs_stop|]. eapply steps_cons; [apply qs_start|].
    run_step (qs_top _ 1). run_step (qs_len _ 1).
    eapply steps_cons; [eapply (qs_done _ 0); reflexivity|]. run_step (qs_exit _ 0).
    apply steps_nil.
  - by vm_compute.
Qed.

End Example_processor.
