(* ===== verification/GoBase.v ===== *)
(** * Go's libraries: errors, numbers, time, UTF-8

    Error values first, then machine integers, instants and the calendar, and
    the encoding of texts, each under its own heading.

    ** Errors

    The errors that the provider-accounting code makes, wraps, joins and
    inspects: the sentinels of [src/engine/execution], [ProviderUsageTerminalError],
    [errors.Join], [fmt.Errorf] with a final [%w], and the errors of provider
    adapters and of other code, which may report an HTTP status or carry a final
    usage receipt ([src/engine/internal/providercost]) and may wrap others.
    [errors.Is] and [errors.As] search the tree of an error in pre-order. *)

From S2P Require Import Prelude GoStrings.

(** [schema.TokenUsage], the fields the accounting reads. *)
Record TokenUsage := {
  u_PromptTokens : Z; u_CompletionTokens : Z; u_TotalTokens : Z; u_CachedTokens : Z;
  u_CacheWriteTokens : Z; u_ReasoningTokens : Z
}.

Inductive sentinel :=
| ErrRunBudgetExceeded | ErrRunUsageUnknown | ErrRunUsageCheckpoint
| ErrProviderCallBudgetExhausted | ErrModelAttemptDeadlineExceeded
| ErrUnsupported
| ContextCanceled | ContextDeadlineExceeded.

#[export] Instance sentinel_eq_dec : EqDecision sentinel.
Proof. solve_decision. Defined.

(** What an error with a [FinalProviderUsage] method gives: the usage, the model
    that answered, and the cache receipt when it has that method too. *)
Record FinalUsage := {
  fu_usage : option TokenUsage; fu_responseModel : bytes; fu_cacheWrite : option (Z * bool * bytes)
}.

(** The attributes of an error of other code. *)
Record external := {
  ex_text : bytes; ex_status : option Z; ex_receipt : option FinalUsage
}.

Inductive goerr :=
| Sentinel (s : sentinel)
| ProviderUsageTerminalError (e : option goerr)
| Joined (l : list goerr)
| Wrapped (prefix : bytes) (e : goerr)
| External (x : external) (inner : list goerr).

(** [errors.New]. *)
Definition new_error_text (s : bytes) : goerr :=
  External {| ex_text := s; ex_status := None; ex_receipt := None |} [].

Definition sentinel_text (s : sentinel) : bytes :=
  match s with
  | ErrRunBudgetExceeded => lit "run usage budget exceeded"
  | ErrRunUsageUnknown => lit "run budget cannot continue with unknown usage or pricing"
  | ErrRunUsageCheckpoint => lit "run usage checkpoint unavailable or inconsistent"
  | ErrProviderCallBudgetExhausted => lit "model provider-call budget exhausted"
  | ErrModelAttemptDeadlineExceeded => lit "model attempt deadline exceeded"
  | ErrUnsupported => lit "provider does not support bounded cost dispatch"
  | ContextCanceled => lit "context canceled"
  | ContextDeadlineExceeded => lit "context deadline exceeded"
  end.

(** [Error()]. *)
Fixpoint error_text (e : goerr) : bytes :=
  match e with
  | Sentinel s => sentinel_text s
  | ProviderUsageTerminalError None => lit "provider usage accounting failed closed"
  | ProviderUsageTerminalError (Some e) => lit "provider usage accounting failed closed: " ++ error_text e
  | Joined l => Join (map error_text l) [NL]
  | Wrapped prefix e => prefix ++ error_text e
  | External x _ => ex_text x
  end.

(** What [Unwrap] gives, of either kind. *)
Definition unwrap (e : goerr) : list goerr :=
  match e with
  | Sentinel _ => []
  | ProviderUsageTerminalError e => option_list e
  | Joined l => l
  | Wrapped _ e => [e]
  | External _ inner => inner
  end.

(** [errors.As]: the first match of [f] in the tree. *)
Fixpoint errors_As {A} (f : goerr -> option A) (e : goerr) : option A :=
  match f e with
  | Some a => Some a
  | None =>
      let fix any (l : list goerr) : option A :=
        match l with
        | [] => None
        | e :: l => match errors_As f e with Some a => Some a | None => any l end
        end in
      match e with
      | Sentinel _ => None
      | ProviderUsageTerminalError None => None
      | ProviderUsageTerminalError (Some e) => errors_As f e
      | Joined l => any l
      | Wrapped _ e => errors_As f e
      | External _ l => any l
      end
  end.

(** [errors.Is] with a sentinel. *)
Definition errors_Is (e : goerr) (target : sentinel) : bool :=
  match errors_As (fun e => match e with
                            | Sentinel s => if s ==b target then Some tt else None
                            | _ => None
                            end) e with
  | Some _ => true
  | None => false
  end.

(** [errors.Join], which drops nil errors. *)
Definition errors_Join (l : list (option goerr)) : option goerr :=
  match omap id l with [] => None | es => Some (Joined es) end.

(** ** Facts *)

Section errors_As.
Context {A : Type} (f : goerr -> option A).

Lemma errors_As_eq e :
  errors_As f e = match f e with Some a => Some a | None => head (omap (errors_As f) (unwrap e)) end.
Proof.
  destruct e as [s|[e|]|l|p e|x l]; cbn; destruct (f _); try done; try by destruct (errors_As f e).
  all: induction l as [|e l IH]; [done|]; cbn; by destruct (errors_As f e).
Qed.

Lemma errors_As_here e a : f e = Some a -> errors_As f e = Some a.
Proof. intros Hf. by rewrite errors_As_eq, Hf. Qed.

Lemma errors_As_joined l :
  (forall l, f (Joined l) = None) -> errors_As f (Joined l) = head (omap (errors_As f) l).
Proof. intros Hf. by rewrite errors_As_eq, Hf. Qed.
End errors_As.

(** * Machine integers and decimal text

    The integers of the source at their width ([uint64] as a [Z] kept in
    [0, 2^64), [int] and [int64] in [-2^63, 2^63)), and the decimal text of
    unbounded integers as [big.Int.String] and [big.Int.SetString] (base ten,
    digits only) give it. *)

Open Scope Z_scope.

(** ** Widths *)

Definition MaxUint64 : Z := 2 ^ 64 - 1.
Definition MaxInt64 : Z := 2 ^ 63 - 1.

(** Conversion to, and the wrap-around of, [uint64] and [int64]. *)
Definition u64 (x : Z) : Z := x mod 2 ^ 64.
Definition i64 (x : Z) : Z := (x + 2 ^ 63) mod 2 ^ 64 - 2 ^ 63.

Definition is_u64 (x : Z) : Prop := 0 <= x <= MaxUint64.
Definition is_i64 (x : Z) : Prop := - 2 ^ 63 <= x <= MaxInt64.

Lemma u64_range x : is_u64 (u64 x).
Proof. unfold is_u64, MaxUint64, u64. pose proof (Z.mod_pos_bound x (2 ^ 64)). lia. Qed.

Lemma u64_id x : is_u64 x -> u64 x = x.
Proof. unfold is_u64, MaxUint64, u64. intros. apply Z.mod_small. lia. Qed.

Lemma u64_add_l a b : u64 (u64 a + b) = u64 (a + b).
Proof. apply Zplus_mod_idemp_l. Qed.

Lemma i64_range x : is_i64 (i64 x).
Proof. unfold is_i64, MaxInt64, i64. pose proof (Z.mod_pos_bound (x + 2 ^ 63) (2 ^ 64)). lia. Qed.

Lemma i64_id x : is_i64 x -> i64 x = x.
Proof. unfold is_i64, MaxInt64, i64. intros. rewrite Z.mod_small; lia. Qed.

(** ** Decimal text *)

Definition digit_char (d : Z) : ascii := chr (Z.to_N (48 + d)).
Definition digit_val (c : ascii) : Z := Z.of_N (byte_val c) - 48.

(** The decimal digits of [n], the least significant one first. *)
Fixpoint dec_rev (fuel : nat) (n : Z) : bytes :=
  match fuel with
  | O => []
  | S k => digit_char (n mod 10) :: (if n <? 10 then [] else dec_rev k (n / 10))
  end.

Definition dec (n : Z) : bytes := reverse (dec_rev (S (Z.to_nat (Z.log2 n))) n).

(** [big.Int.String], also [strconv.Itoa]. *)
Definition Z_String (v : Z) : bytes := if v <? 0 then "-"%char :: dec (- v) else dec v.

(** The value of a string of digits. *)
Definition dec_value (s : bytes) : Z := fold_left (fun acc c => acc * 10 + digit_val c) s 0.

(** [strconv.Atoi]: an optional sign and decimal digits, in the range of [int]. *)
Definition digits (s : bytes) : option Z :=
  if (s <>b []) && forallb is_digit s then Some (dec_value s) else None.

Definition Atoi (s : bytes) : option Z :=
  v ← match s with
      | c :: rest =>
          if c ==b "-"%char then Z.opp <$> digits rest else
          if c ==b "+"%char then digits rest else digits s
      | [] => None
      end;
  if (- 2 ^ 63 <=? v) && (v <=? MaxInt64) then Some v else None.

Lemma digit_char_ok d : 0 <= d < 10 -> is_digit (digit_char d) = true /\ digit_val (digit_char d) = d.
Proof.
  intros Hd.
  assert (d = 0 \/ d = 1 \/ d = 2 \/ d = 3 \/ d = 4 \/ d = 5 \/ d = 6 \/ d = 7 \/ d = 8 \/ d = 9)
    as Hc by lia.
  destruct_or! Hc; subst d; by vm_compute.
Qed.

Lemma digit_val_range c : is_digit c = true -> 0 <= digit_val c <= 9.
Proof.
  unfold is_digit, in_range, digit_val. intros [H1 H2]%andb_true_iff.
  apply N.leb_le in H1, H2. lia.
Qed.

Lemma dec_value_snoc s c : dec_value (s ++ [c]) = dec_value s * 10 + digit_val c.
Proof. unfold dec_value. by rewrite fold_left_app. Qed.

Lemma dec_value_app s t :
  dec_value (s ++ t) = dec_value s * 10 ^ Z.of_nat (length t) + dec_value t.
Proof.
  induction t as [|c t IH] using rev_ind.
  - rewrite app_nil_r. cbn. lia.
  - rewrite app_assoc, !dec_value_snoc, IH, length_app. cbn [length].
    rewrite Nat2Z.inj_add, Z.pow_add_r by lia. lia.
Qed.

Lemma dec_value_zeros n : dec_value (replicate n "0"%char) = 0.
Proof.
  induction n as [|n IH]; [done|]. rewrite replicate_S_end, dec_value_snoc, IH. done.
Qed.

Lemma dec_value_range s : forallb is_digit s = true -> 0 <= dec_value s < 10 ^ Z.of_nat (length s).
Proof.
  induction s as [|c s IH] using rev_ind; [cbn; lia|].
  rewrite forallb_app. intros [Hs [Hc _]%andb_true_iff]%andb_true_iff.
  specialize (IH Hs). apply digit_val_range in Hc.
  rewrite dec_value_snoc, length_app, Nat2Z.inj_add, Z.pow_add_r by lia. cbn [length]. lia.
Qed.

Lemma dec_rev_spec fuel n :
  0 <= n < 2 ^ Z.of_nat fuel -> fuel <> O ->
  dec_value (reverse (dec_rev fuel n)) = n /\
  forallb is_digit (dec_rev fuel n) = true /\
  forall k, (1 <= k)%nat -> (length (dec_rev fuel n) <= k)%nat <-> n < 10 ^ Z.of_nat k.
Proof.
  revert n. induction fuel as [|f IH]; intros n Hn Hf; [done|].
  assert (0 <= n mod 10 < 10) as Hm by (apply Z.mod_pos_bound; lia).
  destruct (digit_char_ok _ Hm) as [Hd Hv]. cbn [dec_rev].
  rewrite reverse_cons, dec_value_snoc, Hv. cbn [forallb length]. rewrite Hd.
  destruct (n <? 10) eqn:E.
  - apply Z.ltb_lt in E. rewrite Z.mod_small by lia. split_and!; [cbn; lia|done|].
    intros k Hk. cbn. split; [|lia]. intros _.
    pose proof (Z.pow_le_mono_r 10 1 (Z.of_nat k)). lia.
  - apply Z.ltb_ge in E. rewrite Nat2Z.inj_succ, Z.pow_succ_r in Hn by lia.
    assert (0 <= n / 10 < 2 ^ Z.of_nat f) as Hn'.
    { split; [apply Z.div_pos; lia|]. apply Z.div_lt_upper_bound; lia. }
    assert (f <> O). { intros ->. cbn in Hn. lia. }
    destruct (IH _ Hn') as (H1 & H2 & H3); [done|]. rewrite H1, H2.
    pose proof (Z.div_mod n 10). split_and!; [lia|done|].
    intros [|k] Hk; [lia|]. destruct k as [|k].
    + split; [|cbn; lia]. intros Hl. destruct f; [done|]. cbn in Hl. lia.
    + rewrite <- Nat.succ_le_mono, (H3 (S k)) by lia.
      rewrite (Nat2Z.inj_succ (S k)), Z.pow_succ_r by lia. split; intros Hlt.
      * apply Z.lt_le_trans with (10 * (n / 10) + 10); lia.
      * apply Z.div_lt_upper_bound; lia.
Qed.

Lemma log2_fuel n : 0 <= n -> n < 2 ^ Z.of_nat (S (Z.to_nat (Z.log2 n))).
Proof.
  intros Hn. rewrite Nat2Z.inj_succ, Z2Nat.id by apply Z.log2_nonneg.
  destruct (Z.eq_dec n 0) as [->|]; [done|]. apply Z.log2_spec. lia.
Qed.

Lemma dec_spec n :
  0 <= n ->
  dec_value (dec n) = n /\ forallb is_digit (dec n) = true /\
  forall k, (1 <= k)%nat -> (length (dec n) <= k)%nat <-> n < 10 ^ Z.of_nat k.
Proof.
  intros Hn. unfold dec.
  destruct (dec_rev_spec (S (Z.to_nat (Z.log2 n))) n) as (H1 & H2 & H3);
    [split; [done|by apply log2_fuel]|done|].
  split_and!; [done| |].
  - apply forallb_elem_of. intros c. rewrite elem_of_reverse.
    by apply forallb_elem_of.
  - intros k. rewrite length_reverse. apply H3.
Qed.

Lemma dec_nonempty n : dec n <> [].
Proof. unfold dec. cbn [dec_rev]. rewrite reverse_cons. by destruct (reverse _). Qed.

Example dec_examples : dec 0 = lit "0" /\ dec 1024 = lit "1024" /\ Z_String (-7) = lit "-7".
Proof. by vm_compute. Qed.

(** ** Hexadecimal text *)

(** [hex.DecodeString] gives 32 bytes. *)
Definition hex_char (c : ascii) : bool :=
  let n := Z.of_nat (nat_of_ascii c) in
  ((48 <=? n) && (n <=? 57)) || ((97 <=? n) && (n <=? 102)) || ((65 <=? n) && (n <=? 70)).
Definition hex32 (s : bytes) : bool := (length s =? 64)%nat && forallb hex_char s.

(** * Go's [time] package

    Instants are nanoseconds since the Unix epoch ([Z]).  The calendar is the
    proleptic Gregorian one, computed from the number of days since the epoch.
    A location is the offset from UTC, in seconds, that applies at an instant. *)

Definition Millisecond : Z := 1000000.
Definition Second : Z := 1000 * Millisecond.
Definition Minute : Z := 60 * Second.
Definition Hour : Z := 60 * Minute.

Abbreviation location := (Z -> Z).

Definition UnixMilli (ms : Z) : Z := ms * Millisecond.
Definition toUnixMilli (t : Z) : Z := t / Millisecond.

(** [Truncate]: the zero time is a whole number of days before the epoch, so a
    divisor of a day truncates relative to the epoch too. *)
Definition Truncate (t d : Z) : Z := t - t mod d.

(** ** The calendar *)

(** The date of a day, counted from the epoch: year, month, day.  Years start in
    March here, so that the leap day comes last; an era has 400 years. *)
Definition civil (days : Z) : Z * Z * Z :=
  let z := days + 719468 in
  let era := z / 146097 in
  let doe := z mod 146097 in
  let yoe := (doe - doe / 1460 + doe / 36524 - doe / 146096) / 365 in
  let doy := doe - (365 * yoe + yoe / 4 - yoe / 100) in
  let mp := (5 * doy + 2) / 153 in
  let d := doy - (153 * mp + 2) / 5 + 1 in
  let m := if mp <? 10 then mp + 3 else mp - 9 in
  (yoe + era * 400 + (if m <=? 2 then 1 else 0), m, d).

(** Seconds of local time since the epoch. *)
Definition local_seconds (loc : location) (t : Z) : Z := t / Second + loc t.
Definition local_day (loc : location) (t : Z) : Z := local_seconds loc t / 86400.
Definition day_seconds (loc : location) (t : Z) : Z := local_seconds loc t mod 86400.

Definition t_Minute (loc : location) (t : Z) : Z := day_seconds loc t / 60 mod 60.
Definition t_Hour (loc : location) (t : Z) : Z := day_seconds loc t / 3600.
Definition t_Day (loc : location) (t : Z) : Z := (civil (local_day loc t)).2.
Definition t_Month (loc : location) (t : Z) : Z := (civil (local_day loc t)).1.2.
Definition t_Weekday (loc : location) (t : Z) : Z := (local_day loc t + 4) mod 7.

(** ** Ranges *)

Lemma t_Minute_range loc t : 0 <= t_Minute loc t < 60.
Proof. apply Z.mod_pos_bound. lia. Qed.

Lemma t_Hour_range loc t : 0 <= t_Hour loc t < 24.
Proof.
  unfold t_Hour, day_seconds. pose proof (Z.mod_pos_bound (local_seconds loc t) 86400).
  split; [apply Z.div_pos; lia|apply Z.div_lt_upper_bound; lia].
Qed.

Lemma t_Weekday_range loc t : 0 <= t_Weekday loc t < 7.
Proof. apply Z.mod_pos_bound. lia. Qed.

(** The day of the year, from the day of the era. *)
Lemma day_of_year doe :
  0 <= doe < 146097 ->
  let yoe := (doe - doe / 1460 + doe / 36524 - doe / 146096) / 365 in
  0 <= yoe < 400 /\ 0 <= doe - (365 * yoe + yoe / 4 - yoe / 100) <= 365.
Proof. intros Hd. cbv zeta. Z.to_euclidean_division_equations. lia. Qed.

Lemma t_Month_range loc t : 1 <= t_Month loc t <= 12.
Proof.
  unfold t_Month, civil. cbv zeta. cbn [fst snd].
  destruct (day_of_year ((local_day loc t + 719468) mod 146097)) as [_ Hy]; [apply Z.mod_pos_bound; lia|].
  revert Hy. set (doy := _ - _). intros Hy.
  assert (0 <= (5 * doy + 2) / 153 <= 11) as Hm.
  { split; [apply Z.div_pos; lia|apply Z.lt_succ_r, Z.div_lt_upper_bound; lia]. }
  destruct (Z.ltb_spec ((5 * doy + 2) / 153) 10); lia.
Qed.

Lemma t_Day_range loc t : 1 <= t_Day loc t <= 31.
Proof.
  unfold t_Day, civil. cbv zeta. cbn [fst snd].
  destruct (day_of_year ((local_day loc t + 719468) mod 146097)) as [_ Hy]; [apply Z.mod_pos_bound; lia|].
  revert Hy. set (doy := _ - _). intros Hy. Z.to_euclidean_division_equations. lia.
Qed.

(** Known dates: the epoch, a leap day, the end of a leap year, a day before the
    epoch. *)
Example civil_dates :
  map civil [0; 19782; 20088; -1] = [(1970, 1, 1); (2024, 2, 29); (2024, 12, 31); (1969, 12, 31)].
Proof. reflexivity. Qed.

(** * UTF-8 text

    [utf8.ValidString] and [utf8.RuneCountInString] of the Go standard library
    over byte strings: a rune takes one to four bytes, and the range of its
    second byte depends on the first, which excludes overlong forms, surrogates
    and values above U+10FFFF. *)

Open Scope N_scope.

(** A continuation byte, and the range of the second byte after each first
    byte of a rune of three or four bytes. *)
Definition cont (c : ascii) : bool := in_range 128 191 c.

Definition lead2 (a b : ascii) : bool := in_range 194 223 a && cont b.

Definition lead3 (a b : ascii) : bool :=
  (byte_is 224 a && in_range 160 191 b) || (in_range 225 236 a && cont b)
  || (byte_is 237 a && in_range 128 159 b) || (in_range 238 239 a && cont b).

Definition lead4 (a b : ascii) : bool :=
  (byte_is 240 a && in_range 144 191 b) || (in_range 241 243 a && cont b)
  || (byte_is 244 a && in_range 128 143 b).

Fixpoint ValidString (s : bytes) : bool :=
  match s with
  | [] => true
  | a :: s1 =>
      if is_ascii_byte a then ValidString s1 else
      match s1 with
      | [] => false
      | b :: s2 =>
          if lead2 a b then ValidString s2 else
          match s2 with
          | [] => false
          | c :: s3 =>
              if lead3 a b && cont c then ValidString s3 else
              match s3 with
              | [] => false
              | d :: s4 => if lead4 a b && cont c && cont d then ValidString s4 else false
              end
          end
      end
  end.

(** Every byte that does not start a valid rune counts as one rune. *)
Fixpoint RuneCountInString (s : bytes) : nat :=
  match s with
  | [] => 0
  | a :: s1 =>
      if is_ascii_byte a then S (RuneCountInString s1) else
      match s1 with
      | [] => 1
      | b :: s2 =>
          if lead2 a b then S (RuneCountInString s2) else
          match s2 with
          | [] => S (RuneCountInString s1)
          | c :: s3 =>
              if lead3 a b && cont c then S (RuneCountInString s3) else
              match s3 with
              | [] => S (RuneCountInString s1)
              | d :: s4 =>
                  if lead4 a b && cont c && cont d then S (RuneCountInString s4)
                  else S (RuneCountInString s1)
              end
          end
      end
  end.

(** [strings.ContainsRune(s, '\x00')]. *)
Definition contains_NUL (s : bytes) : bool := existsb (byte_is 0) s.

(** ** Lemmas *)

(** Text of ASCII letters, digits and punctuation, as identifiers and reasons of
    the source are. *)
Definition graphic (c : ascii) : bool := in_range 33 126 c.

Lemma graphic_ascii c : graphic c = true -> is_ascii_byte c = true.
Proof.
  unfold graphic, in_range, is_ascii_byte. intros; breflect. apply N.ltb_lt.
  rewrite !N.leb_le in *. lia.
Qed.

Lemma graphic_space c : graphic c = true -> is_space1 c = false.
Proof.
  unfold graphic, is_space1, in_range, byte_is. intros H; breflect. rewrite !N.leb_le in *.
  apply orb_false_iff; split; [apply andb_false_iff; right; apply N.leb_gt|apply N.eqb_neq]; lia.
Qed.

Lemma graphic_NUL c : graphic c = true -> byte_is 0 c = false.
Proof. unfold graphic, in_range, byte_is. intros; breflect. rewrite !N.leb_le in *. apply N.eqb_neq. lia. Qed.

Lemma ascii_valid s : forallb is_ascii_byte s = true -> ValidString s = true.
Proof. induction s as [|c s IH]; cbn; [done|]. intros; breflect. by rewrite H, IH. Qed.

Lemma ascii_rune_count s : forallb is_ascii_byte s = true -> RuneCountInString s = length s.
Proof. induction s as [|c s IH]; cbn; [done|]. intros; breflect. by rewrite H, IH. Qed.

Lemma rune_count_length s : (RuneCountInString s <= length s)%nat.
Proof.
  induction s as [s IH] using (induction_ltof1 _ length); unfold ltof in IH.
  assert (Hs : forall t, (length t < length s)%nat -> (RuneCountInString t <= length t)%nat) by auto.
  destruct s as [|a s1]; cbn [RuneCountInString]; [done|].
  repeat case_match; subst; cbn [length] in *;
    repeat match goal with
    | |- context [RuneCountInString ?t] => lazymatch goal with
        | _ : (RuneCountInString t <= length t)%nat |- _ => fail
        | _ => pose proof (Hs t ltac:(cbn [length]; lia)) end
    end; cbn [length] in *; lia.
Qed.

Lemma graphic_valid s : forallb graphic s = true -> ValidString s = true.
Proof.
  intros H. apply ascii_valid. rewrite forallb_elem_of in *. auto using graphic_ascii.
Qed.

Lemma graphic_no_NUL s : forallb graphic s = true -> contains_NUL s = false.
Proof.
  unfold contains_NUL. induction s as [|c s IH]; cbn; [done|]. intros; breflect.
  rewrite IH by done. by rewrite graphic_NUL.
Qed.

Lemma graphic_trimmed s : forallb graphic s = true -> TrimSpace s = s.
Proof.
  intros H. apply TrimSpace_fixed. split.
  - destruct s as [|c s]; [done|]. cbn in H; breflect.
    apply trim_left_ascii; [|by apply graphic_space].
    constructor; [by apply graphic_ascii|]. apply Forall_forall. intros x Hx.
    rewrite forallb_elem_of in *. auto using graphic_ascii.
  - destruct s as [|c s] using rev_ind; [done|].
    rewrite forallb_app in H. cbn in H; breflect.
    apply trim_right_ascii; [|auto using graphic_space].
    apply Forall_app. split; [|by repeat constructor; apply graphic_ascii].
    apply Forall_forall. intros x Hx. rewrite forallb_elem_of in *. auto using graphic_ascii.
Qed.
