(* ===== verification/RunCost.v ===== *)
(** * Price cards and bounded labels of a run

    The declarative part of the accounting of [src/engine/execution]: the
    labels that the ledger retains ([run_usage_ledger.go]), decimal amounts and
    price cards ([run_cost.go]), and the descriptor of a provider call
    ([provider_usage.go]).  An amount of money is an integer of 10^-12 currency
    units, a rate an integer of 10^-6 units per million tokens, so their
    product with a token count is an amount.

    [UUIDLib] stands for the package [google/uuid], [CardSyntax] for
    [url.Parse] and [time.Parse] of the price card's source and date. *)

From S2P Require Import Prelude GoStrings GoBase Paths.

Open Scope Z_scope.

(** ** Labels *)

(** A [switch] over string constants that returns its argument. *)
Definition one_of (value : bytes) (l : list bytes) (other : bytes) : bytes :=
  if bool_decide (value ∈ l) then value else other.

Definition unknown : bytes := lit "unknown".
Definition other : bytes := lit "other".

Definition model_label_byte (c : ascii) : bool :=
  is_lower c || is_upper c || is_digit c || bool_decide (c ∈ lit "-_.:/[]").

Definition runUsageModelLabel (value : bytes) : bytes :=
  if (length value =? 0)%nat || (128 <? length value)%nat then unknown else
  if negb (forallb model_label_byte value) then unknown else
  if Contains value (lit "://") then unknown else value.

Definition providers : list bytes :=
  [lit "agenticdeepseek"; lit "agenticglm"; lit "agentickimi"; lit "agenticclaude";
   lit "agenticgemini"; lit "agenticopenai"; lit "agenticark"; lit "agenticqwen"].

Definition runUsageProvider (value : bytes) : bytes := one_of value providers unknown.

Definition runUsageSource (value : bytes) : bytes :=
  one_of value
    [lit "repl_main_thread"; lit "sdk"; lit "agent"; lit "compact";
     lit "independent_verification"; lit "independent_verification_coverage";
     lit "prompt_suggestion_generation"; lit "tool_use_summary_generation";
     lit "yolo_classifier"; lit "permission_explainer"; lit "approval_review";
     lit "long_session_background"; lit "web_search"] other.

Definition runUsageRole (value : bytes) : bytes :=
  one_of value [lit "main"; lit "explore"; lit "plan"; lit "general"; lit "summary"] other.

Definition runUsageEffort (value : bytes) : bytes :=
  one_of value [lit "none"; lit "low"; lit "medium"; lit "high"; lit "max"; lit "xhigh"] unknown.

(** Package [google/uuid]: [uuid_String s] is the canonical text of the
    identifier that [uuid.Parse s] reads, when it reads one and it is not the
    nil identifier.  The canonical text has 36 bytes and is read as itself. *)
Class UUIDLib := {
  uuid_String : bytes -> option bytes;
  uuid_canonical s t : uuid_String s = Some t -> length t = 36%nat /\ uuid_String t = Some t
}.

(** [url.Parse] (the components the card's check reads) and [time.Parse] with
    the RFC 3339 layout. *)
Record URL := {
  u_Scheme : bytes; u_Host : bytes; u_User : bool; u_RawQuery : bytes; u_Fragment : bytes
}.

Class CardSyntax := {
  url_Parse : bytes -> option URL;
  time_Parse_RFC3339 : bytes -> bool
}.

Definition runUsageUUID `{UUIDLib} (value : bytes) : bytes :=
  if (length value =? 36)%nat then default unknown (uuid_String value) else unknown.

Definition validRunUsageCheckpointUUID `{UUIDLib} (value : bytes) : bool :=
  bool_decide (uuid_String value = Some value).

(** ** Descriptors *)

Record Bound := {
  b_Provider : bytes; b_Model : bytes; b_InputTokens : Z; b_OutputTokens : Z
}.

Record ProviderUsageDescriptor := {
  d_LogicalRoundID : bytes; d_LogicalRequestID : bytes; d_ModelAttemptID : bytes;
  d_ModelAttemptIndex : Z; d_ModelRetryIndex : Z;
  d_Model : bytes; d_Provider : bytes; d_QuerySource : bytes; d_ModelRole : bytes;
  d_ModelProfile : bytes; d_ReasoningEffort : bytes;
  d_CostBound : option Bound; d_Request : bool
}.
#[export] Instance eta_ProviderUsageDescriptor : Eta ProviderUsageDescriptor := fun x =>
  Build_ProviderUsageDescriptor
    (d_LogicalRoundID x) (d_LogicalRequestID x) (d_ModelAttemptID x) (d_ModelAttemptIndex x)
    (d_ModelRetryIndex x) (d_Model x) (d_Provider x) (d_QuerySource x) (d_ModelRole x)
    (d_ModelProfile x) (d_ReasoningEffort x) (d_CostBound x) (d_Request x).

(** ** Price cards *)

Record RunPriceRoute := {
  rt_Provider : bytes; rt_Model : bytes; rt_APIModel : bytes;
  rt_CachedInputPerMillion : bytes; rt_UncachedInputPerMillion : bytes;
  rt_OutputPerMillion : bytes; rt_PerRequest : option bytes
}.

#[export] Instance RunPriceRoute_eq_dec : EqDecision RunPriceRoute.
Proof. solve_decision. Defined.

Record RunPriceCard := {
  card_Version : Z; card_Currency : bytes; card_Source : bytes; card_AsOf : bytes;
  card_Window : bytes; card_Routes : list RunPriceRoute
}.

#[export] Instance RunPriceCard_eq_dec : EqDecision RunPriceCard.
Proof. solve_decision. Defined.

(** The cost side of a collector; [prices] are the three rates of each route
    (cached input, uncached input, output). *)
Record runCostState := {
  card : RunPriceCard;
  prices : list (Z * Z * Z);
  requestPrices : list (option Z);
  amount : Z;
  limit : option Z;
  priced : Z; unpriced : Z;
  outstanding : Z; retained : Z; peak : Z;
  boundViolations : Z
}.

Inductive card_error :=
| BadSource | BadAsOf | BadHeader | BadWindow | BadRoute | BadRate | BadRequestRoute.

(** ** Decimal amounts *)

Definition costDecimal (value : bytes) (scale : nat) : option Z :=
  let parts := Split value (lit ".") in
  let whole := default [] (parts !! 0%nat) in
  if (2 <? length parts)%nat || (length whole =? 0)%nat || (18 <? length whole)%nat then None else
  let fraction := default [] (parts !! 1%nat) in
  if (length parts =? 2)%nat && ((length fraction =? 0)%nat || (scale <? length fraction)%nat)
  then None else
  if negb (forallb is_digit (whole ++ fraction)) then None else
  Some (dec_value (whole ++ fraction ++ replicate (scale - length fraction) "0"%char)).

Definition costAmount (value : Z) : bytes :=
  let s := Z_String value in
  let s := if (length s <=? 12)%nat then replicate (13 - length s) "0"%char ++ s else s in
  take (length s - 12) s ++ lit "." ++ drop (length s - 12) s.

(** ** Compiling a card *)

Definition currency_ok (s : bytes) : bool := (length s =? 3)%nat && forallb is_upper s.

(** The three rates of a route. *)
Definition route_rates (route : RunPriceRoute) : option (Z * Z * Z) :=
  a ← costDecimal (rt_CachedInputPerMillion route) 6;
  b ← costDecimal (rt_UncachedInputPerMillion route) 6;
  c ← costDecimal (rt_OutputPerMillion route) 6;
  Some (a, b, c).

Definition rates_zero (p : Z * Z * Z) : bool :=
  (p.1.1 =? 0) && (p.1.2 =? 0) && (p.2 =? 0).

(** The fee of a request route; [Err] when it is malformed or the route also
    has token rates. *)
Definition route_fee (route : RunPriceRoute) (p : Z * Z * Z) : result card_error (option Z) :=
  match rt_PerRequest route with
  | None => Ok None
  | Some fee =>
      match costDecimal fee 12 with
      | Some v => if rates_zero p then Ok (Some v) else Err BadRequestRoute
      | None => Err BadRequestRoute
      end
  end.

Definition route_labels_ok (route : RunPriceRoute) : bool :=
  (runUsageProvider (rt_Provider route) <>b unknown)
  && (runUsageModelLabel (rt_Model route) <>b unknown)
  && ((rt_APIModel route ==b []) || (runUsageModelLabel (rt_APIModel route) <>b unknown)).

(** The loop over the routes, [seen] being the provider/model pairs met. *)
Fixpoint compile_routes (seen : list (bytes * bytes)) (routes : list RunPriceRoute)
    : result card_error (list (Z * Z * Z) * list (option Z)) :=
  match routes with
  | [] => Ok ([], [])
  | route :: rest =>
      let key := (rt_Provider route, rt_Model route) in
      if bool_decide (key ∈ seen) || negb (route_labels_ok route) then Err BadRoute else
      match route_rates route with
      | None => Err BadRate
      | Some p =>
          match route_fee route p with
          | Err e => Err e
          | Ok fee =>
              match compile_routes (key :: seen) rest with
              | Err e => Err e
              | Ok (ps, fees) => Ok (p :: ps, fee :: fees)
              end
          end
      end
  end.

Definition source_ok `{CardSyntax} (source : bytes) : bool :=
  match url_Parse source with
  | None => false
  | Some u =>
      negb (512 <? length source)%nat && (u_Host u <>b []) && negb (u_User u)
      && (u_RawQuery u ==b []) && (u_Fragment u ==b [])
      && ((u_Scheme u ==b lit "https") || (u_Scheme u ==b lit "http"))
  end.

Definition windows : list bytes := [lit "fixed"; lit "peak"; lit "off_peak"; lit "upper_bound"].

Definition compileRunPriceCard `{CardSyntax} (c : RunPriceCard) : result card_error runCostState :=
  if negb (source_ok (card_Source c)) then Err BadSource else
  if (64 <? length (card_AsOf c))%nat || negb (time_Parse_RFC3339 (card_AsOf c)) then Err BadAsOf else
  if (card_Version c <>b 1) || negb (currency_ok (card_Currency c))
     || (length (card_Routes c) =? 0)%nat || (128 <? length (card_Routes c))%nat then Err BadHeader else
  if negb (bool_decide (card_Window c ∈ windows)) then Err BadWindow else
  match compile_routes [] (card_Routes c) with
  | Err e => Err e
  | Ok (ps, fees) =>
      Ok {| card := c; prices := ps; requestPrices := fees; amount := 0; limit := None;
            priced := 0; unpriced := 0; outstanding := 0; retained := 0; peak := 0;
            boundViolations := 0 |}
  end.

(** The index of the first route of the descriptor's provider and model, [-1]
    when there is none. *)
Fixpoint route_from (i : Z) (routes : list RunPriceRoute) (provider model : bytes) : Z :=
  match routes with
  | [] => -1
  | rt :: rest =>
      if (rt_Provider rt ==b provider) && (rt_Model rt ==b model) then i
      else route_from (i + 1) rest provider model
  end.

Definition route (c : runCostState) (provider model : bytes) : Z :=
  route_from 0 (card_Routes (card c)) provider model.

(** ** Lemmas *)

Lemma one_of_idemp v l o : one_of (one_of v l o) l o = one_of v l o.
Proof. unfold one_of. repeat case_bool_decide; done. Qed.

Lemma runUsageModelLabel_idemp v : runUsageModelLabel (runUsageModelLabel v) = runUsageModelLabel v.
Proof.
  assert (runUsageModelLabel unknown = unknown) as Hu by by vm_compute.
  unfold runUsageModelLabel at 2 3. repeat case_match; try done.
  unfold runUsageModelLabel. by repeat case_match.
Qed.

Lemma runUsageUUID_idemp `{UUIDLib} v :
  runUsageUUID v = unknown \/ runUsageUUID (runUsageUUID v) = runUsageUUID v.
Proof.
  unfold runUsageUUID. case_match; [|by left].
  destruct (uuid_String v) as [t|] eqn:E; [|by left]. right. cbn.
  apply uuid_canonical in E as [-> ->]. done.
Qed.

(** Splitting digits, a dot, digits. *)
Lemma digits_dotless s : forallb is_digit s = true -> "."%char ∉ s.
Proof. rewrite forallb_elem_of. intros H Hin. by specialize (H _ Hin). Qed.

Lemma Split_dot a b :
  forallb is_digit a = true -> forallb is_digit b = true ->
  Split (a ++ lit "." ++ b) (lit ".") = [a; b].
Proof.
  intros Ha%digits_dotless Hb%digits_dotless.
  apply (Split_Join "."%char [a; b]); [done|]. by repeat constructor.
Qed.

Lemma costDecimal_range v scale x :
  costDecimal v scale = Some x -> 0 <= x < 10 ^ (18 + Z.of_nat scale).
Proof.
  unfold costDecimal. set (parts := Split v (lit ".")).
  set (whole := default [] (parts !! 0%nat)). set (fraction := default [] (parts !! 1%nat)).
  destruct (_ || _ || _) eqn:E1; [done|]. destruct (_ && _) eqn:E2; [done|].
  destruct (negb _) eqn:E3; [done|]. intros [= <-].
  apply negb_false_iff in E3. rewrite forallb_app in E3. apply andb_true_iff in E3 as [Hw Hf].
  rewrite !orb_false_iff in E1. destruct E1 as [[E1 _] Hlen]. apply Nat.ltb_ge in Hlen, E1.
  assert (length fraction <= scale)%nat as Hfr.
  { unfold fraction in *. destruct parts as [|p0 [|p1 [|p2 rest]]]; cbn in *; try lia.
    rewrite orb_false_iff in E2. destruct E2 as [_ E2]. by apply Nat.ltb_ge in E2. }
  assert (forallb is_digit (whole ++ fraction ++ replicate (scale - length fraction) "0"%char) = true)
    as Hd.
  { rewrite !forallb_app, Hw, Hf. cbn. apply forallb_elem_of.
    by intros c [-> _]%elem_of_replicate. }
  apply dec_value_range in Hd as [H0 H1]. split; [done|].
  eapply Z.lt_le_trans; [exact H1|]. apply Z.pow_le_mono_r; [lia|].
  rewrite !length_app, length_replicate. lia.
Qed.

(** The text of a non-negative amount: digits, a dot and twelve digits, whose
    values recombine. *)
Lemma costAmount_shape v :
  0 <= v ->
  exists a b, costAmount v = a ++ lit "." ++ b /\ a <> [] /\ length b = 12%nat /\
    forallb is_digit a = true /\ forallb is_digit b = true /\ dec_value (a ++ b) = v /\
    ((length a <= 18)%nat <-> v < 10 ^ 30).
Proof.
  intros Hv. unfold costAmount, Z_String.
  destruct (Z.ltb_spec v 0); [lia|]. destruct (dec_spec v Hv) as (H1 & H2 & H3).
  set (s := dec v) in *. set (s' := if (length s <=? 12)%nat then _ else s).
  assert (12 < length s')%nat as Hl.
  { unfold s'. destruct (Nat.leb_spec (length s) 12); [|lia].
    rewrite length_app, length_replicate. lia. }
  assert (forallb is_digit s' = true /\ dec_value s' = v) as [Hd Hval].
  { unfold s'. destruct (Nat.leb_spec (length s) 12); [|done]. split.
    - rewrite forallb_app, H2, andb_true_r. apply forallb_elem_of.
      by intros c [-> _]%elem_of_replicate.
    - rewrite dec_value_app, dec_value_zeros. lia. }
  exists (take (length s' - 12) s'), (drop (length s' - 12) s').
  rewrite <- (take_drop (length s' - 12) s'), forallb_app in Hd.
  apply andb_true_iff in Hd as [Hd1 Hd2].
  split_and!; try done.
  - intros Hn%(f_equal length). rewrite length_take in Hn. cbn in Hn. lia.
  - rewrite length_drop. lia.
  - by rewrite take_drop.
  - rewrite length_take. change (10 ^ 30) with (10 ^ Z.of_nat 30). rewrite <- H3 by lia.
    revert Hl. unfold s'. destruct (Nat.leb_spec (length s) 12); [|lia].
    rewrite length_app, length_replicate. lia.
Qed.

(** Printing an amount and reading it back gives the amount, exactly when its
    whole part has at most eighteen digits; a larger one is refused. *)
Theorem cost_amount_roundtrip v :
  0 <= v -> costDecimal (costAmount v) 12 = if decide (v < 10 ^ 30) then Some v else None.
Proof.
  intros Hv. destruct (costAmount_shape v Hv) as (a & b & -> & Ha & Hb & Hda & Hdb & Hval & Hlen).
  unfold costDecimal. rewrite Split_dot by done. cbn [length lookup list_lookup default id].
  destruct (Nat.ltb_spec 2 2); [lia|]. cbn [orb].
  destruct (Nat.eqb_spec (length a) 0) as [E|_]; [by destruct a|]. cbn [orb].
  destruct (Nat.ltb_spec 18 (length a)).
  { rewrite decide_False; [done|]. intros ?%Hlen. lia. }
  rewrite decide_True by (apply Hlen; lia). rewrite Hb. cbn.
  rewrite forallb_app, Hda, Hdb. cbn. by rewrite app_nil_r, Hval.
Qed.

Lemma cost_amount_roundtrip_witness :
  costDecimal (costAmount 1500000000000) 12 = Some 1500000000000 /\
  costAmount 1500000000000 = lit "1.500000000000".
Proof.
  split; [|by vm_compute].
  rewrite (cost_amount_roundtrip 1500000000000) by lia. by rewrite decide_True by lia.
Defined.

(** ** Compiled cards *)

(** What the compiled prices of a route promise. *)
Definition priced_route (rt : RunPriceRoute) (p : Z * Z * Z) (fee : option Z) : Prop :=
  route_labels_ok rt = true /\
  (0 <= p.1.1 /\ 0 <= p.1.2 /\ 0 <= p.2) /\
  (is_Some fee <-> is_Some (rt_PerRequest rt)) /\
  (forall f, fee = Some f -> 0 <= f /\ p = (0, 0, 0)).

Lemma route_rates_nonneg rt p : route_rates rt = Some p -> 0 <= p.1.1 /\ 0 <= p.1.2 /\ 0 <= p.2.
Proof.
  unfold route_rates. intros H.
  apply bind_Some in H as (a & Ea & H). apply bind_Some in H as (b & Eb & H).
  apply bind_Some in H as (c & Ec & H). injection H as <-. cbn.
  apply costDecimal_range in Ea, Eb, Ec. lia.
Qed.

Lemma route_fee_spec rt p fee :
  route_fee rt p = Ok fee ->
  (is_Some fee <-> is_Some (rt_PerRequest rt)) /\ (forall f, fee = Some f -> 0 <= f /\ p = (0, 0, 0)).
Proof.
  unfold route_fee. destruct (rt_PerRequest rt) as [s|].
  - destruct (costDecimal s 12) as [v|] eqn:E; [|done]. destruct (rates_zero p) eqn:Z0; [|done].
    intros [= <-]. split; [by split; eauto|]. intros f [= <-].
    apply costDecimal_range in E. split; [lia|].
    unfold rates_zero in Z0. destruct p as [[a b] c]. cbn in Z0.
    rewrite !andb_true_iff, !Z.eqb_eq in Z0. by destruct Z0 as [[-> ->] ->].
  - intros [= <-]. split; [by rewrite <- !not_eq_None_Some|done].
Qed.

Lemma compile_routes_spec seen l ps fees :
  compile_routes seen l = Ok (ps, fees) ->
  forall i rt, l !! i = Some rt ->
    exists p fee, ps !! i = Some p /\ fees !! i = Some fee /\ priced_route rt p fee.
Proof.
  revert seen ps fees. induction l as [|r l IH]; intros seen ps fees H; cbn in H.
  - intros i rt. by rewrite lookup_nil.
  - destruct (_ || _) eqn:Eg; [done|]. apply orb_false_iff in Eg as [_ Hl%negb_false_iff].
    destruct (route_rates r) as [p|] eqn:Er; [|done].
    destruct (route_fee r p) as [fee|] eqn:Ef; [|done].
    destruct (compile_routes _ l) as [[ps' fees']|] eqn:El; [|done]. injection H as <- <-.
    intros [|i] rt Hi; cbn in Hi |- *; [|by eapply IH].
    injection Hi as <-. exists p, fee. split_and!; [done..|].
    split; [done|]. split; [by eapply route_rates_nonneg|]. by apply route_fee_spec.
Qed.

(** The invariant of a collector's prices. *)
Definition cost_wf (c : runCostState) : Prop :=
  forall i rt, card_Routes (card c) !! i = Some rt ->
    exists p fee, prices c !! i = Some p /\ requestPrices c !! i = Some fee /\ priced_route rt p fee.

Lemma compileRunPriceCard_wf `{CardSyntax} k c :
  compileRunPriceCard k = Ok c ->
  card c = k /\ cost_wf c /\ limit c = None /\
  amount c = 0 /\ outstanding c = 0 /\ retained c = 0 /\ peak c = 0 /\
  priced c = 0 /\ unpriced c = 0 /\ boundViolations c = 0.
Proof.
  unfold compileRunPriceCard. repeat case_match; try done. intros [= <-]. cbn.
  split_and!; try done. unfold cost_wf. cbn. by eapply compile_routes_spec.
Qed.

Lemma route_from_spec i l p m :
  route_from i l p m = -1 \/
  exists k rt, route_from i l p m = i + Z.of_nat k /\ l !! k = Some rt /\ rt_Provider rt = p /\ rt_Model rt = m.
Proof.
  revert i. induction l as [|r l IH]; intros i; cbn; [by left|].
  destruct (_ && _) eqn:E.
  - right. exists 0%nat, r. breflect. cbn. split_and!; [lia|done..].
  - destruct (IH (i + 1)) as [H|(k & rt & H & ? & ? & ?)]; [by left|].
    right. exists (S k), rt. split_and!; [lia|done..].
Qed.

(** A route index is [-1] or that of a compiled route of the descriptor. *)
Lemma route_spec c p m :
  cost_wf c ->
  route c p m = -1 \/
  exists k rt pr fee, route c p m = Z.of_nat k /\ card_Routes (card c) !! k = Some rt /\
    rt_Provider rt = p /\ rt_Model rt = m /\
    prices c !! k = Some pr /\ requestPrices c !! k = Some fee /\ priced_route rt pr fee.
Proof.
  intros Hwf. unfold route.
  destruct (route_from_spec 0 (card_Routes (card c)) p m) as [H|(k & rt & H & Hk & ? & ?)]; [by left|].
  right. destruct (Hwf _ _ Hk) as (pr & fee & ? & ? & ?). by exists k, rt, pr, fee.
Qed.

Lemma runUsageProvider_known p : runUsageProvider p <> unknown -> runUsageProvider p = p.
Proof. unfold runUsageProvider, one_of. by case_bool_decide. Qed.

Lemma runUsageModelLabel_known m : runUsageModelLabel m <> unknown -> runUsageModelLabel m = m.
Proof. unfold runUsageModelLabel. by repeat case_match. Qed.

(** The sanitised labels of the ledger find the same route as the descriptor's
    own strings: a card holds canonical labels only. *)
Lemma route_from_labels i l p m :
  (forall rt, rt ∈ l -> route_labels_ok rt = true) ->
  route_from i l (runUsageProvider p) (runUsageModelLabel m) = route_from i l p m.
Proof.
  revert i. induction l as [|r l IH]; intros i Hl; cbn; [done|].
  rewrite IH by (intros; apply Hl; set_solver).
  specialize (Hl r). rewrite elem_of_cons in Hl. specialize (Hl (or_introl eq_refl)).
  unfold route_labels_ok in Hl. apply andb_true_iff in Hl as [Hl _]. breflect.
  assert (forall f v x, (forall y, f y <> unknown -> f y = y) -> f (f v) = f v -> f x <> unknown ->
    (x ==b f v) = (x ==b v)) as Hlab.
  { intros f v x Hf Hff Hx. apply bool_decide_ext. split; [intros E|intros <-; by rewrite Hf].
    rewrite E, Hff in Hx. apply Hf in Hx. congruence. }
  rewrite (Hlab runUsageProvider), (Hlab runUsageModelLabel);
    auto using runUsageProvider_known, runUsageModelLabel_known, runUsageModelLabel_idemp.
  apply one_of_idemp.
Qed.

Lemma route_labels c p m :
  cost_wf c -> route c (runUsageProvider p) (runUsageModelLabel m) = route c p m.
Proof.
  intros Hwf. apply route_from_labels. intros rt [i Hi]%list_elem_of_lookup.
  by destruct (Hwf _ _ Hi) as (? & ? & _ & _ & [Hl _]).
Qed.
