(* ===== verification/RunUsage.v ===== *)
(** * Usage accounting of a run

    [src/engine/execution/run_usage.go], [run_usage_ledger.go], the stateful
    part of [run_cost.go], and the publication of checkpoints
    ([run_usage_checkpoint.go]).  A [RunUsage] collector admits every provider
    call of an invocation, counts it in its totals and in the totals of its
    route, keeps a bounded ledger of calls, and in reservation mode reserves an
    upper bound of the call's cost before it is dispatched.

    Every exported method locks the collector's mutex for its whole body, so it
    is one function from the state to the new state here; the only point where
    a method lets go of the mutex is the wait for reserved headroom inside
    [AdmitProviderUsage], which is modelled as the result [AdmitWait], after
    which the caller starts the loop's body again.  [uint64] counters wrap
    ([u64]).  The clock readings, the fresh identifiers and the outcome of
    writing a checkpoint are arguments.  A call refers to its route by the
    route's key: the entries of the route map are never replaced. *)

From S2P Require Import Prelude GoStrings GoBase Paths RunCost.

Open Scope Z_scope.

(** ** Data *)

(** [RunUsageLimits]; zero disables a limit. *)
Record RunUsageLimits := {
  MaxProviderCalls : Z; MaxTotalTokens : Z; MaxEstimatedCost : bytes; ReserveCostBeforeDispatch
  : bool; MaxOutputTokensPerCall : Z
}.
#[export] Instance RunUsageLimits_eq_dec : EqDecision RunUsageLimits.
Proof. solve_decision. Defined.

(** [RunUsageTotals]: thirteen [uint64] counters. *)
Record RunUsageTotals := {
  t_ProviderCalls : Z; t_KnownCalls : Z; t_UnknownCalls : Z; t_InFlight : Z; t_ReleasedCalls :
  Z; t_PromptTokens : Z; t_CompletionTokens : Z; t_TotalTokens : Z; t_CachedPromptTokens : Z;
  t_ReasoningTokens : Z; t_CacheWritePromptTokens : Z; t_CacheWriteReportedCalls : Z;
  t_ProviderDurationMillis : Z
}.
#[export] Instance eta_RunUsageTotals : Eta RunUsageTotals := fun x =>
  Build_RunUsageTotals
    (t_ProviderCalls x) (t_KnownCalls x) (t_UnknownCalls x) (t_InFlight x) (t_ReleasedCalls x)
    (t_PromptTokens x) (t_CompletionTokens x) (t_TotalTokens x) (t_CachedPromptTokens x)
    (t_ReasoningTokens x) (t_CacheWritePromptTokens x) (t_CacheWriteReportedCalls x)
    (t_ProviderDurationMillis x).
#[export] Instance RunUsageTotals_eq_dec : EqDecision RunUsageTotals.
Proof. solve_decision. Defined.

Abbreviation runUsageRouteKey := (bytes * bytes * bytes * bytes)%type.

(** [RunUsageRoute]. *)
Record RunUsageRoute := {
  rr_Model : bytes; rr_Source : bytes; rr_Role : bytes; rr_Effort : bytes; rr_totals :
  RunUsageTotals
}.
#[export] Instance eta_RunUsageRoute : Eta RunUsageRoute := fun x =>
  Build_RunUsageRoute
    (rr_Model x) (rr_Source x) (rr_Role x) (rr_Effort x) (rr_totals x).

(** [RunCallReservation]. *)
Record RunCallReservation := {
  rv_Provider : bytes; rv_Model : bytes; rv_InputTokens : Z; rv_OutputTokens : Z;
  rv_ReservedAmount : bytes; rv_RetainedAmount : bytes; rv_Requests : Z
}.
#[export] Instance eta_RunCallReservation : Eta RunCallReservation := fun x =>
  Build_RunCallReservation
    (rv_Provider x) (rv_Model x) (rv_InputTokens x) (rv_OutputTokens x) (rv_ReservedAmount x)
    (rv_RetainedAmount x) (rv_Requests x).

(** [RunCallCost]. *)
Record RunCallCost := {
  cc_State : bytes; cc_PriceIndex : Z; cc_EstimatedAmount : option bytes; cc_Reservation :
  option RunCallReservation
}.

(** [RunUsageCallTokens]. *)
Record RunUsageCallTokens := {
  ct_PromptTokens : Z; ct_CompletionTokens : Z; ct_TotalTokens : Z; ct_CachedPromptTokens : Z;
  ct_UncachedPromptTokens : Z; ct_ReasoningTokens : Z; ct_CacheWritePromptTokens : option Z
}.

(** [providerdiag.Snapshot]. *)
Record Diagnostics := {
  dg_HTTPStatus : Z; dg_RequestIDHash : bytes; dg_ResponseIDHash : bytes; dg_TransportPhase :
  bytes; dg_TerminationKind : bytes; dg_StreamEventCount : Z; dg_BodyBytes : Z;
  dg_LastValidatedSequence : option Z; dg_ValidatedTerminalEvent : bool; dg_AuthoritativeUsage :
  bool
}.

(** [RunUsageRecord]: one row of the ledger. *)
Record RunUsageRecord := {
  rec_Ordinal : Z; rec_CallID : bytes; rec_LogicalRoundID : bytes; rec_LogicalRequestID : bytes;
  rec_ModelAttemptID : bytes; rec_AttemptIndex : Z; rec_RetryIndex : Z; rec_Provider : bytes;
  rec_RequestedModel : bytes; rec_ResolvedModel : bytes; rec_Source : bytes; rec_Role : bytes;
  rec_Effort : bytes; rec_State : bytes; rec_StartedOffsetMillis : Z; rec_ProviderDurationMillis
  : Z; rec_Tokens : option RunUsageCallTokens; rec_Cost : option RunCallCost; rec_Requests :
  option Z; rec_CacheTTL : bytes; rec_Diagnostics : option Diagnostics
}.
#[export] Instance eta_RunUsageRecord : Eta RunUsageRecord := fun x =>
  Build_RunUsageRecord
    (rec_Ordinal x) (rec_CallID x) (rec_LogicalRoundID x) (rec_LogicalRequestID x)
    (rec_ModelAttemptID x) (rec_AttemptIndex x) (rec_RetryIndex x) (rec_Provider x)
    (rec_RequestedModel x) (rec_ResolvedModel x) (rec_Source x) (rec_Role x) (rec_Effort x)
    (rec_State x) (rec_StartedOffsetMillis x) (rec_ProviderDurationMillis x) (rec_Tokens x)
    (rec_Cost x) (rec_Requests x) (rec_CacheTTL x) (rec_Diagnostics x).

(** [RunUsageLedger]. *)
Record RunUsageLedger := {
  lg_Version : Z; lg_SegmentID : bytes; lg_Records : list RunUsageRecord; lg_DroppedRecords : Z
}.

(** [RunCostReservationSnapshot]. *)
Record RunCostReservationSnapshot := {
  rs_OutstandingAmount : bytes; rs_RetainedAmount : bytes; rs_PeakExposureAmount : bytes;
  rs_BoundViolations : Z
}.

(** [RunCostSnapshot]. *)
Record RunCostSnapshot := {
  cs_Version : Z; cs_SegmentID : bytes; cs_PriceCard : RunPriceCard; cs_KnownEstimatedAmount :
  bytes; cs_ActualBilledAmount : option bytes; cs_PricedCalls : Z; cs_UnpricedCalls : Z;
  cs_Complete : bool; cs_LimitMode : bytes; cs_Reservation : option RunCostReservationSnapshot
}.

(** [RunUsageCheckpointStatus]. *)
Record RunUsageCheckpointStatus := {
  st_Version : Z; st_Sequence : Z; st_Failed : bool
}.

(** [RunUsageSnapshot]. *)
Record RunUsageSnapshot := {
  s_totals : RunUsageTotals; s_Limits : RunUsageLimits; s_DeniedCalls : Z; s_UntrackedCalls : Z;
  s_Complete : bool; s_StopReason : bytes; s_ElapsedMillis : Z; s_Routes : list RunUsageRoute;
  s_CallLedger : RunUsageLedger; s_Cost : option RunCostSnapshot; s_Checkpoint : option
  RunUsageCheckpointStatus; s_BudgetStopCause : bytes
}.
#[export] Instance eta_RunUsageSnapshot : Eta RunUsageSnapshot := fun x =>
  Build_RunUsageSnapshot
    (s_totals x) (s_Limits x) (s_DeniedCalls x) (s_UntrackedCalls x) (s_Complete x)
    (s_StopReason x) (s_ElapsedMillis x) (s_Routes x) (s_CallLedger x) (s_Cost x) (s_Checkpoint
    x) (s_BudgetStopCause x).

(** [runUsageCheckpointPayload]. *)
Record runUsageCheckpointPayload := {
  p_SegmentID : bytes; p_MetadataSHA256 : bytes; p_Sequence : Z; p_Phase : bytes;
  p_AdmissionClosed : bool; p_Snapshot : RunUsageSnapshot
}.

(** [runUsageCheckpointState]; the store is the list of the payloads it was given. *)
Record runUsageCheckpointState := {
  ck_store : option (list runUsageCheckpointPayload); ck_sequence : Z; ck_metadataSHA : bytes
}.
#[export] Instance eta_runUsageCheckpointState : Eta runUsageCheckpointState := fun x =>
  Build_runUsageCheckpointState
    (ck_store x) (ck_sequence x) (ck_metadataSHA x).

(** [RunUsage].  The channel [reservationChanged] is a number: the number of
    such channels closed before it was made, [closedChannels] counting them. *)
Record RunUsage := {
  r_limits : RunUsageLimits; r_started : Z; r_totals : RunUsageTotals; r_denied : Z; r_untracked
  : Z; r_stopReason : bytes; r_budgetCause : bytes; r_sealed : bool; r_routes : gmap
  runUsageRouteKey RunUsageTotals; r_segmentID : bytes; r_records : list RunUsageRecord;
  r_droppedRecords : Z; r_cost : option runCostState; r_checkpoint : option
  runUsageCheckpointState; r_checkpointErr : option goerr; r_reservationChanged : option nat;
  r_closedChannels : nat
}.
#[export] Instance eta_RunUsage : Eta RunUsage := fun x =>
  Build_RunUsage
    (r_limits x) (r_started x) (r_totals x) (r_denied x) (r_untracked x) (r_stopReason x)
    (r_budgetCause x) (r_sealed x) (r_routes x) (r_segmentID x) (r_records x) (r_droppedRecords
    x) (r_cost x) (r_checkpoint x) (r_checkpointErr x) (r_reservationChanged x)
    (r_closedChannels x).

(** [runUsageCall]. *)
Record runUsageCall := {
  c_route : runUsageRouteKey; c_id : bytes; c_started : Z; c_settled : bool; c_settlementErr :
  option goerr; c_recordIndex : Z; c_responseModelSeen : bool; c_responseModelConflict : bool;
  c_cacheWriteSeen : bool; c_cacheWriteConflict : bool; c_cacheWriteTokens : Z; c_cacheTTL :
  bytes; c_cacheTTLConflict : bool; c_priceIndex : Z; c_reservation : option RunCallReservation;
  c_reserved : option Z; c_request : bool
}.
#[export] Instance eta_runUsageCall : Eta runUsageCall := fun x =>
  Build_runUsageCall
    (c_route x) (c_id x) (c_started x) (c_settled x) (c_settlementErr x) (c_recordIndex x)
    (c_responseModelSeen x) (c_responseModelConflict x) (c_cacheWriteSeen x)
    (c_cacheWriteConflict x) (c_cacheWriteTokens x) (c_cacheTTL x) (c_cacheTTLConflict x)
    (c_priceIndex x) (c_reservation x) (c_reserved x) (c_request x).

(** The cost state is declared with the price cards. *)
#[export] Instance eta_runCostState : Eta runCostState := fun x =>
  Build_runCostState
    (card x) (prices x) (requestPrices x) (amount x) (limit x) (priced x) (unpriced x)
    (outstanding x) (retained x) (peak x) (boundViolations x).

(** ** Counters *)

Definition no_totals : RunUsageTotals := Build_RunUsageTotals 0 0 0 0 0 0 0 0 0 0 0 0 0.

Definition incr (x : Z) : Z := u64 (x + 1).
Definition decr (x : Z) : Z := u64 (x - 1).

(** [runUsageTokens]: the counters of one response; [None] for usage that is
    missing or inconsistent. *)
Definition runUsageTokens (usage : option TokenUsage) : option RunUsageTotals :=
  match usage with
  | None => None
  | Some u =>
      if (u_PromptTokens u <? 0) || (u_CompletionTokens u <? 0) || (u_TotalTokens u <? 0)
         || (u_CachedTokens u <? 0) || (u_CacheWriteTokens u <? 0) || (u_ReasoningTokens u <? 0)
         || (u_PromptTokens u <? u_CachedTokens u)
         || (i64 (u_PromptTokens u - u_CachedTokens u) <? u_CacheWriteTokens u)
         || (u_CompletionTokens u <? u_ReasoningTokens u) then None else
      let p := u64 (u_PromptTokens u) in
      let o := u64 (u_CompletionTokens u) in
      if MaxUint64 - p <? o then None else
      let wrote := 0 <? u_CacheWriteTokens u in
      Some {| t_ProviderCalls := 0; t_KnownCalls := 0; t_UnknownCalls := 0; t_InFlight := 0;
              t_ReleasedCalls := 0; t_PromptTokens := p; t_CompletionTokens := o;
              t_TotalTokens := Z.max (u64 (u_TotalTokens u)) (u64 (p + o));
              t_CachedPromptTokens := u64 (u_CachedTokens u);
              t_ReasoningTokens := u64 (u_ReasoningTokens u);
              t_CacheWritePromptTokens := if wrote then u64 (u_CacheWriteTokens u) else 0;
              t_CacheWriteReportedCalls := if wrote then 1 else 0;
              t_ProviderDurationMillis := 0 |}
  end.

Definition canAddRunTokens (a b : RunUsageTotals) : bool :=
  (t_PromptTokens b <=? MaxUint64 - t_PromptTokens a)
  && (t_CompletionTokens b <=? MaxUint64 - t_CompletionTokens a)
  && (t_TotalTokens b <=? MaxUint64 - t_TotalTokens a)
  && (t_CachedPromptTokens b <=? MaxUint64 - t_CachedPromptTokens a)
  && (t_ReasoningTokens b <=? MaxUint64 - t_ReasoningTokens a)
  && (t_CacheWritePromptTokens b <=? MaxUint64 - t_CacheWritePromptTokens a)
  && (t_CacheWriteReportedCalls b <=? MaxUint64 - t_CacheWriteReportedCalls a).

Definition addRunTokens (b a : RunUsageTotals) : RunUsageTotals :=
  {| t_ProviderCalls := t_ProviderCalls a; t_KnownCalls := incr (t_KnownCalls a);
     t_UnknownCalls := t_UnknownCalls a; t_InFlight := t_InFlight a;
     t_ReleasedCalls := t_ReleasedCalls a;
     t_PromptTokens := u64 (t_PromptTokens a + t_PromptTokens b);
     t_CompletionTokens := u64 (t_CompletionTokens a + t_CompletionTokens b);
     t_TotalTokens := u64 (t_TotalTokens a + t_TotalTokens b);
     t_CachedPromptTokens := u64 (t_CachedPromptTokens a + t_CachedPromptTokens b);
     t_ReasoningTokens := u64 (t_ReasoningTokens a + t_ReasoningTokens b);
     t_CacheWritePromptTokens := u64 (t_CacheWritePromptTokens a + t_CacheWritePromptTokens b);
     t_CacheWriteReportedCalls := u64 (t_CacheWriteReportedCalls a + t_CacheWriteReportedCalls b);
     t_ProviderDurationMillis := t_ProviderDurationMillis a |}.

(** An update of [r.totals] and of the totals of the call's route. *)
Definition both (f : RunUsageTotals -> RunUsageTotals) (k : runUsageRouteKey) (r : RunUsage)
    : RunUsage :=
  r <| r_totals ::= f |> <| r_routes ::= alter f k |>.

Definition route_totals (r : RunUsage) (k : runUsageRouteKey) : RunUsageTotals :=
  default no_totals (r_routes r !! k).

(** An update of the ledger row of a call, when it has one. *)
Definition on_record (f : RunUsageRecord -> RunUsageRecord) (c : runUsageCall) (r : RunUsage)
    : RunUsage :=
  if 0 <=? c_recordIndex c then r <| r_records ::= alter f (Z.to_nat (c_recordIndex c)) |> else r.

Definition runUsageErrorCode (e : goerr) : bytes :=
  if errors_Is e ErrRunUsageUnknown then lit "run_usage_unknown" else lit "run_budget_exceeded".

(** [time.Since(t).Milliseconds()] at the reading [now] of the clock. *)
Definition since_ms (now t : Z) : Z := Z.quot (now - t) 1000000.

Definition has_limit (r : RunUsage) : bool :=
  match r_cost r with Some c => match limit c with Some _ => true | None => false end | None => false end.

Definition failClosedOnAmbiguousUsageLocked (r : RunUsage) : bool :=
  match r_checkpoint r with Some _ => true | None => false end
  || (0 <? MaxTotalTokens (r_limits r)) || has_limit r.

Definition LimitsEnabled (r : RunUsage) : bool :=
  (0 <? MaxProviderCalls (r_limits r)) || (0 <? MaxTotalTokens (r_limits r)) || has_limit r.

Definition ProviderCostReservationPolicy (r : RunUsage) : bool * Z :=
  (ReserveCostBeforeDispatch (r_limits r), MaxOutputTokensPerCall (r_limits r)).

Definition per_request (c : runCostState) (i : Z) : bool :=
  match card_Routes (card c) !! Z.to_nat i with
  | Some rt => match rt_PerRequest rt with Some _ => true | None => false end
  | None => false
  end.

Definition RequestUsageAvailable (r : RunUsage) (d : ProviderUsageDescriptor) : bool :=
  match r_cost r with
  | None => negb (LimitsEnabled r)
  | Some c => let i := route c (d_Provider d) (d_Model d) in (0 <=? i) && per_request c i
  end.

Definition notifyReservationWaitersLocked (r : RunUsage) : RunUsage :=
  match r_reservationChanged r with
  | Some _ => r <| r_reservationChanged := None |> <| r_closedChannels ::= S |>
  | None => r
  end.

(** ** Creation *)

Inductive new_error :=
| NegativeLimits | BadCard (e : card_error) | BadMaxCost | NoCard | BadReservation | NoAPIModel.

Definition fresh_usage (limits : RunUsageLimits) (now : Z) (segment : bytes)
    (cost : option runCostState) : RunUsage :=
  {| r_limits := limits; r_started := now; r_totals := no_totals; r_denied := 0; r_untracked := 0;
     r_stopReason := []; r_budgetCause := []; r_sealed := false; r_routes := ∅;
     r_segmentID := segment; r_records := []; r_droppedRecords := 0; r_cost := cost;
     r_checkpoint := None; r_checkpointErr := None; r_reservationChanged := None;
     r_closedChannels := O |}.

(** The cost limit set on the compiled card. *)
Definition new_limit (limits : RunUsageLimits) (cost : option runCostState)
    : result new_error (option runCostState) :=
  if MaxEstimatedCost limits ==b [] then Ok cost else
  match costDecimal (MaxEstimatedCost limits) 12 with
  | None => Err BadMaxCost
  | Some l =>
      if 0 <? l then
        match cost with
        | None => Err NoCard
        | Some c => Ok (Some (c <| limit := Some l |>))
        end
      else Ok cost
  end.

Definition reservation_ok (limits : RunUsageLimits) (cost : option runCostState) : bool :=
  negb ((MaxOutputTokensPerCall limits <? 0)
        || (0 <? MaxOutputTokensPerCall limits) && negb (ReserveCostBeforeDispatch limits)
        || ReserveCostBeforeDispatch limits
           && (match cost with
               | None => true
               | Some c => (limit c ==b None) || (MaxOutputTokensPerCall limits <=? 0)
                           || (card_Window (card c) <>b lit "upper_bound")
               end)).

Definition newRunUsage `{CardSyntax} (limits : RunUsageLimits) (pc : option RunPriceCard)
    (now : Z) (segment : bytes) : result new_error RunUsage :=
  if (MaxProviderCalls limits <? 0) || (MaxTotalTokens limits <? 0) then Err NegativeLimits else
  match match pc with
        | None => Ok None
        | Some k => match compileRunPriceCard k with Ok c => Ok (Some c) | Err e => Err (BadCard e) end
        end with
  | Err e => Err e
  | Ok cost =>
      match new_limit limits cost with
      | Err e => Err e
      | Ok cost =>
          if negb (reservation_ok limits cost) then Err BadReservation else
          if ReserveCostBeforeDispatch limits
             && existsb (fun rt => rt_APIModel rt ==b [])
                        (match cost with Some c => card_Routes (card c) | None => [] end)
          then Err NoAPIModel
          else Ok (fresh_usage limits now segment cost)
      end
  end.

(** ** Snapshots *)

(** Go's [<] on strings: lexicographic on bytes. *)
Fixpoint bytes_ltb (a b : bytes) : bool :=
  match a, b with
  | _, [] => false
  | [], _ :: _ => true
  | x :: a, y :: b =>
      (byte_val x <? byte_val y)%N || (byte_val x =? byte_val y)%N && bytes_ltb a b
  end.

Definition routeLess (a b : RunUsageRoute) : bool :=
  if rr_Model a <>b rr_Model b then bytes_ltb (rr_Model a) (rr_Model b) else
  if rr_Source a <>b rr_Source b then bytes_ltb (rr_Source a) (rr_Source b) else
  if rr_Role a <>b rr_Role b then bytes_ltb (rr_Role a) (rr_Role b) else
  bytes_ltb (rr_Effort a) (rr_Effort b).

Definition route_not_after (a b : RunUsageRoute) : Prop := routeLess b a = false.

#[export] Instance route_not_after_dec : RelDecision route_not_after.
Proof. intros a b. unfold route_not_after. apply _. Defined.

Definition mk_route (kt : runUsageRouteKey * RunUsageTotals) : RunUsageRoute :=
  {| rr_Model := kt.1.1.1.1; rr_Source := kt.1.1.1.2; rr_Role := kt.1.1.2; rr_Effort := kt.1.2;
     rr_totals := kt.2 |}.

Definition limit_mode (r : RunUsage) (c : runCostState) : bytes :=
  if ReserveCostBeforeDispatch (r_limits r) then lit "pre_dispatch_reservation" else
  match limit c with Some _ => lit "post_response_threshold" | None => lit "disabled" end.

Definition costSnapshot (r : RunUsage) : option RunCostSnapshot :=
  c ← r_cost r;
  Some {| cs_Version := 1; cs_SegmentID := r_segmentID r; cs_PriceCard := card c;
          cs_KnownEstimatedAmount := costAmount (amount c); cs_ActualBilledAmount := None;
          cs_PricedCalls := priced c; cs_UnpricedCalls := unpriced c;
          cs_Complete := (unpriced c =? 0) && (t_InFlight (r_totals r) =? 0)
                         && (r_untracked r =? 0) && (boundViolations c =? 0);
          cs_LimitMode := limit_mode r c;
          cs_Reservation :=
            if ReserveCostBeforeDispatch (r_limits r) then
              Some {| rs_OutstandingAmount := costAmount (outstanding c);
                      rs_RetainedAmount := costAmount (retained c);
                      rs_PeakExposureAmount := costAmount (peak c);
                      rs_BoundViolations := boundViolations c |}
            else None |}.

Definition snapshotLocked (now : Z) (r : RunUsage) : RunUsageSnapshot :=
  {| s_totals := r_totals r; s_Limits := r_limits r;
     s_DeniedCalls := r_denied r; s_UntrackedCalls := r_untracked r;
     s_Complete := (r_untracked r =? 0) && (t_UnknownCalls (r_totals r) =? 0)
                   && (t_InFlight (r_totals r) =? 0);
     s_StopReason := r_stopReason r; s_ElapsedMillis := since_ms now (r_started r);
     s_Routes := merge_sort route_not_after (mk_route <$> map_to_list (r_routes r));
     s_CallLedger := {| lg_Version := 1; lg_SegmentID := r_segmentID r; lg_Records := r_records r;
                        lg_DroppedRecords := r_droppedRecords r |};
     s_Cost := costSnapshot r;
     s_Checkpoint :=
       ck ← r_checkpoint r;
       Some {| st_Version := 1; st_Sequence := ck_sequence ck;
               st_Failed := match r_checkpointErr r with Some _ => true | None => false end |};
     s_BudgetStopCause := r_budgetCause r |}.

(** ** Publishing checkpoints *)

(** What lies below [persistCheckpointLocked]: whether a payload is marshalled
    within [maxRunUsageCheckpointBytes] and its bytes are written. *)
Abbreviation writer := (runUsageCheckpointPayload -> bool).

(** [checkpointMetadataSHA]: the digest of the limits and of the price card;
    [None] when they cannot be marshalled. *)
Class MetadataDigest := {
  metadata_sha : RunUsageLimits -> option RunPriceCard -> option bytes
}.

Definition checkpointMetadataSHA `{MetadataDigest} (s : RunUsageSnapshot) : option bytes :=
  metadata_sha (s_Limits s) (cs_PriceCard <$> s_Cost s).

Definition checkpoint_failure : goerr :=
  Joined [Sentinel ErrRunUsageUnknown; Sentinel ErrRunUsageCheckpoint].

Definition failCheckpointLocked (r : RunUsage) : RunUsage * option goerr :=
  let e := default checkpoint_failure (r_checkpointErr r) in
  (r <| r_checkpointErr := Some e |>
     <| r_stopReason := lit "run_usage_unknown" |> <| r_budgetCause := [] |>, Some e).

Definition sanitize_route (x : RunUsageRoute) : RunUsageRoute :=
  {| rr_Model := runUsageModelLabel (rr_Model x); rr_Source := runUsageSource (rr_Source x);
     rr_Role := runUsageRole (rr_Role x); rr_Effort := runUsageEffort (rr_Effort x);
     rr_totals := rr_totals x |}.

Definition checkpoint_payload (phase : bytes) (now : Z) (ck : runUsageCheckpointState)
    (r : RunUsage) : runUsageCheckpointPayload :=
  {| p_SegmentID := r_segmentID r; p_MetadataSHA256 := ck_metadataSHA ck;
     p_Sequence := u64 (ck_sequence ck + 1); p_Phase := phase; p_AdmissionClosed := r_sealed r;
     p_Snapshot := (snapshotLocked now r) <| s_Checkpoint := None |>
                     <| s_Routes ::= map sanitize_route |> |}.

Definition persistCheckpointLocked (w : writer) (phase : bytes) (now : Z) (r : RunUsage)
    : RunUsage * option goerr :=
  match r_checkpoint r with
  | None => (r, None)
  | Some ck =>
      match r_checkpointErr r with
      | Some e => (r, Some e)
      | None =>
          let payload := checkpoint_payload phase now ck r in
          match ck_store ck with
          | Some written =>
              if (p_Sequence payload =? 0) || negb (w payload) then failCheckpointLocked r
              else (r <| r_checkpoint := Some (ck <| ck_store := Some (written ++ [payload]) |>
                                                 <| ck_sequence := p_Sequence payload |>) |>, None)
          | None => failCheckpointLocked r
          end
      end
  end.

(** [EnableCheckpointDir]; [opened] tells whether the private directory could
    be claimed ([newRunUsageCheckpointFileStore]). *)
Definition EnableCheckpointDir `{MetadataDigest} (w : writer) (opened : bool) (now : Z)
    (r : RunUsage) : RunUsage * option goerr :=
  let t := r_totals r in
  if match r_checkpoint r with Some _ => true | None => false end || r_sealed r
     || negb (t_ProviderCalls t =? 0) || negb (t_ReleasedCalls t =? 0)
     || negb (r_denied r =? 0) || negb (r_untracked r =? 0) then
    failCheckpointLocked
      (match r_checkpoint r with
       | None => r <| r_checkpoint := Some (Build_runUsageCheckpointState None 0 []) |>
       | Some _ => r
       end)
  else
    let sha := checkpointMetadataSHA (snapshotLocked now r) in
    let ck := Build_runUsageCheckpointState None 0 (default [] sha) in
    let r := r <| r_checkpoint := Some ck |> in
    match sha with
    | None => failCheckpointLocked r
    | Some _ =>
        if negb opened then failCheckpointLocked r else
        persistCheckpointLocked w (lit "initial") now
          (r <| r_checkpoint := Some (ck <| ck_store := Some [] |>) |>)
    end.

(** ** Costs *)

(** [reserveAmount], on the cost state and its limit; [None] when the exposure
    would exceed the limit. *)
Definition reserveAmount (c : runCostState) (lim : Z) (a : Z) : option runCostState :=
  let exposure := amount c + outstanding c + retained c + a in
  if lim <? exposure then None
  else Some (c <| outstanding ::= fun x => x + a |>
               <| peak ::= fun p => if p <? exposure then exposure else p |>).

(** What a reservation attempt gives: nothing to reserve, refused for want of
    usable bounds, refused for want of headroom (with the amount), granted. *)
Inductive reserve_result :=
| ReserveNone
| ReserveUnknown
| ReserveDenied (reserved : Z)
| Reserved (reservation : RunCallReservation) (reserved : Z) (c : runCostState).

(** The upper bound of a token call: the dearer input rate for all the input. *)
Definition bound_amount (p : Z * Z * Z) (input output : Z) : Z :=
  input * (if p.1.2 <? p.1.1 then p.1.1 else p.1.2) + output * p.2.

Definition reserve_with (c : runCostState) (a : Z) (rv : RunCallReservation) : reserve_result :=
  match limit c with
  | None => ReserveUnknown
  | Some lim =>
      match reserveAmount c lim a with
      | None => ReserveDenied a
      | Some c' => Reserved rv a c'
      end
  end.

Definition reserveCost (r : RunUsage) (d : ProviderUsageDescriptor) (index : Z) : reserve_result :=
  if negb (ReserveCostBeforeDispatch (r_limits r)) then ReserveNone else
  match r_cost r with
  | None => ReserveUnknown
  | Some c =>
      if d_Request d then
        match (if index <? 0 then None else card_Routes (card c) !! Z.to_nat index),
              requestPrices c !! Z.to_nat index, d_CostBound d with
        | Some rt, Some (Some fee), None =>
            reserve_with c fee
              {| rv_Provider := d_Provider d; rv_Model := rt_APIModel rt; rv_InputTokens := 0;
                 rv_OutputTokens := 0; rv_ReservedAmount := costAmount fee;
                 rv_RetainedAmount := costAmount 0; rv_Requests := 1 |}
        | _, _, _ => ReserveUnknown
        end
      else
        match d_CostBound d, (if index <? 0 then None else card_Routes (card c) !! Z.to_nat index),
              prices c !! Z.to_nat index with
        | Some b, Some rt, Some p =>
            if (b_Provider b <>b d_Provider d) || (b_Provider b <>b lit "agenticdeepseek")
               || (b_Model b <>b rt_APIModel rt) || (runUsageModelLabel (b_Model b) ==b unknown)
               || (b_InputTokens b =? 0) || (b_OutputTokens b =? 0)
               || (u64 (MaxOutputTokensPerCall (r_limits r)) <? b_OutputTokens b)
            then ReserveUnknown
            else
              let a := bound_amount p (b_InputTokens b) (b_OutputTokens b) in
              reserve_with c a
                {| rv_Provider := b_Provider b; rv_Model := b_Model b;
                   rv_InputTokens := b_InputTokens b; rv_OutputTokens := b_OutputTokens b;
                   rv_ReservedAmount := costAmount a; rv_RetainedAmount := costAmount 0;
                   rv_Requests := 0 |}
        | _, _, _ => ReserveUnknown
        end
  end.

(** The estimate of a settled call at the rates of its route. *)
Definition call_amount (p : Z * Z * Z) (fee : option Z) (values : RunUsageTotals) (requests : Z) : Z :=
  t_CachedPromptTokens values * p.1.1
  + u64 (t_PromptTokens values - t_CachedPromptTokens values) * p.1.2
  + t_CompletionTokens values * p.2
  + requests * default 0 fee.

Definition bound_violated (values : RunUsageTotals) (rv : option RunCallReservation) : bool :=
  match rv with
  | Some rv => (rv_InputTokens rv <? t_PromptTokens values)
               || (rv_OutputTokens rv <? t_CompletionTokens values)
  | None => false
  end.

(** The effect of [settleCost] on the cost state, the cost row of the ledger,
    and whether the usage exceeded the reserved bound. *)
Definition settle_cost_state (values : RunUsageTotals) (known release : bool) (requests : Z)
    (c : runUsageCall) (k : runCostState) : runCostState * RunCallCost * bool :=
  let k := match c_reservation c with
           | Some _ => k <| outstanding ::= fun x => x - default 0 (c_reserved c) |>
           | None => k
           end in
  let violation := known && bound_violated values (c_reservation c) in
  let k := if violation then k <| boundViolations ::= incr |> else k in
  let result st est rv :=
    {| cc_State := st; cc_PriceIndex := c_priceIndex c; cc_EstimatedAmount := est;
       cc_Reservation := rv |} in
  if release then (k, result (lit "released") None (c_reservation c), violation) else
  if known && negb violation && (0 <=? c_priceIndex c) then
    let a := call_amount (default (0, 0, 0) (prices k !! Z.to_nat (c_priceIndex c)))
               (default None (requestPrices k !! Z.to_nat (c_priceIndex c))) values requests in
    (k <| amount ::= fun x => x + a |> <| priced ::= incr |>,
     result (lit "priced") (Some (costAmount a)) (c_reservation c), violation)
  else
    let k := k <| unpriced ::= incr |> in
    match c_reservation c with
    | Some rv =>
        (k <| retained ::= fun x => x + default 0 (c_reserved c) |>,
         result (lit "unpriced") None (Some (rv <| rv_RetainedAmount := rv_ReservedAmount rv |>)),
         violation)
    | None => (k, result (lit "unpriced") None None, violation)
    end.

Definition settleCost (values : RunUsageTotals) (known release : bool) (requests : Z)
    (c : runUsageCall) (r : RunUsage) : RunUsage * option goerr :=
  match r_cost r with
  | None => (r, None)
  | Some k =>
      let '(k, cost, violation) := settle_cost_state values known release requests c k in
      (on_record (fun rec => rec <| rec_Cost := Some cost |>) c (r <| r_cost := Some k |>),
       if violation then Some (Sentinel ErrRunUsageUnknown) else None)
  end.

(** ** Settling a call *)

(** The usage of a response, if it is valid: consistent with itself, with the
    kind of the call, with the cache receipts observed, and addable. *)
Definition valid_values (c : runUsageCall) (r : RunUsage) (usage : option TokenUsage)
    (billable : option bool) : option RunUsageTotals :=
  match usage, runUsageTokens usage with
  | Some u, Some values =>
      if c_request c <>b match billable with Some _ => true | None => false end then None else
      let checked :=
        if c_cacheWriteSeen c then
          if negb (c_cacheWriteConflict c) && (c_cacheWriteTokens c =? u_CacheWriteTokens u)
          then Some (values <| t_CacheWriteReportedCalls := 1 |>) else None
        else Some values in
      match checked with
      | Some values =>
          if canAddRunTokens (r_totals r) values && canAddRunTokens (route_totals r (c_route c)) values
          then Some values else None
      | None => None
      end
  | _, _ => None
  end.

(** The token row of a known call. *)
Definition call_tokens (values : RunUsageTotals) : RunUsageCallTokens :=
  {| ct_PromptTokens := t_PromptTokens values; ct_CompletionTokens := t_CompletionTokens values;
     ct_TotalTokens := t_TotalTokens values; ct_CachedPromptTokens := t_CachedPromptTokens values;
     ct_UncachedPromptTokens := u64 (t_PromptTokens values - t_CachedPromptTokens values);
     ct_ReasoningTokens := t_ReasoningTokens values;
     ct_CacheWritePromptTokens :=
       if 0 <? t_CacheWriteReportedCalls values then Some (t_CacheWritePromptTokens values) else None |}.

Definition record_known (c : runUsageCall) (values : RunUsageTotals) (requests : Z)
    (rec : RunUsageRecord) : RunUsageRecord :=
  let rec := rec <| rec_State := lit "known" |> <| rec_Tokens := Some (call_tokens values) |> in
  let rec := if c_request c then rec <| rec_Requests := Some requests |> else rec in
  if (0 <? t_CacheWriteReportedCalls values) && c_cacheWriteSeen c && negb (c_cacheTTLConflict c)
  then rec <| rec_CacheTTL := c_cacheTTL c |> else rec.

Definition set_stop (code cause : bytes) (r : RunUsage) : RunUsage :=
  r <| r_stopReason := code |> <| r_budgetCause := cause |>.

Definition settle_release (c : runUsageCall) (r : RunUsage) : RunUsage :=
  let r := (settleCost no_totals false true 0 c r).1 in
  let r := on_record (fun rec => rec <| rec_State := lit "released" |>) c r in
  both (fun t => t <| t_ProviderCalls ::= decr |> <| t_ReleasedCalls ::= incr |>) (c_route c) r.

Definition settle_unknown (c : runUsageCall) (r : RunUsage) : RunUsage * option goerr :=
  let r := (settleCost no_totals false false 0 c r).1 in
  let r := on_record (fun rec => rec <| rec_State := lit "unknown" |>) c r in
  let r := both (fun t => t <| t_UnknownCalls ::= incr |>) (c_route c) r in
  if failClosedOnAmbiguousUsageLocked r then
    (set_stop (lit "run_usage_unknown") [] r, Some (Sentinel ErrRunUsageUnknown))
  else (r, None).

Definition settle_known (c : runUsageCall) (values : RunUsageTotals) (billable : option bool)
    (r : RunUsage) : RunUsage * option goerr :=
  let requests := match billable with Some true => 1 | _ => 0 end in
  let r := on_record (record_known c values requests) c r in
  let r := both (addRunTokens values) (c_route c) r in
  let '(r, e) := settleCost values true false requests c r in
  match e with
  | Some e => (set_stop (runUsageErrorCode e) [] r, Some e)
  | None => (r, None)
  end.

(** [settleRequestLocked] at the reading [now] of the clock. *)
Definition settleRequestLocked (now : Z) (usage : option TokenUsage) (release : bool)
    (billable : option bool) (c : runUsageCall) (r : RunUsage)
    : RunUsage * runUsageCall * option goerr :=
  if c_settled c then (r, c, c_settlementErr c) else
  let c := c <| c_settled := true |> in
  let r := both (fun t => t <| t_InFlight ::= decr |>) (c_route c) r in
  if release then (notifyReservationWaitersLocked (settle_release c r), c, None) else
  let duration := u64 (since_ms now (c_started c)) in
  let r := on_record (fun rec => rec <| rec_ProviderDurationMillis := duration |>) c r in
  let r := both (fun t => t <| t_ProviderDurationMillis ::= fun x => u64 (x + duration) |>)
             (c_route c) r in
  let '(r, e) :=
    match valid_values c r usage billable with
    | None => settle_unknown c r
    | Some values => settle_known c values billable r
    end in
  (notifyReservationWaitersLocked r, c <| c_settlementErr := e |>, e).

Definition settleRequest (w : writer) (t1 t2 : Z) (usage : option TokenUsage) (release : bool)
    (billable : option bool) (c : runUsageCall) (r : RunUsage)
    : RunUsage * runUsageCall * option goerr :=
  if c_settled c then (r, c, c_settlementErr c) else
  let '(r, c, err) := settleRequestLocked t1 usage release billable c r in
  let '(r, perr) := persistCheckpointLocked w (lit "settled") t2 r in
  let c := match perr with
           | Some e => c <| c_settlementErr := errors_Join [err; Some e] |>
           | None => c
           end in
  (r, c, c_settlementErr c).

Definition no_usage : TokenUsage := Build_TokenUsage 0 0 0 0 0 0.

Definition CompleteProviderUsage w t1 t2 (u : option TokenUsage) :=
  settleRequest w t1 t2 u false None.
Definition MarkProviderUsageAmbiguous w t1 t2 := settleRequest w t1 t2 None false None.
Definition ReleaseProviderUsageBeforeDispatch w t1 t2 := settleRequest w t1 t2 None true None.
Definition CompleteRequestUsage w t1 t2 (billable : bool) :=
  settleRequest w t1 t2 (Some no_usage) false (Some billable).

(** ** Observations of an unsettled call *)

Definition resolved_model (r : RunUsage) (c : runUsageCall) : bytes :=
  default [] (rec_ResolvedModel <$> r_records r !! Z.to_nat (c_recordIndex c)).

Definition ObserveProviderResponseModel (model : bytes) (c : runUsageCall) (r : RunUsage)
    : RunUsage * runUsageCall :=
  if c_settled c || (c_recordIndex c <? 0) || (model ==b []) then (r, c) else
  let label := runUsageModelLabel model in
  let c := if c_responseModelSeen c && (resolved_model r c <>b label)
           then c <| c_responseModelConflict := true |> else c in
  let c := c <| c_responseModelSeen := true |> in
  let label := if c_responseModelConflict c then unknown else label in
  (on_record (fun rec => rec <| rec_ResolvedModel := label |>) c r, c).

Definition ObserveProviderCacheWrite (tokens : Z) (ttl : bytes) (c : runUsageCall)
    : runUsageCall :=
  if c_settled c || c_request c then c else
  let c := if (tokens <? 0) || c_cacheWriteSeen c && negb (c_cacheWriteTokens c =? tokens)
           then c <| c_cacheWriteConflict := true |> else c in
  let c := c <| c_cacheWriteSeen := true |> <| c_cacheWriteTokens := tokens |> in
  if (ttl <>b lit "5m") && (ttl <>b lit "1h") then c else
  let c := if (c_cacheTTL c <>b []) && (c_cacheTTL c <>b ttl)
           then c <| c_cacheTTLConflict := true |> else c in
  c <| c_cacheTTL := ttl |>.

Definition ObserveProviderDiagnostics (dg : Diagnostics) (c : runUsageCall) (r : RunUsage)
    : RunUsage :=
  if c_settled c || (c_recordIndex c <? 0) then r
  else on_record (fun rec => rec <| rec_Diagnostics := Some dg |>) c r.

(** ** Admission *)

Definition MaxRunUsageRecords : nat := 1024.

Definition call_record `{UUIDLib} (d : ProviderUsageDescriptor) (c : runUsageCall) (r : RunUsage)
    : RunUsageRecord :=
  {| rec_Ordinal := u64 (t_ProviderCalls (r_totals r) + t_ReleasedCalls (r_totals r));
     rec_CallID := c_id c;
     rec_LogicalRoundID := runUsageUUID (d_LogicalRoundID d);
     rec_LogicalRequestID := runUsageUUID (d_LogicalRequestID d);
     rec_ModelAttemptID := runUsageUUID (d_ModelAttemptID d);
     rec_AttemptIndex := Z.max 0 (d_ModelAttemptIndex d);
     rec_RetryIndex := Z.max 0 (d_ModelRetryIndex d);
     rec_Provider := runUsageProvider (d_Provider d);
     rec_RequestedModel := runUsageModelLabel (d_Model d); rec_ResolvedModel := unknown;
     rec_Source := runUsageSource (d_QuerySource d); rec_Role := runUsageRole (d_ModelRole d);
     rec_Effort := runUsageEffort (d_ReasoningEffort d); rec_State := lit "in_flight";
     rec_StartedOffsetMillis := since_ms (c_started c) (r_started r);
     rec_ProviderDurationMillis := 0; rec_Tokens := None;
     rec_Cost := _ ← r_cost r;
                 Some {| cc_State := lit "in_flight"; cc_PriceIndex := c_priceIndex c;
                         cc_EstimatedAmount := None; cc_Reservation := c_reservation c |};
     rec_Requests := None; rec_CacheTTL := []; rec_Diagnostics := None |}.

Definition appendCallRecord `{UUIDLib} (d : ProviderUsageDescriptor) (c : runUsageCall)
    (r : RunUsage) : RunUsage * runUsageCall :=
  if (length (r_records r) =? MaxRunUsageRecords)%nat
  then (r <| r_droppedRecords ::= incr |>, c <| c_recordIndex := -1 |>)
  else (r <| r_records ::= fun l => l ++ [call_record d c r] |>,
        c <| c_recordIndex := Z.of_nat (length (r_records r)) |>).

(** The [switch] of the admission loop: the reason to refuse the call and the
    budget that is to blame, empty when usage is unknown. *)
Definition admission_denial (r : RunUsage) (d : ProviderUsageDescriptor) (priceIndex : Z)
    : option (sentinel * bytes) :=
  let t := r_totals r in
  let l := r_limits r in
  if match r_checkpoint r with Some _ => true | None => false end
     && ((r_stopReason r ==b lit "run_usage_unknown") || (0 <? r_untracked r)
         || (MaxRunUsageRecords <=? length (r_records r))%nat)
  then Some (ErrRunUsageUnknown, []) else
  if match r_cost r with
     | Some c => (0 <=? priceIndex) && (d_Request d <>b per_request c priceIndex)
     | None => false
     end
  then Some (ErrRunUsageUnknown, []) else
  if match r_cost r with
     | Some c => (limit c <>b None) && ((0 <? unpriced c) || (0 <? r_untracked r) || (priceIndex <? 0))
     | None => false
     end
  then Some (ErrRunUsageUnknown, []) else
  if match r_cost r with
     | Some c => match limit c with
                 | Some lim => negb (ReserveCostBeforeDispatch l) && (lim <=? amount c)
                 | None => false
                 end
     | None => false
     end
  then Some (ErrRunBudgetExceeded, lit "estimated_cost_threshold") else
  if (0 <? MaxTotalTokens l) && (0 <? t_UnknownCalls t) then Some (ErrRunUsageUnknown, []) else
  if (0 <? MaxProviderCalls l) && (u64 (MaxProviderCalls l) <=? t_ProviderCalls t)
  then Some (ErrRunBudgetExceeded, lit "provider_calls") else
  if (0 <? MaxTotalTokens l) && (u64 (MaxTotalTokens l) <=? t_TotalTokens t)
  then Some (ErrRunBudgetExceeded, lit "total_tokens") else None.

(** Whether a refused reservation may fit once active ones are settled. *)
Definition may_fit_later (r : RunUsage) (reserved : Z) : bool :=
  match r_cost r with
  | Some c => match limit c with
              | Some lim => (0 <? outstanding c) && (amount c + retained c + reserved <=? lim)
              | None => false
              end
  | None => false
  end.

Inductive admit_result :=
| AdmitError (e : goerr)
| AdmitWait (channel : nat)
| CallAdmitted (c : runUsageCall).

Definition deny (w : writer) (t2 : Z) (cause : sentinel) (budget : bytes) (r : RunUsage)
    : RunUsage * option runUsageCall * admit_result :=
  let r := r <| r_denied ::= incr |> in
  let r := set_stop (runUsageErrorCode (Sentinel cause)) budget r in
  let '(r, perr) := persistCheckpointLocked w (lit "denied") t2 r in
  (r, None, AdmitError (ProviderUsageTerminalError (Some (default (Sentinel cause) perr)))).

Definition wait_channel (r : RunUsage) : RunUsage * nat :=
  match r_reservationChanged r with
  | Some ch => (r, ch)
  | None => (r <| r_reservationChanged := Some (r_closedChannels r) |>, r_closedChannels r)
  end.

(** The key under which a call is counted: beyond 128 routes, a common one. *)
Definition route_key (r : RunUsage) (d : ProviderUsageDescriptor) : runUsageRouteKey :=
  let key := (d_Model d, d_QuerySource d, d_ModelRole d, d_ReasoningEffort d) in
  if bool_decide (r_routes r !! key = None) && (128 <=? size (r_routes r))%nat
  then ([], other, [], []) else key.

(** The part after the loop: the call is counted, recorded and published; when
    it cannot be published it is settled as released and not returned. *)
Definition admit_call `{UUIDLib} (w : writer) (id : bytes) (t1 t2 : Z) (d : ProviderUsageDescriptor)
    (priceIndex : Z) (reservation : option RunCallReservation) (reserved : option Z) (r : RunUsage)
    : RunUsage * option runUsageCall * admit_result :=
  let key := route_key r d in
  let r := match r_routes r !! key with
           | None => r <| r_routes ::= <[key := no_totals]> |>
           | Some _ => r
           end in
  let r := both (fun t => t <| t_ProviderCalls ::= incr |> <| t_InFlight ::= incr |>) key r in
  let c := {| c_route := key; c_id := id; c_started := t1; c_settled := false;
              c_settlementErr := None; c_recordIndex := 0; c_responseModelSeen := false;
              c_responseModelConflict := false; c_cacheWriteSeen := false;
              c_cacheWriteConflict := false; c_cacheWriteTokens := 0; c_cacheTTL := [];
              c_cacheTTLConflict := false; c_priceIndex := priceIndex;
              c_reservation := reservation; c_reserved := reserved; c_request := d_Request d |} in
  let '(r, c) := appendCallRecord d c r in
  let '(r, perr) := persistCheckpointLocked w (lit "admitted") t2 r in
  match perr with
  | Some e =>
      let '(r, c, _) := settleRequestLocked t2 None true None c r in
      (r <| r_denied ::= incr |>, Some c, AdmitError (ProviderUsageTerminalError (Some e)))
  | None => (r, Some c, CallAdmitted c)
  end.

(** One round of [AdmitProviderUsage]; [ctxErr] is the context's error.  The
    second component is the call object made, also when it is not returned. *)
Definition AdmitProviderUsage `{UUIDLib} (w : writer) (id : bytes) (t1 t2 : Z)
    (ctxErr : option goerr) (d : ProviderUsageDescriptor) (r : RunUsage)
    : RunUsage * option runUsageCall * admit_result :=
  match ctxErr with
  | Some e => (r, None, AdmitError e)
  | None =>
  match r_checkpointErr r with
  | Some e => (r, None, AdmitError (ProviderUsageTerminalError (Some e)))
  | None =>
  if r_sealed r
  then (r, None, AdmitError (ProviderUsageTerminalError (Some (Sentinel ContextCanceled)))) else
  let priceIndex :=
    match r_cost r with Some c => route c (d_Provider d) (d_Model d) | None => -1 end in
  match admission_denial r d priceIndex with
  | Some (cause, budget) => deny w t2 cause budget r
  | None =>
      match reserveCost r d priceIndex with
      | ReserveNone => admit_call w id t1 t2 d priceIndex None None r
      | ReserveUnknown => deny w t2 ErrRunUsageUnknown [] r
      | ReserveDenied reserved =>
          if may_fit_later r reserved then
            let '(r, ch) := wait_channel r in (r, None, AdmitWait ch)
          else deny w t2 ErrRunBudgetExceeded (lit "estimated_cost_reservation") r
      | Reserved reservation reserved c =>
          admit_call w id t1 t2 d priceIndex (Some reservation) (Some reserved) (r <| r_cost := Some c |>)
      end
  end
  end
  end.

(** ** The end of a run *)

Definition RecordUntrackedCall (w : writer) (now : Z) (r : RunUsage) : RunUsage :=
  (persistCheckpointLocked w (lit "untracked") now
     (notifyReservationWaitersLocked (r <| r_untracked ::= incr |>))).1.

Definition Seal (w : writer) (now : Z) (r : RunUsage) : RunUsage :=
  if r_sealed r then r else
  (persistCheckpointLocked w (lit "sealed") now
     (notifyReservationWaitersLocked (r <| r_sealed := true |>))).1.

(** [Close]; [closed] tells whether the store's handles could be closed. *)
Definition Close (w : writer) (closed : bool) (now : Z) (r : RunUsage) : RunUsage * option goerr :=
  let r := Seal w now r in
  let r := match r_checkpoint r with
           | Some ck => match ck_store ck with
                        | Some _ => if closed then r else (failCheckpointLocked r).1
                        | None => r
                        end
           | None => r
           end in
  (r, r_checkpointErr r).
