(* ===== verification/RunUsageFacts.v ===== *)
(** * The specification of the usage collector

    The specification of [RunUsage] is a book: one entry per call that was
    ever admitted, with its route, what became of it and what was charged for
    it.  This file has the books, their sums and the lemmas on what the
    operations do to the collector; [RunBooks] and [RunProperties] show that
    every reachable collector is the summary of a book. *)

From S2P Require Import Prelude GoStrings GoBase Paths RunCost RunUsage.

Open Scope Z_scope.

(** ** Sums of counters *)

Definition tmap2 (f : Z -> Z -> Z) (a b : RunUsageTotals) : RunUsageTotals :=
  {| t_ProviderCalls := f (t_ProviderCalls a) (t_ProviderCalls b);
     t_KnownCalls := f (t_KnownCalls a) (t_KnownCalls b);
     t_UnknownCalls := f (t_UnknownCalls a) (t_UnknownCalls b);
     t_InFlight := f (t_InFlight a) (t_InFlight b);
     t_ReleasedCalls := f (t_ReleasedCalls a) (t_ReleasedCalls b);
     t_PromptTokens := f (t_PromptTokens a) (t_PromptTokens b);
     t_CompletionTokens := f (t_CompletionTokens a) (t_CompletionTokens b);
     t_TotalTokens := f (t_TotalTokens a) (t_TotalTokens b);
     t_CachedPromptTokens := f (t_CachedPromptTokens a) (t_CachedPromptTokens b);
     t_ReasoningTokens := f (t_ReasoningTokens a) (t_ReasoningTokens b);
     t_CacheWritePromptTokens := f (t_CacheWritePromptTokens a) (t_CacheWritePromptTokens b);
     t_CacheWriteReportedCalls := f (t_CacheWriteReportedCalls a) (t_CacheWriteReportedCalls b);
     t_ProviderDurationMillis := f (t_ProviderDurationMillis a) (t_ProviderDurationMillis b) |}.

Definition tadd := tmap2 Z.add.
Definition tsub := tmap2 Z.sub.
Definition tmod (a : RunUsageTotals) : RunUsageTotals := tmap2 (fun x _ => u64 x) a a.
Fixpoint tsum (l : list RunUsageTotals) : RunUsageTotals :=
  match l with [] => no_totals | a :: l => tadd a (tsum l) end.

(** A relation that holds of each pair of counters. *)
Definition trel (R : Z -> Z -> Prop) (a b : RunUsageTotals) : Prop :=
  R (t_ProviderCalls a) (t_ProviderCalls b) /\ R (t_KnownCalls a) (t_KnownCalls b) /\
  R (t_UnknownCalls a) (t_UnknownCalls b) /\ R (t_InFlight a) (t_InFlight b) /\
  R (t_ReleasedCalls a) (t_ReleasedCalls b) /\ R (t_PromptTokens a) (t_PromptTokens b) /\
  R (t_CompletionTokens a) (t_CompletionTokens b) /\ R (t_TotalTokens a) (t_TotalTokens b) /\
  R (t_CachedPromptTokens a) (t_CachedPromptTokens b) /\
  R (t_ReasoningTokens a) (t_ReasoningTokens b) /\
  R (t_CacheWritePromptTokens a) (t_CacheWritePromptTokens b) /\
  R (t_CacheWriteReportedCalls a) (t_CacheWriteReportedCalls b) /\
  R (t_ProviderDurationMillis a) (t_ProviderDurationMillis b).

Definition tnonneg (a : RunUsageTotals) : Prop := trel Z.le no_totals a.

Lemma totals_ext a b : trel eq a b -> a = b.
Proof. destruct a, b. unfold trel. cbn. by intuition subst. Qed.

Lemma u64_eq a b : a = b -> u64 a = u64 b.
Proof. by intros ->. Qed.

(** Equality of totals, counter by counter, in linear arithmetic. *)
Ltac totals_eq :=
  apply totals_ext; unfold trel, tadd, tsub, tmod, tmap2, no_totals; cbn -[u64];
  split_and!; try apply u64_eq; lia.

Lemma tadd_0_l a : tadd no_totals a = a.
Proof. destruct a. totals_eq. Qed.

Lemma tadd_0_r a : tadd a no_totals = a.
Proof. destruct a. totals_eq. Qed.

Lemma tadd_comm a b : tadd a b = tadd b a.
Proof. totals_eq. Qed.

Lemma tadd_assoc a b c : tadd a (tadd b c) = tadd (tadd a b) c.
Proof. totals_eq. Qed.

Lemma tadd_swap a b c : tadd a (tadd b c) = tadd b (tadd a c).
Proof. totals_eq. Qed.

Lemma tsum_app l m : tsum (l ++ m) = tadd (tsum l) (tsum m).
Proof.
  induction l as [|a l IH]; cbn; [by rewrite tadd_0_l|]. by rewrite IH, tadd_assoc.
Qed.

#[export] Instance tsum_perm : Proper ((≡ₚ) ==> (=)) tsum.
Proof.
  intros l m H. induction H; cbn; [done|by f_equal|apply tadd_swap|by etrans].
Qed.

Lemma tsum_insert l i a b :
  l !! i = Some a -> tsum (<[i := b]> l) = tadd (tsum l) (tsub b a).
Proof.
  revert i. induction l as [|x l IH]; intros [|i] Hi; try done; cbn in Hi |- *.
  - injection Hi as ->. totals_eq.
  - rewrite IH by done. totals_eq.
Qed.

Lemma tnonneg_add a b : tnonneg a -> tnonneg b -> tnonneg (tadd a b).
Proof. unfold tnonneg, trel, tadd, tmap2. cbn. lia. Qed.

Lemma tsum_nonneg l : Forall tnonneg l -> tnonneg (tsum l).
Proof. induction 1; cbn; [cbv; split_and!; congruence|by apply tnonneg_add]. Qed.

(** ** The book *)

Inductive outcome :=
| OInFlight
| OReleased
| OUnknown (duration : Z)
| OKnown (duration : Z) (values : RunUsageTotals).

(** What the settlement of a call did to the costs. *)
Inductive payment :=
| PNone
| PPriced (charged : Z)
| PUnpriced (violation : bool).

Record entry := {
  e_key : runUsageRouteKey; e_out : outcome; e_reserved : option Z; e_pay : payment
}.

Definition one_call : RunUsageTotals := no_totals <| t_ProviderCalls := 1 |>.

Definition only_tokens (v : RunUsageTotals) : RunUsageTotals :=
  {| t_ProviderCalls := 0; t_KnownCalls := 0; t_UnknownCalls := 0; t_InFlight := 0;
     t_ReleasedCalls := 0; t_PromptTokens := t_PromptTokens v;
     t_CompletionTokens := t_CompletionTokens v; t_TotalTokens := t_TotalTokens v;
     t_CachedPromptTokens := t_CachedPromptTokens v; t_ReasoningTokens := t_ReasoningTokens v;
     t_CacheWritePromptTokens := t_CacheWritePromptTokens v;
     t_CacheWriteReportedCalls := t_CacheWriteReportedCalls v; t_ProviderDurationMillis := 0 |}.

(** The contribution of an outcome to the totals. *)
Definition row (o : outcome) : RunUsageTotals :=
  match o with
  | OInFlight => one_call <| t_InFlight := 1 |>
  | OReleased => no_totals <| t_ReleasedCalls := 1 |>
  | OUnknown d => one_call <| t_UnknownCalls := 1 |> <| t_ProviderDurationMillis := d |>
  | OKnown d v => tadd (only_tokens v) (one_call <| t_KnownCalls := 1 |> <| t_ProviderDurationMillis := d |>)
  end.

Definition rows (es : list entry) : RunUsageTotals := tsum (row ∘ e_out <$> es).

Definition on_route (k : runUsageRouteKey) (es : list entry) : list entry :=
  filter (fun e => e_key e = k) es.

(** ** Settlement as one update *)

Definition settle_totals (o : outcome) (t : RunUsageTotals) : RunUsageTotals :=
  let t := t <| t_InFlight ::= decr |> in
  match o with
  | OInFlight => t
  | OReleased => t <| t_ProviderCalls ::= decr |> <| t_ReleasedCalls ::= incr |>
  | OUnknown d => t <| t_ProviderDurationMillis ::= fun x => u64 (x + d) |> <| t_UnknownCalls ::= incr |>
  | OKnown d v => addRunTokens v (t <| t_ProviderDurationMillis ::= fun x => u64 (x + d) |>)
  end.

Lemma incr_u64 a : incr (u64 a) = u64 (a + 1).
Proof. apply u64_add_l. Qed.

Lemma decr_u64 a : decr (u64 a) = u64 (a - 1).
Proof. apply Zminus_mod_idemp_l. Qed.

Lemma settle_totals_row o t :
  o <> OInFlight ->
  settle_totals o (tmod t) = tmod (tadd t (tsub (row o) (row OInFlight))).
Proof.
  intros Ho. apply totals_ext.
  destruct o as [| |d|d v]; [done|..]; unfold trel; cbn -[u64 incr decr];
    rewrite ?incr_u64, ?decr_u64, ?u64_add_l; split_and!; apply u64_eq; lia.
Qed.

Definition on_records (f : RunUsageRecord -> RunUsageRecord) (c : runUsageCall)
    (l : list RunUsageRecord) : list RunUsageRecord :=
  if 0 <=? c_recordIndex c then alter f (Z.to_nat (c_recordIndex c)) l else l.

Lemma on_record_eq f c r : on_record f c r = r <| r_records ::= on_records f c |>.
Proof. unfold on_record, on_records. by destruct (0 <=? _), r. Qed.

Lemma on_records_compose f g c l : on_records f c (on_records g c l) = on_records (f ∘ g) c l.
Proof.
  unfold on_records. destruct (0 <=? _); [|done]. apply list_alter_alter_eq.
Qed.

(** The ledger update of a settlement. *)
Definition cost_row (values : RunUsageTotals) (known release : bool) (requests : Z) (c : runUsageCall)
    (cost : option runCostState) (rec : RunUsageRecord) : RunUsageRecord :=
  match cost with
  | Some k => rec <| rec_Cost := Some (settle_cost_state values known release requests c k).1.2 |>
  | None => rec
  end.

Definition cost_after (values : RunUsageTotals) (known release : bool) (requests : Z)
    (c : runUsageCall) (cost : option runCostState) : option runCostState :=
  (fun k => (settle_cost_state values known release requests c k).1.1) <$> cost.

Definition cost_error (values : RunUsageTotals) (known release : bool) (requests : Z)
    (c : runUsageCall) (cost : option runCostState) : option goerr :=
  match cost with
  | Some k => if (settle_cost_state values known release requests c k).2
              then Some (Sentinel ErrRunUsageUnknown) else None
  | None => None
  end.

Lemma settleCost_eq values known release requests c r :
  settleCost values known release requests c r =
  (r <| r_cost ::= cost_after values known release requests c |>
     <| r_records ::= on_records (cost_row values known release requests c (r_cost r)) c |>,
   cost_error values known release requests c (r_cost r)).
Proof.
  unfold settleCost, cost_after, cost_row, cost_error. destruct (r_cost r) as [k|] eqn:E.
  - destruct (settle_cost_state _ _ _ _ _ _) as [[k' cost] v] eqn:Es. rewrite on_record_eq.
    destruct r; cbn in E; subst. unfold set. cbn. by rewrite Es.
  - f_equal. assert (forall l, on_records (fun rec => rec) c l = l) as Hid.
    { intros l. unfold on_records. destruct (0 <=? _); [|done]. by apply list_alter_id. }
    destruct r; cbn in *; subst. unfold set. cbn. by rewrite Hid.
Qed.

(** Collectors are equal when their fields are. *)
Lemma usage_ext a b :
  r_limits a = r_limits b -> r_started a = r_started b -> r_totals a = r_totals b ->
  r_denied a = r_denied b -> r_untracked a = r_untracked b -> r_stopReason a = r_stopReason
  b -> r_budgetCause a = r_budgetCause b -> r_sealed a = r_sealed b -> r_routes a = r_routes
  b -> r_segmentID a = r_segmentID b -> r_records a = r_records b -> r_droppedRecords a =
  r_droppedRecords b -> r_cost a = r_cost b -> r_checkpoint a = r_checkpoint b ->
  r_checkpointErr a = r_checkpointErr b -> r_reservationChanged a = r_reservationChanged b
  -> r_closedChannels a = r_closedChannels b -> a = b.
Proof. destruct a, b. cbn. by intros; subst. Qed.

(** The collector at the moment the usage of a response is checked. *)
Definition before_check (now : Z) (c : runUsageCall) (r : RunUsage) : RunUsage :=
  let d := u64 (since_ms now (c_started c)) in
  both (fun t => t <| t_ProviderDurationMillis ::= fun x => u64 (x + d) |>) (c_route c)
    (on_record (fun rec => rec <| rec_ProviderDurationMillis := d |>) c
       (both (fun t => t <| t_InFlight ::= decr |>) (c_route c) r)).

Definition settle_outcome (now : Z) (usage : option TokenUsage) (release : bool)
    (billable : option bool) (c : runUsageCall) (r : RunUsage) : outcome :=
  if release then OReleased else
  match valid_values c (before_check now c r) usage billable with
  | None => OUnknown (u64 (since_ms now (c_started c)))
  | Some v => OKnown (u64 (since_ms now (c_started c))) v
  end.

Definition requests_of (o : outcome) (billable : option bool) : Z :=
  match o, billable with OKnown _ _, Some true => 1 | _, _ => 0 end.

(** The arguments that [settleCost] is given for an outcome. *)
Definition values_of (o : outcome) : RunUsageTotals :=
  match o with OKnown _ v => v | _ => no_totals end.
Definition known_of (o : outcome) : bool := match o with OKnown _ _ => true | _ => false end.
Definition release_of (o : outcome) : bool := match o with OReleased => true | _ => false end.

Definition settle_record (o : outcome) (rq : Z) (c : runUsageCall) (cost : option runCostState)
    (rec : RunUsageRecord) : RunUsageRecord :=
  let paid := cost_row (values_of o) (known_of o) (release_of o) rq c cost in
  match o with
  | OInFlight => rec
  | OReleased => (paid rec) <| rec_State := lit "released" |>
  | OUnknown d => (paid (rec <| rec_ProviderDurationMillis := d |>)) <| rec_State := lit "unknown" |>
  | OKnown d v => paid (record_known c v rq (rec <| rec_ProviderDurationMillis := d |>))
  end.

Definition settle_error (o : outcome) (rq : Z) (c : runUsageCall) (r : RunUsage) : option goerr :=
  match o with
  | OUnknown _ =>
      if failClosedOnAmbiguousUsageLocked r then Some (Sentinel ErrRunUsageUnknown) else None
  | OKnown _ v => cost_error v true false rq c (r_cost r)
  | _ => None
  end.

(** The collector after a settlement with outcome [o]. *)
Definition settled (o : outcome) (rq : Z) (c : runUsageCall) (r : RunUsage) : RunUsage :=
  let r' := r <| r_totals ::= settle_totals o |>
              <| r_routes ::= alter (settle_totals o) (c_route c) |>
              <| r_cost ::= cost_after (values_of o) (known_of o) (release_of o) rq c |>
              <| r_records ::= on_records (settle_record o rq c (r_cost r)) c |> in
  match settle_error o rq c r with
  | Some _ => set_stop (lit "run_usage_unknown") [] r'
  | None => r'
  end.

Lemma cost_error_code values known release rq c cost e :
  cost_error values known release rq c cost = Some e -> runUsageErrorCode e = lit "run_usage_unknown".
Proof. unfold cost_error. repeat case_match; try done. by intros [= <-]. Qed.

Lemma settle_cost_limit v kn rel rq c k : limit (settle_cost_state v kn rel rq c k).1.1 = limit k.
Proof. unfold settle_cost_state. repeat case_match; done. Qed.

(** The policy on ambiguous usage depends on what a settlement leaves alone. *)
Lemma fail_closed_after v kn rel rq c r r' :
  r_checkpoint r' = r_checkpoint r -> r_limits r' = r_limits r ->
  r_cost r' = cost_after v kn rel rq c (r_cost r) ->
  failClosedOnAmbiguousUsageLocked r' = failClosedOnAmbiguousUsageLocked r.
Proof.
  intros H1 H2 H3. unfold failClosedOnAmbiguousUsageLocked, has_limit. rewrite H1, H2, H3.
  unfold cost_after. destruct (r_cost r) as [k|]; [|done]. cbn. by rewrite settle_cost_limit.
Qed.

Ltac usage_fields :=
  apply usage_ext; cbn -[alter u64 incr decr]; rewrite ?on_records_compose, ?alter_alter_eq; done.

Lemma settle_known_eq now c v billable r :
  let o := OKnown (u64 (since_ms now (c_started c))) v in
  let rq := requests_of o billable in
  settle_known c v billable (before_check now c r) = (settled o rq c r, settle_error o rq c r).
Proof.
  cbv zeta. unfold settle_known, before_check, settled. rewrite settleCost_eq, !on_record_eq.
  cbn [settle_error]. change (match billable with Some true => 1 | _ => 0 end)
    with (requests_of (OKnown (u64 (since_ms now (c_started c))) v) billable).
  set (rq := requests_of _ _). cbn [r_cost both set].
  destruct (cost_error v true false rq c (r_cost r)) as [e|] eqn:E.
  - apply cost_error_code in E as ->. f_equal. usage_fields.
  - f_equal. usage_fields.
Qed.

Lemma settle_unknown_eq now c r :
  let o := OUnknown (u64 (since_ms now (c_started c))) in
  settle_unknown c (before_check now c r) = (settled o 0 c r, settle_error o 0 c r).
Proof.
  cbv zeta. unfold settle_unknown, before_check, settled. rewrite settleCost_eq, !on_record_eq.
  cbn [settle_error fst]. erewrite fail_closed_after with (r := r); [|done..].
  destruct (failClosedOnAmbiguousUsageLocked r); f_equal; usage_fields.
Qed.

Lemma settle_release_eq c r :
  settle_release c (both (fun t => t <| t_InFlight ::= decr |>) (c_route c) r) = settled OReleased 0 c r.
Proof.
  unfold settle_release, settled. rewrite settleCost_eq, !on_record_eq. cbn [settle_error fst].
  usage_fields.
Qed.

(** A settlement is one update, given by its outcome. *)
Lemma settleRequestLocked_eq now usage release billable c r :
  c_settled c = false ->
  let c' := c <| c_settled := true |> in
  let o := settle_outcome now usage release billable c' r in
  let rq := requests_of o billable in
  settleRequestLocked now usage release billable c r =
  (notifyReservationWaitersLocked (settled o rq c' r),
   c' <| c_settlementErr := if release then c_settlementErr c else settle_error o rq c' r |>,
   settle_error o rq c' r).
Proof.
  intros Hc. unfold settleRequestLocked. rewrite Hc. cbv zeta.
  set (c' := c <| c_settled := true |>). unfold settle_outcome. destruct release.
  - by rewrite settle_release_eq; f_equal.
  - fold (before_check now c' r).
    destruct (valid_values c' (before_check now c' r) usage billable) as [v|].
    + by rewrite settle_known_eq.
    + rewrite settle_unknown_eq. by destruct billable.
Qed.
