(* ===== verification/RunBooks.v ===== *)
(** * Invariants of the usage collector

    The collector and the calls it admitted, as the state of a transition
    system whose steps are the critical sections of [RunUsage], and the
    invariants of its reachable states: the totals and every route are the
    sums of the book ([Balanced]), and so are the costs ([Costed]). *)

From S2P Require Import Prelude GoStrings GoBase Paths RunCost RunUsage RunUsageFacts.

Open Scope Z_scope.

(** ** Types of the inputs *)

(** The counters of a response are [int]s, the bounds of a request [uint64]s. *)
Definition usage_typed (u : TokenUsage) : Prop :=
  is_i64 (u_PromptTokens u) /\ is_i64 (u_CompletionTokens u) /\ is_i64 (u_TotalTokens u) /\
  is_i64 (u_CachedTokens u) /\ is_i64 (u_CacheWriteTokens u) /\ is_i64 (u_ReasoningTokens u).

Definition desc_typed (d : ProviderUsageDescriptor) : Prop :=
  forall b, d_CostBound d = Some b -> is_u64 (b_InputTokens b) /\ is_u64 (b_OutputTokens b).

(** ** Usage that is accepted *)

(** Cache reads and writes are disjoint parts of the input, reasoning is part
    of the output, the total covers both, and nothing exceeds its width. *)
Definition values_ok (v : RunUsageTotals) : Prop :=
  0 <= t_CachedPromptTokens v /\ 0 <= t_CacheWritePromptTokens v /\ 0 <= t_ReasoningTokens v /\
  t_CachedPromptTokens v + t_CacheWritePromptTokens v <= t_PromptTokens v /\
  t_ReasoningTokens v <= t_CompletionTokens v /\ 0 <= t_CompletionTokens v /\
  t_PromptTokens v + t_CompletionTokens v <= t_TotalTokens v <= MaxUint64 /\
  (t_CacheWriteReportedCalls v = 1 \/
   t_CacheWriteReportedCalls v = 0 /\ t_CacheWritePromptTokens v = 0).

Lemma runUsageTokens_ok u v :
  usage_typed u -> runUsageTokens (Some u) = Some v -> values_ok v.
Proof.
  unfold usage_typed, is_i64, runUsageTokens. intros (H1 & H2 & H3 & H4 & H5 & H6).
  destruct (_ || _) eqn:E; [done|]. rewrite !orb_false_iff, !Z.ltb_ge in E.
  destruct E as [[[[[[[[? ?] ?] ?] ?] ?] ?] Hw] ?].
  rewrite i64_id in Hw by (unfold is_i64, MaxInt64 in *; lia).
  assert (forall x, 0 <= x <= MaxInt64 -> u64 x = x) as Hu.
  { intros x Hx. apply u64_id. unfold is_u64, MaxUint64, MaxInt64 in *. lia. }
  rewrite (Hu (u_PromptTokens u)), (Hu (u_CompletionTokens u)), (Hu (u_TotalTokens u)),
    (Hu (u_CachedTokens u)), (Hu (u_CacheWriteTokens u)), (Hu (u_ReasoningTokens u)) by lia.
  destruct (_ <? _) eqn:E; [done|]. apply Z.ltb_ge in E.
  intros [= <-]. unfold values_ok. cbn -[u64 Z.max].
  rewrite u64_id by (unfold is_u64; lia).
  unfold MaxUint64, MaxInt64 in *.
  destruct (Z.ltb_spec 0 (u_CacheWriteTokens u)); lia.
Qed.

Lemma valid_values_ok c r usage billable v :
  (forall u, usage = Some u -> usage_typed u) ->
  valid_values c r usage billable = Some v ->
  values_ok v /\ canAddRunTokens (r_totals r) v = true /\
  canAddRunTokens (route_totals r (c_route c)) v = true.
Proof.
  intros Ht. unfold valid_values. destruct usage as [u|]; [|done].
  destruct (runUsageTokens (Some u)) as [v0|] eqn:Ev; [|done].
  apply runUsageTokens_ok in Ev; [|by apply Ht]. destruct (_ <>b _); [done|].
  assert (values_ok (v0 <| t_CacheWriteReportedCalls := 1 |>)).
  { unfold values_ok in *. cbn in *. lia. }
  destruct (c_cacheWriteSeen c).
  - destruct (_ && _); [|done]. destruct (_ && _) eqn:E; [|done].
    intros [= <-]. by apply andb_true_iff in E.
  - destruct (_ && _) eqn:E; [|done]. intros [= <-]. by apply andb_true_iff in E.
Qed.

(** The counters that [canAddRunTokens] guards fit in 64 bits. *)
Definition tokens_fit (t : RunUsageTotals) : Prop :=
  t_PromptTokens t <= MaxUint64 /\ t_CompletionTokens t <= MaxUint64 /\
  t_TotalTokens t <= MaxUint64 /\ t_CachedPromptTokens t <= MaxUint64 /\
  t_ReasoningTokens t <= MaxUint64 /\ t_CacheWritePromptTokens t <= MaxUint64 /\
  t_CacheWriteReportedCalls t <= MaxUint64.

Lemma canAdd_fit t t' v :
  tnonneg t -> tokens_fit t ->
  (forall f, f ∈ [t_PromptTokens; t_CompletionTokens; t_TotalTokens; t_CachedPromptTokens;
                  t_ReasoningTokens; t_CacheWritePromptTokens; t_CacheWriteReportedCalls] ->
     f t' = u64 (f t)) ->
  canAddRunTokens t' v = true -> tokens_fit (tadd t (only_tokens v)).
Proof.
  unfold tnonneg, trel, tokens_fit. cbn. intros Hn Hf Hu Hc.
  unfold canAddRunTokens in Hc. rewrite !andb_true_iff, !Z.leb_le in Hc.
  rewrite !Hu, !u64_id in Hc; try (unfold is_u64; lia); set_solver.
Qed.

(** ** Sums over the book *)

Fixpoint zsum (f : entry -> Z) (es : list entry) : Z :=
  match es with [] => 0 | e :: es => f e + zsum f es end.

Lemma zsum_app f es es' : zsum f (es ++ es') = zsum f es + zsum f es'.
Proof. induction es as [|e es IH]; cbn; [done|]. rewrite IH. lia. Qed.

Lemma zsum_insert f es i e e' :
  es !! i = Some e -> zsum f (<[i := e']> es) = zsum f es + (f e' - f e).
Proof.
  revert i. induction es as [|x es IH]; intros [|i] Hi; try done; cbn in Hi |- *.
  - injection Hi as ->. lia.
  - rewrite IH by done. lia.
Qed.

Lemma rows_cons e es : rows (e :: es) = tadd (row (e_out e)) (rows es).
Proof. done. Qed.

Lemma rows_app es es' : rows (es ++ es') = tadd (rows es) (rows es').
Proof. unfold rows. by rewrite fmap_app, tsum_app. Qed.

Lemma rows_insert es i e e' :
  es !! i = Some e -> rows (<[i := e']> es) = tadd (rows es) (tsub (row (e_out e')) (row (e_out e))).
Proof.
  intros Hi. unfold rows. rewrite list_fmap_insert. apply tsum_insert.
  by rewrite list_lookup_fmap, Hi.
Qed.

Lemma on_route_app k es es' : on_route k (es ++ es') = on_route k es ++ on_route k es'.
Proof. apply filter_app. Qed.

Lemma rows_route_insert k es i e e' :
  es !! i = Some e -> e_key e' = e_key e ->
  rows (on_route k (<[i := e']> es)) =
  if decide (e_key e = k) then tadd (rows (on_route k es)) (tsub (row (e_out e')) (row (e_out e)))
  else rows (on_route k es).
Proof.
  intros Hi Hk. revert i Hi. induction es as [|x es IH]; intros [|i] Hi; try done; cbn in Hi.
  - injection Hi as ->. change (<[0%nat := e']> (e :: es)) with (e' :: es).
    unfold on_route. rewrite !filter_cons, Hk. destruct (decide _); [|done]. rewrite !rows_cons. totals_eq.
  - change (<[S i := e']> (x :: es)) with (x :: <[i := e']> es). unfold on_route in *.
    rewrite !filter_cons. specialize (IH _ Hi).
    destruct (decide (e_key x = k)); rewrite ?rows_cons, IH; destruct (decide _); try done. totals_eq.
Qed.

(** ** The totals are sums *)

Definition outcome_ok (o : outcome) : Prop :=
  match o with
  | OInFlight | OReleased => True
  | OUnknown d => is_u64 d
  | OKnown d v => is_u64 d /\ values_ok v
  end.

Lemma row_nonneg o : outcome_ok o -> tnonneg (row o).
Proof.
  destruct o as [| |d|d v]; cbn [outcome_ok]; unfold is_u64, values_ok, tnonneg, trel; cbn; lia.
Qed.

Definition call_entry (c : runUsageCall) (e : entry) : Prop :=
  c_route c = e_key e /\ c_reserved c = e_reserved e /\
  (c_settled c = false <-> e_out e = OInFlight).

Record Balanced (t : RunUsageTotals) (m : gmap runUsageRouteKey RunUsageTotals)
    (calls : list runUsageCall) (es : list entry) : Prop := {
  bal_calls : Forall2 call_entry calls es;
  bal_total : t = tmod (rows es);
  bal_route k : default no_totals (m !! k) = tmod (rows (on_route k es));
  bal_known e : e ∈ es -> is_Some (m !! e_key e);
  bal_ok : Forall (fun e => outcome_ok (e_out e)) es;
  bal_fit : tokens_fit (rows es)
}.

Lemma rows_nonneg es : Forall (fun e => outcome_ok (e_out e)) es -> tnonneg (rows es).
Proof.
  intros H. apply tsum_nonneg, Forall_fmap. eapply Forall_impl; [exact H|].
  intros e He. by apply row_nonneg.
Qed.

Lemma balanced_empty : Balanced no_totals ∅ [] [].
Proof.
  split; [constructor|done| |set_solver|constructor|by vm_compute; split_and!].
  intros k. by rewrite lookup_empty.
Qed.

Lemma alter_is_Some {A} (f : A -> A) (k : runUsageRouteKey) (m : gmap runUsageRouteKey A) k' :
  is_Some (alter f k m !! k') <-> is_Some (m !! k').
Proof.
  destruct (decide (k = k')) as [<-|]; [|by rewrite lookup_alter_ne].
  rewrite lookup_alter_eq. apply fmap_is_Some.
Qed.

Definition entry_settled (e : entry) (o : outcome) (p : payment) : entry :=
  {| e_key := e_key e; e_out := o; e_reserved := e_reserved e; e_pay := p |}.

Lemma balanced_settle t m calls es i c e o c' p :
  Balanced t m calls es -> calls !! i = Some c -> es !! i = Some e ->
  c_settled c = false -> c_settled c' = true -> c_route c' = c_route c -> c_reserved c' = c_reserved c ->
  o <> OInFlight -> outcome_ok o -> tokens_fit (rows (<[i := entry_settled e o p]> es)) ->
  Balanced (settle_totals o t) (alter (settle_totals o) (c_route c) m)
    (<[i := c']> calls) (<[i := entry_settled e o p]> es).
Proof.
  intros [Hc Ht Hr Hk Ho Hf] Hi He Hs Hs' Hr' Hv' Hof Hok Hfit.
  destruct (Forall2_lookup_lr _ _ _ _ _ _ Hc Hi He) as (Ek & Ev & Eo).
  assert (e_out e = OInFlight) as Eof by tauto.
  split; [| | | | |done].
  - apply Forall2_insert; [done|]. split_and!; cbn; [congruence..|]. rewrite Hs'. naive_solver.
  - rewrite Ht, settle_totals_row by done. by rewrite (rows_insert _ _ _ _ He), Eof.
  - intros k. rewrite (rows_route_insert k _ _ _ _ He) by done. rewrite <- Ek.
    destruct (decide (c_route c = k)) as [<-|Hne].
    + rewrite lookup_alter_eq, Eof. cbn [entry_settled e_out].
      rewrite <- settle_totals_row, <- Hr by done.
      assert (is_Some (m !! c_route c)) as [x ->].
      { rewrite Ek. apply Hk. by eapply list_elem_of_lookup_2. }
      done.
    + by rewrite lookup_alter_ne.
  - intros x [j Hj]%list_elem_of_lookup. apply list_lookup_insert_Some in Hj.
    assert (is_Some (m !! e_key x)) as [y Hy].
    { destruct Hj as [(-> & <- & _)|[_ Hj]]; [apply (Hk e)|apply Hk]; by eapply list_elem_of_lookup_2. }
    apply alter_is_Some. eauto.
  - by apply Forall_insert.
Qed.

Definition admit_totals (t : RunUsageTotals) : RunUsageTotals :=
  t <| t_ProviderCalls ::= incr |> <| t_InFlight ::= incr |>.

Lemma admit_totals_row t : admit_totals (tmod t) = tmod (tadd t (row OInFlight)).
Proof.
  apply totals_ext. unfold trel. cbn -[u64 incr]. rewrite !incr_u64.
  split_and!; apply u64_eq; lia.
Qed.

Definition entry_admitted (c : runUsageCall) : entry :=
  {| e_key := c_route c; e_out := OInFlight; e_reserved := c_reserved c; e_pay := PNone |}.

(** The route map with an entry for the key. *)
Definition ensure (k : runUsageRouteKey) (m : gmap runUsageRouteKey RunUsageTotals) :=
  match m !! k with None => <[k := no_totals]> m | Some _ => m end.

Lemma ensure_lookup k m k' :
  default no_totals (ensure k m !! k') = default no_totals (m !! k').
Proof.
  unfold ensure. destruct (m !! k) eqn:E; [done|]. destruct (decide (k = k')) as [<-|].
  - by rewrite lookup_insert_eq, E.
  - by rewrite lookup_insert_ne.
Qed.

Lemma ensure_is_Some k m k' : is_Some (ensure k m !! k') <-> k = k' \/ is_Some (m !! k').
Proof.
  unfold ensure. destruct (m !! k) eqn:E.
  - split; [eauto|]. intros [<-|]; eauto.
  - rewrite lookup_insert_is_Some. destruct (decide (k = k')); naive_solver.
Qed.

Lemma balanced_admit t m calls es c :
  Balanced t m calls es -> c_settled c = false ->
  Balanced (admit_totals t) (alter admit_totals (c_route c) (ensure (c_route c) m))
    (calls ++ [c]) (es ++ [entry_admitted c]).
Proof.
  intros [Hc Ht Hr Hk Ho Hf] Hs. split.
  - apply Forall2_app; [done|]. repeat constructor; done.
  - by rewrite Ht, admit_totals_row, rows_app, rows_cons, tadd_0_r.
  - intros k. rewrite on_route_app, rows_app. unfold on_route at 2. rewrite filter_cons, filter_nil.
    cbn [e_key entry_admitted]. destruct (decide (c_route c = k)) as [<-|Hne].
    + rewrite lookup_alter_eq, rows_cons, tadd_0_r, <- admit_totals_row, <- Hr, <- ensure_lookup with (k := c_route c).
      assert (is_Some (ensure (c_route c) m !! c_route c)) as [x ->] by (apply ensure_is_Some; by left).
      done.
    + rewrite lookup_alter_ne, ensure_lookup by done. cbn [rows fmap]. rewrite Hr.
      unfold rows at 3. cbn. by rewrite tadd_0_r.
  - intros e [He|Hx%list_elem_of_singleton]%elem_of_app; subst; rewrite alter_is_Some, ensure_is_Some; auto.
  - apply Forall_app. split; [done|]. by repeat constructor.
  - rewrite rows_app. unfold tokens_fit in *. cbn. lia.
Qed.

(** ** The costs are sums *)

(** What a settlement charges. *)
Definition pay_of (o : outcome) (rq : Z) (c : runUsageCall) (cost : option runCostState) : payment :=
  match cost, o with
  | Some k, OKnown _ v =>
      if bound_violated v (c_reservation c) then PUnpriced true else
      if 0 <=? c_priceIndex c
      then PPriced (call_amount (default (0, 0, 0) (prices k !! Z.to_nat (c_priceIndex c)))
                      (default None (requestPrices k !! Z.to_nat (c_priceIndex c))) v rq)
      else PUnpriced false
  | Some _, OUnknown _ => PUnpriced false
  | _, _ => PNone
  end.

Definition charged (e : entry) : Z := match e_pay e with PPriced a => a | _ => 0 end.
Definition held (e : entry) : Z :=
  match e_out e with OInFlight => default 0 (e_reserved e) | _ => 0 end.
Definition kept (e : entry) : Z :=
  match e_pay e with PUnpriced _ => default 0 (e_reserved e) | _ => 0 end.
Definition is_priced (e : entry) : Z := match e_pay e with PPriced _ => 1 | _ => 0 end.
Definition is_unpriced (e : entry) : Z := match e_pay e with PUnpriced _ => 1 | _ => 0 end.
Definition is_violation (e : entry) : Z := match e_pay e with PUnpriced true => 1 | _ => 0 end.

(** The reservation of a call at the prices of its route. *)
Definition reserved_for (p : Z * Z * Z) (fee : option Z) (rv : RunCallReservation) (a : Z) : Prop :=
  rv_ReservedAmount rv = costAmount a /\ rv_RetainedAmount rv = costAmount 0 /\
  match fee with
  | Some f => a = f /\ rv_InputTokens rv = 0 /\ rv_OutputTokens rv = 0 /\ rv_Requests rv = 1
  | None => a = bound_amount p (rv_InputTokens rv) (rv_OutputTokens rv) /\
            0 < rv_InputTokens rv /\ 0 < rv_OutputTokens rv /\ rv_Requests rv = 0 /\
            rv_Provider rv = lit "agenticdeepseek"
  end.

(** A call's price index is that of a compiled route of the right kind, and
    its reservation, if it has one, is the bound at the prices of that route. *)
Definition call_priced (k : runCostState) (c : runUsageCall) : Prop :=
  (c_priceIndex c = -1 /\ c_reservation c = None /\ c_reserved c = None) \/
  exists n rt p fee,
    c_priceIndex c = Z.of_nat n /\ card_Routes (card k) !! n = Some rt /\
    prices k !! n = Some p /\ requestPrices k !! n = Some fee /\ priced_route rt p fee /\
    c_request c = match fee with Some _ => true | None => false end /\
    match c_reservation c, c_reserved c with
    | Some rv, Some a => reserved_for p fee rv a /\ rv_Model rv = rt_APIModel rt /\ rv_Provider rv = rt_Provider rt
    | None, None => True
    | _, _ => False
    end.

Record Costed (k : runCostState) (calls : list runUsageCall) (es : list entry) : Prop := {
  co_wf : cost_wf k;
  co_amount : amount k = zsum charged es;
  co_outstanding : outstanding k = zsum held es;
  co_retained : retained k = zsum kept es;
  co_priced : priced k = u64 (zsum is_priced es);
  co_unpriced : unpriced k = u64 (zsum is_unpriced es);
  co_violations : boundViolations k = u64 (zsum is_violation es);
  co_calls : Forall (call_priced k) calls
}.

Definition same_prices (k k' : runCostState) : Prop :=
  card k' = card k /\ prices k' = prices k /\ requestPrices k' = requestPrices k /\ limit k' = limit k.

Lemma call_priced_same k k' c : same_prices k k' -> call_priced k c -> call_priced k' c.
Proof. intros (H1 & H2 & H3 & _). unfold call_priced. by rewrite H1, H2, H3. Qed.

Lemma cost_wf_same k k' : same_prices k k' -> cost_wf k -> cost_wf k'.
Proof. intros (H1 & H2 & H3 & _). unfold cost_wf. by rewrite H1, H2, H3. Qed.

Lemma reserved_pair k c :
  call_priced k c ->
  (c_reservation c = None /\ c_reserved c = None) \/
  exists rv a, c_reservation c = Some rv /\ c_reserved c = Some a.
Proof.
  intros [(_ & -> & ->)|(n & rt & p & fee & _ & _ & _ & _ & _ & _ & H)]; [by left|].
  destruct (c_reservation c), (c_reserved c); try done; eauto.
Qed.

(** A settlement, as changes of the cost state. *)
Lemma settle_cost_changes o rq c k e :
  o <> OInFlight -> call_priced k c -> c_reserved c = e_reserved e -> e_out e = OInFlight ->
  let k' := (settle_cost_state (values_of o) (known_of o) (release_of o) rq c k).1.1 in
  let e' := entry_settled e o (pay_of o rq c (Some k)) in
  same_prices k k' /\ peak k' = peak k /\
  amount k' = amount k + charged e' /\ outstanding k' = outstanding k - held e /\
  retained k' = retained k + kept e' /\
  priced k' = (if is_priced e' =? 0 then priced k else incr (priced k)) /\
  unpriced k' = (if is_unpriced e' =? 0 then unpriced k else incr (unpriced k)) /\
  boundViolations k' = (if is_violation e' =? 0 then boundViolations k else incr (boundViolations k)).
Proof.
  intros Ho Hp%reserved_pair Hr He. unfold held. rewrite He, <- Hr.
  unfold settle_cost_state, pay_of, charged, kept, is_priced, is_unpriced, is_violation, same_prices.
  cbn [e_pay entry_settled e_reserved]. rewrite <- Hr.
  destruct Hp as [[-> ->]|(rv & a & -> & ->)]; cbn [bound_violated];
    destruct o as [| |d|d v]; try done; cbn [values_of known_of release_of andb negb];
    repeat (destruct (_ || _); cbn [andb negb]); try destruct (0 <=? c_priceIndex c);
    cbn -[incr]; split_and!; try done; lia.
Qed.

Lemma count_incr x n : (n = 0 \/ n = 1) -> (if n =? 0 then u64 x else incr (u64 x)) = u64 (x + n).
Proof. intros [-> | ->]; cbn [Z.eqb]; [by rewrite Z.add_0_r|apply incr_u64]. Qed.

Definition pays_nothing (e : entry) : Prop := e_out e = OInFlight /\ e_pay e = PNone.

Lemma costed_settle k calls es i c c' e o rq :
  Costed k calls es -> calls !! i = Some c -> es !! i = Some e -> pays_nothing e ->
  c_reserved c = e_reserved e -> o <> OInFlight ->
  (forall k, call_priced k c -> call_priced k c') ->
  Costed (settle_cost_state (values_of o) (known_of o) (release_of o) rq c k).1.1
    (<[i := c']> calls) (<[i := entry_settled e o (pay_of o rq c (Some k))]> es).
Proof.
  intros [Hwf H1 H2 H3 H4 H5 H6 Hc] Hi He [Eo Ep] Hr Ho Hc'.
  assert (call_priced k c) as Hp by by eapply Forall_lookup_1.
  destruct (settle_cost_changes o rq c k e Ho Hp Hr Eo) as (Hs & _ & K1 & K2 & K3 & K4 & K5 & K6).
  assert (forall f, zsum f (<[i := entry_settled e o (pay_of o rq c (Some k))]> es) =
    zsum f es + (f (entry_settled e o (pay_of o rq c (Some k))) - f e)) as Hz
    by (intros; by apply zsum_insert).
  assert (charged e = 0 /\ kept e = 0 /\ is_priced e = 0 /\ is_unpriced e = 0 /\ is_violation e = 0)
    as (Z1 & Z2 & Z3 & Z4 & Z5).
  { unfold charged, kept, is_priced, is_unpriced, is_violation. by rewrite Ep. }
  set (e' := entry_settled _ _ _) in *.
  assert (held e' = 0) as Z6 by by destruct o.
  split.
  - by eapply cost_wf_same.
  - rewrite K1, Hz. lia.
  - rewrite K2, Hz. lia.
  - rewrite K3, Hz. lia.
  - rewrite K4, Hz, H4, count_incr; [apply u64_eq; lia|]. unfold is_priced. destruct (e_pay e'); auto.
  - rewrite K5, Hz, H5, count_incr; [apply u64_eq; lia|]. unfold is_unpriced. destruct (e_pay e'); auto.
  - rewrite K6, Hz, H6, count_incr; [apply u64_eq; lia|].
    unfold is_violation. destruct (e_pay e') as [| |[]]; auto.
  - apply Forall_insert.
    + eapply Forall_impl; [exact Hc|]. intros x Hx. by eapply call_priced_same.
    + eapply call_priced_same; [exact Hs|]. auto.
Qed.

Lemma costed_admit k k' calls es c :
  Costed k calls es -> same_prices k k' -> call_priced k c -> c_settled c = false ->
  amount k' = amount k -> outstanding k' = outstanding k + default 0 (c_reserved c) ->
  retained k' = retained k -> priced k' = priced k -> unpriced k' = unpriced k ->
  boundViolations k' = boundViolations k ->
  Costed k' (calls ++ [c]) (es ++ [entry_admitted c]).
Proof.
  intros [Hwf H1 H2 H3 H4 H5 H6 Hc] Hs Hp Hu K1 K2 K3 K4 K5 K6.
  assert (forall f x, f (entry_admitted c) = x -> zsum f (es ++ [entry_admitted c]) = zsum f es + x) as Hz.
  { intros f x Hf. rewrite zsum_app. cbn. lia. }
  split.
  - by eapply cost_wf_same.
  - rewrite (Hz _ 0); [lia|done].
  - rewrite (Hz _ (default 0 (c_reserved c))); [lia|done].
  - rewrite (Hz _ 0); [lia|done].
  - rewrite (Hz _ 0), Z.add_0_r; [congruence|done].
  - rewrite (Hz _ 0), Z.add_0_r; [congruence|done].
  - rewrite (Hz _ 0), Z.add_0_r; [congruence|done].
  - apply Forall_app. split; [|apply Forall_singleton; by eapply call_priced_same].
    eapply Forall_impl; [exact Hc|]. intros x Hx. by eapply call_priced_same.
Qed.

(** What is charged for a call never exceeds what was reserved for it. *)
Lemma charge_le_reserved k c o rq :
  call_priced k c -> outcome_ok o -> (rq = 0 \/ rq = 1) ->
  forall a, c_reserved c = Some a -> 0 <= a /\
    match pay_of o rq c (Some k) with PPriced x => 0 <= x <= a | _ => True end.
Proof.
  intros [(_ & _ & ->)|(n & rt & p & fee & En & _ & Ep & Ef & (_ & Hp & _ & Hz) & _ & Hr)] Ho Hrq a Ha; [done|].
  rewrite Ha in Hr. destruct (c_reservation c) as [rv|] eqn:Ev; [|done].
  destruct Hr as [(_ & _ & Hr) _].
  assert (0 <= a) as Ha0.
  { destruct fee as [f|]; [destruct (Hz f eq_refl); lia|].
    destruct Hr as (-> & Hi & Ho' & _). unfold bound_amount. destruct (_ <? _); nia. }
  split; [done|]. unfold pay_of. destruct o as [| |d|d v]; try done.
  destruct Ho as [_ Hv]. unfold values_ok in Hv.
  destruct (bound_violated v (c_reservation c)) eqn:Eb; [done|]. rewrite En.
  destruct (Z.leb_spec 0 (Z.of_nat n)); [|lia]. rewrite Nat2Z.id, Ep, Ef. cbn [default].
  rewrite Ev in Eb. cbn in Eb. rewrite orb_false_iff, !Z.ltb_ge in Eb.
  unfold call_amount, id. rewrite u64_id by (unfold is_u64, MaxUint64 in *; lia).
  destruct fee as [f|]; cbn [default].
  - destruct (Hz f eq_refl) as [Hf ->]. cbn. unfold id. nia.
  - destruct Hr as (-> & Hi & Ho' & _). unfold bound_amount. destruct p as [[p0 p1] p2]. cbn in *.
    destruct (Z.ltb_spec p1 p0); nia.
Qed.

(** ** The cost limit under reservation *)

(** The exposure never exceeds its peak, nor the peak the limit. *)
Definition Capped (k : runCostState) : Prop :=
  0 <= amount k /\ 0 <= outstanding k /\ 0 <= retained k /\
  amount k + outstanding k + retained k <= peak k /\
  forall lim, limit k = Some lim -> peak k <= lim.

Lemma capped_reserve k lim a k' :
  Capped k -> limit k = Some lim -> 0 <= a -> reserveAmount k lim a = Some k' ->
  Capped k' /\ same_prices k k' /\ outstanding k' = outstanding k + a /\
  amount k' = amount k /\ retained k' = retained k /\ priced k' = priced k /\
  unpriced k' = unpriced k /\ boundViolations k' = boundViolations k.
Proof.
  intros (H1 & H2 & H3 & H4 & H5) Hl Ha. unfold reserveAmount.
  destruct (Z.ltb_spec lim (amount k + outstanding k + retained k + a)); [done|].
  intros [= <-]. unfold Capped, same_prices. cbn. rewrite Hl.
  specialize (H5 _ Hl). split_and!; try done; try lia.
  - destruct (Z.ltb_spec (peak k) (amount k + outstanding k + retained k + a)); lia.
  - intros l [= <-]. destruct (Z.ltb_spec (peak k) (amount k + outstanding k + retained k + a)); lia.
Qed.

Lemma capped_settle k calls es i c e o rq a :
  Capped k -> Costed k calls es -> calls !! i = Some c -> es !! i = Some e -> pays_nothing e ->
  c_reserved c = e_reserved e -> c_reserved c = Some a -> o <> OInFlight -> outcome_ok o ->
  (rq = 0 \/ rq = 1) -> held e <= outstanding k ->
  Capped (settle_cost_state (values_of o) (known_of o) (release_of o) rq c k).1.1.
Proof.
  intros (H1 & H2 & H3 & H4 & H5) Hco Hi He [Eo Ep] Hr Ha Ho Hok Hrq Hh.
  assert (call_priced k c) as Hp by by eapply Forall_lookup_1; [eapply co_calls|].
  destruct (settle_cost_changes o rq c k e Ho Hp Hr Eo) as ((_ & _ & _ & Hs) & K0 & K1 & K2 & K3 & _).
  destruct (charge_le_reserved k c o rq Hp Hok Hrq a Ha) as [Ha0 Hx].
  assert (held e = a) as Eh by (unfold held; by rewrite Eo, <- Hr, Ha).
  unfold Capped. rewrite K0, K1, K2, K3, Hs. clear K0 K1 K2 K3. unfold charged, kept.
  cbn [e_pay e_reserved entry_settled]. rewrite <- Hr, Ha.
  destruct (pay_of _ _ _ _); cbn; unfold id; split_and!; try done; lia.
Qed.
