(* ===== verification/RunSystem.v ===== *)
(** * The reachable states of a run's accounting

    A run is a collector, the calls it admitted and the last reading of the
    clock; its steps are the operations of [RunUsage] and of [runUsageCall], in
    any order and with any outcome of checkpoint writes.  The clock does not
    run backwards (Go's readings are monotonic), and a new identifier is one of
    [uuid.NewString]: canonical and not used before.  The theorems hold in
    every state a run can reach. *)

From S2P Require Import Prelude GoStrings GoBase Paths RunCost RunUsage RunUsageFacts RunBooks.

Open Scope Z_scope.

Record run := { usage : RunUsage; calls : list runUsageCall; clock : Z }.

Inductive event :=
| EvAdmit (d : ProviderUsageDescriptor) (res : admit_result)
| EvSettle (i : nat) (err : option goerr)
| EvObserve (i : nat)
| EvOther.

Section system.
Context `{UUIDLib, MetadataDigest}.

(** The arguments with which the methods of a call settle it:
    [CompleteProviderUsage], [MarkProviderUsageAmbiguous],
    [ReleaseProviderUsageBeforeDispatch] and [CompleteRequestUsage]. *)
Inductive settlement : option TokenUsage -> bool -> option bool -> Prop :=
| settlement_complete u : (forall x, u = Some x -> usage_typed x) -> settlement u false None
| settlement_release : settlement None true None
| settlement_request b : settlement (Some no_usage) false (Some b).

Definition fresh_id (id : bytes) (cs : list runUsageCall) : Prop :=
  validRunUsageCheckpointUUID id = true /\ id ∉ (c_id <$> cs).

Inductive run_step : run -> event -> run -> Prop :=
| step_admit s w id t1 t2 ctx d r' made res :
    desc_typed d -> fresh_id id (calls s) -> clock s <= t1 <= t2 ->
    AdmitProviderUsage w id t1 t2 ctx d (usage s) = (r', made, res) ->
    run_step s (EvAdmit d res) {| usage := r'; calls := calls s ++ option_list made; clock := t2 |}
| step_settle s w t1 t2 u release billable i c r' c' err :
    calls s !! i = Some c -> settlement u release billable -> clock s <= t1 <= t2 ->
    settleRequest w t1 t2 u release billable c (usage s) = (r', c', err) ->
    run_step s (EvSettle i err) {| usage := r'; calls := <[i := c']> (calls s); clock := t2 |}
| step_model s model i c r' c' :
    calls s !! i = Some c ->
    ObserveProviderResponseModel model c (usage s) = (r', c') ->
    run_step s (EvObserve i) {| usage := r'; calls := <[i := c']> (calls s); clock := clock s |}
| step_cache s tokens ttl i c :
    calls s !! i = Some c ->
    run_step s (EvObserve i)
      {| usage := usage s; calls := <[i := ObserveProviderCacheWrite tokens ttl c]> (calls s);
         clock := clock s |}
| step_diagnostics s dg i c :
    calls s !! i = Some c ->
    run_step s (EvObserve i)
      {| usage := ObserveProviderDiagnostics dg c (usage s); calls := calls s; clock := clock s |}
| step_untracked s w t :
    clock s <= t ->
    run_step s EvOther {| usage := RecordUntrackedCall w t (usage s); calls := calls s; clock := t |}
| step_seal s w t :
    clock s <= t ->
    run_step s EvOther {| usage := Seal w t (usage s); calls := calls s; clock := t |}
| step_close s w closed t :
    clock s <= t ->
    run_step s EvOther {| usage := (Close w closed t (usage s)).1; calls := calls s; clock := t |}
| step_enable s w opened t :
    clock s <= t ->
    run_step s EvOther
      {| usage := (EnableCheckpointDir w opened t (usage s)).1; calls := calls s; clock := t |}.

Lemma settlement_typed u release billable :
  settlement u release billable -> forall x, u = Some x -> usage_typed x.
Proof.
  destruct 1 as [u Hu| |b]; [done|done|]. intros x [= <-]. split_and!; split; by vm_compute.
Qed.

(** The start of a run with a new collector. *)
Definition start (now : Z) (r : RunUsage) : run := {| usage := r; calls := []; clock := now |}.

(** The runs that start with a new collector. *)
Definition reachable `{CardSyntax} (limits : RunUsageLimits) (pc : option RunPriceCard) (s : run) : Prop :=
  exists now segment r evs,
    newRunUsage limits pc now segment = Ok r /\
    steps run_step (start now r) evs s.

(** ** The invariant *)

Record Sound (r : RunUsage) (cs : list runUsageCall) (es : list entry) : Prop := {
  snd_balanced : Balanced (r_totals r) (r_routes r) cs es;
  snd_costed k : r_cost r = Some k -> Costed k cs es;
  snd_unpaid : Forall (fun e => e_out e = OInFlight -> e_pay e = PNone) es;
  snd_calls : 0 < MaxProviderCalls (r_limits r) <= MaxInt64 ->
    t_ProviderCalls (rows es) <= MaxProviderCalls (r_limits r);
  snd_reserve : ReserveCostBeforeDispatch (r_limits r) = true ->
    exists k lim, r_cost r = Some k /\ limit k = Some lim /\ Capped k /\
      Forall (fun c => is_Some (c_reserved c)) cs
}.

Definition books (r : RunUsage) := (r_limits r, r_totals r, r_routes r, r_cost r).

Lemma books_fields r a b c d :
  books r = (a, b, c, d) -> r_limits r = a /\ r_totals r = b /\ r_routes r = c /\ r_cost r = d.
Proof. unfold books. by intros [= -> -> -> ->]. Qed.

Lemma sound_books r r' cs es : books r' = books r -> Sound r cs es -> Sound r' cs es.
Proof.
  unfold books. intros [= H1 H2 H3 H4] [X1 X2 X3 X4 X5].
  split; rewrite ?H1, ?H2, ?H3, ?H4; auto.
Qed.

Lemma fail_books r : books (failCheckpointLocked r).1 = books r.
Proof. done. Qed.

Lemma persist_books w phase now r : books (persistCheckpointLocked w phase now r).1 = books r.
Proof. unfold persistCheckpointLocked. repeat case_match; done. Qed.

Lemma notify_books r : books (notifyReservationWaitersLocked r) = books r.
Proof. unfold notifyReservationWaitersLocked. by case_match. Qed.

Lemma on_record_books f c r : books (on_record f c r) = books r.
Proof. rewrite on_record_eq. done. Qed.

(** Observations change the flags of a call only. *)
Definition same_call (c c' : runUsageCall) : Prop :=
  c_route c' = c_route c /\ c_settled c' = c_settled c /\ c_priceIndex c' = c_priceIndex c /\
  c_reservation c' = c_reservation c /\ c_reserved c' = c_reserved c /\ c_request c' = c_request c.

Lemma call_priced_call k c c' : 
  c_priceIndex c' = c_priceIndex c -> c_reservation c' = c_reservation c ->
  c_reserved c' = c_reserved c -> c_request c' = c_request c -> call_priced k c -> call_priced k c'.
Proof. unfold call_priced. by intros -> -> -> ->. Qed.

Lemma sound_same_call r cs es i c c' :
  Sound r cs es -> cs !! i = Some c -> same_call c c' -> Sound r (<[i := c']> cs) es.
Proof.
  intros [[B1 B2 B3 B4 B5 B6] X2 X3 X4 X5] Hi (S1 & S2 & S3 & S4 & S5 & S6). split; [| |done|done|].
  - split; try done.
    destruct (es !! i) as [e|] eqn:He.
    + rewrite <- (list_insert_id es i e He). apply Forall2_insert; [done|].
      destruct (Forall2_lookup_lr _ _ _ _ _ _ B1 Hi He) as (? & ? & ?).
      unfold call_entry. by rewrite S1, S2, S5.
    + apply lookup_ge_None in He. apply lookup_lt_Some in Hi. apply Forall2_length in B1. lia.
  - intros k Hk. destruct (X2 k Hk). split; try done. apply Forall_insert; [done|].
    eapply call_priced_call; [done..|]. by eapply Forall_lookup_1.
  - intros Hr. destruct (X5 Hr) as (k & lim & ? & ? & ? & Hf). exists k, lim. split_and!; try done.
    apply Forall_insert; [done|]. rewrite S5. by eapply (Forall_lookup_1 _ _ _ _ Hf).
Qed.

(** ** Settlements *)

Lemma settle_outcome_ok now u release billable c r cs es i e p :
  Sound r cs es -> es !! i = Some e -> e_out e = OInFlight ->
  (forall x, u = Some x -> usage_typed x) ->
  let o := settle_outcome now u release billable c r in
  o <> OInFlight /\ outcome_ok o /\ tokens_fit (rows (<[i := entry_settled e o p]> es)).
Proof.
  intros [[_ Bt _ _ Bo Bf] _ _ _ _] He Eo Hu. cbv zeta.
  assert (forall o, outcome_ok o -> match o with OKnown _ v => tokens_fit (tadd (rows es) (only_tokens v)) | _ => True end ->
    tokens_fit (rows (<[i := entry_settled e o p]> es))) as Hfit.
  { intros o Ho Hv. rewrite (rows_insert _ _ _ _ He), Eo. cbn [e_out entry_settled].
    unfold tokens_fit in *. destruct o as [| |d|d v]; cbn in *; lia. }
  unfold settle_outcome. destruct release; [split; [done|]; split; [done|by apply Hfit]|].
  set (d := u64 _). assert (is_u64 d) by apply u64_range.
  destruct (valid_values _ _ _ _) as [v|] eqn:Ev; [|split; [done|]; split; [done|by apply Hfit]].
  apply valid_values_ok in Ev as (Hv & Hc & _); [|done].
  split; [done|]. split; [by cbn|]. apply Hfit; [by cbn|].
  eapply canAdd_fit; [by apply rows_nonneg|done| |exact Hc].
  intros f Hf. cbn [r_totals]. unfold before_check. rewrite on_record_eq. cbn.
  rewrite !elem_of_cons in Hf. destruct_or! Hf; try (subst f; cbn -[u64]; by rewrite Bt).
  by apply not_elem_of_nil in Hf.
Qed.

Lemma requests_of_01 o b : requests_of o b = 0 \/ requests_of o b = 1.
Proof. destruct o, b as [[]|]; cbn; auto. Qed.

Lemma zsum_elem f es i e : (forall x, x ∈ es -> 0 <= f x) -> es !! i = Some e -> f e <= zsum f es.
Proof.
  revert i. induction es as [|x es IH]; intros [|i] Hf Hi; try done; cbn in Hi |- *.
  - injection Hi as ->. assert (0 <= zsum f es); [|lia].
    assert (forall y, y ∈ es -> 0 <= f y) as Hf' by set_solver. clear -Hf'.
    induction es as [|y es IH]; cbn; [lia|].
    assert (0 <= f y) by (apply Hf'; set_solver). assert (0 <= zsum f es) by (apply IH; set_solver). lia.
  - assert (f e <= zsum f es) by (eapply IH; [set_solver|done]).
    assert (0 <= f x) by (apply Hf; set_solver). lia.
Qed.

Lemma held_le r cs es k i e :
  Sound r cs es -> r_cost r = Some k -> es !! i = Some e -> held e <= outstanding k.
Proof.
  intros [B X _ _ _] Hk He. destruct (X k Hk) as [_ _ -> _ _ _ _ Hc].
  eapply zsum_elem; [|done]. intros x [j Hj]%list_elem_of_lookup.
  destruct (Forall2_lookup_r _ _ _ _ _ (bal_calls _ _ _ _ B) Hj) as (c & Hcj & _ & Hr & _).
  assert (call_priced k c) as Hp by by eapply Forall_lookup_1.
  unfold held. destruct (e_out x); try lia. rewrite <- Hr.
  destruct (c_reserved c) as [a|] eqn:Ea; cbn; [|lia].
  by destruct (charge_le_reserved k c OReleased 0 Hp I (or_introl eq_refl) a Ea).
Qed.

Lemma settled_books o rq c r :
  books (settled o rq c r) =
  (r_limits r, settle_totals o (r_totals r), alter (settle_totals o) (c_route c) (r_routes r),
   cost_after (values_of o) (known_of o) (release_of o) rq c (r_cost r)).
Proof. unfold settled. by destruct (settle_error o rq c r). Qed.

Lemma sound_settled r cs es i c c' e o rq :
  Sound r cs es -> cs !! i = Some c -> es !! i = Some e -> c_settled c = false ->
  c_settled c' = true -> c_route c' = c_route c -> c_priceIndex c' = c_priceIndex c ->
  c_reservation c' = c_reservation c -> c_reserved c' = c_reserved c -> c_request c' = c_request c ->
  o <> OInFlight -> outcome_ok o -> (rq = 0 \/ rq = 1) ->
  (forall p, tokens_fit (rows (<[i := entry_settled e o p]> es))) ->
  Sound (settled o rq c r) (<[i := c']> cs)
    (<[i := entry_settled e o (pay_of o rq c (r_cost r))]> es).
Proof.
  intros HS Hi He Hc S0 S1 S2 S3 S4 S5 Ho Hok Hrq Hfit.
  pose proof (settled_books o rq c r) as (Hb1 & Hb2 & Hb3 & Hb4)%books_fields.
  pose proof HS as [B X2 X3 X4 X5].
  destruct (Forall2_lookup_lr _ _ _ _ _ _ (bal_calls _ _ _ _ B) Hi He) as (E1 & E2 & E3).
  assert (pays_nothing e) as Hpn.
  { split; [tauto|]. eapply (Forall_lookup_1 _ _ _ _ X3 He). tauto. }
  split; rewrite ?Hb1, ?Hb2, ?Hb3, ?Hb4.
  - eapply balanced_settle; eauto.
  - intros k'. destruct (r_cost r) as [k|] eqn:Ek; [|done]. intros [= <-].
    eapply costed_settle; eauto. intros k0. by apply call_priced_call.
  - apply Forall_insert; [done|]. done.
  - intros Hm. rewrite (rows_insert _ _ _ _ He). destruct Hpn as [-> _]. specialize (X4 Hm).
    cbn [e_out entry_settled]. destruct o; cbn in *; lia.
  - intros Hr. destruct (X5 Hr) as (k & lim & Ek & El & Hcap & Hf). rewrite Ek.
    assert (is_Some (c_reserved c)) as [a Ha] by by eapply (Forall_lookup_1 _ _ _ _ Hf).
    exists (settle_cost_state (values_of o) (known_of o) (release_of o) rq c k).1.1, lim.
    split_and!; [done|by rewrite settle_cost_limit| |].
    + eapply capped_settle; eauto. by eapply held_le.
    + apply Forall_insert; [done|]. rewrite S4. eauto.
Qed.

(** What a settlement does to the book: nothing when the call is settled, and
    else it settles the entry of the call. *)
Definition settles_entry now u release billable (r : RunUsage) (c : runUsageCall) (i : nat) (es es' : list entry) : Prop :=
  es' = es \/
  exists e, c_settled c = false /\ es !! i = Some e /\
    let o := settle_outcome now u release billable c r in
    es' = <[i := entry_settled e o (pay_of o (requests_of o billable) c (r_cost r))]> es.

(** What the price of a call depends on. *)
Definition same_price (c c' : runUsageCall) : Prop :=
  c_priceIndex c' = c_priceIndex c /\ c_reservation c' = c_reservation c.

Lemma same_call_price c c' : same_call c c' -> same_price c c'.
Proof. by intros (_ & _ & ? & ? & _). Qed.

Lemma sound_settleLocked now u release billable r cs es i c r' c' err :
  Sound r cs es -> cs !! i = Some c -> (forall x, u = Some x -> usage_typed x) ->
  settleRequestLocked now u release billable c r = (r', c', err) ->
  exists es', Sound r' (<[i := c']> cs) es' /\ settles_entry now u release billable r c i es es' /\ same_price c c'.
Proof.
  intros HS Hi Hu Hs. destruct (c_settled c) eqn:Ec.
  { unfold settleRequestLocked in Hs. rewrite Ec in Hs. injection Hs as <- <- _.
    rewrite list_insert_id by done. exists es. split_and!; [done|by left|done]. }
  rewrite settleRequestLocked_eq in Hs by done. cbv zeta in Hs. injection Hs as <- <- _.
  destruct (Forall2_lookup_l _ _ _ _ _ (bal_calls _ _ _ _ (snd_balanced _ _ _ HS)) Hi)
    as (e & He & Hce). pose proof Hce as (_ & _ & Eo).
  set (c2 := c <| c_settled := true |>). set (o := settle_outcome _ _ _ _ _ _).
  assert (forall p, o <> OInFlight /\ outcome_ok o /\ tokens_fit (rows (<[i := entry_settled e o p]> es)))
    as Hok by (intros p; eapply settle_outcome_ok; eauto; tauto).
  destruct (Hok PNone) as (Ho1 & Ho2 & _). eexists. split; [eapply sound_books; [apply notify_books|]|].
  - change (settled o (requests_of o billable) c2 r) with (settled o (requests_of o billable) c r).
    eapply sound_settled; try done; [apply requests_of_01|apply Hok].
  - split; [|done]. right. by exists e.
Qed.

Lemma sound_settle w t1 t2 u release billable r cs es i c r' c' err :
  Sound r cs es -> cs !! i = Some c -> (forall x, u = Some x -> usage_typed x) ->
  settleRequest w t1 t2 u release billable c r = (r', c', err) ->
  exists es', Sound r' (<[i := c']> cs) es' /\ settles_entry t1 u release billable r c i es es' /\ same_price c c'.
Proof.
  intros HS Hi Hu. unfold settleRequest. destruct (c_settled c) eqn:Ec.
  { intros [= <- <- _]. rewrite list_insert_id by done. exists es. split_and!; [done|by left|done]. }
  destruct (settleRequestLocked _ _ _ _ _ _) as [[r1 c1] e1] eqn:E1.
  destruct (persistCheckpointLocked _ _ _ _) as [r2 pe] eqn:E2. intros [= <- <- _].
  destruct (sound_settleLocked _ _ _ _ _ _ _ _ _ _ _ _ HS Hi Hu E1) as (es' & HS' & He & Hp).
  exists es'. assert (books r2 = books r1) as Hb by (rewrite <- (persist_books w (lit "settled") t2 r1), E2; done).
  split; [|split; [done|by destruct pe]]. eapply sound_books; [exact Hb|]. destruct pe as [e|]; [|done].
  rewrite <- (list_insert_insert_eq cs i _ c1).
  eapply sound_same_call; [exact HS'|apply list_lookup_insert_eq; by eapply lookup_lt_Some|done].
Qed.

(** ** Admissions *)

Definition new_call (key : runUsageRouteKey) (id : bytes) (t1 index : Z)
    (rv : option RunCallReservation) (a : option Z) (req : bool) : runUsageCall :=
  {| c_route := key; c_id := id; c_started := t1; c_settled := false; c_settlementErr := None;
     c_recordIndex := 0; c_responseModelSeen := false; c_responseModelConflict := false;
     c_cacheWriteSeen := false; c_cacheWriteConflict := false; c_cacheWriteTokens := 0;
     c_cacheTTL := []; c_cacheTTLConflict := false; c_priceIndex := index;
     c_reservation := rv; c_reserved := a; c_request := req |}.

(** What the [switch] has excluded when a call is not denied. *)
Lemma admission_checks r d k index :
  admission_denial r d index = None -> r_cost r = Some k ->
  (0 <= index -> d_Request d = per_request k index) /\
  (limit k <> None -> 0 <= index /\ unpriced k <= 0).
Proof.
  unfold admission_denial. intros Hd Hk. rewrite Hk in Hd.
  repeat (match type of Hd with (if ?b then _ else _) = _ => destruct b eqn:?; [done|] end).
  match goal with E : (0 <=? index) && _ = false |- _ => rename E into E1 end.
  match goal with E : (limit k <>b None) && _ = false |- _ => rename E into E2 end.
  split.
  - intros Hi. apply andb_false_iff in E1 as [E1|E1]; [lia|]. by breflect.
  - intros Hl. apply andb_false_iff in E2 as [E2|E2]; [by breflect|].
    rewrite !orb_false_iff, !Z.ltb_ge in E2. lia.
Qed.

Lemma call_priced_free k d key id t1 :
  cost_wf k ->
  (0 <= route k (d_Provider d) (d_Model d) ->
   d_Request d = per_request k (route k (d_Provider d) (d_Model d))) ->
  call_priced k (new_call key id t1 (route k (d_Provider d) (d_Model d)) None None (d_Request d)).
Proof.
  intros Hwf Hreq. unfold call_priced. cbn.
  destruct (route_spec k (d_Provider d) (d_Model d) Hwf)
    as [->|(n & rt & p & fee & Hn & Hrt & _ & _ & Hp & Hf & Hpr)]; [by left|].
  right. rewrite Hn in *. exists n, rt, p, fee. split_and!; try done.
  rewrite Hreq by lia. unfold per_request. rewrite Nat2Z.id, Hrt.
  destruct Hpr as (_ & _ & Hfee & _). destruct fee, (rt_PerRequest rt); try done.
  - by destruct Hfee as [[? [=]] _].
  - by destruct Hfee as [_ [? [=]]].
Qed.
Lemma bound_amount_nonneg p i o : 0 <= p.1.1 -> 0 <= p.1.2 -> 0 <= p.2 -> 0 <= i -> 0 <= o ->
  0 <= bound_amount p i o.
Proof. intros. unfold bound_amount. destruct (_ <? _); nia. Qed.

(** A granted reservation is the bound of the call at its route's prices. *)
Lemma reserveCost_spec r d k rv a k' key id t1 :
  r_cost r = Some k -> cost_wf k -> desc_typed d ->
  let index := route k (d_Provider d) (d_Model d) in
  (0 <= index -> d_Request d = per_request k index) ->
  reserveCost r d index = Reserved rv a k' ->
  call_priced k (new_call key id t1 index (Some rv) (Some a) (d_Request d)) /\ 0 <= a /\
  exists lim, limit k = Some lim /\ reserveAmount k lim a = Some k'.
Proof.
  intros Hk Hwf Hd index Hreq. unfold reserveCost. rewrite Hk.
  destruct (ReserveCostBeforeDispatch (r_limits r)); [|done]. cbn [negb].
  pose proof (call_priced_free k d key id t1 Hwf Hreq) as Hfree. fold index in Hfree.
  destruct Hfree as [(E & _)|(n & rt & p & fee & En & Hrt & Hp & Hf & Hpr & Hq & _)];
    cbn [c_priceIndex c_request new_call] in *.
  { rewrite E. cbn -[costAmount]. by destruct (d_Request d), (d_CostBound d). }
  rewrite En, Nat2Z.id, Hrt, Hf, Hp. destruct (Z.ltb_spec (Z.of_nat n) 0); [lia|].
  assert (forall x rv0, reserve_with k x rv0 = Reserved rv a k' ->
    rv0 = rv /\ x = a /\ exists lim, limit k = Some lim /\ reserveAmount k lim a = Some k') as Hw.
  { intros x rv0. unfold reserve_with. destruct (limit k) as [lim|]; [|done].
    destruct (reserveAmount k lim x) eqn:Er; [|done]. intros [= <- <- <-]. eauto. }
  destruct (d_Request d) eqn:Ereq; rewrite Hq.
  - destruct fee as [f|]; [|done]. destruct (d_CostBound d); [done|].
    destruct (route_spec k (d_Provider d) (d_Model d) Hwf) as [E|(n' & rt' & ? & ? & En' & Hrt' & Hpv & _)];
      [unfold index in En; lia|].
    assert (n' = n) as -> by (unfold index in En; lia). rewrite Hrt in Hrt'. injection Hrt' as <-.
    intros (<- & <- & Hlim)%Hw. destruct (proj2 (proj2 (proj2 Hpr)) f eq_refl) as [Hf0 _].
    split; [|done]. right. exists n, rt, p, (Some f). by split_and!.
  - destruct fee as [f|]; [done|]. destruct (d_CostBound d) as [b|] eqn:Eb; [|done].
    destruct (Hd _ Eb) as [[Hbi _] [Hbo _]].
    destruct (_ || _) eqn:Eg; [done|]. rewrite !orb_false_iff, !Z.eqb_neq in Eg.
    destruct Eg as [[[[[[G1 G2] G3] _] G5] G6] _]. breflect.
    destruct (route_spec k (d_Provider d) (d_Model d) Hwf) as [E|(n' & rt' & ? & ? & En' & Hrt' & Hpv & _)];
      [unfold index in En; lia|].
    assert (n' = n) as -> by (unfold index in En; lia). rewrite Hrt in Hrt'. injection Hrt' as <-.
    intros (<- & <- & Hlim)%Hw. pose proof Hpr as (_ & (Hp1 & Hp2 & Hp3) & _).
    split; [|split; [by apply bound_amount_nonneg|done]].
    right. exists n, rt, p, None. cbn [new_call c_priceIndex c_request c_reservation c_reserved].
    split_and!; try done; cbn [rv_Model rv_Provider]; try congruence.
    unfold reserved_for. cbn [rv_ReservedAmount rv_RetainedAmount rv_InputTokens rv_OutputTokens rv_Requests rv_Provider].
    split_and!; done || lia.
Qed.

Lemma books_append d c r : books (appendCallRecord d c r).1 = books r.
Proof. unfold appendCallRecord. by case_match. Qed.

Lemma append_same d c r : same_call c (appendCallRecord d c r).2.
Proof. unfold appendCallRecord. by case_match. Qed.

(** The collector once the call is counted under its key. *)
Definition counted (d : ProviderUsageDescriptor) (r : RunUsage) : RunUsage :=
  let key := route_key r d in
  both (fun t => t <| t_ProviderCalls ::= incr |> <| t_InFlight ::= incr |>) key
    (match r_routes r !! key with
     | None => r <| r_routes ::= <[key := no_totals]> |>
     | Some _ => r
     end).

Lemma counted_books d r :
  books (counted d r) = (r_limits r, admit_totals (r_totals r),
    alter admit_totals (route_key r d) (ensure (route_key r d) (r_routes r)), r_cost r).
Proof. unfold counted, ensure. by destruct (r_routes r !! route_key r d). Qed.

Lemma sound_counted id t1 d index rv a r cs es :
  let c := new_call (route_key r d) id t1 index rv a (d_Request d) in
  Balanced (r_totals r) (r_routes r) cs es ->
  (forall k, r_cost r = Some k -> Costed k (cs ++ [c]) (es ++ [entry_admitted c])) ->
  Forall (fun e => e_out e = OInFlight -> e_pay e = PNone) es ->
  (0 < MaxProviderCalls (r_limits r) <= MaxInt64 ->
   t_ProviderCalls (rows es) < MaxProviderCalls (r_limits r)) ->
  (ReserveCostBeforeDispatch (r_limits r) = true ->
   exists k lim, r_cost r = Some k /\ limit k = Some lim /\ Capped k /\
     Forall (fun c => is_Some (c_reserved c)) (cs ++ [c])) ->
  Sound (counted d r) (cs ++ [c]) (es ++ [entry_admitted c]).
Proof.
  intros c HB HC HU HM HR.
  pose proof (counted_books d r) as (Hb1 & Hb2 & Hb3 & Hb4)%books_fields.
  split; rewrite ?Hb1, ?Hb2, ?Hb3, ?Hb4; auto.
  - by apply (balanced_admit _ _ _ _ c).
  - apply Forall_app. split; [done|]. by apply Forall_singleton.
  - intros Hm. specialize (HM Hm). rewrite rows_app. cbn. lia.
Qed.

Lemma sound_append d c r cs es :
  Sound r (cs ++ [c]) es ->
  Sound (appendCallRecord d c r).1 (cs ++ [(appendCallRecord d c r).2]) es.
Proof.
  intros HS. eapply sound_books; [apply books_append|].
  replace (cs ++ [(appendCallRecord d c r).2])
    with (<[length cs := (appendCallRecord d c r).2]> (cs ++ [c]))
    by (by rewrite insert_app_r_alt, Nat.sub_diag by lia).
  eapply sound_same_call; [exact HS|by apply list_lookup_middle|apply append_same].
Qed.

Lemma sound_admit w id t1 t2 d index rv a r cs es r' made res :
  let c := new_call (route_key r d) id t1 index rv a (d_Request d) in
  Sound (counted d r) (cs ++ [c]) (es ++ [entry_admitted c]) ->
  admit_call w id t1 t2 d index rv a r = (r', made, res) ->
  exists e, Sound r' (cs ++ option_list made) (es ++ [e]) /\ e_pay e = PNone /\ (e_out e = OInFlight \/ e_out e = OReleased).
Proof.
  intros c HS. pose proof (bal_calls _ _ _ _ (snd_balanced _ _ _ HS)) as Hlen%Forall2_length.
  rewrite !length_app in Hlen. cbn [length] in Hlen. revert HS. intros HS1%(sound_append d). unfold admit_call. fold (counted d r).
  fold (new_call (route_key r d) id t1 index rv a (d_Request d)).
  change (new_call (route_key r d) id t1 index rv a (d_Request d)) with c.
  destruct (appendCallRecord d c (counted d r)) as [r2 c2]. cbn [fst snd] in HS1.
  pose proof (persist_books w (lit "admitted") t2 r2) as Hb.
  destruct (persistCheckpointLocked w _ t2 r2) as [r3 pe]. cbn [fst] in Hb.
  apply (sound_books _ _ _ _ Hb) in HS1. destruct pe as [e|].
  - destruct (settleRequestLocked _ _ _ _ _ _) as [[r4 c4] e4] eqn:E4. intros [= <- <- _].
    eapply (sound_settleLocked _ _ _ _ _ _ _ (length cs)) in E4 as (es' & HS4 & He & _);
      [|exact HS1|by apply list_lookup_middle|done].
    rewrite insert_app_r_alt, Nat.sub_diag in HS4 by lia. destruct He as [->|(e0 & _ & He0 & ->)].
    + exists (entry_admitted c). split; [|by split; [|left]]. eapply sound_books; [|exact HS4]. done.
    + assert (length cs = length es) as Hl by lia. rewrite Hl in HS4, He0. rewrite list_lookup_middle in He0 by done.
      injection He0 as <-. rewrite insert_app_r_alt, Nat.sub_diag in HS4 by lia.
      eexists. split; [eapply sound_books; [|exact HS4]; done|]. split; [|by right]. cbn. by destruct (r_cost r3).
  - intros [= <- <- _]. eauto.
Qed.

Lemma admission_calls r d index cs es :
  Sound r cs es -> admission_denial r d index = None ->
  0 < MaxProviderCalls (r_limits r) <= MaxInt64 ->
  t_ProviderCalls (rows es) < MaxProviderCalls (r_limits r).
Proof.
  intros [[_ Bt _ _ Bo _] _ _ X4 _] Hd Hm. unfold admission_denial in Hd.
  repeat (match type of Hd with (if ?b then _ else _) = _ => destruct b eqn:?; [done|] end).
  match goal with E : (0 <? MaxProviderCalls _) && _ = false |- _ => rename E into E1 end.
  specialize (X4 Hm). apply rows_nonneg in Bo as [Hn _]. cbn in Hn.
  rewrite andb_false_iff, Z.ltb_ge, Z.leb_gt, Bt in E1. cbn -[u64] in E1.
  rewrite !u64_id in E1 by (unfold is_u64, MaxUint64, MaxInt64 in *; lia). lia.
Qed.

Lemma deny_books w t2 cause budget r r' made res :
  deny w t2 cause budget r = (r', made, res) -> books r' = books r /\ made = None.
Proof.
  unfold deny. destruct (persistCheckpointLocked _ _ _ _) as [r1 pe] eqn:E. intros [= <- <- _].
  split; [|done]. change r1 with (r1, pe).1. rewrite <- E. by rewrite persist_books.
Qed.

Definition price_index (r : RunUsage) (d : ProviderUsageDescriptor) : Z :=
  match r_cost r with Some k => route k (d_Provider d) (d_Model d) | None => -1 end.

(** The causes for which a call is denied, and the budgets they blame. *)
Inductive denial : sentinel -> bytes -> Prop :=
| denial_unknown : denial ErrRunUsageUnknown []
| denial_budget budget :
    budget ∈ [lit "provider_calls"; lit "total_tokens"; lit "estimated_cost_threshold";
              lit "estimated_cost_reservation"] ->
    denial ErrRunBudgetExceeded budget.

Lemma admission_denial_cause r d index cause budget :
  admission_denial r d index = Some (cause, budget) -> denial cause budget.
Proof.
  unfold admission_denial. cbv zeta. intros Hd.
  repeat (match type of Hd with (if ?b then _ else _) = _ =>
    destruct b; [injection Hd as <- <-; constructor; set_solver|] end).
  done.
Qed.

(** What a round of [AdmitProviderUsage] does to a sound collector: nothing, a
    denial, a wait, or an admission that keeps it sound. *)
Inductive admit_case (w : writer) (id : bytes) (t1 t2 : Z) (d : ProviderUsageDescriptor)
    (r : RunUsage) (cs : list runUsageCall) (es : list entry)
    : RunUsage * option runUsageCall * admit_result -> Prop :=
| case_error e : admit_case w id t1 t2 d r cs es (r, None, AdmitError e)
| case_deny cause budget : denial cause budget -> r_checkpointErr r = None ->
    admit_case w id t1 t2 d r cs es (deny w t2 cause budget r)
| case_wait ch : admit_case w id t1 t2 d r cs es ((wait_channel r).1, None, AdmitWait ch)
| case_admit rv a r0 :
    (r0 = r \/ exists k, r0 = r <| r_cost := Some k |>) ->
    price_index r0 d = price_index r d -> r_checkpointErr r = None -> r_sealed r = false ->
    admission_denial r d (price_index r d) = None ->
    (ReserveCostBeforeDispatch (r_limits r) = false -> rv = None) ->
    (forall x, rv = Some x -> rv_OutputTokens x <= u64 (MaxOutputTokensPerCall (r_limits r))) ->
    (let c := new_call (route_key r0 d) id t1 (price_index r d) rv a (d_Request d) in
     Sound (counted d r0) (cs ++ [c]) (es ++ [entry_admitted c])) ->
    admit_case w id t1 t2 d r cs es (admit_call w id t1 t2 d (price_index r d) rv a r0).

Lemma reserve_output r d index rv a k :
  reserveCost r d index = Reserved rv a k -> rv_OutputTokens rv <= u64 (MaxOutputTokensPerCall (r_limits r)).
Proof.
  assert (forall k0 x rv0, reserve_with k0 x rv0 = Reserved rv a k -> rv0 = rv) as Hw.
  { intros k0 x rv0. unfold reserve_with. repeat case_match; try done. by intros [= <- _ _]. }
  pose proof (u64_range (MaxOutputTokensPerCall (r_limits r))) as [Hu _].
  unfold reserveCost. repeat case_match; try done; intros <-%Hw; cbn -[u64]; [done|].
  rewrite !orb_false_iff, !Z.ltb_ge in *. tauto.
Qed.

Lemma AdmitProviderUsage_cases w id t1 t2 ctx d r cs es :
  Sound r cs es -> desc_typed d ->
  admit_case w id t1 t2 d r cs es (AdmitProviderUsage w id t1 t2 ctx d r).
Proof.
  intros HS Hd. unfold AdmitProviderUsage. destruct ctx; [constructor|].
  destruct (r_checkpointErr r) eqn:Ece; [constructor|]. destruct (r_sealed r) eqn:Ese; [constructor|].
  fold (price_index r d). destruct (admission_denial r d _) as [[cause budget]|] eqn:Ed;
    [constructor; [by eapply admission_denial_cause|done]|].
  pose proof (admission_calls _ _ _ _ _ HS Ed) as HM. pose proof HS as [HB X2 X3 X4 X5].
  destruct (reserveCost r d (price_index r d)) as [| |x|rv a k'] eqn:Er.
  - apply case_admit; try done; [by left|]. apply sound_counted; try done.
    + intros k Hk. pose proof (X2 k Hk) as HC. eapply costed_admit; try done; [|cbn; lia].
      unfold price_index. rewrite Hk. apply call_priced_free; [by eapply co_wf|].
      intros Hi. eapply admission_checks; try done. unfold price_index in Ed. by rewrite Hk in Ed.
    + unfold reserveCost in Er. destruct (ReserveCostBeforeDispatch (r_limits r)); [|done]. cbn in Er.
      exfalso. unfold reserve_with in Er. by repeat case_match.
  - by constructor; [constructor|].
  - destruct (may_fit_later r x).
    + destruct (wait_channel r) as [r1 ch] eqn:Ew. change r1 with (r1, ch).1. rewrite <- Ew. constructor.
    + constructor; [|done]. constructor. set_solver.
  - assert (ReserveCostBeforeDispatch (r_limits r) = true) as Hres.
    { unfold reserveCost in Er. by destruct (ReserveCostBeforeDispatch (r_limits r)). }
    pose proof (reserve_output _ _ _ _ _ _ Er) as Hout.
    destruct (X5 Hres) as (k & lim & Hk & Hlim & Hcap & Hall). pose proof (X2 k Hk) as HC.
    assert (price_index r d = route k (d_Provider d) (d_Model d)) as Hpi by (unfold price_index; by rewrite Hk).
    rewrite Hpi in Er, Ed.
    apply (reserveCost_spec r d k rv a k' (route_key (r <| r_cost := Some k' |>) d) id t1 Hk (co_wf _ _ _ HC) Hd)
      in Er as (Hp & Ha & lim' & Hlim' & Hra); [|by eapply admission_checks].
    rewrite Hlim in Hlim'. injection Hlim' as <-.
    destruct (capped_reserve k lim a k' Hcap Hlim Ha Hra) as (Hcap' & Hsp & K1 & K2 & K3 & K4 & K5 & K6).
    apply case_admit; [by right; eexists| |done|done|by rewrite Hpi|congruence|by intros ? [= <-]|].
    + rewrite Hpi. unfold price_index. cbn. unfold route. by rewrite (proj1 Hsp).
    + rewrite Hpi. apply sound_counted; try done.
      * intros k0 [= <-]. by eapply costed_admit.
      * intros _. exists k', lim. cbn. split_and!; try done; [by rewrite (proj2 (proj2 (proj2 Hsp)))|].
        apply Forall_app. split; [done|]. apply Forall_singleton. cbn. eauto.
Qed.

Lemma sound_AdmitProviderUsage w id t1 t2 ctx d r cs es r' made res :
  Sound r cs es -> desc_typed d ->
  AdmitProviderUsage w id t1 t2 ctx d r = (r', made, res) ->
  exists es', Sound r' (cs ++ option_list made) es' /\
    (es' = es \/ exists e, es' = es ++ [e] /\ e_pay e = PNone /\ (e_out e = OInFlight \/ e_out e = OReleased)).
Proof.
  intros HS Hd E. pose proof (AdmitProviderUsage_cases w id t1 t2 ctx d r cs es HS Hd) as Hc.
  rewrite E in Hc. assert (Sound r (cs ++ option_list None) es) as HS' by (cbn; by rewrite app_nil_r).
  inversion Hc as [e|cause budget _ _ Hden|ch|rv a r0 _ _ _ _ _ _ _ Hs Hadm]; subst.
  - exists es. split; [done|by left].
  - apply deny_books in Hden as [Hb ->]. exists es. split; [by eapply sound_books|by left].
  - exists es. split; [|by left]. eapply sound_books; [|done]. unfold wait_channel. by destruct (r_reservationChanged r).
  - destruct (sound_admit _ _ _ _ _ _ _ _ _ _ _ _ _ _ Hs Hadm) as (e & HS2 & He). exists (es ++ [e]). split; [done|].
    right. by exists e.
Qed.

(** ** Every reachable state *)

Lemma observe_model_books model c r : 
  books (ObserveProviderResponseModel model c r).1 = books r /\
  same_call c (ObserveProviderResponseModel model c r).2.
Proof.
  unfold ObserveProviderResponseModel. destruct (_ || _); [done|]. cbn [fst snd].
  split; [by rewrite on_record_books|]. by destruct (_ && _).
Qed.

Lemma observe_cache_same tokens ttl c : same_call c (ObserveProviderCacheWrite tokens ttl c).
Proof.
  unfold ObserveProviderCacheWrite. destruct (c_settled c || c_request c); [done|].
  destruct (_ || _); destruct (_ && _); try done; cbn -[lit]; by destruct (_ && _).
Qed.

Lemma seal_books w t r : books (Seal w t r) = books r.
Proof.
  unfold Seal. destruct (r_sealed r); [done|]. rewrite persist_books, notify_books. done.
Qed.

Lemma close_books w closed t r : books (Close w closed t r).1 = books r.
Proof.
  unfold Close. cbn [fst]. rewrite <- (seal_books w t r). by repeat case_match.
Qed.

Lemma enable_books w opened t r : books (EnableCheckpointDir w opened t r).1 = books r.
Proof.
  unfold EnableCheckpointDir. destruct (_ || _); [by destruct (r_checkpoint r)|].
  cbv zeta. destruct (checkpointMetadataSHA _); [|done]. destruct opened; [|done].
  cbn [negb]. by rewrite persist_books.
Qed.

(** The step from [s] to [s'] settles the call [i], which is [c], with these
    arguments. *)
Definition settles (s s' : run) (i : nat) (c : runUsageCall) (t : Z) (u : option TokenUsage) (release : bool)
    (billable : option bool) : Prop :=
  calls s !! i = Some c /\ c_settled c = false /\ settlement u release billable /\
  exists w t2 r' c' err, clock s <= t <= t2 /\ settleRequest w t t2 u release billable c (usage s) = (r', c', err) /\
    s' = {| usage := r'; calls := <[i := c']> (calls s); clock := t2 |}.

(** What a step does to the book of a run. *)
Inductive book_step (s s' : run) (es es' : list entry) : Prop :=
| book_same : es' = es -> book_step s s' es es'
| book_admit e : es' = es ++ [e] -> e_pay e = PNone -> (e_out e = OInFlight \/ e_out e = OReleased) ->
    book_step s s' es es'
| book_settle t u release billable i c e o :
    settles s s' i c t u release billable -> es !! i = Some e -> o = settle_outcome t u release billable c (usage s) ->
    es' = <[i := entry_settled e o (pay_of o (requests_of o billable) c (r_cost (usage s)))]> es ->
    book_step s s' es es'.

Lemma step_books s ev s' es :
  run_step s ev s' -> Sound (usage s) (calls s) es ->
  exists es', Sound (usage s') (calls s') es' /\ book_step s s' es es'
    /\ forall i c, calls s !! i = Some c -> exists c', calls s' !! i = Some c' /\ same_price c c'.
Proof.
  assert (Hsame : forall (cs : list runUsageCall) i c, cs !! i = Some c -> exists c', cs !! i = Some c' /\ same_price c c') by (intros; by eexists).
  assert (Hins : forall (cs : list runUsageCall) j x x', cs !! j = Some x -> same_price x x' ->
    forall i c, cs !! i = Some c -> exists c', <[j := x']> cs !! i = Some c' /\ same_price c c').
  { intros cs j x x' Hj Hx i c Hi. destruct (decide (j = i)) as [->|Hne].
    - exists x'. rewrite list_lookup_insert_eq by (by eapply lookup_lt_Some). split; [done|]. congruence.
    - exists c. by rewrite list_lookup_insert_ne. }
  destruct 1 as [s w id t1 t2 ctx d r' made res Hd Hf Ht Ha|s w t1 t2 u rel bil i c r' c' err Hi Hu Ht Hst
    |s model i c r' c' Hi Ho|s tokens ttl i c Hi|s dg i c Hi|s w t|s w t|s w cl t|s w op t];
    intros HS; cbn [usage calls].
  - destruct (sound_AdmitProviderUsage _ _ _ _ _ _ _ _ _ _ _ _ HS Hd Ha) as (es' & HS' & He). exists es'.
    split_and!; [done| |].
    + destruct He as [->|(e & -> & ? & ?)]; [by apply book_same|by eapply book_admit].
    + intros j x Hj. exists x. split; [by apply lookup_app_l_Some|done].
  - destruct (sound_settle _ _ _ _ _ _ _ _ _ _ _ _ _ _ HS Hi (settlement_typed _ _ _ Hu) Hst) as (es' & HS' & He & Hp).
    exists es'. split_and!; [done| |by eapply Hins].
    destruct He as [->|(e & Hc & He & ->)]; [by apply book_same|].
    eapply (book_settle _ _ _ _ t1); [|exact He|reflexivity|reflexivity]. split_and!; [done..|]. by exists w, t2, r', c', err.
  - exists es. destruct (observe_model_books model c (usage s)) as [Hb Hc]. rewrite Ho in Hb, Hc.
    split_and!; [|by apply book_same|]; [|by eapply Hins, same_call_price].
    eapply sound_same_call; [by eapply sound_books|done|done].
  - exists es. split_and!; [|by apply book_same|by eapply Hins, same_call_price, observe_cache_same].
    eapply sound_same_call; [done|done|apply observe_cache_same].
  - exists es. split_and!; [|by apply book_same|by apply Hsame]. eapply sound_books; [|done].
    unfold ObserveProviderDiagnostics. destruct (_ || _); [done|]. apply on_record_books.
  - exists es. split_and!; [|by apply book_same|by apply Hsame]. eapply sound_books; [|done].
    unfold RecordUntrackedCall. by rewrite persist_books, notify_books.
  - exists es. split_and!; [|by apply book_same|by apply Hsame]. eapply sound_books; [apply seal_books|done].
  - exists es. split_and!; [|by apply book_same|by apply Hsame]. eapply sound_books; [apply close_books|done].
  - exists es. split_and!; [|by apply book_same|by apply Hsame]. eapply sound_books; [apply enable_books|done].
Qed.

Lemma sound_step s ev s' :
  run_step s ev s' ->
  (exists es, Sound (usage s) (calls s) es) -> exists es, Sound (usage s') (calls s') es.
Proof. intros Hst [es HS]. destruct (step_books s ev s' es Hst HS) as (es' & HS' & _). by exists es'. Qed.

Lemma new_usage `{CardSyntax} limits pc now segment r :
  newRunUsage limits pc now segment = Ok r ->
  exists cost, r = fresh_usage limits now segment cost /\ reservation_ok limits cost = true /\
    0 <= MaxProviderCalls limits /\ 0 <= MaxTotalTokens limits /\
    forall k, cost = Some k ->
      cost_wf k /\ pc = Some (card k) /\ amount k = 0 /\ outstanding k = 0 /\ retained k = 0 /\
      peak k = 0 /\ priced k = 0 /\ unpriced k = 0 /\ boundViolations k = 0 /\
      match limit k with Some l => 0 < l < 10 ^ 30 | None => True end.
Proof.
  unfold newRunUsage. destruct (_ || _) eqn:En; [done|]. rewrite orb_false_iff, !Z.ltb_ge in En.
  set (compiled := match pc with None => Ok None | Some k => _ end).
  destruct compiled as [cost0|] eqn:Ec; [|done].
  assert (forall k, cost0 = Some k -> cost_wf k /\ pc = Some (card k) /\ limit k = None /\
    amount k = 0 /\ outstanding k = 0 /\ retained k = 0 /\ peak k = 0 /\ priced k = 0 /\
    unpriced k = 0 /\ boundViolations k = 0) as H0'.
  { intros k ->. unfold compiled in Ec. destruct pc as [pk|]; [|done].
    destruct (compileRunPriceCard pk) as [k'|] eqn:Ek; [|done]. injection Ec as <-.
    apply compileRunPriceCard_wf in Ek. naive_solver. }
  destruct (new_limit limits cost0) as [cost|] eqn:El; [|done].
  destruct (reservation_ok limits cost) eqn:Er; [|done]. cbn [negb].
  destruct (_ && _); [done|]. intros [= <-]. exists cost. split_and!; try done; try lia.
  intros k ->. unfold new_limit in El. destruct (_ ==b _).
  - injection El as ->. destruct (H0' _ eq_refl) as (? & ? & -> & ? & ? & ? & ? & ? & ? & ?). by split_and!.
  - destruct (costDecimal _ _) as [l|] eqn:Ed; [|done]. apply costDecimal_range in Ed as [_ Ed].
    change (18 + Z.of_nat 12) with 30 in Ed. destruct (Z.ltb_spec 0 l).
    + destruct cost0 as [k0|]; [|done]. injection El as <-.
      destruct (H0' _ eq_refl) as (? & ? & ? & ? & ? & ? & ? & ? & ? & ?). by split_and!.
    + injection El as ->. destruct (H0' _ eq_refl) as (? & ? & -> & ? & ? & ? & ? & ? & ? & ?). by split_and!.
Qed.

(** A collector has a cost limit only when the configuration names it. *)
Lemma new_limit_value `{CardSyntax} limits pc now segment r k lim :
  newRunUsage limits pc now segment = Ok r -> r_cost r = Some k -> limit k = Some lim ->
  costDecimal (MaxEstimatedCost limits) 12 = Some lim.
Proof.
  unfold newRunUsage. destruct (_ || _); [done|].
  destruct (match pc with None => Ok None | Some _ => _ end) as [cost0|] eqn:Ec; [|done].
  assert (forall k, cost0 = Some k -> limit k = None) as H0'.
  { intros k0 ->. destruct pc as [pk|]; [|done].
    destruct (compileRunPriceCard pk) as [k'|] eqn:Ek; [|done]. injection Ec as <-.
    by apply compileRunPriceCard_wf in Ek as (_ & _ & ? & _). }
  destruct (new_limit limits cost0) as [cost|] eqn:El; [|done].
  destruct (negb _); [done|]. destruct (_ && _); [done|]. intros [= <-]. cbn. intros -> Hk.
  unfold new_limit in El. destruct (_ ==b _); [injection El as ->; by rewrite H0' in Hk|].
  destruct (costDecimal _ _) as [l|]; [|done].
  destruct (0 <? l); [|injection El as ->; by rewrite H0' in Hk].
  destruct cost0; [|done]. injection El as <-. done.
Qed.

Lemma sound_new `{CardSyntax} limits pc now segment r :
  newRunUsage limits pc now segment = Ok r -> Sound r [] [].
Proof.
  intros (cost & -> & Hres & Hp & _ & Hk)%new_usage. split; cbn [fresh_usage r_totals r_routes r_cost r_limits].
  - apply balanced_empty.
  - intros k Ek. destruct (Hk k Ek) as (? & ? & ? & ? & ? & ? & ? & ? & ? & _). by split.
  - done.
  - cbn. lia.
  - intros Hr. unfold reservation_ok in Hres. rewrite Hr in Hres. cbn in Hres.
    destruct cost as [k|]; [|by rewrite orb_true_r in Hres].
    destruct (Hk k eq_refl) as (_ & _ & ? & ? & ? & Hpk & _ & _ & _ & Hl).
    destruct (limit k) as [lim|] eqn:El; [|by rewrite bool_decide_eq_true_2, ?orb_true_r in Hres].
    exists k, lim. split_and!; try done. unfold Capped. rewrite El, Hpk. split_and!; try lia.
    intros l [= <-]. lia.
Qed.

Lemma sound_reachable `{CardSyntax} limits pc s :
  reachable limits pc s -> exists es, Sound (usage s) (calls s) es.
Proof.
  intros (now & segment & r & evs & Hn & Hs).
  eapply (steps_invariant run_step (fun s => exists es, Sound (usage s) (calls s) es));
    [|exact Hs|].
  - intros s1 l s2 Hi Hst. by eapply sound_step.
  - exists []. by eapply sound_new.
Qed.

(** ** What no operation changes *)

Definition price_table (k : runCostState) := (card k, prices k, requestPrices k, limit k).

Definition identity (r : RunUsage) :=
  (r_limits r, r_started r, r_segmentID r, price_table <$> r_cost r).

Lemma settle_prices v kn rel rq c k :
  price_table (settle_cost_state v kn rel rq c k).1.1 = price_table k.
Proof. unfold settle_cost_state. repeat case_match; done. Qed.

Lemma persist_identity w phase now r : identity (persistCheckpointLocked w phase now r).1 = identity r.
Proof. unfold persistCheckpointLocked. repeat case_match; done. Qed.

Lemma notify_identity r : identity (notifyReservationWaitersLocked r) = identity r.
Proof. unfold notifyReservationWaitersLocked. by case_match. Qed.

Lemma settled_identity o rq c r : identity (settled o rq c r) = identity r.
Proof.
  assert (price_table <$> cost_after (values_of o) (known_of o) (release_of o) rq c (r_cost r) =
    price_table <$> r_cost r) as Hp.
  { unfold cost_after. destruct (r_cost r); [|done]. cbn. by rewrite settle_prices. }
  unfold settled, identity. rewrite <- Hp. by destruct (settle_error o rq c r).
Qed.

Lemma settleLocked_identity now u rel bil c r r' c' err :
  settleRequestLocked now u rel bil c r = (r', c', err) -> identity r' = identity r.
Proof.
  destruct (c_settled c) eqn:Ec; [unfold settleRequestLocked; rewrite Ec; by intros [= <- _ _]|].
  rewrite settleRequestLocked_eq by done. intros [= <- _ _].
  by rewrite notify_identity, settled_identity.
Qed.

Lemma settle_identity w t1 t2 u rel bil c r r' c' err :
  settleRequest w t1 t2 u rel bil c r = (r', c', err) -> identity r' = identity r.
Proof.
  unfold settleRequest. destruct (c_settled c); [by intros [= <- _ _]|].
  destruct (settleRequestLocked _ _ _ _ _ _) as [[r1 c1] e1] eqn:E1.
  pose proof (persist_identity w (lit "settled") t2 r1) as Hp.
  destruct (persistCheckpointLocked _ _ _ _) as [r2 pe]. intros [= <- _ _]. cbn in Hp.
  by apply settleLocked_identity in E1 as <-.
Qed.

Lemma deny_identity w t2 cause budget r r' made res :
  deny w t2 cause budget r = (r', made, res) -> identity r' = identity r.
Proof.
  unfold deny. destruct (persistCheckpointLocked _ _ _ _) as [r1 pe] eqn:E. intros [= <- _ _].
  change r1 with (r1, pe).1. rewrite <- E. by rewrite persist_identity.
Qed.

Lemma admit_identity w id t1 t2 d index rv a r r' made res :
  admit_call w id t1 t2 d index rv a r = (r', made, res) -> identity r' = identity r.
Proof.
  unfold admit_call. set (r1 := both _ _ _). destruct (appendCallRecord d _ r1) as [r2 c2] eqn:E2.
  destruct (persistCheckpointLocked _ _ _ r2) as [r3 pe] eqn:E3.
  assert (identity r3 = identity r) as H3.
  { change r3 with (r3, pe).1. rewrite <- E3, persist_identity.
    transitivity (identity r1); [|unfold r1; by destruct (r_routes r !! _)].
    unfold appendCallRecord in E2. destruct (_ =? _)%nat; by injection E2 as <- _. }
  destruct pe; [|by intros [= <- _ _]].
  destruct (settleRequestLocked _ _ _ _ _ _) as [[r4 c4] e4] eqn:E4. intros [= <- _ _].
  rewrite <- H3. by apply settleLocked_identity in E4 as <-.
Qed.

Lemma reserve_prices r d index rv a k' :
  reserveCost r d index = Reserved rv a k' -> price_table <$> r_cost r = Some (price_table k').
Proof.
  assert (forall k x rv0, reserve_with k x rv0 = Reserved rv a k' -> price_table k = price_table k') as Hw.
  { intros k x rv0. unfold reserve_with, reserveAmount. destruct (limit k) as [l|] eqn:El; [|done].
    destruct (_ <? _); [done|]. by intros [= _ _ <-]. }
  unfold reserveCost. destruct (r_cost r) as [k|]; repeat case_match; try done; intros Hr%Hw; cbn; by rewrite Hr.
Qed.

Lemma AdmitProviderUsage_identity w id t1 t2 ctx d r r' made res :
  AdmitProviderUsage w id t1 t2 ctx d r = (r', made, res) -> identity r' = identity r.
Proof.
  unfold AdmitProviderUsage. destruct ctx; [by intros [= <- _ _]|].
  destruct (r_checkpointErr r); [by intros [= <- _ _]|]. destruct (r_sealed r); [by intros [= <- _ _]|].
  destruct (admission_denial _ _ _) as [[? ?]|]; [apply deny_identity|].
  destruct (reserveCost _ _ _) as [| |x|rv a k'] eqn:Er.
  - apply admit_identity.
  - apply deny_identity.
  - destruct (may_fit_later r x); [|apply deny_identity]. unfold wait_channel.
    destruct (r_reservationChanged r); by intros [= <- _ _].
  - intros ->%admit_identity. unfold identity. cbn. by rewrite (reserve_prices _ _ _ _ _ _ Er).
Qed.

Lemma identity_step s ev s' : run_step s ev s' -> identity (usage s') = identity (usage s).
Proof.
  destruct 1; cbn [usage].
  - by eapply AdmitProviderUsage_identity.
  - by eapply settle_identity.
  - unfold ObserveProviderResponseModel in *. destruct (_ || _); simplify_eq; [done|].
    by rewrite on_record_eq.
  - done.
  - unfold ObserveProviderDiagnostics. destruct (_ || _); [done|]. by rewrite on_record_eq.
  - unfold RecordUntrackedCall. by rewrite persist_identity, notify_identity.
  - unfold Seal. destruct (r_sealed _); [done|]. by rewrite persist_identity, notify_identity.
  - unfold Close. cbn [fst]. transitivity (identity (Seal w t (usage s))); [by repeat case_match|].
    unfold Seal. destruct (r_sealed _); [done|]. by rewrite persist_identity, notify_identity.
  - unfold EnableCheckpointDir. destruct (_ || _); [by destruct (r_checkpoint (usage s))|].
    cbv zeta. destruct (checkpointMetadataSHA _); [|done]. destruct opened; [|done].
    cbn [negb]. by rewrite persist_identity.
Qed.

Lemma identity_reachable `{CardSyntax} limits pc s :
  reachable limits pc s ->
  exists now segment r, newRunUsage limits pc now segment = Ok r /\ identity (usage s) = identity r.
Proof.
  intros (now & segment & r & evs & Hn & Hs). exists now, segment, r. split; [done|].
  eapply (steps_invariant run_step (fun s => identity (usage s) = identity r)); [|exact Hs|done].
  intros s1 l s2 Hi Hst. by rewrite (identity_step _ _ _ Hst).
Qed.
End system.
