(* ===== verification/RunWaiters.v ===== *)
(** * Callers that wait for headroom

    [AdmitProviderUsage] waits when the request fits the cost limit but not
    beside the calls in flight.  A waiter holds a channel; the theorem shows
    that no wake-up is lost: as long as its channel is open, the request that
    waits could not be admitted. *)

From S2P Require Import Prelude GoStrings GoBase Paths RunCost RunUsage RunUsageFacts RunBooks.
From S2P Require Import RunSystem RunProperties.

Open Scope Z_scope.

Definition exposure (k : runCostState) : Z := amount k + outstanding k + retained k.

Definition chan (r : RunUsage) := (r_reservationChanged r, r_closedChannels r).

(** The channel after a broadcast. *)
Definition notified (r : RunUsage) : option nat * nat :=
  (None, match r_reservationChanged r with Some _ => S (r_closedChannels r) | None => r_closedChannels r end).

(** The exposure has not decreased. *)
Definition grows (r r' : RunUsage) : Prop :=
  forall k, r_cost r = Some k -> exists k', r_cost r' = Some k' /\ exposure k <= exposure k'.

(** Every operation leaves the channel alone and frees no headroom, or wakes
    the waiters, or starts to wait. *)
Inductive channel_effect (r r' : RunUsage) : Prop :=
| effect_quiet : chan r' = chan r -> grows r r' -> channel_effect r r'
| effect_notify : chan r' = notified r -> channel_effect r r'
| effect_wait : r_reservationChanged r = None ->
    chan r' = (Some (r_closedChannels r), r_closedChannels r) -> grows r r' -> channel_effect r r'.

Lemma notified_chan r r' : chan r = chan r' -> notified r = notified r'.
Proof. unfold chan, notified. by intros [= -> ->]. Qed.

Lemma grows_same r r' : r_cost r' = r_cost r -> grows r r'.
Proof. intros He k Hk. rewrite He. exists k. split; [done|lia]. Qed.

Section waiters.
Context `{UUIDLib, MetadataDigest}.

Lemma persist_chan w phase now r : chan (persistCheckpointLocked w phase now r).1 = chan r.
Proof. unfold persistCheckpointLocked. repeat case_match; done. Qed.

Lemma persist_cost w phase now r : r_cost (persistCheckpointLocked w phase now r).1 = r_cost r.
Proof. by destruct (books_fields _ _ _ _ _ (persist_books w phase now r)) as (_ & _ & _ & ?). Qed.

Lemma notify_chan r : chan (notifyReservationWaitersLocked r) = notified r.
Proof.
  unfold notifyReservationWaitersLocked, notified, chan. destruct (r_reservationChanged r) eqn:E; [done|].
  by rewrite E.
Qed.

Lemma settled_notified o rq c r : notified (settled o rq c r) = notified r.
Proof. unfold settled, notified. by destruct (settle_error o rq c r). Qed.

Lemma settleLocked_chan now u rel bil c r r' c' err :
  settleRequestLocked now u rel bil c r = (r', c', err) ->
  (c_settled c = true /\ r' = r) \/ chan r' = notified r.
Proof.
  destruct (c_settled c) eqn:Ec.
  - unfold settleRequestLocked. rewrite Ec. intros [= <- _ _]. by left.
  - rewrite settleRequestLocked_eq by done. intros [= <- _ _]. right.
    by rewrite notify_chan, settled_notified.
Qed.

Lemma settle_effect w t1 t2 u rel bil c r r' c' err :
  settleRequest w t1 t2 u rel bil c r = (r', c', err) -> channel_effect r r'.
Proof.
  unfold settleRequest. destruct (c_settled c) eqn:Ec.
  { intros [= <- _ _]. apply effect_quiet; [done|by apply grows_same]. }
  destruct (settleRequestLocked _ _ _ _ _ _) as [[r1 c1] e1] eqn:E1.
  pose proof (persist_chan w (lit "settled") t2 r1) as Hp.
  destruct (persistCheckpointLocked _ _ _ _) as [r2 pe]. cbn in Hp. intros [= <- _ _].
  apply settleLocked_chan in E1 as [[? ->]|E1]; [congruence|]. apply effect_notify. by rewrite Hp.
Qed.

Lemma deny_effect w t2 cause budget r r' made res :
  deny w t2 cause budget r = (r', made, res) -> channel_effect r r'.
Proof.
  unfold deny. destruct (persistCheckpointLocked _ _ _ _) as [r1 pe] eqn:E. intros [= <- _ _].
  apply effect_quiet.
  - change r1 with (r1, pe).1. rewrite <- E. by rewrite persist_chan.
  - apply grows_same. change r1 with (r1, pe).1. rewrite <- E. by rewrite persist_cost.
Qed.

Lemma admit_effect w id t1 t2 d index rv a r0 r r' made res :
  chan r = chan r0 -> grows r0 r ->
  admit_call w id t1 t2 d index rv a r = (r', made, res) -> channel_effect r0 r'.
Proof.
  intros Hch Hgr. unfold admit_call. set (r1 := both _ _ _).
  destruct (appendCallRecord d _ r1) as [r2 c2] eqn:E2.
  assert (chan r2 = chan r0 /\ r_cost r2 = r_cost r /\ c_settled c2 = false) as (Hch2 & Hco2 & Hc2).
  { unfold appendCallRecord in E2. rewrite <- Hch. unfold r1 in E2.
    destruct (_ =? _)%nat, (r_routes r !! _); by injection E2 as <- <-. }
  pose proof (persist_chan w (lit "admitted") t2 r2) as Hp1.
  pose proof (persist_cost w (lit "admitted") t2 r2) as Hp2.
  destruct (persistCheckpointLocked _ _ _ r2) as [r3 pe]. cbn in Hp1, Hp2. destruct pe.
  - destruct (settleRequestLocked _ _ _ _ _ _) as [[r4 c4] e4] eqn:E4. intros [= <- _ _].
    apply settleLocked_chan in E4 as [[? _]|E4]; [congruence|]. apply effect_notify.
    transitivity (notified r3); [exact E4|]. apply notified_chan. congruence.
  - intros [= <- _ _]. apply effect_quiet; [congruence|].
    intros k Hk. destruct (Hgr k Hk) as (k' & Hk' & Hle). exists k'. split; [congruence|done].
Qed.

Lemma AdmitProviderUsage_effect w id t1 t2 ctx d r cs es r' made res :
  Sound r cs es -> desc_typed d ->
  AdmitProviderUsage w id t1 t2 ctx d r = (r', made, res) -> channel_effect r r'.
Proof.
  intros HS Hd. unfold AdmitProviderUsage.
  assert (channel_effect r r) as Hr by (apply effect_quiet; [done|by apply grows_same]).
  destruct ctx; [by intros [= <- _ _]|]. destruct (r_checkpointErr r); [by intros [= <- _ _]|].
  destruct (r_sealed r); [by intros [= <- _ _]|].
  set (index := match r_cost r with Some c => _ | None => -1 end).
  destruct (admission_denial r d index) as [[? ?]|] eqn:Ed; [apply deny_effect|].
  destruct (reserveCost r d index) as [| |x|rv a k'] eqn:Er.
  - by apply admit_effect; [|apply grows_same].
  - apply deny_effect.
  - destruct (may_fit_later r x); [|apply deny_effect]. unfold wait_channel.
    destruct (r_reservationChanged r) eqn:Ech; [by intros [= <- _ _]|]. intros [= <- _ _].
    apply effect_wait; [done|done|by apply grows_same].
  - apply admit_effect; [done|]. intros k Hk.
    exists k'. split; [done|]. unfold index in *. rewrite Hk in *.
    destruct HS as [_ X2 _ _ _]. specialize (X2 k Hk).
    apply (reserveCost_spec r d k rv a k' (route_key r d) id t1 Hk (co_wf _ _ _ X2) Hd) in Er
      as (_ & Ha & lim & _ & Hra); [|by eapply admission_checks].
    unfold reserveAmount in Hra. destruct (_ <? _); [done|]. injection Hra as <-.
    unfold exposure. cbn. lia.
Qed.

Lemma seal_effect w t r : channel_effect r (Seal w t r).
Proof.
  unfold Seal. destruct (r_sealed r); [apply effect_quiet; [done|by apply grows_same]|].
  apply effect_notify. by rewrite persist_chan, notify_chan.
Qed.

Lemma quiet_after r r1 r' :
  channel_effect r r1 -> chan r' = chan r1 -> r_cost r' = r_cost r1 -> channel_effect r r'.
Proof.
  intros [Hq Hg|Hn|Hw1 Hw2 Hg] Hc Hk.
  - apply effect_quiet; [congruence|]. intros k Hk0. rewrite Hk. auto.
  - apply effect_notify. congruence.
  - apply effect_wait; [done|congruence|]. intros k Hk0. rewrite Hk. auto.
Qed.

Lemma step_effect s ev s' es :
  run_step s ev s' -> Sound (usage s) (calls s) es -> channel_effect (usage s) (usage s').
Proof.
  assert (forall r, channel_effect r r) as Hr by (intros; apply effect_quiet; [done|by apply grows_same]).
  destruct 1; intros HS; cbn [usage].
  - by eapply AdmitProviderUsage_effect.
  - by eapply settle_effect.
  - unfold ObserveProviderResponseModel in *. destruct (_ || _); simplify_eq; [done|].
    rewrite on_record_eq. by eapply quiet_after.
  - done.
  - unfold ObserveProviderDiagnostics. destruct (_ || _); [done|]. rewrite on_record_eq. by eapply quiet_after.
  - unfold RecordUntrackedCall. apply effect_notify. by rewrite persist_chan, notify_chan.
  - apply seal_effect.
  - unfold Close. cbn [fst]. eapply quiet_after; [apply (seal_effect w t)|by repeat case_match..].
  - unfold EnableCheckpointDir. destruct (_ || _); [eapply quiet_after; [apply Hr|by destruct (r_checkpoint (usage s))..]|].
    cbv zeta. destruct (checkpointMetadataSHA _); [|by eapply quiet_after].
    destruct opened; [|by eapply quiet_after]. cbn [negb].
    eapply quiet_after; [apply Hr|by rewrite persist_chan|by rewrite persist_cost].
Qed.

(** The channel [ch] is closed, or open while the exposure leaves no room for
    the amount [a] under the limit. *)
Definition closed_or_full (ch : nat) (a : Z) (r : RunUsage) : Prop :=
  (ch < r_closedChannels r)%nat \/
  chan r = (Some ch, ch) /\ exists k lim, r_cost r = Some k /\ limit k = Some lim /\ lim < exposure k + a.

Lemma closed_or_full_step ch a s ev s' es :
  run_step s ev s' -> Sound (usage s) (calls s) es ->
  closed_or_full ch a (usage s) -> closed_or_full ch a (usage s').
Proof.
  intros Hst HS Hc. pose proof (step_effect _ _ _ _ Hst HS) as Heff.
  pose proof (identity_step _ _ _ Hst) as Hid. unfold closed_or_full, chan in *.
  destruct Hc as [Hc|[Hch (k & lim & Hk & Hl & Hlt)]].
  - left. destruct Heff as [Hq _|Hn|_ Hw _]; unfold chan, notified in *.
    + by injection Hq as _ ->.
    + injection Hn as _ ->. destruct (r_reservationChanged (usage s)); lia.
    + by injection Hw as _ ->.
  - injection Hch as Hch1 Hch2. destruct Heff as [Hq Hg|Hn|Hw _ _]; unfold chan, notified in *; [| |congruence].
    + right. split; [congruence|]. destruct (Hg k Hk) as (k' & Hk' & Hle).
      exists k', lim. split_and!; [done| |lia].
      unfold identity in Hid. rewrite Hk, Hk' in Hid. cbn in Hid. unfold price_table in Hid. congruence.
    + left. injection Hn as _ ->. rewrite Hch1. lia.
Qed.

(** A reservation that was refused is refused again, at the same prices, while
    the exposure leaves no room for it. *)
Lemma still_denied r r' d index a k lim :
  reserveCost r d index = ReserveDenied a -> identity r' = identity r ->
  r_cost r' = Some k -> limit k = Some lim -> lim < exposure k + a ->
  reserveCost r' d index = ReserveDenied a.
Proof.
  intros Hr Hid Hk Hl Hlt. unfold identity in Hid. rewrite Hk in Hid.
  injection Hid as Hlim _ _ Hc. destruct (r_cost r) as [k0|] eqn:Ek0; [|done]. cbn in Hc.
  unfold price_table in Hc. injection Hc as Hc1 Hc2 Hc3 Hc4.
  assert (forall x rv, reserve_with k0 x rv = ReserveDenied a -> reserve_with k x rv = ReserveDenied a) as Hw.
  { intros x rv. unfold reserve_with. rewrite <- Hc4, Hl. unfold reserveAmount.
    destruct (_ <? _); [|done]. intros [= ->]. unfold exposure in Hlt.
    destruct (Z.ltb_spec lim (amount k + outstanding k + retained k + a)); [done|lia]. }
  revert Hr. unfold reserveCost. rewrite Hlim, Hk, Ek0, Hc1, Hc2, Hc3.
  repeat case_match; try done; apply Hw.
Qed.

(** A refused reservation that waits: the amount and the state it waits in. *)
Lemma wait_inv w id t1 t2 ctx d r r' made ch :
  AdmitProviderUsage w id t1 t2 ctx d r = (r', made, AdmitWait ch) ->
  exists a k lim, r_cost r = Some k /\ limit k = Some lim /\
    reserveCost r d (route k (d_Provider d) (d_Model d)) = ReserveDenied a /\
    lim < exposure k + a /\ r_cost r' = r_cost r /\ r_reservationChanged r' = Some ch /\
    (forall c, r_reservationChanged r = Some c -> c = ch /\ r_closedChannels r' = r_closedChannels r) /\
    (r_reservationChanged r = None -> r_closedChannels r' = ch).
Proof.
  unfold AdmitProviderUsage. destruct ctx; [done|]. destruct (r_checkpointErr r); [done|].
  destruct (r_sealed r); [done|].
  assert (forall cause budget, deny w t2 cause budget r <> (r', made, AdmitWait ch)) as Hdeny.
  { intros cause budget. unfold deny. by destruct (persistCheckpointLocked _ _ _ _). }
  assert (forall i rv a r, admit_call w id t1 t2 d i rv a r <> (r', made, AdmitWait ch)) as Hadmit.
  { intros i rv a r0. unfold admit_call. destruct (appendCallRecord _ _ _).
    destruct (persistCheckpointLocked _ _ _ _) as [? []]; [|done]. by destruct (settleRequestLocked _ _ _ _ _ _) as [[? ?] ?]. }
  destruct (admission_denial _ _ _) as [[? ?]|]; [intros E; by apply Hdeny in E|].
  destruct (reserveCost _ _ _) as [| |a|] eqn:Er; try (intros E; by first [apply Hadmit in E|apply Hdeny in E]).
  destruct (may_fit_later r a) eqn:Em; [|intros E; by apply Hdeny in E].
  unfold may_fit_later in Em. destruct (r_cost r) as [k|] eqn:Ek; [|done].
  destruct (limit k) as [lim|] eqn:El; [|done].
  intros Hw. exists a, k, lim. split_and!; try done.
  - revert Er. unfold reserveCost. rewrite Ek. unfold reserve_with, reserveAmount. rewrite El. unfold exposure.
    repeat case_match; try done; intros [= <-]; lia.
  - unfold wait_channel in Hw. destruct (r_reservationChanged r); by injection Hw as <- _ _.
  - unfold wait_channel in Hw. destruct (r_reservationChanged r) eqn:E; injection Hw as <- _ <-; done.
  - unfold wait_channel in Hw. destruct (r_reservationChanged r); injection Hw as <- _ <-; naive_solver.
  - unfold wait_channel in Hw. destruct (r_reservationChanged r); injection Hw as <- _ <-; done.
Qed.

(** An open channel carries the number of the channels closed before it. *)
Lemma open_channel s ev s' es :
  run_step s ev s' -> Sound (usage s) (calls s) es ->
  (forall c, r_reservationChanged (usage s) = Some c -> c = r_closedChannels (usage s)) ->
  forall c, r_reservationChanged (usage s') = Some c -> c = r_closedChannels (usage s').
Proof.
  intros Hst HS Hc c. destruct (step_effect _ _ _ _ Hst HS) as [Hq _|Hn|_ Hw _]; unfold chan, notified in *.
  - injection Hq as -> ->. apply Hc.
  - by injection Hn as -> _.
  - injection Hw as -> ->. by intros [= <-].
Qed.
End waiters.

(** The facts that hold along every run. *)
Definition run_ok `{UUIDLib} (s : run) : Prop :=
  (exists es, Sound (usage s) (calls s) es) /\
  forall c, r_reservationChanged (usage s) = Some c -> c = r_closedChannels (usage s).

Lemma run_ok_step `{UUIDLib, MetadataDigest} s ev s' : run_ok s -> run_step s ev s' -> run_ok s'.
Proof.
  intros [[es HS] Hc] Hst. split; [by eapply sound_step; eauto|]. by eapply open_channel.
Qed.

Lemma run_ok_reachable `{UUIDLib, MetadataDigest, CardSyntax} limits pc s : reachable limits pc s -> run_ok s.
Proof.
  intros (now & seg & r & evs & Hn & Hs). eapply (steps_invariant run_step run_ok); [|exact Hs|].
  - intros. by eapply run_ok_step.
  - split; [exists []; by eapply sound_new|]. apply new_usage in Hn as (cost & -> & _). done.
Qed.

(** C16: No wake-up is lost: when a request waits and, after any further steps, it
    would be admitted, then the channel it waits on has been closed. *)
Theorem waiter_is_woken `{UUIDLib, MetadataDigest, CardSyntax} limits pc s d ch s1 evs s2
    w id t1 t2 r' made c :
  reachable limits pc s ->
  run_step s (EvAdmit d (AdmitWait ch)) s1 ->
  steps run_step s1 evs s2 ->
  AdmitProviderUsage w id t1 t2 None d (usage s2) = (r', made, CallAdmitted c) ->
  (ch < r_closedChannels (usage s2))%nat.
Proof.
  intros Hr%run_ok_reachable Hw Hs Ha. pose proof (run_ok_step _ _ _ Hr Hw) as Hr1.
  inversion Hw as [? w0 id0 u1 u2 ctx ? r1 made1 ? Hd Hf Ht Hadm| | | | | | | |]; subst.
  pose proof (wait_inv _ _ _ _ _ _ _ _ _ _ Hadm) as (a & k & lim & Hk & Hl & Hden & Hlt & Hk1 & Hch & _).
  pose proof (AdmitProviderUsage_identity _ _ _ _ _ _ _ _ _ _ Hadm) as Hid1.
  set (s1 := {| usage := r1; calls := _; clock := _ |}) in *.
  assert (run_ok s2 /\ closed_or_full ch a (usage s2) /\ identity (usage s2) = identity (usage s))
    as (_ & Hfull & Hid).
  { eapply (steps_invariant run_step (fun x => run_ok x /\ closed_or_full ch a (usage x) /\
      identity (usage x) = identity (usage s))); [|exact Hs|].
    - intros x ev y (Hok & Hcf & Hi) Hst. pose proof Hok as [[es HS] _].
      split_and!; [by eapply run_ok_step|by eapply closed_or_full_step|by rewrite (identity_step _ _ _ Hst)].
    - split; [done|]. split; [|done]. right. destruct Hr1 as [_ Hopen].
      specialize (Hopen ch Hch). unfold chan. rewrite <- Hopen. split; [by rewrite <- Hch|]. exists k, lim. split_and!; [change (r_cost r1 = Some k); congruence|done|lia]. }
  destruct Hfull as [Hfull|[_ (k2 & lim2 & Hk2 & Hl2 & Hlt2)]]; [done|exfalso].
  pose proof (still_denied _ _ _ _ _ _ _ Hden Hid Hk2 Hl2 Hlt2) as Hd2.
  assert (route k2 (d_Provider d) (d_Model d) = route k (d_Provider d) (d_Model d)) as Hrt.
  { unfold identity in Hid. rewrite Hk, Hk2 in Hid. cbn in Hid. unfold price_table in Hid.
    injection Hid as _ _ _ Hc _ _ _. unfold route. by rewrite Hc. }
  revert Ha. unfold AdmitProviderUsage. destruct (r_checkpointErr (usage s2)); [done|].
  destruct (r_sealed (usage s2)); [done|]. rewrite Hk2, Hrt.
  assert (forall r cause budget, deny w t2 cause budget r <> (r', made, CallAdmitted c)) as Hdeny.
  { intros r cause budget. unfold deny. by destruct (persistCheckpointLocked _ _ _ _). }
  destruct (admission_denial _ _ _) as [[? ?]|]; [apply Hdeny|]. rewrite Hd2.
  destruct (may_fit_later _ _); [|apply Hdeny]. by destruct (wait_channel _).
Qed.

(** Two requests that fit the limit one after the other, not together: the
    second waits until the first is settled. *)
Module Waiting.
Import RunProperties.Example.

Definition tight : RunUsageLimits := {|
  MaxProviderCalls := 3; MaxTotalTokens := 0; MaxEstimatedCost := lit "0.002";
  ReserveCostBeforeDispatch := true; MaxOutputTokensPerCall := 1000
|}.

Definition opened : run :=
  match newRunUsage tight (Some price_card) 0 (id "1") with
  | Ok r => RunSystem.start 0 r
  | Err _ => RunSystem.start 0 (fresh_usage tight 0 [] None)
  end.
Definition busy : run := do_admit written (id "2") (ms 1) (ms 1) (request 2000 500) opened.
Definition waiting : run := do_admit written (id "3") (ms 5) (ms 5) (request 1000 500) busy.
Definition freed : run :=
  do_settle written (ms 9) (ms 9) (Some (response 900 100 400)) false None 0 waiting.

Lemma busy_reachable : reachable tight (Some price_card) busy.
Proof.
  apply (reachable_step _ _ opened).
  - apply (reachable_new _ _ 0 (id "1")). by vm_compute.
  - eexists; (apply do_admit_step; [apply request_typed; in_width|new_id|in_width]).
Qed.

Lemma waits : run_step busy (EvAdmit (request 1000 500) (AdmitWait 0)) waiting.
Proof.
  apply (do_admit_result written (id "3") (ms 5) (ms 5));
    [apply request_typed; in_width|new_id|in_width|done|by vm_compute].
Qed.

Lemma frees : exists ev, run_step waiting ev freed.
Proof.
  destruct (calls waiting !! 0%nat) as [c|] eqn:E; [|by vm_compute in E].
  apply (do_settle_step _ _ _ _ _ _ _ _ c E); [|in_width].
  apply response_settles. split_and!; in_width.
Qed.

Lemma admitted_later :
  exists c r made,
    AdmitProviderUsage written (id "4") (ms 12) (ms 12) None (request 1000 500) (usage freed) = (r, made, CallAdmitted c).
Proof.
  assert (match (AdmitProviderUsage written (id "4") (ms 12) (ms 12) None (request 1000 500) (usage freed)).2
          with CallAdmitted _ => true | _ => false end = true) as E by (vm_compute; reflexivity).
  destruct (AdmitProviderUsage _ _ _ _ _ _ _) as [[r made] [| |c]]; try done. by exists c, r, made.
Qed.
End Waiting.

Lemma waiter_is_woken_witness :
  r_closedChannels (usage Waiting.waiting) = 0%nat /\ (0 < r_closedChannels (usage Waiting.freed))%nat.
Proof.
  split; [by vm_compute|]. destruct Waiting.frees as [ev Hev].
  destruct Waiting.admitted_later as (c & r & made & Ha).
  eapply (waiter_is_woken _ _ _ _ _ _ [ev] _ _ _ _ _ _ _ _ Waiting.busy_reachable Waiting.waits); [|exact Ha].
  eapply steps_cons; [exact Hev|constructor].
Defined.
