(* ===== verification/RunCheckpoint.v ===== *)
(** * Checkpoints of a run

    [src/engine/execution/run_usage_checkpoint_validate.go] and the reader of
    [run_usage_checkpoint.go]: a retained checkpoint is accepted only when its
    ledger, its totals, its routes and its costs agree with one another.  [RunReplay]
    shows that it accepts every checkpoint that a collector publishes, as long
    as the collector has at most 128 routes. *)

From S2P Require Import Prelude GoStrings GoBase Paths RunCost RunUsage RunUsageFacts RunBooks.
From S2P Require Import RunSystem RunProperties.

Open Scope Z_scope.

(** ** Sums with an overflow check *)

(** [addCheckpointTotals]; [None] when one of the counters would overflow. *)
Definition fits_add (a b : RunUsageTotals) (f : RunUsageTotals -> Z) : bool :=
  negb (MaxUint64 - f a <? f b).

Definition counters : list (RunUsageTotals -> Z) :=
  [t_ProviderCalls; t_KnownCalls; t_UnknownCalls; t_InFlight; t_ReleasedCalls; t_PromptTokens;
   t_CompletionTokens; t_TotalTokens; t_CachedPromptTokens; t_ReasoningTokens;
   t_CacheWritePromptTokens; t_CacheWriteReportedCalls; t_ProviderDurationMillis].

Definition addCheckpointTotals (a b : RunUsageTotals) : option RunUsageTotals :=
  if forallb (fits_add a b) counters then Some (tmap2 (fun x y => u64 (x + y)) a b) else None.

(** ** The costs of the ledger *)

Record checkpointCostTotals := {
  kc_amount : Z; kc_outstanding : Z; kc_retained : Z;
  kc_priced : Z; kc_unpriced : Z; kc_violations : Z
}.
#[export] Instance eta_checkpointCostTotals : Eta checkpointCostTotals := fun x =>
  Build_checkpointCostTotals (kc_amount x) (kc_outstanding x) (kc_retained x) (kc_priced x)
    (kc_unpriced x) (kc_violations x).

Definition no_costs : checkpointCostTotals := Build_checkpointCostTotals 0 0 0 0 0 0.

(** The amount that a reservation of the ledger stands for; [None] when it is
    inconsistent with the price card. *)
Definition reserved_amount (collector : RunUsage) (k : runCostState) (index : Z)
    (rec : RunUsageRecord) (reservation : option RunCallReservation) : option Z :=
  if ReserveCostBeforeDispatch (r_limits collector) then
    match reservation, (if index <? 0 then None else card_Routes (card k) !! Z.to_nat index),
          prices k !! Z.to_nat index with
    | Some rv, Some rt, Some p =>
        if (rv_Provider rv <>b rec_Provider rec) || (rv_Model rv <>b rt_APIModel rt) then None else
        let reserved :=
          match default None (requestPrices k !! Z.to_nat index) with
          | Some fee =>
              if negb (rv_Requests rv =? 1) || negb (rv_InputTokens rv =? 0)
                 || negb (rv_OutputTokens rv =? 0) then None else Some fee
          | None =>
              if (rv_Provider rv <>b lit "agenticdeepseek") || negb (rv_Requests rv =? 0)
                 || (rv_InputTokens rv =? 0) || (rv_OutputTokens rv =? 0)
                 || (u64 (MaxOutputTokensPerCall (r_limits collector)) <? rv_OutputTokens rv)
              then None else Some (bound_amount p (rv_InputTokens rv) (rv_OutputTokens rv))
          end in
        match reserved with
        | Some a => if rv_ReservedAmount rv <>b costAmount a then None else Some a
        | None => None
        end
    | _, _, _ => None
    end
  else match reservation with Some _ => None | None => Some 0 end.

(** The amount of a priced row; [None] when the row lacks its request count or
    has one it should not have. *)
Definition row_amount (k : runCostState) (index : Z) (rec : RunUsageRecord) (t : RunUsageCallTokens)
    : option Z :=
  let p := default (0, 0, 0) (prices k !! Z.to_nat index) in
  let tokens := ct_CachedPromptTokens t * p.1.1 + ct_UncachedPromptTokens t * p.1.2
                + ct_CompletionTokens t * p.2 in
  match default None (requestPrices k !! Z.to_nat index), rec_Requests rec with
  | Some fee, Some n => Some (tokens + n * fee)
  | None, None => Some tokens
  | _, _ => None
  end.

Definition row_violation (rec : RunUsageRecord) (reservation : option RunCallReservation) : bool :=
  (rec_State rec ==b lit "known") &&
  match reservation, rec_Tokens rec with
  | Some rv, Some t => (rv_InputTokens rv <? ct_PromptTokens t) || (rv_OutputTokens rv <? ct_CompletionTokens t)
  | _, _ => false
  end.

(** The [switch] over the state of the row: the new sums, and whether the
    reservation is retained. *)
Definition observe_state (c : checkpointCostTotals) (k : runCostState) (index reserved : Z)
    (rec : RunUsageRecord) (value : RunCallCost) : option (checkpointCostTotals * bool) :=
  let no_estimate := match cc_EstimatedAmount value with None => true | Some _ => false end in
  if rec_State rec ==b lit "in_flight" then
    if (cc_State value <>b lit "in_flight") || negb no_estimate then None
    else Some (c <| kc_outstanding ::= fun x => x + reserved |>, false)
  else if rec_State rec ==b lit "released" then
    if (cc_State value <>b lit "released") || negb no_estimate then None else Some (c, false)
  else
    let violation := row_violation rec (cc_Reservation value) in
    let c := if violation then c <| kc_violations ::= incr |> else c in
    if (rec_State rec <>b lit "known") || (index <? 0) || violation then
      if (cc_State value <>b lit "unpriced") || negb no_estimate then None
      else Some (c <| kc_unpriced ::= incr |> <| kc_retained ::= fun x => x + reserved |>, true)
    else
      match cc_EstimatedAmount value, rec_Tokens rec with
      | Some est, Some t =>
          if cc_State value <>b lit "priced" then None else
          match row_amount k index rec t with
          | Some a => if est <>b costAmount a then None
                      else Some (c <| kc_amount ::= fun x => x + a |> <| kc_priced ::= incr |>, false)
          | None => None
          end
      | _, _ => None
      end.

Definition observe (c : checkpointCostTotals) (rec : RunUsageRecord) (collector : RunUsage)
    : option checkpointCostTotals :=
  match r_cost collector, rec_Cost rec with
  | None, None => Some c
  | Some k, Some value =>
      let index := route k (rec_Provider rec) (rec_RequestedModel rec) in
      if negb (cc_PriceIndex value =? index) then None else
      match reserved_amount collector k index rec (cc_Reservation value) with
      | None => None
      | Some reserved =>
          match observe_state c k index reserved rec value with
          | None => None
          | Some (c, retained) =>
              match cc_Reservation value with
              | Some rv =>
                  if rv_RetainedAmount rv <>b (if retained then rv_ReservedAmount rv else costAmount 0)
                  then None else Some c
              | None => Some c
              end
          end
      end
  | _, _ => None
  end.

Definition matches (c : checkpointCostTotals) (s : RunUsageSnapshot) (collector : RunUsage) : bool :=
  match r_cost collector, s_Cost s with
  | None, None => true
  | Some k, Some value =>
      (cs_Version value =? 1) && (cs_SegmentID value ==b lg_SegmentID (s_CallLedger s))
      && (cs_ActualBilledAmount value ==b None)
      && (cs_KnownEstimatedAmount value ==b costAmount (kc_amount c))
      && (cs_PricedCalls value =? kc_priced c) && (cs_UnpricedCalls value =? kc_unpriced c)
      && (cs_Complete value ==b ((kc_unpriced c =? 0) && (t_InFlight (s_totals s) =? 0)
                                 && (s_UntrackedCalls s =? 0) && (kc_violations c =? 0)))
      && (cs_LimitMode value ==b limit_mode collector k)
      && (if negb (ReserveCostBeforeDispatch (r_limits collector))
          then match cs_Reservation value with None => true | Some _ => false end
          else match cs_Reservation value with
               | None => false
               | Some r =>
                   (rs_OutstandingAmount r ==b costAmount (kc_outstanding c))
                   && (rs_RetainedAmount r ==b costAmount (kc_retained c))
                   && (rs_BoundViolations r =? kc_violations c)
                   && match costDecimal (rs_PeakExposureAmount r) 12 with
                      | Some p => (kc_amount c + kc_outstanding c + kc_retained c <=? p)
                                  && (card k ==b cs_PriceCard value)
                      | None => false
                      end
               end)
  | _, _ => false
  end.

(** ** One row of the ledger *)

Section reader.
Context `{UUIDLib}.

Definition logical_id_ok (id : bytes) : bool := (id ==b unknown) || (runUsageUUID id ==b id).

Definition record_labels_ok (i : nat) (elapsed : Z) (ids : list bytes) (rec : RunUsageRecord) : bool :=
  (rec_Ordinal rec =? u64 (Z.of_nat i + 1)) && validRunUsageCheckpointUUID (rec_CallID rec)
  && negb (bool_decide (rec_CallID rec ∈ ids))
  && (0 <=? rec_StartedOffsetMillis rec) && (rec_StartedOffsetMillis rec <=? elapsed)
  && (rec_ProviderDurationMillis rec <=? u64 elapsed)
  && (runUsageProvider (rec_Provider rec) ==b rec_Provider rec)
  && (runUsageModelLabel (rec_RequestedModel rec) ==b rec_RequestedModel rec)
  && (runUsageModelLabel (rec_ResolvedModel rec) ==b rec_ResolvedModel rec)
  && (runUsageSource (rec_Source rec) ==b rec_Source rec)
  && (runUsageRole (rec_Role rec) ==b rec_Role rec)
  && (runUsageEffort (rec_Effort rec) ==b rec_Effort rec)
  && (0 <=? rec_AttemptIndex rec) && (0 <=? rec_RetryIndex rec)
  && forallb logical_id_ok [rec_LogicalRoundID rec; rec_LogicalRequestID rec; rec_ModelAttemptID rec].

(** The counters of a known row, if they are consistent. *)
Definition known_row (rec : RunUsageRecord) (row : RunUsageTotals) : option RunUsageTotals :=
  match rec_Tokens rec with
  | None => None
  | Some t =>
      if (ct_PromptTokens t <? ct_CachedPromptTokens t)
         || negb (ct_UncachedPromptTokens t =? u64 (ct_PromptTokens t - ct_CachedPromptTokens t))
         || (ct_CompletionTokens t <? ct_ReasoningTokens t)
         || (MaxUint64 - ct_PromptTokens t <? ct_CompletionTokens t)
         || (ct_TotalTokens t <? u64 (ct_PromptTokens t + ct_CompletionTokens t)) then None else
      match ct_CacheWritePromptTokens t with
      | Some n => if ct_UncachedPromptTokens t <? n then None else Some n
      | None => Some 0
      end ≫= fun written =>
      Some {| t_ProviderCalls := t_ProviderCalls row; t_KnownCalls := 1;
              t_UnknownCalls := t_UnknownCalls row; t_InFlight := t_InFlight row;
              t_ReleasedCalls := t_ReleasedCalls row;
              t_PromptTokens := ct_PromptTokens t; t_CompletionTokens := ct_CompletionTokens t;
              t_TotalTokens := ct_TotalTokens t; t_CachedPromptTokens := ct_CachedPromptTokens t;
              t_ReasoningTokens := ct_ReasoningTokens t; t_CacheWritePromptTokens := written;
              t_CacheWriteReportedCalls :=
                match ct_CacheWritePromptTokens t with Some _ => 1 | None => 0 end;
              t_ProviderDurationMillis := t_ProviderDurationMillis row |}
  end.

(** The contribution of a row to the totals, by its state. *)
Definition record_row (rec : RunUsageRecord) : option RunUsageTotals :=
  let row := no_totals <| t_ProviderCalls := 1 |>
                       <| t_ProviderDurationMillis := rec_ProviderDurationMillis rec |> in
  if rec_State rec ==b lit "in_flight" then Some (row <| t_InFlight := 1 |>) else
  if rec_State rec ==b lit "released"
  then Some (row <| t_ProviderCalls := 0 |> <| t_ReleasedCalls := 1 |>) else
  if rec_State rec ==b lit "unknown" then Some (row <| t_UnknownCalls := 1 |>) else
  if rec_State rec ==b lit "known" then known_row rec row else None.

Definition record_shape_ok (rec : RunUsageRecord) (row : RunUsageTotals) : bool :=
  negb ((rec_State rec <>b lit "known")
        && (match rec_Tokens rec with Some _ => true | None => false end
            || match rec_Requests rec with Some _ => true | None => false end))
  && negb (((rec_State rec ==b lit "in_flight") || (rec_State rec ==b lit "released"))
           && negb (rec_ProviderDurationMillis rec =? 0))
  && bool_decide (rec_CacheTTL rec ∈ [[]; lit "5m"; lit "1h"])
  && match rec_Requests rec with
     | Some n => (n <=? 1) && (t_PromptTokens row =? 0) && (t_CompletionTokens row =? 0)
                 && (t_TotalTokens row =? 0)
     | None => true
     end.

(** The loop over the ledger; [ids] are the identifiers met. *)
Fixpoint validate_records (collector : RunUsage) (elapsed : Z) (i : nat) (ids : list bytes)
    (totals : RunUsageTotals) (costs : checkpointCostTotals) (recs : list RunUsageRecord)
    : option (RunUsageTotals * checkpointCostTotals) :=
  match recs with
  | [] => Some (totals, costs)
  | rec :: rest =>
      if negb (record_labels_ok i elapsed ids rec) then None else
      match record_row rec with
      | None => None
      | Some row =>
          if negb (record_shape_ok rec row) then None else
          match addCheckpointTotals totals row, observe costs rec collector with
          | Some totals, Some costs =>
              validate_records collector elapsed (S i) (rec_CallID rec :: ids) totals costs rest
          | _, _ => None
          end
      end
  end.

Definition route_labels_canonical (x : RunUsageRoute) : bool :=
  (runUsageModelLabel (rr_Model x) ==b rr_Model x) && (runUsageSource (rr_Source x) ==b rr_Source x)
  && (runUsageRole (rr_Role x) ==b rr_Role x) && (runUsageEffort (rr_Effort x) ==b rr_Effort x).

Fixpoint validate_routes (totals : RunUsageTotals) (l : list RunUsageRoute) : option RunUsageTotals :=
  match l with
  | [] => Some totals
  | x :: rest =>
      if negb (route_labels_canonical x) then None else
      match addCheckpointTotals totals (rr_totals x) with
      | Some totals => validate_routes totals rest
      | None => None
      end
  end.

(** ** The whole snapshot *)

Definition phase_ok (p : runUsageCheckpointPayload) : bool :=
  let s := p_Snapshot p in
  if p_Phase p ==b lit "initial" then
    negb (p_AdmissionClosed p || negb (length (lg_Records (s_CallLedger s)) =? 0)%nat
          || negb (s_DeniedCalls s =? 0) || negb (s_UntrackedCalls s =? 0))
  else if bool_decide (p_Phase p ∈ [lit "admitted"; lit "settled"; lit "denied"; lit "untracked"])
  then true
  else if p_Phase p ==b lit "sealed" then p_AdmissionClosed p else false.

Definition stop_ok (s : RunUsageSnapshot) : bool :=
  bool_decide (s_StopReason s ∈ [[]; lit "run_usage_unknown"; lit "run_budget_exceeded"])
  && ((s_BudgetStopCause s ==b [])
      || ((s_StopReason s ==b lit "run_budget_exceeded") && negb (s_DeniedCalls s =? 0)
          && bool_decide (s_BudgetStopCause s ∈
               [lit "provider_calls"; lit "total_tokens"; lit "estimated_cost_threshold";
                lit "estimated_cost_reservation"]))).

(** [validateCheckpointSnapshot]; the collector it builds from the limits and
    the card reads no clock that matters, so it is started at time zero. *)
Definition validateCheckpointSnapshot `{CardSyntax} (p : runUsageCheckpointPayload) : bool :=
  let s := p_Snapshot p in
  let ledger := s_CallLedger s in
  match s_Checkpoint s with None => true | Some _ => false end
  && (0 <=? s_ElapsedMillis s) && (lg_Version ledger =? 1)
  && (lg_SegmentID ledger ==b p_SegmentID p) && (lg_DroppedRecords ledger =? 0)
  && (length (lg_Records ledger) <=? MaxRunUsageRecords)%nat
  && phase_ok p && stop_ok s
  && match newRunUsage (s_Limits s) (cs_PriceCard <$> s_Cost s) 0 [] with
     | Err _ => false
     | Ok collector =>
         match validate_records collector (s_ElapsedMillis s) 0 [] no_totals no_costs (lg_Records ledger) with
         | None => false
         | Some (totals, costs) =>
             (totals ==b s_totals s)
             && (s_Complete s ==b ((t_InFlight totals =? 0) && (t_UnknownCalls totals =? 0)
                                   && (s_UntrackedCalls s =? 0)))
             && (length (s_Routes s) <=? 128)%nat
             && match validate_routes no_totals (s_Routes s) with
                | Some routes => (routes ==b totals) && matches costs s collector
                | None => false
                end
         end
     end.

(** ** Reading a checkpoint *)

Record RunUsageCheckpoint := {
  rc_Version : Z; rc_SegmentID : bytes; rc_Sequence : Z; rc_Phase : bytes;
  rc_AdmissionClosed : bool; rc_Snapshot : RunUsageSnapshot; rc_TokenUsageComplete : bool;
  rc_CostComplete : bool; rc_AccountingComplete : bool; rc_CanResumeAgent : bool;
  rc_NewSpendingAuthorized : bool
}.

(** [ReadRunUsageCheckpointDir] after its file was read and its envelope
    decoded: the payload, the digest kept beside it and the identity the caller
    expects. *)
Definition read_checkpoint `{CardSyntax, MetadataDigest} (p : runUsageCheckpointPayload)
    (metadata expected : bytes) : option RunUsageCheckpoint :=
  if (p_SegmentID p <>b expected) || (runUsageUUID (p_SegmentID p) <>b p_SegmentID p)
     || (p_Sequence p =? 0) || (p_MetadataSHA256 p <>b metadata) then None else
  if (checkpointMetadataSHA (p_Snapshot p) <>b Some metadata) || negb (validateCheckpointSnapshot p)
  then None else
  let tokens := s_Complete (p_Snapshot p) in
  let cost := match s_Cost (p_Snapshot p) with Some c => cs_Complete c | None => false end in
  Some {| rc_Version := 1; rc_SegmentID := p_SegmentID p; rc_Sequence := p_Sequence p;
          rc_Phase := p_Phase p; rc_AdmissionClosed := p_AdmissionClosed p;
          rc_Snapshot := p_Snapshot p; rc_TokenUsageComplete := tokens; rc_CostComplete := cost;
          rc_AccountingComplete := p_AdmissionClosed p && tokens && cost;
          rc_CanResumeAgent := false; rc_NewSpendingAuthorized := false |}.
End reader.
