(* ===== verification/RunLedger.v ===== *)
(** * The reader accepts what the ledger records

    The rows of the ledger as functions of the book's entries, and the proof
    that the checkpoint reader, given such rows, recomputes the totals, the
    routes and the costs that the collector holds. *)

From S2P Require Import Prelude GoStrings GoBase Paths RunCost RunUsage RunUsageFacts RunBooks.
From S2P Require Import RunSystem RunProperties RunCheckpoint.

Open Scope Z_scope.

(** ** Sums that fit *)

Definition tfit (t : RunUsageTotals) : Prop := trel (fun x _ => x <= MaxUint64) t t.

Lemma addCheckpointTotals_fit a b :
  tnonneg a -> tnonneg b -> tfit (tadd a b) -> addCheckpointTotals a b = Some (tadd a b).
Proof.
  unfold tnonneg, tfit, trel. cbn. intros Ha Hb Hf. unfold addCheckpointTotals.
  assert (forallb (fits_add a b) counters = true) as ->.
  { apply forallb_elem_of. unfold counters, fits_add. intros f Hfc.
    rewrite negb_true_iff, Z.ltb_ge. rewrite !elem_of_cons, elem_of_nil in Hfc.
    destruct_or! Hfc; subst; lia. }
  f_equal. apply totals_ext. unfold trel. cbn -[u64].
  split_and!; apply u64_id; unfold is_u64; lia.
Qed.

Lemma tfit_le a b : tnonneg b -> tfit (tadd a b) -> tfit a.
Proof. unfold tnonneg, tfit, trel. cbn. lia. Qed.

Lemma no_totals_nonneg : tnonneg no_totals.
Proof. unfold tnonneg, trel. cbn. lia. Qed.

Lemma tsum_list_nonneg l : Forall tnonneg l -> tnonneg (tsum l).
Proof. apply tsum_nonneg. Qed.

(** ** Routes *)

Lemma validate_routes_sum T l :
  tnonneg T -> Forall (fun x => route_labels_canonical x = true /\ tnonneg (rr_totals x)) l ->
  tfit (tadd T (tsum (rr_totals <$> l))) ->
  validate_routes T l = Some (tadd T (tsum (rr_totals <$> l))).
Proof.
  revert T. induction l as [|x l IH]; intros T HT Hl Hf; cbn; [by rewrite tadd_0_r|].
  apply Forall_cons in Hl as [[Hx Hn] Hl]. rewrite Hx. cbn [negb].
  cbn in Hf. rewrite tadd_assoc in Hf.
  assert (tnonneg (tsum (rr_totals <$> l))) as Hs.
  { apply tsum_nonneg, Forall_fmap. eapply Forall_impl; [exact Hl|]. by intros y [_ ?]. }
  rewrite addCheckpointTotals_fit by eauto using tfit_le.
  rewrite IH by eauto using tnonneg_add. by rewrite <- tadd_assoc.
Qed.

Lemma sanitize_canonical x : route_labels_canonical (sanitize_route x) = true.
Proof.
  unfold route_labels_canonical. cbn [sanitize_route rr_Model rr_Source rr_Role rr_Effort].
  by rewrite !bool_decide_eq_true_2 by first [apply runUsageModelLabel_idemp|apply one_of_idemp].
Qed.

Lemma rows_by_key ks es :
  NoDup ks -> (forall e, e ∈ es -> e_key e ∈ ks) ->
  tsum ((fun k => rows (on_route k es)) <$> ks) = rows es.
Proof.
  intros Hn. induction es as [|e es IH]; intros Hk.
  - clear. induction ks as [|k ks IH]; [done|]. rewrite fmap_cons. cbn [tsum]. by rewrite IH.
  - rewrite rows_cons, <- IH by set_solver. assert (e_key e ∈ ks) as He by set_solver.
    clear IH Hk. induction ks as [|k ks IH]; [set_solver|].
    apply NoDup_cons in Hn as [Hk Hn]. rewrite !fmap_cons. cbn [tsum].
    unfold on_route at 1. rewrite filter_cons. fold (on_route k es).
    destruct (decide (e_key e = k)) as [<-|Hne].
    + rewrite rows_cons. rewrite <- tadd_assoc. f_equal. f_equal. apply f_equal.
      apply list_fmap_ext. intros i x Hx. unfold on_route. rewrite filter_cons.
      rewrite decide_False; [done|]. intros <-. apply Hk. by eapply list_elem_of_lookup_2.
    + rewrite IH by set_solver. by rewrite tadd_swap.
Qed.

Lemma routes_sum t m cs es :
  Balanced t m cs es -> tfit (rows es) ->
  tsum ((map_to_list m).*2) = rows es /\ Forall tnonneg (map_to_list m).*2.
Proof.
  intros [_ _ Hr Hk Ho _] Hf.
  assert (forall k, tnonneg (rows (on_route k es)) /\ tmod (rows (on_route k es)) = rows (on_route k es)) as Hmod.
  { intros k. assert (tnonneg (rows (on_route k es))) as Hn.
    { apply rows_nonneg, Forall_forall. intros e [_ He]%list_elem_of_filter. by eapply Forall_forall in Ho. }
    split; [done|]. assert (trel Z.le (rows (on_route k es)) (rows es)) as Hle.
    { clear -Ho. induction Ho as [|e es He Ho IH]; [unfold trel; cbn; lia|].
      unfold on_route. rewrite filter_cons. apply row_nonneg in He. unfold tnonneg in He.
      fold (on_route k es). destruct (decide _); rewrite ?rows_cons; unfold trel in *; cbn in *; lia. }
    revert Hn Hle Hf. generalize (rows (on_route k es)) (rows es). clear. intros x y Hn Hle Hf.
    apply totals_ext. unfold tnonneg, tfit, trel in *. cbn -[u64] in *.
    split_and!; apply u64_id; unfold is_u64; lia. }
  assert ((map_to_list m).*2 = (fun k => rows (on_route k es)) <$> (map_to_list m).*1) as Heq.
  { rewrite <- list_fmap_compose. apply list_fmap_ext. intros i [k x] Hi%list_elem_of_lookup_2.
    apply elem_of_map_to_list in Hi. cbn. specialize (Hr k). rewrite Hi in Hr. cbn in Hr.
    unfold id in Hr. by rewrite Hr, (proj2 (Hmod k)). }
  rewrite Heq. split.
  - apply rows_by_key; [apply NoDup_fst_map_to_list|]. intros e [x He]%Hk.
    apply elem_of_map_to_list in He. apply list_elem_of_fmap. by exists (e_key e, x).
  - apply Forall_fmap, Forall_forall. intros k _. cbn. apply Hmod.
Qed.

(** ** Rows of the ledger *)

Definition state_name (o : outcome) : bytes :=
  match o with
  | OInFlight => lit "in_flight"
  | OReleased => lit "released"
  | OUnknown _ => lit "unknown"
  | OKnown _ _ => lit "known"
  end.

Definition duration_of (o : outcome) : Z :=
  match o with OUnknown d | OKnown d _ => d | _ => 0 end.

Definition tokens_of (o : outcome) : option RunUsageCallTokens :=
  match o with OKnown _ v => Some (call_tokens v) | _ => None end.

(** The cost cell of a row. *)
Definition cost_cell (cost : option runCostState) (c : runUsageCall) (e : entry) : option RunCallCost :=
  let cell st est rv :=
    Some {| cc_State := st; cc_PriceIndex := c_priceIndex c; cc_EstimatedAmount := est;
            cc_Reservation := rv |} in
  match cost with
  | None => None
  | Some _ =>
      match e_out e, e_pay e with
      | OInFlight, _ => cell (lit "in_flight") None (c_reservation c)
      | OReleased, _ => cell (lit "released") None (c_reservation c)
      | _, PPriced a => cell (lit "priced") (Some (costAmount a)) (c_reservation c)
      | _, _ => cell (lit "unpriced") None
                  ((fun rv => rv <| rv_RetainedAmount := rv_ReservedAmount rv |>) <$> c_reservation c)
      end
  end.

Lemma settle_cost_cell o rq c k e :
  o <> OInFlight ->
  Some (settle_cost_state (values_of o) (known_of o) (release_of o) rq c k).1.2 =
  cost_cell (Some k) c (entry_settled e o (pay_of o rq c (Some k))).
Proof.
  intros Ho. unfold settle_cost_state, cost_cell, pay_of. cbn [e_out e_pay entry_settled].
  destruct (c_reservation c) as [rv|]; cbn [bound_violated];
    destruct o as [| |d|d v]; try done; cbn [values_of known_of release_of andb negb];
    repeat (destruct (_ || _); cbn [andb negb]); try destruct (0 <=? c_priceIndex c); done.
Qed.

Definition time_to_live (ttl : bytes) : Prop := ttl ∈ [[]; lit "5m"; lit "1h"].

Definition canonical_labels `{UUIDLib} (rec : RunUsageRecord) : Prop :=
  runUsageProvider (rec_Provider rec) = rec_Provider rec /\
  runUsageModelLabel (rec_RequestedModel rec) = rec_RequestedModel rec /\
  runUsageModelLabel (rec_ResolvedModel rec) = rec_ResolvedModel rec /\
  runUsageSource (rec_Source rec) = rec_Source rec /\
  runUsageRole (rec_Role rec) = rec_Role rec /\
  runUsageEffort (rec_Effort rec) = rec_Effort rec /\
  0 <= rec_AttemptIndex rec /\ 0 <= rec_RetryIndex rec /\
  forallb logical_id_ok [rec_LogicalRoundID rec; rec_LogicalRequestID rec; rec_ModelAttemptID rec] = true.

Record ledger_row `{UUIDLib} (cost : option runCostState) (started : Z) (i : nat)
    (c : runUsageCall) (e : entry) (rec : RunUsageRecord) : Prop := {
  lr_ordinal : rec_Ordinal rec = u64 (Z.of_nat i + 1);
  lr_id : rec_CallID rec = c_id c;
  lr_labels : canonical_labels rec;
  lr_start : rec_StartedOffsetMillis rec = since_ms (c_started c) started;
  lr_state : rec_State rec = state_name (e_out e);
  lr_duration : rec_ProviderDurationMillis rec = duration_of (e_out e);
  lr_tokens : rec_Tokens rec = tokens_of (e_out e);
  lr_ttl : time_to_live (rec_CacheTTL rec);
  lr_cost : rec_Cost rec = cost_cell cost c e;
  lr_index : forall k, cost = Some k -> c_priceIndex c = route k (rec_Provider rec) (rec_RequestedModel rec);
  lr_pay : e_pay e = pay_of (e_out e) (default 0 (rec_Requests rec)) c cost;
  lr_requests :
    match rec_Requests rec with
    | Some n => c_request c = true /\ 0 <= n <= 1 /\
        exists d v, e_out e = OKnown d v /\ t_PromptTokens v = 0 /\ t_CompletionTokens v = 0 /\ t_TotalTokens v = 0
    | None => known_of (e_out e) = true -> c_request c = false
    end
}.

(** What is known of a recorded call: its identity, its start and the bounds of
    its reservation. *)
Record call_ok `{UUIDLib} (limits : RunUsageLimits) (started now : Z) (i : nat) (c : runUsageCall) : Prop := {
  ca_index : c_recordIndex c = if (i <? MaxRunUsageRecords)%nat then Z.of_nat i else -1;
  ca_id : validRunUsageCheckpointUUID (c_id c) = true;
  ca_start : started <= c_started c <= now;
  ca_ttl : time_to_live (c_cacheTTL c);
  ca_unreserved : ReserveCostBeforeDispatch limits = false -> c_reservation c = None;
  ca_output : forall rv, c_reservation c = Some rv -> rv_OutputTokens rv <= u64 (MaxOutputTokensPerCall limits)
}.

(** ** The reader on such rows *)

Section reader.
Context `{UUIDLib}.

Lemma since_ms_mono a b t : a <= b -> since_ms a t <= since_ms b t.
Proof. intros. unfold since_ms. apply Z.quot_le_mono; lia. Qed.

Lemma since_ms_nonneg a t : t <= a -> 0 <= since_ms a t.
Proof. intros. unfold since_ms. apply Z.quot_pos; lia. Qed.

Lemma record_labels_accepted cost limits started now elapsed i c e rec ids :
  ledger_row cost started i c e rec -> call_ok limits started now i c ->
  elapsed = since_ms now started -> duration_of (e_out e) <= elapsed <= MaxUint64 ->
  c_id c ∉ ids -> record_labels_ok i elapsed ids rec = true.
Proof.
  intros [L1 L2 (P1 & P2 & P3 & P4 & P5 & P6 & P7 & P8 & P9) L4 _ L6 _ _ _ _ _ _] [_ C2 C3 _ _ _] He Hd Hid.
  assert (0 <= elapsed) by (subst; apply since_ms_nonneg; lia).
  unfold record_labels_ok. rewrite L1, L2, C2, L4, L6, P9, P1, P2, P3, P4, P5, P6.
  rewrite (bool_decide_eq_false_2 (_ ∈ ids)) by done. rewrite !(bool_decide_eq_true_2 (_ = _)) by done.
  rewrite !andb_true_iff, !Z.leb_le, Z.eqb_eq, (u64_id elapsed) by (unfold is_u64; lia).
  pose proof (since_ms_mono (c_started c) now started). pose proof (since_ms_nonneg (c_started c) started).
  split_and!; done || lia.
Qed.

Lemma record_row_accepted cost started i c e rec :
  ledger_row cost started i c e rec -> outcome_ok (e_out e) ->
  record_row rec = Some (row (e_out e)).
Proof.
  intros [_ _ _ _ L5 L6 L7 _ _ _ _ _] Ho. unfold record_row. rewrite L5, L6.
  destruct (e_out e) as [| |d|d v] eqn:E; cbn [state_name duration_of];
    rewrite ?(bool_decide_eq_true_2 (lit _ = lit _)) by done; try done.
  change (lit "known" ==b lit "in_flight") with false. change (lit "known" ==b lit "released") with false.
  change (lit "known" ==b lit "unknown") with false. cbn match. cbn [outcome_ok] in Ho.
  destruct Ho as [_ Hv]. unfold known_row. rewrite L7. cbn [tokens_of]. unfold values_ok in Hv.
  unfold call_tokens. cbn [ct_PromptTokens ct_CachedPromptTokens ct_UncachedPromptTokens ct_CompletionTokens
    ct_ReasoningTokens ct_TotalTokens ct_CacheWritePromptTokens].
  rewrite !(u64_id (_ - _)), !(u64_id (_ + _)) by (unfold is_u64, MaxUint64 in *; lia).
  destruct (_ || _) eqn:Eg.
  { rewrite !orb_true_iff, !Z.ltb_lt, negb_true_iff, Z.eqb_neq in Eg. unfold MaxUint64 in *. lia. }
  change (lit "known" ==b lit "known") with true. cbn match.
  assert (forall a b : RunUsageTotals, trel eq a b -> Some a = Some b) as Hex
    by (intros a b Hab; f_equal; by apply totals_ext).
  destruct (Z.ltb_spec 0 (t_CacheWriteReportedCalls v)).
  - destruct (Z.ltb_spec (t_PromptTokens v - t_CachedPromptTokens v) (t_CacheWritePromptTokens v)); [lia|].
    cbn [mbind option_bind]. apply Hex. unfold trel. cbn. lia.
  - cbn [mbind option_bind]. apply Hex. unfold trel. cbn. lia.
Qed.

Lemma record_shape_accepted cost started i c e rec :
  ledger_row cost started i c e rec -> record_shape_ok rec (row (e_out e)) = true.
Proof.
  intros [_ _ _ _ L5 L6 L7 L8 _ _ _ L12]. unfold record_shape_ok. rewrite L5, L6, L7.
  rewrite bool_decide_eq_true_2 with (P := rec_CacheTTL rec ∈ _) by exact L8.
  destruct (rec_Requests rec) as [n|].
  - destruct L12 as (_ & Hn & d & v & -> & Z1 & Z2 & Z3). cbn. rewrite Z1, Z2, Z3.
    destruct (Z.leb_spec n 1); [done|lia].
  - destruct (e_out e); by vm_compute.
Qed.

(** The sums of the reader after a row. *)
Definition observed (C : checkpointCostTotals) (e : entry) : checkpointCostTotals :=
  {| kc_amount := kc_amount C + charged e; kc_outstanding := kc_outstanding C + held e;
     kc_retained := kc_retained C + kept e;
     kc_priced := if is_priced e =? 0 then kc_priced C else incr (kc_priced C);
     kc_unpriced := if is_unpriced e =? 0 then kc_unpriced C else incr (kc_unpriced C);
     kc_violations := if is_violation e =? 0 then kc_violations C else incr (kc_violations C) |}.

Definition same_reservation (rv rv' : RunCallReservation) : Prop :=
  rv' = rv \/ rv' = rv <| rv_RetainedAmount := rv_ReservedAmount rv |>.

Lemma reserved_amount_accepted collector k c rec rv0 :
  cost_wf k -> call_priced k c ->
  c_priceIndex c = route k (rec_Provider rec) (rec_RequestedModel rec) ->
  (ReserveCostBeforeDispatch (r_limits collector) = true -> is_Some (c_reserved c)) ->
  (ReserveCostBeforeDispatch (r_limits collector) = false -> c_reservation c = None) ->
  (forall rv, c_reservation c = Some rv -> rv_OutputTokens rv <= u64 (MaxOutputTokensPerCall (r_limits collector))) ->
  match c_reservation c, rv0 with
  | Some rv, Some rv' => same_reservation rv rv' | None, None => True | _, _ => False end ->
  reserved_amount collector k (c_priceIndex c) rec rv0 = Some (default 0 (c_reserved c)).
Proof.
  intros Hwf Hp Hi Hr Hn Ho Hs. unfold reserved_amount.
  destruct (ReserveCostBeforeDispatch (r_limits collector)).
  - destruct (Hr eq_refl) as [a Ha]. rewrite Ha.
    destruct Hp as [(_ & _ & E)|(n & rt & p & fee & En & Hrt & Hpn & Hfn & Hpr & _ & Hres)]; [congruence|].
    rewrite Ha in Hres. destruct (c_reservation c) as [rv|]; [|done]. destruct rv0 as [rv'|]; [|done].
    destruct Hres as ((R1 & R2 & R3) & Hm & Hprov). specialize (Ho _ eq_refl).
    assert (rt_Provider rt = rec_Provider rec) as Hrp.
    { destruct (route_spec k (rec_Provider rec) (rec_RequestedModel rec) Hwf)
        as [E|(n' & rt' & ? & ? & En' & Hrt' & Hx & _)]; [lia|].
      assert (n' = n) as -> by lia. congruence. }
    assert (rv_Provider rv' = rv_Provider rv /\ rv_Model rv' = rv_Model rv /\ rv_Requests rv' = rv_Requests rv /\
      rv_InputTokens rv' = rv_InputTokens rv /\ rv_OutputTokens rv' = rv_OutputTokens rv /\
      rv_ReservedAmount rv' = rv_ReservedAmount rv) as (-> & -> & -> & -> & -> & ->)
      by (destruct Hs as [-> | ->]; done).
    rewrite En, Nat2Z.id, Hrt, Hpn, Hfn, Hprov, Hm, Hrp, R1.
    destruct (Z.ltb_spec (Z.of_nat n) 0); [lia|]. cbn [default].
    rewrite !(bool_decide_eq_true_2 (rec_Provider rec = rec_Provider rec)),
      !(bool_decide_eq_true_2 (rt_APIModel rt = rt_APIModel rt)) by done.
    cbn [negb orb]. unfold id. destruct fee as [f|].
    + destruct R3 as (-> & -> & -> & ->). cbn [negb Z.eqb orb Pos.eqb].
      by rewrite bool_decide_eq_true_2.
    + destruct R3 as (-> & H1 & H2 & -> & H3). rewrite Hprov, Hrp in H3.
      rewrite bool_decide_eq_true_2 by done. cbn [negb Z.eqb orb].
      destruct (Z.eqb_spec (rv_InputTokens rv) 0); [lia|].
      destruct (Z.eqb_spec (rv_OutputTokens rv) 0); [lia|].
      destruct (Z.ltb_spec (u64 (MaxOutputTokensPerCall (r_limits collector))) (rv_OutputTokens rv)); [lia|].
      cbn [orb]. by rewrite bool_decide_eq_true_2.
  - rewrite (Hn eq_refl) in Hs. destruct rv0; [done|].
    destruct (reserved_pair _ _ Hp) as [[_ ->]|(? & ? & E & _)]; [done|]. rewrite Hn in E; done.
Qed.

Lemma row_amount_accepted k c rec d v e started i :
  ledger_row (Some k) started i c e rec -> call_priced k c -> e_out e = OKnown d v -> 0 <= c_priceIndex c ->
  row_amount k (c_priceIndex c) rec (call_tokens v) =
  Some (call_amount (default (0, 0, 0) (prices k !! Z.to_nat (c_priceIndex c)))
          (default None (requestPrices k !! Z.to_nat (c_priceIndex c))) v (default 0 (rec_Requests rec))).
Proof.
  intros [_ _ _ _ _ _ _ _ _ _ _ L12] Hp Ho Hi. unfold row_amount, call_amount.
  destruct Hp as [(E & _)|(n & rt & p & fee & En & _ & Hpn & Hfn & _ & Hq & _)]; [lia|].
  rewrite En, Nat2Z.id, Hpn, Hfn. cbn [default]. unfold id, call_tokens.
  cbn [ct_CachedPromptTokens ct_UncachedPromptTokens ct_CompletionTokens].
  rewrite Ho in L12. destruct (rec_Requests rec) as [m|].
  - destruct L12 as (Hreq & _). rewrite Hreq in Hq. destruct fee; [|done]. done.
  - specialize (L12 eq_refl). rewrite L12 in Hq. destruct fee; [done|]. cbn. f_equal. lia.
Qed.

Lemma unretained k c rv :
  call_priced k c -> c_reservation c = Some rv -> rv_RetainedAmount rv = costAmount 0.
Proof.
  intros [(_ & E & _)|(n & rt & p & fee & _ & _ & _ & _ & _ & _ & H0)] Hr; rewrite Hr in *; [done|].
  destruct (c_reserved c); [|done]. by destruct H0 as ((_ & ? & _) & _).
Qed.

Lemma row_violation_accepted c e rec d v rv :
  rec_State rec = lit "known" -> rec_Tokens rec = Some (call_tokens v) -> e_out e = OKnown d v ->
  match c_reservation c, rv with Some x, Some y => same_reservation x y | None, None => True | _, _ => False end ->
  row_violation rec rv = bound_violated v (c_reservation c).
Proof.
  intros H1 H2 _ H3. unfold row_violation. rewrite H1, H2. lits.
  destruct (c_reservation c) as [x|], rv as [y|]; try done. by destruct H3 as [-> | ->].
Qed.

Lemma cost_totals_ext a b :
  kc_amount a = kc_amount b -> kc_outstanding a = kc_outstanding b -> kc_retained a = kc_retained b ->
  kc_priced a = kc_priced b -> kc_unpriced a = kc_unpriced b -> kc_violations a = kc_violations b -> a = b.
Proof. destruct a, b. cbn. congruence. Qed.

(** Equality of the reader's sums after a row, from the facts on its entry. *)
Ltac sums :=
  do 2 f_equal; apply cost_totals_ext;
  unfold observed, charged, held, kept, is_priced, is_unpriced, is_violation;
  repeat match goal with
  | H : e_out _ = _ |- _ => rewrite H
  | H : e_pay _ = _ |- _ => rewrite H
  | H : c_reserved _ = e_reserved _ |- _ => rewrite H
  end; cbn; lia || done.

Lemma observe_state_accepted k c e rec started i C st est rv :
  call_priced k c -> ledger_row (Some k) started i c e rec -> c_reserved c = e_reserved e ->
  cost_cell (Some k) c e = Some {| cc_State := st; cc_PriceIndex := c_priceIndex c;
    cc_EstimatedAmount := est; cc_Reservation := rv |} ->
  match c_reservation c, rv with Some x, Some y => same_reservation x y | None, None => True | _, _ => False end ->
  exists retained,
    observe_state C k (c_priceIndex c) (default 0 (c_reserved c)) rec
      {| cc_State := st; cc_PriceIndex := c_priceIndex c; cc_EstimatedAmount := est; cc_Reservation := rv |} =
      Some (observed C e, retained) /\
    match rv with Some x => rv_RetainedAmount x = if retained then rv_ReservedAmount x else costAmount 0 | None => True end.
Proof.
  intros Hp HL Hr Hcell Hrv. pose proof HL as [_ _ _ _ L5 _ L7 _ _ _ L11 _].
  assert (forall x, c_reservation c = Some x -> rv_RetainedAmount x = costAmount 0) as Hun
    by (intros x; by apply (unretained k)).
  unfold observe_state. cbn [cc_EstimatedAmount cc_State cc_Reservation]. rewrite L5.
  unfold cost_cell in Hcell.
  destruct (e_out e) as [| |d|d v] eqn:Eo; cbn [state_name] in *; cbn [pay_of] in L11.
  - injection Hcell as <- <- <-. lits. exists false. split; [sums|].
    destruct (c_reservation c) as [x|]; auto.
  - injection Hcell as <- <- <-. lits. exists false. split; [sums|].
    destruct (c_reservation c) as [x|]; auto.
  - rewrite L11 in Hcell. injection Hcell as <- <- Erv.
    assert (row_violation rec rv = false) as -> by (unfold row_violation; by rewrite L5).
    lits. exists true. split; [sums|]. destruct (c_reservation c); by subst rv.
  - rewrite (row_violation_accepted c e rec d v rv L5 L7 Eo Hrv). lits.
    destruct (bound_violated v (c_reservation c)) eqn:Ev.
    + rewrite L11 in Hcell. injection Hcell as <- <- Erv. rewrite orb_true_r. lits.
      exists true. split; [sums|]. destruct (c_reservation c); by subst rv.
    + rewrite orb_false_r. destruct (Z.leb_spec 0 (c_priceIndex c)) as [Hi|Hi].
      * destruct (Z.ltb_spec (c_priceIndex c) 0); [lia|].
        rewrite L11 in Hcell. injection Hcell as <- <- <-. rewrite L7. cbn [tokens_of]. lits.
        rewrite (row_amount_accepted k c rec d v e started i) by done.
        rewrite (bool_decide_eq_true_2 (costAmount _ = costAmount _)) by done. cbn [negb].
        exists false. split; [sums|destruct (c_reservation c) as [x|]; auto].
      * destruct (Z.ltb_spec (c_priceIndex c) 0); [|lia].
        rewrite L11 in Hcell. injection Hcell as <- <- Erv. lits.
        exists true. split; [sums|]. destruct (c_reservation c); by subst rv.
Qed.

Lemma observe_accepted collector k c e rec started i C now :
  r_cost collector = Some k -> cost_wf k -> call_priced k c ->
  ledger_row (Some k) started i c e rec -> call_ok (r_limits collector) started now i c ->
  call_entry c e ->
  (ReserveCostBeforeDispatch (r_limits collector) = true -> is_Some (c_reserved c)) ->
  observe C rec collector = Some (observed C e).
Proof.
  intros Hk Hwf Hp HL HC (_ & Her & _) Hres. pose proof HL as [_ _ _ _ L5 _ L7 _ L9 L10 L11 _].
  pose proof HC as [_ _ _ _ C5 C6]. specialize (L10 k eq_refl).
  unfold observe. rewrite Hk, L9.
  assert (exists st est rv, cost_cell (Some k) c e = Some {| cc_State := st; cc_PriceIndex := c_priceIndex c;
    cc_EstimatedAmount := est; cc_Reservation := rv |} /\
    match c_reservation c, rv with Some x, Some y => same_reservation x y | None, None => True | _, _ => False end)
    as (st & est & rv & Ecell & Hrv).
  { unfold cost_cell. destruct (e_out e), (e_pay e); eexists _, _, _; (split; [done|]);
      destruct (c_reservation c); cbn; unfold same_reservation; auto. }
  rewrite Ecell. cbn [cc_PriceIndex cc_Reservation]. rewrite <- L10, Z.eqb_refl. cbn [negb].
  rewrite (reserved_amount_accepted collector k c rec rv) by auto.
  destruct (observe_state_accepted k c e rec started i C st est rv Hp HL Her Ecell Hrv)
    as (retained & -> & Hret).
  destruct rv as [x|]; [|done]. by rewrite Hret, bool_decide_eq_true_2.
Qed.

(** ** The whole ledger *)

Inductive ledger_rows (cost : option runCostState) (limits : RunUsageLimits) (started now : Z)
    : nat -> list runUsageCall -> list entry -> list RunUsageRecord -> Prop :=
| rows_nil i : ledger_rows cost limits started now i [] [] []
| rows_next i c e rec cs es recs :
    ledger_row cost started i c e rec -> call_ok limits started now i c -> call_entry c e ->
    outcome_ok (e_out e) -> duration_of (e_out e) <= since_ms now started ->
    (forall k, cost = Some k -> call_priced k c) ->
    (ReserveCostBeforeDispatch limits = true -> is_Some (c_reserved c)) ->
    ledger_rows cost limits started now (S i) cs es recs ->
    ledger_rows cost limits started now i (c :: cs) (e :: es) (rec :: recs).

Definition observed_all (cost : option runCostState) (C : checkpointCostTotals) (es : list entry) :=
  match cost with Some _ => fold_left observed es C | None => C end.

Lemma validate_records_accepted collector started now elapsed i cs es recs ids T C :
  ledger_rows (r_cost collector) (r_limits collector) started now i cs es recs ->
  (forall k, r_cost collector = Some k -> cost_wf k) ->
  elapsed = since_ms now started -> elapsed <= MaxUint64 ->
  NoDup (c_id <$> cs) -> (forall c, c ∈ cs -> c_id c ∉ ids) ->
  tnonneg T -> tfit (tadd T (rows es)) ->
  validate_records collector elapsed i ids T C recs =
  Some (tadd T (rows es), observed_all (r_cost collector) C es).
Proof.
  intros HL Hwf He Hmax. revert ids T C.
  induction HL as [i|i c e rec cs es recs Hrow Hcall Hent Hout Hdur Hpr Hres HL IH]; intros ids T C Hnd Hids HT Hfit.
  { cbn. rewrite tadd_0_r. by destruct (r_cost collector). }
  cbn [validate_records]. rewrite fmap_cons in Hnd. apply NoDup_cons in Hnd as [Hn Hnd].
  rewrite (record_labels_accepted _ _ _ _ _ _ _ _ _ _ Hrow Hcall He) by (try lia; apply Hids; set_solver).
  cbn [negb]. rewrite (record_row_accepted _ _ _ _ _ _ Hrow Hout).
  rewrite (record_shape_accepted _ _ _ _ _ _ Hrow). cbn [negb].
  rewrite rows_cons, tadd_assoc in Hfit.
  assert (Forall (fun e => outcome_ok (e_out e)) es) as Hok.
  { clear -HL. induction HL; constructor; done. }
  assert (tnonneg (row (e_out e))) by by apply row_nonneg.
  rewrite addCheckpointTotals_fit by eauto using tfit_le, rows_nonneg.
  assert (observe C rec collector = Some (match r_cost collector with Some _ => observed C e | None => C end)) as ->.
  { destruct (r_cost collector) as [k|] eqn:Ek.
    - eapply observe_accepted; eauto.
    - unfold observe. rewrite Ek. destruct Hrow as [_ _ _ _ _ _ _ _ L9 _ _ _]. by rewrite L9. }
  rewrite IH; [|done| |by apply tnonneg_add|done].
  - rewrite rows_cons, tadd_assoc. by destruct (r_cost collector).
  - intros c' Hc'. rewrite (lr_id _ _ _ _ _ _ Hrow), not_elem_of_cons. split; [|apply Hids; set_solver].
    intros E. apply Hn. rewrite <- E. by apply list_elem_of_fmap_2.
Qed.

(** The reader's sums are the sums of the book. *)
Lemma observed_all_sums k es pr un vi a o t :
  let C := {| kc_amount := a; kc_outstanding := o; kc_retained := t;
              kc_priced := u64 pr; kc_unpriced := u64 un; kc_violations := u64 vi |} in
  observed_all (Some k) C es =
  {| kc_amount := a + zsum charged es; kc_outstanding := o + zsum held es;
     kc_retained := t + zsum kept es; kc_priced := u64 (pr + zsum is_priced es);
     kc_unpriced := u64 (un + zsum is_unpriced es); kc_violations := u64 (vi + zsum is_violation es) |}.
Proof.
  cbv zeta. cbn [observed_all]. revert pr un vi a o t. induction es as [|e es IH]; intros; cbn [fold_left zsum].
  - by rewrite !Z.add_0_r.
  - unfold observed at 2. cbn -[u64 incr].
    rewrite !count_incr by (unfold is_priced, is_unpriced, is_violation; destruct (e_pay e) as [| |[]]; auto).
    rewrite IH. by rewrite !Z.add_assoc.
Qed.
End reader.
