(* ===== verification/RunPublish.v ===== *)
(** * A published checkpoint is accepted

    The invariant of the ledger along a run, and the agreement of the writer of
    checkpoints with their reader. *)

From S2P Require Import Prelude GoStrings GoBase Paths RunCost RunUsage RunUsageFacts RunBooks.
From S2P Require Import RunSystem RunProperties RunCheckpoint RunLedger.

Open Scope Z_scope.

(** The largest [time.Duration], in milliseconds. *)
Definition max_duration_ms : Z := MaxInt64 / 1000000.

(** ** The invariant *)

Definition has_store (r : RunUsage) : Prop :=
  exists ck written, r_checkpoint r = Some ck /\ ck_store ck = Some written.

Record Ledger `{UUIDLib} (r : RunUsage) (cs : list runUsageCall) (es : list entry) (now : Z) : Prop := {
  lg_nodup : NoDup (c_id <$> cs);
  lg_calls : forall i c, cs !! i = Some c -> call_ok (r_limits r) (r_started r) now i c;
  lg_length : length (r_records r) = Nat.min (length cs) MaxRunUsageRecords;
  lg_rows : forall i c e rec, cs !! i = Some c -> es !! i = Some e -> r_records r !! i = Some rec ->
    ledger_row (r_cost r) (r_started r) i c e rec;
  lg_durations : Forall (fun e => duration_of (e_out e) <= since_ms now (r_started r)) es;
  lg_clock : r_started r <= now;
  lg_dropped : (length cs <= MaxRunUsageRecords)%nat -> r_droppedRecords r = 0;
  lg_checkpoint : has_store r -> (length cs <= MaxRunUsageRecords)%nat
}.

(** Why the run stopped admitting calls, with the number of denials. *)
Definition Stopped (n : Z) (r : RunUsage) : Prop :=
  exists D, r_denied r = u64 D /\ 0 <= D <= n /\
    r_stopReason r ∈ [[]; lit "run_usage_unknown"; lit "run_budget_exceeded"] /\
    (r_budgetCause r = [] \/
     r_stopReason r = lit "run_budget_exceeded" /\ 0 < D /\
     r_budgetCause r ∈ [lit "provider_calls"; lit "total_tokens"; lit "estimated_cost_threshold";
                        lit "estimated_cost_reservation"]).

Definition phase_fits (phase : bytes) (r : RunUsage) : Prop :=
  (phase = lit "initial" /\ r_sealed r = false /\ r_records r = [] /\ r_denied r = 0 /\ r_untracked r = 0) \/
  phase ∈ [lit "admitted"; lit "settled"; lit "denied"; lit "untracked"] \/
  (phase = lit "sealed" /\ r_sealed r = true).

(** The collector was made from these limits and this card. *)
Definition made_from `{CardSyntax} (limits : RunUsageLimits) (pc : option RunPriceCard) (r : RunUsage) : Prop :=
  exists now segment r0, newRunUsage limits pc now segment = Ok r0 /\ identity r = identity r0.

(** What the reader says of a payload with at most 128 routes, written within
    the range of a [time.Duration]. *)
Definition accepted `{UUIDLib, CardSyntax} (p : runUsageCheckpointPayload) : Prop :=
  (length (s_Routes (p_Snapshot p)) <= 128)%nat -> s_ElapsedMillis (p_Snapshot p) <= max_duration_ms ->
  validateCheckpointSnapshot p = true.

(** ** The parts of a published snapshot *)

Section publish.
Context `{UUIDLib, CardSyntax}.

Lemma same_price_table k k' : price_table k' = price_table k -> same_prices k k'.
Proof. unfold price_table, same_prices. intros [= -> -> -> ->]. done. Qed.

Lemma pay_of_prices o rq c cost cost' :
  price_table <$> cost' = price_table <$> cost -> pay_of o rq c cost' = pay_of o rq c cost.
Proof.
  destruct cost as [k|], cost' as [k'|]; try done. cbn. intros [= _ Hp Hr _].
  destruct o; cbn; try done. by rewrite Hp, Hr.
Qed.

Lemma ledger_row_cost cost cost' started i c e rec :
  price_table <$> cost' = price_table <$> cost ->
  ledger_row cost started i c e rec -> ledger_row cost' started i c e rec.
Proof.
  intros Hp [L1 L2 L3 L4 L5 L6 L7 L8 L9 L10 L11 L12]. split; try done.
  - rewrite L9. by destruct cost, cost'.
  - intros k' ->. destruct cost as [k|]; [|done]. rewrite (L10 k) by done.
    injection Hp as Hc _ _ _. unfold route. by rewrite Hc.
  - rewrite L11. symmetry. by apply pay_of_prices.
Qed.

Lemma new_again limits pc now segment now' segment' r :
  newRunUsage limits pc now segment = Ok r ->
  newRunUsage limits pc now' segment' = Ok (fresh_usage limits now' segment' (r_cost r)) /\
  pc = card <$> r_cost r.
Proof.
  intros Hn. split.
  - revert Hn. unfold newRunUsage. repeat case_match; try done; by intros [= <-].
  - pose proof Hn as Hn'. apply new_usage in Hn as (cost & -> & _ & _ & _ & Hk). cbn.
    destruct cost as [k|]; [by destruct (Hk k eq_refl) as (_ & -> & _)|].
    destruct pc as [p|]; [|done]. exfalso. revert Hn'. unfold newRunUsage, new_limit.
    repeat case_match; try done; simplify_eq; done.
Qed.

Lemma ledger_rows_intro cost limits started now cs es recs i :
  (forall j c e rec, cs !! j = Some c -> es !! j = Some e -> recs !! j = Some rec ->
     ledger_row cost started (i + j) c e rec) ->
  (forall j c, cs !! j = Some c -> call_ok limits started now (i + j) c) ->
  Forall2 call_entry cs es -> length recs = length cs ->
  Forall (fun e => outcome_ok (e_out e)) es ->
  Forall (fun e => duration_of (e_out e) <= since_ms now started) es ->
  (forall k, cost = Some k -> Forall (call_priced k) cs) ->
  (ReserveCostBeforeDispatch limits = true -> Forall (fun c => is_Some (c_reserved c)) cs) ->
  ledger_rows cost limits started now i cs es recs.
Proof.
  intros Hrow Hcall He. revert recs i Hrow Hcall.
  induction He as [|c e cs es Hce He IH]; intros recs i Hrow Hcall Hlen Hok Hdur Hpr Hres.
  - destruct recs; [constructor|done].
  - destruct recs as [|rec recs]; [done|]. apply Forall_cons in Hok as [Ho Hok], Hdur as [Hd Hdur].
    pose proof (Hrow 0%nat c e rec eq_refl eq_refl eq_refl) as H1.
    pose proof (Hcall 0%nat c eq_refl) as H2. rewrite Nat.add_0_r in H1, H2.
    constructor; try done.
    + intros k Hk. specialize (Hpr k Hk). by apply Forall_cons in Hpr as [? _].
    + intros Hr. specialize (Hres Hr). by apply Forall_cons in Hres as [? _].
    + apply IH; try done.
      * intros j c' e' rec' ? ? ?. replace (S i + j)%nat with (i + S j)%nat by lia. by apply Hrow.
      * intros j c' ?. replace (S i + j)%nat with (i + S j)%nat by lia. by apply Hcall.
      * by injection Hlen.
      * intros k Hk. specialize (Hpr k Hk). by apply Forall_cons in Hpr as [_ ?].
      * intros Hr. specialize (Hres Hr). by apply Forall_cons in Hres as [_ ?].
Qed.

Lemma rows_fit es B :
  0 <= B -> tokens_fit (rows es) -> (length es <= MaxRunUsageRecords)%nat -> B <= max_duration_ms ->
  Forall (fun e => duration_of (e_out e) <= B) es -> tfit (rows es).
Proof.
  intros HB Hf Hl Hb Hd.
  assert (t_ProviderCalls (rows es) <= Z.of_nat (length es) /\ t_KnownCalls (rows es) <= Z.of_nat (length es) /\
    t_UnknownCalls (rows es) <= Z.of_nat (length es) /\ t_InFlight (rows es) <= Z.of_nat (length es) /\
    t_ReleasedCalls (rows es) <= Z.of_nat (length es) /\
    t_ProviderDurationMillis (rows es) <= Z.of_nat (length es) * B) as Hc.
  { clear Hf Hl. induction Hd as [|e es He Hd IH]; [cbn; lia|]. rewrite rows_cons. cbn [length].
    destruct (e_out e); cbn in *; nia. }
  assert (Z.of_nat (length es) * B <= 1024 * max_duration_ms) as Hm by (unfold MaxRunUsageRecords in Hl; nia).
  assert (1024 * max_duration_ms <= MaxUint64) by by vm_compute.
  assert (1024 <= MaxUint64) by by vm_compute.
  unfold MaxRunUsageRecords in Hl. unfold tfit, trel, tokens_fit in *. cbn. lia.
Qed.

Lemma phase_accepted phase now ck r :
  phase_fits phase r -> phase_ok (checkpoint_payload phase now ck r) = true.
Proof.
  unfold phase_ok, checkpoint_payload. cbn [p_Phase p_AdmissionClosed p_Snapshot].
  intros [(-> & -> & Hr & Hd & Hu)|[Hp|[-> ->]]].
  - lits. cbn. by rewrite Hr, Hd, Hu.
  - rewrite (bool_decide_eq_true_2 (phase ∈ _)) by done.
    rewrite bool_decide_eq_false_2; [done|]. intros ->. by repeat (apply elem_of_cons in Hp as [Hp|Hp]; [by vm_compute in Hp|]); apply elem_of_nil in Hp.
  - lits. by vm_compute.
Qed.

Lemma stop_accepted n r s :
  Stopped n r -> n < 2 ^ 64 -> s_StopReason s = r_stopReason r -> s_BudgetStopCause s = r_budgetCause r ->
  s_DeniedCalls s = r_denied r -> stop_ok s = true.
Proof.
  intros (D & HD & HDn & Hs & Hb) Hn E1 E2 E3. unfold stop_ok. rewrite E1, E2, E3.
  rewrite (bool_decide_eq_true_2 (r_stopReason r ∈ _)) by done. cbn [andb].
  destruct Hb as [-> | (-> & H0' & Hc)]; [done|]. apply orb_true_iff. right.
  rewrite (bool_decide_eq_true_2 (r_budgetCause r ∈ _)) by done. lits.
  rewrite HD, u64_id by (unfold is_u64, MaxUint64; lia). destruct (Z.eqb_spec D 0); [lia|done].
Qed.

Lemma routes_accepted r cs es :
  Balanced (r_totals r) (r_routes r) cs es -> tfit (rows es) ->
  validate_routes no_totals
    (map sanitize_route (merge_sort route_not_after (mk_route <$> map_to_list (r_routes r)))) = Some (rows es).
Proof.
  intros HB Hf. destruct (routes_sum _ _ _ _ HB Hf) as [Hsum Hn].
  set (l := merge_sort _ _). change (map sanitize_route l) with (sanitize_route <$> l).
  assert (l ≡ₚ mk_route <$> map_to_list (r_routes r)) as Hl by apply merge_sort_Permutation.
  assert (rr_totals <$> (sanitize_route <$> l) ≡ₚ (map_to_list (r_routes r)).*2) as Hp.
  { rewrite Hl, <- !list_fmap_compose. apply reflexive_eq, list_fmap_ext. by intros i [k t] _. }
  rewrite validate_routes_sum.
  - by rewrite tadd_0_l, Hp, Hsum.
  - apply no_totals_nonneg.
  - apply Forall_forall. intros x Hx. split.
    + apply list_elem_of_fmap in Hx as (y & -> & _). apply sanitize_canonical.
    + eapply Forall_forall in Hn; [exact Hn|]. rewrite <- Hp. by apply list_elem_of_fmap_2.
  - by rewrite tadd_0_l, Hp, Hsum.
Qed.

Lemma costs_accepted r cs es now k k0 :
  Sound r cs es -> r_cost r = Some k -> price_table k0 = price_table k ->
  (forall lim, limit k = Some lim -> lim < 10 ^ 30) ->
  matches (observed_all (Some k0) no_costs es) (snapshotLocked now r) (fresh_usage (r_limits r) 0 [] (Some k0)) = true.
Proof.
  intros HS Hk Hpt Hlim. destruct HS as [_ X2 _ _ X5].
  destruct (X2 k Hk) as [_ K1 K2 K3 K4 K5 K6 _].
  change no_costs with {| kc_amount := 0; kc_outstanding := 0; kc_retained := 0;
    kc_priced := u64 0; kc_unpriced := u64 0; kc_violations := u64 0 |}.
  rewrite observed_all_sums, !Z.add_0_l, <- K1, <- K2, <- K3, <- K4, <- K5, <- K6.
  unfold matches, snapshotLocked, costSnapshot.
  cbn [r_cost fresh_usage s_Cost s_CallLedger lg_SegmentID s_totals s_UntrackedCalls r_limits]. rewrite Hk.
  cbn [mbind option_bind cs_Version cs_SegmentID cs_ActualBilledAmount cs_KnownEstimatedAmount cs_PricedCalls
       cs_UnpricedCalls cs_Complete cs_LimitMode cs_Reservation cs_PriceCard kc_amount kc_outstanding kc_retained
       kc_priced kc_unpriced kc_violations].
  assert (limit_mode (fresh_usage (r_limits r) 0 [] (Some k0)) k0 = limit_mode r k) as Hlm.
  { unfold limit_mode. cbn. injection Hpt as _ _ _ ->. done. }
  rewrite Hlm, !Z.eqb_refl, !(bool_decide_eq_true_2 (_ = _)) by done. cbn [andb].
  destruct (ReserveCostBeforeDispatch (r_limits r)) eqn:Er; [|done]. cbn [negb].
  destruct (X5 eq_refl) as (k' & lim & Hk' & Hl & (A1 & A2 & A3 & A4 & A5) & _).
  rewrite Hk in Hk'. injection Hk' as <-. specialize (A5 _ Hl). specialize (Hlim _ Hl).
  cbn [rs_OutstandingAmount rs_RetainedAmount rs_BoundViolations rs_PeakExposureAmount].
  rewrite !Z.eqb_refl, !(bool_decide_eq_true_2 (costAmount _ = costAmount _)) by done. cbn [andb].
  rewrite cost_amount_roundtrip, decide_True by lia.
  destruct (Z.leb_spec (amount k + outstanding k + retained k) (peak k)); [|lia].
  injection Hpt as -> _ _ _. by rewrite bool_decide_eq_true_2.
Qed.

(** What a collector in a sound state would publish is accepted. *)
Lemma published_accepted limits pc r cs es now ck n phase :
  Sound r cs es -> Ledger r cs es now -> Stopped n r -> n < 2 ^ 64 -> has_store r ->
  made_from limits pc r -> phase_fits phase r ->
  accepted (checkpoint_payload phase now ck r).
Proof.
  intros HS HL HD Hn Hck (now0 & seg0 & r0 & Hnew & Hid) Hph Hroutes Hdur.
  pose proof HS as [HB X2 X3 X4 X5]. pose proof HB as [B1 B2 B3 B4 B5 B6].
  destruct HL as [G1 G2 G3 G4 G5 G6 G7 G8]. specialize (G8 Hck). pose proof (G7 G8) as Hdrop.
  destruct (new_again _ _ _ _ 0 [] _ Hnew) as [Hagain Hpc].
  pose proof Hnew as Hnu. apply new_usage in Hnu as (cost & -> & _ & _ & _ & Hcost).
  unfold identity in Hid. cbn [fresh_usage r_limits r_started r_segmentID r_cost] in *.
  assert (r_limits r = limits /\ price_table <$> r_cost r = price_table <$> cost) as [Hlimits Htable].
  { split; congruence. }
  set (B := since_ms now (r_started r)) in *. assert (0 <= B) as HB0 by (apply since_ms_nonneg; lia).
  assert (tfit (rows es)) as Hfit.
  { eapply rows_fit; try done. by rewrite <- (Forall2_length _ _ _ B1). }
  unfold validateCheckpointSnapshot.
  rewrite (phase_accepted _ _ _ _ Hph), (stop_accepted n r) by done.
  unfold checkpoint_payload in *.
  cbn [p_Snapshot p_SegmentID set s_Checkpoint s_ElapsedMillis s_CallLedger s_Limits s_Cost s_Routes s_totals
       s_Complete s_UntrackedCalls lg_Version lg_SegmentID lg_DroppedRecords lg_Records snapshotLocked] in *.
  fold B in Hdur |- *.
  rewrite Hdrop, (bool_decide_eq_true_2 (r_segmentID r = r_segmentID r)), G3 by done.
  destruct (Z.leb_spec 0 B); [|lia]. destruct (Nat.leb_spec (length cs `min` MaxRunUsageRecords) MaxRunUsageRecords); [|lia].
  cbn [andb Z.eqb Pos.eqb].
  assert (cs_PriceCard <$> costSnapshot r = pc) as ->.
  { rewrite Hpc. unfold costSnapshot. destruct (r_cost r) as [k|], cost as [k0|]; try done.
    cbn in Htable |- *. injection Htable as -> _ _ _. done. }
  rewrite Hlimits, Hagain. subst limits.
  assert (Forall2 call_entry cs es) as HF by done.
  erewrite (validate_records_accepted _ (r_started r) now B 0 cs es); cycle 1.
  { cbn [r_cost r_limits fresh_usage]. apply ledger_rows_intro; try done.
    - intros j c e rec Hc He Hr. eapply ledger_row_cost; [symmetry; exact Htable|]. by eapply G4.
    - lia.
    - intros k0 ->. destruct (r_cost r) as [k|] eqn:Ek; [|done].
      eapply Forall_impl; [exact (co_calls _ _ _ (X2 k eq_refl))|].
      intros c Hc. eapply call_priced_same; [|exact Hc]. apply same_price_table. cbn in Htable. congruence.
    - intros Hr. destruct (X5 Hr) as (k & lim & _ & _ & _ & ?). done. }
  { cbn. intros k0 ->. by destruct (Hcost k0 eq_refl). }
  { done. }
  { transitivity max_duration_ms; [done|by vm_compute]. }
  { done. }
  { set_solver. }
  { apply no_totals_nonneg. }
  { by rewrite tadd_0_l. }
  rewrite tadd_0_l.
  assert (r_totals r = rows es) as Htot.
  { rewrite B2. apply rows_nonneg in B5. unfold tnonneg, trel, tfit in *. apply totals_ext. unfold trel.
    revert B5 Hfit. generalize (rows es). clear. intros t Hn Hf. unfold trel in Hf. cbn -[u64] in *.
    split_and!; apply u64_id; unfold is_u64; lia. }
  rewrite (routes_accepted r cs es), Htot by done.
  rewrite !(bool_decide_eq_true_2 (rows es = rows es)) by done.
  destruct (Nat.leb_spec (length (map sanitize_route
    (merge_sort route_not_after (mk_route <$> map_to_list (r_routes r))))) 128); [|lia].
  rewrite bool_decide_eq_true_2.
  2: { by destruct (r_untracked r =? 0), (t_UnknownCalls (rows es) =? 0), (t_InFlight (rows es) =? 0). }
  cbn [andb r_cost fresh_usage].
  destruct (r_cost r) as [k|] eqn:Ek, cost as [k0|]; try done.
  - assert (price_table k = price_table k0) as Hpt by (cbn in Htable; congruence).
    refine (costs_accepted r cs es now k k0 HS Ek (eq_sym Hpt) _).
    intros lim Hl. destruct (Hcost k0 eq_refl) as (_ & _ & _ & _ & _ & _ & _ & _ & _ & Hl0).
    unfold price_table in Hpt. assert (limit k0 = Some lim) as El by congruence. rewrite El in Hl0. lia.
  - unfold matches. cbn [r_cost fresh_usage s_Cost set snapshotLocked].
    unfold costSnapshot. by rewrite Ek.
Qed.
End publish.
