(* ===== verification/RunDurable.v ===== *)
(** * Every checkpoint of a run is accepted

    The invariant of the ledger is kept by every step of a run, so the reader
    accepts whatever the run publishes. *)

From S2P Require Import Prelude GoStrings GoBase Paths RunCost RunUsage RunUsageFacts RunBooks.
From S2P Require Import RunSystem RunProperties RunCheckpoint RunLedger RunPublish.

Open Scope Z_scope.

Section durable.
Context `{UUIDLib, MetadataDigest, CardSyntax}.

(** ** What the invariant of the ledger reads *)

Definition ledger_view (r : RunUsage) :=
  (r_limits r, r_started r, r_records r, r_droppedRecords r, price_table <$> r_cost r).

Lemma ledger_frame r r' cs es now :
  ledger_view r' = ledger_view r -> (has_store r' -> has_store r) ->
  Ledger r cs es now -> Ledger r' cs es now.
Proof.
  unfold ledger_view. intros [= E1 E2 E3 E4 E5] Hst [G1 G2 G3 G4 G5 G6 G7 G8].
  split; rewrite ?E1, ?E2, ?E3, ?E4; auto.
  intros i c e rec Hc He Hr. eapply ledger_row_cost; [exact E5|]. auto.
Qed.

Lemma ledger_later r cs es now now' :
  now <= now' -> Ledger r cs es now -> Ledger r cs es now'.
Proof.
  intros Hn [G1 G2 G3 G4 G5 G6 G7 G8]. split; try done; [| |lia].
  - intros i c Hc. destruct (G2 i c Hc). split; try done. lia.
  - eapply Forall_impl; [exact G5|]. intros e He. cbn in *.
    pose proof (since_ms_mono now now' (r_started r) Hn). lia.
Qed.

(** What the reader compares with the identity of the store. *)
Definition metadata_of (r : RunUsage) : option bytes := metadata_sha (r_limits r) (card <$> r_cost r).
Definition stamped (segment sha : bytes) (p : runUsageCheckpointPayload) : Prop :=
  p_SegmentID p = segment /\ p_Sequence p <> 0 /\ p_MetadataSHA256 p = sha /\ checkpointMetadataSHA (p_Snapshot p) = Some sha.

(** Every checkpoint that was written is accepted and bears the identity of the
    run. *)
Definition published (r : RunUsage) : Prop :=
  forall ck written, r_checkpoint r = Some ck -> ck_store ck = Some written ->
    Forall accepted written /\ metadata_of r = Some (ck_metadataSHA ck) /\ Forall (stamped (r_segmentID r) (ck_metadataSHA ck)) written.

Lemma snapshot_metadata now r : checkpointMetadataSHA (snapshotLocked now r) = metadata_of r.
Proof.
  unfold checkpointMetadataSHA, metadata_of. cbn. f_equal. unfold costSnapshot. by destruct (r_cost r).
Qed.

Lemma metadata_identity r r' : identity r' = identity r -> metadata_of r' = metadata_of r /\ r_segmentID r' = r_segmentID r.
Proof.
  unfold identity, metadata_of. intros [= E1 _ E3 E4]. rewrite E1, E3. split; [|done]. f_equal.
  destruct (r_cost r), (r_cost r'); try done. unfold price_table in E4. cbn in *. congruence.
Qed.

Lemma published_same r r' : identity r' = identity r -> r_checkpoint r' = r_checkpoint r -> published r -> published r'.
Proof.
  intros [Em Es]%metadata_identity Ec Hp ck written. rewrite Em, Es, Ec. apply Hp.
Qed.

(** The collector, its calls and its book, after [n] steps. *)
Record Durable (limits : RunUsageLimits) (pc : option RunPriceCard) (n : Z) (now : Z)
    (r : RunUsage) (cs : list runUsageCall) (es : list entry) : Prop := {
  du_sound : Sound r cs es;
  du_ledger : Ledger r cs es now;
  du_stopped : Stopped n r;
  du_made : made_from limits pc r;
  du_published : published r;
  du_count : Z.of_nat (length cs) <= n
}.

Lemma made_from_identity limits pc r r' :
  identity r' = identity r -> made_from limits pc r -> made_from limits pc r'.
Proof. intros Hi (now & seg & r0 & Hn & He). exists now, seg, r0. split; [done|congruence]. Qed.

Lemma stopped_unknown n r : Stopped n r -> Stopped n (set_stop (lit "run_usage_unknown") [] r).
Proof.
  intros (D & HD & HDn & _ & _). exists D. split; [done|]. split; [done|].
  split; [by apply (list_elem_of_lookup_2 _ 1)|by left].
Qed.

Lemma stopped_same n r r' :
  r_denied r' = r_denied r -> r_stopReason r' = r_stopReason r -> r_budgetCause r' = r_budgetCause r ->
  Stopped n r -> Stopped n r'.
Proof. unfold Stopped. by intros -> -> ->. Qed.

Lemma stopped_more n n' r : n <= n' -> Stopped n r -> Stopped n' r.
Proof. intros Hn (D & ? & ? & ? & ?). exists D. split_and!; try done; lia. Qed.

Lemma fail_durable limits pc n now r cs es :
  Durable limits pc n now r cs es -> Durable limits pc n now (failCheckpointLocked r).1 cs es.
Proof.
  intros [D1 D2 D3 D4 D5 D6]. split; [| | | |exact D5|done].
  - by eapply sound_books; [|exact D1].
  - by eapply ledger_frame; [| |exact D2].
  - by eapply stopped_same, stopped_unknown, D3.
  - by eapply made_from_identity; [|exact D4].
Qed.

(** Publishing keeps the invariant: what is written is accepted. *)
Lemma persist_durable limits pc n now r cs es w phase :
  Durable limits pc n now r cs es -> n < 2 ^ 64 -> phase_fits phase r ->
  Durable limits pc n now (persistCheckpointLocked w phase now r).1 cs es.
Proof.
  intros HD Hn Hph. unfold persistCheckpointLocked. destruct (r_checkpoint r) as [ck|] eqn:Eck; [|done].
  destruct (r_checkpointErr r); [done|]. destruct (ck_store ck) as [written|] eqn:Est; [|by apply fail_durable].
  destruct (_ || _) eqn:Eseq; [by apply fail_durable|]. cbn [fst].
  pose proof HD as [D1 D2 D3 D4 D5 D6].
  assert (has_store r) as Hst by by exists ck, written.
  split; [| | | | |done].
  - by eapply sound_books; [|exact D1].
  - by eapply ledger_frame; [| |exact D2].
  - by eapply stopped_same; [| | |exact D3].
  - by eapply made_from_identity; [|exact D4].
  - intros ck' written' [= <-] [= <-]. destruct (D5 _ _ Eck Est) as (Ha & Hm & Hst'). cbn. rewrite !Forall_app, !Forall_singleton.
    split_and!; [done|by eapply published_accepted|exact Hm|exact Hst'|].
    apply orb_false_iff in Eseq as [Eseq _]. apply Z.eqb_neq in Eseq. split_and!; [done|exact Eseq|done|].
    etransitivity; [exact (snapshot_metadata now r)|exact Hm].
Qed.

Lemma durable_later limits pc n n' now now' r cs es :
  n <= n' -> now <= now' -> Durable limits pc n now r cs es -> Durable limits pc n' now' r cs es.
Proof.
  intros Hn Ht [D1 D2 D3 D4 D5 D6]. split; try done; [by eapply ledger_later|by eapply stopped_more|lia].
Qed.

(** The fields that only the checkpoint code writes. *)
Lemma durable_frame limits pc n now r r' cs es :
  books r' = books r -> ledger_view r' = ledger_view r -> identity r' = identity r ->
  r_checkpoint r' = r_checkpoint r -> r_denied r' = r_denied r ->
  r_stopReason r' = r_stopReason r -> r_budgetCause r' = r_budgetCause r ->
  Durable limits pc n now r cs es -> Durable limits pc n now r' cs es.
Proof.
  intros Hb Hv Hi Hc Hd Hs Hk [D1 D2 D3 D4 D5 D6]. split; try done.
  - by eapply sound_books.
  - eapply ledger_frame; [exact Hv| |exact D2]. unfold has_store. by rewrite Hc.
  - by eapply stopped_same.
  - by eapply made_from_identity.
  - by apply (published_same r).
Qed.

Lemma notify_durable limits pc n now r cs es :
  Durable limits pc n now r cs es -> Durable limits pc n now (notifyReservationWaitersLocked r) cs es.
Proof.
  apply durable_frame; unfold notifyReservationWaitersLocked; by destruct (r_reservationChanged r).
Qed.

(** ** Settlements *)

(** The usage of a call that is settled as known has the kind of the call. *)
Lemma known_kind now u rel bil c r d v :
  settlement u rel bil -> settle_outcome now u rel bil c r = OKnown d v ->
  c_request c = match bil with Some _ => true | None => false end /\
  (bil <> None -> t_PromptTokens v = 0 /\ t_CompletionTokens v = 0 /\ t_TotalTokens v = 0).
Proof.
  unfold settle_outcome. intros Hs. destruct rel; [done|].
  destruct (valid_values _ _ _ _) as [x|] eqn:Ev; [|done]. intros [= _ <-]. revert Ev.
  unfold valid_values. destruct u as [y|]; [|done].
  destruct (runUsageTokens (Some y)) as [v0|] eqn:E0; [|done].
  destruct (c_request c <>b _) eqn:Eq; [done|]. breflect. intros Ev. split; [done|].
  intros Hb. inversion Hs; subst; [done|]. vm_compute in E0. injection E0 as <-.
  destruct (c_cacheWriteSeen c).
  - destruct (_ && _); [|done]. destruct (_ && _); [|done]. by injection Ev as <-.
  - destruct (_ && _); [|done]. by injection Ev as <-.
Qed.

Lemma outcome_duration now u rel bil c r started :
  started <= c_started c <= now ->
  duration_of (settle_outcome now u rel bil c r) <= since_ms now started.
Proof.
  intros Hc. pose proof (since_ms_nonneg now started ltac:(lia)).
  assert (u64 (since_ms now (c_started c)) <= since_ms now started) as Hu.
  { pose proof (since_ms_nonneg now (c_started c) ltac:(lia)).
    transitivity (since_ms now (c_started c)).
    - unfold u64. apply Z.mod_le; lia.
    - unfold since_ms. apply Z.quot_le_mono; lia. }
  unfold settle_outcome. destruct rel; [done|]. by destruct (valid_values _ _ _ _).
Qed.

Lemma settled_view o rq c r :
  ledger_view (settled o rq c r) =
  (r_limits r, r_started r, on_records (settle_record o rq c (r_cost r)) c (r_records r),
   r_droppedRecords r, price_table <$> r_cost r).
Proof.
  pose proof (settled_identity o rq c r) as Hi. unfold identity in Hi. injection Hi as E1 E2 _ E3.
  unfold ledger_view. rewrite E1, E2, E3. unfold settled. by destruct (settle_error o rq c r).
Qed.

Lemma settled_checkpoint o rq c r : r_checkpoint (settled o rq c r) = r_checkpoint r.
Proof. unfold settled. by destruct (settle_error o rq c r). Qed.

(** The fields of a row that no settlement touches. *)
Definition row_head (rec : RunUsageRecord) :=
  (rec_Ordinal rec, rec_CallID rec, rec_LogicalRoundID rec, rec_LogicalRequestID rec, rec_ModelAttemptID rec,
   (rec_AttemptIndex rec, rec_RetryIndex rec, rec_Provider rec, rec_RequestedModel rec, rec_ResolvedModel rec),
   (rec_Source rec, rec_Role rec, rec_Effort rec, rec_StartedOffsetMillis rec)).

Lemma settle_record_head o rq c cost rec : row_head (settle_record o rq c cost rec) = row_head rec.
Proof.
  unfold settle_record, cost_row, record_known.
  destruct o; [done|by destruct cost..|]. by destruct cost, (c_request c), (_ && _ && _).
Qed.

Lemma settle_record_fields o rq c cost rec :
  o <> OInFlight -> rec_Tokens rec = None -> rec_Requests rec = None -> rec_ProviderDurationMillis rec = 0 ->
  time_to_live (rec_CacheTTL rec) -> time_to_live (c_cacheTTL c) ->
  let rec' := settle_record o rq c cost rec in
  rec_State rec' = state_name o /\ rec_ProviderDurationMillis rec' = duration_of o /\
  rec_Tokens rec' = tokens_of o /\ time_to_live (rec_CacheTTL rec') /\
  rec_Cost rec' = match cost with
    | Some k => Some (settle_cost_state (values_of o) (known_of o) (release_of o) rq c k).1.2
    | None => rec_Cost rec end /\
  rec_Requests rec' = match o with OKnown _ _ => if c_request c then Some rq else None | _ => None end.
Proof.
  intros Ho Ht Hr Hd H1' H2'. cbv zeta. unfold settle_record, cost_row, record_known.
  destruct o; [done|by destruct cost..|]. destruct cost, (c_request c), (_ && _ && _); done.
Qed.

(** The new row of a settled call. *)
Lemma settled_row now u rel bil c r e rec i started :
  ledger_row (r_cost r) started i c e rec -> e_out e = OInFlight -> settlement u rel bil ->
  time_to_live (c_cacheTTL c) ->
  let o := settle_outcome now u rel bil c r in
  let rq := requests_of o bil in
  ledger_row (r_cost r) started i c (entry_settled e o (pay_of o rq c (r_cost r)))
    (settle_record o rq c (r_cost r) rec).
Proof.
  intros [L1 L2 L3 L4 L5 L6 L7 L8 L9 L10 L11 L12] Eo Hs Httl o rq.
  assert (o <> OInFlight) as Ho.
  { unfold o, settle_outcome. destruct rel; [done|]. by destruct (valid_values _ _ _ _). }
  rewrite Eo in *. assert (rec_Requests rec = None) as Hreq.
  { destruct (rec_Requests rec); [|done]. by destruct L12 as (_ & _ & d & v & ? & _). }
  assert (forall d v, o = OKnown d v -> c_request c = match bil with Some _ => true | None => false end /\
    (bil <> None -> t_PromptTokens v = 0 /\ t_CompletionTokens v = 0 /\ t_TotalTokens v = 0)) as Hkind
    by (intros d v Hov; by eapply known_kind).
  destruct (settle_record_fields o rq c (r_cost r) rec Ho L7 Hreq L6 L8 Httl) as (F1 & F2 & F3 & F4 & F5 & F6).
  pose proof (settle_record_head o rq c (r_cost r) rec) as Hh. unfold row_head in Hh.
  injection Hh as E1 E2 E3 E4 E5 E6 E7 E8 E9 E10 E11 E12 E13 E14.
  split; cbn [e_out entry_settled e_pay]; try done.
  - congruence.
  - congruence.
  - unfold canonical_labels in *. by rewrite E3, E4, E5, E6, E7, E8, E9, E10, E11, E12, E13.
  - congruence.
  - rewrite F5. destruct (r_cost r) as [k|]; [by apply settle_cost_cell|]. by rewrite L9.
  - rewrite E8, E9. done.
  - rewrite F6. destruct o as [| |d|d v]; [done| | |]; try by destruct (r_cost r).
    destruct (Hkind d v eq_refl) as [Hk _]. unfold rq. destruct bil as [b|]; rewrite Hk; [done|]. done.
  - rewrite F6. destruct o as [| |d|d v]; try done.
    destruct (Hkind d v eq_refl) as [Hk Hz]. unfold rq. destruct bil as [b|]; rewrite Hk.
    + split_and!; [done|destruct b; cbn; lia..|]. exists d, v. split; [done|]. by apply Hz.
    + done.
Qed.

Lemma ledger_settled now t1 u rel bil c c' r e cs es i :
  Ledger r cs es now -> now <= t1 -> cs !! i = Some c -> es !! i = Some e -> e_out e = OInFlight ->
  length cs = length es -> settlement u rel bil ->
  c_id c' = c_id c -> c_started c' = c_started c -> c_recordIndex c' = c_recordIndex c ->
  c_cacheTTL c' = c_cacheTTL c -> c_reservation c' = c_reservation c ->
  (forall cost st j e rec, ledger_row cost st j c e rec -> ledger_row cost st j c' e rec) ->
  let o := settle_outcome t1 u rel bil c r in
  let rq := requests_of o bil in
  Ledger (settled o rq c r) (<[i := c']> cs)
    (<[i := entry_settled e o (pay_of o rq c (r_cost r))]> es) t1.
Proof.
  intros HL Ht Hi He Eo Hlen Hs S1 S2 S3 S4 S5 S6 o rq.
  apply (ledger_later _ _ _ _ t1) in HL; [|done]. destruct HL as [G1 G2 G3 G4 G5 G6 G7 G8].
  pose proof (settled_view o rq c r) as Hv. unfold ledger_view in Hv. injection Hv as V1 V2 V3 V4 V5.
  pose proof (G2 i c Hi) as [C1 C2 C3 C4 C5 C6].
  assert (i < length cs)%nat as Hil by by eapply lookup_lt_Some.
  assert (length (on_records (settle_record o rq c (r_cost r)) c (r_records r)) = length (r_records r)) as Hrl.
  { unfold on_records. destruct (0 <=? _); [apply length_alter|done]. }
  split; rewrite ?V1, ?V2, ?V3, ?V4, ?length_insert; try done.
  - rewrite list_fmap_insert, S1. by rewrite list_insert_id; [|rewrite list_lookup_fmap, Hi].
  - intros j x [(-> & <- & _)|[Hne Hx]]%list_lookup_insert_Some; [|by apply G2].
    split; rewrite ?S1, ?S2, ?S3, ?S4, ?S5; done.
  - by rewrite Hrl.
  - intros j x y rec Hx Hy Hr. eapply ledger_row_cost; [exact V5|]. revert Hr. unfold on_records. rewrite C1.
    destruct (Nat.ltb_spec i MaxRunUsageRecords) as [Hmax|Hmax].
    + destruct (Z.leb_spec 0 (Z.of_nat i)); [|lia]. rewrite Nat2Z.id.
      destruct (decide (i = j)) as [<-|Hne].
      * rewrite list_lookup_alter_eq. intros (rec0 & Hr0 & ->)%fmap_Some.
        rewrite list_lookup_insert_eq in Hx by done. rewrite list_lookup_insert_eq in Hy by lia.
        injection Hx as <-. injection Hy as <-. apply S6. apply settled_row; try done. by eapply G4.
      * rewrite list_lookup_alter_ne by done. rewrite list_lookup_insert_ne in Hx by done. rewrite list_lookup_insert_ne in Hy by done. by apply G4.
    + cbn [Z.leb Z.compare]. intros Hr.
      assert (i <> j). { intros <-. apply lookup_lt_Some in Hr. rewrite G3 in Hr. lia. }
      rewrite list_lookup_insert_ne in Hx by done. rewrite list_lookup_insert_ne in Hy by done. by apply G4.
  - apply Forall_insert; [done|]. cbn. by apply outcome_duration.
  - intros Hst. apply G8. unfold has_store in *. by rewrite settled_checkpoint in Hst.
Qed.

Lemma settled_stopped n o rq c r : Stopped n r -> Stopped n (settled o rq c r).
Proof.
  intros HS. unfold settled. destruct (settle_error o rq c r).
  - by eapply stopped_same, stopped_unknown, HS.
  - by eapply stopped_same, HS.
Qed.

(** A row stays a row of the call when only its flags change. *)
Lemma ledger_row_call cost started i c c' e rec :
  c_id c' = c_id c -> c_started c' = c_started c -> c_priceIndex c' = c_priceIndex c ->
  c_reservation c' = c_reservation c -> c_request c' = c_request c ->
  ledger_row cost started i c e rec -> ledger_row cost started i c' e rec.
Proof.
  intros S1 S2 S3 S4 S5 [L1 L2 L3 L4 L5 L6 L7 L8 L9 L10 L11 L12]. split; try done; try congruence.
  - rewrite L9. unfold cost_cell. by rewrite S3, S4.
  - intros k Hk. rewrite S3. auto.
  - rewrite L11. unfold pay_of. by rewrite S3, S4.
  - by rewrite S5.
Qed.

Lemma durable_settleLocked limits pc n now t1 u rel bil r cs es i c r' c' err :
  Durable limits pc n now r cs es -> now <= t1 -> cs !! i = Some c -> settlement u rel bil ->
  settleRequestLocked t1 u rel bil c r = (r', c', err) ->
  exists es', Durable limits pc n t1 r' (<[i := c']> cs) es'.
Proof.
  intros HD Ht Hi Hs Hset. destruct (c_settled c) eqn:Ec.
  { unfold settleRequestLocked in Hset. rewrite Ec in Hset. injection Hset as <- <- _.
    exists es. rewrite list_insert_id by done. by eapply durable_later; [|exact Ht|exact HD]. }
  rewrite settleRequestLocked_eq in Hset by done. cbv zeta in Hset. injection Hset as <- <- _.
  pose proof HD as [D1 D2 D3 D4 D5 D6]. pose proof (snd_balanced _ _ _ D1) as HB.
  destruct (Forall2_lookup_l _ _ _ _ _ (bal_calls _ _ _ _ HB) Hi) as (e & He & Hce).
  pose proof Hce as (_ & _ & Eo). assert (e_out e = OInFlight) as Eoi by tauto.
  set (c2 := c <| c_settled := true |>).
  change (settle_outcome t1 u rel bil c2 r) with (settle_outcome t1 u rel bil c r).
  set (o := settle_outcome _ _ _ _ _ _).
  change (settled o (requests_of o bil) c2 r) with (settled o (requests_of o bil) c r).
  set (c3 := c2 <| c_settlementErr := _ |>).
  assert (forall p, o <> OInFlight /\ outcome_ok o /\ tokens_fit (rows (<[i := entry_settled e o p]> es))) as Hok
    by (intros p; eapply settle_outcome_ok; eauto using settlement_typed).
  destruct (Hok PNone) as (Ho1 & Ho2 & _). exists (<[i := entry_settled e o (pay_of o (requests_of o bil) c (r_cost r))]> es).
  apply notify_durable. split.
  - eapply sound_settled; try done; [apply requests_of_01|apply Hok].
  - eapply ledger_settled; try done.
    + apply (Forall2_length _ _ _ (bal_calls _ _ _ _ HB)).
    + intros. by apply (ledger_row_call _ _ _ c).
  - by apply settled_stopped.
  - eapply made_from_identity; [apply settled_identity|done].
  - by eapply published_same; [apply settled_identity|apply settled_checkpoint|].
  - by rewrite length_insert.
Qed.

(** A change of a call that no invariant reads. *)
Lemma durable_call limits pc n now r cs es i c c' :
  Durable limits pc n now r cs es -> cs !! i = Some c -> same_call c c' ->
  c_id c' = c_id c -> c_started c' = c_started c -> c_recordIndex c' = c_recordIndex c ->
  time_to_live (c_cacheTTL c') ->
  Durable limits pc n now r (<[i := c']> cs) es.
Proof.
  intros [D1 D2 D3 D4 D5 D6] Hi Hsame S1 S2 S3 S4. split; try done.
  - by eapply sound_same_call.
  - destruct D2 as [G1 G2 G3 G4 G5 G6 G7 G8]. split; rewrite ?length_insert; try done.
    + rewrite list_fmap_insert, S1. by rewrite list_insert_id; [|rewrite list_lookup_fmap, Hi].
    + intros j x [(-> & <- & _)|[Hne Hx]]%list_lookup_insert_Some; [|by apply G2].
      destruct (G2 _ _ Hi), Hsame as (_ & _ & _ & E4 & _ & _). split; rewrite ?S1, ?S2, ?S3, ?E4; done.
    + intros j x e rec [(-> & <- & _)|[Hne Hx]]%list_lookup_insert_Some He Hr; [|by apply G4].
      destruct Hsame as (_ & _ & E3 & E4 & _ & E6). apply (ledger_row_call _ _ _ c); auto.
  - by rewrite length_insert.
Qed.

Lemma durable_settle limits pc n now w t1 t2 u rel bil r cs es i c r' c' err :
  Durable limits pc n now r cs es -> n < 2 ^ 64 -> now <= t1 <= t2 -> cs !! i = Some c -> settlement u rel bil ->
  settleRequest w t1 t2 u rel bil c r = (r', c', err) ->
  exists es', Durable limits pc n t2 r' (<[i := c']> cs) es'.
Proof.
  intros HD Hn Ht Hi Hs. unfold settleRequest. destruct (c_settled c) eqn:Ec.
  { intros [= <- <- _]. exists es. rewrite list_insert_id by done. eapply durable_later; [| |exact HD]; lia. }
  destruct (settleRequestLocked _ _ _ _ _ _) as [[r1 c1] e1] eqn:E1.
  eapply durable_settleLocked in E1 as [es' HD1]; [|exact HD|lia|done|done].
  apply (durable_later _ _ _ n _ t2) in HD1; [|lia|lia].
  eapply (persist_durable _ _ _ _ _ _ _ w (lit "settled")) in HD1; [|done|].
  2: { right. left. by apply (list_elem_of_lookup_2 _ 1). }
  destruct (persistCheckpointLocked _ _ _ _) as [r2 pe]. cbn [fst] in HD1. intros [= <- <- _].
  exists es'. destruct pe as [e|]; [|done].
  rewrite <- (list_insert_insert_eq cs i _ c1). apply lookup_lt_Some in Hi as Hlt.
  eapply durable_call; [exact HD1|by apply list_lookup_insert_eq|done..|].
  destruct HD1 as [_ D2 _ _ _ _]. destruct (lg_calls _ _ _ _ D2 i c1) as [_ _ _ C4 _ _]; [by apply list_lookup_insert_eq|].
  done.
Qed.

(** ** Admissions *)

Lemma logical_uuid id : logical_id_ok (runUsageUUID id) = true.
Proof.
  unfold logical_id_ok. apply orb_true_iff.
  destruct (runUsageUUID_idemp id) as [E|E]; [left|right]; by apply bool_decide_eq_true_2.
Qed.

(** The row of a new call. *)
Lemma call_record_row d c r cs es :
  Sound r (cs ++ [c]) (es ++ [entry_admitted c]) -> length cs = length es ->
  (forall k, r_cost r = Some k -> c_priceIndex c = route k (d_Provider d) (d_Model d)) ->
  ledger_row (r_cost r) (r_started r) (length cs) c (entry_admitted c) (call_record d c r).
Proof.
  intros [[_ B2 _ _ _ _] X2 _ _ _] Hlen Hpi. split; try done.
  - cbn [call_record rec_Ordinal]. rewrite B2.
    destruct (rows_counts (es ++ [entry_admitted c])) as [_ Hc]. rewrite length_app in Hc. cbn [length] in Hc.
    generalize dependent (rows (es ++ [entry_admitted c])). intros t _ Hc. cbn -[u64 Z.add Z.of_nat].
    unfold u64. rewrite <- Zplus_mod. f_equal. lia.
  - unfold canonical_labels, call_record.
    cbn [rec_Provider rec_RequestedModel rec_ResolvedModel rec_Source rec_Role rec_Effort rec_AttemptIndex
         rec_RetryIndex rec_LogicalRoundID rec_LogicalRequestID rec_ModelAttemptID].
    split_and!; [apply one_of_idemp|apply runUsageModelLabel_idemp|by vm_compute|apply one_of_idemp..|lia|lia|].
    cbn [forallb]. by rewrite !logical_uuid.
  - by apply (list_elem_of_lookup_2 _ 0).
  - intros k Hk. cbn [call_record rec_Provider rec_RequestedModel]. rewrite (Hpi k Hk).
    symmetry. apply route_labels. by eapply co_wf, X2.
  - cbn. by destruct (r_cost r).
Qed.

(** Appending the row of a new call. *)
Lemma ledger_append d c r cs es now :
  Ledger r cs es now -> Sound r (cs ++ [c]) (es ++ [entry_admitted c]) -> length cs = length es ->
  (forall k, r_cost r = Some k -> c_priceIndex c = route k (d_Provider d) (d_Model d)) ->
  c_id c ∉ (c_id <$> cs) -> validRunUsageCheckpointUUID (c_id c) = true -> c_started c = now ->
  c_cacheTTL c = [] ->
  (ReserveCostBeforeDispatch (r_limits r) = false -> c_reservation c = None) ->
  (forall rv, c_reservation c = Some rv -> rv_OutputTokens rv <= u64 (MaxOutputTokensPerCall (r_limits r))) ->
  (has_store r -> length (r_records r) <> MaxRunUsageRecords) ->
  Ledger (appendCallRecord d c r).1 (cs ++ [(appendCallRecord d c r).2]) (es ++ [entry_admitted c]) now.
Proof.
  intros [G1 G2 G3 G4 G5 G6 G7 G8] HS Hlen Hpi Hid Hu Hst Httl Hr1 Hr2 Hstore.
  pose proof (call_record_row d c r cs es HS Hlen Hpi) as Hrow.
  assert (Forall (fun e => duration_of (e_out e) <= since_ms now (r_started r)) (es ++ [entry_admitted c])) as Hdur.
  { apply Forall_app. split; [done|]. apply Forall_singleton. cbn. apply since_ms_nonneg. lia. }
  assert (NoDup (c_id <$> cs ++ [c])) as Hnd.
  { rewrite fmap_app. apply NoDup_app. split; [done|]. split; [set_solver|apply NoDup_singleton]. }
  unfold appendCallRecord. destruct (Nat.eqb_spec (length (r_records r)) MaxRunUsageRecords) as [Hfull|Hroom].
  - cbn [fst snd]. split; cbn [r_limits r_started r_records r_cost r_droppedRecords set]; rewrite ?length_app; cbn [length].
    + by rewrite fmap_app in Hnd |- *.
    + intros j x [Hx|[Hj Hx]]%lookup_app_Some; [by apply G2|].
      apply list_lookup_singleton_Some in Hx as [Hj0 <-].
      split; cbn [c_recordIndex c_id c_started c_cacheTTL c_reservation set]; rewrite ?Hst, ?Httl;
        try done; [|by apply (list_elem_of_lookup_2 _ 0)].
      destruct (Nat.ltb_spec j MaxRunUsageRecords); [lia|done].
    + rewrite Hfull in *. lia.
    + intros j x y rec Hx Hy Hr. apply lookup_lt_Some in Hr as Hlt.
      rewrite lookup_app_l in Hx by lia. rewrite lookup_app_l in Hy by lia. by apply G4.
    + done.
    + lia.
    + lia.
    + intros Hs. by destruct (Hstore Hs).
  - cbn [fst snd]. assert (length (r_records r) = length cs) as Hrl by lia.
    split; cbn [r_limits r_started r_records r_cost r_droppedRecords set]; rewrite ?length_app; cbn [length].
    + by rewrite fmap_app in Hnd |- *.
    + intros j x [Hx|[Hj Hx]]%lookup_app_Some; [by apply G2|].
      apply list_lookup_singleton_Some in Hx as [Hj0 <-].
      split; cbn [c_recordIndex c_id c_started c_cacheTTL c_reservation set]; rewrite ?Hst, ?Httl;
        try done; [|by apply (list_elem_of_lookup_2 _ 0)].
      destruct (Nat.ltb_spec j MaxRunUsageRecords); [|lia]. f_equal. lia.
    + lia.
    + intros j x y rec [Hx|[Hj Hx]]%lookup_app_Some Hy Hr.
      * apply lookup_lt_Some in Hx as Hlt. rewrite lookup_app_l in Hy by lia.
        rewrite lookup_app_l in Hr by lia. by apply G4.
      * apply list_lookup_singleton_Some in Hx as [Hj0 <-]. assert (j = length cs) as -> by lia.
        rewrite lookup_app_r, Hlen, Nat.sub_diag in Hy by lia. injection Hy as <-.
        rewrite lookup_app_r, Hrl, Nat.sub_diag in Hr by lia. injection Hr as <-.
        by apply (ledger_row_call _ _ _ c).
    + done.
    + lia.
    + intros. apply G7. lia.
    + intros Hs. lia.
Qed.

Lemma admission_room r d index :
  admission_denial r d index = None -> has_store r -> length (r_records r) <> MaxRunUsageRecords.
Proof.
  intros Hd (ck & written & Hck & _) Hl. unfold admission_denial in Hd. rewrite Hck, Hl in Hd.
  by rewrite Nat.leb_refl, !orb_true_r in Hd.
Qed.

(** What counting a call leaves alone. *)
Lemma counted_rest d r :
  ledger_view (counted d r) = ledger_view r /\ identity (counted d r) = identity r /\
  r_checkpoint (counted d r) = r_checkpoint r /\ r_denied (counted d r) = r_denied r /\
  r_stopReason (counted d r) = r_stopReason r /\ r_budgetCause (counted d r) = r_budgetCause r.
Proof. unfold counted. by destruct (r_routes r !! route_key r d). Qed.

Lemma append_rest d c r :
  identity (appendCallRecord d c r).1 = identity r /\
  r_checkpoint (appendCallRecord d c r).1 = r_checkpoint r /\ r_denied (appendCallRecord d c r).1 = r_denied r /\
  r_stopReason (appendCallRecord d c r).1 = r_stopReason r /\
  r_budgetCause (appendCallRecord d c r).1 = r_budgetCause r.
Proof. unfold appendCallRecord. by destruct (_ =? _)%nat. Qed.

(** The collector that differs from another only in the amounts of its cost state. *)
Lemma identity_view r k :
  identity (r <| r_cost := Some k |>) = identity r -> ledger_view (r <| r_cost := Some k |>) = ledger_view r.
Proof. unfold identity, ledger_view. cbn. intros [= E]. by rewrite E. Qed.

Lemma durable_appended limits pc n now id t1 d rv a r r0 cs es :
  let c := new_call (route_key r0 d) id t1 (price_index r d) rv a (d_Request d) in
  let x := appendCallRecord d c (counted d r0) in
  Durable limits pc n now r cs es -> now <= t1 -> fresh_id id cs ->
  (r0 = r \/ exists k, r0 = r <| r_cost := Some k |>) -> identity r0 = identity r ->
  price_index r0 d = price_index r d -> admission_denial r d (price_index r d) = None ->
  (ReserveCostBeforeDispatch (r_limits r) = false -> rv = None) ->
  (forall x, rv = Some x -> rv_OutputTokens x <= u64 (MaxOutputTokensPerCall (r_limits r))) ->
  Sound (counted d r0) (cs ++ [c]) (es ++ [entry_admitted c]) ->
  Durable limits pc (n + 1) t1 x.1 (cs ++ [x.2]) (es ++ [entry_admitted c]).
Proof.
  intros c x [D1 D2 D3 D4 D5 D6] Ht [Hid Hnew] Hr0 Hi Hpi Hden Hr1 Hr2 HS.
  destruct (counted_rest d r0) as (V1 & V2 & V3 & V4 & V5 & V6).
  destruct (append_rest d c (counted d r0)) as (A2 & A3 & A4 & A5 & A6). fold x in A2, A3, A4, A5, A6.
  assert (ledger_view r0 = ledger_view r /\ r_checkpoint r0 = r_checkpoint r /\ r_denied r0 = r_denied r /\
    r_stopReason r0 = r_stopReason r /\ r_budgetCause r0 = r_budgetCause r) as (U1 & U3 & U4 & U5 & U6).
  { destruct Hr0 as [-> |[k ->]]; [done|]. split; [by apply identity_view|done]. }
  assert (r_limits (counted d r0) = r_limits r /\ r_records (counted d r0) = r_records r) as [L1 L2].
  { rewrite U1 in V1. unfold ledger_view in V1. by injection V1. }
  assert (has_store (counted d r0) -> has_store r) as Hst by (unfold has_store; by rewrite V3, U3).
  split.
  - by apply sound_append.
  - apply ledger_append; try done.
    + apply (ledger_later _ _ _ now); [done|]. apply (ledger_frame r); [congruence|done..].
    + apply (Forall2_length _ _ _ (bal_calls _ _ _ _ (snd_balanced _ _ _ D1))).
    + intros k Hk. pose proof (counted_books d r0) as (_ & _ & _ & C4)%books_fields. cbn.
      rewrite <- Hpi. unfold price_index. by rewrite <- C4, Hk.
    + by rewrite L1.
    + by rewrite L1.
    + intros Hs. rewrite L2. eauto using admission_room.
  - apply (stopped_more n); [lia|]. apply (stopped_same _ r); [congruence..|done].
  - apply (made_from_identity _ _ r); [congruence|done].
  - by apply (published_same r); [congruence|congruence|].
  - rewrite length_app. cbn. lia.
Qed.

Lemma persist_stopped n w phase now r : Stopped n r -> Stopped n (persistCheckpointLocked w phase now r).1.
Proof.
  intros HS. unfold persistCheckpointLocked, failCheckpointLocked.
  repeat case_match; try done; by eapply stopped_same, stopped_unknown, HS || by eapply stopped_same, HS.
Qed.

Lemma notify_stopped n r : Stopped n r -> Stopped n (notifyReservationWaitersLocked r).
Proof. unfold notifyReservationWaitersLocked. by case_match. Qed.

Lemma settleLocked_stopped n now u rel bil c r :
  Stopped n r -> Stopped n (settleRequestLocked now u rel bil c r).1.1.
Proof.
  intros HS. destruct (c_settled c) eqn:Ec; [unfold settleRequestLocked; by rewrite Ec|].
  rewrite settleRequestLocked_eq by done. cbn [fst].
  by apply notify_stopped, settled_stopped.
Qed.

(** A denial is counted. *)
Lemma durable_denied limits pc n now r cs es :
  Durable limits pc (n + 1) now r cs es -> Stopped n r ->
  Durable limits pc (n + 1) now (r <| r_denied ::= incr |>) cs es.
Proof.
  intros [D1 D2 _ D4 D5 D6] (D & HD & Hn & Hs & Hb). split; try done.
  - by eapply sound_books; [|exact D1].
  - by eapply ledger_frame; [| |exact D2].
  - exists (D + 1). cbn [r_denied r_stopReason r_budgetCause set]. rewrite HD, incr_u64.
    split_and!; try done; try lia. destruct Hb as [?|(? & ? & ?)]; [by left|right]. split_and!; try done. lia.
Qed.

Lemma durable_admit limits pc n w id t1 t2 d rv a r r0 cs es r' made res :
  let c := new_call (route_key r0 d) id t1 (price_index r d) rv a (d_Request d) in
  Durable limits pc (n + 1) t1 (appendCallRecord d c (counted d r0)).1
    (cs ++ [(appendCallRecord d c (counted d r0)).2]) (es ++ [entry_admitted c]) ->
  Stopped n r0 -> n + 1 < 2 ^ 64 -> t1 <= t2 ->
  admit_call w id t1 t2 d (price_index r d) rv a r0 = (r', made, res) ->
  exists es', Durable limits pc (n + 1) t2 r' (cs ++ option_list made) es'.
Proof.
  intros c HD Hs Hn Ht. unfold admit_call. fold (counted d r0).
  fold (new_call (route_key r0 d) id t1 (price_index r d) rv a (d_Request d)). fold c.
  assert (Stopped n (appendCallRecord d c (counted d r0)).1) as Hs2.
  { destruct (counted_rest d r0) as (_ & _ & _ & V4 & V5 & V6).
    destruct (append_rest d c (counted d r0)) as (_ & _ & A4 & A5 & A6).
    apply (stopped_same _ r0); [congruence..|done]. }
  destruct (appendCallRecord d c (counted d r0)) as [r2 c2]. cbn [fst snd] in HD, Hs2.
  apply (durable_later _ _ _ (n + 1) _ t2) in HD; [|lia|done].
  apply (persist_durable _ _ _ _ _ _ _ w (lit "admitted")) in HD; [|done|].
  2: { right. left. by apply (list_elem_of_lookup_2 _ 0). }
  apply (persist_stopped _ w (lit "admitted") t2) in Hs2.
  destruct (persistCheckpointLocked w _ t2 r2) as [r3 pe]. cbn [fst] in HD, Hs2. destruct pe as [e|].
  - pose proof (settleLocked_stopped n t2 None true None c2 r3 Hs2) as Hs4.
    destruct (settleRequestLocked _ _ _ _ _ _) as [[r4 c4] e4] eqn:E4. intros [= <- <- _].
    eapply (durable_settleLocked _ _ _ _ _ _ _ _ _ _ _ (length cs)) in E4 as [es' HD4];
      [|exact HD|lia|by apply list_lookup_middle|constructor].
    rewrite insert_app_r_alt, Nat.sub_diag in HD4 by lia.
    exists es'. by apply durable_denied.
  - intros [= <- <- _]. eauto.
Qed.

Lemma durable_deny limits pc n now w t2 cause budget r cs es r' made res :
  Durable limits pc n now r cs es -> n + 1 < 2 ^ 64 -> now <= t2 -> denial cause budget ->
  deny w t2 cause budget r = (r', made, res) ->
  Durable limits pc (n + 1) t2 r' (cs ++ option_list made) es.
Proof.
  intros HD Hn Ht Hden. unfold deny. set (r1 := set_stop _ _ _).
  assert (Durable limits pc (n + 1) t2 r1 cs es) as H1'.
  { apply (durable_later _ _ _ (n + 1) _ t2) in HD as HD'; [|lia|done]. destruct HD' as [D1 D2 _ D4 D5 D6].
    split; try done.
    - by eapply sound_books; [|exact D1].
    - by eapply ledger_frame; [| |exact D2].
    - destruct HD as [_ _ (D & HD & HDn & _) _ _ _]. exists (D + 1).
      unfold r1, set_stop. cbn [r_denied r_stopReason r_budgetCause set]. rewrite HD, incr_u64.
      split; [done|]. split; [lia|]. destruct Hden as [|budget Hb].
      + split; [by apply (list_elem_of_lookup_2 _ 1)|by left].
      + split; [by apply (list_elem_of_lookup_2 _ 2)|right]. split_and!; [done|lia|done]. }
  apply (persist_durable _ _ _ _ _ _ _ w (lit "denied")) in H1'; [|done|].
  2: { right. left. by apply (list_elem_of_lookup_2 _ 2). }
  destruct (persistCheckpointLocked _ _ _ _) as [r2 pe]. intros [= <- <- _]. cbn. by rewrite app_nil_r.
Qed.

Lemma durable_AdmitProviderUsage limits pc n now w id t1 t2 ctx d r cs es r' made res :
  Durable limits pc n now r cs es -> n + 1 < 2 ^ 64 -> now <= t1 <= t2 -> fresh_id id cs -> desc_typed d ->
  AdmitProviderUsage w id t1 t2 ctx d r = (r', made, res) ->
  exists es', Durable limits pc (n + 1) t2 r' (cs ++ option_list made) es'.
Proof.
  intros HD Hn Ht Hid Hd E. pose proof (AdmitProviderUsage_cases w id t1 t2 ctx d r cs es (du_sound _ _ _ _ _ _ _ HD) Hd) as Hc.
  pose proof (AdmitProviderUsage_identity _ _ _ _ _ _ _ _ _ _ E) as Hident.
  rewrite E in Hc. apply (durable_later _ _ _ (n + 1) _ t2) in HD as HD'; [|lia|lia].
  inversion Hc as [e|cause budget Hden _ Hdeny|ch|rv a r0 Hr0 Hpi _ _ Had Hr1 Hr2 Hs Hadm]; subst.
  - exists es. cbn. by rewrite app_nil_r.
  - exists es. eapply durable_deny; [exact HD|done|lia|done|done].
  - exists es. cbn. rewrite app_nil_r. unfold wait_channel.
    destruct (r_reservationChanged r); [done|]. by eapply durable_frame; [..|exact HD'].
  - pose proof (admit_identity _ _ _ _ _ _ _ _ _ _ _ _ Hadm) as Hi0.
    eapply (durable_admit _ _ n w id t1 t2 d rv a r r0); [|..|exact Hadm]; [|..|lia].
    + eapply durable_appended; try done; [lia|congruence].
    + destruct HD as [_ _ D3 _ _ _]. destruct Hr0 as [-> |[k ->]]; [done|by eapply stopped_same, D3].
    + done.
Qed.
End durable.
