(* ===== verification/RunReplay.v ===== *)
(** * Runs whose checkpoints are all accepted

    The remaining operations of a run keep the invariant of the ledger, so the
    reader of checkpoints accepts every checkpoint that a run has published. *)

From S2P Require Import Prelude GoStrings GoBase Paths RunCost RunUsage RunUsageFacts RunBooks.
From S2P Require Import RunSystem RunProperties RunCheckpoint RunLedger RunPublish RunDurable.

Open Scope Z_scope.

Section replay.
Context `{UUIDLib, MetadataDigest, CardSyntax}.

(** ** Observations *)

(** A change of the row of one call that keeps it a row of that call. *)
Lemma durable_on_record limits pc n now r cs es i c f :
  Durable limits pc n now r cs es -> cs !! i = Some c ->
  (forall e rec, ledger_row (r_cost r) (r_started r) i c e rec ->
     ledger_row (r_cost r) (r_started r) i c e (f rec)) ->
  Durable limits pc n now (on_record f c r) cs es.
Proof.
  intros [D1 D2 D3 D4 D5 D6] Hi Hf. rewrite on_record_eq. split; try done.
  - by eapply sound_books; [|exact D1].
  - destruct D2 as [G1 G2 G3 G4 G5 G6 G7 G8]. split; try done; cbn [r_limits r_started r_records r_cost set].
    + unfold on_records. destruct (0 <=? _); [by rewrite length_alter|done].
    + intros j x e rec Hx He. unfold on_records. rewrite (ca_index _ _ _ _ _ (G2 i c Hi)).
      destruct (Nat.ltb_spec i MaxRunUsageRecords) as [Hmax|Hmax]; [|by apply G4].
      destruct (Z.leb_spec 0 (Z.of_nat i)); [|lia]. rewrite Nat2Z.id.
      destruct (decide (i = j)) as [<-|Hne].
      * rewrite list_lookup_alter_eq. intros (rec0 & Hr0 & ->)%fmap_Some. rewrite Hi in Hx. injection Hx as <-.
        eauto.
      * rewrite list_lookup_alter_ne by done. by apply G4.
Qed.

Lemma resolved_row cost started i c e rec label :
  runUsageModelLabel label = label -> ledger_row cost started i c e rec ->
  ledger_row cost started i c e (rec <| rec_ResolvedModel := label |>).
Proof.
  intros Hl [L1 L2 (A1 & A2 & A3 & A4) L4 L5 L6 L7 L8 L9 L10 L11 L12].
  by split.
Qed.

Lemma diagnostics_row cost started i c e rec dg :
  ledger_row cost started i c e rec -> ledger_row cost started i c e (rec <| rec_Diagnostics := dg |>).
Proof. by intros [L1 L2 L3 L4 L5 L6 L7 L8 L9 L10 L11 L12]. Qed.

Lemma durable_observe_model limits pc n now r cs es i c model r' c' :
  Durable limits pc n now r cs es -> cs !! i = Some c ->
  ObserveProviderResponseModel model c r = (r', c') ->
  Durable limits pc n now r' (<[i := c']> cs) es.
Proof.
  intros HD Hi. unfold ObserveProviderResponseModel. destruct (_ || _).
  { intros [= <- <-]. by rewrite list_insert_id. }
  cbv zeta. set (c1 := if _ && _ then _ else c). set (c2 := c1 <| c_responseModelSeen := true |>).
  set (label := if c_responseModelConflict c2 then _ else _). intros [= <- <-].
  assert (same_call c c2 /\ c_id c2 = c_id c /\ c_started c2 = c_started c /\
    c_recordIndex c2 = c_recordIndex c /\ c_cacheTTL c2 = c_cacheTTL c) as (S0 & S1 & S2 & S3 & S4).
  { unfold c2, c1. by destruct (_ && _). }
  replace (on_record (fun rec => rec <| rec_ResolvedModel := label |>) c2 r)
    with (on_record (fun rec => rec <| rec_ResolvedModel := label |>) c r)
    by (unfold on_record; by rewrite S3).
  eapply durable_call; [|exact Hi|done|done|done|done|].
  - eapply durable_on_record; [done|done|]. intros e rec. apply resolved_row.
    unfold label. destruct (c_responseModelConflict c2); [by vm_compute|apply runUsageModelLabel_idemp].
  - rewrite S4. by destruct HD as [_ [_ G2 _ _ _ _ _ _] _ _ _ _], (G2 i c Hi).
Qed.

Lemma observed_ttl tokens ttl c :
  time_to_live (c_cacheTTL c) -> time_to_live (c_cacheTTL (ObserveProviderCacheWrite tokens ttl c)).
Proof.
  intros Hc. unfold ObserveProviderCacheWrite. destruct (c_settled c || c_request c); [done|]. cbv zeta.
  destruct ((ttl <>b lit "5m") && (ttl <>b lit "1h")) eqn:Et; [by destruct (_ || _)|].
  cbn [c_cacheTTL set]. apply andb_false_iff in Et as [Et|Et]; breflect; subst.
  - by apply (list_elem_of_lookup_2 _ 1).
  - by apply (list_elem_of_lookup_2 _ 2).
Qed.

Lemma observe_cache_rest tokens ttl c :
  let c' := ObserveProviderCacheWrite tokens ttl c in
  c_id c' = c_id c /\ c_started c' = c_started c /\ c_recordIndex c' = c_recordIndex c.
Proof.
  cbv zeta. unfold ObserveProviderCacheWrite. destruct (c_settled c || c_request c); [done|].
  destruct (_ || _); destruct (_ && _); try done; cbn [c_id c_started c_recordIndex c_cacheTTL set];
    by destruct (_ && _).
Qed.

Lemma durable_observe_cache limits pc n now r cs es i c tokens ttl :
  Durable limits pc n now r cs es -> cs !! i = Some c ->
  Durable limits pc n now r (<[i := ObserveProviderCacheWrite tokens ttl c]> cs) es.
Proof.
  intros HD Hi. destruct (observe_cache_rest tokens ttl c) as (S1 & S2 & S3).
  eapply durable_call; [done|exact Hi|apply observe_cache_same|done|done|done|].
  apply observed_ttl. by destruct HD as [_ [_ G2 _ _ _ _ _ _] _ _ _ _], (G2 i c Hi).
Qed.

Lemma durable_diagnostics limits pc n now r cs es i c dg :
  Durable limits pc n now r cs es -> cs !! i = Some c ->
  Durable limits pc n now (ObserveProviderDiagnostics dg c r) cs es.
Proof.
  intros HD Hi. unfold ObserveProviderDiagnostics. destruct (_ || _); [done|].
  eapply durable_on_record; [done|done|]. intros. by apply diagnostics_row.
Qed.

(** ** The end and the start of a run *)

Lemma durable_untracked limits pc n now w t r cs es :
  Durable limits pc n now r cs es -> n < 2 ^ 64 -> now <= t ->
  Durable limits pc n t (RecordUntrackedCall w t r) cs es.
Proof.
  intros HD Hn Ht. apply persist_durable; [|done|].
  - apply notify_durable. apply (durable_later _ _ _ n _ t) in HD; [|done|done].
    by eapply durable_frame; [..|exact HD].
  - right. left. by apply (list_elem_of_lookup_2 _ 3).
Qed.

Lemma durable_seal limits pc n now w t r cs es :
  Durable limits pc n now r cs es -> n < 2 ^ 64 -> now <= t ->
  Durable limits pc n t (Seal w t r) cs es.
Proof.
  intros HD Hn Ht. apply (durable_later _ _ _ n _ t) in HD; [|done|done].
  unfold Seal. destruct (r_sealed r); [done|]. apply persist_durable; [|done|].
  - apply notify_durable. by eapply durable_frame; [..|exact HD].
  - right. right. split; [done|]. unfold notifyReservationWaitersLocked. by case_match.
Qed.

Lemma durable_close limits pc n now w closed t r cs es :
  Durable limits pc n now r cs es -> n < 2 ^ 64 -> now <= t ->
  Durable limits pc n t (Close w closed t r).1 cs es.
Proof.
  intros HD Hn Ht. unfold Close. cbn [fst]. apply (durable_seal _ _ _ _ w t) in HD; [|done|done].
  destruct (r_checkpoint (Seal w t r)) as [ck|]; [|done]. destruct (ck_store ck); [|done].
  destruct closed; [done|]. by apply fail_durable.
Qed.

(** A checkpoint state without a store publishes nothing. *)
Lemma durable_storeless limits pc n now r cs es ck :
  Durable limits pc n now r cs es -> ck_store ck = None ->
  Durable limits pc n now (r <| r_checkpoint := Some ck |>) cs es.
Proof.
  intros [D1 D2 D3 D4 D5 D6] Hck. split; try done.
  - by eapply sound_books; [|exact D1].
  - eapply ledger_frame; [..|exact D2]; [done|]. intros (ck' & written & [= <-] & Hw). congruence.
  - intros ck' written [= <-] Hw. congruence.
Qed.

(** Before the first call nothing is recorded. *)
Lemma no_calls_yet limits pc n now r cs es :
  Durable limits pc n now r cs es -> n < 2 ^ 64 ->
  t_ProviderCalls (r_totals r) = 0 -> t_ReleasedCalls (r_totals r) = 0 -> cs = [].
Proof.
  intros [[[B1 B2 _ _ B5 _] _ _ _ _] _ _ _ _ D6] Hn. rewrite B2.
  destruct (rows_counts es) as [_ Hc]. rewrite <- (Forall2_length _ _ _ B1) in Hc.
  apply rows_nonneg in B5. destruct B5 as (N1 & _ & _ & _ & N5 & _). revert Hc N1 N5.
  generalize (rows es). intros t Hc N1 N5. cbn -[u64] in *.
  rewrite !u64_id by (unfold is_u64, MaxUint64; lia). intros H1' H2'. destruct cs; [done|cbn in Hc; lia].
Qed.

Lemma durable_enable limits pc n now w opened t r cs es :
  Durable limits pc n now r cs es -> n < 2 ^ 64 -> now <= t ->
  Durable limits pc n t (EnableCheckpointDir w opened t r).1 cs es.
Proof.
  intros HD Hn Ht. apply (durable_later _ _ _ n _ t) in HD; [|done|done].
  unfold EnableCheckpointDir. cbv zeta. destruct (_ || _) eqn:Ec.
  { apply fail_durable. destruct (r_checkpoint r); [done|]. by apply durable_storeless. }
  rewrite !orb_false_iff, !negb_false_iff, !Z.eqb_eq in Ec. destruct Ec as [[[[[E1 E2] E3] E4] E5] E6].
  destruct (checkpointMetadataSHA _) as [sha|] eqn:Esha; [|by apply fail_durable, durable_storeless].
  destruct opened; [cbn [negb]|by apply fail_durable, durable_storeless].
  assert (cs = []) as -> by by eapply no_calls_yet.
  assert (r_records r = []) as Hrec.
  { destruct HD as [_ [_ _ G3 _ _ _ _ _] _ _ _ _]. by apply nil_length_inv. }
  apply persist_durable; [|done|by left].
  destruct HD as [D1 [G1 G2 G3 G4 G5 G6 G7 G8] D3 D4 D5 D6]. split; try done.
  - by eapply sound_books; [|exact D1].
  - split; try done. cbn. lia.
  - intros ck written [= <-] [= <-]. split_and!; [done| |done]. exact (eq_trans (eq_sym (snapshot_metadata t r)) Esha).
Qed.

(** ** Every step *)

Lemma durable_step limits pc n s ev s' es :
  run_step s ev s' -> n + 1 < 2 ^ 64 ->
  Durable limits pc n (clock s) (usage s) (calls s) es ->
  exists es', Durable limits pc (n + 1) (clock s') (usage s') (calls s') es'.
Proof.
  destruct 1 as [s w id t1 t2 ctx d r' made res Hd Hf Ht Ha|s w t1 t2 u rel bil i c r' c' err Hi Hu Ht Hst
    |s model i c r' c' Hi Ho|s tokens ttl i c Hi|s dg i c Hi|s w t Ht|s w t Ht|s w cl t Ht|s w op t Ht];
    intros Hn HD; cbn [usage calls clock]; [by eapply durable_AdmitProviderUsage| | | | | | | |];
    apply (durable_later _ _ _ (n + 1) _ (clock s)) in HD; try lia;
    [by eapply durable_settle|..]; exists es.
  - by eapply durable_observe_model.
  - by apply durable_observe_cache.
  - by eapply durable_diagnostics.
  - by eapply durable_untracked.
  - by eapply durable_seal.
  - by eapply durable_close.
  - by eapply durable_enable.
Qed.

Lemma durable_new limits pc now segment r :
  newRunUsage limits pc now segment = Ok r -> Durable limits pc 0 now r [] [].
Proof.
  intros Hn. pose proof Hn as (cost & -> & _)%new_usage. split; try done.
  - by eapply sound_new.
  - split; cbn; try done; [apply NoDup_nil_2|lia].
  - exists 0. split_and!; try done; [by apply (list_elem_of_lookup_2 _ 0)|by left].
  - by exists now, segment, (fresh_usage limits now segment cost).
Qed.

Lemma durable_steps limits pc n s evs s' es :
  steps run_step s evs s' -> n + Z.of_nat (length evs) < 2 ^ 64 ->
  Durable limits pc n (clock s) (usage s) (calls s) es ->
  exists es', Durable limits pc (n + Z.of_nat (length evs)) (clock s') (usage s') (calls s') es'.
Proof.
  intros Hs. revert n es. induction Hs as [s|s l s1 ls s2 Hst _ IH]; intros n es Hn HD; cbn [length] in *.
  - exists es. by rewrite Z.add_0_r.
  - eapply durable_step in HD as [es1 HD]; [|exact Hst|lia].
    replace (n + Z.of_nat (S (length ls))) with (n + 1 + Z.of_nat (length ls)) in * by lia. eauto.
Qed.

(** C15: every checkpoint that a run has published is accepted by the reader of
    checkpoints, which gives its snapshot back, provided that the segment of the
    run is a UUID, that the run had fewer than 2^64 events, that the checkpoint
    lists at most 128 routes, and that it was written within the range of a
    [time.Duration] from the start of the run. *)
Theorem checkpoints_validate limits pc now segment r evs s ck written p :
  newRunUsage limits pc now segment = Ok r -> runUsageUUID segment = segment ->
  steps run_step (start now r) evs s -> Z.of_nat (length evs) < 2 ^ 64 ->
  r_checkpoint (usage s) = Some ck -> ck_store ck = Some written -> p ∈ written ->
  (length (s_Routes (p_Snapshot p)) <= 128)%nat -> s_ElapsedMillis (p_Snapshot p) <= max_duration_ms ->
  exists c, read_checkpoint p (ck_metadataSHA ck) segment = Some c
    /\ rc_SegmentID c = segment /\ rc_Sequence c = p_Sequence p /\ rc_Phase c = p_Phase p
    /\ rc_AdmissionClosed c = p_AdmissionClosed p /\ rc_Snapshot c = p_Snapshot p.
Proof.
  intros Hn Huuid Hs Hlen Hck Hst Hp Hroutes Hdur.
  assert (r_segmentID (usage s) = segment) as Hseg.
  { assert (identity (usage s) = identity r) as Hi.
    { eapply (steps_invariant run_step (fun s => identity (usage s) = identity r)); [|exact Hs|done].
      intros s1 l s2 Hi Hst'. by rewrite (identity_step _ _ _ Hst'). }
    apply metadata_identity in Hi as [_ ->]. by apply new_usage in Hn as (cost & -> & _). }
  apply durable_new in Hn.
  destruct (durable_steps limits pc 0 (start now r) evs s [] Hs Hlen Hn) as [es HD].
  destruct (du_published _ _ _ _ _ _ _ HD ck written Hck Hst) as (Hacc & _ & Hstamp). rewrite Forall_forall in Hacc, Hstamp.
  destruct (Hstamp p Hp) as (Es & Eq & Em & Esha). rewrite Hseg in Es. pose proof (Hacc p Hp Hroutes Hdur) as Hv.
  eexists. unfold read_checkpoint. rewrite Hv, Es, Em, Esha, Huuid, !bool_decide_eq_true_2, (proj2 (Z.eqb_neq _ _) Eq) by done.
  by split_and!.
Qed.
End replay.

(** ** The limit of 128 routes

    The key for further routes is itself a route: with 128 routes in use, a call
    of a new route makes a 129th, and the reader refuses the checkpoint. *)

Lemma overflow_route d r :
  size (r_routes r) = 128%nat ->
  r_routes r !! (d_Model d, d_QuerySource d, d_ModelRole d, d_ReasoningEffort d) = None ->
  r_routes r !! ([], other, [], []) = None ->
  size (r_routes (counted d r)) = 129%nat.
Proof.
  intros Hs Hk Ho. pose proof (counted_books d r) as (_ & _ & -> & _)%books_fields.
  assert (route_key r d = ([], other, [], [])) as ->.
  { unfold route_key. by rewrite bool_decide_eq_true_2, Hs by done. }
  unfold ensure. rewrite Ho, <- size_dom, dom_alter, size_dom, map_size_insert_None by done. lia.
Qed.

Lemma overflow_refused `{UUIDLib, CardSyntax} phase now ck r :
  (128 < size (r_routes r))%nat -> validateCheckpointSnapshot (checkpoint_payload phase now ck r) = false.
Proof.
  intros Hs. assert (length (s_Routes (p_Snapshot (checkpoint_payload phase now ck r))) = size (r_routes r)) as Hl.
  { unfold checkpoint_payload. cbn [p_Snapshot s_Routes set snapshotLocked].
    by rewrite length_map, merge_sort_Permutation, length_fmap, length_map_to_list. }
  unfold validateCheckpointSnapshot. cbv zeta. rewrite Hl, (proj2 (Nat.leb_gt _ _) Hs).
  destruct (newRunUsage _ _ _ _); [|by rewrite andb_false_r].
  destruct (validate_records _ _ _ _ _ _ _) as [[t k]|]; by rewrite ?andb_false_r.
Qed.

Module Example.
Import RunProperties.Example.

(** Checkpoints are enabled, two calls are admitted, one is settled with known
    usage and one as ambiguous, a third is refused, and the run is sealed. *)
Definition enabled : run :=
  {| usage := (EnableCheckpointDir written true 0 (usage start)).1; calls := []; clock := 0 |}.
Definition first : run := do_admit written (id "2") (ms 1) (ms 1) (request 2000 500) enabled.
Definition second : run := do_admit written (id "3") (ms 5) (ms 5) (request 1000 500) first.
Definition third : run := do_settle written (ms 9) (ms 9) (Some (response 900 100 400)) false None 0 second.
Definition fourth : run := do_settle written (ms 9) (ms 10) None false None 1 third.
Definition fifth : run := do_admit written (id "5") (ms 15) (ms 15) (request 1000 500) fourth.
Definition sealed : run := {| usage := Seal written (ms 20) (usage fifth); calls := calls fifth; clock := ms 20 |}.

Definition files (s : run) : list runUsageCheckpointPayload :=
  default [] (ck ← r_checkpoint (usage s); ck_store ck).

Lemma files_stored s i p :
  files s !! i = Some p ->
  exists ck stored, r_checkpoint (usage s) = Some ck /\ ck_store ck = Some stored /\ p ∈ stored.
Proof.
  unfold files. destruct (r_checkpoint (usage s)) as [ck|] eqn:Ec; [|done]. cbn.
  destruct (ck_store ck) as [l|] eqn:El; [|done]. intros Hp%list_elem_of_lookup_2. by exists ck, l.
Qed.

(** The reader, with the libraries of the example. *)
Definition reads (p : runUsageCheckpointPayload) (metadata : bytes) : option RunUsageCheckpoint :=
  read_checkpoint p metadata (id "1").

Lemma sealed_steps : exists evs, steps run_step start evs sealed /\ length evs = 7%nat.
Proof.
  assert (exists e0, run_step start e0 enabled) as [e0 H0] by (eexists; by apply (step_enable start)).
  assert (exists e1, run_step enabled e1 first) as [e1 H1].
  { eexists. apply do_admit_step; [apply request_typed; in_width|new_id|in_width]. }
  assert (exists e2, run_step first e2 second) as [e2 H2].
  { eexists. apply do_admit_step; [apply request_typed; in_width|new_id|in_width]. }
  assert (exists e3, run_step second e3 third) as [e3 H3].
  { destruct (calls second !! 0%nat) as [c|] eqn:E; [|by vm_compute in E].
    apply (do_settle_step _ _ _ _ _ _ _ _ c E); [|in_width]. apply response_settles. split_and!; in_width. }
  assert (exists e4, run_step third e4 fourth) as [e4 H4].
  { destruct (calls third !! 1%nat) as [c|] eqn:E; [|by vm_compute in E].
    by apply (do_settle_step _ _ _ _ _ _ _ _ c E); [constructor|in_width]. }
  assert (exists e5, run_step fourth e5 fifth) as [e5 H5].
  { eexists. apply do_admit_step; [apply request_typed; in_width|new_id|in_width]. }
  assert (clock fifth <= ms 20) as Hc by by vm_compute.
  assert (exists e6, run_step fifth e6 sealed) as [e6 H6] by exact (ex_intro _ EvOther (step_seal fifth written (ms 20) Hc)).
  exists [e0; e1; e2; e3; e4; e5; e6]. split; [|done].
  exact (steps_cons _ start e0 enabled _ _ H0 (steps_cons _ enabled e1 first _ _ H1
    (steps_cons _ first e2 second _ _ H2 (steps_cons _ second e3 third _ _ H3
    (steps_cons _ third e4 fourth _ _ H4 (steps_cons _ fourth e5 fifth _ _ H5
    (steps_cons _ fifth e6 sealed _ _ H6 (steps_nil _ sealed)))))))).
Qed.
End Example.

Import RunProperties.Example.

Lemma checkpoints_validate_witness :
  map p_Phase (Example.files Example.sealed) =
    [lit "initial"; lit "admitted"; lit "admitted"; lit "settled"; lit "settled"; lit "denied"; lit "sealed"] /\
  exists p metadata c, Example.files Example.sealed !! 6%nat = Some p
    /\ Example.reads p metadata = Some c /\ rc_Snapshot c = p_Snapshot p.
Proof.
  split; [by vm_compute|]. destruct Example.sealed_steps as (evs & Hs & Hl).
  destruct (Example.files Example.sealed !! 6%nat) as [p|] eqn:Ep; [|by vm_compute in Ep].
  assert (length (s_Routes (p_Snapshot p)) = 1%nat /\ s_ElapsedMillis (p_Snapshot p) = 20) as [Hr He].
  { revert Ep. vm_compute. by intros [= <-]. }
  destruct (Example.files_stored _ _ _ Ep) as (ck & stored & Hck & Hst & Hp).
  exists p, (ck_metadataSHA ck).
  edestruct (checkpoints_validate RunProperties.Example.reserving (Some RunProperties.Example.price_card) 0
    (RunProperties.Example.id "1") (usage start) evs Example.sealed ck stored p)
    as (c & Hc & _ & _ & _ & _ & Hsn); [by vm_compute|by vm_compute|exact Hs|by rewrite Hl|exact Hck|exact Hst|exact Hp| | |].
  - rewrite Hr. lia.
  - by rewrite He.
  - exists c. exact (conj eq_refl (conj Hc Hsn)).
Defined.
