(* ===== verification/ProviderUsage.v ===== *)
(** * The accounting interface of provider calls

    [src/engine/execution/provider_usage.go] and [provider_usage_composite.go].
    A [ProviderUsageAdmitter] admits provider calls and hands out
    [ProviderUsageCall]s; code that calls a provider settles them through the
    package's helpers.  Interface values are records of methods over a state
    [W]; a method that a Go value may lack, and that the source looks for with a
    type assertion, is an [option].  What an owner promises to its callers is the
    class [Lawful], which the collector of a run satisfies and which is kept by
    the combination of two owners. *)

From S2P Require Import Prelude GoStrings GoBase RunCost RunUsage.

Open Scope Z_scope.

(** ** The interfaces *)

(** [ProviderUsageCall] with the optional methods that the package looks for. *)
Record ProviderUsageCall (W : Type) := {
  ProviderCallID : bytes;
  call_CompleteProviderUsage : option TokenUsage -> W -> W * option goerr;
  call_ReleaseProviderUsageBeforeDispatch : W -> W * option goerr;
  call_MarkProviderUsageAmbiguous : option goerr -> W -> W * option goerr;
  call_CompleteRequestUsage : option (bool -> W -> W * option goerr);
  call_FailClosedOnAmbiguousUsage : option (W -> bool);
  call_ObserveProviderCacheWrite : option (Z -> bytes -> W -> W);
  call_ObserveProviderResponseModel : option (bytes -> W -> W);
  call_ObserveProviderDiagnostics : option (Diagnostics -> W -> W)
}.
Arguments ProviderCallID {W}.
Arguments call_CompleteProviderUsage {W}.
Arguments call_ReleaseProviderUsageBeforeDispatch {W}.
Arguments call_MarkProviderUsageAmbiguous {W}.
Arguments call_CompleteRequestUsage {W}.
Arguments call_FailClosedOnAmbiguousUsage {W}.
Arguments call_ObserveProviderCacheWrite {W}.
Arguments call_ObserveProviderResponseModel {W}.
Arguments call_ObserveProviderDiagnostics {W}.

(** What an admission gives: it may wait for ever, return an error, or return a
    call, which may be nil. *)
Inductive admission (W : Type) :=
| Blocked
| Denied (e : goerr)
| Granted (c : option (ProviderUsageCall W)).
Arguments Blocked {W}.
Arguments Denied {W} e.
Arguments Granted {W} c.

(** [ProviderUsageAdmitter]; the context is given by its error. *)
Record ProviderUsageAdmitter (W : Type) := {
  owner_NewLogicalRoundID : W -> W * bytes;
  owner_AdmitProviderUsage : option goerr -> ProviderUsageDescriptor -> W -> W * admission W;
  owner_RequestUsageAvailable : option (ProviderUsageDescriptor -> W -> bool);
  owner_ProviderCostReservationPolicy : option (W -> bool * Z)
}.
Arguments owner_NewLogicalRoundID {W}.
Arguments owner_AdmitProviderUsage {W}.
Arguments owner_RequestUsageAvailable {W}.
Arguments owner_ProviderCostReservationPolicy {W}.

(** ** The helpers of the package *)

Section helpers.
Context {W : Type}.
Abbreviation call := (ProviderUsageCall W).

Definition RequestUsageAvailable (owner : ProviderUsageAdmitter W) (d : ProviderUsageDescriptor)
    (w : W) : bool :=
  match owner_RequestUsageAvailable owner with Some f => f d w | None => true end.

(** A settlement error becomes terminal. *)
Definition terminal (e : option goerr) : option goerr :=
  e ← e; Some (ProviderUsageTerminalError (Some e)).

Definition CompleteRequestUsage (c : option call) (billable : bool) (w : W) : W * option goerr :=
  match c with
  | None => (w, None)
  | Some c =>
      let '(w, e) := match call_CompleteRequestUsage c with
                     | Some f => f billable w
                     | None => call_CompleteProviderUsage c (Some no_usage) w
                     end in
      (w, terminal e)
  end.

Definition completeProviderUsage (c : option call) (usage : option TokenUsage) (w : W)
    : W * option goerr :=
  match c with
  | None => (w, None)
  | Some c => let '(w, e) := call_CompleteProviderUsage c usage w in (w, terminal e)
  end.

(** The messages of a response, as far as the accounting reads them: whether
    the role is the assistant's, and the usage of the metadata. *)
Record Message := { m_Assistant : bool; m_Usage : option TokenUsage }.

(** The usage of the last assistant message; nil messages are skipped. *)
Fixpoint last_usage (rev_messages : list (option Message)) : option TokenUsage :=
  match rev_messages with
  | [] => None
  | Some m :: rest => if m_Assistant m then m_Usage m else last_usage rest
  | None :: rest => last_usage rest
  end.

Definition CompleteProviderUsage (c : option call) (messages : list (option Message)) (w : W)
    : W * option goerr :=
  completeProviderUsage c (last_usage (reverse messages)) w.

(** [CompleteStreamProviderUsage]; [result] is the usage of the stream's result,
    [None] without a result. *)
Definition CompleteStreamProviderUsage (c : option call) (result : option (option TokenUsage)) (w : W)
    : W * option goerr :=
  completeProviderUsage c (result ≫= id) w.

Definition IsProviderUsageTerminalError (e : goerr) : bool :=
  match errors_As (fun e => match e with ProviderUsageTerminalError _ => Some tt | _ => None end) e with
  | Some _ => true
  | None => false
  end.

Definition receipt_of (e : goerr) : option FinalUsage :=
  errors_As (fun e => match e with External x _ => ex_receipt x | _ => None end) e.

(** The observations of a final receipt. *)
Definition observe_receipt (c : call) (rc : FinalUsage) (w : W) : W :=
  let w := match fu_cacheWrite rc, call_ObserveProviderCacheWrite c with
           | Some (tokens, true, ttl), Some f => f tokens ttl w
           | _, _ => w
           end in
  match call_ObserveProviderResponseModel c with
  | Some f => f (fu_responseModel rc) w
  | None => w
  end.

Definition MarkProviderUsageAmbiguous (c : option call) (cause : goerr) (w : W) : W * goerr :=
  match c with
  | None => (w, cause)
  | Some c =>
      match receipt_of cause with
      | Some {| fu_usage := Some usage |} as rc =>
          let w := match rc with Some rc => observe_receipt c rc w | None => w end in
          let '(w, e) := completeProviderUsage (Some c) (Some usage) w in
          (w, match e with Some e => Joined [cause; e] | None => cause end)
      | _ =>
          let '(w, accountingErr) := call_MarkProviderUsageAmbiguous c (Some cause) w in
          if match call_FailClosedOnAmbiguousUsage c with
             | Some policy => negb (policy w) && (match accountingErr with None => true | Some _ => false end)
             | None => false
             end
          then (w, cause)
          else (w, ProviderUsageTerminalError (errors_Join [Some cause; accountingErr]))
      end
  end.

Definition release_prefix : bytes := lit "release pre-dispatch admission: ".

Definition ReleaseProviderUsageBeforeDispatch (c : option call) (cause : goerr) (w : W) : W * goerr :=
  match c with
  | None => (w, cause)
  | Some c =>
      let '(w, e) := call_ReleaseProviderUsageBeforeDispatch c w in
      (w, match e with
          | Some e => ProviderUsageTerminalError (errors_Join [Some cause; Some (Wrapped release_prefix e)])
          | None => cause
          end)
  end.

Definition no_identity : goerr :=
  ProviderUsageTerminalError (Some (new_error_text (lit "provider usage admission returned no call identity"))).

(** [c == nil || strings.TrimSpace(c.ProviderCallID()) == ""] *)
Definition unidentified (c : option call) : bool :=
  match c with Some c => TrimSpace (ProviderCallID c) ==b [] | None => true end.
End helpers.

(** ** Combined owners *)

Section combined.
Context {W1 W2 : Type}.

Definition on_first {A} (f : W1 -> W1 * A) (w : W1 * W2) : (W1 * W2) * A :=
  let '(w1, a) := f w.1 in ((w1, w.2), a).
Definition on_second {A} (f : W2 -> W2 * A) (w : W1 * W2) : (W1 * W2) * A :=
  let '(w2, a) := f w.2 in ((w.1, w2), a).

(** [errors.Join] of an operation on both calls, the first one first. *)
Definition on_both (f : W1 -> W1 * option goerr) (g : W2 -> W2 * option goerr) (w : W1 * W2)
    : (W1 * W2) * option goerr :=
  let '(w, e1) := on_first f w in
  let '(w, e2) := on_second g w in
  (w, errors_Join [e1; e2]).

(** An observation forwarded to the calls that accept it. *)
Definition forward (f : option (W1 -> W1)) (g : option (W2 -> W2)) (w : W1 * W2) : W1 * W2 :=
  (match f with Some f => f w.1 | None => w.1 end, match g with Some g => g w.2 | None => w.2 end).

(** A call that does not have the policy fails closed. *)
Definition fails_closed {W} (c : ProviderUsageCall W) (w : W) : bool :=
  match call_FailClosedOnAmbiguousUsage c with Some policy => policy w | None => true end.

(** [combinedProviderUsageCall]. *)
Definition combinedProviderUsageCall (a : ProviderUsageCall W1) (b : ProviderUsageCall W2)
    : ProviderUsageCall (W1 * W2) := {|
  ProviderCallID := ProviderCallID b;
  call_CompleteProviderUsage u := on_both (call_CompleteProviderUsage a u) (call_CompleteProviderUsage b u);
  call_ReleaseProviderUsageBeforeDispatch :=
    on_both (call_ReleaseProviderUsageBeforeDispatch a) (call_ReleaseProviderUsageBeforeDispatch b);
  call_MarkProviderUsageAmbiguous e :=
    on_both (call_MarkProviderUsageAmbiguous a e) (call_MarkProviderUsageAmbiguous b e);
  call_CompleteRequestUsage := Some (fun billable =>
    on_both (CompleteRequestUsage (Some a) billable) (CompleteRequestUsage (Some b) billable));
  call_FailClosedOnAmbiguousUsage := Some (fun w => fails_closed a w.1 || fails_closed b w.2);
  call_ObserveProviderCacheWrite := Some (fun tokens ttl =>
    forward ((fun f => f tokens ttl) <$> call_ObserveProviderCacheWrite a)
            ((fun f => f tokens ttl) <$> call_ObserveProviderCacheWrite b));
  call_ObserveProviderResponseModel := Some (fun model =>
    forward ((fun f => f model) <$> call_ObserveProviderResponseModel a)
            ((fun f => f model) <$> call_ObserveProviderResponseModel b));
  call_ObserveProviderDiagnostics := Some (fun snapshot =>
    forward ((fun f => f snapshot) <$> call_ObserveProviderDiagnostics a)
            ((fun f => f snapshot) <$> call_ObserveProviderDiagnostics b))
|}.

(** Folds the policy of one owner into the one found so far. *)
Definition add_policy (policy : option (bool * Z)) (found : bool * Z) : bool * Z :=
  match policy with
  | Some (true, n) => (true, if (found.2 =? 0) || (n <? found.2) then n else found.2)
  | _ => found
  end.

Definition combined_admit (first : ProviderUsageAdmitter W1) (second : ProviderUsageAdmitter W2)
    (ctx : option goerr) (d : ProviderUsageDescriptor) (w : W1 * W2) : (W1 * W2) * admission (W1 * W2) :=
  let '(w, a) := on_first (owner_AdmitProviderUsage first ctx d) w in
  match a with
  | Blocked => (w, Blocked)
  | Denied e => (w, Denied e)
  | Granted a =>
      if unidentified a then
        let '(w, e) := on_first (ReleaseProviderUsageBeforeDispatch a no_identity) w in (w, Denied e)
      else
        let '(w, b) := on_second (owner_AdmitProviderUsage second ctx d) w in
        match b with
        | Blocked => (w, Blocked)
        | Denied e =>
            let '(w, e) := on_first (ReleaseProviderUsageBeforeDispatch a e) w in (w, Denied e)
        | Granted b =>
            if unidentified b then
              let '(w, e) := on_second (ReleaseProviderUsageBeforeDispatch b no_identity) w in
              let '(w, e) := on_first (ReleaseProviderUsageBeforeDispatch a e) w in (w, Denied e)
            else (w, Granted (a ← a; b ← b; Some (combinedProviderUsageCall a b)))
        end
  end.

(** [combinedProviderUsage]. *)
Definition combinedProviderUsage (first : ProviderUsageAdmitter W1) (second : ProviderUsageAdmitter W2)
    : ProviderUsageAdmitter (W1 * W2) := {|
  owner_NewLogicalRoundID := on_second (owner_NewLogicalRoundID second);
  owner_AdmitProviderUsage := combined_admit first second;
  owner_RequestUsageAvailable := Some (fun d w =>
    RequestUsageAvailable first d w.1 && RequestUsageAvailable second d w.2);
  owner_ProviderCostReservationPolicy := Some (fun w =>
    add_policy ((fun f => f w.2) <$> owner_ProviderCostReservationPolicy second)
      (add_policy ((fun f => f w.1) <$> owner_ProviderCostReservationPolicy first) (false, 0)))
|}.
End combined.

(** ** What an owner promises *)

(** A call can be told apart and every way to settle it leads to [S]. *)
Record promise {W} (c : ProviderUsageCall W) (S : W -> Prop) : Prop := {
  pr_id : TrimSpace (ProviderCallID c) <> [];
  pr_complete u w : S (call_CompleteProviderUsage c u w).1;
  pr_release w : S (call_ReleaseProviderUsageBeforeDispatch c w).1;
  pr_mark e w : S (call_MarkProviderUsageAmbiguous c e w).1;
  pr_request f b w : call_CompleteRequestUsage c = Some f -> S (f b w).1
}.

(** An owner hands out calls that are open and that it will see settled. *)
Class Lawful {W} (o : ProviderUsageAdmitter W) : Prop :=
  lawful_granted : forall ctx d w w' x, owner_AdmitProviderUsage o ctx d w = (w', Granted x) ->
    exists c S, x = Some c /\ promise c S /\ ~ S w'.

Section settles.
Context {W : Type} (c : ProviderUsageCall W) (S : W -> Prop).
Context (P : promise c S).

Lemma promise_identified : unidentified (Some c) = false.
Proof. apply bool_decide_eq_false_2, P. Qed.

Lemma release_settles cause w : S (ReleaseProviderUsageBeforeDispatch (Some c) cause w).1.
Proof. cbn. pose proof (pr_release _ _ P w) as Hr. by destruct (call_ReleaseProviderUsageBeforeDispatch c w). Qed.

Lemma complete_settles u w : S (completeProviderUsage (Some c) u w).1.
Proof. cbn. pose proof (pr_complete _ _ P u w) as Hr. by destruct (call_CompleteProviderUsage c u w). Qed.

Lemma ambiguous_settles cause w : S (MarkProviderUsageAmbiguous (Some c) cause w).1.
Proof.
  unfold MarkProviderUsageAmbiguous. destruct (receipt_of cause) as [rc|]; [destruct (fu_usage rc) as [u|] eqn:Eu|].
  all: destruct rc as [us md cw] || idtac; cbn [fu_usage] in *; subst.
  - pose proof (complete_settles (Some u) (observe_receipt c {| fu_usage := Some u;
      fu_responseModel := md; fu_cacheWrite := cw |} w)) as Hc.
    by destruct (completeProviderUsage (Some c) (Some u) _).
  - pose proof (pr_mark _ _ P (Some cause) w) as Hm. destruct (call_MarkProviderUsageAmbiguous c _ w).
    by destruct (match call_FailClosedOnAmbiguousUsage c with Some _ => _ | None => _ end).
  - pose proof (pr_mark _ _ P (Some cause) w) as Hm. destruct (call_MarkProviderUsageAmbiguous c _ w).
    by destruct (match call_FailClosedOnAmbiguousUsage c with Some _ => _ | None => _ end).
Qed.

Lemma request_settles b w : S (CompleteRequestUsage (Some c) b w).1.
Proof.
  cbn. destruct (call_CompleteRequestUsage c) as [f|] eqn:Ef.
  - pose proof (pr_request _ _ P f b w Ef) as Hr. by destruct (f b w).
  - pose proof (pr_complete _ _ P (Some no_usage) w) as Hr. by destruct (call_CompleteProviderUsage c _ w).
Qed.
End settles.

Section combined_lawful.
Context {W1 W2 : Type}.

Lemma on_both_holds (f : W1 -> W1 * option goerr) (g : W2 -> W2 * option goerr)
    (S1 : W1 -> Prop) (S2 : W2 -> Prop) w :
  S1 (f w.1).1 -> S2 (g w.2).1 -> S1 (on_both f g w).1.1 /\ S2 (on_both f g w).1.2.
Proof.
  unfold on_both, on_first, on_second. destruct (f w.1) as [w1 e1]. cbn.
  destruct (g w.2) as [w2 e2]. done.
Qed.

Lemma combined_promise (a : ProviderUsageCall W1) (b : ProviderUsageCall W2) S1 S2 :
  promise a S1 -> promise b S2 ->
  promise (combinedProviderUsageCall a b) (fun w => S1 w.1 /\ S2 w.2).
Proof.
  intros Pa Pb. split; cbn [combinedProviderUsageCall ProviderCallID call_CompleteProviderUsage
    call_ReleaseProviderUsageBeforeDispatch call_MarkProviderUsageAmbiguous call_CompleteRequestUsage].
  - apply Pb.
  - intros. apply on_both_holds; by apply pr_complete.
  - intros. apply on_both_holds; by apply pr_release.
  - intros. apply on_both_holds; by apply pr_mark.
  - intros f billable w [= <-]. apply on_both_holds; by apply request_settles.
Qed.

(** The combination of two owners promises what they promise. *)
#[export] Instance combined_lawful (o1 : ProviderUsageAdmitter W1) (o2 : ProviderUsageAdmitter W2) :
  Lawful o1 -> Lawful o2 -> Lawful (combinedProviderUsage o1 o2).
Proof.
  intros H1 H2 ctx d [w1 w2] w' x. cbn [combinedProviderUsage owner_AdmitProviderUsage].
  unfold combined_admit, on_first, on_second. cbn [fst snd].
  destruct (owner_AdmitProviderUsage o1 ctx d w1) as [w1' [|e|a]] eqn:E1; try done.
  destruct (H1 _ _ _ _ _ E1) as (ca & S1 & -> & Pa & Na). rewrite (promise_identified ca S1 Pa). cbn [fst snd].
  destruct (owner_AdmitProviderUsage o2 ctx d w2) as [w2' [|e|b]] eqn:E2; [done| |].
  - cbn [fst snd]. by destruct (ReleaseProviderUsageBeforeDispatch (Some ca) e w1').
  - destruct (H2 _ _ _ _ _ E2) as (cb & S2 & -> & Pb & Nb). rewrite (promise_identified cb S2 Pb).
    intros [= <- <-]. exists (combinedProviderUsageCall ca cb), (fun w => S1 w.1 /\ S2 w.2).
    split; [done|]. split; [by apply combined_promise|]. cbn. tauto.
Qed.

(** When the combination refuses a call that its first owner granted, that
    grant has been settled. *)
Lemma combined_refusal_settles (o1 : ProviderUsageAdmitter W1) (o2 : ProviderUsageAdmitter W2) ctx d w1 w2 w' e
    w1' c S :
  owner_AdmitProviderUsage (combinedProviderUsage o1 o2) ctx d (w1, w2) = (w', Denied e) ->
  owner_AdmitProviderUsage o1 ctx d w1 = (w1', Granted (Some c)) -> promise c S -> S w'.1.
Proof.
  intros Hd Hg Hp. revert Hd. cbn [combinedProviderUsage owner_AdmitProviderUsage].
  unfold combined_admit, on_first, on_second. cbn [fst snd]. rewrite Hg, (promise_identified c S Hp). cbn [fst snd].
  destruct (owner_AdmitProviderUsage o2 ctx d w2) as [w2' [|e2|b]]; [done| |].
  - cbn [fst snd]. pose proof (release_settles c S Hp e2 w1') as Hs.
    destruct (ReleaseProviderUsageBeforeDispatch (Some c) e2 w1'). by intros [= <- _].
  - destruct (unidentified b); [|done]. cbn [fst snd].
    destruct (ReleaseProviderUsageBeforeDispatch b no_identity w2') as [w2'' e3]. cbn [fst snd].
    pose proof (release_settles c S Hp e3 w1') as Hs.
    destruct (ReleaseProviderUsageBeforeDispatch (Some c) e3 w1'). by intros [= <- _].
Qed.
End combined_lawful.
