(* ===== verification/RunOwner.v ===== *)
(** * The collector of a run as an owner

    [RunUsage] behind the accounting interface.  The state is the run of
    [RunSystem] with the number of rounds used: a round gives what one operation
    of the collector takes from outside, that is the outcome of writing a
    checkpoint, a fresh identifier, two readings of the clock, and, for an
    admission that waits, what the other goroutines do meanwhile and the state
    of the context afterwards. *)

From S2P Require Import Prelude GoStrings GoBase RunCost RunUsage RunUsageFacts RunBooks.
From S2P Require Import RunSystem RunProperties ProviderUsage.

Open Scope Z_scope.

Record round := {
  rd_writer : writer; rd_id : bytes; rd_t1 : Z; rd_t2 : Z;
  rd_others : run -> run; rd_ctx : option goerr
}.

Record collector := { col_run : run; col_round : nat }.

Section owner.
Context `{UUIDLib, MetadataDigest}.
Context (rounds : nat -> round) (patience : nat).

Definition settle_call (u : option TokenUsage) (release : bool) (billable : option bool) (i : nat)
    (w : collector) : collector * option goerr :=
  let rd := rounds (col_round w) in
  let run := do_settle (rd_writer rd) (rd_t1 rd) (rd_t2 rd) u release billable i (col_run w) in
  ({| col_run := run; col_round := S (col_round w) |}, c ← calls run !! i; c_settlementErr c).

(** An observation of the call [i]. *)
Definition observe_call (f : runUsageCall -> RunUsage -> RunUsage * runUsageCall) (i : nat) (w : collector)
    : collector :=
  match calls (col_run w) !! i with
  | None => w
  | Some c =>
      let '(r, c) := f c (usage (col_run w)) in
      {| col_run := {| usage := r; calls := <[i := c]> (calls (col_run w)); clock := clock (col_run w) |};
         col_round := col_round w |}
  end.

(** The call [i] of the run, whose identifier is [id]. *)
Definition run_call (i : nat) (id : bytes) : ProviderUsageCall collector := {|
  ProviderCallID := id;
  call_CompleteProviderUsage u := settle_call u false None i;
  call_ReleaseProviderUsageBeforeDispatch := settle_call None true None i;
  call_MarkProviderUsageAmbiguous _ := settle_call None false None i;
  call_CompleteRequestUsage := Some (fun billable => settle_call (Some no_usage) false (Some billable) i);
  call_FailClosedOnAmbiguousUsage := Some (fun w => failClosedOnAmbiguousUsageLocked (usage (col_run w)));
  call_ObserveProviderCacheWrite := Some (fun tokens ttl =>
    observe_call (fun c r => (r, ObserveProviderCacheWrite tokens ttl c)) i);
  call_ObserveProviderResponseModel := Some (fun model =>
    observe_call (ObserveProviderResponseModel model) i);
  call_ObserveProviderDiagnostics := Some (fun dg =>
    observe_call (fun c r => (ObserveProviderDiagnostics dg c r, c)) i)
|}.

(** The loop of [AdmitProviderUsage]: after a wait it starts again. *)
Fixpoint admit_rounds (fuel : nat) (ctx : option goerr) (d : ProviderUsageDescriptor) (w : collector)
    : collector * admission collector :=
  match fuel with
  | O => (w, Blocked)
  | S fuel =>
      let rd := rounds (col_round w) in
      let s := col_run w in
      let '(r, made, res) :=
        AdmitProviderUsage (rd_writer rd) (rd_id rd) (rd_t1 rd) (rd_t2 rd) ctx d (usage s) in
      let s := {| usage := r; calls := calls s ++ option_list made; clock := rd_t2 rd |} in
      match res with
      | AdmitError e => ({| col_run := s; col_round := S (col_round w) |}, Denied e)
      | CallAdmitted c =>
          ({| col_run := s; col_round := S (col_round w) |},
           Granted (Some (run_call (length (calls (col_run w))) (c_id c))))
      | AdmitWait _ =>
          admit_rounds fuel (rd_ctx rd) d {| col_run := rd_others rd s; col_round := S (col_round w) |}
      end
  end.

Definition run_owner : ProviderUsageAdmitter collector := {|
  owner_NewLogicalRoundID w :=
    ({| col_run := col_run w; col_round := S (col_round w) |}, rd_id (rounds (col_round w)));
  owner_AdmitProviderUsage := admit_rounds patience;
  owner_RequestUsageAvailable := Some (fun d w => RunUsage.RequestUsageAvailable (usage (col_run w)) d);
  owner_ProviderCostReservationPolicy := Some (fun w => ProviderCostReservationPolicy (usage (col_run w)))
|}.

(** ** It is lawful *)

(** The call [i] is settled. *)
Definition call_settled (i : nat) (w : collector) : Prop :=
  forall c, calls (col_run w) !! i = Some c -> c_settled c = true.

Lemma settleRequest_settles wr t1 t2 u rel bil c r :
  c_settled (settleRequest wr t1 t2 u rel bil c r).1.2 = true.
Proof.
  unfold settleRequest. destruct (c_settled c) eqn:Ec; [done|].
  rewrite settleRequestLocked_eq by done. cbv zeta.
  destruct (persistCheckpointLocked _ _ _ _) as [r' [e|]]; done.
Qed.

Lemma settle_call_settles u rel bil i w : call_settled i (settle_call u rel bil i w).1.
Proof.
  unfold call_settled, settle_call. cbn [fst col_run]. unfold do_settle.
  destruct (calls (col_run w) !! i) as [c|] eqn:Ei; [|by rewrite Ei].
  pose proof (settleRequest_settles (rd_writer (rounds (col_round w))) (rd_t1 (rounds (col_round w)))
    (rd_t2 (rounds (col_round w))) u rel bil c (usage (col_run w))) as Hs.
  destruct (settleRequest _ _ _ _ _ _ _ _) as [[r c'] e]. cbn [calls].
  apply lookup_lt_Some in Ei. rewrite list_lookup_insert_eq by done. by intros x [= <-].
Qed.

Lemma run_call_promise i id : TrimSpace id <> [] -> promise (run_call i id) (call_settled i).
Proof.
  intros Hid. split; [done|intros; apply settle_call_settles..|].
  intros f b w [= <-]. apply settle_call_settles.
Qed.

Lemma admitted_open wr id t1 t2 ctx d r r' made c :
  AdmitProviderUsage wr id t1 t2 ctx d r = (r', made, CallAdmitted c) ->
  made = Some c /\ c_settled c = false /\ c_id c = id.
Proof.
  assert (forall i rv a r0, admit_call wr id t1 t2 d i rv a r0 = (r', made, CallAdmitted c) ->
    made = Some c /\ c_settled c = false /\ c_id c = id) as Ha.
  { intros i rv a r0. unfold admit_call. set (r1 := both _ _ _).
    set (c0 := {| c_route := _ |}). unfold appendCallRecord. destruct (_ =? _)%nat;
      destruct (persistCheckpointLocked _ _ _ _) as [r3 [e|]];
      try (destruct (settleRequestLocked _ _ _ _ _ _) as [[? ?] ?]; done); by intros [= _ <- <-]. }
  assert (forall cause budget r0, deny wr t2 cause budget r0 = (r', made, CallAdmitted c) -> False) as Hd.
  { intros cause budget r0. unfold deny. by destruct (persistCheckpointLocked _ _ _ _). }
  unfold AdmitProviderUsage. destruct ctx; [done|]. destruct (r_checkpointErr r); [done|].
  destruct (r_sealed r); [done|]. destruct (admission_denial _ _ _) as [[? ?]|]; [by intros ?%Hd|].
  destruct (reserveCost _ _ _) as [| |x|rv a k]; [apply Ha|by intros ?%Hd| |apply Ha].
  destruct (may_fit_later r x); [by destruct (wait_channel r)|by intros ?%Hd].
Qed.

(** The call that an admission grants is the last one of the run, and open. *)
Lemma granted_call ctx d w w' x :
  owner_AdmitProviderUsage run_owner ctx d w = (w', Granted x) ->
  exists i n c, x = Some (run_call i (rd_id (rounds n))) /\ S i = length (calls (col_run w')) /\
    calls (col_run w') !! i = Some c /\ c_settled c = false.
Proof.
  cbn [run_owner owner_AdmitProviderUsage]. revert ctx w.
  induction patience as [|fuel IH]; intros ctx w; [done|]. cbn [admit_rounds].
  destruct (AdmitProviderUsage _ _ _ _ _ _ _) as [[r made] res] eqn:E. destruct res as [e|ch|c]; [done|by intros ?%IH|].
  apply admitted_open in E as (-> & Hs & Hc). intros [= <- <-]. rewrite Hc.
  exists (length (calls (col_run w))), (col_round w), c. split; [done|]. cbn.
  rewrite length_app, lookup_app_r, Nat.sub_diag by lia. cbn. split_and!; try done. lia.
Qed.

(** The collector keeps the promises of the interface, given identifiers that
    are not blank. *)
#[export] Instance run_owner_lawful :
  (forall n, TrimSpace (rd_id (rounds n)) <> []) -> Lawful run_owner.
Proof.
  intros Hid ctx d w w' x (i & n & c & -> & _ & Hc & Hs)%granted_call.
  exists (run_call i (rd_id (rounds n))), (call_settled i). split; [done|].
  split; [by apply run_call_promise|]. intros Hset. specialize (Hset c Hc). congruence.
Qed.
End owner.
