(* ===== verification/ModelCall.v ===== *)
(** * Calling a model

    The accounting of [src/engine/execution/call.go] ([CallModel]) and
    [generate_usage.go] ([GenerateWithUsage]), and the budget that the attempts
    of one logical request share ([ModelAttemptBudget] of [retry.go]).

    The state is the ambient state [A] of the owner and of the provider, from
    which the context's error and the clock are read, together with the budget
    and the number of requests sent to the provider.  The provider itself is a
    record of functions on [A]. *)

From S2P Require Import Prelude GoStrings GoBase RunCost RunUsage ProviderUsage.

Open Scope Z_scope.

(** ** The budget of a logical request *)

Record ModelAttemptBudget := { maxProviderCalls : Z; providerCalls : Z; deadline : Z }.
#[export] Instance eta_ModelAttemptBudget : Eta ModelAttemptBudget := fun x =>
  Build_ModelAttemptBudget (maxProviderCalls x) (providerCalls x) (deadline x).

Definition NewModelAttemptBudget (maxCalls maxElapsed now : Z) : ModelAttemptBudget :=
  {| maxProviderCalls := maxCalls; providerCalls := 0; deadline := now + maxElapsed |}.

Definition ProviderCalls (b : option ModelAttemptBudget) : Z :=
  match b with Some b => providerCalls b | None => 0 end.

Definition ReserveProviderCall (ctxErr : option goerr) (now : Z) (b : option ModelAttemptBudget)
    : option ModelAttemptBudget * option goerr :=
  match b with
  | None => (None, None)
  | Some x =>
      match ctxErr with
      | Some e => (b, Some e)
      | None =>
          if negb (now <? deadline x) then (b, Some (Sentinel ErrModelAttemptDeadlineExceeded)) else
          if (maxProviderCalls x <=? 0) || (maxProviderCalls x <=? providerCalls x)
          then (b, Some (Sentinel ErrProviderCallBudgetExhausted))
          else (Some (x <| providerCalls ::= Z.succ |>), None)
      end
  end.

(** ** Calls *)

(** The options that the accounting reads. *)
Record CallModelOptions := {
  o_Model : bytes; o_Provider : bytes; o_ModelRole : bytes; o_ModelProfile : bytes;
  o_QuerySource : bytes; o_EffortValue : bytes; o_UsageLogicalRoundID : bytes;
  o_UsageLogicalRequestID : bytes; o_UsageModelAttemptID : bytes;
  o_UsageModelAttemptIndex : Z; o_UsageModelRetryIndex : Z
}.

Definition call_descriptor (o : CallModelOptions) (bound : option Bound) : ProviderUsageDescriptor := {|
  d_LogicalRoundID := o_UsageLogicalRoundID o; d_LogicalRequestID := o_UsageLogicalRequestID o;
  d_ModelAttemptID := o_UsageModelAttemptID o; d_ModelAttemptIndex := o_UsageModelAttemptIndex o;
  d_ModelRetryIndex := o_UsageModelRetryIndex o; d_Model := o_Model o; d_Provider := o_Provider o;
  d_QuerySource := o_QuerySource o; d_ModelRole := o_ModelRole o; d_ModelProfile := o_ModelProfile o;
  d_ReasoningEffort := ToLower (TrimSpace (o_EffortValue o)); d_CostBound := bound; d_Request := false
|}.

Section calls.
Context {A R : Type} (ctx_Err : A -> option goerr) (time_Now : A -> Z).

(** A prepared stream ([providercost.Stream]) and a model that may prepare one;
    the tools, messages and options are already bound. *)
Record prepared := { CostBound : Bound; prepared_Stream : A -> A * result goerr R }.
Record chat_model := {
  PrepareBudgetStream : option (Z -> A -> A * result goerr (option prepared));
  Stream : A -> A * result goerr R
}.

Record state := { ambient : A; budget : option ModelAttemptBudget; dispatches : Z }.
#[local] Instance eta_state : Eta state := fun x => Build_state (ambient x) (budget x) (dispatches x).

Definition on_ambient {B} (f : A -> A * B) (s : state) : state * B :=
  let '(a, b) := f (ambient s) in (s <| ambient := a |>, b).

(** What a call gives: it may wait for ever, fail, or start a stream with the
    admitted call that accounts for it. *)
Inductive outcome :=
| Stuck
| Failed (e : goerr)
| Started (stream : R) (c : option (ProviderUsageCall A)).

Definition unknown_usage (e : option goerr) : goerr :=
  ProviderUsageTerminalError (errors_Join [Some (Sentinel ErrRunUsageUnknown); e]).

(** The preparation of a bounded stream, when the owner reserves costs. *)
Definition prepare_cost (owner : option (ProviderUsageAdmitter A)) (m : chat_model) (a : A)
    : A * result goerr (option prepared) :=
  match o ← owner; owner_ProviderCostReservationPolicy o with
  | None => (a, Ok None)
  | Some policy =>
      let '(required, cap) := policy a in
      if negb required then (a, Ok None) else
      match PrepareBudgetStream m with
      | None => (a, Err (unknown_usage (Some (Sentinel ErrUnsupported))))
      | Some prepare =>
          match prepare cap a with
          | (a, Err e) =>
              (a, Err (if errors_Is e ContextCanceled || errors_Is e ContextDeadlineExceeded
                       then e else unknown_usage (Some e)))
          | (a, Ok None) => (a, Err (ProviderUsageTerminalError (Some (Sentinel ErrRunUsageUnknown))))
          | (a, Ok (Some p)) => (a, Ok (Some p))
          end
      end
  end.

(** After the admission: the budget, the request, the stream. *)
Definition dispatch (m : chat_model) (p : option prepared) (c : option (ProviderUsageCall A)) (s : state)
    : state * outcome :=
  let '(b, err) := ReserveProviderCall (ctx_Err (ambient s)) (time_Now (ambient s)) (budget s) in
  let s := s <| budget := b |> in
  match err with
  | Some e =>
      let '(s, e) := on_ambient (ReleaseProviderUsageBeforeDispatch c e) s in (s, Failed e)
  | None =>
      let s := s <| dispatches ::= Z.succ |> in
      match on_ambient (match p with Some p => prepared_Stream p | None => Stream m end) s with
      | (s, Err e) =>
          let '(s, e) := on_ambient (MarkProviderUsageAmbiguous c (Wrapped (lit "model stream: ") e)) s in
          (s, Failed e)
      | (s, Ok stream) => (s, Started stream c)
      end
  end.

(** [CallModel], from the reservation of costs on. *)
Definition CallModel (owner : option (ProviderUsageAdmitter A)) (m : chat_model) (o : CallModelOptions)
    (s : state) : state * outcome :=
  match on_ambient (prepare_cost owner m) s with
  | (s, Err e) => (s, Failed e)
  | (s, Ok p) =>
      match owner with
      | None => dispatch m p None s
      | Some own =>
          if TrimSpace (o_UsageLogicalRoundID o) ==b []
          then (s, Failed (new_error_text (lit "goal provider usage requires a logical round identity"))) else
          match on_ambient (owner_AdmitProviderUsage own (ctx_Err (ambient s))
                              (call_descriptor o (CostBound <$> p))) s with
          | (s, Blocked) => (s, Stuck)
          | (s, Denied e) => (s, Failed e)
          | (s, Granted c) =>
              if unidentified c
              then (s, Failed (new_error_text (lit "goal provider usage admission returned no call identity")))
              else
                match ctx_Err (ambient s) with
                | Some e =>
                    let '(s, e) := on_ambient (ReleaseProviderUsageBeforeDispatch c e) s in (s, Failed e)
                | None => dispatch m p c s
                end
          end
      end
  end.

(** The call that [CallModel] admits, if it admits one. *)
Definition admitted (owner : option (ProviderUsageAdmitter A)) (m : chat_model) (o : CallModelOptions) (a : A)
    : option (ProviderUsageCall A) :=
  match prepare_cost owner m a with
  | (_, Err _) => None
  | (a, Ok p) =>
      own ← owner;
      if TrimSpace (o_UsageLogicalRoundID o) ==b [] then None else
      match (owner_AdmitProviderUsage own (ctx_Err a) (call_descriptor o (CostBound <$> p)) a).2 with
      | Granted c => c
      | _ => None
      end
  end.

(** ** One-shot generation *)

(** A descriptor without a logical round gets a new one. *)
Definition with_round (own : ProviderUsageAdmitter A) (d : ProviderUsageDescriptor) (a : A)
    : A * ProviderUsageDescriptor :=
  if d_LogicalRoundID d ==b [] then
    let '(a, round) := owner_NewLogicalRoundID own a in (a, d <| d_LogicalRoundID := round |>)
  else (a, d).

(** The dispatch of an admitted generation and its settlement. *)
Definition generate_admitted (generate : A -> A * result goerr (option Message))
    (c : option (ProviderUsageCall A)) (a : A) : A * option (result goerr (option Message)) :=
  match generate a with
  | (a, Err e) => let '(a, e) := MarkProviderUsageAmbiguous c e a in (a, Some (Err e))
  | (a, Ok response) =>
      match CompleteProviderUsage c [response] a with
      | (a, Some e) => (a, Some (Err e))
      | (a, None) => (a, Some (Ok response))
      end
  end.

(** [GenerateWithUsage]; [generate] is the client's method, [None] without a
    client, and a response may be nil.  It gives nothing when the admission
    waits for ever. *)
Definition GenerateWithUsage (generate : option (A -> A * result goerr (option Message)))
    (owner : option (ProviderUsageAdmitter A)) (d : ProviderUsageDescriptor) (a : A)
    : A * option (result goerr (option Message)) :=
  match generate, owner with
  | None, _ => (a, Some (Err (new_error_text (lit "generate: chat model is required"))))
  | Some generate, None => generate_admitted generate None a
  | Some generate, Some own =>
      let '(a, d) := with_round own d a in
      match owner_AdmitProviderUsage own (ctx_Err a) d a with
      | (a, Blocked) => (a, None)
      | (a, Denied e) => (a, Some (Err e))
      | (a, Granted c) =>
          if unidentified c then
            let '(a, e) := ReleaseProviderUsageBeforeDispatch c no_identity a in (a, Some (Err e))
          else
            match ctx_Err a with
            | Some e => let '(a, e) := ReleaseProviderUsageBeforeDispatch c e a in (a, Some (Err e))
            | None => generate_admitted generate c a
            end
      end
  end.
End calls.
Arguments state A : clear implicits.
Arguments Failed {A R} e.
Arguments Stuck {A R}.
Arguments Started {A R} stream c.
Arguments Build_state {A}.
Arguments ambient {A}.
Arguments budget {A}.
Arguments dispatches {A}.
Arguments prepared A R : clear implicits.
Arguments chat_model A R : clear implicits.

Section call_facts.
Context {A R : Type} (ctx_Err : A -> option goerr) (time_Now : A -> Z).
Implicit Types (s : state A) (m : chat_model A R).

Lemma on_ambient_eq {B} (f : A -> A * B) s :
  on_ambient f s = (Build_state (f (ambient s)).1 (budget s) (dispatches s), (f (ambient s)).2).
Proof. unfold on_ambient. by destruct (f (ambient s)). Qed.

(** A dispatched call is settled when the dispatch fails. *)
Lemma dispatch_settles m p c S s s' e :
  promise c S -> dispatch ctx_Err time_Now m p (Some c) s = (s', Failed e) -> S (ambient s').
Proof.
  intros P. unfold dispatch. destruct (ReserveProviderCall _ _ _) as [b [err|]]; rewrite on_ambient_eq.
  - intros Hs%(f_equal fst). change s' with (fst (s', @Failed A R e)). rewrite <- Hs. exact (release_settles c S P _ _).
  - cbn [ambient budget dispatches set].
    destruct (match p with Some p => _ | None => _ end (ambient s)) as [a [x|x]]; cbn [fst snd]; [done|].
    rewrite on_ambient_eq. intros Hs%(f_equal fst). change s' with (fst (s', @Failed A R e)). rewrite <- Hs. exact (ambiguous_settles c S P _ _).
Qed.

Lemma dispatch_returns m p c s s' x c' :
  dispatch ctx_Err time_Now m p c s = (s', Started x c') -> c' = c.
Proof.
  unfold dispatch. destruct (ReserveProviderCall _ _ _) as [b [err|]]; rewrite on_ambient_eq; [done|].
  destruct (match p with Some p => _ | None => _ end _) as [a [y|y]]; cbn [fst snd].
  - by intros [= _ _ <-].
  - rewrite on_ambient_eq. done.
Qed.

(** What a call does once it has admitted [c]. *)
Lemma CallModel_admitted owner m o s c :
  admitted ctx_Err owner m o (ambient s) = Some c -> unidentified (Some c) = false ->
  exists s1 p, budget s1 = budget s /\ dispatches s1 = dispatches s /\
    CallModel ctx_Err time_Now owner m o s =
      match ctx_Err (ambient s1) with
      | Some e => let '(s, e) := on_ambient (ReleaseProviderUsageBeforeDispatch (Some c) e) s1 in (s, Failed e)
      | None => dispatch ctx_Err time_Now m p (Some c) s1
      end.
Proof.
  unfold admitted, CallModel. rewrite on_ambient_eq.
  destruct (prepare_cost owner m (ambient s)) as [a [p|e]]; cbn [fst snd]; [|done].
  destruct owner as [own|]; [|done]. cbn [mbind option_bind].
  destruct (_ ==b _); [done|]. rewrite on_ambient_eq. cbn [ambient].
  destruct (owner_AdmitProviderUsage own _ _ a) as [a' [|e|x]]; cbn [fst snd]; try done.
  intros -> ->. by exists (Build_state a' (budget s) (dispatches s)), p.
Qed.

Lemma CallModel_settles owner m o s s' c S e :
  admitted ctx_Err owner m o (ambient s) = Some c -> promise c S ->
  CallModel ctx_Err time_Now owner m o s = (s', Failed e) -> S (ambient s').
Proof.
  intros Ha P. destruct (CallModel_admitted owner m o s c Ha (promise_identified c S P)) as (s1 & p & _ & _ & ->).
  destruct (ctx_Err (ambient s1)); [|by apply dispatch_settles].
  rewrite on_ambient_eq. intros Hs%(f_equal fst). change s' with (fst (s', @Failed A R e)). rewrite <- Hs. exact (release_settles c S P _ _).
Qed.

Lemma CallModel_returns owner m o s s' c x c' :
  admitted ctx_Err owner m o (ambient s) = Some c -> unidentified (Some c) = false ->
  CallModel ctx_Err time_Now owner m o s = (s', Started x c') -> c' = Some c.
Proof.
  intros Ha Hi. destruct (CallModel_admitted owner m o s c Ha Hi) as (s1 & p & _ & _ & ->).
  destruct (ctx_Err (ambient s1)); [by rewrite on_ambient_eq|]. by apply dispatch_returns.
Qed.

Lemma generate_admitted_settles generate (c : ProviderUsageCall A) (S : A -> Prop) a :
  promise c S -> S (generate_admitted generate (Some c) a).1.
Proof.
  intros P. unfold generate_admitted. destruct (generate a) as [a' [x|e]].
  - pose proof (complete_settles c S P (last_usage (reverse [x])) a') as Hs. unfold CompleteProviderUsage.
    by destruct (completeProviderUsage (Some c) _ a') as [a'' [e|]].
  - pose proof (ambiguous_settles c S P e a') as Hs. by destruct (MarkProviderUsageAmbiguous (Some c) e a').
Qed.

Lemma GenerateWithUsage_settles generate own d a a1 d1 a2 c (S : A -> Prop) a' r :
  with_round own d a = (a1, d1) -> owner_AdmitProviderUsage own (ctx_Err a1) d1 a1 = (a2, Granted (Some c)) ->
  promise c S -> GenerateWithUsage ctx_Err (Some generate) (Some own) d a = (a', r) ->
  S a' /\ r <> None.
Proof.
  intros Hw Ha P. unfold GenerateWithUsage. rewrite Hw, Ha, (promise_identified c S P).
  destruct (ctx_Err a2) as [e|].
  - pose proof (release_settles c S P e a2) as Hs.
    destruct (ReleaseProviderUsageBeforeDispatch (Some c) e a2). by intros [= <- <-].
  - pose proof (generate_admitted_settles generate c S a2 P) as Hs.
    intros Hr. rewrite Hr in Hs. split; [done|]. revert Hr. unfold generate_admitted.
    destruct (generate a2) as [a3 [x|e]].
    + destruct (CompleteProviderUsage _ _ _) as [a4 [e|]]; by intros [= _ <-].
    + destruct (MarkProviderUsageAmbiguous _ _ _). by intros [= _ <-].
Qed.

(** ** The budget *)

(** How the budget and the number of requests sent change together. *)
Definition spent (s s' : state A) : Prop :=
  match budget s, budget s' with
  | Some b, Some b' =>
      maxProviderCalls b' = maxProviderCalls b /\ deadline b' = deadline b /\
      dispatches s' - dispatches s = providerCalls b' - providerCalls b /\
      0 <= providerCalls b' - providerCalls b /\
      (providerCalls b' = providerCalls b \/ providerCalls b' <= maxProviderCalls b')
  | None, None => True
  | _, _ => False
  end.

Lemma spent_refl s s' : budget s' = budget s -> dispatches s' = dispatches s -> spent s s'.
Proof. unfold spent. intros -> ->. destruct (budget s); [|done]. split_and!; lia || by left. Qed.

Lemma spent_trans s1 s2 s3 : spent s1 s2 -> spent s2 s3 -> spent s1 s3.
Proof.
  unfold spent. destruct (budget s1), (budget s2), (budget s3); try done. lia.
Qed.

Lemma reserve_spent ctxErr now s b :
  ReserveProviderCall ctxErr now (budget s) = (b, None) ->
  forall a, spent s (Build_state a b (Z.succ (dispatches s))).
Proof.
  intros Hr a. unfold spent. cbn [budget dispatches]. revert Hr. unfold ReserveProviderCall.
  destruct (budget s) as [x|]; [|by intros [= <-]].
  destruct ctxErr; [done|]. destruct (negb _); [done|]. destruct (_ || _) eqn:Eb; [done|].
  intros [= <-]. cbn. rewrite orb_false_iff, !Z.leb_gt in Eb. lia.
Qed.

Lemma reserve_error ctxErr now b b' e : ReserveProviderCall ctxErr now b = (b', Some e) -> b' = b.
Proof. unfold ReserveProviderCall. repeat case_match; naive_solver. Qed.

Lemma dispatch_spent m p c s : spent s (dispatch ctx_Err time_Now m p c s).1.
Proof.
  unfold dispatch. destruct (ReserveProviderCall _ _ _) as [b [err|]] eqn:Er; rewrite on_ambient_eq.
  - apply reserve_error in Er as ->. by apply spent_refl.
  - destruct (match p with Some p => _ | None => _ end _) as [a [y|y]]; cbn [fst snd].
    + by eapply reserve_spent.
    + rewrite on_ambient_eq. by eapply reserve_spent.
Qed.

Lemma CallModel_spent owner m o s : spent s (CallModel ctx_Err time_Now owner m o s).1.
Proof.
  unfold CallModel. rewrite on_ambient_eq.
  destruct (prepare_cost owner m (ambient s)) as [a [p|e]]; cbn [fst snd]; [|by apply spent_refl].
  assert (forall c a', spent s (dispatch ctx_Err time_Now m p c (Build_state a' (budget s) (dispatches s))).1) as Hd.
  { intros c a'. eapply spent_trans; [|apply dispatch_spent]. by apply spent_refl. }
  destruct owner as [own|]; [|apply Hd]. destruct (_ ==b _); [by apply spent_refl|].
  rewrite on_ambient_eq. cbn [ambient budget dispatches].
  destruct (owner_AdmitProviderUsage own _ _ a) as [a' [|e|x]]; cbn [fst snd]; try by apply spent_refl.
  destruct (unidentified x); [by apply spent_refl|]. cbn [ambient].
  destruct (ctx_Err a'); [|apply Hd]. rewrite on_ambient_eq. by apply spent_refl.
Qed.
End call_facts.
