(* ===== verification/Retry.v ===== *)
(** * Retrying model calls

    [src/engine/execution/retry.go]: which errors are transient, the taxonomy of
    failures, and the loop of [CallModelWithRetry].  The loop runs on any state
    [W]; the operation, the hook before it, the context and the waiting are
    functions on it.  Error texts are searched the way the source searches them.
    The delay of an attempt is drawn at random by [RetryDelay], so it is an
    argument of the loop. *)

From S2P Require Import Prelude GoStrings GoBase RunCost RunUsage ProviderUsage ModelCall.

Open Scope Z_scope.

(** ** Transient errors *)

Definition statusCodeFromError (e : goerr) : Z :=
  default 0 (errors_As (fun e => match e with External x _ => ex_status x | _ => None end) e).

Definition IsOverloadedError (e : goerr) : bool :=
  (statusCodeFromError e =? 529) || Contains (error_text e) (lit "overloaded_error")
  || Contains (error_text e) (lit ": 529 ").

Definition IsRateLimitError (e : goerr) : bool :=
  (statusCodeFromError e =? 429) || Contains (error_text e) (lit "rate_limit_error")
  || Contains (error_text e) (lit ": 429 ").

Definition IsTransientAPIError (e : goerr) : bool := IsOverloadedError e || IsRateLimitError e.

(** ** The taxonomy of failures *)

Inductive ModelFailureClass :=
| ModelFailureUnknown | ModelFailureOverloaded | ModelFailureRateLimited | ModelFailureTimeout
| ModelFailureTransportUnavailable | ModelFailureAuthentication | ModelFailureAuthorization
| ModelFailureInvalidRequest | ModelFailurePolicyRejected | ModelFailureContextTooLong
| ModelFailureCancelled | ModelFailureUsageAmbiguous | ModelFailureBudgetExhausted.

#[export] Instance ModelFailureClass_eq_dec : EqDecision ModelFailureClass.
Proof. solve_decision. Defined.

Definition classify_text (message : bytes) : ModelFailureClass :=
  if Contains message (lit "authentication") || Contains message (lit "unauthorized")
     || Contains message (lit "invalid api key") then ModelFailureAuthentication else
  if Contains message (lit "forbidden") || Contains message (lit "authorization")
  then ModelFailureAuthorization else
  if Contains message (lit "context length") || Contains message (lit "context too long")
  then ModelFailureContextTooLong else
  if Contains message (lit "invalid_request") || Contains message (lit "unsupported parameter")
  then ModelFailureInvalidRequest else
  if Contains message (lit "content policy") || Contains message (lit "policy rejection")
  then ModelFailurePolicyRejected else
  if Contains message (lit "connection refused") || Contains message (lit "connection reset")
     || Contains message (lit "no such host") then ModelFailureTransportUnavailable
  else ModelFailureUnknown.

Definition ClassifyModelFailure (err : option goerr) : ModelFailureClass :=
  match err with
  | None => ModelFailureUnknown
  | Some e =>
      if IsProviderUsageTerminalError e then ModelFailureUsageAmbiguous else
      if errors_Is e ErrProviderCallBudgetExhausted || errors_Is e ErrModelAttemptDeadlineExceeded
      then ModelFailureBudgetExhausted else
      if errors_Is e ContextCanceled then ModelFailureCancelled else
      if errors_Is e ContextDeadlineExceeded then ModelFailureTimeout else
      if IsOverloadedError e then ModelFailureOverloaded else
      if IsRateLimitError e then ModelFailureRateLimited else
      let status := statusCodeFromError e in
      if (status =? 400) || (status =? 422) then ModelFailureInvalidRequest else
      if status =? 401 then ModelFailureAuthentication else
      if status =? 403 then ModelFailureAuthorization else
      classify_text (ToLower (error_text e))
  end.

(** ** The configuration *)

Definition DefaultMaxRetries : Z := 10.
Definition PersistentResetCapMS : Z := 6 * 60 * 60 * 1000.

(** [RetryConfig], without the hook and the budget, and the two environment
    variables. *)
Record RetryConfig := {
  MaxRetries : Z; MaxConsecutiveOverloadErrors : Z; env_MAX_RETRIES : bytes; env_UNATTENDED_RETRY : bytes
}.

Definition max_retries (c : RetryConfig) : Z :=
  let n := if MaxRetries c <=? 0 then DefaultMaxRetries else MaxRetries c in
  if env_MAX_RETRIES c ==b [] then n else
  match Atoi (env_MAX_RETRIES c) with
  | Some m => if 0 <=? m then m else n
  | None => n
  end.

Definition isPersistentRetryEnabled (c : RetryConfig) : bool :=
  let v := TrimSpace (env_UNATTENDED_RETRY c) in (v ==b lit "1") || EqualFold v (lit "true").

Record RetryWaitInfo := {
  ri_Error : goerr; ri_Attempt : Z; ri_Delay : Z; ri_Is529 : bool; ri_Is429 : bool
}.

(** ** The loop *)

Section retry.
Context {W R : Type}.
Context (ctx_Err : W -> option goerr) (BeforeDispatch : option (Z -> W -> W * option goerr)).
Context (operation : Z -> W -> W * option (result goerr R)).
Context (wait : Z -> W -> W * option goerr) (RetryDelay : Z -> Z).

(** What the loop returns: [None] when the operation waits for ever; with the
    calls of [onRetryWait], in order. *)
Abbreviation returned := (W * list RetryWaitInfo * option (result goerr R))%type.

(** Why an error of an attempt ends the loop, if it does, and the number of
    overload errors in a row. *)
Definition stop_retrying (c : RetryConfig) (attempt consecutive529 totalElapsed : Z) (e : goerr) (w : W)
    : option goerr * Z :=
  if IsProviderUsageTerminalError e then (Some e, consecutive529) else
  match ctx_Err w with
  | Some x => (Some x, consecutive529)
  | None =>
      if negb (IsOverloadedError e || IsRateLimitError e) then (Some e, consecutive529) else
      let consecutive529 := if IsOverloadedError e then consecutive529 + 1 else 0 in
      if IsOverloadedError e && (0 <? MaxConsecutiveOverloadErrors c)
         && (MaxConsecutiveOverloadErrors c <=? consecutive529) then (Some e, consecutive529) else
      if negb (isPersistentRetryEnabled c) && (max_retries c <=? attempt) then (Some e, consecutive529) else
      if isPersistentRetryEnabled c && (PersistentResetCapMS * 1000000 <=? totalElapsed)
      then (Some e, consecutive529) else (None, consecutive529)
  end.

Fixpoint retry_loop (fuel : nat) (c : RetryConfig) (attempt consecutive529 totalElapsed : Z)
    (waits : list RetryWaitInfo) (w : W) : option returned :=
  match fuel with
  | O => None
  | S fuel =>
      let '(w, before) := match BeforeDispatch with Some f => f attempt w | None => (w, None) end in
      match before with
      | Some e => Some (w, waits, Some (Err e))
      | None =>
          match operation attempt w with
          | (w, None) => Some (w, waits, None)
          | (w, Some (Ok r)) => Some (w, waits, Some (Ok r))
          | (w, Some (Err e)) =>
              match stop_retrying c attempt consecutive529 totalElapsed e w with
              | (Some x, _) => Some (w, waits, Some (Err x))
              | (None, consecutive529) =>
                  let delay := RetryDelay attempt in
                  let info := {| ri_Error := e; ri_Attempt := attempt; ri_Delay := delay;
                                 ri_Is529 := IsOverloadedError e; ri_Is429 := IsRateLimitError e |} in
                  match wait delay w with
                  | (w, Some x) => Some (w, waits ++ [info], Some (Err x))
                  | (w, None) =>
                      retry_loop fuel c (attempt + 1) consecutive529 (totalElapsed + delay) (waits ++ [info]) w
                  end
              end
          end
      end
  end.

Definition CallModelWithRetry (fuel : nat) (c : RetryConfig) (w : W) : option returned :=
  retry_loop fuel c 0 0 0 [] w.
End retry.

(** ** Waiting under a budget *)

(** [waitRetry]; [sleep] is the budget's wait function, or [waitForRetry]. *)
Definition waitRetry {A} (time_Now : A -> Z) (sleep : Z -> A -> A * option goerr) (delay : Z) (s : state A)
    : state A * option goerr :=
  match budget s with
  | None => on_ambient (sleep delay) s
  | Some b =>
      let remaining := deadline b - time_Now (ambient s) in
      if remaining <=? 0 then (s, Some (Sentinel ErrModelAttemptDeadlineExceeded)) else
      match on_ambient (sleep (Z.min delay remaining)) s with
      | (s, Some e) => (s, Some e)
      | (s, None) =>
          (s, if negb (time_Now (ambient s) <? deadline b)
              then Some (Sentinel ErrModelAttemptDeadlineExceeded) else None)
      end
  end.

(** ** What the loop does *)

Lemma max_retries_nonneg c : 0 <= max_retries c.
Proof.
  unfold max_retries. assert (0 <= if MaxRetries c <=? 0 then DefaultMaxRetries else MaxRetries c).
  { destruct (Z.leb_spec (MaxRetries c) 0); [done|lia]. }
  destruct (_ ==b _); [done|]. destruct (Atoi _) as [m|]; [|done]. by destruct (Z.leb_spec 0 m).
Qed.

(** A wait from attempt [a] with [t] waited so far: the error is transient, did
    not come from the accounting, and the retry budget is not used up. *)
Record waited (c : RetryConfig) (a t : Z) (i : RetryWaitInfo) : Prop := {
  wt_attempt : ri_Attempt i = a;
  wt_transient : IsTransientAPIError (ri_Error i) = true;
  wt_accounted : IsProviderUsageTerminalError (ri_Error i) = false;
  wt_529 : ri_Is529 i = IsOverloadedError (ri_Error i);
  wt_429 : ri_Is429 i = IsRateLimitError (ri_Error i);
  wt_budget : if isPersistentRetryEnabled c then t < PersistentResetCapMS * 1000000 else a < max_retries c
}.

(** The waits of a loop that stands at attempt [a] after [k] overload errors in
    a row and a total wait of [t]. *)
Inductive waits_from (c : RetryConfig) : Z -> Z -> Z -> list RetryWaitInfo -> Prop :=
| waits_nil a k t : waits_from c a k t []
| waits_cons a k t i l :
    waited c a t i ->
    (ri_Is529 i = true -> 0 < MaxConsecutiveOverloadErrors c -> k + 1 < MaxConsecutiveOverloadErrors c) ->
    waits_from c (a + 1) (if ri_Is529 i then k + 1 else 0) (t + ri_Delay i) l ->
    waits_from c a k t (i :: l).

Section retry_facts.
Context {W R : Type}.
Context (ctx_Err : W -> option goerr) (BeforeDispatch : option (Z -> W -> W * option goerr)).
Context (operation : Z -> W -> W * option (result goerr R)).
Context (wait : Z -> W -> W * option goerr) (RetryDelay : Z -> Z).
Abbreviation loop := (retry_loop ctx_Err BeforeDispatch operation wait RetryDelay).

Lemma give_up_none c a k t e w k' :
  stop_retrying ctx_Err c a k t e w = (None, k') ->
  let i := {| ri_Error := e; ri_Attempt := a; ri_Delay := RetryDelay a;
              ri_Is529 := IsOverloadedError e; ri_Is429 := IsRateLimitError e |} in
  waited c a t i /\
  (ri_Is529 i = true -> 0 < MaxConsecutiveOverloadErrors c -> k + 1 < MaxConsecutiveOverloadErrors c) /\
  k' = if ri_Is529 i then k + 1 else 0.
Proof.
  unfold stop_retrying. destruct (IsProviderUsageTerminalError e) eqn:Et; [done|].
  destruct (ctx_Err w); [done|]. destruct (IsOverloadedError e || IsRateLimitError e) eqn:Ei; [|done]. cbn [negb].
  cbv zeta. destruct (_ && (0 <? _) && _) eqn:Eo; [done|]. destruct (negb _ && _) eqn:Er; [done|].
  destruct (_ && (_ <=? t)) eqn:Ep; [done|]. intros [= <-].
  split; [split; cbn [ri_Attempt ri_Error ri_Is529 ri_Is429]; try done|split; [|done]].
  - destruct (isPersistentRetryEnabled c); cbn [negb andb] in *; lia.
  - cbn [ri_Is529]. intros Hov. rewrite Hov in Eo. cbn [andb] in Eo.
    rewrite andb_false_iff, Z.ltb_ge, Z.leb_gt in Eo. lia.
Qed.

Lemma retry_loop_waits fuel c a k t waits w w' waits' r :
  loop fuel c a k t waits w = Some (w', waits', r) ->
  exists l, waits' = waits ++ l /\ waits_from c a k t l.
Proof.
  revert a k t waits w. induction fuel as [|fuel IH]; intros a k t waits w; [done|]. cbn [retry_loop].
  assert (forall w0 r0, Some (w0, waits, r0) = Some (w', waits', r) ->
    exists l, waits' = waits ++ l /\ waits_from c a k t l) as Hret.
  { intros w0 r0 [= _ <- _]. exists []. rewrite app_nil_r. split; [done|constructor]. }
  destruct (match BeforeDispatch with Some f => f a w | None => (w, None) end) as [w1 [e|]]; [apply Hret|].
  destruct (operation a w1) as [w2 [[x|e]|]]; [apply Hret| |apply Hret].
  destruct (stop_retrying ctx_Err c a k t e w2) as [[x|] k'] eqn:Eg; [apply Hret|].
  apply give_up_none in Eg as (Hw & Ho & ->).
  set (i := {| ri_Error := e |}) in *. destruct (wait (RetryDelay a) w2) as [w3 [x|]].
  - intros [= _ <- _]. exists [i]. split; [done|]. constructor; [done|done|constructor].
  - intros (l & -> & Hl)%IH. exists (i :: l). rewrite <- app_assoc. split; [done|]. by constructor.
Qed.

(** What every step keeps, the loop keeps. *)
Lemma retry_loop_keeps (Q : W -> W -> Prop) `{!PreOrder Q} fuel c a k t waits w w' waits' r :
  (forall f n w, BeforeDispatch = Some f -> Q w (f n w).1) ->
  (forall n w, Q w (operation n w).1) -> (forall d w, Q w (wait d w).1) ->
  loop fuel c a k t waits w = Some (w', waits', r) -> Q w w'.
Proof.
  intros Hb Ho Hw. revert a k t waits w. induction fuel as [|fuel IH]; intros a k t waits w; [done|].
  cbn [retry_loop].
  assert (Q w (match BeforeDispatch with Some f => f a w | None => (w, None) end).1) as H1.
  { destruct BeforeDispatch; [by apply Hb|done]. }
  destruct (match BeforeDispatch with Some f => f a w | None => (w, None) end) as [w1 [e|]]; cbn [fst] in H1;
    [by intros [= <- _ _]|].
  pose proof (Ho a w1) as H2. destruct (operation a w1) as [w2 [[x|e]|]]; cbn [fst] in H2;
    try (intros [= <- _ _]; by etrans).
  destruct (stop_retrying ctx_Err c a k t e w2) as [[x|] k']; [intros [= <- _ _]; by etrans|].
  pose proof (Hw (RetryDelay a) w2) as H3. destruct (wait (RetryDelay a) w2) as [w3 [x|]]; cbn [fst] in H3.
  - intros [= <- _ _]. etrans; [exact H1|]. by etrans.
  - intros Hl%IH. etrans; [exact H1|]. etrans; [exact H2|]. by etrans.
Qed.

(** A loop that still has attempts left to make ends, when each attempt uses up
    at least one unit of the measure. *)
Lemma retry_loop_ends fuel c a k t waits w (measure : Z -> Z -> Z) :
  (forall a t i, waited c a t i -> ri_Delay i = RetryDelay a ->
     0 < measure a t /\ measure (a + 1) (t + RetryDelay a) < measure a t) ->
  measure a t < Z.of_nat fuel -> (0 < fuel)%nat -> is_Some (loop fuel c a k t waits w).
Proof.
  intros Hm. revert a k t waits w. induction fuel as [|fuel IH]; intros a k t waits w Hf H0; [lia|].
  cbn [retry_loop].
  destruct (match BeforeDispatch with Some f => f a w | None => (w, None) end) as [w1 [e|]]; [done|].
  destruct (operation a w1) as [w2 [[x|e]|]]; try done.
  destruct (stop_retrying ctx_Err c a k t e w2) as [[x|] k'] eqn:Eg; [done|].
  apply give_up_none in Eg as (Hw & _ & _). apply Hm in Hw; [|done].
  destruct (wait (RetryDelay a) w2) as [w3 [x|]]; [done|]. apply IH; lia.
Qed.
End retry_facts.

Lemma waits_from_attempts c a k t l :
  waits_from c a k t l -> forall j i, l !! j = Some i -> exists t', waited c (a + Z.of_nat j) t' i.
Proof.
  induction 1 as [|a k t i l Hi _ Hl IH]; intros j x Hx; [done|]. destruct j as [|j].
  - injection Hx as <-. exists t. by rewrite Z.add_0_r.
  - apply IH in Hx as [t' Hx]. exists t'. replace (a + Z.of_nat (S j)) with (a + 1 + Z.of_nat j) by lia. done.
Qed.

(** The number of waits of a loop that is not persistent. *)
Lemma waits_from_length c a k t l :
  waits_from c a k t l -> isPersistentRetryEnabled c = false -> 0 <= a <= max_retries c ->
  Z.of_nat (length l) <= max_retries c - a.
Proof.
  induction 1 as [|a k t i l [_ _ _ _ _ Hb] _ Hl IH]; intros Hp Ha; cbn [length]; [lia|].
  rewrite Hp in Hb. specialize (IH Hp ltac:(lia)). lia.
Qed.
