(* ===== verification/CallProperties.v ===== *)
(** * Properties of model calls

    What the accounting interface, the calls of a model and the retry loop
    guarantee together. *)

From S2P Require Import Prelude GoStrings GoBase RunCost RunUsage RunUsageFacts RunBooks.
From S2P Require Import RunSystem RunProperties ProviderUsage RunOwner ModelCall Retry.

Open Scope Z_scope.

(** ** Nothing stays open *)

(** when a combination of two owners refuses a call, whatever the reason, the
    admission that its first owner had already granted is settled (the second
    owner's denial, or a call of the second without an identity, rolls it back). *)
Theorem refused_combination_settles {W1 W2} (o1 : ProviderUsageAdmitter W1) (o2 : ProviderUsageAdmitter W2)
    ctx d w1 w2 w' e w1' c S :
  owner_AdmitProviderUsage o1 ctx d w1 = (w1', Granted (Some c)) -> promise c S ->
  owner_AdmitProviderUsage (combinedProviderUsage o1 o2) ctx d (w1, w2) = (w', Denied e) ->
  S w'.1.
Proof. intros Hg Hp Hd. by eapply combined_refusal_settles. Qed.

(** when [CallModel] fails after it has admitted a call, because the context
    is cancelled, the budget of the request is exhausted or the provider refuses
    the stream, the admitted call is settled; when it starts a stream, it returns
    the call it has admitted. *)
Theorem failed_call_settles {A R} (ctx_Err : A -> option goerr) (time_Now : A -> Z) owner
    (m : chat_model A R) o s s' out c S :
  admitted ctx_Err owner m o (ambient s) = Some c -> promise c S ->
  CallModel ctx_Err time_Now owner m o s = (s', out) ->
  match out with
  | Failed _ => S (ambient s')
  | Started _ c' => c' = Some c
  | Stuck => False
  end.
Proof.
  intros Ha Hp Hc. destruct out as [|e|x c'].
  - destruct (CallModel_admitted ctx_Err time_Now owner m o s c Ha (promise_identified c S Hp))
      as (s1 & p & _ & _ & Heq). rewrite Heq in Hc. destruct (ctx_Err (ambient s1)).
    + by rewrite on_ambient_eq in Hc.
    + revert Hc. unfold dispatch. destruct (ReserveProviderCall _ _ _) as [b [err|]]; rewrite on_ambient_eq; [done|].
      destruct (match p with Some p => _ | None => _ end _) as [a [y|y]]; cbn [fst snd]; [done|].
      by rewrite on_ambient_eq.
  - by eapply CallModel_settles.
  - eapply CallModel_returns; [done| |done]. by eapply promise_identified.
Qed.

(** [GenerateWithUsage] always settles the call that it has admitted, and
    always returns once it has admitted one: the generated message is returned
    only when its usage was accepted. *)
Theorem generation_settles {A} (ctx_Err : A -> option goerr) generate own d a a1 d1 a2 c S a' r :
  with_round own d a = (a1, d1) -> owner_AdmitProviderUsage own (ctx_Err a1) d1 a1 = (a2, Granted (Some c)) ->
  promise c S -> GenerateWithUsage ctx_Err (Some generate) (Some own) d a = (a', r) ->
  S a' /\ r <> None.
Proof. apply GenerateWithUsage_settles. Qed.

(** ** Retries *)

(** The attempts of the retry loop, each a call of the model. *)
Definition model_attempt {A R} (ctx_Err : A -> option goerr) (time_Now : A -> Z)
    (owner : option (ProviderUsageAdmitter A)) (m : chat_model A R) (opts : Z -> CallModelOptions)
    (attempt : Z) (s : state A) : state A * option (result goerr (R * option (ProviderUsageCall A))) :=
  match CallModel ctx_Err time_Now owner m (opts attempt) s with
  | (s, Stuck) => (s, None)
  | (s, Failed e) => (s, Some (Err e))
  | (s, Started x c) => (s, Some (Ok (x, c)))
  end.

(** C36: a retry loop that is not persistent always returns, after at most
    [max_retries] waits, whatever the operation, the delays and the context do. *)
Theorem retry_returns {W R} ctx_Err BeforeDispatch (operation : Z -> W -> W * option (result goerr R)) wait
    RetryDelay fuel c w :
  isPersistentRetryEnabled c = false -> max_retries c < Z.of_nat fuel ->
  exists w' waits r,
    CallModelWithRetry ctx_Err BeforeDispatch operation wait RetryDelay fuel c w = Some (w', waits, r) /\
    Z.of_nat (length waits) <= max_retries c.
Proof.
  intros Hp Hf. pose proof (max_retries_nonneg c) as Hm.
  destruct (retry_loop_ends ctx_Err BeforeDispatch operation wait RetryDelay fuel c 0 0 0 [] w
    (fun a _ => max_retries c - a)) as [[[w' waits] r] E]; [|lia|lia|].
  - intros a t i [_ _ _ _ _ Hb] _. rewrite Hp in Hb. lia.
  - exists w', waits, r. split; [done|]. apply retry_loop_waits in E as (l & -> & Hl). cbn [app].
    apply waits_from_length in Hl; [lia|done|lia].
Qed.

(** a persistent loop returns too, when every delay is at least [least]: it
    stops once it has waited for six hours. *)
Theorem persistent_retry_returns {W R} ctx_Err BeforeDispatch (operation : Z -> W -> W * option (result goerr R))
    wait RetryDelay fuel c w least :
  isPersistentRetryEnabled c = true -> 0 < least -> (forall a, least <= RetryDelay a) ->
  PersistentResetCapMS * 1000000 / least + 1 < Z.of_nat fuel ->
  exists w' waits r,
    CallModelWithRetry ctx_Err BeforeDispatch operation wait RetryDelay fuel c w = Some (w', waits, r).
Proof.
  intros Hp Hl Hd Hf. set (cap := PersistentResetCapMS * 1000000) in *.
  assert (0 <= cap) as H0 by done. pose proof (Z.div_pos cap least H0 Hl).
  destruct (retry_loop_ends ctx_Err BeforeDispatch operation wait RetryDelay fuel c 0 0 0 [] w
    (fun _ t => (cap - t) / least + 1)) as [[[w' waits] r] E]; [| |lia|].
  - intros a t i [_ _ _ _ _ Hb] _. rewrite Hp in Hb. specialize (Hd a). fold cap in Hb.
    pose proof (Z.div_pos (cap - t) least ltac:(lia) Hl).
    assert ((cap - (t + RetryDelay a)) / least <= (cap - t - 1 * least) / least) as Hle.
    { apply Z.div_le_mono; lia. }
    replace (cap - t - 1 * least) with (cap - t + (-1) * least) in Hle by lia.
    rewrite Z.div_add in Hle by lia. lia.
  - by rewrite Z.sub_0_r.
  - by exists w', waits, r.
Qed.

(** the loop makes another attempt only after an overload or rate-limit error
    that did not come from the accounting: after a terminal usage error there is
    never a second provider call.  Attempts are numbered from zero, and with a
    limit on consecutive overload errors fewer than that many follow each other. *)
Theorem retry_waits {W R} ctx_Err BeforeDispatch (operation : Z -> W -> W * option (result goerr R)) wait
    RetryDelay fuel c w w' waits r :
  CallModelWithRetry ctx_Err BeforeDispatch operation wait RetryDelay fuel c w = Some (w', waits, r) ->
  waits_from c 0 0 0 waits /\
  forall j i, waits !! j = Some i ->
    ri_Attempt i = Z.of_nat j /\ IsTransientAPIError (ri_Error i) = true /\
    IsProviderUsageTerminalError (ri_Error i) = false /\
    ClassifyModelFailure (Some (ri_Error i)) <> ModelFailureUsageAmbiguous.
Proof.
  intros (l & -> & Hl)%retry_loop_waits. split; [done|]. intros j i Hi.
  destruct (waits_from_attempts _ _ _ _ _ Hl j i Hi) as [t [-> ? Ht _ _ _]].
  split_and!; try done. unfold ClassifyModelFailure. rewrite Ht. repeat case_match; try done.
  unfold classify_text in *. by repeat case_match.
Qed.

(** ** The budget of a logical request *)

Section spending.
Context {A R : Type} (ctx_Err : A -> option goerr) (time_Now : A -> Z).

#[local] Instance spent_preorder : PreOrder (@spent A).
Proof.
  split; [intros s; by apply spent_refl|]. intros s1 s2 s3. apply spent_trans.
Qed.

Lemma model_attempt_spent owner (m : chat_model A R) opts n s :
  spent s (model_attempt ctx_Err time_Now owner m opts n s).1.
Proof.
  unfold model_attempt. pose proof (CallModel_spent ctx_Err time_Now owner m (opts n) s) as Hs.
  destruct (CallModel _ _ _ _ _ s) as [s' []]; done.
Qed.

Lemma waitRetry_spent sleep d s : spent s (waitRetry time_Now sleep d s).1.
Proof.
  unfold waitRetry. destruct (budget s) as [b|] eqn:Eb.
  - destruct (_ <=? _); [done|]. rewrite on_ambient_eq.
    destruct (sleep _ _).2; by apply spent_refl.
  - rewrite on_ambient_eq. by apply spent_refl.
Qed.

(** One retry loop of a logical request: what happens before it, the guard of each
    dispatch, and the owner, the model, the options, the sleeping, the delays and
    the configuration of its attempts. *)
Record model_loop := {
  ml_before : A -> A; ml_guard : option (Z -> A -> A * option goerr); ml_owner : option (ProviderUsageAdmitter A);
  ml_model : chat_model A R; ml_opts : Z -> CallModelOptions; ml_sleep : Z -> A -> A * option goerr;
  ml_delay : Z -> Z; ml_config : RetryConfig; ml_fuel : nat
}.

(** The fuel covers the attempts of the loop; a persistent loop has a least delay. *)
Definition covered (l : model_loop) : Prop :=
  if isPersistentRetryEnabled (ml_config l)
  then exists least, 0 < least /\ (forall a, least <= ml_delay l a)
       /\ PersistentResetCapMS * 1000000 / least + 1 < Z.of_nat (ml_fuel l)
  else max_retries (ml_config l) < Z.of_nat (ml_fuel l).

Definition run_loop (l : model_loop) (s : state A) :=
  CallModelWithRetry (fun s => ctx_Err (ambient s)) ((fun f n => on_ambient (f n)) <$> ml_guard l)
    (model_attempt ctx_Err time_Now (ml_owner l) (ml_model l) (ml_opts l)) (waitRetry time_Now (ml_sleep l))
    (ml_delay l) (ml_fuel l) (ml_config l) (on_ambient (fun a => (ml_before l a, ())) s).1.

(** The loops of a logical request, one after the other, as far as each returns. *)
Fixpoint run_loops (loops : list model_loop) (s : state A) : option (state A) :=
  match loops with
  | [] => Some s
  | l :: loops =>
      match run_loop l s with
      | None => None
      | Some (s, _, None) => Some s
      | Some (s, _, Some _) => run_loops loops s
      end
  end.

Lemma on_ambient_spent {X} (f : A -> A * X) s : spent s (on_ambient f s).1.
Proof. rewrite on_ambient_eq. by apply spent_refl. Qed.

Lemma run_loop_returns l s : covered l -> is_Some (run_loop l s).
Proof.
  unfold covered, run_loop. destruct (isPersistentRetryEnabled (ml_config l)) eqn:Hp.
  - intros (least & H0 & Hd & Hf).
    edestruct @persistent_retry_returns as (w & x & r & ->); [exact Hp|exact H0|exact Hd|exact Hf|done].
  - intros Hf. pose proof (max_retries_nonneg (ml_config l)).
    apply retry_loop_ends with (measure := fun a _ => max_retries (ml_config l) - a); [|lia|lia].
    intros a t i [_ _ _ _ _ Hb] _. rewrite Hp in Hb. lia.
Qed.

Lemma run_loop_spent l s s' waits r : run_loop l s = Some (s', waits, r) -> spent s s'.
Proof.
  intros Hl. etransitivity; [apply (on_ambient_spent (fun a => (ml_before l a, ())))|].
  eapply retry_loop_keeps; [apply _|..|exact Hl]; [|apply model_attempt_spent|apply waitRetry_spent].
  intros f n w Hf. destruct (ml_guard l); [|done]. injection Hf as <-. apply on_ambient_spent.
Qed.

Lemma run_loops_spent loops s : Forall covered loops -> exists s', run_loops loops s = Some s' /\ spent s s'.
Proof.
  intros Hc. revert s; induction Hc as [|l loops Hl _ IH]; intros s; cbn; [by exists s|].
  destruct (run_loop_returns l s Hl) as [[[s1 waits] r] E]. rewrite E. apply run_loop_spent in E.
  destruct r as [r|]; [|by exists s1]. destruct (IH s1) as (s' & -> & Hs). exists s'. split; [done|]. by etrans.
Qed.

(** C35: all the attempts of one logical request together send at most
    [maxProviderCalls] requests to the provider, however many retry loops share
    the budget, whatever the providers, the owners, the guards before a dispatch
    and the retry configurations, persistent ones included when their delays have
    a positive lower bound; and all the loops return. *)
Theorem requests_within_budget (loops : list model_loop) s b :
  Forall covered loops -> budget s = Some b -> providerCalls b = 0 ->
  exists s' b', run_loops loops s = Some s' /\ budget s' = Some b' /\ dispatches s' - dispatches s = providerCalls b' /\
    0 <= providerCalls b' <= Z.max 0 (maxProviderCalls b).
Proof.
  intros Hc Hb H0. destruct (run_loops_spent loops s Hc) as (s' & Hl & Hs).
  unfold spent in Hs. rewrite Hb in Hs. destruct (budget s') as [b'|] eqn:Hb'; [|done].
  exists s', b'. split_and!; [done..| | |]; lia.
Qed.
End spending.

(** ** Concrete calls *)

Module Example.
Import RunProperties.Example.

Definition rounds (n : nat) : round := {|
  rd_writer := written; rd_id := id (nth n ["2"; "3"; "4"; "5"; "6"; "7"; "8"] "9")%char; rd_t1 := ms (Z.of_nat n);
  rd_t2 := ms (Z.of_nat n); rd_others := fun s => s; rd_ctx := None
|}.

Definition owner : ProviderUsageAdmitter collector := run_owner rounds 3.
Definition idle : collector := {| col_run := start; col_round := 0 |}.
Definition unlimited : state collector := Build_state idle None 0.
Definition two_requests : state collector := Build_state idle (Some (NewModelAttemptBudget 2 1000 0)) 0.
Definition no_ctx (_ : collector) : option goerr := None.
Definition zero_clock (_ : collector) : Z := 0.

Definition overloaded : goerr :=
  External {| ex_text := lit "POST: 529 overloaded"; ex_status := Some 529; ex_receipt := None |} [].

(** A model that prepares bounded streams and is always overloaded. *)
Definition busy (a : collector) : collector * result goerr unit := (a, Err overloaded).
Definition bound : Bound := {| b_Provider := deepseek; b_Model := model; b_InputTokens := 100; b_OutputTokens := 100 |}.
Definition overloaded_model : chat_model collector unit := {|
  PrepareBudgetStream := Some (fun _ a => (a, Ok (Some {| CostBound := bound; prepared_Stream := busy |})));
  Stream := busy
|}.

Definition options (retry : Z) : CallModelOptions := {|
  o_Model := model; o_Provider := deepseek; o_ModelRole := lit "main"; o_ModelProfile := [];
  o_QuerySource := lit "sdk"; o_EffortValue := lit " LOW "; o_UsageLogicalRoundID := lit "round";
  o_UsageLogicalRequestID := []; o_UsageModelAttemptID := []; o_UsageModelAttemptIndex := 0;
  o_UsageModelRetryIndex := retry
|}.

Definition config : RetryConfig := {|
  MaxRetries := 4; MaxConsecutiveOverloadErrors := 0; env_MAX_RETRIES := []; env_UNATTENDED_RETRY := []
|}.
Definition patient : RetryConfig := {|
  MaxRetries := 0; MaxConsecutiveOverloadErrors := 3; env_MAX_RETRIES := lit "7";
  env_UNATTENDED_RETRY := lit "TRUE"
|}.

(** An owner that denies every call. *)
Definition denying : ProviderUsageAdmitter unit := {|
  owner_NewLogicalRoundID w := (w, lit "round");
  owner_AdmitProviderUsage _ _ w := (w, Denied (Sentinel ErrRunBudgetExceeded));
  owner_RequestUsageAvailable := None; owner_ProviderCostReservationPolicy := None
|}.

(** An operation that is overloaded twice and then succeeds. *)
Definition third_time (attempt : Z) (w : nat) : nat * option (result goerr bytes) :=
  (S w, Some (if attempt <? 2 then Err overloaded else Ok (lit "done"))).
Definition hour (_ : Z) : Z := 60 * 60 * 1000000000.
Definition no_wait {W} (_ : Z) (w : W) : W * option goerr := (w, None).
Definition answer (a : collector) : collector * result goerr (option Message) :=
  (a, Ok (Some {| m_Assistant := true; m_Usage := Some (response 40 20 0) |})).

Lemma ids_present n : TrimSpace (rd_id (rounds n)) <> [].
Proof. do 8 (destruct n as [|n]; [by vm_compute|]). by vm_compute. Qed.

(** The call granted by an admission that leaves one call in the run. *)
Lemma first_call ctx d w w' x :
  owner_AdmitProviderUsage owner ctx d w = (w', Granted x) -> length (calls (col_run w')) = 1%nat ->
  exists c, x = Some c /\ promise c (call_settled 0).
Proof.
  intros (i & n & c & -> & Hi & _)%granted_call Hl. exists (run_call rounds i (rd_id (rounds n))).
  assert (i = 0%nat) as -> by lia. split; [done|]. apply run_call_promise, ids_present.
Qed.

Definition is_denied {W} (a : admission W) : bool := match a with Denied _ => true | _ => false end.
Definition is_granted {W} (a : admission W) : bool := match a with Granted _ => true | _ => false end.
Definition is_failed {A R} (o : outcome (A := A) (R := R)) : bool := match o with Failed _ => true | _ => false end.
End Example.

Lemma refused_combination_settles_witness :
  exists w' e,
    owner_AdmitProviderUsage (combinedProviderUsage Example.owner Example.denying) None
      (RunProperties.Example.request 100 100) (Example.idle, tt) = (w', Denied e) /\
    length (calls (col_run w'.1)) = 1%nat /\ call_settled 0 w'.1.
Proof.
  set (d := RunProperties.Example.request 100 100).
  assert (Example.is_denied (owner_AdmitProviderUsage (combinedProviderUsage Example.owner Example.denying) None
    d (Example.idle, tt)).2 && (length (calls (col_run (owner_AdmitProviderUsage
      (combinedProviderUsage Example.owner Example.denying) None d (Example.idle, tt)).1.1)) =? 1)%nat = true) as Hd
    by (vm_compute; reflexivity).
  destruct (owner_AdmitProviderUsage (combinedProviderUsage Example.owner Example.denying) None
      d (Example.idle, tt)) as [w' [|e|x]] eqn:E; [discriminate Hd| |discriminate Hd].
  exists w', e. split; [reflexivity|]. split; [exact (proj1 (Nat.eqb_eq _ _) Hd)|]. clear Hd.
  assert (Example.is_granted (owner_AdmitProviderUsage Example.owner None d Example.idle).2
    && (length (calls (col_run (owner_AdmitProviderUsage Example.owner None d Example.idle).1)) =? 1)%nat = true) as Hg
    by (vm_compute; reflexivity).
  destruct (owner_AdmitProviderUsage Example.owner None d Example.idle) as [w1 [|e1|x]] eqn:E1; [discriminate Hg..|].
  destruct (Example.first_call _ _ _ _ _ E1 (proj1 (Nat.eqb_eq _ _) Hg)) as (c & -> & Hp).
  exact (refused_combination_settles Example.owner Example.denying None d Example.idle tt w' e w1 c _ E1 Hp E).
Defined.

Lemma failed_call_settles_witness :
  exists s' e,
    CallModel Example.no_ctx Example.zero_clock (Some Example.owner) Example.overloaded_model (Example.options 0)
      Example.unlimited = (s', Failed e) /\ call_settled 0 (ambient s').
Proof.
  assert (Example.is_failed (CallModel Example.no_ctx Example.zero_clock (Some Example.owner)
    Example.overloaded_model (Example.options 0) Example.unlimited).2 = true) as Hf by (vm_compute; reflexivity).
  destruct (CallModel Example.no_ctx Example.zero_clock (Some Example.owner) Example.overloaded_model
    (Example.options 0) Example.unlimited) as [s' [|e|x c]] eqn:E; [discriminate Hf| |discriminate Hf].
  exists s', e. split; [reflexivity|]. clear Hf.
  set (d := call_descriptor (Example.options 0) (Some Example.bound)).
  assert (Example.is_granted (owner_AdmitProviderUsage Example.owner None d Example.idle).2
    && (length (calls (col_run (owner_AdmitProviderUsage Example.owner None d Example.idle).1)) =? 1)%nat = true) as Hg
    by (vm_compute; reflexivity).
  destruct (owner_AdmitProviderUsage Example.owner None d Example.idle) as [w1 [|e1|x]] eqn:E1; [discriminate Hg..|].
  destruct (Example.first_call _ _ _ _ _ E1 (proj1 (Nat.eqb_eq _ _) Hg)) as (c & -> & Hp).
  refine (failed_call_settles Example.no_ctx Example.zero_clock (Some Example.owner) Example.overloaded_model
    (Example.options 0) Example.unlimited s' (Failed e) c _ _ Hp E).
  change (match (owner_AdmitProviderUsage Example.owner None d Example.idle).2 with
          | Granted c => c | _ => None end = Some c). by rewrite E1.
Defined.

Lemma generation_settles_witness :
  exists a' r,
    GenerateWithUsage Example.no_ctx (Some Example.answer) (Some Example.owner)
      (RunProperties.Example.request 100 100) Example.idle = (a', r) /\ call_settled 0 a'.
Proof.
  assert (let '(a, d) := with_round Example.owner (RunProperties.Example.request 100 100) Example.idle in
    Example.is_granted (owner_AdmitProviderUsage Example.owner None d a).2
    && (length (calls (col_run (owner_AdmitProviderUsage Example.owner None d a).1)) =? 1)%nat = true) as Hg
    by (vm_compute; reflexivity).
  destruct (GenerateWithUsage Example.no_ctx (Some Example.answer) (Some Example.owner)
      (RunProperties.Example.request 100 100) Example.idle) as [a' r] eqn:E.
  exists a', r. split; [reflexivity|].
  destruct (with_round Example.owner (RunProperties.Example.request 100 100) Example.idle) as [a1 d1] eqn:Ew.
  destruct (owner_AdmitProviderUsage Example.owner None d1 a1) as [w1 [|e1|x]] eqn:E1; [discriminate Hg..|].
  destruct (Example.first_call _ _ _ _ _ E1 (proj1 (Nat.eqb_eq _ _) Hg)) as (c & -> & Hp).
  exact (proj1 (generation_settles Example.no_ctx Example.answer Example.owner _ Example.idle a1 d1 w1 c _ a' r
    Ew E1 Hp E)).
Defined.

Lemma retry_returns_witness :
  exists w' waits r,
    CallModelWithRetry (fun _ => None) None Example.third_time Example.no_wait Example.hour 5 Example.config 0%nat
      = Some (w', waits, r) /\ Z.of_nat (length waits) <= 4 /\ (w', r) = (3%nat, Some (Ok (lit "done"))).
Proof.
  destruct (retry_returns (fun _ => None) None Example.third_time Example.no_wait Example.hour 5 Example.config 0%nat)
    as (w' & waits & r & E & Hl); [by vm_compute|by vm_compute|].
  exists w', waits, r. split; [done|]. split; [exact Hl|]. revert E. vm_compute. by intros [= <- _ <-].
Defined.

Lemma persistent_retry_returns_witness :
  exists w' waits r,
    CallModelWithRetry (fun _ => None) None Example.third_time Example.no_wait Example.hour 8 Example.patient 0%nat
      = Some (w', waits, r) /\ (w', r) = (3%nat, Some (Ok (lit "done"))).
Proof.
  destruct (persistent_retry_returns (fun _ => None) None Example.third_time Example.no_wait Example.hour 8
    Example.patient 0%nat (Example.hour 0)) as (w' & waits & r & E); [by vm_compute..| |by vm_compute|].
  - intros a. by vm_compute.
  - exists w', waits, r. split; [done|]. revert E. vm_compute. by intros [= <- _ <-].
Defined.

Lemma retry_waits_witness :
  exists w' waits r,
    CallModelWithRetry (fun _ => None) None Example.third_time Example.no_wait Example.hour 5 Example.config 0%nat
      = Some (w', waits, r) /\ waits_from Example.config 0 0 0 waits /\ length waits = 2%nat.
Proof.
  destruct (CallModelWithRetry (fun _ => None) None Example.third_time Example.no_wait Example.hour 5
    Example.config 0%nat) as [[[w' waits] r]|] eqn:E; [|by vm_compute in E].
  exists w', waits, r. split; [done|]. split; [|revert E; vm_compute; by intros [= _ <- _]].
  exact (proj1 (retry_waits (fun _ => None) None Example.third_time Example.no_wait Example.hour 5 Example.config
    0%nat w' waits r E)).
Defined.

(** With a budget of two requests, a logical request of two loops asks an
    overloaded provider twice: the first loop uses the budget up, the second sends
    nothing. *)
Definition once : RetryConfig := {|
  MaxRetries := 1; MaxConsecutiveOverloadErrors := 0; env_MAX_RETRIES := []; env_UNATTENDED_RETRY := []
|}.
Definition loop_of (c : RetryConfig) : model_loop (A := collector) (R := unit) := {|
  ml_before := fun a => a; ml_guard := Some (fun _ a => (a, None)); ml_owner := None; ml_model := Example.overloaded_model;
  ml_opts := Example.options; ml_sleep := Example.no_wait; ml_delay := Example.hour; ml_config := c; ml_fuel := 8
|}.
Definition sent_by (loops : list (model_loop (A := collector) (R := unit))) : option Z :=
  dispatches <$> run_loops Example.no_ctx Example.zero_clock loops Example.two_requests.

Lemma requests_within_budget_witness :
  sent_by [loop_of once; loop_of Example.config; loop_of Example.config] = Some 2 /\
  exists s' b', run_loops Example.no_ctx Example.zero_clock [loop_of once; loop_of Example.config] Example.two_requests = Some s'
    /\ budget s' = Some b' /\ providerCalls b' <= 2.
Proof.
  split; [by vm_compute|].
  destruct (requests_within_budget Example.no_ctx Example.zero_clock [loop_of once; loop_of Example.config]
    Example.two_requests (NewModelAttemptBudget 2 1000 0)) as (s' & b' & E & Hb & _ & _ & Hm).
  - repeat constructor; by vm_compute.
  - done.
  - done.
  - by exists s', b'.
Defined.
