(* ===== verification/StreamEnd.v ===== *)
(** * How a model stream ends

    [src/engine/execution/finish_reason.go]: what becomes of an assistant turn
    at the end of its stream, and [fallback.go]: the synthetic results of the
    tool calls that a failed turn leaves without one. *)

From S2P Require Import Prelude GoStrings GoBase.

(** ** The end of a stream *)

Inductive streamTerminalDisposition :=
| streamTerminalCommit | streamTerminalRejectTruncated | streamTerminalCancel | streamTerminalModelError.

#[export] Instance streamTerminalDisposition_eq_dec : EqDecision streamTerminalDisposition.
Proof. solve_decision. Defined.

(** The error of a decision: the one given, or one of the three made here. *)
Inductive terminal_error :=
| GivenError (e : goerr)
| WithheldResponse (reason : bytes)
| NoCleanBoundary
| UnsupportedFinishReason (raw : bytes).

Record streamTerminalDecision := {
  Disposition : streamTerminalDisposition; FinishReason : bytes; DecisionErr : option terminal_error
}.

Definition committing : list bytes :=
  [[]; lit "stop"; lit "stop_sequence"; lit "end_turn"; lit "tool_calls"; lit "tool_use"].
Definition truncating : list bytes := [lit "length"; lit "max_tokens"; lit "max_output_tokens"].

Definition classifyStreamTerminal (rawFinishReason : bytes) (hasWithheld : bool) (withheldReason : bytes)
    (cleanEOF : bool) (streamErr contextErr : option goerr) : streamTerminalDecision :=
  match contextErr with
  | Some e => {| Disposition := streamTerminalCancel; FinishReason := []; DecisionErr := Some (GivenError e) |}
  | None =>
  match streamErr with
  | Some e => {| Disposition := streamTerminalModelError; FinishReason := []; DecisionErr := Some (GivenError e) |}
  | None =>
  if hasWithheld then
    let reason := ToLower (TrimSpace withheldReason) in
    let reason := if reason ==b [] then lit "api_error" else reason in
    if bool_decide (reason ∈ truncating)
    then {| Disposition := streamTerminalRejectTruncated; FinishReason := reason; DecisionErr := None |}
    else {| Disposition := streamTerminalModelError; FinishReason := reason;
            DecisionErr := Some (WithheldResponse reason) |}
  else if negb cleanEOF then
    {| Disposition := streamTerminalModelError; FinishReason := []; DecisionErr := Some NoCleanBoundary |}
  else
    let reason := ToLower (TrimSpace rawFinishReason) in
    if bool_decide (reason ∈ committing)
    then {| Disposition := streamTerminalCommit; FinishReason := reason; DecisionErr := None |}
    else if bool_decide (reason ∈ truncating)
    then {| Disposition := streamTerminalRejectTruncated; FinishReason := reason; DecisionErr := None |}
    else {| Disposition := streamTerminalModelError; FinishReason := reason;
            DecisionErr := Some (UnsupportedFinishReason rawFinishReason) |}
  end
  end.

(** an assistant turn is committed exactly when its stream ended cleanly, with
    neither an error nor a withheld response, without the context being
    cancelled, for a finish reason that completes a turn; and every other end of
    a stream either is a truncation or carries an error. *)
Theorem stream_commits raw withheld reason clean streamErr ctxErr :
  let d := classifyStreamTerminal raw withheld reason clean streamErr ctxErr in
  (Disposition d = streamTerminalCommit <->
   ctxErr = None /\ streamErr = None /\ withheld = false /\ clean = true /\
   ToLower (TrimSpace raw) ∈ committing) /\
  (DecisionErr d = None <->
   Disposition d = streamTerminalCommit \/ Disposition d = streamTerminalRejectTruncated) /\
  (Disposition d = streamTerminalRejectTruncated -> FinishReason d ∈ truncating) /\
  (Disposition d = streamTerminalCancel <-> ctxErr <> None).
Proof.
  cbv zeta. unfold classifyStreamTerminal.
  destruct ctxErr; [naive_solver|]. destruct streamErr; [naive_solver|].
  destruct withheld; [|destruct clean; [|naive_solver]]; cbv zeta; cbn [negb].
  - case_bool_decide; naive_solver.
  - repeat case_bool_decide; naive_solver.
Qed.

(** ** Orphaned tool calls *)

Record ToolCall := { tc_ID : bytes; tc_Name : bytes }.

(** The tool results that are made: all are errors with the same text. *)
Record ToolResult := { tr_ToolCallID : bytes; tr_ToolName : bytes; tr_Content : bytes }.

(** The identity under which a tool call is answered. *)
Definition tool_identity (tc : ToolCall) : bytes :=
  if TrimSpace (tc_ID tc) ==b [] then TrimSpace (tc_Name tc) else TrimSpace (tc_ID tc).

(** [YieldMissingToolResults], on the tool calls of each assistant message; the
    results in the order in which they are yielded. *)
Fixpoint missing_results (errMsg : bytes) (calls : list ToolCall) : list ToolResult :=
  match calls with
  | [] => []
  | tc :: rest =>
      if tool_identity tc ==b [] then missing_results errMsg rest
      else {| tr_ToolCallID := tool_identity tc; tr_ToolName := tc_Name tc; tr_Content := errMsg |}
           :: missing_results errMsg rest
  end.

Definition YieldMissingToolResults (assistantMessages : list (list ToolCall)) (errMsg : bytes)
    : list ToolResult :=
  flat_map (missing_results errMsg) assistantMessages.

(** every tool call that has an identifier or a name is answered exactly once,
    in order, and no result without an identifier is yielded. *)
Theorem missing_results_answer messages errMsg :
  tr_ToolCallID <$> YieldMissingToolResults messages errMsg =
    filter (fun id => id <> []) (tool_identity <$> concat messages) /\
  Forall (fun r => tr_ToolCallID r <> [] /\ tr_Content r = errMsg) (YieldMissingToolResults messages errMsg).
Proof.
  assert (forall calls, tr_ToolCallID <$> missing_results errMsg calls =
    filter (fun id => id <> []) (tool_identity <$> calls) /\
    Forall (fun r => tr_ToolCallID r <> [] /\ tr_Content r = errMsg) (missing_results errMsg calls)) as Hc.
  { induction calls as [|tc calls [IH1 IH2]]; [done|]. cbn [missing_results fmap list_fmap].
    rewrite filter_cons. case_bool_decide as Hid; [rewrite decide_False by naive_solver; done|].
    rewrite decide_True by done. cbn. rewrite IH1. split; [done|]. by constructor. }
  unfold YieldMissingToolResults. induction messages as [|m messages [IH1 IH2]]; [done|].
  destruct (Hc m) as [H1 H2]. cbn [flat_map concat]. split.
  - by rewrite fmap_app, H1, IH1, fmap_app, filter_app.
  - by apply Forall_app.
Qed.
