(* ===== verification/Cron.v ===== *)
(** * Cron expressions

    [src/engine/cron/cron.go]: the five-field expressions, what they match, the
    next run of an expression and its description.

    The loops over ranges count in [int] and wrap around, so the parser takes a
    bound on their number of iterations and gives [None] when it is not enough.
    Times are those of [GoBase], in a location. *)

From S2P Require Import Prelude GoStrings GoBase Paths.

Open Scope Z_scope.

(** ** Fields *)

Inductive cron_error :=
| InvalidStep (part : bytes)
| InvalidRangeStart (part : bytes)
| InvalidRangeEnd (part : bytes)
| InvalidValue (part : bytes)
| OutOfRange (v min max : Z)
| FieldCount (n : Z)
| InField (name : bytes) (e : cron_error).

(** [for i := i; i <= stop; i += step]. *)
Fixpoint count_up (fuel : nat) (i stop step : Z) : option (list Z) :=
  match fuel with
  | O => None
  | S fuel => if i <=? stop then cons i <$> count_up fuel (i64 (i + step)) stop step else Some []
  end.

(** A part of a field with a step: [*/5], [3/5] or [1-10/2]. *)
Definition parse_step (fuel : nat) (part : bytes) (min max : Z) : option (result cron_error (list Z)) :=
  let stepParts := SplitN part (lit "/") 2 in
  let base := default [] (stepParts !! 0%nat) in
  match Atoi (default [] (stepParts !! 1%nat)) with
  | None => Some (Err (InvalidStep part))
  | Some step =>
      if step <=? 0 then Some (Err (InvalidStep part)) else
      if base ==b lit "*" then Ok <$> count_up fuel min max step else
      let rangeParts := SplitN base (lit "-") 2 in
      match Atoi (default [] (rangeParts !! 0%nat)) with
      | None => Some (Err (InvalidRangeStart part))
      | Some start =>
          match rangeParts !! 1%nat with
          | None => Ok <$> count_up fuel start max step
          | Some e =>
              match Atoi e with
              | None => Some (Err (InvalidRangeEnd part))
              | Some stop => Ok <$> count_up fuel start stop step
              end
          end
      end
  end.

(** A part that is a range: [1-5]. *)
Definition parse_range (fuel : nat) (part : bytes) : option (result cron_error (list Z)) :=
  let rangeParts := SplitN part (lit "-") 2 in
  match Atoi (default [] (rangeParts !! 0%nat)) with
  | None => Some (Err (InvalidRangeStart part))
  | Some start =>
      match Atoi (default [] (rangeParts !! 1%nat)) with
      | None => Some (Err (InvalidRangeEnd part))
      | Some stop => Ok <$> count_up fuel start stop 1
      end
  end.

Definition parse_part (fuel : nat) (part : bytes) (min max : Z) : option (result cron_error (list Z)) :=
  if Contains part (lit "/") then parse_step fuel part min max else
  if Contains part (lit "-") then parse_range fuel part else
  Some (match Atoi part with
        | None => Err (InvalidValue part)
        | Some v => if (v <? min) || (max <? v) then Err (OutOfRange v min max) else Ok [v]
        end).

Fixpoint parse_parts (fuel : nat) (parts : list bytes) (min max : Z) (allValues : list Z)
    : option (result cron_error (list Z)) :=
  match parts with
  | [] => Some (Ok allValues)
  | part :: rest =>
      match parse_part fuel part min max with
      | None => None
      | Some (Err e) => Some (Err e)
      | Some (Ok values) => parse_parts fuel rest min max (allValues ++ values)
      end
  end.

Definition parseCronField (fuel : nat) (field : bytes) (min max : Z) : option (result cron_error (list Z)) :=
  if field ==b lit "*" then Some (Ok (seqZ min (max - min + 1)))
  else parse_parts fuel (Split field (lit ",")) min max [].

(** ** Expressions *)

Record CronExpression := {
  x_Minute : list Z; x_Hour : list Z; x_DayMonth : list Z; x_Month : list Z; x_DayWeek : list Z
}.

(** One field of an expression; its error is wrapped with its name. *)
Definition parse_named (fuel : nat) (name field : bytes) (min max : Z)
    (k : list Z -> option (result cron_error CronExpression)) : option (result cron_error CronExpression) :=
  match parseCronField fuel field min max with
  | None => None
  | Some (Err e) => Some (Err (InField name e))
  | Some (Ok values) => k values
  end.

Definition ParseCronExpression (fuel : nat) (expr : bytes) : option (result cron_error CronExpression) :=
  match Fields (TrimSpace expr) with
  | [f0; f1; f2; f3; f4] =>
      parse_named fuel (lit "minute") f0 0 59 (fun minute =>
      parse_named fuel (lit "hour") f1 0 23 (fun hour =>
      parse_named fuel (lit "day of month") f2 1 31 (fun dayMonth =>
      parse_named fuel (lit "month") f3 1 12 (fun month =>
      parse_named fuel (lit "day of week") f4 0 6 (fun dayWeek =>
      Some (Ok {| x_Minute := minute; x_Hour := hour; x_DayMonth := dayMonth; x_Month := month;
                  x_DayWeek := dayWeek |}))))))
  | fields => Some (Err (FieldCount (Z.of_nat (length fields))))
  end.

Fixpoint fieldContains (values : list Z) (val : Z) : bool :=
  match values with
  | [] => false
  | v :: rest => (v =? val) || fieldContains rest val
  end.

Definition cronMatches (loc : location) (expr : CronExpression) (t : Z) : bool :=
  if negb (fieldContains (x_Minute expr) (t_Minute loc t)) then false else
  if negb (fieldContains (x_Hour expr) (t_Hour loc t)) then false else
  if negb (fieldContains (x_Month expr) (t_Month loc t)) then false else
  let dayOfMonthMatch := fieldContains (x_DayMonth expr) (t_Day loc t) in
  let dayOfWeekMatch := fieldContains (x_DayWeek expr) (t_Weekday loc t) in
  if (length (x_DayMonth expr) =? 31)%nat then dayOfWeekMatch else
  if (length (x_DayWeek expr) =? 7)%nat then dayOfMonthMatch else
  dayOfMonthMatch || dayOfWeekMatch.

(** The loop over [n] minutes from [t]. *)
Fixpoint first_match (loc : location) (expr : CronExpression) (n : nat) (t : Z) : option Z :=
  match n with
  | O => None
  | S n => if cronMatches loc expr t then Some t else first_match loc expr n (t + Minute)
  end.

Definition search_minutes : nat := Z.to_nat 525960.

Definition ComputeNextCronRun (loc : location) (expr : CronExpression) (after : Z) : Z :=
  default (after + 365 * 24 * Hour)
    (first_match loc expr search_minutes (Truncate (after + Minute) Minute)).

(** [%02d] of a number that is not negative. *)
Definition pad2 (n : Z) : bytes :=
  let s := Z_String n in if (length s <? 2)%nat then lit "0" ++ s else s.

Definition CronToHuman (fuel : nat) (expr : bytes) : option bytes :=
  match ParseCronExpression fuel expr with
  | None => None
  | Some (Err _) => Some expr
  | Some (Ok p) =>
      let allMinutes := (length (x_Minute p) =? 60)%nat in
      let allHours := (length (x_Hour p) =? 24)%nat in
      let allDays := (length (x_DayMonth p) =? 31)%nat in
      let allMonths := (length (x_Month p) =? 12)%nat in
      let allWeekdays := (length (x_DayWeek p) =? 7)%nat in
      Some
        (if allMinutes && allHours && allDays && allMonths && allWeekdays then lit "every minute" else
         if negb allMinutes && allHours && allDays && allMonths && allWeekdays
            && bool_decide (x_Minute p = [0]) then lit "every hour" else
         match x_Minute p, x_Hour p with
         | [m], [h] =>
             if allDays && allMonths && allWeekdays then lit "daily at " ++ pad2 h ++ lit ":" ++ pad2 m
             else lit "on schedule: " ++ expr
         | _, _ => lit "on schedule: " ++ expr
         end)
  end.

(** * What cron expressions mean

    The fields parse to the values they denote, the next run is the first
    matching minute, and what happens outside the range of the source's
    arithmetic and of its search. *)

(** ** Ranges *)

(** The numbers from [a] to [b] in steps of [n]. *)
Definition arith (a b n : Z) : list Z := (fun k => a + k * n) <$> seqZ 0 ((b - a) / n + 1).

Lemma arith_elem a b n i : 0 < n -> i ∈ arith a b n <-> a <= i <= b /\ (n | i - a).
Proof.
  intros Hn. unfold arith. rewrite list_elem_of_fmap. split.
  - intros (k & -> & Hk%elem_of_seqZ). split; [|exists k; lia].
    assert (k * n <= (b - a) / n * n) by nia. pose proof (Z.mul_div_le (b - a) n Hn). nia.
  - intros (Hi & k & Hk). exists k. split; [lia|]. apply elem_of_seqZ.
    assert (k <= (b - a) / n) by (apply Z.div_le_lower_bound; nia). nia.
Qed.

Lemma arith_cons a b n : 0 < n -> a <= b -> arith a b n = a :: arith (a + n) b n.
Proof.
  intros Hn Hab. unfold arith.
  replace (b - (a + n)) with (b - a + (-1) * n) by lia. rewrite Z.div_add by lia.
  pose proof (Z.div_pos (b - a) n). rewrite seqZ_cons by lia. rewrite fmap_cons. f_equal; [lia|].
  replace (Z.pred ((b - a) / n + 1)) with ((b - a) / n + -1 + 1) by lia.
  change (Z.succ 0) with (1 + 0). rewrite <- fmap_add_seqZ, <- list_fmap_compose.
  apply list_fmap_ext. intros j x _. cbn. lia.
Qed.

Lemma arith_nil a b n : 0 < n -> b < a -> arith a b n = [].
Proof.
  intros Hn Hab. unfold arith. assert ((b - a) / n < 0) by (apply Z.div_lt_upper_bound; lia).
  by rewrite seqZ_nil by lia.
Qed.

(** The loop counts through the range when its last addition does not overflow. *)
Lemma count_up_arith fuel a b n :
  0 < n -> - 2 ^ 63 <= a -> b + n <= MaxInt64 -> (length (arith a b n) < fuel)%nat ->
  count_up fuel a b n = Some (arith a b n).
Proof.
  intros Hn. revert a. induction fuel as [|fuel IH]; intros a Ha Hb Hf; [lia|]. cbn [count_up].
  destruct (Z.leb_spec a b) as [Hab|Hab]; [|by rewrite arith_nil].
  rewrite arith_cons in Hf |- * by done. cbn [length] in Hf.
  rewrite i64_id by (unfold is_i64; lia). rewrite IH by lia. done.
Qed.

(** A range up to the largest [int] is counted for ever. *)
Lemma count_up_endless fuel i n : count_up fuel (i64 i) MaxInt64 n = None.
Proof.
  revert i. induction fuel as [|fuel IH]; intros i; [done|]. cbn [count_up].
  destruct (i64_range i) as [_ Hi]. destruct (Z.leb_spec (i64 i) MaxInt64); [|lia]. by rewrite IH.
Qed.

(** ** Syntax *)

(** The parts of a field: a value, [a-b], [*/n], [a/n] and [a-b/n]. *)
Inductive cron_part :=
| PValue (v : Z)
| PRange (a b : Z)
| PEvery (n : Z)
| PFrom (a n : Z)
| PSteps (a b n : Z).

Definition print_part (p : cron_part) : bytes :=
  match p with
  | PValue v => dec v
  | PRange a b => dec a ++ lit "-" ++ dec b
  | PEvery n => lit "*" ++ lit "/" ++ dec n
  | PFrom a n => dec a ++ lit "/" ++ dec n
  | PSteps a b n => (dec a ++ lit "-" ++ dec b) ++ lit "/" ++ dec n
  end.

Definition denote (min max : Z) (p : cron_part) : list Z :=
  match p with
  | PValue v => [v]
  | PRange a b => arith a b 1
  | PEvery n => arith min max n
  | PFrom a n => arith a max n
  | PSteps a b n => arith a b n
  end.

(** Numbers within the range of the loops; single values within the field. *)
Definition part_ok (min max : Z) (p : cron_part) : Prop :=
  match p with
  | PValue v => min <= v <= max
  | PRange a b => 0 <= a <= MaxInt64 /\ 0 <= b < MaxInt64
  | PEvery n => 0 < n <= MaxInt64 - max
  | PFrom a n => 0 <= a <= MaxInt64 /\ 0 < n <= MaxInt64 - max
  | PSteps a b n => 0 <= a <= MaxInt64 /\ 0 <= b /\ 0 < n <= MaxInt64 - b
  end.

(** ** Splitting at one byte *)

Lemma splitn_byte_app d cur w s l :
  d ∉ w -> split_from [d] (Some l) 0 cur (w ++ s) = split_from [d] (Some l) 0 (reverse w ++ cur) s.
Proof.
  revert cur. induction w as [|a w IH]; intros cur; [done|]. intros [Ha Hw]%not_elem_of_cons.
  cbn [app split_from]. rewrite HasPrefix_cons_ne by done. rewrite IH by done.
  f_equal. by rewrite reverse_cons, <- app_assoc.
Qed.

Lemma splitn_none d cur s : split_from [d] (Some 0%nat) 0 cur s = [reverse cur ++ s].
Proof.
  revert cur. induction s as [|a s IH]; intros cur; [by cbn; rewrite app_nil_r|]. cbn [split_from].
  destruct (HasPrefix (a :: s) [d]); [done|]. rewrite IH, reverse_cons, <- app_assoc. done.
Qed.

Lemma SplitN_cut d a b : d ∉ a -> SplitN (a ++ [d] ++ b) [d] 2 = [a; b].
Proof.
  intros Ha. unfold SplitN. cbn [Nat.sub]. rewrite splitn_byte_app by done. cbn [app split_from length Nat.sub].
  rewrite HasPrefix_cons, HasPrefix_nil.
  rewrite splitn_none, app_nil_r, reverse_involutive. done.
Qed.

Lemma SplitN_whole d a : d ∉ a -> SplitN a [d] 2 = [a].
Proof.
  intros Ha. unfold SplitN. rewrite <- (app_nil_r a) at 1. rewrite splitn_byte_app by done.
  cbn. by rewrite app_nil_r, reverse_involutive.
Qed.

Lemma Contains_byte d a : Contains a [d] = bool_decide (d ∈ a).
Proof.
  apply eq_true_iff_eq. rewrite Contains_true, bool_decide_eq_true. split.
  - intros (pre & post & ->). set_solver.
  - intros (pre & post & ->)%list_elem_of_split. by exists pre, post.
Qed.

(** ** Numbers in parts *)

Lemma dec_free n d : 0 <= n -> is_digit d = false -> d ∉ dec n.
Proof.
  intros Hn Hd Hin. destruct (dec_spec n Hn) as (_ & Hall & _).
  rewrite forallb_elem_of in Hall. specialize (Hall _ Hin). congruence.
Qed.

Lemma Atoi_dec n : 0 <= n <= MaxInt64 -> Atoi (dec n) = Some n.
Proof.
  intros Hn. destruct (dec_spec n ltac:(lia)) as (Hv & Hall & _).
  assert (digits (dec n) = Some n) as Hd.
  { unfold digits. rewrite Hall, bool_decide_eq_false_2 by apply dec_nonempty. cbn [negb andb]. by rewrite Hv. }
  pose proof (dec_nonempty n) as Hne. unfold Atoi. destruct (dec n) as [|c rest] eqn:E; [done|].
  assert (is_digit c = true) as Hc by (cbn in Hall; by apply andb_true_iff in Hall as [? _]).
  rewrite (bool_decide_eq_false_2 (c = "-"%char)) by (intros ->; done).
  rewrite (bool_decide_eq_false_2 (c = "+"%char)) by (intros ->; done). rewrite Hd. cbn.
  destruct (Z.leb_spec (- 2 ^ 63) n), (Z.leb_spec n MaxInt64); unfold MaxInt64 in *; lia || done.
Qed.

Lemma dec_byte_free n b : 0 <= n -> b = "-"%char \/ b = "/"%char \/ b = ","%char \/ b = "*"%char -> b ∉ dec n.
Proof. intros Hn Hb. apply dec_free; [done|]. by destruct Hb as [-> | [-> | [-> | ->]]]. Qed.

(** ** Parsing a part *)

(** The number of values that a part lists. *)
Definition part_size (min max : Z) (p : cron_part) : nat := length (denote min max p).

Ltac cbn_parts := cbn -[Atoi count_up arith lit app dec SplitN].
Ltac free := first [apply dec_byte_free; [lia|tauto] | set_solver].

Lemma print_part_slash min max p :
  part_ok min max p -> 0 <= min ->
  Contains (print_part p) (lit "/") = match p with PValue _ | PRange _ _ => false | _ => true end.
Proof.
  intros Hp Hm. change (lit "/") with ["/"%char]. rewrite Contains_byte.
  assert (forall n, 0 <= n -> "/"%char ∉ dec n) as Hf by (intros; free).
  destruct p as [v|a b|n|a n|a b n]; cbn [print_part part_ok] in *; case_bool_decide as Hin; try done.
  - by apply Hf in Hin; [|lia].
  - change (lit "-") with ["-"%char] in Hin. apply elem_of_app in Hin as [Hin|Hin]; [by apply Hf in Hin; [|lia]|].
    apply elem_of_cons in Hin as [Hin|Hin]; [done|by apply Hf in Hin; [|lia]].
  - set_solver.
  - set_solver.
  - set_solver.
Qed.

Lemma parse_part_denotes fuel min max p :
  0 <= min <= max -> max < MaxInt64 -> part_ok min max p -> (part_size min max p < fuel)%nat ->
  parse_part fuel (print_part p) min max = Some (Ok (denote min max p)).
Proof.
  intros Hmin Hmax Hp Hf. unfold parse_part. rewrite (print_part_slash min max) by (done || lia).
  assert (forall n, 0 <= n -> ("/"%char ∉ dec n) /\ ("-"%char ∉ dec n)) as Hfree by (intros; split; free).
  unfold part_size in Hf. destruct p as [v|a b|n|a n|a b n]; cbn [print_part part_ok denote] in *.
  - change (lit "-") with ["-"%char]. rewrite Contains_byte, bool_decide_eq_false_2 by (apply Hfree; lia).
    rewrite Atoi_dec by lia. destruct (Z.ltb_spec v min), (Z.ltb_spec max v); lia || done.
  - change (lit "-") with ["-"%char] in *. rewrite Contains_byte, bool_decide_eq_true_2 by set_solver.
    unfold parse_range. rewrite SplitN_cut by (apply Hfree; lia). cbn_parts. rewrite !Atoi_dec by lia. by rewrite count_up_arith by (unfold MaxInt64 in *; lia).
  - unfold parse_step. change (lit "/") with ["/"%char]. rewrite SplitN_cut by set_solver.
    cbn_parts. rewrite Atoi_dec by lia. destruct (Z.leb_spec n 0); [lia|].
    lits. by rewrite count_up_arith by (unfold MaxInt64 in *; lia).
  - unfold parse_step. change (lit "/") with ["/"%char]. rewrite SplitN_cut by (apply Hfree; lia).
    cbn_parts. rewrite Atoi_dec by lia. destruct (Z.leb_spec n 0); [lia|].
    rewrite bool_decide_eq_false_2.
    2: { intros Hs. assert ("*"%char ∉ dec a) by free. rewrite Hs in *. set_solver. }
    change (lit "-") with ["-"%char]. rewrite SplitN_whole by (apply Hfree; lia).
    cbn_parts. rewrite Atoi_dec by lia. by rewrite count_up_arith by (unfold MaxInt64 in *; lia).
  - unfold parse_step. change (lit "/") with ["/"%char]. change (lit "-") with ["-"%char].
    rewrite SplitN_cut.
    2: { rewrite !not_elem_of_app. split; [apply Hfree; lia|]. split; [set_solver|apply Hfree; lia]. }
    cbn_parts. rewrite Atoi_dec by lia. destruct (Z.leb_spec n 0); [lia|].
    rewrite bool_decide_eq_false_2.
    2: { intros Hs. assert ("-"%char ∈ (dec a ++ ["-"%char] ++ dec b)) as Hin by set_solver. rewrite Hs in Hin.
         vm_compute in Hin. set_solver. }
    rewrite SplitN_cut by (apply Hfree; lia). cbn_parts.
    rewrite !Atoi_dec by (unfold MaxInt64 in *; lia). by rewrite count_up_arith by (unfold MaxInt64 in *; lia).
Qed.

Lemma parse_parts_denote fuel min max ps acc :
  0 <= min <= max -> max < MaxInt64 ->
  Forall (fun p => part_ok min max p /\ (part_size min max p < fuel)%nat) ps ->
  parse_parts fuel (map print_part ps) min max acc = Some (Ok (acc ++ flat_map (denote min max) ps)).
Proof.
  intros Hmin Hmax Hps. revert acc. induction Hps as [|p ps [Hp Hf] _ IH]; intros acc.
  - cbn. by rewrite app_nil_r.
  - cbn [map parse_parts flat_map]. rewrite parse_part_denotes by done. by rewrite IH, <- app_assoc.
Qed.

Lemma print_part_comma min max p : part_ok min max p -> 0 <= min -> ","%char ∉ print_part p.
Proof.
  intros Hp Hm. assert (forall n, 0 <= n -> ","%char ∉ dec n) as Hf by (intros; free).
  destruct p as [v|a b|n|a n|a b n]; cbn [print_part part_ok] in *; rewrite ?not_elem_of_app;
    split_and?; try (apply Hf; lia); by apply (bool_decide_unpack _).
Qed.

Lemma print_part_star min max p : part_ok min max p -> 0 <= min -> print_part p <> lit "*".
Proof.
  intros Hp Hm Heq. assert (forall n, 0 <= n -> "*"%char ∉ dec n) as Hf by (intros; free).
  assert (forall (x y : bytes) c, x ++ [c] ++ y = lit "*" -> c = "*"%char) as Hcut.
  { intros [|a x] y c; cbn; [by intros [= -> _]|]. intros [= _ H]. by destruct x. }
  destruct p as [v|a b|n|a n|a b n]; cbn [print_part part_ok] in *.
  - apply (Hf v); [lia|]. rewrite Heq. by apply (list_elem_of_lookup_2 _ 0).
  - by apply (Hcut _ _ "-"%char) in Heq.
  - by apply (Hcut _ _ "/"%char) in Heq.
  - by apply (Hcut _ _ "/"%char) in Heq.
  - by apply (Hcut _ _ "/"%char) in Heq.
Qed.

Lemma field_not_star min max ps :
  0 <= min -> ps <> [] -> Forall (part_ok min max) ps -> Join (map print_part ps) [","%char] <> lit "*".
Proof.
  intros Hm Hne Hps Heq. apply (f_equal (fun s => Split s [","%char])) in Heq.
  rewrite Split_Join in Heq.
  - destruct ps as [|p [|]]; try done. apply Forall_cons in Hps as [Hp _].
    injection Heq as Heq. by eapply print_part_star.
  - by destruct ps.
  - apply Forall_map. eapply Forall_impl; [exact Hps|]. intros p Hp. by eapply print_part_comma.
Qed.

(** a cron field made of values, ranges and steps parses to the values that it
    denotes, in order, as long as the numbers stay clear of the largest [int];
    the number of values of its longest part bounds the work. *)
Theorem cron_field_roundtrip fuel min max ps :
  0 <= min <= max -> max < MaxInt64 -> ps <> [] ->
  Forall (fun p => part_ok min max p /\ (part_size min max p < fuel)%nat) ps ->
  parseCronField fuel (Join (map print_part ps) (lit ",")) min max =
    Some (Ok (flat_map (denote min max) ps)).
Proof.
  intros Hmin Hmax Hne Hps. change (lit ",") with [","%char]. unfold parseCronField.
  assert (Forall (part_ok min max) ps) as Hok by (eapply Forall_impl; [exact Hps|]; by intros p [? _]).
  rewrite bool_decide_eq_false_2 by (apply (field_not_star min max); [lia|done|done]).
  change (lit ",") with [","%char]. rewrite Split_Join.
  - by rewrite parse_parts_denote.
  - by destruct ps.
  - apply Forall_map. eapply Forall_impl; [exact Hok|]. intros p Hp. eapply print_part_comma; [done|lia].
Qed.

(** [5,10-12,*/20,50/4] in the minute field. *)
Lemma cron_field_roundtrip_witness :
  parseCronField 10 (lit "5,10-12,*/20,50/4,30-40/5") 0 59 =
    Some (Ok [5; 10; 11; 12; 0; 20; 40; 50; 54; 58; 30; 35; 40]).
Proof.
  refine (cron_field_roundtrip 10 0 59 [PValue 5; PRange 10 12; PEvery 20; PFrom 50 4; PSteps 30 40 5] _ _ _ _);
    [lia|done|done|].
  repeat (apply Forall_cons; split; [split; [cbn [part_ok]; unfold MaxInt64; lia|vm_compute; lia]|]). done.
Defined.

(** a range that ends at the largest [int] is never left: the parser does not
    return on such a field, whatever the number of iterations it is given. *)
Theorem cron_range_endless fuel : parseCronField fuel (lit "0-9223372036854775807") 0 59 = None.
Proof.
  pose proof (count_up_endless fuel 0 1) as He. change (i64 0) with 0 in He.
  change (parseCronField fuel (lit "0-9223372036854775807") 0 59)
    with (match Ok <$> count_up fuel 0 MaxInt64 1 with
          | None => None
          | Some (Err e) => Some (Err e)
          | Some (Ok values) => Some (Ok ([] ++ values))
          end : option (result cron_error (list Z))).
  by rewrite He.
Qed.

(** The bounds of a field are not applied to ranges and steps. *)
Example cron_range_unchecked :
  parseCronField 100 (lit "70-72") 0 59 = Some (Ok [70; 71; 72]) /\
  parseCronField 100 (lit "70") 0 59 = Some (Err (OutOfRange 70 0 59)) /\
  parseCronField 100 (lit "5-1") 0 59 = Some (Ok []).
Proof. split_and!; by vm_compute. Qed.

(** ** The next run *)

Lemma first_match_Some loc expr n t r :
  first_match loc expr n t = Some r ->
  exists k, 0 <= k < Z.of_nat n /\ r = t + k * Minute /\ cronMatches loc expr r = true /\
    forall j, 0 <= j < k -> cronMatches loc expr (t + j * Minute) = false.
Proof.
  revert t. induction n as [|n IH]; intros t; [done|]. cbn [first_match].
  destruct (cronMatches loc expr t) eqn:E.
  - intros [= <-]. exists 0. split; [lia|]. split; [lia|]. split; [done|lia].
  - intros (k & Hk & -> & Hm & Hj)%IH. exists (k + 1). split; [lia|]. split; [lia|]. split; [done|].
    intros j Hlt. destruct (Z.eq_dec j 0) as [->|]; [by rewrite Z.add_0_r|].
    replace (t + j * Minute) with (t + Minute + (j - 1) * Minute) by lia. apply Hj. lia.
Qed.

Lemma first_match_None loc expr n t :
  first_match loc expr n t = None -> forall j, 0 <= j < Z.of_nat n -> cronMatches loc expr (t + j * Minute) = false.
Proof.
  revert t. induction n as [|n IH]; intros t; [lia|]. cbn [first_match].
  destruct (cronMatches loc expr t) eqn:E; [done|]. intros Hn j Hj.
  destruct (Z.eq_dec j 0) as [->|]; [by rewrite Z.add_0_r|].
  replace (t + j * Minute) with (t + Minute + (j - 1) * Minute) by lia. apply IH; [done|lia].
Qed.

(** The whole minutes after an instant are those from its truncation on. *)
Lemma minutes_after after t :
  (Minute | t) -> after < t -> exists j, 0 <= j /\ t = Truncate (after + Minute) Minute + j * Minute.
Proof.
  intros [q ->] Hlt. unfold Truncate. exists (q - (after + Minute) / Minute).
  assert (0 < Minute) as HM by done. pose proof (Z.div_mod (after + Minute) Minute ltac:(lia)).
  pose proof (Z.mod_pos_bound (after + Minute) Minute HM). nia.
Qed.

Lemma truncate_after after :
  after < Truncate (after + Minute) Minute /\ (Minute | Truncate (after + Minute) Minute).
Proof.
  unfold Truncate. assert (0 < Minute) as HM by done. pose proof (Z.div_mod (after + Minute) Minute ltac:(lia)).
  pose proof (Z.mod_pos_bound (after + Minute) Minute HM). split; [lia|].
  exists ((after + Minute) / Minute). lia.
Qed.

(** C40: the next run of an expression is the first whole minute after the given
    instant that matches it, when there is one within the search (525960
    minutes, a year); otherwise it is 365 days later, whether it matches or not. *)
Theorem next_run_first loc expr after :
  let t := ComputeNextCronRun loc expr after in
  let horizon := Truncate (after + Minute) Minute + 525960 * Minute in
  after < t /\
  ((cronMatches loc expr t = true /\ (Minute | t) /\ t < horizon /\
    forall t', (Minute | t') -> after < t' < t -> cronMatches loc expr t' = false) \/
   (t = after + 365 * 24 * Hour /\
    forall t', (Minute | t') -> after < t' < horizon -> cronMatches loc expr t' = false)).
Proof.
  cbv zeta. unfold ComputeNextCronRun. destruct (truncate_after after) as [Hlt Hdiv].
  assert (Z.of_nat search_minutes = 525960) as Hn by (unfold search_minutes; lia).
  assert (0 < Minute) as HM by done.
  destruct (first_match _ _ _ _) as [r|] eqn:E; cbn [default id].
  - apply first_match_Some in E as (k & Hk & -> & Hm & Hj). rewrite Hn in Hk.
    assert (0 <= k * Minute < 525960 * Minute) as Hkm.
    { split; [apply Z.mul_nonneg_nonneg; lia|]. apply Z.mul_lt_mono_pos_r; [done|lia]. }
    split; [lia|]. left.
    split; [done|]. split; [apply Z.divide_add_r; [done|by exists k]|]. split; [lia|].
    intros t' Ht' [Ha Hb]. destruct (minutes_after after t' Ht' Ha) as (j & Hj0 & ->).
    apply Hj. split; [done|]. apply (Z.mul_lt_mono_pos_r Minute); [done|lia].
  - split; [unfold Hour, Minute, Second, Millisecond; lia|]. right. split; [done|].
    intros t' Ht' [Ha Hb]. destruct (minutes_after after t' Ht' Ha) as (j & Hj0 & ->).
    eapply first_match_None; [exact E|]. rewrite Hn. split; [done|].
    apply (Z.mul_lt_mono_pos_r Minute); [done|lia].
Qed.
