(* ===== verification/CronTasks.v ===== *)
(** * Scheduled tasks and their scheduler

    [src/engine/cron/cron.go]: the tasks of a project, kept in one file, and the
    scheduler that checks them every second.

    The operations run on a [world]: the bytes of the file, the faults of the
    coming file operations (none when the list is used up), the number of
    readings of the clock, and the tasks handed to [onFire].  They give nothing
    when a cron expression is never parsed to its end, see [Cron].  The JSON
    codec and the clock are parameters. *)

From S2P Require Import Prelude GoStrings GoBase Cron.

Open Scope Z_scope.

Record Task := {
  t_ID : bytes; t_Cron : bytes; t_Prompt : bytes; t_CreatedAt : Z; t_LastFiredAt : option Z;
  t_Recurring : bool; t_Permanent : bool; t_Durable : bool; t_AgentID : bytes
}.
#[export] Instance eta_Task : Eta Task := fun x =>
  Build_Task (t_ID x) (t_Cron x) (t_Prompt x) (t_CreatedAt x) (t_LastFiredAt x) (t_Recurring x)
    (t_Permanent x) (t_Durable x) (t_AgentID x).
#[export] Instance Task_eq_dec : EqDecision Task.
Proof. solve_decision. Defined.

Record JitterConfig := { MinJitterMs : Z; MaxJitterMs : Z; RecurringMaxAgeMs : Z }.

Definition DefaultJitterConfig : JitterConfig :=
  {| MinJitterMs := 0; MaxJitterMs := 60000; RecurringMaxAgeMs := 7 * 24 * 60 * 60 * 1000 |}.

Definition no_jitter : JitterConfig := {| MinJitterMs := 0; MaxJitterMs := 0; RecurringMaxAgeMs := 0 |}.

Definition maxCronFileBytes : Z := 4 * 2 ^ 20.

(** ** Times of tasks *)

Definition anchor (t : Task) : Z := default (t_CreatedAt t) (t_LastFiredAt t).

Definition IsRecurringTaskAged (t : Task) (nowMs maxAgeMs : Z) : bool :=
  if maxAgeMs =? 0 then false
  else t_Recurring t && negb (t_Permanent t) && (maxAgeMs <=? i64 (nowMs - t_CreatedAt t)).

(** ** The world *)

Record world := {
  w_file : option bytes; w_faults : list bool; w_readings : nat; w_fired : list Task
}.
#[export] Instance eta_world : Eta world := fun x =>
  Build_world (w_file x) (w_faults x) (w_readings x) (w_fired x).

(** Operations that may never return. *)
Definition M (A : Type) : Type := world -> option (world * A).
#[export] Instance M_ret : MRet M := fun A a w => Some (w, a).
#[export] Instance M_bind : MBind M := fun A B f m w =>
  match m w with Some (w, a) => f a w | None => None end.

(** ** Operations *)

Section tasks.
Context (fuel : nat) (loc : location).

(** [rnd n] is what [rand.Int63n] draws below [n]. *)
Definition NextFireAt (rnd : Z -> Z) (t : Task) (config : JitterConfig) : option Z :=
  match ParseCronExpression fuel (t_Cron t) with
  | None => None
  | Some (Err _) => Some 0
  | Some (Ok expr) =>
      let nextMs := i64 (toUnixMilli (ComputeNextCronRun loc expr (UnixMilli (anchor t)))) in
      let jitter :=
        if MinJitterMs config <? MaxJitterMs config
        then MinJitterMs config + rnd (MaxJitterMs config - MinJitterMs config) else MinJitterMs config in
      Some (i64 (nextMs + jitter))
  end.

Fixpoint FindMissedTasks (tasks : list Task) (nowMs : Z) : option (list Task) :=
  match tasks with
  | [] => Some []
  | t :: rest =>
      match ParseCronExpression fuel (t_Cron t) with
      | None => None
      | Some (Err _) => FindMissedTasks rest nowMs
      | Some (Ok expr) =>
          missed ← FindMissedTasks rest nowMs;
          Some (if i64 (toUnixMilli (ComputeNextCronRun loc expr (UnixMilli (anchor t)))) <=? nowMs
                then t :: missed else missed)
      end
  end.

(** The tasks whose expression parses. *)
Fixpoint valid_tasks (tasks : list Task) : option (list Task) :=
  match tasks with
  | [] => Some []
  | t :: rest =>
      match ParseCronExpression fuel (t_Cron t) with
      | None => None
      | Some r =>
          valid ← valid_tasks rest;
          Some (if is_Ok r then t :: valid else valid)
      end
  end.

Context (marshal : list Task -> bytes) (unmarshal : bytes -> option (list Task)) (clock : nat -> Z).

Definition time_Now : M Z := fun w => Some (w <| w_readings ::= S |>, clock (w_readings w)).

(** The outcome of a file operation. *)
Definition fault : M bool := fun w =>
  Some (w <| w_faults ::= tail |>, default false (head (w_faults w))).

(** [readCanonicalRegular]: a file that is too long is refused. *)
Definition readCanonicalRegular : M (result unit (option bytes)) :=
  failed ← fault;
  (fun w => Some (w,
    if failed : bool then Err tt else
    match w_file w with
    | None => Ok None
    | Some data => if maxCronFileBytes <? Z.of_nat (length data) then Err tt else Ok (Some data)
    end)) : M _.

(** [replaceCanonicalRegular]: a rename, so the file is replaced or left alone. *)
Definition replaceCanonicalRegular (data : bytes) : M (option unit) :=
  failed ← fault;
  (fun w => Some (if failed : bool then (w, Some tt) else (w <| w_file := Some data |>, None))) : M _.

(** ** The tasks of a project *)

Definition ReadTasks : M (result unit (list Task)) :=
  r ← readCanonicalRegular;
  match r with
  | Err e => mret (Err e)
  | Ok None => mret (Ok [])
  | Ok (Some data) =>
      match unmarshal data with
      | None => mret (Ok [])
      | Some tasks => (fun w => valid ← valid_tasks tasks; Some (w, Ok valid)) : M _
      end
  end.

Definition WriteTasks (tasks : list Task) : M (option unit) := replaceCanonicalRegular (marshal tasks).

(** What is left when an error is ignored. *)
Definition ok_or_nil (r : result unit (list Task)) : list Task :=
  match r with Ok tasks => tasks | Err _ => [] end.

Inductive create_error := InvalidCron (e : cron_error) | WriteFailed.

Definition new_task (id cronExpr prompt : bytes) (recurring : bool) (nowMs : Z) : Task :=
  {| t_ID := id; t_Cron := cronExpr; t_Prompt := prompt; t_CreatedAt := nowMs; t_LastFiredAt := None;
     t_Recurring := recurring; t_Permanent := false; t_Durable := false; t_AgentID := [] |}.

Definition CreateTask (id cronExpr prompt : bytes) (recurring : bool) : M (result create_error Task) :=
  match ParseCronExpression fuel cronExpr with
  | None => (fun _ => None) : M _
  | Some (Err e) => mret (Err (InvalidCron e))
  | Some (Ok _) =>
      now ← time_Now;
      let task := new_task id cronExpr prompt recurring (toUnixMilli now) in
      r ← ReadTasks;
      err ← WriteTasks (ok_or_nil r ++ [task]);
      mret (match err with Some _ => Err WriteFailed | None => Ok task end)
  end.

Definition RemoveTasks (ids : list bytes) : M (option unit) :=
  r ← ReadTasks;
  match r with
  | Err e => mret (Some e)
  | Ok tasks => WriteTasks (filter (fun t => t_ID t ∉ ids) tasks)
  end.

(** What becomes of the tasks when the task [id] has fired. *)
Fixpoint mark_fired (id : bytes) (now : Z) (tasks : list Task) : list Task :=
  match tasks with
  | [] => []
  | t :: rest =>
      if t_ID t ==b id
      then if t_Recurring t then t <| t_LastFiredAt := Some now |> :: mark_fired id now rest
           else mark_fired id now rest
      else t :: mark_fired id now rest
  end.

Definition MarkFired (taskID : bytes) : M (option unit) :=
  r ← ReadTasks;
  match r with
  | Err e => mret (Some e)
  | Ok tasks => now ← time_Now; WriteTasks (mark_fired taskID (toUnixMilli now) tasks)
  end.

Definition HasTasks : M bool :=
  r ← readCanonicalRegular;
  mret (match r with
        | Ok (Some data) => Contains data ([DQUOTE] ++ lit "id" ++ [DQUOTE])
        | _ => false
        end).

(** ** A check of the scheduler *)

Section scheduler.
Context (onFire : bool) (config : JitterConfig).

Definition shouldFire (t : Task) (nowMs : Z) : M bool :=
  if IsRecurringTaskAged t nowMs (RecurringMaxAgeMs config)
  then _ ← RemoveTasks [t_ID t]; mret false
  else (fun w => next ← NextFireAt id t no_jitter; Some (w, next <=? nowMs)) : M _.

Definition fire (t : Task) : M () :=
  _ ← (fun w => Some (if onFire then w <| w_fired ::= fun l => l ++ [t] |> else w, ())) : M ();
  if t_Durable t || (t_ID t <>b []) then _ ← MarkFired (t_ID t); mret () else mret ().

Fixpoint check_tasks (tasks : list Task) (nowMs : Z) : M () :=
  match tasks with
  | [] => mret ()
  | t :: rest =>
      due ← shouldFire t nowMs;
      _ ← (if due : bool then fire t else mret ());
      check_tasks rest nowMs
  end.

Definition check (sessionTasks : list Task) : M () :=
  now ← time_Now;
  let nowMs := toUnixMilli now in
  r ← ReadTasks;
  _ ← check_tasks (ok_or_nil r) nowMs;
  check_tasks sessionTasks nowMs.
End scheduler.
End tasks.

(** ** The scheduler *)

(** The scheduler, with the number of its goroutines; [panicked] after the
    channel was closed twice. *)
Record Scheduler := {
  s_running : bool; s_stopCh_closed : bool; s_sessionTasks : list Task; s_loops : nat; s_panicked : bool
}.
#[export] Instance eta_Scheduler : Eta Scheduler := fun x =>
  Build_Scheduler (s_running x) (s_stopCh_closed x) (s_sessionTasks x) (s_loops x) (s_panicked x).

Definition NewScheduler : Scheduler :=
  {| s_running := false; s_stopCh_closed := false; s_sessionTasks := []; s_loops := 0; s_panicked := false |}.

Definition Start (s : Scheduler) : Scheduler :=
  if s_running s then s else s <| s_running := true |> <| s_loops ::= S |>.

Definition Stop (s : Scheduler) : Scheduler :=
  if negb (s_running s) then s else
  let s := s <| s_running := false |> in
  if s_stopCh_closed s then s <| s_panicked := true |> else s <| s_stopCh_closed := true |>.

Definition AddSessionTask (t : Task) (s : Scheduler) : Scheduler :=
  s <| s_sessionTasks ::= fun l => l ++ [t <| t_Durable := false |>] |>.

Definition RemoveSessionTasks (ids : list bytes) (s : Scheduler) : Scheduler :=
  s <| s_sessionTasks ::= filter (fun t => t_ID t ∉ ids) |>.

(** * Facts on scheduled tasks

    The tasks file of [CronTasks] refines a list of tasks, and what a check of
    the scheduler fires and leaves behind. *)

(** ** Next runs in milliseconds *)

Lemma next_run_later loc expr ms :
  - 2 ^ 62 <= ms <= 2 ^ 62 ->
  ms < i64 (toUnixMilli (ComputeNextCronRun loc expr (UnixMilli ms))).
Proof.
  intros Hms. unfold ComputeNextCronRun. set (after := UnixMilli ms).
  destruct (truncate_after after) as [Hlt [q Hq]].
  assert (Truncate (after + Minute) Minute <= after + Minute) as Hle.
  { unfold Truncate. pose proof (Z.mod_pos_bound (after + Minute) Minute ltac:(done)). lia. }
  assert (exists k, ms < k <= ms + 525960 * 60000 + 60000 /\
    default (after + 365 * 24 * Hour)
      (first_match loc expr search_minutes (Truncate (after + Minute) Minute)) = k * Millisecond) as (k & Hk & ->).
  { destruct (first_match _ _ _ _) as [r|] eqn:E; cbn [default id].
    - apply first_match_Some in E as (j & Hj & -> & _ & _).
      exists (q * 60000 + j * 60000). unfold after, UnixMilli, search_minutes, Minute, Second, Millisecond in *. lia.
    - exists (ms + 365 * 24 * 3600000). unfold after, UnixMilli, Hour, Minute, Second, Millisecond. lia. }
  unfold toUnixMilli. rewrite Z.div_mul by done. rewrite i64_id; [lia|]. unfold is_i64, MaxInt64. lia.
Qed.

(** ** The file as a list of tasks *)

(** What JSON keeps of a task. *)
Definition persisted (t : Task) : Task := t <| t_Durable := false |> <| t_AgentID := [] |>.

(** Operations on the file. *)
Inductive task_op :=
| OpCreate (id cron prompt : bytes) (recurring : bool)
| OpRemove (ids : list bytes)
| OpFired (id : bytes).

Section facts.
Context (fuel : nat) (loc : location) (marshal : list Task -> bytes) (unmarshal : bytes -> option (list Task)).
Context (clock : nat -> Z).

(** The codec carries tasks whose strings are valid UTF-8. *)
Context (valid_utf8 : bytes -> bool).
Definition storable (t : Task) : bool :=
  valid_utf8 (t_ID t) && valid_utf8 (t_Cron t) && valid_utf8 (t_Prompt t).
Context (codec : forall ts, forallb storable ts = true -> unmarshal (marshal ts) = Some (persisted <$> ts)).

Definition parses (expr : bytes) : bool :=
  match ParseCronExpression fuel expr with Some (Ok _) => true | _ => false end.

(** A task as a file holds it. *)
Definition stored (t : Task) : Prop := storable t = true /\ persisted t = t /\ parses (t_Cron t) = true.

Definition fits (ts : list Task) : Prop := Z.of_nat (length (marshal ts)) <= maxCronFileBytes.

(** The file holds the tasks [ts], and file operations succeed. *)
Record holds (ts : list Task) (w : world) : Prop := {
  holds_faults : w_faults w = [];
  holds_file : (w_file w = None /\ ts = []) \/ (w_file w = Some (marshal ts) /\ fits ts);
  holds_stored : Forall stored ts
}.

Definition run_op (op : task_op) : M bool :=
  match op with
  | OpCreate id cron prompt recurring =>
      r ← CreateTask fuel marshal unmarshal clock id cron prompt recurring; mret (is_Ok r)
  | OpRemove ids => err ← RemoveTasks fuel marshal unmarshal ids; mret (bool_decide (err = None))
  | OpFired id => err ← MarkFired fuel marshal unmarshal clock id; mret (bool_decide (err = None))
  end.

Fixpoint run_ops (ops : list task_op) : M (list bool) :=
  match ops with
  | [] => mret []
  | op :: ops => b ← run_op op; bs ← run_ops ops; mret (b :: bs)
  end.

(** The same on lists of tasks, with the readings of the clock. *)
Definition spec_op (op : task_op) (s : nat * list Task) : nat * list Task :=
  let '(n, ts) := s in
  match op with
  | OpCreate id cron prompt recurring =>
      if parses cron then (S n, ts ++ [new_task id cron prompt recurring (toUnixMilli (clock n))]) else (n, ts)
  | OpRemove ids => (n, filter (fun t => t_ID t ∉ ids) ts)
  | OpFired id => (S n, mark_fired id (toUnixMilli (clock n)) ts)
  end.

Fixpoint spec_ops (ops : list task_op) (s : nat * list Task) : nat * list Task :=
  match ops with [] => s | op :: ops => spec_ops ops (spec_op op s) end.

(** The contents that the file takes. *)
Fixpoint spec_trace (ops : list task_op) (s : nat * list Task) : list (list Task) :=
  match ops with [] => [] | op :: ops => (spec_op op s).2 :: spec_trace ops (spec_op op s) end.

(** The texts are valid UTF-8, and the parser has fuel for the expression. *)
Definition op_ok (op : task_op) : bool :=
  match op with
  | OpCreate id cron prompt _ =>
      valid_utf8 id && valid_utf8 cron && valid_utf8 prompt && bool_decide (is_Some (ParseCronExpression fuel cron))
  | _ => true
  end.

(** Only the creation of a task whose expression does not parse fails. *)
Definition succeeds (op : task_op) : bool := match op with OpCreate _ cron _ _ => parses cron | _ => true end.

Lemma valid_tasks_stored ts : Forall stored ts -> valid_tasks fuel ts = Some ts.
Proof.
  induction 1 as [|t ts (_ & _ & Hp) _ IH]; [done|]. cbn [valid_tasks]. unfold parses in Hp.
  destruct (ParseCronExpression fuel (t_Cron t)) as [[e|e]|]; try done. by rewrite IH.
Qed.

Lemma stored_persisted ts : Forall stored ts -> persisted <$> ts = ts.
Proof. induction 1 as [|t ts (_ & Ht & _) _ IH]; [done|]. cbn. by rewrite Ht, IH. Qed.

Lemma stored_storable ts : Forall stored ts -> forallb storable ts = true.
Proof. intros Hs. apply forallb_elem_of. intros t Ht. rewrite Forall_forall in Hs. by apply Hs. Qed.

Lemma no_faults w : w_faults w = [] -> fault w = Some (w, false).
Proof. destruct w. cbn. by intros ->. Qed.

Lemma ReadTasks_holds ts w : holds ts w -> ReadTasks fuel unmarshal w = Some (w, Ok ts).
Proof.
  intros [Hf Hc Hs]. unfold ReadTasks, readCanonicalRegular, mbind, M_bind.
  rewrite no_faults by done. cbn. destruct Hc as [[-> ->]|[-> Hfit]]; [done|].
  unfold fits in Hfit. destruct (Z.ltb_spec maxCronFileBytes (Z.of_nat (length (marshal ts)))); [lia|].
  rewrite codec by by apply stored_storable. rewrite stored_persisted, valid_tasks_stored by done. done.
Qed.

Lemma WriteTasks_holds ts w :
  w_faults w = [] -> WriteTasks marshal ts w = Some (w <| w_file := Some (marshal ts) |>, None).
Proof. intros Hf. unfold WriteTasks, replaceCanonicalRegular, mbind, M_bind. by rewrite no_faults. Qed.

Lemma stored_mark_fired id now ts : Forall stored ts -> Forall stored (mark_fired id now ts).
Proof.
  induction 1 as [|t ts (H1 & H2 & H3) _ IH]; [done|]. cbn [mark_fired]. case_bool_decide.
  - destruct (t_Recurring t); [|done]. constructor; [|done]. split; [done|]. split; [|done].
    destruct t. cbn in *. injection H2 as <- <-. done.
  - constructor; [|done]. done.
Qed.

Lemma spec_op_stored op n ts : op_ok op = true -> Forall stored ts -> Forall stored (spec_op op (n, ts)).2.
Proof.
  intros Hok Hs. destruct op as [id cron prompt rec|ids|id]; cbn [spec_op snd].
  - destruct (parses cron) eqn:Hp; [|done]. apply Forall_app. split; [done|]. apply Forall_singleton. cbn in Hok. breflect.
    split; [|split; [done|done]]. unfold storable. cbn. by rewrite H, H1, H2.
  - rewrite Forall_forall in Hs |- *. intros t [_ Ht]%list_elem_of_filter. by apply Hs.
  - by apply stored_mark_fired.
Qed.

Lemma holds_write ts w n :
  w_faults w = [] -> Forall stored ts -> fits ts ->
  holds ts (w <| w_readings := n |> <| w_file := Some (marshal ts) |>).
Proof. intros Hf Hs Hfit. split; [done|by right|done]. Qed.

Lemma run_op_holds op ts w :
  holds ts w -> op_ok op = true -> fits (spec_op op (w_readings w, ts)).2 ->
  exists w', run_op op w = Some (w', succeeds op) /\ holds (spec_op op (w_readings w, ts)).2 w' /\
    w_readings w' = (spec_op op (w_readings w, ts)).1 /\ w_fired w' = w_fired w.
Proof.
  intros Hh Hok Hfit. pose proof (spec_op_stored op (w_readings w) ts Hok (holds_stored _ _ Hh)) as Hst.
  pose proof (holds_faults _ _ Hh) as Hf.
  assert (forall n, holds ts (w <| w_readings := n |>)) as Hn by (intros n; by destruct Hh).
  destruct op as [id cron prompt rec|ids|id]; cbn [run_op]; unfold mbind, M_bind.
  - cbn in Hok, Hfit, Hst. cbn [spec_op succeeds]. breflect. unfold CreateTask. unfold parses in *.
    destruct (ParseCronExpression fuel cron) as [[e|e]|]; [|by exists w|by destruct H0].
    unfold mbind, M_bind, time_Now.
    change (set w_readings S w) with (w <| w_readings := S (w_readings w) |>).
    rewrite (ReadTasks_holds ts) by done. rewrite WriteTasks_holds by done.
    eexists. split; [done|]. split; [|done]. by apply holds_write.
  - unfold RemoveTasks, mbind, M_bind. rewrite (ReadTasks_holds ts) by done. rewrite WriteTasks_holds by done.
    eexists. split; [done|]. split; [|done]. by apply (holds_write _ w (w_readings w)).
  - unfold MarkFired, mbind, M_bind. rewrite (ReadTasks_holds ts) by done. cbn [time_Now].
    unfold time_Now. rewrite WriteTasks_holds by done.
    eexists. split; [done|]. split; [|done]. by apply (holds_write _ w (S (w_readings w))).
Qed.


(** ** What a check does *)

Section check.
Context (onFire : bool) (config : JitterConfig).

Definition aged (nowMs : Z) (t : Task) : bool := IsRecurringTaskAged t nowMs (RecurringMaxAgeMs config).

(** Whether a task fires at [nowMs]. *)
Definition due (nowMs : Z) (t : Task) : bool :=
  negb (aged nowMs t) &&
  match NextFireAt fuel loc id t no_jitter with Some next => next <=? nowMs | None => false end.

Definition returns (t : Task) : Prop := ParseCronExpression fuel (t_Cron t) <> None.

(** What the check of a task does to the file. *)
Definition check_ops (nowMs : Z) (t : Task) : list task_op :=
  if aged nowMs t then [OpRemove [t_ID t]] else
  if due nowMs t && (t_Durable t || (t_ID t <>b [])) then [OpFired (t_ID t)] else [].

Lemma returns_next t : returns t -> exists next, NextFireAt fuel loc id t no_jitter = Some next.
Proof.
  unfold returns, NextFireAt. destruct (ParseCronExpression fuel (t_Cron t)) as [[e|e]|]; [|by eexists|done].
  intros _. by eexists.
Qed.

Lemma spec_trace_app ops1 ops2 s :
  spec_trace (ops1 ++ ops2) s = spec_trace ops1 s ++ spec_trace ops2 (spec_ops ops1 s).
Proof. revert s. induction ops1 as [|op ops1 IH]; intros s; [done|]. cbn. by rewrite IH. Qed.

Lemma spec_ops_app ops1 ops2 s : spec_ops (ops1 ++ ops2) s = spec_ops ops2 (spec_ops ops1 s).
Proof. revert s. induction ops1 as [|op ops1 IH]; intros s; [done|]. cbn. by rewrite IH. Qed.

Abbreviation check_tasks := (check_tasks fuel loc marshal unmarshal clock onFire config).
Abbreviation reported nowMs tasks := (if onFire then List.filter (due nowMs) tasks else []).

Lemma holds_fired ts w l : holds ts w -> holds ts (w <| w_fired := l |>).
Proof. by intros []. Qed.

(** One task. *)
Lemma check_task nowMs t ts w :
  returns t -> holds ts w -> Forall fits (spec_trace (check_ops nowMs t) (w_readings w, ts)) ->
  exists w', check_tasks [t] nowMs w = Some (w', ()) /\
    holds (spec_ops (check_ops nowMs t) (w_readings w, ts)).2 w' /\
    w_readings w' = (spec_ops (check_ops nowMs t) (w_readings w, ts)).1 /\
    w_fired w' = w_fired w ++ reported nowMs [t].
Proof.
  intros Hr Hh. destruct (returns_next t Hr) as [next Hnext]. cbn [CronTasks.check_tasks List.filter].
  unfold check_ops, due, shouldFire, aged, mbind, M_bind, mret, M_ret. rewrite Hnext.
  destruct (IsRecurringTaskAged t nowMs (RecurringMaxAgeMs config)); cbn [negb andb].
  - intros [Hf _]%Forall_cons. destruct (run_op_holds (OpRemove [t_ID t]) ts w Hh eq_refl Hf) as (w' & Hrun & H1 & H2 & H3).
    cbn [run_op] in Hrun. unfold mbind, M_bind, mret, M_ret in Hrun.
    destruct (RemoveTasks _ _ _ _ w) as [[w1 err]|]; [|done]. injection Hrun as -> _.
    exists w'. split; [done|]. split; [done|]. split; [done|]. rewrite H3. by destruct onFire; rewrite app_nil_r.
  - cbn [mbind option_bind]. destruct (next <=? nowMs); cbn [andb].
    2: { intros _. exists w. split_and!; try done. by destruct onFire; rewrite app_nil_r. }
    unfold fire, mbind, M_bind, mret, M_ret. set (w0 := if onFire then _ else w).
    assert (holds ts w0 /\ w_readings w0 = w_readings w /\ w_fired w0 = w_fired w ++ (if onFire then [t] else [])) as (Hh0 & Hn0 & Hf0).
    { unfold w0. destruct onFire; [by split; [apply holds_fired|]|]. by rewrite app_nil_r. }
    rewrite <- Hn0. clearbody w0. destruct (t_Durable t || _).
    2: { intros _. exists w0. by rewrite Hn0. }
    intros [Hf _]%Forall_cons. destruct (run_op_holds (OpFired (t_ID t)) ts w0 Hh0 eq_refl Hf) as (w' & Hrun & H1 & H2 & H3).
    cbn [run_op] in Hrun. unfold mbind, M_bind, mret, M_ret in Hrun.
    destruct (MarkFired _ _ _ _ _ w0) as [[w1 err]|]; [|done]. injection Hrun as -> _.
    exists w'. split; [done|]. split; [done|]. split; [done|]. by rewrite H3.
Qed.

Lemma check_tasks_cons t tasks nowMs w :
  check_tasks (t :: tasks) nowMs w =
    match check_tasks [t] nowMs w with Some (w, _) => check_tasks tasks nowMs w | None => None end.
Proof.
  cbn [CronTasks.check_tasks]. unfold mbind, M_bind, mret, M_ret.
  destruct (shouldFire _ _ _ _ _ _ _ w) as [[w1 b]|]; [|done].
  destruct b; [|done]. by destruct (fire _ _ _ _ _ t w1) as [[w2 []]|].
Qed.

Lemma check_tasks_holds nowMs tasks ts w :
  Forall returns tasks -> holds ts w ->
  Forall fits (spec_trace (flat_map (check_ops nowMs) tasks) (w_readings w, ts)) ->
  exists w', check_tasks tasks nowMs w = Some (w', ()) /\
    holds (spec_ops (flat_map (check_ops nowMs) tasks) (w_readings w, ts)).2 w' /\
    w_readings w' = (spec_ops (flat_map (check_ops nowMs) tasks) (w_readings w, ts)).1 /\
    w_fired w' = w_fired w ++ reported nowMs tasks.
Proof.
  intros Hr. revert ts w. induction Hr as [|t tasks Ht _ IH]; intros ts w Hh Hfit.
  - exists w. split_and!; try done. by destruct onFire; rewrite app_nil_r.
  - cbn [flat_map] in Hfit |- *. rewrite spec_trace_app in Hfit. apply Forall_app in Hfit as [Hf1 Hf2].
    destruct (check_task nowMs t ts w Ht Hh Hf1) as (w1 & Hrun & Hh1 & Hn1 & Hl1).
    rewrite (surjective_pairing (spec_ops (check_ops nowMs t) _)), <- Hn1 in Hf2.
    destruct (IH _ w1 Hh1 Hf2) as (w2 & Hrun2 & Hh2 & Hn2 & Hl2). exists w2.
    rewrite check_tasks_cons, Hrun. split; [done|].
    rewrite spec_ops_app, (surjective_pairing (spec_ops (check_ops nowMs t) _)), <- Hn1.
    split; [done|]. split; [done|]. rewrite Hl2, Hl1. destruct onFire; [|by rewrite !app_nil_r].
    cbn [List.filter]. destruct (due nowMs t); [by rewrite <- app_assoc|by rewrite app_nil_r].
Qed.

(** ** What a check leaves behind *)

Definition touches (id : bytes) (op : task_op) : Prop :=
  match op with OpCreate _ _ _ _ => False | OpRemove ids => id ∈ ids | OpFired i => i = id end.

(** A task fired at the reading [n] of the clock or later. *)
Definition fired_since (n : nat) (t : Task) : Prop :=
  exists k, (n <= k)%nat /\ t_LastFiredAt t = Some (toUnixMilli (clock k)).

Definition no_create (op : task_op) : bool := match op with OpCreate _ _ _ _ => false | _ => true end.

Lemma mark_fired_elem id now ts t :
  t ∈ mark_fired id now ts -> (t ∈ ts /\ t_ID t <> id) \/ t_LastFiredAt t = Some now.
Proof.
  induction ts as [|x ts IH]; cbn [mark_fired]; [by intros ?%elem_of_nil|]. case_bool_decide as Hid.
  - destruct (t_Recurring x); [intros [-> | Ht]%elem_of_cons; [by right|]|intros Ht];
      destruct (IH Ht) as [[? ?]|?]; (by right) || (left; set_solver).
  - intros [-> | Ht]%elem_of_cons; [left; set_solver|]. destruct (IH Ht) as [[? ?]|?]; [left; set_solver|by right].
Qed.

Lemma spec_ops_elem ops n ts t :
  forallb no_create ops = true -> t ∈ (spec_ops ops (n, ts)).2 ->
  (t ∈ ts /\ forall op, op ∈ ops -> ~ touches (t_ID t) op) \/ fired_since n t.
Proof.
  revert n ts. induction ops as [|op ops IH]; intros n ts Hc Ht.
  - left. split; [done|]. intros op Hop. by apply elem_of_nil in Hop.
  - cbn [forallb spec_ops] in *. apply andb_true_iff in Hc as [Hop Hc].
    destruct op as [| ids|id]; [done| |]; cbn [spec_op] in Ht; apply IH in Ht as [[Ht Hn]|Ht]; try done.
    + apply list_elem_of_filter in Ht as [Hid Ht]. left. split; [done|].
      intros op [-> | Hin]%elem_of_cons; [done|by apply Hn].
    + by right.
    + apply mark_fired_elem in Ht as [[Ht Hid]|Ht]; [|right; by exists n].
      left. split; [done|]. intros op [-> | Hin]%elem_of_cons; [by cbn; congruence|by apply Hn].
    + right. destruct Ht as (k & Hk & Ht). exists k. split; [lia|done].
Qed.

Lemma check_ops_no_create nowMs tasks : forallb no_create (flat_map (check_ops nowMs) tasks) = true.
Proof.
  apply forallb_elem_of. intros op (t & _ & Hop)%list_elem_of_In%in_flat_map.
  apply list_elem_of_In in Hop. revert Hop. unfold check_ops. destruct (aged nowMs t); [set_solver|].
  destruct (due nowMs t && _); set_solver.
Qed.

Lemma next_parsed t :
  parses (t_Cron t) = true -> exists expr,
    NextFireAt fuel loc id t no_jitter =
      Some (i64 (i64 (toUnixMilli (ComputeNextCronRun loc expr (UnixMilli (anchor t)))))).
Proof.
  unfold parses, NextFireAt. destruct (ParseCronExpression fuel (t_Cron t)) as [[e|e]|]; try done.
  intros _. exists e. cbn. by rewrite Z.add_0_r.
Qed.

Context (clock_mono : forall n m, (n <= m)%nat -> clock n <= clock m).
Context (clock_range : forall n, - 2 ^ 62 <= toUnixMilli (clock n) <= 2 ^ 62).

Lemma fired_not_due n t :
  parses (t_Cron t) = true -> fired_since n t ->
  exists next, NextFireAt fuel loc id t no_jitter = Some next /\ toUnixMilli (clock n) < next.
Proof.
  intros Hp (k & Hk & Ht). destruct (next_parsed t Hp) as [expr ->]. eexists. split; [done|].
  rewrite i64_id by apply i64_range. unfold anchor. rewrite Ht. cbn [default id].
  pose proof (next_run_later loc expr _ (clock_range k)).
  assert (toUnixMilli (clock n) <= toUnixMilli (clock k)) as Hle by (apply Z.div_le_mono; [done|by apply clock_mono]).
  lia.
Qed.

Lemma untouched_idle nowMs t :
  t_ID t <> [] -> (forall op, op ∈ check_ops nowMs t -> ~ touches (t_ID t) op) ->
  aged nowMs t = false /\ due nowMs t = false.
Proof.
  intros Hid Hn. unfold check_ops in Hn. rewrite bool_decide_eq_false_2, orb_true_r, andb_true_r in Hn by done.
  destruct (aged nowMs t).
  { exfalso. apply (Hn (OpRemove [t_ID t])); cbn; apply list_elem_of_singleton; done. }
  destruct (due nowMs t); [|done].
  exfalso. apply (Hn (OpFired (t_ID t))); [by apply list_elem_of_singleton|done].
Qed.

Lemma idle_not_due nowMs t :
  returns t -> aged nowMs t = false -> due nowMs t = false ->
  exists next, NextFireAt fuel loc id t no_jitter = Some next /\ nowMs < next.
Proof.
  intros Hr Ha Hd. destruct (returns_next t Hr) as [next Hx]. exists next. split; [exact Hx|].
  revert Hd. unfold due. rewrite Ha, Hx. apply Z.leb_gt.
Qed.

(** a check of the scheduler, from a file that holds a list of tasks with
    identifiers, returns and hands to [onFire] the tasks that are due, first
    those of the file and then those of the session, each once and in order;
    the file then holds only tasks that are not due any more at the time of the
    check, so a second check at that time fires none of them.  The clock does
    not run backwards, file operations succeed and the file stays below its size
    limit. *)
Theorem check_fires_due ts w sessionTasks :
  let nowMs := toUnixMilli (clock (w_readings w)) in
  holds ts w -> Forall (fun t => t_ID t <> []) ts -> Forall returns sessionTasks ->
  Forall fits (spec_trace (flat_map (check_ops nowMs) (ts ++ sessionTasks)) (S (w_readings w), ts)) ->
  exists w' ts', check fuel loc marshal unmarshal clock onFire config sessionTasks w = Some (w', ()) /\
    w_fired w' = w_fired w ++ reported nowMs ts ++ reported nowMs sessionTasks /\
    holds ts' w' /\
    Forall (fun t => exists next, NextFireAt fuel loc id t no_jitter = Some next /\ nowMs < next) ts'.
Proof.
  intros nowMs Hh Hid Hr Hfit. unfold check, mbind, M_bind, time_Now. fold nowMs.
  set (w1 := w <| w_readings ::= S |>). assert (holds ts w1) as Hh1 by by destruct Hh.
  rewrite (ReadTasks_holds ts w1 Hh1). cbn [ok_or_nil].
  assert (Forall returns ts) as Hrt.
  { eapply Forall_impl; [exact (holds_stored _ _ Hh)|]. intros t (_ & _ & Hp) Hn. unfold parses in Hp. by rewrite Hn in Hp. }
  rewrite flat_map_app, spec_trace_app in Hfit. apply Forall_app in Hfit as [Hf1 Hf2].
  destruct (check_tasks_holds nowMs ts ts w1 Hrt Hh1 Hf1) as (w2 & -> & Hh2 & Hn2 & Hl2).
  rewrite (surjective_pairing (spec_ops _ (S _, ts))) in Hf2. change (S (w_readings w)) with (w_readings w1) in Hf2.
  rewrite <- Hn2 in Hf2. destruct (check_tasks_holds nowMs sessionTasks _ w2 Hr Hh2 Hf2) as (w3 & -> & Hh3 & Hn3 & Hl3).
  eexists w3, _. split; [done|]. split; [by rewrite Hl3, Hl2, <- app_assoc|]. split; [done|].
  rewrite Hn2, <- surjective_pairing, <- spec_ops_app, <- flat_map_app in Hh3 |- *.
  pose proof (holds_stored _ _ Hh3) as Hst. rewrite Forall_forall in Hst, Hid, Hrt |- *. intros t Ht.
  specialize (Hst t Ht) as (_ & _ & Hp). apply spec_ops_elem in Ht as [[Ht Hn]|Ht]; [| |apply check_ops_no_create].
  - destruct (untouched_idle nowMs t) as [Ha Hd]; [by apply Hid| |by apply idle_not_due; [apply Hrt| |]].
    intros op Hop. apply Hn.
    apply list_elem_of_In, in_flat_map. exists t. split; apply list_elem_of_In; [set_solver|done].
  - destruct (fired_not_due _ t Hp Ht) as (next & -> & Hlt). exists next. split; [done|].
    assert (nowMs <= toUnixMilli (clock (w_readings w1))) as Hle by (apply Z.div_le_mono; [done|apply clock_mono; cbn; lia]).
    lia.
Qed.
End check.
End facts.

(** ** An example *)

Module Example_tasks.

(** A codec for the examples: the persisted tasks as a number, in binary. *)
#[export] Instance Task_countable : Countable Task.
Proof.
  refine (inj_countable'
    (fun t => (t_ID t, t_Cron t, t_Prompt t, t_CreatedAt t, t_LastFiredAt t, t_Recurring t, t_Permanent t,
               t_Durable t, t_AgentID t))
    (fun '(a, b, c, d, e, f, g, h, i) => Build_Task a b c d e f g h i) _).
  by intros [].
Defined.

Fixpoint bits (p : positive) : bytes :=
  match p with xH => [] | xO p => "0"%char :: bits p | xI p => "1"%char :: bits p end.
Fixpoint unbits (s : bytes) : positive :=
  match s with
  | [] => xH
  | c :: s => if c ==b "0"%char then xO (unbits s) else xI (unbits s)
  end.

Definition marshal (ts : list Task) : bytes := bits (encode (persisted <$> ts)).
Definition unmarshal (s : bytes) : option (list Task) := decode (unbits s).

Lemma codec ts :
  forallb (storable (fun _ => true)) ts = true -> unmarshal (marshal ts) = Some (persisted <$> ts).
Proof.
  intros _. unfold unmarshal, marshal.
  assert (forall p, unbits (bits p) = p) as -> by (induction p as [p IH|p IH|]; cbn; by rewrite ?IH).
  apply decode_encode.
Qed.

Definition utc : location := fun _ => 0.
Definition clock (n : nat) : Z := (120000 + Z.of_nat (Nat.min n 100)) * Millisecond.
Definition every_minute : bytes := lit "* * * * *".
Definition task (id : bytes) (recurring : bool) : Task := new_task id every_minute [] recurring 0.
Definition empty : world := {| w_file := None; w_faults := []; w_readings := 0; w_fired := [] |}.

Definition ops : list task_op :=
  [OpCreate (lit "a") every_minute [] true; OpCreate (lit "b") every_minute [] false;
   OpCreate (lit "c") (lit "never") [] true; OpFired (lit "a"); OpRemove [lit "b"]].

Definition fits_b (ts : list Task) : bool := Z.of_nat (length (marshal ts)) <=? maxCronFileBytes.
Lemma all_fit l : forallb fits_b l = true -> Forall (fits marshal) l.
Proof.
  intros Hl. rewrite forallb_elem_of in Hl. apply Forall_forall. intros ts Hts. apply Z.leb_le. by apply Hl.
Qed.


Definition file_tasks : list Task := [task (lit "a") true; task (lit "b") false].
Definition session_task : Task := task (lit "s") true.
Definition world_with (ts : list Task) : world := empty <| w_file := Some (marshal ts) |>.

Lemma clock_mono n m : (n <= m)%nat -> clock n <= clock m.
Proof. unfold clock, Millisecond. lia. Qed.
Lemma clock_range n : - 2 ^ 62 <= toUnixMilli (clock n) <= 2 ^ 62.
Proof. unfold clock, toUnixMilli. rewrite Z.div_mul by done. lia. Qed.

(** Both tasks of the file and the one of the session are due. *)
Lemma check_fires_due_witness :
  exists w' ts', check 100 utc marshal unmarshal clock true DefaultJitterConfig [session_task] (world_with file_tasks) =
      Some (w', ()) /\
    w_fired w' = [] ++ List.filter (due 100 utc DefaultJitterConfig 120000) file_tasks ++
                 List.filter (due 100 utc DefaultJitterConfig 120000) [session_task] /\
    holds 100 marshal (fun _ => true) ts' w' /\
    Forall (fun t => exists next, NextFireAt 100 utc id t no_jitter = Some next /\ 120000 < next) ts'.
Proof.
  apply (check_fires_due 100 utc marshal unmarshal clock (fun _ => true) codec true DefaultJitterConfig
           clock_mono clock_range file_tasks (world_with file_tasks) [session_task]).
  - split; [done|right; split; [done|by apply Z.leb_le; vm_compute]|].
    repeat (apply Forall_cons; split; [split; [done|]; split; [done|by vm_compute]|]). done.
  - repeat (apply Forall_cons; split; [done|]). done.
  - apply Forall_cons. split; [|done]. unfold returns. by vm_compute.
  - apply all_fit. by vm_compute.
Defined.

(** The tasks of the session are not marked: [MarkFired] only rewrites the file,
    so the next check, a second later, fires them again, and a one-shot task of
    the session is fired by every check. *)
Example session_task_refires :
  (r ← check 100 utc marshal unmarshal clock true DefaultJitterConfig [session_task] empty;
   r ← check 100 utc marshal unmarshal clock true DefaultJitterConfig [session_task] r.1;
   Some (t_ID <$> w_fired r.1)) = Some [lit "s"; lit "s"].
Proof. by vm_compute. Qed.

(** [CreateTask] ignores that the file cannot be read: the tasks it held are
    replaced by the new one. *)
Example create_discards_tasks :
  (r ← CreateTask 100 marshal unmarshal clock (lit "c") every_minute [] false
         ((world_with file_tasks) <| w_faults := [true] |>);
   r ← ReadTasks 100 unmarshal r.1;
   Some (map t_ID (ok_or_nil r.2))) = Some [lit "c"].
Proof. by vm_compute. Qed.

(** A scheduler that is started again exits at once, since its channel stays
    closed, and stopping it again closes the channel twice. *)
Example restarted_scheduler_panics :
  s_stopCh_closed (Start (Stop (Start NewScheduler))) = true /\
  s_panicked (Stop (Start (Stop (Start NewScheduler)))) = true.
Proof. done. Qed.
End Example_tasks.
