(* ===== verification/RuntimeItem.v ===== *)
(** * Runtime items

    The data of [src/engine/input_coordinator.go]: what users, agents, hooks and
    goals send to a session, the validation of an item and the receipts that
    acknowledge admitted prompts.

    [strip] is what encoding to JSON keeps of an item; comparing the encodings of
    two items is comparing what it keeps, for texts that are valid UTF-8.  A time is an
    instant, or nothing for Go's zero time.  The image checks, the validation of
    a goal's cursor and of a durable prompt, and the digest of a payload are
    methods of the class [ItemChecks]. *)

From S2P Require Import Prelude GoStrings GoBase.

Open Scope Z_scope.

(** ** Data *)

Inductive RuntimeInputPriority :=
| RuntimePriorityNow | RuntimePriorityNext | RuntimePriorityLater | PriorityOther (s : bytes).

Inductive PromptDeliveryMode :=
| DeliveryUnset | PromptDeliverySteer | PromptDeliveryNextTurn | DeliveryOther (s : bytes).

Inductive RuntimeItemKind :=
| RuntimeItemUserPrompt | RuntimeItemSteering | RuntimeItemAgentMessage | RuntimeItemAgentNotification
| RuntimeItemAsyncRewake | RuntimeItemPermissionDecision | RuntimeItemGoalContinuation | RuntimeItemStop
| KindOther (s : bytes).

Inductive RuntimeItemState :=
| RuntimeItemPending | RuntimeItemProcessing | RuntimeItemRejected | StateOther (s : bytes).

Inductive RuntimeStopMode := RuntimeStopGraceful | RuntimeStopImmediate | StopModeOther (s : bytes).

Record RuntimeInputScope := { SessionID : bytes; ThreadID : bytes; AgentID : bytes }.

Record UserImage := { img_Name : bytes; img_Path : bytes; img_MIMEType : bytes; img_Base64Data : bytes }.

(** [promptrecord.Record]; a part that is not text is known by its encoding. *)
Inductive prompt_part := TextPart (text : bytes) | OtherPart (encoding : bytes).
Record prompt_record := { pr_TurnID : bytes; pr_Parts : list prompt_part }.

(** The last three fields are not exported, so JSON does not carry them; the
    writer is the coordinator that published a durable prompt. *)
Record RuntimeUserPrompt := {
  up_Display : bytes; up_Prompt : bytes; up_Images : list UserImage; up_durablePrompt : option prompt_record;
  up_materializedInput : option bytes; up_writer : option nat; up_writerItemID : bytes
}.

Record RuntimeAgentMessage := { am_From : bytes; am_To : bytes; am_Content : bytes }.

Record RuntimeAgentNotification := {
  an_ReceiptVersion : Z; an_CompletionID : bytes; an_AgentID : bytes; an_ToolUseID : bytes; an_Status : bytes;
  an_Description : bytes; an_OutputFile : bytes; an_Message : bytes; an_Generation : Z; an_TerminalSequence : Z
}.

Record RuntimeAsyncRewake := {
  ar_HookID : bytes; ar_Event : bytes; ar_HookName : bytes; ar_ToolName : bytes; ar_Outcome : bytes;
  ar_ExitCode : Z; ar_ModelPrompt : bytes
}.

(** The result of a permission decision is known by its decision and the
    encoding of the rest. *)
Record RuntimePermissionDecision := {
  pd_Version : Z; pd_RequestID : bytes; pd_InterruptID : bytes; pd_InvocationDigest : bytes;
  pd_PolicyRevision : bytes; pd_DecisionConstraint : bytes; pd_Decision : bytes; pd_ResultRest : bytes
}.

Record RuntimeGoalContinuation := {
  gc_Version : Z; gc_CheckpointID : bytes; gc_ContinuationTurnID : bytes; gc_GoalID : bytes;
  gc_GoalSchemaVersion : Z; gc_ObjectiveRevision : Z; gc_GoalRevision : Z; gc_GoalStatus : bytes;
  gc_RootSessionID : bytes; gc_RootThreadID : bytes; gc_RootAgentID : bytes;
  gc_PredecessorGoalTurnID : bytes; gc_PredecessorTerminalSequence : Z; gc_PredecessorTerminalReason : bytes;
  gc_PredecessorTerminalAt : option Z; gc_TokenBudget : option Z; gc_TokensUsed : Z;
  gc_UsageLedgerRevision : Z; gc_ContinuationOrdinal : Z; gc_RuntimeRevision : Z
}.

Record RuntimeItemRejection := { rej_Version : Z; rej_Code : bytes; rej_RejectedAt : option Z }.

Record RuntimeStop := { stop_Mode : RuntimeStopMode; stop_Reason : bytes }.

Record RuntimeItem := {
  i_Version : Z; i_ID : bytes; i_Kind : RuntimeItemKind; i_Priority : RuntimeInputPriority;
  i_Delivery : PromptDeliveryMode; i_Scope : RuntimeInputScope; i_Sequence : Z; i_EnqueuedAt : option Z;
  i_State : RuntimeItemState; i_IsMeta : bool; i_Origin : bytes; i_Provenance : bytes;
  i_UserPrompt : option RuntimeUserPrompt; i_AgentMessage : option RuntimeAgentMessage;
  i_AgentNotification : option RuntimeAgentNotification; i_AsyncRewake : option RuntimeAsyncRewake;
  i_PermissionDecision : option RuntimePermissionDecision;
  i_GoalContinuation : option RuntimeGoalContinuation; i_Stop : option RuntimeStop;
  i_Rejection : option RuntimeItemRejection
}.

Record runtimeInputAdmissionReceipt := {
  r_Version : Z; r_ID : bytes; r_Kind : RuntimeItemKind; r_Scope : RuntimeInputScope;
  r_DigestAlgorithm : bytes; r_PayloadDigest : bytes; r_Sequence : Z; r_EnqueuedAt : option Z
}.

#[export] Instance RuntimeInputPriority_eq_dec : EqDecision RuntimeInputPriority.
Proof. solve_decision. Defined.
#[export] Instance PromptDeliveryMode_eq_dec : EqDecision PromptDeliveryMode.
Proof. solve_decision. Defined.
#[export] Instance RuntimeItemKind_eq_dec : EqDecision RuntimeItemKind.
Proof. solve_decision. Defined.
#[export] Instance RuntimeItemState_eq_dec : EqDecision RuntimeItemState.
Proof. solve_decision. Defined.
#[export] Instance RuntimeStopMode_eq_dec : EqDecision RuntimeStopMode.
Proof. solve_decision. Defined.
#[export] Instance RuntimeInputScope_eq_dec : EqDecision RuntimeInputScope.
Proof. solve_decision. Defined.
#[export] Instance UserImage_eq_dec : EqDecision UserImage.
Proof. solve_decision. Defined.
#[export] Instance prompt_part_eq_dec : EqDecision prompt_part.
Proof. solve_decision. Defined.
#[export] Instance prompt_record_eq_dec : EqDecision prompt_record.
Proof. solve_decision. Defined.
#[export] Instance RuntimeUserPrompt_eq_dec : EqDecision RuntimeUserPrompt.
Proof. solve_decision. Defined.
#[export] Instance RuntimeAgentMessage_eq_dec : EqDecision RuntimeAgentMessage.
Proof. solve_decision. Defined.
#[export] Instance RuntimeAgentNotification_eq_dec : EqDecision RuntimeAgentNotification.
Proof. solve_decision. Defined.
#[export] Instance RuntimeAsyncRewake_eq_dec : EqDecision RuntimeAsyncRewake.
Proof. solve_decision. Defined.
#[export] Instance RuntimePermissionDecision_eq_dec : EqDecision RuntimePermissionDecision.
Proof. solve_decision. Defined.
#[export] Instance RuntimeGoalContinuation_eq_dec : EqDecision RuntimeGoalContinuation.
Proof. solve_decision. Defined.
#[export] Instance RuntimeItemRejection_eq_dec : EqDecision RuntimeItemRejection.
Proof. solve_decision. Defined.
#[export] Instance RuntimeStop_eq_dec : EqDecision RuntimeStop.
Proof. solve_decision. Defined.
#[export] Instance RuntimeItem_eq_dec : EqDecision RuntimeItem.
Proof. solve_decision. Defined.
#[export] Instance receipt_eq_dec : EqDecision runtimeInputAdmissionReceipt.
Proof. solve_decision. Defined.

#[export] Instance eta_UserImage : Eta UserImage := fun x =>
  Build_UserImage (img_Name x) (img_Path x) (img_MIMEType x) (img_Base64Data x).
#[export] Instance eta_RuntimeUserPrompt : Eta RuntimeUserPrompt := fun x =>
  Build_RuntimeUserPrompt (up_Display x) (up_Prompt x) (up_Images x) (up_durablePrompt x)
    (up_materializedInput x) (up_writer x) (up_writerItemID x).
#[export] Instance eta_RuntimeAgentNotification : Eta RuntimeAgentNotification := fun x =>
  Build_RuntimeAgentNotification (an_ReceiptVersion x) (an_CompletionID x) (an_AgentID x) (an_ToolUseID x)
    (an_Status x) (an_Description x) (an_OutputFile x) (an_Message x) (an_Generation x) (an_TerminalSequence x).
#[export] Instance eta_RuntimeItem : Eta RuntimeItem := fun x =>
  Build_RuntimeItem (i_Version x) (i_ID x) (i_Kind x) (i_Priority x) (i_Delivery x) (i_Scope x) (i_Sequence x)
    (i_EnqueuedAt x) (i_State x) (i_IsMeta x) (i_Origin x) (i_Provenance x) (i_UserPrompt x)
    (i_AgentMessage x) (i_AgentNotification x) (i_AsyncRewake x) (i_PermissionDecision x)
    (i_GoalContinuation x) (i_Stop x) (i_Rejection x).

Definition runtimeItemVersion : Z := 1.
Definition runtimeItemDeliveryVersion : Z := 2.
Definition runtimeInputAdmissionReceiptVersion : Z := 1.
Definition runtimeItemRejectionVersion : Z := 1.
Definition AgentCompletionReceiptVersion : Z := 1.
Definition projectGraphHITLDecisionVersion : Z := 1.
Definition runtimeInputAdmissionDigestAlgorithm : bytes := lit "sha256-v1".

(** What [runtimeInputAdmissionDigest] encodes and hashes. *)
Record runtimeInputAdmissionPayload := {
  ap_Version : Z; ap_Kind : RuntimeItemKind; ap_Priority : RuntimeInputPriority; ap_Delivery : PromptDeliveryMode;
  ap_Scope : RuntimeInputScope; ap_IsMeta : bool; ap_Origin : bytes; ap_Provenance : bytes;
  ap_Display : bytes; ap_Prompt : bytes
}.

(** Checks made elsewhere in the engine, and the digest of a payload: the
    hexadecimal SHA-256 of its JSON. *)
Class ItemChecks := {
  validateUserImages : list UserImage -> bool;
  prompt_Validate : prompt_record -> bool;
  validateRuntimeGoalContinuation : bytes -> RuntimeInputScope -> RuntimeGoalContinuation -> bool;
  payload_digest : runtimeInputAdmissionPayload -> bytes;
  payload_digest_hex : forall p, hex32 (payload_digest p) = true
}.

(** ** Helpers *)

Definition validPromptDelivery (mode : PromptDeliveryMode) : bool :=
  match mode with DeliveryOther _ => false | _ => true end.

Definition runtimePriorityOrdinal (p : RuntimeInputPriority) : Z :=
  match p with
  | RuntimePriorityNow => 0
  | RuntimePriorityNext => 1
  | RuntimePriorityLater => 2
  | PriorityOther _ => 1
  end.

Definition normalizedRuntimePriority (p : RuntimeInputPriority) : RuntimeInputPriority :=
  if p ==b PriorityOther [] then RuntimePriorityNext else p.

Definition runtimeScopesEqual (a b : RuntimeInputScope) : bool :=
  (SessionID a ==b SessionID b) && (ThreadID a ==b ThreadID b) && (AgentID a ==b AgentID b).

Fixpoint runtimeItemByID (items : list RuntimeItem) (id : bytes) : option RuntimeItem :=
  match items with
  | [] => None
  | item :: rest => if i_ID item ==b id then Some item else runtimeItemByID rest id
  end.

Definition is_user_kind (k : RuntimeItemKind) : bool :=
  (k ==b RuntimeItemUserPrompt) || (k ==b RuntimeItemSteering).

Definition blank (s : bytes) : bool := TrimSpace s ==b [].

Fixpoint durablePromptText (parts : list prompt_part) : bytes :=
  match parts with
  | [] => []
  | TextPart text :: rest => text ++ durablePromptText rest
  | OtherPart _ :: rest => durablePromptText rest
  end.

Definition runtimeItemPrompt (item : RuntimeItem) : bytes :=
  match i_Kind item with
  | RuntimeItemUserPrompt | RuntimeItemSteering =>
      match i_UserPrompt item with
      | Some p =>
          match up_durablePrompt p with Some r => durablePromptText (pr_Parts r) | None => up_Prompt p end
      | None => []
      end
  | RuntimeItemAgentMessage => default [] (am_Content <$> i_AgentMessage item)
  | RuntimeItemAgentNotification => default [] (an_Message <$> i_AgentNotification item)
  | RuntimeItemAsyncRewake => default [] (ar_ModelPrompt <$> i_AsyncRewake item)
  | _ => []
  end.

(** ** Normal form *)

Definition drop_names (p : RuntimeUserPrompt) : RuntimeUserPrompt :=
  p <| up_Images ::= map (fun i => i <| img_Name := [] |> <| img_Path := [] |>) |>.

(** The defaults of a notification. *)
Definition fill_notification (id : bytes) (n : RuntimeAgentNotification) : RuntimeAgentNotification :=
  let n := if an_ReceiptVersion n =? 0 then n <| an_ReceiptVersion := AgentCompletionReceiptVersion |> else n in
  let n := if blank (an_CompletionID n) then n <| an_CompletionID := TrimSpace id |> else n in
  let n := if an_Generation n <=? 0 then n <| an_Generation := 1 |> else n in
  if an_TerminalSequence n =? 0 then n <| an_TerminalSequence := u64 (an_Generation n) |> else n.

(** [normalizeRuntimeItemPayload]: the item, and whether an image had a name or a
    path. *)
Definition normalizeRuntimeItemPayload (item : RuntimeItem) : RuntimeItem * bool :=
  let named := match i_UserPrompt item with
               | Some p => existsb (fun i => (img_Name i <>b []) || (img_Path i <>b [])) (up_Images p)
               | None => false
               end in
  let changed := is_user_kind (i_Kind item) && named in
  let item := if is_user_kind (i_Kind item) then item <| i_UserPrompt ::= fmap drop_names |> else item in
  let item := if i_Kind item ==b RuntimeItemAgentNotification
              then item <| i_AgentNotification ::= fmap (fill_notification (i_ID item)) |> else item in
  (item, changed).

(** What JSON keeps of an item. *)
Definition strip_prompt (p : RuntimeUserPrompt) : RuntimeUserPrompt :=
  p <| up_materializedInput := None |> <| up_writer := None |> <| up_writerItemID := [] |>.
Definition strip (item : RuntimeItem) : RuntimeItem := item <| i_UserPrompt ::= fmap strip_prompt |>.

Section checks.
Context `{ItemChecks}.

(** [RuntimeUserPrompt.MarshalJSON] refuses a prompt that is both durable and
    inline. *)
Definition marshals (item : RuntimeItem) : bool :=
  match i_UserPrompt item with
  | Some p =>
      match up_durablePrompt p with
      | Some r => blank (up_Prompt p) && (up_Images p ==b []) && prompt_Validate r
      | None => true
      end
  | None => true
  end.

Definition runtimeItemsEqual (left right : RuntimeItem) : bool :=
  marshals left && marshals right && (strip left ==b strip right).

(** ** Validation *)

Definition validateRuntimeItemUserImages (item : RuntimeItem) : bool :=
  if negb (is_user_kind (i_Kind item)) then true else
  match i_UserPrompt item with
  | None => true
  | Some p =>
      match up_durablePrompt p with
      | Some r => (up_Images p ==b []) && blank (up_Prompt p) && prompt_Validate r
      | None => validateUserImages (up_Images p)
      end
  end.

Definition state_ok (item : RuntimeItem) : bool :=
  match i_State item with
  | RuntimeItemPending | RuntimeItemProcessing => i_Rejection item ==b None
  | RuntimeItemRejected =>
      (i_Kind item ==b RuntimeItemGoalContinuation) &&
      match i_Rejection item with
      | Some r => (rej_Version r =? runtimeItemRejectionVersion) && negb (blank (rej_Code r)) && (rej_RejectedAt r <>b None)
      | None => false
      end
  | StateOther _ => false
  end.

Definition priority_ok (p : RuntimeInputPriority) : bool :=
  match p with PriorityOther _ => false | _ => true end.

Definition delivery_ok (item : RuntimeItem) : bool :=
  negb (((i_Delivery item <>b DeliveryUnset) && negb (i_Version item =? runtimeItemDeliveryVersion))
        || negb (validPromptDelivery (i_Delivery item))
        || ((i_Delivery item <>b DeliveryUnset) && (i_Kind item <>b RuntimeItemUserPrompt))).

Definition count {A} (o : option A) : nat := match o with Some _ => 1 | None => 0 end.

Definition payloadCount (item : RuntimeItem) : nat :=
  count (i_UserPrompt item) + count (i_AgentMessage item) + count (i_AgentNotification item)
  + count (i_AsyncRewake item) + count (i_PermissionDecision item) + count (i_GoalContinuation item)
  + count (i_Stop item).

Definition permission_constraints : list bytes := [[]; lit "allow_once_only"].
Definition permission_decisions : list bytes :=
  [lit "allow_once"; lit "allow_session"; lit "allow_always"; lit "deny"; lit "cancelled"; lit "timed_out"].

Definition payload_ok (writer : nat) (item : RuntimeItem) : bool :=
  match i_Kind item with
  | RuntimeItemUserPrompt | RuntimeItemSteering =>
      match i_UserPrompt item with
      | None => false
      | Some p =>
          negb ((up_durablePrompt p ==b None) && blank (runtimeItemPrompt item)) &&
          negb ((up_durablePrompt p <>b None)
                && ((up_writer p <>b Some writer) || (up_writerItemID p <>b i_ID item))) &&
          validateRuntimeItemUserImages item
      end
  | RuntimeItemAgentMessage =>
      match i_AgentMessage item with Some m => negb (blank (am_Content m)) | None => false end
  | RuntimeItemAgentNotification =>
      match i_AgentNotification item with
      | Some n => (an_ReceiptVersion n =? AgentCompletionReceiptVersion) && negb (blank (an_CompletionID n))
                  && (an_CompletionID n ==b i_ID item) && negb (blank (an_AgentID n))
                  && negb (blank (an_Message n)) && (0 <? an_Generation n) && negb (an_TerminalSequence n =? 0)
      | None => false
      end
  | RuntimeItemAsyncRewake =>
      match i_AsyncRewake item with
      | Some a => negb (blank (ar_HookID a)) && negb (blank (ar_ModelPrompt a))
      | None => false
      end
  | RuntimeItemPermissionDecision =>
      match i_PermissionDecision item with
      | Some d => (pd_Version d =? projectGraphHITLDecisionVersion) && negb (blank (pd_RequestID d))
                  && negb (blank (pd_InterruptID d)) && negb (blank (pd_InvocationDigest d))
                  && negb (blank (pd_PolicyRevision d))
                  && bool_decide (pd_DecisionConstraint d ∈ permission_constraints)
                  && bool_decide (pd_Decision d ∈ permission_decisions)
      | None => false
      end
  | RuntimeItemGoalContinuation =>
      match i_GoalContinuation item with
      | Some g => validateRuntimeGoalContinuation (i_ID item) (i_Scope item) g
      | None => false
      end
  | RuntimeItemStop =>
      match i_Stop item with
      | Some s => match stop_Mode s with StopModeOther _ => false | _ => true end
      | None => false
      end
  | KindOther _ => false
  end.

(** [validateItem], for the coordinator with the scope [scope] and the prompt
    writer [writer]: whether it returns no error. *)
Definition validateItem (scope : RuntimeInputScope) (writer : nat) (item : RuntimeItem) : bool :=
  ((i_Version item =? runtimeItemVersion) || (i_Version item =? runtimeItemDeliveryVersion))
  && state_ok item && priority_ok (i_Priority item) && delivery_ok item
  && (SessionID (i_Scope item) <>b []) && (SessionID (i_Scope item) ==b SessionID scope)
  && (ThreadID (i_Scope item) ==b ThreadID scope) && (AgentID (i_Scope item) ==b AgentID scope)
  && (payloadCount item =? 1)%nat && payload_ok writer item.

(** ** Receipts *)

Inductive receipt_error := NotPlainPrompt | NoPrompt | NoOrder | InvalidReceipt.

Definition runtimeInputAdmissionDigest (item : RuntimeItem) : result receipt_error bytes :=
  match i_Kind item, i_UserPrompt item with
  | RuntimeItemUserPrompt, Some p =>
      if (up_Images p <>b []) || (up_durablePrompt p <>b None) || (up_materializedInput p <>b None)
      then Err NotPlainPrompt else
      let prompt := TrimSpace (up_Prompt p) in
      if prompt ==b [] then Err NoPrompt else
      let display := TrimSpace (up_Display p) in
      Ok (payload_digest {|
        ap_Version := runtimeInputAdmissionReceiptVersion; ap_Kind := i_Kind item;
        ap_Priority := normalizedRuntimePriority (i_Priority item); ap_Delivery := i_Delivery item;
        ap_Scope := i_Scope item; ap_IsMeta := i_IsMeta item; ap_Origin := TrimSpace (i_Origin item);
        ap_Provenance := TrimSpace (i_Provenance item);
        ap_Display := if display ==b [] then prompt else display; ap_Prompt := prompt |})
  | _, _ => Err NotPlainPrompt
  end.

Definition validateRuntimeInputAdmissionReceipt (r : runtimeInputAdmissionReceipt) : bool :=
  (r_Version r =? runtimeInputAdmissionReceiptVersion) && negb (blank (r_ID r))
  && (r_Kind r ==b RuntimeItemUserPrompt) && negb (blank (SessionID (r_Scope r)))
  && (r_DigestAlgorithm r ==b runtimeInputAdmissionDigestAlgorithm) && hex32 (r_PayloadDigest r)
  && negb (r_Sequence r =? 0) && (r_EnqueuedAt r <>b None).

Definition runtimeInputAdmissionReceiptFor (item : RuntimeItem)
    : result receipt_error runtimeInputAdmissionReceipt :=
  match runtimeInputAdmissionDigest item with
  | Err e => Err e
  | Ok digest =>
      if (i_Sequence item =? 0) || (i_EnqueuedAt item ==b None) then Err NoOrder else
      let r := {| r_Version := runtimeInputAdmissionReceiptVersion; r_ID := TrimSpace (i_ID item);
                  r_Kind := i_Kind item; r_Scope := i_Scope item;
                  r_DigestAlgorithm := runtimeInputAdmissionDigestAlgorithm; r_PayloadDigest := digest;
                  r_Sequence := i_Sequence item; r_EnqueuedAt := i_EnqueuedAt item |} in
      if validateRuntimeInputAdmissionReceipt r then Ok r else Err InvalidReceipt
  end.

Definition runtimeInputAdmissionReceiptMatches (r : runtimeInputAdmissionReceipt) (item : RuntimeItem)
    : result receipt_error bool :=
  if negb (validateRuntimeInputAdmissionReceipt r) then Err InvalidReceipt else
  match runtimeInputAdmissionDigest item with
  | Err e => Err e
  | Ok digest =>
      Ok ((r_ID r ==b TrimSpace (i_ID item)) && (r_Kind r ==b i_Kind item)
          && runtimeScopesEqual (r_Scope r) (i_Scope item) && (r_PayloadDigest r ==b digest))
  end.
End checks.
