(* ===== verification/InputCoordinator.v ===== *)
(** * The runtime input coordinator

    [src/engine/input_coordinator.go]: the one buffer through which users,
    agents, hooks and goals reach a session, kept in a ledger file.  An
    operation takes the whole state, the coordinator and its ledger, and gives
    the next state with a result; [disk] tells whether the write of the ledger
    succeeds, which is a rename, so a failed write leaves the old ledger.

    [clock n] is the clock read when the sequence number [n] is given;
    [materialize] stands for the media store, and [lookup] for the transcript
    that knows which items were delivered. *)

From S2P Require Import Prelude GoStrings GoBase RuntimeItem.

Open Scope Z_scope.

(** ** State *)

Definition runtimeInputEnvelopeLegacyVersion : Z := 1.
Definition runtimeInputEnvelopeVersion : Z := 2.

Record runtimeInputEnvelope := {
  e_Version : Z; e_Revision : Z; e_NextSequence : Z; e_Items : list RuntimeItem;
  e_AdmissionReceipts : list runtimeInputAdmissionReceipt
}.

Record RuntimeInputCoordinator := {
  c_scope : RuntimeInputScope; c_path : bytes; c_revision : Z; c_nextSequence : Z;
  c_items : list RuntimeItem; c_admissionReceipts : gmap bytes runtimeInputAdmissionReceipt;
  c_delivered : gset bytes; c_promptWriter : nat; c_submitting : gset bytes; c_recoveryPending : bool;
  c_notify : bool; c_goalNotify : bool
}.
#[export] Instance eta_RuntimeInputCoordinator : Eta RuntimeInputCoordinator := fun x =>
  Build_RuntimeInputCoordinator (c_scope x) (c_path x) (c_revision x) (c_nextSequence x) (c_items x)
    (c_admissionReceipts x) (c_delivered x) (c_promptWriter x) (c_submitting x) (c_recoveryPending x)
    (c_notify x) (c_goalNotify x).

(** The coordinator and its ledger. *)
Record system := { coord : RuntimeInputCoordinator; ledger : option runtimeInputEnvelope }.
#[export] Instance eta_system : Eta system := fun x => Build_system (coord x) (ledger x).

Inductive coordinator_error :=
| ItemIDRequired | InlineImages | Conflict (id : bytes) | Full | InvalidItem (id : bytes)
| ReceiptError (e : receipt_error) | PersistFailed | MaterializeFailed | MaxPendingNotPositive
| NotGoalContinuation | RejectionCodeRequired | CorruptRejection | CannotReject | UserInputPending
| NotClaimed | NotDurablePrompt | UnexpectedCount | AlreadySubmitting | DraftFailed | AdmissionFailed
| UnsupportedLedger | ReceiptScope | ReceiptSequence | DuplicateReceipt | ReceiptMismatch | LookupFailed.

Abbreviation outcome A := (system * result coordinator_error A)%type.

Definition signal (c : RuntimeInputCoordinator) : RuntimeInputCoordinator := c <| c_notify := true |>.
Definition signalGoal (c : RuntimeInputCoordinator) : RuntimeInputCoordinator := c <| c_goalNotify := true |>.

Definition is_pending (i : RuntimeItem) : bool := i_State i ==b RuntimeItemPending.
Definition is_processing (i : RuntimeItem) : bool := i_State i ==b RuntimeItemProcessing.

Definition hasPendingGoalContinuation (items : list RuntimeItem) : bool :=
  existsb (fun i => is_pending i && (i_Kind i ==b RuntimeItemGoalContinuation)) items.
Definition hasTransportEligiblePending (items : list RuntimeItem) : bool :=
  existsb (fun i => is_pending i && (i_Kind i <>b RuntimeItemGoalContinuation)) items.

Definition normalizeScope (c : RuntimeInputCoordinator) (s : RuntimeInputScope) : RuntimeInputScope :=
  {| SessionID := TrimSpace (if blank (SessionID s) then SessionID (c_scope c) else SessionID s);
     ThreadID := TrimSpace (if blank (ThreadID s) then ThreadID (c_scope c) else ThreadID s);
     AgentID := TrimSpace (if blank (AgentID s) && (AgentID (c_scope c) <>b []) then AgentID (c_scope c)
                           else AgentID s) |}.

(** Receipts in the order of their sequence numbers, then of their
    identifiers. *)
Definition receipt_before (a b : runtimeInputAdmissionReceipt) : bool :=
  if negb (r_Sequence a =? r_Sequence b) then r_Sequence a <? r_Sequence b
  else match String.compare (String.string_of_list_ascii (r_ID a)) (String.string_of_list_ascii (r_ID b)) with
       | Lt => true
       | _ => false
       end.

(** A stable insertion sort for a strict order [before]. *)
Section sort.
Context {A : Type} (before : A -> A -> bool).

Fixpoint insert_sorted (x : A) (l : list A) : list A :=
  match l with
  | [] => [x]
  | y :: rest => if before y x then y :: insert_sorted x rest else x :: l
  end.

Fixpoint stable_sort (l : list A) : list A :=
  match l with [] => [] | x :: rest => insert_sorted x (stable_sort rest) end.
End sort.

Definition orderedRuntimeInputAdmissionReceipts (receipts : gmap bytes runtimeInputAdmissionReceipt)
    : list runtimeInputAdmissionReceipt :=
  stable_sort receipt_before (map_to_list receipts).*2.

(** ** The texts of a ledger

    [encoding/json] writes the bytes of a text that are not part of a valid rune
    as U+FFFD, so the ledger gives back a text of valid UTF-8 as it is, and any
    other with these bytes replaced. *)

Definition U_FFFD : bytes := map chr [239; 191; 189]%N.

Fixpoint json_text (s : bytes) : bytes :=
  match s with
  | [] => []
  | a :: s1 =>
      if is_ascii_byte a then a :: json_text s1 else
      match s1 with
      | [] => U_FFFD
      | b :: s2 =>
          if lead2 a b then a :: b :: json_text s2 else
          match s2 with
          | [] => U_FFFD ++ json_text s1
          | c :: s3 =>
              if lead3 a b && cont c then a :: b :: c :: json_text s3 else
              match s3 with
              | [] => U_FFFD ++ json_text s1
              | d :: s4 =>
                  if lead4 a b && cont c && cont d then a :: b :: c :: d :: json_text s4
                  else U_FFFD ++ json_text s1
              end
          end
      end
  end.

Definition json_kind (k : RuntimeItemKind) : RuntimeItemKind :=
  match k with KindOther s => KindOther (json_text s) | _ => k end.
Definition json_scope (s : RuntimeInputScope) : RuntimeInputScope := {|
  SessionID := json_text (SessionID s); ThreadID := json_text (ThreadID s); AgentID := json_text (AgentID s) |}.

Definition json_part (p : prompt_part) : prompt_part :=
  match p with TextPart t => TextPart (json_text t) | OtherPart e => OtherPart (json_text e) end.
Definition json_record (r : prompt_record) : prompt_record := {|
  pr_TurnID := json_text (pr_TurnID r); pr_Parts := map json_part (pr_Parts r) |}.
Definition json_image (i : UserImage) : UserImage := {|
  img_Name := json_text (img_Name i); img_Path := json_text (img_Path i); img_MIMEType := json_text (img_MIMEType i);
  img_Base64Data := json_text (img_Base64Data i) |}.
Definition json_prompt (p : RuntimeUserPrompt) : RuntimeUserPrompt :=
  p <| up_Display ::= json_text |> <| up_Prompt ::= json_text |> <| up_Images ::= map json_image |>
    <| up_durablePrompt ::= fmap json_record |>.
Definition json_message (m : RuntimeAgentMessage) : RuntimeAgentMessage := {|
  am_From := json_text (am_From m); am_To := json_text (am_To m); am_Content := json_text (am_Content m) |}.
Definition json_notification (n : RuntimeAgentNotification) : RuntimeAgentNotification :=
  n <| an_CompletionID ::= json_text |> <| an_AgentID ::= json_text |> <| an_ToolUseID ::= json_text |>
    <| an_Status ::= json_text |> <| an_Description ::= json_text |> <| an_OutputFile ::= json_text |>
    <| an_Message ::= json_text |>.
Definition json_rewake (a : RuntimeAsyncRewake) : RuntimeAsyncRewake := {|
  ar_HookID := json_text (ar_HookID a); ar_Event := json_text (ar_Event a); ar_HookName := json_text (ar_HookName a);
  ar_ToolName := json_text (ar_ToolName a); ar_Outcome := json_text (ar_Outcome a); ar_ExitCode := ar_ExitCode a;
  ar_ModelPrompt := json_text (ar_ModelPrompt a) |}.
Definition json_decision (d : RuntimePermissionDecision) : RuntimePermissionDecision := {|
  pd_Version := pd_Version d; pd_RequestID := json_text (pd_RequestID d); pd_InterruptID := json_text (pd_InterruptID d);
  pd_InvocationDigest := json_text (pd_InvocationDigest d); pd_PolicyRevision := json_text (pd_PolicyRevision d);
  pd_DecisionConstraint := json_text (pd_DecisionConstraint d); pd_Decision := json_text (pd_Decision d);
  pd_ResultRest := json_text (pd_ResultRest d) |}.
Definition json_continuation (g : RuntimeGoalContinuation) : RuntimeGoalContinuation := {|
  gc_Version := gc_Version g; gc_CheckpointID := json_text (gc_CheckpointID g);
  gc_ContinuationTurnID := json_text (gc_ContinuationTurnID g); gc_GoalID := json_text (gc_GoalID g);
  gc_GoalSchemaVersion := gc_GoalSchemaVersion g; gc_ObjectiveRevision := gc_ObjectiveRevision g;
  gc_GoalRevision := gc_GoalRevision g; gc_GoalStatus := json_text (gc_GoalStatus g);
  gc_RootSessionID := json_text (gc_RootSessionID g); gc_RootThreadID := json_text (gc_RootThreadID g);
  gc_RootAgentID := json_text (gc_RootAgentID g); gc_PredecessorGoalTurnID := json_text (gc_PredecessorGoalTurnID g);
  gc_PredecessorTerminalSequence := gc_PredecessorTerminalSequence g;
  gc_PredecessorTerminalReason := json_text (gc_PredecessorTerminalReason g);
  gc_PredecessorTerminalAt := gc_PredecessorTerminalAt g; gc_TokenBudget := gc_TokenBudget g;
  gc_TokensUsed := gc_TokensUsed g; gc_UsageLedgerRevision := gc_UsageLedgerRevision g;
  gc_ContinuationOrdinal := gc_ContinuationOrdinal g; gc_RuntimeRevision := gc_RuntimeRevision g |}.
Definition json_stop (x : RuntimeStop) : RuntimeStop := {|
  stop_Mode := match stop_Mode x with StopModeOther s => StopModeOther (json_text s) | m => m end;
  stop_Reason := json_text (stop_Reason x) |}.
Definition json_rejection (r : RuntimeItemRejection) : RuntimeItemRejection := {|
  rej_Version := rej_Version r; rej_Code := json_text (rej_Code r); rej_RejectedAt := rej_RejectedAt r |}.

(** An item, a receipt and a ledger as they are read back. *)
Definition json_item (i : RuntimeItem) : RuntimeItem :=
  i <| i_ID ::= json_text |> <| i_Kind ::= json_kind |>
    <| i_Priority ::= fun p => match p with PriorityOther s => PriorityOther (json_text s) | _ => p end |>
    <| i_Delivery ::= fun d => match d with DeliveryOther s => DeliveryOther (json_text s) | _ => d end |>
    <| i_Scope ::= json_scope |>
    <| i_State ::= fun x => match x with StateOther s => StateOther (json_text s) | _ => x end |>
    <| i_Origin ::= json_text |> <| i_Provenance ::= json_text |> <| i_UserPrompt ::= fmap json_prompt |>
    <| i_AgentMessage ::= fmap json_message |> <| i_AgentNotification ::= fmap json_notification |>
    <| i_AsyncRewake ::= fmap json_rewake |> <| i_PermissionDecision ::= fmap json_decision |>
    <| i_GoalContinuation ::= fmap json_continuation |> <| i_Stop ::= fmap json_stop |>
    <| i_Rejection ::= fmap json_rejection |>.
Definition json_receipt (r : runtimeInputAdmissionReceipt) : runtimeInputAdmissionReceipt := {|
  r_Version := r_Version r; r_ID := json_text (r_ID r); r_Kind := json_kind (r_Kind r);
  r_Scope := json_scope (r_Scope r); r_DigestAlgorithm := json_text (r_DigestAlgorithm r);
  r_PayloadDigest := json_text (r_PayloadDigest r); r_Sequence := r_Sequence r; r_EnqueuedAt := r_EnqueuedAt r |}.
Definition json_envelope (e : runtimeInputEnvelope) : runtimeInputEnvelope := {|
  e_Version := e_Version e; e_Revision := e_Revision e; e_NextSequence := e_NextSequence e;
  e_Items := json_item <$> e_Items e; e_AdmissionReceipts := json_receipt <$> e_AdmissionReceipts e |}.

Section coordinator.
Context `{ItemChecks} (clock : Z -> Z) (materialize : prompt_record -> option bytes).

(** ** Persistence *)

(** [persistStateLocked]: nothing when the write fails. *)
Definition persistStateLocked (disk : bool) (items : list RuntimeItem) (nextSequence revision : Z)
    (receipts : gmap bytes runtimeInputAdmissionReceipt) (s : system) : option system :=
  if c_path (coord s) ==b [] then Some s else
  if forallb marshals items && disk then
    Some (s <| ledger := Some {|
      e_Version := runtimeInputEnvelopeVersion; e_Revision := revision; e_NextSequence := nextSequence;
      e_Items := strip <$> items; e_AdmissionReceipts := orderedRuntimeInputAdmissionReceipts receipts |} |>)
  else None.

Definition persistLocked (disk : bool) (items : list RuntimeItem) (nextSequence revision : Z) (s : system)
    : option system :=
  persistStateLocked disk items nextSequence revision (c_admissionReceipts (coord s)) s.

(** The common end of the operations: write the candidate, then install it. *)
Definition commit {A} (disk : bool) (candidate : list RuntimeItem)
    (after : RuntimeInputCoordinator -> RuntimeInputCoordinator) (a : A) (s : system) : outcome A :=
  let revision := u64 (c_revision (coord s) + 1) in
  match persistLocked disk candidate (c_nextSequence (coord s)) revision s with
  | None => (s, Err PersistFailed)
  | Some s' =>
      (s' <| coord ::= fun c => after (c <| c_items := candidate |> <| c_revision := revision |>) |>, Ok a)
  end.

(** ** Enqueueing *)

Record batch := {
  b_items : list RuntimeItem; b_receipts : gmap bytes runtimeInputAdmissionReceipt; b_next : Z;
  b_accepted : list RuntimeItem; b_changed : bool
}.
#[local] Instance eta_batch : Eta batch := fun x =>
  Build_batch (b_items x) (b_receipts x) (b_next x) (b_accepted x) (b_changed x).

Definition accept (item : RuntimeItem) (b : batch) : batch := b <| b_accepted ::= fun l => l ++ [item] |>.

(** The payload of an item, apart from what the coordinator assigned, is that of
    the one stored under its identifier. *)
Definition same_payload (existing item : RuntimeItem) : bool :=
  runtimeItemsEqual existing
    (item <| i_Version := i_Version existing |> <| i_Sequence := i_Sequence existing |>
          <| i_EnqueuedAt := i_EnqueuedAt existing |> <| i_State := i_State existing |>).

(** The fields that an item gets before it is looked up. *)
Definition prepare_item (c : RuntimeInputCoordinator) (item : RuntimeItem) : RuntimeItem :=
  item <| i_Version := if i_Delivery item ==b DeliveryUnset then runtimeItemVersion else runtimeItemDeliveryVersion |>
       <| i_Priority ::= normalizedRuntimePriority |> <| i_Scope ::= normalizeScope c |>.

Definition pending_of (kind : RuntimeItemKind) (scope : RuntimeInputScope) (items : list RuntimeItem)
    : list RuntimeItem :=
  List.filter (fun i => is_pending i && (i_Kind i ==b kind) && runtimeScopesEqual (i_Scope i) scope) items.

Definition no_bound : RuntimeItemKind := KindOther [].

(** An item that is neither acknowledged, delivered nor stored. *)
Definition enqueue_new (boundedKind : RuntimeItemKind) (maxPending : Z) (recordAdmission : bool)
    (c : RuntimeInputCoordinator) (item : RuntimeItem) (b : batch) : result coordinator_error batch :=
  if (boundedKind <>b no_bound) && (i_Kind item ==b boundedKind)
     && (maxPending <=? Z.of_nat (length (pending_of boundedKind (i_Scope item) (b_items b))))
  then Err Full else
  let next := u64 (b_next b + 1) in
  let item := item <| i_Sequence := next |>
                   <| i_EnqueuedAt ::= fun t => match t with None => Some (clock next) | _ => t end |>
                   <| i_State := RuntimeItemPending |> in
  if negb (validateItem (c_scope c) (c_promptWriter c) item) then Err (InvalidItem (i_ID item)) else
  let b' := accept item {| b_items := b_items b ++ [item]; b_receipts := b_receipts b; b_next := next;
                           b_accepted := b_accepted b; b_changed := true |} in
  if recordAdmission then
    match runtimeInputAdmissionReceiptFor item with
    | Err e => Err (ReceiptError e)
    | Ok r => Ok (b' <| b_receipts ::= <[i_ID item := r]> |>)
    end
  else Ok b'.

(** An item whose identifier is acknowledged by the receipt [r]. *)
Definition enqueue_acknowledged (r : runtimeInputAdmissionReceipt) (c : RuntimeInputCoordinator)
    (item : RuntimeItem) (b : batch) : result coordinator_error batch :=
  match runtimeInputAdmissionReceiptMatches r item with
  | Err e => Err (ReceiptError e)
  | Ok false => Err (Conflict (i_ID item))
  | Ok true =>
      match runtimeItemByID (b_items b) (i_ID item) with
      | Some existing => if same_payload existing item then Ok (accept existing b) else Err (Conflict (i_ID item))
      | None =>
          let item := item <| i_Sequence := r_Sequence r |> <| i_EnqueuedAt := r_EnqueuedAt r |>
                           <| i_State := RuntimeItemProcessing |> in
          if validateItem (c_scope c) (c_promptWriter c) item then Ok (accept item b)
          else Err (InvalidItem (i_ID item))
      end
  end.

Definition enqueue_prepared (boundedKind : RuntimeItemKind) (maxPending : Z) (recordAdmission : bool)
    (c : RuntimeInputCoordinator) (item : RuntimeItem) (b : batch) : result coordinator_error batch :=
  match (if recordAdmission then b_receipts b !! i_ID item else None) with
  | Some r => enqueue_acknowledged r c item b
  | None =>
      if bool_decide (i_ID item ∈ c_delivered c) then
        if recordAdmission then Err (Conflict (i_ID item)) else
        if validateRuntimeItemUserImages item then Ok (accept (item <| i_State := RuntimeItemProcessing |>) b)
        else Err (InvalidItem (i_ID item))
      else
        match runtimeItemByID (b_items b) (i_ID item) with
        | Some existing =>
            if negb (same_payload existing item) then Err (Conflict (i_ID item)) else
            if recordAdmission then
              match runtimeInputAdmissionReceiptFor existing with
              | Err e => Err (ReceiptError e)
              | Ok r => Ok (accept existing (b <| b_receipts ::= <[i_ID item := r]> |> <| b_changed := true |>))
              end
            else Ok (accept existing b)
        | None => enqueue_new boundedKind maxPending recordAdmission c item b
        end
  end.

Definition enqueue_one (boundedKind : RuntimeItemKind) (maxPending : Z) (recordAdmission : bool)
    (c : RuntimeInputCoordinator) (item : RuntimeItem) (b : batch) : result coordinator_error batch :=
  let item := item <| i_ID ::= TrimSpace |> in
  if i_ID item ==b [] then Err ItemIDRequired else
  let item := (normalizeRuntimeItemPayload item).1 in
  if match i_UserPrompt item with Some p => up_Images p <>b [] | None => false end then Err InlineImages else
  enqueue_prepared boundedKind maxPending recordAdmission c (prepare_item c item) b.

Fixpoint enqueue_all (boundedKind : RuntimeItemKind) (maxPending : Z) (recordAdmission : bool)
    (c : RuntimeInputCoordinator) (items : list RuntimeItem) (b : batch) : result coordinator_error batch :=
  match items with
  | [] => Ok b
  | item :: rest =>
      match enqueue_one boundedKind maxPending recordAdmission c item b with
      | Err e => Err e
      | Ok b => enqueue_all boundedKind maxPending recordAdmission c rest b
      end
  end.

Definition enqueueBatchLocked (disk : bool) (items : list RuntimeItem) (boundedKind : RuntimeItemKind)
    (maxPending : Z) (publishSignal recordAdmission : bool) (s : system) : outcome (list RuntimeItem) :=
  let c := coord s in
  match enqueue_all boundedKind maxPending recordAdmission c items
          {| b_items := c_items c; b_receipts := c_admissionReceipts c; b_next := c_nextSequence c;
             b_accepted := []; b_changed := false |} with
  | Err e => (s, Err e)
  | Ok b =>
      if negb (b_changed b) then (s, Ok (b_accepted b)) else
      let revision := u64 (c_revision c + 1) in
      match persistStateLocked disk (b_items b) (b_next b) revision (b_receipts b) s with
      | None => (s, Err PersistFailed)
      | Some s' =>
          (s' <| coord ::= fun c =>
             let c := c <| c_items := b_items b |> <| c_admissionReceipts := b_receipts b |>
                        <| c_nextSequence := b_next b |> <| c_revision := revision |> in
             if publishSignal && hasTransportEligiblePending (b_items b) then signal c else c |>,
           Ok (b_accepted b))
      end
  end.

(** The one item that an operation on a single item accepts. *)
Definition single (r : outcome (list RuntimeItem)) : outcome RuntimeItem :=
  match r with
  | (s, Ok [item]) => (s, Ok item)
  | (s, Ok _) => (s, Err UnexpectedCount)
  | (s, Err e) => (s, Err e)
  end.

Definition EnqueueBatch (disk : bool) (items : list RuntimeItem) (s : system) : outcome (list RuntimeItem) :=
  if items ==b [] then (s, Ok []) else enqueueBatchLocked disk items no_bound 0 true false s.

Definition Enqueue (disk : bool) (item : RuntimeItem) (s : system) : outcome RuntimeItem :=
  single (EnqueueBatch disk [item] s).

Definition EnqueueBounded (disk : bool) (item : RuntimeItem) (maxPending : Z) (s : system) : outcome RuntimeItem :=
  if maxPending <=? 0 then (s, Err MaxPendingNotPositive)
  else single (enqueueBatchLocked disk [item] (i_Kind item) maxPending true false s).

Definition EnqueueBoundedWithAdmissionReceipt (disk : bool) (item : RuntimeItem) (maxPending : Z) (s : system)
    : outcome RuntimeItem :=
  if maxPending <=? 0 then (s, Err MaxPendingNotPositive)
  else single (enqueueBatchLocked disk [item] RuntimeItemUserPrompt maxPending true true s).

Definition enqueueDormantGoalContinuation (disk : bool) (item : RuntimeItem) (s : system) : outcome RuntimeItem :=
  if i_Kind item <>b RuntimeItemGoalContinuation then (s, Err NotGoalContinuation) else
  match single (enqueueBatchLocked disk [item] RuntimeItemGoalContinuation 1 false false s) with
  | (s, Ok item) => (s <| coord ::= signalGoal |>, Ok item)
  | r => r
  end.

Definition HasAdmissionReceipt (item : RuntimeItem) (s : system) : result coordinator_error bool :=
  let item := prepare_item (coord s) (normalizeRuntimeItemPayload (item <| i_ID ::= TrimSpace |>)).1 in
  match c_admissionReceipts (coord s) !! i_ID item with
  | None => Ok false
  | Some r =>
      match runtimeInputAdmissionReceiptMatches r item with
      | Err e => Err (ReceiptError e)
      | Ok false => Err (Conflict (i_ID item))
      | Ok true => Ok true
      end
  end.

(** ** Claiming *)

Definition materializeRuntimePrompt (item : RuntimeItem) : result coordinator_error RuntimeItem :=
  match i_UserPrompt item with
  | Some p =>
      match up_durablePrompt p with
      | Some r =>
          match materialize r with
          | Some input => Ok (item <| i_UserPrompt := Some (p <| up_materializedInput := Some input |>) |>)
          | None => Err MaterializeFailed
          end
      | None => Ok item
      end
  | None => Ok item
  end.

Definition with_state (st : RuntimeItemState) (item : RuntimeItem) : RuntimeItem := item <| i_State := st |>.
Definition set_state (st : RuntimeItemState) (index : nat) (items : list RuntimeItem) : list RuntimeItem :=
  alter (with_state st) index items.

(** The order in which items are claimed. *)
Definition claimed_before (a b : RuntimeItem) : bool :=
  if negb (runtimePriorityOrdinal (i_Priority a) =? runtimePriorityOrdinal (i_Priority b))
  then runtimePriorityOrdinal (i_Priority a) <? runtimePriorityOrdinal (i_Priority b)
  else i_Sequence a <? i_Sequence b.

(** The items with their indexes. *)
Definition indexed (items : list RuntimeItem) : list (nat * RuntimeItem) := imap pair items.

Definition at_safe_point (scope : RuntimeInputScope) (includeUser allowLater : bool) (i : RuntimeItem) : bool :=
  is_pending i && (i_Kind i <>b RuntimeItemStop) && (i_Kind i <>b RuntimeItemGoalContinuation)
  && runtimeScopesEqual (i_Scope i) scope
  && negb ((i_Kind i ==b RuntimeItemUserPrompt)
           && ((i_Delivery i ==b PromptDeliveryNextTurn)
               || (negb includeUser && (i_Delivery i <>b PromptDeliverySteer))))
  && negb ((i_Priority i ==b RuntimePriorityLater) && negb allowLater).

Fixpoint claim_all (indexes : list (nat * RuntimeItem)) (candidate : list RuntimeItem) (claimed : list RuntimeItem)
    : result coordinator_error (list RuntimeItem * list RuntimeItem) :=
  match indexes with
  | [] => Ok (candidate, claimed)
  | (index, item) :: rest =>
      match materializeRuntimePrompt (with_state RuntimeItemProcessing item) with
      | Err e => Err e
      | Ok m => claim_all rest (set_state RuntimeItemProcessing index candidate) (claimed ++ [m])
      end
  end.

Definition ClaimSafePoint (disk : bool) (scope : RuntimeInputScope) (includeUser allowLater : bool) (s : system)
    : outcome (list RuntimeItem) :=
  let c := coord s in
  let eligible := List.filter (fun ni => at_safe_point (normalizeScope c scope) includeUser allowLater ni.2)
                    (indexed (c_items c)) in
  if eligible ==b [] then (s, Ok []) else
  match claim_all (stable_sort (fun a b => claimed_before a.2 b.2) eligible) (c_items c) [] with
  | Err e => (s, Err e)
  | Ok (candidate, claimed) => commit disk candidate (fun c => c) claimed s
  end.

(** The claim of the item at [index]. *)
Definition claim_at (disk : bool) (chosen : option (nat * RuntimeItem)) (s : system)
    : outcome (option RuntimeItem) :=
  match chosen with
  | None => (s, Ok None)
  | Some (index, item) =>
      match materializeRuntimePrompt (with_state RuntimeItemProcessing item) with
      | Err e => (s, Err e)
      | Ok m => commit disk (set_state RuntimeItemProcessing index (c_items (coord s))) (fun c => c) (Some m) s
      end
  end.

Definition when_idle (scope : RuntimeInputScope) (i : RuntimeItem) : bool :=
  is_pending i && (i_Kind i <>b RuntimeItemStop) && (i_Kind i <>b RuntimeItemGoalContinuation)
  && runtimeScopesEqual (i_Scope i) scope.

(** The loop that keeps the best index. *)
Fixpoint best_of (better : RuntimeItem -> RuntimeItem -> bool) (best : option (nat * RuntimeItem))
    (l : list (nat * RuntimeItem)) : option (nat * RuntimeItem) :=
  match l with
  | [] => best
  | x :: rest =>
      best_of better
        (match best with
         | None => Some x
         | Some y => if better x.2 y.2 then Some x else best
         end) rest
  end.

Definition ClaimNextIdle (disk : bool) (scope : RuntimeInputScope) (s : system) : outcome (option RuntimeItem) :=
  let c := coord s in
  claim_at disk
    (best_of claimed_before None
       (List.filter (fun ni => when_idle (normalizeScope c scope) ni.2) (indexed (c_items c)))) s.

(** Explicit input of the user that waits in a scope. *)
Definition user_waits (scope : RuntimeInputScope) (i : RuntimeItem) : bool :=
  is_pending i && runtimeScopesEqual (i_Scope i) scope && is_user_kind (i_Kind i).

(** The last goal continuation with the identifier [id]. *)
Definition goal_item (st : RuntimeItemState) (id : bytes) (scope : RuntimeInputScope) (i : RuntimeItem) : bool :=
  (i_State i ==b st) && (i_ID i ==b TrimSpace id) && (i_Kind i ==b RuntimeItemGoalContinuation)
  && runtimeScopesEqual (i_Scope i) scope.

Definition claimGoalContinuation (disk : bool) (id : bytes) (scope : RuntimeInputScope) (s : system)
    : outcome (option RuntimeItem) :=
  let c := coord s in
  let scope := normalizeScope c scope in
  if blank id then (s, Ok None) else
  if existsb (user_waits scope) (c_items c) then (s, Ok None) else
  claim_at disk (last (List.filter (fun ni => goal_item RuntimeItemPending id scope ni.2) (indexed (c_items c)))) s.

(** [withGoalContinuationAdmission]; [admission] is the callback, given the item
    and the revision. *)
Definition withGoalContinuationAdmission (id : bytes) (scope : RuntimeInputScope)
    (admission : RuntimeItem -> Z -> bool) (s : system) : result coordinator_error unit :=
  let c := coord s in
  let scope := normalizeScope c scope in
  if existsb (user_waits scope) (c_items c) then Err UserInputPending else
  match last (List.filter (goal_item RuntimeItemProcessing id scope) (c_items c)) with
  | None => Err NotClaimed
  | Some item => if admission item (c_revision c) then Ok tt else Err AdmissionFailed
  end.

(** The first item, with its index, that satisfies a condition. *)
Definition first_item (f : RuntimeItem -> bool) (items : list RuntimeItem) : option (nat * RuntimeItem) :=
  head (List.filter (fun ni => f ni.2) (indexed items)).

Definition claimByID (disk : bool) (id : bytes) (s : system) : outcome (option RuntimeItem) :=
  if blank id then (s, Ok None) else
  claim_at disk (first_item (fun i => (i_ID i ==b id) && is_pending i) (c_items (coord s))) s.

Definition Release (disk : bool) (id : bytes) (s : system) : outcome bool :=
  if blank id then (s, Ok false) else
  match first_item (fun i => (i_ID i ==b id) && is_processing i) (c_items (coord s)) with
  | None => (s, Ok false)
  | Some (index, item) =>
      commit disk (set_state RuntimeItemPending index (c_items (coord s)))
        (fun c => let c := c <| c_submitting ::= fun l => l ∖ {[ id ]} |> in
                  if i_Kind item ==b RuntimeItemGoalContinuation then signalGoal c else signal c) true s
  end.

Definition pending_stop (scope : RuntimeInputScope) (i : RuntimeItem) : bool :=
  is_pending i && (i_Kind i ==b RuntimeItemStop) && runtimeScopesEqual (i_Scope i) scope.

Definition ClaimStop (disk : bool) (scope : RuntimeInputScope) (s : system) : outcome (option RuntimeItem) :=
  let c := coord s in
  match best_of (fun a b => i_Sequence a <? i_Sequence b) None
          (List.filter (fun ni => pending_stop (normalizeScope c scope) ni.2) (indexed (c_items c))) with
  | None => (s, Ok None)
  | Some (index, item) =>
      commit disk (set_state RuntimeItemProcessing index (c_items c)) (fun c => c)
        (Some (with_state RuntimeItemProcessing item)) s
  end.

(** ** Leaving the queue *)

Definition rejectGoalContinuation (disk : bool) (id code : bytes) (at_time : option Z) (s : system) : outcome unit :=
  let c := coord s in
  if blank id then (s, Ok tt) else
  if blank code then (s, Err RejectionCodeRequired) else
  match first_item (fun i => (i_ID i ==b TrimSpace id) && (i_Kind i ==b RuntimeItemGoalContinuation)) (c_items c) with
  | None => (s, Ok tt)
  | Some (index, item) =>
      match i_State item with
      | RuntimeItemRejected =>
          (s, match i_Rejection item with
              | Some r => if rej_Version r =? runtimeItemRejectionVersion then Ok tt else Err CorruptRejection
              | None => Err CorruptRejection
              end)
      | RuntimeItemPending | RuntimeItemProcessing =>
          let rejected (i : RuntimeItem) :=
            i <| i_State := RuntimeItemRejected |>
              <| i_Rejection := Some {| rej_Version := runtimeItemRejectionVersion; rej_Code := TrimSpace code;
                   rej_RejectedAt := match at_time with None => Some (clock 0) | t => t end |} |> in
          commit disk (alter rejected index (c_items c)) (fun c => c) tt s
      | StateOther _ => (s, Err CannotReject)
      end
  end.

Definition mark_delivered (ids : gset bytes) (c : RuntimeInputCoordinator) : RuntimeInputCoordinator :=
  c <| c_delivered ::= fun d => d ∪ ids |> <| c_submitting ::= fun l => l ∖ ids |>.

(** The identifiers that are not blank, trimmed. *)
Definition id_set (ids : list bytes) : gset bytes :=
  list_to_set (List.filter (fun id => id <>b []) (map TrimSpace ids)).

Definition Settle (disk : bool) (ids : list bytes) (s : system) : outcome unit :=
  let set := id_set ids in
  if bool_decide (set = ∅) then (s, Ok tt) else
  let candidate := List.filter (fun i => bool_decide (i_ID i ∉ set)) (c_items (coord s)) in
  if (length candidate =? length (c_items (coord s)))%nat
  then (s <| coord ::= mark_delivered set |>, Ok tt)
  else commit disk candidate (mark_delivered set) tt s.

Definition settleStopRequests (disk : bool) (scope : RuntimeInputScope) (s : system) : outcome unit :=
  let c := coord s in
  Settle disk (map i_ID (List.filter (fun i => (i_Kind i ==b RuntimeItemStop)
                 && runtimeScopesEqual (i_Scope i) (normalizeScope c scope)) (c_items c))) s.

Definition Cancel (disk : bool) (id : bytes) (s : system) : outcome bool :=
  if blank id then (s, Ok false) else
  let candidate := List.filter (fun i => negb ((i_ID i ==b id) && is_pending i)) (c_items (coord s)) in
  if (length candidate =? length (c_items (coord s)))%nat then (s, Ok false)
  else commit disk candidate (fun c => c) true s.

(** [editPendingUserPrompt]; [draft_of] makes the draft that the editor gets. *)
Definition editPendingUserPrompt {D} (draft_of : RuntimeItem -> option D) (disk : bool) (id : bytes)
    (scope : RuntimeInputScope) (s : system) : outcome (option D) :=
  let c := coord s in
  if blank id then (s, Ok None) else
  match first_item (fun i => (i_ID i ==b TrimSpace id) && (i_Kind i ==b RuntimeItemUserPrompt) && is_pending i
                             && runtimeScopesEqual (i_Scope i) (normalizeScope c scope)) (c_items c) with
  | None => (s, Ok None)
  | Some (index, item) =>
      match materializeRuntimePrompt item with
      | Err e => (s, Err e)
      | Ok item =>
          match draft_of item with
          | None => (s, Err DraftFailed)
          | Some draft => commit disk (delete index (c_items c)) (fun c => c) (Some draft) s
          end
      end
  end.

(** ** Durable prompts *)

Definition enqueueDurableUserPrompt (disk : bool) (item : RuntimeItem) (record : prompt_record) (maxPending : Z)
    (s : system) : outcome RuntimeItem :=
  let c := coord s in
  match i_Kind item, i_UserPrompt item with
  | RuntimeItemUserPrompt, Some p =>
      if c_path c ==b [] then (s, Err NotDurablePrompt) else
      let p := {| up_Display := up_Display p; up_Prompt := []; up_Images := []; up_durablePrompt := Some record;
                  up_materializedInput := None; up_writer := Some (c_promptWriter c);
                  up_writerItemID := i_ID item |} in
      EnqueueBounded disk (item <| i_UserPrompt := Some p |>) maxPending s
  | _, _ => (s, Err NotDurablePrompt)
  end.

Definition processingDurableRuntimePrompt (item : RuntimeItem) (s : system) : outcome RuntimeItem :=
  let c := coord s in
  match i_UserPrompt item ≫= up_durablePrompt with
  | None => (s, Err NotDurablePrompt)
  | Some record =>
      if bool_decide (i_ID item ∈ c_submitting c) then (s, Err AlreadySubmitting) else
      match head (List.filter (fun i => (i_ID i ==b i_ID item) && (i_Kind i ==b RuntimeItemUserPrompt)
                    && is_processing i
                    && match i_UserPrompt i ≫= up_durablePrompt with
                       | Some r => pr_TurnID r ==b pr_TurnID record
                       | None => false
                       end) (c_items c)) with
      | None => (s, Err NotClaimed)
      | Some current =>
          match materializeRuntimePrompt current with
          | Err e => (s, Err e)
          | Ok m => (s <| coord ::= set c_submitting (fun l => {[ i_ID item ]} ∪ l) |>, Ok m)
          end
      end
  end.

(** ** Reading *)

Definition Snapshot (scope : RuntimeInputScope) (s : system) : list RuntimeItem :=
  stable_sort claimed_before
    (List.filter (fun i => is_pending i && runtimeScopesEqual (i_Scope i) (normalizeScope (coord s) scope))
       (c_items (coord s))).

Definition Known (id : bytes) (s : system) : bool :=
  negb (blank id) &&
  (bool_decide (TrimSpace id ∈ c_delivered (coord s))
   || existsb (fun i => i_ID i ==b TrimSpace id) (c_items (coord s))).

Definition resolveDelivered (lookup : option (list bytes -> option (gset bytes))) (ids : list bytes)
    (c : RuntimeInputCoordinator) : result coordinator_error (RuntimeInputCoordinator * gset bytes) :=
  let requested := id_set ids in
  let covered := requested ∩ c_delivered c in
  let unresolved := requested ∖ c_delivered c in
  match lookup with
  | None => Ok (c, covered)
  | Some lookup =>
      if bool_decide (unresolved = ∅) then Ok (c, covered) else
      match lookup (elements unresolved) with
      | None => Err LookupFailed
      | Some found =>
          let found := found ∩ requested in
          Ok (c <| c_delivered ::= fun d => d ∪ found |>, covered ∪ found)
      end
  end.

(** [ResolveDelivered], with the lookup of the coordinator. *)
Definition ResolveDelivered (lookup : option (list bytes -> option (gset bytes))) (ids : list bytes) (s : system)
    : outcome (gset bytes) :=
  match resolveDelivered lookup ids (coord s) with
  | Err e => (s, Err e)
  | Ok (c, covered) => (s <| coord := c |>, Ok covered)
  end.

(** ** Recovery *)

Fixpoint recover_receipts (scope : RuntimeInputScope) (next : Z) (receipts : list runtimeInputAdmissionReceipt)
    (sequences : gset Z) (m : gmap bytes runtimeInputAdmissionReceipt)
    : result coordinator_error (gmap bytes runtimeInputAdmissionReceipt) :=
  match receipts with
  | [] => Ok m
  | r :: rest =>
      if negb (validateRuntimeInputAdmissionReceipt r) then Err (ReceiptError InvalidReceipt) else
      if negb (runtimeScopesEqual (r_Scope r) scope) then Err ReceiptScope else
      if next <? r_Sequence r then Err ReceiptSequence else
      if bool_decide (r_Sequence r ∈ sequences) then Err DuplicateReceipt else
      if bool_decide (is_Some (m !! r_ID r)) then Err DuplicateReceipt else
      recover_receipts scope next rest ({[ r_Sequence r ]} ∪ sequences) (<[r_ID r := r]> m)
  end.

(** A durable prompt is bound to the coordinator that recovers it. *)
Definition bind_writer (writer : nat) (item : RuntimeItem) : RuntimeItem :=
  item <| i_UserPrompt ::= fmap (fun p =>
    match up_durablePrompt p with
    | Some _ => p <| up_writer := Some writer |> <| up_writerItemID := i_ID item |>
    | None => p
    end) |>.

(** The check of an item against its receipt, or the receipt that it gets. *)
Definition recover_receipt (item : RuntimeItem) (m : gmap bytes runtimeInputAdmissionReceipt)
    : result coordinator_error (gmap bytes runtimeInputAdmissionReceipt * bool) :=
  match m !! i_ID item with
  | Some r =>
      match runtimeInputAdmissionReceiptMatches r item with
      | Ok true =>
          if (r_Sequence r =? i_Sequence item) && (r_EnqueuedAt r ==b i_EnqueuedAt item) then Ok (m, false)
          else Err ReceiptMismatch
      | _ => Err ReceiptMismatch
      end
  | None =>
      match runtimeInputAdmissionReceiptFor item with
      | Ok r => Ok (<[i_ID item := r]> m, true)
      | Err _ => Ok (m, false)
      end
  end.

Fixpoint recover_items (scope : RuntimeInputScope) (writer : nat) (covered : gset bytes) (items : list RuntimeItem)
    (m : gmap bytes runtimeInputAdmissionReceipt) (recovered : list RuntimeItem) (changed : bool)
    : result coordinator_error (list RuntimeItem * gmap bytes runtimeInputAdmissionReceipt * bool) :=
  match items with
  | [] => Ok (recovered, m, changed)
  | item :: rest =>
      let '(item, named) := normalizeRuntimeItemPayload (bind_writer writer item) in
      if negb (validateItem scope writer item) then Err (InvalidItem (i_ID item)) else
      match recover_receipt item m with
      | Err e => Err e
      | Ok (m, added) =>
          let changed := changed || named || added in
          if (i_State item ==b RuntimeItemRejected) || bool_decide (i_ID item ∈ covered)
             || (i_Kind item ==b RuntimeItemStop)
          then recover_items scope writer covered rest m recovered true
          else if is_processing item
          then recover_items scope writer covered rest m (recovered ++ [with_state RuntimeItemPending item]) true
          else recover_items scope writer covered rest m (recovered ++ [item]) changed
      end
  end.

(** [loadRuntimeInputEnvelope]: an absent ledger is an empty one. *)
Definition loadRuntimeInputEnvelope (l : option runtimeInputEnvelope) : result coordinator_error runtimeInputEnvelope :=
  match l with
  | None => Ok {| e_Version := runtimeInputEnvelopeVersion; e_Revision := 0; e_NextSequence := 0;
                  e_Items := []; e_AdmissionReceipts := [] |}
  | Some e =>
      if (e_Version e =? runtimeInputEnvelopeLegacyVersion) || (e_Version e =? runtimeInputEnvelopeVersion)
      then Ok (json_envelope e) else Err UnsupportedLedger
  end.

Definition new_coordinator (scope : RuntimeInputScope) (path : bytes) (writer : nat) (delivered : gset bytes)
    : RuntimeInputCoordinator :=
  {| c_scope := {| SessionID := TrimSpace (SessionID scope); ThreadID := TrimSpace (ThreadID scope);
                   AgentID := TrimSpace (AgentID scope) |};
     c_path := TrimSpace path; c_revision := 0; c_nextSequence := 0; c_items := []; c_admissionReceipts := ∅;
     c_delivered := delivered; c_promptWriter := writer; c_submitting := ∅; c_recoveryPending := false;
     c_notify := false; c_goalNotify := false |}.

Definition publish_recovered (c : RuntimeInputCoordinator) : RuntimeInputCoordinator :=
  let c := if hasTransportEligiblePending (c_items c) then signal c else c in
  if hasPendingGoalContinuation (c_items c) then signalGoal c else c.

(** The recovered state is written, or kept for [commitDeferredRecovery]. *)
Definition save_recovery (disk defer : bool) (changed : bool) (s : system) : result coordinator_error system :=
  if negb changed then Ok s else
  if defer then Ok (s <| coord ::= fun c => c <| c_recoveryPending := true |> |>) else
  match persistLocked disk (c_items (coord s)) (c_nextSequence (coord s)) (u64 (c_revision (coord s) + 1)) s with
  | None => Err PersistFailed
  | Some s => Ok (s <| coord ::= fun c => c <| c_revision := u64 (c_revision c + 1) |> |>)
  end.

(** [NewRuntimeInputCoordinator], on the ledger that it finds. *)
Definition NewRuntimeInputCoordinator (scope : RuntimeInputScope) (path : bytes) (writer : nat) (disk defer : bool)
    (lookup : option (list bytes -> option (gset bytes))) (delivered : gset bytes)
    (l : option runtimeInputEnvelope) : result coordinator_error system :=
  let c := new_coordinator scope path writer delivered in
  if c_path c ==b [] then Ok {| coord := c; ledger := l |} else
  match loadRuntimeInputEnvelope l with
  | Err e => Err e
  | Ok e =>
      match recover_receipts (c_scope c) (e_NextSequence e) (e_AdmissionReceipts e) ∅ ∅ with
      | Err e => Err e
      | Ok receipts =>
          match resolveDelivered lookup (map i_ID (e_Items e)) c with
          | Err e => Err e
          | Ok (c, covered) =>
              match recover_items (c_scope c) (c_promptWriter c) covered (e_Items e) receipts []
                      (negb (e_Version e =? runtimeInputEnvelopeVersion)) with
              | Err e => Err e
              | Ok (items, receipts, changed) =>
                  let c := c <| c_revision := e_Revision e |> <| c_nextSequence := e_NextSequence e |>
                             <| c_items := items |> <| c_admissionReceipts := receipts |> in
                  match save_recovery disk defer changed {| coord := c; ledger := l |} with
                  | Err e => Err e
                  | Ok s => Ok (s <| coord ::= publish_recovered |>)
                  end
              end
          end
      end
  end.

Definition commitDeferredRecovery (disk : bool) (s : system) : outcome unit :=
  if negb (c_recoveryPending (coord s)) then (s, Ok tt) else
  match persistLocked disk (c_items (coord s)) (c_nextSequence (coord s)) (u64 (c_revision (coord s) + 1)) s with
  | None => (s, Err PersistFailed)
  | Some s =>
      (s <| coord ::= fun c => c <| c_revision := u64 (c_revision c + 1) |> <| c_recoveryPending := false |> |>, Ok tt)
  end.
End coordinator.
