(* ===== verification/InputFacts.v ===== *)
(** * Facts on the runtime input coordinator

    The invariant of the coordinator of [InputCoordinator]: items have distinct
    identifiers and increasing sequence numbers and are valid, receipts agree
    with the items they acknowledge, and the ledger holds what is in memory. *)

From S2P Require Import Prelude GoStrings GoBase RuntimeItem InputCoordinator.

Open Scope Z_scope.

(** ** Sorting and lists *)

Section sorting.
Context {A : Type} (before : A -> A -> bool).

Lemma insert_sorted_perm x l : insert_sorted before x l ≡ₚ x :: l.
Proof.
  induction l as [|y l IH]; [done|]. cbn [insert_sorted]. destruct (before y x); [|done].
  rewrite IH. apply perm_swap.
Qed.

Lemma stable_sort_perm l : stable_sort before l ≡ₚ l.
Proof. induction l as [|x l IH]; [done|]. cbn [stable_sort]. by rewrite insert_sorted_perm, IH. Qed.

Context (before_trans : forall x y z, before y x = false -> before z y = false -> before z x = false).
Context (before_asym : forall x y, before x y = true -> before y x = false).

(** No element is followed by one that comes before it. *)
Abbreviation in_order := (StronglySorted (fun x y => before y x = false)).

Lemma insert_sorted_order x l : in_order l -> in_order (insert_sorted before x l).
Proof.
  induction 1 as [|y l Hl IH Hy]; [repeat constructor|]. cbn [insert_sorted]. destruct (before y x) eqn:E.
  - constructor; [done|]. rewrite insert_sorted_perm. constructor; [by apply before_asym|done].
  - constructor; [by constructor|]. constructor; [done|].
    eapply Forall_impl; [exact Hy|]. intros z Hz. by eapply before_trans.
Qed.

Lemma stable_sort_order l : in_order (stable_sort before l).
Proof. induction l as [|x l IH]; [constructor|]. by apply insert_sorted_order. Qed.
End sorting.

Lemma claimed_before_trans x y z :
  claimed_before y x = false -> claimed_before z y = false -> claimed_before z x = false.
Proof. unfold claimed_before. repeat (case_match; breflect); rewrite ?Z.eqb_eq, ?Z.eqb_neq, ?Z.ltb_ge in *; lia. Qed.

Lemma claimed_before_asym x y : claimed_before x y = true -> claimed_before y x = false.
Proof. unfold claimed_before. repeat (case_match; breflect); rewrite ?Z.eqb_eq, ?Z.eqb_neq, ?Z.ltb_lt, ?Z.ltb_ge in *; lia. Qed.

Lemma elem_of_indexed items n i : (n, i) ∈ indexed items <-> items !! n = Some i.
Proof.
  unfold indexed. rewrite elem_of_lookup_imap. split.
  - by intros (k & y & [= -> ->] & Hk).
  - intros Hn. by exists n, i.
Qed.

Lemma elem_of_filter_indexed f items n i :
  (n, i) ∈ List.filter (fun ni => f ni.2) (indexed items) <-> items !! n = Some i /\ f i = true.
Proof. rewrite list_elem_of_In, filter_In, <- list_elem_of_In, elem_of_indexed. done. Qed.

Lemma elem_of_filter_b {A} (f : A -> bool) l x : x ∈ List.filter f l <-> x ∈ l /\ f x = true.
Proof. by rewrite !list_elem_of_In, filter_In. Qed.

Lemma first_item_Some f items n i : first_item f items = Some (n, i) -> items !! n = Some i /\ f i = true.
Proof.
  unfold first_item. intros Hh. apply elem_of_filter_indexed.
  destruct (List.filter _ _); [done|]. injection Hh as ->. set_solver.
Qed.

Lemma first_item_None f items : first_item f items = None -> forall i, i ∈ items -> f i = false.
Proof.
  unfold first_item. intros Hh i [n Hn]%list_elem_of_lookup. destruct (f i) eqn:E; [|done].
  assert ((n, i) ∈ List.filter (fun ni => f ni.2) (indexed items)) as Hin by by apply elem_of_filter_indexed.
  destruct (List.filter _ _); [by apply elem_of_nil in Hin|done].
Qed.

Lemma best_of_elem better b l x : best_of better b l = Some x -> x ∈ l \/ b = Some x.
Proof.
  revert b. induction l as [|y l IH]; intros b; cbn [best_of]; [by right|].
  intros [Hx|Hx]%IH; [left; set_solver|]. destruct b as [z|]; [|left; injection Hx as ->; set_solver].
  destruct (better y.2 z.2); [left; injection Hx as ->; set_solver|by right].
Qed.

Lemma best_of_None better b l : best_of better b l = None -> l = [] /\ b = None.
Proof.
  revert b. induction l as [|y l IH]; intros b; cbn [best_of]; [done|].
  intros [_ Hb]%IH. destruct b as [z|]; [by destruct (better y.2 z.2)|done].
Qed.

(** The best element is beaten by no other. *)
Lemma best_of_best better b l x :
  (forall x y z, better y x = false -> better z y = false -> better z x = false) ->
  (forall x y, better x y = true -> better y x = false) ->
  best_of better b l = Some x ->
  (forall y, y ∈ l -> better y.2 x.2 = false) /\ (forall y, b = Some y -> better y.2 x.2 = false).
Proof.
  intros Htr Has. revert b. induction l as [|y l IH]; intros b; cbn [best_of].
  - intros ->. split; [by intros y ?%elem_of_nil|]. intros y [= ->].
    destruct (better y.2 y.2) eqn:E; [|done]. apply Has in E as E'. congruence.
  - intros Hx. apply IH in Hx as [Hl Hb].
    destruct b as [z|].
    + destruct (better y.2 z.2) eqn:E.
      * split; [intros w [-> | Hw]%elem_of_cons; [by apply Hb|by apply Hl]|].
        intros w [= <-]. eapply Htr; [by apply Hb|]. by apply Has.
      * split; [|done]. intros w [-> | Hw]%elem_of_cons; [|by apply Hl].
        eapply Htr; [by apply Hb|done].
    + split; [|done]. intros w [-> | Hw]%elem_of_cons; [by apply Hb|by apply Hl].
Qed.

(** ** Items under the operations *)

(** Everything of an item but its state and its rejection. *)
Definition frame (i : RuntimeItem) : RuntimeItem := i <| i_State := RuntimeItemPending |> <| i_Rejection := None |>.

(** The same item in another state. *)
Definition restated (i i' : RuntimeItem) : Prop :=
  frame i' = frame i /\ (state_ok i = true -> state_ok i' = true).

Lemma restated_refl i : restated i i.
Proof. done. Qed.

Lemma restated_trans i j k : restated i j -> restated j k -> restated i k.
Proof. intros [H1 H2] [H3 H4]. split; [congruence|auto]. Qed.

(** What becomes of the queue: items leave it or change their state. *)
Inductive evolves : list RuntimeItem -> list RuntimeItem -> Prop :=
| evolves_nil : evolves [] []
| evolves_drop i l l' : evolves l l' -> evolves (i :: l) l'
| evolves_keep i i' l l' : restated i i' -> evolves l l' -> evolves (i :: l) (i' :: l').
#[export] Hint Constructors evolves : yhc.

Lemma evolves_refl l : evolves l l.
Proof. induction l; eauto using restated_refl with yhc. Qed.

Lemma evolves_trans l1 l2 l3 : evolves l1 l2 -> evolves l2 l3 -> evolves l1 l3.
Proof.
  intros H12. revert l3. induction H12 as [|i l l' H IH|i i' l l' Hr H IH]; intros l3 H23; [done| |].
  - constructor. by apply IH.
  - inversion H23 as [|? ? ? H3|? i'' ? ? Hr' H3]; subst; [constructor; by apply IH|].
    constructor; [by eapply restated_trans|by apply IH].
Qed.

Lemma evolves_filter f l : evolves l (List.filter f l).
Proof. induction l as [|i l IH]; cbn; [constructor|]. destruct (f i); eauto using restated_refl with yhc. Qed.

Lemma evolves_delete n l : evolves l (delete n l).
Proof.
  revert n. induction l as [|i l IH]; intros [|n]; [apply evolves_nil..|apply evolves_drop, evolves_refl|].
  cbn. by apply evolves_keep; [apply restated_refl|].
Qed.

Lemma evolves_alter f n l i : l !! n = Some i -> restated i (f i) -> evolves l (alter f n l).
Proof.
  revert n. induction l as [|x l IH]; intros [|n] Hn Hr; try done.
  - injection Hn as ->. cbn. apply evolves_keep; [done|apply evolves_refl].
  - cbn. apply evolves_keep; [apply restated_refl|]. by apply IH.
Qed.

Definition live (i : RuntimeItem) : Prop := i_State i = RuntimeItemPending \/ i_State i = RuntimeItemProcessing.

Lemma restated_state st i :
  live i -> st = RuntimeItemPending \/ st = RuntimeItemProcessing -> restated i (with_state st i).
Proof.
  intros Hi Hst. split; [done|]. unfold state_ok. cbn.
  by destruct Hi as [-> | ->], Hst as [-> | ->].
Qed.

Lemma pending_live i : is_pending i = true -> live i.
Proof. intros Hp. left. by apply bool_decide_eq_true in Hp. Qed.
Lemma processing_live i : is_processing i = true -> live i.
Proof. intros Hp. right. by apply bool_decide_eq_true in Hp. Qed.

(** A property of the frames of items is kept. *)
Lemma evolves_Forall (P : RuntimeItem -> Prop) l l' :
  (forall i i', restated i i' -> P i -> P i') -> evolves l l' -> Forall P l -> Forall P l'.
Proof. intros HP. induction 1; intros HF; [done| |]; apply Forall_cons in HF as [? ?]; eauto with yhc. Qed.

Lemma frame_eq {B} (f : RuntimeItem -> B) i i' :
  (forall i, f (frame i) = f i) -> restated i i' -> f i' = f i.
Proof. intros Hf [He _]. by rewrite <- (Hf i'), He, Hf. Qed.

(** Sublists of the identifiers and of the sequence numbers. *)
Lemma evolves_sublist {B} (f : RuntimeItem -> B) l l' :
  (forall i, f (frame i) = f i) -> evolves l l' -> map f l' `sublist_of` map f l.
Proof.
  intros Hf. induction 1; cbn; [constructor|by constructor|].
  rewrite (frame_eq f i i') by done. by constructor.
Qed.

Lemma sublist_sorted (l l' : list Z) : l' `sublist_of` l -> StronglySorted Z.lt l -> StronglySorted Z.lt l'.
Proof.
  induction 1 as [|x l1 l2 Hs IH|x l1 l2 Hs IH]; intros Hl; [done| |]; apply StronglySorted_inv in Hl as [Hl Hx].
  - constructor; [by apply IH|]. rewrite Forall_forall in Hx |- *. intros y Hy. apply Hx.
    by eapply elem_of_sublist.
  - by apply IH.
Qed.

(** ** What is stored *)

Section stored.
Context `{ItemChecks}.

Lemma validateItem_frame scope w i : validateItem scope w i = state_ok i && validateItem scope w (frame i).
Proof.
  assert (payload_ok w (frame i) = payload_ok w i) as Hp by by destruct i.
  unfold validateItem. rewrite Hp. cbn [frame set i_Version i_State i_Priority i_Delivery i_Scope].
  change (state_ok (frame i)) with true. change (delivery_ok (frame i)) with (delivery_ok i).
  change (payloadCount (frame i)) with (payloadCount i).
  cbn. destruct (state_ok i); [by rewrite !andb_true_r|]. by rewrite !andb_false_r.
Qed.

Lemma valid_restated scope w i i' :
  restated i i' -> validateItem scope w i = true -> validateItem scope w i' = true.
Proof.
  intros [Hf Hs]. rewrite (validateItem_frame _ _ i), (validateItem_frame _ _ i'), Hf.
  intros [H1 H2]%andb_true_iff. by rewrite H2, Hs.
Qed.

(** How the ledger gives an item back to a coordinator with the writer [w]. *)
Definition reload (w : nat) (i : RuntimeItem) : RuntimeItem := bind_writer w (strip i).

Lemma strip_prompt_durable p : up_durablePrompt (strip_prompt p) = up_durablePrompt p.
Proof. by destruct p. Qed.

Lemma valid_reload scope w w' i : validateItem scope w i = true -> validateItem scope w' (reload w' i) = true.
Proof.
  destruct i as [v id k p d sc sq t st m o pv up am an ar pd gc stp rej].
  destruct up as [[ds pt im dp mi wr wi]|]; [|by destruct k].
  destruct dp as [r|]; [|by destruct k].
  unfold validateItem, reload, bind_writer, strip. cbn. intros Hv. apply andb_true_iff in Hv as [Hv1 Hv2].
  apply andb_true_iff. split; [exact Hv1|]. clear Hv1.
  assert (negb ((Some w' <>b Some w') || (id <>b id)) = true) as Hw by by rewrite !bool_decide_eq_true_2.
  destruct k; try exact Hv2; unfold payload_ok, runtimeItemPrompt, validateRuntimeItemUserImages in *; cbn in *;
    apply andb_true_iff in Hv2 as [_ Hi]; by rewrite Hw, Hi.
Qed.

(** No inline images. *)
Definition plain (i : RuntimeItem) : bool := match i_UserPrompt i with Some p => up_Images p ==b [] | None => true end.

Lemma normalize_valid scope w i :
  validateItem scope w i = true -> plain i = true -> normalizeRuntimeItemPayload i = (i, false).
Proof.
  unfold validateItem. intros [_ Hv]%andb_true_iff Hp.
  destruct i as [v id k p d sc sq t st m o pv up am an ar pd gc stp rej].
  unfold normalizeRuntimeItemPayload. cbn in *.
  assert (forall u : option RuntimeUserPrompt,
    match u with Some p => up_Images p ==b [] | None => true end = true ->
    drop_names <$> u = u /\ match u with
      | Some p => existsb (fun i => (img_Name i <>b []) || (img_Path i <>b [])) (up_Images p) | None => false end = false) as Hu.
  { intros [[ds pt im dp mi wr wi]|]; [|done]. cbn. intros ->%bool_decide_eq_true. done. }
  destruct (Hu up Hp) as [Hd Hn].
  destruct k; cbn -[fill_notification drop_names fmap]; try done.
  - change (is_user_kind _) with true. change (_ ==b RuntimeItemAgentNotification) with false.
    cbn -[drop_names fmap existsb set]. unfold set. cbn -[drop_names fmap existsb]. by rewrite Hn, Hd.
  - change (is_user_kind _) with true. change (_ ==b RuntimeItemAgentNotification) with false.
    cbn -[drop_names fmap existsb set]. unfold set. cbn -[drop_names fmap existsb]. by rewrite Hn, Hd.
  - destruct an as [n|]; [|done]. cbn in Hv. breflect.
    change (is_user_kind _) with false. change (_ ==b RuntimeItemAgentNotification) with true.
    cbn -[fill_notification set]. unfold set. cbn -[fill_notification].
    enough (fill_notification id n = n) as -> by done. unfold fill_notification.
    destruct (Z.eqb_spec (an_ReceiptVersion n) AgentCompletionReceiptVersion) as [E|]; [|done].
    rewrite E. change (AgentCompletionReceiptVersion =? 0) with false. cbn [negb].
    rewrite H6. apply Z.ltb_lt in H2. destruct (Z.leb_spec (an_Generation n) 0); [lia|]. by rewrite H1.
Qed.
End stored.
