(* ===== verification/InputInvariant.v ===== *)
(** * The invariant of the runtime input coordinator

    Kept by every operation of [InputCoordinator], whether or not the writes of
    the ledger succeed. *)

From S2P Require Import Prelude GoStrings GoBase RuntimeItem InputCoordinator InputFacts.

Open Scope Z_scope.

Section invariant.
Context `{ItemChecks} (clock : Z -> Z) (materialize : prompt_record -> option bytes).

(** ** Well-formed queues *)

Record Wf (scope : RuntimeInputScope) (w : nat) (items : list RuntimeItem) (next : Z) : Prop := {
  wf_ids : NoDup (map i_ID items);
  wf_seqs : StronglySorted Z.lt (map i_Sequence items);
  wf_next : 0 <= next < 2 ^ 64;
  wf_items : Forall (fun i => validateItem scope w i = true /\ plain i = true /\ 0 < i_Sequence i <= next /\
                              TrimSpace (i_ID i) = i_ID i /\ i_ID i <> [] /\ i_EnqueuedAt i <> None) items
}.

(** Receipts have their own identifiers and sequence numbers. *)
Record Receipts (scope : RuntimeInputScope) (items : list RuntimeItem)
    (receipts : gmap bytes runtimeInputAdmissionReceipt) (next : Z) : Prop := {
  rc_ok : forall id r, receipts !! id = Some r ->
    r_ID r = id /\ validateRuntimeInputAdmissionReceipt r = true /\ r_Scope r = scope /\ r_Sequence r <= next;
  rc_seq : forall id1 id2 r1 r2, receipts !! id1 = Some r1 -> receipts !! id2 = Some r2 ->
    r_Sequence r1 = r_Sequence r2 -> id1 = id2;
  rc_item : forall id r i, receipts !! id = Some r -> i ∈ items -> r_Sequence r = i_Sequence i -> i_ID i = id
}.

(** A receipt made for an item. *)
Definition acknowledges (r : runtimeInputAdmissionReceipt) (i : RuntimeItem) : Prop :=
  r_Sequence r = i_Sequence i /\ r_EnqueuedAt r = i_EnqueuedAt i /\ r_Kind r = i_Kind i /\
  runtimeInputAdmissionDigest (strip i) = Ok (r_PayloadDigest r).

Definition Matched (items : list RuntimeItem) (receipts : gmap bytes runtimeInputAdmissionReceipt) : Prop :=
  forall i r, i ∈ items -> receipts !! i_ID i = Some r -> acknowledges r i.

Lemma Wf_evolves scope w items items' next : evolves items items' -> Wf scope w items next -> Wf scope w items' next.
Proof.
  intros He [H1 H2 H3 H4]. split; [| |done|].
  - eapply sublist_NoDup; [exact H1|]. by apply evolves_sublist.
  - eapply sublist_sorted; [|exact H2]. by apply evolves_sublist.
  - eapply evolves_Forall; [|exact He|exact H4]. intros i i' Hr (Hv & Hp & Hs).
    split; [by eapply valid_restated|]. rewrite (frame_eq plain i i'), (frame_eq i_Sequence i i'),
      (frame_eq i_ID i i'), (frame_eq i_EnqueuedAt i i') by done. done.
Qed.

Lemma evolves_elem l l' i' : evolves l l' -> i' ∈ l' -> exists i, i ∈ l /\ restated i i'.
Proof.
  induction 1 as [|i l l' He IH|i j l l' Hr He IH]; [by intros ?%elem_of_nil| |].
  - intros (x & Hx & ?)%IH. exists x. split; [set_solver|done].
  - intros [-> | Hi]%elem_of_cons; [exists i; split; [set_solver|done]|].
    destruct (IH Hi) as (x & Hx & ?). exists x. split; [set_solver|done].
Qed.

Lemma Receipts_evolves scope items items' receipts next :
  evolves items items' -> Receipts scope items receipts next -> Receipts scope items' receipts next.
Proof.
  intros He [H1 H2 H3]. split; [done|done|]. intros id r i' Hr Hi Hs.
  destruct (evolves_elem _ _ _ He Hi) as (i & Hin & Hre).
  rewrite (frame_eq i_ID i i') by done. apply (H3 id r i); [done..|].
  by rewrite <- (frame_eq i_Sequence i i').
Qed.

Lemma digest_frame i : runtimeInputAdmissionDigest (strip (frame i)) = runtimeInputAdmissionDigest (strip i).
Proof. by destruct i. Qed.

Lemma Matched_evolves items items' receipts : evolves items items' -> Matched items receipts -> Matched items' receipts.
Proof.
  intros He Hm i' r Hi Hr. destruct (evolves_elem _ _ _ He Hi) as (i & Hin & Hre).
  rewrite (frame_eq i_ID i i') in Hr by done. destruct (Hm i r Hin Hr) as (H1 & H2 & H3 & H4).
  unfold acknowledges. rewrite (frame_eq i_Sequence i i'), (frame_eq i_EnqueuedAt i i'), (frame_eq i_Kind i i') by done.
  by rewrite (frame_eq (fun i => runtimeInputAdmissionDigest (strip i)) i i') by (done || apply digest_frame).
Qed.

(** ** Enqueueing *)

Lemma runtimeItemByID_None items id : runtimeItemByID items id = None -> id ∉ map i_ID items.
Proof.
  induction items as [|i items IH]; cbn; [intros _; apply not_elem_of_nil|]. case_bool_decide; [done|].
  intros Hn. apply not_elem_of_cons. split; [done|by apply IH].
Qed.

Lemma runtimeItemByID_Some items id i : runtimeItemByID items id = Some i -> i ∈ items /\ i_ID i = id.
Proof.
  induction items as [|x items IH]; cbn; [done|]. case_bool_decide as Hx.
  - intros [= ->]. split; [set_solver|done].
  - intros [? ?]%IH. split; [set_solver|done].
Qed.

Lemma normalize_ID i : i_ID (normalizeRuntimeItemPayload i).1 = i_ID i.
Proof. unfold normalizeRuntimeItemPayload. cbn [fst]. by repeat case_match. Qed.

Lemma sorted_snoc (l : list Z) n : StronglySorted Z.lt l -> Forall (fun x => x < n) l -> StronglySorted Z.lt (l ++ [n]).
Proof.
  induction 1 as [|x l Hl IH Hx]; intros Hn; cbn; [repeat constructor|].
  apply Forall_cons in Hn as [Hxn Hn]. constructor; [by apply IH|]. apply Forall_app. split; [done|by constructor].
Qed.

(** Appending a valid item with the next sequence number. *)
Lemma Wf_snoc scope w items next i :
  Wf scope w items next -> next + 1 < 2 ^ 64 -> i_Sequence i = next + 1 -> i_ID i ∉ map i_ID items ->
  validateItem scope w i = true -> plain i = true -> TrimSpace (i_ID i) = i_ID i -> i_ID i <> [] ->
  i_EnqueuedAt i <> None -> Wf scope w (items ++ [i]) (next + 1).
Proof.
  intros [H1 H2 H3 H4] Hn Hs Hid Hv Hp Ht Hne He. split.
  - rewrite map_app. apply NoDup_app. split; [done|]. cbn. split; [|apply NoDup_singleton].
    intros x Hx ->%list_elem_of_singleton. done.
  - rewrite map_app. cbn. apply sorted_snoc; [done|]. rewrite Hs. apply Forall_map.
    eapply Forall_impl; [exact H4|]. intros x (_ & _ & Hb & _). cbn. lia.
  - lia.
  - apply Forall_app. split.
    + eapply Forall_impl; [exact H4|]. intros x (Ha & Hb & Hc & Hd & Hf & Hg). split_and!; try done; lia.
    + apply Forall_singleton. rewrite Hs. split_and!; try done; lia.
Qed.

(** The fields that an enqueued item gets do not touch its identity. *)
Lemma enqueue_one_ok bk mp ra c item b b' :
  enqueue_one clock bk mp ra c item b = Ok b' ->
  exists i, i_ID i = TrimSpace (i_ID item) /\ i_ID i <> [] /\ plain i = true /\
    enqueue_prepared clock bk mp ra c i b = Ok b'.
Proof.
  unfold enqueue_one. cbv zeta. case_bool_decide as Hid; [done|].
  set (i := (normalizeRuntimeItemPayload _).1).
  assert (i_ID i = TrimSpace (i_ID item)) as Hi by (unfold i; by rewrite normalize_ID).
  assert (i_ID (prepare_item c i) = i_ID i /\ plain (prepare_item c i) = plain i) as [Hp1 Hp2] by done.
  destruct (match i_UserPrompt i with Some p => up_Images p <>b [] | None => false end) eqn:E; [done|].
  intros Hb. exists (prepare_item c i). rewrite Hp1, Hp2, Hi. split; [done|]. split; [exact Hid|]. split; [|done].
  unfold plain. destruct (i_UserPrompt i); [by apply negb_false_iff in E|done].
Qed.

(** What an enqueued item does to the batch. *)
Inductive enqueued (ra : bool) (c : RuntimeInputCoordinator) (id : bytes) (b b' : batch) : Prop :=
| Enq_known : b_items b' = b_items b -> b_receipts b' = b_receipts b -> b_next b' = b_next b ->
    b_changed b' = b_changed b -> enqueued ra c id b b'
| Enq_receipt i r : ra = true -> i ∈ b_items b -> i_ID i = id -> b_receipts b !! id = None ->
    runtimeInputAdmissionReceiptFor i = Ok r -> b_items b' = b_items b ->
    b_receipts b' = <[id := r]> (b_receipts b) -> b_next b' = b_next b -> b_changed b' = true -> enqueued ra c id b b'
| Enq_new i : i_ID i = id -> id ∉ map i_ID (b_items b) -> id ∉ c_delivered c -> i_State i = RuntimeItemPending ->
    (ra = true -> b_receipts b !! id = None) -> plain i = true ->
    i_Sequence i = u64 (b_next b + 1) -> i_EnqueuedAt i <> None ->
    validateItem (c_scope c) (c_promptWriter c) i = true ->
    b_items b' = b_items b ++ [i] -> b_next b' = u64 (b_next b + 1) -> b_changed b' = true ->
    (if ra then exists r, runtimeInputAdmissionReceiptFor i = Ok r /\ b_receipts b' = <[id := r]> (b_receipts b)
     else b_receipts b' = b_receipts b) -> enqueued ra c id b b'.

Lemma enqueue_acknowledged_known r c i b b' : enqueue_acknowledged r c i b = Ok b' -> exists x, b' = accept x b.
Proof.
  unfold enqueue_acknowledged. destruct (runtimeInputAdmissionReceiptMatches r i) as [[|]|]; try done.
  destruct (runtimeItemByID _ _) as [e|].
  - destruct (same_payload e i); [|done]. intros [= <-]. by eexists.
  - cbv zeta. destruct (validateItem _ _ _); [|done]. intros [= <-]. by eexists.
Qed.

Lemma enqueue_new_new bk mp ra c i b b' :
  i_ID i ∉ map i_ID (b_items b) -> i_ID i ∉ c_delivered c -> plain i = true ->
  (ra = true -> b_receipts b !! i_ID i = None) ->
  enqueue_new clock bk mp ra c i b = Ok b' -> enqueued ra c (i_ID i) b b'.
Proof.
  intros Hid Hd Hp Hr. unfold enqueue_new. cbv zeta. destruct (_ && _ && _); [done|].
  set (n := i <| i_Sequence := _ |> <| i_EnqueuedAt ::= _ |> <| i_State := _ |>).
  destruct (validateItem (c_scope c) (c_promptWriter c) n) eqn:Ev; cbn [negb]; [|done].
  assert (i_EnqueuedAt n <> None) as Ht by (unfold n; cbn; by destruct (i_EnqueuedAt i)).
  destruct ra.
  - destruct (runtimeInputAdmissionReceiptFor n) as [r|e] eqn:Er; [|done]. intros [= <-].
    by apply (Enq_new _ _ _ _ _ n); eauto.
  - intros [= <-]. by eapply (Enq_new _ _ _ _ _ n).
Qed.

Lemma enqueue_prepared_cases bk mp ra c i b b' :
  plain i = true -> enqueue_prepared clock bk mp ra c i b = Ok b' -> enqueued ra c (i_ID i) b b'.
Proof.
  intros Hp. unfold enqueue_prepared. set (known := if ra then b_receipts b !! i_ID i else None).
  destruct known as [r|] eqn:Ek.
  { intros [x ->]%enqueue_acknowledged_known. by apply Enq_known. }
  assert (ra = true -> b_receipts b !! i_ID i = None) as Hr by (intros ->; exact Ek).
  case_bool_decide as Hd.
  { destruct ra; [done|]. destruct (validateRuntimeItemUserImages i); [|done]. intros [= <-]. by apply Enq_known. }
  destruct (runtimeItemByID (b_items b) (i_ID i)) as [e|] eqn:Ee.
  - apply runtimeItemByID_Some in Ee as [Hin Hid]. destruct (same_payload e i); cbn [negb]; [|done].
    destruct ra; [|intros [= <-]; by apply Enq_known].
    destruct (runtimeInputAdmissionReceiptFor e) as [r|] eqn:Er; [|done]. intros [= <-].
    by apply (Enq_receipt _ _ _ _ _ e r).
  - apply runtimeItemByID_None in Ee. by apply enqueue_new_new.
Qed.

Lemma receipt_for_acknowledges i r :
  runtimeInputAdmissionReceiptFor i = Ok r ->
  r_ID r = TrimSpace (i_ID i) /\ validateRuntimeInputAdmissionReceipt r = true /\ r_Scope r = i_Scope i /\ acknowledges r i.
Proof.
  unfold runtimeInputAdmissionReceiptFor, acknowledges.
  assert (forall d, runtimeInputAdmissionDigest i = Ok d -> runtimeInputAdmissionDigest (strip i) = Ok d) as Hd.
  { destruct i as [v id k p d sc sq t st m o pv up am an ar pd gc stp rej].
    destruct up as [[ds pt im dp mi wr wi]|]; [|by destruct k]. destruct k; try done.
    unfold runtimeInputAdmissionDigest, strip. cbn. destruct mi; [by rewrite orb_true_r|]. done. }
  destruct (runtimeInputAdmissionDigest i) as [d|] eqn:E; [|done]. specialize (Hd d eq_refl).
  destruct (_ || _); [done|]. cbv zeta. destruct (validateRuntimeInputAdmissionReceipt _) eqn:Ev; [|done].
  intros [= <-]. split_and!; try done.
Qed.

Lemma valid_scope scope w i : validateItem scope w i = true -> i_Scope i = scope.
Proof.
  unfold validateItem. intros Hv. breflect. destruct (i_Scope i), scope. cbn in *. by subst.
Qed.

(** The invariant of a batch. *)
Definition BWf (c : RuntimeInputCoordinator) (b : batch) : Prop :=
  Wf (c_scope c) (c_promptWriter c) (b_items b) (b_next b) /\
  Receipts (c_scope c) (b_items b) (b_receipts b) (b_next b).

Lemma sorted_NoDup (l : list Z) : StronglySorted Z.lt l -> NoDup l.
Proof.
  induction 1 as [|x l Hl IH Hx]; constructor; [|done]. rewrite Forall_forall in Hx. intros Hin.
  specialize (Hx _ Hin). lia.
Qed.

(** Two elements with the same value of an injective field are the same. *)
Lemma same_by {B} (f : RuntimeItem -> B) l i j : NoDup (map f l) -> i ∈ l -> j ∈ l -> f i = f j -> i = j.
Proof.
  intros Hnd [n1 Hn1]%list_elem_of_lookup [n2 Hn2]%list_elem_of_lookup Heq.
  assert (n1 = n2) as ->; [|congruence]. eapply NoDup_lookup; [exact Hnd| |]; rewrite list_lookup_fmap.
  - by rewrite Hn1.
  - rewrite Hn2. cbn. by rewrite Heq.
Qed.

Lemma Receipts_insert scope items receipts next id r :
  Receipts scope items receipts next ->
  r_ID r = id -> validateRuntimeInputAdmissionReceipt r = true -> r_Scope r = scope -> r_Sequence r <= next ->
  (forall id' r', receipts !! id' = Some r' -> r_Sequence r' = r_Sequence r -> id' = id) ->
  (forall j, j ∈ items -> i_Sequence j = r_Sequence r -> i_ID j = id) ->
  Receipts scope items (<[id := r]> receipts) next.
Proof.
  intros [R1 R2 R3] H1 H2 H3 H4 Hr Hj. split.
  - intros id' r' [[<- <-]|[_ Hr']]%lookup_insert_Some; [done|by apply R1].
  - intros id1 id2 r1 r2 [[<- <-]|[_ E1]]%lookup_insert_Some [[<- <-]|[_ E2]]%lookup_insert_Some Heq; [done| | |by eapply R2].
    + symmetry. by apply (Hr id2 r2).
    + by apply (Hr id1 r1).
  - intros id' r' j [[<- <-]|[_ Hr']]%lookup_insert_Some Hin Heq; [by apply Hj|by eapply R3].
Qed.

Lemma Receipts_snoc scope items receipts next i :
  Receipts scope items receipts next -> i_Sequence i = next + 1 -> Receipts scope (items ++ [i]) receipts (next + 1).
Proof.
  intros [R1 R2 R3] Hs. split; [|done|].
  - intros id r Hr. destruct (R1 id r Hr) as (? & ? & ? & ?). split_and!; try done; lia.
  - intros id r j Hr [Hj | ->%list_elem_of_singleton]%elem_of_app Heq; [by eapply R3|].
    destruct (R1 id r Hr) as (_ & _ & _ & ?). lia.
Qed.

Lemma enqueued_wf ra c id b b' :
  TrimSpace id = id -> id <> [] -> b_next b + 1 < 2 ^ 64 -> BWf c b -> enqueued ra c id b b' ->
  BWf c b' /\ b_next b <= b_next b' <= b_next b + 1.
Proof.
  intros Ht Hne Hn [Hw Hr].
  destruct 1 as [Hi Hrc Hnx _|i r _ Hin Hid Hnone Hrf Hi Hrc Hnx _|i Hid Hnew Hdel Hst Hno Hp Hsq Hen Hv Hi Hnx _ Hrc].
  - unfold BWf. rewrite Hi, Hrc, Hnx. split; [done|lia].
  - destruct (receipt_for_acknowledges _ _ Hrf) as (Ha & Hb & Hc & (Hs & _)).
    unfold BWf. rewrite Hi, Hrc, Hnx. split; [split; [done|]|lia].
    pose proof (wf_items _ _ _ _ Hw) as W4. rewrite Forall_forall in W4.
    destruct (W4 i Hin) as (Hv & _ & Hsq & Hti & _). subst id. apply Receipts_insert; try done.
    + congruence.
    + rewrite Hc. by eapply valid_scope.
    + lia.
    + intros id' r' Hr' Heq. symmetry. apply (rc_item _ _ _ _ Hr id' r' i Hr' Hin). congruence.
    + intros j Hj Heq. f_equal. eapply (same_by i_Sequence); [apply sorted_NoDup, (wf_seqs _ _ _ _ Hw)|done..|congruence].
  - assert (u64 (b_next b + 1) = b_next b + 1) as Hu.
    { destruct Hw as [_ _ W3 _]. unfold u64. rewrite Z.mod_small; lia. }
    rewrite Hu in *. unfold BWf. rewrite Hi, Hnx. split; [split|lia]; [subst id; by apply Wf_snoc|].
    pose proof (Receipts_snoc _ _ _ _ i Hr Hsq) as Hsn.
    destruct ra; [destruct Hrc as (r & Hrf & Hrc)|]; rewrite Hrc; [|done].
    destruct (receipt_for_acknowledges _ _ Hrf) as (Ha & Hb & Hc & (Hs & _)).
    apply Receipts_insert; try done; [congruence|rewrite Hc; by eapply valid_scope|lia| |].
    + intros id' r' Hr' Heq. destruct (rc_ok _ _ _ _ Hr id' r' Hr') as (_ & _ & _ & ?). lia.
    + intros j [Hj | ->%list_elem_of_singleton]%elem_of_app Heq; [|done].
      pose proof (wf_items _ _ _ _ Hw) as W4. rewrite Forall_forall in W4. destruct (W4 j Hj) as (_ & _ & ? & _). lia.
Qed.

(** Receipts stay in agreement unless an item is enqueued anew, without asking
    for a receipt, under an identifier that was acknowledged before. *)
Definition no_reuse (ra : bool) (c : RuntimeInputCoordinator) (items : list RuntimeItem) : Prop :=
  ra = true \/
  Forall (fun i => is_Some (c_admissionReceipts c !! TrimSpace (i_ID i)) ->
                   TrimSpace (i_ID i) ∈ map i_ID (c_items c) \/ TrimSpace (i_ID i) ∈ c_delivered c) items.

Lemma enqueued_matched ra c id b b' :
  (ra = true \/ (is_Some (b_receipts b !! id) -> id ∈ map i_ID (b_items b) \/ id ∈ c_delivered c)) ->
  Matched (b_items b) (b_receipts b) -> NoDup (map i_ID (b_items b)) -> enqueued ra c id b b' ->
  Matched (b_items b') (b_receipts b').
Proof.
  intros Hre Hm Hnd.
  destruct 1 as [Hi Hrc Hnx _|i r _ Hin Hid Hnone Hrf Hi Hrc Hnx _|i Hid Hnew Hdel Hst Hno Hp Hsq Hen Hv Hi Hnx _ Hrc].
  - by rewrite Hi, Hrc.
  - rewrite Hi, Hrc. intros j rj Hj [[Heq <-]|[Hneq Hr']]%lookup_insert_Some; [|by apply Hm].
    assert (j = i) as ->; [|by apply receipt_for_acknowledges].
    eapply (same_by i_ID); [exact Hnd|done..|congruence].
  - rewrite Hi. intros j rj [Hj | ->%list_elem_of_singleton]%elem_of_app Hr'.
    + destruct ra; [destruct Hrc as (r & Hrf & Hrc)|]; rewrite Hrc in Hr'; [|by apply Hm].
      apply lookup_insert_Some in Hr' as [[Heq _]|[_ Hr']]; [|by apply Hm].
      exfalso. apply Hnew. rewrite Heq. apply list_elem_of_fmap. by exists j.
    + rewrite Hid in Hr'. destruct ra; [destruct Hrc as (r & Hrf & Hrc)|]; rewrite Hrc in Hr'.
      * rewrite lookup_insert_eq in Hr'. injection Hr' as <-. by apply receipt_for_acknowledges.
      * destruct Hre as [|Hre]; [done|]. destruct (Hre (mk_is_Some _ _ Hr')) as [|]; done.
Qed.

(** A batch leaves the queue a longer one with its receipts. *)
Definition extends (c : RuntimeInputCoordinator) (ra : bool) (b : batch) : Prop :=
  map i_ID (c_items c) ⊆ map i_ID (b_items b) /\ (ra = false -> b_receipts b = c_admissionReceipts c).

Lemma enqueued_extends ra c id b b' : enqueued ra c id b b' -> extends c ra b -> extends c ra b'.
Proof.
  destruct 1 as [Hi Hrc _ _|i r Hra _ _ _ _ Hi _ _ _|i Hid Hnew Hdel Hst Hno Hp Hsq Hen Hv Hi Hnx _ Hrc];
    intros [H1 H2]; unfold extends; rewrite Hi.
  - by rewrite Hrc.
  - split; [done|]. by rewrite Hra.
  - split; [rewrite map_app; set_solver|]. intros ->. by rewrite Hrc, H2.
Qed.

Lemma enqueued_unchanged ra c id b b' :
  enqueued ra c id b b' -> b_changed b' = false ->
  b_items b' = b_items b /\ b_receipts b' = b_receipts b /\ b_next b' = b_next b /\ b_changed b = false.
Proof. destruct 1; intros; split_and!; congruence. Qed.

Lemma enqueue_all_inv bk mp ra c items b b' :
  enqueue_all clock bk mp ra c items b = Ok b' -> b_next b + Z.of_nat (length items) < 2 ^ 64 -> BWf c b ->
  extends c ra b ->
  BWf c b' /\ b_next b <= b_next b' <= b_next b + Z.of_nat (length items) /\ extends c ra b' /\
  (no_reuse ra c items -> Matched (b_items b) (b_receipts b) -> Matched (b_items b') (b_receipts b')) /\
  (b_changed b' = false ->
   b_items b' = b_items b /\ b_receipts b' = b_receipts b /\ b_next b' = b_next b /\ b_changed b = false).
Proof.
  revert b. induction items as [|item items IH]; intros b Hrun Hn Hw He; cbn [enqueue_all length] in *.
  { injection Hrun as <-. split_and!; try done; lia. }
  destruct (enqueue_one clock bk mp ra c item b) as [b1|] eqn:E; [|done].
  apply enqueue_one_ok in E as (i & Hid & Hne & Hp & Hprep). apply enqueue_prepared_cases in Hprep; [|done].
  rewrite Hid in *. destruct (enqueued_wf ra c (TrimSpace (i_ID item)) b b1) as [Hw1 Hn1]; try done; [apply TrimSpace_idemp|lia|].
  destruct (IH b1 Hrun) as (H1 & H2 & H3 & H4 & H5); [lia|done|by eapply enqueued_extends|].
  split; [done|]. split; [lia|]. split; [done|]. split.
  - intros Hre Hm. apply H4.
    + destruct Hre as [Hre|Hre]; [by left|right]. by apply Forall_cons in Hre as [_ ?].
    + eapply enqueued_matched; [|exact Hm|apply (wf_ids _ _ _ _ (proj1 Hw))|exact Hprep].
      destruct Hre as [Hre|Hre]; [by left|]. destruct ra; [by left|right].
      apply Forall_cons in Hre as [Hre _]. destruct He as [He1 He2]. rewrite He2 by done. intros Hs.
      destruct (Hre Hs) as [Hin|Hin]; [left; by apply He1|by right].
  - intros Hch. destruct (H5 Hch) as (E1 & E2 & E3 & E4).
    destruct (enqueued_unchanged _ _ _ _ _ Hprep E4) as (F1 & F2 & F3 & F4). split_and!; congruence.
Qed.

(** ** Effects *)

(** What the ledger holds when it is up to date. *)
Definition written (c : RuntimeInputCoordinator) : runtimeInputEnvelope := {|
  e_Version := runtimeInputEnvelopeVersion; e_Revision := c_revision c; e_NextSequence := c_nextSequence c;
  e_Items := strip <$> c_items c; e_AdmissionReceipts := orderedRuntimeInputAdmissionReceipts (c_admissionReceipts c)
|}.

(** The part of the state that the ledger does not hold changes freely. *)
Definition same_owner (c c' : RuntimeInputCoordinator) : Prop :=
  c_scope c' = c_scope c /\ c_path c' = c_path c /\ c_promptWriter c' = c_promptWriter c.
Definition same_core (c c' : RuntimeInputCoordinator) : Prop :=
  same_owner c c' /\ c_revision c' = c_revision c /\ c_nextSequence c' = c_nextSequence c /\
  c_items c' = c_items c /\ c_admissionReceipts c' = c_admissionReceipts c /\
  c_recoveryPending c' = c_recoveryPending c.

Lemma same_core_refl c : same_core c c.
Proof. done. Qed.

(** The ledger after a successful write. *)
Definition stored_in (s s' : system) : Prop :=
  ledger s' = if c_path (coord s) ==b [] then ledger s else Some (written (coord s')).

Inductive effect (e : option (bool * list RuntimeItem)) (s s' : system) : Prop :=
| Eff_quiet : same_core (coord s) (coord s') -> ledger s' = ledger s -> effect e s s'
| Eff_moves : same_owner (coord s) (coord s') -> evolves (c_items (coord s)) (c_items (coord s')) ->
    c_nextSequence (coord s') = c_nextSequence (coord s) ->
    c_admissionReceipts (coord s') = c_admissionReceipts (coord s) -> stored_in s s' -> effect e s s'
| Eff_enqueue bk mp ra items b : e = Some (ra, items) -> same_owner (coord s) (coord s') ->
    enqueue_all clock bk mp ra (coord s) items
      {| b_items := c_items (coord s); b_receipts := c_admissionReceipts (coord s);
         b_next := c_nextSequence (coord s); b_accepted := []; b_changed := false |} = Ok b ->
    c_items (coord s') = b_items b -> c_admissionReceipts (coord s') = b_receipts b ->
    c_nextSequence (coord s') = b_next b -> stored_in s s' -> effect e s s'.

Lemma effect_refl e s : effect e s s.
Proof. by apply Eff_quiet. Qed.

Lemma commit_effect {A} e disk candidate after (a : A) s :
  evolves (c_items (coord s)) candidate -> (forall c, same_core c (after c)) ->
  effect e s (commit disk candidate after a s).1.
Proof.
  intros He Ha. unfold commit, persistLocked, persistStateLocked. cbv zeta.
  assert (forall s', coord s' = coord s -> ledger s' = (if c_path (coord s) ==b [] then ledger s else
            Some (written ((coord s) <| c_items := candidate |> <| c_revision := u64 (c_revision (coord s) + 1) |>))) ->
          effect e s (s' <| coord ::= fun c => after (c <| c_items := candidate |> <| c_revision := u64 (c_revision (coord s) + 1) |>) |>)) as Hs.
  { intros s' Hc Hl. destruct s' as [c' l']. cbn in Hc, Hl. subst c' l'.
    destruct (Ha ((coord s) <| c_items := candidate |> <| c_revision := u64 (c_revision (coord s) + 1) |>))
      as ((E1 & E2 & E3) & E4 & E5 & E6 & E7 & _).
    apply Eff_moves; cbn [coord set].
    - done.
    - by rewrite E6.
    - done.
    - done.
    - unfold stored_in, written. cbn [coord ledger set]. by rewrite E4, E5, E6, E7. }
  case_bool_decide as Hp; [by apply Hs|].
  destruct (forallb marshals candidate && disk); [|apply effect_refl].
  by apply Hs.
Qed.

Lemma claim_at_effect e disk chosen s :
  (forall n i, chosen = Some (n, i) -> c_items (coord s) !! n = Some i /\ is_pending i = true) ->
  effect e s (claim_at materialize disk chosen s).1.
Proof.
  intros Hc. unfold claim_at. destruct chosen as [[n i]|]; [|apply effect_refl].
  destruct (Hc n i eq_refl) as [Hn Hp]. destruct (materializeRuntimePrompt _ _); [|apply effect_refl].
  apply commit_effect; [|apply same_core_refl]. eapply evolves_alter; [exact Hn|].
  apply restated_state; [by apply pending_live|by right].
Qed.

(** Every claimed index names a live item. *)
Lemma claim_all_evolves l candidate claimed candidate' claimed' :
  (forall n i, (n, i) ∈ l -> exists x, candidate !! n = Some x /\ live x) ->
  claim_all materialize l candidate claimed = Ok (candidate', claimed') -> evolves candidate candidate'.
Proof.
  revert candidate claimed. induction l as [|[n i] l IH]; intros candidate claimed Hl; cbn [claim_all].
  { intros [= <- _]. apply evolves_refl. }
  destruct (materializeRuntimePrompt _ _) as [m|]; [|done]. intros Hrun.
  destruct (Hl n i) as (x & Hx & Hlive); [set_solver|].
  eapply evolves_trans; [eapply evolves_alter; [exact Hx|apply restated_state; [done|by right]]|].
  eapply IH; [|exact Hrun]. intros k j Hk. destruct (Hl k j) as (y & Hy & Hly); [set_solver|].
  unfold set_state. destruct (decide (n = k)) as [->|Hne].
  - exists (with_state RuntimeItemProcessing y). rewrite list_lookup_alter_eq, Hy. split; [done|by right].
  - exists y. by rewrite list_lookup_alter_ne.
Qed.

Lemma at_safe_point_pending scope iu al i : at_safe_point scope iu al i = true -> is_pending i = true.
Proof. unfold at_safe_point. intros Hi. by repeat (apply andb_true_iff in Hi as [Hi _]). Qed.

Lemma when_idle_pending scope i : when_idle scope i = true -> is_pending i = true.
Proof. unfold when_idle. intros Hi. by repeat (apply andb_true_iff in Hi as [Hi _]). Qed.

Lemma ClaimSafePoint_effect e disk scope iu al s : effect e s (ClaimSafePoint materialize disk scope iu al s).1.
Proof.
  unfold ClaimSafePoint. cbv zeta. case_bool_decide; [apply effect_refl|].
  destruct (claim_all _ _ _ _) as [[candidate claimed]|] eqn:E; [|apply effect_refl].
  apply commit_effect; [|apply same_core_refl]. eapply claim_all_evolves; [|exact E].
  intros n i Hni. rewrite stable_sort_perm in Hni. apply elem_of_filter_indexed in Hni as [Hn Hs].
  exists i. split; [done|]. apply pending_live. by eapply at_safe_point_pending.
Qed.

Lemma ClaimNextIdle_effect e disk scope s : effect e s (ClaimNextIdle materialize disk scope s).1.
Proof.
  apply claim_at_effect. intros n i [Hb|]%best_of_elem; [|done].
  apply elem_of_filter_indexed in Hb as [Hn Hi]. split; [done|]. by eapply when_idle_pending.
Qed.

Lemma goal_item_state st id scope i : goal_item st id scope i = true -> i_State i = st.
Proof. unfold goal_item. intros Hi. by breflect. Qed.

Lemma claimGoalContinuation_effect e disk id scope s : effect e s (claimGoalContinuation materialize disk id scope s).1.
Proof.
  unfold claimGoalContinuation. cbv zeta. destruct (blank id); [apply effect_refl|].
  destruct (existsb _ _); [apply effect_refl|]. apply claim_at_effect. intros n i Hl.
  apply last_Some_elem_of in Hl. apply elem_of_filter_indexed in Hl as [Hn Hi]. split; [done|].
  apply bool_decide_eq_true. by eapply goal_item_state.
Qed.

Lemma claimByID_effect e disk id s : effect e s (claimByID materialize disk id s).1.
Proof.
  unfold claimByID. destruct (blank id); [apply effect_refl|]. apply claim_at_effect.
  intros n i [Hn Hi]%first_item_Some. split; [done|]. by apply andb_true_iff in Hi as [_ ?].
Qed.

Lemma Release_effect e disk id s : effect e s (Release disk id s).1.
Proof.
  unfold Release. destruct (blank id); [apply effect_refl|]. destruct (first_item _ _) as [[n i]|] eqn:E; [|apply effect_refl].
  apply first_item_Some in E as [Hn [_ Hi]%andb_true_iff]. apply commit_effect.
  - eapply evolves_alter; [exact Hn|]. apply restated_state; [by apply processing_live|by left].
  - intros c. by destruct (_ ==b _).
Qed.

Lemma ClaimStop_effect e disk scope s : effect e s (ClaimStop disk scope s).1.
Proof.
  unfold ClaimStop. cbv zeta. destruct (best_of _ _ _) as [[n i]|] eqn:E; [|apply effect_refl].
  apply best_of_elem in E as [E|]; [|done].
  apply elem_of_filter_indexed in E as [Hn Hi]. unfold pending_stop in Hi.
  apply commit_effect; [|apply same_core_refl]. eapply evolves_alter; [exact Hn|].
  apply restated_state; [|by right]. breflect. by apply pending_live.
Qed.

Lemma rejectGoalContinuation_effect e disk id code t s : effect e s (rejectGoalContinuation clock disk id code t s).1.
Proof.
  unfold rejectGoalContinuation. cbv zeta. destruct (blank id); [apply effect_refl|].
  destruct (blank code) eqn:Ec; [apply effect_refl|].
  destruct (first_item _ _) as [[n i]|] eqn:E; [|apply effect_refl].
  apply first_item_Some in E as [Hn [_ Hk]%andb_true_iff].
  assert (forall t', restated i (i <| i_State := RuntimeItemRejected |>
      <| i_Rejection := Some {| rej_Version := runtimeItemRejectionVersion; rej_Code := TrimSpace code;
                                rej_RejectedAt := Some t' |} |>)) as Hr.
  { intros t'. split; [done|]. intros _. unfold state_ok. cbn -[blank]. rewrite Hk. unfold blank in *.
    by rewrite TrimSpace_idemp, Ec. }
  destruct (i_State i); try apply effect_refl; (apply commit_effect; [|apply same_core_refl]);
    (eapply evolves_alter; [exact Hn|]); destruct t; apply Hr.
Qed.

Lemma Settle_effect e disk ids s : effect e s (Settle disk ids s).1.
Proof.
  unfold Settle. cbv zeta. case_bool_decide; [apply effect_refl|]. destruct (_ =? _)%nat.
  - by apply Eff_quiet.
  - apply commit_effect; [apply evolves_filter|done].
Qed.

Lemma Cancel_effect e disk id s : effect e s (Cancel disk id s).1.
Proof.
  unfold Cancel. destruct (blank id); [apply effect_refl|]. cbv zeta. destruct (_ =? _)%nat; [apply effect_refl|].
  apply commit_effect; [apply evolves_filter|apply same_core_refl].
Qed.

Lemma editPendingUserPrompt_effect {D} e (draft : RuntimeItem -> option D) disk id scope s :
  effect e s (editPendingUserPrompt materialize draft disk id scope s).1.
Proof.
  unfold editPendingUserPrompt. cbv zeta. destruct (blank id); [apply effect_refl|].
  destruct (first_item _ _) as [[n i]|]; [|apply effect_refl].
  destruct (materializeRuntimePrompt _ _) as [m|]; [|apply effect_refl]. destruct (draft m); [|apply effect_refl].
  apply commit_effect; [apply evolves_delete|apply same_core_refl].
Qed.

Lemma processing_effect e item s : effect e s (processingDurableRuntimePrompt materialize item s).1.
Proof.
  unfold processingDurableRuntimePrompt. cbv zeta. destruct (_ ≫= _); [|apply effect_refl].
  case_bool_decide; [apply effect_refl|]. destruct (head _); [|apply effect_refl].
  destruct (materializeRuntimePrompt _ _); [|apply effect_refl]. by apply Eff_quiet.
Qed.

Lemma ResolveDelivered_effect e lookup ids s : effect e s (ResolveDelivered lookup ids s).1.
Proof.
  unfold ResolveDelivered. destruct (resolveDelivered lookup ids (coord s)) as [[c covered]|] eqn:E; [|apply effect_refl].
  apply Eff_quiet; [|done]. revert E. unfold resolveDelivered. destruct lookup as [f|]; [|by intros [= <- _]].
  case_bool_decide; [by intros [= <- _]|]. destruct (f _); [|done]. by intros [= <- _].
Qed.

Lemma commitDeferredRecovery_effect e disk s : effect e s (commitDeferredRecovery disk s).1.
Proof.
  unfold commitDeferredRecovery, persistLocked, persistStateLocked. destruct (negb _); [apply effect_refl|].
  case_bool_decide as Hp.
  - apply Eff_moves; try done; [apply evolves_refl|]. unfold stored_in. by rewrite bool_decide_eq_true_2.
  - destruct (_ && disk); [|apply effect_refl]. apply Eff_moves; try done; [apply evolves_refl|].
    unfold stored_in. by rewrite bool_decide_eq_false_2.
Qed.

Lemma enqueueBatchLocked_effect disk items bk mp pub ra s :
  effect (Some (ra, items)) s (enqueueBatchLocked clock disk items bk mp pub ra s).1.
Proof.
  unfold enqueueBatchLocked. cbv zeta. destruct (enqueue_all _ _ _ _ _ _ _) as [b|] eqn:E; [|apply effect_refl].
  destruct (negb (b_changed b)); [apply effect_refl|]. unfold persistStateLocked.
  set (f := fun c : RuntimeInputCoordinator => if pub && _ then _ else _).
  assert (forall c, same_owner c (f c) /\ c_items (f c) = b_items b /\ c_admissionReceipts (f c) = b_receipts b /\
    c_nextSequence (f c) = b_next b /\ c_revision (f c) = u64 (c_revision (coord s) + 1)) as Hf.
  { intros c. unfold f. by destruct (pub && _). }
  destruct (Hf (coord s)) as (H1 & H2 & H3 & H4 & H5). clearbody f. case_bool_decide as Hp.
  - cbn [fst]. apply (Eff_enqueue _ _ _ bk mp ra items b); try done.
    unfold stored_in. by rewrite bool_decide_eq_true_2.
  - destruct (forallb marshals (b_items b) && disk); [|apply effect_refl].
    cbn [fst]. apply (Eff_enqueue _ _ _ bk mp ra items b); try done.
    unfold stored_in, written. rewrite bool_decide_eq_false_2 by done. cbn [coord ledger set].
    by rewrite H2, H3, H4, H5.
Qed.
End invariant.
