(* ===== verification/InputRun.v ===== *)
(** * Runs of the runtime input coordinator

    The operations of the coordinator as steps, each with the success of its
    write, and the invariant along every run. *)

From S2P Require Import Prelude GoStrings GoBase RuntimeItem InputCoordinator InputFacts InputInvariant.

Open Scope Z_scope.

Inductive op :=
| DoEnqueueBatch (items : list RuntimeItem)
| DoEnqueue (item : RuntimeItem)
| DoEnqueueBounded (item : RuntimeItem) (maxPending : Z)
| DoEnqueueWithReceipt (item : RuntimeItem) (maxPending : Z)
| DoEnqueueGoal (item : RuntimeItem)
| DoEnqueueDurable (item : RuntimeItem) (record : prompt_record) (maxPending : Z)
| DoClaimSafePoint (scope : RuntimeInputScope) (includeUser allowLater : bool)
| DoClaimNextIdle (scope : RuntimeInputScope)
| DoClaimGoal (id : bytes) (scope : RuntimeInputScope)
| DoClaimByID (id : bytes)
| DoClaimStop (scope : RuntimeInputScope)
| DoRelease (id : bytes)
| DoReject (id code : bytes) (at_time : option Z)
| DoSettle (ids : list bytes)
| DoSettleStops (scope : RuntimeInputScope)
| DoCancel (id : bytes)
| DoEdit (draft_of : RuntimeItem -> option bytes) (id : bytes) (scope : RuntimeInputScope)
| DoSubmit (item : RuntimeItem)
| DoResolveDelivered (lookup : option (list bytes -> option (gset bytes))) (ids : list bytes)
| DoCommitRecovery.

Section runs.
Context `{ItemChecks} (clock : Z -> Z) (materialize : prompt_record -> option bytes).

(** The items that a claim hands out. *)
Definition claimed_one (r : outcome (option RuntimeItem)) : system * list RuntimeItem :=
  (r.1, match r.2 with Ok (Some i) => [i] | _ => [] end).

(** The state after an operation, and the items that it hands out. *)
Definition run_op (disk : bool) (o : op) (s : system) : system * list RuntimeItem :=
  match o with
  | DoEnqueueBatch items => ((EnqueueBatch clock disk items s).1, [])
  | DoEnqueue item => ((Enqueue clock disk item s).1, [])
  | DoEnqueueBounded item n => ((EnqueueBounded clock disk item n s).1, [])
  | DoEnqueueWithReceipt item n => ((EnqueueBoundedWithAdmissionReceipt clock disk item n s).1, [])
  | DoEnqueueGoal item => ((enqueueDormantGoalContinuation clock disk item s).1, [])
  | DoEnqueueDurable item record n => ((enqueueDurableUserPrompt clock disk item record n s).1, [])
  | DoClaimSafePoint scope iu al =>
      let r := ClaimSafePoint materialize disk scope iu al s in
      (r.1, match r.2 with Ok l => l | Err _ => [] end)
  | DoClaimNextIdle scope => claimed_one (ClaimNextIdle materialize disk scope s)
  | DoClaimGoal id scope => claimed_one (claimGoalContinuation materialize disk id scope s)
  | DoClaimByID id => claimed_one (claimByID materialize disk id s)
  | DoClaimStop scope => claimed_one (ClaimStop disk scope s)
  | DoRelease id => ((Release disk id s).1, [])
  | DoReject id code t => ((rejectGoalContinuation clock disk id code t s).1, [])
  | DoSettle ids => ((Settle disk ids s).1, [])
  | DoSettleStops scope => ((settleStopRequests disk scope s).1, [])
  | DoCancel id => ((Cancel disk id s).1, [])
  | DoEdit draft id scope => ((editPendingUserPrompt materialize draft disk id scope s).1, [])
  | DoSubmit item => ((processingDurableRuntimePrompt materialize item s).1, [])
  | DoResolveDelivered lookup ids => ((ResolveDelivered lookup ids s).1, [])
  | DoCommitRecovery => ((commitDeferredRecovery disk s).1, [])
  end.

(** The items that an operation enqueues, and whether it asks for a receipt. *)
Definition enqueues (o : op) : option (bool * list RuntimeItem) :=
  match o with
  | DoEnqueueBatch items => Some (false, items)
  | DoEnqueue item | DoEnqueueBounded item _ | DoEnqueueGoal item | DoEnqueueDurable item _ _ => Some (false, [item])
  | DoEnqueueWithReceipt item _ => Some (true, [item])
  | _ => None
  end.

(** The same identifiers. *)
Definition alike (e e' : option (bool * list RuntimeItem)) : Prop :=
  match e, e' with
  | Some (ra, l), Some (ra', l') => ra = ra' /\ map i_ID l = map i_ID l'
  | None, None => True
  | _, _ => False
  end.

Lemma single_state r : (single r).1 = r.1.
Proof. by destruct r as [s [[|i [|]]|]]. Qed.

Lemma signalGoal_effect e s r : effect clock e s r -> effect clock e s (r <| coord ::= signalGoal |>).
Proof.
  destruct 1 as [H1 H2|H1 H2 H3 H4 H5|bk mp ra items b H0 H1 H2 H3 H4 H5 H6].
  - by apply Eff_quiet.
  - by apply Eff_moves.
  - by eapply Eff_enqueue.
Qed.

Lemma run_op_effect disk o s :
  exists e, alike (enqueues o) e /\ effect clock e s (run_op disk o s).1.
Proof.
  destruct o; cbn [run_op enqueues claimed_one fst].
  - exists (Some (false, items)). split; [done|]. unfold EnqueueBatch.
    case_bool_decide; [apply effect_refl|apply enqueueBatchLocked_effect].
  - exists (Some (false, [item])). split; [done|]. unfold Enqueue, EnqueueBatch. rewrite single_state.
    case_bool_decide; [done|]. apply enqueueBatchLocked_effect.
  - exists (Some (false, [item])). split; [done|]. unfold EnqueueBounded. destruct (_ <=? _); [apply effect_refl|].
    rewrite single_state. apply enqueueBatchLocked_effect.
  - exists (Some (true, [item])). split; [done|]. unfold EnqueueBoundedWithAdmissionReceipt.
    destruct (_ <=? _); [apply effect_refl|]. rewrite single_state. apply enqueueBatchLocked_effect.
  - exists (Some (false, [item])). split; [done|]. unfold enqueueDormantGoalContinuation.
    destruct (negb _); [apply effect_refl|].
    pose proof (enqueueBatchLocked_effect clock disk [item] RuntimeItemGoalContinuation 1 false false s) as He.
    rewrite <- single_state in He. destruct (single _) as [s' [i|err]]; [|done]. by apply signalGoal_effect.
  - unfold enqueueDurableUserPrompt. cbv zeta.
    assert (forall e, effect clock e s s) as Hq by (intros e; apply effect_refl).
    destruct (i_Kind item), (i_UserPrompt item) as [p|];
      try (exists (Some (false, [item])); split; [done|apply Hq]).
    case_bool_decide; [exists (Some (false, [item])); split; [done|apply Hq]|].
    set (i := item <| i_UserPrompt := _ |>). exists (Some (false, [i])). split; [done|].
    unfold EnqueueBounded. destruct (_ <=? _); [apply effect_refl|]. rewrite single_state.
    apply enqueueBatchLocked_effect.
  - exists None. split; [done|]. apply ClaimSafePoint_effect.
  - exists None. split; [done|]. apply ClaimNextIdle_effect.
  - exists None. split; [done|]. apply claimGoalContinuation_effect.
  - exists None. split; [done|]. apply claimByID_effect.
  - exists None. split; [done|]. apply ClaimStop_effect.
  - exists None. split; [done|]. apply Release_effect.
  - exists None. split; [done|]. apply rejectGoalContinuation_effect.
  - exists None. split; [done|]. apply Settle_effect.
  - exists None. split; [done|]. apply Settle_effect.
  - exists None. split; [done|]. apply Cancel_effect.
  - exists None. split; [done|]. apply editPendingUserPrompt_effect.
  - exists None. split; [done|]. apply processing_effect.
  - exists None. split; [done|]. apply ResolveDelivered_effect.
  - exists None. split; [done|]. apply commitDeferredRecovery_effect.
Qed.

(** ** Runs *)

(** Sequence numbers do not wrap around; in a [strict] run no item is enqueued
    without a receipt under an identifier that has one. *)
Definition allowed (strict : bool) (o : op) (s : system) : Prop :=
  match enqueues o with
  | Some (ra, items) =>
      c_nextSequence (coord s) + Z.of_nat (length items) < 2 ^ 64 /\
      (strict = true -> no_reuse ra (coord s) items)
  | None => True
  end.

Inductive run_step (strict : bool) : system -> bool * op -> system -> Prop :=
| Run disk o s : allowed strict o s -> run_step strict s (disk, o) (run_op disk o s).1.

(** A coordinator in good order. *)
Record Kept (strict : bool) (c : RuntimeInputCoordinator) : Prop := {
  kept_wf : Wf (c_scope c) (c_promptWriter c) (c_items c) (c_nextSequence c);
  kept_receipts : Receipts (c_scope c) (c_items c) (c_admissionReceipts c) (c_nextSequence c);
  kept_matched : strict = true -> Matched (c_items c) (c_admissionReceipts c)
}.

(** The ledger was written from a coordinator in good order that had every item
    that is in memory, and from the one in memory unless a recovery is deferred. *)
Definition Saved (strict : bool) (s : system) : Prop :=
  c_path (coord s) = [] \/
  (ledger s = None /\ c_items (coord s) = [] /\ c_nextSequence (coord s) = 0 /\ c_admissionReceipts (coord s) = ∅) \/
  exists c0, ledger s = Some (written c0) /\ c_scope c0 = c_scope (coord s) /\ Kept strict c0 /\
    (forall i, i ∈ c_items (coord s) -> i_ID i ∈ map i_ID (c_items c0)) /\
    (c_recoveryPending (coord s) = false -> written c0 = written (coord s)).

Record Good (strict : bool) (s : system) : Prop := {
  good_kept : Kept strict (coord s);
  good_saved : Saved strict s
}.

Lemma good_wf strict s :
  Good strict s -> Wf (c_scope (coord s)) (c_promptWriter (coord s)) (c_items (coord s)) (c_nextSequence (coord s)).
Proof. intros Hg. apply (kept_wf strict), Hg. Qed.

Lemma stored_Saved strict s s' :
  same_owner (coord s) (coord s') -> stored_in s s' -> Kept strict (coord s') -> Saved strict s'.
Proof.
  intros (_ & Hp & _) Hst Hk. unfold stored_in in Hst. unfold Saved. case_bool_decide as Hn; [left; congruence|].
  right. right. exists (coord s'). split_and!; try done. intros i Hi. apply list_elem_of_fmap. by exists i.
Qed.

Lemma effect_Good strict e s s' :
  (forall ra items, e = Some (ra, items) ->
     c_nextSequence (coord s) + Z.of_nat (length items) < 2 ^ 64 /\ (strict = true -> no_reuse ra (coord s) items)) ->
  Good strict s -> effect clock e s s' -> Good strict s'.
Proof.
  intros Hb [[Hw Hr Hm] Hs].
  destruct 1 as [((H1 & H2 & H3) & H4 & H5 & H6 & H7 & H8) Hl|Ho He Hn Hrc Hst|bk mp ra items b -> Ho Hrun Hi Hrc Hn Hst].
  - split; [split; by rewrite ?H1, ?H3, ?H5, ?H6, ?H7|].
    unfold Saved, written in *. by rewrite Hl, H1, H2, H4, H5, H6, H7, H8.
  - assert (Hk : Kept strict (coord s')); [|split; [done|by eapply stored_Saved]].
    destruct Ho as (H1 & H2 & H3). split; rewrite ?H1, ?H3, ?Hn, ?Hrc.
    + by eapply Wf_evolves.
    + by eapply Receipts_evolves.
    + intros Hstr. eapply Matched_evolves; [exact He|by apply Hm].
  - assert (Hk : Kept strict (coord s')); [|split; [done|by eapply stored_Saved]].
    destruct (Hb ra items eq_refl) as [Hlen Hre].
    destruct (enqueue_all_inv _ _ _ _ _ _ _ _ Hrun Hlen) as ([Hw' Hr'] & _ & _ & Hm' & _); [done|done|].
    pose proof Ho as (H1 & H2 & H3). split; rewrite ?H1, ?H3, ?Hn, ?Hrc, ?Hi; try done.
    intros Hstr. apply Hm'; [by apply Hre|by apply Hm].
Qed.

Lemma no_reuse_alike ra c l l' : map i_ID l = map i_ID l' -> no_reuse ra c l -> no_reuse ra c l'.
Proof.
  intros Hl [Hr|Hf]; [by left|right]. revert l' Hl.
  induction Hf as [|i l Hi _ IH]; intros [|i' l'] Hl; try done. cbn in Hl. injection Hl as Hii Hl.
  constructor; [by rewrite <- Hii|by apply IH].
Qed.

Lemma step_Good strict s l s' : Good strict s -> run_step strict s l s' -> Good strict s'.
Proof.
  intros Hg Hs. revert Hg. destruct Hs as [disk o s0 Ha]. intros Hg. destruct (run_op_effect disk o s0) as (e & He & Hf).
  eapply effect_Good; [|exact Hg|exact Hf]. intros ra items ->. unfold allowed in Ha.
  destruct (enqueues o) as [[ra' items']|]; [|done]. destruct He as [-> He], Ha as [Hn Hre].
  apply (f_equal length) in He as Hlen. rewrite !length_map in Hlen. split; [lia|].
  intros Hs. eapply no_reuse_alike; [exact He|by apply Hre].
Qed.

Definition fresh (scope : RuntimeInputScope) (path : bytes) (w : nat) (delivered : gset bytes) : system :=
  {| coord := new_coordinator scope path w delivered; ledger := None |}.

Lemma fresh_Good strict scope path w delivered : Good strict (fresh scope path w delivered).
Proof.
  split; cbn.
  - split; cbn; [split; [constructor|constructor|lia|constructor]|split; intros *; by rewrite lookup_empty|].
    intros _ i r Hi. by apply elem_of_nil in Hi.
  - right. by left.
Qed.

Lemma run_Good strict scope path w delivered tr s :
  steps (run_step strict) (fresh scope path w delivered) tr s -> Good strict s.
Proof.
  intros Hr. eapply (steps_invariant _ (Good strict)); [|exact Hr|apply fresh_Good].
  intros ? ? ? Hg Hs. by eapply step_Good.
Qed.
End runs.
