(* ===== verification/InputRecovery.v ===== *)
(** * Recovery of the runtime input coordinator

    Opening the ledger of a coordinator that stopped at any point gives back the
    items that were waiting or being processed. *)

From S2P Require Import Prelude GoStrings GoBase RuntimeItem InputCoordinator InputFacts InputInvariant InputRun.

Open Scope Z_scope.

Section recovery.
Context `{ItemChecks}.

(** ** Receipts *)

Abbreviation insert_all := (foldl (fun m r => <[r_ID r := r]> m)).

Lemma insert_all_lookup (l : list runtimeInputAdmissionReceipt) (m : gmap bytes runtimeInputAdmissionReceipt) id r :
  NoDup (map r_ID l) -> (forall x, x ∈ l -> m !! r_ID x = None) ->
  (insert_all m l) !! id = Some r <-> (r ∈ l /\ r_ID r = id) \/ m !! id = Some r.
Proof.
  revert m. induction l as [|x l IH]; intros m Hnd Hm; cbn.
  { split; [by right|]. by intros [[Hr _]|]; [apply elem_of_nil in Hr|]. }
  apply NoDup_cons in Hnd as [Hx Hnd]. rewrite IH; [|done|].
  - rewrite lookup_insert_Some. split.
    + intros [[Hin ?]|[[<- <-]|[_ ?]]]; [left; set_solver|left; set_solver|by right].
    + intros [[[-> | Hin]%elem_of_cons <-]|Hr]; [by right; left|by left|].
      right. right. split; [|done]. intros Heq. specialize (Hm x ltac:(set_solver)). congruence.
  - intros y Hy. rewrite lookup_insert_ne; [apply Hm; set_solver|].
    intros Heq. apply Hx. rewrite Heq. by apply (list_elem_of_fmap_2 r_ID).
Qed.

Lemma recover_receipts_ok scope next l seqs m :
  Forall (fun r => validateRuntimeInputAdmissionReceipt r = true /\ r_Scope r = scope /\ r_Sequence r <= next) l ->
  NoDup (map r_ID l) -> NoDup (map r_Sequence l) ->
  (forall r, r ∈ l -> (r_Sequence r ∉ seqs) /\ m !! r_ID r = None) ->
  recover_receipts scope next l seqs m = Ok (insert_all m l).
Proof.
  revert seqs m. induction l as [|r l IH]; intros seqs m Hl Hid Hsq Hm; [done|].
  apply Forall_cons in Hl as [(Hv & Hsc & Hb) Hl]. cbn [map] in Hid, Hsq.
  apply NoDup_cons in Hid as [Hi Hid], Hsq as [Hs Hsq].
  destruct (Hm r ltac:(set_solver)) as [Hms Hmi].
  cbn [recover_receipts foldl]. rewrite Hv, Hsc. cbn [negb]. unfold runtimeScopesEqual.
  rewrite !bool_decide_eq_true_2 by done. cbn [andb negb]. destruct (Z.ltb_spec next (r_Sequence r)); [lia|].
  rewrite bool_decide_eq_false_2 by done. rewrite bool_decide_eq_false_2 by by rewrite Hmi; intros [? ?].
  apply IH; try done. intros x Hx. destruct (Hm x ltac:(set_solver)) as [Hxs Hxi]. split.
  - rewrite not_elem_of_union, not_elem_of_singleton. split; [|done].
    intros Heq. apply Hs. rewrite <- Heq. by apply (list_elem_of_fmap_2 r_Sequence).
  - rewrite lookup_insert_ne; [done|]. intros Heq. apply Hi. rewrite Heq. by apply (list_elem_of_fmap_2 r_ID).
Qed.

(** The receipts of the ledger are those of the coordinator. *)
Lemma recover_receipts_all scope items receipts next :
  Receipts scope items receipts next ->
  recover_receipts scope next (orderedRuntimeInputAdmissionReceipts receipts) ∅ ∅ = Ok receipts.
Proof.
  intros [R1 R2 R3]. set (l := orderedRuntimeInputAdmissionReceipts receipts).
  assert (l ≡ₚ (map_to_list receipts).*2) as Hl by apply stable_sort_perm.
  assert (forall r, r ∈ l <-> receipts !! r_ID r = Some r) as Hel.
  { intros r. rewrite Hl, list_elem_of_fmap. split.
    - intros ([id x] & -> & Hx%elem_of_map_to_list). cbn. by destruct (R1 id x Hx) as (-> & _).
    - intros Hr. exists (r_ID r, r). split; [done|]. by apply elem_of_map_to_list. }
  assert (map r_ID l ≡ₚ (map_to_list receipts).*1) as Hids.
  { assert (r_ID <$> (map_to_list receipts).*2 = (map_to_list receipts).*1) as <-; [|by apply fmap_Permutation].
    rewrite <- list_fmap_compose. apply list_fmap_ext. intros n [id x] Hx%list_elem_of_lookup_2%elem_of_map_to_list.
    cbn. by apply R1. }
  assert (NoDup (map r_ID l)) as Hnd by (rewrite Hids; apply NoDup_fst_map_to_list).
  rewrite recover_receipts_ok; [f_equal| |done| |].
  - apply map_eq. intros id. apply option_eq. intros r. rewrite insert_all_lookup; [|done|by intros; rewrite lookup_empty].
    rewrite Hel, lookup_empty. split; [intros [[Hr <-]|]; done|]. intros Hr. left.
    destruct (R1 id r Hr) as (<- & _). done.
  - apply Forall_forall. intros r Hr%Hel. by destruct (R1 _ _ Hr) as (_ & ? & ? & ?).
  - apply NoDup_fmap_2_strong; [|by eapply NoDup_fmap_1].
    intros x y Hx%Hel Hy%Hel Heq. pose proof (R2 _ _ _ _ Hx Hy Heq) as Hid. congruence.
  - intros r _. split; [set_solver|apply lookup_empty].
Qed.

(** ** Items *)

(** The state in which an item comes back, for a coordinator with the writer
    [w]. *)
Definition back (w : nat) (i : RuntimeItem) : RuntimeItem := with_state RuntimeItemPending (reload w i).

(** The items that come back: neither rejected, delivered nor stops. *)
Definition survives (delivered : gset bytes) (i : RuntimeItem) : bool :=
  (i_State i <>b RuntimeItemRejected) && bool_decide (i_ID i ∉ delivered) && (i_Kind i <>b RuntimeItemStop).

(** An item that waits comes back as it was. *)
Lemma back_pending scope w w' i :
  validateItem scope w i = true -> bool_decide (i_State i = RuntimeItemRejected) = false ->
  is_processing (reload w' i) = false -> reload w' i = back w' i.
Proof.
  intros Hv Er Ep. unfold validateItem in Hv. breflect. unfold is_processing in Ep. breflect.
  assert (i_State (reload w' i) = RuntimeItemPending) as Hst.
  { change (i_State (reload w' i)) with (i_State i) in *. unfold state_ok in *. by destruct (i_State i). }
  unfold back. revert Hst. generalize (reload w' i). intros x Hx. destruct x. cbn in Hx. by subst.
Qed.

Lemma acknowledged_match scope w w' r i :
  validateItem scope w i = true -> validateRuntimeInputAdmissionReceipt r = true -> r_Scope r = scope ->
  r_ID r = TrimSpace (i_ID i) -> acknowledges r i ->
  runtimeInputAdmissionReceiptMatches r (reload w' i) = Ok true.
Proof.
  intros Hv Hr Hsc Hid (_ & _ & Hk & Hd). apply valid_scope in Hv. unfold runtimeInputAdmissionReceiptMatches.
  rewrite Hr. cbn [negb].
  assert (reload w' i = strip i) as ->.
  { revert Hd. destruct i as [v id k p d sc sq t st m o pv up am an ar pd gc stp rej].
    destruct up as [[ds pt im dp mi wr wi]|]; [|done]. destruct dp; [|done].
    unfold runtimeInputAdmissionDigest, strip. cbn. destruct k; try done. by rewrite orb_true_r. }
  rewrite Hd. f_equal.
  assert (i_ID (strip i) = i_ID i /\ i_Kind (strip i) = i_Kind i /\ i_Scope (strip i) = i_Scope i) as (-> & -> & ->) by done.
  unfold runtimeScopesEqual. rewrite !bool_decide_eq_true_2 by (done || congruence). done.
Qed.

Lemma recover_receipt_ok scope items receipts next w w' m i :
  Wf scope w items next -> Receipts scope items receipts next -> Matched items receipts -> i ∈ items ->
  m !! i_ID i = receipts !! i_ID i ->
  exists m' added, recover_receipt (reload w' i) m = Ok (m', added) /\
    forall id, id <> i_ID i -> m' !! id = m !! id.
Proof.
  intros Hw Hr Hm Hi Hmi. pose proof (wf_items _ _ _ _ Hw) as W. rewrite Forall_forall in W.
  destruct (W i Hi) as (Hv & _ & _ & Ht & _). unfold recover_receipt.
  change (i_ID (reload w' i)) with (i_ID i). rewrite Hmi. destruct (receipts !! i_ID i) as [r|] eqn:Er.
  - destruct (rc_ok _ _ _ _ Hr _ _ Er) as (Hid & Hval & Hsc & _). pose proof (Hm i r Hi Er) as Hack.
    rewrite (acknowledged_match scope w) by (done || congruence). destruct Hack as (Hs & Hen & _).
    change (i_Sequence (reload w' i)) with (i_Sequence i). change (i_EnqueuedAt (reload w' i)) with (i_EnqueuedAt i).
    rewrite Hs, Hen, Z.eqb_refl, bool_decide_eq_true_2 by done. by exists m, false.
  - destruct (runtimeInputAdmissionReceiptFor (reload w' i)) as [r|]; [|by exists m, false].
    eexists _, true. split; [done|]. intros id Hid. by rewrite lookup_insert_ne.
Qed.

Lemma recover_items_ok scope items0 receipts next w w' covered items m recovered changed :
  Wf scope w items0 next -> Receipts scope items0 receipts next -> Matched items0 receipts ->
  items ⊆ items0 -> NoDup (map i_ID items) ->
  (forall i, i ∈ items -> m !! i_ID i = receipts !! i_ID i) ->
  exists m' changed', recover_items scope w' covered (strip <$> items) m recovered changed =
    Ok (recovered ++ map (back w') (List.filter (survives covered) items), m', changed').
Proof.
  intros Hw Hr Hm. revert m recovered changed.
  induction items as [|i items IH]; intros m recovered changed Hsub Hnd Hmi.
  { exists m, changed. cbn. by rewrite app_nil_r. }
  pose proof (wf_items _ _ _ _ Hw) as W. rewrite Forall_forall in W.
  destruct (W i ltac:(set_solver)) as (Hv & Hp & _). cbn [map] in Hnd. apply NoDup_cons in Hnd as [Hni Hnd].
  change (strip <$> i :: items) with (strip i :: (strip <$> items)). cbn [recover_items].
  change (bind_writer w' (strip i)) with (reload w' i).
  pose proof (valid_reload scope w w' i Hv) as Hvr.
  assert (plain (reload w' i) = true) as Hpr.
  { revert Hp. unfold plain, reload, bind_writer, strip. cbn. destruct (i_UserPrompt i) as [[? ? ? [] ? ? ?]|]; done. }
  rewrite (normalize_valid scope w') by done. rewrite Hvr. cbn [negb].
  destruct (recover_receipt_ok scope items0 receipts next w w' m i) as (m1 & added & -> & Hm1); try done; [set_solver|apply Hmi; set_solver|].
  assert (forall j, j ∈ items -> m1 !! i_ID j = receipts !! i_ID j) as Hmj.
  { intros j Hj. rewrite Hm1; [apply Hmi; set_solver|]. intros Heq. apply Hni. rewrite <- Heq.
    by apply (list_elem_of_fmap_2 i_ID). }
  change (i_State (reload w' i)) with (i_State i). change (i_ID (reload w' i)) with (i_ID i).
  change (i_Kind (reload w' i)) with (i_Kind i).
  cbn [List.filter]. unfold survives at 1.
  assert (items ⊆ items0) as Hs' by set_solver.
  destruct (bool_decide (i_State i = RuntimeItemRejected)) eqn:Er; cbn [negb andb orb]; [by apply IH|].
  destruct (decide (i_ID i ∈ covered)) as [Hc|Hc].
  { rewrite bool_decide_eq_true_2, (bool_decide_eq_false_2 (i_ID i ∉ covered)) by tauto. cbn [andb orb]. by apply IH. }
  rewrite bool_decide_eq_false_2, (bool_decide_eq_true_2 (i_ID i ∉ covered)) by done. cbn [andb orb].
  destruct (bool_decide (i_Kind i = RuntimeItemStop)); cbn [negb]; [by apply IH|].
  assert (forall l, recovered ++ map (back w') (i :: l) = (recovered ++ [back w' i]) ++ map (back w') l) as -> by (intros; by rewrite <- app_assoc).
  destruct (is_processing (reload w' i)) eqn:Ep; [by apply IH|].
  rewrite (back_pending scope w w' i Hv Er Ep). by apply IH.
Qed.

(** ** Opening the ledger again *)

Lemma marshals_valid scope w i : validateItem scope w i = true -> marshals i = true.
Proof.
  unfold validateItem. intros [[_ Hc]%andb_true_iff Hv]%andb_true_iff.
  destruct i as [v id k p d sc sq t st m o pv up am an ar pd gc stp rej].
  destruct up as [[ds pt im dp mi wr wi]|]; [|done]. destruct dp as [r|]; [|done].
  cbn in Hc. unfold payloadCount in Hc. cbn in Hc.
  destruct k; cbn in Hv; try done; try (by destruct am, an, ar, pd, gc, stp).
  - unfold validateRuntimeItemUserImages, marshals in *. cbn in *. apply andb_true_iff in Hv as [_ Hv].
    apply andb_true_iff in Hv as [[-> ->]%andb_true_iff ->]. done.
  - unfold validateRuntimeItemUserImages, marshals in *. cbn in *. apply andb_true_iff in Hv as [_ Hv].
    apply andb_true_iff in Hv as [[-> ->]%andb_true_iff ->]. done.
Qed.

Lemma marshals_back scope w w' i : validateItem scope w i = true -> marshals (back w' i) = true.
Proof.
  intros Hv. change (marshals (back w' i)) with (marshals (reload w' i)).
  eapply marshals_valid, (valid_reload scope w). exact Hv.
Qed.

Lemma id_set_elem ids id : id ∈ ids -> TrimSpace id = id -> id <> [] -> id ∈ id_set ids.
Proof.
  intros Hin Ht Hne. unfold id_set. rewrite elem_of_list_to_set. apply elem_of_filter_b.
  split; [|by rewrite bool_decide_eq_false_2]. apply list_elem_of_fmap. by exists id.
Qed.

Lemma filter_survives (D1 D2 : gset bytes) items :
  (forall i, i ∈ items -> i_ID i ∈ D1 <-> i_ID i ∈ D2) ->
  List.filter (survives D1) items = List.filter (survives D2) items.
Proof.
  induction items as [|i items IH]; intros Hd; [done|]. cbn [List.filter]. rewrite IH by set_solver.
  unfold survives. rewrite (bool_decide_ext (i_ID i ∉ D1) (i_ID i ∉ D2)); [done|].
  specialize (Hd i ltac:(set_solver)). tauto.
Qed.

(** ** What the recovery makes of receipts *)

Lemma strip_reload w i : strip (reload w i) = strip i.
Proof.
  destruct i as [v id k p d sc sq t st m o pv up am an ar pd gc stp rej].
  by destruct up as [[ds pt im [r|] mi wr wi]|].
Qed.

Lemma receipt_for_reload w i r :
  runtimeInputAdmissionReceiptFor (reload w i) = Ok r ->
  r_ID r = TrimSpace (i_ID i) /\ validateRuntimeInputAdmissionReceipt r = true /\ r_Scope r = i_Scope i /\ acknowledges r i.
Proof.
  intros (H1 & H2 & H3 & H4 & H5 & H6 & H7)%receipt_for_acknowledges. rewrite strip_reload in H7. by split_and!.
Qed.

Lemma recover_receipt_made scope items next w w' i m m' added :
  Wf scope w items next -> i ∈ items -> recover_receipt (reload w' i) m = Ok (m', added) ->
  (Receipts scope items m next -> Receipts scope items m' next) /\ (Matched items m -> Matched items m') /\
  (added = false -> m' = m).
Proof.
  intros Hw Hi. unfold recover_receipt. change (i_ID (reload w' i)) with (i_ID i).
  pose proof (wf_items _ _ _ _ Hw) as W. rewrite Forall_forall in W. destruct (W i Hi) as (Hv & _ & Hsq & Ht & _).
  destruct (m !! i_ID i) as [r|] eqn:Em.
  - destruct (runtimeInputAdmissionReceiptMatches r (reload w' i)) as [[]|]; try done. destruct (_ && _); [|done].
    by intros [= <- <-].
  - destruct (runtimeInputAdmissionReceiptFor (reload w' i)) as [r|] eqn:Er; [|by intros [= <- <-]].
    intros [= <- <-]. apply receipt_for_reload in Er as (Hid & Hval & Hsc & Hack). pose proof Hack as (Hs & _).
    split_and!; [intros Hr|intros Hm|done].
    + apply Receipts_insert; try done; [congruence|rewrite Hsc; by eapply valid_scope|lia| |].
      * intros id' r' Hr' Heq. symmetry. apply (rc_item _ _ _ _ Hr id' r' i Hr' Hi). congruence.
      * intros j Hj Heq. f_equal. eapply (same_by i_Sequence); [apply sorted_NoDup, (wf_seqs _ _ _ _ Hw)|done..|congruence].
    + intros j rj Hj [[Heq <-]|[_ Hr']]%lookup_insert_Some; [|by apply Hm].
      assert (j = i) as ->; [|done]. eapply (same_by i_ID); [exact (wf_ids _ _ _ _ Hw)|done..|congruence].
Qed.

(** A recovery that succeeds: the items that survive, and the receipts of all; when
    it has nothing to write, everything is as it was. *)
Lemma recover_items_made scope items0 next w w' covered items m recovered changed out m' ch :
  Wf scope w items0 next -> items ⊆ items0 ->
  recover_items scope w' covered (strip <$> items) m recovered changed = Ok (out, m', ch) ->
  out = recovered ++ map (back w') (List.filter (survives covered) items) /\
  (Receipts scope items0 m next -> Receipts scope items0 m' next) /\ (Matched items0 m -> Matched items0 m') /\
  (ch = false -> changed = false /\ m' = m /\ List.filter (survives covered) items = items /\
     Forall (fun i => is_processing i = false) items).
Proof.
  intros Hw. revert m recovered changed.
  induction items as [|i items IH]; intros m recovered changed Hsub.
  { intros [= <- <- <-]. cbn. rewrite app_nil_r. by split_and!. }
  pose proof (wf_items _ _ _ _ Hw) as W. rewrite Forall_forall in W.
  destruct (W i ltac:(set_solver)) as (Hv & Hp & _). assert (items ⊆ items0) as Hs' by set_solver.
  change (strip <$> i :: items) with (strip i :: (strip <$> items)). cbn [recover_items].
  change (bind_writer w' (strip i)) with (reload w' i). pose proof (valid_reload scope w w' i Hv) as Hvr.
  assert (plain (reload w' i) = true) as Hpr.
  { revert Hp. unfold plain, reload, bind_writer, strip. cbn. destruct (i_UserPrompt i) as [[? ? ? [] ? ? ?]|]; done. }
  rewrite (normalize_valid scope w') by done. rewrite Hvr. cbn [negb].
  destruct (recover_receipt (reload w' i) m) as [[m1 added]|] eqn:Er; [|done].
  assert (Hin : i ∈ items0) by set_solver.
  destruct (recover_receipt_made scope items0 next w w' i m m1 added Hw Hin Er) as (R1 & R2 & R3).
  change (i_State (reload w' i)) with (i_State i). change (i_ID (reload w' i)) with (i_ID i).
  change (i_Kind (reload w' i)) with (i_Kind i). cbn [List.filter].
  assert (Hsv : survives covered i = (i_State i <>b RuntimeItemRejected) && bool_decide (i_ID i ∉ covered) && (i_Kind i <>b RuntimeItemStop)) by done.
  rewrite !Hsv. clear Hsv.
  assert (Hback : forall l, recovered ++ map (back w') (i :: l) = (recovered ++ [back w' i]) ++ map (back w') l)
    by (intros; by rewrite <- app_assoc).
  assert (Hgo : forall rec ch0, recover_items scope w' covered (strip <$> items) m1 rec ch0 = Ok (out, m', ch) ->
    out = rec ++ map (back w') (List.filter (survives covered) items) /\
    (Receipts scope items0 m next -> Receipts scope items0 m' next) /\ (Matched items0 m -> Matched items0 m') /\
    (ch = false -> ch0 = false /\ m' = m1 /\ List.filter (survives covered) items = items /\
       Forall (fun i => is_processing i = false) items)).
  { intros rec ch0 E. destruct (IH _ _ _ Hs' E) as (I1 & I2 & I3 & I4). split_and!; auto. }
  destruct (bool_decide (i_State i = RuntimeItemRejected)) eqn:Erj; cbn [negb andb orb].
  { intros (E1 & E2 & E3 & E4)%Hgo. split_and!; try done. by intros [? _]%E4. }
  destruct (decide (i_ID i ∈ covered)) as [Hc|Hc].
  { rewrite bool_decide_eq_true_2, (bool_decide_eq_false_2 (i_ID i ∉ covered)) by tauto. cbn [andb orb].
    intros (E1 & E2 & E3 & E4)%Hgo. split_and!; try done. by intros [? _]%E4. }
  rewrite bool_decide_eq_false_2, (bool_decide_eq_true_2 (i_ID i ∉ covered)) by done. cbn [andb orb].
  destruct (bool_decide (i_Kind i = RuntimeItemStop)); cbn [negb].
  { intros (E1 & E2 & E3 & E4)%Hgo. split_and!; try done. by intros [? _]%E4. }
  rewrite Hback. destruct (is_processing (reload w' i)) eqn:Ep.
  { intros (E1 & E2 & E3 & E4)%Hgo. split_and!; try done. by intros [? _]%E4. }
  rewrite (back_pending scope w w' i Hv Erj Ep). intros (E1 & E2 & E3 & E4)%Hgo. split_and!; try done.
  intros (E5 & E6 & E7 & E8)%E4. apply orb_false_iff in E5 as [[-> _]%orb_false_iff Ha]. rewrite E6, E7.
  split; [done|]. split; [by apply R3|]. split; [done|]. by constructor.
Qed.

(** ** The items that came back *)

Lemma reload_plain w i : plain (reload w i) = plain i.
Proof. unfold plain, reload, bind_writer, strip. cbn. by destruct (i_UserPrompt i) as [[? ? ? [] ? ? ?]|]. Qed.

Lemma reload_map {B} (f : RuntimeItem -> B) w items :
  (forall i, f (reload w i) = f i) -> map f (map (reload w) items) = map f items.
Proof. intros Hf. rewrite map_map. apply map_ext, Hf. Qed.

Lemma Wf_reload scope w w' items next : Wf scope w items next -> Wf scope w' (map (reload w') items) next.
Proof.
  intros [H1 H2 H3 H4]. split; [by rewrite reload_map|by rewrite reload_map|done|].
  apply Forall_map. eapply Forall_impl; [exact H4|]. intros i (Hv & Hp & Hrest).
  split; [by eapply valid_reload|]. by rewrite reload_plain.
Qed.

Lemma Receipts_reload scope w items m next :
  Receipts scope items m next -> Receipts scope (map (reload w) items) m next.
Proof.
  intros [H1 H2 H3]. split; [done..|]. intros id r i Hr (x & -> & Hx)%list_elem_of_fmap. by apply (H3 id r x).
Qed.

Lemma Matched_reload w items m : Matched items m -> Matched (map (reload w) items) m.
Proof.
  intros Hm i r (x & -> & Hx)%list_elem_of_fmap Hr. destruct (Hm x r Hx Hr) as (A1 & A2 & A3 & A4).
  unfold acknowledges. by rewrite strip_reload.
Qed.

Lemma back_evolves scope w w' D items :
  Forall (fun i => validateItem scope w i = true) items ->
  evolves (map (reload w') items) (map (back w') (List.filter (survives D) items)).
Proof.
  induction 1 as [|i items Hv _ IH]; [constructor|]. cbn [map List.filter].
  destruct (survives D i) eqn:E; [|by constructor]. cbn [map]. constructor; [|done].
  apply restated_state; [|by left]. unfold survives in E. unfold validateItem in Hv. breflect.
  unfold state_ok in *. unfold live. change (i_State (reload w' i)) with (i_State i).
  destruct (i_State i); auto; done.
Qed.

Lemma Kept_back strict c c' w' D m :
  Kept strict c -> c_scope c' = c_scope c -> c_promptWriter c' = w' -> c_nextSequence c' = c_nextSequence c ->
  c_items c' = map (back w') (List.filter (survives D) (c_items c)) -> c_admissionReceipts c' = m ->
  Receipts (c_scope c) (c_items c) m (c_nextSequence c) -> (strict = true -> Matched (c_items c) m) -> Kept strict c'.
Proof.
  intros [Hw Hr Hm] Hsc Hpw Hn Hi Hre Hr' Hm'.
  assert (He : evolves (map (reload w') (c_items c)) (c_items c')).
  { rewrite Hi. eapply (back_evolves (c_scope c) (c_promptWriter c)). eapply Forall_impl; [exact (wf_items _ _ _ _ Hw)|].
    by intros ? (? & _). }
  split; rewrite ?Hsc, ?Hpw, ?Hn, ?Hre.
  - eapply Wf_evolves; [exact He|]. by eapply Wf_reload.
  - eapply Receipts_evolves; [exact He|]. by apply Receipts_reload.
  - intros Hs. eapply Matched_evolves; [exact He|]. by apply Matched_reload, Hm'.
Qed.

(** ** The answer of the transcript *)

(** What the transcript says of the items of the ledger that are not known to be
    delivered; [None] when it cannot be read. *)
Definition transcript (lookup : option (list bytes -> option (gset bytes))) (delivered : gset bytes)
    (items : list RuntimeItem) : option (gset bytes) :=
  let asked := list_to_set (map i_ID items) ∖ delivered in
  match lookup with
  | Some f => if bool_decide (asked = ∅) then Some ∅ else f (elements asked)
  | None => Some ∅
  end.

Lemma id_set_ids scope w items next :
  Wf scope w items next -> id_set (map i_ID (strip <$> items)) = list_to_set (map i_ID items).
Proof.
  intros Hw. pose proof (wf_items _ _ _ _ Hw) as W. rewrite Forall_forall in W. apply set_eq. intros id.
  rewrite elem_of_list_to_set. unfold id_set. rewrite elem_of_list_to_set, elem_of_filter_b, !list_elem_of_fmap. split.
  - intros [(x & -> & (y & -> & (i & -> & Hi)%list_elem_of_fmap)%list_elem_of_fmap) _]. exists i. split; [|done].
    destruct (W i Hi) as (_ & _ & _ & Ht & _). exact Ht.
  - intros (i & -> & Hi). destruct (W i Hi) as (_ & _ & _ & Ht & Hne & _). split; [|by rewrite bool_decide_eq_false_2].
    exists (i_ID i). split; [done|]. apply list_elem_of_fmap. exists (strip i). split; [done|]. by apply list_elem_of_fmap_2.
Qed.

(** Only the delivered set changes, and the covered items are those that it or the
    transcript names. *)
Lemma resolve_answer scope w lookup items next c :
  Wf scope w items next ->
  match transcript lookup (c_delivered c) items with
  | None => resolveDelivered lookup (map i_ID (strip <$> items)) c = Err LookupFailed
  | Some found => exists d covered,
      resolveDelivered lookup (map i_ID (strip <$> items)) c = Ok (c <| c_delivered := d |>, covered) /\
      List.filter (survives covered) items = List.filter (survives (c_delivered c ∪ found)) items
  end.
Proof.
  intros Hw. unfold transcript, resolveDelivered. rewrite (id_set_ids _ _ _ _ Hw).
  set (ids := list_to_set (map i_ID items)).
  assert (Hin : forall i, i ∈ items -> i_ID i ∈ ids).
  { intros i Hi. unfold ids. apply elem_of_list_to_set. by apply (list_elem_of_fmap_2 i_ID). }
  assert (Hc : c = (c <| c_delivered := c_delivered c |>)) by by destruct c.
  destruct lookup as [f|].
  - case_bool_decide as E.
    + exists (c_delivered c), (ids ∩ c_delivered c). split; [by rewrite <- Hc|].
      apply filter_survives. intros i Hi. specialize (Hin i Hi). set_solver.
    + destruct (f _) as [found|]; [|done]. eexists _, _. split; [reflexivity|].
      apply filter_survives. intros i Hi. specialize (Hin i Hi). set_solver.
  - exists (c_delivered c), (ids ∩ c_delivered c). split; [by rewrite <- Hc|].
    apply filter_survives. intros i Hi. specialize (Hin i Hi). set_solver.
Qed.
End recovery.
