(* ===== verification/InputLife.v ===== *)
(** * The life of a runtime input coordinator

    A coordinator runs, stops at any point and is opened again from its ledger,
    possibly with another transcript and with the write of the recovery deferred;
    what it was before is what it is afterwards, up to what the transcript
    delivered. *)

From S2P Require Import Prelude GoStrings GoBase RuntimeItem InputCoordinator InputFacts InputInvariant InputRun InputRecovery.

Open Scope Z_scope.

(** ** Texts *)

(** The texts of a ledger are valid UTF-8, so that it reads as it was written. *)
Definition texts_valid (e : runtimeInputEnvelope) : Prop := json_envelope e = e.

Lemma json_text_valid s : ValidString s = true -> json_text s = s.
Proof.
  induction s as [s IH] using (induction_ltof1 _ length); unfold ltof in IH.
  assert (Hs : forall t, (length t < length s)%nat -> ValidString t = true -> json_text t = t) by auto.
  destruct s as [|a s1]; cbn [ValidString json_text]; [done|].
  repeat case_match; subst; try done; intros Hv; rewrite Hs; (done || (cbn [length]; lia)).
Qed.

Section life.
Context `{ItemChecks} (clock : Z -> Z) (materialize : prompt_record -> option bytes).

(** ** The write of a recovery *)

Lemma save_recovery_cases disk defer changed s :
  forallb marshals (c_items (coord s)) = true -> c_path (coord s) <> [] ->
  match save_recovery disk defer changed s with
  | Err e => e = PersistFailed /\ disk = false /\ defer = false
  | Ok s' =>
      (changed = false /\ s' = s) \/
      s' = (s <| coord ::= fun c => c <| c_recoveryPending := true |> |>) \/
      (coord s' = ((coord s) <| c_revision := u64 (c_revision (coord s) + 1) |>) /\ ledger s' = Some (written (coord s')))
  end.
Proof.
  intros Hm Hp. unfold save_recovery, persistLocked, persistStateLocked.
  destruct changed; [|by left]. destruct defer; [right; by left|]. cbn [negb].
  rewrite bool_decide_eq_false_2 by done. rewrite Hm. destruct disk; [|done]. cbn [andb]. right. by right.
Qed.

(** ** Opening a ledger *)

Lemma ordered_empty : orderedRuntimeInputAdmissionReceipts ∅ = [].
Proof. unfold orderedRuntimeInputAdmissionReceipts. by rewrite map_to_list_empty. Qed.

(** The coordinator that the ledger was written from. *)
Definition origin (strict : bool) (c0 : RuntimeInputCoordinator) (l : option runtimeInputEnvelope) : Prop :=
  loadRuntimeInputEnvelope l = Ok (written c0) /\ Kept strict c0.

(** The coordinator after the ledger was read. *)
Definition read_back (c0 : RuntimeInputCoordinator) scope path w' delivered items receipts : RuntimeInputCoordinator :=
  (new_coordinator scope path w' delivered) <| c_revision := c_revision c0 |> <| c_nextSequence := c_nextSequence c0 |>
    <| c_items := items |> <| c_admissionReceipts := receipts |>.

Lemma open_reads strict c0 scope path w' disk defer lookup delivered l :
  origin strict c0 l -> c_scope (new_coordinator scope path w' delivered) = c_scope c0 -> TrimSpace path <> [] ->
  match transcript lookup delivered (c_items c0) with
  | None => NewRuntimeInputCoordinator scope path w' disk defer lookup delivered l = Err LookupFailed
  | Some found => exists d covered,
      List.filter (survives covered) (c_items c0) = List.filter (survives (delivered ∪ found)) (c_items c0) /\
      NewRuntimeInputCoordinator scope path w' disk defer lookup delivered l =
      match recover_items (c_scope c0) w' covered (strip <$> c_items c0) (c_admissionReceipts c0) [] false with
      | Err e => Err e
      | Ok (items, receipts, changed) =>
          match save_recovery disk defer changed
                  {| coord := read_back c0 scope path w' d items receipts; ledger := l |} with
          | Err e => Err e
          | Ok s => Ok (s <| coord ::= publish_recovered |>)
          end
      end
  end.
Proof.
  intros [Hl [Hw Hr _]] Hsc Hp. unfold NewRuntimeInputCoordinator. cbv zeta.
  change (c_path (new_coordinator scope path w' delivered)) with (TrimSpace path).
  rewrite bool_decide_eq_false_2 by done. rewrite Hl. cbn [written e_AdmissionReceipts e_NextSequence e_Items e_Version e_Revision].
  rewrite Hsc, (recover_receipts_all _ _ _ _ Hr).
  pose proof (resolve_answer _ _ lookup _ _ (new_coordinator scope path w' delivered) Hw) as Ha.
  change (c_delivered (new_coordinator scope path w' delivered)) with delivered in Ha.
  destruct (transcript lookup delivered (c_items c0)) as [found|]; [|by rewrite Ha].
  destruct Ha as (d & covered & Hd & Hf). exists d, covered. split; [done|]. rewrite Hd.
  by rewrite <- Hsc.
Qed.

Lemma publish_flags c : exists n g, publish_recovered c = c <| c_notify := n |> <| c_goalNotify := g |>.
Proof.
  exists (c_notify (publish_recovered c)), (c_goalNotify (publish_recovered c)).
  unfold publish_recovered. destruct (hasTransportEligiblePending _); destruct (hasPendingGoalContinuation _); by destruct c.
Qed.

Lemma back_strip scope w w' items :
  Forall (fun i => validateItem scope w i = true) items -> Forall (fun i => is_processing i = false) items ->
  Forall (fun i => i_State i <> RuntimeItemRejected) items -> strip <$> map (back w') items = strip <$> items.
Proof.
  intros Hv Hp Hr. change (strip <$> map (back w') items) with (map strip (map (back w') items)). rewrite map_map.
  apply map_ext_in. intros i Hi%list_elem_of_In. rewrite Forall_forall in Hv, Hp, Hr.
  rewrite <- (back_pending scope w w' i (Hv i Hi)), strip_reload; [done| |exact (Hp i Hi)].
  apply bool_decide_eq_false_2. auto.
Qed.
Lemma filter_id {A} (f : A -> bool) l : List.filter f l = l -> Forall (fun x => f x = true) l.
Proof. intros Hf. apply Forall_forall. intros x Hx. rewrite <- Hf in Hx. by apply elem_of_filter_b in Hx as [_ ?]. Qed.

Lemma open_made strict c0 scope path w' disk defer lookup delivered l s' :
  origin strict c0 l -> c_scope (new_coordinator scope path w' delivered) = c_scope c0 -> TrimSpace path <> [] ->
  NewRuntimeInputCoordinator scope path w' disk defer lookup delivered l = Ok s' ->
  exists found, transcript lookup delivered (c_items c0) = Some found /\
    same_owner (new_coordinator scope path w' delivered) (coord s') /\
    c_items (coord s') = map (back w') (List.filter (survives (delivered ∪ found)) (c_items c0)) /\
    c_nextSequence (coord s') = c_nextSequence c0 /\ Kept strict (coord s') /\
    (c_items c0 = [] -> c_admissionReceipts (coord s') = c_admissionReceipts c0) /\
    ((c_recoveryPending (coord s') = false /\ ledger s' = l /\ written (coord s') = written c0) \/
     (c_recoveryPending (coord s') = true /\ ledger s' = l) \/
     (c_recoveryPending (coord s') = false /\ ledger s' = Some (written (coord s')))).
Proof.
  intros Ho Hsc Hp Hopen. pose proof (open_reads strict c0 scope path w' disk defer lookup delivered l Ho Hsc Hp) as Hr.
  destruct (transcript lookup delivered (c_items c0)) as [found|]; [|congruence]. exists found. split; [done|].
  destruct Hr as (d & covered & Hf & Heq). rewrite Heq in Hopen. destruct Ho as [Hl Hk].
  pose proof Hk as [Hw Hre Hma]. pose proof (wf_items _ _ _ _ Hw) as W.
  assert (Hv : Forall (fun i => validateItem (c_scope c0) (c_promptWriter c0) i = true) (c_items c0)).
  { eapply Forall_impl; [exact W|]. by intros ? (? & _). }
  destruct (recover_items _ _ _ _ _ _ _) as [[[items m'] ch]|] eqn:E; [|done].
  assert (Hnone : c_items c0 = [] -> m' = c_admissionReceipts c0) by (intros En; rewrite En in E; by injection E).
  apply (recover_items_made _ _ _ _ _ _ _ _ _ _ _ _ _ Hw) in E as (-> & R1 & R2 & R3); [|done].
  cbn [app] in Hopen. set (c1 := read_back c0 scope path w' d _ m') in Hopen.
  assert (Hk1 : Kept strict c1).
  { apply (Kept_back strict c0 c1 w' covered m'); try done; [by apply R1|intros Hs; by apply R2, Hma]. }
  assert (Hms : forallb marshals (c_items (coord {| coord := c1; ledger := l |})) = true).
  { cbn. apply forallb_elem_of. intros x (y & -> & Hy)%list_elem_of_fmap. apply elem_of_filter_b in Hy as [Hy _].
    rewrite Forall_forall in Hv. by eapply marshals_back, Hv. }
  pose proof (save_recovery_cases disk defer ch {| coord := c1; ledger := l |} Hms Hp) as Hsave.
  destruct (save_recovery _ _ _ _) as [s1|]; [|done]. injection Hopen as <-.
  change (coord (s1 <| coord ::= publish_recovered |>)) with (publish_recovered (coord s1)).
  change (ledger (s1 <| coord ::= publish_recovered |>)) with (ledger s1).
  destruct (publish_flags (coord s1)) as (n & g & ->). cbn [coord ledger] in Hsave.
  assert (Hi1 : c_items c1 = map (back w') (List.filter (survives (delivered ∪ found)) (c_items c0))) by (cbn; by rewrite Hf).
  destruct Hsave as [(-> & ->)|[->|[Hc Hled]]].
  - split; [done|]. split; [exact Hi1|]. split; [done|]. split; [by destruct Hk1; split|]. split; [done|]. left.
    split; [done|]. split; [done|]. destruct (R3 eq_refl) as (_ & Hm' & Hall & Hnp).
    change (written c1 = written c0). unfold written. cbn [c1 read_back set c_items c_revision c_nextSequence c_admissionReceipts].
    f_equal; [|by rewrite Hm']. rewrite Hall. apply (back_strip (c_scope c0) (c_promptWriter c0)); [done..|].
    apply filter_id in Hall. eapply Forall_impl; [exact Hall|]. intros i Hs. unfold survives in Hs. by breflect.
  - split; [done|]. split; [exact Hi1|]. split; [done|]. split; [by destruct Hk1; split|]. split; [done|]. right. left. done.
  - rewrite Hc. rewrite Hled, Hc. split; [done|]. split; [exact Hi1|]. split; [done|].
    split; [by destruct Hk1; split|]. split; [done|]. by right; right.
Qed.

(** In a life without reused identifiers, the ledger can be opened, but for a
    write that fails. *)
Lemma open_total c0 scope path w' disk defer lookup delivered l e :
  origin true c0 l -> c_scope (new_coordinator scope path w' delivered) = c_scope c0 -> TrimSpace path <> [] ->
  transcript lookup delivered (c_items c0) <> None ->
  NewRuntimeInputCoordinator scope path w' disk defer lookup delivered l = Err e ->
  e = PersistFailed /\ disk = false /\ defer = false.
Proof.
  intros Ho Hsc Hp Ht Hopen. pose proof (open_reads true c0 scope path w' disk defer lookup delivered l Ho Hsc Hp) as Hr.
  destruct (transcript lookup delivered (c_items c0)) as [found|]; [|done].
  destruct Hr as (d & covered & Hf & Heq). rewrite Heq in Hopen. destruct Ho as [Hl [Hw Hre Hma]].
  destruct (recover_items_ok (c_scope c0) (c_items c0) (c_admissionReceipts c0) (c_nextSequence c0) (c_promptWriter c0) w'
    covered (c_items c0) (c_admissionReceipts c0) [] false) as (m' & ch & Hrec); try done;
    [by apply Hma|apply (wf_ids _ _ _ _ Hw)|].
  rewrite Hrec in Hopen. cbn [app] in Hopen. set (c1 := read_back c0 scope path w' d _ m') in Hopen.
  assert (Hms : forallb marshals (c_items (coord {| coord := c1; ledger := l |})) = true).
  { cbn. apply forallb_elem_of. intros x (y & -> & Hy)%list_elem_of_fmap. apply elem_of_filter_b in Hy as [Hy _].
    pose proof (wf_items _ _ _ _ Hw) as W. rewrite Forall_forall in W. by eapply marshals_back, W. }
  pose proof (save_recovery_cases disk defer ch {| coord := c1; ledger := l |} Hms Hp) as Hsave.
  destruct (save_recovery _ _ _ _) as [s1|]; [done|]. by injection Hopen as ->.
Qed.
(** ** Lives *)

(** The coordinator at [path]: it runs, or it is stopped and opened again, by
    another process, with other media, transcript and delivered items. *)
Inductive life_step (strict : bool) (scope : RuntimeInputScope) (path : bytes) : system -> option (bool * op) -> system -> Prop :=
| Lived s a s' : run_step clock materialize strict s a s' -> life_step strict scope path s (Some a) s'
| Reopened s w disk defer lookup delivered s' :
    (forall e, ledger s = Some e -> texts_valid e) ->
    NewRuntimeInputCoordinator scope path w disk defer lookup delivered (ledger s) = Ok s' ->
    life_step strict scope path s None s'.

(** What a life keeps. *)
Record Living (strict : bool) (scope : RuntimeInputScope) (path : bytes) (s : system) : Prop := {
  living_good : Good strict s;
  living_scope : c_scope (coord s) = c_scope (new_coordinator scope path 0 ∅);
  living_path : c_path (coord s) = TrimSpace path
}.

Lemma Good_origin strict s :
  Good strict s -> c_path (coord s) <> [] -> (forall e, ledger s = Some e -> texts_valid e) ->
  exists c0, origin strict c0 (ledger s) /\ c_scope c0 = c_scope (coord s) /\
    (ledger s = None -> c_items c0 = [] /\ c_nextSequence c0 = 0 /\ c_admissionReceipts c0 = ∅) /\
    (c_recoveryPending (coord s) = false -> c_items c0 = c_items (coord s) /\ c_nextSequence c0 = c_nextSequence (coord s)).
Proof.
  intros [Hk Hs] Hp Ht. destruct Hs as [|[(Hl & Hi & Hn & Hr)|(c0 & Hl & Hsc & Hk0 & _ & Hw)]]; [done| |].
  - exists ((coord s) <| c_revision := 0 |>). split; [|done]. split; [|by destruct Hk; split].
    rewrite Hl. cbn [loadRuntimeInputEnvelope]. unfold written.
    cbn [set c_items c_revision c_nextSequence c_admissionReceipts]. rewrite Hr, ordered_empty.
    change (c_items ((coord s) <| c_revision := 0 |>)) with (c_items (coord s)).
    change (c_nextSequence ((coord s) <| c_revision := 0 |>)) with (c_nextSequence (coord s)). by rewrite Hi, Hn.
  - specialize (Ht _ Hl). destruct (c_recoveryPending (coord s)) eqn:Ep.
    + exists c0. rewrite Hl. split; [split; [|done]|done]. cbn. by rewrite Ht.
    + rewrite Hw in Hl, Ht by done. exists (coord s). rewrite Hl. split; [split; [|done]|done]. cbn. by rewrite Ht.
Qed.

Lemma origin_written strict c0 e : texts_valid e -> origin strict c0 (Some e) -> e = written c0.
Proof.
  intros Ht [Ho _]. cbn [loadRuntimeInputEnvelope] in Ho. destruct (_ || _); [|done]. rewrite Ht in Ho. congruence.
Qed.

Lemma reopened_Living strict scope path w disk defer lookup delivered s s' :
  Living strict scope path s -> (forall e, ledger s = Some e -> texts_valid e) ->
  NewRuntimeInputCoordinator scope path w disk defer lookup delivered (ledger s) = Ok s' -> Living strict scope path s'.
Proof.
  intros [Hg Hsc Hpa] Ht Hopen. destruct (decide (TrimSpace path = [])) as [Hp|Hp].
  { unfold NewRuntimeInputCoordinator in Hopen. cbv zeta in Hopen.
    change (c_path (new_coordinator scope path w delivered)) with (TrimSpace path) in Hopen.
    rewrite bool_decide_eq_true_2 in Hopen by done. injection Hopen as <-. split; [|done|done]. split; [|by left].
    exact (good_kept _ _ (fresh_Good strict scope path w delivered)). }
  destruct (Good_origin strict s Hg ltac:(congruence) Ht) as (c0 & Ho & Hs0 & Hnone & _).
  destruct (open_made strict c0 scope path w disk defer lookup delivered (ledger s) s' Ho) as
    (found & _ & (Ho1 & Ho2 & _) & Hi & Hn & Hk & Hre & Hled); [by rewrite Hs0, Hsc|done..|].
  split; [|done|done]. split; [done|]. destruct Hled as [(_ & Hl & Hw)|[[Hpe Hl]|[_ Hl]]].
  - destruct (ledger s) as [e|] eqn:El; [|destruct (Hnone eq_refl) as (E1 & E2 & E3); right; left; rewrite Hl, Hi, Hn, Hre, E1 by done; done].
    right. right. exists (coord s'). split; [|split; [done|split; [done|split; [|done]]]].
    + rewrite Hl, Hw. f_equal. by eapply origin_written, Ho; apply Ht.
    + intros i Hin. by apply (list_elem_of_fmap_2 i_ID).
  - destruct (ledger s) as [e|] eqn:El; [|destruct (Hnone eq_refl) as (E1 & E2 & E3); right; left; rewrite Hl, Hi, Hn, Hre, E1 by done; done].
    right. right. exists c0. split; [|split; [by rewrite Hs0, Hsc, Ho1|split; [apply Ho|split; [|by rewrite Hpe]]]].
    + rewrite Hl. f_equal. by eapply origin_written, Ho; apply Ht.
    + intros i Hin. rewrite Hi in Hin. apply list_elem_of_fmap in Hin as (x & -> & Hx).
      apply elem_of_filter_b in Hx as [Hx _]. apply list_elem_of_fmap; by exists x.
  - right. right. exists (coord s'). split; [done|]. split; [done|]. split; [done|]. split; [|done].
    intros i Hin. by apply (list_elem_of_fmap_2 i_ID).
Qed.
Lemma life_step_Living strict scope path s a s' :
  Living strict scope path s -> life_step strict scope path s a s' -> Living strict scope path s'.
Proof.
  intros HL Hs. revert HL. destruct Hs as [s a s' Hs|s w disk defer lookup delivered s' Ht Hopen]; intros HL.
  - destruct HL as [Hg Hsc Hp]. assert (Hg' : Good strict s') by by eapply step_Good.
    destruct Hs as [disk o s _]. destruct (run_op_effect clock materialize disk o s) as (e & _ & He).
    assert (Ho : same_owner (coord s) (coord (run_op clock materialize disk o s).1)).
    { by destruct He as [[? _] _|? _ _ _ _|? ? ? ? ? _ ?]. }
    destruct Ho as (H1 & H2 & _). split; [done|congruence|congruence].
  - by eapply reopened_Living.
Qed.

Lemma life_Living strict scope path w delivered tr s :
  steps (life_step strict scope path) (fresh scope path w delivered) tr s -> Living strict scope path s.
Proof.
  intros Hr. eapply (steps_invariant _ (Living strict scope path)); [|exact Hr|].
  - intros ? ? ? HL Hs. by eapply life_step_Living.
  - split; [apply fresh_Good|done|done].
Qed.
End life.
