(* ===== verification/InputClaims.v ===== *)
(** * Claims of the runtime input coordinator

    An item that was handed out stays with its claimant until it is released. *)

From S2P Require Import Prelude GoStrings GoBase RuntimeItem InputCoordinator InputFacts InputInvariant InputRun.

Open Scope Z_scope.

Section claims.
Context `{ItemChecks} (clock : Z -> Z) (materialize : prompt_record -> option bytes).

(** The item [id] is not waiting, and will not be accepted as a new one. *)
Definition Held (id : bytes) (items : list RuntimeItem) (delivered : gset bytes) : Prop :=
  (forall i, i ∈ items -> i_ID i = id -> is_pending i = false) /\
  ((exists i, i ∈ items /\ i_ID i = id) \/ id ∈ delivered).

Definition held (id : bytes) (s : system) : Prop := Held id (c_items (coord s)) (c_delivered (coord s)).

Lemma Held_filter id f items D D' :
  Held id items D -> D ⊆ D' -> (forall i, i ∈ items -> i_ID i = id -> f i = true \/ id ∈ D') ->
  Held id (List.filter f items) D'.
Proof.
  intros [H1 H2] HD Hf. split; [intros i [Hi _]%elem_of_filter_b; by apply H1|].
  destruct H2 as [(i & Hi & Hid)|Hd]; [|right; by apply HD].
  destruct (Hf i Hi Hid) as [Hfi|Hd]; [|by right]. left. exists i. split; [|done]. by apply elem_of_filter_b.
Qed.

Lemma elem_of_alter (f : RuntimeItem -> RuntimeItem) (n : nat) (l : list RuntimeItem) x :
  x ∈ alter f n l <-> exists k y, l !! k = Some y /\ x = if decide (k = n) then f y else y.
Proof.
  rewrite list_elem_of_lookup. split.
  - intros [k Hk]. destruct (decide (k = n)) as [->|Hne].
    + rewrite list_lookup_alter_eq in Hk. destruct (l !! n) as [y|] eqn:E; [|done]. injection Hk as <-.
      exists n, y. by rewrite decide_True.
    + rewrite list_lookup_alter_ne in Hk by done. exists k, x. by rewrite decide_False.
  - intros (k & y & Hk & ->). exists k. destruct (decide (k = n)) as [->|Hne].
    + by rewrite list_lookup_alter_eq, Hk.
    + by rewrite list_lookup_alter_ne.
Qed.

Lemma Held_alter id f (n : nat) items D :
  (forall i, i_ID (f i) = i_ID i) ->
  (forall x, items !! n = Some x -> i_ID x = id -> is_pending x = false -> is_pending (f x) = false) ->
  Held id items D -> Held id (alter f n items) D.
Proof.
  intros Hid Hp [H1 H2]. split.
  - intros i (k & y & Hk & ->)%elem_of_alter. destruct (decide (k = n)) as [->|_].
    + rewrite Hid. intros Hy. apply Hp; [done..|]. apply H1; [by eapply list_elem_of_lookup_2|done].
    + intros Hy. apply H1; [by eapply list_elem_of_lookup_2|done].
  - destruct H2 as [(i & [k Hk]%list_elem_of_lookup & Hi)|Hd]; [left|by right].
    exists (if decide (k = n) then f i else i). split; [apply elem_of_alter; by exists k, i|].
    destruct (decide (k = n)); [by rewrite Hid|done].
Qed.

Lemma Held_delete id (n : nat) i items D :
  items !! n = Some i -> is_pending i = true -> Held id items D -> Held id (delete n items) D.
Proof.
  intros Hn Hp [H1 H2].
  assert (items ≡ₚ i :: delete n items) as Hperm by by apply delete_Permutation.
  split; [intros j Hj; apply H1; rewrite Hperm; set_solver|].
  destruct H2 as [(j & Hj & Hid)|Hd]; [left|by right]. rewrite Hperm in Hj. apply elem_of_cons in Hj as [-> | Hj].
  - specialize (H1 i (list_elem_of_lookup_2 _ _ _ Hn) Hid). congruence.
  - by exists j.
Qed.

Lemma commit_held {A} id disk candidate after (a : A) s :
  held id s -> (forall c, c_items (after c) = c_items c) ->
  Held id candidate (c_delivered (after ((coord s) <| c_items := candidate |> <| c_revision := u64 (c_revision (coord s) + 1) |>))) ->
  held id (commit disk candidate after a s).1.
Proof.
  intros Hh Ha Hc. unfold commit, persistLocked, persistStateLocked. cbv zeta.
  assert (forall s', coord s' = coord s ->
    held id (s' <| coord ::= fun c => after (c <| c_items := candidate |> <| c_revision := u64 (c_revision (coord s) + 1) |>) |>)) as Hs.
  { intros [c' l'] Heq. cbn in Heq. subst c'. unfold held. cbn [coord set]. by rewrite Ha. }
  case_bool_decide; [by apply Hs|]. destruct (forallb marshals candidate && disk); [by apply Hs|done].
Qed.

Lemma claim_at_held id disk chosen s : held id s -> held id (claim_at materialize disk chosen s).1.
Proof.
  intros Hh. unfold claim_at. destruct chosen as [[n i]|]; [|done]. destruct (materializeRuntimePrompt _ _); [|done].
  apply commit_held; [done|done|]. by apply Held_alter.
Qed.

Lemma claim_all_held id D l candidate claimed candidate' claimed' :
  claim_all materialize l candidate claimed = Ok (candidate', claimed') -> Held id candidate D -> Held id candidate' D.
Proof.
  revert candidate claimed. induction l as [|[n i] l IH]; intros candidate claimed; cbn [claim_all]; [by intros [= <- _]|].
  destruct (materializeRuntimePrompt _ _); [|done]. intros Hrun Hh. eapply IH; [exact Hrun|]. by apply Held_alter.
Qed.

Lemma enqueue_all_held id bk mp ra c items b b' :
  enqueue_all clock bk mp ra c items b = Ok b' -> Held id (b_items b) (c_delivered c) -> Held id (b_items b') (c_delivered c).
Proof.
  revert b. induction items as [|item items IH]; intros b Hrun Hh; cbn [enqueue_all] in Hrun; [by injection Hrun as <-|].
  destruct (enqueue_one clock bk mp ra c item b) as [b1|] eqn:E; [|done]. eapply IH; [exact Hrun|].
  apply enqueue_one_ok in E as (x & _ & _ & Hp & Hx). apply enqueue_prepared_cases in Hx; [|done].
  destruct Hx as [Hi _ _ _|? ? _ _ _ _ _ Hi _ _ _|n Hid Hnew Hdel Hst _ _ _ _ _ Hi _ _ _]; rewrite Hi; try done.
  destruct Hh as [H1 H2]. split.
  - intros j [Hj | ->%list_elem_of_singleton]%elem_of_app Hjd; [by apply H1|]. exfalso.
    destruct H2 as [(k & Hk & Hkd)|Hd]; [|congruence]. apply Hnew. rewrite <- Hid, Hjd, <- Hkd.
    by apply (list_elem_of_fmap_2 i_ID).
  - destruct H2 as [(k & Hk & Hkd)|Hd]; [left; exists k; set_solver|by right].
Qed.

Lemma enqueueBatchLocked_held id disk items bk mp pub ra s :
  held id s -> held id (enqueueBatchLocked clock disk items bk mp pub ra s).1.
Proof.
  intros Hh. unfold enqueueBatchLocked. cbv zeta. destruct (enqueue_all _ _ _ _ _ _ _) as [b|] eqn:E; [|done].
  destruct (negb (b_changed b)); [done|]. pose proof (enqueue_all_held id _ _ _ _ _ _ _ E Hh) as Hb.
  unfold persistStateLocked. case_bool_decide.
  - unfold held. cbn [fst coord set]. by destruct (pub && _).
  - destruct (forallb marshals (b_items b) && disk); [|done]. unfold held. cbn [fst coord set]. by destruct (pub && _).
Qed.

Lemma Settle_held id disk ids s : held id s -> held id (Settle disk ids s).1.
Proof.
  intros Hh. unfold Settle. cbv zeta. case_bool_decide; [done|]. destruct (_ =? _)%nat.
  - destruct Hh as [H1 H2]. split; [exact H1|]. destruct H2 as [H2|H2]; [by left|right]. cbn. set_solver.
  - apply commit_held; [done|done|]. apply (Held_filter id _ _ (c_delivered (coord s))); [done|cbn; set_solver|].
    intros i _ Hid. cbn. destruct (decide (i_ID i ∈ id_set ids)) as [Hin|Hin]; [right; rewrite <- Hid; set_solver|].
    left. by apply bool_decide_eq_true_2.
Qed.

(** Only a release of the item hands it back. *)
Lemma run_op_held id disk o s :
  (forall r, o = DoRelease r -> r <> id) -> held id s -> held id (run_op clock materialize disk o s).1.
Proof.
  intros Ho Hh. destruct o; cbn [run_op claimed_one fst].
  - unfold EnqueueBatch. case_bool_decide; [done|by apply enqueueBatchLocked_held].
  - unfold Enqueue, EnqueueBatch. rewrite single_state. case_bool_decide; [done|by apply enqueueBatchLocked_held].
  - unfold EnqueueBounded. destruct (_ <=? _); [done|]. rewrite single_state. by apply enqueueBatchLocked_held.
  - unfold EnqueueBoundedWithAdmissionReceipt. destruct (_ <=? _); [done|]. rewrite single_state. by apply enqueueBatchLocked_held.
  - unfold enqueueDormantGoalContinuation. destruct (negb _); [done|].
    pose proof (enqueueBatchLocked_held id disk [item] RuntimeItemGoalContinuation 1 false false s Hh) as Hb.
    rewrite <- single_state in Hb. by destruct (single _) as [s' [i|err]].
  - unfold enqueueDurableUserPrompt. cbv zeta. destruct (i_Kind item), (i_UserPrompt item); try done.
    case_bool_decide; [done|]. unfold EnqueueBounded. destruct (_ <=? _); [done|]. rewrite single_state.
    by apply enqueueBatchLocked_held.
  - unfold ClaimSafePoint. cbv zeta. case_bool_decide; [done|]. destruct (claim_all _ _ _ _) as [[l1 l2]|] eqn:E; [|done].
    apply commit_held; [done|done|]. by eapply claim_all_held.
  - by apply claim_at_held.
  - unfold claimGoalContinuation. cbv zeta. destruct (blank id0); [done|]. destruct (existsb _ _); [done|]. by apply claim_at_held.
  - unfold claimByID. destruct (blank id0); [done|]. by apply claim_at_held.
  - unfold ClaimStop. cbv zeta. destruct (best_of _ _ _) as [[n i]|]; [|done]. apply commit_held; [done|done|].
    by apply Held_alter.
  - unfold Release. destruct (blank id0); [done|]. destruct (first_item _ _) as [[n i]|] eqn:E; [|done].
    apply first_item_Some in E as [Hn [Hi _]%andb_true_iff]. apply bool_decide_eq_true in Hi.
    apply commit_held; [done|intros c; by destruct (_ ==b _)|].
    assert (forall c, c_delivered (if i_Kind i ==b RuntimeItemGoalContinuation
      then signalGoal (c <| c_submitting ::= fun l => l ∖ {[ id0 ]} |>)
      else signal (c <| c_submitting ::= fun l => l ∖ {[ id0 ]} |>)) = c_delivered c) as -> by (intros c; by destruct (_ ==b _)).
    apply Held_alter; [done| |done]. intros x Hx Hid. exfalso. apply (Ho id0); [done|]. congruence.
  - unfold rejectGoalContinuation. cbv zeta. destruct (blank id0); [done|]. destruct (blank code); [done|].
    destruct (first_item _ _) as [[n i]|]; [|done].
    destruct (i_State i); try done; (apply commit_held; [done|done|]; by apply Held_alter).
  - by apply Settle_held.
  - by apply Settle_held.
  - unfold Cancel. destruct (blank id0); [done|]. cbv zeta. destruct (_ =? _)%nat; [done|].
    apply commit_held; [done|done|]. apply (Held_filter id _ _ (c_delivered (coord s))); [done|done|].
    intros i Hi Hid. left. destruct Hh as [H1 _]. rewrite (H1 i Hi Hid), andb_false_r. done.
  - unfold editPendingUserPrompt. cbv zeta. destruct (blank id0); [done|].
    destruct (first_item _ _) as [[n i]|] eqn:E; [|done]. apply first_item_Some in E as [Hn Hi].
    destruct (materializeRuntimePrompt _ _) as [m|]; [|done]. destruct (draft_of m); [|done].
    apply commit_held; [done|done|]. apply (Held_delete id n i); [done| |done].
    apply andb_true_iff in Hi as [Hi _]. by apply andb_true_iff in Hi as [_ ?].
  - unfold processingDurableRuntimePrompt. cbv zeta. destruct (_ ≫= _); [|done]. case_bool_decide; [done|].
    destruct (head _); [|done]. by destruct (materializeRuntimePrompt _ _).
  - unfold ResolveDelivered, resolveDelivered. cbv zeta. destruct lookup as [f|]; [|by destruct s].
    case_bool_decide; [by destruct s|]. destruct (f _) as [found|]; [|done].
    destruct Hh as [H1 H2]. split; [exact H1|]. destruct H2 as [H2|H2]; [by left|right]. cbn. set_solver.
  - unfold commitDeferredRecovery, persistLocked, persistStateLocked. destruct (negb _); [done|].
    case_bool_decide; [done|]. by destruct (_ && disk).
Qed.

(** ** What a claim hands out *)

Lemma materialize_same i m :
  materializeRuntimePrompt materialize i = Ok m ->
  i_ID m = i_ID i /\ i_State m = i_State i /\ i_Priority m = i_Priority i /\ i_Sequence m = i_Sequence i.
Proof.
  unfold materializeRuntimePrompt. destruct (i_UserPrompt i) as [p|]; [|by intros [= ->]].
  destruct (up_durablePrompt p) as [r|]; [|by intros [= ->]]. destruct (materialize r); [|done]. by intros [= <-].
Qed.

(** A commit either fails, and changes nothing, or installs its candidate. *)
Lemma commit_cases {A} disk candidate after (a : A) s s' r :
  commit disk candidate after a s = (s', r) ->
  (s' = s /\ r = Err PersistFailed /\ (forallb marshals candidate = true -> disk = false)) \/
  (r = Ok a /\ coord s' = after ((coord s) <| c_items := candidate |> <| c_revision := u64 (c_revision (coord s) + 1) |>)).
Proof.
  unfold commit, persistLocked, persistStateLocked. cbv zeta. case_bool_decide; [intros [= <- <-]; by right|].
  destruct (forallb marshals candidate) eqn:Em, disk; cbn [andb]; intros [= <- <-]; try (by right); by left.
Qed.

Lemma claim_all_claimed l candidate claimed candidate' claimed' :
  claim_all materialize l candidate claimed = Ok (candidate', claimed') ->
  exists ms, claimed' = claimed ++ ms /\
    Forall2 (fun (ni : nat * RuntimeItem) m => materializeRuntimePrompt materialize (with_state RuntimeItemProcessing ni.2) = Ok m) l ms /\
    forall k, candidate' !! k = if decide (k ∈ l.*1) then with_state RuntimeItemProcessing <$> candidate !! k else candidate !! k.
Proof.
  revert candidate claimed. induction l as [|[n i] l IH]; intros candidate claimed; cbn [claim_all].
  { intros [= <- <-]. exists []. rewrite app_nil_r. split; [done|]. split; [constructor|].
    intros k. by rewrite decide_False by apply not_elem_of_nil. }
  destruct (materializeRuntimePrompt _ _) as [m|] eqn:Em; [|done].
  intros (ms & -> & Hms & Hk)%IH. exists (m :: ms). rewrite <- app_assoc. split; [done|]. split; [by constructor|].
  intros k. rewrite Hk. unfold set_state. cbn [fmap list_fmap fst].
  destruct (decide (n = k)) as [->|Hne].
  - rewrite list_lookup_alter_eq, (decide_True (P := k ∈ k :: l.*1)) by set_solver.
    destruct (decide (k ∈ l.*1)); [|done]. by destruct (candidate !! k).
  - rewrite list_lookup_alter_ne by done.
    destruct (decide (k ∈ l.*1)); [rewrite decide_True by set_solver|rewrite decide_False by set_solver]; done.
Qed.

(** The queue after the items that satisfy [f] were claimed. *)
Definition claim_where (f : RuntimeItem -> bool) (items : list RuntimeItem) : list RuntimeItem :=
  map (fun i => if f i then with_state RuntimeItemProcessing i else i) items.

Lemma claim_all_where f items l ms candidate :
  l ≡ₚ List.filter (fun ni => f ni.2) (indexed items) ->
  claim_all materialize l items [] = Ok (candidate, ms) ->
  candidate = claim_where f items /\
  Forall2 (fun ni m => materializeRuntimePrompt materialize (with_state RuntimeItemProcessing ni.2) = Ok m) l ms.
Proof.
  intros Hl (ms' & -> & Hms & Hk)%claim_all_claimed. split; [|done]. apply list_eq. intros k. rewrite Hk.
  unfold claim_where. rewrite list_lookup_fmap. destruct (items !! k) as [i|] eqn:Ei; cbn; [|by destruct (decide _)].
  destruct (decide (k ∈ l.*1)) as [Hin|Hin].
  - rewrite list_elem_of_fmap in Hin. destruct Hin as ([k' i'] & -> & Hin). cbn in *. rewrite Hl in Hin.
    apply elem_of_filter_indexed in Hin as [Hk' Hf]. rewrite Hk' in Ei. injection Ei as ->. by rewrite Hf.
  - destruct (f i) eqn:Ef; [|done]. exfalso. apply Hin. apply list_elem_of_fmap. exists (k, i). split; [done|].
    rewrite Hl. by apply elem_of_filter_indexed.
Qed.

(** ** Errors of a claim *)

Lemma marshals_with_state st i : marshals (with_state st i) = marshals i.
Proof. done. Qed.

(** The media of some item cannot be read. *)
Definition unreadable (i : RuntimeItem) : Prop :=
  exists p r, i_UserPrompt i = Some p /\ up_durablePrompt p = Some r /\ materialize r = None.

Lemma materialize_error i e : materializeRuntimePrompt materialize i = Err e -> e = MaterializeFailed /\ unreadable i.
Proof.
  unfold materializeRuntimePrompt. destruct (i_UserPrompt i) as [p|] eqn:Ep; [|done].
  destruct (up_durablePrompt p) as [r|] eqn:Er; [|done]. destruct (materialize r) eqn:Em; [done|].
  intros [= <-]. split; [done|]. by exists p, r.
Qed.

Lemma claim_all_error l candidate claimed e :
  claim_all materialize l candidate claimed = Err e -> e = MaterializeFailed /\ exists ni, ni ∈ l /\ unreadable ni.2.
Proof.
  revert candidate claimed. induction l as [|[n i] l IH]; intros candidate claimed; cbn [claim_all]; [done|].
  destruct (materializeRuntimePrompt _ _) as [m|e'] eqn:Em.
  - intros (-> & ni & Hni & Hu)%IH. split; [done|]. exists ni. split; [set_solver|done].
  - intros [= <-]. apply materialize_error in Em as [-> Hu]. split; [done|]. exists (n, i). split; [set_solver|done].
Qed.

(** ** Lists of claimed items *)

Abbreviation handed l ms := (Forall2 (fun (ni : nat * RuntimeItem) m =>
  materializeRuntimePrompt materialize (with_state RuntimeItemProcessing ni.2) = Ok m) l ms).

Lemma handed_ids l ms : handed l ms -> map i_ID ms = map (fun ni : nat * RuntimeItem => i_ID ni.2) l.
Proof. induction 1 as [|ni m l ms Hm _ IH]; [done|]. cbn. apply materialize_same in Hm as (-> & _). by rewrite IH. Qed.

Lemma handed_states l ms : handed l ms -> Forall (fun m => i_State m = RuntimeItemProcessing) ms.
Proof. induction 1 as [|ni m l ms Hm _ IH]; constructor; [|done]. by apply materialize_same in Hm as (_ & -> & _). Qed.

Lemma handed_before ni nj mi mj :
  materializeRuntimePrompt materialize (with_state RuntimeItemProcessing ni) = Ok mi ->
  materializeRuntimePrompt materialize (with_state RuntimeItemProcessing nj) = Ok mj ->
  claimed_before mi mj = claimed_before ni nj.
Proof.
  intros (_ & _ & H1 & H2)%materialize_same (_ & _ & H3 & H4)%materialize_same.
  unfold claimed_before. by rewrite H1, H2, H3, H4.
Qed.

Lemma handed_sorted l ms :
  handed l ms -> StronglySorted (fun a b => claimed_before b.2 a.2 = false) l ->
  StronglySorted (fun a b => claimed_before b a = false) ms.
Proof.
  induction 1 as [|ni m l ms Hm Hms IH]; [constructor|]. intros [Hl Hx]%StronglySorted_inv.
  constructor; [by apply IH|]. clear IH Hl. induction Hms as [|nj mj l ms Hj _ IH]; [constructor|].
  apply Forall_cons in Hx as [Hx1 Hx]. constructor; [|by apply IH]. by rewrite (handed_before nj.2 ni.2).
Qed.

Lemma filter_indexed_ids f items :
  map i_ID (List.filter f items) = map (fun ni : nat * RuntimeItem => i_ID ni.2) (List.filter (fun ni => f ni.2) (indexed items)).
Proof.
  assert (forall (g : nat -> nat), map i_ID (List.filter f items) =
    map (fun ni : nat * RuntimeItem => i_ID ni.2) (List.filter (fun ni => f ni.2) (imap (fun n i => (g n, i)) items))) as Hg.
  { induction items as [|i items IH]; intros g; [done|]. cbn. specialize (IH (g ∘ S)).
    destruct (f i); cbn; [f_equal|]; apply IH. }
  apply (Hg (fun n => n)).
Qed.

Lemma filter_nil {A} (f : A -> bool) l : (forall x, x ∈ l -> f x = false) -> List.filter f l = [].
Proof.
  induction l as [|x l IH]; intros Hf; [done|]. cbn. rewrite (Hf x) by set_solver. apply IH. set_solver.
Qed.

Lemma claim_where_none f items : (forall i, i ∈ items -> f i = false) -> claim_where f items = items.
Proof.
  induction items as [|i items IH]; intros Hf; [done|]. cbn. rewrite (Hf i) by set_solver. f_equal. apply IH. set_solver.
Qed.

Lemma claim_where_marshals f items : forallb marshals items = true -> forallb marshals (claim_where f items) = true.
Proof.
  rewrite !forallb_elem_of. intros Hm x (i & -> & Hi)%list_elem_of_fmap.
  destruct (f i); [rewrite marshals_with_state|]; by apply Hm.
Qed.

(** ** Claimed items are held *)

Lemma Held_claimed n i items D :
  NoDup (map i_ID items) -> items !! n = Some i -> Held (i_ID i) (set_state RuntimeItemProcessing n items) D.
Proof.
  intros Hnd Hn. split.
  - intros j (k & y & Hk & ->)%elem_of_alter Hid. destruct (decide (k = n)) as [->|Hne]; [done|]. exfalso. apply Hne.
    eapply NoDup_lookup; [exact Hnd| |]; rewrite list_lookup_fmap; [by rewrite Hk|]. rewrite Hn. cbn. by rewrite Hid.
  - left. exists (with_state RuntimeItemProcessing i). split; [|done]. apply elem_of_alter. exists n, i.
    by rewrite decide_True.
Qed.

(** The items handed out by [r] were waiting in [s], and are held after it. *)
Definition hands_out (s : system) (r : system * list RuntimeItem) : Prop :=
  forall m, m ∈ r.2 ->
    (exists i, i ∈ c_items (coord s) /\ i_ID i = i_ID m /\ is_pending i = true) /\ held (i_ID m) r.1.

Lemma hands_nothing s s' : hands_out s (s', []).
Proof. intros m Hm. by apply elem_of_nil in Hm. Qed.

Lemma commit_claim disk n i m s :
  NoDup (map i_ID (c_items (coord s))) -> c_items (coord s) !! n = Some i -> is_pending i = true -> i_ID m = i_ID i ->
  hands_out s (claimed_one (commit disk (set_state RuntimeItemProcessing n (c_items (coord s))) (fun c => c) (Some m) s)).
Proof.
  intros Hnd Hn Hp Hm. destruct (commit _ _ _ _ _) as [s' r] eqn:E.
  apply commit_cases in E as [(-> & -> & _)|(-> & Hc)]; [apply hands_nothing|].
  intros x Hx%list_elem_of_singleton. subst x. split; [exists i; split; [by eapply list_elem_of_lookup_2|done]|].
  unfold held. cbn [claimed_one fst]. rewrite Hc, Hm. by apply Held_claimed.
Qed.

Lemma claim_at_hands disk chosen s :
  NoDup (map i_ID (c_items (coord s))) ->
  (forall n i, chosen = Some (n, i) -> c_items (coord s) !! n = Some i /\ is_pending i = true) ->
  hands_out s (claimed_one (claim_at materialize disk chosen s)).
Proof.
  intros Hnd Hc. unfold claim_at. destruct chosen as [[n i]|]; [|apply hands_nothing].
  destruct (Hc n i eq_refl) as [Hn Hp].
  destruct (materializeRuntimePrompt _ _) as [m|e] eqn:Em; [|apply hands_nothing].
  apply materialize_same in Em as [Hid _]. by apply (commit_claim disk n i).
Qed.

Lemma Held_where f i items D : i ∈ items -> f i = true -> NoDup (map i_ID items) -> Held (i_ID i) (claim_where f items) D.
Proof.
  intros Hi Hf Hnd. split.
  - intros j (x & -> & Hx)%list_elem_of_fmap Hid.
    assert (x = i) as ->; [|by rewrite Hf]. eapply (same_by i_ID); [exact Hnd|done..|].
    rewrite <- Hid. by destruct (f x).
  - left. exists (with_state RuntimeItemProcessing i). split; [|done]. apply list_elem_of_fmap. exists i. by rewrite Hf.
Qed.

Lemma ClaimSafePoint_hands disk scope iu al s :
  NoDup (map i_ID (c_items (coord s))) -> hands_out s (run_op clock materialize disk (DoClaimSafePoint scope iu al) s).
Proof.
  intros Hnd. cbn [run_op]. unfold ClaimSafePoint. cbv zeta.
  set (eligible := at_safe_point (normalizeScope (coord s) scope) iu al).
  case_bool_decide; [apply hands_nothing|].
  destruct (claim_all _ _ _ _) as [[candidate claimed]|e] eqn:Ea; [|apply hands_nothing].
  apply (claim_all_where eligible) in Ea as [-> Hms]; [|apply stable_sort_perm].
  destruct (commit _ _ _ _ _) as [s' r] eqn:E. apply commit_cases in E as [(-> & -> & _)|(-> & Hc)]; [apply hands_nothing|].
  intros m Hm. cbn [fst snd] in *. apply list_elem_of_lookup in Hm as [k Hk].
  destruct (Forall2_lookup_r _ _ _ _ _ Hms Hk) as ([n i] & Hl & [Hid _]%materialize_same).
  apply list_elem_of_lookup_2 in Hl. rewrite stable_sort_perm in Hl. apply elem_of_filter_indexed in Hl as [Hn Hi].
  cbn in Hid. rewrite Hid. apply list_elem_of_lookup_2 in Hn. split.
  - exists i. split_and!; [done..|]. by eapply at_safe_point_pending.
  - unfold held. rewrite Hc. by apply Held_where.
Qed.

Lemma run_op_hands disk o s :
  NoDup (map i_ID (c_items (coord s))) -> hands_out s (run_op clock materialize disk o s).
Proof.
  intros Hnd. destruct o; cbn [run_op]; try apply hands_nothing.
  - by apply ClaimSafePoint_hands.
  - apply claim_at_hands; [done|]. intros n i [Hb|]%best_of_elem; [|done].
    apply elem_of_filter_indexed in Hb as [Hn Hi]. split; [done|]. by eapply when_idle_pending.
  - unfold claimGoalContinuation. cbv zeta. destruct (blank id); [apply hands_nothing|].
    destruct (existsb _ _); [apply hands_nothing|]. apply claim_at_hands; [done|]. intros n i Hl.
    apply last_Some_elem_of in Hl. apply elem_of_filter_indexed in Hl as [Hn Hi]. split; [done|].
    apply bool_decide_eq_true. by eapply goal_item_state.
  - unfold claimByID. destruct (blank id); [apply hands_nothing|]. apply claim_at_hands; [done|].
    intros n i [Hn Hi]%first_item_Some. split; [done|]. by apply andb_true_iff in Hi as [_ ?].
  - unfold ClaimStop. cbv zeta. destruct (best_of _ _ _) as [[n i]|] eqn:E; [|apply hands_nothing].
    apply best_of_elem in E as [E|]; [|done]. apply elem_of_filter_indexed in E as [Hn Hi].
    apply (commit_claim disk n i); [done|done| |done]. unfold pending_stop in Hi.
    by repeat (apply andb_true_iff in Hi as [Hi _]).
Qed.

(** ** Receipts stay *)

Lemma enqueue_all_receipts bk mp ra c items b b' :
  enqueue_all clock bk mp ra c items b = Ok b' -> b_receipts b ⊆ b_receipts b'.
Proof.
  revert b. induction items as [|item items IH]; intros b Hrun; cbn [enqueue_all] in Hrun; [by injection Hrun as <-|].
  destruct (enqueue_one clock bk mp ra c item b) as [b1|] eqn:E; [|done]. etransitivity; [|by apply IH].
  apply enqueue_one_ok in E as (i & Hid & _ & Hp & E). apply enqueue_prepared_cases in E; [|done].
  destruct E as [_ -> _ _|x r _ _ _ Hn _ _ -> _ _|x _ _ _ _ Hn _ _ _ _ _ _ _ Hr]; [done|by apply insert_subseteq|].
  destruct ra; [|by rewrite Hr]. destruct Hr as (r & _ & ->). apply insert_subseteq. by apply Hn.
Qed.

Lemma run_op_receipts disk o s :
  c_admissionReceipts (coord s) ⊆ c_admissionReceipts (coord (run_op clock materialize disk o s).1).
Proof.
  destruct (run_op_effect clock materialize disk o s) as (e & _ & Hf).
  destruct Hf as [(_ & _ & _ & _ & -> & _) _|_ _ _ -> _|bk mp ra items b _ _ Hrun _ -> _ _]; try done.
  by apply enqueue_all_receipts in Hrun.
Qed.

Lemma run_receipts strict s tr s' :
  steps (run_step clock materialize strict) s tr s' ->
  c_admissionReceipts (coord s) ⊆ c_admissionReceipts (coord s').
Proof.
  induction 1 as [|s1 l s2 ls s3 Hst _ IH]; [done|]. etransitivity; [|exact IH].
  destruct Hst as [disk o s0 _]. apply run_op_receipts.
Qed.

(** What an item that asks for a receipt does to the batch. *)
Lemma enqueue_receipted bk mp c item b b' :
  enqueue_one clock bk mp true c item b = Ok b' ->
  exists x, b_accepted b' = b_accepted b ++ [x] /\ i_ID x = TrimSpace (i_ID item) /\
    is_Some (b_receipts b' !! TrimSpace (i_ID item)) /\
    (is_Some (b_receipts b !! TrimSpace (i_ID item)) ->
     b' = accept x b /\ (x ∈ b_items b \/ i_State x = RuntimeItemProcessing)) /\
    (b_changed b' = false -> is_Some (b_receipts b !! TrimSpace (i_ID item))).
Proof.
  intros (i & Hid & _ & _ & E)%enqueue_one_ok. rewrite <- Hid. unfold enqueue_prepared in E.
  destruct (b_receipts b !! i_ID i) as [r|] eqn:Er.
  - unfold enqueue_acknowledged in E. destruct (runtimeInputAdmissionReceiptMatches r i) as [[|]|]; try done.
    destruct (runtimeItemByID _ _) as [e|] eqn:Ee.
    + apply runtimeItemByID_Some in Ee as [Hin He]. destruct (same_payload e i); [|done]. injection E as <-.
      exists e. cbn. rewrite Er. split_and!; eauto.
    + cbv zeta in E. destruct (validateItem _ _ _); [|done]. injection E as <-. eexists. cbn. rewrite Er. split_and!; eauto.
  - case_bool_decide; [done|]. destruct (runtimeItemByID _ _) as [e|] eqn:Ee.
    + apply runtimeItemByID_Some in Ee as [Hin He]. destruct (same_payload e i); cbn [negb] in E; [|done].
      destruct (runtimeInputAdmissionReceiptFor e) as [r|]; [|done]. injection E as <-.
      exists e. cbn. rewrite lookup_insert_eq. split_and!; [done..| |done]. by intros [? ?].
    + unfold enqueue_new in E. cbv zeta in E. destruct (_ && _ && _); [done|]. destruct (negb _); [done|].
      destruct (runtimeInputAdmissionReceiptFor _) as [r|]; [|done]. injection E as <-.
      eexists. cbn. rewrite lookup_insert_eq. split_and!; [done..| |done]. by intros [? ?].
Qed.

(** An item that is accepted with a receipt is acknowledged from then on. *)
Lemma accepted_with_receipt disk item n s s' i :
  EnqueueBoundedWithAdmissionReceipt clock disk item n s = (s', Ok i) ->
  i_ID i = TrimSpace (i_ID item) /\ is_Some (c_admissionReceipts (coord s') !! TrimSpace (i_ID item)).
Proof.
  unfold EnqueueBoundedWithAdmissionReceipt, enqueueBatchLocked. cbv zeta. destruct (n <=? 0); [done|].
  cbn [enqueue_all]. destruct (enqueue_one _ _ _ _ _ _ _) as [b|] eqn:E; [|done].
  apply enqueue_receipted in E as (x & Ha & Hx & Hr & _ & Hk). cbn [b_accepted app] in Ha. rewrite Ha.
  destruct (b_changed b) eqn:Ec; cbn [negb].
  - unfold persistStateLocked. case_bool_decide; [|destruct (forallb _ _ && disk); [|done]];
      (cbn [single]; intros [= <- <-]; split; [done|]; cbn; by destruct (hasTransportEligiblePending _)).
  - intros [= <- <-]. split; [done|]. by apply Hk.
Qed.

(** One that was acknowledged before changes nothing. *)
Lemma acknowledged_again disk item n s :
  is_Some (c_admissionReceipts (coord s) !! TrimSpace (i_ID item)) ->
  exists r, EnqueueBoundedWithAdmissionReceipt clock disk item n s = (s, r) /\
    forall i, r = Ok i -> i_ID i = TrimSpace (i_ID item) /\
      (i ∈ c_items (coord s) \/ i_State i = RuntimeItemProcessing).
Proof.
  intros Hs. unfold EnqueueBoundedWithAdmissionReceipt, enqueueBatchLocked. cbv zeta.
  destruct (n <=? 0); [by eexists|]. cbn [enqueue_all].
  destruct (enqueue_one _ _ _ _ _ _ _) as [b|] eqn:E; [|by eexists].
  apply enqueue_receipted in E as (x & _ & Hx & _ & Hb & _). destruct (Hb Hs) as [-> Hin].
  cbn. eexists. split; [done|]. by intros i [= <-].
Qed.
End claims.
