(* ===== verification/InputProperties.v ===== *)
(** * Properties of the runtime input coordinator

    The queue is well-formed and its ledger is up to date whatever happens to
    the writes; a reopened ledger gives back what was accepted; claims hand out
    the right items in the right order, each to one claimant. *)

From S2P Require Import Prelude GoStrings GoBase RuntimeItem InputCoordinator InputFacts InputInvariant InputRun InputRecovery InputLife InputClaims.

Open Scope Z_scope.

Section properties.
Context `{ItemChecks} (clock : Z -> Z) (materialize : prompt_record -> option bytes).

(** C27: whatever a coordinator lives through (any operations, whichever of their
    writes fail, stops at any point and openings from the ledger it left, whose
    recovery may be written at once or deferred), its items are valid, have
    distinct identifiers and increasing sequence numbers, and every item of a
    durable coordinator is in its ledger: nothing is observed that was not durably
    accepted.  Unless a recovery is deferred, the ledger holds exactly the items,
    receipts, sequence number and revision that are in memory; and when its texts
    are valid UTF-8, it reads as it was written.  Sequence numbers stay below
    2^64, and a ledger is opened only when its texts are valid UTF-8. *)
Theorem queue_well_formed scope path w delivered tr s :
  steps (life_step clock materialize false scope path) (fresh scope path w delivered) tr s ->
  Forall (fun i => validateItem (c_scope (coord s)) (c_promptWriter (coord s)) i = true) (c_items (coord s)) /\
  NoDup (map i_ID (c_items (coord s))) /\ StronglySorted Z.lt (map i_Sequence (c_items (coord s))) /\
  (TrimSpace path <> [] ->
   (ledger s = None /\ c_items (coord s) = []) \/
   exists e, ledger s = Some e /\ (forall i, i ∈ c_items (coord s) -> i_ID i ∈ map i_ID (e_Items e)) /\
     (c_recoveryPending (coord s) = false -> e = written (coord s)) /\
     (texts_valid e -> loadRuntimeInputEnvelope (ledger s) = Ok e)).
Proof.
  intros [Hg _ Hp]%life_Living. pose proof (good_wf _ _ Hg) as Hw. split; [|split; [|split]].
  - eapply Forall_impl; [exact (wf_items _ _ _ _ Hw)|]. by intros i (? & _).
  - exact (wf_ids _ _ _ _ Hw).
  - exact (wf_seqs _ _ _ _ Hw).
  - rewrite <- Hp. intros Hne. destruct Hg as [_ [|[(? & ? & _)|(c0 & Hl & _ & _ & Hin & Hw0)]]]; [done|by left|right].
    exists (written c0). split; [done|]. split; [|split; [exact Hw0|]].
    + intros i Hi. cbn [written e_Items]. rewrite <- list_fmap_compose. exact (Hin i Hi).
    + intros Ht. rewrite Hl. cbn. by rewrite Ht.
Qed.

(** C25: the ledger that a durable coordinator leaves, wherever its life ends, can
    be opened again.  Opening fails when the transcript cannot tell which items it
    has, and otherwise only when the recovery is to be written at once and the
    write fails.  The new coordinator has exactly the items of the old one, in
    order and with their sequence numbers: those that were being processed wait
    again, and only stops, rejected items and those that were delivered, as the
    caller or the transcript says, are left out.  This is for lives in which no
    item is enqueued, without asking for a receipt, under an identifier that an
    earlier receipt acknowledges; the texts of the ledger are valid UTF-8, and no
    deferred recovery is still to be written. *)
Theorem ledger_recovers scope path w delivered tr s w' disk defer lookup delivered' :
  steps (life_step clock materialize true scope path) (fresh scope path w delivered) tr s ->
  TrimSpace path <> [] -> c_recoveryPending (coord s) = false -> (forall e, ledger s = Some e -> texts_valid e) ->
  match transcript lookup delivered' (c_items (coord s)),
        NewRuntimeInputCoordinator scope path w' disk defer lookup delivered' (ledger s) with
  | None, r => r = Err LookupFailed
  | Some _, Err e => e = PersistFailed /\ disk = false /\ defer = false
  | Some found, Ok s' =>
      c_items (coord s') = map (back w') (List.filter (survives (delivered' ∪ found)) (c_items (coord s))) /\
      c_nextSequence (coord s') = c_nextSequence (coord s)
  end.
Proof.
  intros [Hg Hsc Hpa]%life_Living Hp Hpe Ht.
  destruct (Good_origin true s Hg ltac:(congruence) Ht) as (c0 & Ho & Hs0 & _ & Hc). destruct (Hc Hpe) as [<- <-].
  assert (Hs : c_scope (new_coordinator scope path w' delivered') = c_scope c0) by by rewrite Hs0, Hsc.
  destruct (transcript lookup delivered' (c_items c0)) as [found|] eqn:Ef.
  - destruct (NewRuntimeInputCoordinator _ _ _ _ _ _ _ _) as [s'|e] eqn:En.
    + destruct (open_made true c0 _ _ _ _ _ _ _ _ _ Ho Hs Hp En) as (found' & Hf & _ & Hi & Hn & _).
      rewrite Ef in Hf. injection Hf as <-. by split.
    + eapply (open_total c0 scope path w'); [exact Ho|exact Hs|exact Hp| |exact En]. by rewrite Ef.
  - pose proof (open_reads true c0 scope path w' disk defer lookup delivered' (ledger s) Ho Hs Hp) as Hr. by rewrite Ef in Hr.
Qed.

(** ** Claims *)

(** What a claim says when it fails: nothing changed, and the ledger could not
    be written or the media of an item could not be read. *)
Definition claim_failed (disk : bool) (f : RuntimeItem -> bool) (s s' : system) (e : coordinator_error) : Prop :=
  s' = s /\
  ((e = PersistFailed /\ disk = false) \/
   (e = MaterializeFailed /\ exists i, i ∈ c_items (coord s) /\ f i = true /\ unreadable materialize i)).

Lemma Wf_marshals scope w items next : Wf scope w items next -> forallb marshals items = true.
Proof.
  intros Hw. apply forallb_elem_of. intros i Hi. pose proof (wf_items _ _ _ _ Hw) as W.
  rewrite Forall_forall in W. by eapply marshals_valid, W.
Qed.

Lemma marshals_alter st n items : forallb marshals items = true -> forallb marshals (set_state st n items) = true.
Proof.
  rewrite !forallb_elem_of. intros Hm i (k & y & Hk & ->)%elem_of_alter.
  destruct (decide (k = n)); [rewrite marshals_with_state|]; apply Hm; by eapply list_elem_of_lookup_2.
Qed.

(** [ClaimNextIdle] gives the item of the scope that is waiting with the highest
    priority and, among those, the lowest sequence number; it marks that item and
    no other as being processed.  It gives nothing only when nothing waits, and
    an error leaves the state as it was. *)
Theorem next_idle_is_first scope path w delivered tr s disk target s' r :
  steps (run_step clock materialize false) (fresh scope path w delivered) tr s ->
  ClaimNextIdle materialize disk target s = (s', r) ->
  let waiting := when_idle (normalizeScope (coord s) target) in
  match r with
  | Ok None => s' = s /\ (forall i, i ∈ c_items (coord s) -> waiting i = false)
  | Ok (Some m) => exists n i, c_items (coord s) !! n = Some i /\ waiting i = true /\
      (forall j, j ∈ c_items (coord s) -> waiting j = true -> claimed_before j i = false) /\
      materializeRuntimePrompt materialize (with_state RuntimeItemProcessing i) = Ok m /\
      c_items (coord s') = <[n := with_state RuntimeItemProcessing i]> (c_items (coord s))
  | Err e => claim_failed disk waiting s s' e
  end.
Proof.
  intros Hg%run_Good Hc. cbv zeta. unfold ClaimNextIdle, claim_at in Hc. cbv zeta in Hc.
  destruct (best_of _ _ _) as [[n i]|] eqn:Eb.
  - apply best_of_elem in Eb as Hin. destruct Hin as [Hin|]; [|done]. apply elem_of_filter_indexed in Hin as [Hn Hi].
    apply best_of_best in Eb as [Hbest _]; [|apply claimed_before_trans|apply claimed_before_asym].
    destruct (materializeRuntimePrompt _ _) as [m|e] eqn:Em.
    + apply commit_cases in Hc as [(-> & -> & Hd)|(-> & Hco)].
      * split; [done|]. left. split; [done|]. apply Hd, marshals_alter, (Wf_marshals _ _ _ _ (good_wf _ _ Hg)).
      * exists n, i. split_and!; try done.
        -- intros j [k Hk]%list_elem_of_lookup Hj. apply (Hbest (k, j)). by apply elem_of_filter_indexed.
        -- rewrite Hco. cbn [c_items set]. unfold set_state. apply list_eq. intros k.
           destruct (decide (n = k)) as [->|Hne].
           ++ rewrite list_lookup_alter_eq, Hn, list_lookup_insert_eq by by eapply lookup_lt_Some. done.
           ++ by rewrite list_lookup_alter_ne, list_lookup_insert_ne.
    + injection Hc as <- <-. split; [done|]. right. apply materialize_error in Em as [-> Hu]. split; [done|].
      exists i. split; [by eapply list_elem_of_lookup_2|]. by split.
  - injection Hc as <- <-. split; [done|]. intros i [k Hk]%list_elem_of_lookup.
    apply best_of_None in Eb as [Hnil _]. destruct (when_idle _ i) eqn:Ei; [|done].
    assert ((k, i) ∈ List.filter (fun ni => when_idle (normalizeScope (coord s) target) ni.2) (indexed (c_items (coord s)))) as Hin
      by by apply elem_of_filter_indexed.
    rewrite Hnil in Hin. by apply elem_of_nil in Hin.
Qed.

(** [ClaimSafePoint] gives all the items of the scope that may be claimed at the
    safe point, by priority and then by sequence number, and marks exactly those
    as being processed; an error leaves the state as it was. *)
Theorem safe_point_takes_all scope path w delivered tr s disk target includeUser allowLater s' r :
  steps (run_step clock materialize false) (fresh scope path w delivered) tr s ->
  ClaimSafePoint materialize disk target includeUser allowLater s = (s', r) ->
  let eligible := at_safe_point (normalizeScope (coord s) target) includeUser allowLater in
  match r with
  | Ok claimed =>
      map i_ID claimed ≡ₚ map i_ID (List.filter eligible (c_items (coord s))) /\
      StronglySorted (fun a b => claimed_before b a = false) claimed /\
      Forall (fun m => i_State m = RuntimeItemProcessing) claimed /\
      c_items (coord s') = claim_where eligible (c_items (coord s))
  | Err e => claim_failed disk eligible s s' e
  end.
Proof.
  intros Hg%run_Good Hc. cbv zeta. unfold ClaimSafePoint in Hc. cbv zeta in Hc.
  set (eligible := at_safe_point (normalizeScope (coord s) target) includeUser allowLater) in *.
  set (l := List.filter (fun ni => eligible ni.2) (indexed (c_items (coord s)))) in *.
  pose proof (stable_sort_perm (fun a b => claimed_before a.2 b.2) l) as Hperm.
  case_bool_decide as Hnil.
  { injection Hc as <- <-. assert (forall i, i ∈ c_items (coord s) -> eligible i = false) as Hno.
    { intros i [k Hk]%list_elem_of_lookup. destruct (eligible i) eqn:Ei; [|done].
      assert ((k, i) ∈ l) as Hin by by apply elem_of_filter_indexed. rewrite Hnil in Hin. by apply elem_of_nil in Hin. }
    rewrite (filter_nil eligible) by done. split_and!; [done|constructor|constructor|].
    symmetry. by apply claim_where_none. }
  destruct (claim_all _ _ _ _) as [[candidate claimed]|e] eqn:Ea.
  - apply (claim_all_where materialize eligible) in Ea as [-> Hms]; [|exact Hperm].
    apply commit_cases in Hc as [(-> & -> & Hd)|(-> & Hco)].
    + split; [done|]. left. split; [done|]. apply Hd, claim_where_marshals, (Wf_marshals _ _ _ _ (good_wf _ _ Hg)).
    + rewrite Hco. cbn [c_items set]. split_and!; [| | |done].
      * rewrite (handed_ids materialize _ _ Hms), filter_indexed_ids.
        exact (fmap_Permutation (fun ni : nat * RuntimeItem => i_ID ni.2) _ _ Hperm).
      * eapply handed_sorted; [exact Hms|]. apply stable_sort_order; intros *; [apply claimed_before_trans|apply claimed_before_asym].
      * eapply handed_states, Hms.
  - injection Hc as <- <-. split; [done|]. right. apply claim_all_error in Ea as (-> & [k i] & Hin & Hu).
    split; [done|]. rewrite Hperm in Hin. apply elem_of_filter_indexed in Hin as [Hk Hi].
    exists i. split; [by eapply list_elem_of_lookup_2|]. done.
Qed.

(** C24: an item that an operation hands out is handed out again, by any operation
    and whatever happens in between, only after it was released: no two claimants
    own an item at the same time, and one that was settled does not come back. *)
Theorem claimed_until_released scope path w delivered tr s disk o m tr' s' disk' o' m' :
  steps (run_step clock materialize false) (fresh scope path w delivered) tr s ->
  m ∈ (run_op clock materialize disk o s).2 ->
  steps (run_step clock materialize false) (run_op clock materialize disk o s).1 tr' s' ->
  (forall d, (d, DoRelease (i_ID m)) ∉ tr') ->
  m' ∈ (run_op clock materialize disk' o' s').2 -> i_ID m' <> i_ID m.
Proof.
  intros Hg%run_Good Hm Hr Hno Hm' Heq.
  assert (allowed false o s) as Ha by by destruct o; try done; apply elem_of_nil in Hm.
  assert (Good false (run_op clock materialize disk o s).1) as Hg1 by by eapply step_Good; [exact Hg|constructor].
  apply run_op_hands in Hm as [_ Hh]; [|exact (wf_ids _ _ _ _ (good_wf _ _ Hg))].
  revert Hh Hg1. generalize dependent (run_op clock materialize disk o s).1. intros s1 Hr Hh Hg1.
  induction Hr as [s1|s1 l s2 ls s3 Hst Hr IH].
  - apply run_op_hands in Hm' as [(i & Hi & Hid & Hp) _]; [|exact (wf_ids _ _ _ _ (good_wf _ _ Hg1))].
    destruct Hh as [H1 _]. rewrite (H1 i Hi) in Hp; [done|congruence].
  - apply IH; [intros d Hd; apply (Hno d); set_solver|done| |by eapply step_Good].
    destruct Hst as [d0 o0 s0 _]. apply run_op_held; [|done]. intros r -> ->. apply (Hno d0). set_solver.
Qed.

(** C26: a prompt that was once accepted with a receipt is never enqueued again: a
    retry, after whatever operations and failed writes, cancellation and
    settlement included, leaves the coordinator and its ledger as they are, and
    what it reports is the stored item or one that is past waiting. *)
Theorem retry_adds_no_work s disk item n s1 i tr' s2 disk' n' :
  EnqueueBoundedWithAdmissionReceipt clock disk item n s = (s1, Ok i) ->
  steps (run_step clock materialize false) s1 tr' s2 ->
  exists r, EnqueueBoundedWithAdmissionReceipt clock disk' item n' s2 = (s2, r) /\
    forall i', r = Ok i' -> i_ID i' = i_ID i /\ (i' ∈ c_items (coord s2) \/ i_State i' = RuntimeItemProcessing).
Proof.
  intros [-> [r Hr]]%accepted_with_receipt Hrun%run_receipts. apply acknowledged_again.
  exists r. by eapply lookup_weaken.
Qed.
End properties.

(** ** A session *)

Module Example_inputs.

(** The digest tells the prompt "go" from any other. *)
Definition digest_of (p : runtimeInputAdmissionPayload) : bytes :=
  replicate 64 (if ap_Prompt p ==b lit "go" then "0"%char else "1"%char).
Lemma digest_of_hex p : hex32 (digest_of p) = true.
Proof. unfold digest_of. by destruct (bool_decide _). Qed.

#[local] Instance checks : ItemChecks := {|
  validateUserImages _ := true; prompt_Validate _ := true; validateRuntimeGoalContinuation _ _ _ := true;
  payload_digest := digest_of; payload_digest_hex := digest_of_hex |}.

Definition clock (n : Z) : Z := 1000 + n.
Definition media (r : prompt_record) : option bytes := Some [].
Definition session : RuntimeInputScope := {| SessionID := lit "s"; ThreadID := lit "t"; AgentID := [] |}.

Definition prompt (id text : bytes) (p : RuntimeInputPriority) : RuntimeItem := {|
  i_Version := 0; i_ID := id; i_Kind := RuntimeItemUserPrompt; i_Priority := p; i_Delivery := DeliveryUnset;
  i_Scope := session; i_Sequence := 0; i_EnqueuedAt := None; i_State := RuntimeItemPending; i_IsMeta := false;
  i_Origin := []; i_Provenance := [];
  i_UserPrompt := Some {| up_Display := text; up_Prompt := text; up_Images := []; up_durablePrompt := None;
    up_materializedInput := None; up_writer := None; up_writerItemID := [] |};
  i_AgentMessage := None; i_AgentNotification := None; i_AsyncRewake := None; i_PermissionDecision := None;
  i_GoalContinuation := None; i_Stop := None; i_Rejection := None |}.

Definition go : RuntimeItem := prompt (lit "x") (lit "go") RuntimePriorityNext.
Definition halt : RuntimeItem := prompt (lit "y") (lit "halt") RuntimePriorityNow.
Definition start : system := fresh session (lit "ledger") 0 ∅.

(** The state after a list of operations. *)
Fixpoint after (ops : list (bool * op)) (s : system) : system :=
  match ops with [] => s | (disk, o) :: rest => after rest (run_op clock media disk o s).1 end.

Fixpoint all_allowed (strict : bool) (ops : list (bool * op)) (s : system) : Prop :=
  match ops with
  | [] => True
  | (disk, o) :: rest => allowed strict o s /\ all_allowed strict rest (run_op clock media disk o s).1
  end.

Lemma after_steps strict ops s : all_allowed strict ops s -> steps (run_step clock media strict) s ops (after ops s).
Proof.
  revert s. induction ops as [|[disk o] ops IH]; intros s Ha; [constructor|]. destruct Ha as [Ho Ha].
  cbn [after]. eapply steps_cons; [by constructor|by apply IH].
Qed.

(** Two prompts, the second after a write that failed. *)
Definition two_prompts : list (bool * op) :=
  [(true, DoEnqueueWithReceipt go 5); (false, DoEnqueue halt); (true, DoEnqueue halt)].

Lemma allowed_plain strict o item s :
  enqueues o = Some (false, [item]) -> (c_nextSequence (coord s) <? 1000) = true ->
  bool_decide (c_admissionReceipts (coord s) !! TrimSpace (i_ID item) = None) = true -> allowed strict o s.
Proof.
  intros E Hn%Z.ltb_lt Hr. unfold allowed. rewrite E. split; [cbn; lia|]. intros _. right. apply Forall_singleton.
  apply bool_decide_eq_true_1 in Hr. rewrite Hr. by intros [? ?].
Qed.

Lemma two_allowed strict : all_allowed strict two_prompts start.
Proof.
  split; [split; [done|by left]|]. split; [by apply (allowed_plain _ _ halt); vm_compute|].
  split; [by apply (allowed_plain _ _ halt); vm_compute|done].
Qed.

Lemma lived strict ops s s' :
  steps (run_step clock media strict) s ops s' ->
  steps (life_step clock media strict session (lit "ledger")) s (map Some ops) s'.
Proof. induction 1; [constructor|]. cbn [map]. eapply steps_cons; [by constructor|done]. Qed.

(** The two prompts are accepted and "halt" is claimed; the process stops, and the
    next one defers the write of its recovery. *)
Definition first_life : system := after (two_prompts ++ [(true, DoClaimNextIdle session)]) start.
Definition nothing_delivered : option (list bytes -> option (gset bytes)) := Some (fun _ => Some ∅).
Definition second_life : system :=
  match NewRuntimeInputCoordinator session (lit "ledger") 7 true true nothing_delivered ∅ (ledger first_life) with
  | Ok s => s
  | Err _ => start
  end.
Definition third_life : system := after [(true, DoCommitRecovery)] second_life.

Lemma first_allowed strict : all_allowed strict (two_prompts ++ [(true, DoClaimNextIdle session)]) start.
Proof.
  destruct (two_allowed strict) as (H1 & H2 & H3 & _). cbn [app two_prompts all_allowed] in *.
  split; [exact H1|]. split; [exact H2|]. split; [exact H3|]. exact (conj I I).
Qed.

Lemma reads_back (l : option runtimeInputEnvelope) :
  json_envelope <$> l = l -> forall e, l = Some e -> texts_valid e.
Proof. intros Hj e ->. unfold texts_valid. cbn in Hj. congruence. Qed.

Lemma second_lived strict :
  steps (life_step clock media strict session (lit "ledger")) start
    (map Some (two_prompts ++ [(true, DoClaimNextIdle session)]) ++ [None]) second_life.
Proof.
  eapply steps_app; [apply lived, after_steps, first_allowed|]. eapply steps_cons; [|constructor].
  eapply (Reopened _ _ _ _ _ _ 7 true true nothing_delivered ∅).
  - apply reads_back. vm_compute. reflexivity.
  - by vm_compute.
Qed.

Lemma third_lived strict :
  steps (life_step clock media strict session (lit "ledger")) start
    ((map Some (two_prompts ++ [(true, DoClaimNextIdle session)]) ++ [None]) ++ [Some (true, DoCommitRecovery)]) third_life.
Proof.
  eapply steps_app; [apply second_lived|]. eapply steps_cons; [|constructor]. apply Lived. unfold third_life. cbn [after]. apply Run. exact I.
Qed.

Lemma queue_well_formed_witness :
  map i_ID (c_items (coord second_life)) = [lit "x"; lit "y"] /\ c_recoveryPending (coord second_life) = true /\
  exists e, ledger second_life = Some e /\ (forall i, i ∈ c_items (coord second_life) -> i_ID i ∈ map i_ID (e_Items e)).
Proof.
  split; [by vm_compute|]. split; [by vm_compute|].
  destruct (queue_well_formed clock media session (lit "ledger") 0 ∅ _ second_life (second_lived false))
    as (_ & _ & _ & Hl).
  destruct Hl as [[_ Hn]|(e & He & Hin & _)]; [by vm_compute|by vm_compute in Hn|].
  exists e. split; [exact He|exact Hin].
Defined.

(** The transcript of the next process has "x". *)
Lemma ledger_recovers_witness :
  exists s', NewRuntimeInputCoordinator session (lit "ledger") 8 true false
      (Some (fun _ => Some {[ lit "x" ]})) ∅ (ledger third_life) = Ok s' /\
    map i_ID (c_items (coord s')) = [lit "y"] /\
    c_items (coord s') = map (back 8) (List.filter (survives {[ lit "x" ]}) (c_items (coord third_life))).
Proof.
  assert (Hv : forall e, ledger third_life = Some e -> texts_valid e).
  { apply reads_back. vm_compute. reflexivity. }
  assert (Hp : TrimSpace (lit "ledger") <> []) by by vm_compute.
  assert (Hr : c_recoveryPending (coord third_life) = false) by by vm_compute.
  pose proof (ledger_recovers clock media session (lit "ledger") 0 ∅ _ third_life 8 true false
    (Some (fun _ => Some {[ lit "x" ]})) ∅ (third_lived true) Hp Hr Hv) as Ht.
  assert (transcript (Some (fun _ => Some {[ lit "x" ]})) ∅ (c_items (coord third_life)) = Some {[ lit "x" ]}) as Ef
    by by vm_compute.
  assert (exists s', NewRuntimeInputCoordinator session (lit "ledger") 8 true false
      (Some (fun _ => Some {[ lit "x" ]})) ∅ (ledger third_life) = Ok s') as [s' En] by (eexists; vm_compute; reflexivity).
  rewrite Ef, En in Ht. exists s'. split; [exact En|]. destruct Ht as [Hi _]. rewrite (left_id_L ∅ (∪)) in Hi.
  split; [|exact Hi]. rewrite Hi. by vm_compute.
Defined.

(** "halt" has the higher priority. *)
Lemma next_idle_is_first_witness :
  exists s' m, ClaimNextIdle media true session (after two_prompts start) = (s', Ok (Some m)) /\ i_ID m = lit "y" /\
    exists n i, c_items (coord (after two_prompts start)) !! n = Some i /\ when_idle session i = true.
Proof.
  destruct (ClaimNextIdle media true session (after two_prompts start)) as [s' [[m|]|e]] eqn:E;
    [|by vm_compute in E|by vm_compute in E].
  exists s', m. split; [reflexivity|].
  destruct (next_idle_is_first clock media session (lit "ledger") 0 ∅ two_prompts (after two_prompts start) true session
              s' (Ok (Some m)) (after_steps _ _ _ (two_allowed _)) E) as (n & i & Hn & Hi & _).
  split; [|exists n, i; split; assumption]. vm_compute in E. injection E as <- <-. reflexivity.
Defined.

Lemma safe_point_takes_all_witness :
  exists s' l, ClaimSafePoint media true session true true (after two_prompts start) = (s', Ok l) /\
    map i_ID l = [lit "y"; lit "x"] /\ Forall (fun m => i_State m = RuntimeItemProcessing) l.
Proof.
  destruct (ClaimSafePoint media true session true true (after two_prompts start)) as [s' [l|e]] eqn:E;
    [|by vm_compute in E].
  exists s', l. split; [reflexivity|].
  destruct (safe_point_takes_all clock media session (lit "ledger") 0 ∅ two_prompts (after two_prompts start) true session
              true true s' (Ok l) (after_steps _ _ _ (two_allowed _)) E) as (_ & _ & Hl & _).
  split; [|assumption]. vm_compute in E. injection E as <- <-. reflexivity.
Defined.

(** "halt" is claimed, then "go" is. *)
Lemma claimed_until_released_witness :
  exists m m',
    (run_op clock media true (DoClaimNextIdle session) (after two_prompts start)).2 = [m] /\
    (run_op clock media true (DoClaimNextIdle session)
       (after [(true, DoCancel (lit "z"))]
          (run_op clock media true (DoClaimNextIdle session) (after two_prompts start)).1)).2 = [m'] /\
    i_ID m' <> i_ID m.
Proof.
  assert (exists m, (run_op clock media true (DoClaimNextIdle session) (after two_prompts start)).2 = [m]) as [m Em]
    by (eexists; by vm_compute).
  assert (exists m', (run_op clock media true (DoClaimNextIdle session)
       (after [(true, DoCancel (lit "z"))]
          (run_op clock media true (DoClaimNextIdle session) (after two_prompts start)).1)).2 = [m']) as [m' Em']
    by (eexists; by vm_compute).
  exists m, m'. split; [exact Em|]. split; [exact Em'|].
  eapply (claimed_until_released clock media session (lit "ledger") 0 ∅ two_prompts (after two_prompts start) true
           (DoClaimNextIdle session) m [(true, DoCancel (lit "z"))] _ true (DoClaimNextIdle session) m').
  - apply after_steps, two_allowed.
  - rewrite Em. constructor.
  - apply after_steps. exact (conj I I).
  - intros d [[=]|Hd%elem_of_nil]%elem_of_cons. exact Hd.
  - rewrite Em'. constructor.
Defined.

(** The prompt is accepted, cancelled and sent again. *)
Lemma retry_adds_no_work_witness :
  exists r, EnqueueBoundedWithAdmissionReceipt clock true go 5
      (after [(true, DoCancel (lit "x"))] (EnqueueBoundedWithAdmissionReceipt clock true go 5 start).1) =
    (after [(true, DoCancel (lit "x"))] (EnqueueBoundedWithAdmissionReceipt clock true go 5 start).1, r) /\
    is_Some (match r with Ok i => Some i | Err _ => None end).
Proof.
  destruct (EnqueueBoundedWithAdmissionReceipt clock true go 5 start) as [s1 [i|e]] eqn:E; [|by vm_compute in E].
  destruct (retry_adds_no_work clock media start true go 5 s1 i [(true, DoCancel (lit "x"))]
    (after [(true, DoCancel (lit "x"))] s1) true 5 E) as (r & Hr & _); [by apply after_steps|].
  exists r. cbn [fst]. split; [exact Hr|]. vm_compute in E. injection E as <- <-. vm_compute in Hr.
  injection Hr as <-. by eexists.
Defined.

(** ** Limits *)

(** A prompt that was accepted with a receipt and cancelled can be enqueued again
    without one; it then has a new sequence number, and the ledger cannot be
    opened any more. *)
Definition reused : list (bool * op) :=
  [(true, DoEnqueueWithReceipt go 5); (true, DoCancel (lit "x")); (true, DoEnqueue go)].

Example reused_identity_locks_ledger :
  length (c_items (coord (after reused start))) = 1%nat /\
  NewRuntimeInputCoordinator session (lit "ledger") 0 true false None ∅ (ledger (after reused start)) = Err ReceiptMismatch.
Proof. split; by vm_compute. Qed.

(** Once an item was settled, its identifier is accepted with any payload. *)
Example settled_identity_accepts_other_payload :
  (Enqueue clock true (prompt (lit "x") (lit "other") RuntimePriorityNext)
     (after [(true, DoEnqueue go); (true, DoSettle [lit "x"])] start)).2 =
  Ok (with_state RuntimeItemProcessing ((prompt (lit "x") (lit "other") RuntimePriorityNext) <| i_Version := 1 |>)).
Proof. by vm_compute. Qed.
End Example_inputs.
