(* ===== verification/Messages.v ===== *)
(** * Messages of a conversation

    The message type of the framework ([schema.Message] of cloudwego/eino) as
    far as the engine reads and writes it, and the copies, constructors and
    tests on it that several files share.

    A part of a multimodal message is a plain text, or known by its encoding and
    whether it is reasoning; the response metadata are known by their encoding.  A nil map of extra values is the empty one: they differ neither
    in what is read from them nor in JSON.  A pointer that may be nil is an
    option; a copy is the value itself, since nothing changes a message that
    another one shares. *)

From S2P Require Import Prelude GoStrings.

Inductive RoleType := Assistant | User | System | Tool | RoleOther (s : bytes).

Definition role_string (r : RoleType) : bytes :=
  match r with
  | Assistant => lit "assistant" | User => lit "user" | System => lit "system" | Tool => lit "tool"
  | RoleOther s => s
  end.

(** A dynamically typed value. *)
Inductive any := AnyString (s : bytes) | AnyBool (b : bool) | AnyOther (encoding : bytes).

Inductive part := PartText (text : bytes) | PartReasoning (encoding : bytes) | PartOther (encoding : bytes).

Record FunctionCall := { fn_Name : bytes; fn_Arguments : bytes }.
Record ToolCall := { tc_ID : bytes; tc_Type : bytes; tc_Function : FunctionCall; tc_Extra : gmap bytes any }.

Record Message := {
  m_Role : RoleType; m_Content : bytes; m_MultiContent : list part; m_UserInputMultiContent : list part;
  m_AssistantGenMultiContent : list part; m_ToolCalls : list ToolCall; m_ToolCallID : bytes; m_ToolName : bytes;
  m_ReasoningContent : bytes; m_ResponseMeta : option bytes; m_Extra : gmap bytes any
}.

#[export] Instance RoleType_eq_dec : EqDecision RoleType.
Proof. solve_decision. Defined.
#[export] Instance any_eq_dec : EqDecision any.
Proof. solve_decision. Defined.
#[export] Instance part_eq_dec : EqDecision part.
Proof. solve_decision. Defined.
#[export] Instance FunctionCall_eq_dec : EqDecision FunctionCall.
Proof. solve_decision. Defined.
#[export] Instance ToolCall_eq_dec : EqDecision ToolCall.
Proof. solve_decision. Defined.
#[export] Instance Message_eq_dec : EqDecision Message.
Proof. solve_decision. Defined.

#[export] Instance eta_FunctionCall : Eta FunctionCall := fun x => Build_FunctionCall (fn_Name x) (fn_Arguments x).
#[export] Instance eta_ToolCall : Eta ToolCall := fun x =>
  Build_ToolCall (tc_ID x) (tc_Type x) (tc_Function x) (tc_Extra x).
#[export] Instance eta_Message : Eta Message := fun x =>
  Build_Message (m_Role x) (m_Content x) (m_MultiContent x) (m_UserInputMultiContent x) (m_AssistantGenMultiContent x)
    (m_ToolCalls x) (m_ToolCallID x) (m_ToolName x) (m_ReasoningContent x) (m_ResponseMeta x) (m_Extra x).

(** A message with a role and a text. *)
Definition text_message (role : RoleType) (content : bytes) : Message := {|
  m_Role := role; m_Content := content; m_MultiContent := []; m_UserInputMultiContent := [];
  m_AssistantGenMultiContent := []; m_ToolCalls := []; m_ToolCallID := []; m_ToolName := [];
  m_ReasoningContent := []; m_ResponseMeta := None; m_Extra := ∅ |}.

(** [newToolResultMessage] of [tool_execution.go]. *)
Definition newToolResultMessage (toolCall : option ToolCall) (content : bytes) (isError : bool) : Message :=
  let msg := text_message Tool content in
  let msg := match toolCall with
             | Some tc => msg <| m_ToolCallID := tc_ID tc |> <| m_ToolName := fn_Name (tc_Function tc) |>
             | None => msg
             end in
  if isError then msg <| m_Extra := {[ lit "is_error" := AnyBool true ]} |> else msg.
