(* ===== verification/ReloadPairing.v ===== *)
(** * Repairing a reloaded conversation

    [src/engine/reload_pairing.go]: a conversation that is loaded from its
    transcript may have been cut off anywhere.  The repair gives back a history
    that a provider accepts: every tool call is answered by one result before
    the conversation goes on, and every result answers a call. *)

From S2P Require Import Prelude GoStrings Messages.

Definition syntheticToolResultPlaceholder : bytes := lit "[Tool result missing due to internal error]".
Definition toolUseInterruptedPlaceholder : bytes := lit "[Tool use interrupted]".
Definition ContinuationPrompt : bytes := lit "Continue from where you left off. Do not repeat previous work.".

Inductive InterruptionKind := InterruptionNone | InterruptionTurn | InterruptionPrompt.

#[export] Instance InterruptionKind_eq_dec : EqDecision InterruptionKind.
Proof. solve_decision. Defined.

(** ** Calls and results *)

Definition repairedToolCallID (tc : ToolCall) : bytes :=
  if tc_ID tc <>b [] then tc_ID tc else fn_Name (tc_Function tc).

Definition normalizeToolCallForReload (tc : ToolCall) : ToolCall :=
  let tc := if tc_ID tc ==b [] then tc <| tc_ID := fn_Name (tc_Function tc) |> else tc in
  let tc := if tc_Type tc ==b [] then tc <| tc_Type := lit "function" |> else tc in
  if fn_Arguments (tc_Function tc) ==b []
  then tc <| tc_Function ::= fun f => f <| fn_Arguments := lit "{}" |> |> else tc.

Definition assistantVisibleContentEmpty (msg : Message) : bool :=
  (m_Content msg ==b []) && (m_ReasoningContent msg ==b []) && (m_AssistantGenMultiContent msg ==b []).
Definition assistantMessageEmpty (msg : Message) : bool :=
  assistantVisibleContentEmpty msg && (m_ToolCalls msg ==b []).

(** The calls that are kept, those that were seen before being left out, with
    the calls seen so far and whether one was removed.  The local set of the
    source is a subset of the other. *)
Fixpoint keep_calls (calls : list ToolCall) (seen : gset bytes) : list ToolCall * gset bytes * bool :=
  match calls with
  | [] => ([], seen, false)
  | tc :: rest =>
      let tc := normalizeToolCallForReload tc in
      let id := repairedToolCallID tc in
      if (id ==b []) || bool_decide (id ∈ seen)
      then let '(kept, seen, _) := keep_calls rest seen in (kept, seen, true)
      else let '(kept, seen, removed) := keep_calls rest ({[ id ]} ∪ seen) in (tc :: kept, seen, removed)
  end.

Definition repairAssistantToolCallsForReload (msg : Message) (seen : gset bytes)
    : option Message * list ToolCall * gset bytes :=
  if m_ToolCalls msg ==b [] then
    (if assistantMessageEmpty msg then None else Some msg, [], seen)
  else
    let '(kept, seen, removed) := keep_calls (m_ToolCalls msg) seen in
    let msg := msg <| m_ToolCalls := kept |> in
    let msg := if removed && (kept ==b []) && assistantVisibleContentEmpty msg
               then msg <| m_Content := toolUseInterruptedPlaceholder |> else msg in
    if assistantMessageEmpty msg then (None, [], seen) else (Some msg, kept, seen).

(** A result gets the name of its call when it has none. *)
Definition name_result (tc : ToolCall) (msg : Message) : Message :=
  if m_ToolName msg ==b [] then msg <| m_ToolName := fn_Name (tc_Function tc) |> else msg.

Definition repairToolResultForReload (msg : Message) (pending : gmap bytes ToolCall)
    : option Message * gmap bytes ToolCall :=
  if m_ToolCallID msg ==b [] then
    match map_to_list pending with
    | [(id, tc)] => (Some (name_result tc (msg <| m_ToolCallID := id |>)), delete id pending)
    | _ => (None, pending)
    end
  else
    match pending !! m_ToolCallID msg with
    | Some tc => (Some (name_result tc msg), delete (m_ToolCallID msg) pending)
    | None => (None, pending)
    end.

(** ** The repair *)

Record repair_state := {
  repaired : list Message; seenToolUseIDs : gset bytes; pendingToolCalls : list ToolCall;
  pendingToolCallByID : gmap bytes ToolCall
}.
#[export] Instance eta_repair_state : Eta repair_state := fun x =>
  Build_repair_state (repaired x) (seenToolUseIDs x) (pendingToolCalls x) (pendingToolCallByID x).

(** The synthetic results of the calls that are pending, in order. *)
Fixpoint flush_results (calls : list ToolCall) (pending : gmap bytes ToolCall) : list Message * gmap bytes ToolCall :=
  match calls with
  | [] => ([], pending)
  | tc :: rest =>
      let id := repairedToolCallID tc in
      if id ==b [] then flush_results rest pending else
      match pending !! id with
      | None => flush_results rest pending
      | Some tc =>
          let '(results, pending) := flush_results rest (delete id pending) in
          (newToolResultMessage (Some tc) syntheticToolResultPlaceholder true :: results, pending)
      end
  end.

Definition flushPending (s : repair_state) : repair_state :=
  if bool_decide (pendingToolCallByID s = ∅) then s else
  let '(results, pending) := flush_results (pendingToolCalls s) (pendingToolCallByID s) in
  s <| repaired ::= fun l => l ++ results |> <| pendingToolCallByID := pending |> <| pendingToolCalls := [] |>.

Definition shouldFlushPendingToolResults (msg : Message) (pending : gmap bytes ToolCall) : bool :=
  if bool_decide (pending = ∅) then false else
  match m_Role msg with User | Assistant | System => true | _ => false end.

Definition add_pending (tc : ToolCall) (s : repair_state) : repair_state :=
  let id := repairedToolCallID tc in
  if id ==b [] then s else
  s <| pendingToolCalls ::= fun l => l ++ [tc] |> <| pendingToolCallByID ::= <[id := tc]> |>.

Definition emit (msg : option Message) (s : repair_state) : repair_state :=
  match msg with Some m => s <| repaired ::= fun l => l ++ [m] |> | None => s end.

Definition repair_message (msg : Message) (s : repair_state) : repair_state :=
  let s := if shouldFlushPendingToolResults msg (pendingToolCallByID s) then flushPending s else s in
  match m_Role msg with
  | Assistant =>
      let '(assistant, toolCalls, seen) := repairAssistantToolCallsForReload msg (seenToolUseIDs s) in
      foldl (fun s tc => add_pending tc s) (emit assistant (s <| seenToolUseIDs := seen |>)) toolCalls
  | Tool =>
      let '(result, pending) := repairToolResultForReload msg (pendingToolCallByID s) in
      emit result (s <| pendingToolCallByID := pending |>)
  | _ => emit (Some msg) s
  end.

Fixpoint repair_messages (messages : list (option Message)) (s : repair_state) : repair_state :=
  match messages with
  | [] => s
  | None :: rest => repair_messages rest s
  | Some msg :: rest => repair_messages rest (repair_message msg s)
  end.

Definition repairLoadedMessages (messages : list (option Message)) : list Message :=
  repaired (flushPending (repair_messages messages
    {| repaired := []; seenToolUseIDs := ∅; pendingToolCalls := []; pendingToolCallByID := ∅ |})).

(** ** Resuming *)

Definition detectTurnInterruption (messages : list Message) : InterruptionKind :=
  match last messages with
  | None => InterruptionNone
  | Some m =>
      match m_Role m with
      | Assistant => InterruptionNone
      | Tool => InterruptionTurn
      | User => if m_ToolCallID m <>b [] then InterruptionTurn else InterruptionPrompt
      | _ => InterruptionNone
      end
  end.

Definition thinking_only (m : Message) : bool :=
  (m_Role m ==b Assistant) && (m_Content m ==b []) && (m_ToolCalls m ==b []) && (m_AssistantGenMultiContent m ==b [])
  && (m_ReasoningContent m <>b []).
Definition whitespace_only (m : Message) : bool :=
  (m_Role m ==b Assistant) && (m_ToolCalls m ==b []) && (m_AssistantGenMultiContent m ==b [])
  && (m_ReasoningContent m ==b []) && (m_Content m <>b []) && (TrimSpace (m_Content m) ==b []).

Definition filterThinkingOnlyAssistantMessages (messages : list Message) : list Message :=
  List.filter (fun m => negb (thinking_only m)) messages.
Definition filterWhitespaceOnlyAssistantMessages (messages : list Message) : list Message :=
  List.filter (fun m => negb (whitespace_only m)) messages.

Definition repairLoadedMessagesWithInterruption (messages : list (option Message)) : list Message * InterruptionKind :=
  let repaired := repairLoadedMessages messages in
  let repaired := filterThinkingOnlyAssistantMessages repaired in
  let repaired := filterWhitespaceOnlyAssistantMessages repaired in
  let kind := detectTurnInterruption repaired in
  (match kind with
   | InterruptionTurn => repaired ++ [text_message User ContinuationPrompt]
   | _ => repaired
   end, kind).

(** * A repaired conversation is well paired

    The order of messages that a provider accepts, as a state machine over the
    calls that are open, and the proof that the repair of a reloaded
    conversation always gives such a history and leaves one as it is. *)

(** ** Well-paired histories *)

(** The calls seen so far, and those that are still open. *)
Abbreviation open_calls := (gset bytes * gmap bytes ToolCall)%type.

Definition well_formed (tc : ToolCall) : Prop := tc_ID tc <> [] /\ normalizeToolCallForReload tc = tc.
Definition by_id (calls : list ToolCall) : gmap bytes ToolCall := list_to_map ((fun tc => (tc_ID tc, tc)) <$> calls).
Definition ids_of (calls : list ToolCall) : gset bytes := list_to_set (tc_ID <$> calls).

Inductive turn : open_calls -> Message -> open_calls -> Prop :=
| Turn_assistant seen m :
    m_Role m = Assistant -> assistantMessageEmpty m = false -> Forall well_formed (m_ToolCalls m) ->
    NoDup (tc_ID <$> m_ToolCalls m) -> ids_of (m_ToolCalls m) ## seen ->
    turn (seen, ∅) m (ids_of (m_ToolCalls m) ∪ seen, by_id (m_ToolCalls m))
| Turn_result seen calls m tc :
    m_Role m = Tool -> m_ToolCallID m <> [] -> calls !! m_ToolCallID m = Some tc ->
    (m_ToolName m = [] -> fn_Name (tc_Function tc) = []) ->
    turn (seen, calls) m (seen, delete (m_ToolCallID m) calls)
| Turn_says seen m : m_Role m = User \/ m_Role m = System -> turn (seen, ∅) m (seen, ∅)
| Turn_other seen calls m r : m_Role m = RoleOther r -> turn (seen, calls) m (seen, calls).

(** Every call is answered before the conversation goes on, and every result
    answers a call. *)
Definition paired (h : list Message) : Prop := exists seen, steps turn (∅, ∅) h (seen, ∅).

(** ** What the parts of the repair give *)

Lemma reloaded_call_ID tc : tc_ID (normalizeToolCallForReload tc) = repairedToolCallID tc.
Proof. unfold normalizeToolCallForReload, repairedToolCallID. by repeat case_bool_decide. Qed.

Lemma normalize_idemp tc : normalizeToolCallForReload (normalizeToolCallForReload tc) = normalizeToolCallForReload tc.
Proof.
  destruct tc as [id ty [name args] ex]. unfold normalizeToolCallForReload. cbn.
  repeat (case_bool_decide; cbn; simplify_eq); done.
Qed.

Lemma repaired_normal tc : tc_ID tc <> [] -> repairedToolCallID tc = tc_ID tc.
Proof. intros Hid. unfold repairedToolCallID. by rewrite bool_decide_eq_false_2. Qed.

Lemma repaired_ID tc :
  repairedToolCallID (normalizeToolCallForReload tc) = tc_ID (normalizeToolCallForReload tc).
Proof. rewrite <- reloaded_call_ID. by rewrite normalize_idemp. Qed.

Lemma keep_calls_ok calls seen kept seen' removed :
  keep_calls calls seen = (kept, seen', removed) ->
  Forall well_formed kept /\ NoDup (tc_ID <$> kept) /\ ids_of kept ## seen /\ seen' = ids_of kept ∪ seen.
Proof.
  revert seen kept seen' removed. induction calls as [|tc calls IH]; intros seen kept seen' removed; cbn [keep_calls].
  { intros [= <- <- <-]. split_and!; try constructor; set_solver. }
  cbv zeta. rewrite repaired_ID. set (t := normalizeToolCallForReload tc). case_bool_decide as Hid; cbn [orb].
  { destruct (keep_calls calls seen) as [[k s] r] eqn:E. intros [= <- <- <-]. by eapply IH. }
  case_bool_decide as Hs.
  { destruct (keep_calls calls seen) as [[k s] r] eqn:E. intros [= <- <- <-]. by eapply IH. }
  destruct (keep_calls calls _) as [[k s] r] eqn:E. intros [= <- <- <-]. apply IH in E as (H1 & H2 & H3 & ->).
  unfold ids_of in *. cbn [fmap list_fmap list_to_set]. split_and!.
  - constructor; [|done]. split; [exact Hid|apply normalize_idemp].
  - constructor; [|done]. set_solver.
  - set_solver.
  - set_solver.
Qed.

Lemma keep_calls_id calls seen :
  Forall well_formed calls -> NoDup (tc_ID <$> calls) -> ids_of calls ## seen ->
  keep_calls calls seen = (calls, ids_of calls ∪ seen, false).
Proof.
  revert seen. induction calls as [|tc calls IH]; intros seen Hw Hn Hd; cbn [keep_calls].
  { unfold ids_of. cbn. by rewrite (left_id_L ∅ (∪)). }
  apply Forall_cons in Hw as [[H1 H2] Hw]. cbn [fmap list_fmap] in Hn. apply NoDup_cons in Hn as [Hx Hn].
  unfold ids_of in *. cbn [fmap list_fmap list_to_set] in *. cbv zeta. rewrite repaired_ID, H2.
  rewrite !bool_decide_eq_false_2 by (done || set_solver). cbn [orb]. rewrite IH by (done || set_solver).
  do 2 f_equal. set_solver.
Qed.

(** The pending calls are stored under their identifiers and listed. *)
Definition listed (calls : list ToolCall) (pending : gmap bytes ToolCall) : Prop :=
  forall id tc, pending !! id = Some tc ->
    tc_ID tc = id /\ id <> [] /\ exists c, c ∈ calls /\ repairedToolCallID c = id.

Lemma turn_synthetic seen pending id tc :
  pending !! id = Some tc -> tc_ID tc = id -> id <> [] ->
  turn (seen, pending) (newToolResultMessage (Some tc) syntheticToolResultPlaceholder true) (seen, delete id pending).
Proof. intros Hp <- Hn. by eapply Turn_result. Qed.

Lemma flush_results_ok calls pending results pending' seen :
  listed calls pending -> flush_results calls pending = (results, pending') ->
  pending' = ∅ /\ steps turn (seen, pending) results (seen, ∅).
Proof.
  revert pending results pending'. induction calls as [|c calls IH]; intros pending results pending' Hl; cbn [flush_results].
  { intros [= <- <-]. assert (pending = ∅) as ->; [|split; [done|constructor]].
    apply map_eq. intros id. rewrite lookup_empty. destruct (pending !! id) as [tc|] eqn:E; [|done].
    destruct (Hl id tc E) as (_ & _ & c & Hc & _). by apply elem_of_nil in Hc. }
  cbv zeta.
  assert (pending !! repairedToolCallID c = None \/ repairedToolCallID c = [] -> listed calls pending) as Hskip.
  { intros Hn id tc E. destruct (Hl id tc E) as (H1 & H2 & c' & Hc & Hid). split_and!; [done..|]. exists c'. split; [|done].
    apply elem_of_cons in Hc as [-> | Hc]; [|done]. destruct Hn; congruence. }
  case_bool_decide as Hid; [by apply IH, Hskip; right|].
  destruct (pending !! repairedToolCallID c) as [tc|] eqn:E; [|by apply IH, Hskip; left].
  destruct (flush_results calls _) as [rs p] eqn:Ef. intros [= <- <-]. destruct (Hl _ _ E) as (H1 & H2 & _).
  apply IH in Ef as [-> Hr].
  - split; [done|]. eapply steps_cons; [by apply turn_synthetic|done].
  - intros id t Et. apply lookup_delete_Some in Et as [Hne Et]. destruct (Hl id t Et) as (H3 & H4 & c' & Hc & Hid').
    split_and!; [done..|]. exists c'. split; [|done]. apply elem_of_cons in Hc as [-> | Hc]; [congruence|done].
Qed.

Lemma by_id_listed calls : Forall well_formed calls -> listed calls (by_id calls).
Proof.
  intros Hw id tc E. apply elem_of_list_to_map_2, list_elem_of_fmap in E as (c & [= -> <-] & Hc).
  rewrite Forall_forall in Hw. destruct (Hw tc Hc) as [Hn _]. split_and!; [done..|]. exists tc. split; [done|].
  by apply repaired_normal.
Qed.

(** ** The invariant of the repair *)

Definition sound (s : repair_state) : Prop :=
  steps turn (∅, ∅) (repaired s) (seenToolUseIDs s, pendingToolCallByID s) /\
  listed (pendingToolCalls s) (pendingToolCallByID s).

Lemma flushPending_sound s :
  sound s -> sound (flushPending s) /\ pendingToolCallByID (flushPending s) = ∅ /\
    seenToolUseIDs (flushPending s) = seenToolUseIDs s.
Proof.
  intros [Hs Hl]. unfold flushPending. case_bool_decide as He; [done|].
  destruct (flush_results _ _) as [rs p] eqn:Ef. eapply flush_results_ok in Ef as [-> Hr]; [|exact Hl].
  split_and!; [|done..]. split; [|done]. cbn. by eapply steps_app.
Qed.

(** Before a message of these roles nothing is pending. *)
Lemma flushed s m :
  sound s -> m_Role m = Assistant \/ m_Role m = User \/ m_Role m = System ->
  let s' := if shouldFlushPendingToolResults m (pendingToolCallByID s) then flushPending s else s in
  sound s' /\ pendingToolCallByID s' = ∅ /\ seenToolUseIDs s' = seenToolUseIDs s.
Proof.
  intros Hs Hr. cbv zeta. unfold shouldFlushPendingToolResults. case_bool_decide as He; [done|].
  destruct Hr as [-> |[-> | -> ]]; by apply flushPending_sound.
Qed.

Lemma add_all_pending calls s :
  Forall well_formed calls -> NoDup (tc_ID <$> calls) ->
  foldl (fun s tc => add_pending tc s) s calls =
    s <| pendingToolCalls ::= fun l => l ++ calls |>
      <| pendingToolCallByID ::= fun p => by_id (reverse calls) ∪ p |>.
Proof.
  intros Hw Hn. revert s. induction calls as [|tc calls IH] using rev_ind; intros s.
  { destruct s. cbn. unfold set, by_id. cbn. by rewrite app_nil_r, (left_id_L ∅ (∪)). }
  apply Forall_app in Hw as [Hw [[H1 H2] _]%Forall_cons].
  rewrite fmap_app in Hn. apply NoDup_app in Hn as (Hn & Hd & _).
  rewrite foldl_snoc, IH by done. unfold add_pending. rewrite repaired_normal, bool_decide_eq_false_2 by done.
  destruct s. unfold set. cbn. f_equal; [by rewrite app_assoc|].
  rewrite reverse_snoc. unfold by_id. cbn [fmap list_fmap list_to_map]. by rewrite insert_union_l.
Qed.

Lemma by_id_reverse calls : NoDup (tc_ID <$> calls) -> by_id (reverse calls) = by_id calls.
Proof.
  intros Hn. unfold by_id. apply list_to_map_proper; [|by rewrite reverse_Permutation].
  rewrite <- list_fmap_compose. cbn. change ((λ x : ToolCall, tc_ID x) <$> reverse calls) with (tc_ID <$> reverse calls).
  by rewrite reverse_Permutation.
Qed.

(** The calls of an assistant message become pending. *)
Lemma calls_pending calls s :
  Forall well_formed calls -> NoDup (tc_ID <$> calls) -> pendingToolCallByID s = ∅ ->
  foldl (fun s tc => add_pending tc s) s calls =
    s <| pendingToolCalls ::= fun l => l ++ calls |> <| pendingToolCallByID := by_id calls |>.
Proof.
  intros Hw Hn He. rewrite add_all_pending, by_id_reverse by done. destruct s. cbn in *. subst. unfold set. cbn.
  by rewrite (right_id_L ∅ (∪)).
Qed.

Lemma emit_sound m s seen calls :
  sound s -> turn (seenToolUseIDs s, pendingToolCallByID s) m (seen, calls) -> listed (pendingToolCalls s) calls ->
  sound (emit (Some m) (s <| seenToolUseIDs := seen |> <| pendingToolCallByID := calls |>)).
Proof. intros [Hs _] Ht Hl. split; [|done]. cbn. by eapply steps_snoc. Qed.

Lemma listed_delete calls pending id : listed calls pending -> listed calls (delete id pending).
Proof. intros Hl i tc [_ E]%lookup_delete_Some. by apply Hl. Qed.

Lemma repair_assistant_ok msg seen m kept seen' :
  repairAssistantToolCallsForReload msg seen = (m, kept, seen') ->
  match m with
  | Some a => m_Role a = m_Role msg /\ m_ToolCalls a = kept /\ assistantMessageEmpty a = false
  | None => kept = [] /\ seen' = seen
  end /\ Forall well_formed kept /\ NoDup (tc_ID <$> kept) /\ ids_of kept ## seen /\ seen' = ids_of kept ∪ seen.
Proof.
  unfold repairAssistantToolCallsForReload. case_bool_decide as Hc.
  { intros [= <- <- <-].
    assert (ids_of [] ∪ seen = seen) as E by set_solver.
    split_and!; [|constructor|constructor|set_solver|done]. by destruct (assistantMessageEmpty msg) eqn:Ee. }
  destruct (keep_calls _ _) as [[k s] r] eqn:E. apply keep_calls_ok in E as (H1 & H2 & H3 & ->). cbv zeta.
  set (a := msg <| m_ToolCalls := k |>).
  set (b := if r && (k ==b []) && assistantVisibleContentEmpty a then a <| m_Content := _ |> else a).
  assert (m_Role b = m_Role msg /\ m_ToolCalls b = k) as [Hr Hk] by (unfold b; by destruct (r && _ && _)).
  destruct (assistantMessageEmpty b) eqn:Ee; intros [= <- <- <-].
  - assert (k = []) as ->.
    { unfold assistantMessageEmpty in Ee. apply andb_true_iff in Ee as [_ Ee%bool_decide_eq_true_1]. congruence. }
    split_and!; [done|set_solver|constructor|constructor|set_solver|set_solver].
  - split_and!; done.
Qed.

Lemma repair_result_ok msg seen calls r pending all :
  m_Role msg = Tool -> listed all calls -> repairToolResultForReload msg calls = (r, pending) ->
  match r with
  | Some m => turn (seen, calls) m (seen, pending)
  | None => pending = calls
  end /\ listed all pending.
Proof.
  intros Hr Hl. unfold repairToolResultForReload.
  assert (forall tc m, m_Role m = Tool -> m_ToolCallID m <> [] -> calls !! m_ToolCallID m = Some tc ->
    turn (seen, calls) (name_result tc m) (seen, delete (m_ToolCallID m) calls)) as Hn.
  { intros tc m Hm Hid E. unfold name_result. case_bool_decide; [|by apply (Turn_result _ _ _ tc)].
    set (m' := m <| m_ToolName := _ |>). assert (m_ToolCallID m = m_ToolCallID m') as -> by done.
    by apply (Turn_result _ _ _ tc). }
  case_bool_decide as Hid.
  - destruct (map_to_list calls) as [|[id tc] [|]] eqn:E; [by intros [= <- <-]| |by intros [= <- <-]].
    intros [= <- <-]. split; [|by apply listed_delete].
    assert (calls !! id = Some tc) as Hc by (apply elem_of_map_to_list; rewrite E; constructor).
    destruct (Hl id tc Hc) as (_ & Hne & _). set (m' := msg <| m_ToolCallID := id |>).
    change (delete id calls) with (delete (m_ToolCallID m') calls). by apply Hn.
  - destruct (calls !! m_ToolCallID msg) as [tc|] eqn:E; [|by intros [= <- <-]].
    intros [= <- <-]. split; [|by apply listed_delete]. by apply Hn.
Qed.

Lemma repair_message_sound msg s : sound s -> sound (repair_message msg s).
Proof.
  intros Hs. unfold repair_message. destruct (m_Role msg) eqn:Er.
  - destruct (flushed s msg Hs) as (Hs' & He & _); [tauto|].
    generalize dependent (if shouldFlushPendingToolResults msg (pendingToolCallByID s) then flushPending s else s).
    intros s' Hs' He.
    destruct (repairAssistantToolCallsForReload _ _) as [[m k] seen] eqn:E.
    apply repair_assistant_ok in E as (Hm & H1 & H2 & H3 & ->). rewrite calls_pending; [|done|done|by destruct m].
    destruct Hs' as [Hst Hl]. rewrite He in Hst. destruct m as [a|].
    + destruct Hm as (Ha & <- & Hne). split; cbn.
      * eapply steps_snoc; [exact Hst|]. apply Turn_assistant; [congruence|done..].
      * apply by_id_listed in H1. intros id tc E. destruct (H1 id tc E) as (? & ? & c & ? & ?).
        split_and!; [done..|]. exists c. set_solver.
    + destruct Hm as [-> Hse]. rewrite Hse. split; cbn; [done|by intros ? ? []%lookup_empty_Some].
  - destruct (flushed s msg Hs) as (Hs' & He & _); [tauto|].
    generalize dependent (if shouldFlushPendingToolResults msg (pendingToolCallByID s) then flushPending s else s).
    intros [r se l p] [Hst Hl] He. cbn in *. subst p. split; [|done]. cbn. eapply steps_snoc; [exact Hst|].
    apply Turn_says. tauto.
  - destruct (flushed s msg Hs) as (Hs' & He & _); [tauto|].
    generalize dependent (if shouldFlushPendingToolResults msg (pendingToolCallByID s) then flushPending s else s).
    intros [r se l p] [Hst Hl] He. cbn in *. subst p. split; [|done]. cbn. eapply steps_snoc; [exact Hst|].
    apply Turn_says. tauto.
  - assert (shouldFlushPendingToolResults msg (pendingToolCallByID s) = false) as ->.
    { unfold shouldFlushPendingToolResults. rewrite Er. by case_bool_decide. }
    destruct (repairToolResultForReload _ _) as [r p] eqn:E. destruct Hs as [Hst Hl].
    apply (repair_result_ok _ (seenToolUseIDs s) _ _ _ (pendingToolCalls s)) in E as [Ht Hl']; [|done..].
    destruct r as [m|]; split; cbn; try done; [by eapply steps_snoc|by subst p].
  - assert (shouldFlushPendingToolResults msg (pendingToolCallByID s) = false) as ->.
    { unfold shouldFlushPendingToolResults. rewrite Er. by case_bool_decide. }
    destruct Hs as [Hst Hl]. split; [|done]. cbn. eapply steps_snoc; [exact Hst|]. by eapply Turn_other.
Qed.

Lemma repair_messages_sound msgs s : sound s -> sound (repair_messages msgs s).
Proof.
  revert s. induction msgs as [|[m|] msgs IH]; intros s Hs; cbn [repair_messages]; [done| |by apply IH].
  by apply IH, repair_message_sound.
Qed.

Lemma repair_paired msgs : paired (repairLoadedMessages msgs).
Proof.
  unfold repairLoadedMessages. set (s0 := Build_repair_state _ _ _ _).
  assert (sound s0) as H0 by (split; [apply steps_nil|intros id tc E; cbn in E; by rewrite lookup_empty in E]).
  apply (repair_messages_sound msgs) in H0. apply flushPending_sound in H0 as ([Hs _] & He & _).
  rewrite He in Hs. eexists. exact Hs.
Qed.

(** ** A paired history is left as it is *)

Lemma repair_fixed h o o' s :
  steps turn o h o' -> seenToolUseIDs s = o.1 -> pendingToolCallByID s = o.2 ->
  let s' := repair_messages (Some <$> h) s in
  repaired s' = repaired s ++ h /\ pendingToolCallByID s' = o'.2.
Proof.
  intros Hst. revert s. induction Hst as [o|o m o1 h o2 Ht _ IH]; intros s Hs Hp; cbn [fmap list_fmap repair_messages].
  { by rewrite app_nil_r. }
  assert (exists s1, repair_message m s = s1 /\ repaired s1 = repaired s ++ [m] /\
    seenToolUseIDs s1 = o1.1 /\ pendingToolCallByID s1 = o1.2) as (s1 & -> & H1 & H2 & H3); [clear IH|].
  2:{ destruct (IH s1 H2 H3) as [-> ->]. by rewrite H1, <- app_assoc. }
  unfold repair_message.
  destruct Ht as [seen m Hr He Hw Hn Hd|seen calls m tc Hr Hid Hc Hnm|seen m Hr|seen calls m r Hr]; cbn in Hs, Hp.
  - unfold shouldFlushPendingToolResults. rewrite Hp, bool_decide_eq_true_2, Hr by done.
    unfold repairAssistantToolCallsForReload. rewrite Hs, He, keep_calls_id by done.
    case_bool_decide as Hnil.
    + rewrite Hnil. eexists. split; [reflexivity|]. cbn. rewrite Hp. split_and!; [done|set_solver|done].
    + cbv zeta. cbn [andb]. assert (m <| m_ToolCalls := m_ToolCalls m |> = m) as -> by by destruct m.
      rewrite He. rewrite calls_pending by done. eexists. split; [reflexivity|]. done.
  - unfold shouldFlushPendingToolResults. rewrite Hr.
    assert (forall A (x y : A), (if (if bool_decide (pendingToolCallByID s = ∅) then false else false) then x else y) = y) as -> by
      (intros; by case_bool_decide).
    unfold repairToolResultForReload. rewrite bool_decide_eq_false_2, Hp, Hc by done.
    assert (name_result tc m = m) as ->.
    { unfold name_result. case_bool_decide as Hnil; [|done]. rewrite (Hnm Hnil). destruct m. cbn in *. by subst. }
    eexists. split; [reflexivity|]. done.
  - unfold shouldFlushPendingToolResults. rewrite Hp, bool_decide_eq_true_2 by done.
    eexists. split; [reflexivity|]. by destruct Hr as [-> | -> ].
  - unfold shouldFlushPendingToolResults. rewrite Hr.
    assert (forall A (x y : A), (if (if bool_decide (pendingToolCallByID s = ∅) then false else false) then x else y) = y) as -> by
      (intros; by case_bool_decide).
    eexists. split; [reflexivity|]. done.
Qed.

Lemma paired_fixed h : paired h -> repairLoadedMessages (Some <$> h) = h.
Proof.
  intros [seen Hs]. unfold repairLoadedMessages. set (s0 := Build_repair_state _ _ _ _).
  destruct (repair_fixed h _ _ s0 Hs eq_refl eq_refl) as [H1 H2]. unfold flushPending.
  by rewrite H2, bool_decide_eq_true_2, H1.
Qed.

(** ** What is kept *)

(** The messages that are neither of the assistant nor results of tools. *)
Definition spoken (h : list Message) : list Message :=
  List.filter (fun m => (m_Role m <>b Assistant) && (m_Role m <>b Tool)) h.

Lemma spoken_app h h' : spoken (h ++ h') = spoken h ++ spoken h'.
Proof. apply List.filter_app. Qed.

Lemma spoken_flush calls pending : spoken (flush_results calls pending).1 = [].
Proof.
  revert pending. induction calls as [|c calls IH]; intros pending; cbn [flush_results]; [done|]. cbv zeta.
  case_bool_decide; [apply IH|]. destruct (pending !! _) as [tc|]; [|apply IH].
  specialize (IH (delete (repairedToolCallID c) pending)). by destruct (flush_results _ _).
Qed.

Lemma spoken_flushPending s : spoken (repaired (flushPending s)) = spoken (repaired s).
Proof.
  unfold flushPending. case_bool_decide; [done|]. pose proof (spoken_flush (pendingToolCalls s) (pendingToolCallByID s)) as Hf.
  destruct (flush_results _ _) as [rs p]. change (spoken (repaired s ++ rs) = spoken (repaired s)).
  change (spoken rs = []) in Hf. by rewrite spoken_app, Hf, app_nil_r.
Qed.

Lemma add_all_repaired calls s : repaired (foldl (fun s tc => add_pending tc s) s calls) = repaired s.
Proof.
  revert s. induction calls as [|tc calls IH]; intros s; cbn [foldl]; [done|]. rewrite IH. unfold add_pending.
  by case_bool_decide.
Qed.

Lemma repair_assistant_role msg seen m kept seen' :
  repairAssistantToolCallsForReload msg seen = (Some m, kept, seen') -> m_Role m = m_Role msg.
Proof. intros E. apply repair_assistant_ok in E as ((-> & _) & _). done. Qed.

Lemma repair_result_role msg pending r pending' :
  repairToolResultForReload msg pending = (Some r, pending') -> m_Role r = m_Role msg.
Proof.
  unfold repairToolResultForReload. case_bool_decide.
  - destruct (map_to_list pending) as [|[id tc] [|]]; [done| |done]. intros [= <- _]. unfold name_result. by case_bool_decide.
  - destruct (pending !! _); [|done]. intros [= <- _]. unfold name_result. by case_bool_decide.
Qed.

Lemma spoken_repair_message msg s : spoken (repaired (repair_message msg s)) = spoken (repaired s) ++ spoken [msg].
Proof.
  unfold repair_message.
  assert (spoken (repaired (if shouldFlushPendingToolResults msg (pendingToolCallByID s) then flushPending s else s)) =
    spoken (repaired s)) as <-.
  { destruct (shouldFlushPendingToolResults _ _); [apply spoken_flushPending|done]. }
  generalize (if shouldFlushPendingToolResults msg (pendingToolCallByID s) then flushPending s else s). intros s'.
  destruct (m_Role msg) eqn:Er; try (cbn; by rewrite spoken_app).
  - destruct (repairAssistantToolCallsForReload _ _) as [[[m|] k] seen] eqn:E; rewrite add_all_repaired; cbn.
    + apply repair_assistant_role in E. rewrite spoken_app. cbn. by rewrite E, Er.
    + by rewrite Er, app_nil_r.
  - destruct (repairToolResultForReload _ _) as [[m|] p] eqn:E; cbn.
    + apply repair_result_role in E. rewrite spoken_app. cbn. by rewrite E, Er.
    + by rewrite Er, app_nil_r.
Qed.

Lemma spoken_repair msgs : spoken (repairLoadedMessages msgs) = spoken (omap id msgs).
Proof.
  unfold repairLoadedMessages. rewrite spoken_flushPending.
  enough (forall s, spoken (repaired (repair_messages msgs s)) = spoken (repaired s) ++ spoken (omap id msgs)) as -> by done.
  induction msgs as [|[m|] msgs IH]; intros s; cbn [repair_messages omap list_omap]; [by rewrite app_nil_r| |by apply IH].
  cbn [id]. rewrite IH, spoken_repair_message, <- app_assoc. f_equal. symmetry. apply (spoken_app [m]).
Qed.

(** ** Theorems *)

(** C32: whatever a reloaded conversation looks like, its repair gives a history in
    which every tool call has an identifier of its own and is answered by
    exactly one result before the conversation goes on, and every result answers
    an open call; what users and the system said is kept, in order; and a
    history that is already paired is left as it is, so repairing twice changes
    nothing. *)
Theorem reload_repairs msgs :
  let h := repairLoadedMessages msgs in
  paired h /\ spoken h = spoken (omap id msgs) /\
  (forall h', paired h' -> repairLoadedMessages (Some <$> h') = h') /\ repairLoadedMessages (Some <$> h) = h.
Proof.
  split_and!; [apply repair_paired|apply spoken_repair|apply paired_fixed|apply paired_fixed, repair_paired].
Qed.

Lemma steps_filter f h o o' :
  (forall m, f m = false -> m_Role m = Assistant /\ m_ToolCalls m = []) ->
  steps turn o h o' -> steps turn o (List.filter f h) o'.
Proof.
  intros Hf. induction 1 as [o|o m o1 h o2 Ht _ IH]; cbn [List.filter]; [constructor|].
  destruct (f m) eqn:E; [by eapply steps_cons|]. destruct (Hf m E) as [Hr Hc].
  destruct Ht as [seen m _ _ _ _ _|seen calls m tc Hr'|seen m [Hr'|Hr']|seen calls m r Hr']; try congruence.
  rewrite Hc in IH. unfold ids_of, by_id in IH. cbn in IH. by rewrite (left_id_L ∅ (∪)) in IH.
Qed.

Lemma paired_filter f h :
  (forall m, f m = false -> m_Role m = Assistant /\ m_ToolCalls m = []) -> paired h -> paired (List.filter f h).
Proof. intros Hf [seen Hs]. exists seen. by apply steps_filter. Qed.

(** a resumed conversation is well paired and never ends with the result of a
    tool: when the tools of a turn had answered and the model had not gone on,
    the continuation prompt is appended; when the user had spoken last, nothing
    is. *)
Theorem resumed_history msgs :
  let '(h, kind) := repairLoadedMessagesWithInterruption msgs in
  paired h /\ (forall m, last h = Some m -> m_Role m <> Tool) /\
  match kind with
  | InterruptionTurn => exists h' m, h = h' ++ [text_message User ContinuationPrompt] /\ last h' = Some m /\
      (m_Role m = Tool \/ (m_Role m = User /\ m_ToolCallID m <> []))
  | InterruptionPrompt => exists m, last h = Some m /\ m_Role m = User /\ m_ToolCallID m = []
  | InterruptionNone => forall m, last h = Some m -> m_Role m <> User
  end.
Proof.
  unfold repairLoadedMessagesWithInterruption. cbv zeta.
  set (h := filterWhitespaceOnlyAssistantMessages _).
  assert (paired h) as [seen Hp].
  { apply paired_filter; [|apply paired_filter; [|apply repair_paired]].
    - intros m Hm%negb_false_iff. unfold whitespace_only in Hm. by breflect.
    - intros m Hm%negb_false_iff. unfold thinking_only in Hm. by breflect. }
  assert (paired (h ++ [text_message User ContinuationPrompt])) as Hc.
  { exists seen. eapply steps_snoc; [exact Hp|]. apply Turn_says. by left. }
  clearbody h. unfold detectTurnInterruption. destruct (last h) as [m|] eqn:El.
  2:{ split_and!; [by exists seen|by rewrite El|by rewrite El]. }
  destruct (m_Role m) eqn:Er;
    try (split_and!; [by exists seen|intros m'; rewrite El; intros [= <-]; congruence..]).
  - case_bool_decide as Hid; cbn [negb].
    + split_and!; [by exists seen|rewrite El; intros m' [= <-]; congruence|]. by exists m.
    + split_and!; [done|intros m'; rewrite last_snoc; by intros [= <-]|]. exists h, m. split_and!; try done. by right.
  - split_and!; [done|intros m'; rewrite last_snoc; by intros [= <-]|]. exists h, m. split_and!; try done. by left.
Qed.

(** ** An interrupted turn *)

Module Example_reload.
Definition call (id : bytes) : ToolCall := {|
  tc_ID := id; tc_Type := []; tc_Function := {| fn_Name := lit "Read"; fn_Arguments := [] |}; tc_Extra := ∅ |}.
Definition calls (ids : list bytes) : Message := (text_message Assistant []) <| m_ToolCalls := map call ids |>.
Definition result (id : bytes) : Message := (text_message Tool (lit "done")) <| m_ToolCallID := id |>.

(** The second call was cut off, the answer to it comes too late. *)
Example late_result_dropped :
  map (fun m => (m_Role m, m_ToolCallID m, m_Content m))
    (repairLoadedMessages [Some (calls [lit "a"; lit "b"]); Some (result (lit "a")); None;
                           Some (text_message User (lit "go on")); Some (result (lit "b"))]) =
  [(Assistant, [], []); (Tool, lit "a", lit "done"); (Tool, lit "b", syntheticToolResultPlaceholder);
   (User, [], lit "go on")].
Proof. by vm_compute. Qed.
End Example_reload.
