(* ===== verification/ApiNormalize.v ===== *)
(** * The history that is sent to a provider

    [src/engine/query.go]: every request to a model sends a normalised copy of
    the conversation ([normalizeMessagesForAPI]).  Virtual messages are left
    out, system messages become the user's, messages of one role that follow one
    another are merged, and every tool call gets a result next to it. *)

From S2P Require Import Prelude GoStrings Messages ReloadPairing.

Definition NEWLINES : bytes := ["010"%char; "010"%char].

(** ** Provider-bound state *)

Definition is_reasoning (p : part) : bool := match p with PartReasoning _ => true | _ => false end.

Definition strip_signature (msg : Message) : Message :=
  if m_Role msg <>b Assistant then msg else
  let hasReasoningPart := existsb is_reasoning (m_AssistantGenMultiContent msg) in
  if (m_ReasoningContent msg ==b []) && negb hasReasoningPart && (m_Extra msg ==b ∅) then msg else
  let clone := msg <| m_ReasoningContent := [] |> <| m_Extra := ∅ |> in
  if hasReasoningPart
  then clone <| m_AssistantGenMultiContent := List.filter (fun p => negb (is_reasoning p)) (m_AssistantGenMultiContent msg) |>
  else clone.

Definition stripSignatureBlocks (messages : list (option Message)) : list (option Message) :=
  map (fmap strip_signature) messages.

(** ** Merging *)

Definition join_content (a b : bytes) : bytes :=
  if (a <>b []) && (b <>b []) then a ++ NEWLINES ++ b else if b <>b [] then b else a.

Definition input_parts (m : Message) : list part :=
  if m_UserInputMultiContent m <>b [] then m_UserInputMultiContent m
  else if m_Content m <>b [] then [PartText (m_Content m)] else [].

Definition mergeUserMessages (first second : Message) : Message :=
  let merged := first <| m_Content := join_content (m_Content first) (m_Content second) |> in
  if (m_UserInputMultiContent first ==b []) && (m_UserInputMultiContent second ==b []) then merged else
  let parts := input_parts first in
  let parts := if (parts <>b []) && ((m_UserInputMultiContent second <>b []) || (m_Content second <>b []))
               then parts ++ [PartText NEWLINES] else parts in
  merged <| m_UserInputMultiContent := parts ++ input_parts second |>.

Definition merge_assistants (last msg : Message) : Message :=
  last <| m_Content := join_content (m_Content last) (m_Content msg) |>
       <| m_ToolCalls ::= fun l => l ++ m_ToolCalls msg |>
       <| m_ReasoningContent := join_content (m_ReasoningContent last) (m_ReasoningContent msg) |>.

Definition hasSpecialSubtype (msg : Message) : bool :=
  bool_decide (is_Some (m_Extra msg !! lit "subtype")) || bool_decide (is_Some (m_Extra msg !! lit "is_meta")).

Definition is_virtual (msg : Message) : bool := m_Extra msg !! lit "virtual" ==b Some (AnyBool true).

(** The message goes into the last one of the result when both have the role
    [role] and neither is special; [result] is reversed, its last message comes
    first. *)
Definition merge_or_append (role : RoleType) (merge : Message -> Message -> Message) (msg : Message)
    (result : list Message) : list Message :=
  match result with
  | last :: before =>
      if (m_Role msg ==b role) && (m_Role last ==b role) && negb (hasSpecialSubtype last) && negb (hasSpecialSubtype msg)
      then merge last msg :: before else msg :: result
  | [] => [msg]
  end.

(** Steps 2 to 6, for one message. *)
Definition normalize_message (msg : Message) (result : list Message) : list Message :=
  if is_virtual msg then result else
  match m_Role msg with
  | System =>
      let converted := (text_message User (lit "[system] " ++ m_Content msg)) <| m_Extra := m_Extra msg |> in
      merge_or_append User mergeUserMessages converted result
  | Assistant =>
      if (m_Content msg ==b []) && (m_ToolCalls msg ==b []) then result
      else merge_or_append Assistant merge_assistants msg result
  | _ => merge_or_append User mergeUserMessages msg result
  end.

(** ** The results of tool calls *)

(** The calls that need results, with the names of their tools. *)
Fixpoint needed_of (calls : list ToolCall) (needed : gmap bytes bytes) : gmap bytes bytes :=
  match calls with
  | [] => needed
  | tc :: rest =>
      needed_of rest (if tc_ID tc <>b [] then <[tc_ID tc := fn_Name (tc_Function tc)]> needed else needed)
  end.

(** The results that follow a message and answer its calls, with the calls that
    remain. *)
Fixpoint collect_results (needed : gmap bytes bytes) (messages : list Message) : list Message * gmap bytes bytes :=
  match messages with
  | toolResult :: rest =>
      if m_Role toolResult ==b Tool then
        match needed !! m_ToolCallID toolResult with
        | None => collect_results needed rest
        | Some toolName =>
            let toolResult := if (m_ToolName toolResult ==b []) && (toolName <>b [])
                              then toolResult <| m_ToolName := toolName |> else toolResult in
            let '(out, needed) := collect_results (delete (m_ToolCallID toolResult) needed) rest in
            (toolResult :: out, needed)
        end
      else ([], needed)
  | [] => ([], needed)
  end.

Definition unavailable_result (tc : ToolCall) : Message :=
  (text_message Tool (lit "[Tool result unavailable - execution was interrupted]"))
    <| m_ToolCallID := tc_ID tc |> <| m_ToolName := fn_Name (tc_Function tc) |>.

Fixpoint missing_results (calls : list ToolCall) (needed : gmap bytes bytes) : list Message :=
  match calls with
  | [] => []
  | tc :: rest =>
      if (tc_ID tc ==b []) || (needed !! tc_ID tc ==b None) then missing_results rest needed
      else unavailable_result tc :: missing_results rest (delete (tc_ID tc) needed)
  end.

(** The outer loop.  The results that the inner loop consumed are met again
    here, and left out like any other result. *)
Fixpoint pair_results (messages : list Message) : list Message :=
  match messages with
  | [] => []
  | msg :: rest =>
      if m_Role msg ==b Tool then pair_results rest else
      if (m_Role msg <>b Assistant) || (m_ToolCalls msg ==b []) then msg :: pair_results rest else
      let '(results, needed) := collect_results (needed_of (m_ToolCalls msg) ∅) rest in
      msg :: results ++ missing_results (m_ToolCalls msg) needed ++ pair_results rest
  end.

Definition calls_tools (msg : Message) : bool := (m_Role msg ==b Assistant) && (m_ToolCalls msg <>b []).

Definition ensureToolCallResultPairing (messages : list Message) : list Message :=
  if existsb calls_tools messages then pair_results messages else messages.

(** ** The pipeline *)

(** Step 7, on the reversed list. *)
Definition strip_trailing_reasoning (result : list Message) : list Message :=
  match result with
  | last :: before =>
      if (m_Role last ==b Assistant) && (m_ReasoningContent last <>b [])
      then last <| m_ReasoningContent := [] |> :: before else result
  | [] => []
  end.

(** Step 8. *)
Definition fill_content (msg : Message) : Message :=
  if (m_Role msg ==b Assistant) && (m_Content msg ==b []) && (m_ToolCalls msg <>b [])
  then msg <| m_Content := lit " " |> else msg.

(** Step 9. *)
Definition fill_error (msg : Message) : Message :=
  if (m_Role msg ==b Tool) && (m_Extra msg !! lit "is_error" ==b Some (AnyBool true)) && (TrimSpace (m_Content msg) ==b [])
  then msg <| m_Content := lit "[Tool execution error]" |> else msg.

Definition normalizeMessagesForAPI (messages : list (option Message)) : list Message :=
  let result := foldl (fun result msg => normalize_message msg result) [] (omap id messages) in
  let result := reverse (strip_trailing_reasoning result) in
  ensureToolCallResultPairing (map fill_error (map fill_content result)).

(** ** Queries on a history *)

Definition checkSleepRan (toolResults : list (option Message)) : bool :=
  existsb (fun msg => match msg with Some m => m_ToolName m ==b lit "Sleep" | None => false end) toolResults.

Definition countSyntheticOutputCalls (messages : list (option Message)) : nat :=
  length (List.filter (fun tc => fn_Name (tc_Function tc) ==b lit "SyntheticOutput")
            (flat_map m_ToolCalls (omap id messages))).

(** * What a provider receives

    The normalised history is one that providers accept: the calls of an
    assistant message are answered right after it, and no message of the
    assistant is empty.  A repaired conversation passes unchanged through the
    pairing of results. *)

(** ** Answered calls *)

(** The identifiers of the calls that wait for their results. *)
Definition call_ids (calls : list ToolCall) : gset bytes := list_to_set (tc_ID <$> calls) ∖ {[ [] ]}.

Inductive exchange : gset bytes -> Message -> gset bytes -> Prop :=
| Ex_assistant m : m_Role m = Assistant -> exchange ∅ m (call_ids (m_ToolCalls m))
| Ex_result waiting m : m_Role m = Tool -> m_ToolCallID m ∈ waiting -> exchange waiting m (waiting ∖ {[ m_ToolCallID m ]})
| Ex_says m : m_Role m <> Assistant -> m_Role m <> Tool -> exchange ∅ m ∅.

(** Each call that has an identifier is answered exactly once, right after the
    message that makes it, and every result answers such a call. *)
Definition answered (h : list Message) : Prop := steps exchange ∅ h ∅.

Lemma dom_needed_of calls needed : dom (needed_of calls needed) = call_ids calls ∪ dom needed.
Proof.
  revert needed. induction calls as [|tc calls IH]; intros needed; cbn [needed_of].
  { unfold call_ids. cbn. set_solver. }
  rewrite IH. unfold call_ids. cbn [fmap list_fmap list_to_set]. case_bool_decide as Hid; cbn [negb].
  - rewrite Hid. set_solver.
  - rewrite dom_insert_L. set_solver.
Qed.

Lemma collect_results_exchange needed rest out needed' :
  collect_results needed rest = (out, needed') -> steps exchange (dom needed) out (dom needed') /\ dom needed' ⊆ dom needed.
Proof.
  revert needed out needed'. induction rest as [|m rest IH]; intros needed out needed'; cbn [collect_results].
  { intros [= <- <-]. split; [constructor|done]. }
  case_bool_decide as Hr; [|intros [= <- <-]; split; [constructor|done]].
  destruct (needed !! m_ToolCallID m) as [name|] eqn:E; [|apply IH].
  set (r := if (m_ToolName m ==b []) && (name <>b []) then _ else m).
  assert (m_Role r = Tool /\ m_ToolCallID r = m_ToolCallID m) as [H1 H2] by (unfold r; by destruct (_ && _)).
  clearbody r. destruct (collect_results _ rest) as [o n] eqn:Ec. intros [= <- <-].
  apply IH in Ec as [Hs Hsub]. rewrite dom_delete_L in Hs, Hsub. split; [|set_solver].
  eapply steps_cons; [apply Ex_result; [done|rewrite H2; by apply elem_of_dom_2 in E]|exact Hs].
Qed.

(** The missing results answer all the calls that remain. *)
Lemma missing_results_exchange calls needed :
  dom needed ⊆ call_ids calls -> steps exchange (dom needed) (missing_results calls needed) ∅.
Proof.
  revert needed. induction calls as [|tc calls IH]; intros needed Hd; cbn [missing_results].
  { assert (dom needed = ∅) as -> by (unfold call_ids in Hd; cbn in Hd; set_solver). constructor. }
  assert (call_ids (tc :: calls) ⊆ {[ tc_ID tc ]} ∪ call_ids calls) as Hc by (unfold call_ids; cbn; set_solver).
  case_bool_decide as Hid; cbn [orb].
  { apply IH. rewrite Hid in Hc. assert ([] ∉ dom needed) by (unfold call_ids in Hd; set_solver). set_solver. }
  case_bool_decide as Hn.
  { apply IH. apply not_elem_of_dom in Hn. set_solver. }
  eapply steps_cons.
  - apply (Ex_result _ (unavailable_result tc)); [done|]. cbn. apply elem_of_dom.
    destruct (needed !! tc_ID tc); [by eexists|done].
  - cbn. rewrite <- dom_delete_L. apply IH. rewrite dom_delete_L. set_solver.
Qed.

Lemma pair_results_answered h : answered (pair_results h).
Proof.
  unfold answered. induction h as [|m h IH]; cbn [pair_results]; [constructor|].
  case_bool_decide as Ht; [done|]. case_bool_decide as Ha; cbn [negb orb].
  - case_bool_decide as Hc.
    + eapply steps_cons; [by apply Ex_assistant|]. rewrite Hc. unfold call_ids. cbn.
      by assert ((∅ : gset bytes) ∖ {[ [] ]} = ∅) as -> by set_solver.
    + destruct (collect_results _ h) as [out needed] eqn:E. apply collect_results_exchange in E as [Hs Hd].
      rewrite dom_needed_of in Hs, Hd. assert (call_ids (m_ToolCalls m) ∪ dom (∅ : gmap bytes bytes) = call_ids (m_ToolCalls m)) as E
        by set_solver. rewrite E in Hs, Hd.
      eapply steps_cons; [by apply Ex_assistant|]. eapply steps_app; [exact Hs|].
      eapply steps_app; [by apply missing_results_exchange|exact IH].
  - eapply steps_cons; [by apply Ex_says|exact IH].
Qed.

(** ** Repaired conversations *)

Lemma needed_of_lookup calls needed id name :
  needed_of calls needed !! id = Some name ->
  (exists tc, tc ∈ calls /\ tc_ID tc = id /\ fn_Name (tc_Function tc) = name) \/ needed !! id = Some name.
Proof.
  revert needed. induction calls as [|tc calls IH]; intros needed; cbn [needed_of]; [by right|].
  intros [(t & Ht & Hi & Hn)|Hl]%IH; [left; exists t; set_solver|].
  case_bool_decide; cbn [negb] in Hl; [by right|].
  apply lookup_insert_Some in Hl as [[<- <-]|[_ Hl]]; [left; exists tc; set_solver|by right].
Qed.

(** The results of open calls are all taken, as they are. *)
Lemma collect_paired h seen calls o needed :
  steps turn (seen, calls) h o -> o.2 = ∅ -> Forall (fun m => forall r, m_Role m <> RoleOther r) h ->
  dom needed = dom calls ->
  (forall id tc name, calls !! id = Some tc -> needed !! id = Some name -> name = fn_Name (tc_Function tc)) ->
  exists group rest, collect_results needed h = (group, ∅) /\ h = group ++ rest /\
    Forall (fun m => m_Role m = Tool) group /\ steps turn (seen, ∅) rest o.
Proof.
  intros Hst Ho. remember (seen, calls) as o1 eqn:E1. revert seen calls needed E1.
  induction Hst as [o|o m o1 h o2 Ht Hst IH]; intros seen calls needed -> Hk Hd Hn.
  { cbn in Ho. subst calls. rewrite dom_empty_L in Hd. apply dom_empty_inv_L in Hd as ->.
    exists [], []. split_and!; [done|done|constructor|constructor]. }
  apply Forall_cons in Hk as [Hk Hks].
  assert (calls = ∅ /\ m_Role m <> Tool \/ exists tc, m_Role m = Tool /\ calls !! m_ToolCallID m = Some tc /\
    (m_ToolName m = [] -> fn_Name (tc_Function tc) = []) /\ o1 = (seen, delete (m_ToolCallID m) calls)) as Hcase.
  { inversion Ht as [|? ? ? tc|? ? [Hr|Hr]|? ? ? r]; subst.
    - left. split; congruence.
    - right. by exists tc.
    - left. split; congruence.
    - left. split; congruence.
    - by destruct (Hk r). }
  destruct Hcase as [[-> Hr]|(tc & Hr & Hc & Hnm & ->)].
  - rewrite dom_empty_L in Hd. apply dom_empty_inv_L in Hd as ->. exists [], (m :: h). cbn [collect_results].
    rewrite bool_decide_eq_false_2 by done. split_and!; [done|done|constructor|]. by eapply steps_cons.
  - cbn [collect_results]. rewrite bool_decide_eq_true_2 by done.
    destruct (needed !! m_ToolCallID m) as [name|] eqn:En.
    2:{ apply not_elem_of_dom in En. rewrite Hd in En. by apply elem_of_dom_2 in Hc. }
    rewrite (Hn _ _ _ Hc En).
    assert ((m_ToolName m ==b []) && (fn_Name (tc_Function tc) <>b []) = false) as ->.
    { repeat case_bool_decide; try done. cbn. naive_solver. }
    destruct (IH Ho seen (delete (m_ToolCallID m) calls) (delete (m_ToolCallID m) needed) eq_refl Hks)
      as (group & rest & -> & -> & Hg & Hrest).
    + by rewrite !dom_delete_L, Hd.
    + intros id t n [_ H1]%lookup_delete_Some [_ H2]%lookup_delete_Some. by eapply Hn.
    + exists (m :: group), rest. split_and!; [done|done|by constructor|done].
Qed.

Lemma pair_results_tools group rest :
  Forall (fun m => m_Role m = Tool) group -> pair_results (group ++ rest) = pair_results rest.
Proof.
  induction 1 as [|m group Hm _ IH]; [done|]. cbn [app pair_results]. by rewrite bool_decide_eq_true_2.
Qed.

Lemma missing_none calls : missing_results calls ∅ = [].
Proof.
  induction calls as [|tc calls IH]; cbn [missing_results]; [done|].
  rewrite lookup_empty, (bool_decide_eq_true_2 (None = None)), orb_true_r by done. exact IH.
Qed.

Lemma dom_by_id calls : Forall well_formed calls -> dom (by_id calls) = call_ids calls.
Proof.
  intros Hw. unfold by_id. rewrite dom_list_to_map_L, <- list_fmap_compose. unfold call_ids.
  assert ([] ∉ (tc_ID <$> calls)) as Hne; [|cbn [fst compose]; set_solver].
  intros (t & Ht & Hin)%list_elem_of_fmap. rewrite Forall_forall in Hw. destruct (Hw t Hin) as [Hx _]. congruence.
Qed.

Lemma by_id_lookup calls t : NoDup (tc_ID <$> calls) -> t ∈ calls -> by_id calls !! tc_ID t = Some t.
Proof.
  intros Hn Ht. apply elem_of_list_to_map_1; [by rewrite <- list_fmap_compose|]. apply list_elem_of_fmap. by exists t.
Qed.

Lemma pair_results_fixed h seen o :
  steps turn (seen, ∅) h o -> o.2 = ∅ -> Forall (fun m => forall r, m_Role m <> RoleOther r) h -> pair_results h = h.
Proof.
  remember (length h) as n eqn:En. revert h seen En.
  induction (lt_wf n) as [n _ IH]. intros h seen -> Hst Ho Hk. destruct h as [|m h]; [done|].
  apply Forall_cons in Hk as [Hm Hk]. inversion Hst as [|? ? o1 ? ? Ht Hrest]; subst. cbn [pair_results].
  inversion Ht as [? ? Hr He Hw Hn Hd|? ? ? tc ? ? Hl|? ? Hr|? ? ? r Hr]; subst.
  - rewrite Hr, bool_decide_eq_false_2, (bool_decide_eq_true_2 (Assistant = Assistant)) by done. cbn [negb orb].
    case_bool_decide as Hc.
    + f_equal. rewrite Hc in Hrest. eapply (IH (length h)); [cbn; lia|done|exact Hrest|done|done].
    + destruct (collect_paired h _ _ _ (needed_of (m_ToolCalls m) ∅) Hrest Ho Hk) as (group & rest & -> & -> & Hg & Hrs).
      * rewrite dom_needed_of, dom_by_id by done. set_solver.
      * intros id t name H1 H2. apply needed_of_lookup in H2 as [(t' & Hin & <- & <-)|H2]; [|by rewrite lookup_empty in H2].
        rewrite by_id_lookup in H1 by done. congruence.
      * rewrite missing_none, pair_results_tools by done. cbn [app]. do 2 f_equal.
        eapply (IH (length rest)); [cbn; rewrite length_app; lia|done|exact Hrs|done|].
        by apply Forall_app in Hk as [_ ?].
  - by rewrite lookup_empty in Hl.
  - rewrite bool_decide_eq_false_2 by (destruct Hr; congruence).
    rewrite (bool_decide_eq_false_2 (m_Role m = Assistant)) by (destruct Hr; congruence). cbn [negb orb]. f_equal.
    eapply (IH (length h)); [cbn; lia|done|exact Hrest|done|done].
  - by destruct (Hm r).
Qed.

(** when the roles of a reloaded conversation are the four that the framework
    knows, its repair is a fixed point of the pairing that precedes every
    request: the two routines agree on what a well-paired history is, so a
    resumed conversation is sent as it was repaired. *)
Theorem repaired_history_is_sent msgs :
  Forall (fun m => forall r, m_Role m <> RoleOther r) (omap id msgs) ->
  ensureToolCallResultPairing (repairLoadedMessages msgs) = repairLoadedMessages msgs.
Proof.
  intros Hk. unfold ensureToolCallResultPairing. destruct (existsb _ _); [|done].
  destruct (repair_paired msgs) as [seen Hs]. eapply pair_results_fixed; [exact Hs|done|].
  apply Forall_forall. intros m Hm r Hr. rewrite Forall_forall in Hk.
  assert (m ∈ spoken (repairLoadedMessages msgs)) as Hsp.
  { apply list_elem_of_In, filter_In. rewrite <- list_elem_of_In. split; [done|]. by rewrite Hr. }
  rewrite spoken_repair in Hsp. apply list_elem_of_In, filter_In in Hsp as [Hsp _]. apply list_elem_of_In in Hsp.
  by apply (Hk m Hsp r).
Qed.

(** ** The messages of a normalised history *)

(** What every message satisfies after the first steps. *)
Definition plain (m : Message) : Prop :=
  m_Role m <> System /\ is_virtual m = false /\ (m_Role m = Assistant -> m_Content m <> [] \/ m_ToolCalls m <> []).
Definition sendable (m : Message) : Prop :=
  m_Role m <> System /\ is_virtual m = false /\ (m_Role m = Assistant -> m_Content m <> []).

Lemma join_content_empty a b : join_content a b = [] <-> a = [] /\ b = [].
Proof.
  unfold join_content. repeat case_bool_decide; cbn; try naive_solver.
  split; [|naive_solver]. intros E%app_eq_nil. naive_solver.
Qed.

Lemma merge_or_append_plain role merge msg result :
  (forall last, plain last -> m_Role last = role -> m_Role msg = role -> plain (merge last msg)) ->
  plain msg -> Forall plain result -> Forall plain (merge_or_append role merge msg result).
Proof.
  intros Hmerge Hm Hr. unfold merge_or_append. destruct result as [|last before]; [by apply Forall_singleton|].
  apply Forall_cons in Hr as [Hl Hb].
  destruct ((m_Role msg ==b role) && (m_Role last ==b role) && _ && _) eqn:E; [|by constructor; [|constructor]].
  breflect. constructor; [|done]. by apply Hmerge.
Qed.

Lemma merge_user_plain last msg : plain last -> m_Role last = User -> plain (mergeUserMessages last msg).
Proof.
  intros (H1 & H2 & H3) Hr. unfold mergeUserMessages. cbv zeta. unfold plain, is_virtual in *.
  destruct (_ && _); cbn; split_and!; try done; congruence.
Qed.

Lemma merge_assistant_plain last msg : plain last -> plain (merge_assistants last msg).
Proof.
  intros (H1 & H2 & H3). unfold plain, is_virtual in *. cbn. split_and!; [done..|]. intros Ha.
  rewrite join_content_empty. destruct (H3 Ha) as [Hc|Hc]; [left; naive_solver|right].
  intros E%app_eq_nil. naive_solver.
Qed.

Lemma normalize_message_plain msg result : Forall plain result -> Forall plain (normalize_message msg result).
Proof.
  intros Hr. unfold normalize_message. destruct (is_virtual msg) eqn:Ev; [done|].
  destruct (m_Role msg) eqn:Er.
  - destruct ((m_Content msg ==b []) && (m_ToolCalls msg ==b [])) eqn:Ee; [done|]. apply merge_or_append_plain; [|split_and!|done].
    + intros last Hl _ _. by apply merge_assistant_plain.
    + congruence.
    + done.
    + intros _. apply andb_false_iff in Ee as [Ee|Ee]; apply bool_decide_eq_false_1 in Ee; tauto.
  - apply merge_or_append_plain; [intros last Hl Hu _; by apply merge_user_plain|split_and!; congruence|done].
  - cbv zeta. apply merge_or_append_plain; [intros last Hl Hu _; by apply merge_user_plain|split_and!; [done..|]|done]. done.
  - apply merge_or_append_plain; [intros last Hl Hu _; by apply merge_user_plain|split_and!; congruence|done].
  - apply merge_or_append_plain; [intros last Hl Hu _; by apply merge_user_plain|split_and!; congruence|done].
Qed.

Lemma normalize_all_plain msgs result :
  Forall plain result -> Forall plain (foldl (fun result msg => normalize_message msg result) result msgs).
Proof.
  revert result. induction msgs as [|m msgs IH]; intros result Hr; cbn [foldl]; [done|].
  by apply IH, normalize_message_plain.
Qed.

Lemma strip_trailing_plain result : Forall plain result -> Forall plain (strip_trailing_reasoning result).
Proof.
  unfold strip_trailing_reasoning. destruct result as [|last before]; [done|].
  intros [Hl Hb]%Forall_cons. destruct (_ && _); by constructor.
Qed.

Lemma fill_sendable m : plain m -> sendable (fill_error (fill_content m)).
Proof.
  intros (H1 & H2 & H3). assert (sendable (fill_content m)) as (H4 & H5 & H6).
  { unfold fill_content, sendable, is_virtual in *. destruct (_ && _) eqn:E; cbn; [by split_and!|].
    split_and!; [done..|]. intros Ha Hc. destruct (H3 Ha) as [|Ht]; [done|].
    apply andb_false_iff in E as [[E|E]%andb_false_iff|E]; [by apply bool_decide_eq_false_1 in E..|].
    by apply negb_false_iff, bool_decide_eq_true_1 in E. }
  unfold fill_error, sendable, is_virtual in *. destruct (_ && _); cbn; by split_and!.
Qed.

Lemma missing_results_sendable calls needed : Forall sendable (missing_results calls needed).
Proof.
  revert needed. induction calls as [|tc calls IH]; intros needed; cbn [missing_results]; [done|].
  destruct (_ || _); [done|]. constructor; [|done]. by split_and!.
Qed.

Lemma collect_results_sendable needed rest out needed' :
  Forall sendable rest -> collect_results needed rest = (out, needed') -> Forall sendable out.
Proof.
  intros Hr. revert needed out needed'. induction Hr as [|m rest Hm _ IH]; intros needed out needed'; cbn [collect_results].
  { by intros [= <- <-]. }
  case_bool_decide; [|by intros [= <- <-]]. destruct (needed !! _) as [name|]; [|apply IH]. cbv zeta.
  destruct (collect_results _ rest) as [o n] eqn:E. intros [= <- <-]. apply IH in E. constructor; [|done].
  destruct (_ && _); exact Hm.
Qed.

Lemma pair_results_sendable h : Forall sendable h -> Forall sendable (pair_results h).
Proof.
  induction 1 as [|m h Hm Hh IH]; cbn [pair_results]; [done|]. case_bool_decide; [done|].
  destruct (_ || _); [by constructor|]. destruct (collect_results _ h) as [out needed] eqn:E.
  constructor; [done|]. apply Forall_app. split; [exact (collect_results_sendable _ _ _ _ Hh E)|].
  apply Forall_app. split; [apply missing_results_sendable|done].
Qed.

(** C33: whatever the conversation, the history sent to a provider has no system
    and no virtual message, no message of the assistant is empty, and, when the
    assistant calls tools, every call with an identifier is answered exactly
    once, right after its message, and every result answers such a call. *)
Theorem sent_history_accepted msgs :
  let h := normalizeMessagesForAPI msgs in
  Forall sendable h /\ ((exists m, m ∈ h /\ calls_tools m = true) -> answered h).
Proof.
  cbv zeta. unfold normalizeMessagesForAPI, ensureToolCallResultPairing. cbv zeta.
  set (h := map fill_error _).
  assert (Forall sendable h) as Hs.
  { subst h. rewrite List.map_map. apply Forall_fmap, Forall_reverse.
    eapply Forall_impl; [apply strip_trailing_plain, normalize_all_plain, Forall_nil_2|]. apply fill_sendable. }
  clearbody h. destruct (existsb calls_tools h) eqn:E; [by split; [apply pair_results_sendable|intros _; apply pair_results_answered]|].
  split; [done|]. intros (m & Hm & Hc). exfalso. assert (existsb calls_tools h = true); [|congruence].
  apply existsb_exists. exists m. by rewrite <- list_elem_of_In.
Qed.

(** ** Examples *)

Module Example_sent.
Import Example_reload.

(** A conversation whose second call was cut off. *)
Definition cut_off : list (option Message) :=
  [Some (text_message User (lit "hi")); Some (calls [lit "a"; lit "b"]); Some (result (lit "a"))].

Lemma cut_off_roles : Forall (fun m => forall r, m_Role m <> RoleOther r) (omap id cut_off).
Proof. repeat constructor; by intros r. Qed.

Lemma repaired_history_is_sent_witness :
  length (repairLoadedMessages cut_off) = 4%nat /\
  ensureToolCallResultPairing (repairLoadedMessages cut_off) = repairLoadedMessages cut_off.
Proof. split; [by vm_compute|]. apply repaired_history_is_sent, cut_off_roles. Defined.

Definition texts (h : list Message) : list (RoleType * bytes) := map (fun m => (m_Role m, m_Content m)) h.

(** Without any call in the history nothing is checked: the result of a call that
    was lost is sent. *)
Example orphan_result_is_sent :
  texts (normalizeMessagesForAPI [Some (text_message User (lit "hi")); Some (result (lit "a"))]) =
  [(User, lit "hi"); (Tool, lit "done")].
Proof. by vm_compute. Qed.

(** Results without a call are removed after messages were merged, so that the
    messages of the user around one stay apart. *)
Example users_stay_apart :
  texts (normalizeMessagesForAPI [Some (text_message User (lit "hi")); Some (result (lit "z"));
    Some (text_message User (lit "go")); Some (calls [lit "a"]); Some (result (lit "a"))]) =
  [(User, lit "hi"); (User, lit "go"); (Assistant, lit " "); (Tool, lit "done")].
Proof. by vm_compute. Qed.

(** A message of the assistant whose content is only in its output parts is left
    out, although the repair of a conversation counts it as visible. *)
Example output_parts_are_dropped :
  let m := (text_message Assistant []) <| m_AssistantGenMultiContent := [PartText (lit "picture")] |> in
  normalizeMessagesForAPI [Some m] = [] /\ assistantVisibleContentEmpty m = false.
Proof. split; by vm_compute. Qed.
End Example_sent.
