(* ===== verification/ToolSchedule.v ===== *)
(** * The schedule of a round of tool calls

    [src/engine/tool_schedule.go]: the calls of one committed assistant message
    are frozen, in the order of the model, with the batches in which they run:
    neighbours that are safe to run together share a batch, every other call has
    one of its own.  [src/engine/tool_orchestration.go] partitions calls the
    same way and runs a batch with bounded concurrency.

    A digest is the hexadecimal SHA-256 of a text; [encode_calls] is the JSON of
    the scheduled calls.  A classifier may panic, which counts as unsafe. *)

From S2P Require Import Prelude GoStrings GoBase Messages.

Class Digests := {
  sha256_hex : bytes -> bytes;
  sha256_hex_32 : forall s, hex32 (sha256_hex s) = true
}.

Record toolScheduleCall := {
  Ordinal : nat; CallID : bytes; ToolName : bytes; ArgumentsDigest : bytes; Batch : Z; ConcurrencySafe : bool
}.
Record toolSchedule := { RoundID : bytes; Calls : list toolScheduleCall }.

Inductive schedule_error :=
| NoCalls | NilCall (ordinal : nat) | NoID (ordinal : nat) | NonCanonicalID (ordinal : nat) | DuplicateID (id : bytes)
| NoToolName (id : bytes) | NonCanonicalName (id : bytes) | InvalidRoundID | OutOfOrder (ordinal : nat)
| Incomplete (index : nat) | NonCanonical (index : nat) | InvalidDigest (id : bytes) | NotBatchZero
| StartsNewBatch (id : bytes) | NoBarrier (id : bytes) | RoundIDMismatch
| IncompleteOutcomes | OutOfModelOrder (index : nat) | DuplicateOutcome (id : bytes) | NotExactlyOne (id : bytes)
| NoPrimaryResult (id : bytes) | MismatchedResult (id : bytes).

Section schedule.
Context `{Digests} (encode_calls : list toolScheduleCall -> bytes).

(** ** Classification *)

(** The classifier's answer, nothing when it panics. *)
Definition classifyToolScheduleCall (classifier : option (ToolCall -> option bool)) (call : ToolCall) : bool :=
  match classifier with
  | None => false
  | Some f => default false (f call)
  end.

Definition toolArgumentsDigest (arguments : bytes) : bytes := sha256_hex arguments.
Definition toolScheduleRoundID (calls : list toolScheduleCall) : bytes := sha256_hex (encode_calls calls).

(** ** Validation *)

(** The check of a call's place, given the call before it. *)
Definition validate_batch (previous : option toolScheduleCall) (call : toolScheduleCall) : option schedule_error :=
  match previous with
  | None => if Batch call =? 0 then None else Some NotBatchZero
  | Some p =>
      if ConcurrencySafe call && ConcurrencySafe p
      then if Batch call =? Batch p then None else Some (StartsNewBatch (CallID call))
      else if Batch call =? Batch p + 1 then None else Some (NoBarrier (CallID call))
  end%Z.

Fixpoint validate_calls (i : nat) (previous : option toolScheduleCall) (seen : gset bytes)
    (calls : list toolScheduleCall) : option schedule_error :=
  match calls with
  | [] => None
  | call :: rest =>
      if negb (Ordinal call =? i)%nat then Some (OutOfOrder (Ordinal call)) else
      if (TrimSpace (CallID call) ==b []) || (TrimSpace (ToolName call) ==b []) then Some (Incomplete i) else
      if (CallID call <>b TrimSpace (CallID call)) || (ToolName call <>b TrimSpace (ToolName call))
      then Some (NonCanonical i) else
      if bool_decide (CallID call ∈ seen) then Some (DuplicateID (CallID call)) else
      if negb (hex32 (ArgumentsDigest call)) then Some (InvalidDigest (CallID call)) else
      match validate_batch previous call with
      | Some e => Some e
      | None => validate_calls (S i) (Some call) ({[ CallID call ]} ∪ seen) rest
      end
  end.

(** The error of a schedule, nothing when it is valid. *)
Definition validateToolSchedule (s : toolSchedule) : option schedule_error :=
  if Calls s ==b [] then Some NoCalls else
  if negb (hex32 (RoundID s)) then Some InvalidRoundID else
  match validate_calls 0 None ∅ (Calls s) with
  | Some e => Some e
  | None => if ToLower (toolScheduleRoundID (Calls s)) ==b ToLower (RoundID s) then None else Some RoundIDMismatch
  end.

(** ** Construction *)

Fixpoint schedule_calls (classifier : option (ToolCall -> option bool)) (ordinal : nat) (batch : Z) (previousSafe : bool)
    (seen : gset bytes) (toolCalls : list (option ToolCall)) : result schedule_error (list toolScheduleCall) :=
  match toolCalls with
  | [] => Ok []
  | None :: _ => Err (NilCall ordinal)
  | Some call :: rest =>
      let callID := TrimSpace (tc_ID call) in
      if callID ==b [] then Err (NoID ordinal) else
      if tc_ID call <>b callID then Err (NonCanonicalID ordinal) else
      if bool_decide (callID ∈ seen) then Err (DuplicateID callID) else
      let toolName := TrimSpace (fn_Name (tc_Function call)) in
      if toolName ==b [] then Err (NoToolName callID) else
      if fn_Name (tc_Function call) <>b toolName then Err (NonCanonicalName callID) else
      let safe := classifyToolScheduleCall classifier call in
      let batch := (if (ordinal =? 0)%nat || negb safe || negb previousSafe then batch + 1 else batch)%Z in
      match schedule_calls classifier (S ordinal) batch safe ({[ callID ]} ∪ seen) rest with
      | Err e => Err e
      | Ok calls =>
          Ok ({| Ordinal := ordinal; CallID := callID; ToolName := toolName;
                 ArgumentsDigest := toolArgumentsDigest (fn_Arguments (tc_Function call)); Batch := batch;
                 ConcurrencySafe := safe |} :: calls)
      end
  end.

Definition newToolSchedule (toolCalls : list (option ToolCall)) (classifier : option (ToolCall -> option bool))
    : result schedule_error toolSchedule :=
  if toolCalls ==b [] then Err NoCalls else
  match schedule_calls classifier 0 (-1) false ∅ toolCalls with
  | Err e => Err e
  | Ok calls =>
      let s := {| RoundID := toolScheduleRoundID calls; Calls := calls |} in
      match validateToolSchedule s with Some e => Err e | None => Ok s end
  end.

(** ** The decision after a round *)

Inductive afterToolDecisionKind := afterToolContinue | afterToolReturn | afterToolInterrupt.

Inductive TerminalReason := NoTerminalReason | TerminalHookStopped.

Record afterToolDecision := {
  Kind : afterToolDecisionKind; ReturnCallID : bytes; d_InterruptID : bytes; d_TerminalReason : TerminalReason
}.

(** What a tool's outcome is looked at for: the call that its primary result
    answers, if it has one, and whether it stops the turn. *)
Record toolExecutionOutcome := { Result : option bytes; PreventContinuation : bool }.

Record toolRoundOutcome := { o_CallID : bytes; Outcome : option toolExecutionOutcome; InterruptID : bytes }.

Definition check_outcome (planned : toolScheduleCall) (i : nat) (seen : gset bytes) (o : toolRoundOutcome)
    : option schedule_error :=
  if o_CallID o <>b CallID planned then Some (OutOfModelOrder i) else
  if bool_decide (o_CallID o ∈ seen) then Some (DuplicateOutcome (o_CallID o)) else
  let hasInterrupt := TrimSpace (InterruptID o) <>b [] in
  if Bool.eqb hasInterrupt (Outcome o <>b None) then Some (NotExactlyOne (o_CallID o)) else
  match Outcome o with
  | None => None
  | Some out =>
      match Result out with
      | None => Some (NoPrimaryResult (o_CallID o))
      | Some id => if id <>b o_CallID o then Some (MismatchedResult (o_CallID o)) else None
      end
  end.

Fixpoint check_outcomes (i : nat) (seen : gset bytes) (calls : list toolScheduleCall) (outcomes : list toolRoundOutcome)
    : option schedule_error :=
  match calls, outcomes with
  | planned :: calls, o :: outcomes =>
      match check_outcome planned i seen o with
      | Some e => Some e
      | None => check_outcomes (S i) ({[ o_CallID o ]} ∪ seen) calls outcomes
      end
  | _, _ => None
  end.

Definition interrupts (o : toolRoundOutcome) : bool := TrimSpace (InterruptID o) <>b [].
Definition prevents (o : toolRoundOutcome) : bool :=
  match Outcome o with Some out => PreventContinuation out | None => false end.

Definition decideAfterToolRound (schedule : toolSchedule) (outcomes : list toolRoundOutcome)
    : result schedule_error afterToolDecision :=
  match validateToolSchedule schedule with
  | Some e => Err e
  | None =>
      if negb (length outcomes =? length (Calls schedule))%nat then Err IncompleteOutcomes else
      match check_outcomes 0 ∅ (Calls schedule) outcomes with
      | Some e => Err e
      | None =>
          match List.find interrupts outcomes with
          | Some o => Ok {| Kind := afterToolInterrupt; ReturnCallID := []; d_InterruptID := TrimSpace (InterruptID o);
                            d_TerminalReason := NoTerminalReason |}
          | None =>
              match List.find prevents outcomes with
              | Some o => Ok {| Kind := afterToolReturn; ReturnCallID := o_CallID o; d_InterruptID := [];
                                d_TerminalReason := TerminalHookStopped |}
              | None => Ok {| Kind := afterToolContinue; ReturnCallID := []; d_InterruptID := [];
                              d_TerminalReason := NoTerminalReason |}
              end
          end
      end
  end.

(** ** Batches *)

Record toolBatch := { IsConcurrencySafe : bool; ToolCalls : list ToolCall }.

(** [partitionToolCalls], for the classifier [isToolConcurrencySafe]; the batches
    are kept in reverse, the last one comes first. *)
Definition add_to_batches (isSafe : ToolCall -> bool) (batches : list toolBatch) (call : ToolCall) : list toolBatch :=
  match batches with
  | last :: before =>
      if isSafe call && IsConcurrencySafe last
      then {| IsConcurrencySafe := IsConcurrencySafe last; ToolCalls := ToolCalls last ++ [call] |} :: before
      else {| IsConcurrencySafe := isSafe call; ToolCalls := [call] |} :: batches
  | [] => [{| IsConcurrencySafe := isSafe call; ToolCalls := [call] |}]
  end.

Definition partitionToolCalls (isSafe : ToolCall -> bool) (toolCalls : list ToolCall) : list toolBatch :=
  reverse (foldl (add_to_batches isSafe) [] toolCalls).
End schedule.

(** * Facts on the schedule of a round

    When a schedule exists, that its construction satisfies its own validation,
    that its batches are those of [partitionToolCalls], and which branch a round
    takes after its tools have answered. *)

Section facts.
Context `{Digests} (encode_calls : list toolScheduleCall -> bytes).

(** ** Construction *)

Definition canonical (s : bytes) : Prop := s <> [] /\ TrimSpace s = s.
Definition canonical_call (tc : ToolCall) : Prop := canonical (tc_ID tc) /\ canonical (fn_Name (tc_Function tc)).

(** The calls of a round that can be scheduled. *)
Definition schedulable (toolCalls : list (option ToolCall)) : Prop :=
  toolCalls <> [] /\ exists l, toolCalls = Some <$> l /\ Forall canonical_call l /\ NoDup (tc_ID <$> l).

(** The fields of a scheduled call that come from the call. *)
Definition identity (c : toolScheduleCall) : bytes * bytes * bytes := (CallID c, ToolName c, ArgumentsDigest c).
Definition call_identity (tc : ToolCall) : bytes * bytes * bytes :=
  (tc_ID tc, fn_Name (tc_Function tc), toolArgumentsDigest (fn_Arguments (tc_Function tc))).

(** What the loop knows of the call before. *)
Definition follows (previous : option toolScheduleCall) (ordinal : nat) (batch : Z) (previousSafe : bool) : Prop :=
  match previous with
  | None => ordinal = 0%nat /\ batch = (-1)%Z
  | Some p => (0 < ordinal)%nat /\ Batch p = batch /\ ConcurrencySafe p = previousSafe
  end.

Lemma schedule_calls_ok classifier ordinal batch previousSafe seen previous l :
  Forall canonical_call l -> NoDup (tc_ID <$> l) -> (forall tc, tc ∈ l -> tc_ID tc ∉ seen) ->
  follows previous ordinal batch previousSafe ->
  exists calls, schedule_calls classifier ordinal batch previousSafe seen (Some <$> l) = Ok calls /\
    identity <$> calls = call_identity <$> l /\ validate_calls ordinal previous seen calls = None.
Proof.
  intros Hc. revert ordinal batch previousSafe seen previous.
  induction Hc as [|tc l [[Hi1 Hi2] [Hn1 Hn2]] _ IH]; intros ordinal batch prev seen previous Hnd Hs Hf; [by exists []|].
  cbn [fmap list_fmap] in *. apply NoDup_cons in Hnd as [Hx Hnd]. cbn [schedule_calls]. rewrite Hi2, Hn2. cbv zeta.
  rewrite (bool_decide_eq_true_2 (tc_ID tc = tc_ID tc)),
    (bool_decide_eq_true_2 (fn_Name (tc_Function tc) = fn_Name (tc_Function tc))) by done. cbn [negb].
  rewrite !bool_decide_eq_false_2 by (done || (apply Hs; set_solver)).
  set (safe := classifyToolScheduleCall classifier tc). set (b := if _ || _ || _ then _ else batch).
  set (c := {| Ordinal := ordinal; CallID := _ |}).
  destruct (IH (S ordinal) b safe ({[ tc_ID tc ]} ∪ seen) (Some c)) as (calls & Hcalls & Hid & Hv).
  { done. }
  { intros t Ht. rewrite not_elem_of_union, not_elem_of_singleton. split; [|apply Hs; set_solver].
    intros Heq. apply Hx. rewrite <- Heq. by apply list_elem_of_fmap_2. }
  { split; [lia|]. by split. }
  rewrite Hcalls. exists (c :: calls). split; [done|]. split; [cbn; by rewrite Hid|].
  cbn [validate_calls]. rewrite Nat.eqb_refl. cbn [negb CallID ToolName c]. rewrite Hi2, Hn2.
  rewrite (bool_decide_eq_false_2 (tc_ID tc = [])), (bool_decide_eq_false_2 (fn_Name (tc_Function tc) = [])) by done.
  rewrite (bool_decide_eq_true_2 (tc_ID tc = tc_ID tc)),
    (bool_decide_eq_true_2 (fn_Name (tc_Function tc) = fn_Name (tc_Function tc))) by done.
  rewrite bool_decide_eq_false_2 by (apply Hs; set_solver). cbn [orb negb ArgumentsDigest c].
  unfold toolArgumentsDigest. rewrite sha256_hex_32. cbn [negb].
  assert (validate_batch previous c = None) as ->; [|exact Hv].
  unfold validate_batch, c, b. cbn [ConcurrencySafe Batch]. destruct previous as [p|].
  - destruct Hf as (Ho & -> & ->). destruct (Nat.eqb_spec ordinal 0); [lia|]. cbn [orb].
    destruct safe, prev; cbn [andb orb negb]; by rewrite Z.eqb_refl.
  - destruct Hf as [-> ->]. done.
Qed.

Lemma schedule_calls_inv classifier ordinal batch previousSafe seen toolCalls calls :
  schedule_calls classifier ordinal batch previousSafe seen toolCalls = Ok calls ->
  exists l, toolCalls = Some <$> l /\ Forall canonical_call l /\ NoDup (tc_ID <$> l) /\
    forall tc, tc ∈ l -> tc_ID tc ∉ seen.
Proof.
  revert ordinal batch previousSafe seen calls.
  induction toolCalls as [|[tc|] rest IH]; intros ordinal batch prev seen calls; cbn [schedule_calls]; [| |done].
  { intros _. exists []. split_and!; try constructor. intros tc Htc. by apply elem_of_nil in Htc. }
  cbv zeta. case_bool_decide as H1; [done|]. case_bool_decide as H2; cbn [negb]; [|done].
  case_bool_decide as H3; [done|]. case_bool_decide as H4; [done|]. case_bool_decide as H5; cbn [negb]; [|done].
  destruct (schedule_calls _ _ _ _ _ rest) as [cs|] eqn:E; [|done]. intros _.
  apply IH in E as (l & -> & Hc & Hn & Hs). exists (tc :: l). split; [done|]. rewrite <- H2 in H1, H3. rewrite <- H5 in H4.
  split; [by constructor|]. split.
  - constructor; [|done]. intros (t & Heq & Ht)%list_elem_of_fmap. specialize (Hs t Ht).
    rewrite <- H2, <- Heq in Hs. set_solver.
  - intros t [-> | Ht]%elem_of_cons; [done|]. specialize (Hs t Ht).
    apply not_elem_of_union in Hs. tauto.
Qed.

(** a schedule is made exactly for a non-empty round of calls whose
    identifiers and tool names are canonical and whose identifiers are distinct;
    it keeps the calls in the order of the model with the digests of their
    arguments, and it passes its own validation, so no other round is refused. *)
Theorem schedule_exact toolCalls classifier :
  ((exists s, newToolSchedule encode_calls toolCalls classifier = Ok s) <-> schedulable toolCalls) /\
  (forall s, newToolSchedule encode_calls toolCalls classifier = Ok s ->
     validateToolSchedule encode_calls s = None /\
     identity <$> Calls s = call_identity <$> omap id toolCalls).
Proof.
  assert (schedulable toolCalls -> exists s, newToolSchedule encode_calls toolCalls classifier = Ok s /\
    identity <$> Calls s = call_identity <$> omap id toolCalls) as Hok.
  { intros (Hne & l & -> & Hc & Hn). unfold newToolSchedule. rewrite bool_decide_eq_false_2 by done.
    destruct (schedule_calls_ok classifier 0 (-1)%Z false ∅ None l) as (calls & -> & Hid & Hv); [done|done|intros; set_solver|done|].
    unfold validateToolSchedule. cbn [Calls RoundID]. rewrite bool_decide_eq_false_2.
    2:{ intros ->. destruct l; done. }
    unfold toolScheduleRoundID. rewrite sha256_hex_32, Hv. cbn [negb]. rewrite bool_decide_eq_true_2 by done.
    eexists. split; [done|]. cbn [Calls]. rewrite Hid. f_equal. clear. induction l; cbn; congruence. }
  assert (forall s, newToolSchedule encode_calls toolCalls classifier = Ok s -> schedulable toolCalls /\
    validateToolSchedule encode_calls s = None) as Hinv.
  { unfold newToolSchedule. intros s. case_bool_decide as Hne; [done|].
    destruct (schedule_calls _ _ _ _ _ _) as [calls|] eqn:E; [|done]. cbv zeta.
    destruct (validateToolSchedule _ _) eqn:Ev; [done|]. intros [= <-]. split; [|exact Ev]. split; [done|].
    apply schedule_calls_inv in E as (l & ? & ? & ? & _). by exists l. }
  split.
  - split; [intros [s Hs]; by eapply Hinv|]. intros Hs. destruct (Hok Hs) as (s & ? & _). by exists s.
  - intros s Hs. destruct (Hinv s Hs) as [Hsc Hv]. split; [done|]. destruct (Hok Hsc) as (s' & Hs' & Hid). congruence.
Qed.

(** ** Batches *)

(** The calls of the batches with the number and the kind of their batch; the
    list of batches is reversed. *)
Fixpoint rows_rev (batches : list toolBatch) : list (bytes * Z * bool) :=
  match batches with
  | [] => []
  | b :: before =>
      rows_rev before ++ ((fun tc => (tc_ID tc, Z.of_nat (length before), IsConcurrencySafe b)) <$> ToolCalls b)
  end.

(** The same, for batches in order. *)
Definition rows (batches : list toolBatch) : list (bytes * Z * bool) :=
  concat (imap (fun n b => (fun tc => (tc_ID tc, Z.of_nat n, IsConcurrencySafe b)) <$> ToolCalls b) batches).

Definition row (c : toolScheduleCall) : bytes * Z * bool := (CallID c, Batch c, ConcurrencySafe c).

Lemma rows_reverse batches : rows (reverse batches) = rows_rev batches.
Proof.
  unfold rows. induction batches as [|b batches IH]; [done|]. cbn [rows_rev]. rewrite reverse_cons, imap_app, concat_app, IH.
  cbn. by rewrite app_nil_r, Nat.add_0_r, length_reverse.
Qed.

(** What the batches made so far say of the call before. *)
Definition batches_follow (batches : list toolBatch) (ordinal : nat) (batch : Z) (previousSafe : bool) : Prop :=
  batch = (Z.of_nat (length batches) - 1)%Z /\
  match batches with
  | [] => ordinal = 0%nat
  | b :: _ => (0 < ordinal)%nat /\ IsConcurrencySafe b = previousSafe
  end.

Lemma schedule_batches classifier ordinal batch previousSafe seen l calls batches :
  schedule_calls classifier ordinal batch previousSafe seen (Some <$> l) = Ok calls ->
  batches_follow batches ordinal batch previousSafe ->
  rows_rev (foldl (add_to_batches (classifyToolScheduleCall classifier)) batches l) = rows_rev batches ++ (row <$> calls).
Proof.
  revert ordinal batch previousSafe seen calls batches.
  induction l as [|tc l IH]; intros ordinal batch prev seen calls batches; cbn [fmap list_fmap schedule_calls foldl].
  { intros [= <-] _. cbn. by rewrite app_nil_r. }
  cbv zeta. case_bool_decide as H1; [done|]. case_bool_decide as H2; cbn [negb]; [|done].
  case_bool_decide; [done|]. case_bool_decide; [done|]. case_bool_decide; cbn [negb]; [|done].
  set (safe := classifyToolScheduleCall classifier tc). set (b := if _ || _ || _ then _ else batch).
  destruct (schedule_calls _ _ b _ _ _) as [cs|] eqn:E; [|done]. intros [= <-] [Hb Hf].
  assert (batches_follow (add_to_batches (classifyToolScheduleCall classifier) batches tc) (S ordinal) b safe /\
    rows_rev (add_to_batches (classifyToolScheduleCall classifier) batches tc) = rows_rev batches ++ [(tc_ID tc, b, safe)])
    as [Hf' Hr].
  { unfold batches_follow, add_to_batches. fold safe. destruct batches as [|x before]; cbn in Hb.
    - subst ordinal. unfold b. cbn. split; [|f_equal; f_equal; f_equal; lia]. split_and!; [lia|lia|done].
    - destruct Hf as [Ho <-]. unfold b. destruct (Nat.eqb_spec ordinal 0); [lia|]. cbn [orb].
      destruct safe eqn:Es, (IsConcurrencySafe x) eqn:Ex; cbn; rewrite ?fmap_app, ?app_assoc, ?Ex; cbn;
        (split; [split_and!; lia || done|]); do 2 f_equal; repeat f_equal; lia. }
  rewrite (IH _ _ _ _ _ _ E Hf'), Hr, <- app_assoc. cbn. by rewrite <- H2.
Qed.

(** the batches of a schedule are those into which [partitionToolCalls] divides
    the calls: the two routines number and classify every call alike. *)
Theorem schedule_partitions classifier l s :
  newToolSchedule encode_calls (Some <$> l) classifier = Ok s ->
  row <$> Calls s = rows (partitionToolCalls (classifyToolScheduleCall classifier) l).
Proof.
  unfold newToolSchedule. case_bool_decide; [done|]. destruct (schedule_calls _ _ _ _ _ _) as [calls|] eqn:E; [|done].
  cbv zeta. destruct (validateToolSchedule _ _); [done|]. intros [= <-]. cbn [Calls].
  unfold partitionToolCalls. rewrite rows_reverse. symmetry. by eapply (schedule_batches _ _ _ _ _ _ _ []).
Qed.

Section partition.
Context (isSafe : ToolCall -> bool).

(** A batch of the partition. *)
Definition batch_ok (b : toolBatch) : Prop :=
  Forall (fun tc => isSafe tc = IsConcurrencySafe b) (ToolCalls b) /\ ToolCalls b <> [] /\
  (IsConcurrencySafe b = false -> length (ToolCalls b) = 1%nat).

(** No two neighbours are safe; in reverse order. *)
Fixpoint separated (batches : list toolBatch) : Prop :=
  match batches with
  | b :: (a :: _) as before => (IsConcurrencySafe a && IsConcurrencySafe b = false) /\ separated before
  | _ => True
  end.

Lemma add_to_batches_ok batches tc :
  Forall batch_ok batches /\ separated batches ->
  (Forall batch_ok (add_to_batches isSafe batches tc) /\ separated (add_to_batches isSafe batches tc)) /\
  concat (ToolCalls <$> reverse (add_to_batches isSafe batches tc)) = concat (ToolCalls <$> reverse batches) ++ [tc].
Proof.
  intros [Hb Hs]. assert (batch_ok {| IsConcurrencySafe := isSafe tc; ToolCalls := [tc] |}) as Hnew.
  { split_and!; [by apply Forall_singleton|done|done]. }
  unfold add_to_batches. destruct batches as [|b before].
  { split; [|done]. split; [by apply Forall_singleton|done]. }
  destruct (isSafe tc && IsConcurrencySafe b) eqn:E.
  - apply andb_true_iff in E as [Et Eb]. apply Forall_cons in Hb as [(H1 & H2 & H3) Hb]. split.
    + split; [|destruct before; exact Hs]. constructor; [|done]. split_and!; cbn.
      * apply Forall_app. split; [done|]. apply Forall_singleton. congruence.
      * by destruct (ToolCalls b).
      * congruence.
    + rewrite !reverse_cons, !fmap_app, !concat_app. cbn. by rewrite !app_nil_r, app_assoc.
  - split; [|by rewrite (reverse_cons before), !reverse_cons, !fmap_app, !concat_app; cbn; rewrite !app_nil_r].
    split; [by constructor|]. split; [|exact Hs]. cbn. by rewrite andb_comm.
Qed.

Lemma foldl_batches_ok l batches :
  Forall batch_ok batches /\ separated batches ->
  (Forall batch_ok (foldl (add_to_batches isSafe) batches l) /\ separated (foldl (add_to_batches isSafe) batches l)) /\
  concat (ToolCalls <$> reverse (foldl (add_to_batches isSafe) batches l)) = concat (ToolCalls <$> reverse batches) ++ l.
Proof.
  revert batches. induction l as [|tc l IH]; intros batches Hb; cbn [foldl]; [by rewrite app_nil_r|].
  destruct (add_to_batches_ok batches tc Hb) as [Hb' Hc]. destruct (IH _ Hb') as [H1 ->]. split; [done|].
  by rewrite Hc, <- app_assoc.
Qed.

(** the batches contain the calls of the round, all of them and in order; a
    call that is not safe is alone in its batch, the calls of a batch are of one
    kind, and two neighbouring batches are never both safe, so that calls run
    together exactly as far as their neighbours allow. *)
Theorem partition_correct l :
  let batches := partitionToolCalls isSafe l in
  concat (ToolCalls <$> batches) = l /\ Forall batch_ok batches /\ separated (reverse batches).
Proof.
  cbv zeta. unfold partitionToolCalls. rewrite reverse_involutive.
  destruct (foldl_batches_ok l []) as [[H1 H2] H3]; [done|]. split_and!; [exact H3|by apply Forall_reverse|done].
Qed.
End partition.

(** ** The decision *)

(** An outcome belongs to its scheduled call and is either an interrupt or a
    result for that call. *)
Definition answers (c : toolScheduleCall) (o : toolRoundOutcome) : Prop :=
  o_CallID o = CallID c /\
  match Outcome o with
  | Some out => interrupts o = false /\ Result out = Some (o_CallID o)
  | None => interrupts o = true
  end.

Lemma check_outcome_ok c i seen o : CallID c ∉ seen -> check_outcome c i seen o = None <-> answers c o.
Proof.
  intros Hs. unfold check_outcome, answers, interrupts. cbv zeta. case_bool_decide as Hc; cbn [negb].
  2:{ split; [done|]. by intros [? _]. }
  rewrite Hc, bool_decide_eq_false_2 by done.
  destruct (Outcome o) as [[[id|] pc]|]; case_bool_decide as Hi; cbn; try (split; [done|naive_solver]).
  case_bool_decide; cbn; split; naive_solver congruence.
Qed.

Lemma check_outcomes_ok i seen calls outcomes :
  length outcomes = length calls -> NoDup (CallID <$> calls) -> (forall c, c ∈ calls -> CallID c ∉ seen) ->
  check_outcomes i seen calls outcomes = None <-> Forall2 answers calls outcomes.
Proof.
  revert i seen outcomes. induction calls as [|c calls IH]; intros i seen [|o outcomes] Hl Hn Hs; try done.
  cbn [check_outcomes fmap list_fmap] in *. apply NoDup_cons in Hn as [Hx Hn].
  pose proof (check_outcome_ok c i seen o (Hs c ltac:(set_solver))) as Ho. rewrite Forall2_cons, <- Ho.
  destruct (check_outcome c i seen o); [split; [done|by intros [? _]]|].
  assert (o_CallID o = CallID c) as Heq by by apply Ho. rewrite IH; [tauto|by injection Hl|done|].
  intros c' Hc'. rewrite not_elem_of_union, not_elem_of_singleton, Heq. split; [|apply Hs; set_solver].
  intros E. apply Hx. rewrite <- E. by apply list_elem_of_fmap_2.
Qed.

Lemma validate_calls_distinct i previous seen calls :
  validate_calls i previous seen calls = None -> NoDup (CallID <$> calls) /\ forall c, c ∈ calls -> CallID c ∉ seen.
Proof.
  revert i previous seen. induction calls as [|c calls IH]; intros i previous seen; cbn [validate_calls].
  { intros _. split; [constructor|]. intros c Hc. by apply elem_of_nil in Hc. }
  destruct (negb _); [done|]. destruct (_ || _); [done|]. destruct (_ || _); [done|].
  case_bool_decide as Hs; [done|]. destruct (negb _); [done|]. destruct (validate_batch _ _); [done|].
  intros [Hn Hd]%IH. split.
  - constructor; [|done]. intros (c' & Heq & Hc)%list_elem_of_fmap. specialize (Hd c' Hc). set_solver.
  - intros c' [-> | Hc]%elem_of_cons; [done|]. specialize (Hd c' Hc). set_solver.
Qed.

Lemma find_first {A} (f : A -> bool) l :
  match List.find f l with
  | Some x => exists before after, l = before ++ x :: after /\ f x = true /\ Forall (fun y => f y = false) before
  | None => Forall (fun y => f y = false) l
  end.
Proof.
  induction l as [|y l IH]; cbn [List.find]; [constructor|]. destruct (f y) eqn:E; [by exists [], l|].
  destruct (List.find f l) as [x|]; [|by constructor]. destruct IH as (b & a & -> & Hx & Hb).
  exists (y :: b), a. split_and!; [done|done|by constructor].
Qed.

(** C34: a round is decided exactly when its schedule is valid and every call, in
    the order of the model, has either an interrupt or a result of its own.  The
    first interrupt wins over everything; without one, the first outcome that
    prevents continuation ends the turn; the loop continues only when no outcome
    does either. *)
Theorem round_decision s outcomes :
  let complete := validateToolSchedule encode_calls s = None /\ Forall2 answers (Calls s) outcomes in
  match decideAfterToolRound encode_calls s outcomes with
  | Err _ => ~ complete
  | Ok d => complete /\
      match Kind d with
      | afterToolInterrupt => exists before o after, outcomes = before ++ o :: after /\
          interrupts o = true /\ Forall (fun o => interrupts o = false) before /\
          d_InterruptID d = TrimSpace (InterruptID o)
      | afterToolReturn => Forall (fun o => interrupts o = false) outcomes /\
          exists before o after, outcomes = before ++ o :: after /\
            prevents o = true /\ Forall (fun o => prevents o = false) before /\
            ReturnCallID d = o_CallID o /\ d_TerminalReason d = TerminalHookStopped
      | afterToolContinue => Forall (fun o => interrupts o = false) outcomes /\ Forall (fun o => prevents o = false) outcomes
      end
  end.
Proof.
  cbv zeta. unfold decideAfterToolRound. destruct (validateToolSchedule encode_calls s) eqn:Ev; [by intros [? _]|].
  assert (NoDup (CallID <$> Calls s)) as Hn.
  { unfold validateToolSchedule in Ev. case_bool_decide; [done|]. destruct (negb _); [done|].
    destruct (validate_calls _ _ _ _) eqn:E; [done|]. by apply validate_calls_distinct in E as [? _]. }
  destruct (Nat.eqb_spec (length outcomes) (length (Calls s))) as [Hl|Hl]; cbn [negb].
  2:{ intros [_ Hf%Forall2_length]. congruence. }
  pose proof (check_outcomes_ok 0 ∅ (Calls s) outcomes Hl Hn ltac:(set_solver)) as Hc.
  destruct (check_outcomes _ _ _ _); [intros [_ Hf]; by apply Hc in Hf|].
  pose proof (find_first interrupts outcomes) as Hi. pose proof (find_first prevents outcomes) as Hp.
  destruct (List.find interrupts outcomes) as [o|].
  { split; [split; [done|by apply Hc]|]. cbn. destruct Hi as (b & a & H1 & H2 & H3). by exists b, o, a. }
  destruct (List.find prevents outcomes) as [o|].
  - split; [split; [done|by apply Hc]|]. cbn. split; [done|]. destruct Hp as (b & a & H1 & H2 & H3). by exists b, o, a.
  - split; [split; [done|by apply Hc]|done].
Qed.
End facts.

(** ** Examples *)

Module Example_schedule.

Definition digits : bytes := replicate 64 "0"%char.

Lemma digits_hex (s : bytes) : hex32 digits = true.
Proof. reflexivity. Qed.

#[export] Instance zero_digests : Digests := {| sha256_hex := fun _ => digits; sha256_hex_32 := digits_hex |}.

Definition call (id name : string) : ToolCall := {|
  tc_ID := lit id; tc_Type := []; tc_Function := {| fn_Name := lit name; fn_Arguments := [] |};
  tc_Extra := ∅ |}.

Definition calls : list ToolCall := [call "a" "Read"; call "b" "Read"; call "c" "Write"].
Definition classifier : option (ToolCall -> option bool) := Some (fun tc => Some (fn_Name (tc_Function tc) ==b lit "Read")).

Lemma schedule_partitions_witness :
  exists s, newToolSchedule (fun _ => []) (Some <$> calls) classifier = Ok s /\
    row <$> Calls s = rows (partitionToolCalls (classifyToolScheduleCall classifier) calls).
Proof.
  eexists. split; [reflexivity|]. apply (schedule_partitions (fun _ => []) classifier calls). reflexivity.
Defined.
End Example_schedule.
