(* ===== verification/ToolGuard.v ===== *)
(** * The guard against repeated tool calls

    [src/engine/repeated_tool_guard.go] and its use in [executeToolCall]
    ([tool_execution.go]): a model that makes the same call three times in a row
    needs the user's consent.  Calls may run concurrently, so each one reserves a
    ticket in the order of the model, and a ticket waits until the one before it
    was released.

    A ticket's channels are its phase: [done] is closed when the ticket was
    released, and [prev] is the [done] of the ticket before.  The fingerprint of
    a call, a digest of its tool and its input, is a value given by the step;
    an input that cannot be encoded has the empty one. *)

From S2P Require Import Prelude GoStrings.

Open Scope Z_scope.

(** ** The guard *)

Inductive repeatedToolDecision := repeatedToolAllow | repeatedToolRequestOverride | repeatedToolBlock.

#[export] Instance repeatedToolDecision_eq_dec : EqDecision repeatedToolDecision.
Proof. solve_decision. Defined.

Record repeatedToolCallGuard := { fingerprint : bytes; streak : Z; overrideRequested : bool }.
#[export] Instance eta_guard : Eta repeatedToolCallGuard := fun x =>
  Build_repeatedToolCallGuard (fingerprint x) (streak x) (overrideRequested x).

Definition resetState : repeatedToolCallGuard := {| fingerprint := []; streak := 0; overrideRequested := false |}.

Definition evaluate (fp : bytes) (g : repeatedToolCallGuard) : repeatedToolCallGuard * repeatedToolDecision * Z :=
  if fp ==b [] then (g, repeatedToolAllow, 0) else
  if fp <>b fingerprint g then
    ({| fingerprint := fp; streak := 1; overrideRequested := false |}, repeatedToolAllow, 1)
  else
    let g := if streak g <? 3 then g <| streak ::= fun s => s + 1 |> else g in
    if streak g <? 3 then (g, repeatedToolAllow, streak g) else
    if negb (overrideRequested g) then (g <| overrideRequested := true |>, repeatedToolRequestOverride, streak g)
    else (g, repeatedToolBlock, streak g).

(** ** Tickets *)

Inductive phase :=
| Reserved                              (* not looked at yet, or in [await] *)
| Holding (d : repeatedToolDecision)    (* evaluated, not released *)
| Retreating                            (* cancelled, [releaseAfterPredecessor] runs *)
| Released                              (* [done] is closed *)
| Leaked.                               (* never to be released *)

#[export] Instance phase_eq_dec : EqDecision phase.
Proof. solve_decision. Defined.

Record state := { guard : repeatedToolCallGuard; tickets : list phase }.
#[export] Instance eta_state : Eta state := fun x => Build_state (guard x) (tickets x).

Definition newRepeatedToolCallGuard : state := {| guard := resetState; tickets := [] |}.

(** [prev] of the ticket [k] is closed. *)
Definition prev_closed (k : nat) (s : state) : Prop :=
  match k with O => True | S j => tickets s !! j = Some Released end.

Definition set_phase (k : nat) (p : phase) (s : state) : state := s <| tickets ::= <[k := p]> |>.

Inductive action :=
| Reserve                            (* [reserve] *)
| Await (k : nat) (fp : bytes)       (* [await] wins over the context *)
| AwaitLate (k : nat)                (* the predecessor is done and the context too *)
| Cancelled (k : nat)                (* [await] sees the context first *)
| Retreat (k : nat)                  (* the goroutine of [releaseAfterPredecessor] *)
| Release (k : nat) (overridden : bool)
| Skip (k : nat)                     (* the deferred release of a call that failed before [await] *)
| Leave (k : nat)                    (* [executeToolCall] returns before it reads the ticket *)
| ResetGuard.                        (* [reset] *)

Inductive guard_step : state -> action -> state -> Prop :=
| Do_reserve s : guard_step s Reserve (s <| tickets ::= fun l => l ++ [Reserved] |>)
| Do_await s k fp g d attempt :
    tickets s !! k = Some Reserved -> prev_closed k s -> evaluate fp (guard s) = (g, d, attempt) ->
    guard_step s (Await k fp) (set_phase k (Holding d) (s <| guard := g |>))
| Do_await_late s k : tickets s !! k = Some Reserved -> prev_closed k s -> guard_step s (AwaitLate k) (set_phase k Released s)
| Do_cancelled s k : tickets s !! k = Some Reserved -> guard_step s (Cancelled k) (set_phase k Retreating s)
| Do_retreat s k : tickets s !! k = Some Retreating -> prev_closed k s -> guard_step s (Retreat k) (set_phase k Released s)
| Do_release s k d overridden :
    tickets s !! k = Some (Holding d) -> (overridden = true -> d = repeatedToolRequestOverride) ->
    guard_step s (Release k overridden)
      (set_phase k Released (if overridden then s <| guard := resetState |> else s))
| Do_skip s k : tickets s !! k = Some Reserved -> guard_step s (Skip k) (set_phase k Released s)
| Do_leave s k : tickets s !! k = Some Reserved -> guard_step s (Leave k) (set_phase k Leaked s)
| Do_reset s : guard_step s ResetGuard (s <| guard := resetState |>).

(** ** What the guard counts *)

(** The specification: the calls evaluated so far, the last one first, and the
    number of calls at the front of such a log that have the fingerprint [fp].
    Calls without a fingerprint are not recorded. *)
Fixpoint repeats (fp : bytes) (log : list bytes) : nat :=
  match log with
  | x :: log => if x ==b fp then S (repeats fp log) else 0
  | [] => 0
  end.

Definition agrees (g : repeatedToolCallGuard) (log : list bytes) : Prop :=
  match log with
  | [] => g = resetState
  | x :: _ => x <> [] /\ fingerprint g = x /\ streak g = Z.of_nat (Nat.min 3 (repeats x log)) /\
      overrideRequested g = (3 <=? repeats x log)%nat
  end.

(** The decision on a call that was made [n] times in a row, this one included. *)
Definition decision_at (n : nat) : repeatedToolDecision :=
  if (n <=? 2)%nat then repeatedToolAllow else if (n =? 3)%nat then repeatedToolRequestOverride else repeatedToolBlock.

(** the guard allows a call at most twice in a row, asks for consent at the
    third time and blocks it from then on, whatever calls were evaluated since
    the guard was reset; it counts only calls that follow each other. *)
Theorem guard_counts_repeats g log fp :
  agrees g log -> fp <> [] ->
  let '(g', d, attempt) := evaluate fp g in
  let n := S (repeats fp log) in
  agrees g' (fp :: log) /\ d = decision_at n /\ attempt = Z.of_nat (Nat.min 3 n).
Proof.
  intros Ha Hfp. unfold evaluate. rewrite bool_decide_eq_false_2 by done. case_bool_decide as Hf; cbn [negb].
  - destruct log as [|x log]; [cbn in Ha; subst g; done|]. destruct Ha as (_ & Hx & Hs & Ho). rewrite <- Hf in Hx. subst x.
    assert (1 <= repeats fp (fp :: log))%nat as Hr by (cbn; rewrite bool_decide_eq_true_2 by done; lia).
    set (r := repeats fp (fp :: log)) in *. cbv zeta.
    assert (repeats fp (fp :: fp :: log) = S r) as Hr' by (unfold r; cbn; by rewrite bool_decide_eq_true_2).
    clearbody r. unfold agrees, decision_at. rewrite Hr'. clear Hr'. destruct g as [f st ov].
    cbn [fingerprint streak overrideRequested] in *. subst st ov.
    destruct (decide (r = 1)%nat) as [->|]; [by split_and!|]. destruct (decide (r = 2)%nat) as [->|]; [by split_and!|].
    rewrite (Nat.min_l 3 r), (Nat.min_l 3 (S r)) by lia. destruct (Nat.leb_spec 3 r); [|lia].
    destruct (Nat.leb_spec (S r) 2), (Nat.eqb_spec (S r) 3), (Nat.leb_spec 3 (S r)); try lia. by split_and!.
  - assert (repeats fp log = 0%nat) as Hr.
    { destruct log as [|x log]; [done|]. destruct Ha as (_ & Hx & _). cbn. rewrite bool_decide_eq_false_2; [done|congruence]. }
    unfold agrees. cbn [repeats]. rewrite bool_decide_eq_true_2, Hr by done. by split_and!.
Qed.

(** ** The order of evaluation *)

(** The guard is entered by one ticket at a time, after all the tickets before
    it were released. *)
Definition ordered (s : state) : Prop :=
  forall i j p, (i < j)%nat -> tickets s !! j = Some p -> p = Released \/ (exists d, p = Holding d) ->
    tickets s !! i = Some Released.

Definition no_skip (a : action) : Prop := match a with Skip _ => False | _ => True end.

Lemma set_phase_lookup k p s j :
  is_Some (tickets s !! k) -> tickets (set_phase k p s) !! j = if decide (j = k) then Some p else tickets s !! j.
Proof.
  intros Hk. unfold set_phase. cbn. destruct (decide (j = k)) as [->|Hne]; [|by rewrite list_lookup_insert_ne].
  rewrite list_lookup_insert_eq; [done|]. by apply lookup_lt_is_Some.
Qed.

Lemma prev_ordered s k i : ordered s -> prev_closed k s -> (i < k)%nat -> tickets s !! i = Some Released.
Proof.
  intros Ho Hp Hi. destruct k as [|k]; [lia|]. cbn in Hp. destruct (decide (i = k)) as [->|]; [done|].
  apply (Ho i k Released); [lia|done|by left].
Qed.

(** A ticket that enters or leaves after its predecessor keeps the order. *)
Lemma ordered_set s k p :
  is_Some (tickets s !! k) -> (forall i, (i < k)%nat -> tickets s !! i = Some Released) ->
  (p = Released \/ forall j q, (k < j)%nat -> tickets s !! j = Some q -> q <> Released /\ forall d, q <> Holding d) ->
  ordered s -> ordered (set_phase k p s).
Proof.
  intros Hk Hi Hp Ho i j q Hij. rewrite !set_phase_lookup by done. destruct (decide (j = k)) as [->|Hj].
  - intros _ _. rewrite decide_False by lia. by apply Hi.
  - intros Hq Hr. destruct (decide (i = k)) as [->|]; [|by eapply Ho]. destruct Hp as [-> |Hp]; [done|].
    destruct (Hp j q Hij Hq) as [H1 H2]. destruct Hr as [|[d Hd]]; [done|by destruct (H2 d)].
Qed.

Lemma reserved_last s k j q :
  ordered s -> tickets s !! k = Some Reserved -> (k < j)%nat -> tickets s !! j = Some q ->
  q <> Released /\ forall d, q <> Holding d.
Proof.
  intros Ho Hk Hj Hq. split; [intros ->|intros d ->]; pose proof (Ho k j _ Hj Hq ltac:(eauto)); congruence.
Qed.

Lemma ordered_step s a s' : guard_step s a s' -> no_skip a -> ordered s -> ordered s'.
Proof.
  intros Hs Ha Ho. destruct Hs as [s|s k fp g d att Hk Hp He|s k Hk Hp|s k Hk|s k Hk Hp|s k d ov Hk Hov|s k Hk|s k Hk|s].
  - intros i j p Hij. cbn. intros [Hj|[Hl Hj]]%lookup_app_Some Hr.
    + rewrite lookup_app_l; [by eapply Ho|]. apply lookup_lt_Some in Hj. lia.
    + apply list_lookup_singleton_Some in Hj as [_ <-]. by destruct Hr as [|[? ?]].
  - change (ordered (set_phase k (Holding d) s)). apply ordered_set; [done|intros i; by apply prev_ordered|right|done].
    intros j q. by eapply reserved_last.
  - apply ordered_set; [done|intros i; by apply prev_ordered|by left|done].
  - intros i j p Hij. rewrite !set_phase_lookup by done. destruct (decide (j = k)) as [->|].
    + intros [= <-] [|[? ?]]; done.
    + intros Hj Hr. destruct (decide (i = k)) as [->|]; [|by eapply Ho]. pose proof (Ho k j p Hij Hj Hr). congruence.
  - apply ordered_set; [done|intros i; by apply prev_ordered|by left|done].
  - assert (ordered (set_phase k Released s)) as H1.
    { apply ordered_set; [done| |by left|done]. intros i Hi. apply (Ho i k (Holding d)); [done|done|right; by exists d]. }
    by destruct ov.
  - done.
  - intros i j p Hij. rewrite !set_phase_lookup by done. destruct (decide (j = k)) as [->|].
    + intros [= <-] [|[? ?]]; done.
    + intros Hj Hr. destruct (decide (i = k)) as [->|]; [|by eapply Ho]. pose proof (Ho k j p Hij Hj Hr). congruence.
  - exact Ho.
Qed.

Lemma ordered_run ls s : steps guard_step newRepeatedToolCallGuard ls s -> Forall no_skip ls -> ordered s.
Proof.
  intros Hr Hf. assert (ordered newRepeatedToolCallGuard) as H0 by by intros i j p _ Hj.
  revert H0. induction Hr as [s|s a s1 ls s2 Hst _ IH]; [done|]. apply Forall_cons in Hf as [Ha Hf].
  intros Ho. apply IH; [done|]. by eapply ordered_step.
Qed.

(** as long as no call fails before it waits for its ticket, calls are
    evaluated in the order of their reservations and one at a time: when a
    ticket holds the guard, every ticket before it was released and no other
    holds it. *)
Theorem calls_evaluated_in_order ls s k d :
  steps guard_step newRepeatedToolCallGuard ls s -> Forall no_skip ls -> tickets s !! k = Some (Holding d) ->
  (forall i, (i < k)%nat -> tickets s !! i = Some Released) /\
  (forall j d', tickets s !! j = Some (Holding d') -> j = k).
Proof.
  intros Hr Hf Hk. apply ordered_run in Hr; [|done]. split; [intros i Hi; apply (Hr i k (Holding d)); eauto|].
  intros j d' Hj. destruct (Nat.lt_trichotomy j k) as [Hlt|[|Hlt]]; [|done|].
  - pose proof (Hr j k _ Hlt Hk ltac:(eauto)). congruence.
  - pose proof (Hr k j _ Hlt Hj ltac:(eauto)). congruence.
Qed.

(** ** Progress *)

(** when no ticket was left behind, the guard cannot block: the first ticket
    that was not released can be evaluated, released or withdrawn at once. *)
Theorem guard_progresses s k p :
  tickets s !! k = Some p -> p <> Released -> p <> Leaked ->
  (forall i, (i < k)%nat -> tickets s !! i = Some Released) ->
  (p = Reserved /\ forall fp, exists s', guard_step s (Await k fp) s') \/
  (exists d, p = Holding d /\ exists s', guard_step s (Release k false) s') \/
  (p = Retreating /\ exists s', guard_step s (Retreat k) s' /\ tickets s' !! k = Some Released).
Proof.
  intros Hk H1 H2 Hi. assert (prev_closed k s) as Hp by (destruct k as [|k]; [done|]; cbn; apply Hi; lia).
  destruct p as [|d| | |]; try done.
  - left. split; [done|]. intros fp. destruct (evaluate fp (guard s)) as [[g d] att] eqn:E. eexists. by eapply Do_await.
  - right. left. exists d. split; [done|]. eexists. by eapply Do_release.
  - right. right. split; [done|]. eexists. split; [by apply Do_retreat|]. rewrite set_phase_lookup by done. by rewrite decide_True.
Qed.

(** A ticket that was left behind is never released, and the one after it is
    never evaluated: it can only be withdrawn, skipped or left behind too. *)
Lemma leaked_ticket_blocks s ls s' k :
  tickets s !! k = Some Leaked -> steps guard_step s ls s' ->
  tickets s' !! k = Some Leaked /\ forall fp, Await (S k) fp ∉ ls.
Proof.
  intros Hk Hr. induction Hr as [s|s a s1 ls s2 Hst _ IH]; [split; [done|set_solver]|].
  assert (tickets s1 !! k = Some Leaked /\ forall fp, a <> Await (S k) fp) as [H1 H2].
  { destruct Hst as [s|s j fp g d att Hj Hp He|s j Hj Hp|s j Hj|s j Hj Hp|s j d ov Hj Hov|s j Hj|s j Hj|s];
      try (split; [|done]); rewrite ?set_phase_lookup by done.
    all: try (rewrite decide_False by congruence; done).
    - cbn. by apply lookup_app_l_Some.
    - split; [by rewrite decide_False by congruence|].
      intros fp' [= -> _]. cbn in Hp. congruence.
    - by destruct ov; rewrite set_phase_lookup, decide_False by (done || congruence).
    - done. }
  destruct (IH H1) as [H3 H4]. split; [done|]. intros fp. rewrite not_elem_of_cons. split; [|apply H4].
  intros E. by apply (H2 fp).
Qed.

(** ** Examples *)

Module Example_guard.

Definition one : state := {| guard := resetState; tickets := [Reserved] |}.
Definition held (ts : list phase) : state :=
  {| guard := {| fingerprint := lit "a"; streak := 1; overrideRequested := false |}; tickets := ts |}.

Lemma start : guard_step newRepeatedToolCallGuard Reserve one.
Proof. apply Do_reserve. Qed.

Lemma enter : guard_step one (Await 0 (lit "a")) (held [Holding repeatedToolAllow]).
Proof. by apply (Do_await one 0 (lit "a") (guard (held [])) repeatedToolAllow 1). Qed.

Lemma guard_counts_repeats_witness :
  let '(g', d, attempt) := evaluate (lit "a") resetState in
  let n := S (repeats (lit "a") []) in
  agrees g' [lit "a"] /\ d = decision_at n /\ attempt = Z.of_nat (Nat.min 3 n).
Proof. by apply (guard_counts_repeats resetState [] (lit "a")). Defined.

Lemma calls_evaluated_in_order_witness :
  tickets (held [Holding repeatedToolAllow]) !! 0%nat = Some (Holding repeatedToolAllow) /\
  (forall j d', tickets (held [Holding repeatedToolAllow]) !! j = Some (Holding d') -> j = 0%nat).
Proof.
  split; [done|].
  apply (calls_evaluated_in_order [Reserve; Await 0 (lit "a")] (held [Holding repeatedToolAllow]) 0 repeatedToolAllow).
  - eapply steps_cons; [apply start|]. eapply steps_cons; [apply enter|]. constructor.
  - by repeat constructor.
  - done.
Defined.

Lemma guard_progresses_witness : exists s', guard_step one (Await 0 (lit "a")) s'.
Proof.
  destruct (guard_progresses one 0 Reserved) as [[_ H]|[(d & [=] & _)|[[=] _]]]; [done..|intros i Hi; lia|]. apply H.
Defined.

(** A call whose input is not valid JSON releases its ticket without waiting for
    the one before: two calls then hold the guard at the same time. *)
Example skipped_ticket_breaks_order :
  exists s, steps guard_step newRepeatedToolCallGuard
    [Reserve; Reserve; Reserve; Await 0 (lit "a"); Skip 1; Await 2 (lit "a")] s /\
    tickets s = [Holding repeatedToolAllow; Released; Holding repeatedToolAllow].
Proof.
  eexists. split.
  - eapply steps_cons; [apply Do_reserve|]. eapply steps_cons; [apply Do_reserve|]. eapply steps_cons; [apply Do_reserve|].
    eapply steps_cons; [eapply Do_await; reflexivity || exact I|]. eapply steps_cons; [by apply Do_skip|].
    eapply steps_cons; [eapply Do_await; reflexivity|]. constructor.
  - done.
Qed.

(** A call of a tool that is never available leaves its ticket behind; no later
    call of the query is ever evaluated. *)
Example unavailable_tool_blocks_next_call :
  exists s, steps guard_step newRepeatedToolCallGuard [Reserve; Leave 0; Reserve] s /\
    forall ls s' fp, steps guard_step s ls s' -> Await 1 fp ∉ ls.
Proof.
  eexists. split.
  - eapply steps_cons; [apply Do_reserve|]. eapply steps_cons; [by apply Do_leave|].
    eapply steps_cons; [apply Do_reserve|]. constructor.
  - intros ls s' fp Hr. eapply (leaked_ticket_blocks _ ls s' 0) in Hr as [_ H]; [apply H|done].
Qed.
End Example_guard.
