(* ===== verification/ToolExecutor.v ===== *)
(** * The executor of tool calls

    [src/engine/execution/streaming.go]: the calls of an assistant message are
    collected while it streams, released when the message is committed, run with
    bounded concurrency and given back in the order of the model.

    A method holds the mutex, so it is a function on the executor; goroutines
    are the calls of [finish] that they end with.  Entries of the list of tools
    are never nil.  The call that runs may be prepared first ([prepare]), which only
    its goroutine sees.  The state keeps a log of the goroutines that were started
    and of the interrupts that were reported.  The status of a tool is the book of
    the scheduler, not the state of its goroutine: [Complete] and a cancellation
    settle a tool that is executing, and its goroutine goes on until its [finish]
    ([goroutines] in ToolExecutorFacts follows them).  [json_valid] is [json.Valid].  A
    result's context modifier is what it returns: an error text or nothing. *)

From S2P Require Import Prelude GoStrings GoBase Messages.

Open Scope Z_scope.

(** ** Data *)

Inductive toolCommitState := toolCommitPending | toolCommitCommitted | toolCommitRejected.
Inductive toolStatus := toolStatusQueued | toolStatusExecuting | toolStatusCompleted | toolStatusYielded.

#[export] Instance toolCommitState_eq_dec : EqDecision toolCommitState.
Proof. solve_decision. Defined.
#[export] Instance toolStatus_eq_dec : EqDecision toolStatus.
Proof. solve_decision. Defined.

Record ToolResult := {
  r_ToolCallID : bytes; r_ToolName : bytes; r_Result : bytes; r_Message : option Message; r_IsError : bool;
  r_BeforeMessages : list Message; r_AfterMessages : list Message; r_PreventContinuation : bool;
  r_ContextModifier : option (option bytes); r_ContextPublisher : bool
}.
#[export] Instance eta_ToolResult : Eta ToolResult := fun x =>
  Build_ToolResult (r_ToolCallID x) (r_ToolName x) (r_Result x) (r_Message x) (r_IsError x) (r_BeforeMessages x)
    (r_AfterMessages x) (r_PreventContinuation x) (r_ContextModifier x) (r_ContextPublisher x).

Record trackedTool := {
  t_ID : bytes; t_ToolCall : ToolCall; t_Message : option Message; t_Result : option ToolResult;
  t_Status : toolStatus; t_IsConcurrencySafe : bool; t_cancelFunc : bool
}.
#[export] Instance eta_trackedTool : Eta trackedTool := fun x =>
  Build_trackedTool (t_ID x) (t_ToolCall x) (t_Message x) (t_Result x) (t_Status x) (t_IsConcurrencySafe x) (t_cancelFunc x).

Record config := {
  hasExecute : bool; isSafe : option (ToolCall -> option bool); maxConcurrency : Z; deferExecution : bool;
  getInterruptBehavior : option (bytes -> bytes); hasOnInterrupt : bool; json_valid : bytes -> bool
}.

Record executor := {
  x_tools : list trackedTool; x_index : gmap bytes nat; x_discard : bool; x_commitState : toolCommitState;
  x_bashErrored : bool; x_siblingCancelled : bool; x_started : list bytes; x_notified : list ToolCall
}.
#[export] Instance eta_executor : Eta executor := fun x =>
  Build_executor (x_tools x) (x_index x) (x_discard x) (x_commitState x) (x_bashErrored x) (x_siblingCancelled x)
    (x_started x) (x_notified x).

Definition NewStreamingToolExecutor : executor := {|
  x_tools := []; x_index := ∅; x_discard := false; x_commitState := toolCommitPending; x_bashErrored := false;
  x_siblingCancelled := false; x_started := []; x_notified := [] |}.

(** The limit that the environment variable sets. *)
Definition maxStreamingToolUseConcurrency (env : bytes) : Z :=
  let raw := TrimSpace env in
  if raw ==b [] then 10 else
  match Atoi raw with
  | Some parsed => if parsed <=? 0 then 10 else parsed
  | None => 10
  end.

(** ** Results *)

Definition toolCallKey (tc : ToolCall) : bytes :=
  if tc_ID tc <>b [] then tc_ID tc
  else if fn_Name (tc_Function tc) <>b [] then lit "name:" ++ fn_Name (tc_Function tc) else [].

Definition toolNameFromCall (tc : ToolCall) : bytes := fn_Name (tc_Function tc).

Definition error_extra : gmap bytes any := {[ lit "is_error" := AnyBool true ]}.

Definition newToolResult (toolCallID toolName result : bytes) (isError : bool) : ToolResult :=
  let msg := (text_message Tool result) <| m_ToolCallID := toolCallID |> <| m_ToolName := toolName |> in
  {| r_ToolCallID := toolCallID; r_ToolName := toolName; r_Result := result;
     r_Message := Some (if isError then msg <| m_Extra := error_extra |> else msg); r_IsError := isError;
     r_BeforeMessages := []; r_AfterMessages := []; r_PreventContinuation := false; r_ContextModifier := None;
     r_ContextPublisher := false |}.

(** The result that the executor makes for a tool. *)
Definition synthetic_result (t : trackedTool) (message : bytes) : ToolResult :=
  newToolResult (if tc_ID (t_ToolCall t) <>b [] then tc_ID (t_ToolCall t) else t_ID t)
    (toolNameFromCall (t_ToolCall t)) message true.

Definition normalizeToolResult (toolID : bytes) (toolCall : ToolCall) (result : ToolResult) : ToolResult :=
  let r := if r_ToolCallID result ==b [] then result <| r_ToolCallID := toolID |> else result in
  let r := if r_ToolName r ==b [] then r <| r_ToolName := toolNameFromCall toolCall |> else r in
  let msg :=
    match r_Message r with
    | None =>
        let m := (text_message Tool (r_Result r)) <| m_ToolCallID := r_ToolCallID r |> <| m_ToolName := r_ToolName r |> in
        if r_IsError r then m <| m_Extra := error_extra |> else m
    | Some m =>
        let m := if m_ToolCallID m ==b [] then m <| m_ToolCallID := r_ToolCallID r |> else m in
        let m := if m_ToolName m ==b [] then m <| m_ToolName := r_ToolName r |> else m in
        let m := if m_Role m ==b RoleOther [] then m <| m_Role := Tool |> else m in
        if r_IsError r then m <| m_Extra ::= <[lit "is_error" := AnyBool true]> |> else m
    end in
  r <| r_Message := Some msg |>.

Definition commitToolResultContextModifier (result : ToolResult) : ToolResult :=
  match r_ContextModifier result with
  | None => result
  | Some None => result <| r_ContextModifier := None |> <| r_ContextPublisher := true |>
  | Some (Some err) =>
      let text := lit "tool state transition failed: " ++ err in
      let msg := default ((text_message Tool []) <| m_ToolCallID := r_ToolCallID result |>
                            <| m_ToolName := r_ToolName result |>) (r_Message result) in
      result <| r_ContextModifier := None |> <| r_ContextPublisher := false |> <| r_IsError := true |>
             <| r_Result := text |>
             <| r_Message := Some (msg <| m_Content := text |> <| m_Extra ::= <[lit "is_error" := AnyBool true]> |>) |>
  end.

Definition complete_with (r : ToolResult) (t : trackedTool) : trackedTool :=
  t <| t_Result := Some r |> <| t_Status := toolStatusCompleted |>.

Section executor.
Context (cfg : config).

(** ** Scheduling *)

Definition toolConcurrencySafe (tc : ToolCall) : bool :=
  match isSafe cfg with Some f => default false (f tc) | None => false end.

Definition toolCallReadyForExecution (tc : ToolCall) : bool :=
  if TrimSpace (fn_Name (tc_Function tc)) ==b [] then false else
  let args := TrimSpace (fn_Arguments (tc_Function tc)) in
  if args ==b [] then false else if args ==b lit "{}" then false else json_valid cfg args.

Definition executing (t : trackedTool) : bool := t_Status t ==b toolStatusExecuting.
Definition queued (t : trackedTool) : bool := t_Status t ==b toolStatusQueued.

Definition canExecuteLocked (isConcurrencySafe : bool) (e : executor) : bool :=
  let running := List.filter executing (x_tools e) in
  if existsb (fun t => negb (t_IsConcurrencySafe t)) running then false else
  if running ==b [] then true else
  if negb isConcurrencySafe then false else Z.of_nat (length running) <? maxConcurrency cfg.

Definition startToolLocked (i : nat) (t : trackedTool) (e : executor) : executor :=
  e <| x_tools ::= <[i := t <| t_Status := toolStatusExecuting |> <| t_cancelFunc := true |>]> |>
    <| x_started ::= fun l => l ++ [t_ID t] |>.

(** The loop of [startRunnableLocked] over the tools with the given indexes. *)
Fixpoint start_loop (force : bool) (indexes : list nat) (e : executor) : executor :=
  match indexes with
  | [] => e
  | i :: rest =>
      match x_tools e !! i with
      | None => e
      | Some t =>
          if negb (queued t) then start_loop force rest e else
          if negb force && negb (toolCallReadyForExecution (t_ToolCall t)) then e else
          if negb (canExecuteLocked (t_IsConcurrencySafe t) e) then e else
          let e := startToolLocked i t e in
          if negb (t_IsConcurrencySafe t) then e else start_loop force rest e
      end
  end.

Definition startRunnableLocked (force : bool) (e : executor) : executor :=
  if x_discard e || (x_commitState e <>b toolCommitCommitted) || negb (hasExecute cfg) then e
  else start_loop force (seq 0 (length (x_tools e))) e.

Definition allSettledLocked (e : executor) : bool :=
  forallb (fun t => negb (queued t) && negb (executing t)) (x_tools e).

(** ** Interruption *)

Definition reject_tool (message : bytes) (t : trackedTool) : trackedTool :=
  if t_Status t ==b toolStatusYielded then t else complete_with (synthetic_result t message) t.

Definition rejectPendingLocked (message : bytes) (e : executor) : executor * bool :=
  if x_discard e || (x_commitState e <>b toolCommitPending) then (e, false) else
  (e <| x_commitState := toolCommitRejected |>
     <| x_tools ::= map (reject_tool message) |>, true).

(** A tool that is completed when the turn is interrupted. *)
Definition cancels (t : trackedTool) : bool :=
  (t_Status t <>b toolStatusYielded) && (t_Result t ==b None) &&
  negb (match getInterruptBehavior cfg with
        | Some f => (toolNameFromCall (t_ToolCall t) <>b []) && (f (toolNameFromCall (t_ToolCall t)) ==b lit "block")
        | None => false
        end).

Definition cancel_tool (message : bytes) (t : trackedTool) : trackedTool :=
  if cancels t then complete_with (synthetic_result t message) t <| t_cancelFunc := false |> else t.

Definition synthesizeCancelBehaviorLocked (message : bytes) (e : executor) : executor :=
  e <| x_notified ::= fun l => l ++ (if hasOnInterrupt cfg then t_ToolCall <$> List.filter cancels (x_tools e) else []) |>
    <| x_tools ::= map (cancel_tool message) |>.

Definition complete_queued (message : trackedTool -> ToolResult) (t : trackedTool) : trackedTool :=
  if queued t then complete_with (message t) t else t.

Definition interrupted_text : bytes := lit "Interrupted by user".

Definition interruptRemainingLocked (e : executor) : executor :=
  if x_discard e then e else
  match x_commitState e with
  | toolCommitPending => (rejectPendingLocked interrupted_text e).1
  | toolCommitRejected => e
  | toolCommitCommitted =>
      synthesizeCancelBehaviorLocked interrupted_text
        (e <| x_tools ::= map (complete_queued (fun t => synthetic_result t interrupted_text)) |>)
  end.

Definition synthesizeQueuedSiblingsLocked (errorSource : bytes) (e : executor) : executor :=
  let msg := lit "Cancelled: parallel tool call " ++ errorSource ++ lit " errored" in
  e <| x_tools ::= map (complete_queued (fun t => newToolResult
         (if tc_ID (t_ToolCall t) <>b [] then tc_ID (t_ToolCall t) else t_ID t) (toolNameFromCall (t_ToolCall t)) msg true)) |>.

(** ** Collecting *)

(** The results that are ready, up to the first one that is not. *)
Fixpoint collect (tools : list trackedTool) : list ToolResult * list trackedTool :=
  match tools with
  | [] => ([], [])
  | t :: rest =>
      if t_Status t ==b toolStatusYielded
      then let '(results, rest) := collect rest in (results, t :: rest)
      else
        match t_Result t with
        | Some r =>
            if t_Status t ==b toolStatusCompleted
            then let '(results, rest) := collect rest in (r :: results, t <| t_Status := toolStatusYielded |> :: rest)
            else ([], tools)
        | None => ([], tools)
        end
  end.

Definition collectReadyResultsLocked (e : executor) : executor * list ToolResult :=
  let '(results, tools) := collect (x_tools e) in (e <| x_tools := tools |>, results).

(** ** Operations *)

Definition update_tool (tc : ToolCall) (assistantMessage : option Message) (t : trackedTool) : trackedTool :=
  let t := if queued t then t <| t_ToolCall := tc |> <| t_IsConcurrencySafe := toolConcurrencySafe tc |> else t in
  match assistantMessage with Some m => t <| t_Message := Some m |> | None => t end.

Definition AddTool (tc : option ToolCall) (assistantMessage : option Message) (e : executor) : executor :=
  if x_discard e || (x_commitState e <>b toolCommitPending) then e else
  match tc with
  | None => e
  | Some tc =>
      let id := toolCallKey tc in
      if id ==b [] then e else
      match x_index e !! id with
      | Some idx =>
          e <| x_tools ::= alter (update_tool tc assistantMessage) idx |>
      | None =>
          e <| x_index ::= <[id := length (x_tools e)]> |>
            <| x_tools ::= fun l => l ++ [{| t_ID := id; t_ToolCall := tc; t_Message := assistantMessage; t_Result := None;
                 t_Status := toolStatusQueued; t_IsConcurrencySafe := toolConcurrencySafe tc; t_cancelFunc := false |}] |>
      end
  end.

(** [commit], with the context's error. *)
Definition commit (ctxDone : bool) (e : executor) : executor * bool :=
  if x_discard e || (x_commitState e ==b toolCommitRejected) then (e, false) else
  if x_commitState e ==b toolCommitCommitted then (e, true) else
  if ctxDone then ((rejectPendingLocked interrupted_text e).1, false) else
  let e := e <| x_commitState := toolCommitCommitted |> in
  (if deferExecution cfg then e else startRunnableLocked false e, true).

Definition rejectPending := rejectPendingLocked.

Definition Complete (toolCallID result : bytes) (isError : bool) (e : executor) : executor :=
  if x_discard e || (x_commitState e ==b toolCommitRejected) then e else
  match x_index e !! toolCallID ≫= fun idx => (idx,.) <$> x_tools e !! idx with
  | None => e
  | Some (idx, t) =>
      if (t_Result t <>b None) || (t_Status t ==b toolStatusYielded) then e else
      startRunnableLocked false
        (e <| x_tools ::= <[idx := complete_with (newToolResult toolCallID (fn_Name (tc_Function (t_ToolCall t))) result isError) t]> |>)
  end.

Definition GetCompleted (e : executor) : executor * list ToolResult :=
  if x_commitState e ==b toolCommitPending then (e, []) else collectReadyResultsLocked e.

(** What the goroutine of a tool passes to [finish]; the tool may return nil. *)
Definition returned_result (toolID : bytes) (call : ToolCall) (result : option ToolResult) : ToolResult :=
  default (newToolResult toolID (toolNameFromCall call) (lit "tool execution returned no result") true) result.

(** [finish], with whether the turn was interrupted. *)
Definition finish (toolID : bytes) (result : ToolResult) (isInterrupted : bool) (e : executor) : executor :=
  if x_discard e || (x_commitState e <>b toolCommitCommitted) then e else
  match x_index e !! toolID ≫= fun idx => (idx,.) <$> x_tools e !! idx with
  | None => e
  | Some (idx, t) =>
      if (t_Result t <>b None) || (t_Status t ==b toolStatusYielded) then e else
      let e := if isInterrupted then interruptRemainingLocked e else e in
      match x_tools e !! idx with
      | None => e
      | Some t =>
          if isInterrupted && (t_Result t <>b None) then e else
          let r := commitToolResultContextModifier (normalizeToolResult toolID (t_ToolCall t) result) in
          let e := e <| x_tools ::= <[idx := complete_with r t <| t_cancelFunc := false |>]> |> in
          let e := if r_IsError r && (r_ToolName r ==b lit "Bash") && negb (x_bashErrored e)
                   then synthesizeQueuedSiblingsLocked (r_ToolName r)
                          (e <| x_bashErrored := true |> <| x_siblingCancelled := true |>)
                   else e in
          startRunnableLocked false e
      end
  end.

(** The waiting loop of the two operations that give back all results: nothing
    as long as it has to wait, then the results. *)
Definition wait_round (e : executor) : executor * option (list ToolResult) :=
  let e := startRunnableLocked true e in
  if allSettledLocked e then let '(e, results) := collectReadyResultsLocked e in (e, Some results) else (e, None).

(** What [GetRemainingResultsContext] does before it waits. *)
Definition settle_commit (ctxDone : bool) (e : executor) : executor :=
  match x_commitState e with
  | toolCommitPending =>
      (rejectPendingLocked (if ctxDone then interrupted_text
                            else lit "Tool call rejected: model stream did not commit") e).1
  | _ => e
  end.

(** One pass of [GetRemainingResultsContext]. *)
Definition GetRemainingResultsContext (ctxDone : bool) (e : executor) : executor * option (list ToolResult) :=
  if x_discard e then (e, Some []) else
  let e := settle_commit ctxDone e in
  if x_commitState e ==b toolCommitRejected then let '(e, r) := collectReadyResultsLocked e in (e, Some r) else
  let e := if ctxDone then interruptRemainingLocked e else e in
  if negb (hasExecute cfg) then let '(e, r) := collectReadyResultsLocked e in (e, Some r) else wait_round e.

(** One pass of [GetRemainingResults]; when the context is done it does not start
    tools, it only waits for those that run. *)
Definition GetRemainingResults (ctxDone : bool) (e : executor) : executor * option (list ToolResult) :=
  if x_discard e then (e, Some []) else
  let e := settle_commit ctxDone e in
  if x_commitState e ==b toolCommitRejected then let '(e, r) := collectReadyResultsLocked e in (e, Some r) else
  if ctxDone then
    let e := synthesizeCancelBehaviorLocked interrupted_text e in
    if allSettledLocked e then let '(e, r) := collectReadyResultsLocked e in (e, Some r) else (e, None)
  else
  if negb (hasExecute cfg) then let '(e, r) := collectReadyResultsLocked e in (e, Some r) else wait_round e.

Definition Discard (e : executor) : executor :=
  e <| x_discard := true |> <| x_siblingCancelled := true |> <| x_tools := [] |> <| x_index := ∅ |>.

(** ** A run *)

(** [ExecuteCommittedToolCalls] registers its calls, commits them and waits.
    [worker] says which of the tools ends next, with which result, and whether
    the turn is interrupted by then. *)
Definition add_calls (calls : list ToolCall) (e : executor) : executor :=
  foldl (fun e tc => AddTool (Some tc) None e) e calls.

Fixpoint wait_loop (worker : executor -> bytes * ToolResult * bool) (fuel : nat)
    (waited : executor * option (list ToolResult)) : option (list ToolResult) :=
  match waited with
  | (_, Some results) => Some results
  | (e, None) =>
      match fuel with
      | O => None
      | S fuel =>
          let '(id, result, isInterrupted) := worker e in
          wait_loop worker fuel (wait_round (finish id result isInterrupted e))
      end
  end.

(** [doneAtCommit] and [doneAtWait] are the context's state at the two points. *)
Definition ExecuteCommittedToolCalls (worker : executor -> bytes * ToolResult * bool) (fuel : nat)
    (doneAtCommit doneAtWait : bool) (calls : list ToolCall) : option (list ToolResult) :=
  let '(e, committed) := commit doneAtCommit (add_calls calls NewStreamingToolExecutor) in
  if negb committed then (GetRemainingResults doneAtWait e).2 else
  wait_loop worker fuel (GetRemainingResultsContext doneAtWait e).
End executor.

(** ** Operations in sequence *)

Inductive operation :=
| OpAddTool (tc : option ToolCall) (assistantMessage : option Message)
| OpCommit (ctxDone : bool)
| OpReject (message : bytes)
| OpComplete (toolCallID result : bytes) (isError : bool)
| OpFinish (toolID : bytes) (result : ToolResult) (isInterrupted : bool)
| OpGetCompleted
| OpGetRemaining (ctxDone : bool)
| OpGetRemainingContext (ctxDone : bool)
| OpInterrupt
| OpDiscard.

(** An operation and the results that it gives back; one that has to wait gives
    none yet. *)
Definition perform (cfg : config) (o : operation) (e : executor) : executor * list ToolResult :=
  match o with
  | OpAddTool tc m => (AddTool cfg tc m e, [])
  | OpCommit d => ((commit cfg d e).1, [])
  | OpReject m => ((rejectPending m e).1, [])
  | OpComplete id r err => (Complete cfg id r err e, [])
  | OpFinish id r i => (finish cfg id r i e, [])
  | OpGetCompleted => GetCompleted e
  | OpGetRemaining d => let '(e, r) := GetRemainingResults cfg d e in (e, default [] r)
  | OpGetRemainingContext d => let '(e, r) := GetRemainingResultsContext cfg d e in (e, default [] r)
  | OpInterrupt => (interruptRemainingLocked cfg e, [])
  | OpDiscard => (Discard e, [])
  end.

(** A run, with all the results that were given back. *)
Fixpoint perform_all (cfg : config) (os : list operation) (e : executor) (out : list ToolResult) : executor * list ToolResult :=
  match os with
  | [] => (e, out)
  | o :: os => let '(e, r) := perform cfg o e in perform_all cfg os e (out ++ r)
  end.

Definition run (cfg : config) (os : list operation) : executor * list ToolResult :=
  perform_all cfg os NewStreamingToolExecutor [].
