(* ===== verification/ToolExecutorFacts.v ===== *)
(** * Facts on the executor of tool calls

    The invariant of every run of operations, and what follows from it: tools
    that are not safe run alone, results come in the order of the model, nothing
    starts after a stop, and a committed round of calls is answered. *)

From S2P Require Import Prelude GoStrings GoBase Messages ToolExecutor.

Open Scope Z_scope.

(** ** Tools that are settled *)

Definition yielded (t : trackedTool) : bool := t_Status t ==b toolStatusYielded.

(** The identity of a tool, that no operation changes after its call was added. *)
Definition same_tool (t t' : trackedTool) : Prop :=
  t_ID t' = t_ID t /\ t_ToolCall t' = t_ToolCall t /\ t_IsConcurrencySafe t' = t_IsConcurrencySafe t.

Definition result_kept (t t' : trackedTool) : Prop := t_Status t' = t_Status t /\ t_Result t' = t_Result t.

(** [good] relates the identity of a tool to that of its result. *)
Section good.
Context (cfg : config) (good : bytes -> bytes -> Prop) (good_refl : forall id, good id id).

Definition settles (t t' : trackedTool) : Prop :=
  same_tool t t' /\
  (result_kept t t' \/
   (yielded t = false /\ t_Status t' = toolStatusCompleted /\
    exists r, t_Result t' = Some r /\ good (t_ID t) (r_ToolCallID r))).

Lemma settles_refl t : settles t t.
Proof. by repeat split; left. Qed.

Lemma settles_trans t1 t2 t3 : settles t1 t2 -> settles t2 t3 -> settles t1 t3.
Proof.
  intros [(I1 & C1 & S1) H1] [(I2 & C2 & S2) H2]. split; [repeat split; congruence|].
  destruct H2 as [[S R]|(Y & S & r & R & G)].
  - destruct H1 as [[S' R']|(Y & S' & r & R' & G)]; [left; split; congruence|].
    right. split_and!; [done|congruence|]. exists r. split; [congruence|done].
  - right. split_and!; [|done|exists r; split; [done|by rewrite <- I1]].
    destruct H1 as [[S' R']|(Y' & _)]; [|done]. unfold yielded in *. by rewrite <- S'.
Qed.

(** The executor after some of its tools were settled. *)
Record settled_from (e e' : executor) : Prop := {
  sf_tools : Forall2 settles (x_tools e) (x_tools e');
  sf_index : x_index e' = x_index e;
  sf_discard : x_discard e' = x_discard e;
  sf_started : x_started e' = x_started e;
  sf_commit : x_commitState e' = x_commitState e \/
    (x_commitState e = toolCommitPending /\ x_commitState e' = toolCommitRejected /\ existsb queued (x_tools e') = false);
  sf_bash : x_bashErrored e' = true -> x_bashErrored e = true \/
    (existsb queued (x_tools e') = false /\ x_commitState e' = toolCommitCommitted)
}.

Lemma Forall2_settles_refl l : Forall2 settles l l.
Proof. apply Forall_Forall2_diag, Forall_true. apply settles_refl. Qed.

Lemma settles_queued l l' : Forall2 settles l l' -> existsb queued l = false -> existsb queued l' = false.
Proof.
  induction 1 as [|t t' l l' [_ Ht] _ IH]; [done|]. cbn. rewrite !orb_false_iff. intros [Hq Hl]. split; [|by apply IH].
  unfold queued in *. destruct Ht as [[-> _]|(_ & -> & _)]; done.
Qed.

Lemma settled_refl e : settled_from e e.
Proof. split; [apply Forall2_settles_refl|done..|by left|by left]. Qed.

Lemma settled_trans e1 e2 e3 : settled_from e1 e2 -> settled_from e2 e3 -> settled_from e1 e3.
Proof.
  intros [T1 I1 D1 S1 C1 B1] [T2 I2 D2 S2 C2 B2]. split; [|congruence..| |].
  - eapply Forall2_trans; [|exact T1|exact T2]. intros ???. apply settles_trans.
  - destruct C2 as [-> |(P & R & Q)].
    + destruct C1 as [-> |(P & R & Q)]; [by left|]. right. split_and!; [done..|]. by eapply settles_queued.
    + destruct C1 as [C1|(P' & R' & Q')]; [|congruence]. right. split_and!; [congruence|done..].
  - intros Hb. destruct (B2 Hb) as [Hb2|]; [|by right]. destruct (B1 Hb2) as [|[Q C]]; [by left|right].
    split; [by eapply settles_queued|]. destruct C2 as [ |(? & _)]; congruence.
Qed.

(** The tools that run, by whether they are safe to run together. *)
Definition running (l : list trackedTool) : list bool := t_IsConcurrencySafe <$> List.filter executing l.

Lemma settles_running l l' : Forall2 settles l l' -> running l' `sublist_of` running l.
Proof.
  unfold running. induction 1 as [|t t' l l' [(_ & _ & Hs) Ht] _ IH]; [done|]. cbn [List.filter].
  destruct Ht as [[Hst _]|(_ & Hst & _)].
  - replace (executing t') with (executing t) by (unfold executing; by rewrite Hst).
    destruct (executing t); [|exact IH]. cbn. rewrite Hs. by apply sublist_skip.
  - replace (executing t') with false by (unfold executing; by rewrite Hst).
    destruct (executing t); [by apply sublist_cons|exact IH].
Qed.

Lemma settles_yielded l l' : Forall2 settles l l' -> yielded <$> l' = yielded <$> l.
Proof.
  induction 1 as [|t t' l l' [_ Ht] _ IH]; [done|]. cbn. f_equal; [|done].
  unfold yielded. destruct Ht as [[-> _]|(Y & -> & _)]; [done|]. by unfold yielded in Y.
Qed.

Lemma settles_ids l l' : Forall2 settles l l' -> t_ID <$> l' = t_ID <$> l.
Proof. induction 1 as [|t t' l l' [(Hi & _) _] _ IH]; [done|]. cbn. by rewrite Hi, IH. Qed.

(** ** The invariant *)

Definition status_ok (t : trackedTool) : Prop :=
  match t_Status t with
  | toolStatusQueued | toolStatusExecuting => t_Result t = None
  | _ => is_Some (t_Result t)
  end.

Definition tool_named (t : trackedTool) : Prop :=
  t_ID t = toolCallKey (t_ToolCall t) /\ forall r, t_Result t = Some r -> good (t_ID t) (r_ToolCallID r).

(** The running tools: one that is not safe, or several safe ones within the limit. *)
Definition group_ok (l : list bool) : Prop :=
  l = [false] \/ (Forall (fun safe => safe = true) l /\ Z.of_nat (length l) <= Z.max 1 (maxConcurrency cfg)).

Definition indexed (e : executor) : Prop :=
  forall id i, x_index e !! id = Some i <-> exists t, x_tools e !! i = Some t /\ t_ID t = id.

(** The yielded tools come first; [n] of them. *)
Definition yields_first (n : nat) (l : list trackedTool) : Prop :=
  (n <= length l)%nat /\ Forall (fun t => yielded t = true) (take n l) /\ Forall (fun t => yielded t = false) (drop n l).

Record wf (e : executor) (out : list ToolResult) : Prop := {
  wf_status : Forall status_ok (x_tools e);
  wf_named : Forall tool_named (x_tools e);
  wf_index : indexed e;
  wf_group : group_ok (running (x_tools e));
  wf_started : NoDup (x_started e) /\
    (x_discard e = false -> forall id, id ∈ x_started e -> exists t, t ∈ x_tools e /\ t_ID t = id /\ queued t = false);
  wf_commit : x_commitState e <> toolCommitCommitted -> running (x_tools e) = [] /\ x_started e = [];
  wf_rejected : x_commitState e = toolCommitRejected -> existsb queued (x_tools e) = false;
  wf_bash : x_bashErrored e = true -> existsb queued (x_tools e) = false;
  wf_pending : x_bashErrored e = true -> x_discard e = false -> x_commitState e = toolCommitCommitted;
  wf_discard : x_discard e = true -> x_tools e = [];
  wf_order : x_discard e = false -> exists n, yields_first n (x_tools e) /\ out = omap t_Result (take n (x_tools e))
}.

Lemma yields_settled n l l' :
  Forall2 settles l l' -> yields_first n l -> yields_first n l' /\ omap t_Result (take n l') = omap t_Result (take n l).
Proof.
  intros Hs (Hl & Ht & Hd). pose proof (settles_yielded _ _ Hs) as Hy. pose proof (Forall2_length _ _ _ Hs) as Hlen.
  assert (forall m (b : bool), Forall (fun t => yielded t = b) m <-> Forall (fun x => x = b) (yielded <$> m)) as Hm
    by (intros; by rewrite Forall_fmap). split.
  - split_and!; [lia| |]; rewrite Hm in *; by rewrite ?fmap_take, ?fmap_drop, Hy, <- ?fmap_take, <- ?fmap_drop.
  - symmetry. apply list_omap_ext. pose proof (Forall2_take _ _ _ n Hs) as Hst.
    clear -Ht Hst. revert Ht. induction Hst as [|t t' m m' Hx _ IH]; [constructor|]. intros [Hy Hm]%Forall_cons.
    constructor; [|by apply IH]. destruct Hx as [_ [[_ ?]|(Y & _)]]; congruence.
Qed.

Lemma wf_settled e e' out : wf e out -> settled_from e e' -> wf e' out.
Proof.
  intros [Hst Hna Hin Hg [Hnd Hsd] Hc Hr Hb Hp Hd Ho] [T I D S C B]. split.
  - clear -Hst T. revert Hst. induction T as [|t t' l l' Ht _ IH]; [done|]. intros [H1 H2]%Forall_cons.
    constructor; [|by apply IH]. unfold status_ok in *. destruct Ht as [_ [[-> ->]|(_ & -> & r & -> & _)]]; [done|by eexists].
  - clear -Hna T. revert Hna. induction T as [|t t' l l' Ht _ IH]; [done|]. intros [[H1 H1'] H2]%Forall_cons.
    constructor; [|by apply IH]. destruct Ht as [(Hi & Hc & _) Ht]. split; [congruence|]. rewrite Hi.
    destruct Ht as [[_ ->]|(_ & _ & r & -> & G)]; [done|]. by intros ? [= <-].
  - intros id i. rewrite I, (Hin id i). assert (forall l : list trackedTool, (exists t, l !! i = Some t /\ t_ID t = id) <-> (t_ID <$> l) !! i = Some id) as Hl.
    { intros l. rewrite list_lookup_fmap_Some. naive_solver. }
    by rewrite !Hl, (settles_ids _ _ T).
  - pose proof (settles_running _ _ T) as Hs. destruct Hg as [Hg|[Hg Hn]].
    + rewrite Hg in Hs. apply sublist_cons_r in Hs as [Hs%sublist_nil_r|(l & Hl & Hs%sublist_nil_r)]; [|left; congruence].
      right. rewrite Hs. split; [constructor|cbn; lia].
    + right. split; [rewrite Forall_forall in *; intros b Hbin; eapply Hg, elem_of_sublist; eauto|]. pose proof (sublist_length _ _ Hs). lia.
  - rewrite S. split; [done|]. rewrite D. intros Hdis id Hid. destruct (Hsd Hdis id Hid) as (t & Ht & <- & Hq).
    apply list_elem_of_lookup in Ht as [i Hi]. destruct (Forall2_lookup_l _ _ _ _ _ T Hi) as (t' & Hi' & (Hid' & _) & Hs).
    exists t'. split_and!; [by eapply list_elem_of_lookup_2|done|]. unfold queued in *. destruct Hs as [[-> _]|(_ & -> & _)]; done.
  - intros Hn. assert (x_commitState e <> toolCommitCommitted) as Hn' by (destruct C as [C|(C & _)]; congruence).
    destruct (Hc Hn') as [H1 H2]. split; [|congruence]. pose proof (settles_running _ _ T) as Hs. rewrite H1 in Hs.
    by apply sublist_nil_r.
  - intros Hrej. destruct C as [C|(_ & _ & Q)]; [|done]. eapply settles_queued; [done|]. apply Hr. congruence.
  - intros Hbe. destruct (B Hbe) as [Hbe'|[? _]]; [|done]. eapply settles_queued; [done|]. by apply Hb.
  - rewrite D. intros Hbe Hdis. destruct (B Hbe) as [Hbe'|[_ ?]]; [|done]. specialize (Hp Hbe' Hdis).
    destruct C as [ |(? & _)]; congruence.
  - rewrite D. intros Hdis. specialize (Hd Hdis). rewrite Hd in T. by inversion T.
  - rewrite D. intros Hdis. destruct (Ho Hdis) as (n & Hy & ->). exists n. destruct (yields_settled n _ _ T Hy) as [Hy' Hr'].
    split; [done|]. by rewrite Hr'.
Qed.

(** ** Starting *)

(** A tool that was started: the executor changes in no other way. *)
Inductive starts (e : executor) : executor -> Prop :=
| starts_none : starts e e
| starts_one i t e' :
    x_tools e !! i = Some t -> queued t = true -> canExecuteLocked cfg (t_IsConcurrencySafe t) e = true ->
    starts (startToolLocked i t e) e' -> starts e e'.

Lemma start_loop_starts force indexes e : starts e (start_loop cfg force indexes e).
Proof.
  revert e. induction indexes as [|i rest IH]; intros e; [constructor|]. cbn [start_loop].
  destruct (x_tools e !! i) as [t|] eqn:Ei; [|constructor]. destruct (queued t) eqn:Eq; cbn [negb]; [|apply IH].
  destruct (_ && _); [constructor|]. destruct (canExecuteLocked _ _ _) eqn:Ec; cbn [negb]; [|constructor].
  apply (starts_one e i t); [done..|].
  destruct (t_IsConcurrencySafe t); [apply IH|constructor].
Qed.

Definition can_start (e : executor) : bool :=
  negb (x_discard e || (x_commitState e <>b toolCommitCommitted) || negb (hasExecute cfg)).

Lemma startRunnable_starts force e :
  startRunnableLocked cfg force e = e \/
  (x_discard e = false /\ x_commitState e = toolCommitCommitted /\ starts e (startRunnableLocked cfg force e)).
Proof.
  unfold startRunnableLocked. destruct (x_discard e); [by left|]. case_bool_decide as Hc; [|by left].
  destruct (hasExecute cfg); [|by left]. right. split_and!; [done..|]. apply start_loop_starts.
Qed.

Lemma running_app l1 l2 : running (l1 ++ l2) = running l1 ++ running l2.
Proof. unfold running. by rewrite List.filter_app, fmap_app. Qed.

Lemma running_start l i t :
  l !! i = Some t -> queued t = true ->
  exists r1 r2, running l = r1 ++ r2 /\
    running (<[i := t <| t_Status := toolStatusExecuting |> <| t_cancelFunc := true |>]> l) = r1 ++ t_IsConcurrencySafe t :: r2.
Proof.
  intros Hi Hq. pose proof (take_drop_middle _ _ _ Hi) as Hl. exists (running (take i l)), (running (drop (S i) l)).
  assert (executing t = false) as He by (unfold queued, executing in *; apply bool_decide_eq_true in Hq; by rewrite Hq).
  rewrite insert_take_drop by (by eapply lookup_lt_Some). rewrite <- Hl at 1. rewrite !running_app. split; f_equal.
  cbn. by rewrite He.
Qed.

Lemma canExecute_group e b r1 r2 :
  running (x_tools e) = r1 ++ r2 -> canExecuteLocked cfg b e = true -> group_ok (running (x_tools e)) ->
  group_ok (r1 ++ b :: r2).
Proof.
  intros Hr Hc Hg. unfold canExecuteLocked in Hc. destruct (existsb _ _) eqn:Ex; [done|].
  assert (Forall (fun safe => safe = true) (r1 ++ r2)) as Hs.
  { rewrite <- Hr. unfold running. apply Forall_fmap, Forall_forall. intros t Ht. cbn.
    destruct (t_IsConcurrencySafe t) eqn:E; [done|]. assert (existsb (fun t => negb (t_IsConcurrencySafe t))
      (List.filter executing (x_tools e)) = true) as Hx by (apply existsb_elem_of; exists t; by rewrite E). congruence. }
  assert (length (r1 ++ r2) = length (List.filter executing (x_tools e))) as Hlen
    by (rewrite <- Hr; unfold running; by rewrite length_fmap).
  case_bool_decide as Hn.
  - rewrite Hn in Hlen. destruct r1, r2; try done. destruct b; [right; split; [by repeat constructor|cbn; lia]|by left].
  - destruct b; [|done]. cbn [negb] in Hc. apply Z.ltb_lt in Hc. right. apply Forall_app in Hs as [? ?]. split.
    + apply Forall_app. split; [done|]. by constructor.
    + rewrite length_app in *. cbn. lia.
Qed.

Lemma start_ids (l : list trackedTool) i t :
  l !! i = Some t -> t_ID <$> <[i := t <| t_Status := toolStatusExecuting |> <| t_cancelFunc := true |>]> l = t_ID <$> l.
Proof. intros Hi. rewrite list_fmap_insert. apply list_insert_id. by rewrite list_lookup_fmap, Hi. Qed.

Lemma indexed_ids e e' :
  x_index e' = x_index e -> t_ID <$> x_tools e' = t_ID <$> x_tools e -> indexed e -> indexed e'.
Proof.
  intros Hi Ht Hin id i. rewrite Hi, (Hin id i).
  assert (forall l : list trackedTool, (exists t, l !! i = Some t /\ t_ID t = id) <-> (t_ID <$> l) !! i = Some id) as Hl
    by (intros l; rewrite list_lookup_fmap_Some; naive_solver).
  by rewrite !Hl, Ht.
Qed.

(** A tool's identity gives its position. *)
Lemma indexed_inj e i j t t' :
  indexed e -> x_tools e !! i = Some t -> x_tools e !! j = Some t' -> t_ID t = t_ID t' -> i = j.
Proof.
  intros Hin Hi Hj Hid. assert (x_index e !! t_ID t = Some i) as H1 by (apply Hin; eauto).
  assert (x_index e !! t_ID t = Some j) as H2 by (apply Hin; eauto). congruence.
Qed.

Lemma wf_start_tool e out i t :
  wf e out -> x_discard e = false -> x_commitState e = toolCommitCommitted ->
  x_tools e !! i = Some t -> queued t = true -> canExecuteLocked cfg (t_IsConcurrencySafe t) e = true ->
  wf (startToolLocked i t e) out.
Proof.
  intros [Hst Hna Hin Hg [Hnd Hsd] Hc Hr Hb Hp Hd Ho] Hdis Hcom Hi Hq Hcan.
  assert (t_Status t = toolStatusQueued) as Hs by by apply bool_decide_eq_true in Hq.
  assert (t_Result t = None) as Hres.
  { eapply Forall_lookup_1 in Hst; [|exact Hi]. unfold status_ok in Hst. by rewrite Hs in Hst. }
  assert (existsb queued (x_tools e) = true) as Hex.
  { apply existsb_elem_of. exists t. split; [by eapply list_elem_of_lookup_2|done]. }
  set (t' := t <| t_Status := toolStatusExecuting |> <| t_cancelFunc := true |>).
  assert (i < length (x_tools e))%nat as Hlt by by eapply lookup_lt_Some.
  assert (x_tools (startToolLocked i t e) = <[i := t']> (x_tools e)) as HT by done.
  split; rewrite ?HT.
  - apply Forall_insert; [done|exact Hres].
  - apply Forall_insert; [done|]. eapply Forall_lookup_1 in Hna; [|exact Hi]. exact Hna.
  - eapply indexed_ids; [| |exact Hin]; [done|]. rewrite HT. by apply start_ids.
  - destruct (running_start _ _ _ Hi Hq) as (r1 & r2 & H1 & H2). fold t' in H2. rewrite H2.
    by eapply canExecute_group.
  - change (x_started (startToolLocked i t e)) with (x_started e ++ [t_ID t]). split.
    + apply NoDup_app. split_and!; [done| |apply NoDup_singleton]. intros id Hid ->%list_elem_of_singleton.
      destruct (Hsd Hdis _ Hid) as (t2 & Ht2 & Heq & Hq2). apply list_elem_of_lookup in Ht2 as [j Hj].
      assert (j = i) as -> by by eapply indexed_inj. congruence.
    + intros _ id [Hid|Hid%list_elem_of_singleton]%elem_of_app.
      * destruct (Hsd Hdis _ Hid) as (t2 & Ht2 & Heq & Hq2). apply list_elem_of_lookup in Ht2 as [j Hj].
        exists t2. split_and!; [|done|done]. apply (list_elem_of_lookup_2 _ j). rewrite list_lookup_insert_ne; [done|]. intros ->. congruence.
      * exists t'. split_and!; [|done|done]. apply (list_elem_of_lookup_2 _ i). by apply list_lookup_insert_eq.
  - done.
  - intros Hrej. change (x_commitState e = toolCommitRejected) in Hrej. congruence.
  - intros Hbe. rewrite (Hb Hbe) in Hex. done.
  - done.
  - intros Hdt. change (x_discard e = true) in Hdt. congruence.
  - intros _. destruct (Ho Hdis) as (n & (Hn & Ht & Hdr) & ->). exists n.
    assert (n <= i)%nat as Hni.
    { destruct (Nat.lt_ge_cases i n) as [Hlt'|]; [|done]. eapply (Forall_lookup_1 _ _ i t) in Ht; [|by rewrite lookup_take_lt].
      unfold yielded in Ht. by rewrite Hs in Ht. }
    rewrite take_insert_ge by done. split; [|done]. split_and!; [by rewrite length_insert|by rewrite take_insert_ge by done|].
    rewrite drop_insert_ge by done. by apply Forall_insert.
Qed.

Lemma wf_starts e e' out :
  starts e e' -> x_discard e = false -> x_commitState e = toolCommitCommitted -> wf e out -> wf e' out.
Proof.
  induction 1 as [|e i t e' Hi Hq Hc _ IH]; [done|]. intros Hd Hcom Hwf. apply IH; [done|done|]. by apply wf_start_tool.
Qed.

Lemma wf_startRunnable force e out : wf e out -> wf (startRunnableLocked cfg force e) out.
Proof. destruct (startRunnable_starts force e) as [-> |(? & ? & ?)]; [done|]. by apply wf_starts. Qed.

(** ** Collecting *)

Lemma collect_spec tools n :
  yields_first n tools -> Forall status_ok tools ->
  let '(results, tools') := collect tools in
  exists m, (n <= m)%nat /\ yields_first m tools' /\ omap t_Result (take m tools') = omap t_Result (take n tools) ++ results /\
    Forall2 (fun t t' => t' = t \/ (t_Status t = toolStatusCompleted /\ t' = t <| t_Status := toolStatusYielded |>)) tools tools' /\
    (forall t, tools' !! m = Some t -> t_Result t = None).
Proof.
  revert n. induction tools as [|t tools IH]; intros n (Hn & Ht & Hd) Hst; cbn [collect].
  { exists 0%nat. destruct n; [|cbn in Hn; lia]. by repeat split; try constructor. }
  apply Forall_cons in Hst as [Hs Hst]. fold (yielded t).
  change (t_Status t ==b toolStatusYielded) with (yielded t).
  destruct n as [|n].
  - assert (yielded t = false) as Hy by by inversion Hd. rewrite Hy.
    assert (yields_first 0 tools) as Hy0. { split_and!; [lia|constructor|]. by inversion Hd. }
    unfold status_ok in Hs. unfold yielded in Hy. destruct (t_Result t) as [r|] eqn:Er.
    + assert (t_Status t = toolStatusCompleted) as Hc by (by destruct (t_Status t)). rewrite Hc.
      rewrite bool_decide_eq_true_2 by done. specialize (IH 0%nat Hy0 Hst). destruct (collect tools) as [results tools'].
      destruct IH as (m & _ & (H1 & H2 & H3) & H4 & H5 & H6). exists (S m). split; [lia|]. split.
      { split_and!; [cbn; lia|cbn; by constructor|done]. }
      cbn. rewrite Er. split; [by rewrite H4|]. split; [|done]. constructor; [by right|done].
    + exists 0%nat. split; [lia|]. split; [by split_and!|]. split; [by rewrite app_nil_r|].
      split; [by apply Forall_Forall2_diag, Forall_true; left|]. by intros ? [= <-].
  - apply Forall_cons in Ht as [Hy Ht]. rewrite Hy. cbn in Hn.
    assert (yields_first n tools) as Hyn by (split_and!; [lia|done|done]).
    specialize (IH n Hyn Hst). destruct (collect tools) as [results tools'].
    destruct IH as (m & Hm & (H1 & H2 & H3) & H4 & H5 & H6). exists (S m). split; [lia|]. split.
    { split_and!; [cbn; lia|cbn; by constructor|done]. }
    cbn. destruct (t_Result t); cbn; (split; [by rewrite H4|]); (split; [|done]); (constructor; [by left|done]).
Qed.

Lemma wf_collect e out :
  wf e out -> wf (collectReadyResultsLocked e).1 (out ++ (collectReadyResultsLocked e).2).
Proof.
  intros Hwf. unfold collectReadyResultsLocked. destruct (x_discard e) eqn:Edis.
  { rewrite (wf_discard _ _ Hwf Edis). cbn [collect fst snd]. rewrite app_nil_r.
    assert (e <| x_tools := [] |> = e) as ->; [|done]. pose proof (wf_discard _ _ Hwf Edis) as Hd.
    destruct e. cbn in Hd. by subst. }
  destruct Hwf as [Hst Hna Hin Hg [Hnd Hsd] Hc Hr Hb Hp Hd Ho].
  destruct (Ho Edis) as (n & Hy & ->). pose proof (collect_spec _ n Hy Hst) as Hcol.
  destruct (collect (x_tools e)) as [results tools']. destruct Hcol as (m & _ & Hy' & Hout & Hrel & _). cbn [fst snd].
  assert (running tools' = running (x_tools e)) as Hrun.
  { clear -Hrel. unfold running. induction Hrel as [|t t' l l' Ht _ IH]; [done|]. cbn [List.filter].
    destruct Ht as [->|[Hs ->]]; [by destruct (executing t); cbn; rewrite IH|].
    replace (executing t) with false by (unfold executing; by rewrite Hs). exact IH. }
  assert (t_ID <$> tools' = t_ID <$> x_tools e) as Hids.
  { clear -Hrel. induction Hrel as [|t t' l l' Ht _ IH]; [done|]. cbn. rewrite IH. by destruct Ht as [->|[_ ->]]. }
  assert (existsb queued (x_tools e) = false -> existsb queued tools' = false) as Hq.
  { clear -Hrel. induction Hrel as [|t t' l l' Ht _ IH]; [done|]. cbn. rewrite !orb_false_iff. intros [H1 H2].
    split; [|by apply IH]. by destruct Ht as [->|[_ ->]]. }
  split; cbn [x_tools x_index x_discard x_commitState x_bashErrored x_started set].
  - clear -Hrel Hst. revert Hst. induction Hrel as [|t t' l l' Ht _ IH]; [done|]. intros [H1 H2]%Forall_cons.
    constructor; [|by apply IH]. destruct Ht as [->|[Hs ->]]; [done|]. unfold status_ok in *. by rewrite Hs in H1.
  - clear -Hrel Hna. revert Hna. induction Hrel as [|t t' l l' Ht _ IH]; [done|]. intros [H1 H2]%Forall_cons.
    constructor; [|by apply IH]. by destruct Ht as [->|[_ ->]].
  - by eapply indexed_ids; [| |exact Hin].
  - by rewrite Hrun.
  - split; [done|]. intros Hdis id Hid. destruct (Hsd Edis id Hid) as (t & Ht & <- & Hqt).
    apply list_elem_of_lookup in Ht as [i Hi]. destruct (Forall2_lookup_l _ _ _ _ _ Hrel Hi) as (t' & Hi' & Ht).
    exists t'. split; [by eapply list_elem_of_lookup_2|]. by destruct Ht as [->|[_ ->]].
  - by rewrite Hrun.
  - intros Hrej. by apply Hq, Hr.
  - intros Hbe. by apply Hq, Hb.
  - intros Hbe _. by apply Hp.
  - intros Hdt. change (x_discard e = true) in Hdt. congruence.
  - intros _. exists m. split; [exact Hy'|]. by rewrite Hout.
Qed.

(** ** Adding and discarding *)

Definition alike (t t' : trackedTool) : Prop := t_ID t' = t_ID t /\ t_Status t' = t_Status t /\ t_Result t' = t_Result t.

Lemma alike_running l l' : Forall2 alike l l' -> running l = [] -> running l' = [].
Proof.
  unfold running. induction 1 as [|t t' l l' (_ & Hs & _) _ IH]; [done|]. cbn [List.filter].
  replace (executing t') with (executing t) by (unfold executing; by rewrite Hs). by destruct (executing t).
Qed.

(** The call of a queued tool is replaced before the commit. *)
Lemma wf_alike e out l :
  wf e out -> x_commitState e = toolCommitPending -> Forall2 alike (x_tools e) l -> Forall tool_named l ->
  wf (e <| x_tools := l |>) out.
Proof.
  intros [Hst Hna Hin Hg [Hnd Hsd] Hc Hr Hb Hp Hd Ho] Hpend Hal Hnl. destruct (Hc ltac:(congruence)) as [Hrun Hstart].
  pose proof (alike_running _ _ Hal Hrun) as Hrun'.
  split; cbn [x_tools x_index x_discard x_commitState x_bashErrored x_started set].
  - clear -Hst Hal. revert Hst. induction Hal as [|t t' l l' (_ & Hs & Hr) _ IH]; [done|]. intros [H1 H2]%Forall_cons.
    constructor; [|by apply IH]. unfold status_ok in *. by rewrite Hs, Hr.
  - done.
  - eapply indexed_ids; [| |exact Hin]; [done|]. cbn. clear -Hal. induction Hal as [|t t' l l' (Hi & _) _ IH]; [done|].
    cbn. by rewrite Hi, IH.
  - rewrite Hrun'. right. split; [constructor|cbn; lia].
  - split; [done|]. intros _ id Hid. rewrite Hstart in Hid. by apply elem_of_nil in Hid.
  - done.
  - intros Hrej. change (x_commitState e = toolCommitRejected) in Hrej. congruence.
  - intros Hbe. change (x_bashErrored e = true) in Hbe. specialize (Hb Hbe). clear -Hal Hb. revert Hb.
    induction Hal as [|t t' l l' (_ & Hs & _) _ IH]; [done|]. cbn. rewrite !orb_false_iff. unfold queued. rewrite Hs.
    intros [? ?]. split; [done|by apply IH].
  - done.
  - intros Hdis. change (x_discard e = true) in Hdis. specialize (Hd Hdis). rewrite Hd in Hal. by inversion Hal.
  - intros Hdis. destruct (Ho Hdis) as (n & (Hn & Ht & Hdr) & ->). exists n.
    assert (yielded <$> l = yielded <$> x_tools e) as Hy.
    { clear -Hal. induction Hal as [|t t' l l' (_ & Hs & _) _ IH]; [done|]. cbn. rewrite IH. f_equal. unfold yielded. by rewrite Hs. }
    assert (forall m (b : bool), Forall (fun t => yielded t = b) m <-> Forall (fun x => x = b) (yielded <$> m)) as Hm
      by (intros; by rewrite Forall_fmap).
    split; [split_and!; [by rewrite <- (Forall2_length _ _ _ Hal)|..]; rewrite Hm in *;
      by rewrite ?fmap_take, ?fmap_drop, Hy, <- ?fmap_take, <- ?fmap_drop|].
    apply list_omap_ext. apply (Forall2_take _ _ _ n) in Hal. eapply Forall2_impl; [exact Hal|]. by intros t t' (_ & _ & ->).
Qed.

Lemma wf_append e out t :
  wf e out -> x_commitState e = toolCommitPending -> x_discard e = false ->
  x_index e !! t_ID t = None -> t_Status t = toolStatusQueued -> t_Result t = None -> t_ID t = toolCallKey (t_ToolCall t) ->
  wf (e <| x_index ::= <[t_ID t := length (x_tools e)]> |> <| x_tools ::= fun l => l ++ [t] |>) out.
Proof.
  intros [Hst Hna Hin Hg [Hnd Hsd] Hc Hr Hb Hp Hd Ho] Hpend Hdis Hnew Hs Hres Hid.
  destruct (Hc ltac:(congruence)) as [Hrun Hstart].
  assert (running (x_tools e ++ [t]) = []) as Hrun'.
  { rewrite running_app, Hrun. unfold running, executing. cbn. by rewrite Hs. }
  split; cbn [x_tools x_index x_discard x_commitState x_bashErrored x_started set].
  - apply Forall_app. split; [done|]. apply Forall_singleton. unfold status_ok. by rewrite Hs.
  - apply Forall_app. split; [done|]. apply Forall_singleton. split; [done|]. by rewrite Hres.
  - intros id i. cbn. destruct (decide (id = t_ID t)) as [->|Hne].
    + rewrite lookup_insert_eq. split.
      * intros [= <-]. exists t. by rewrite lookup_app_r, Nat.sub_diag by done.
      * intros (t' & [Hi|[Hi Ht']]%lookup_app_Some & Hid').
        -- assert (x_index e !! t_ID t = Some i) as Hx by (apply Hin; by exists t'). congruence.
        -- apply list_lookup_singleton_Some in Ht' as [? _]. f_equal. lia.
    + rewrite lookup_insert_ne by done. rewrite (Hin id i). split; intros (t' & Hi & Hid').
      * exists t'. by rewrite (lookup_app_l_Some _ _ _ _ Hi).
      * apply lookup_app_Some in Hi as [Hi|[_ Hi]]; [by exists t'|]. apply list_lookup_singleton_Some in Hi as [_ <-]. congruence.
  - rewrite Hrun'. right. split; [constructor|cbn; lia].
  - split; [done|]. intros _ id Hid'. rewrite Hstart in Hid'. by apply elem_of_nil in Hid'.
  - done.
  - intros Hrej. change (x_commitState e = toolCommitRejected) in Hrej. congruence.
  - intros Hbe. specialize (Hp Hbe Hdis). congruence.
  - done.
  - intros Hdt. change (x_discard e = true) in Hdt. congruence.
  - intros _. destruct (Ho Hdis) as (n & (Hn & Ht & Hdr) & ->). exists n. rewrite take_app_le by done. split; [|done].
    split_and!; [rewrite length_app; lia|by rewrite take_app_le by done|]. rewrite drop_app_le by done. apply Forall_app.
    split; [done|]. apply Forall_singleton. unfold yielded. by rewrite Hs.
Qed.

Lemma wf_AddTool e out tc m : wf e out -> wf (AddTool cfg tc m e) out.
Proof.
  intros Hwf. unfold AddTool. destruct (x_discard e || _) eqn:E; [done|]. apply orb_false_iff in E as [Ed Ep].
  apply negb_false_iff, bool_decide_eq_true in Ep. destruct tc as [tc|]; [|done]. cbv zeta.
  case_bool_decide as Hkey; [done|]. destruct (x_index e !! toolCallKey tc) as [idx|] eqn:Eidx; [|].
  2:{ by apply (wf_append e out {| t_ID := toolCallKey tc |}). }
  apply (wf_index _ _ Hwf) in Eidx as (t & Ht & Hid). 
  change (wf (e <| x_tools := alter (update_tool cfg tc m) idx (x_tools e) |>) out).
  apply wf_alike; [done|done| |].
  all: replace (alter (update_tool cfg tc m) idx (x_tools e)) with (<[idx := update_tool cfg tc m t]> (x_tools e))
    by (rewrite list_insert_alter; apply list_alter_ext; [intros x Hx; congruence|done]).
  - rewrite <- (list_insert_id (x_tools e) idx t Ht) at 1. apply Forall2_insert; [by apply Forall_Forall2_diag, Forall_true|].
    unfold update_tool, alike. by destruct (queued t), m.
  - pose proof (wf_named _ _ Hwf) as Hna. apply Forall_insert; [done|]. eapply Forall_lookup_1 in Hna as [Hn1 Hn2]; [|exact Ht].
    unfold update_tool, tool_named. destruct (queued t), m; cbn; (split; [congruence|exact Hn2]).
Qed.

Lemma group_ok_nil : group_ok [].
Proof. right. split; [constructor|cbn; lia]. Qed.

Lemma indexed_empty e : x_tools e = [] -> x_index e = ∅ -> indexed e.
Proof.
  intros Ht Hi id i. rewrite Ht, Hi. split; [done|]. by intros (? & ? & ?).
Qed.

Lemma wf_Discard e out : wf e out -> wf (Discard e) out.
Proof.
  intros [Hst Hna Hin Hg [Hnd Hsd] Hc Hr Hb Hp Hd Ho].
  split; [constructor|constructor|by apply indexed_empty|apply group_ok_nil|done| |done..].
  intros Hn. split; [done|]. by apply Hc.
Qed.

Lemma wf_New : wf NewStreamingToolExecutor [].
Proof.
  split; [constructor|constructor|by apply indexed_empty|apply group_ok_nil| |done..|].
  - split; [constructor|]. intros _ id Hid. by apply elem_of_nil in Hid.
  - intros _. exists 0%nat. by repeat split; try constructor.
Qed.

(** ** Settling *)

Lemma settles_complete t r c :
  yielded t = false -> good (t_ID t) (r_ToolCallID r) -> settles t (complete_with r t <| t_cancelFunc := c |>).
Proof. intros Hy Hg. split; [done|]. right. split_and!; [done|done|]. by exists r. Qed.

Lemma settles_complete' t r : yielded t = false -> good (t_ID t) (r_ToolCallID r) -> settles t (complete_with r t).
Proof. intros Hy Hg. split; [done|]. right. split_and!; [done|done|]. by exists r. Qed.

Lemma queued_not_yielded t : queued t = true -> yielded t = false.
Proof. unfold queued, yielded. intros H%bool_decide_eq_true. by rewrite H. Qed.

Lemma synthetic_good t m : tool_named t -> good (t_ID t) (r_ToolCallID (synthetic_result t m)).
Proof.
  intros [Hid _]. unfold synthetic_result. cbn. rewrite Hid. unfold toolCallKey.
  destruct (tc_ID (t_ToolCall t) <>b []); apply good_refl.
Qed.

Lemma Forall2_settles_map (f : trackedTool -> trackedTool) l : Forall tool_named l -> (forall t, tool_named t -> settles t (f t)) -> Forall2 settles l (map f l).
Proof. intros Hl Hf. induction Hl; cbn; constructor; auto. Qed.

Lemma no_queued_map (f : trackedTool -> trackedTool) l : (forall t, queued (f t) = false) -> existsb queued (map f l) = false.
Proof. intros Hf. induction l; cbn; [done|]. by rewrite Hf. Qed.

Lemma reject_settles m e out : wf e out -> settled_from e (rejectPendingLocked m e).1.
Proof.
  intros Hwf. unfold rejectPendingLocked. destruct (x_discard e || _) eqn:E; [apply settled_refl|].
  apply orb_false_iff in E as [_ Ep]. apply negb_false_iff, bool_decide_eq_true in Ep.
  assert (existsb queued (map (reject_tool m) (x_tools e)) = false) as Hq.
  { apply no_queued_map. intros t. unfold reject_tool. case_bool_decide as Hy; [unfold queued; by rewrite Hy|done]. }
  split; [|done..|right; split; [exact Ep|split; [done|exact Hq]]|by left].
  apply Forall2_settles_map; [exact (wf_named _ _ Hwf)|]. intros t Ht. unfold reject_tool. fold (yielded t).
  destruct (yielded t) eqn:Ey; [apply settles_refl|]. by apply settles_complete', synthetic_good.
Qed.

Lemma cancel_settles m e out : wf e out -> settled_from e (synthesizeCancelBehaviorLocked cfg m e).
Proof.
  intros Hwf. split; [|done..|by left|by left]. apply Forall2_settles_map; [exact (wf_named _ _ Hwf)|]. intros t Ht.
  unfold cancel_tool. destruct (cancels cfg t) eqn:Ec; [|apply settles_refl]. apply settles_complete; [|by apply synthetic_good].
  unfold cancels in Ec. apply andb_true_iff in Ec as [Ec _]. apply andb_true_iff in Ec as [Ec _].
  by apply negb_true_iff in Ec.
Qed.

Lemma complete_queued_settles f e out :
  wf e out -> (forall t, tool_named t -> good (t_ID t) (r_ToolCallID (f t))) ->
  settled_from e (e <| x_tools ::= map (complete_queued f) |>) /\
  existsb queued (x_tools (e <| x_tools ::= map (complete_queued f) |>)) = false.
Proof.
  intros Hwf Hf. split.
  - split; [|done..|by left|by left]. apply Forall2_settles_map; [exact (wf_named _ _ Hwf)|]. intros t Ht. unfold complete_queued.
    destruct (queued t) eqn:Eq; [|apply settles_refl]. apply settles_complete'; [by apply queued_not_yielded|by apply Hf].
  - apply no_queued_map. intros t. unfold complete_queued. by destruct (queued t) eqn:Eq.
Qed.

Lemma interrupt_settles e out : wf e out -> settled_from e (interruptRemainingLocked cfg e).
Proof.
  intros Hwf. unfold interruptRemainingLocked. destruct (x_discard e); [apply settled_refl|].
  destruct (x_commitState e); [by eapply reject_settles| |apply settled_refl].
  destruct (complete_queued_settles (fun t => synthetic_result t interrupted_text) e out Hwf) as [H1 _].
  { intros t. apply synthetic_good. }
  eapply settled_trans; [exact H1|]. eapply cancel_settles. by eapply wf_settled.
Qed.

Lemma tool_settles e i t t' :
  x_tools e !! i = Some t -> settles t t' -> settled_from e (e <| x_tools ::= <[i := t']> |>).
Proof.
  intros Hi Ht. split; [|done..|by left|by left]. cbn. rewrite <- (list_insert_id (x_tools e) i t Hi) at 1.
  apply Forall2_insert; [apply Forall2_settles_refl|done].
Qed.

(** An operation that settles tools and may then start others. *)
Definition settles_then_starts (e e' : executor) : Prop :=
  exists e1, settled_from e e1 /\ (e' = e1 \/ exists force, e' = startRunnableLocked cfg force e1).

Lemma wf_settles_then_starts e e' out : wf e out -> settles_then_starts e e' -> wf e' out.
Proof.
  intros Hwf (e1 & H1 & [->|[force ->]]); [by eapply wf_settled|]. apply wf_startRunnable. by eapply wf_settled.
Qed.

Lemma Complete_settles id r err e out : wf e out -> settles_then_starts e (Complete cfg id r err e).
Proof.
  intros Hwf. unfold Complete. destruct (_ || _); [exists e; split; [apply settled_refl|by left]|].
  destruct (x_index e !! id) as [idx|] eqn:Eidx; cbn [option_bind mbind]; [|exists e; split; [apply settled_refl|by left]].
  apply (wf_index _ _ Hwf) in Eidx as (t & Ht & Hid). cbn. rewrite Ht. cbn.
  destruct (_ || _) eqn:E; [exists e; split; [apply settled_refl|by left]|]. apply orb_false_iff in E as [_ Ey].
  eexists. split; [|by right; exists false]. eapply tool_settles; [exact Ht|]. apply settles_complete'; [done|].
  cbn. rewrite Hid. apply good_refl.
Qed.

Definition settled (t : trackedTool) : bool := negb (queued t) && negb (executing t).

(** The result that [finish] stores. *)
Definition finished_result (id : bytes) (tc : ToolCall) (r : ToolResult) : ToolResult :=
  commitToolResultContextModifier (normalizeToolResult id tc r).

Definition result_id (id : bytes) (r : ToolResult) : bytes := if r_ToolCallID r ==b [] then id else r_ToolCallID r.

Lemma finished_result_id id tc r : r_ToolCallID (finished_result id tc r) = result_id id r.
Proof.
  unfold finished_result. set (n := normalizeToolResult id tc r).
  assert (r_ToolCallID n = result_id id r) as <-.
  { unfold n, normalizeToolResult, result_id. cbn. by repeat case_bool_decide. }
  clearbody n. unfold commitToolResultContextModifier. by destruct (r_ContextModifier n) as [[|]|].
Qed.

(** The last part of [finish]: the result is stored and a failed [Bash] call
    stops the queue. *)
Lemma finish_store id i t r e out :
  wf e out -> x_commitState e = toolCommitCommitted -> x_tools e !! i = Some t -> yielded t = false ->
  t_ID t = id -> good id (r_ToolCallID r) ->
  let e1 := e <| x_tools ::= <[i := complete_with r t <| t_cancelFunc := false |>]> |> in
  let e2 := if r_IsError r && (r_ToolName r ==b lit "Bash") && negb (x_bashErrored e1)
            then synthesizeQueuedSiblingsLocked (r_ToolName r) (e1 <| x_bashErrored := true |> <| x_siblingCancelled := true |>)
            else e1 in
  settled_from e e2 /\ exists t', x_tools e2 !! i = Some t' /\ t_Status t' = toolStatusCompleted.
Proof.
  intros Hwf Hc Hi Hy Hid Hg. cbv zeta. set (t1 := complete_with r t <| t_cancelFunc := false |>).
  assert (settles t t1) as Ht by (apply settles_complete; [done|congruence]).
  pose proof (tool_settles e i t t1 Hi Ht) as H1. set (e1 := e <| x_tools ::= _ |>) in *.
  assert (x_tools e1 !! i = Some t1) as Hi1 by (apply list_lookup_insert_eq; by eapply lookup_lt_Some).
  destruct (_ && _) eqn:Eb; [|split; [done|by exists t1]].
  set (f := fun t : trackedTool => newToolResult
         (if tc_ID (t_ToolCall t) <>b [] then tc_ID (t_ToolCall t) else t_ID t) (toolNameFromCall (t_ToolCall t))
         (lit "Cancelled: parallel tool call " ++ r_ToolName r ++ lit " errored") true).
  destruct (complete_queued_settles f e1 out) as [H2 Hq].
  { by eapply wf_settled. }
  { intros t0. apply (synthetic_good t0). }
  destruct H1 as [T1 I1 D1 S1 C1 B1], H2 as [T2 I2 D2 S2 C2 B2]. split.
  - split; [|done..|by left|by right].
    change (Forall2 settles (x_tools e) (map (complete_queued f) (x_tools e1))).
    eapply Forall2_trans; [|exact T1|exact T2]. intros ???. apply settles_trans.
  - exists t1. split; [|done]. change (map (complete_queued f) (x_tools e1) !! i = Some t1).
    change (complete_queued f <$> x_tools e1) with (map (complete_queued f) (x_tools e1)).
    assert ((complete_queued f <$> x_tools e1) !! i = Some (complete_queued f t1)) as Hm
      by (rewrite list_lookup_fmap, Hi1; done). exact Hm.
Qed.

Lemma finish_settles id r b e out :
  wf e out -> good id (result_id id r) ->
  exists e1, settled_from e e1 /\ (finish cfg id r b e = e1 \/ finish cfg id r b e = startRunnableLocked cfg false e1) /\
    (forall i t, x_discard e = false -> x_commitState e = toolCommitCommitted -> x_tools e !! i = Some t -> t_ID t = id ->
       executing t = true -> exists t', x_tools e1 !! i = Some t' /\ settled t' = true).
Proof.
  intros Hwf Hgood. unfold finish. destruct (x_discard e || _) eqn:Ex.
  { exists e. split; [apply settled_refl|]. split; [by left|]. intros i t Hd Hc. rewrite Hd, Hc in Ex. done. }
  apply orb_false_iff in Ex as [Ed Ec]. apply negb_false_iff, bool_decide_eq_true in Ec.
  destruct (x_index e !! id) as [idx|] eqn:Eidx; cbn [option_bind mbind].
  2:{ exists e. split; [apply settled_refl|]. split; [by left|]. intros i t _ _ Hi Hid _.
      assert (x_index e !! id = Some i) as Hx by (apply (wf_index _ _ Hwf); by exists t). congruence. }
  pose proof Eidx as Hidx. apply (wf_index _ _ Hwf) in Eidx as (t & Ht & Hid). rewrite Ht. cbn [fmap option_fmap option_map].
  assert (forall i t', x_tools e !! i = Some t' -> t_ID t' = id -> i = idx) as Hinj.
  { intros i t' Hi Hid'. eapply (indexed_inj e); [by eapply wf_index|done|done|congruence]. }
  destruct (_ || _) eqn:E.
  { exists e. split; [apply settled_refl|]. split; [by left|]. intros i t' _ _ Hi Hid' Hex. exfalso.
    assert (i = idx) as -> by by eapply Hinj. rewrite Ht in Hi. injection Hi as <-.
    pose proof (wf_status _ _ Hwf) as Hst. eapply Forall_lookup_1 in Hst; [|exact Ht]. unfold status_ok in Hst.
    unfold executing in Hex. apply bool_decide_eq_true in Hex. rewrite Hex in Hst. rewrite Hst, Hex in E. done. }
  apply orb_false_iff in E as [Er Ey]. apply negb_false_iff, bool_decide_eq_true in Er. fold (yielded t) in Ey.
  cbv zeta. set (e0 := if b then interruptRemainingLocked cfg e else e).
  assert (settled_from e e0) as H0 by (unfold e0; destruct b; [by eapply interrupt_settles|apply settled_refl]).
  pose proof (wf_settled _ _ _ Hwf H0) as Hwf0.
  destruct (Forall2_lookup_l _ _ _ _ _ (sf_tools _ _ H0) Ht) as (t0 & Ht0 & [(Hid0 & Hc0 & _) Hs0]). rewrite Ht0.
  destruct (b && negb (bool_decide (t_Result t0 = None))) eqn:Eb.
  { exists e0. split; [done|]. split; [by left|]. intros i t' _ _ Hi Hid' Hex.
    assert (i = idx) as -> by by eapply Hinj. exists t0. split; [done|].
    apply andb_true_iff in Eb as [_ Hr]. apply negb_true_iff, bool_decide_eq_false in Hr.
    destruct Hs0 as [[_ Hr0]|(_ & Hs0 & _)]; [congruence|]. unfold settled, queued, executing. by rewrite Hs0. }
  assert (yielded t0 = false) as Hy0.
  { unfold yielded in *. destruct Hs0 as [[-> _]|(_ & -> & _)]; done. }
  assert (x_commitState e0 = toolCommitCommitted) as Hcom0 by (destruct (sf_commit _ _ H0) as [|(? & _)]; congruence).
  destruct (finish_store id idx t0 (finished_result id (t_ToolCall t0) r) e0 out) as [H1 (t' & Ht' & Hst')]; [done..| | |].
  { congruence. }
  { by rewrite finished_result_id. }
  unfold finished_result in *. eexists. split; [eapply settled_trans; [exact H0|exact H1]|]. split; [by right|].
  intros i t2 _ _ Hi Hid' _. assert (i = idx) as -> by by eapply Hinj. exists t'. split; [exact Ht'|].
  unfold settled, queued, executing. by rewrite Hst'.
Qed.

(** ** Every operation *)

Lemma wf_committed e out :
  wf e out -> x_commitState e = toolCommitPending -> wf (e <| x_commitState := toolCommitCommitted |>) out.
Proof. intros [Hst Hna Hin Hg Hsd Hc Hr Hb Hp Hd Ho] He. by split. Qed.

Lemma wf_commit_op d e out : wf e out -> wf (commit cfg d e).1 out.
Proof.
  intros Hwf. unfold commit. destruct (x_discard e); [done|]. cbn [orb].
  destruct (x_commitState e) eqn:Ec; [|done..].
  rewrite (bool_decide_eq_false_2 (toolCommitPending = toolCommitRejected)),
    (bool_decide_eq_false_2 (toolCommitPending = toolCommitCommitted)) by done.
  destruct d; [by eapply wf_settled; [|eapply reject_settles]|]. cbn [fst].
  pose proof (wf_committed _ _ Hwf Ec) as Hwf'. destruct (deferExecution cfg); [done|]. by apply wf_startRunnable.
Qed.

(** An operation that gives back results or has to wait. *)
Definition collects (p : executor * option (list ToolResult)) (out : list ToolResult) : Prop :=
  wf p.1 (out ++ default [] p.2).

Lemma collects_ready e out :
  wf e out -> collects (let '(e, r) := collectReadyResultsLocked e in (e, Some r)) out.
Proof. intros Hwf%wf_collect. by destruct (collectReadyResultsLocked e). Qed.

Lemma collects_wait e out : wf e out -> collects (wait_round cfg e) out.
Proof.
  intros Hwf. unfold wait_round. pose proof (wf_startRunnable true _ _ Hwf) as Hwf'.
  destruct (allSettledLocked _); [by apply collects_ready|]. unfold collects. cbn. by rewrite app_nil_r.
Qed.

Lemma settle_commit_settles d e out : wf e out -> settled_from e (settle_commit d e).
Proof. intros Hwf. unfold settle_commit. destruct (x_commitState e); [by eapply reject_settles|apply settled_refl..]. Qed.

Lemma collects_nothing e out : wf e out -> collects (e, Some []) out.
Proof. intros Hwf. unfold collects. cbn. by rewrite app_nil_r. Qed.

Lemma collects_RemainingContext d e out : wf e out -> collects (GetRemainingResultsContext cfg d e) out.
Proof.
  intros Hwf. unfold GetRemainingResultsContext. destruct (x_discard e); [by apply collects_nothing|].
  pose proof (wf_settled _ _ _ Hwf (settle_commit_settles d _ _ Hwf)) as Hwf1.
  case_bool_decide; [by apply collects_ready|].
  assert (wf (if d then interruptRemainingLocked cfg (settle_commit d e) else settle_commit d e) out) as Hwf2.
  { destruct d; [|done]. by eapply wf_settled; [|eapply interrupt_settles]. }
  destruct (hasExecute cfg); [by apply collects_wait|by apply collects_ready].
Qed.

Lemma collects_Remaining d e out : wf e out -> collects (GetRemainingResults cfg d e) out.
Proof.
  intros Hwf. unfold GetRemainingResults. destruct (x_discard e); [by apply collects_nothing|].
  pose proof (wf_settled _ _ _ Hwf (settle_commit_settles d _ _ Hwf)) as Hwf1.
  case_bool_decide; [by apply collects_ready|]. destruct d.
  - pose proof (wf_settled _ _ _ Hwf1 (cancel_settles interrupted_text _ _ Hwf1)) as Hwf2. cbv zeta.
    destruct (allSettledLocked _); [by apply collects_ready|]. unfold collects. cbn [fst snd default]. by rewrite app_nil_r.
  - destruct (hasExecute cfg); [by apply collects_wait|by apply collects_ready].
Qed.

(** The result with which a tool finishes is related to it. *)
Definition op_good (o : operation) : Prop :=
  match o with OpFinish id r _ => good id (result_id id r) | _ => True end.

Lemma wf_perform o e out : wf e out -> op_good o -> wf (perform cfg o e).1 (out ++ (perform cfg o e).2).
Proof.
  intros Hwf Hg. destruct o; cbn [perform fst snd]; rewrite ?app_nil_r.
  - by apply wf_AddTool.
  - by apply wf_commit_op.
  - eapply wf_settled; [done|]. by eapply reject_settles.
  - eapply wf_settles_then_starts; [done|]. by eapply Complete_settles.
  - eapply wf_settles_then_starts; [done|]. destruct (finish_settles _ _ isInterrupted _ _ Hwf Hg) as (e1 & H1 & H2 & _).
    exists e1. split; [done|]. destruct H2; [by left|right; by exists false].
  - unfold GetCompleted. case_bool_decide; [by rewrite app_nil_r|]. by apply wf_collect.
  - pose proof (collects_Remaining ctxDone _ _ Hwf) as H. unfold collects in H. by destruct (GetRemainingResults _ _ _).
  - pose proof (collects_RemainingContext ctxDone _ _ Hwf) as H. unfold collects in H.
    by destruct (GetRemainingResultsContext _ _ _).
  - eapply wf_settled; [done|]. by eapply interrupt_settles.
  - by apply wf_Discard.
Qed.

Lemma wf_perform_all os e out :
  wf e out -> Forall op_good os -> wf (perform_all cfg os e out).1 (perform_all cfg os e out).2.
Proof.
  revert e out. induction os as [|o os IH]; intros e out Hwf Hos; [done|]. apply Forall_cons in Hos as [Ho Hos].
  cbn [perform_all]. pose proof (wf_perform o e out Hwf Ho) as H. destruct (perform cfg o e). by apply IH.
Qed.

Lemma wf_run os : Forall op_good os -> wf (run cfg os).1 (run cfg os).2.
Proof. apply wf_perform_all, wf_New. Qed.

(** ** Waiting *)

Definition unsettled (l : list trackedTool) : nat := length (List.filter (fun t => negb (settled t)) l).

Lemma settles_unsettled l l' : Forall2 settles l l' -> (unsettled l' <= unsettled l)%nat.
Proof.
  unfold unsettled. induction 1 as [|t t' l l' [_ Ht] _ IH]; [done|]. cbn.
  destruct Ht as [[Hs _]|(_ & Hs & _)].
  - replace (settled t') with (settled t) by (unfold settled, queued, executing; by rewrite Hs).
    destruct (settled t); cbn; lia.
  - replace (settled t') with true by (unfold settled, queued, executing; by rewrite Hs). destruct (settled t); cbn; lia.
Qed.

Lemma settles_unsettled_lt l l' i t t' :
  Forall2 settles l l' -> l !! i = Some t -> l' !! i = Some t' -> settled t = false -> settled t' = true ->
  (unsettled l' < unsettled l)%nat.
Proof.
  intros H. revert i. induction H as [|u u' l l' Hu Hl IH]; intros i Hi Hi' Ht Ht'; [done|].
  unfold unsettled in *. destruct i as [|i]; cbn in Hi, Hi'.
  - injection Hi as ->. injection Hi' as ->. cbn. rewrite Ht, Ht'. cbn. pose proof (settles_unsettled _ _ Hl).
    unfold unsettled in *. lia.
  - specialize (IH i Hi Hi' Ht Ht'). assert (Forall2 settles [u] [u']) as H1 by by constructor.
    apply settles_unsettled in H1. unfold unsettled in H1. cbn in *. destruct (settled u), (settled u'); cbn in *; lia.
Qed.

(** What starting tools keeps. *)
Lemma starts_keeps e e' :
  starts e e' -> unsettled (x_tools e') = unsettled (x_tools e) /\ (length (running (x_tools e)) <= length (running (x_tools e')))%nat /\
    x_discard e' = x_discard e /\ x_commitState e' = x_commitState e /\
    (forall i t, x_tools e' !! i = Some t -> queued t = true -> x_tools e !! i = Some t) /\
    length (x_tools e') = length (x_tools e).
Proof.
  induction 1 as [|e i t e' Hi Hq Hc _ (H1 & H2 & H3 & H4 & H5 & H6)]; [done|].
  assert (x_tools (startToolLocked i t e) = <[i := t <| t_Status := toolStatusExecuting |> <| t_cancelFunc := true |>]> (x_tools e))
    as HT by done.
  destruct (running_start _ _ _ Hi Hq) as (r1 & r2 & Hr1 & Hr2). rewrite <- HT in Hr2. split_and!; try done.
  - rewrite H1, HT. unfold unsettled. rewrite <- (take_drop_middle _ _ _ Hi) at 2.
    rewrite insert_take_drop by (by eapply lookup_lt_Some). rewrite !List.filter_app, !length_app. cbn.
    assert (settled t = false) as -> by (unfold settled; by rewrite Hq). done.
  - etransitivity; [|exact H2]. rewrite Hr1, Hr2, !length_app. cbn. lia.
  - intros j t' Hj Hq'. specialize (H5 j t' Hj Hq'). rewrite HT in H5. destruct (decide (j = i)) as [->|Hne].
    + rewrite list_lookup_insert_eq in H5 by (by eapply lookup_lt_Some). injection H5 as <-. done.
    + by rewrite list_lookup_insert_ne in H5.
  - rewrite H6, HT. apply length_insert.
Qed.

(** With nothing running, the first queued tool starts. *)
Lemma start_loop_runs indexes e :
  running (x_tools e) = [] -> (forall i, i ∈ indexes -> is_Some (x_tools e !! i)) ->
  (exists i t, i ∈ indexes /\ x_tools e !! i = Some t /\ queued t = true) ->
  running (x_tools (start_loop cfg true indexes e)) <> [].
Proof.
  intros Hrun Hv (j & t & Hj & Ht & Hq). induction indexes as [|i rest IH]; [by apply elem_of_nil in Hj|]. cbn [start_loop].
  destruct (Hv i ltac:(by left)) as [u Hu]. rewrite Hu. destruct (queued u) eqn:Eu; cbn [negb andb].
  2:{ apply IH; [intros k Hk; apply Hv; by right|]. apply elem_of_cons in Hj as [->|]; [congruence|done]. }
  assert (canExecuteLocked cfg (t_IsConcurrencySafe u) e = true) as ->.
  { unfold canExecuteLocked. unfold running in Hrun. apply fmap_nil_inv in Hrun. by rewrite Hrun. }
  cbn [negb]. destruct (running_start _ _ _ Hu Eu) as (r1 & r2 & _ & Hr). intros Hnil.
  assert (length (running (x_tools (startToolLocked i u e))) <> 0)%nat as Hlen.
  { change (x_tools (startToolLocked i u e)) with
      (<[i := u <| t_Status := toolStatusExecuting |> <| t_cancelFunc := true |>]> (x_tools e)).
    rewrite Hr, length_app. cbn. lia. }
  destruct (t_IsConcurrencySafe u); cbn [negb] in Hnil; [|by rewrite Hnil in Hlen].
  destruct (starts_keeps _ _ (start_loop_starts true rest (startToolLocked i u e))) as (_ & H & _). rewrite Hnil in H. by apply Hlen, Nat.le_0_r.
Qed.

(** A committed executor that is not settled runs a tool after a round. *)
Lemma wait_round_runs e :
  hasExecute cfg = true -> x_discard e = false -> x_commitState e = toolCommitCommitted ->
  allSettledLocked (startRunnableLocked cfg true e) = false ->
  running (x_tools (startRunnableLocked cfg true e)) <> [].
Proof.
  intros He Hd Hc. assert (startRunnableLocked cfg true e = start_loop cfg true (seq 0 (length (x_tools e))) e) as ->
    by (unfold startRunnableLocked; by rewrite Hd, Hc, He).
  set (e' := start_loop cfg true _ e). intros Hns Hrun.
  destruct (starts_keeps _ _ (start_loop_starts true (seq 0 (length (x_tools e))) e)) as (_ & H2 & _ & _ & H5 & _). fold e' in H2, H5.
  rewrite Hrun in H2. cbn in H2. assert (running (x_tools e) = []) as Hrun0 by (destruct (running (x_tools e)); [done|cbn in H2; lia]).
  apply not_true_iff_false in Hns. apply Hns. unfold allSettledLocked. apply forallb_elem_of. intros t Ht.
  destruct (executing t) eqn:Ex.
  { exfalso. assert (t ∈ List.filter executing (x_tools e')) as Hin.
    { apply list_elem_of_In, filter_In. split; [by apply list_elem_of_In|done]. }
    unfold running in Hrun. apply fmap_nil_inv in Hrun. rewrite Hrun in Hin. by apply elem_of_nil in Hin. }
  destruct (queued t) eqn:Eq; [|done]. exfalso. apply list_elem_of_lookup in Ht as [i Hi]. pose proof (H5 i t Hi Eq) as Hi0.
  revert Hrun. apply start_loop_runs; [done| |].
  - intros k Hk%elem_of_seq. apply lookup_lt_is_Some. lia.
  - exists i, t. split_and!; [|done|done]. apply elem_of_seq. apply lookup_lt_Some in Hi0. lia.
Qed.

(** ** Stopping *)

(** The executor starts nothing any more. *)
Definition halted (e : executor) : Prop :=
  x_discard e = true \/ x_commitState e = toolCommitRejected \/
  (x_commitState e = toolCommitCommitted /\ existsb queued (x_tools e) = false).

(** The tools that [e'] started are those that [e] started, and it is halted too. *)
Definition still (e e' : executor) : Prop := halted e' /\ x_started e' = x_started e.

Lemma halted_settled e e' : settled_from e e' -> halted e -> still e e'.
Proof.
  intros [T I D S C B] H. split; [|done]. destruct H as [H|[H|[H Q]]]; [left; congruence|right; left|right; right].
  - destruct C as [|(? & _)]; congruence.
  - split; [destruct C as [|(? & _)]; congruence|]. by eapply settles_queued.
Qed.

Lemma halted_start force e : halted e -> startRunnableLocked cfg force e = e.
Proof.
  intros H. destruct (startRunnable_starts force e) as [|(Hd & Hc & Hs)]; [done|].
  destruct H as [H|[H|[_ H]]]; [congruence..|]. destruct Hs as [|i t e' Hi Hq]; [done|].
  assert (existsb queued (x_tools e) = true); [|congruence]. apply existsb_elem_of. exists t.
  split; [by eapply list_elem_of_lookup_2|done].
Qed.

Lemma collect_queued l : existsb queued (collect l).2 = existsb queued l.
Proof.
  induction l as [|t l IH]; [done|]. cbn [collect]. destruct (collect l) as [r l']. cbn [snd] in IH.
  case_bool_decide; cbn; [by rewrite IH|]. destruct (t_Result t); [|done]. case_bool_decide as Hs; [|done]. cbn.
  rewrite IH. f_equal. unfold queued. cbn. by rewrite Hs.
Qed.

Lemma halted_collect e : halted e -> still e (collectReadyResultsLocked e).1.
Proof.
  intros H. unfold collectReadyResultsLocked. pose proof (collect_queued (x_tools e)) as Hq.
  destruct (collect (x_tools e)) as [r l]. cbn in *. split; [|done]. destruct H as [|[|[? Q]]]; [by left|by right; left|].
  right; right. split; [done|]. cbn. congruence.
Qed.

Lemma still_collect e e' :
  still e e' -> still e (let '(e, r) := collectReadyResultsLocked e' in (e, Some r)).1.
Proof.
  intros [H S]. destruct (halted_collect _ H) as [H' S']. destruct (collectReadyResultsLocked e') as [e2 r]. cbn in *.
  split; [done|congruence].
Qed.

Lemma still_wait e e' : still e e' -> still e (wait_round cfg e').1.
Proof.
  intros H. unfold wait_round. rewrite halted_start by apply H. destruct (allSettledLocked e'); [by apply still_collect|done].
Qed.

Lemma still_refl e : halted e -> still e e.
Proof. by split. Qed.

Lemma still_settled e e1 e2 : still e e1 -> settled_from e1 e2 -> still e e2.
Proof. intros [H S] H2. destruct (halted_settled _ _ H2 H) as [? ?]. split; [done|congruence]. Qed.

Lemma still_Remaining d e out : wf e out -> halted e -> still e (GetRemainingResults cfg d e).1.
Proof.
  intros Hwf H%still_refl. unfold GetRemainingResults. destruct (x_discard e); [done|].
  pose proof (settle_commit_settles d _ _ Hwf) as Hs. pose proof (wf_settled _ _ _ Hwf Hs) as Hwf1.
  pose proof (still_settled _ _ _ H Hs) as H1. case_bool_decide; [by apply still_collect|].
  destruct d; [|destruct (hasExecute cfg); [by apply still_wait|by apply still_collect]].
  pose proof (still_settled _ _ _ H1 (cancel_settles interrupted_text _ _ Hwf1)) as H2. cbv zeta.
  destruct (allSettledLocked _); [by apply still_collect|done].
Qed.

Lemma still_RemainingContext d e out : wf e out -> halted e -> still e (GetRemainingResultsContext cfg d e).1.
Proof.
  intros Hwf H%still_refl. unfold GetRemainingResultsContext. destruct (x_discard e); [done|].
  pose proof (settle_commit_settles d _ _ Hwf) as Hs. pose proof (wf_settled _ _ _ Hwf Hs) as Hwf1.
  pose proof (still_settled _ _ _ H Hs) as H1. case_bool_decide; [by apply still_collect|].
  assert (still e (if d then interruptRemainingLocked cfg (settle_commit d e) else settle_commit d e)) as H2.
  { destruct d; [|done]. eapply still_settled; [exact H1|]. by eapply interrupt_settles. }
  destruct (hasExecute cfg); [by apply still_wait|by apply still_collect].
Qed.

Lemma still_perform o e out : wf e out -> op_good o -> halted e -> still e (perform cfg o e).1.
Proof.
  intros Hwf Hg H. pose proof (still_refl _ H) as Hr.
  assert (forall e', settles_then_starts e e' -> still e e') as Hss.
  { intros e' (e1 & H1 & He). pose proof (still_settled _ _ _ Hr H1) as H2.
    destruct He as [->|[force ->]]; [done|]. rewrite halted_start by apply H2. done. }
  destruct o; cbn [perform fst].
  - unfold AddTool. destruct H as [->|[->|[-> _]]]; [done|..]; by destruct (x_discard e).
  - unfold commit. destruct H as [->|[->|[-> _]]]; [done|..]; by destruct (x_discard e).
  - eapply still_settled; [done|]. by eapply reject_settles.
  - apply Hss. by eapply Complete_settles.
  - apply Hss. destruct (finish_settles _ _ isInterrupted _ _ Hwf Hg) as (e1 & H1 & H2 & _).
    exists e1. split; [done|]. destruct H2; [by left|right; by exists false].
  - unfold GetCompleted. case_bool_decide; [done|]. by apply halted_collect.
  - pose proof (still_Remaining ctxDone _ _ Hwf H). by destruct (GetRemainingResults _ _ _).
  - pose proof (still_RemainingContext ctxDone _ _ Hwf H). by destruct (GetRemainingResultsContext _ _ _).
  - eapply still_settled; [done|]. by eapply interrupt_settles.
  - by split; [left|].
Qed.

Lemma still_perform_all os e out :
  wf e out -> Forall op_good os -> halted e -> still e (perform_all cfg os e out).1.
Proof.
  revert e out. induction os as [|o os IH]; intros e out Hwf Hos H; [by apply still_refl|].
  apply Forall_cons in Hos as [Ho Hos]. cbn [perform_all]. pose proof (wf_perform o e out Hwf Ho) as Hwf'.
  destruct (still_perform o e out Hwf Ho H) as [H' S']. destruct (perform cfg o e) as [e' r]. cbn in *.
  destruct (IH e' _ Hwf' Hos H') as [H2 S2]. split; [done|congruence].
Qed.

(** Interrupting or discarding halts the executor. *)
Lemma interrupt_halts e out : wf e out -> halted (interruptRemainingLocked cfg e).
Proof.
  intros Hwf. unfold interruptRemainingLocked. destruct (x_discard e) eqn:Ed; [by left|].
  destruct (x_commitState e) eqn:Ec; [|right; right|by right; left].
  - right. left. unfold rejectPendingLocked. rewrite Ed, Ec. done.
  - split; [done|]. destruct (complete_queued_settles (fun t => synthetic_result t interrupted_text) e out Hwf) as [H1 Hq].
    { intros t. apply synthetic_good. }
    pose proof (wf_settled _ _ _ Hwf H1) as Hwf1. eapply settles_queued; [|exact Hq]. apply sf_tools.
    by eapply cancel_settles.
Qed.
(** A [Bash] call that ends with an error, its own or that of its context
    modifier. *)
Definition fails_bash (t : trackedTool) (r : ToolResult) : Prop :=
  (r_IsError r = true \/ exists err, r_ContextModifier r = Some (Some err)) /\
  (if r_ToolName r ==b [] then toolNameFromCall (t_ToolCall t) else r_ToolName r) = lit "Bash".

Lemma fails_bash_stored id t t' r :
  t_ToolCall t' = t_ToolCall t -> fails_bash t r ->
  r_IsError (finished_result id (t_ToolCall t') r) && (r_ToolName (finished_result id (t_ToolCall t') r) ==b lit "Bash") = true.
Proof.
  intros -> [He Hn]. unfold finished_result. set (n := normalizeToolResult id (t_ToolCall t) r).
  assert (r_IsError n = r_IsError r /\ r_ContextModifier n = r_ContextModifier r /\ r_ToolName n = lit "Bash") as (N1 & N2 & N3).
  { rewrite <- Hn. unfold n, normalizeToolResult. cbn. by repeat case_bool_decide. }
  clearbody n. unfold commitToolResultContextModifier. rewrite N2.
  assert ((r_ToolName n ==b lit "Bash") = true) as Hb by by apply bool_decide_eq_true_2.
  destruct He as [He|[err He]]; [|rewrite He; cbn; exact Hb].
  destruct (r_ContextModifier r) as [[|]|]; cbn; rewrite ?N1, ?He; exact Hb.
Qed.

Lemma bash_halts e out : wf e out -> x_bashErrored e = true -> halted e.
Proof.
  intros Hwf Hb. destruct (x_discard e) eqn:Ed; [by left|]. right. right. split; [by eapply wf_pending|by eapply wf_bash].
Qed.

Lemma finish_stops id t r b e out :
  wf e out -> good id (result_id id r) -> x_discard e = false -> x_commitState e = toolCommitCommitted ->
  t ∈ x_tools e -> t_ID t = id -> executing t = true -> b = true \/ fails_bash t r -> still e (finish cfg id r b e).
Proof.
  intros Hwf Hgood Hd Hc [i Hi]%list_elem_of_lookup Hid Hex Hst.
  assert (Hix : x_index e !! id = Some i) by (apply (wf_index _ _ Hwf); by exists t).
  assert (Hs : t_Status t = toolStatusExecuting) by by apply bool_decide_eq_true in Hex.
  assert (Hr : t_Result t = None).
  { pose proof (wf_status _ _ Hwf) as W. eapply Forall_lookup_1 in W; [|exact Hi]. unfold status_ok in W. by rewrite Hs in W. }
  unfold finish. rewrite Hd, Hc, Hix. cbn. rewrite Hi. cbn. rewrite Hr, Hs.
  rewrite (bool_decide_eq_true_2 (None = None)) by done. cbn.
  set (e0 := if b then interruptRemainingLocked cfg e else e).
  assert (H0 : settled_from e e0) by (unfold e0; destruct b; [by eapply interrupt_settles|apply settled_refl]).
  assert (Hh0 : b = true -> halted e0) by (intros ->; by eapply interrupt_halts).
  pose proof (wf_settled _ _ _ Hwf H0) as Hwf0.
  assert (Hcom0 : x_commitState e0 = toolCommitCommitted) by (destruct (sf_commit _ _ H0) as [|(? & _)]; congruence).
  destruct (Forall2_lookup_l _ _ _ _ _ (sf_tools _ _ H0) Hi) as (t0 & Ht0 & [(Hid0 & Hc0 & _) Hs0]). rewrite Ht0.
  destruct (b && negb (bool_decide (t_Result t0 = None))) eqn:Eb.
  { apply andb_true_iff in Eb as [-> _]. split; [by apply Hh0|apply H0]. }
  assert (Hy0 : yielded t0 = false) by (unfold yielded; destruct Hs0 as [[-> _]|(_ & -> & _)]; by rewrite ?Hs).
  destruct (finish_store id i t0 (finished_result id (t_ToolCall t0) r) e0 out) as [H1 _]; [done..|congruence|by rewrite finished_result_id|].
  unfold finished_result in *. set (e2 := if _ && _ && _ then _ else _) in *.
  pose proof (settled_trans _ _ _ H0 H1) as H2.
  enough (halted e2) as Hh by (rewrite halted_start by done; split; [done|apply H2]).
  destruct Hst as [Hb|Hf]; [eapply halted_settled; [exact H1|by apply Hh0]|].
  eapply bash_halts; [by eapply wf_settled|]. unfold e2.
  pose proof (fails_bash_stored id t t0 r Hc0 Hf) as Hfb. unfold finished_result in Hfb. rewrite Hfb. cbn [andb].
  destruct (x_bashErrored _) eqn:Ebe; cbn [negb]; [exact Ebe|done].
Qed.

(** The operations that stop the executor. *)
Definition stops (o : operation) (e : executor) : Prop :=
  match o with
  | OpInterrupt | OpDiscard | OpGetRemainingContext true => True
  | OpReject _ | OpCommit true | OpGetRemaining _ | OpGetRemainingContext false => x_commitState e = toolCommitPending
  | OpFinish id r isInterrupted =>
      x_discard e = false /\ x_commitState e = toolCommitCommitted /\
      exists t, t ∈ x_tools e /\ t_ID t = id /\ executing t = true /\ (isInterrupted = true \/ fails_bash t r)
  | _ => False
  end.

Lemma reject_still m e : x_commitState e = toolCommitPending -> still e (rejectPendingLocked m e).1.
Proof.
  intros Hc. unfold rejectPendingLocked, still, halted. rewrite Hc. destruct (x_discard e) eqn:Ed; cbn; [|by auto].
  rewrite Ed. by auto.
Qed.

Lemma settle_still d e : x_commitState e = toolCommitPending -> still e (settle_commit d e).
Proof. intros Hc. unfold settle_commit. rewrite Hc. by apply reject_still. Qed.

Lemma stops_still o e out : wf e out -> op_good o -> stops o e -> still e (perform cfg o e).1.
Proof.
  intros Hwf Hg Hs.
  assert (Hdis : x_discard e = true -> still e (perform cfg o e).1) by (intros Hd; eapply still_perform; [done..|by left]).
  destruct (x_discard e) eqn:Ed; [by apply Hdis|]. clear Hdis.
  destruct o as [?? |[] | |?|id r b| |d|[]| |]; try done; cbn [perform fst]; cbn [stops] in Hs.
  - unfold commit. rewrite Ed, Hs. cbn. by apply reject_still.
  - by apply reject_still.
  - destruct Hs as (_ & Hc & t & Ht & Hid & Hex & Hst). by eapply finish_stops.
  - unfold GetRemainingResults. rewrite Ed. pose proof (settle_still d e Hs) as H1.
    assert (Hr : x_commitState (settle_commit d e) = toolCommitRejected).
    { unfold settle_commit, rejectPendingLocked. by rewrite Hs, Ed. }
    rewrite Hr. cbn. pose proof (still_collect _ _ H1) as H2. by destruct (collectReadyResultsLocked _).
  - enough (still e (GetRemainingResultsContext cfg true e).1) as H by by destruct (GetRemainingResultsContext cfg true e).
    unfold GetRemainingResultsContext. rewrite Ed.
    pose proof (settle_commit_settles true _ _ Hwf) as Hse. pose proof (wf_settled _ _ _ Hwf Hse) as Hwf1.
    case_bool_decide as Hr.
    + apply still_collect. split; [by right; left|apply Hse].
    + assert (still e (interruptRemainingLocked cfg (settle_commit true e))) as H1.
      { split; [by eapply interrupt_halts|]. rewrite (sf_started _ _ (interrupt_settles _ _ Hwf1)). apply Hse. }
      destruct (hasExecute cfg); [by apply still_wait|by apply still_collect].
  - enough (still e (GetRemainingResultsContext cfg false e).1) as H by by destruct (GetRemainingResultsContext cfg false e).
    unfold GetRemainingResultsContext. rewrite Ed. pose proof (settle_still false e Hs) as H1.
    assert (Hr : x_commitState (settle_commit false e) = toolCommitRejected).
    { unfold settle_commit, rejectPendingLocked. by rewrite Hs, Ed. }
    rewrite Hr. cbn. by apply still_collect.
  - split; [by eapply interrupt_halts|]. exact (sf_started _ _ (interrupt_settles _ _ Hwf)).
  - split; [by left|done].
Qed.
(** ** Goroutines *)

(** The tools that are marked as executing: their identity, and whether they are
    safe. *)
Definition view (l : list trackedTool) : list (bytes * bool) :=
  (fun t => (t_ID t, t_IsConcurrencySafe t)) <$> List.filter executing l.

Lemma view_running l : (view l).*2 = running l.
Proof. unfold view, running. by rewrite <- list_fmap_compose. Qed.

Lemma view_app l1 l2 : view (l1 ++ l2) = view l1 ++ view l2.
Proof. unfold view. by rewrite List.filter_app, fmap_app. Qed.

Lemma elem_of_view g l :
  g ∈ view l <-> exists t, t ∈ l /\ executing t = true /\ g = (t_ID t, t_IsConcurrencySafe t).
Proof.
  unfold view. rewrite list_elem_of_fmap. split.
  - intros (t & -> & Ht%list_elem_of_In). apply filter_In in Ht as [Ht ?]. exists t. split; [by apply list_elem_of_In|done].
  - intros (t & Ht & He & ->). exists t. split; [done|]. apply list_elem_of_In, filter_In. split; [by apply list_elem_of_In|done].
Qed.

Lemma view_map (f : trackedTool -> trackedTool) l :
  Forall (fun t => executing (f t) = executing t /\ t_ID (f t) = t_ID t /\ t_IsConcurrencySafe (f t) = t_IsConcurrencySafe t) l ->
  view (map f l) = view l.
Proof.
  unfold view. induction 1 as [|t l (He & Hi & Hs) _ IH]; [done|]. cbn [map List.filter]. rewrite He.
  destruct (executing t); [|done]. cbn. by rewrite Hi, Hs, IH.
Qed.

Lemma view_complete_queued f l : view (map (complete_queued f) l) = view l.
Proof.
  apply view_map, Forall_true. intros t. unfold complete_queued. destruct (queued t) eqn:E; [|done].
  unfold queued in E. apply bool_decide_eq_true in E. split; [|done]. unfold executing. cbn. by rewrite E.
Qed.

Lemma filter_keeps_all {A} (f : A -> bool) l : (forall x, x ∈ l -> f x = true) -> List.filter f l = l.
Proof.
  induction l as [|x l IH]; intros Hf; [done|]. cbn. rewrite Hf by by left. by rewrite IH by (intros; apply Hf; by right).
Qed.

Lemma view_absent id l :
  (forall t, t ∈ l -> t_ID t = id -> executing t = false) -> List.filter (fun g => g.1 <>b id) (view l) = view l.
Proof.
  intros Ha. apply filter_keeps_all. intros g (t & Ht & He & ->)%elem_of_view. cbn. apply negb_true_iff, bool_decide_eq_false.
  intros Heq. by rewrite (Ha t Ht Heq) in He.
Qed.

(** A tool that is completed leaves the view. *)
Lemma view_complete e i t t' :
  indexed e -> x_tools e !! i = Some t -> executing t' = false ->
  view (<[i := t']> (x_tools e)) = List.filter (fun g => g.1 <>b t_ID t) (view (x_tools e)).
Proof.
  intros Hin Hi He. assert (Hlt : (i < length (x_tools e))%nat) by by eapply lookup_lt_Some.
  rewrite insert_take_drop by done. rewrite <- (take_drop_middle _ _ _ Hi) at 3.
  assert (Hoth : forall j u, x_tools e !! j = Some u -> j <> i -> t_ID u <> t_ID t).
  { intros j u Hj Hne Heq. by eapply Hne, indexed_inj. }
  assert (view [t'] = []) as Ht' by (unfold view; cbn; by rewrite He).
  assert (List.filter (fun g => g.1 <>b t_ID t) (view [t]) = []) as Ht.
  { unfold view. cbn. destruct (executing t); [cbn|done]. by rewrite bool_decide_eq_true_2. }
  change (t' :: drop (S i) (x_tools e)) with ([t'] ++ drop (S i) (x_tools e)).
  change (t :: drop (S i) (x_tools e)) with ([t] ++ drop (S i) (x_tools e)).
  rewrite !view_app, !List.filter_app, Ht, Ht'. cbn [app]. f_equal; symmetry; apply view_absent; intros u Hu Heq; exfalso.
  - apply list_elem_of_lookup in Hu as [j Hj]. apply lookup_take_Some in Hj as [Hj Hlt']. by eapply (Hoth j u); [|lia|].
  - apply list_elem_of_lookup in Hu as [j Hj]. rewrite lookup_drop in Hj. by eapply (Hoth (S i + j)%nat u); [|lia|].
Qed.

(** Tools begin: they are appended to the log and become executing. *)
Definition begins (e e' : executor) : Prop :=
  exists new, x_started e' = x_started e ++ new.*1 /\ view (x_tools e') ≡ₚ view (x_tools e) ++ new.

Lemma begins_none e e' : x_started e' = x_started e -> view (x_tools e') = view (x_tools e) -> begins e e'.
Proof. intros Hs Hv. exists []. by rewrite Hs, Hv, !app_nil_r. Qed.

Lemma begins_trans e1 e2 e3 : begins e1 e2 -> begins e2 e3 -> begins e1 e3.
Proof.
  intros (n1 & S1 & V1) (n2 & S2 & V2). exists (n1 ++ n2). rewrite S2, S1, fmap_app, <- app_assoc. split; [done|].
  by rewrite V2, V1, app_assoc.
Qed.

Lemma begins_starts e e' : starts e e' -> begins e e'.
Proof.
  induction 1 as [e|e i t e' Hi Hq _ _ IH]; [by apply begins_none|]. eapply begins_trans; [|exact IH].
  exists [(t_ID t, t_IsConcurrencySafe t)]. split; [done|].
  change (x_tools (startToolLocked i t e)) with
    (<[i := t <| t_Status := toolStatusExecuting |> <| t_cancelFunc := true |>]> (x_tools e)).
  assert (He : executing t = false) by (unfold queued, executing in *; apply bool_decide_eq_true in Hq; by rewrite Hq).
  rewrite insert_take_drop by (by eapply lookup_lt_Some). rewrite <- (take_drop_middle _ _ _ Hi) at 3.
  set (t' := t <| t_Status := toolStatusExecuting |> <| t_cancelFunc := true |>).
  change (t' :: drop (S i) (x_tools e)) with ([t'] ++ drop (S i) (x_tools e)).
  change (t :: drop (S i) (x_tools e)) with ([t] ++ drop (S i) (x_tools e)). rewrite !view_app.
  assert (view [t] = []) as -> by (unfold view; cbn; by rewrite He).
  change (view [t']) with [(t_ID t, t_IsConcurrencySafe t)]. cbn [app]. rewrite <- app_assoc. apply Permutation_app_head.
  apply Permutation_cons_append.
Qed.

Lemma begins_start force e : begins e (startRunnableLocked cfg force e).
Proof. destruct (startRunnable_starts force e) as [-> |(_ & _ & Hs)]; [by apply begins_none|by apply begins_starts]. Qed.

Lemma collect_view l : view (collect l).2 = view l.
Proof.
  unfold view. induction l as [|t l IH]; [done|]. cbn [collect]. destruct (collect l) as [r l']. cbn [snd] in IH.
  case_bool_decide as Hy; cbn [snd List.filter]; [destruct (executing t); cbn; by rewrite IH|].
  destruct (t_Result t); [|done]. case_bool_decide as Hs; [|done]. cbn [snd List.filter].
  assert (executing t = false) as -> by (unfold executing; by rewrite Hs). exact IH.
Qed.

Lemma begins_collect e e' : begins e e' -> begins e (collectReadyResultsLocked e').1.
Proof.
  intros Hb. eapply begins_trans; [exact Hb|]. unfold collectReadyResultsLocked. pose proof (collect_view (x_tools e')) as Hv.
  destruct (collect (x_tools e')) as [r l]. by apply begins_none.
Qed.

Lemma begins_ready e e' : begins e e' -> begins e (let '(e, r) := collectReadyResultsLocked e' in (e, Some r)).1.
Proof. intros Hb%begins_collect. by destruct (collectReadyResultsLocked e'). Qed.

Lemma begins_wait e : begins e (wait_round cfg e).1.
Proof.
  unfold wait_round. destruct (allSettledLocked _); [apply begins_ready, begins_start|apply begins_start].
Qed.
(** ** Orderly operations *)

(** [Complete] is not called for a tool that is executing; and when a committed
    executor is asked for its results with a done context, its executing tools
    block interrupts. *)
Definition orderly (o : operation) (e : executor) : Prop :=
  match o with
  | OpComplete id _ _ => forall t, t ∈ x_tools e -> t_ID t = id -> executing t = false
  | OpGetRemaining true =>
      x_commitState e = toolCommitCommitted -> forall t, t ∈ x_tools e -> executing t = true -> cancels cfg t = false
  | _ => True
  end.

(** The goroutine that calls [finish] ends with it. *)
Definition goes_on (o : operation) (g : bytes * bool) : bool :=
  match o with OpFinish id _ _ => g.1 <>b id | _ => true end.

(** An operation that ends the goroutine of [o] and may then start tools. *)
Definition moves (o : operation) (e e' : executor) : Prop :=
  exists e1, x_started e1 = x_started e /\ view (x_tools e1) = List.filter (goes_on o) (view (x_tools e)) /\ begins e1 e'.

Lemma moves_stay o e e' : (forall g, goes_on o g = true) -> begins e e' -> moves o e e'.
Proof. intros Hg Hb. exists e. split; [done|]. split; [|done]. rewrite filter_keeps_all; auto. Qed.

Lemma view_uncommitted e out : wf e out -> x_commitState e <> toolCommitCommitted -> view (x_tools e) = [].
Proof.
  intros Hwf Hc. destruct (wf_commit _ _ Hwf Hc) as [Hr _]. rewrite <- view_running in Hr. by apply fmap_nil_inv in Hr.
Qed.

Lemma finish_store_view id i t r e :
  indexed e -> x_tools e !! i = Some t -> t_ID t = id ->
  let e1 := e <| x_tools ::= <[i := complete_with r t <| t_cancelFunc := false |>]> |> in
  let e2 := if r_IsError r && (r_ToolName r ==b lit "Bash") && negb (x_bashErrored e1)
            then synthesizeQueuedSiblingsLocked (r_ToolName r) (e1 <| x_bashErrored := true |> <| x_siblingCancelled := true |>)
            else e1 in
  x_started e2 = x_started e /\ view (x_tools e2) = List.filter (fun g => g.1 <>b id) (view (x_tools e)).
Proof.
  intros Hin Hi <-. cbv zeta. rewrite <- (view_complete e i t _ Hin Hi (eq_refl : executing (complete_with r t <| t_cancelFunc := false |>) = false)).
  destruct (_ && _ && _); [|done]. split; [done|]. apply view_complete_queued.
Qed.

Lemma finish_moves id r b e out :
  wf e out -> good id (result_id id r) -> still e (finish cfg id r b e) \/ moves (OpFinish id r b) e (finish cfg id r b e).
Proof.
  intros Hwf Hgood.
  assert (Hno : (forall t, t ∈ x_tools e -> t_ID t = id -> executing t = false) -> moves (OpFinish id r b) e e).
  { intros Ha. exists e. split; [done|]. split; [|by apply begins_none]. symmetry. by apply view_absent. }
  unfold finish. destruct (x_discard e || _) eqn:Ex.
  { right. apply orb_true_iff in Ex as [Hd|Hc].
    - apply Hno. rewrite (wf_discard _ _ Hwf Hd). intros t Ht. by apply elem_of_nil in Ht.
    - apply negb_true_iff, bool_decide_eq_false in Hc. exists e. split; [done|].
      rewrite (view_uncommitted _ _ Hwf Hc). split; [done|by apply begins_none]. }
  apply orb_false_iff in Ex as [Ed Ec]. apply negb_false_iff, bool_decide_eq_true in Ec.
  destruct (x_index e !! id) as [idx|] eqn:Eidx; cbn [option_bind mbind].
  2:{ right. apply Hno. intros t [i Hi]%list_elem_of_lookup Hid.
      assert (x_index e !! id = Some i) as Hx by (apply (wf_index _ _ Hwf); by exists t). congruence. }
  apply (wf_index _ _ Hwf) in Eidx as (t & Ht & Hid). rewrite Ht. cbn [fmap option_fmap option_map].
  pose proof (wf_index _ _ Hwf) as Hin.
  destruct (_ || _) eqn:E.
  { right. apply Hno. intros u [j Hj]%list_elem_of_lookup Hid'. assert (j = idx) as -> by (eapply (indexed_inj e); [done..|congruence]).
    rewrite Ht in Hj. injection Hj as <-. pose proof (wf_status _ _ Hwf) as Hst. eapply Forall_lookup_1 in Hst; [|exact Ht].
    unfold status_ok in Hst. unfold executing. destruct (t_Status t); try done. by rewrite Hst in E. }
  apply orb_false_iff in E as [_ Ey]. fold (yielded t) in Ey. destruct b; cbn [andb negb].
  - left. set (e0 := interruptRemainingLocked cfg e). pose proof (interrupt_settles _ _ Hwf) as H0. fold e0 in H0.
    pose proof (interrupt_halts _ _ Hwf) as Hh. fold e0 in Hh.
    destruct (Forall2_lookup_l _ _ _ _ _ (sf_tools _ _ H0) Ht) as (t0 & Ht0 & [(Hid0 & Hc0 & _) Hs0]). rewrite Ht0.
    destruct (t_Result t0 <>b None); [split; [done|apply H0]|].
    assert (Hcom0 : x_commitState e0 = toolCommitCommitted) by (destruct (sf_commit _ _ H0) as [|(? & _)]; congruence).
    assert (Hy0 : yielded t0 = false).
    { unfold yielded in *. destruct Hs0 as [[-> _]|(_ & -> & _)]; done. }
    destruct (finish_store id idx t0 (finished_result id (t_ToolCall t0) r) e0 out) as [H1 _];
      [by eapply wf_settled|done..|congruence|by rewrite finished_result_id|].
    unfold finished_result in H1. pose proof (halted_settled _ _ H1 Hh) as [Hh2 Hs2].
    rewrite halted_start by exact Hh2. split; [exact Hh2|]. rewrite Hs2. apply H0.
  - right. rewrite Ht. cbn [andb]. destruct (finish_store_view id idx t (finished_result id (t_ToolCall t) r) e Hin Ht Hid) as [H1 H2].
    unfold finished_result in *. eexists. split; [exact H1|]. split; [exact H2|apply begins_start].
Qed.
Lemma AddTool_begins tc m e out : wf e out -> begins e (AddTool cfg tc m e).
Proof.
  intros Hwf. unfold AddTool. destruct (x_discard e || _) eqn:E; [by apply begins_none|].
  apply orb_false_iff in E as [Ed Ep]. apply negb_false_iff, bool_decide_eq_true in Ep.
  pose proof (wf_AddTool e out tc m Hwf) as Hwf'. unfold AddTool in Hwf'. rewrite Ed, Ep in Hwf'. cbn in Hwf'.
  assert (Hv : view (x_tools e) = []) by (eapply view_uncommitted; [done|congruence]).
  rewrite (bool_decide_eq_true_2 (toolCommitPending = _)) in Hwf' by done. cbn [negb] in Hwf'.
  destruct tc as [tc|]; [|by apply begins_none]. destruct (toolCallKey tc ==b []); [by apply begins_none|].
  destruct (x_index e !! toolCallKey tc); apply begins_none; try done; rewrite Hv;
    (eapply view_uncommitted; [exact Hwf'|]; cbn; congruence).
Qed.

Lemma Remaining_begins d e :
  x_commitState e = toolCommitCommitted -> orderly (OpGetRemaining d) e -> begins e (GetRemainingResults cfg d e).1.
Proof.
  intros Ec Ho. unfold GetRemainingResults. destruct (x_discard e); [by apply begins_none|].
  unfold settle_commit. rewrite Ec, Ec. rewrite bool_decide_eq_false_2 by done.
  destruct d; [|destruct (hasExecute cfg); [apply begins_wait|by apply begins_ready, begins_none]].
  assert (Hb : begins e (synthesizeCancelBehaviorLocked cfg interrupted_text e)).
  { apply begins_none; [done|]. cbn. apply view_map, Forall_forall. intros t Ht. unfold cancel_tool.
    destruct (cancels cfg t) eqn:Ecan; [|done]. split; [|done]. destruct (executing t) eqn:Ex; [|done].
    by rewrite (Ho Ec t Ht Ex) in Ecan. }
  destruct (allSettledLocked _); [by apply begins_ready|done].
Qed.

Lemma perform_moves o e out :
  wf e out -> op_good o -> orderly o e -> still e (perform cfg o e).1 \/ moves o e (perform cfg o e).1.
Proof.
  intros Hwf Hg Ho.
  assert (Hst : stops o e -> still e (perform cfg o e).1) by by eapply stops_still.
  destruct o as [tc m|d|m|id r err|id r b| |d|d| |]; cbn [perform fst]; try (left; by apply Hst).
  - right. apply moves_stay; [done|]. by eapply AddTool_begins.
  - destruct d.
    { destruct (x_commitState e) eqn:Ec; [left; by apply Hst|..]; right; apply moves_stay; try done;
        unfold commit; rewrite Ec; destruct (x_discard e); by apply begins_none. }
    right. apply moves_stay; [done|]. unfold commit. destruct (_ || _); [by apply begins_none|].
    case_bool_decide; [by apply begins_none|]. cbn [fst].
    destruct (deferExecution cfg); [by apply begins_none|].
    eapply begins_trans; [|apply begins_start]. by apply begins_none.
  - destruct (x_commitState e) eqn:Ec; [left; by apply Hst|..]; right; apply moves_stay; try done;
      unfold rejectPending, rejectPendingLocked; rewrite Ec; destruct (x_discard e); by apply begins_none.
  - right. apply moves_stay; [done|]. cbn [orderly] in Ho. unfold Complete. destruct (_ || _); [by apply begins_none|].
    destruct (x_index e !! id) as [idx|] eqn:Eidx; cbn [option_bind mbind]; [|by apply begins_none].
    apply (wf_index _ _ Hwf) in Eidx as (t & Ht & Hid). cbn. rewrite Ht. cbn. destruct (_ || _); [by apply begins_none|].
    eapply begins_trans; [|apply begins_start]. apply begins_none; [done|].
    change (view (<[idx := complete_with (newToolResult id (fn_Name (tc_Function (t_ToolCall t))) r err) t]> (x_tools e)) = view (x_tools e)).
    rewrite (view_complete e idx t) by (done || by eapply wf_index). apply view_absent. by rewrite Hid.
  - by eapply finish_moves.
  - right. apply moves_stay; [done|]. unfold GetCompleted. case_bool_decide; [by apply begins_none|].
    by apply begins_collect, begins_none.
  - destruct (x_commitState e) eqn:Ec; [left; by apply Hst|..]; right; apply moves_stay; try done.
    2:{ enough (begins e (GetRemainingResults cfg d e).1) as H by by destruct (GetRemainingResults cfg d e).
        unfold GetRemainingResults. destruct (x_discard e); [by apply begins_none|].
        unfold settle_commit. rewrite Ec, Ec. cbn. by apply begins_ready, begins_none. }
    pose proof (Remaining_begins d e Ec Ho) as H. by destruct (GetRemainingResults cfg d e).
  - destruct d; [left; by apply Hst|]. destruct (x_commitState e) eqn:Ec; [left; by apply Hst|..]; right; apply moves_stay; try done;
      enough (begins e (GetRemainingResultsContext cfg false e).1) as H by (by destruct (GetRemainingResultsContext cfg false e));
      unfold GetRemainingResultsContext; (destruct (x_discard e); [by apply begins_none|]); unfold settle_commit; rewrite Ec, Ec.
    + rewrite bool_decide_eq_false_2 by done. destruct (hasExecute cfg); [apply begins_wait|by apply begins_ready, begins_none].
    + cbn. by apply begins_ready, begins_none.
Qed.

(** ** The goroutines of a run *)

Definition safe_of (e : executor) (id : bytes) : bool :=
  match x_index e !! id ≫= (x_tools e !!.) with Some t => t_IsConcurrencySafe t | None => false end.

(** The goroutines that an operation starts. *)
Definition started_by (e e' : executor) : list (bytes * bool) :=
  (fun id => (id, safe_of e' id)) <$> drop (length (x_started e)) (x_started e').

(** The goroutines that run after the operations: each runs from the start of its
    tool until its [finish]. *)
Fixpoint goroutines (os : list operation) (e : executor) (live : list (bytes * bool)) : list (bytes * bool) :=
  match os with
  | [] => live
  | o :: os =>
      let e' := (perform cfg o e).1 in
      goroutines os e' (List.filter (goes_on o) live ++ started_by e e')
  end.

Fixpoint all_orderly (os : list operation) (e : executor) : Prop :=
  match os with
  | [] => True
  | o :: os => orderly o e /\ all_orderly os (perform cfg o e).1
  end.

Lemma started_by_none e e' : x_started e' = x_started e -> started_by e e' = [].
Proof. intros Hs. unfold started_by. by rewrite Hs, drop_all. Qed.

Lemma started_by_new e e' new rest out :
  wf e' out -> x_started e' = x_started e ++ new.*1 -> view (x_tools e') ≡ₚ rest ++ new -> started_by e e' = new.
Proof.
  intros Hwf Hs Hv. unfold started_by. rewrite Hs, drop_app_length, <- list_fmap_compose.
  rewrite <- (list_fmap_id new) at 2. apply list_fmap_ext. intros k g Hk. cbn.
  assert (g ∈ view (x_tools e')) as (t & [i Hi]%list_elem_of_lookup & _ & ->)%elem_of_view.
  { rewrite Hv. apply elem_of_app. right. by eapply list_elem_of_lookup_2. }
  cbn. unfold safe_of. assert (x_index e' !! t_ID t = Some i) as -> by (apply (wf_index _ _ Hwf); by exists t).
  cbn. by rewrite Hi.
Qed.

Lemma filter_perm {A} (f : A -> bool) l l' : l ≡ₚ l' -> List.filter f l ≡ₚ List.filter f l'.
Proof.
  induction 1 as [|x l l' _ IH|x y l|l1 l2 l3 _ IH1 _ IH2]; cbn; [done| | |by rewrite IH1].
  - destruct (f x); [by constructor|done].
  - destruct (f x), (f y); [apply perm_swap|done..].
Qed.

Lemma group_ok_perm l l' : l ≡ₚ l' -> group_ok l -> group_ok l'.
Proof.
  intros Hp [->|[Hf Hn]]; [left; by apply Permutation_singleton_l in Hp|right]. rewrite <- Hp. by split.
Qed.

Lemma group_ok_filter (f : bytes * bool -> bool) l : group_ok l.*2 -> group_ok (List.filter f l).*2.
Proof.
  intros [Hl|[Hf Hn]].
  - destruct l as [|g [|]]; try done. cbn. destruct (f g); [by left|apply group_ok_nil].
  - right. split.
    + rewrite Forall_fmap, Forall_forall in *. intros g Hg%list_elem_of_In. apply filter_In in Hg as [Hg _].
      by apply Hf, list_elem_of_In.
    + rewrite length_fmap in *. pose proof (List.filter_length_le f l). lia.
Qed.

(** Once the executor is halted, goroutines only end; until then, they are the
    tools that are executing. *)
Lemma goroutines_group os e live out :
  wf e out -> Forall op_good os -> all_orderly os e -> group_ok live.*2 -> halted e \/ live ≡ₚ view (x_tools e) ->
  group_ok (goroutines os e live).*2.
Proof.
  revert e live out. induction os as [|o os IH]; intros e live out Hwf Hos Hor Hg Hl; [done|].
  apply Forall_cons in Hos as [Ho Hos]. destruct Hor as [Hor1 Hor]. cbn [goroutines].
  pose proof (wf_perform o e out Hwf Ho) as Hwf'. set (e' := (perform cfg o e).1) in *.
  assert (Hstill : still e e' -> group_ok (goroutines os e' (List.filter (goes_on o) live ++ started_by e e')).*2).
  { intros [Hh Hs]. rewrite (started_by_none _ _ Hs), app_nil_r. eapply IH; [done..| |by left]. by apply group_ok_filter. }
  destruct Hl as [Hh|Hl]; [by eapply Hstill, still_perform|].
  destruct (perform_moves o e out Hwf Ho Hor1) as [|(e1 & Hs1 & Hv1 & new & Hs & Hv)]; [by apply Hstill|]. fold e' in Hs, Hv.
  rewrite Hs1 in Hs. rewrite (started_by_new e e' new _ _ Hwf' Hs Hv).
  assert (List.filter (goes_on o) live ++ new ≡ₚ view (x_tools e')) as Hp.
  { rewrite Hv, Hv1. apply Permutation_app_tail. by apply filter_perm. }
  eapply IH; [done..| |by right]. eapply group_ok_perm; [apply fmap_Permutation; symmetry; exact Hp|].
  rewrite view_running. by eapply wf_group.
Qed.
End good.

Lemma perform_all_app cfg os os' e out :
  perform_all cfg (os ++ os') e out = perform_all cfg os' (perform_all cfg os e out).1 (perform_all cfg os e out).2.
Proof.
  revert e out. induction os as [|o os IH]; intros e out; [done|]. cbn. destruct (perform cfg o e). apply IH.
Qed.

Definition any (_ _ : bytes) : Prop := True.

Lemma ops_good os : Forall (op_good any) os.
Proof. apply Forall_true. by intros []. Qed.

Lemma wf_any cfg os : wf cfg any (run cfg os).1 (run cfg os).2.
Proof. apply wf_run; [done|apply ops_good]. Qed.

(** ** Properties *)

Section properties.
Context (cfg : config).

(** C29: the goroutines that run tools at the same time are either the one of a tool
    that is not safe to run with others, or those of safe tools, at most as many as
    configured; a goroutine runs from the start of its tool until it calls
    [finish], also after the turn was interrupted or discarded.  This needs that
    [Complete] is not called for an executing tool and that a committed executor is
    not asked for its results with a done context while it runs a tool that it
    would cancel; no code of the repository outside tests does either.  Without
    conditions, no tool is started twice, none before the calls are committed, and
    at most such a group of tools is marked as executing. *)
Theorem executor_isolates os :
  let e := (run cfg os).1 in
  let alone_or_safe (group : list (bytes * bool)) :=
    (exists id, group = [(id, false)]) \/
    (Forall (fun g => g.2 = true) group /\ Z.of_nat (length group) <= Z.max 1 (maxConcurrency cfg)) in
  (all_orderly cfg os NewStreamingToolExecutor -> alone_or_safe (goroutines cfg os NewStreamingToolExecutor [])) /\
  alone_or_safe (view (x_tools e)) /\
  NoDup (x_started e) /\
  (x_commitState e <> toolCommitCommitted -> x_started e = []).
Proof.
  cbv zeta. pose proof (wf_any cfg os) as Hwf.
  assert (Hgr : forall group : list (bytes * bool), group_ok cfg group.*2 ->
    (exists id, group = [(id, false)]) \/
    (Forall (fun g => g.2 = true) group /\ Z.of_nat (length group) <= Z.max 1 (maxConcurrency cfg))).
  { intros group [H|[H1 H2]]; [left|right].
    - destruct group as [|[id b] [|]]; try done. exists id. by injection H as ->.
    - rewrite length_fmap in H2. split; [|done]. by rewrite Forall_fmap in H1. }
  split; [|split; [|split]].
  - intros Hor. apply Hgr. eapply (goroutines_group cfg any); [done|apply wf_New|apply ops_good|exact Hor|apply group_ok_nil|by right].
  - apply Hgr. rewrite view_running. by eapply wf_group.
  - apply (wf_started _ _ _ _ Hwf).
  - intros Hc. by apply (wf_commit _ _ _ _ Hwf).
Qed.

(** C30: the results that all operations together give back are those of the first
    calls in the order of the model, each of them once. *)
Theorem results_in_order os :
  let '(e, out) := run cfg os in
  x_discard e = true \/
  exists n, out = omap t_Result (take n (x_tools e)) /\ length out = n /\
    Forall (fun t => t_Status t = toolStatusYielded) (take n (x_tools e)) /\
    Forall (fun t => t_Status t <> toolStatusYielded) (drop n (x_tools e)).
Proof.
  pose proof (wf_any cfg os) as Hwf. destruct (run cfg os) as [e out]. cbn [fst snd] in Hwf.
  destruct (x_discard e) eqn:Ed; [by left|right].
  destruct (wf_order _ _ _ _ Hwf Ed) as (n & (Hn & Ht & Hd) & ->). exists n. split; [done|]. split_and!.
  - pose proof (wf_status _ _ _ _ Hwf) as Hst. apply (Forall_take _ n) in Hst.
    assert (length (take n (x_tools e)) = n) as Hl by (rewrite length_take; lia). rewrite <- Hl at 2. clear Hl Hd Hn Hwf.
    revert Hst Ht. induction (take n (x_tools e)) as [|t l IH]; [done|]. intros [H1 H2]%Forall_cons [H3 H4]%Forall_cons.
    unfold yielded in H3. apply bool_decide_eq_true in H3. unfold status_ok in H1. rewrite H3 in H1. destruct H1 as [r Hr].
    cbn. rewrite Hr. cbn. f_equal. by apply IH.
  - eapply Forall_impl; [exact Ht|]. intros t Hy. by apply bool_decide_eq_true in Hy.
  - eapply Forall_impl; [exact Hd|]. intros t Hy. by apply bool_decide_eq_false in Hy.
Qed.

(** C31: an interrupt, the discarding of the executor, the rejection of its calls and
    a [Bash] call that runs and ends with an error start no tool, and no tool is
    started any more after them, whatever operations follow.  (A [Bash] call that
    is answered with an error by [Complete] does not stop the others.) *)
Theorem nothing_starts_after_stop os o os' :
  stops o (run cfg os).1 ->
  x_started (run cfg (os ++ [o] ++ os')).1 = x_started (run cfg os).1.
Proof.
  intros Hs. pose proof (wf_any cfg os) as Hwf. unfold run in *. rewrite perform_all_app.
  set (p := perform_all cfg os _ _) in *. cbn [app perform_all].
  assert (Hg : op_good any o) by by destruct o.
  pose proof (wf_perform cfg any ltac:(done) o _ _ Hwf Hg) as Hwf'.
  destruct (stops_still cfg any ltac:(done) o _ _ Hwf Hg Hs) as [Hh Hst]. destruct (perform cfg o p.1) as [e r]. cbn [fst snd] in *.
  destruct (still_perform_all cfg any ltac:(done) os' e _ Hwf' (ops_good os') Hh) as [_ H]. congruence.
Qed.
End properties.

(** ** A committed round *)

Section round.
Context (cfg : config) (worker : executor -> bytes * ToolResult * bool).

(** The worker ends a tool that runs, with a result of that call. *)
Definition works : Prop := forall e,
  running (x_tools e) <> [] ->
  let '(id, r, _) := worker e in
  result_id id r = id /\ exists t, t ∈ x_tools e /\ executing t = true /\ t_ID t = id.

Definition keys (e : executor) : list bytes := t_ID <$> x_tools e.

(** An executor with its invariant, before any result was given back, where a
    result has the identity of its call. *)
Definition holds (ids : list bytes) (e : executor) : Prop := wf cfg eq e [] /\ x_discard e = false /\ keys e = ids.

Definition committed (ids : list bytes) (e : executor) : Prop := holds ids e /\ x_commitState e = toolCommitCommitted.

Lemma holds_settled ids e e' : holds ids e -> settled_from eq e e' -> holds ids e'.
Proof.
  intros (Hwf & Hd & Hk) H. pose proof (sf_discard _ _ _ H). split_and!; [by eapply wf_settled|congruence|].
  rewrite <- Hk. unfold keys. eapply settles_ids. by apply sf_tools.
Qed.

Lemma committed_settled ids e e' : committed ids e -> settled_from eq e e' -> committed ids e'.
Proof.
  intros [H Hc] Hs. split; [by eapply holds_settled|]. destruct (sf_commit _ _ _ Hs) as [|(? & _)]; congruence.
Qed.

Lemma starts_keys e e' : starts cfg e e' -> keys e' = keys e.
Proof. induction 1 as [|e i t e' Hi Hq Hc _ IH]; [done|]. rewrite IH. by apply start_ids. Qed.

Lemma committed_start ids force e :
  committed ids e -> committed ids (startRunnableLocked cfg force e) /\
  unsettled (x_tools (startRunnableLocked cfg force e)) = unsettled (x_tools e).
Proof.
  intros [(Hwf & Hd & Hk) Hc]. destruct (startRunnable_starts cfg force e) as [-> |(_ & _ & Hs)]; [done|].
  destruct (starts_keeps _ _ _ Hs) as (H1 & _ & H3 & H4 & _). split; [|done].
  split; [|congruence]. split_and!; [by eapply wf_starts|congruence|]. rewrite <- Hk. by apply starts_keys.
Qed.

(** When every tool is settled, all results come at once, in order. *)
Lemma collect_settled l :
  Forall status_ok l -> Forall (tool_named eq) l -> Forall (fun t => yielded t = false) l ->
  forallb (fun t => negb (queued t) && negb (executing t)) l = true ->
  r_ToolCallID <$> (collect l).1 = t_ID <$> l.
Proof.
  intros Hst Hna Hy Hset. induction l as [|t l IH]; [done|]. cbn [collect forallb] in *.
  apply andb_true_iff in Hset as [Ht Hset]. apply Forall_cons in Hst as [Hst1 Hst], Hna as [[_ Hn1] Hna], Hy as [Hy1 Hy].
  specialize (IH Hst Hna Hy Hset). destruct (collect l) as [rs l']. fold (yielded t). rewrite Hy1. cbn [fst] in IH.
  apply andb_true_iff in Ht as [Hq He]. unfold status_ok, yielded, queued, executing in *.
  destruct (t_Status t); try done. destruct Hst1 as [r Hr]. rewrite Hr. cbn. rewrite <- IH, (Hn1 r Hr). done.
Qed.

Lemma collect_all ids e :
  holds ids e -> allSettledLocked e = true -> r_ToolCallID <$> (collectReadyResultsLocked e).2 = ids.
Proof.
  intros (Hwf & Hd & <-) Hset. pose proof (wf_status _ _ _ _ Hwf) as Hst.
  destruct (wf_order _ _ _ _ Hwf Hd) as (n & (Hn & Ht & Hny) & Hout).
  assert (n = 0%nat) as ->.
  { destruct n; [done|]. destruct (x_tools e) as [|t l]; [cbn in Hn; lia|]. cbn in Ht, Hout.
    apply Forall_cons in Ht as [Hy _]. apply Forall_cons in Hst as [Hst _]. unfold status_ok in Hst.
    unfold yielded in Hy. apply bool_decide_eq_true in Hy. rewrite Hy in Hst. destruct Hst as [r Hr]. by rewrite Hr in Hout. }
  pose proof (collect_settled _ Hst (wf_named _ _ _ _ Hwf) Hny Hset) as H. unfold collectReadyResultsLocked, keys.
  by destruct (collect (x_tools e)).
Qed.

Lemma holds_ready ids e :
  holds ids e -> allSettledLocked e = true ->
  exists results, (let '(e, r) := collectReadyResultsLocked e in (e, Some r)).2 = Some results /\ r_ToolCallID <$> results = ids.
Proof. intros H Hs. pose proof (collect_all _ _ H Hs). destruct (collectReadyResultsLocked e) as [e' r]. by exists r. Qed.

Hypothesis worker_works : works.

(** A finished tool is settled; the rest does not get worse. *)
Lemma worker_finish ids e :
  committed ids e -> running (x_tools e) <> [] ->
  let '(id, r, b) := worker e in
  committed ids (finish cfg id r b e) /\ (unsettled (x_tools (finish cfg id r b e)) < unsettled (x_tools e))%nat.
Proof.
  intros H Hrun. pose proof (worker_works e Hrun) as Hw. destruct (worker e) as [[id r] b].
  destruct Hw as (Hid & t & Ht & Hex & Htid). pose proof H as [(Hwf & Hd & _) Hc].
  destruct (finish_settles cfg eq ltac:(done) id r b e [] Hwf (eq_sym Hid)) as (e1 & H1 & H2 & H3).
  pose proof (committed_settled _ _ _ H H1) as Hc1. apply list_elem_of_lookup in Ht as [i Hi].
  destruct (H3 i t Hd Hc Hi Htid Hex) as (t' & Hi' & Hset).
  assert (settled t = false) as Hns by (unfold settled; rewrite Hex; by destruct (queued t)).
  pose proof (settles_unsettled_lt _ _ _ _ _ _ (sf_tools _ _ _ H1) Hi Hi' Hns Hset) as Hlt.
  destruct H2 as [-> | ->]; [done|]. destruct (committed_start _ false _ Hc1) as [? ->]. done.
Qed.

Lemma wait_loop_answers fuel ids e :
  hasExecute cfg = true -> committed ids e -> (unsettled (x_tools e) <= fuel)%nat ->
  exists results, wait_loop cfg worker fuel (wait_round cfg e) = Some results /\ r_ToolCallID <$> results = ids.
Proof.
  intros He. revert e. induction fuel as [|fuel IH]; intros e H Hf; unfold wait_round.
  all: destruct (committed_start _ true _ H) as [H1 Hu]; pose proof H as [(_ & Hd & _) Hc].
  all: destruct (allSettledLocked _) eqn:Es; [destruct (holds_ready _ _ (proj1 H1) Es) as (rs & Hrs & Hids);
    destruct (collectReadyResultsLocked _); injection Hrs as ->; by exists rs|].
  all: pose proof (wait_round_runs _ _ He Hd Hc Es) as Hrun; pose proof (worker_finish _ _ H1 Hrun) as Hw;
    cbn [wait_loop]; destruct (worker _) as [[id r] b]; destruct Hw as [H2 Hlt].
  - lia.
  - apply IH; [done|lia].
Qed.

(** ** Registering *)

Lemma add_calls_keys calls e :
  wf cfg eq e [] -> x_commitState e = toolCommitPending -> x_discard e = false ->
  Forall (fun tc => toolCallKey tc <> []) calls -> NoDup (keys e ++ (toolCallKey <$> calls)) ->
  let e' := add_calls cfg calls e in
  holds (keys e ++ (toolCallKey <$> calls)) e' /\ x_commitState e' = toolCommitPending.
Proof.
  cbv zeta. intros Hwf Hc Hd Hk. revert e Hwf Hc Hd. induction Hk as [|tc calls Htc _ IH]; intros e Hwf Hc Hd Hn.
  { cbn. rewrite app_nil_r. done. }
  cbn [fmap list_fmap] in *. assert (x_index e !! toolCallKey tc = None) as Hnew.
  { destruct (x_index e !! toolCallKey tc) as [i|] eqn:Ei; [|done]. exfalso.
    apply (wf_index _ _ _ _ Hwf) in Ei as (t & Ht & Hid). apply NoDup_app in Hn as (_ & Hn & _).
    apply (Hn (toolCallKey tc)); [|by left]. unfold keys. rewrite <- Hid. apply list_elem_of_fmap_2.
    by eapply list_elem_of_lookup_2. }
  set (e1 := AddTool cfg (Some tc) None e).
  assert (keys e1 = keys e ++ [toolCallKey tc] /\ x_commitState e1 = toolCommitPending /\ x_discard e1 = false) as (H1 & H2 & H3).
  { unfold e1, AddTool. rewrite Hd, Hc. cbn [orb]. rewrite (bool_decide_eq_true_2 (toolCommitPending = _)) by done. cbn [negb].
    cbv zeta. rewrite bool_decide_eq_false_2, Hnew by done. split_and!; [|done..]. unfold keys. cbn. by rewrite fmap_app. }
  specialize (IH e1 (wf_AddTool _ _ _ _ _ _ Hwf) H2 H3). rewrite H1, <- app_assoc in IH. by apply IH.
Qed.

Lemma unsettled_length l : (unsettled l <= length l)%nat.
Proof. unfold unsettled. apply List.filter_length_le. Qed.

(** Rejecting settles everything. *)
Lemma reject_settled_all ids e :
  holds ids e -> x_commitState e = toolCommitPending ->
  let e' := (rejectPendingLocked interrupted_text e).1 in
  holds ids e' /\ allSettledLocked e' = true /\ x_discard e' = false /\ x_commitState e' = toolCommitRejected.
Proof.
  intros H Hc. cbv zeta. pose proof H as (Hwf & Hd & _).
  pose proof (holds_settled _ _ _ H (reject_settles cfg eq ltac:(done) interrupted_text e [] Hwf)) as H1.
  split; [done|]. unfold rejectPendingLocked. rewrite Hd, Hc. cbn [orb].
  rewrite (bool_decide_eq_true_2 (toolCommitPending = toolCommitPending)) by done. cbn [negb fst]. split_and!; [|done..].
  unfold allSettledLocked. cbn. apply forallb_elem_of. intros t (u & -> & _)%list_elem_of_fmap. unfold reject_tool.
  case_bool_decide as Hs; [|done]. unfold queued, executing. by rewrite Hs.
Qed.

(** C28: a committed round of calls with distinct identities returns, after at most
    as many completions as there are calls and whatever order the tools end in,
    with exactly one result for every call, in the order of the model; so it does
    when the turn is interrupted before or after the commit. *)
Theorem round_answers_all doneAtCommit doneAtWait fuel calls :
  hasExecute cfg = true -> Forall (fun tc => toolCallKey tc <> []) calls -> NoDup (toolCallKey <$> calls) ->
  (length calls <= fuel)%nat ->
  exists results, ExecuteCommittedToolCalls cfg worker fuel doneAtCommit doneAtWait calls = Some results /\
    r_ToolCallID <$> results = toolCallKey <$> calls.
Proof.
  intros He Hk Hn Hf. destruct (add_calls_keys calls NewStreamingToolExecutor (wf_New _ _) eq_refl eq_refl Hk Hn) as [H Hc].
  cbn [app keys] in H. change (holds (toolCallKey <$> calls) (add_calls cfg calls NewStreamingToolExecutor)) in H.
  set (ids := toolCallKey <$> calls) in *. unfold ExecuteCommittedToolCalls. set (e := add_calls _ _ _) in *.
  pose proof H as (Hwf & Hd & Hkeys). unfold commit. rewrite Hd, Hc. cbn [orb].
  rewrite (bool_decide_eq_false_2 (toolCommitPending = toolCommitRejected)),
    (bool_decide_eq_false_2 (toolCommitPending = toolCommitCommitted)) by done.
  destruct doneAtCommit; cbn [negb].
  - destruct (reject_settled_all ids e H Hc) as (H1 & Hs & Hd1 & Hc1).
    unfold GetRemainingResults, settle_commit. rewrite Hd1, Hc1. rewrite bool_decide_eq_true_2 by done. by apply holds_ready.
  - set (e1 := if deferExecution cfg then _ else _).
    assert (committed ids e1 /\ (unsettled (x_tools e1) <= fuel)%nat) as [H1 Hu].
    { assert (committed ids (e <| x_commitState := toolCommitCommitted |>)) as Hcom.
      { split; [|done]. split_and!; [by apply wf_committed|done|done]. }
      assert (unsettled (x_tools e) <= fuel)%nat as Hu.
      { etransitivity; [apply unsettled_length|]. rewrite <- (length_fmap t_ID (x_tools e)). fold (keys e). rewrite Hkeys.
        unfold ids. by rewrite length_fmap. }
      unfold e1. destruct (deferExecution cfg); [done|].
      destruct (committed_start _ false _ Hcom) as [? ->]. done. }
    clearbody e1. unfold GetRemainingResultsContext. pose proof H1 as [(Hwf1 & -> & _) Hc1].
    assert (settle_commit doneAtWait e1 = e1) as -> by (unfold settle_commit; by rewrite Hc1).
    rewrite Hc1, (bool_decide_eq_false_2 (toolCommitCommitted = _)), He by done. cbn [negb].
    set (e2 := if doneAtWait then _ else _).
    assert (committed ids e2 /\ (unsettled (x_tools e2) <= fuel)%nat) as [H2 Hu2].
    { unfold e2. destruct doneAtWait; [|done]. pose proof (interrupt_settles cfg eq ltac:(done) _ _ Hwf1) as Hs.
      split; [by eapply committed_settled|]. pose proof (settles_unsettled _ _ _ (sf_tools _ _ _ Hs)). lia. }
    by apply wait_loop_answers.
Qed.
End round.

(** ** Examples *)

Module Example_executor.

Definition call (id name args : string) : ToolCall := {|
  tc_ID := lit id; tc_Type := []; tc_Function := {| fn_Name := lit name; fn_Arguments := lit args |};
  tc_Extra := ∅ |}.

Definition cfg : config := {|
  hasExecute := true; isSafe := Some (fun tc => Some (fn_Name (tc_Function tc) ==b lit "Read")); maxConcurrency := 2;
  deferExecution := false; getInterruptBehavior := Some (fun _ => lit "block"); hasOnInterrupt := false;
  json_valid := fun _ => true |}.

Definition answer (isError : bool) (name : bytes) : ToolResult := newToolResult [] name (lit "done") isError.

(** The first tool that runs ends next. *)
Definition first_running (e : executor) : bytes * ToolResult * bool :=
  match List.filter executing (x_tools e) with
  | t :: _ => (t_ID t, answer false (toolNameFromCall (t_ToolCall t)), false)
  | [] => ([], answer false [], false)
  end.

Lemma first_running_works : works first_running.
Proof.
  intros e Hrun. unfold first_running, running in *. destruct (List.filter executing (x_tools e)) as [|t l] eqn:E; [done|].
  split; [done|]. exists t. assert (t ∈ List.filter executing (x_tools e)) as Hin by (rewrite E; by left).
  apply list_elem_of_In, filter_In in Hin as [H1 H2]. split_and!; [by apply list_elem_of_In|done|done].
Qed.

Definition three : list ToolCall := [call "a" "Read" "{1}"; call "b" "Read" "{1}"; call "c" "Write" "{1}"].

Lemma round_answers_all_witness :
  exists results, ExecuteCommittedToolCalls cfg first_running 3 false false three = Some results /\
    r_ToolCallID <$> results = toolCallKey <$> three.
Proof.
  apply round_answers_all; [apply first_running_works|reflexivity| | |reflexivity].
  - repeat constructor; discriminate.
  - apply (bool_decide_unpack _). reflexivity.
Defined.

Definition bash_fails : list operation :=
  [OpAddTool (Some (call "a" "Bash" "{1}")) None; OpAddTool (Some (call "b" "Bash" "{1}")) None; OpCommit false].

Lemma nothing_starts_after_stop_witness :
  x_started (run cfg (bash_fails ++ [OpFinish (lit "a") (answer true (lit "Bash")) false] ++ [OpGetRemaining false])).1
  = [lit "a"].
Proof.
  rewrite (nothing_starts_after_stop cfg bash_fails (OpFinish (lit "a") (answer true (lit "Bash")) false) [OpGetRemaining false]).
  - reflexivity.
  - split; [reflexivity|]. split; [reflexivity|]. eexists. split; [left|]. split; [reflexivity|]. split; [reflexivity|].
    right. split; [left; reflexivity|reflexivity].
Defined.

(** The turn is interrupted while "a" runs: its tool is cancelled, and its goroutine
    ends later. *)
Definition cancelling : config := {|
  hasExecute := true; isSafe := None; maxConcurrency := 2; deferExecution := false; getInterruptBehavior := None;
  hasOnInterrupt := false; json_valid := fun _ => true |}.
Definition interrupted_while_running : list operation :=
  [OpAddTool (Some (call "a" "Write" "{1}")) None; OpAddTool (Some (call "b" "Write" "{1}")) None; OpCommit false;
   OpInterrupt; OpGetRemainingContext true].

Lemma executor_isolates_witness :
  view (x_tools (run cancelling interrupted_while_running).1) = [] /\
  goroutines cancelling interrupted_while_running NewStreamingToolExecutor [] = [(lit "a", false)] /\
  ((exists id, goroutines cancelling interrupted_while_running NewStreamingToolExecutor [] = [(id, false)]) \/
   (Forall (fun g => g.2 = true) (goroutines cancelling interrupted_while_running NewStreamingToolExecutor []) /\
    Z.of_nat (length (goroutines cancelling interrupted_while_running NewStreamingToolExecutor [])) <= 2)).
Proof.
  split; [by vm_compute|]. split; [by vm_compute|].
  exact (proj1 (executor_isolates cancelling interrupted_while_running)
           (conj I (conj I (conj I (conj I (conj I I)))))).
Defined.

(** [Complete] for an executing tool lets the next one start while the goroutine of
    the first still runs. *)
Definition completed_while_running : list operation :=
  [OpAddTool (Some (call "a" "Write" "{1}")) None; OpAddTool (Some (call "b" "Write" "{1}")) None; OpCommit false;
   OpComplete (lit "a") (lit "done") false].

Example complete_breaks_isolation :
  goroutines cfg completed_while_running NewStreamingToolExecutor [] = [(lit "a", false); (lit "b", false)].
Proof. by vm_compute. Qed.

(** [Complete] with an error lets the next call start. *)
Example completed_bash_goes_on :
  x_started (run cfg (bash_fails ++ [OpComplete (lit "a") (lit "failed") true])).1 = [lit "a"; lit "b"].
Proof. by vm_compute. Qed.

(** [GetRemainingResults] for a cancelled context does not start tools: a tool
    that blocks interrupts and whose arguments are an empty object is never
    started, nothing runs, and the call waits. *)
Example interrupted_wait_for_nothing :
  let '(e, _) := run cfg [OpAddTool (Some (call "a" "Write" "{}")) None; OpCommit false] in
  let '(e, results) := GetRemainingResults cfg true e in
  results = None /\ List.filter executing (x_tools e) = [] /\ existsb queued (x_tools e) = true.
Proof. by vm_compute. Qed.
End Example_executor.
