(* ===== verification/GoalData.v ===== *)
(** * The goal of a session: its data and its checks

    [src/engine/goal_state.go], [src/engine/goal_validation.go] and the cursor of
    [src/engine/goal_continuation.go]: a session may have a goal, an objective
    it works towards turn after turn, with a budget of tokens.

    A [time.Time] is the number of nanoseconds since the zero time, so
    [t.IsZero()] is [t = 0].  A clone of a record is the record: values are not
    shared in the model.  The digest of a continuation is [sha256_hex] of
    [goal_identity_json], the JSON of its identity. *)

From S2P Require Import Prelude GoStrings GoBase RuntimeItem ToolSchedule.

Open Scope Z_scope.

(** ** Data *)

Inductive goalStatus :=
| goalStatusActive | goalStatusPaused | goalStatusBlocked | goalStatusUsageLimited
| goalStatusBudgetLimited | goalStatusComplete | GoalStatusOther (s : bytes).
#[export] Instance goalStatus_eq_dec : EqDecision goalStatus.
Proof. solve_decision. Defined.

Definition goalStatus_string (s : goalStatus) : bytes :=
  match s with
  | goalStatusActive => lit "active" | goalStatusPaused => lit "paused" | goalStatusBlocked => lit "blocked"
  | goalStatusUsageLimited => lit "usage_limited" | goalStatusBudgetLimited => lit "budget_limited"
  | goalStatusComplete => lit "complete" | GoalStatusOther s => s
  end.

Definition goalStatus_of (s : bytes) : goalStatus :=
  if s ==b lit "active" then goalStatusActive else
  if s ==b lit "paused" then goalStatusPaused else
  if s ==b lit "blocked" then goalStatusBlocked else
  if s ==b lit "usage_limited" then goalStatusUsageLimited else
  if s ==b lit "budget_limited" then goalStatusBudgetLimited else
  if s ==b lit "complete" then goalStatusComplete else GoalStatusOther s.

Definition knownGoalStatus (s : goalStatus) : bool :=
  match s with GoalStatusOther _ => false | _ => true end.

Definition goalReasonUserPaused : bytes := lit "user-paused".
Definition goalReasonUserCancelled : bytes := lit "user-cancelled".
Definition goalReasonColdContinuationUnavailable : bytes := lit "cold-continuation-unavailable".
Definition goalReasonUnsupportedVersion : bytes := lit "unsupported-version".
Definition goalReasonCorruptState : bytes := lit "corrupt-state".
Definition goalReasonUsageCoverageIncomplete : bytes := lit "usage-coverage-incomplete".
Definition goalReasonBudgetExhausted : bytes := lit "budget-exhausted".

Inductive goalContinuationDisposition :=
| goalContinuationDispositionPending | goalContinuationDispositionAdmitting
| goalContinuationDispositionRejected | goalContinuationDispositionDelivered
| GoalContinuationDispositionOther (s : bytes).
#[export] Instance disposition_eq_dec : EqDecision goalContinuationDisposition.
Proof. solve_decision. Defined.

Definition TerminalCompleted : bytes := lit "completed".

Record goalContinuationCursor := {
  k_Version : Z; k_ItemID : bytes; k_CheckpointID : bytes; k_ContinuationTurnID : bytes; k_GoalID : bytes;
  k_GoalSchemaVersion : Z; k_ObjectiveRevision : Z; k_GoalRevision : Z; k_GoalStatus : bytes;
  k_RootSessionID : bytes; k_RootThreadID : bytes; k_RootAgentID : bytes; k_PredecessorGoalTurnID : bytes;
  k_PredecessorTerminalSequence : Z; k_PredecessorTerminalReason : bytes; k_PredecessorTerminalAt : Z;
  k_TokenBudget : option Z; k_TokensUsed : Z; k_UsageLedgerRevision : Z; k_ContinuationOrdinal : Z;
  k_RuntimeRevision : Z; k_Disposition : goalContinuationDisposition; k_DispositionReason : bytes;
  k_DispositionAt : Z
}.
#[export] Instance cursor_eq_dec : EqDecision goalContinuationCursor.
Proof. solve_decision. Defined.
#[export] Instance eta_goalContinuationCursor : Eta goalContinuationCursor := fun x =>
  Build_goalContinuationCursor (k_Version x) (k_ItemID x) (k_CheckpointID x) (k_ContinuationTurnID x) (k_GoalID x)
    (k_GoalSchemaVersion x) (k_ObjectiveRevision x) (k_GoalRevision x) (k_GoalStatus x)
    (k_RootSessionID x) (k_RootThreadID x) (k_RootAgentID x) (k_PredecessorGoalTurnID x)
    (k_PredecessorTerminalSequence x) (k_PredecessorTerminalReason x) (k_PredecessorTerminalAt x)
    (k_TokenBudget x) (k_TokensUsed x) (k_UsageLedgerRevision x) (k_ContinuationOrdinal x)
    (k_RuntimeRevision x) (k_Disposition x) (k_DispositionReason x) (k_DispositionAt x).

Record goalUsageAdmission := {
  a_Version : Z; a_LedgerRevision : Z; a_GoalID : bytes; a_ObjectiveRevision : Z;
  a_RootSessionID : bytes; a_RootThreadID : bytes; a_RootAgentID : bytes;
  a_ExecutingSessionID : bytes; a_ExecutingThreadID : bytes; a_ExecutingAgentID : bytes;
  a_ExecutingAgentGeneration : Z; a_GoalTurnID : bytes; a_LogicalRoundID : bytes; a_LogicalRequestID : bytes;
  a_ModelAttemptID : bytes; a_ModelAttemptIndex : Z; a_ModelProfile : bytes; a_ModelRetryIndex : Z;
  a_ProviderCallID : bytes; a_AdmittedAt : Z
}.
#[export] Instance admission_eq_dec : EqDecision goalUsageAdmission.
Proof. solve_decision. Defined.

(** The persisted cursor and the persisted admission have the fields of the
    cursor and of the admission, so the conversions between them are the
    identity.  (The text of an admission of version 1, kept aside by the JSON
    decoder so that it can be written back, is not modelled.) *)
Record PersistedGoalState := {
  p_Version : Z; p_GoalID : bytes; p_Objective : bytes; p_ObjectiveRevision : Z; p_Status : bytes;
  p_StatusReasonCode : bytes; p_StatusReason : bytes; p_Revision : Z; p_TokenBudget : option Z;
  p_TokensUsed : Z; p_UsageLedgerRevision : Z; p_RootActiveTimeMillis : Z; p_ContinuationOrdinal : Z;
  p_Continuation : option goalContinuationCursor; p_LastGoalTurnID : bytes; p_LastTerminalSequence : Z;
  p_PendingCompleteTurnID : bytes; p_PendingCompleteObjectiveRevision : Z;
  p_PendingUsageAdmission : option goalUsageAdmission; p_BlockerKey : bytes; p_BlockerTurnIDs : list bytes;
  p_CreatedAt : Z; p_UpdatedAt : Z; p_invalidEncoding : bool; p_rawEncoding : bytes
}.
#[export] Instance persisted_eq_dec : EqDecision PersistedGoalState.
Proof. solve_decision. Defined.
#[export] Instance eta_PersistedGoalState : Eta PersistedGoalState := fun x =>
  Build_PersistedGoalState (p_Version x) (p_GoalID x) (p_Objective x) (p_ObjectiveRevision x) (p_Status x)
    (p_StatusReasonCode x) (p_StatusReason x) (p_Revision x) (p_TokenBudget x)
    (p_TokensUsed x) (p_UsageLedgerRevision x) (p_RootActiveTimeMillis x) (p_ContinuationOrdinal x)
    (p_Continuation x) (p_LastGoalTurnID x) (p_LastTerminalSequence x)
    (p_PendingCompleteTurnID x) (p_PendingCompleteObjectiveRevision x)
    (p_PendingUsageAdmission x) (p_BlockerKey x) (p_BlockerTurnIDs x)
    (p_CreatedAt x) (p_UpdatedAt x) (p_invalidEncoding x) (p_rawEncoding x).

Record goalState := {
  g_GoalID : bytes; g_Objective : bytes; g_ObjectiveRevision : Z; g_Status : goalStatus;
  g_StatusReasonCode : bytes; g_StatusReason : bytes; g_Revision : Z; g_TokenBudget : option Z;
  g_TokensUsed : Z; g_UsageLedgerRevision : Z; g_RootActiveTimeMillis : Z; g_ContinuationOrdinal : Z;
  g_Continuation : option goalContinuationCursor; g_LastGoalTurnID : bytes; g_LastTerminalSequence : Z;
  g_PendingCompleteTurnID : bytes; g_PendingCompleteObjectiveRevision : Z;
  g_PendingUsageAdmission : option goalUsageAdmission; g_BlockerKey : bytes; g_BlockerTurnIDs : list bytes;
  g_CreatedAt : Z; g_UpdatedAt : Z; g_unavailable : bool;
  g_unavailablePersistedRepresentation : option PersistedGoalState
}.
#[export] Instance goalState_eq_dec : EqDecision goalState.
Proof. solve_decision. Defined.
#[export] Instance eta_goalState : Eta goalState := fun x =>
  Build_goalState (g_GoalID x) (g_Objective x) (g_ObjectiveRevision x) (g_Status x)
    (g_StatusReasonCode x) (g_StatusReason x) (g_Revision x) (g_TokenBudget x)
    (g_TokensUsed x) (g_UsageLedgerRevision x) (g_RootActiveTimeMillis x) (g_ContinuationOrdinal x)
    (g_Continuation x) (g_LastGoalTurnID x) (g_LastTerminalSequence x)
    (g_PendingCompleteTurnID x) (g_PendingCompleteObjectiveRevision x)
    (g_PendingUsageAdmission x) (g_BlockerKey x) (g_BlockerTurnIDs x)
    (g_CreatedAt x) (g_UpdatedAt x) (g_unavailable x) (g_unavailablePersistedRepresentation x).

(** ** Text *)

Inductive goal_text_error := InvalidUTF8 | EmptyText | ContainsNUL | TooLong.

Definition goalObjectiveMaxScalars : nat := Z.to_nat 4000.
Definition goalReasonMaxScalars : nat := Z.to_nat 1024.
Definition goalBlockerKeyMaxLen : nat := 128.

Definition normalizeGoalText (input : bytes) (maxScalars : nat) : result goal_text_error bytes :=
  if negb (ValidString input) then Err InvalidUTF8 else
  let normalized := TrimSpace (ReplaceAll input [CR; NL] [NL]) in
  if normalized ==b [] then Err EmptyText else
  if contains_NUL normalized then Err ContainsNUL else
  if (maxScalars <? RuneCountInString normalized)%nat then Err TooLong else Ok normalized.

Definition normalizeGoalObjective (input : bytes) : result goal_text_error bytes :=
  normalizeGoalText input goalObjectiveMaxScalars.

Definition normalizeGoalReason (input : bytes) : result goal_text_error bytes :=
  normalizeGoalText input goalReasonMaxScalars.

(** The bytes of a key: letters and digits anywhere, punctuation after the
    first. *)
Definition key_char (first : bool) (c : ascii) : bool :=
  is_lower c || is_digit c || (negb first && bool_decide (c ∈ lit "._:/-")).

Definition key_chars (key : bytes) : bool :=
  match key with [] => true | c :: key => key_char true c && forallb (key_char false) key end.

Definition normalizeGoalBlockerKey (input : bytes) : option bytes :=
  let key := ToLower (TrimSpace input) in
  if (length key =? 0)%nat || (goalBlockerKeyMaxLen <? length key)%nat then None else
  if key_chars key then Some key else None.

(** ** Identities *)

(** The check [validateGoalTurnID] makes of a turn, which a goal identifier and
    the turns of a blocker undergo as well: whether it returns no error. *)
Definition validateGoalTurnID (turnID : bytes) : bool :=
  negb (blank turnID) && (turnID ==b TrimSpace turnID) && ValidString turnID && negb (contains_NUL turnID).

Definition validGoalBindingText (value : bytes) (required : bool) : bool :=
  if value ==b [] then negb required else
  (value ==b TrimSpace value) && ValidString value && negb (contains_NUL value).

Record goalExecutionIdentity := {
  x_GoalID : bytes; x_ObjectiveRevision : Z; x_RootSessionID : bytes; x_RootThreadID : bytes;
  x_RootAgentID : bytes; x_GoalTurnID : bytes
}.
#[export] Instance goalExecutionIdentity_eq_dec : EqDecision goalExecutionIdentity.
Proof. solve_decision. Defined.
#[export] Instance eta_goalExecutionIdentity : Eta goalExecutionIdentity := fun x =>
  Build_goalExecutionIdentity (x_GoalID x) (x_ObjectiveRevision x) (x_RootSessionID x) (x_RootThreadID x)
    (x_RootAgentID x) (x_GoalTurnID x).

Definition goalExecutionIdentity_valid (i : goalExecutionIdentity) : bool :=
  validGoalBindingText (x_GoalID i) true && (0 <? x_ObjectiveRevision i)
  && validGoalBindingText (x_RootSessionID i) true && validGoalBindingText (x_RootThreadID i) true
  && validGoalBindingText (x_RootAgentID i) false
  && ((x_GoalTurnID i ==b []) || validateGoalTurnID (x_GoalTurnID i)).

(** [session.PersistedGoalBinding]: which turn of which goal a child session
    works for. *)
Record PersistedGoalBinding := {
  pb_Version : Z; pb_GoalID : bytes; pb_ObjectiveRevision : Z; pb_RootSessionID : bytes;
  pb_RootThreadID : bytes; pb_RootAgentID : bytes; pb_GoalTurnID : bytes
}.
Definition PersistedGoalBindingVersion : Z := 1.

Definition persistedGoalBinding (identity : option goalExecutionIdentity) : option PersistedGoalBinding :=
  match identity with
  | None => None
  | Some i =>
      if negb (goalExecutionIdentity_valid i) || blank (x_GoalTurnID i) then None else
      Some {| pb_Version := PersistedGoalBindingVersion; pb_GoalID := x_GoalID i;
              pb_ObjectiveRevision := x_ObjectiveRevision i; pb_RootSessionID := x_RootSessionID i;
              pb_RootThreadID := x_RootThreadID i; pb_RootAgentID := x_RootAgentID i;
              pb_GoalTurnID := x_GoalTurnID i |}
  end.

(** The identity, and whether a record was ignored with a warning. *)
Definition restoreGoalBinding (record : option PersistedGoalBinding) (agentID : bytes)
    : option goalExecutionIdentity * bool :=
  match record with
  | None => (None, false)
  | Some r =>
      if blank agentID then (None, true) else
      if negb (pb_Version r =? PersistedGoalBindingVersion) then (None, true) else
      let identity := {| x_GoalID := pb_GoalID r; x_ObjectiveRevision := pb_ObjectiveRevision r;
                         x_RootSessionID := pb_RootSessionID r; x_RootThreadID := pb_RootThreadID r;
                         x_RootAgentID := pb_RootAgentID r; x_GoalTurnID := pb_GoalTurnID r |} in
      if negb (goalExecutionIdentity_valid identity)
         || negb (validGoalBindingText (x_GoalID identity) true)
         || negb (validGoalBindingText (x_RootSessionID identity) true)
         || negb (validGoalBindingText (x_RootThreadID identity) true)
         || negb (validGoalBindingText (x_RootAgentID identity) false)
      then (None, true) else
      if negb (validateGoalTurnID (x_GoalTurnID identity)) then (None, true) else (Some identity, false)
  end.

(** ** Budget *)

Definition goalBudgetHasRemaining (tokenBudget : option Z) (tokensUsed : Z) : bool :=
  match tokenBudget with None => true | Some budget => tokensUsed <? budget end.

Definition sameGoalTokenBudget (left right : option Z) : bool :=
  match left, right with
  | Some l, Some r => l =? r
  | None, None => true
  | _, _ => false
  end.

(** ** The cursor of a continuation *)

Definition PersistedGoalStateLegacyVersion : Z := 1.
Definition PersistedGoalStateAccountingVersion : Z := 2.
Definition PersistedGoalStateContinuationVersion : Z := 3.
Definition PersistedGoalStateVersion : Z := 4.
Definition PersistedGoalUsageAdmissionVersion : Z := 2.
Definition PersistedGoalContinuationLegacyVersion : Z := 1.
Definition PersistedGoalContinuationVersion : Z := 2.
Definition runtimeGoalContinuationLegacyVersion : Z := 1.
Definition runtimeGoalContinuationVersion : Z := 2.

(** What the identifiers of a continuation are derived from; the source formats
    the time of the terminal as RFC 3339 text of UTC. *)
Record goalContinuationIdentity := {
  ci_Version : Z; ci_GoalID : bytes; ci_GoalSchemaVersion : Z; ci_ObjectiveRevision : Z; ci_GoalRevision : Z;
  ci_GoalStatus : bytes; ci_RootSessionID : bytes; ci_RootThreadID : bytes; ci_RootAgentID : bytes;
  ci_PredecessorGoalTurnID : bytes; ci_PredecessorTerminalSequence : Z; ci_PredecessorTerminalReason : bytes;
  ci_PredecessorTerminalAt : Z; ci_TokenBudget : option Z; ci_TokensUsed : Z; ci_UsageLedgerRevision : Z;
  ci_ContinuationOrdinal : Z; ci_RuntimeRevision : Z
}.

Class GoalIdentityText := { goal_identity_json : goalContinuationIdentity -> bytes }.

Inductive cursor_error :=
| LegacySchemaOrBudget | InvalidSchemaVersion | UnsupportedCursorVersion | InvalidCursorScope
| InvalidCursorRevision | InvalidPredecessorTurn | InvalidContinuationTurn | InvalidPredecessorTerminal
| InvalidCursorBudgetOrOrdinal | PendingHasDisposition | IncompleteDisposition | UnknownDisposition
| IdentityMismatch | OrdinalExhausted.

(** The first of a list of conditions that holds. *)
Fixpoint first_error {E} (l : list (bool * E)) : option E :=
  match l with
  | [] => None
  | (b, e) :: l => if b then Some e else first_error l
  end.

Section cursor.
Context `{!Digests, !GoalIdentityText}.

Definition goal_identity_suffix (i : goalContinuationIdentity) : bytes := sha256_hex (goal_identity_json i).

Definition continuation_item_id (suffix : bytes) : bytes := lit "goal-continuation:" ++ suffix.
Definition continuation_checkpoint_id (suffix : bytes) : bytes := lit "goal-continuation-checkpoint:" ++ suffix.
Definition continuation_turn_id (suffix : bytes) : bytes := lit "goal-continuation-turn:" ++ suffix.

Definition cursor_identity (c : goalContinuationCursor) : goalContinuationIdentity := {|
  ci_Version := k_Version c; ci_GoalID := k_GoalID c; ci_GoalSchemaVersion := k_GoalSchemaVersion c;
  ci_ObjectiveRevision := k_ObjectiveRevision c; ci_GoalRevision := k_GoalRevision c;
  ci_GoalStatus := k_GoalStatus c; ci_RootSessionID := k_RootSessionID c; ci_RootThreadID := k_RootThreadID c;
  ci_RootAgentID := k_RootAgentID c; ci_PredecessorGoalTurnID := k_PredecessorGoalTurnID c;
  ci_PredecessorTerminalSequence := k_PredecessorTerminalSequence c;
  ci_PredecessorTerminalReason := k_PredecessorTerminalReason c;
  ci_PredecessorTerminalAt := k_PredecessorTerminalAt c; ci_TokenBudget := k_TokenBudget c;
  ci_TokensUsed := k_TokensUsed c; ci_UsageLedgerRevision := k_UsageLedgerRevision c;
  ci_ContinuationOrdinal := k_ContinuationOrdinal c; ci_RuntimeRevision := k_RuntimeRevision c |}.

(** The item, the checkpoint and the turn. *)
Definition expectedGoalContinuationIDs (c : goalContinuationCursor) : bytes * bytes * bytes :=
  let suffix := goal_identity_suffix (cursor_identity c) in
  (continuation_item_id suffix, continuation_checkpoint_id suffix, continuation_turn_id suffix).

Definition validateGoalContinuationCursor (c : goalContinuationCursor) : option cursor_error :=
  let no_budget := match k_TokenBudget c with None => true | Some _ => false end in
  first_error [
    ((k_Version c =? PersistedGoalContinuationLegacyVersion)
     && (negb (k_GoalSchemaVersion c =? PersistedGoalStateContinuationVersion) || no_budget),
     LegacySchemaOrBudget);
    ((k_Version c =? PersistedGoalContinuationVersion)
     && negb (k_GoalSchemaVersion c =? PersistedGoalStateVersion), InvalidSchemaVersion);
    (negb (k_Version c =? PersistedGoalContinuationLegacyVersion)
     && negb (k_Version c =? PersistedGoalContinuationVersion), UnsupportedCursorVersion);
    (blank (k_GoalID c) || blank (k_RootSessionID c) || blank (k_RootThreadID c) || (k_RootAgentID c <>b []),
     InvalidCursorScope);
    ((k_ObjectiveRevision c =? 0) || (k_GoalRevision c =? 0) || (k_GoalStatus c <>b goalStatus_string goalStatusActive),
     InvalidCursorRevision);
    (negb (validateGoalTurnID (k_PredecessorGoalTurnID c)), InvalidPredecessorTurn);
    (negb (validateGoalTurnID (k_ContinuationTurnID c)), InvalidContinuationTurn);
    ((k_PredecessorTerminalSequence c =? 0) || (k_PredecessorTerminalReason c <>b TerminalCompleted)
     || (k_PredecessorTerminalAt c =? 0), InvalidPredecessorTerminal);
    (negb (goalBudgetHasRemaining (k_TokenBudget c) (k_TokensUsed c)) || (k_ContinuationOrdinal c =? 0),
     InvalidCursorBudgetOrOrdinal);
    match k_Disposition c with
    | goalContinuationDispositionPending =>
        ((k_DispositionReason c <>b []) || negb (k_DispositionAt c =? 0), PendingHasDisposition)
    | goalContinuationDispositionAdmitting | goalContinuationDispositionRejected
    | goalContinuationDispositionDelivered =>
        (blank (k_DispositionReason c) || (k_DispositionAt c =? 0), IncompleteDisposition)
    | GoalContinuationDispositionOther _ => (true, UnknownDisposition)
    end;
    ((k_ItemID c, k_CheckpointID c, k_ContinuationTurnID c) <>b expectedGoalContinuationIDs c, IdentityMismatch)
  ].

Definition newGoalContinuationCursor (state : goalState) (scope : RuntimeInputScope) (terminal : bytes)
    (terminalSequence terminalAt runtimeRevision : Z) : result cursor_error goalContinuationCursor :=
  if g_ContinuationOrdinal state =? MaxUint64 then Err OrdinalExhausted else
  let identity := {|
    ci_Version := PersistedGoalContinuationVersion; ci_GoalID := g_GoalID state;
    ci_GoalSchemaVersion := PersistedGoalStateVersion; ci_ObjectiveRevision := g_ObjectiveRevision state;
    ci_GoalRevision := g_Revision state; ci_GoalStatus := goalStatus_string (g_Status state);
    ci_RootSessionID := SessionID scope; ci_RootThreadID := ThreadID scope; ci_RootAgentID := AgentID scope;
    ci_PredecessorGoalTurnID := g_LastGoalTurnID state; ci_PredecessorTerminalSequence := terminalSequence;
    ci_PredecessorTerminalReason := terminal; ci_PredecessorTerminalAt := terminalAt;
    ci_TokenBudget := g_TokenBudget state; ci_TokensUsed := g_TokensUsed state;
    ci_UsageLedgerRevision := g_UsageLedgerRevision state;
    ci_ContinuationOrdinal := g_ContinuationOrdinal state + 1; ci_RuntimeRevision := runtimeRevision |} in
  let suffix := goal_identity_suffix identity in
  let cursor := {|
    k_Version := ci_Version identity; k_ItemID := continuation_item_id suffix;
    k_CheckpointID := continuation_checkpoint_id suffix; k_ContinuationTurnID := continuation_turn_id suffix;
    k_GoalID := ci_GoalID identity; k_GoalSchemaVersion := ci_GoalSchemaVersion identity;
    k_ObjectiveRevision := ci_ObjectiveRevision identity; k_GoalRevision := ci_GoalRevision identity;
    k_GoalStatus := ci_GoalStatus identity; k_RootSessionID := ci_RootSessionID identity;
    k_RootThreadID := ci_RootThreadID identity; k_RootAgentID := ci_RootAgentID identity;
    k_PredecessorGoalTurnID := ci_PredecessorGoalTurnID identity;
    k_PredecessorTerminalSequence := ci_PredecessorTerminalSequence identity;
    k_PredecessorTerminalReason := ci_PredecessorTerminalReason identity;
    k_PredecessorTerminalAt := terminalAt; k_TokenBudget := ci_TokenBudget identity;
    k_TokensUsed := ci_TokensUsed identity; k_UsageLedgerRevision := ci_UsageLedgerRevision identity;
    k_ContinuationOrdinal := ci_ContinuationOrdinal identity; k_RuntimeRevision := ci_RuntimeRevision identity;
    k_Disposition := goalContinuationDispositionPending; k_DispositionReason := []; k_DispositionAt := 0 |} in
  match validateGoalContinuationCursor cursor with
  | Some e => Err e
  | None => Ok cursor
  end.

(** ** The item of the runtime input queue a cursor stands for *)

Definition time_field (t : Z) : option Z := if t =? 0 then None else Some t.

Definition goalContinuationRuntimeItem (c : goalContinuationCursor) : RuntimeItem := {|
  i_Version := 0; i_ID := k_ItemID c; i_Kind := RuntimeItemGoalContinuation; i_Priority := RuntimePriorityLater;
  i_Delivery := DeliveryUnset;
  i_Scope := {| SessionID := k_RootSessionID c; ThreadID := k_RootThreadID c; AgentID := k_RootAgentID c |};
  i_Sequence := 0; i_EnqueuedAt := None; i_State := StateOther []; i_IsMeta := true; i_Origin := lit "goal";
  i_Provenance := lit "p24.3-durable-continuation"; i_UserPrompt := None; i_AgentMessage := None;
  i_AgentNotification := None; i_AsyncRewake := None; i_PermissionDecision := None;
  i_GoalContinuation := Some {|
    gc_Version := if k_Version c =? PersistedGoalContinuationLegacyVersion
                  then runtimeGoalContinuationLegacyVersion else runtimeGoalContinuationVersion;
    gc_CheckpointID := k_CheckpointID c; gc_ContinuationTurnID := k_ContinuationTurnID c; gc_GoalID := k_GoalID c;
    gc_GoalSchemaVersion := k_GoalSchemaVersion c; gc_ObjectiveRevision := k_ObjectiveRevision c;
    gc_GoalRevision := k_GoalRevision c; gc_GoalStatus := k_GoalStatus c; gc_RootSessionID := k_RootSessionID c;
    gc_RootThreadID := k_RootThreadID c; gc_RootAgentID := k_RootAgentID c;
    gc_PredecessorGoalTurnID := k_PredecessorGoalTurnID c;
    gc_PredecessorTerminalSequence := k_PredecessorTerminalSequence c;
    gc_PredecessorTerminalReason := k_PredecessorTerminalReason c;
    gc_PredecessorTerminalAt := time_field (k_PredecessorTerminalAt c); gc_TokenBudget := k_TokenBudget c;
    gc_TokensUsed := k_TokensUsed c; gc_UsageLedgerRevision := k_UsageLedgerRevision c;
    gc_ContinuationOrdinal := k_ContinuationOrdinal c; gc_RuntimeRevision := k_RuntimeRevision c |};
  i_Stop := None; i_Rejection := None |}.

(** [validateRuntimeGoalContinuation]: whether it returns no error. *)
Definition validateGoalItem (itemID : bytes) (scope : RuntimeInputScope) (p : RuntimeGoalContinuation) : bool :=
  let version :=
    if gc_Version p =? runtimeGoalContinuationLegacyVersion then Some PersistedGoalContinuationLegacyVersion else
    if gc_Version p =? runtimeGoalContinuationVersion then Some PersistedGoalContinuationVersion else None in
  match version with
  | None => false
  | Some version =>
      let c := {|
        k_Version := version; k_ItemID := TrimSpace itemID; k_CheckpointID := gc_CheckpointID p;
        k_ContinuationTurnID := gc_ContinuationTurnID p; k_GoalID := gc_GoalID p;
        k_GoalSchemaVersion := gc_GoalSchemaVersion p; k_ObjectiveRevision := gc_ObjectiveRevision p;
        k_GoalRevision := gc_GoalRevision p; k_GoalStatus := gc_GoalStatus p;
        k_RootSessionID := gc_RootSessionID p; k_RootThreadID := gc_RootThreadID p;
        k_RootAgentID := gc_RootAgentID p; k_PredecessorGoalTurnID := gc_PredecessorGoalTurnID p;
        k_PredecessorTerminalSequence := gc_PredecessorTerminalSequence p;
        k_PredecessorTerminalReason := gc_PredecessorTerminalReason p;
        k_PredecessorTerminalAt := default 0 (gc_PredecessorTerminalAt p); k_TokenBudget := gc_TokenBudget p;
        k_TokensUsed := gc_TokensUsed p; k_UsageLedgerRevision := gc_UsageLedgerRevision p;
        k_ContinuationOrdinal := gc_ContinuationOrdinal p; k_RuntimeRevision := gc_RuntimeRevision p;
        k_Disposition := goalContinuationDispositionPending; k_DispositionReason := []; k_DispositionAt := 0 |} in
      runtimeScopesEqual scope
        {| SessionID := k_RootSessionID c; ThreadID := k_RootThreadID c; AgentID := k_RootAgentID c |}
      && match validateGoalContinuationCursor c with None => true | Some _ => false end
  end.

(** The payloads are compared by their JSON, which determines the fields. *)
Definition runtimeGoalContinuationMatchesCursor (item : RuntimeItem) (c : goalContinuationCursor) : bool :=
  (i_ID item ==b k_ItemID c) && (i_Kind item ==b RuntimeItemGoalContinuation)
  && match i_GoalContinuation item with
     | None => false
     | Some p =>
         (Some p ==b i_GoalContinuation (goalContinuationRuntimeItem c))
         && runtimeScopesEqual (i_Scope item) (i_Scope (goalContinuationRuntimeItem c))
     end.
End cursor.
