(* ===== verification/GoalPersistence.v ===== *)
(** * The saved form of a goal

    [src/engine/goal_persistence.go]: how a goal is written into the checkpoint
    of its session, what a record must satisfy to be read back, the migration of
    older versions and the state a restart begins with.  A record that is
    refused leaves a goal that is unavailable and keeps the record as it is.

    [src/engine/goal_usage.go] and [src/engine/transcript/goal_usage.go]: the
    ledger of the tokens that model calls made for the goal have used, and its
    reconciliation with the saved goal. *)

From S2P Require Import Prelude GoStrings GoBase RuntimeItem ToolSchedule GoalData.

Open Scope Z_scope.

(** ** Usage records *)

Definition GoalUsageRecordVersion : Z := 1.

Record GoalUsageRecord := {
  l_Version : Z; l_LedgerRevision : Z; l_GoalID : bytes; l_ObjectiveRevision : Z;
  l_RootSessionID : bytes; l_RootThreadID : bytes; l_RootAgentID : bytes;
  l_ExecutingSessionID : bytes; l_ExecutingThreadID : bytes; l_ExecutingAgentID : bytes;
  l_ExecutingAgentGeneration : Z; l_GoalTurnID : bytes; l_LogicalRoundID : bytes; l_LogicalRequestID : bytes;
  l_ModelAttemptID : bytes; l_ModelAttemptIndex : Z; l_ModelProfile : bytes; l_ModelRetryIndex : Z;
  l_ProviderCallID : bytes; l_PromptTokens : Z; l_CachedPromptTokens : Z; l_CompletionTokens : Z;
  l_ReasoningTokens : Z; l_TotalTokens : Z; l_BillableTokens : Z
}.
#[export] Instance GoalUsageRecord_eq_dec : EqDecision GoalUsageRecord.
Proof. solve_decision. Defined.
#[export] Instance eta_GoalUsageRecord : Eta GoalUsageRecord := fun x =>
  Build_GoalUsageRecord (l_Version x) (l_LedgerRevision x) (l_GoalID x) (l_ObjectiveRevision x)
    (l_RootSessionID x) (l_RootThreadID x) (l_RootAgentID x)
    (l_ExecutingSessionID x) (l_ExecutingThreadID x) (l_ExecutingAgentID x)
    (l_ExecutingAgentGeneration x) (l_GoalTurnID x) (l_LogicalRoundID x) (l_LogicalRequestID x)
    (l_ModelAttemptID x) (l_ModelAttemptIndex x) (l_ModelProfile x) (l_ModelRetryIndex x)
    (l_ProviderCallID x) (l_PromptTokens x) (l_CachedPromptTokens x) (l_CompletionTokens x)
    (l_ReasoningTokens x) (l_TotalTokens x) (l_BillableTokens x).

(** A name of a record: not blank, trimmed, without NUL. *)
Definition record_name (value : bytes) : bool :=
  negb (blank value) && (value ==b TrimSpace value) && negb (contains_NUL value).

(** [ValidateGoalUsageRecord]: whether it returns no error. *)
Definition ValidateGoalUsageRecord (r : GoalUsageRecord) : bool :=
  (l_Version r =? GoalUsageRecordVersion)
  && negb ((l_LedgerRevision r =? 0) || (l_ObjectiveRevision r =? 0))
  && forallb record_name [l_GoalID r; l_RootSessionID r; l_RootThreadID r; l_ExecutingSessionID r;
                          l_ExecutingThreadID r; l_GoalTurnID r; l_LogicalRoundID r; l_ProviderCallID r]
  && (if (l_LogicalRequestID r <>b []) || (l_ModelAttemptID r <>b []) || (l_ModelProfile r <>b [])
      then forallb record_name [l_LogicalRequestID r; l_ModelAttemptID r; l_ModelProfile r]
           && negb ((l_ModelAttemptIndex r <? 0) || (l_ModelRetryIndex r <? 0))
      else true)
  && blank (l_RootAgentID r)
  && (if l_ExecutingAgentID r ==b []
      then (l_ExecutingAgentGeneration r =? 0) && (l_ExecutingSessionID r ==b l_RootSessionID r)
           && (l_ExecutingThreadID r ==b l_RootThreadID r)
      else (l_ExecutingAgentID r ==b TrimSpace (l_ExecutingAgentID r))
           && negb (contains_NUL (l_ExecutingAgentID r)) && (0 <? l_ExecutingAgentGeneration r))
  && (l_CachedPromptTokens r <=? l_PromptTokens r)
  && (l_ReasoningTokens r <=? l_CompletionTokens r)
  && (l_PromptTokens r <=? MaxUint64 - l_CompletionTokens r)
  && (u64 (l_PromptTokens r + l_CompletionTokens r) <=? l_TotalTokens r)
  && (l_CachedPromptTokens r <=? l_TotalTokens r)
  && (l_BillableTokens r =? l_TotalTokens r - l_CachedPromptTokens r).

(** The record of an admission with the counts of a reply. *)
Definition usage_record_of (a : goalUsageAdmission) (prompt cached completion reasoning total billable : Z)
    : GoalUsageRecord := {|
  l_Version := GoalUsageRecordVersion; l_LedgerRevision := a_LedgerRevision a; l_GoalID := a_GoalID a;
  l_ObjectiveRevision := a_ObjectiveRevision a; l_RootSessionID := a_RootSessionID a;
  l_RootThreadID := a_RootThreadID a; l_RootAgentID := a_RootAgentID a;
  l_ExecutingSessionID := a_ExecutingSessionID a; l_ExecutingThreadID := a_ExecutingThreadID a;
  l_ExecutingAgentID := a_ExecutingAgentID a; l_ExecutingAgentGeneration := a_ExecutingAgentGeneration a;
  l_GoalTurnID := a_GoalTurnID a; l_LogicalRoundID := a_LogicalRoundID a;
  l_LogicalRequestID := a_LogicalRequestID a; l_ModelAttemptID := a_ModelAttemptID a;
  l_ModelAttemptIndex := a_ModelAttemptIndex a; l_ModelProfile := a_ModelProfile a;
  l_ModelRetryIndex := a_ModelRetryIndex a; l_ProviderCallID := a_ProviderCallID a;
  l_PromptTokens := prompt; l_CachedPromptTokens := cached; l_CompletionTokens := completion;
  l_ReasoningTokens := reasoning; l_TotalTokens := total; l_BillableTokens := billable |}.

(** [validateGoalUsageAdmission]: whether it returns no error. *)
Definition validateGoalUsageAdmission (a : goalUsageAdmission) : bool :=
  negb (negb (a_Version a =? PersistedGoalUsageAdmissionVersion) || (a_AdmittedAt a =? 0))
  && ValidateGoalUsageRecord (usage_record_of a 0 0 0 0 0 0).

(** ** Checks of a saved goal *)

Inductive goal_record_error :=
| InvalidGoalIdentity | InvalidObjective | ZeroRevision | ObjectiveRevisionExceeds | UnknownStatus
| ZeroTokenBudget | NoRemainingBudget | InvalidStatusReason | InvalidReasonCode | InvalidBlockerKey
| TooManyBlockerTurns | IncompleteBlocker | InvalidBlockerTurn | DuplicateBlockerTurn | NegativeActiveTime
| InvalidTimestamps | IncompletePendingCompletion | InvalidPendingTurn | StalePendingCompletion
| InvalidLastTurn | InvalidContinuation (e : cursor_error) | StaleContinuation | PendingNotCurrent
| AdmittingNotCurrent | ContinuationExceedsRevision | InvalidAdmission | StaleAdmission | InvalidAdmissionTime.

(** A text that its normalisation leaves as it is. *)
Definition normal_objective (s : bytes) : bool :=
  match normalizeGoalObjective s with Ok t => t ==b s | Err _ => false end.
Definition normal_reason (s : bytes) : bool :=
  match normalizeGoalReason s with Ok t => t ==b s | Err _ => false end.
Definition normal_key (s : bytes) : bool :=
  match normalizeGoalBlockerKey s with Some t => t ==b s | None => false end.

Fixpoint check_blocker_turns (seen turns : list bytes) : option goal_record_error :=
  match turns with
  | [] => None
  | turn :: turns =>
      if negb (validateGoalTurnID turn) then Some InvalidBlockerTurn else
      if bool_decide (turn ∈ seen) then Some DuplicateBlockerTurn else
      check_blocker_turns (turn :: seen) turns
  end.

(** Errors in the order in which the source finds them. *)
Definition orElse {E} (o o' : option E) : option E := match o with Some e => Some e | None => o' end.

Section validate.
Context `{!Digests, !GoalIdentityText}.

Definition check_continuation (r : PersistedGoalState) (c : goalContinuationCursor) : option goal_record_error :=
  match validateGoalContinuationCursor c with
  | Some e => Some (InvalidContinuation e)
  | None =>
      if (k_GoalID c <>b p_GoalID r) || negb (k_ObjectiveRevision c =? p_ObjectiveRevision r)
         || negb (k_ContinuationOrdinal c =? p_ContinuationOrdinal r)
         || negb (k_PredecessorTerminalSequence c =? p_LastTerminalSequence r)
         || negb (sameGoalTokenBudget (k_TokenBudget c) (p_TokenBudget r))
         || negb (k_TokensUsed c =? p_TokensUsed r)
         || negb (k_UsageLedgerRevision c =? p_UsageLedgerRevision r)
      then Some StaleContinuation else
      match k_Disposition c with
      | goalContinuationDispositionPending =>
          if (p_Status r <>b goalStatus_string goalStatusActive)
             || (k_PredecessorGoalTurnID c <>b p_LastGoalTurnID r) || negb (k_GoalRevision c =? p_Revision r)
          then Some PendingNotCurrent else None
      | goalContinuationDispositionAdmitting =>
          if (p_Status r <>b goalStatus_string goalStatusActive)
             || (p_LastGoalTurnID r <>b k_ContinuationTurnID c) || (p_Revision r <=? k_GoalRevision c)
          then Some AdmittingNotCurrent else None
      | _ => if p_Revision r <? k_GoalRevision c then Some ContinuationExceedsRevision else None
      end
  end.

Definition check_admission (r : PersistedGoalState) (a : goalUsageAdmission) : option goal_record_error :=
  first_error [
    (negb (validateGoalUsageAdmission a), InvalidAdmission);
    ((a_GoalID a <>b p_GoalID r) || negb (a_ObjectiveRevision a =? p_ObjectiveRevision r)
     || negb (a_LedgerRevision a =? u64 (p_UsageLedgerRevision r + 1))
     || (a_GoalTurnID a <>b p_LastGoalTurnID r), StaleAdmission);
    ((a_AdmittedAt a <? p_CreatedAt r) || (p_UpdatedAt r <? a_AdmittedAt a), InvalidAdmissionTime)].

(** The checks before and after the turns of the blocker. *)
Definition identity_checks (r : PersistedGoalState) (sourceVersion : Z) : list (bool * goal_record_error) :=
  let status := goalStatus_of (TrimSpace (p_Status r)) in
  [
    (negb (validateGoalTurnID (p_GoalID r)), InvalidGoalIdentity);
    (negb (normal_objective (p_Objective r)), InvalidObjective);
    ((p_ObjectiveRevision r =? 0) || (p_Revision r =? 0), ZeroRevision);
    (p_Revision r <? p_ObjectiveRevision r, ObjectiveRevisionExceeds);
    ((TrimSpace (p_Status r) <>b p_Status r) || negb (knownGoalStatus status), UnknownStatus);
    (match p_TokenBudget r with Some 0 => true | _ => false end, ZeroTokenBudget);
    ((status ==b goalStatusActive)
     && (((sourceVersion <? PersistedGoalStateVersion)
          && match p_TokenBudget r with None => true | Some _ => false end)
         || negb (goalBudgetHasRemaining (p_TokenBudget r) (p_TokensUsed r))), NoRemainingBudget);
    ((p_StatusReason r <>b []) && negb (normal_reason (p_StatusReason r)), InvalidStatusReason);
    ((p_StatusReasonCode r <>b []) && negb (normal_key (p_StatusReasonCode r)), InvalidReasonCode);
    ((p_BlockerKey r <>b []) && negb (normal_key (p_BlockerKey r)), InvalidBlockerKey);
    ((3 <? length (p_BlockerTurnIDs r))%nat, TooManyBlockerTurns);
    (negb (eqb (p_BlockerKey r ==b []) (length (p_BlockerTurnIDs r) =? 0)%nat), IncompleteBlocker)].

Definition time_checks (r : PersistedGoalState) : list (bool * goal_record_error) := [
    (p_RootActiveTimeMillis r <? 0, NegativeActiveTime);
    ((p_CreatedAt r =? 0) || (p_UpdatedAt r =? 0) || (p_UpdatedAt r <? p_CreatedAt r), InvalidTimestamps);
    (negb (eqb (p_PendingCompleteTurnID r ==b []) (p_PendingCompleteObjectiveRevision r =? 0)),
     IncompletePendingCompletion);
    ((p_PendingCompleteTurnID r <>b []) && negb (validateGoalTurnID (p_PendingCompleteTurnID r)), InvalidPendingTurn);
    ((p_PendingCompleteTurnID r <>b []) && negb (p_PendingCompleteObjectiveRevision r =? p_ObjectiveRevision r),
     StalePendingCompletion);
    ((p_LastGoalTurnID r <>b []) && negb (validateGoalTurnID (p_LastGoalTurnID r)), InvalidLastTurn)].

Definition validatePersistedGoalStateFromVersion (r : PersistedGoalState) (sourceVersion : Z)
    : option goal_record_error :=
  orElse (first_error (identity_checks r sourceVersion))
  (orElse (check_blocker_turns [] (p_BlockerTurnIDs r))
  (orElse (first_error (time_checks r))
  (orElse (match p_Continuation r with Some c => check_continuation r c | None => None end)
          (match p_PendingUsageAdmission r with Some a => check_admission r a | None => None end)))).

Definition validatePersistedGoalState (r : PersistedGoalState) : option goal_record_error :=
  validatePersistedGoalStateFromVersion r (p_Version r).
End validate.

(** ** Writing and reading *)

Definition goal_active (s : goalState) : bool := g_Status s ==b goalStatusActive.

Definition resetGoalTurnEvidence (s : goalState) : goalState :=
  s <| g_PendingCompleteTurnID := [] |> <| g_PendingCompleteObjectiveRevision := 0 |>
    <| g_BlockerKey := [] |> <| g_BlockerTurnIDs := [] |>.

(** [None]: the revisions are exhausted. *)
Definition nextGoalRevision (s : goalState) (now : Z) : option goalState :=
  if g_Revision s =? MaxUint64 then None else
  Some (s <| g_Revision := g_Revision s + 1 |> <| g_UpdatedAt := now |>).

Definition with_status (status : goalStatus) (code reason : bytes) (s : goalState) : goalState :=
  s <| g_Status := status |> <| g_StatusReasonCode := code |> <| g_StatusReason := reason |>.

Definition persisted_record (s : goalState) : PersistedGoalState := {|
    p_Version := PersistedGoalStateVersion; p_GoalID := g_GoalID s; p_Objective := g_Objective s;
    p_ObjectiveRevision := g_ObjectiveRevision s; p_Status := goalStatus_string (g_Status s);
    p_StatusReasonCode := g_StatusReasonCode s; p_StatusReason := g_StatusReason s; p_Revision := g_Revision s;
    p_TokenBudget := g_TokenBudget s; p_TokensUsed := g_TokensUsed s;
    p_UsageLedgerRevision := g_UsageLedgerRevision s; p_RootActiveTimeMillis := g_RootActiveTimeMillis s;
    p_ContinuationOrdinal := g_ContinuationOrdinal s; p_Continuation := g_Continuation s;
    p_LastGoalTurnID := g_LastGoalTurnID s; p_LastTerminalSequence := g_LastTerminalSequence s;
    p_PendingCompleteTurnID := g_PendingCompleteTurnID s;
    p_PendingCompleteObjectiveRevision := g_PendingCompleteObjectiveRevision s;
    p_PendingUsageAdmission := g_PendingUsageAdmission s; p_BlockerKey := g_BlockerKey s;
    p_BlockerTurnIDs := g_BlockerTurnIDs s; p_CreatedAt := g_CreatedAt s; p_UpdatedAt := g_UpdatedAt s;
    p_invalidEncoding := false; p_rawEncoding := [] |}.

Definition persistedGoalState (s : goalState) : option PersistedGoalState :=
  if g_unavailable s then g_unavailablePersistedRepresentation s else Some (persisted_record s).

Definition goalStateFromPersisted (r : PersistedGoalState) : goalState := {|
  g_GoalID := p_GoalID r; g_Objective := p_Objective r; g_ObjectiveRevision := p_ObjectiveRevision r;
  g_Status := goalStatus_of (p_Status r); g_StatusReasonCode := p_StatusReasonCode r;
  g_StatusReason := p_StatusReason r; g_Revision := p_Revision r; g_TokenBudget := p_TokenBudget r;
  g_TokensUsed := p_TokensUsed r; g_UsageLedgerRevision := p_UsageLedgerRevision r;
  g_RootActiveTimeMillis := p_RootActiveTimeMillis r; g_ContinuationOrdinal := p_ContinuationOrdinal r;
  g_Continuation := p_Continuation r; g_LastGoalTurnID := p_LastGoalTurnID r;
  g_LastTerminalSequence := p_LastTerminalSequence r; g_PendingCompleteTurnID := p_PendingCompleteTurnID r;
  g_PendingCompleteObjectiveRevision := p_PendingCompleteObjectiveRevision r;
  g_PendingUsageAdmission := p_PendingUsageAdmission r; g_BlockerKey := p_BlockerKey r;
  g_BlockerTurnIDs := p_BlockerTurnIDs r; g_CreatedAt := p_CreatedAt r; g_UpdatedAt := p_UpdatedAt r;
  g_unavailable := false; g_unavailablePersistedRepresentation := None |}.

Definition unavailableGoalState (r : PersistedGoalState) (reasonCode reason : bytes) : goalState :=
  resetGoalTurnEvidence
    (with_status goalStatusPaused reasonCode reason (goalStateFromPersisted r)
      <| g_unavailable := true |> <| g_unavailablePersistedRepresentation := Some r |>).

(** ** The ledger of usage *)

Inductive usage_error :=
| UsageCoverageIncomplete | CorruptUsageRecords | InvalidUsageRecord | FutureObjectiveRevision
| ConflictingUsageRecords | PendingRevisionNotNext | UnauthorizedRevision | IncompleteLedger
| AdmissionPending | RecordNotOfAdmission | UsageOverflow | UsageRevisionExhausted.

(** What the transcript gives: whether some record could not be read, and the
    records in the order of the file; [None] when it cannot be read at all. *)
Abbreviation loaded_usage := (option (bool * list GoalUsageRecord)).

Fixpoint collect_usage (s : goalState) (records : gmap Z GoalUsageRecord) (l : list GoalUsageRecord)
    : result usage_error (gmap Z GoalUsageRecord) :=
  match l with
  | [] => Ok records
  | r :: l =>
      if l_GoalID r <>b g_GoalID s then collect_usage s records l else
      if negb (ValidateGoalUsageRecord r) then Err InvalidUsageRecord else
      if g_ObjectiveRevision s <? l_ObjectiveRevision r then Err FutureObjectiveRevision else
      match records !! l_LedgerRevision r with
      | Some existing => if existing ==b r then collect_usage s records l else Err ConflictingUsageRecords
      | None => collect_usage s (<[ l_LedgerRevision r := r ]> records) l
      end
  end.

(** The records with a revision that the goal has committed. *)
Definition committed (s : goalState) (records : gmap Z GoalUsageRecord) : list Z :=
  List.filter (fun revision => revision <=? g_UsageLedgerRevision s) (map fst (map_to_list records)).

Definition is_some {A} (o : option A) : bool := match o with Some _ => true | None => false end.

Definition inspectGoalUsageLedger (s : goalState) (loaded : loaded_usage)
    : result usage_error (gmap Z GoalUsageRecord) :=
  let concerned := (0 <? g_UsageLedgerRevision s) || is_some (g_PendingUsageAdmission s) in
  match loaded with
  | None => if concerned then Err UsageCoverageIncomplete else Ok ∅
  | Some (corrupt, l) =>
      if corrupt && concerned then Err CorruptUsageRecords else
      match collect_usage s ∅ l with
      | Err e => Err e
      | Ok records =>
          let next := match g_PendingUsageAdmission s with
                      | None => Ok 0
                      | Some a =>
                          if (g_UsageLedgerRevision s =? MaxUint64)
                             || negb (a_LedgerRevision a =? g_UsageLedgerRevision s + 1)
                          then Err PendingRevisionNotNext else Ok (a_LedgerRevision a)
                      end in
          match next with
          | Err e => Err e
          | Ok pendingRevision =>
              if negb (forallb (fun revision => (revision <=? g_UsageLedgerRevision s)
                                  || (negb (pendingRevision =? 0) && (revision =? pendingRevision)))
                         (map fst (map_to_list records)))
              then Err UnauthorizedRevision else
              if negb (Z.of_nat (length (committed s records)) =? g_UsageLedgerRevision s)
              then Err IncompleteLedger else Ok records
          end
      end
  end.

Definition goalUsageRecordMatchesAdmission (r : GoalUsageRecord) (a : goalUsageAdmission) : bool :=
  (l_LedgerRevision r =? a_LedgerRevision a) && (l_GoalID r ==b a_GoalID a)
  && (l_ObjectiveRevision r =? a_ObjectiveRevision a) && (l_RootSessionID r ==b a_RootSessionID a)
  && (l_RootThreadID r ==b a_RootThreadID a) && (l_RootAgentID r ==b a_RootAgentID a)
  && (l_ExecutingSessionID r ==b a_ExecutingSessionID a) && (l_ExecutingThreadID r ==b a_ExecutingThreadID a)
  && (l_ExecutingAgentID r ==b a_ExecutingAgentID a)
  && (l_ExecutingAgentGeneration r =? a_ExecutingAgentGeneration a) && (l_GoalTurnID r ==b a_GoalTurnID a)
  && (l_LogicalRoundID r ==b a_LogicalRoundID a) && (l_LogicalRequestID r ==b a_LogicalRequestID a)
  && (l_ModelAttemptID r ==b a_ModelAttemptID a) && (l_ModelAttemptIndex r =? a_ModelAttemptIndex a)
  && (l_ModelProfile r ==b a_ModelProfile a) && (l_ModelRetryIndex r =? a_ModelRetryIndex a)
  && (l_ProviderCallID r ==b a_ProviderCallID a).

Definition goalBudgetReached : bytes := lit "the Goal token budget has been reached".

Definition applyGoalUsageRecord (s : goalState) (r : GoalUsageRecord) (now : Z) : result usage_error goalState :=
  match g_PendingUsageAdmission s with
  | None => Err AdmissionPending
  | Some a =>
      if negb (ValidateGoalUsageRecord r) then Err InvalidUsageRecord else
      if negb (goalUsageRecordMatchesAdmission r a) then Err RecordNotOfAdmission else
      if MaxUint64 - l_BillableTokens r <? g_TokensUsed s then Err UsageOverflow else
      match nextGoalRevision s now with
      | None => Err UsageRevisionExhausted
      | Some next =>
          let next := next <| g_TokensUsed ::= fun n => n + l_BillableTokens r |>
                           <| g_UsageLedgerRevision := l_LedgerRevision r |>
                           <| g_PendingUsageAdmission := None |> in
          Ok (match g_TokenBudget next with
              | Some budget =>
                  if budget <=? g_TokensUsed next then
                    resetGoalTurnEvidence
                      (with_status goalStatusBudgetLimited goalReasonBudgetExhausted goalBudgetReached next)
                  else next
              | None => next
              end)
      end
  end.

(** The state, whether it changed, and the errors. *)
Definition usageLimitedGoalState (s : goalState) (now : Z) (reason : bytes)
    : goalState * bool * list usage_error :=
  if g_Status s ==b goalStatusComplete then (s, false, []) else
  match nextGoalRevision s now with
  | None => (s, false, [UsageRevisionExhausted])
  | Some next =>
      (resetGoalTurnEvidence
         (with_status goalStatusUsageLimited goalReasonUsageCoverageIncomplete reason next), true, [])
  end.

Definition reconcileGoalUsageState (s : goalState) (loaded : loaded_usage) (now : Z)
    : goalState * bool * list usage_error :=
  let limited e reason :=
    let '(next, changed, es) := usageLimitedGoalState s now reason in (next, changed, e :: es) in
  match inspectGoalUsageLedger s loaded with
  | Err e => limited e (lit "goal provider usage coverage is incomplete")
  | Ok records =>
      match g_PendingUsageAdmission s with
      | None => (s, false, [])
      | Some a =>
          match records !! a_LedgerRevision a with
          | None =>
              match nextGoalRevision s now with
              | None => (s, false, [UsageRevisionExhausted])
              | Some next =>
                  (resetGoalTurnEvidence
                     (with_status goalStatusUsageLimited goalReasonUsageCoverageIncomplete
                        (lit "pending provider admission has no exact durable usage record") next),
                   true, [UsageCoverageIncomplete])
              end
          | Some r =>
              match applyGoalUsageRecord s r now with
              | Err e => limited e (lit "pending provider admission has a stale or invalid usage record")
              | Ok next => (next, true, [])
              end
          end
      end
  end.

(** ** The state a restart begins with *)

Definition has_open_continuation (s : goalState) : bool :=
  match g_Continuation s with
  | Some c => (k_Disposition c ==b goalContinuationDispositionPending)
              || (k_Disposition c ==b goalContinuationDispositionAdmitting)
  | None => false
  end.

(** An active goal that nothing will continue is paused; the caller checks that
    its revision is not the last. *)
Definition cold_pause (now : Z) (s : goalState) : goalState :=
  resetGoalTurnEvidence
    (with_status goalStatusPaused goalReasonColdContinuationUnavailable
       (lit "automatic continuation is unavailable without an eligible durable cursor")
       (s <| g_Revision := g_Revision s + 1 |> <| g_UpdatedAt := now |>)).

Definition invalid_record_reason : bytes := lit "persisted Goal state is invalid; Goal is unavailable".
Definition exhausted_record_reason : bytes := lit "persisted active Goal revision is exhausted; Goal is unavailable".

Section restore.
Context `{!Digests, !GoalIdentityText}.

(** The state and whether it has to be saved; [reconcile] gives the ledger when
    usage is reconciled.  The warnings for the user are not modelled. *)
Definition restorePersistedGoalStateWithUsage (record : option PersistedGoalState) (agentID : bytes) (now : Z)
    (reconcile : option loaded_usage) : option goalState * bool :=
  match record with
  | None => (None, false)
  | Some r =>
      if negb (blank agentID) then (None, true) else
      let unavailable code reason := (Some (unavailableGoalState r code reason), false) in
      if p_invalidEncoding r then
        unavailable goalReasonCorruptState (lit "persisted Goal state has invalid encoding; Goal is unavailable") else
      if match p_PendingUsageAdmission r with
         | Some a => negb (a_Version a =? PersistedGoalUsageAdmissionVersion)
         | None => false
         end then
        unavailable goalReasonUnsupportedVersion
          (lit "unsupported persisted Goal usage admission version "
           ++ Z_String (match p_PendingUsageAdmission r with Some a => a_Version a | None => 0 end)
           ++ lit "; Goal is unavailable") else
      let sourceVersion := p_Version r in
      let legacyVersion := sourceVersion =? PersistedGoalStateLegacyVersion in
      let accountingVersion := sourceVersion =? PersistedGoalStateAccountingVersion in
      let continuationVersion := sourceVersion =? PersistedGoalStateContinuationVersion in
      if negb (sourceVersion =? PersistedGoalStateVersion)
         && negb legacyVersion && negb accountingVersion && negb continuationVersion then
        unavailable goalReasonUnsupportedVersion
          (lit "unsupported persisted Goal state version " ++ Z_String (p_Version r)
           ++ lit "; Goal is unavailable") else
      if legacyVersion && is_some (p_PendingUsageAdmission r) then
        unavailable goalReasonUnsupportedVersion
          (lit "legacy persisted Goal state contains unsupported usage admission; Goal is unavailable") else
      if (legacyVersion || accountingVersion) && is_some (p_Continuation r) then
        unavailable goalReasonUnsupportedVersion
          (lit "older persisted Goal state contains unsupported continuation; Goal is unavailable") else
      let working := r <| p_Version := PersistedGoalStateVersion |> in
      match validatePersistedGoalStateFromVersion working sourceVersion with
      | Some _ =>
          unavailable goalReasonCorruptState invalid_record_reason
      | None =>
          let migrated := negb (sourceVersion =? PersistedGoalStateVersion) in
          let '(state, changed) :=
            match reconcile with
            | None => (goalStateFromPersisted working, false)
            | Some loaded =>
                (reconcileGoalUsageState (goalStateFromPersisted working) loaded now).1
            end in
          if goal_active state && negb (has_open_continuation state) then
            if g_Revision state =? MaxUint64 then
              unavailable goalReasonCorruptState exhausted_record_reason else
            (Some (cold_pause now state),
             true)
          else (Some state, migrated || changed)
      end
  end.

Definition restorePersistedGoalState (record : option PersistedGoalState) (agentID : bytes) (now : Z)
    : option goalState * bool :=
  restorePersistedGoalStateWithUsage record agentID now None.
End restore.
