(* ===== verification/GoalService.v ===== *)
(** * The service that owns the goal

    [src/engine/goal_state.go], [src/engine/goal_runtime.go],
    [src/engine/goal_usage.go], [src/engine/goal_continuation.go] and
    [src/engine/goal_control.go]: every operation that changes the goal of a
    session.  An operation builds the next goal, writes it into the checkpoint
    of the session and only then installs it; it holds [planMu] and [goalMu], so
    it is one step.

    [world] is what an operation takes from outside: the clock, the outcome of
    each write, fresh identifiers.  A write that reports an error may have
    reached the disk all the same.  The projection of a change on the events of
    the runtime is not modelled. *)

From S2P Require Import Prelude GoStrings GoBase RunCost RuntimeItem InputCoordinator ToolSchedule.
From S2P Require Import GoBase GoalData GoalPersistence.

Open Scope Z_scope.

(** ** State *)

Inductive write_answer := Written | NotWritten | WrittenUnacknowledged.
#[export] Instance write_answer_eq_dec : EqDecision write_answer.
Proof. solve_decision. Defined.

Record world := {
  w_clock : nat -> Z;                 (* the readings of the clock *)
  w_checkpoint : nat -> write_answer; (* the writes of the checkpoint *)
  w_ledger : write_answer;            (* the write of a usage record *)
  w_disk : nat -> bool;               (* the writes of the runtime input queue *)
  w_id : bytes;                       (* a fresh identifier *)
  w_transcript : option bool          (* whether the transcript reads, and has corrupt usage records *)
}.

Record goalTurnRuntime := { t_identity : goalExecutionIdentity; t_activeSince : Z; t_waiting : gset bytes }.
#[export] Instance eta_goalTurnRuntime : Eta goalTurnRuntime := fun x =>
  Build_goalTurnRuntime (t_identity x) (t_activeSince x) (t_waiting x).

(** The configuration of the engine, as far as the goal reads it. *)
Record goalConfig := {
  cfg_SessionID : bytes; cfg_ThreadID : bytes; cfg_AgentID : bytes; cfg_administrationOnly : bool;
  cfg_transcriptPath : option bytes; cfg_GoalCapability : option bool; cfg_entrypoint : bool
}.

(** An admitted call of a provider. *)
Record goalProviderUsageCall := { pc_admission : goalUsageAdmission; pc_settled : bool }.

Record engine := {
  q_goalState : option goalState; q_goalTurnRuntime : option goalTurnRuntime;
  q_planActiveTurnID : bytes; q_planContained : bool; q_input : option system;
  q_saved : option PersistedGoalState; q_ledger : list GoalUsageRecord;
  q_usageUncertain : bool; q_usageGate : bool; q_calls : list goalProviderUsageCall
}.
#[export] Instance eta_engine : Eta engine := fun x =>
  Build_engine (q_goalState x) (q_goalTurnRuntime x) (q_planActiveTurnID x) (q_planContained x) (q_input x)
    (q_saved x) (q_ledger x) (q_usageUncertain x) (q_usageGate x) (q_calls x).

Inductive goal_error :=
| GoalText (e : goal_text_error) | GoalBlockerKeyInvalid | GoalNotFound | GoalAlreadyExists | GoalUnavailable
| GoalUnsupportedScope | GoalPlanConflict | GoalTerminal | GoalBudget | GoalUsageUnavailable
| GoalTransitionInFlight (owner : bytes) | GoalUsageCapabilityUnavailable | GoalUsageAdmissionPending
| GoalUsageCoverageIncomplete | GoalRevisionExhausted | CoordinatorUnavailable | PersistGoalFailed
| RetireFailed (e : coordinator_error) | InvalidGoalTurn | NotBoundaryOwner | GoalTurnActive (owner : bytes)
| StaleTurnEvidence | WaitReasonRequired | StaleTerminalIdentity | SequenceExhausted | CursorFailed (e : cursor_error)
| NoActiveOwner | AlreadyDisposed | StaleContinuationIdentity | StaleContinuationState | StaleContinuationRevision
| StaleAdmittingState | ContinuationRejected | ContinuationNotAdmitted | StaleDelivery
| ContextDone | GateTaken | LogicalRoundRequired | CallIdentityUnavailable | AdmissionNotActive | StaleUsageBinding
| IncompleteExecutionIdentity | InvalidRootSubject | InvalidDescendantGeneration | LedgerRevisionExhausted
| InvalidUsageAdmission | UsageFailed (e : usage_error) | NilProviderUsage | NegativeTokens | CachedExceedsPrompt
| ReasoningExceedsCompletion | TokensOverflow | CommitUsageFailed | StaleCompletion | StaleRelease | StaleAmbiguous
| ControlConflict (reason : bytes) | GoalNotActive | BudgetRequired | UnsupportedOperation
| CapabilityUnavailable | LookupDeliveredFailed.

(** ** Helpers *)

Definition mutableGoalStateError (s : option goalState) : option goal_error :=
  match s with
  | None => Some GoalNotFound
  | Some s =>
      if g_unavailable s then Some GoalUnavailable else
      if is_some (g_PendingUsageAdmission s) then Some GoalUsageAdmissionPending else None
  end.

Definition goalBlocksPlan (s : option goalState) : bool :=
  match s with Some s => negb (g_unavailable s) && goal_active s | None => false end.

(** The cursor that is not yet disposed of. *)
Definition open_continuation (s : goalState) : option goalContinuationCursor :=
  if has_open_continuation s then g_Continuation s else None.

Definition dispose (d : goalContinuationDisposition) (reason : bytes) (at_time : Z) (c : goalContinuationCursor)
    : goalContinuationCursor :=
  c <| k_Disposition := d |> <| k_DispositionReason := reason |> <| k_DispositionAt := at_time |>.

Definition reject (reason : bytes) (at_time : Z) : goalContinuationCursor -> goalContinuationCursor :=
  dispose goalContinuationDispositionRejected reason at_time.

Inductive GoalLifecyclePhase :=
| GoalLifecycleCreated | GoalLifecycleObjectiveEdited | GoalLifecyclePaused | GoalLifecycleResumed
| GoalLifecycleBudgetUpdated | GoalLifecycleCleared.

Definition goalContinuationTransitionRejection (phase : GoalLifecyclePhase) : bytes :=
  match phase with
  | GoalLifecycleObjectiveEdited => lit "superseded-by-objective-edit"
  | GoalLifecyclePaused => lit "superseded-by-goal-pause"
  | GoalLifecycleBudgetUpdated => lit "superseded-by-budget-change"
  | GoalLifecycleResumed => lit "superseded-by-goal-resume"
  | _ => lit "superseded-by-goal-control"
  end.

(** A time given by a caller; the zero time stands for now. *)
Definition given (now : Z) (w : world) : Z := if now =? 0 then w_clock w 0 else now.

(** The milliseconds of [later.Sub(earlier)], a saturating difference. *)
Definition elapsed_millis (later earlier : Z) : Z := Z.min (later - earlier) MaxInt64 / Millisecond.

Section service.
Context `{!ItemChecks, !Digests, !GoalIdentityText} (clock : Z -> Z) (cfg : goalConfig).

Definition scope_of : RuntimeInputScope :=
  {| SessionID := cfg_SessionID cfg; ThreadID := cfg_ThreadID cfg; AgentID := cfg_AgentID cfg |}.

(** [persistSessionCheckpointMessagesLocked] with the goal [next]: whether it
    returns no error.  Without a recorder nothing is written. *)
Definition persist (w : world) (i : nat) (next : option goalState) (q : engine) : engine * bool :=
  match cfg_transcriptPath cfg with
  | None => (q, true)
  | Some _ =>
      match w_checkpoint w i with
      | Written => (q <| q_saved := next ≫= persistedGoalState |>, true)
      | WrittenUnacknowledged => (q <| q_saved := next ≫= persistedGoalState |>, false)
      | NotWritten => (q, false)
      end
  end.

(** Write the goal [next], then install it. *)
Definition commit_goal {A} (w : world) (i : nat) (next : goalState) (a : A) (q : engine)
    : engine * result goal_error A :=
  let '(q, ok) := persist w i (Some next) q in
  if ok then (q <| q_goalState := Some next |>, Ok a) else (q, Err PersistGoalFailed).

(** [validateGoalScopeLocked]: whether it returns no error. *)
Definition goal_scope : bool :=
  negb (cfg_administrationOnly cfg)
  && negb (blank (cfg_SessionID cfg)) && negb (blank (cfg_ThreadID cfg)) && blank (cfg_AgentID cfg)
  && match cfg_transcriptPath cfg with Some p => negb (blank p) | None => false end.

(** [goalWorkflowEnabled]; [cfg_entrypoint] tells whether the entry point of the
    process is one that may run goals. *)
Definition goalWorkflowEnabled : bool :=
  match cfg_GoalCapability cfg with Some enabled => enabled | None => false end
  && cfg_entrypoint cfg && goal_scope.

(** [retireGoalContinuationItem] on a coordinator that may be missing. *)
Definition retireGoalContinuationItem (w : world) (i : nat) (itemID code : bytes) (at_time : Z) (c : option system)
    : option system * option goal_error :=
  match c with
  | None => (None, None)
  | Some s =>
      if blank itemID then (Some s, None) else
      match rejectGoalContinuation clock (w_disk w i) itemID code (time_field at_time) s with
      | (s, Err e) => (Some s, Some (RetireFailed e))
      | (s, Ok _) =>
          match Settle (w_disk w (S i)) [itemID] s with
          | (s, Err e) => (Some s, Some (RetireFailed e))
          | (s, Ok _) => (Some s, None)
          end
      end
  end.

(** The item of a cursor that was rejected leaves the queue. *)
Definition retire (w : world) (i : nat) (c : goalContinuationCursor) (q : engine) : engine * option goal_error :=
  let '(input, e) := retireGoalContinuationItem w i (k_ItemID c) (k_DispositionReason c) (k_DispositionAt c)
                       (q_input q) in
  (q <| q_input := input |>, e).

(** ** Transitions of the user *)

Definition in_flight (ownerTurnID : bytes) (q : engine) : option bytes :=
  if ((q_planActiveTurnID q <>b []) && (q_planActiveTurnID q <>b ownerTurnID)) || is_some (q_goalTurnRuntime q)
  then Some (if q_planActiveTurnID q ==b []
             then match q_goalTurnRuntime q with Some t => x_GoalTurnID (t_identity t) | None => [] end
             else q_planActiveTurnID q)
  else None.

Definition transition (w : world) (phase : GoalLifecyclePhase) (ownerTurnID : bytes)
    (build : option goalState -> bool -> Z -> result goal_error goalState) (q : engine)
    : engine * result goal_error goalState :=
  if negb goal_scope then (q, Err GoalUnsupportedScope) else
  match in_flight ownerTurnID q with
  | Some owner => (q, Err (GoalTransitionInFlight owner))
  | None =>
      match build (q_goalState q) (q_planContained q) (w_clock w 0) with
      | Err e => (q, Err e)
      | Ok next =>
          match q_goalState q with
          | Some s =>
              if (g_GoalID next ==b g_GoalID s) && (g_Revision next =? g_Revision s) then (q, Ok s) else
              match open_continuation s with
              | None => commit_goal w 0 next next q
              | Some c =>
                  if negb (is_some (q_input q)) then (q, Err CoordinatorUnavailable) else
                  let c := reject (goalContinuationTransitionRejection phase) (g_UpdatedAt next) c in
                  let next := next <| g_Continuation := Some c |> in
                  match commit_goal w 0 next next q with
                  | (q, Err e) => (q, Err e)
                  | (q, Ok next) => ((retire w 0 c q).1, Ok next)
                  end
              end
          | None => commit_goal w 0 next next q
          end
      end
  end.

Definition bump (s : goalState) (now : Z) : result goal_error goalState :=
  match nextGoalRevision s now with None => Err GoalRevisionExhausted | Some next => Ok next end.

(** The goal of a creation; [id] is [generateUUID()]. *)
Definition new_goal (id objective : bytes) (tokenBudget : option Z) (now : Z) : goalState := {|
  g_GoalID := id; g_Objective := objective; g_ObjectiveRevision := 1; g_Status := goalStatusActive;
  g_StatusReasonCode := []; g_StatusReason := []; g_Revision := 1; g_TokenBudget := tokenBudget;
  g_TokensUsed := 0; g_UsageLedgerRevision := 0; g_RootActiveTimeMillis := 0; g_ContinuationOrdinal := 0;
  g_Continuation := None; g_LastGoalTurnID := []; g_LastTerminalSequence := 0; g_PendingCompleteTurnID := [];
  g_PendingCompleteObjectiveRevision := 0; g_PendingUsageAdmission := None; g_BlockerKey := [];
  g_BlockerTurnIDs := []; g_CreatedAt := now; g_UpdatedAt := now; g_unavailable := false;
  g_unavailablePersistedRepresentation := None |}.

Definition create (w : world) (objective : bytes) (tokenBudget : option Z) (ownerTurnID : bytes) (q : engine)
    : engine * result goal_error goalState :=
  match normalizeGoalObjective objective with
  | Err e => (q, Err (GoalText e))
  | Ok objective =>
      if tokenBudget ==b Some 0 then (q, Err GoalBudget) else
      transition w GoalLifecycleCreated (TrimSpace ownerTurnID) (fun current contained now =>
        if contained then Err GoalPlanConflict else
        match current with
        | Some s => if g_Status s <>b goalStatusComplete then Err GoalAlreadyExists
                    else Ok (new_goal (w_id w) objective tokenBudget now)
        | None => Ok (new_goal (w_id w) objective tokenBudget now)
        end) q
  end.

(** What the other transitions of the user require first: a goal that may
    change. *)
Definition on_mutable (f : goalState -> result goal_error goalState) (current : option goalState)
    : result goal_error goalState :=
  match current with
  | None => Err GoalNotFound
  | Some s =>
      match mutableGoalStateError current with
      | Some e => Err e
      | None => f s
      end
  end.

Definition edit (w : world) (objective : bytes) (ownerTurnID : bytes) (q : engine)
    : engine * result goal_error goalState :=
  match normalizeGoalObjective objective with
  | Err e => (q, Err (GoalText e))
  | Ok objective =>
      transition w GoalLifecycleObjectiveEdited (TrimSpace ownerTurnID) (fun current _ now =>
        on_mutable (fun s =>
          if g_Status s ==b goalStatusComplete then Err GoalTerminal else
          if (g_ObjectiveRevision s =? MaxUint64) || (g_Revision s =? MaxUint64) then Err GoalRevisionExhausted else
          Ok (resetGoalTurnEvidence
                (s <| g_Objective := objective |> <| g_ObjectiveRevision := g_ObjectiveRevision s + 1 |>
                   <| g_Revision := g_Revision s + 1 |> <| g_UpdatedAt := now |>))) current) q
  end.

Definition pause (w : world) (ownerTurnID : bytes) (q : engine) : engine * result goal_error goalState :=
  transition w GoalLifecyclePaused (TrimSpace ownerTurnID) (fun current _ now =>
    on_mutable (fun s =>
      if g_Status s ==b goalStatusComplete then Err GoalTerminal else
      if (g_Status s ==b goalStatusPaused) && (g_StatusReasonCode s ==b goalReasonUserPaused) then Ok s else
      match bump s now with
      | Err e => Err e
      | Ok next =>
          Ok (resetGoalTurnEvidence (with_status goalStatusPaused goalReasonUserPaused (lit "paused by user") next))
      end) current) q.

Definition resume (w : world) (ownerTurnID : bytes) (q : engine) : engine * result goal_error goalState :=
  transition w GoalLifecycleResumed (TrimSpace ownerTurnID) (fun current contained now =>
    on_mutable (fun s =>
      if contained then Err GoalPlanConflict else
      if g_Status s ==b goalStatusComplete then Err GoalTerminal else
      if goal_active s then Ok s else
      if g_Status s ==b goalStatusUsageLimited then Err GoalUsageUnavailable else
      if negb (goalBudgetHasRemaining (g_TokenBudget s) (g_TokensUsed s)) then Err GoalBudget else
      match bump s now with
      | Err e => Err e
      | Ok next => Ok (resetGoalTurnEvidence (with_status goalStatusActive [] [] next))
      end) current) q.

Definition setBudget (w : world) (tokenBudget : Z) (ownerTurnID : bytes) (q : engine)
    : engine * result goal_error goalState :=
  if tokenBudget =? 0 then (q, Err GoalBudget) else
  transition w GoalLifecycleBudgetUpdated (TrimSpace ownerTurnID) (fun current _ now =>
    on_mutable (fun s =>
      if g_Status s ==b goalStatusComplete then Err GoalTerminal else
      match bump s now with
      | Err e => Err e
      | Ok next =>
          let next := next <| g_TokenBudget := Some tokenBudget |> in
          Ok (if goal_active next && (tokenBudget <=? g_TokensUsed next) then
                resetGoalTurnEvidence
                  (with_status goalStatusBudgetLimited goalReasonBudgetExhausted goalBudgetReached next)
              else next)
      end) current) q.

Definition clearForTurn (w : world) (ownerTurnID : bytes) (q : engine) : engine * result goal_error unit :=
  let owner := TrimSpace ownerTurnID in
  if (q_planActiveTurnID q <>b []) && (q_planActiveTurnID q <>b owner)
  then (q, Err (GoalTransitionInFlight (q_planActiveTurnID q))) else
  match q_goalState q with
  | None => (q, Ok tt)
  | Some s =>
      if is_some (g_PendingUsageAdmission s) then (q, Err GoalUsageAdmissionPending) else
      if negb goal_scope then (q, Err GoalUnsupportedScope) else
      let erase (i : nat) (q : engine) : engine * result goal_error unit :=
        let '(q, ok) := persist w i None q in
        if ok then (q <| q_goalState := None |> <| q_goalTurnRuntime := None |>, Ok tt)
        else (q, Err PersistGoalFailed) in
      match open_continuation s with
      | None => erase 0%nat q
      | Some c =>
          if negb (is_some (q_input q)) then (q, Err CoordinatorUnavailable) else
          match bump s (w_clock w 0) with
          | Err e => (q, Err e)
          | Ok rejected =>
              let c := reject (lit "superseded-by-goal-clear") (g_UpdatedAt rejected) c in
              match commit_goal w 0 (rejected <| g_Continuation := Some c |>) tt q with
              | (q, Err e) => (q, Err e)
              | (q, Ok _) =>
                  match retire w 0 c q with
                  | (q, Some e) => (q, Err e)
                  | (q, None) => erase 1%nat q
                  end
              end
          end
      end
  end.

Definition clear (w : world) (q : engine) : engine * result goal_error unit := clearForTurn w [] q.

(** ** Control requests: compare and set *)

Inductive GoalControlOperation :=
| GoalControlCreate | GoalControlEdit | GoalControlPause | GoalControlResume | GoalControlBudget
| GoalControlClear | GoalControlContinue | GoalControlOther (s : bytes).
#[export] Instance GoalControlOperation_eq_dec : EqDecision GoalControlOperation.
Proof. solve_decision. Defined.

Record GoalControlRequest := {
  c_Operation : GoalControlOperation; c_ExpectedGoalID : bytes; c_ExpectedRevision : Z;
  c_Objective : bytes; c_TokenBudget : option Z
}.

Record GoalControlResult := { cr_Goal : option goalState; cr_Cleared : bool; cr_RequiresPrompt : bool }.

Definition validateGoalControlExpectation (r : GoalControlRequest) (current : option goalState)
    : option goal_error :=
  if c_Operation r ==b GoalControlCreate then
    if negb (c_ExpectedRevision r =? 0) || negb (blank (c_ExpectedGoalID r))
    then Some (ControlConflict (lit "create requires revision zero and no Goal ID")) else
    if is_some current then Some (ControlConflict (lit "Goal state already exists")) else None
  else if (c_ExpectedRevision r =? 0) || blank (c_ExpectedGoalID r)
  then Some (ControlConflict (lit "an exact Goal ID and positive revision are required")) else
  match current with
  | None => Some (ControlConflict (lit "Goal state no longer exists"))
  | Some s =>
      if (c_ExpectedGoalID r <>b g_GoalID s) || negb (c_ExpectedRevision r =? g_Revision s)
      then Some (ControlConflict (lit "Goal ID or revision changed")) else None
  end.

(** [GoalCommandAvailability]. *)
Definition goal_command_available (q : engine) : bool := goalWorkflowEnabled && negb (q_planContained q).

(** [ApplyGoalControl] runs under [goalControlMu], which only the operations of
    the user take, and it holds the locks of the goal twice: for the snapshot
    that the expectation is compared with, and for the change.  The rest of the
    session runs in between, so they are two steps: [checkGoalControl] gives the
    snapshot, and [commitGoalControl] makes the change from it. *)
Definition checkGoalControl (r : GoalControlRequest) (q : engine) : result goal_error (option goalState) :=
  if negb (goal_command_available q) then Err CapabilityUnavailable else
  let current := q_goalState q in
  match validateGoalControlExpectation r current with
  | Some e => Err e
  | None => Ok current
  end.

Definition commitGoalControl (w : world) (r : GoalControlRequest) (current : option goalState) (q : engine)
    : engine * result goal_error GoalControlResult :=
  let changed (x : engine * result goal_error goalState) : engine * result goal_error GoalControlResult :=
    match x with
    | (q, Err e) => (q, Err e)
    | (q, Ok s) =>
        if match current with Some c => g_Revision s =? g_Revision c | None => false end
        then (q, Err (ControlConflict (lit "operation would not change Goal state")))
        else (q, Ok {| cr_Goal := Some s; cr_Cleared := false;
                       cr_RequiresPrompt := ((c_Operation r ==b GoalControlCreate)
                         || (c_Operation r ==b GoalControlResume)) && goal_active s |})
    end in
  match c_Operation r with
  | GoalControlContinue =>
      let state := q_goalState q in
      match mutableGoalStateError state with
      | Some e => (q, Err e)
      | None =>
          match validateGoalControlExpectation r state with
          | Some e => (q, Err e)
          | None =>
              if (q_planActiveTurnID q <>b []) || is_some (q_goalTurnRuntime q)
              then (q, Err (GoalTransitionInFlight [])) else
              if negb (match state with Some s => goal_active s | None => false end)
              then (q, Err GoalNotActive) else
              (q, Ok {| cr_Goal := state; cr_Cleared := false; cr_RequiresPrompt := true |})
          end
      end
  | GoalControlCreate => changed (create w (c_Objective r) (c_TokenBudget r) [] q)
  | GoalControlEdit => changed (edit w (c_Objective r) [] q)
  | GoalControlPause => changed (pause w [] q)
  | GoalControlResume => changed (resume w [] q)
  | GoalControlBudget =>
      match c_TokenBudget r with
      | None | Some 0 => (q, Err BudgetRequired)
      | Some budget => changed (setBudget w budget [] q)
      end
  | GoalControlClear =>
      match clear w q with
      | (q, Err e) => (q, Err e)
      | (q, Ok _) => (q, Ok {| cr_Goal := None; cr_Cleared := true; cr_RequiresPrompt := false |})
      end
  | GoalControlOther _ => (q, Err UnsupportedOperation)
  end.

(** The two steps with nothing in between. *)
Definition ApplyGoalControl (w : world) (r : GoalControlRequest) (q : engine)
    : engine * result goal_error GoalControlResult :=
  match checkGoalControl r q with
  | Err e => (q, Err e)
  | Ok current => commitGoalControl w r current q
  end.

(** ** Turns *)

(** [stopActiveIntervalLocked]: the time since the turn became active is added,
    up to the largest [int64]. *)
Definition stopActiveInterval (t : goalTurnRuntime) (s : goalState) (now : Z) : goalTurnRuntime * goalState :=
  if t_activeSince t =? 0 then (t, s) else
  let elapsed := elapsed_millis now (t_activeSince t) in
  (t <| t_activeSince := 0 |>,
   if (t_activeSince t <? now) && (0 <? elapsed) then
     s <| g_RootActiveTimeMillis :=
            if MaxInt64 - elapsed <? g_RootActiveTimeMillis s then MaxInt64 else g_RootActiveTimeMillis s + elapsed |>
   else s).

Definition runtimeItemsEqualForGoalClaim (left right : RuntimeItem) : bool :=
  runtimeItemsEqual (left <| i_State := RuntimeItemPending |>) (right <| i_State := RuntimeItemPending |>).

(** [validateGoalContinuationAdmission] for the state [s] with the cursor
    [c]. *)
Definition check_continuation_state (s : goalState) (c : goalContinuationCursor) : option goal_error :=
  if (g_GoalID s <>b k_GoalID c) || negb (g_ObjectiveRevision s =? k_ObjectiveRevision c)
     || negb (g_LastTerminalSequence s =? k_PredecessorTerminalSequence c)
     || negb (sameGoalTokenBudget (g_TokenBudget s) (k_TokenBudget c))
     || negb (g_TokensUsed s =? k_TokensUsed c) || negb (g_UsageLedgerRevision s =? k_UsageLedgerRevision c)
     || negb (g_ContinuationOrdinal s =? k_ContinuationOrdinal c) || is_some (g_PendingUsageAdmission s)
     || negb (goalBudgetHasRemaining (g_TokenBudget s) (g_TokensUsed s))
  then Some StaleContinuationState else
  match k_Disposition c with
  | goalContinuationDispositionPending =>
      if negb (g_Revision s =? k_GoalRevision c) || (g_LastGoalTurnID s <>b k_PredecessorGoalTurnID c)
      then Some StaleContinuationRevision else None
  | goalContinuationDispositionAdmitting =>
      if (g_Revision s <=? k_GoalRevision c) || (g_LastGoalTurnID s <>b k_ContinuationTurnID c)
      then Some StaleAdmittingState else None
  | _ => None
  end.

Definition validateGoalContinuationAdmission (s : goalState) (item : RuntimeItem) (scope : RuntimeInputScope)
    (turnID : bytes) : result goal_error goalContinuationCursor :=
  if g_unavailable s || negb (goal_active s) then Err NoActiveOwner else
  match g_Continuation s with
  | None => Err NoActiveOwner
  | Some c =>
      if negb (has_open_continuation s) then Err AlreadyDisposed else
      if negb (runtimeGoalContinuationMatchesCursor item c) || negb (runtimeScopesEqual scope (i_Scope item))
         || (turnID <>b k_ContinuationTurnID c)
      then Err StaleContinuationIdentity else
      match check_continuation_state s c with
      | Some e => Err e
      | None => Ok c
      end
  end.

(** [rejectContinuationAdmissionLocked]: it always ends in an error. *)
Definition rejectContinuationAdmission (w : world) (current : goalState) (c : goalContinuationCursor)
    (reason : bytes) (now : Z) (q : engine) : engine * goal_error :=
  match bump current now with
  | Err e => (q, e)
  | Ok next =>
      let c := reject (TrimSpace reason) now c in
      match commit_goal w 0 (next <| g_Continuation := Some c |>) tt q with
      | (q, Err e) => (q, e)
      | (q, Ok _) => ((retire w 0 c q).1, ContinuationRejected)
      end
  end.

(** The next goal; only the rejection installs a goal itself. *)
Definition beginContinuationTurn (w : world) (turnID : bytes) (item : RuntimeItem) (input : system)
    (current : goalState) (now : Z) (q : engine) : engine * result goal_error goalState :=
  match validateGoalContinuationAdmission current item scope_of turnID with
  | Err e => (q, Err e)
  | Ok c =>
      if k_Disposition c ==b goalContinuationDispositionAdmitting then (q, Ok current) else
      let eligible (claimed : RuntimeItem) (runtimeRevision : Z) : bool :=
        runtimeItemsEqualForGoalClaim claimed item && (k_RuntimeRevision c <? runtimeRevision)
        && negb (g_Revision current =? MaxUint64) in
      match withGoalContinuationAdmission (i_ID item) scope_of eligible input with
      | Err UserInputPending =>
          let '(q, e) := rejectContinuationAdmission w current c (lit "superseded-by-explicit-user-input") now q in
          (q, Err e)
      | Err _ => (q, Err ContinuationNotAdmitted)
      | Ok _ =>
          let next := current <| g_Revision := g_Revision current + 1 |> <| g_UpdatedAt := now |>
                        <| g_LastGoalTurnID := turnID |>
                        <| g_Continuation := Some (dispose goalContinuationDispositionAdmitting
                                                     (lit "continuation-turn-admitted") now c) |> in
          let '(q, ok) := persist w 0 (Some next) q in
          if ok then (q, Ok next) else (q, Err PersistGoalFailed)
      end
  end.

(** The goal of a turn that a user starts, or that starts on its own. *)
Definition begin_plain_turn (turnID : bytes) (userSteering : bool) (current : goalState) (now : Z)
    : result goal_error goalState :=
  match bump current now with
  | Err e => Err e
  | Ok next =>
      let next := next <| g_LastGoalTurnID := turnID |> in
      let next := if userSteering then resetGoalTurnEvidence next else next in
      Ok (match open_continuation next with
          | Some c =>
              next <| g_Continuation := Some (reject (if userSteering then lit "superseded-by-user-steering"
                                                      else lit "superseded-by-new-goal-turn") now c) |>
          | None => next
          end)
  end.

Definition turn_runtime (turnID : bytes) (s : goalState) (now : Z) : goalTurnRuntime := {|
  t_identity := {| x_GoalID := g_GoalID s; x_ObjectiveRevision := g_ObjectiveRevision s;
                   x_RootSessionID := cfg_SessionID cfg; x_RootThreadID := cfg_ThreadID cfg;
                   x_RootAgentID := cfg_AgentID cfg; x_GoalTurnID := turnID |};
  t_activeSince := now; t_waiting := ∅ |}.

(** [Ok None]: the turn does not work for a goal. *)
Definition beginTurn (w : world) (turnID : bytes) (userSteering : bool) (continuation : option RuntimeItem)
    (now : Z) (q : engine) : engine * result goal_error (option goalExecutionIdentity) :=
  if negb (validateGoalTurnID turnID) then (q, Err InvalidGoalTurn) else
  let now := given now w in
  let wanted := is_some continuation || userSteering in
  if wanted && negb (is_some (q_input q)) then (q, Err CoordinatorUnavailable) else
  if q_planActiveTurnID q <>b turnID then (q, Err NotBoundaryOwner) else
  match q_goalState q with
  | None => (q, Ok None)
  | Some s =>
      if g_unavailable s || negb (goal_active s) then (q, Ok None) else
      if is_some (g_PendingUsageAdmission s) then (q, Err GoalUsageAdmissionPending) else
      if negb goal_scope then (q, Err GoalUnsupportedScope) else
      match q_goalTurnRuntime q with
      | Some t => (q, Err (GoalTurnActive (x_GoalTurnID (t_identity t))))
      | None =>
          let start (next : goalState) (q : engine) :=
            let t := turn_runtime turnID next now in
            (q <| q_goalState := Some next |> <| q_goalTurnRuntime := Some t |>, Ok (Some (t_identity t))) in
          match continuation, q_input q with
          | Some item, Some input =>
              match beginContinuationTurn w turnID item input s now q with
              | (q, Err e) => (q, Err e)
              | (q, Ok next) => start next q
              end
          | Some _, None => (q, Err CoordinatorUnavailable)
          | None, input =>
              match begin_plain_turn turnID userSteering s now with
              | Err e => (q, Err e)
              | Ok next =>
                  match persist w 0 (Some next) q with
                  | (q, false) => (q, Err PersistGoalFailed)
                  | (q, true) =>
                      match g_Continuation next with
                      | Some c =>
                          if k_Disposition c ==b goalContinuationDispositionRejected then
                            let '(input, e) := retireGoalContinuationItem w 0 (k_ItemID c) (k_DispositionReason c)
                                                 now (if wanted then input else None) in
                            let q := if wanted then q <| q_input := input |> else q in
                            match e with
                            | Some e => (q <| q_goalState := Some next |>, Err e)
                            | None => start next q
                            end
                          else start next q
                      | None => start next q
                      end
                  end
              end
          end
      end
  end.

(** [commitTurnEvidence]; [report] tells that the phase is the report of a
    blocker, and [mutate] changes the next goal and the turn. *)
Definition commitTurnEvidence (w : world) (report : bool) (goalID : bytes) (objectiveRevision : Z) (turnID : bytes)
    (now : Z) (mutate : goalTurnRuntime -> goalState -> Z -> goalTurnRuntime * goalState) (q : engine)
    : engine * result goal_error goalState :=
  if negb (validateGoalTurnID turnID) then (q, Err InvalidGoalTurn) else
  let now := given now w in
  match q_goalState q with
  | None => (q, Err GoalNotFound)
  | Some s =>
      match mutableGoalStateError (Some s) with
      | Some e => (q, Err e)
      | None =>
          if negb (goal_active s) || (g_GoalID s <>b TrimSpace goalID)
             || negb (g_ObjectiveRevision s =? objectiveRevision) || (g_LastGoalTurnID s <>b turnID)
          then (q, Err StaleTurnEvidence) else
          match q_goalTurnRuntime q with
          | None => (q, Err StaleTurnEvidence)
          | Some t =>
              if x_GoalTurnID (t_identity t) <>b turnID then (q, Err StaleTurnEvidence) else
              match bump s now with
              | Err e => (q, Err e)
              | Ok next =>
                  let '(t, next) := mutate t next now in
                  let q := q <| q_goalTurnRuntime := Some t |> in
                  if report && (g_BlockerKey next ==b g_BlockerKey s)
                     && (length (g_BlockerTurnIDs next) =? length (g_BlockerTurnIDs s))%nat
                  then (q, Ok s)
                  else commit_goal w 0 next next q
              end
          end
      end
  end.

Definition requestCompletion (w : world) (goalID : bytes) (objectiveRevision : Z) (turnID : bytes) (now : Z)
    : engine -> engine * result goal_error goalState :=
  commitTurnEvidence w false goalID objectiveRevision turnID now (fun t next _ =>
    (t, next <| g_PendingCompleteTurnID := turnID |> <| g_PendingCompleteObjectiveRevision := objectiveRevision |>)).

(** What the report of a blocker does to the goal; the third distinct turn with
    the same key blocks it. *)
Definition add_blocker (key reason turnID : bytes) (t : goalTurnRuntime) (next : goalState) (now : Z)
    : goalTurnRuntime * goalState :=
  let next := if g_BlockerKey next <>b key then next <| g_BlockerKey := key |> <| g_BlockerTurnIDs := [] |> else next in
  if bool_decide (turnID ∈ g_BlockerTurnIDs next) then (t, next) else
  let next := next <| g_BlockerTurnIDs ::= fun l => l ++ [turnID] |> in
  if (length (g_BlockerTurnIDs next) <? 3)%nat then (t, next) else
  stopActiveInterval t
    (with_status goalStatusBlocked (lit "model-blocker") reason
       (next <| g_BlockerTurnIDs ::= fun l => drop (length l - 3) l |>)) now.

Definition reportBlocker (w : world) (goalID : bytes) (objectiveRevision : Z) (turnID reason blockerKey : bytes)
    (now : Z) (q : engine) : engine * result goal_error goalState :=
  match normalizeGoalReason reason with
  | Err e => (q, Err (GoalText e))
  | Ok reason =>
      match normalizeGoalBlockerKey blockerKey with
      | None => (q, Err GoalBlockerKeyInvalid)
      | Some key =>
          commitTurnEvidence w true goalID objectiveRevision turnID now (add_blocker key reason turnID) q
      end
  end.

(** [pauseTurnFor] and [resumeTurnFor]: whether the goal changed.  A failed
    write gives the turn its state back. *)
Definition pauseTurnFor (w : world) (reason : bytes) (now : Z) (q : engine) : engine * result goal_error bool :=
  let reason := TrimSpace reason in
  if reason ==b [] then (q, Err WaitReasonRequired) else
  let now := given now w in
  match q_goalTurnRuntime q, q_goalState q with
  | Some t, Some s =>
      if g_unavailable s || negb (goal_active s) then (q, Ok false) else
      if bool_decide (reason ∈ t_waiting t) then (q, Ok false) else
      match bump s now with
      | Err e => (q, Err e)
      | Ok next =>
          let '(t, next) := if bool_decide (t_waiting t = ∅) then stopActiveInterval t next now else (t, next) in
          let t := t <| t_waiting ::= fun l => {[ reason ]} ∪ l |> in
          match commit_goal w 0 next true q with
          | (q, Ok b) => (q <| q_goalTurnRuntime := Some t |>, Ok b)
          | r => r
          end
      end
  | _, _ => (q, Ok false)
  end.

Definition resumeTurnFor (w : world) (reason : bytes) (now : Z) (q : engine) : engine * result goal_error bool :=
  let reason := TrimSpace reason in
  if reason ==b [] then (q, Err WaitReasonRequired) else
  let now := given now w in
  match q_goalTurnRuntime q, q_goalState q with
  | Some t, Some s =>
      if negb (bool_decide (reason ∈ t_waiting t)) then (q, Ok false) else
      match bump s now with
      | Err e => (q, Err e)
      | Ok next =>
          let t := t <| t_waiting ::= fun l => l ∖ {[ reason ]} |> in
          let t := if bool_decide (t_waiting t = ∅) && goal_active next then t <| t_activeSince := now |> else t in
          match commit_goal w 0 next true q with
          | (q, Ok b) => (q <| q_goalTurnRuntime := Some t |>, Ok b)
          | r => r
          end
      end
  | _, _ => (q, Ok false)
  end.

Definition abandonTurn (goalTurnID : bytes) (q : engine) : engine :=
  match q_goalTurnRuntime q with
  | Some t => if x_GoalTurnID (t_identity t) ==b TrimSpace goalTurnID then q <| q_goalTurnRuntime := None |> else q
  | None => q
  end.

Definition hasPendingGoalSteering (items : list RuntimeItem) : bool :=
  existsb (fun i => (is_pending i || is_processing i) && is_user_kind (i_Kind i)) items.

Definition goalContinuationEligible (s : goalState) (t : goalTurnRuntime) (terminal : bytes) : bool :=
  goal_active s && (terminal ==b TerminalCompleted) && bool_decide (t_waiting t = ∅)
  && (g_PendingCompleteTurnID s ==b []) && (g_PendingCompleteObjectiveRevision s =? 0)
  && negb (is_some (g_PendingUsageAdmission s)) && goalBudgetHasRemaining (g_TokenBudget s) (g_TokensUsed s).

Definition completion_reason : bytes := lit "matching completion request reached the safe terminal boundary".

(** The completion of the goal at the end of a turn. *)
Definition settle_completion (terminal : bytes) (identity : goalExecutionIdentity) (waiting : bool)
    (input : option system) (next : goalState) : goalState :=
  let next :=
    if (terminal <>b TerminalCompleted) && (g_PendingCompleteTurnID next ==b x_GoalTurnID identity)
    then next <| g_PendingCompleteTurnID := [] |> <| g_PendingCompleteObjectiveRevision := 0 |> else next in
  if goalWorkflowEnabled && (terminal ==b TerminalCompleted)
     && (g_PendingCompleteTurnID next ==b x_GoalTurnID identity)
     && (g_PendingCompleteObjectiveRevision next =? x_ObjectiveRevision identity)
     && negb (is_some (g_PendingUsageAdmission next))
     && match input with Some s => negb (hasPendingGoalSteering (Snapshot scope_of s)) | None => false end
     && negb waiting
  then resetGoalTurnEvidence (with_status goalStatusComplete [] completion_reason next)
  else next.

(** [commitGoalTerminalEvents]: [identity] is the goal of the envelope and
    [sequence] the last sequence number of the thread; the result is the
    sequence of the terminal. *)
Definition commitGoalTerminalEvents (w : world) (identity : goalExecutionIdentity) (sequence : Z) (terminal : bytes)
    (q : engine) : engine * result goal_error Z :=
  let now := w_clock w 0 in
  match q_goalTurnRuntime q, q_goalState q with
  | Some t, Some s =>
      if (x_GoalTurnID (t_identity t) <>b x_GoalTurnID identity) || (g_GoalID s <>b x_GoalID identity)
         || negb (g_ObjectiveRevision s =? x_ObjectiveRevision identity)
      then (q, Err StaleTerminalIdentity) else
      if MaxUint64 - 2 <? sequence then (q, Err SequenceExhausted) else
      let terminalSequence := sequence + 2 in
      match bump s now with
      | Err e => (q, Err e)
      | Ok next =>
          let next := (stopActiveInterval t next now).2 in
          let next := next <| g_LastTerminalSequence := terminalSequence |> in
          let next := settle_completion terminal identity (negb (bool_decide (t_waiting t = ∅))) (q_input q) next in
          let continued :=
            if goalContinuationEligible next t terminal then
              match q_input q with
              | None => Err CoordinatorUnavailable
              | Some input =>
                  match newGoalContinuationCursor next scope_of terminal terminalSequence now
                          (c_revision (coord input)) with
                  | Err e => Err (CursorFailed e)
                  | Ok c => Ok (next <| g_ContinuationOrdinal := k_ContinuationOrdinal c |>
                                     <| g_Continuation := Some c |>)
                  end
              end
            else Ok next in
          match continued with
          | Err e => (q, Err e)
          | Ok next =>
              match commit_goal w 0 next terminalSequence q with
              | (q, Err e) => (q, Err e)
              | (q, Ok sequence) =>
                  let q := q <| q_goalTurnRuntime := None |> in
                  match g_Continuation next, q_input q with
                  | Some c, Some input =>
                      if k_Disposition c ==b goalContinuationDispositionPending then
                        let '(input, _) := enqueueDormantGoalContinuation clock (w_disk w 0)
                                             (goalContinuationRuntimeItem c) input in
                        (q <| q_input := Some input |>, Ok sequence)
                      else (q, Ok sequence)
                  | _, _ => (q, Ok sequence)
                  end
              end
          end
      end
  | _, _ => (q, Err StaleTerminalIdentity)
  end.

Definition pauseForCancellation (w : world) (now : Z) (q : engine) : engine * result goal_error unit :=
  let now := given now w in
  match q_goalState q with
  | None => (q, Ok tt)
  | Some s =>
      if g_unavailable s || negb (goal_active s) then (q, Ok tt) else
      match bump s now with
      | Err e => (q, Err e)
      | Ok next =>
          let next := resetGoalTurnEvidence
                        (with_status goalStatusPaused goalReasonUserCancelled
                           (lit "automatic Goal continuation was cancelled by the user") next) in
          let '(t, next) := match q_goalTurnRuntime q with
                            | Some t => let '(t, next) := stopActiveInterval t next now in (Some t, next)
                            | None => (None, next)
                            end in
          let q := q <| q_goalTurnRuntime := t |> in
          match open_continuation next with
          | None => commit_goal w 0 next tt q
          | Some c =>
              if negb (is_some (q_input q)) then (q, Err CoordinatorUnavailable) else
              let c := reject (lit "superseded-by-user-cancel") now c in
              match commit_goal w 0 (next <| g_Continuation := Some c |>) tt q with
              | (q, Err e) => (q, Err e)
              | (q, Ok _) => ((retire w 0 c q).1, Ok tt)
              end
          end
      end
  end.
End service.
