(* ===== verification/GoalCalls.v ===== *)
(** * Model calls of a goal, and its recovery

    [src/engine/goal_usage.go] and [src/engine/goal_usage_normalize.go]: a call
    of a provider made for a goal is admitted before it is sent, one at a time,
    and settled once: its usage is recorded in the ledger and added to the goal,
    or it is released, or the goal is limited because its usage is unknown.

    [src/engine/goal_continuation.go] and [src/engine/goal_persistence.go]: the
    delivery of a continuation, and what a restart makes of the saved goal. *)

From S2P Require Import Prelude GoStrings GoBase RunCost RuntimeItem InputCoordinator ToolSchedule.
From S2P Require Import GoBase GoalData GoalPersistence GoalService.

Open Scope Z_scope.

(** ** Reported usage *)

Record normalizedGoalProviderUsage := {
  n_PromptTokens : Z; n_CachedPromptTokens : Z; n_CompletionTokens : Z; n_ReasoningTokens : Z;
  n_TotalTokens : Z; n_BillableTokens : Z
}.

Definition normalizeGoalProviderUsage (usage : option TokenUsage) : result goal_error normalizedGoalProviderUsage :=
  match usage with
  | None => Err NilProviderUsage
  | Some u =>
      if existsb (fun v => v <? 0)
           [u_PromptTokens u; u_CachedTokens u; u_CompletionTokens u; u_TotalTokens u; u_ReasoningTokens u]
      then Err NegativeTokens else
      let prompt := u_PromptTokens u in
      let cached := u_CachedTokens u in
      let completion := u_CompletionTokens u in
      let reasoning := u_ReasoningTokens u in
      if prompt <? cached then Err CachedExceedsPrompt else
      if completion <? reasoning then Err ReasoningExceedsCompletion else
      if MaxUint64 <? prompt + completion then Err TokensOverflow else
      let total := Z.max (u_TotalTokens u) (prompt + completion) in
      Ok {| n_PromptTokens := prompt; n_CachedPromptTokens := cached; n_CompletionTokens := completion;
            n_ReasoningTokens := reasoning; n_TotalTokens := total; n_BillableTokens := total - cached |}
  end.

(** ** The reporter *)

Record goalUsageSubject := {
  sub_SessionID : bytes; sub_ThreadID : bytes; sub_AgentID : bytes; sub_AgentGeneration : Z
}.

(** The capability to report usage, of the root or of a descendant; [r_service]
    tells whether it reaches the service. *)
Record goalUsageReporter := {
  r_service : bool; r_binding : goalExecutionIdentity; r_subject : goalUsageSubject; r_revoked : bool
}.

Definition validateGoalUsageReporter (s : option goalState) (r : goalUsageReporter) : option goal_error :=
  match s with
  | None => Some GoalNotFound
  | Some s =>
      if g_unavailable s then Some GoalUnavailable else
      if r_revoked r || negb (goalExecutionIdentity_valid (r_binding r))
      then Some GoalUsageCapabilityUnavailable else
      if (g_GoalID s <>b x_GoalID (r_binding r))
         || negb (g_ObjectiveRevision s =? x_ObjectiveRevision (r_binding r))
         || (g_LastGoalTurnID s <>b x_GoalTurnID (r_binding r))
      then Some StaleUsageBinding else
      let sub := r_subject r in
      if blank (sub_SessionID sub) || blank (sub_ThreadID sub) then Some IncompleteExecutionIdentity else
      if sub_AgentID sub ==b [] then
        if negb (sub_AgentGeneration sub =? 0) || (sub_SessionID sub <>b x_RootSessionID (r_binding r))
           || (sub_ThreadID sub <>b x_RootThreadID (r_binding r))
        then Some InvalidRootSubject else None
      else if sub_AgentGeneration sub <=? 0 then Some InvalidDescendantGeneration else None
  end.

(** The admission of a call: [pending] is the revision the ledger has after
    it. *)
Definition admission_of (r : goalUsageReporter) (d : ProviderUsageDescriptor) (pending : Z) (providerCallID : bytes)
    (now : Z) : goalUsageAdmission :=
  let b := r_binding r in
  {| a_Version := PersistedGoalUsageAdmissionVersion; a_LedgerRevision := pending; a_GoalID := x_GoalID b;
     a_ObjectiveRevision := x_ObjectiveRevision b; a_RootSessionID := x_RootSessionID b;
     a_RootThreadID := x_RootThreadID b; a_RootAgentID := x_RootAgentID b;
     a_ExecutingSessionID := sub_SessionID (r_subject r); a_ExecutingThreadID := sub_ThreadID (r_subject r);
     a_ExecutingAgentID := sub_AgentID (r_subject r);
     a_ExecutingAgentGeneration := sub_AgentGeneration (r_subject r); a_GoalTurnID := x_GoalTurnID b;
     a_LogicalRoundID := TrimSpace (d_LogicalRoundID d); a_LogicalRequestID := TrimSpace (d_LogicalRequestID d);
     a_ModelAttemptID := TrimSpace (d_ModelAttemptID d); a_ModelAttemptIndex := d_ModelAttemptIndex d;
     a_ModelProfile := TrimSpace (d_ModelProfile d); a_ModelRetryIndex := d_ModelRetryIndex d;
     a_ProviderCallID := providerCallID; a_AdmittedAt := now |}.

Section calls.
Context `{!ItemChecks, !Digests, !GoalIdentityText} (clock : Z -> Z) (cfg : goalConfig).

Definition loadGoalUsageLedger (w : world) (q : engine) : loaded_usage :=
  match cfg_transcriptPath cfg, w_transcript w with
  | Some _, Some corrupt => Some (corrupt, q_ledger q)
  | _, _ => None
  end.

(** What [admitProviderUsage] does once it is its turn and no error stops it:
    an admission left from an earlier call is reconciled with the ledger, then
    the new one is written. *)
Definition reconcile_pending (w : world) (s : goalState) (q : engine) : engine * result goal_error goalState :=
  if negb (is_some (g_PendingUsageAdmission s)) then (q, Ok s) else
  let '(next, changed, errs) := reconcileGoalUsageState s (loadGoalUsageLedger w q) (w_clock w 0) in
  let after (q : engine) (s : goalState) : engine * result goal_error goalState :=
    match errs with
    | [] => (q, Ok s)
    | e :: _ => (q, Err (UsageFailed e))
    end in
  if changed then
    match persist cfg w 0 (Some next) q with
    | (q, false) => (q, Err PersistGoalFailed)
    | (q, true) => after (q <| q_goalState := Some next |>) next
    end
  else after q s.

Definition admissible (s : option goalState) (r : goalUsageReporter) : result goal_error goalState :=
  match validateGoalUsageReporter s r with
  | Some e => Err e
  | None => match s with
            | None => Err GoalNotFound
            | Some s => if goal_active s then Ok s else Err AdmissionNotActive
            end
  end.

Definition admit_next (w : world) (r : goalUsageReporter) (d : ProviderUsageDescriptor) (providerCallID : bytes)
    (s : goalState) (q : engine) : engine * result goal_error goalUsageAdmission :=
  if is_some (g_PendingUsageAdmission s) then (q, Err GoalUsageAdmissionPending) else
  if g_UsageLedgerRevision s =? MaxUint64 then (q, Err LedgerRevisionExhausted) else
  match bump s (w_clock w 1) with
  | Err e => (q, Err e)
  | Ok next =>
      let a := admission_of r d (g_UsageLedgerRevision s + 1) providerCallID (w_clock w 1) in
      if negb (validateGoalUsageAdmission a) then (q, Err InvalidUsageAdmission) else
      commit_goal cfg w 1 (next <| g_PendingUsageAdmission := Some a |>) a q
  end.

(** [admitProviderUsage]; [cancelled] tells that the select took the end of the
    context.  The index of the call is the result; [GateTaken]: the admission
    waits for the call in progress, and nothing has changed. *)
Definition admitProviderUsage (w : world) (cancelled : bool) (r : goalUsageReporter) (d : ProviderUsageDescriptor)
    (providerCallID : bytes) (q : engine) : engine * result goal_error nat :=
  if cancelled then (q, Err ContextDone) else
  if negb (q_usageGate q) then (q, Err GateTaken) else
  if q_usageUncertain q then (q, Err GoalUsageCoverageIncomplete) else
  match admissible (q_goalState q) r with
  | Err e => (q, Err e)
  | Ok s =>
      match reconcile_pending w s q with
      | (q, Err e) => (q, Err e)
      | (q, Ok s) =>
          match admissible (Some s) r with
          | Err e => (q, Err e)
          | Ok s =>
              match admit_next w r d providerCallID s q with
              | (q, Err e) => (q, Err e)
              | (q, Ok a) =>
                  (q <| q_usageGate := false |>
                     <| q_calls ::= fun l => l ++ [{| pc_admission := a; pc_settled := false |}] |>,
                   Ok (length (q_calls q)))
              end
          end
      end
  end.

(** [AdmitProviderUsage] of a reporter. *)
Definition AdmitProviderUsage (w : world) (cancelled : bool) (r : goalUsageReporter) (d : ProviderUsageDescriptor)
    (q : engine) : engine * result goal_error nat :=
  if negb (r_service r) || r_revoked r then (q, Err GoalUsageCapabilityUnavailable) else
  if blank (d_LogicalRoundID d) then (q, Err LogicalRoundRequired) else
  if blank (w_id w) then (q, Err CallIdentityUnavailable) else
  admitProviderUsage w cancelled r d (w_id w) q.

(** ** Settling a call *)

(** The errors joined, none for success. *)
Abbreviation errors := (list goal_error).
Definition joined (r : engine * result goal_error unit) : engine * errors :=
  match r with (q, Err e) => (q, [e]) | (q, Ok _) => (q, []) end.

(** [cancelled] tells that the cause is the end of the context. *)
Definition markProviderUsageAmbiguous (w : world) (a : goalUsageAdmission) (cancelled : bool) (q : engine)
    : engine * errors :=
  let q := q <| q_usageUncertain := true |> in
  match q_goalState q with
  | Some s =>
      if g_PendingUsageAdmission s <>b Some a then (q, [StaleAmbiguous]) else
      match bump s (w_clock w 0) with
      | Err e => (q, [e])
      | Ok next =>
          joined (commit_goal cfg w 0
            (resetGoalTurnEvidence
               (with_status goalStatusUsageLimited goalReasonUsageCoverageIncomplete
                  (if cancelled then lit "provider dispatch was canceled without exact final usage"
                   else lit "provider dispatch may have occurred without exact final usage") next)) tt q)
      end
  | None => (q, [StaleAmbiguous])
  end.

Definition releaseProviderUsageBeforeDispatch (w : world) (a : goalUsageAdmission) (q : engine) : engine * errors :=
  match q_goalState q with
  | Some s =>
      if g_PendingUsageAdmission s <>b Some a then (q, [StaleRelease]) else
      match bump s (w_clock w 0) with
      | Err e => (q, [e])
      | Ok next => joined (commit_goal cfg w 0 (next <| g_PendingUsageAdmission := None |>) tt q)
      end
  | None => (q, [StaleRelease])
  end.

(** [RecordGoalUsage] of the transcript: whether it returns no error. *)
Definition recordGoalUsage (w : world) (r : GoalUsageRecord) (q : engine) : engine * bool :=
  if negb (is_some (cfg_transcriptPath cfg)) || negb (ValidateGoalUsageRecord r)
     || match cfg_transcriptPath cfg with Some p => p ==b [] | None => true end
  then (q, false) else
  match w_ledger w with
  | Written => (q <| q_ledger ::= fun l => l ++ [r] |>, true)
  | WrittenUnacknowledged => (q <| q_ledger ::= fun l => l ++ [r] |>, false)
  | NotWritten => (q, false)
  end.

(** One step, although the source writes the record before it takes the locks of
    the goal: what the session does between the two is ordered before the step.
    A stop between the two is the checkpoint of the step that is not written. *)
Definition completeProviderUsage (w : world) (a : goalUsageAdmission) (usage : option TokenUsage) (q : engine)
    : engine * errors :=
  let ambiguous (q : engine) (e : goal_error) :=
    let '(q, es) := markProviderUsageAmbiguous w a false q in (q, e :: es) in
  match normalizeGoalProviderUsage usage with
  | Err e => ambiguous q e
  | Ok n =>
      let r := usage_record_of a (n_PromptTokens n) (n_CachedPromptTokens n) (n_CompletionTokens n)
                 (n_ReasoningTokens n) (n_TotalTokens n) (n_BillableTokens n) in
      if negb (ValidateGoalUsageRecord r) then ambiguous q InvalidUsageAdmission else
      match recordGoalUsage w r q with
      | (q, false) => ambiguous q CommitUsageFailed
      | (q, true) =>
          match q_goalState q with
          | None => (q, [GoalNotFound])
          | Some s =>
              match g_PendingUsageAdmission s with
              | None => if l_LedgerRevision r <=? g_UsageLedgerRevision s then (q, [])
                        else (q, [GoalUsageAdmissionPending])
              | Some pending =>
                  if pending <>b a then (q, [StaleCompletion]) else
                  match applyGoalUsageRecord s r (w_clock w 0) with
                  | Err e => (q, [UsageFailed e])
                  | Ok next => joined (commit_goal cfg w 0 next tt q)
                  end
              end
          end
      end
  end.

Inductive settlement :=
| CompleteProviderUsage (usage : option TokenUsage)
| ReleaseProviderUsageBeforeDispatch
| MarkProviderUsageAmbiguous (cancelled : bool).

Definition run_settlement (w : world) (a : goalUsageAdmission) (o : settlement) (q : engine) : engine * errors :=
  match o with
  | CompleteProviderUsage usage => completeProviderUsage w a usage q
  | ReleaseProviderUsageBeforeDispatch => releaseProviderUsageBeforeDispatch w a q
  | MarkProviderUsageAmbiguous cancelled => markProviderUsageAmbiguous w a cancelled q
  end.

(** [settle]: the first settlement of a call runs and then frees the gate; the
    others do nothing. *)
Definition settle (w : world) (call : nat) (o : settlement) (q : engine) : engine * errors :=
  match q_calls q !! call with
  | None => (q, [])
  | Some c =>
      if pc_settled c then (q, []) else
      let q := q <| q_calls ::= <[call := {| pc_admission := pc_admission c; pc_settled := true |}]> |> in
      let '(q, es) := run_settlement w (pc_admission c) o q in
      (q <| q_usageGate := true |>, es)
  end.

(** ** Delivery and recovery of a continuation *)

Definition markContinuationDelivered (w : world) (itemID turnID : bytes) (now : Z) (q : engine)
    : engine * result goal_error unit :=
  let now := given now w in
  match q_goalState q with
  | Some s =>
      match g_Continuation s with
      | Some c =>
          if (k_ItemID c <>b TrimSpace itemID) || (k_ContinuationTurnID c <>b TrimSpace turnID)
             || (k_Disposition c <>b goalContinuationDispositionAdmitting)
          then (q, Err StaleDelivery) else
          match bump s now with
          | Err e => (q, Err e)
          | Ok next =>
              commit_goal cfg w 0
                (next <| g_Continuation := Some (dispose goalContinuationDispositionDelivered
                                                   (lit "transcript-receipt-committed") now c) |>) tt q
          end
      | None => (q, Err StaleDelivery)
      end
  | None => (q, Err StaleDelivery)
  end.

Definition settle_item (w : world) (i : nat) (itemID : bytes) (q : engine) : engine * result goal_error unit :=
  match q_input q with
  | None => (q, Ok tt)
  | Some input =>
      match Settle (w_disk w i) [itemID] input with
      | (input, Err e) => (q <| q_input := Some input |>, Err (RetireFailed e))
      | (input, Ok _) => (q <| q_input := Some input |>, Ok tt)
      end
  end.

(** [pauseRestoredGoalContinuation]. *)
Definition pauseRestoredGoalContinuation (w : world) (itemID : bytes) (disposition : goalContinuationDisposition)
    (reason : bytes) (q : engine) : engine * result goal_error unit :=
  let now := w_clock w 1 in
  match q_goalState q with
  | Some s =>
      match g_Continuation s with
      | Some c =>
          if k_ItemID c <>b TrimSpace itemID then (q, Ok tt) else
          match bump s now with
          | Err e => (q, Err e)
          | Ok next =>
              let next := resetGoalTurnEvidence
                (with_status goalStatusPaused goalReasonColdContinuationUnavailable
                   (lit "automatic continuation was paused during durable recovery") next
                 <| g_Continuation := Some (dispose disposition reason now c) |>) in
              match commit_goal cfg w 1 next tt q with
              | (q, Err e) => (q, Err e)
              | (q, Ok _) =>
                  if disposition ==b goalContinuationDispositionRejected then
                    match retireGoalContinuationItem clock w 0 itemID reason now (q_input q) with
                    | (input, Some e) => (q <| q_input := input |>, Err e)
                    | (input, None) => (q <| q_input := input |>, Ok tt)
                    end
                  else settle_item w 0 itemID q
              end
          end
      | None => (q, Ok tt)
      end
  | None => (q, Ok tt)
  end.

(** [reconcileRestoredGoalContinuation]; [lookup] is the transcript, which knows
    the items that were delivered. *)
Definition reconcileRestoredGoalContinuation (w : world)
    (lookup : option (list bytes -> option (gset bytes))) (q : engine) : engine * result goal_error unit :=
  match q_input q, q_goalState q with
  | Some input, Some s =>
      match g_Continuation s with
      | None => (q, Ok tt)
      | Some c =>
          match resolveDelivered lookup [k_ItemID c] (coord input) with
          | Err _ => (q, Err LookupDeliveredFailed)
          | Ok (co, covered) =>
              let q := q <| q_input := Some (input <| coord := co |>) |> in
              if bool_decide (k_ItemID c ∈ covered) then
                if k_Disposition c <>b goalContinuationDispositionDelivered
                then pauseRestoredGoalContinuation w (k_ItemID c) goalContinuationDispositionDelivered
                       (lit "transcript-receipt-recovered") q
                else settle_item w 0 (k_ItemID c) q
              else
              if is_some (cfg_GoalCapability cfg)
                 && (negb (default false (cfg_GoalCapability cfg)) || (goalWorkflowEnabled cfg && q_planContained q))
              then pauseRestoredGoalContinuation w (k_ItemID c)
                     (if k_Disposition c ==b goalContinuationDispositionDelivered
                      then goalContinuationDispositionDelivered else goalContinuationDispositionRejected)
                     (lit "goal-capability-disabled") q
              else
              match k_Disposition c with
              | goalContinuationDispositionRejected | goalContinuationDispositionDelivered =>
                  let '(input, e) :=
                    retireGoalContinuationItem clock w 0 (k_ItemID c)
                      (if k_DispositionReason c ==b [] then lit "restored-terminal-disposition"
                       else k_DispositionReason c)
                      (if k_DispositionAt c =? 0 then w_clock w 1 else k_DispositionAt c) (q_input q) in
                  (q <| q_input := input |>, match e with Some e => Err e | None => Ok tt end)
              | goalContinuationDispositionPending | goalContinuationDispositionAdmitting =>
                  match enqueueDormantGoalContinuation clock (w_disk w 0) (goalContinuationRuntimeItem c)
                          (input <| coord := co |>) with
                  | (input, Ok _) => (q <| q_input := Some input |>, Ok tt)
                  | (input, Err _) =>
                      pauseRestoredGoalContinuation w (k_ItemID c) goalContinuationDispositionRejected
                        (lit "recovery-item-conflict") (q <| q_input := Some input |>)
                  end
              | GoalContinuationDispositionOther _ => (q, Err ContinuationNotAdmitted)
              end
          end
      end
  | _, _ => (q, Ok tt)
  end.

(** A restart: the goal of the last checkpoint, reconciled with the ledger, is
    installed with the recovered coordinator [input]; it is then saved, and its
    continuation is put back.  This is the restart of the process, where the
    service, its gate and its calls are new; resuming another session in the same
    process keeps the service and is not modelled. *)
Definition restore (w : world) (input : option system) (q : engine) : engine := {|
  q_goalState := (restorePersistedGoalStateWithUsage (q_saved q) (cfg_AgentID cfg) (w_clock w 0)
                    (Some (loadGoalUsageLedger w q))).1;
  q_goalTurnRuntime := None; q_planActiveTurnID := []; q_planContained := q_planContained q;
  q_input := input; q_saved := q_saved q; q_ledger := q_ledger q; q_usageUncertain := false;
  q_usageGate := true; q_calls := [] |}.

Definition restart (w : world) (input : option system) (lookup : option (list bytes -> option (gset bytes)))
    (q : engine) : engine :=
  let q := restore w input q in
  match persist cfg w 0 (q_goalState q) q with
  | (q, false) => q
  | (q, true) => (reconcileRestoredGoalContinuation w lookup q).1
  end.

(** ** The operations of a session *)

Inductive op :=
| OpCreate (objective : bytes) (tokenBudget : option Z) (owner : bytes)
| OpEdit (objective owner : bytes)
| OpPause (owner : bytes)
| OpResume (owner : bytes)
| OpSetBudget (tokenBudget : Z) (owner : bytes)
| OpClear (owner : bytes)
| OpControl (r : GoalControlRequest)
| OpControlCommit (r : GoalControlRequest) (current : option goalState)
| OpBoundary (turnID : bytes) (contained : bool)
| OpInput (input : option system)
| OpBeginTurn (turnID : bytes) (userSteering : bool) (continuation : option RuntimeItem) (now : Z)
| OpRequestCompletion (goalID : bytes) (objectiveRevision : Z) (turnID : bytes) (now : Z)
| OpReportBlocker (goalID : bytes) (objectiveRevision : Z) (turnID reason blockerKey : bytes) (now : Z)
| OpPauseTurn (reason : bytes) (now : Z)
| OpResumeTurn (reason : bytes) (now : Z)
| OpAbandonTurn (turnID : bytes)
| OpTerminal (identity : goalExecutionIdentity) (sequence : Z) (terminal : bytes)
| OpCancel (now : Z)
| OpAdmit (cancelled : bool) (r : goalUsageReporter) (d : ProviderUsageDescriptor)
| OpSettle (call : nat) (o : settlement)
| OpDelivered (itemID turnID : bytes) (now : Z)
| OpCheckpoint
| OpRestart (input : option system) (lookup : option (list bytes -> option (gset bytes))).

(** [OpBoundary] and [OpInput] stand for the rest of the engine, which changes
    the turn that owns the boundary, the phase of the plan and the queue;
    [OpCheckpoint] is a checkpoint taken for another reason.  [OpControlCommit]
    is the second step of a control request, whatever snapshot the first step
    took before the operations in between; the first step changes nothing. *)
Definition run_op (w : world) (o : op) (q : engine) : engine :=
  match o with
  | OpCreate objective tokenBudget owner => (create clock cfg w objective tokenBudget owner q).1
  | OpEdit objective owner => (edit clock cfg w objective owner q).1
  | OpPause owner => (pause clock cfg w owner q).1
  | OpResume owner => (resume clock cfg w owner q).1
  | OpSetBudget tokenBudget owner => (setBudget clock cfg w tokenBudget owner q).1
  | OpClear owner => (clearForTurn clock cfg w owner q).1
  | OpControl r => (ApplyGoalControl clock cfg w r q).1
  | OpControlCommit r current => (commitGoalControl clock cfg w r current q).1
  | OpBoundary turnID contained => q <| q_planActiveTurnID := turnID |> <| q_planContained := contained |>
  | OpInput input => q <| q_input := input |>
  | OpBeginTurn turnID userSteering continuation now => (beginTurn clock cfg w turnID userSteering continuation now q).1
  | OpRequestCompletion goalID objectiveRevision turnID now =>
      (requestCompletion cfg w goalID objectiveRevision turnID now q).1
  | OpReportBlocker goalID objectiveRevision turnID reason blockerKey now =>
      (reportBlocker cfg w goalID objectiveRevision turnID reason blockerKey now q).1
  | OpPauseTurn reason now => (pauseTurnFor cfg w reason now q).1
  | OpResumeTurn reason now => (resumeTurnFor cfg w reason now q).1
  | OpAbandonTurn turnID => abandonTurn turnID q
  | OpTerminal identity sequence terminal => (commitGoalTerminalEvents clock cfg w identity sequence terminal q).1
  | OpCancel now => (pauseForCancellation clock cfg w now q).1
  | OpAdmit cancelled r d => (AdmitProviderUsage w cancelled r d q).1
  | OpSettle call o => (settle w call o q).1
  | OpDelivered itemID turnID now => (markContinuationDelivered w itemID turnID now q).1
  | OpCheckpoint => (persist cfg w 0 (q_goalState q) q).1
  | OpRestart input lookup => restart w input lookup q
  end.

(** A session with no goal. *)
Definition fresh (input : option system) : engine := {|
  q_goalState := None; q_goalTurnRuntime := None; q_planActiveTurnID := []; q_planContained := false;
  q_input := input; q_saved := None; q_ledger := []; q_usageUncertain := false; q_usageGate := true; q_calls := [] |}.

Definition run_ops (q : engine) (l : list (world * op)) : engine :=
  fold_left (fun q wo => run_op wo.1 wo.2 q) l q.
End calls.
