(* ===== verification/GoalMachine.v ===== *)
(** * The goal as an abstract machine

    What may happen to a goal, whatever the operation: a [change] touches one
    part of it under the conditions that the service must have checked, and a
    goal [evolves] when its revision grows by one, its time is set and some
    changes follow.  Above it, [write] says how the goal in memory and the goal
    of the last checkpoint move together: an evolved goal is written, installed
    when the write is acknowledged, and otherwise either lost or only on disk.

    The invariant [goal_ok] of a goal is kept by every change; [GoalRefinement]
    shows that the operations of the service are runs of this machine. *)

From S2P Require Import Prelude GoStrings GoBase RuntimeItem ToolSchedule.
From S2P Require Import GoalData GoalPersistence.

Open Scope Z_scope.

(** ** Texts *)

(** A text that an accepted input is normalised to; the reason of a status may
    be empty. *)
Definition accepted_objective (s : bytes) : Prop := exists t, normalizeGoalObjective t = Ok s.
Definition accepted_reason (s : bytes) : Prop := s = [] \/ exists t, normalizeGoalReason t = Ok s.
Definition accepted_key (s : bytes) : Prop := s = [] \/ normal_key s = true.

#[export] Hint Constructors NoDup : yhc.
#[global] Arguments validateGoalContinuationCursor : simpl never.
#[global] Arguments validateGoalUsageAdmission : simpl never.
#[global] Arguments ValidateGoalUsageRecord : simpl never.
#[global] Arguments goalUsageRecordMatchesAdmission : simpl never.
#[global] Arguments validateGoalTurnID : simpl never.
#[global] Arguments goalBudgetHasRemaining : simpl never.
#[global] Arguments normal_key : simpl never.

(** The goal in memory and the goal of the last checkpoint. *)
Abbreviation core := (option goalState * option PersistedGoalState)%type.

(** The records of usage that the transcript holds. *)
Class Ledger := ledger : list GoalUsageRecord.

Section machine.
Context `{HD : !Digests, HG : !GoalIdentityText, HL : !Ledger}.

(** ** Changes *)

Definition bumped (now : Z) (s : goalState) : goalState :=
  s <| g_Revision := g_Revision s + 1 |> <| g_UpdatedAt := now |>.

(** What a change concerns: the accounts of the goal, its completion, its
    recovery after a restart, or something else. *)
Inductive kind := plain | accounting | completing | recovering.
#[export] Instance kind_eq_dec : EqDecision kind.
Proof. solve_decision. Defined.

Inductive change : kind -> goalState -> goalState -> Prop :=
| ch_objective s obj :
    accepted_objective obj -> g_PendingUsageAdmission s = None -> g_Status s <> goalStatusComplete ->
    g_ObjectiveRevision s + 1 <= g_Revision s ->
    change plain s (resetGoalTurnEvidence
      (s <| g_Objective := obj |> <| g_ObjectiveRevision := g_ObjectiveRevision s + 1 |>))
| ch_reset s : change plain s (resetGoalTurnEvidence s)
| ch_status s k st code reason :
    k = plain /\ g_Status s <> goalStatusComplete \/ k = recovering ->
    knownGoalStatus st = true -> st <> goalStatusComplete -> accepted_key code -> accepted_reason reason ->
    (st = goalStatusActive ->
     goalBudgetHasRemaining (g_TokenBudget s) (g_TokensUsed s) = true) ->
    change k s (with_status st code reason s)
| ch_complete s reason :
    accepted_reason reason -> g_PendingUsageAdmission s = None ->
    change completing s (with_status goalStatusComplete [] reason s)
| ch_budget s budget :
    0 < budget -> (g_Status s = goalStatusActive -> g_TokensUsed s < budget) ->
    change plain s (s <| g_TokenBudget := Some budget |>)
| ch_cursor s c :
    validateGoalContinuationCursor c = None -> change plain s (s <| g_Continuation := Some c |>)
| ch_ordinal s n : change plain s (s <| g_ContinuationOrdinal := n |>)
| ch_turn s turnID :
    validateGoalTurnID turnID = true -> g_PendingUsageAdmission s = None ->
    change plain s (s <| g_LastGoalTurnID := turnID |>)
| ch_completion s turnID :
    validateGoalTurnID turnID = true ->
    change plain s (s <| g_PendingCompleteTurnID := turnID |>
                      <| g_PendingCompleteObjectiveRevision := g_ObjectiveRevision s |>)
| ch_no_completion s :
    change plain s (s <| g_PendingCompleteTurnID := [] |> <| g_PendingCompleteObjectiveRevision := 0 |>)
| ch_blocker s key turns :
    key <> [] -> normal_key key = true -> turns <> [] -> (length turns <= 3)%nat -> NoDup turns ->
    Forall (fun t => validateGoalTurnID t = true) turns ->
    change plain s (s <| g_BlockerKey := key |> <| g_BlockerTurnIDs := turns |>)
| ch_time s n : g_RootActiveTimeMillis s <= n <= MaxInt64 -> change plain s (s <| g_RootActiveTimeMillis := n |>)
| ch_sequence s n : change plain s (s <| g_LastTerminalSequence := n |>)
| ch_admit s a :
    g_PendingUsageAdmission s = None -> validateGoalUsageAdmission a = true -> a_GoalID a = g_GoalID s ->
    a_ObjectiveRevision a = g_ObjectiveRevision s -> a_LedgerRevision a = g_UsageLedgerRevision s + 1 ->
    a_LedgerRevision a <= MaxUint64 -> a_GoalTurnID a = g_LastGoalTurnID s -> a_AdmittedAt a = g_UpdatedAt s ->
    g_Status s <> goalStatusComplete ->
    change accounting s (s <| g_PendingUsageAdmission := Some a |>)
| ch_release s :
    (forall r, r ∈ ledger -> l_GoalID r = g_GoalID s -> l_LedgerRevision r <= g_UsageLedgerRevision s) ->
    change accounting s (s <| g_PendingUsageAdmission := None |>)
| ch_use s a r :
    g_PendingUsageAdmission s = Some a -> r ∈ ledger -> ValidateGoalUsageRecord r = true ->
    goalUsageRecordMatchesAdmission r a = true -> g_TokensUsed s + l_BillableTokens r <= MaxUint64 ->
    (g_Status s = goalStatusActive ->
     goalBudgetHasRemaining (g_TokenBudget s) (g_TokensUsed s + l_BillableTokens r) = true) ->
    change accounting s (s <| g_TokensUsed := g_TokensUsed s + l_BillableTokens r |>
                     <| g_UsageLedgerRevision := l_LedgerRevision r |> <| g_PendingUsageAdmission := None |>).

Definition changes (K : list kind) : goalState -> goalState -> Prop :=
  rtc (fun s s' => exists k, k ∈ plain :: K /\ change k s s').

Definition evolves (K : list kind) (s s' : goalState) : Prop :=
  exists now, 0 < now /\ g_UpdatedAt s <= now /\ g_Revision s < MaxUint64 /\ g_unavailable s = false
              /\ changes K (bumped now s) s'.

(** ** The invariant *)

Record goal_ok (s : goalState) : Prop := {
  ok_available : g_unavailable s = false;
  ok_id : validateGoalTurnID (g_GoalID s) = true;
  ok_objective : accepted_objective (g_Objective s);
  ok_objective_revision : 1 <= g_ObjectiveRevision s <= g_Revision s;
  ok_revision : g_Revision s <= MaxUint64;
  ok_status : knownGoalStatus (g_Status s) = true;
  ok_budget : forall b, g_TokenBudget s = Some b -> 0 < b;
  ok_active : g_Status s = goalStatusActive -> goalBudgetHasRemaining (g_TokenBudget s) (g_TokensUsed s) = true;
  ok_reason : accepted_reason (g_StatusReason s);
  ok_code : accepted_key (g_StatusReasonCode s);
  ok_key : accepted_key (g_BlockerKey s);
  ok_turns : (length (g_BlockerTurnIDs s) <= 3)%nat /\ NoDup (g_BlockerTurnIDs s)
             /\ Forall (fun t => validateGoalTurnID t = true) (g_BlockerTurnIDs s);
  ok_blocker : g_BlockerKey s = [] <-> g_BlockerTurnIDs s = [];
  ok_time : 0 <= g_RootActiveTimeMillis s <= MaxInt64;
  ok_stamps : 0 < g_CreatedAt s <= g_UpdatedAt s;
  ok_completion :
    (g_PendingCompleteTurnID s = [] /\ g_PendingCompleteObjectiveRevision s = 0)
    \/ (validateGoalTurnID (g_PendingCompleteTurnID s) = true
        /\ g_PendingCompleteObjectiveRevision s = g_ObjectiveRevision s);
  ok_turn : g_LastGoalTurnID s = [] \/ validateGoalTurnID (g_LastGoalTurnID s) = true;
  ok_cursor : forall c, g_Continuation s = Some c -> validateGoalContinuationCursor c = None;
  ok_tokens : 0 <= g_TokensUsed s <= MaxUint64;
  ok_ledger : 0 <= g_UsageLedgerRevision s <= MaxUint64;
  ok_admission : forall a, g_PendingUsageAdmission s = Some a ->
    validateGoalUsageAdmission a = true /\ a_GoalID a = g_GoalID s
    /\ a_ObjectiveRevision a = g_ObjectiveRevision s /\ a_LedgerRevision a = g_UsageLedgerRevision s + 1
    /\ a_LedgerRevision a <= MaxUint64 /\ a_GoalTurnID a = g_LastGoalTurnID s
    /\ g_CreatedAt s <= a_AdmittedAt a <= g_UpdatedAt s;
  ok_complete : g_Status s = goalStatusComplete -> g_PendingUsageAdmission s = None;
  ok_representation : g_unavailablePersistedRepresentation s = None
}.

Lemma accepted_reason_normal s : normal_reason s = true -> accepted_reason s.
Proof.
  unfold normal_reason, accepted_reason. destruct (normalizeGoalReason s) as [t|] eqn:E; [|done].
  intros ->%bool_decide_eq_true. eauto.
Qed.

Lemma validate_turn_nonempty t : validateGoalTurnID t = true -> t <> [].
Proof. by intros Hv ->. Qed.

Lemma billable_nonneg r : ValidateGoalUsageRecord r = true -> 0 <= l_BillableTokens r.
Proof. unfold ValidateGoalUsageRecord. intros Hv. breflect. lia. Qed.

Lemma record_revision r a : goalUsageRecordMatchesAdmission r a = true -> l_LedgerRevision r = a_LedgerRevision a.
Proof. unfold goalUsageRecordMatchesAdmission. intros Hm. breflect. lia. Qed.

(** Re-establishes the fields of the invariant that a change leaves alone. *)
Ltac ok_fields := cbn; try assumption.

Lemma goal_ok_bumped now s :
  goal_ok s -> g_UpdatedAt s <= now -> g_Revision s < MaxUint64 -> goal_ok (bumped now s).
Proof.
  intros [] Ht Hr. split; ok_fields; try lia.
  intros a Ha. destruct (ok_admission0 a Ha) as (?&?&?&?&?&?&?). repeat split; auto; lia.
Qed.

Lemma no_evidence : (length (A := bytes) [] <= 3)%nat /\ NoDup (A := bytes) []
  /\ Forall (fun t => validateGoalTurnID t = true) [].
Proof. repeat split; [cbn; lia|constructor..]. Qed.

Lemma goal_ok_change l s s' : change l s s' -> goal_ok s -> goal_ok s'.
Proof.
  intros Hc Hs. destruct Hs. destruct Hc; split; ok_fields;
    try solve [done | lia | by left | by right | by intros; simplify_eq | apply no_evidence | split; congruence].
  - intros Ha. apply Z.ltb_lt; auto.
  - intros a' [= <-]. repeat split; auto; lia.
  - pose proof (billable_nonneg r ltac:(assumption)). lia.
  - edestruct ok_admission0 as (_&_&_&?&?&_); [done|]. erewrite record_revision by done. lia.
Qed.

Lemma goal_ok_changes K s s' : changes K s s' -> goal_ok s -> goal_ok s'.
Proof. induction 1 as [|??? (l & _ & Hl)]; eauto using goal_ok_change. Qed.

Lemma goal_ok_evolves K s s' : evolves K s s' -> goal_ok s -> goal_ok s'.
Proof. intros (now & ? & ? & ? & _ & Hc) Hs. eauto using goal_ok_changes, goal_ok_bumped. Qed.

(** ** Runs of changes *)

Lemma changes_refl K s : changes K s s.
Proof. apply rtc_refl. Qed.

Lemma changes_step K k s1 s2 s3 : change k s1 s2 -> k ∈ plain :: K -> changes K s2 s3 -> changes K s1 s3.
Proof. intros Hc Hk Hr. eapply rtc_l; [|exact Hr]. eauto. Qed.

Lemma changes_snoc K k s1 s2 s3 : changes K s1 s2 -> change k s2 s3 -> k ∈ plain :: K -> changes K s1 s3.
Proof. intros Hr Hc Hk. eapply rtc_r; [exact Hr|]. eauto. Qed.

Lemma changes_trans K s1 s2 s3 : changes K s1 s2 -> changes K s2 s3 -> changes K s1 s3.
Proof. unfold changes. by etrans. Qed.

Lemma changes_mono K K' s s' : (forall k, k ∈ K -> k ∈ K') -> changes K s s' -> changes K' s s'.
Proof.
  intros HK. induction 1 as [|s1 s2 s3 (k & Hk & Hc) _ IH]; [apply changes_refl|].
  eapply changes_step; [exact Hc| |exact IH]. rewrite elem_of_cons in *. naive_solver.
Qed.

Lemma nextGoalRevision_Some s now b :
  nextGoalRevision s now = Some b -> b = bumped now s /\ g_Revision s <> MaxUint64.
Proof. unfold nextGoalRevision. destruct (Z.eqb_spec (g_Revision s) MaxUint64); [done|]. by intros [= <-]. Qed.

Lemma evolves_intro K s now s' :
  goal_ok s -> 0 < now -> g_UpdatedAt s <= now -> g_Revision s <> MaxUint64 -> changes K (bumped now s) s' ->
  evolves K s s'.
Proof.
  intros Hok H0 H1 H2 Hc. exists now. split_and!; try done; [|by apply ok_available].
  pose proof (ok_revision s Hok). lia.
Qed.

Lemma evolves_mono K K' s s' : (forall k, k ∈ K -> k ∈ K') -> evolves K s s' -> evolves K' s s'.
Proof. intros HK (now & ? & ? & ? & ? & Hc). exists now. split_and!; eauto using changes_mono. Qed.

(** What a change leaves alone. *)
Lemma change_frame k s s' :
  change k s s' ->
  g_GoalID s' = g_GoalID s /\ g_Revision s' = g_Revision s /\ g_UpdatedAt s' = g_UpdatedAt s
  /\ g_CreatedAt s' = g_CreatedAt s /\ g_unavailable s' = g_unavailable s
  /\ g_unavailablePersistedRepresentation s' = g_unavailablePersistedRepresentation s
  /\ g_RootActiveTimeMillis s <= g_RootActiveTimeMillis s'.
Proof. destruct 1; cbn; repeat split; try done; lia. Qed.

Lemma changes_frame K s s' :
  changes K s s' ->
  g_GoalID s' = g_GoalID s /\ g_Revision s' = g_Revision s /\ g_UpdatedAt s' = g_UpdatedAt s
  /\ g_CreatedAt s' = g_CreatedAt s /\ g_unavailable s' = g_unavailable s
  /\ g_unavailablePersistedRepresentation s' = g_unavailablePersistedRepresentation s
  /\ g_RootActiveTimeMillis s <= g_RootActiveTimeMillis s'.
Proof.
  induction 1 as [|s1 s2 s3 (k & _ & Hk)]; [repeat split; done|].
  apply change_frame in Hk. destruct_and!. repeat split; try congruence. lia.
Qed.

Lemma evolves_frame K s s' :
  evolves K s s' ->
  g_GoalID s' = g_GoalID s /\ g_Revision s' = g_Revision s + 1 /\ g_UpdatedAt s <= g_UpdatedAt s'
  /\ 0 < g_UpdatedAt s' /\ g_CreatedAt s' = g_CreatedAt s /\ g_unavailable s' = false
  /\ g_RootActiveTimeMillis s <= g_RootActiveTimeMillis s'.
Proof.
  intros (now & ? & ? & ? & ? & Hc). apply changes_frame in Hc. cbn in Hc. destruct_and!.
  repeat split; try congruence; lia.
Qed.

(** The accounts of a goal: what it has used, how many records of the ledger it
    has counted and the call it waits for. *)
Definition accounts (s : goalState) : Z * Z * option goalUsageAdmission :=
  (g_TokensUsed s, g_UsageLedgerRevision s, g_PendingUsageAdmission s).

Lemma changes_accounts K s s' : accounting ∉ K -> changes K s s' -> accounts s' = accounts s.
Proof.
  intros HK. induction 1 as [|s1 s2 s3 (k & Hin & Hk) _ IH]; [done|]. rewrite IH.
  destruct Hk; try done; apply elem_of_cons in Hin as [|]; done.
Qed.

Lemma evolves_accounts K s s' : accounting ∉ K -> evolves K s s' -> accounts s' = accounts s.
Proof. intros HK (now & _ & _ & _ & _ & Hc). by rewrite (changes_accounts _ _ _ HK Hc). Qed.

(** Completion is final, and comes only with a completing change. *)
Lemma changes_complete K s s' :
  recovering ∉ K -> changes K s s' -> g_Status s = goalStatusComplete -> g_Status s' = goalStatusComplete.
Proof.
  intros HK. induction 1 as [|s1 s2 s3 (k & Hin & Hk) _ IH]; [done|]. intros Hs. apply IH.
  destruct Hk; cbn; try done. destruct_or!; destruct_and?; subst; [done|].
  apply elem_of_cons in Hin as [|]; done.
Qed.

Lemma changes_completing K s s' :
  completing ∉ K -> changes K s s' -> g_Status s' = goalStatusComplete -> g_Status s = goalStatusComplete.
Proof.
  intros HK. induction 1 as [|s1 s2 s3 (k & Hin & Hk) _ IH]; [done|]. intros Hs. specialize (IH Hs). revert IH.
  destruct Hk; cbn; try done. apply elem_of_cons in Hin as [|]; done.
Qed.

(** ** Writes *)

Definition created (s : goalState) : Prop :=
  goal_ok s /\ g_Revision s = 1 /\ g_TokensUsed s = 0 /\ g_UsageLedgerRevision s = 0
  /\ g_PendingUsageAdmission s = None /\ (forall r, r ∈ ledger -> l_GoalID r <> g_GoalID s)
  /\ g_Status s = goalStatusActive.

Inductive next_goal (K : list kind) : option goalState -> goalState -> Prop :=
| next_evolved s s' : evolves K s s' -> next_goal K (Some s) s'
| next_created m s' :
    (forall s, m = Some s -> g_Status s = goalStatusComplete) -> created s' -> next_goal K m s'
| next_unavailable s s' :
    g_unavailable s = true -> g_unavailable s' = true ->
    g_unavailablePersistedRepresentation s' = g_unavailablePersistedRepresentation s ->
    g_Status s' <> goalStatusComplete -> next_goal K (Some s) s'.

Inductive write (K : list kind) : core -> core -> Prop :=
| write_goal m p s : next_goal K m s -> write K (m, p) (Some s, persistedGoalState s)
| write_unacknowledged m p s : next_goal K m s -> write K (m, p) (m, persistedGoalState s)
| write_erase m p : (forall s, m = Some s -> g_PendingUsageAdmission s = None) -> write K (m, p) (None, None)
| write_erase_unacknowledged m p :
    (forall s, m = Some s -> g_PendingUsageAdmission s = None) -> write K (m, p) (m, None)
| write_checkpoint m p : write K (m, p) (m, m ≫= persistedGoalState).

Definition mem_ok (m : option goalState) : Prop :=
  forall s, m = Some s ->
  goal_ok s \/
  (g_unavailable s = true /\ g_Status s <> goalStatusComplete /\
   exists s0, goal_ok s0 /\ g_unavailablePersistedRepresentation s = persistedGoalState s0).

Definition saved_ok (p : option PersistedGoalState) : Prop :=
  forall r, p = Some r -> exists s, goal_ok s /\ persistedGoalState s = Some r.

Definition core_ok (c : core) : Prop := mem_ok c.1 /\ saved_ok c.2.

Lemma mem_ok_persisted m s : mem_ok m -> m = Some s -> saved_ok (persistedGoalState s).
Proof.
  intros Hm ->. destruct (Hm s eq_refl) as [Hs|(Hu & _ & s0 & Hs0 & Hr)]; intros r Hr'; [by exists s|].
  exists s0. split; [done|]. rewrite <- Hr. unfold persistedGoalState in Hr'. by rewrite Hu in Hr'.
Qed.

Lemma next_goal_ok K m s : next_goal K m s -> mem_ok m -> mem_ok (Some s).
Proof.
  intros Hn Hm t [= <-]. destruct Hn as [s s' He|m s' _ [Hs' _]|s s' Hu Hu' Hr Hc]; [|by left|].
  - left. destruct (Hm s eq_refl) as [Hs|(Hu & _)]; [eauto using goal_ok_evolves|].
    destruct He as (? & _ & _ & _ & Ha & _). congruence.
  - right. destruct (Hm s eq_refl) as [[]|(_ & _ & s0 & Hs0 & Hr0)]; [congruence|].
    split_and!; [done|done|]. exists s0. split; congruence.
Qed.

Lemma write_ok K c c' : write K c c' -> core_ok c -> core_ok c'.
Proof.
  intros Hw [Hm Hp]. destruct Hw; cbn in *; split; cbn; try done.
  all: try (eapply next_goal_ok; by eauto).
  all: try (eapply mem_ok_persisted; [eapply next_goal_ok; by eauto|done]).
  destruct m as [s|]; [|done]. eapply mem_ok_persisted; done.
Qed.

Lemma writes_ok K c c' : rtc (write K) c c' -> core_ok c -> core_ok c'.
Proof. induction 1; eauto using write_ok. Qed.
End machine.

(** One step of a run of changes; the constants of the engine are accepted. *)
Ltac by_constant :=
  solve [ left; reflexivity | apply accepted_reason_normal; vm_compute; reflexivity | right; vm_compute; reflexivity ].
