(* ===== verification/GoalFacts.v ===== *)
(** * What a restart accepts

    Lemmas on the checks of a saved goal: when the ordered list of errors is
    empty, what survives normalisation, and, for a goal that satisfies
    [goal_ok], the only three grounds on which its own record can be refused. *)

From S2P Require Import Prelude GoStrings GoBase RuntimeItem ToolSchedule.
From S2P Require Import GoalData GoalPersistence GoalMachine.

Open Scope Z_scope.

(** ** Lists of errors *)

Lemma first_error_None {E} (l : list (bool * E)) :
  first_error l = None <-> Forall (fun be => be.1 = false) l.
Proof.
  induction l as [|[b e] l IH]; cbn; [split; auto|].
  rewrite Forall_cons. destruct b; cbn; [|rewrite IH]; naive_solver.
Qed.

Lemma orElse_None {E} (o o' : option E) : orElse o o' = None <-> o = None /\ o' = None.
Proof. destruct o; cbn; naive_solver. Qed.

Lemma check_blocker_turns_None seen turns :
  check_blocker_turns seen turns = None <->
  NoDup turns /\ Forall (fun t => validateGoalTurnID t = true) turns /\ Forall (fun t => t ∉ seen) turns.
Proof.
  revert seen. induction turns as [|t turns IH]; intros seen; cbn.
  - split; [intros _; split_and!; constructor|done].
  - rewrite NoDup_cons, !Forall_cons. destruct (validateGoalTurnID t); cbn; [|naive_solver].
    destruct (bool_decide_reflect (t ∈ seen)) as [Hin|Hin]; cbn; [naive_solver|]. rewrite IH, !Forall_forall.
    split.
    + intros (Hd & Hv & Hs). split_and!; auto.
      * intros Ht. apply (Hs t Ht). by left.
      * intros x Hx Hx'. apply (Hs x Hx). by right.
    + intros ((Hd & Hn) & (_ & Hv) & _ & Hs). split_and!; auto.
      intros x Hx [->|Hx']%elem_of_cons; [done|]. by apply (Hs x).
Qed.

(** ** Statuses and texts *)

Lemma goalStatus_of_string s : knownGoalStatus s = true -> goalStatus_of (goalStatus_string s) = s.
Proof. by destruct s. Qed.

Lemma goalStatus_string_inj s s' :
  knownGoalStatus s = true -> knownGoalStatus s' = true ->
  goalStatus_string s = goalStatus_string s' -> s = s'.
Proof. intros Hs Hs' He. by rewrite <- (goalStatus_of_string s), He, goalStatus_of_string. Qed.

Lemma goalStatus_string_trimmed s : knownGoalStatus s = true -> TrimSpace (goalStatus_string s) = goalStatus_string s.
Proof. by destruct s. Qed.

Lemma key_char_graphic f c : key_char f c = true -> graphic c = true.
Proof.
  unfold key_char, graphic, is_lower, is_digit, in_range.
  intros [[H|H]%orb_true_iff|H]%orb_true_iff; breflect.
  1,2: rewrite !N.leb_le in *; apply andb_true_iff; rewrite !N.leb_le; lia.
  repeat match goal with H : _ ∈ _ |- _ => apply elem_of_cons in H as [->|H] end; try done.
  by apply elem_of_nil in H0.
Qed.

Lemma key_char_lower f c : key_char f c = true -> lower_byte c = c.
Proof.
  unfold key_char, lower_byte, is_upper, is_lower, is_digit, in_range.
  intros [[H|H]%orb_true_iff|H]%orb_true_iff; breflect.
  1,2: rewrite !N.leb_le in *; destruct (_ && _) eqn:E; [|done]; breflect; rewrite !N.leb_le in *; lia.
  repeat match goal with H : _ ∈ _ |- _ => apply elem_of_cons in H as [->|H] end; try done.
  by apply elem_of_nil in H0.
Qed.

Lemma key_chars_all s : key_chars s = true -> Forall (fun c => exists f, key_char f c = true) s.
Proof.
  destruct s as [|c s]; [constructor|]. cbn. intros Hk; breflect. constructor; [eauto|].
  apply Forall_forall. intros x Hx. rewrite forallb_elem_of in *. eauto.
Qed.

Lemma key_chars_graphic s : key_chars s = true -> forallb graphic s = true.
Proof.
  intros Hk%key_chars_all. rewrite forallb_elem_of. rewrite Forall_forall in Hk.
  intros x Hx. destruct (Hk x Hx). eauto using key_char_graphic.
Qed.

Lemma ToLower_graphic s : forallb graphic s = true -> ToLower s = map lower_byte s.
Proof.
  assert (Hna : forall n c, graphic c = true -> (127 < n)%N -> byte_is n c = false).
  { unfold graphic, in_range, byte_is. intros n c Hg Hn; breflect. rewrite !N.leb_le in *. apply N.eqb_neq. lia. }
  induction s as [|a s IH]; [done|]. cbn [forallb]. intros [Ha Hs]%andb_true_iff.
  specialize (IH Hs).
  destruct s as [|b s]; [done|]. cbn [ToLower map]. rewrite (Hna 196%N a) by done. cbn [andb].
  destruct s as [|c s]; [done|].
  rewrite (Hna 226%N a) by done. cbn [andb]. by f_equal.
Qed.

Lemma normal_key_result s t : normalizeGoalBlockerKey s = Some t -> t <> [] /\ normal_key t = true.
Proof.
  unfold normalizeGoalBlockerKey at 1. set (key := ToLower (TrimSpace s)). clearbody key.
  intros Hn. destruct (_ || _) eqn:El; [done|]. destruct (key_chars key) eqn:Ek; [|done].
  injection Hn as <-. split; [by intros ->|].
  pose proof (key_chars_graphic _ Ek) as Hg.
  assert (HL : ToLower (TrimSpace key) = key).
  { rewrite graphic_trimmed by done. rewrite ToLower_graphic by done.
    apply key_chars_all in Ek. clear -Ek. induction Ek as [|c l [f Hf] _ IH]; cbn; [done|].
    by rewrite (key_char_lower f c Hf), IH. }
  unfold normal_key, normalizeGoalBlockerKey. rewrite HL, El, Ek. by apply bool_decide_eq_true.
Qed.

(** The texts of the engine itself are normal. *)
Lemma accepted_reason_nil : accepted_reason [].
Proof. by left. Qed.

Lemma accepted_key_nil : accepted_key [].
Proof. by left. Qed.

#[export] Hint Resolve accepted_reason_nil accepted_key_nil : yhc.

(** ** The record of a goal *)

Section record.
Context `{HD : !Digests, HG : !GoalIdentityText, HL : !Ledger}.

(** Whether the cursor of a goal still describes it. *)
Definition continuation_current (s : goalState) (c : goalContinuationCursor) : bool :=
  (k_GoalID c ==b g_GoalID s) && (k_ObjectiveRevision c =? g_ObjectiveRevision s)
  && (k_ContinuationOrdinal c =? g_ContinuationOrdinal s)
  && (k_PredecessorTerminalSequence c =? g_LastTerminalSequence s)
  && sameGoalTokenBudget (k_TokenBudget c) (g_TokenBudget s) && (k_TokensUsed c =? g_TokensUsed s)
  && (k_UsageLedgerRevision c =? g_UsageLedgerRevision s)
  && match k_Disposition c with
     | goalContinuationDispositionPending =>
         goal_active s && (k_PredecessorGoalTurnID c ==b g_LastGoalTurnID s) && (k_GoalRevision c =? g_Revision s)
     | goalContinuationDispositionAdmitting =>
         goal_active s && (g_LastGoalTurnID s ==b k_ContinuationTurnID c) && (k_GoalRevision c <? g_Revision s)
     | _ => k_GoalRevision c <=? g_Revision s
     end.

Definition restartable (s : goalState) : Prop :=
  normal_objective (g_Objective s) = true
  /\ (g_StatusReason s = [] \/ normal_reason (g_StatusReason s) = true)
  /\ forall c, g_Continuation s = Some c -> continuation_current s c = true.

Lemma goal_ok_persisted s : goal_ok s -> persistedGoalState s = Some (persisted_record s).
Proof. intros Hok. unfold persistedGoalState. by rewrite (ok_available s Hok). Qed.

Lemma goal_active_string s :
  knownGoalStatus (g_Status s) = true ->
  (goalStatus_string (g_Status s) ==b goalStatus_string goalStatusActive) = goal_active s.
Proof.
  intros Hs. unfold goal_active. apply bool_decide_ext. split; [|congruence].
  by apply goalStatus_string_inj.
Qed.

Lemma check_continuation_None s c :
  goal_ok s -> g_Continuation s = Some c ->
  check_continuation (persisted_record s) c = None <-> continuation_current s c = true.
Proof.
  intros Hok Hc. unfold check_continuation, continuation_current. rewrite (ok_cursor s Hok c Hc).
  cbn [persisted_record p_GoalID p_ObjectiveRevision
    p_ContinuationOrdinal p_LastTerminalSequence p_TokenBudget p_TokensUsed p_UsageLedgerRevision p_Status
    p_LastGoalTurnID p_Revision].
  rewrite goal_active_string by apply Hok. rewrite <- !negb_andb.
  destruct (_ && _ && _ && _ && _ && _ && _); cbn [negb andb]; [|naive_solver].
  rewrite !Z.leb_antisym.
  destruct (k_Disposition c); rewrite <- ?negb_andb;
    try destruct (goal_active s && _ && _); try destruct (g_Revision s <? k_GoalRevision c); cbn; naive_solver.
Qed.

Lemma check_admission_None s a :
  goal_ok s -> g_PendingUsageAdmission s = Some a -> check_admission (persisted_record s) a = None.
Proof.
  intros Hok Ha. destruct (ok_admission s Hok a Ha) as (Hv & Hid & Ho & Hl & Hm & Ht & Hc & Hu).
  pose proof (ok_ledger s Hok). apply first_error_None. cbn. rewrite Hv, Hid, Ho, Ht, <- Hl.
  rewrite u64_id by (unfold is_u64; lia). repeat constructor; cbn.
  - rewrite !bool_decide_true by done. rewrite !Z.eqb_refl. done.
  - rewrite !(proj2 (Z.ltb_ge _ _)) by lia. done.
Qed.

Lemma accepted_key_checked s : accepted_key s -> (s <>b []) && negb (normal_key s) = false.
Proof. intros [->|Hk]; [done|]. rewrite Hk. apply andb_false_r. Qed.

Lemma identity_checks_None s :
  goal_ok s ->
  first_error (identity_checks (persisted_record s) PersistedGoalStateVersion) = None <->
  normal_objective (g_Objective s) = true /\ (g_StatusReason s = [] \/ normal_reason (g_StatusReason s) = true).
Proof.
  intros [_ Hid _ Horev _ Hst Hb Hact _ Hco Hke (Hlen & _) Hbl _ _ _ _ _ _ _ _ _ _].
  rewrite first_error_None. unfold identity_checks. cbn [persisted_record p_GoalID p_Objective p_ObjectiveRevision
    p_Status p_StatusReasonCode p_StatusReason p_Revision p_TokenBudget p_TokensUsed p_BlockerKey p_BlockerTurnIDs].
  rewrite goalStatus_string_trimmed, goalStatus_of_string by done. rewrite !Forall_cons. cbn [fst].
  rewrite Hid, Hst, !accepted_key_checked by done. rewrite bool_decide_true by done. cbn [negb orb].
  rewrite (proj2 (Z.ltb_ge _ _)) by lia. rewrite !(proj2 (Z.eqb_neq _ _)) by lia.
  rewrite (proj2 (Nat.ltb_ge _ _)) by lia.
  assert (Hz : match g_TokenBudget s with Some 0 => true | _ => false end = false).
  { destruct (g_TokenBudget s) as [b|] eqn:E; [|done]. specialize (Hb b eq_refl). destruct b; lia. }
  assert (Ha : (g_Status s ==b goalStatusActive) && negb (goalBudgetHasRemaining (g_TokenBudget s) (g_TokensUsed s)) = false).
  { destruct (bool_decide_reflect (g_Status s = goalStatusActive)); [|done]. by rewrite Hact. }
  assert (Hbt : eqb (g_BlockerKey s ==b []) (length (g_BlockerTurnIDs s) =? 0)%nat = true).
  { apply eqb_true_iff. destruct (bool_decide_reflect (g_BlockerKey s = [])) as [Hk|Hk].
    - by rewrite (proj1 Hbl Hk).
    - destruct (g_BlockerTurnIDs s); [tauto|done]. }
  rewrite Hz, Hbt. cbn [negb]. change (PersistedGoalStateVersion <? PersistedGoalStateVersion) with false.
  cbn [andb orb]. rewrite Ha.
  destruct (normal_objective (g_Objective s)), (bool_decide_reflect (g_StatusReason s = [])),
    (normal_reason (g_StatusReason s)); cbn; naive_solver.
Qed.

Lemma accepted_turn_checked t :
  t = [] \/ validateGoalTurnID t = true -> (t <>b []) && negb (validateGoalTurnID t) = false.
Proof. intros [->|Hk]; [done|]. rewrite Hk. apply andb_false_r. Qed.

Lemma time_checks_None s : goal_ok s -> first_error (time_checks (persisted_record s)) = None.
Proof.
  intros [_ _ _ Horev _ _ _ _ _ _ _ _ _ Ht Hts Hcm Htu _ _ _ _ _ _]. apply first_error_None. unfold time_checks.
  cbn [persisted_record p_ObjectiveRevision p_RootActiveTimeMillis p_LastGoalTurnID p_PendingCompleteTurnID
    p_PendingCompleteObjectiveRevision p_CreatedAt p_UpdatedAt].
  rewrite !Forall_cons. cbn [fst]. rewrite !(proj2 (Z.ltb_ge _ _)) by lia.
  rewrite !(proj2 (Z.eqb_neq (g_CreatedAt s) _)), !(proj2 (Z.eqb_neq (g_UpdatedAt s) _)) by lia.
  rewrite !accepted_turn_checked by naive_solver.
  destruct Hcm as [[-> ->]|[Hv ->]]; [done|]. rewrite (proj2 (Z.eqb_neq _ 0)) by lia. rewrite Z.eqb_refl.
  rewrite bool_decide_false by (by apply validate_turn_nonempty). cbn. repeat constructor.
Qed.

(** The own record of a goal is refused only for an objective or a reason that
    is not a fixed point of the normalisation, or for a cursor that no longer
    describes the goal. *)
Lemma goal_ok_record s :
  goal_ok s -> validatePersistedGoalState (persisted_record s) = None <-> restartable s.
Proof.
  intros Hok. unfold validatePersistedGoalState, validatePersistedGoalStateFromVersion, restartable.
  rewrite !orElse_None, (identity_checks_None s Hok), (time_checks_None s Hok), check_blocker_turns_None.
  pose proof (fun c => check_continuation_None s c Hok) as Hcc. pose proof (fun a => check_admission_None s a Hok) as Hca.
  destruct (ok_turns s Hok) as (_ & Hnd & Hv). cbn [persisted_record p_Continuation p_PendingUsageAdmission
    p_BlockerTurnIDs].
  assert (Hn : Forall (fun t => t ∉ (@nil bytes)) (g_BlockerTurnIDs s)).
  { apply Forall_forall. intros t _. apply not_elem_of_nil. }
  assert (Ha : match g_PendingUsageAdmission s with
               | Some a => check_admission (persisted_record s) a | None => None end = None).
  { destruct (g_PendingUsageAdmission s); auto. }
  destruct (g_Continuation s) as [c|]; [rewrite (Hcc c eq_refl)|]; naive_solver.
Qed.

(** ** Reading a record back *)

Lemma from_persisted s : goal_ok s -> goalStateFromPersisted (persisted_record s) = s.
Proof.
  intros Hok. pose proof (ok_available s Hok) as Ha. pose proof (ok_representation s Hok) as Hr.
  pose proof (goalStatus_of_string _ (ok_status s Hok)) as Hs.
  destruct s; cbn in *. unfold goalStateFromPersisted, persisted_record. cbn. by rewrite Hs, Ha, Hr.
Qed.

Lemma goal_ok_version s : goal_ok s ->
  match p_PendingUsageAdmission (persisted_record s) with
  | Some a => negb (a_Version a =? PersistedGoalUsageAdmissionVersion)
  | None => false
  end = false.
Proof.
  intros Hok. cbn [persisted_record p_PendingUsageAdmission].
  destruct (g_PendingUsageAdmission s) as [a|] eqn:Ha; [|done].
  destruct (ok_admission s Hok a Ha) as (Hv & _). unfold validateGoalUsageAdmission in Hv. breflect.
  by destruct (_ =? _).
Qed.

(** The goal is limited because its usage is unknown. *)
Lemma limited_changes K s reason :
  accepted_reason reason -> g_Status s <> goalStatusComplete ->
  changes K s (resetGoalTurnEvidence (with_status goalStatusUsageLimited goalReasonUsageCoverageIncomplete reason s)).
Proof.
  intros Hr Hc. eapply changes_step; [apply (ch_status s plain goalStatusUsageLimited goalReasonUsageCoverageIncomplete reason);
    [by left|done|done|by_constant|exact Hr|done]|by left|].
  eapply changes_step; [apply ch_reset|by left|apply changes_refl].
Qed.

Lemma usageLimited_evolves s now reason s' changed es :
  goal_ok s -> 0 < now -> g_UpdatedAt s <= now -> accepted_reason reason ->
  usageLimitedGoalState s now reason = (s', changed, es) ->
  (changed = false /\ s' = s) \/ (changed = true /\ evolves [accounting] s s' /\ g_UpdatedAt s' = now).
Proof.
  intros Hok Hn Hu Hr. unfold usageLimitedGoalState.
  destruct (bool_decide_reflect (g_Status s = goalStatusComplete)) as [|Hc]; [intros [= <- <- _]; by left|].
  destruct (nextGoalRevision s now) as [b|] eqn:Eb; [|intros [= <- <- _]; by left].
  apply nextGoalRevision_Some in Eb as [-> Hm]. intros [= <- <- _]. right. split_and!; [done| |done].
  eapply evolves_intro; eauto. by apply limited_changes.
Qed.

Lemma applyGoalUsageRecord_evolves s r now s' :
  goal_ok s -> 0 < now -> g_UpdatedAt s <= now -> r ∈ ledger -> applyGoalUsageRecord s r now = Ok s' ->
  evolves [accounting] s s' /\ g_UpdatedAt s' = now
  /\ accounts s' = (g_TokensUsed s + l_BillableTokens r, l_LedgerRevision r, None).
Proof.
  intros Hok Hn Hu Hl. unfold applyGoalUsageRecord.
  destruct (g_PendingUsageAdmission s) as [a|] eqn:Ha; [|done].
  destruct (ValidateGoalUsageRecord r) eqn:Hv; [|done].
  destruct (goalUsageRecordMatchesAdmission r a) eqn:Hm; [|done]. cbn [negb].
  destruct (Z.ltb_spec (MaxUint64 - l_BillableTokens r) (g_TokensUsed s)) as [|Hb]; [done|].
  destruct (nextGoalRevision s now) as [b|] eqn:Eb; [|done]. apply nextGoalRevision_Some in Eb as [-> Hx].
  assert (Hc : g_Status s <> goalStatusComplete).
  { intros Hc. pose proof (ok_complete s Hok Hc). congruence. }
  assert (Hin : accounting ∈ [plain; accounting]) by (by right; left).
  assert (Huse : forall t, g_TokensUsed t = g_TokensUsed s -> g_PendingUsageAdmission t = Some a ->
    (g_Status t = goalStatusActive ->
     goalBudgetHasRemaining (g_TokenBudget t) (g_TokensUsed t + l_BillableTokens r) = true) ->
    change accounting t (t <| g_TokensUsed := g_TokensUsed t + l_BillableTokens r |>
                           <| g_UsageLedgerRevision := l_LedgerRevision r |> <| g_PendingUsageAdmission := None |>)).
  { intros t Ht Hp Hact. apply (ch_use t a); auto. lia. }
  set (used := bumped now s <| g_TokensUsed ::= fun n => n + l_BillableTokens r |>
                 <| g_UsageLedgerRevision := l_LedgerRevision r |> <| g_PendingUsageAdmission := None |>).
  assert (Hif : forall x y : goalState,
    match g_TokenBudget used with Some budget => if budget <=? g_TokensUsed used then x else y | None => y end
    = if goalBudgetHasRemaining (g_TokenBudget s) (g_TokensUsed s + l_BillableTokens r) then y else x).
  { intros x y. change (g_TokenBudget used) with (g_TokenBudget s).
    change (g_TokensUsed used) with (g_TokensUsed s + l_BillableTokens r). unfold goalBudgetHasRemaining.
    destruct (g_TokenBudget s) as [budget|]; [|done]. rewrite Z.leb_antisym. by destruct (_ <? _). }
  rewrite Hif. clear Hif. intros [= <-].
  destruct (goalBudgetHasRemaining _ _) eqn:Er; (split; [|split; done]); eapply evolves_intro; try done.
  - eapply changes_step; [apply (Huse (bumped now s)); done|done|apply changes_refl].
  - eapply changes_step; [apply (ch_status _ plain goalStatusBudgetLimited goalReasonBudgetExhausted goalBudgetReached);
      [by left|done|done|by_constant|by_constant|done]|by left|].
    eapply changes_step; [apply Huse; done|done|].
    eapply changes_step; [apply ch_reset|by left|apply changes_refl].
Qed.

(** A record that the inspection keeps is one of those it was given. *)
Lemma collect_usage_In s m l records (k : Z) r :
  collect_usage s m l = Ok records -> records !! k = Some r -> m !! k = Some r \/ r ∈ l.
Proof.
  revert m. induction l as [|x l IH]; intros m; cbn; [intros [= <-]; by left|].
  assert (Hkeep : forall m, collect_usage s m l = Ok records -> records !! k = Some r -> m !! k = Some r \/ r ∈ x :: l).
  { intros m' Hc Hr. destruct (IH m' Hc Hr); [by left|right; by right]. }
  destruct (_ <>b _); [by apply Hkeep|]. destruct (negb _); [done|]. destruct (_ <? _); [done|].
  destruct (m !! l_LedgerRevision x) eqn:Hm; [destruct (_ ==b _); [by apply Hkeep|done]|].
  intros Hc Hr. destruct (Hkeep _ Hc Hr) as [[[_ ->]|[_ Hk]]%lookup_insert_Some|]; [right; by left|by left|by right].
Qed.

Lemma inspect_In s loaded records (k : Z) r :
  inspectGoalUsageLedger s loaded = Ok records -> records !! k = Some r ->
  exists corrupt l, loaded = Some (corrupt, l) /\ r ∈ l.
Proof.
  unfold inspectGoalUsageLedger. destruct loaded as [[corrupt l]|].
  - destruct (corrupt && _); [done|]. destruct (collect_usage s ∅ l) as [rs|e] eqn:Ec; [|done].
    assert (Hin : rs !! k = Some r -> exists corrupt0 l0, Some (corrupt, l) = Some (corrupt0, l0) /\ r ∈ l0).
    { intros Hr. exists corrupt, l. split; [done|]. by destruct (collect_usage_In s ∅ l rs k r Ec Hr) as [Hx|]. }
    destruct (g_PendingUsageAdmission s) as [a|]; [destruct (_ || _); [done|]|];
      (destruct (negb (forallb _ _)); [done|]); (destruct (negb (_ =? _)); [done|]); intros [= <-]; exact Hin.
  - destruct (_ || _); [done|]. by intros [= <-].
Qed.

Lemma reconcile_evolves s loaded now s' changed es :
  goal_ok s -> 0 < now -> g_UpdatedAt s <= now -> (forall corrupt l, loaded = Some (corrupt, l) -> l = ledger) ->
  reconcileGoalUsageState s loaded now = (s', changed, es) ->
  (changed = false /\ s' = s) \/ (changed = true /\ evolves [accounting] s s' /\ g_UpdatedAt s' = now).
Proof.
  intros Hok Hn Hu Hl. unfold reconcileGoalUsageState.
  assert (Hlim : forall e reason, accepted_reason reason ->
    (let '(next, changed, es) := usageLimitedGoalState s now reason in (next, changed, e :: es)) = (s', changed, es) ->
    (changed = false /\ s' = s) \/ (changed = true /\ evolves [accounting] s s' /\ g_UpdatedAt s' = now)).
  { intros e reason Hr. destruct (usageLimitedGoalState s now reason) as [[next ch] es'] eqn:E. intros [= <- <- _].
    eapply usageLimited_evolves; eauto. }
  destruct (inspectGoalUsageLedger s loaded) as [records|e] eqn:Ei; [|apply Hlim; by_constant].
  destruct (g_PendingUsageAdmission s) as [a|] eqn:Ha; [|intros [= <- <- _]; by left].
  assert (Hc : g_Status s <> goalStatusComplete).
  { intros Hc. pose proof (ok_complete s Hok Hc). congruence. }
  destruct (records !! a_LedgerRevision a) as [r|] eqn:Hr.
  - destruct (applyGoalUsageRecord s r now) as [next|e] eqn:Eap; [|apply Hlim; by_constant].
    intros [= <- <- _]. right. split; [done|].
    destruct (inspect_In s loaded records _ r Ei Hr) as (corrupt & l & Hload & Hin). rewrite (Hl _ _ Hload) in Hin.
    destruct (applyGoalUsageRecord_evolves s r now next Hok Hn Hu Hin Eap) as (? & ? & _). done.
  - destruct (nextGoalRevision s now) as [b|] eqn:Eb; [|intros [= <- <- _]; by left].
    apply nextGoalRevision_Some in Eb as [-> Hm]. intros [= <- <- _]. right. split_and!; [done| |done].
    eapply evolves_intro; eauto. apply limited_changes; [by_constant|done].
Qed.

(** What a restart makes of the own record of a goal: the checks, the
    reconciliation with the ledger, and the pause of an active goal that has no
    open continuation. *)
Lemma restore_own s agentID now reconcile :
  goal_ok s -> blank agentID = true ->
  restorePersistedGoalStateWithUsage (Some (persisted_record s)) agentID now reconcile =
  match validatePersistedGoalState (persisted_record s) with
  | Some _ => (Some (unavailableGoalState (persisted_record s) goalReasonCorruptState invalid_record_reason), false)
  | None =>
      let '(state, changed) :=
        match reconcile with None => (s, false) | Some loaded => (reconcileGoalUsageState s loaded now).1 end in
      if goal_active state && negb (has_open_continuation state) then
        if g_Revision state =? MaxUint64 then
          (Some (unavailableGoalState (persisted_record s) goalReasonCorruptState exhausted_record_reason), false)
        else (Some (cold_pause now state), true)
      else (Some state, changed)
  end.
Proof.
  intros Hok Hb. unfold restorePersistedGoalStateWithUsage. rewrite Hb. cbn [negb].
  change (p_invalidEncoding (persisted_record s)) with false. rewrite (goal_ok_version s Hok).
  change (p_Version (persisted_record s)) with PersistedGoalStateVersion.
  change (PersistedGoalStateVersion =? PersistedGoalStateVersion) with true.
  change (PersistedGoalStateVersion =? PersistedGoalStateLegacyVersion) with false.
  change (PersistedGoalStateVersion =? PersistedGoalStateAccountingVersion) with false.
  cbn [negb andb orb].
  change ((persisted_record s) <| p_Version := PersistedGoalStateVersion |>) with (persisted_record s).
  rewrite (from_persisted s Hok). done.
Qed.

Lemma cold_pause_evolves s now :
  goal_ok s -> 0 < now -> g_UpdatedAt s <= now -> goal_active s = true -> g_Revision s <> MaxUint64 ->
  evolves [] s (cold_pause now s).
Proof.
  intros Hok Hn Hu Ha Hm. eapply evolves_intro; eauto.
  apply bool_decide_eq_true in Ha.
  eapply changes_step; [apply (ch_status _ plain goalStatusPaused goalReasonColdContinuationUnavailable
    (lit "automatic continuation is unavailable without an eligible durable cursor"))|by left|].
  1: left; split; [done|]; cbn; congruence.
  1,2,5: done.
  1,2: by_constant.
  eapply changes_step; [apply ch_reset|by left|apply changes_refl].
Qed.
End record.
