(* ===== verification/GoalRefinement.v ===== *)
(** * The service is a run of the abstract machine

    Every operation of [GoalService] and [GoalCalls], with any outcome of its
    writes, is a run of the writes of [GoalMachine] on the goal in memory and
    the saved goal; the accounts change only when a call is admitted or settled,
    completion comes only at the end of a turn and is undone only by the
    recovery of a restart. *)

From S2P Require Import Prelude GoStrings GoBase RunCost RuntimeItem InputCoordinator ToolSchedule.
From S2P Require Import GoBase GoalData GoalPersistence GoalService GoalCalls GoalMachine GoalFacts.

Open Scope Z_scope.

(** ** What the operations rely on *)

Definition last_time (q : engine) : Z :=
  Z.max (match q_goalState q with Some s => g_UpdatedAt s | None => 0 end)
        (match q_saved q with Some r => p_UpdatedAt r | None => 0 end).

(** The clock has left the zero time and does not go back. *)
Definition clock_ok (w : world) (q : engine) : Prop :=
  0 < w_clock w 0 /\ w_clock w 0 <= w_clock w 1 /\ last_time q <= w_clock w 0.

Definition now_ok (now : Z) (q : engine) : Prop := now = 0 \/ (0 < now /\ last_time q <= now).

(** The identifier of a new goal is fresh and budgets are not negative. *)
Definition creation_ok (w : world) (tokenBudget : option Z) (q : engine) : Prop :=
  validateGoalTurnID (w_id w) = true /\ (forall r, r ∈ q_ledger q -> l_GoalID r <> w_id w)
  /\ forall b, tokenBudget = Some b -> 0 <= b.

Definition op_ok (w : world) (o : op) (q : engine) : Prop :=
  match o with
  | OpCreate _ tokenBudget _ => creation_ok w tokenBudget q
  | OpControl r | OpControlCommit r _ => creation_ok w (c_TokenBudget r) q
  | OpSetBudget tokenBudget _ => 0 <= tokenBudget
  | OpBeginTurn _ _ _ now | OpRequestCompletion _ _ _ now | OpReportBlocker _ _ _ _ _ now | OpPauseTurn _ now
  | OpResumeTurn _ now | OpCancel now | OpDelivered _ _ now => now_ok now q
  | _ => True
  end.

Definition honest (w : world) (o : op) (q : engine) : Prop := clock_ok w q /\ op_ok w o q.

Definition core_of (q : engine) : core := (q_goalState q, q_saved q).

(** A turn works for a goal that is there and not complete. *)
Definition runtime_ok (q : engine) : Prop :=
  is_Some (q_goalTurnRuntime q) ->
  exists s, q_goalState q = Some s /\ g_unavailable s = false /\ g_Status s <> goalStatusComplete.

(** The part of the state that only calls change. *)
Definition frame (q q' : engine) : Prop :=
  q_ledger q' = q_ledger q /\ q_calls q' = q_calls q /\ q_usageGate q' = q_usageGate q
  /\ q_usageUncertain q' = q_usageUncertain q.

Lemma frame_refl q : frame q q.
Proof. done. Qed.
Lemma frame_trans q1 q2 q3 : frame q1 q2 -> frame q2 q3 -> frame q1 q3.
Proof. unfold frame. intuition congruence. Qed.
#[export] Hint Resolve frame_refl : yhc.

Section refinement.
Context `{HI : !ItemChecks, HD : !Digests, HG : !GoalIdentityText, HL : !Ledger} (clock : Z -> Z) (cfg : goalConfig).
Context (Hscope : goal_scope cfg = true).

(** A run of writes that leaves the calls alone and keeps the turn. *)
Record runs (K : list kind) (q q' : engine) : Prop := {
  runs_writes : rtc (write K) (core_of q) (core_of q');
  runs_frame : frame q q'
}.

Lemma runs_refl K q : runs K q q.
Proof. split; [apply rtc_refl|apply frame_refl]. Qed.

Lemma runs_same K q q' : core_of q' = core_of q -> frame q q' -> runs K q q'.
Proof. intros He Hf. split; [rewrite He; apply rtc_refl|done]. Qed.

Lemma runs_trans K q1 q2 q3 : runs K q1 q2 -> runs K q2 q3 -> runs K q1 q3.
Proof. intros [] []. split; [by etrans|by eapply frame_trans]. Qed.

Lemma runs_ok K q q' : runs K q q' -> core_ok (core_of q) -> core_ok (core_of q').
Proof. intros [Hw _]. by eapply writes_ok. Qed.

(** ** Writing *)

Lemma persist_cases w i next q :
  persist cfg w i next q = (q <| q_saved := next ≫= persistedGoalState |>, true)
  \/ persist cfg w i next q = (q <| q_saved := next ≫= persistedGoalState |>, false)
  \/ persist cfg w i next q = (q, false).
Proof.
  unfold persist. unfold goal_scope in Hscope. breflect.
  destruct (cfg_transcriptPath cfg); [|done]. destruct (w_checkpoint w i); auto.
Qed.

Lemma persist_runs K w i next q :
  next_goal K (q_goalState q) next ->
  let '(q', ok) := persist cfg w i (Some next) q in
  frame q q' /\ q_goalState q' = q_goalState q /\ q_goalTurnRuntime q' = q_goalTurnRuntime q
  /\ q_input q' = q_input q
  /\ (ok = true -> q_saved q' = persistedGoalState next)
  /\ (ok = false -> runs K q q').
Proof.
  intros Hn. destruct (persist_cases w i (Some next) q) as [->|[->| ->]]; split_and!; try done; intros _.
  split; [|done]. apply rtc_once. by apply write_unacknowledged.
Qed.

Lemma commit_runs K {A} w i next (a : A) q q' r :
  next_goal K (q_goalState q) next -> commit_goal cfg w i next a q = (q', r) ->
  runs K q q' /\ q_goalTurnRuntime q' = q_goalTurnRuntime q /\ q_input q' = q_input q
  /\ match r with Ok b => b = a /\ q_goalState q' = Some next | Err _ => q_goalState q' = q_goalState q end.
Proof.
  intros Hn. unfold commit_goal.
  destruct (persist_cases w i (Some next) q) as [->|[->| ->]]; intros [= <- <-].
  - split_and!; try done. split; [|done]. apply rtc_once. by apply write_goal.
  - split_and!; try done. split; [|done]. apply rtc_once. by apply write_unacknowledged.
  - by split_and!.
Qed.

Lemma retire_frame w i c q :
  runs [] q (retire clock w i c q).1 /\ q_goalState (retire clock w i c q).1 = q_goalState q
  /\ q_goalTurnRuntime (retire clock w i c q).1 = q_goalTurnRuntime q.
Proof.
  unfold retire. destruct (retireGoalContinuationItem _ _ _ _ _ _ _) as [input e]. cbn.
  split; [by apply runs_same|done].
Qed.

Lemma runs_mono K K' q q' : (forall k, k ∈ K -> k ∈ K') -> runs K q q' -> runs K' q q'.
Proof.
  intros HK [Hw Hf]. split; [|done]. revert Hw. generalize (core_of q), (core_of q'). clear -HK.
  induction 1 as [|c1 c2 c3 Hw _ IH]; [apply rtc_refl|]. eapply rtc_l; [|exact IH].
  assert (Hn : forall m s, next_goal K m s -> next_goal K' m s).
  { intros m s Hn. destruct Hn; [apply next_evolved|apply next_created|apply next_unavailable];
      eauto using evolves_mono. }
  destruct Hw; [apply write_goal|apply write_unacknowledged|apply write_erase|apply write_erase_unacknowledged
    |apply write_checkpoint]; auto.
Qed.

(** ** Cursors *)

Lemma dispose_valid c d reason at_time :
  validateGoalContinuationCursor c = None -> blank reason = false -> at_time <> 0 ->
  d ∈ [goalContinuationDispositionAdmitting; goalContinuationDispositionRejected;
       goalContinuationDispositionDelivered] ->
  validateGoalContinuationCursor (dispose d reason at_time c) = None.
Proof.
  unfold validateGoalContinuationCursor. rewrite !first_error_None, !Forall_cons.
  intros (?&?&?&?&?&?&?&?&?&_&?&_) Hb Ht Hd. split_and!; try done.
  cbn [dispose k_Disposition k_DispositionReason k_DispositionAt set fst].
  assert (He : (blank reason || (at_time =? 0)) = false) by (rewrite Hb; by apply Z.eqb_neq).
  repeat (apply elem_of_cons in Hd as [->|Hd]; [exact He|]). by apply elem_of_nil in Hd.
Qed.

Lemma reject_valid c reason at_time :
  validateGoalContinuationCursor c = None -> blank reason = false -> at_time <> 0 ->
  validateGoalContinuationCursor (reject reason at_time c) = None.
Proof. intros. apply dispose_valid; try done. right; by left. Qed.

Lemma next_goal_cursor K m s c :
  next_goal K m s -> g_unavailable s = false -> validateGoalContinuationCursor c = None ->
  next_goal K m (s <| g_Continuation := Some c |>).
Proof.
  intros Hn Ha Hc. destruct Hn as [s s' (now & ? & ? & ? & ? & Hch)|m s' Hm (Hok & ? & ? & ? & ? & ? & ?)|]; [| |congruence].
  - apply next_evolved. exists now. split_and!; try done. eapply changes_snoc; [exact Hch|by apply ch_cursor|by left].
  - apply next_created; [done|]. split_and!; try done. eapply goal_ok_change; [by apply ch_cursor|done].
Qed.

Lemma open_continuation_Some s c :
  open_continuation s = Some c -> g_Continuation s = Some c /\ has_open_continuation s = true.
Proof. unfold open_continuation. by destruct (has_open_continuation s). Qed.

(** ** One step of a goal *)

Record Good (q : engine) : Prop := { good_core : core_ok (core_of q); good_runtime : runtime_ok q }.

(** What each operation does: a run of writes, after which a turn still works
    for a goal. *)
Definition sound (K : list kind) (q q' : engine) : Prop := runs K q q' /\ runtime_ok q'.

Lemma sound_refl K q : Good q -> sound K q q.
Proof. intros []. split; [apply runs_refl|done]. Qed.

Lemma sound_good K q q' : sound K q q' -> Good q -> Good q'.
Proof. intros [Hr Hq] []. split; [by eapply runs_ok|done]. Qed.

Lemma sound_trans K q1 q2 q3 : sound K q1 q2 -> sound K q2 q3 -> sound K q1 q3.
Proof. intros [H1 _] [H2 ?]. split; [by eapply runs_trans|done]. Qed.

Lemma good_mem q s : Good q -> q_goalState q = Some s -> mem_ok (Some s).
Proof. intros [[Hm _] _] <-. exact Hm. Qed.

Lemma good_ok q s : Good q -> q_goalState q = Some s -> g_unavailable s = false -> goal_ok s.
Proof.
  intros Hq Hs Ha. destruct (good_mem q s Hq Hs s eq_refl) as [|(Hu & _)]; [done|congruence].
Qed.

Lemma clock_ok_mem w q s : clock_ok w q -> q_goalState q = Some s -> 0 < w_clock w 0 /\ g_UpdatedAt s <= w_clock w 0.
Proof. intros (H0 & _ & Hl) Hs. unfold last_time in Hl. rewrite Hs in Hl. lia. Qed.

Lemma given_ok w now q s :
  clock_ok w q -> now_ok now q -> q_goalState q = Some s -> 0 < given now w /\ g_UpdatedAt s <= given now w.
Proof.
  intros Hc Hn Hs. unfold given. destruct (Z.eqb_spec now 0); [by eapply clock_ok_mem|].
  destruct Hn as [|[H0 Hl]]; [done|]. unfold last_time in Hl. rewrite Hs in Hl. lia.
Qed.

Lemma bump_Ok s now b : bump s now = Ok b -> b = bumped now s /\ g_Revision s <> MaxUint64.
Proof.
  unfold bump. destruct (nextGoalRevision s now) as [b'|] eqn:E; [|done]. intros [= <-].
  by apply nextGoalRevision_Some.
Qed.

(** A changed goal is next; a goal that is not available stays so. *)
Lemma step_next K s now s' :
  mem_ok (Some s) -> 0 < now -> g_UpdatedAt s <= now -> g_Revision s <> MaxUint64 ->
  (goal_ok s -> changes K (bumped now s) s') ->
  (g_unavailable s = true -> g_unavailable s' = true /\ g_Status s' <> goalStatusComplete
     /\ g_unavailablePersistedRepresentation s' = g_unavailablePersistedRepresentation s) ->
  next_goal K (Some s) s'.
Proof.
  clear clock. intros Hm H0 H1 H2 Hc Hu. destruct (Hm s eq_refl) as [Hok|(Ha & _)].
  - apply next_evolved. eapply evolves_intro; eauto.
  - apply next_unavailable; tauto.
Qed.

Lemma runtime_ok_next q q' s s' K :
  runtime_ok q -> completing ∉ K -> (is_Some (q_goalTurnRuntime q') -> is_Some (q_goalTurnRuntime q)) ->
  q_goalState q = Some s -> q_goalState q' = Some s' -> next_goal K (Some s) s' -> runtime_ok q'.
Proof.
  intros Hr HK Hi Hs Hs' Hn Ht. destruct (Hr (Hi Ht)) as (t & Ht' & Ha & Hc).
  assert (t = s) as -> by congruence. exists s'. split; [done|].
  inversion Hn as [? ? He| ? ? Hm|]; subst; [|by destruct Hc; apply Hm|congruence].
  pose proof (evolves_frame _ _ _ He) as Hf. destruct_and!. split; [done|].
  destruct He as (now & _ & _ & _ & _ & Hch). intros Hc'. apply Hc.
  by pose proof (changes_completing _ _ _ HK Hch Hc').
Qed.

Lemma runtime_ok_same q q' :
  runtime_ok q -> q_goalTurnRuntime q' = q_goalTurnRuntime q -> q_goalState q' = q_goalState q -> runtime_ok q'.
Proof. unfold runtime_ok. by intros ? -> ->. Qed.

(** Writing the next goal of the goal in memory, the turn being kept or not
    changed in a way that ends it. *)
Lemma commit_sound K {A} w i q0 q s next (a : A) q' r :
  Good q0 -> completing ∉ K -> q_goalState q0 = Some s -> core_of q = core_of q0 -> frame q0 q ->
  (is_Some (q_goalTurnRuntime q) -> is_Some (q_goalTurnRuntime q0)) ->
  next_goal K (Some s) next -> commit_goal cfg w i next a q = (q', r) -> sound K q0 q'.
Proof.
  intros Hq HK Hs Hcore Hf Hi Hn Hc.
  assert (Hs' : q_goalState q = Some s) by (injection Hcore as ? ?; congruence).
  destruct (commit_runs K w i next a q q' r) as (Hruns & Ht & _ & Hg); [by rewrite Hs'|done|].
  split.
  - eapply runs_trans; [by apply runs_same|done].
  - destruct r as [b|e].
    + destruct Hg as [_ Hg]. eapply runtime_ok_next; [apply Hq|exact HK| |exact Hs|exact Hg|exact Hn].
      rewrite Ht. done.
    + intros Hx. rewrite Ht in Hx. destruct (good_runtime q0 Hq (Hi Hx)) as (t & ? & ?).
      exists t. split; [congruence|done].
Qed.

Lemma retire_sound K w i c q q' : sound K q q' -> sound K q (retire clock w i c q').1.
Proof.
  intros [Hr Hq]. destruct (retire_frame w i c q') as (H1 & H2 & H3). split.
  - eapply runs_trans; [exact Hr|]. eapply runs_mono; [|exact H1]. intros k Hk. by apply elem_of_nil in Hk.
  - by eapply runtime_ok_same.
Qed.

(** ** Transitions of the user *)

(** What a transition may build. *)
Definition builds (q : engine) (build : option goalState -> bool -> Z -> result goal_error goalState) (now : Z) : Prop :=
  forall next, build (q_goalState q) (q_planContained q) now = Ok next ->
  q_goalState q = Some next \/
  ((forall s, q_goalState q = Some s -> goal_ok s) /\ next_goal [] (q_goalState q) next
   /\ g_unavailable next = false /\ 0 < g_UpdatedAt next).

Lemma rejection_reason phase : blank (goalContinuationTransitionRejection phase) = false.
Proof. by destruct phase. Qed.

Lemma transition_sound w phase owner build q q' r :
  Good q -> builds q build (w_clock w 0) -> transition clock cfg w phase owner build q = (q', r) -> sound [] q q'.
Proof.
  intros Hq Hb. unfold transition. rewrite Hscope. cbn [negb].
  destruct (in_flight owner q) as [o|] eqn:Hfl; [intros [= <- _]; by apply sound_refl|].
  assert (Ht : q_goalTurnRuntime q = None).
  { unfold in_flight in Hfl. destruct (q_goalTurnRuntime q); [|done]. cbn in Hfl. by rewrite orb_true_r in Hfl. }
  assert (Hnone : forall x y, runs [] q x -> q_goalTurnRuntime x = q_goalTurnRuntime q -> (x, y) = (q', r) -> sound [] q q').
  { intros x y Hx Hxt [= <- _]. split; [done|]. intros [t Hi]. congruence. }
  destruct (build _ _ _) as [next|e] eqn:Eb; [|intros [= <- _]; by apply sound_refl].
  destruct (Hb next Eb) as [Hs|(Hoks & Hn & Ha & Hu)].
  { rewrite Hs. rewrite bool_decide_true, Z.eqb_refl by done. intros [= <- _]. by apply sound_refl. }
  assert (Hplain : forall x y, commit_goal cfg w 0 next next q = (x, y) -> (x, y) = (q', r) -> sound [] q q').
  { intros x y Hx. destruct (commit_runs [] w 0 next next q x y Hn Hx) as (? & ? & _). by apply Hnone. }
  destruct (q_goalState q) as [s|] eqn:Hs.
  2: { destruct (commit_goal _ _ _ _ _ _) as [x y] eqn:Ec. by apply Hplain. }
  destruct (_ && _); [intros [= <- _]; by apply sound_refl|].
  destruct (open_continuation s) as [c|] eqn:Eo.
  2: { destruct (commit_goal _ _ _ _ _ _) as [x y] eqn:Ec. by apply Hplain. }
  destruct (negb _); [intros [= <- _]; by apply sound_refl|].
  apply open_continuation_Some in Eo as [Eo _].
  assert (Hc : next_goal [] (Some s) (next <| g_Continuation :=
    Some (reject (goalContinuationTransitionRejection phase) (g_UpdatedAt next) c) |>)).
  { apply next_goal_cursor; [done..|]. apply reject_valid; [by eapply ok_cursor; eauto|apply rejection_reason|lia]. }
  clear Hplain. cbv zeta. destruct (commit_goal _ _ _ _ _ _) as [x y] eqn:Ec.
  destruct (commit_runs [] w 0 _ _ q x y ltac:(rewrite Hs; exact Hc) Ec) as (Hx & Hxt & _).
  destruct y as [next'|e]; [|by apply Hnone].
  intros [= <- _]. apply retire_sound. split; [done|]. intros [t Hi]. congruence.
Qed.

Lemma objective_accepted t s : normalizeGoalObjective t = Ok s -> accepted_objective s.
Proof. by exists t. Qed.

Lemma reason_accepted t s : normalizeGoalReason t = Ok s -> accepted_reason s.
Proof. right. by exists t. Qed.

Lemma new_goal_created id objective tokenBudget now :
  validateGoalTurnID id = true -> accepted_objective objective -> 0 < now ->
  (forall b, tokenBudget = Some b -> 0 < b) -> (forall r, r ∈ ledger -> l_GoalID r <> id) ->
  created (new_goal id objective tokenBudget now).
Proof.
  intros Hid Hobj Hn Hb Hfr. split_and!; try done. split; cbn; try done; auto with yhc; try lia.
  intros _. unfold goalBudgetHasRemaining. destruct tokenBudget as [b|]; [|done]. apply Z.ltb_lt. by apply Hb.
Qed.

Lemma create_sound w objective tokenBudget owner q q' r :
  ledger = q_ledger q -> Good q -> clock_ok w q -> creation_ok w tokenBudget q ->
  create clock cfg w objective tokenBudget owner q = (q', r) -> sound [] q q'.
Proof.
  intros HLq Hq Hc (Hid & Hfr & Hb). unfold create.
  destruct (normalizeGoalObjective objective) as [obj|e] eqn:Eo; [|intros [= <- _]; by apply sound_refl].
  destruct (bool_decide_reflect (tokenBudget = Some 0)) as [|Hz]; [intros [= <- _]; by apply sound_refl|].
  apply transition_sound; [done|]. intros next. destruct (q_planContained q); [done|].
  assert (Hnew : (forall s, q_goalState q = Some s -> g_Status s = goalStatusComplete) ->
    next_goal [] (q_goalState q) (new_goal (w_id w) obj tokenBudget (w_clock w 0))).
  { intros Hm. apply next_created; [done|]. apply new_goal_created; [done|by eapply objective_accepted|apply Hc| |by rewrite HLq].
    intros b ->. specialize (Hb b eq_refl). destruct (Z.eq_dec b 0); [congruence|lia]. }
  pose proof (proj1 Hc). destruct (q_goalState q) as [s|] eqn:Hs.
  - destruct (bool_decide_reflect (g_Status s = goalStatusComplete)) as [Hcm|]; [|done]. intros [= <-]. right.
    split_and!; [|apply Hnew; by intros ? [= <-]|done|done].
    intros t [= <-]. destruct (good_mem q s Hq Hs s eq_refl) as [|(_ & ? & _)]; [done|tauto].
  - intros [= <-]. right. split_and!; [done|by apply Hnew|done|done].
Qed.

(** The transitions of a goal that may change. *)
Lemma on_mutable_builds q w f :
  Good q -> clock_ok w q ->
  (forall s next, q_goalState q = Some s -> goal_ok s -> g_PendingUsageAdmission s = None -> f s = Ok next ->
    next = s \/ (g_Revision s <> MaxUint64 /\ changes [] (bumped (w_clock w 0) s) next)) ->
  forall next, on_mutable f (q_goalState q) = Ok next ->
  q_goalState q = Some next \/
  ((forall s, q_goalState q = Some s -> goal_ok s) /\ next_goal [] (q_goalState q) next
   /\ g_unavailable next = false /\ 0 < g_UpdatedAt next).
Proof.
  intros Hq Hc Hf next. destruct (q_goalState q) as [s|] eqn:Hs; [|done]. cbn.
  destruct (g_unavailable s) eqn:Ha; [done|].
  destruct (g_PendingUsageAdmission s) eqn:Hp; [done|]. cbn. intros Hn.
  pose proof (good_ok q s Hq Hs Ha) as Hok.
  destruct (Hf s next eq_refl Hok Hp Hn) as [->|[Hm Hch]]; [by left|right].
  destruct (clock_ok_mem w q s Hc Hs) as [H0 H1].
  pose proof (evolves_intro [] s _ _ Hok H0 H1 Hm Hch) as He.
  pose proof (evolves_frame _ _ _ He) as Hfr. destruct_and!.
  split_and!; try done; [by intros ? [= <-]|by apply next_evolved].
Qed.

Ltac same := intros [= <- _]; by apply sound_refl.

Lemma edit_sound w objective owner q q' r :
  Good q -> clock_ok w q -> edit clock cfg w objective owner q = (q', r) -> sound [] q q'.
Proof.
  intros Hq Hc. unfold edit.
  destruct (normalizeGoalObjective objective) as [obj|e] eqn:Eo; [|same].
  apply transition_sound; [done|]. intros next. apply (on_mutable_builds q w); [done..|].
  intros s s' Hs Hok Hp. destruct (bool_decide_reflect (g_Status s = goalStatusComplete)) as [|Hcm]; [done|].
  destruct (Z.eqb_spec (g_ObjectiveRevision s) MaxUint64); [done|].
  destruct (Z.eqb_spec (g_Revision s) MaxUint64); [done|]. intros [= <-]. right. split; [done|].
  pose proof (ok_objective_revision s Hok).
  eapply changes_step; [apply (ch_objective (bumped (w_clock w 0) s) obj);
    [by eapply objective_accepted|done|done|cbn; lia]|by left|apply changes_refl].
Qed.

Lemma pause_sound w owner q q' r :
  Good q -> clock_ok w q -> pause clock cfg w owner q = (q', r) -> sound [] q q'.
Proof.
  intros Hq Hc. unfold pause. apply transition_sound; [done|]. intros next. apply (on_mutable_builds q w); [done..|].
  intros s s' Hs Hok Hp. destruct (bool_decide_reflect (g_Status s = goalStatusComplete)) as [|Hcm]; [done|].
  destruct (_ && _); [intros [= <-]; by left|].
  destruct (bump s _) as [b|] eqn:Eb; [|done]. apply bump_Ok in Eb as [-> Hm]. intros [= <-]. right. split; [done|].
  eapply changes_step; [apply (ch_status _ plain goalStatusPaused goalReasonUserPaused (lit "paused by user"));
    [by left|done|done|by_constant|by_constant|done]|by left|].
  eapply changes_step; [apply ch_reset|by left|apply changes_refl].
Qed.

Lemma resume_sound w owner q q' r :
  Good q -> clock_ok w q -> resume clock cfg w owner q = (q', r) -> sound [] q q'.
Proof.
  intros Hq Hc. unfold resume. apply transition_sound; [done|]. intros next. apply (on_mutable_builds q w); [done..|].
  intros s s' Hs Hok Hp. destruct (q_planContained q); [done|].
  destruct (bool_decide_reflect (g_Status s = goalStatusComplete)) as [|Hcm]; [done|].
  destruct (goal_active s); [intros [= <-]; by left|]. destruct (bool_decide _); [done|].
  destruct (goalBudgetHasRemaining _ _) eqn:Hrem; [|done]. cbn [negb].
  destruct (bump s _) as [b|] eqn:Eb; [|done]. apply bump_Ok in Eb as [-> Hm]. intros [= <-]. right. split; [done|].
  eapply changes_step; [apply (ch_status _ plain goalStatusActive [] []);
    [by left|done|done|by_constant|by_constant|done]|by left|].
  eapply changes_step; [apply ch_reset|by left|apply changes_refl].
Qed.

Lemma setBudget_sound w budget owner q q' r :
  Good q -> clock_ok w q -> 0 <= budget -> setBudget clock cfg w budget owner q = (q', r) -> sound [] q q'.
Proof.
  intros Hq Hc H0. unfold setBudget. destruct (Z.eqb_spec budget 0) as [|Hz]; [same|].
  apply transition_sound; [done|]. intros next. apply (on_mutable_builds q w); [done..|].
  intros s s' Hs Hok Hp. destruct (bool_decide_reflect (g_Status s = goalStatusComplete)) as [|Hcm]; [done|].
  destruct (bump s _) as [b|] eqn:Eb; [|done]. apply bump_Ok in Eb as [-> Hm]. intros [= <-]. right. split; [done|].
  destruct (_ && _) eqn:Ex.
  - eapply changes_step; [apply (ch_status _ plain goalStatusBudgetLimited goalReasonBudgetExhausted goalBudgetReached);
      [by left|done|done|by_constant|by_constant|done]|by left|].
    eapply changes_step; [apply (ch_budget _ budget); [lia|done]|by left|].
    eapply changes_step; [apply ch_reset|by left|apply changes_refl].
  - eapply changes_step; [apply (ch_budget _ budget); [lia|]|by left|apply changes_refl].
    intros Hact. apply andb_false_iff in Ex as [Hn|Hn].
    + by apply bool_decide_eq_false in Hn.
    + by apply Z.leb_gt in Hn.
Qed.

Lemma erase_sound w i q0 q q' (r : result goal_error unit) :
  sound [] q0 q -> (forall s, q_goalState q = Some s -> g_PendingUsageAdmission s = None) ->
  (let '(q, ok) := persist cfg w i None q in
   if ok then (q <| q_goalState := None |> <| q_goalTurnRuntime := None |>, Ok tt) else (q, Err PersistGoalFailed))
  = (q', r) -> sound [] q0 q'.
Proof.
  intros [Hr Hq] Hp. destruct (persist_cases w i None q) as [->|[->| ->]]; intros [= <- _].
  - split; [|by intros [? Hx]]. eapply runs_trans; [exact Hr|]. split; [|done]. apply rtc_once. by apply write_erase.
  - split; [|done]. eapply runs_trans; [exact Hr|]. split; [|done]. apply rtc_once. by apply write_erase_unacknowledged.
  - by split.
Qed.

(** The goal in memory with its open cursor disposed of. *)
Lemma disposed_next K s now s' c :
  mem_ok (Some s) -> 0 < now -> g_UpdatedAt s <= now -> g_Revision s <> MaxUint64 ->
  (goal_ok s -> changes K (bumped now s) s' /\ validateGoalContinuationCursor c = None) ->
  (g_unavailable s = true -> g_unavailable s' = true /\ g_Status s' <> goalStatusComplete
     /\ g_unavailablePersistedRepresentation s' = g_unavailablePersistedRepresentation s) ->
  next_goal K (Some s) (s' <| g_Continuation := Some c |>).
Proof.
  intros Hm H0 H1 H2 Hc Hu. apply (step_next K s now); try done.
  intros Hok. destruct (Hc Hok). eapply changes_snoc; [done|by apply ch_cursor|by left].
Qed.

Lemma clearForTurn_sound w owner q q' r :
  Good q -> clock_ok w q -> clearForTurn clock cfg w owner q = (q', r) -> sound [] q q'.
Proof.
  intros Hq Hc. unfold clearForTurn. destruct (_ && _); [same|].
  destruct (q_goalState q) as [s|] eqn:Hs; [|same].
  destruct (g_PendingUsageAdmission s) eqn:Hp; [same|]. rewrite Hscope. cbn [is_some negb].
  destruct (open_continuation s) as [c|] eqn:Eo.
  2: { apply erase_sound; [by apply sound_refl|]. intros t Ht. congruence. }
  destruct (negb _); [same|].
  destruct (bump s _) as [b|] eqn:Eb; [|same]. apply bump_Ok in Eb as [-> Hm].
  apply open_continuation_Some in Eo as [Eo _]. destruct (clock_ok_mem w q s Hc Hs) as [H0 H1].
  cbn [bumped g_UpdatedAt set].
  assert (Hn : next_goal [] (Some s) ((bumped (w_clock w 0) s) <| g_Continuation :=
    Some (reject (lit "superseded-by-goal-clear") (w_clock w 0) c) |>)).
  { apply (disposed_next [] s (w_clock w 0)); try done; [by eapply good_mem| |].
    - intros Hok. split; [apply changes_refl|]. apply reject_valid; [by eapply ok_cursor; eauto|done|lia].
    - intros Hu. destruct (good_mem q s Hq Hs s eq_refl) as [[]|(_ & ? & _)]; [congruence|done]. }
  cbv zeta. destruct (commit_goal _ _ _ _ _ _) as [x y] eqn:Ec.
  pose proof (commit_sound [] w 0 q q s _ _ x y Hq ltac:(apply not_elem_of_nil) Hs eq_refl (frame_refl q)
    ltac:(done) Hn Ec) as Hx.
  destruct (commit_runs [] w 0 _ _ q x y ltac:(rewrite Hs; exact Hn) Ec) as (_ & _ & _ & Hg).
  destruct y as [[]|e]; [|intros [= <- _]; done].
  apply (retire_sound [] w 0 (reject (lit "superseded-by-goal-clear") (w_clock w 0) c)) in Hx.
  pose proof (retire_frame w 0 (reject (lit "superseded-by-goal-clear") (w_clock w 0) c) x) as (_ & Hgr & _).
  destruct (retire _ _ _ _ _) as [z [e|]]; cbn [fst] in *; [intros [= <- _]; done|].
  apply erase_sound; [done|]. rewrite Hgr. destruct Hg as [_ ->]. by intros t [= <-].
Qed.

Lemma commitGoalControl_sound w c current q q' r :
  ledger = q_ledger q -> Good q -> clock_ok w q -> creation_ok w (c_TokenBudget c) q ->
  commitGoalControl clock cfg w c current q = (q', r) -> sound [] q q'.
Proof.
  intros HLq Hq Hc Hcr. unfold commitGoalControl. cbv zeta.
  assert (Hch : forall x : engine * result goal_error goalState, sound [] q x.1 ->
    match x with
    | (q, Err e) => (q, Err e)
    | (q1, Ok s) =>
        if match current with Some c => g_Revision s =? g_Revision c | None => false end
        then (q1, Err (ControlConflict (lit "operation would not change Goal state")))
        else (q1, Ok {| cr_Goal := Some s; cr_Cleared := false;
                        cr_RequiresPrompt := ((c_Operation c ==b GoalControlCreate)
                          || (c_Operation c ==b GoalControlResume)) && goal_active s |})
    end = (q', r) -> sound [] q q').
  { intros [q'' [s|e']] Hx; [|intros [= <- _]; exact Hx].
    destruct (match current with Some _ => _ | None => _ end); intros [= <- _]; exact Hx. }
  destruct (c_Operation c); try same.
  - apply Hch. destruct (create _ _ _ _ _ _ _) eqn:E. by eapply create_sound.
  - apply Hch. destruct (edit _ _ _ _ _ _) eqn:E. by eapply edit_sound.
  - apply Hch. destruct (pause _ _ _ _ _) eqn:E. by eapply pause_sound.
  - apply Hch. destruct (resume _ _ _ _ _) eqn:E. by eapply resume_sound.
  - destruct (c_TokenBudget c) as [[|b|b]|] eqn:Eb; try same; apply Hch;
      destruct (setBudget _ _ _ _ _ _) eqn:E; eapply setBudget_sound; eauto; destruct Hcr as (_ & _ & Hb); by apply Hb.
  - destruct (clear _ _ _ _) as [x [[]|e]] eqn:E; intros [= <- _]; by eapply clearForTurn_sound.
  - clear Hch. destruct (mutableGoalStateError _); [same|]. destruct (validateGoalControlExpectation _ _); [same|].
    destruct (_ || _); [same|]. destruct (negb _); same.
Qed.

Lemma ApplyGoalControl_sound w c q q' r :
  ledger = q_ledger q -> Good q -> clock_ok w q -> creation_ok w (c_TokenBudget c) q ->
  ApplyGoalControl clock cfg w c q = (q', r) -> sound [] q q'.
Proof.
  intros HLq Hq Hc Hcr. unfold ApplyGoalControl. destruct (checkGoalControl _ _ _); [|same].
  by apply commitGoalControl_sound.
Qed.
End refinement.
