(* ===== verification/GoalSimulation.v ===== *)
(** * The turns, the calls and the restart are runs of the abstract machine

    The second half of the refinement of [GoalRefinement]: the operations of a
    turn, of the calls of a provider and of the recovery, and the theorem that
    collects all operations. *)

From S2P Require Import Prelude GoStrings GoBase RunCost RuntimeItem InputCoordinator ToolSchedule.
From S2P Require Import GoBase GoalData GoalPersistence GoalService GoalCalls GoalMachine GoalFacts GoalRefinement.

Open Scope Z_scope.

Ltac same := intros [= <- _]; by apply sound_refl.

(** An operation that returns a state and a result, by its own lemma. *)
Ltac by_run lem :=
  match goal with |- sound _ _ (?x).1 => destruct x as [? ?] eqn:E; cbn [fst]; eapply lem; [..|exact E]; assumption end.

Section simulation.
Context `{HI : !ItemChecks, HD : !Digests, HG : !GoalIdentityText, HL : !Ledger} (clock : Z -> Z) (cfg : goalConfig).
Context (Hscope : goal_scope cfg = true).

Lemma not_in_nil k : k ∉ (@nil kind).
Proof. apply not_elem_of_nil. Qed.

(** ** Turns *)

Lemma stop_interval_changes K t s now :
  goal_ok s -> changes K s (stopActiveInterval t s now).2.
Proof.
  intros Hok. unfold stopActiveInterval. destruct (_ =? _); [apply changes_refl|]. cbn [snd].
  destruct (_ && _) eqn:E; [|apply changes_refl]. breflect.
  eapply changes_step; [|by left|apply changes_refl]. apply ch_time.
  pose proof (ok_time s Hok). apply Z.ltb_lt in H0.
  destruct (Z.ltb_spec (MaxInt64 - elapsed_millis now (t_activeSince t)) (g_RootActiveTimeMillis s)); lia.
Qed.

Lemma stop_interval_frame t s now :
  g_unavailable (stopActiveInterval t s now).2 = g_unavailable s
  /\ g_unavailablePersistedRepresentation (stopActiveInterval t s now).2 = g_unavailablePersistedRepresentation s
  /\ g_Status (stopActiveInterval t s now).2 = g_Status s
  /\ g_Continuation (stopActiveInterval t s now).2 = g_Continuation s.
Proof.
  unfold stopActiveInterval. destruct (_ =? _); [done|]. cbn [snd]. by destruct (_ && _).
Qed.

(** An active goal in memory: what an operation on it may write. *)
Lemma active_ok q s : Good q -> q_goalState q = Some s -> g_unavailable s || negb (goal_active s) = false ->
  goal_ok s /\ g_Status s = goalStatusActive.
Proof.
  intros Hq Hs Ha. breflect. apply bool_decide_eq_true in H0. split; [by eapply good_ok|done].
Qed.

Lemma active_next now s next K :
  goal_ok s -> 0 < now -> g_UpdatedAt s <= now -> g_Revision s <> MaxUint64 ->
  changes K (bumped now s) next -> next_goal K (Some s) next.
Proof. intros. apply next_evolved. by eapply evolves_intro. Qed.

Lemma runtime_started q s t : g_unavailable s = false -> g_Status s <> goalStatusComplete ->
  runtime_ok (q <| q_goalState := Some s |> <| q_goalTurnRuntime := Some t |>).
Proof. intros Ha Hc _. exists s. done. Qed.

Lemma begin_plain_changes turnID userSteering s now next :
  goal_ok s -> 0 < now -> validateGoalTurnID turnID = true -> g_PendingUsageAdmission s = None ->
  begin_plain_turn turnID userSteering s now = Ok next ->
  g_Revision s <> MaxUint64 /\ changes [] (bumped now s) next /\ g_Status next = g_Status s.
Proof.
  intros Hok Hn Ht Hp. unfold begin_plain_turn.
  destruct (bump s now) as [b|] eqn:Eb; [|done]. apply bump_Ok in Eb as [-> Hm].
  set (n1 := (bumped now s) <| g_LastGoalTurnID := turnID |>).
  set (n2 := if userSteering then resetGoalTurnEvidence n1 else n1).
  assert (H2 : changes [] (bumped now s) n2 /\ g_Status n2 = g_Status s /\ g_Continuation n2 = g_Continuation s).
  { assert (H1 : changes [] (bumped now s) n1).
    { eapply changes_step; [by apply (ch_turn (bumped now s) turnID)|by left|apply changes_refl]. }
    unfold n2. destruct userSteering; [|done]. split; [|done]. eapply changes_snoc; [exact H1|apply ch_reset|by left]. }
  destruct H2 as (H2 & Hst & Hcc). intros [= <-]. split; [done|].
  destruct (open_continuation n2) as [c|] eqn:Eo; [|done].
  apply open_continuation_Some in Eo as [Eo _]. split; [|done].
  eapply changes_snoc; [exact H2|apply ch_cursor|by left].
  apply reject_valid; [eapply ok_cursor; [exact Hok|congruence]|by destruct userSteering|lia].
Qed.

Lemma rejectContinuationAdmission_sound w s c reason now q q' e :
  Good q -> q_goalState q = Some s -> goal_ok s -> 0 < now -> g_UpdatedAt s <= now ->
  g_Continuation s = Some c -> blank (TrimSpace reason) = false ->
  rejectContinuationAdmission clock cfg w s c reason now q = (q', e) -> sound [] q q'.
Proof.
  intros Hq Hs Hok H0 H1 Hc Hb. unfold rejectContinuationAdmission.
  destruct (bump s now) as [b|] eqn:Eb; [|same]. apply bump_Ok in Eb as [-> Hm]. cbv zeta.
  assert (Hn : next_goal [] (Some s) ((bumped now s) <| g_Continuation := Some (reject (TrimSpace reason) now c) |>)).
  { eapply active_next; try done. eapply changes_step; [apply ch_cursor|by left|apply changes_refl].
    apply reject_valid; [by eapply ok_cursor; eauto|done|lia]. }
  destruct (commit_goal _ _ _ _ _ _) as [x y] eqn:Ec.
  pose proof (commit_sound cfg Hscope [] w 0 q q s _ _ x y Hq (not_in_nil _) Hs eq_refl (frame_refl q)
    ltac:(done) Hn Ec) as Hx.
  destruct y as [[]|]; intros [= <- _]; [by apply retire_sound|done].
Qed.

Lemma validateGoalContinuationAdmission_Ok s item scope turnID c :
  validateGoalContinuationAdmission s item scope turnID = Ok c ->
  g_Continuation s = Some c /\ turnID = k_ContinuationTurnID c /\ g_PendingUsageAdmission s = None.
Proof.
  unfold validateGoalContinuationAdmission. destruct (_ || _); [done|].
  destruct (g_Continuation s) as [c'|]; [|done]. destruct (negb _); [done|].
  destruct (_ || _) eqn:E; [done|]. breflect. destruct (check_continuation_state s c') eqn:Ec; [done|].
  intros [= <-]. split_and!; [done|done|]. unfold check_continuation_state in Ec.
  destruct (g_PendingUsageAdmission s); [|done]. cbn [is_some] in Ec.
  rewrite !orb_true_r in Ec. done.
Qed.

Lemma beginContinuationTurn_sound w turnID item input s now q q' r :
  Good q -> q_goalState q = Some s -> goal_ok s -> 0 < now -> g_UpdatedAt s <= now ->
  g_Status s = goalStatusActive -> validateGoalTurnID turnID = true ->
  beginContinuationTurn clock cfg w turnID item input s now q = (q', r) ->
  match r with
  | Err _ => sound [] q q'
  | Ok next =>
      frame q q' /\ q_goalTurnRuntime q' = q_goalTurnRuntime q /\ q_goalState q' = Some s
      /\ ((next = s /\ q' = q) \/ (next_goal [] (Some s) next /\ q_saved q' = persistedGoalState next))
      /\ g_unavailable next = false /\ g_Status next = goalStatusActive
  end.
Proof.
  intros Hq Hs Hok H0 H1 Hst Hv. unfold beginContinuationTurn.
  destruct (validateGoalContinuationAdmission _ _ _ _) as [c|e] eqn:Ev; [|intros [= <- <-]; by apply sound_refl].
  apply validateGoalContinuationAdmission_Ok in Ev as (Hc & Htid & Hp).
  destruct (bool_decide _).
  { intros [= <- <-]. split_and!; try done; [by left|by apply ok_available]. }
  cbv zeta. destruct (withGoalContinuationAdmission _ _ _ _) as [u|e] eqn:Ew; cycle 1.
  { assert (Hr : forall x y, rejectContinuationAdmission clock cfg w s c (lit "superseded-by-explicit-user-input") now q
      = (x, y) -> sound [] q x).
    { intros x y. by apply rejectContinuationAdmission_sound. }
    destruct e; try (intros [= <- <-]; by apply sound_refl).
    destruct (rejectContinuationAdmission _ _ _ _ _ _ _ _) as [x y]. intros [= <- <-]. by eapply Hr. }
  assert (Hm : g_Revision s <> MaxUint64).
  { unfold withGoalContinuationAdmission in Ew. destruct (existsb _ _); [done|].
    destruct (last _) as [i|]; [|done]. destruct (_ && _) eqn:Ea; [|done]. breflect. by apply Z.eqb_neq. }
  match goal with |- (let '(_, _) := persist _ _ _ (Some ?n) _ in _) = _ -> _ => set (next := n) end.
  assert (Hn : next_goal [] (Some s) next).
  { apply (active_next now); try done. unfold next.
    eapply changes_step; [by apply (ch_turn (bumped now s) turnID)|by left|].
    eapply changes_step; [apply ch_cursor|by left|apply changes_refl].
    apply dispose_valid; [by eapply ok_cursor; eauto|done|lia|by left]. }
  pose proof (persist_runs cfg Hscope [] w 0 next q ltac:(by rewrite Hs)) as Hpr.
  destruct (persist cfg w 0 (Some next) q) as [x [|]]; intros [= <- <-];
    destruct Hpr as (Hf & Hg & Ht & _ & Hsv & Hru).
  - split_and!; try done; [congruence|right; split; [done|by apply Hsv]|exact (ok_available s Hok)].
  - split; [by apply Hru|]. eapply runtime_ok_same; [apply Hq|done|done].
Qed.

Lemma installed_sound q q1 s next :
  q_goalState q = Some s -> frame q q1 ->
  (next = s /\ q_saved q1 = q_saved q) \/ (next_goal [] (Some s) next /\ q_saved q1 = persistedGoalState next) ->
  g_unavailable next = false -> g_Status next <> goalStatusComplete -> q_goalState q1 = Some next ->
  sound [] q q1.
Proof.
  intros Hs Hf Hn Ha Hc Hg. split; [|intros _; by exists next]. split; [|done]. unfold core_of. rewrite Hs, Hg.
  destruct Hn as [[-> ->]|[Hn ->]]; [apply rtc_refl|apply rtc_once; by apply write_goal].
Qed.

Lemma beginTurn_sound w turnID userSteering continuation now q q' r :
  Good q -> clock_ok w q -> now_ok now q ->
  beginTurn clock cfg w turnID userSteering continuation now q = (q', r) -> sound [] q q'.
Proof.
  intros Hq Hck Hnow. unfold beginTurn. destruct (validateGoalTurnID turnID) eqn:Hv; [|same]. cbn [negb].
  cbv zeta. destruct (_ && _); [same|]. destruct (bool_decide _); [|same]. cbn [negb].
  destruct (q_goalState q) as [s|] eqn:Hs; [|same].
  destruct (g_unavailable s || negb (goal_active s)) eqn:Ha; [same|].
  destruct (g_PendingUsageAdmission s) eqn:Hp; [same|]. rewrite Hscope. cbn [is_some negb].
  destruct (q_goalTurnRuntime q) as [t|] eqn:Ht; [same|].
  destruct (active_ok q s Hq Hs Ha) as [Hok Hst]. destruct (given_ok w now q s Hck Hnow Hs) as [H0 H1].
  destruct continuation as [item|].
  - destruct (q_input q) as [input|]; [|same].
    destruct (beginContinuationTurn _ _ _ _ _ _ _ _ _) as [x [next|e]] eqn:Eb; intros [= <- _];
      apply beginContinuationTurn_sound in Eb; try done.
    destruct Eb as (Hf & _ & _ & Hn & Hna & Hna').
    eapply installed_sound; [exact Hs|exact Hf| |exact Hna| |done]; [|congruence].
    destruct Hn as [[-> ->]|Hn]; [by left|by right].
  - destruct (begin_plain_turn _ _ _ _) as [next|e] eqn:Eb; [|same].
    apply begin_plain_changes in Eb as (Hm & Hch & Hst'); try done.
    assert (Hn : next_goal [] (Some s) next) by (by eapply active_next).
    pose proof (persist_runs cfg Hscope [] w 0 next q ltac:(by rewrite Hs)) as Hpr.
    assert (Hna : g_unavailable next = false).
    { pose proof (changes_frame _ _ _ Hch) as (_ & _ & _ & _ & Hu & _). rewrite Hu. exact (ok_available s Hok). }
    assert (Hnc : g_Status next <> goalStatusComplete) by congruence.
    destruct (persist cfg w 0 (Some next) q) as [x [|]]; destruct Hpr as (Hf & Hg & Htx & Hi & Hsv & Hru).
    2: { intros [= <- _]. split; [by apply Hru|]. eapply runtime_ok_same; [apply Hq|congruence|congruence]. }
    specialize (Hsv eq_refl).
    assert (Hin : forall y, q_goalState y = Some next -> q_saved y = q_saved x -> frame x y -> sound [] q y).
    { intros y Hy Hys Hfy. eapply installed_sound; [exact Hs|by eapply frame_trans| |exact Hna|exact Hnc|exact Hy].
      right. split; [done|congruence]. }
    destruct (g_Continuation next) as [c|]; [|intros [= <- _]; by apply Hin].
    destruct (bool_decide _); [|intros [= <- _]; by apply Hin].
    destruct (retireGoalContinuationItem _ _ _ _ _ _ _) as [input [e|]]; intros [= <- _];
      apply Hin; by destruct userSteering.
Qed.

(** The evidence that a turn gives. *)
Lemma commitTurnEvidence_sound w report goalID objectiveRevision turnID now mutate q q' r :
  Good q -> clock_ok w q -> now_ok now q ->
  (forall s t, q_goalState q = Some s -> goal_ok s -> g_Status s = goalStatusActive ->
     validateGoalTurnID turnID = true -> g_ObjectiveRevision s = objectiveRevision ->
     forall now, goal_ok (bumped now s) -> changes [] (bumped now s) (mutate t (bumped now s) now).2) ->
  commitTurnEvidence cfg w report goalID objectiveRevision turnID now mutate q = (q', r) -> sound [] q q'.
Proof.
  intros Hq Hck Hnow Hmut. unfold commitTurnEvidence. destruct (validateGoalTurnID turnID) eqn:Hv; [|same]. cbn [negb].
  destruct (q_goalState q) as [s|] eqn:Hs; [|same]. cbv zeta.
  destruct (mutableGoalStateError (Some s)) eqn:Em; [same|].
  destruct (negb (goal_active s) || _ || _ || _) eqn:Ea; [same|]. breflect.
  destruct (q_goalTurnRuntime q) as [t|] eqn:Ht; [|same]. destruct (bool_decide _); [|same]. cbn [negb].
  destruct (bump s _) as [b|] eqn:Eb; [|same]. apply bump_Ok in Eb as [-> Hm].
  cbn in Em. destruct (g_unavailable s) eqn:Hu; [done|].
  assert (Hok : goal_ok s) by (by eapply good_ok).
  assert (Hst : g_Status s = goalStatusActive) by (by apply bool_decide_eq_true in H).
  destruct (given_ok w now q s Hck Hnow Hs) as [H0' H1'].
  assert (Hor : g_ObjectiveRevision s = objectiveRevision) by lia.
  assert (Hb : goal_ok (bumped (given now w) s)).
  { apply goal_ok_bumped; try done. pose proof (ok_revision s Hok). lia. }
  specialize (Hmut s t eq_refl Hok Hst eq_refl Hor (given now w) Hb).
  destruct (mutate t (bumped (given now w) s) (given now w)) as [t' next]. cbn [snd] in Hmut.
  assert (Hn : next_goal [] (Some s) next) by (by eapply active_next).
  destruct (report && _ && _).
  - intros [= <- _]. split; [by apply runs_same|]. intros _. exists s. split_and!; [done|done|congruence].
  - intros Hc. eapply (commit_sound cfg Hscope [] w 0 q); [done|apply not_in_nil|exact Hs| | | |exact Hn|exact Hc]; try done.
Qed.

Lemma requestCompletion_sound w goalID objectiveRevision turnID now q q' r :
  Good q -> clock_ok w q -> now_ok now q ->
  requestCompletion cfg w goalID objectiveRevision turnID now q = (q', r) -> sound [] q q'.
Proof.
  intros Hq Hck Hnow. apply commitTurnEvidence_sound; try done. intros s t _ _ _ Hv <- now' _.
  eapply changes_step; [by apply (ch_completion (bumped now' s) turnID)|by left|apply changes_refl].
Qed.

Lemma add_blocker_changes key reason turnID t s now :
  goal_ok s -> g_Status s <> goalStatusComplete -> validateGoalTurnID turnID = true -> key <> [] ->
  normal_key key = true -> accepted_reason reason -> changes [] s (add_blocker key reason turnID t s now).2.
Proof.
  intros Hok Hc Hv Hk Hn Hr. unfold add_blocker. cbv zeta.
  destruct (ok_turns s Hok) as (Hlen & Hnd & Hval).
  set (turns := if g_BlockerKey s <>b key then [] else g_BlockerTurnIDs s).
  assert (Hs1 : (if g_BlockerKey s <>b key then s <| g_BlockerKey := key |> <| g_BlockerTurnIDs := [] |> else s)
    = s <| g_BlockerKey := key |> <| g_BlockerTurnIDs := turns |>).
  { unfold turns. destruct (bool_decide_reflect (g_BlockerKey s = key)) as [<-|]; [|done]. by destruct s. }
  assert (Ht : (length turns <= 3)%nat /\ NoDup turns /\ Forall (fun t => validateGoalTurnID t = true) turns).
  { unfold turns. destruct (_ <>b _); [apply no_evidence|done]. }
  rewrite Hs1. cbn [g_BlockerTurnIDs g_BlockerKey set].
  destruct Ht as (Hl & Hd & Hvt).
  destruct (bool_decide_reflect (turnID ∈ turns)) as [Hin|Hin].
  { rewrite <- Hs1. unfold turns in Hin. destruct (bool_decide_reflect (g_BlockerKey s = key)); [|by apply elem_of_nil in Hin].
    apply changes_refl. }
  assert (Hall : NoDup (turns ++ [turnID]) /\ Forall (fun t => validateGoalTurnID t = true) (turns ++ [turnID])).
  { split; [|by apply Forall_app; split; [|constructor]]. apply NoDup_app. split_and!; [done| |apply NoDup_singleton].
    by intros x Hx ->%list_elem_of_singleton. }
  destruct Hall as [Hd' Hv'].
  assert (Hch : forall l, l <> [] -> (length l <= 3)%nat -> NoDup l -> Forall (fun t => validateGoalTurnID t = true) l ->
    changes [] s (s <| g_BlockerKey := key |> <| g_BlockerTurnIDs := l |>)).
  { intros l ????. eapply changes_step; [by apply (ch_blocker s key l)|by left|apply changes_refl]. }
  destruct (Nat.ltb_spec (length (turns ++ [turnID])) 3).
  { apply (Hch (turns ++ [turnID])); [by destruct turns|lia|done|done]. }
  set (l := drop (length (turns ++ [turnID]) - 3) (turns ++ [turnID])).
  assert (Hl3 : (length l = 3)%nat).
  { unfold l. rewrite length_drop. lia. }
  assert (Hld : NoDup l /\ Forall (fun t => validateGoalTurnID t = true) l).
  { split; [|by apply Forall_drop].
    rewrite <- (take_drop (length (turns ++ [turnID]) - 3) (turns ++ [turnID])) in Hd'.
    by apply NoDup_app in Hd' as (_ & _ & ?). }
  destruct Hld as [Hld Hlv]. assert (Hln : l <> []) by (intros E; by rewrite E in Hl3).
  eapply changes_trans; [apply (Hch l); [done|lia|done|done]|].
  assert (Hst : forall t, g_Status t <> goalStatusComplete ->
    change plain t (with_status goalStatusBlocked (lit "model-blocker") reason t)).
  { intros t' Ht'. apply (ch_status _ plain goalStatusBlocked (lit "model-blocker") reason);
      [by left|done|done|by_constant|done|done]. }
  eapply changes_step; [by apply Hst|by left|]. apply stop_interval_changes.
  eapply goal_ok_change; [by apply Hst|]. eapply goal_ok_change; [apply (ch_blocker s key l)|done]; try done. lia.
Qed.

Lemma reportBlocker_sound w goalID objectiveRevision turnID reason blockerKey now q q' r :
  Good q -> clock_ok w q -> now_ok now q ->
  reportBlocker cfg w goalID objectiveRevision turnID reason blockerKey now q = (q', r) -> sound [] q q'.
Proof.
  intros Hq Hck Hnow. unfold reportBlocker.
  destruct (normalizeGoalReason reason) as [rs|] eqn:Er; [|same].
  destruct (normalizeGoalBlockerKey blockerKey) as [key|] eqn:Ek; [|same].
  apply normal_key_result in Ek as [Hk Hn].
  apply commitTurnEvidence_sound; try done. intros s t Hs _ Hst Hv _ now' Hok.
  apply add_blocker_changes; try done; [cbn; congruence|by eapply reason_accepted].
Qed.

(** ** Waiting, and the end of a turn *)

Lemma sound_runtime K q q' t :
  sound K q q' -> is_Some (q_goalTurnRuntime q') -> sound K q (q' <| q_goalTurnRuntime := Some t |>).
Proof. intros [[Hw Hf] Hr] Hi. split; [by split|]. intros _. exact (Hr Hi). Qed.

Lemma pauseTurnFor_sound w reason now q q' r :
  Good q -> clock_ok w q -> now_ok now q -> pauseTurnFor cfg w reason now q = (q', r) -> sound [] q q'.
Proof.
  intros Hq Hck Hnow. unfold pauseTurnFor. cbv zeta. destruct (bool_decide _); [same|].
  destruct (q_goalTurnRuntime q) as [t|] eqn:Ht; [|same]. destruct (q_goalState q) as [s|] eqn:Hs; [|same].
  destruct (_ || _) eqn:Ha; [same|]. destruct (bool_decide _); [same|].
  destruct (active_ok q s Hq Hs Ha) as [Hok Hst]. destruct (given_ok w now q s Hck Hnow Hs) as [H0 H1].
  destruct (bump s _) as [b|] eqn:Eb; [|same]. apply bump_Ok in Eb as [-> Hm].
  assert (Hb : goal_ok (bumped (given now w) s)).
  { apply goal_ok_bumped; try done. pose proof (ok_revision s Hok). lia. }
  set (x := if bool_decide (t_waiting t = ∅) then _ else _).
  assert (Hn : next_goal [] (Some s) x.2).
  { eapply active_next; try done. unfold x. destruct (bool_decide _); [by apply stop_interval_changes|apply changes_refl]. }
  destruct x as [t' next]. cbn [snd] in Hn.
  destruct (commit_goal _ _ _ _ _ _) as [y z] eqn:Ec.
  pose proof (commit_sound cfg Hscope [] w 0 q q s _ _ y z Hq (not_in_nil _) Hs eq_refl (frame_refl q)
    ltac:(done) Hn Ec) as Hx.
  destruct (commit_runs cfg Hscope [] w 0 _ _ q y z ltac:(by rewrite Hs) Ec) as (_ & Hty & _).
  destruct z as [b|e]; intros [= <- _]; [|done]. apply sound_runtime; [done|]. rewrite Hty, Ht. by eexists.
Qed.

Lemma resumeTurnFor_sound w reason now q q' r :
  Good q -> clock_ok w q -> now_ok now q -> resumeTurnFor cfg w reason now q = (q', r) -> sound [] q q'.
Proof.
  intros Hq Hck Hnow. unfold resumeTurnFor. cbv zeta. destruct (bool_decide _); [same|].
  destruct (q_goalTurnRuntime q) as [t|] eqn:Ht; [|same]. destruct (q_goalState q) as [s|] eqn:Hs; [|same].
  destruct (negb _); [same|].
  destruct (good_runtime q Hq) as (s' & Hs' & Ha & _); [by rewrite Ht|]. assert (s' = s) as -> by congruence.
  pose proof (good_ok q s Hq Hs Ha) as Hok. destruct (given_ok w now q s Hck Hnow Hs) as [H0 H1].
  destruct (bump s _) as [b|] eqn:Eb; [|same]. apply bump_Ok in Eb as [-> Hm].
  assert (Hn : next_goal [] (Some s) (bumped (given now w) s)).
  { by eapply active_next; try done. }
  destruct (commit_goal _ _ _ _ _ _) as [y z] eqn:Ec.
  pose proof (commit_sound cfg Hscope [] w 0 q q s _ _ y z Hq (not_in_nil _) Hs eq_refl (frame_refl q)
    ltac:(done) Hn Ec) as Hx.
  destruct (commit_runs cfg Hscope [] w 0 _ _ q y z ltac:(by rewrite Hs) Ec) as (_ & Hty & _).
  destruct z as [b|e]; intros [= <- _]; [|done]. apply sound_runtime; [done|]. rewrite Hty, Ht. by eexists.
Qed.

Lemma abandonTurn_sound turnID q : Good q -> sound [] q (abandonTurn turnID q).
Proof.
  intros Hq. unfold abandonTurn. destruct (q_goalTurnRuntime q); [|by apply sound_refl].
  destruct (bool_decide _); [|by apply sound_refl]. split; [by apply runs_same|by intros [? ?]].
Qed.

Lemma settle_completion_changes terminal identity waiting input s :
  changes [completing] s (settle_completion cfg terminal identity waiting input s).
Proof.
  unfold settle_completion. cbv zeta.
  set (s1 := if (terminal <>b TerminalCompleted) && _ then _ else s).
  assert (H1 : changes [completing] s s1).
  { unfold s1. destruct (_ && _); [|apply changes_refl].
    eapply changes_step; [apply ch_no_completion|by left|apply changes_refl]. }
  clearbody s1. destruct (_ && _) eqn:E; [|done]. breflect.
  eapply changes_trans; [exact H1|].
  eapply changes_step; [apply (ch_complete s1 completion_reason);
    [by_constant|by destruct (g_PendingUsageAdmission s1)]|right; by left|].
  eapply changes_step; [apply ch_reset|by left|apply changes_refl].
Qed.

Lemma newGoalContinuationCursor_Ok s scope terminal sequence at_time revision c :
  newGoalContinuationCursor s scope terminal sequence at_time revision = Ok c ->
  validateGoalContinuationCursor c = None.
Proof.
  unfold newGoalContinuationCursor. destruct (_ =? _); [done|].
  match goal with |- match ?v with _ => _ end = _ -> _ => destruct v eqn:Ev; [done|] end. by intros [= <-].
Qed.

Lemma commitGoalTerminalEvents_sound w identity sequence terminal q q' r :
  Good q -> clock_ok w q ->
  commitGoalTerminalEvents clock cfg w identity sequence terminal q = (q', r) -> sound [completing] q q'.
Proof.
  intros Hq Hck. unfold commitGoalTerminalEvents. cbv zeta.
  destruct (q_goalTurnRuntime q) as [t|] eqn:Ht; [|same]. destruct (q_goalState q) as [s|] eqn:Hs; [|same].
  destruct (_ || _); [same|]. destruct (_ <? _); [same|].
  destruct (good_runtime q Hq) as (s' & Hs' & Ha & _); [by rewrite Ht|]. assert (s' = s) as -> by congruence.
  pose proof (good_ok q s Hq Hs Ha) as Hok. destruct (clock_ok_mem w q s Hck Hs) as [H0 H1].
  destruct (bump s _) as [b|] eqn:Eb; [|same]. apply bump_Ok in Eb as [-> Hm].
  assert (Hb : goal_ok (bumped (w_clock w 0) s)).
  { apply goal_ok_bumped; try done. pose proof (ok_revision s Hok). lia. }
  match goal with |- context [settle_completion _ ?tm ?i ?wt ?inp ?s2] =>
    assert (Hch : changes [completing] (bumped (w_clock w 0) s) (settle_completion cfg tm i wt inp s2));
    [|set (next := settle_completion _ tm i wt inp s2) in *] end.
  { eapply changes_trans; [|apply settle_completion_changes].
    eapply changes_snoc; [by apply stop_interval_changes|apply ch_sequence|by left]. }
  clearbody next.
  match goal with |- match ?x with Ok _ => _ | Err _ => _ end = _ -> _ =>
    assert (Hcont : forall n, x = Ok n -> next_goal [completing] (Some s) n); [|destruct x as [n|e]; [|same]] end.
  { intros n. destruct (goalContinuationEligible next t terminal).
    - destruct (q_input q); [|done].
      destruct (newGoalContinuationCursor _ _ _ _ _ _) as [c|] eqn:Ec; [|done]. intros [= <-].
      apply newGoalContinuationCursor_Ok in Ec. eapply active_next; try done.
      eapply changes_trans; [exact Hch|].
      eapply changes_step; [apply ch_ordinal|by left|]. eapply changes_step; [by apply ch_cursor|by left|apply changes_refl].
    - intros [= <-]. by eapply active_next. }
  specialize (Hcont n eq_refl).
  destruct (commit_goal _ _ _ _ _ _) as [y z] eqn:Ec.
  destruct (commit_runs cfg Hscope [completing] w 0 _ _ q y z ltac:(by rewrite Hs) Ec) as (Hr & Hty & Hi & Hg).
  destruct z as [sq|e].
  2: { intros [= <- _]. split; [done|]. eapply runtime_ok_same; [apply Hq|congruence|congruence]. }
  assert (Hdone : forall x : engine, core_of x = core_of y -> frame y x -> q_goalTurnRuntime x = None ->
    sound [completing] q x).
  { intros x Hx Hf Htx. split; [|intros [? Hi']; congruence].
    eapply runs_trans; [exact Hr|by apply runs_same]. }
  destruct (g_Continuation n) as [c|]; [|intros [= <- _]; by apply Hdone].
  cbn [q_input set]. destruct (q_input y) as [input|]; [|intros [= <- _]; by apply Hdone].
  destruct (bool_decide _); [|intros [= <- _]; by apply Hdone].
  destruct (enqueueDormantGoalContinuation _ _ _ _). intros [= <- _]. by apply Hdone.
Qed.

Lemma pauseForCancellation_sound w now q q' r :
  Good q -> clock_ok w q -> now_ok now q -> pauseForCancellation clock cfg w now q = (q', r) -> sound [] q q'.
Proof.
  intros Hq Hck Hnow. unfold pauseForCancellation. cbv zeta. destruct (q_goalState q) as [s|] eqn:Hs; [|same].
  destruct (_ || _) eqn:Ha; [same|]. destruct (active_ok q s Hq Hs Ha) as [Hok Hst].
  destruct (given_ok w now q s Hck Hnow Hs) as [H0 H1].
  destruct (bump s _) as [b|] eqn:Eb; [|same]. apply bump_Ok in Eb as [-> Hm].
  assert (Hb : goal_ok (bumped (given now w) s)).
  { apply goal_ok_bumped; try done. pose proof (ok_revision s Hok). lia. }
  set (n0 := resetGoalTurnEvidence _).
  assert (Hn0 : changes [] (bumped (given now w) s) n0).
  { eapply changes_step; [apply (ch_status _ plain goalStatusPaused goalReasonUserCancelled
      (lit "automatic Goal continuation was cancelled by the user"))|by left|].
    1: left; split; [done|]; cbn; congruence.
    1,2,5: done.
    1,2: by_constant.
    eapply changes_step; [apply ch_reset|by left|apply changes_refl]. }
  set (x := match q_goalTurnRuntime q with Some t => _ | None => _ end).
  assert (Hx : changes [] (bumped (given now w) s) x.2 /\ g_Continuation x.2 = g_Continuation s
    /\ (is_Some x.1 -> is_Some (q_goalTurnRuntime q))).
  { unfold x. destruct (q_goalTurnRuntime q) as [t|]; [|done].
    pose proof (stop_interval_changes [] t n0 (given now w) (goal_ok_changes _ _ _ Hn0 Hb)) as Hst'.
    pose proof (stop_interval_frame t n0 (given now w)) as (_ & _ & _ & Hc).
    destruct (stopActiveInterval _ _ _) as [t' n1]. cbn [fst snd] in *. split_and!; [by eapply changes_trans|done|].
    intros _. by eexists. }
  destruct x as [t' next]. cbn [fst snd] in Hx. destruct Hx as (Hch & Hcn & Hti).
  destruct (open_continuation next) as [c|] eqn:Eo.
  2: { intros Hc. eapply (commit_sound cfg Hscope [] w 0 q); [done|apply not_in_nil|exact Hs| | | | |exact Hc]; try done.
       by eapply active_next. }
  change (q_input (q <| q_goalTurnRuntime := t' |>)) with (q_input q).
  destruct (q_input q) as [input|]; cbn [is_some negb].
  2: { intros [= <- _]. split; [by apply runs_same|]. intros Ht. destruct (good_runtime q Hq (Hti Ht)) as (y & ?).
    by exists y. }
  apply open_continuation_Some in Eo as [Eo _].
  match goal with |- context [commit_goal _ _ _ ?n _ ?q1] => set (n2 := n); set (q1' := q1) end.
  assert (Hn2 : next_goal [] (Some s) n2).
  { eapply active_next; try done. eapply changes_snoc; [exact Hch|apply ch_cursor|by left].
    apply reject_valid; [by eapply ok_cursor; [exact Hok|congruence]|done|lia]. }
  destruct (commit_goal _ _ _ _ _ _) as [y z] eqn:Ec.
  assert (Hx : sound [] q y).
  { eapply (commit_sound cfg Hscope [] w 0 q q1' s n2 tt y z); try done; apply not_in_nil. }
  destruct z as [[]|]; intros [= <- _]; [by apply retire_sound|done].
Qed.

(** ** Calls *)

(** A run of writes that may also change the calls. *)
Definition soundc (K : list kind) (q q' : engine) : Prop :=
  rtc (write K) (core_of q) (core_of q') /\ runtime_ok q'.

Lemma sound_c K q q' : sound K q q' -> soundc K q q'.
Proof. intros [[Hw _] Hr]. by split. Qed.

Lemma soundc_mono K q q' : sound [] q q' -> soundc K q q'.
Proof.
  intros [Hr Hq]. apply sound_c. split; [|done]. eapply runs_mono; [|exact Hr]. intros k Hk. by apply elem_of_nil in Hk.
Qed.

Lemma soundc_good K q q' : soundc K q q' -> Good q -> Good q'.
Proof. intros [Hw Hr] []. split; [by eapply writes_ok|done]. Qed.

(** The turn and the goals are not touched. *)
Definition same_goal (q q' : engine) : Prop :=
  core_of q' = core_of q /\ q_goalTurnRuntime q' = q_goalTurnRuntime q.

Lemma same_goal_good q q' : same_goal q q' -> Good q -> Good q'.
Proof.
  intros [Hc Ht] [Hg Hr]. split; [by rewrite Hc|]. eapply runtime_ok_same; [exact Hr|exact Ht|].
  by injection Hc as ? ?.
Qed.

Lemma soundc_after K q q1 q' : same_goal q q1 -> soundc K q1 q' -> soundc K q q'.
Proof. intros [Hc _] [Hw Hr]. split; [by rewrite <- Hc|done]. Qed.

Lemma soundc_before K q q1 q' : soundc K q q1 -> same_goal q1 q' -> soundc K q q'.
Proof.
  intros [Hw Hr] [Hc Ht]. split; [by rewrite Hc|]. eapply runtime_ok_same; [exact Hr|exact Ht|]. by injection Hc as ? ?.
Qed.

Lemma not_completing : completing ∉ [accounting].
Proof. by intros ?%list_elem_of_singleton. Qed.

Lemma in_accounting : accounting ∈ [plain; accounting].
Proof. right; by left. Qed.

Lemma admissible_Ok m r s :
  admissible m r = Ok s ->
  m = Some s /\ g_unavailable s = false /\ g_Status s = goalStatusActive
  /\ goalExecutionIdentity_valid (r_binding r) = true
  /\ g_GoalID s = x_GoalID (r_binding r) /\ g_ObjectiveRevision s = x_ObjectiveRevision (r_binding r)
  /\ g_LastGoalTurnID s = x_GoalTurnID (r_binding r).
Proof.
  unfold admissible. destruct (validateGoalUsageReporter m r) eqn:Ev; [done|]. destruct m as [t|]; [|done].
  destruct (goal_active t) eqn:Ha; [|done]. intros [= <-]. cbn in Ev.
  destruct (g_unavailable t); [done|]. destruct (r_revoked r || _) eqn:E1; [done|].
  destruct ((_ <>b _) || _ || _) eqn:E2; [done|]. breflect. apply bool_decide_eq_true in Ha.
  repeat match goal with H : negb _ = false |- _ => apply negb_false_iff in H | H : bool_decide _ = true |- _ => apply bool_decide_eq_true in H end.
  split_and!; try done. lia.
Qed.

Lemma own_ledger w q :
  ledger = q_ledger q -> forall corrupt l, loadGoalUsageLedger cfg w q = Some (corrupt, l) -> l = ledger.
Proof.
  intros -> corrupt l. unfold loadGoalUsageLedger. destruct (cfg_transcriptPath cfg); [|done].
  destruct (w_transcript w); [|done]. by intros [= _ <-].
Qed.

Lemma reconcile_pending_sound w s q q' r :
  ledger = q_ledger q -> Good q -> q_goalState q = Some s -> goal_ok s -> 0 < w_clock w 0 -> g_UpdatedAt s <= w_clock w 0 ->
  reconcile_pending cfg w s q = (q', r) ->
  sound [accounting] q q' /\
  match r with
  | Ok s' => q_goalState q' = Some s' /\ g_UpdatedAt s' <= w_clock w 0
  | Err _ => True
  end.
Proof.
  intros HLq Hq Hs Hok H0 H1. unfold reconcile_pending.
  destruct (negb _); [intros [= <- <-]; split; [by apply sound_refl|done]|].
  destruct (reconcileGoalUsageState _ _ _) as [[next changed] errs] eqn:Er. cbv zeta.
  destruct (reconcile_evolves s _ _ next changed errs Hok H0 H1 (own_ledger w q HLq) Er) as [[-> ->]|(-> & He & Hu)].
  - destruct errs; intros [= <- <-]; (split; [by apply sound_refl|done]).
  - pose proof (next_evolved _ _ _ He) as Hn.
    pose proof (persist_runs cfg Hscope [accounting] w 0 next q ltac:(by rewrite Hs)) as Hpr.
    destruct (persist cfg w 0 (Some next) q) as [x [|]]; destruct Hpr as (Hf & Hg & Ht & _ & Hsv & Hru).
    + assert (Hx : sound [accounting] q (x <| q_goalState := Some next |>)).
      { split.
        - split; [|done]. unfold core_of. cbn. rewrite (Hsv eq_refl), Hs. apply rtc_once. by apply write_goal.
        - eapply runtime_ok_next; [apply Hq|exact not_completing| |exact Hs|done|exact Hn]. cbn. by rewrite Ht. }
      destruct errs; intros [= <- <-]; (split; [done|]); [split; [done|lia]|done].
    + intros [= <- <-]. split; [|done]. split; [by apply Hru|]. eapply runtime_ok_same; [apply Hq|done|done].
Qed.

Lemma admit_next_sound w r d id s q q' res :
  Good q -> q_goalState q = Some s -> admissible (Some s) r = Ok s -> 0 < w_clock w 1 ->
  g_UpdatedAt s <= w_clock w 1 -> admit_next cfg w r d id s q = (q', res) ->
  sound [accounting] q q' /\
  match res with
  | Ok a => g_PendingUsageAdmission s = None /\ a_LedgerRevision a = g_UsageLedgerRevision s + 1
            /\ a_GoalID a = g_GoalID s
            /\ q_goalState q' = Some ((bumped (w_clock w 1) s) <| g_PendingUsageAdmission := Some a |>)
            /\ q_saved q' = persistedGoalState ((bumped (w_clock w 1) s) <| g_PendingUsageAdmission := Some a |>)
  | Err _ => q_goalState q' = Some s
  end.
Proof.
  intros Hq Hs Hadm H0 H1. apply admissible_Ok in Hadm as (_ & Ha & Hst & _ & Hid & Hor & Htu).
  pose proof (good_ok q s Hq Hs Ha) as Hok. unfold admit_next.
  destruct (g_PendingUsageAdmission s) eqn:Hp; [intros [= <- <-]; split; [by apply sound_refl|done]|]. cbn [is_some].
  destruct (Z.eqb_spec (g_UsageLedgerRevision s) MaxUint64) as [|Hx];
    [intros [= <- <-]; split; [by apply sound_refl|done]|].
  destruct (bump s _) as [b|] eqn:Eb; [|intros [= <- <-]; split; [by apply sound_refl|done]].
  apply bump_Ok in Eb as [-> Hm]. cbv zeta. set (a := admission_of _ _ _ _ _).
  destruct (validateGoalUsageAdmission a) eqn:Hv; [|intros [= <- <-]; split; [by apply sound_refl|done]]. cbn [negb].
  assert (Hn : next_goal [accounting] (Some s) ((bumped (w_clock w 1) s) <| g_PendingUsageAdmission := Some a |>)).
  { eapply active_next; try done.
    eapply changes_step; [apply (ch_admit (bumped (w_clock w 1) s) a)|exact in_accounting|apply changes_refl];
      try done; cbn; try congruence.
    pose proof (ok_ledger s Hok). lia. }
  intros Hc.
  pose proof (commit_sound cfg Hscope [accounting] w 1 q q s _ a q' res Hq not_completing Hs eq_refl (frame_refl q)
    ltac:(done) Hn Hc) as Hsnd.
  destruct (commit_runs cfg Hscope [accounting] w 1 _ a q q' res ltac:(by rewrite Hs) Hc) as (_ & _ & _ & Hg).
  split; [done|]. destruct res as [a'|e]; [|congruence]. destruct Hg as [-> Hg]. split_and!; try done.
  revert Hc. unfold commit_goal.
  destruct (persist_cases cfg Hscope w 1 (Some ((bumped (w_clock w 1) s) <| g_PendingUsageAdmission := Some a |>)) q)
    as [->|[->| ->]]; by intros [= <-].
Qed.

(** What the admission of a call does to the calls: nothing when it fails, and
    otherwise the call is the last one, and the goal and its saved record wait
    for it; [t] is the goal before the admission. *)
Definition admitted_frame {A} (q q' : engine) (res : result goal_error A) : Prop :=
  q_ledger q' = q_ledger q /\
  match res with
  | Err _ => q_calls q' = q_calls q /\ q_usageGate q' = q_usageGate q
  | Ok _ => exists p t a,
      rtc (write [accounting]) (core_of q) (Some t, p) /\ g_unavailable t = false
      /\ g_PendingUsageAdmission t = None /\ a_LedgerRevision a = g_UsageLedgerRevision t + 1
      /\ a_GoalID a = g_GoalID t /\ q_usageGate q = true
      /\ q_calls q' = q_calls q ++ [{| pc_admission := a; pc_settled := false |}] /\ q_usageGate q' = false
      /\ exists s, q_goalState q' = Some s /\ q_saved q' = persistedGoalState s /\ g_unavailable s = false
                   /\ g_PendingUsageAdmission s = Some a
  end.

Lemma admitted_frame_refl {A} q (e : goal_error) : admitted_frame (A := A) q q (Err e).
Proof. done. Qed.

Lemma admitProviderUsage_sound w cancelled r d id q q' res :
  ledger = q_ledger q -> Good q -> clock_ok w q -> admitProviderUsage cfg w cancelled r d id q = (q', res) ->
  soundc [accounting] q q' /\ admitted_frame q q' res.
Proof.
  intros HLq Hq Hck. unfold admitProviderUsage.
  assert (Hrefl : forall e, (q, Err e) = (q', res) -> soundc [accounting] q q' /\ admitted_frame q q' res).
  { intros e [= <- <-]. split; [apply sound_c; by apply sound_refl|apply admitted_frame_refl]. }
  assert (Herr : forall (x : engine) e, sound [accounting] q x -> (x, Err e) = (q', res) ->
    soundc [accounting] q q' /\ admitted_frame q q' res).
  { intros x e Hx [= <- <-]. split; [by apply sound_c|]. destruct Hx as [[_ (? & ? & ? & _)] _]. by split_and!. }
  destruct cancelled; [apply Hrefl|]. destruct (q_usageGate q) eqn:Hgate; cbn [negb]; [|apply Hrefl].
  destruct (q_usageUncertain q); [apply Hrefl|].
  destruct (admissible (q_goalState q) r) as [s|e] eqn:Ea; [|apply Hrefl].
  pose proof (admissible_Ok _ _ _ Ea) as (Hs & Ha & _).
  pose proof (good_ok q s Hq Hs Ha) as Hok. destruct (clock_ok_mem w q s Hck Hs) as [H0 H1].
  destruct (reconcile_pending cfg w s q) as [x y] eqn:Er.
  destruct (reconcile_pending_sound w s q x y HLq Hq Hs Hok H0 H1 Er) as [Hx Hy].
  destruct y as [s'|e]; [|by apply Herr]. destruct Hy as [Hs' Hu].
  destruct (admissible (Some s') r) as [s2|e] eqn:Ea'; [|by apply Herr].
  pose proof (admissible_Ok _ _ _ Ea') as ([= <-] & Ha' & _).
  destruct (admit_next cfg w r d id s' x) as [y z] eqn:En.
  destruct Hck as (_ & Hck & _).
  destruct (admit_next_sound w r d id s' x y z (sound_good _ _ _ Hx Hq) Hs' Ea' ltac:(lia) ltac:(lia) En) as [Hy Hz].
  pose proof (sound_trans _ _ _ _ Hx Hy) as Hxy. destruct z as [a|e]; [|by apply Herr].
  intros [= <- <-]. split; [eapply soundc_before; [by apply sound_c|done]|].
  destruct Hz as (Hp & Hl & Hid & Hg & Hsv). destruct Hxy as [[_ (Hf1 & Hf2 & _)] _]. split; [done|].
  exists (q_saved x), s', a. destruct Hx as [[Hx _] _]. unfold core_of in Hx at 2. rewrite Hs' in Hx.
  cbn [set q_calls q_ledger]. rewrite Hf2. split_and!; try done. by eexists.
Qed.

Lemma AdmitProviderUsage_sound w cancelled r d q q' res :
  ledger = q_ledger q -> Good q -> clock_ok w q -> AdmitProviderUsage cfg w cancelled r d q = (q', res) ->
  soundc [accounting] q q' /\ admitted_frame q q' res.
Proof.
  intros HLq Hq Hck. unfold AdmitProviderUsage.
  assert (Hrefl : forall e, (q, Err e) = (q', res) -> soundc [accounting] q q' /\ admitted_frame q q' res).
  { intros e [= <- <-]. split; [apply sound_c; by apply sound_refl|apply admitted_frame_refl]. }
  destruct (_ || _); [apply Hrefl|]. destruct (blank _); [apply Hrefl|].
  destruct (blank _); [apply Hrefl|]. by apply admitProviderUsage_sound.
Qed.

(** ** Settling a call *)

Lemma joined_commit_sound K w q s next q' es :
  Good q -> completing ∉ K -> q_goalState q = Some s -> next_goal K (Some s) next ->
  joined (commit_goal cfg w 0 next tt q) = (q', es) -> sound K q q'.
Proof.
  intros Hq HK Hs Hn. destruct (commit_goal cfg w 0 next tt q) as [x y] eqn:Ec.
  pose proof (commit_sound cfg Hscope K w 0 q q s next tt x y Hq HK Hs eq_refl (frame_refl q) ltac:(done) Hn Ec).
  destruct y as [[]|]; by intros [= <- _].
Qed.

Lemma pending_not_complete q s a :
  Good q -> q_goalState q = Some s -> g_PendingUsageAdmission s = Some a -> g_Status s <> goalStatusComplete.
Proof.
  intros Hq Hs Hp Hc. destruct (good_mem q s Hq Hs s eq_refl) as [Hok|(_ & Hn & _)]; [|done].
  pose proof (ok_complete s Hok Hc). congruence.
Qed.

Lemma markProviderUsageAmbiguous_sound w a cancelled q q' es :
  Good q -> clock_ok w q -> markProviderUsageAmbiguous cfg w a cancelled q = (q', es) -> soundc [accounting] q q'.
Proof.
  intros Hq Hck. unfold markProviderUsageAmbiguous. cbv zeta. set (q1 := q <| q_usageUncertain := true |>).
  assert (Hsame : same_goal q q1) by done. pose proof (same_goal_good q q1 Hsame Hq) as Hq1.
  change (q_goalState q1) with (q_goalState q). intros Hrun. apply (soundc_after _ q q1); [done|]. revert Hrun.
  destruct (q_goalState q) as [s|] eqn:Hs; [|intros [= <- _]; apply sound_c; by apply sound_refl].
  destruct (bool_decide_reflect (g_PendingUsageAdmission s = Some a)) as [Hp|];
    [|intros [= <- _]; apply sound_c; by apply sound_refl]. cbn [negb].
  destruct (bump s _) as [b|e] eqn:Eb; [|intros [= <- _]; apply sound_c; by apply sound_refl].
  apply bump_Ok in Eb as [-> Hm]. destruct (clock_ok_mem w q s Hck Hs) as [H0 H1].
  pose proof (pending_not_complete q s a Hq Hs Hp) as Hnc.
  intros Hc. apply sound_c. eapply (joined_commit_sound [accounting] w q1 s); [done|exact not_completing|done| |exact Hc].
  eapply (step_next [accounting] s (w_clock w 0)); try done; [by eapply good_mem|].
  intros _. apply limited_changes; [destruct cancelled; by_constant|done].
Qed.

(** The ledger has no record of the call. *)
Definition unrecorded (a : goalUsageAdmission) : Prop :=
  forall r, r ∈ ledger -> l_GoalID r = a_GoalID a -> l_LedgerRevision r < a_LedgerRevision a.

Lemma releaseProviderUsageBeforeDispatch_sound w a q q' es :
  unrecorded a -> Good q -> clock_ok w q -> releaseProviderUsageBeforeDispatch cfg w a q = (q', es) -> soundc [accounting] q q'.
Proof.
  intros Hun Hq Hck. unfold releaseProviderUsageBeforeDispatch.
  destruct (q_goalState q) as [s|] eqn:Hs; [|intros [= <- _]; apply sound_c; by apply sound_refl].
  destruct (bool_decide_reflect (g_PendingUsageAdmission s = Some a)) as [Hp|];
    [|intros [= <- _]; apply sound_c; by apply sound_refl]. cbn [negb].
  destruct (bump s _) as [b|e] eqn:Eb; [|intros [= <- _]; apply sound_c; by apply sound_refl].
  apply bump_Ok in Eb as [-> Hm]. destruct (clock_ok_mem w q s Hck Hs) as [H0 H1].
  pose proof (pending_not_complete q s a Hq Hs Hp) as Hnc.
  intros Hc. apply sound_c. eapply (joined_commit_sound [accounting] w q s); [done|exact not_completing|done| |exact Hc].
  eapply (step_next [accounting] s (w_clock w 0)); try done; [by eapply good_mem|].
  intros Hok. eapply changes_step; [apply ch_release|exact in_accounting|apply changes_refl].
  cbn. destruct (ok_admission s Hok a Hp) as (_ & Hid & _ & Hl & _). intros r Hr Hg.
  specialize (Hun r Hr). rewrite Hid in Hun. specialize (Hun Hg). lia.
Qed.

Lemma applyGoalUsageRecord_frame s r now s' :
  applyGoalUsageRecord s r now = Ok s' ->
  g_Revision s <> MaxUint64 /\ g_unavailable s' = g_unavailable s
  /\ g_unavailablePersistedRepresentation s' = g_unavailablePersistedRepresentation s
  /\ (g_Status s' = g_Status s \/ g_Status s' = goalStatusBudgetLimited).
Proof.
  unfold applyGoalUsageRecord. destruct (g_PendingUsageAdmission s) as [a|]; [|done].
  destruct (negb _); [done|]. destruct (negb _); [done|]. destruct (_ <? _); [done|].
  destruct (nextGoalRevision s now) as [b|] eqn:Eb; [|done]. apply nextGoalRevision_Some in Eb as [-> Hm].
  cbv zeta. match goal with |- Ok (match ?tb with _ => _ end) = _ -> _ => destruct tb as [budget|] end;
    [destruct (budget <=? _)|]; intros [= <-]; split_and!; try done; [by right|by left|by left].
Qed.

Lemma applied_next w q s r s' :
  r ∈ ledger -> Good q -> clock_ok w q -> q_goalState q = Some s -> applyGoalUsageRecord s r (w_clock w 0) = Ok s' ->
  next_goal [accounting] (Some s) s'.
Proof.
  intros Hin Hq Hck Hs Ha. destruct (clock_ok_mem w q s Hck Hs) as [H0 H1].
  destruct (good_mem q s Hq Hs s eq_refl) as [Hok|(Hu & Hn & _)].
  - apply next_evolved. by eapply applyGoalUsageRecord_evolves.
  - apply applyGoalUsageRecord_frame in Ha as (_ & Hu' & Hr & Hst). apply next_unavailable; try congruence.
    destruct Hst as [-> | ->]; done.
Qed.

Lemma recordGoalUsage_frame w r q q' ok :
  recordGoalUsage cfg w r q = (q', ok) ->
  same_goal q q' /\ q_goalState q' = q_goalState q /\ q_saved q' = q_saved q
  /\ q_calls q' = q_calls q /\ q_usageGate q' = q_usageGate q
  /\ ((q_ledger q' = q_ledger q /\ ok = false)
      \/ (q_ledger q' = q_ledger q ++ [r] /\ ValidateGoalUsageRecord r = true)).
Proof.
  unfold recordGoalUsage. destruct (_ || _ || _) eqn:E; [intros [= <- <-]; split_and!; auto; done|]. breflect.
  destruct (w_ledger w); intros [= <- <-]; split_and!; auto; done.
Qed.

Lemma joined_commit_frame w next q q' es : joined (commit_goal cfg w 0 next tt q) = (q', es) -> frame q q'.
Proof.
  unfold commit_goal.
  destruct (persist_cases cfg Hscope w 0 (Some next) q) as [->|[->| ->]]; by intros [= <- _].
Qed.

(** What a settlement does to the ledger and the calls. *)
Definition settled_frame (a : goalUsageAdmission) (q q' : engine) : Prop :=
  q_calls q' = q_calls q /\ q_usageGate q' = q_usageGate q
  /\ (q_ledger q' = q_ledger q
      \/ exists r, q_ledger q' = q_ledger q ++ [r] /\ ValidateGoalUsageRecord r = true
                   /\ goalUsageRecordMatchesAdmission r a = true).

Lemma settled_frame_same a q q' : frame q q' -> settled_frame a q q'.
Proof. intros (? & ? & ? & _). split_and!; auto. Qed.

Lemma markProviderUsageAmbiguous_frame w a cancelled q q' es :
  markProviderUsageAmbiguous cfg w a cancelled q = (q', es) ->
  q_calls q' = q_calls q /\ q_usageGate q' = q_usageGate q /\ q_ledger q' = q_ledger q.
Proof.
  unfold markProviderUsageAmbiguous. cbv zeta. set (q1 := q <| q_usageUncertain := true |>).
  destruct (q_goalState q1) as [s|]; [|by intros [= <- _]]. destruct (_ <>b _); [by intros [= <- _]|].
  destruct (bump s _); [|by intros [= <- _]]. by intros (? & ? & ? & _)%joined_commit_frame.
Qed.

Lemma releaseProviderUsageBeforeDispatch_frame w a q q' es :
  releaseProviderUsageBeforeDispatch cfg w a q = (q', es) -> frame q q'.
Proof.
  unfold releaseProviderUsageBeforeDispatch. destruct (q_goalState q) as [s|]; [|by intros [= <- _]].
  destruct (_ <>b _); [by intros [= <- _]|]. destruct (bump s _); [|by intros [= <- _]]. apply joined_commit_frame.
Qed.

Lemma usage_record_matches a p c k r t b : goalUsageRecordMatchesAdmission (usage_record_of a p c k r t b) a = true.
Proof. unfold goalUsageRecordMatchesAdmission. cbn. by rewrite !Z.eqb_refl, !bool_decide_true. Qed.

Lemma completeProviderUsage_frame w a usage q q' es :
  completeProviderUsage cfg w a usage q = (q', es) -> settled_frame a q q'.
Proof.
  unfold completeProviderUsage. cbv zeta.
  assert (Hamb : forall (x : engine) e, settled_frame a q x ->
    (let '(q, es) := markProviderUsageAmbiguous cfg w a false x in (q, e :: es)) = (q', es) -> settled_frame a q q').
  { intros x e (H1 & H2 & H3). destruct (markProviderUsageAmbiguous _ _ _ _ _) as [y es'] eqn:Em. intros [= <- _].
    destruct (markProviderUsageAmbiguous_frame _ _ _ _ _ _ Em) as (E1 & E2 & E3).
    unfold settled_frame. by rewrite E1, E2, E3. }
  destruct (normalizeGoalProviderUsage usage) as [n|e]; [|by apply Hamb, settled_frame_same].
  destruct (negb _) eqn:Hv; [by apply Hamb, settled_frame_same|]. apply negb_false_iff in Hv.
  destruct (recordGoalUsage _ _ _ _) as [x ok] eqn:Er. apply recordGoalUsage_frame in Er as (_ & _ & _ & H1 & H2 & H3).
  assert (Hx : settled_frame a q x).
  { split_and!; [done|done|]. destruct H3 as [[? _]|[? _]]; [by left|right]. eexists. split_and!; [done|done|].
    apply usage_record_matches. }
  destruct ok; [|by apply Hamb].
  assert (Hrefl : forall e : list goal_error, (x, e) = (q', es) -> settled_frame a q q') by (by intros e [= <- _]).
  destruct (q_goalState x) as [s|]; [|apply Hrefl].
  destruct (g_PendingUsageAdmission s); [|destruct (_ <=? _); apply Hrefl].
  destruct (_ <>b _); [apply Hrefl|]. destruct (applyGoalUsageRecord _ _ _); [|apply Hrefl].
  intros (E1 & E2 & E3 & _)%joined_commit_frame. unfold settled_frame. by rewrite E1, E2, E3.
Qed.

Lemma completeProviderUsage_sound w a usage q q' es :
  ledger = q_ledger q' -> Good q -> clock_ok w q -> completeProviderUsage cfg w a usage q = (q', es) ->
  soundc [accounting] q q'.
Proof.
  intros HLq Hq Hck. unfold completeProviderUsage. cbv zeta.
  assert (Hsub : forall x, same_goal q x -> q_saved x = q_saved q -> Good x /\ clock_ok w x).
  { intros x Hx Hsv. split; [by eapply same_goal_good|]. destruct Hck as (? & ? & ?). split_and!; try done.
    destruct Hx as [[= Hg _] _]. unfold last_time. by rewrite Hg, Hsv. }
  assert (Hamb : forall (x : engine) e, same_goal q x -> q_saved x = q_saved q ->
    (let '(q, es) := markProviderUsageAmbiguous cfg w a false x in (q, e :: es)) = (q', es) ->
    soundc [accounting] q q').
  { intros x e Hx Hsv. destruct (Hsub x Hx Hsv). destruct (markProviderUsageAmbiguous _ _ _ _ _) as [y es'] eqn:Em.
    intros [= <- _]. eapply soundc_after; [exact Hx|]. by eapply markProviderUsageAmbiguous_sound. }
  destruct (normalizeGoalProviderUsage usage) as [n|e]; [|by apply Hamb]. destruct (negb _); [by apply Hamb|].
  destruct (recordGoalUsage _ _ _ _) as [x ok] eqn:Er; apply recordGoalUsage_frame in Er as (Hx & _ & Hsv & _ & _ & Hl).
  destruct (Hsub x Hx Hsv) as [Hqx Hcx]. destruct ok; [|by apply Hamb].
  assert (Hrefl : forall e : list goal_error, (x, e) = (q', es) -> soundc [accounting] q q').
  { intros e [= <- _]. eapply soundc_before; [apply sound_c; by apply sound_refl|done]. }
  destruct (q_goalState x) as [s|] eqn:Hs; [|apply Hrefl].
  destruct (g_PendingUsageAdmission s) as [pending|]; [|destruct (_ <=? _); apply Hrefl].
  destruct (bool_decide _); [|apply Hrefl]. cbn [negb].
  destruct (applyGoalUsageRecord _ _ _) as [next|e] eqn:Ea; [|apply Hrefl].
  intros Hc. eapply soundc_after; [exact Hx|]. apply sound_c.
  eapply (joined_commit_sound [accounting] w x s); [done|exact not_completing|done| |exact Hc].
  eapply applied_next; [|done..]. apply joined_commit_frame in Hc as (Hc & _).
  destruct Hl as [[_ ?]|[Hl _]]; [done|]. rewrite HLq, Hc, Hl. set_solver.
Qed.

Lemma settle_sound w call o q q' es :
  ledger = q_ledger q' ->
  (forall c, q_calls q !! call = Some c -> pc_settled c = false -> o = ReleaseProviderUsageBeforeDispatch ->
    unrecorded (pc_admission c)) ->
  Good q -> clock_ok w q -> settle cfg w call o q = (q', es) -> soundc [accounting] q q'.
Proof.
  intros HLq Hun Hq Hck. unfold settle.
  destruct (q_calls q !! call) as [c|]; [|intros [= <- _]; apply sound_c; by apply sound_refl].
  destruct (pc_settled c) eqn:Hst; [intros [= <- _]; apply sound_c; by apply sound_refl|]. cbv zeta.
  set (q1 := q <| q_calls ::= _ |>). assert (Hsame : same_goal q q1) by done.
  pose proof (same_goal_good q q1 Hsame Hq) as Hq1.
  assert (Hc1 : clock_ok w q1) by exact Hck.
  destruct (run_settlement _ _ _ _ _) as [x es'] eqn:Er. intros [= <- _].
  eapply soundc_after; [exact Hsame|]. apply (soundc_before _ _ x); [|done].
  specialize (Hun c eq_refl Hst). destruct o; cbn in Er; eauto using completeProviderUsage_sound,
    releaseProviderUsageBeforeDispatch_sound, markProviderUsageAmbiguous_sound.
Qed.

(** ** Delivery and recovery *)

Lemma mem_ok_not_complete s : mem_ok (Some s) -> g_unavailable s = true -> g_Status s <> goalStatusComplete.
Proof. intros Hm Hu. destruct (Hm s eq_refl) as [Hok|(_ & Hn & _)]; [|done]. pose proof (ok_available s Hok). congruence. Qed.

Lemma markContinuationDelivered_sound w itemID turnID now q q' r :
  Good q -> clock_ok w q -> now_ok now q -> markContinuationDelivered cfg w itemID turnID now q = (q', r) ->
  sound [] q q'.
Proof.
  intros Hq Hck Hnow. unfold markContinuationDelivered. cbv zeta.
  destruct (q_goalState q) as [s|] eqn:Hs; [|same]. destruct (g_Continuation s) as [c|] eqn:Hc; [|same].
  destruct (_ || _); [same|]. destruct (bump s _) as [b|] eqn:Eb; [|same]. apply bump_Ok in Eb as [-> Hm].
  destruct (given_ok w now q s Hck Hnow Hs) as [H0 H1]. pose proof (good_mem q s Hq Hs) as Hmem.
  intros Hcm. eapply (commit_sound cfg Hscope [] w 0 q); [done|apply not_in_nil|exact Hs| | | | |exact Hcm]; try done.
  eapply step_next; [done|exact H0|exact H1|done| |].
  - intros Hok. eapply changes_step; [apply ch_cursor|by left|apply changes_refl].
    apply dispose_valid; [by eapply ok_cursor|done|lia|]. right; right; by left.
  - intros Hu. split_and!; try done. by apply (mem_ok_not_complete s).
Qed.

(** The queue does not matter. *)
Lemma sound_input K q x input : sound K q x -> sound K q (x <| q_input := input |>).
Proof. intros [[Hw Hf] Hr]. split; [by split|done]. Qed.

Lemma settle_item_sound K w i itemID q x y r :
  sound K q x -> settle_item w i itemID x = (y, r) -> sound K q y.
Proof.
  intros Hx. unfold settle_item. destruct (q_input x) as [input|]; [|by intros [= <- _]].
  destruct (Settle _ _ _) as [input' [e|]]; intros [= <- _]; by apply sound_input.
Qed.

(** The clock of a recovery. *)
Definition recovery_ok (w : world) (q : engine) : Prop :=
  0 < w_clock w 1 /\ forall s, q_goalState q = Some s -> g_UpdatedAt s <= w_clock w 1.

Lemma pauseRestoredGoalContinuation_sound w itemID d reason q q' r :
  Good q -> recovery_ok w q -> blank reason = false ->
  d ∈ [goalContinuationDispositionRejected; goalContinuationDispositionDelivered] ->
  pauseRestoredGoalContinuation clock cfg w itemID d reason q = (q', r) -> sound [recovering] q q'.
Proof.
  intros Hq [H0 Hle] Hb Hd. unfold pauseRestoredGoalContinuation. cbv zeta.
  destruct (q_goalState q) as [s|] eqn:Hs; [|same]. destruct (g_Continuation s) as [c|] eqn:Hc; [|same].
  destruct (_ <>b _); [same|]. destruct (bump s _) as [b|] eqn:Eb; [|same]. apply bump_Ok in Eb as [-> Hm].
  specialize (Hle s eq_refl). pose proof (good_mem q s Hq Hs) as Hmem.
  destruct (commit_goal _ _ _ _ _ _) as [x y] eqn:Ec.
  assert (Hx : sound [recovering] q x).
  { eapply (commit_sound cfg Hscope [recovering] w 1 q); [done| |exact Hs| | | | |exact Ec]; try done.
    { by intros ?%list_elem_of_singleton. }
    eapply step_next; [done|exact H0|exact Hle|done| |by intros Hu].
    intros Hok. eapply changes_step; [apply (ch_cursor _ (dispose d reason (w_clock w 1) c))|by left|].
    { apply dispose_valid; [by eapply ok_cursor|exact Hb|lia|right; exact Hd]. }
    eapply changes_step; [apply (ch_status _ recovering goalStatusPaused goalReasonColdContinuationUnavailable
      (lit "automatic continuation was paused during durable recovery"))| |].
    1: by right.
    1,2,5: done.
    1,2: by_constant.
    { right; by left. }
    eapply changes_step; [apply ch_reset|by left|apply changes_refl]. }
  clear Ec. destruct y as [[]|e]; [|by intros [= <- _]].
  destruct (bool_decide _); [|by apply settle_item_sound].
  destruct (retireGoalContinuationItem _ _ _ _ _ _ _) as [input [e|]]; intros [= <- _]; by apply sound_input.
Qed.

Lemma reconcileRestoredGoalContinuation_sound w lookup q q' r :
  Good q -> recovery_ok w q -> reconcileRestoredGoalContinuation clock cfg w lookup q = (q', r) ->
  sound [recovering] q q'.
Proof.
  intros Hq Hck. unfold reconcileRestoredGoalContinuation.
  destruct (q_input q) as [input|] eqn:Hin; [|same]. destruct (q_goalState q) as [s|] eqn:Hs; [|same].
  destruct (g_Continuation s) as [c|] eqn:Hc; [|same].
  destruct (resolveDelivered _ _ _) as [[co covered]|e]; [|same]. cbv zeta.
  set (q1 := q <| q_input := _ |>).
  assert (Hi : forall i, sound [recovering] q (q <| q_input := i |>)) by (intros i; apply sound_input, sound_refl, Hq).
  assert (Hpause : forall i d reason, blank reason = false ->
    d ∈ [goalContinuationDispositionRejected; goalContinuationDispositionDelivered] ->
    pauseRestoredGoalContinuation clock cfg w (k_ItemID c) d reason (q <| q_input := i |>) = (q', r) ->
    sound [recovering] q q').
  { intros i d reason Hb Hd Hp. eapply sound_trans; [apply (Hi i)|].
    eapply (pauseRestoredGoalContinuation_sound w _ d); [by eapply sound_good, Hq|exact Hck|done|done|exact Hp]. }
  destruct (bool_decide (_ ∈ covered)).
  { destruct (_ <>b _); [by apply Hpause; [|right; left]|]. apply settle_item_sound, Hi. }
  destruct (_ && _); [apply Hpause; [done|]; destruct (_ ==b _); [right|]; by left|].
  destruct (k_Disposition c).
  - destruct (enqueueDormantGoalContinuation _ _ _ _) as [y [?|?]]; [intros [= <- _]; apply Hi|].
    apply Hpause; [done|by left].
  - destruct (enqueueDormantGoalContinuation _ _ _ _) as [y [?|?]]; [intros [= <- _]; apply Hi|].
    apply Hpause; [done|by left].
  - destruct (retireGoalContinuationItem _ _ _ _ _ _ _) as [y e]. intros [= <- _]. apply Hi.
  - destruct (retireGoalContinuationItem _ _ _ _ _ _ _) as [y e]. intros [= <- _]. apply Hi.
  - intros [= <- _]. apply Hi.
Qed.

(** What a restart installs for the goal of the last checkpoint: the goal
    itself, accounts brought up to date and paused when nothing can continue it,
    or a goal that is not available and keeps the record as it is. *)
Inductive reload : option PersistedGoalState -> option goalState -> Prop :=
| reload_none : reload None None
| reload_goal s0 s :
    goal_ok s0 -> validatePersistedGoalState (persisted_record s0) = None -> rtc (evolves [accounting]) s0 s ->
    reload (Some (persisted_record s0)) (Some s)
| reload_refused r reason :
    validatePersistedGoalState r <> None \/ MaxUint64 <= p_Revision r + 1 ->
    reload (Some r) (Some (unavailableGoalState r goalReasonCorruptState reason)).

Lemma saved_ok_record p r : saved_ok p -> p = Some r -> exists s, goal_ok s /\ r = persisted_record s.
Proof.
  intros Hp ->. destruct (Hp r eq_refl) as (s & Hok & Hr). exists s. split; [done|].
  unfold persistedGoalState in Hr. rewrite (ok_available s Hok) in Hr. congruence.
Qed.

Lemma restore_reload p agentID now loaded :
  (forall corrupt l, loaded = Some (corrupt, l) -> l = ledger) -> saved_ok p -> blank agentID = true -> 0 < now ->
  (forall r, p = Some r -> p_UpdatedAt r <= now) ->
  let m := (restorePersistedGoalStateWithUsage p agentID now (Some loaded)).1 in
  reload p m /\ mem_ok m /\ forall s, m = Some s -> g_UpdatedAt s <= now.
Proof.
  intros HLq Hp Hb Hn Hle. destruct p as [r|]; [|cbn; split_and!; [apply reload_none|done|done]].
  destruct (saved_ok_record _ r Hp eq_refl) as (s & Hok & ->). specialize (Hle _ eq_refl). cbn in Hle.
  rewrite (restore_own s agentID now (Some loaded) Hok Hb).
  assert (Hbad : forall reason,
    validatePersistedGoalState (persisted_record s) <> None \/ MaxUint64 <= p_Revision (persisted_record s) + 1 ->
    let m := Some (unavailableGoalState (persisted_record s) goalReasonCorruptState reason) in
    reload (Some (persisted_record s)) m /\ mem_ok m /\ forall t, m = Some t -> g_UpdatedAt t <= now).
  { intros reason Hr. split_and!; [by apply reload_refused| |by intros t [= <-]].
    intros t [= <-]. right. split_and!; [done|done|]. exists s. split; [done|]. unfold persistedGoalState.
    by rewrite (ok_available s Hok). }
  destruct (validatePersistedGoalState (persisted_record s)) eqn:Hv; [apply Hbad; by left|].
  assert (Hgood : forall t, rtc (evolves [accounting]) s t -> goal_ok t -> g_UpdatedAt t <= now ->
    reload (Some (persisted_record s)) (Some t) /\ mem_ok (Some t) /\ forall x, Some t = Some x -> g_UpdatedAt x <= now).
  { intros t Ht Hot Hu. split_and!; [by apply reload_goal| |by intros x [= <-]]. intros x [= <-]. by left. }
  destruct (reconcileGoalUsageState s loaded now) as [[t changed] es] eqn:Er. cbn [fst].
  assert (Ht : rtc (evolves [accounting]) s t /\ goal_ok t /\ g_UpdatedAt t <= now /\ g_Revision t <= g_Revision s + 1).
  { destruct (reconcile_evolves s loaded now t changed es Hok Hn Hle HLq Er) as [[_ ->]|(_ & He & Hu)].
    - split_and!; [apply rtc_refl|done|done|lia].
    - pose proof (evolves_frame _ _ _ He) as Hf. destruct_and!. split_and!; [by apply rtc_once| |lia|lia].
      by eapply goal_ok_evolves. }
  destruct Ht as (Ht & Hot & Hut & Hrt).
  destruct (goal_active t) eqn:Ha; cbn [andb]; [|by apply Hgood].
  destruct (has_open_continuation t); cbn [negb]; [by apply Hgood|].
  destruct (Z.eqb_spec (g_Revision t) MaxUint64) as [|Hm]; [apply Hbad; right; cbn; lia|].
  pose proof (cold_pause_evolves t now Hot Hn Hut Ha Hm) as He. apply Hgood; [|by eapply goal_ok_evolves|].
  - eapply rtc_r; [exact Ht|]. eapply evolves_mono; [|exact He]. intros k Hk. by apply elem_of_nil in Hk.
  - done.
Qed.

Lemma restart_sound w input lookup q :
  ledger = q_ledger q -> Good q -> clock_ok w q ->
  exists m, reload (q_saved q) m
    /\ rtc (write [recovering]) (m, q_saved q) (core_of (restart clock cfg w input lookup q))
    /\ Good (restart clock cfg w input lookup q)
    /\ q_ledger (restart clock cfg w input lookup q) = q_ledger q
    /\ q_calls (restart clock cfg w input lookup q) = [].
Proof.
  intros HLq Hq (H0 & H1 & Hl). unfold restart. cbv zeta. set (q1 := restore cfg w input q).
  assert (Hb : blank (cfg_AgentID cfg) = true).
  { unfold goal_scope in Hscope. by repeat (apply andb_true_iff in Hscope as [Hscope ?]). }
  assert (Hle : forall r, q_saved q = Some r -> p_UpdatedAt r <= w_clock w 0).
  { intros r Hr. unfold last_time in Hl. rewrite Hr in Hl. lia. }
  destruct (good_core q Hq) as [_ Hsaved].
  destruct (restore_reload (q_saved q) (cfg_AgentID cfg) (w_clock w 0) (loadGoalUsageLedger cfg w q)
    (own_ledger w q HLq) Hsaved Hb H0 Hle)
    as (Hre & Hmem & Hu).
  fold (q_goalState q1) in Hre, Hmem, Hu.
  assert (Hq1 : Good q1).
  { split; [by split|]. by intros [t Ht]. }
  exists (q_goalState q1). change (q_goalState q1, q_saved q) with (core_of q1).
  assert (Hw : forall x ok, persist cfg w 0 (q_goalState q1) q1 = (x, ok) ->
    sound [recovering] q1 x /\ q_goalState x = q_goalState q1).
  { intros x ok. destruct (persist_cases cfg Hscope w 0 (q_goalState q1) q1) as [->|[->| ->]]; intros [= <- _];
      (split; [|done]); [..|by apply sound_refl].
    all: split; [split; [|done]|by intros [t Ht]]; apply rtc_once, write_checkpoint. }
  destruct (persist cfg w 0 (q_goalState q1) q1) as [x ok]. destruct (Hw x ok eq_refl) as [Hx Hg]. clear Hw.
  pose proof (sound_good _ _ _ Hx Hq1) as Hgx.
  destruct Hx as [[Hwx (Hfx1 & Hfx2 & _)] _].
  destruct ok; [|by split_and!].
  destruct (reconcileRestoredGoalContinuation clock cfg w lookup x) as [y res] eqn:Er.
  assert (Hy : sound [recovering] x y).
  { eapply reconcileRestoredGoalContinuation_sound; [exact Hgx| |exact Er]. split; [lia|]. intros s Hs.
    rewrite Hg in Hs. specialize (Hu s Hs). lia. }
  pose proof (sound_good _ _ _ Hy Hgx) as Hgy. destruct Hy as [[Hwy (Hfy1 & Hfy2 & _)] _]. cbn [fst].
  split_and!; [done|by etrans|done|by rewrite Hfy1|by rewrite Hfy2].
Qed.

(** ** Every operation *)

(** The kinds of change that an operation may make. *)
Definition kinds_of (o : op) : list kind :=
  match o with
  | OpTerminal _ _ _ => [completing]
  | OpAdmit _ _ _ | OpSettle _ _ => [accounting]
  | OpRestart _ _ => [recovering]
  | _ => []
  end.

Definition is_restart (o : op) : bool := match o with OpRestart _ _ => true | _ => false end.
Definition is_call (o : op) : bool := match o with OpAdmit _ _ _ | OpSettle _ _ => true | _ => false end.

Lemma checkpoint_sound w q : Good q -> sound [] q (persist cfg w 0 (q_goalState q) q).1.
Proof.
  intros Hq. destruct (persist_cases cfg Hscope w 0 (q_goalState q) q) as [->|[->| ->]]; cbn [fst];
    [..|by apply sound_refl].
  all: split; [split; [|done]|apply Hq]; apply rtc_once, write_checkpoint.
Qed.

(** The operations that leave the calls alone. *)
Lemma quiet_op_sound w o q :
  ledger = q_ledger q -> Good q -> honest w o q -> is_restart o = false -> is_call o = false ->
  sound (kinds_of o) q (run_op clock cfg w o q).
Proof.
  intros HLq Hq [Hck Hop] Hr Hc.
  destruct o; try discriminate; clear Hr Hc; cbn [run_op kinds_of op_ok] in *.
  - by_run create_sound.
  - by_run edit_sound.
  - by_run pause_sound.
  - by_run resume_sound.
  - by_run setBudget_sound.
  - by_run clearForTurn_sound.
  - by_run ApplyGoalControl_sound.
  - by_run commitGoalControl_sound.
  - split; [by apply runs_same|apply Hq].
  - split; [by apply runs_same|apply Hq].
  - by_run beginTurn_sound.
  - by_run requestCompletion_sound.
  - by_run reportBlocker_sound.
  - by_run pauseTurnFor_sound.
  - by_run resumeTurnFor_sound.
  - by apply abandonTurn_sound.
  - by_run commitGoalTerminalEvents_sound.
  - by_run pauseForCancellation_sound.
  - by_run markContinuationDelivered_sound.
  - by apply checkpoint_sound.
Qed.

End simulation.
