(* ===== verification/GoalBooks.v ===== *)
(** * The books of a goal

    The ledger in the transcript and the accounts of the goal agree: for the goal
    in memory, for the saved goal and for the goal a restart would install, the
    records of the ledger bear the revisions 1, 2, 3 ..., the goal has counted a
    prefix of them and used exactly their tokens, and at most one more record is
    there, that of the call the goal waits for.  At most one call is not settled,
    and while it is not, the goal and its saved record wait for it. *)

From S2P Require Import Prelude GoStrings GoBase RunCost RuntimeItem InputCoordinator ToolSchedule.
From S2P Require Import GoBase GoalData GoalPersistence GoalService GoalCalls GoalMachine GoalFacts GoalRefinement.
From S2P Require Import GoalSimulation.

Open Scope Z_scope.

(** ** What the ledger says of a goal *)

Definition records_of (L : list GoalUsageRecord) (id : bytes) : list GoalUsageRecord :=
  List.filter (fun r => l_GoalID r ==b id) L.

Definition total (l : list GoalUsageRecord) : Z := fold_right (fun r n => l_BillableTokens r + n) 0 l.

Lemma total_app l l' : total (l ++ l') = total l + total l'.
Proof. unfold total. induction l as [|r l IH]; cbn; [done|]. rewrite IH. lia. Qed.

Lemma records_of_app L L' id : records_of (L ++ L') id = records_of L id ++ records_of L' id.
Proof. apply List.filter_app. Qed.

Lemma records_of_elem L id r : r ∈ records_of L id <-> r ∈ L /\ l_GoalID r = id.
Proof.
  unfold records_of. rewrite !list_elem_of_In, filter_In. by rewrite bool_decide_eq_true.
Qed.

Lemma records_of_fresh L id : (forall r, r ∈ L -> l_GoalID r <> id) -> records_of L id = [].
Proof.
  intros Hf. destruct (records_of L id) as [|r l] eqn:E; [done|].
  destruct (proj1 (records_of_elem L id r) ltac:(rewrite E; by left)) as [Hr Hid]. by destruct (Hf r Hr).
Qed.

(** How many records of the goal the ledger has. *)
Abbreviation entries L s := (Z.of_nat (length (records_of L (g_GoalID s)))).

Record covers (L : list GoalUsageRecord) (s : goalState) : Prop := {
  cv_records : Forall (fun r => ValidateGoalUsageRecord r = true /\ l_ObjectiveRevision r <= g_ObjectiveRevision s)
                 (records_of L (g_GoalID s));
  cv_revisions : map l_LedgerRevision (records_of L (g_GoalID s)) = seqZ 1 (entries L s);
  cv_entries :
    entries L s = g_UsageLedgerRevision s
    \/ (entries L s = g_UsageLedgerRevision s + 1
        /\ exists a, g_PendingUsageAdmission s = Some a
           /\ forall r, last (records_of L (g_GoalID s)) = Some r -> goalUsageRecordMatchesAdmission r a = true);
  cv_tokens : g_TokensUsed s = total (take (Z.to_nat (g_UsageLedgerRevision s)) (records_of L (g_GoalID s)))
}.

Section covers.
Context `{HD : !Digests, HG : !GoalIdentityText, HL : !Ledger}.

(** The part of the goal that the ledger is about. *)
Lemma covers_same L s s' :
  g_GoalID s' = g_GoalID s -> accounts s' = accounts s -> g_ObjectiveRevision s <= g_ObjectiveRevision s' ->
  covers L s -> covers L s'.
Proof.
  intros Hid Ha Hor [H1 H2 H3 H4]. injection Ha as Ht Hu Hp. split; rewrite ?Hid, ?Ht, ?Hu, ?Hp; try done.
  eapply Forall_impl; [exact H1|]. cbn. intros r [? ?]. split; [done|lia].
Qed.

Lemma revision_of_entry L s (i : nat) r :
  covers L s -> records_of L (g_GoalID s) !! i = Some r -> l_LedgerRevision r = Z.of_nat i + 1.
Proof.
  intros Hc Hi. pose proof (cv_revisions L s Hc) as Hr.
  assert (Hx : map l_LedgerRevision (records_of L (g_GoalID s)) !! i = Some (l_LedgerRevision r)).
  { change (map ?f ?l) with (f <$> l). by rewrite list_lookup_fmap, Hi. }
  rewrite Hr, lookup_seqZ in Hx. lia.
Qed.

Lemma last_entry L s r :
  covers L s -> r ∈ L -> l_GoalID r = g_GoalID s -> l_LedgerRevision r = g_UsageLedgerRevision s + 1 ->
  entries L s = g_UsageLedgerRevision s + 1 /\ last (records_of L (g_GoalID s)) = Some r.
Proof.
  intros Hc Hr Hid Hrev. assert (Hin : r ∈ records_of L (g_GoalID s)) by by apply records_of_elem.
  apply list_elem_of_lookup in Hin as [i Hi]. pose proof (revision_of_entry L s i r Hc Hi) as Hri.
  pose proof (lookup_lt_Some _ _ _ Hi) as Hlt.
  assert (Hlen : entries L s = g_UsageLedgerRevision s + 1) by (destruct (cv_entries L s Hc) as [|[? _]]; lia).
  split; [done|]. rewrite last_lookup. rewrite <- Hi. f_equal. lia.
Qed.

Lemma objective_revision_grows k s s' : change k s s' -> g_ObjectiveRevision s <= g_ObjectiveRevision s'.
Proof. destruct 1; cbn; lia. Qed.

Lemma covers_change k s s' : change k s s' -> goal_ok s -> covers ledger s -> covers ledger s'.
Proof.
  intros Hc Hok Hcv. pose proof (objective_revision_grows _ _ _ Hc) as Hor.
  destruct (change_frame _ _ _ Hc) as (Hid & _).
  destruct Hc as [| | | | | | | | | | | | |s a Hp Hv Hga Hgo Hl _ _ _ _|s Hr|s a r Hp Hin Hv Hm _ _];
    try solve [by apply (covers_same ledger _ _ Hid)].
  - destruct Hcv as [H1 H2 H3 H4]. split; cbn; try done.
    destruct H3 as [H3|(_ & a' & Hp' & _)]; [by left|congruence].
  - cut (entries ledger s = g_UsageLedgerRevision s).
    { intros He. destruct Hcv. split; cbn; try done. by left. }
    destruct (cv_entries ledger s Hcv) as [H3|[H3 _]]; [done|exfalso].
    destruct (last (records_of ledger (g_GoalID s))) as [r|] eqn:El.
    2: { apply last_None in El. rewrite El in H3. cbn in H3. pose proof (ok_ledger s Hok). lia. }
    rewrite last_lookup in El. pose proof (lookup_lt_Some _ _ _ El) as Hlt.
    pose proof (revision_of_entry _ s _ r Hcv El) as Hrev.
    destruct (proj1 (records_of_elem ledger (g_GoalID s) r)) as [Hrl Hrid]; [by eapply list_elem_of_lookup_2|].
    specialize (Hr r Hrl Hrid). lia.
  - destruct (ok_admission s Hok a Hp) as (_ & Hga & _ & Hl & _).
    pose proof (record_revision r a Hm) as Hrev. unfold goalUsageRecordMatchesAdmission in Hm.
    assert (Hrid : l_GoalID r = g_GoalID s).
    { breflect. congruence. }
    destruct (last_entry ledger s r Hcv Hin Hrid ltac:(lia)) as [Hlen Hlast].
    destruct Hcv as [H1 H2 _ H4]. split; cbn; try done; [left; lia|].
    apply last_Some in Hlast as [l' Hl']. pose proof (ok_ledger s Hok) as Hlr.
    rewrite Hl' in *. rewrite length_app in Hlen. cbn in Hlen.
    replace (Z.to_nat (l_LedgerRevision r)) with (length (l' ++ [r])) by (rewrite length_app; cbn; lia).
    rewrite firstn_all, total_app, H4. replace (Z.to_nat (g_UsageLedgerRevision s)) with (length l') by lia.
    rewrite take_app_length. cbn. lia.
Qed.

Lemma covers_changes K s s' : changes K s s' -> goal_ok s -> covers ledger s -> covers ledger s'.
Proof. induction 1 as [|s1 s2 s3 (k & _ & Hk) _ IH]; [done|]. eauto using covers_change, goal_ok_change. Qed.

Lemma covers_evolves K s s' : evolves K s s' -> goal_ok s -> covers ledger s -> covers ledger s'.
Proof.
  intros (now & ? & ? & ? & _ & Hc) Hok Hcv. eapply covers_changes; [exact Hc|by apply goal_ok_bumped|].
  by apply (covers_same ledger s).
Qed.

Lemma covers_created s : created s -> covers ledger s.
Proof.
  intros (Hok & _ & Ht & Hl & _ & Hf & _). pose proof (records_of_fresh ledger _ Hf) as Hr.
  split; rewrite ?Hr, ?Ht, ?Hl; try done. by left.
Qed.

(** The record of the call the goal waits for enters the ledger. *)
Lemma covers_append L s a r :
  goal_ok s -> covers L s -> g_PendingUsageAdmission s = Some a ->
  (forall r, r ∈ L -> l_GoalID r = a_GoalID a -> l_LedgerRevision r < a_LedgerRevision a) ->
  ValidateGoalUsageRecord r = true -> goalUsageRecordMatchesAdmission r a = true -> covers (L ++ [r]) s.
Proof.
  intros Hok Hcv Hp Hun Hv Hm. destruct (ok_admission s Hok a Hp) as (_ & Hga & Hgo & Hl & _).
  pose proof (record_revision r a Hm) as Hrev.
  assert (Hrr : l_GoalID r = g_GoalID s /\ l_ObjectiveRevision r = g_ObjectiveRevision s).
  { unfold goalUsageRecordMatchesAdmission in Hm. breflect. split; [congruence|lia]. }
  destruct Hrr as [Hrid Hror].
  assert (Hlen : entries L s = g_UsageLedgerRevision s).
  { destruct (cv_entries L s Hcv) as [|[He _]]; [done|exfalso].
    destruct (records_of L (g_GoalID s) !! pred (length (records_of L (g_GoalID s)))) as [x|] eqn:Ex.
    2: { apply lookup_ge_None in Ex. pose proof (ok_ledger s Hok). lia. }
    pose proof (revision_of_entry L s _ x Hcv Ex) as Hx. pose proof (lookup_lt_Some _ _ _ Ex).
    destruct (proj1 (records_of_elem L (g_GoalID s) x)) as [Hxl Hxi]; [by eapply list_elem_of_lookup_2|].
    rewrite Hga in Hun. specialize (Hun x Hxl Hxi). lia. }
  assert (Hnew : records_of (L ++ [r]) (g_GoalID s) = records_of L (g_GoalID s) ++ [r]).
  { rewrite records_of_app. unfold records_of at 2. cbn. by rewrite bool_decide_true. }
  destruct Hcv as [H1 H2 _ H4]. pose proof (ok_ledger s Hok) as Hlr. split; rewrite ?Hnew.
  - apply Forall_app. split; [done|]. constructor; [split; [done|lia]|done].
  - rewrite map_app, H2, length_app, Nat2Z.inj_add. rewrite seqZ_app by lia. f_equal.
    change (Z.of_nat (length [r])) with 1. rewrite seqZ_cons by lia. cbn -[Z.add]. f_equal. lia.
  - right. rewrite length_app. cbn. split; [lia|]. exists a. split; [done|]. intros x. rewrite last_snoc.
    by intros [= <-].
  - rewrite H4. rewrite take_app_le; [done|]. lia.
Qed.

(** ** The core *)

Record core_books (L : list GoalUsageRecord) (c : core) : Prop := {
  books_mem : forall s, c.1 = Some s -> g_unavailable s = false -> covers L s;
  books_saved : forall s, goal_ok s -> c.2 = Some (persisted_record s) -> covers L s;
  books_kept : forall s s0, c.1 = Some s -> g_unavailable s = true -> goal_ok s0 ->
    g_unavailablePersistedRepresentation s = Some (persisted_record s0) -> covers L s0
}.

Lemma persisted_available s : g_unavailable s = false -> persistedGoalState s = Some (persisted_record s).
Proof. intros Hu. unfold persistedGoalState. by rewrite Hu. Qed.

Lemma persisted_record_inj s s' : goal_ok s -> goal_ok s' -> persisted_record s = persisted_record s' -> s = s'.
Proof. intros Hs Hs' He. by rewrite <- (from_persisted s Hs), <- (from_persisted s' Hs'), He. Qed.

(** The books of a goal in memory are those of its record. *)
Lemma books_persisted L s :
  mem_ok (Some s) -> (g_unavailable s = false -> covers L s) ->
  (forall s0, g_unavailable s = true -> goal_ok s0 ->
     g_unavailablePersistedRepresentation s = Some (persisted_record s0) -> covers L s0) ->
  forall s0, goal_ok s0 -> persistedGoalState s = Some (persisted_record s0) -> covers L s0.
Proof.
  intros Hm Ha Hu s0 Hs0 Hp. unfold persistedGoalState in Hp. destruct (g_unavailable s) eqn:E; [by apply Hu|].
  assert (Hr : persisted_record s = persisted_record s0) by congruence. destruct (Hm s eq_refl) as [Hok|(? & _)]; [|congruence].
  rewrite <- (persisted_record_inj s s0 Hok Hs0 Hr). by apply Ha.
Qed.

Lemma next_books K m p s :
  next_goal K m s -> mem_ok m -> core_books ledger (m, p) ->
  (g_unavailable s = false -> covers ledger s)
  /\ forall s0, g_unavailable s = true -> goal_ok s0 ->
       g_unavailablePersistedRepresentation s = Some (persisted_record s0) -> covers ledger s0.
Proof.
  intros Hn Hm [Hbm _ Hbk]. cbn in *. destruct Hn as [s s' He|m s' _ Hc|s s' Hu Hu' Hr _].
  - pose proof (evolves_frame _ _ _ He) as Hf. destruct_and!. split; [|intros; congruence]. intros _.
    assert (Ha : g_unavailable s = false) by (destruct He as (? & ? & ? & ? & ? & _); done).
    destruct (Hm s eq_refl) as [Hok|(? & _)]; [|congruence]. eapply covers_evolves; eauto.
  - split; [|intros s0 Hu]; [intros _; by apply covers_created|]. destruct Hc as (Hok & _).
    pose proof (ok_available s' Hok). congruence.
  - split; [congruence|]. intros s0 _ Hs0 Hr0. eapply Hbk; eauto. congruence.
Qed.

Lemma write_books K c c' : write K c c' -> core_ok c -> core_books ledger c -> core_books ledger c'.
Proof.
  intros Hw [Hm Hp] Hb.
  assert (Hg : forall m p s, c = (m, p) -> next_goal K m s ->
    core_books ledger (Some s, persistedGoalState s) /\ core_books ledger (m, persistedGoalState s)).
  { intros m p s -> Hn. cbn in Hm. destruct (next_books K m p s Hn Hm Hb) as [Ha Hu].
    pose proof (next_goal_ok K m s Hn Hm) as Hms. pose proof (books_persisted ledger s Hms Ha Hu) as Hs.
    destruct Hb as [B1 B2 B3]. split; (split; cbn; [| |]); try done; intros t; [by intros [= <-]|].
    intros t0 [= <-]. apply Hu. }
  destruct Hw as [m p s Hn|m p s Hn|m p _|m p _|m p]; [exact (proj1 (Hg _ _ _ eq_refl Hn))|
    exact (proj2 (Hg _ _ _ eq_refl Hn))|split; cbn; done| |]; destruct Hb as [H1 H2 H3]; [split; cbn; done|].
  split; cbn in *; try done. destruct m as [s|]; [|done]. intros s0 Hs0 Hr. cbn in Hr.
  eapply (books_persisted ledger s); eauto.
Qed.

Lemma writes_books K c c' : rtc (write K) c c' -> core_ok c -> core_books ledger c -> core_books ledger c'.
Proof. induction 1; eauto using write_books, write_ok. Qed.

(** The goal and its saved record wait for the call, which is not recorded. *)
Definition locked (L : list GoalUsageRecord) (a : goalUsageAdmission) (c : core) : Prop :=
  exists s s0,
    c = (Some s, Some (persisted_record s0)) /\ goal_ok s /\ goal_ok s0
    /\ g_PendingUsageAdmission s = Some a /\ g_PendingUsageAdmission s0 = Some a
    /\ forall r, r ∈ L -> l_GoalID r = a_GoalID a -> l_LedgerRevision r < a_LedgerRevision a.

Lemma next_locked K s s' a :
  accounting ∉ K -> goal_ok s -> g_PendingUsageAdmission s = Some a -> next_goal K (Some s) s' ->
  goal_ok s' /\ g_PendingUsageAdmission s' = Some a.
Proof.
  intros HK Hok Hp Hn. inversion Hn as [? ? He| ? ? Hm|? ? Hu]; subst.
  - split; [by eapply goal_ok_evolves|]. pose proof (evolves_accounts _ _ _ HK He) as Ha. by injection Ha as _ _ ->.
  - pose proof (ok_complete s Hok (Hm s eq_refl)). congruence.
  - pose proof (ok_available s Hok). congruence.
Qed.

Lemma write_locked L K a c c' : accounting ∉ K -> write K c c' -> locked L a c -> locked L a c'.
Proof.
  intros HK Hw (s & s0 & -> & Hok & Hok0 & Hp & Hp0 & Hun).
  inversion Hw as [? ? s' Hn|? ? s' Hn|? ? Hnone|? ? Hnone|]; subst.
  - destruct (next_locked K s s' a HK Hok Hp Hn) as [Hok' Hp']. exists s', s'.
    by rewrite (persisted_available s' (ok_available s' Hok')).
  - destruct (next_locked K s s' a HK Hok Hp Hn) as [Hok' Hp']. exists s, s'.
    by rewrite (persisted_available s' (ok_available s' Hok')).
  - specialize (Hnone s eq_refl). congruence.
  - specialize (Hnone s eq_refl). congruence.
  - exists s, s. cbn. by rewrite (persisted_available s (ok_available s Hok)).
Qed.

Lemma writes_locked L K a c c' : accounting ∉ K -> rtc (write K) c c' -> locked L a c -> locked L a c'.
Proof. intros HK. induction 1; eauto using write_locked. Qed.

Lemma covers_unrecorded L s a :
  goal_ok s -> covers L s -> g_PendingUsageAdmission s = None -> a_GoalID a = g_GoalID s ->
  a_LedgerRevision a = g_UsageLedgerRevision s + 1 ->
  forall r, r ∈ L -> l_GoalID r = a_GoalID a -> l_LedgerRevision r < a_LedgerRevision a.
Proof.
  intros Hok Hcv Hp Hid Hl r Hr Hrid. rewrite Hid in Hrid.
  destruct (cv_entries L s Hcv) as [He|(_ & x & Hx & _)]; [|congruence].
  assert (Hin : r ∈ records_of L (g_GoalID s)) by by apply records_of_elem.
  apply list_elem_of_lookup in Hin as [i Hi]. pose proof (revision_of_entry L s i r Hcv Hi).
  pose proof (lookup_lt_Some _ _ _ Hi). lia.
Qed.

Lemma locked_append L a c r :
  core_ok c -> core_books L c -> locked L a c -> ValidateGoalUsageRecord r = true ->
  goalUsageRecordMatchesAdmission r a = true -> core_books (L ++ [r]) c.
Proof.
  intros [Hm Hsv] [B1 B2 B3] (s & s0 & -> & Hok & Hok0 & Hp & Hp0 & Hun) Hv Hmt. cbn in *. split; cbn.
  - intros t [= <-] Ha. eapply covers_append; eauto.
  - intros t Ht Hr. assert (Hr' : persisted_record s0 = persisted_record t) by congruence.
    pose proof (persisted_record_inj s0 t Hok0 Ht Hr') as <-. eapply covers_append; eauto.
  - intros t t0 [= <-] Hu. pose proof (ok_available s Hok). congruence.
Qed.
End covers.

(** ** The inspection of the ledger *)

Definition enter (m : gmap Z GoalUsageRecord) (r : GoalUsageRecord) : gmap Z GoalUsageRecord :=
  <[l_LedgerRevision r := r]> m.

Lemma collect_usage_all s L m :
  Forall (fun r => ValidateGoalUsageRecord r = true /\ l_ObjectiveRevision r <= g_ObjectiveRevision s)
    (records_of L (g_GoalID s)) ->
  NoDup (map l_LedgerRevision (records_of L (g_GoalID s))) ->
  (forall r, r ∈ records_of L (g_GoalID s) -> m !! l_LedgerRevision r = None) ->
  collect_usage s m L = Ok (foldl enter m (records_of L (g_GoalID s))).
Proof.
  revert m. induction L as [|r L IH]; intros m; [done|]. unfold records_of. cbn. fold (records_of L (g_GoalID s)).
  destruct (bool_decide_reflect (l_GoalID r = g_GoalID s)) as [Hid|Hid]; cbn; [|apply IH].
  rewrite Forall_cons, NoDup_cons. intros [[Hv Ho] Hf] [Hr Hn] Hm. rewrite Hv. cbn.
  rewrite (proj2 (Z.ltb_ge _ _) Ho), (Hm r ltac:(by left)). apply IH; [done|done|]. intros x Hx.
  unfold enter. rewrite lookup_insert_ne; [apply Hm; by right|]. intros He. apply Hr. rewrite He. rewrite list_elem_of_In.
  apply in_map. by rewrite <- list_elem_of_In.
Qed.

Lemma enter_keys l m :
  NoDup (map l_LedgerRevision l) -> (forall r, r ∈ l -> m !! l_LedgerRevision r = None) ->
  map fst (map_to_list (foldl enter m l)) ≡ₚ map l_LedgerRevision l ++ map fst (map_to_list m).
Proof.
  revert m. induction l as [|r l IH]; intros m; [done|]. cbn. rewrite NoDup_cons. intros [Hr Hn] Hm.
  rewrite IH; [|done|].
  - unfold enter at 1. rewrite map_to_list_insert by (apply Hm; by left). cbn. by rewrite Permutation_middle.
  - intros x Hx. unfold enter. rewrite lookup_insert_ne; [apply Hm; by right|]. intros He. apply Hr. rewrite He.
    rewrite list_elem_of_In. apply in_map. by rewrite <- list_elem_of_In.
Qed.

Lemma enter_other l m k : (forall r, r ∈ l -> l_LedgerRevision r <> k) -> foldl enter m l !! k = m !! k.
Proof.
  revert m. induction l as [|r l IH]; intros m Hl; [done|]. cbn. rewrite IH; [|intros x Hx; apply Hl; by right].
  unfold enter. apply lookup_insert_ne, Hl. by left.
Qed.

Lemma enter_lookup l m r :
  NoDup (map l_LedgerRevision l) -> r ∈ l -> foldl enter m l !! l_LedgerRevision r = Some r.
Proof.
  revert m. induction l as [|x l IH]; intros m; [by intros _ ?%not_elem_of_nil|]. cbn. rewrite NoDup_cons.
  intros [Hx Hn] [->|Hr]%elem_of_cons; [|by apply IH]. rewrite enter_other; [apply lookup_insert_eq|].
  intros y Hy He. apply Hx. rewrite <- He, list_elem_of_In. apply in_map. by rewrite <- list_elem_of_In.
Qed.

Lemma filter_seqZ k n :
  0 <= k <= n -> Z.of_nat (length (List.filter (fun x => x <=? k) (seqZ 1 n))) = k.
Proof.
  intros Hk. replace n with (k + (n - k)) by lia. rewrite seqZ_app by lia. rewrite List.filter_app, length_app.
  assert (H1 : List.filter (fun x => x <=? k) (seqZ 1 k) = seqZ 1 k).
  { apply forallb_filter_id, forallb_forall. intros x Hx. rewrite <- list_elem_of_In, elem_of_seqZ in Hx.
    apply Z.leb_le. lia. }
  assert (H2 : List.filter (fun x => x <=? k) (seqZ (1 + k) (n - k)) = []).
  { clear H1. destruct (List.filter _ _) as [|x l] eqn:E; [done|]. assert (Hx : In x (x :: l)) by apply in_eq. rewrite <- E in Hx.
    apply filter_In in Hx as [Hx Hle]. rewrite <- list_elem_of_In, elem_of_seqZ in Hx. apply Z.leb_le in Hle. lia. }
  rewrite H1, H2, length_seqZ. cbn. lia.
Qed.

Lemma filter_Permutation {A} (f : A -> bool) l l' : l ≡ₚ l' -> length (List.filter f l) = length (List.filter f l').
Proof. induction 1; cbn; repeat case_match; cbn; congruence. Qed.

(** The ledger of a session, when all of it can be read, is complete for the
    goal. *)
Lemma inspect_covers `{HD : !Digests, HG : !GoalIdentityText} L s :
  goal_ok s -> covers L s ->
  inspectGoalUsageLedger s (Some (false, L)) = Ok (foldl enter ∅ (records_of L (g_GoalID s))).
Proof.
  intros Hok Hcv. unfold inspectGoalUsageLedger. cbn [andb].
  assert (Hn : NoDup (map l_LedgerRevision (records_of L (g_GoalID s)))) by (rewrite (cv_revisions L s Hcv); apply NoDup_seqZ).
  assert (He : forall r, r ∈ records_of L (g_GoalID s) -> (∅ : gmap Z GoalUsageRecord) !! l_LedgerRevision r = None) by done.
  rewrite (collect_usage_all s L ∅ (cv_records L s Hcv) Hn He).
  pose proof (enter_keys _ _ Hn He) as Hk. rewrite map_to_list_empty, app_nil_r, (cv_revisions L s Hcv) in Hk.
  set (records := foldl _ _ _) in *. set (n := entries L s) in *. pose proof (ok_ledger s Hok) as Hl.
  assert (Hc : Z.of_nat (length (committed s records)) = g_UsageLedgerRevision s).
  { unfold committed. rewrite (filter_Permutation _ _ _ Hk). apply filter_seqZ.
    destruct (cv_entries L s Hcv) as [|[? _]]; subst n; lia. }
  rewrite Hc, Z.eqb_refl.
  assert (Hall : forall pending, (n = g_UsageLedgerRevision s + 1 -> pending = n) ->
    forallb (fun revision => (revision <=? g_UsageLedgerRevision s) || (negb (pending =? 0) && (revision =? pending)))
      (map fst (map_to_list records)) = true).
  { intros pending Hp. apply forallb_forall. intros x Hx. rewrite <- list_elem_of_In, Hk, elem_of_seqZ in Hx.
    destruct (Z.leb_spec x (g_UsageLedgerRevision s)); [done|]. cbn.
    assert (n = g_UsageLedgerRevision s + 1) by (destruct (cv_entries L s Hcv) as [|[? _]]; subst n; lia).
    rewrite Hp by done. apply andb_true_iff. split; [apply negb_true_iff, Z.eqb_neq; lia|apply Z.eqb_eq; lia]. }
  destruct (g_PendingUsageAdmission s) as [a|] eqn:Hp.
  - destruct (ok_admission s Hok a Hp) as (_ & _ & _ & Ha & Hm & _).
    assert (Hbad : (g_UsageLedgerRevision s =? MaxUint64) || negb (a_LedgerRevision a =? g_UsageLedgerRevision s + 1) = false).
    { apply orb_false_iff. split; [apply Z.eqb_neq; lia|]. apply negb_false_iff, Z.eqb_eq. lia. }
    rewrite Hbad, Hall by lia. done.
  - rewrite Hall; [done|]. intros Hx. destruct (cv_entries L s Hcv) as [?|(_ & a & Ha & _)]; subst n; [lia|congruence].
Qed.

(** ** Sessions *)

Section session.
Context `{HI : !ItemChecks, HD : !Digests, HG : !GoalIdentityText} (clock : Z -> Z) (cfg : goalConfig).
Context (Hscope : goal_scope cfg = true).

(** At most one call is not settled; while one is, no other is admitted and the
    goal waits for it. *)
Definition calls_ok (q : engine) : Prop :=
  forall i c, q_calls q !! i = Some c -> pc_settled c = false ->
  q_usageGate q = false /\ locked (q_ledger q) (pc_admission c) (core_of q)
  /\ forall j c', q_calls q !! j = Some c' -> pc_settled c' = false -> j = i.

Record session_ok (q : engine) : Prop := {
  session_good : Good q;
  session_books : core_books (q_ledger q) (core_of q);
  session_calls : calls_ok q
}.

Lemma quiet_op_session w o q :
  session_ok q -> honest w o q -> is_restart o = false -> is_call o = false -> session_ok (run_op clock cfg w o q).
Proof.
  intros [Hq Hb Hc] Hh Hr Hcall.
  pose proof (quiet_op_sound (HL := q_ledger q) clock cfg Hscope w o q eq_refl Hq Hh Hr Hcall) as Hs.
  assert (HK : accounting ∉ kinds_of o).
  { destruct o; try done; cbn; try apply not_elem_of_nil. by intros ?%list_elem_of_singleton. }
  pose proof (sound_good _ _ _ Hs Hq) as Hq'. destruct Hs as [[Hw (Hf1 & Hf2 & Hf3 & _)] _]. split; [done| |].
  - rewrite Hf1. eapply (writes_books (HL := q_ledger q)); [exact Hw|apply Hq|exact Hb].
  - intros i c Hi Hst. rewrite Hf2 in Hi. destruct (Hc i c Hi Hst) as (Hg & Hl & Hu). rewrite Hf1, Hf2, Hf3.
    split_and!; [done| |exact Hu]. by eapply (writes_locked (HL := q_ledger q)).
Qed.

Lemma admit_session w cancelled r d q :
  session_ok q -> clock_ok w q -> session_ok (run_op clock cfg w (OpAdmit cancelled r d) q).
Proof.
  intros [Hq Hb Hc] Hck. cbn. destruct (AdmitProviderUsage cfg w cancelled r d q) as [q' res] eqn:E.
  destruct (AdmitProviderUsage_sound (HL := q_ledger q) cfg Hscope w cancelled r d q q' res eq_refl Hq Hck E)
    as [Hs [Hl Hf]].
  pose proof (soundc_good _ _ _ Hs Hq) as Hq'. destruct Hs as [Hw _].
  assert (Hb' : core_books (q_ledger q) (core_of q')) by (eapply (writes_books (HL := q_ledger q)); [exact Hw|apply Hq|exact Hb]).
  cbn [fst]. split; [done|by rewrite Hl|]. destruct res as [i|e].
  - destruct Hf as (p & t & a & Hwt & Ha & Hp & Har & Hai & Hg & Hcalls & Hg' & s & Hs & Hsv & Hsa & Hsp).
    intros j c Hj Hst. rewrite Hl, Hg'. split; [done|].
    assert (Hlast : forall j c, q_calls q' !! j = Some c -> pc_settled c = false ->
      j = length (q_calls q) /\ pc_admission c = a).
    { intros j' c' Hj' Hst'. rewrite Hcalls in Hj'. apply lookup_app_Some in Hj' as [Hj'|[Hle Hj']].
      - destruct (Hc j' c' Hj' Hst') as (? & _). congruence.
      - apply list_lookup_singleton_Some in Hj' as [? <-]. split; [lia|done]. }
    destruct (Hlast j c Hj Hst) as [-> ->]. split; [|intros j' c' ? ?; by eapply Hlast].
    exists s, s. unfold core_of. rewrite Hs, Hsv, (persisted_available s Hsa).
    pose proof (good_ok q' s Hq' Hs Hsa) as Hok. split_and!; try done.
    assert (Hct : core_ok (Some t, p)) by (eapply (writes_ok (HL := q_ledger q)); [exact Hwt|apply Hq]).
    pose proof (writes_books (HL := q_ledger q) _ _ _ Hwt (good_core q Hq) Hb) as Hbt.
    apply (covers_unrecorded _ t); try done; [|by apply (books_mem _ _ Hbt)].
    destruct (proj1 Hct t eq_refl) as [|(? & _)]; [done|congruence].
  - destruct Hf as [Hf1 Hf2]. destruct (q_usageGate q) eqn:Hg.
    + intros j c Hj Hst. rewrite Hf1 in Hj. destruct (Hc j c Hj Hst) as (? & _). congruence.
    + assert (q' = q) as ->; [|exact Hc]. revert E. unfold AdmitProviderUsage, admitProviderUsage. rewrite Hg. cbn [negb].
      destruct (_ || _); [by intros [= <- _]|]. destruct (blank _); [by intros [= <- _]|].
      destruct (blank _); [by intros [= <- _]|]. destruct cancelled; by intros [= <- _].
Qed.

Lemma run_settlement_frame w a o q q' es : run_settlement cfg w a o q = (q', es) -> settled_frame a q q'.
Proof.
  intros Hr. destruct o; cbn in Hr.
  - by eapply completeProviderUsage_frame.
  - eapply settled_frame_same, releaseProviderUsageBeforeDispatch_frame; eassumption.
  - destruct (markProviderUsageAmbiguous_frame cfg Hscope _ _ _ _ _ _ Hr) as (? & ? & ?). split_and!; auto.
Qed.

(** A release leaves the ledger alone, so its call is still not recorded. *)
Lemma settle_soundc w call o q q' es :
  session_ok q -> clock_ok w q -> settle cfg w call o q = (q', es) -> soundc (HL := q_ledger q') [accounting] q q'.
Proof.
  intros [Hq _ Hc] Hck E.
  eapply (settle_sound (HL := q_ledger q') cfg Hscope w call o q q' es eq_refl); [|exact Hq|exact Hck|exact E].
  intros c Hcall Hst ->. destruct (Hc call c Hcall Hst) as (_ & (_ & _ & _ & _ & _ & _ & _ & Hun) & _).
  assert (Hl : q_ledger q' = q_ledger q).
  { revert E. unfold settle. rewrite Hcall, Hst. cbn. destruct (releaseProviderUsageBeforeDispatch _ _ _ _) as [y e] eqn:Ey.
    apply releaseProviderUsageBeforeDispatch_frame in Ey as (Hy & _); [|exact Hscope]. intros [= <- _]. exact Hy. }
  intros r. unfold ledger. by rewrite Hl; apply Hun.
Qed.

Lemma settle_session w call o q :
  session_ok q -> clock_ok w q -> session_ok (run_op clock cfg w (OpSettle call o) q).
Proof.
  intros Hses Hck. cbn. destruct (settle cfg w call o q) as [q' es] eqn:E. cbn [fst].
  pose proof (settle_soundc w call o q q' es Hses Hck E) as Hs. revert E.
  unfold settle. destruct (q_calls q !! call) as [c|] eqn:Hcall; [|by intros [= <- _]].
  destruct (pc_settled c) eqn:Hst; [by intros [= <- _]|]. cbv zeta.
  destruct Hses as [Hq Hb Hc]. destruct (Hc call c Hcall Hst) as (Hg & Hlock & Huniq).
  destruct (run_settlement _ _ _ _ _) as [x es'] eqn:Er. intros [= Hx _].
  apply run_settlement_frame in Er as (Hf1 & _ & Hf3). cbn in Hf1, Hf3.
  assert (Hbooks : core_books (q_ledger q') (core_of q)).
  { rewrite <- Hx. cbn. destruct Hf3 as [->|(r & -> & Hv & Hm)]; [done|]. eapply locked_append; eauto. apply Hq. }
  pose proof (soundc_good _ _ _ Hs Hq) as Hq'. destruct Hs as [Hw _]. split; [done| |].
  - eapply (writes_books (HL := q_ledger q')); [exact Hw|apply Hq|exact Hbooks].
  - intros j c' Hj Hst'. exfalso. rewrite <- Hx in Hj. cbn in Hj. rewrite Hf1 in Hj.
    apply list_lookup_insert_Some in Hj as [(-> & <- & _)|[Hne Hj]]; [done|]. by destruct Hne; symmetry; eapply Huniq.
Qed.

Lemma rtc_evolves_books L s0 s :
  rtc (evolves (HL := L) [accounting]) s0 s -> goal_ok s0 -> covers L s0 -> goal_ok s /\ covers L s.
Proof.
  induction 1 as [|s1 s2 s3 He _ IH]; [done|]. intros Hok Hc. apply IH.
  - by eapply (goal_ok_evolves (HL := L)).
  - by eapply (covers_evolves (HL := L)).
Qed.

Lemma reload_books L p m :
  saved_ok p -> (forall s, goal_ok s -> p = Some (persisted_record s) -> covers L s) -> reload (HL := L) p m ->
  core_ok (m, p) /\ core_books L (m, p).
Proof.
  intros Hp Hb Hr. destruct Hr as [|s0 s Hok0 _ Hev|r reason _].
  - split; [by split|]. split; cbn; done.
  - destruct (rtc_evolves_books L s0 s Hev Hok0 (Hb s0 Hok0 eq_refl)) as [Hok Hc].
    split; [split; [|done]; intros t [= <-]; by left|]. split; cbn; [by intros t [= <-]|done|].
    intros t t0 [= <-] Hu. pose proof (ok_available s Hok). congruence.
  - destruct (saved_ok_record _ r Hp eq_refl) as (s & Hok & ->). split.
    + split; [|done]. intros t [= <-]. right. split_and!; [done|done|]. exists s. split; [done|].
      by rewrite (persisted_available s (ok_available s Hok)).
    + split; cbn; [by intros t [= <-]|done|]. intros t t0 [= <-] _ Ht0 Hr.
      apply Hb; [done|]. exact Hr.
Qed.

Lemma restart_session w input lookup q :
  session_ok q -> clock_ok w q -> session_ok (restart clock cfg w input lookup q).
Proof.
  intros [Hq Hb Hc] Hck.
  destruct (restart_sound (HL := q_ledger q) clock cfg Hscope w input lookup q eq_refl Hq Hck)
    as (m & Hre & Hw & Hq' & Hl & Hcalls).
  destruct (reload_books (q_ledger q) (q_saved q) m) as [Hok Hbm]; [apply Hq|apply Hb|exact Hre|].
  split; [done| |].
  - rewrite Hl. by eapply (writes_books (HL := q_ledger q)).
  - intros i c. by rewrite Hcalls.
Qed.

Lemma op_session w o q : session_ok q -> honest w o q -> session_ok (run_op clock cfg w o q).
Proof.
  intros Hq Hh. destruct (is_restart o) eqn:Hr; [|destruct (is_call o) eqn:Hc; [|by apply quiet_op_session]].
  - destruct Hh as [Hck _]. destruct o; try discriminate. by apply restart_session.
  - destruct Hh as [Hck _]. destruct o; try discriminate; [by apply admit_session|by apply settle_session].
Qed.

(** The states of a session that begins with no goal. *)
Inductive reachable : engine -> Prop :=
| reachable_fresh input : reachable (fresh input)
| reachable_op w o q : reachable q -> honest w o q -> reachable (run_op clock cfg w o q).

Lemma reachable_session q : reachable q -> session_ok q.
Proof.
  induction 1; [|by apply op_session]. split.
  - split; [split; intros s Hs; done|by intros [t Ht]].
  - split; cbn; done.
  - intros i c Hi. cbn in Hi. by rewrite lookup_nil in Hi.
Qed.

(** Every operation but a restart is a run of writes of its own kinds. *)
Lemma op_writes w o q :
  session_ok q -> honest w o q -> is_restart o = false ->
  rtc (write (HL := q_ledger (run_op clock cfg w o q)) (kinds_of o)) (core_of q) (core_of (run_op clock cfg w o q)).
Proof.
  intros Hq Hh Hr. destruct (is_call o) eqn:Hcall.
  - destruct Hh as [Hck _]. destruct o; try discriminate; cbn [run_op kinds_of].
    + destruct (AdmitProviderUsage cfg w cancelled r d q) as [q' res] eqn:E.
      destruct (AdmitProviderUsage_sound (HL := q_ledger q) cfg Hscope w cancelled r d q q' res eq_refl
        (session_good q Hq) Hck E) as [[Hw _] [Hl _]]. cbn [fst]. by rewrite Hl.
    + destruct (settle cfg w call o q) as [q' es] eqn:E. by destruct (settle_soundc w call o q q' es Hq Hck E).
  - destruct (quiet_op_sound (HL := q_ledger q) clock cfg Hscope w o q eq_refl (session_good q Hq) Hh Hr Hcall)
      as [[Hw (Hl & _)] _]. by rewrite Hl.
Qed.
End session.
