(* ===== verification/GoalProperties.v ===== *)
(** * What the goal of a session guarantees

    The theorems on the goal, for every state that a session reaches by honest
    operations: it is a run of the abstract machine, its books balance, at most
    one call is in progress, a restart restores it exactly and counts what the
    ledger has recorded, completion is final, and a control request is a
    compare-and-set.  Then an example of a goal that a restart refuses. *)

From S2P Require Import Prelude GoStrings GoBase RunCost RuntimeItem InputCoordinator InputRun.
From S2P Require Import ToolSchedule.
From S2P Require Import GoBase GoalData GoalPersistence GoalService GoalCalls GoalMachine GoalFacts GoalRefinement.
From S2P Require Import GoalSimulation GoalBooks.

Open Scope Z_scope.

Section properties.
Context `{HI : !ItemChecks, HD : !Digests, HG : !GoalIdentityText} (clock : Z -> Z) (cfg : goalConfig).
Context (Hscope : goal_scope cfg = true).

(** C8: whatever operations a session runs, with whatever failures of their
    writes, each of them is a run of writes of the abstract machine: a write
    installs a goal that evolved from the goal in memory by changes that the
    operation may make, and only a call changes the accounts, only the end of a
    turn completes the goal and only a restart undoes completion; a restart
    installs the saved goal itself, brought up to date, or one that is not
    available and keeps its record. *)
Theorem goal_service_refines w o q :
  reachable clock cfg q -> honest w o q ->
  if is_restart o then
    exists m, reload (HL := q_ledger q) (q_saved q) m
      /\ rtc (write (HL := q_ledger q) [recovering]) (m, q_saved q) (core_of (run_op clock cfg w o q))
  else
    rtc (write (HL := q_ledger (run_op clock cfg w o q)) (kinds_of o)) (core_of q) (core_of (run_op clock cfg w o q)).
Proof.
  intros Hq Hh. pose proof (reachable_session clock cfg Hscope q Hq) as Hs. destruct (is_restart o) eqn:Hr.
  - destruct o; try discriminate. destruct Hh as [Hck _].
    destruct (restart_sound (HL := q_ledger q) clock cfg Hscope w input lookup q eq_refl (session_good q Hs) Hck)
      as (m & Hre & Hw & _). by exists m.
  - by apply op_writes.
Qed.

(** C6: the books of a goal balance in every state of a session.  The records
    that the ledger has for the goal bear the revisions 1, 2, 3 ...; the tokens
    the goal has used are exactly those of the records it has counted; and the
    ledger has at most one record more, that of the call the goal waits for.
    The same holds for the saved goal, so a crash cannot unbalance them, and all
    numbers stay in range. *)
Theorem goal_books_balance q s :
  reachable clock cfg q ->
  (q_goalState q = Some s /\ g_unavailable s = false) \/ (goal_ok s /\ q_saved q = Some (persisted_record s)) ->
  let records := records_of (q_ledger q) (g_GoalID s) in
  map l_LedgerRevision records = seqZ 1 (Z.of_nat (length records))
  /\ g_TokensUsed s = total (take (Z.to_nat (g_UsageLedgerRevision s)) records)
  /\ (Z.of_nat (length records) = g_UsageLedgerRevision s
      \/ Z.of_nat (length records) = g_UsageLedgerRevision s + 1
         /\ exists a r, g_PendingUsageAdmission s = Some a /\ last records = Some r
                        /\ goalUsageRecordMatchesAdmission r a = true)
  /\ 0 <= g_TokensUsed s <= MaxUint64
  /\ (g_Status s = goalStatusActive -> goalBudgetHasRemaining (g_TokenBudget s) (g_TokensUsed s) = true).
Proof.
  intros Hq Hs. destruct (reachable_session clock cfg Hscope q Hq) as [Hgood Hb _].
  assert (Hc : goal_ok s /\ covers (q_ledger q) s).
  { destruct Hs as [[Hs Ha]|[Hok Hs]]; [split; [by eapply good_ok|by apply (books_mem _ _ Hb)]|].
    split; [done|by apply (books_saved _ _ Hb)]. }
  destruct Hc as [Hok Hc]. cbv zeta. split_and!; try apply Hc; try apply Hok.
  destruct (cv_entries _ _ Hc) as [He|(He & a & Ha & Hm)]; [by left|right]. split; [done|].
  destruct (last (records_of (q_ledger q) (g_GoalID s))) as [r|] eqn:El.
  - exists a, r. split_and!; auto.
  - apply last_None in El. rewrite El in He. pose proof (ok_ledger s Hok). cbn in He. lia.
Qed.

(** C17: one call at a time.  In every state of a session at most one call is not
    settled; while one is, no other is admitted, the goal in memory and the
    saved goal wait for it, and the ledger has no record of it, so it is counted
    at most once. *)
Theorem one_call_at_a_time q i c :
  reachable clock cfg q -> q_calls q !! i = Some c -> pc_settled c = false ->
  q_usageGate q = false
  /\ (forall j c', q_calls q !! j = Some c' -> pc_settled c' = false -> j = i)
  /\ (exists s s0, q_goalState q = Some s /\ q_saved q = Some (persisted_record s0)
        /\ g_PendingUsageAdmission s = Some (pc_admission c) /\ g_PendingUsageAdmission s0 = Some (pc_admission c))
  /\ forall r, r ∈ q_ledger q -> goalUsageRecordMatchesAdmission r (pc_admission c) = false.
Proof.
  intros Hq Hi Hst. destruct (reachable_session clock cfg Hscope q Hq) as [_ _ Hc].
  destruct (Hc i c Hi Hst) as (Hg & (s & s0 & [= Hs Hs0] & _ & _ & Hp & Hp0 & Hun) & Hu).
  split_and!; [done|exact Hu|by exists s, s0|]. intros r Hr.
  destruct (goalUsageRecordMatchesAdmission r (pc_admission c)) eqn:Hm; [exfalso|done].
  assert (Hid : l_GoalID r = a_GoalID (pc_admission c)).
  { unfold goalUsageRecordMatchesAdmission in Hm. by breflect. }
  specialize (Hun r Hr Hid). apply record_revision in Hm. lia.
Qed.

Lemma readable_ledger w q : w_transcript w = Some false -> loadGoalUsageLedger cfg w q = Some (false, q_ledger q).
Proof.
  intros Ht. unfold loadGoalUsageLedger. rewrite Ht. unfold goal_scope in Hscope.
  destruct (cfg_transcriptPath cfg); [done|]. by rewrite andb_false_r in Hscope.
Qed.

Lemma scope_agent : blank (cfg_AgentID cfg) = true.
Proof. unfold goal_scope in Hscope. by repeat (apply andb_true_iff in Hscope as [Hscope ?]). Qed.

(** The record of the call that the goal waits for is counted. *)
Lemma reconcile_counts L s x now :
  goal_ok s -> covers L s -> x ∈ L -> l_GoalID x = g_GoalID s -> g_UsageLedgerRevision s < l_LedgerRevision x ->
  g_TokensUsed s + l_BillableTokens x <= MaxUint64 -> g_Revision s < MaxUint64 ->
  exists t, applyGoalUsageRecord s x now = Ok t /\ reconcileGoalUsageState s (Some (false, L)) now = (t, true, []).
Proof.
  intros Hok Hc Hx Hid Hrev Hsum Hr.
  assert (Hin : x ∈ records_of L (g_GoalID s)) by by apply records_of_elem.
  destruct (proj1 (list_elem_of_lookup _ _) Hin) as [i Hi].
  pose proof (revision_of_entry L s i x Hc Hi) as Hxi. pose proof (lookup_lt_Some _ _ _ Hi) as Hlt.
  destruct (cv_entries L s Hc) as [He|(He & a & Ha & Hm)]; [lia|].
  assert (Hlast : last (records_of L (g_GoalID s)) = Some x) by (rewrite last_lookup, <- Hi; f_equal; lia).
  specialize (Hm x Hlast). pose proof (cv_records L s Hc) as Hv. rewrite Forall_forall in Hv.
  destruct (Hv x Hin) as [Hval _].
  assert (Hap : exists t, applyGoalUsageRecord s x now = Ok t).
  { unfold applyGoalUsageRecord. rewrite Ha, Hval, Hm. cbn [negb].
    rewrite (proj2 (Z.ltb_ge _ _)) by lia. unfold nextGoalRevision. rewrite (proj2 (Z.eqb_neq _ _)) by lia. by eexists. }
  destruct Hap as [t Hap]. exists t. split; [done|]. unfold reconcileGoalUsageState.
  rewrite (inspect_covers L s Hok Hc), Ha. rewrite <- (record_revision x a Hm).
  rewrite enter_lookup; [by rewrite Hap|rewrite (cv_revisions L s Hc); apply NoDup_seqZ|done].
Qed.

(** What stays as it was when a record is counted and when a goal is paused. *)
Definition identity_of (s : goalState) : bytes * bytes * Z * option Z * Z :=
  (g_GoalID s, g_Objective s, g_ObjectiveRevision s, g_TokenBudget s, g_CreatedAt s).

Lemma apply_record_identity s x now t : applyGoalUsageRecord s x now = Ok t -> identity_of t = identity_of s.
Proof.
  unfold applyGoalUsageRecord. destruct (g_PendingUsageAdmission s); [|done].
  destruct (negb _); [done|]. destruct (negb _); [done|]. destruct (_ <? _); [done|].
  unfold nextGoalRevision. destruct (_ =? _); [done|]. intros [= <-]. cbn.
  destruct (g_TokenBudget s) as [b|] eqn:E; [destruct (b <=? _)|]; unfold identity_of; cbn; by rewrite E.
Qed.

(** A goal that nothing will continue. *)
Definition idle (s : goalState) : bool := goal_active s && negb (has_open_continuation s).

(** The goal of a call that has no record: what the call used is not known. *)
Definition uncovered (now : Z) (s : goalState) : goalState :=
  resetGoalTurnEvidence
    (with_status goalStatusUsageLimited goalReasonUsageCoverageIncomplete
       (lit "pending provider admission has no exact durable usage record")
       (s <| g_Revision := g_Revision s + 1 |> <| g_UpdatedAt := now |>)).

(** The call that the goal waits for has no record. *)
Lemma reconcile_uncovered L s now :
  goal_ok s -> covers L s -> g_PendingUsageAdmission s <> None ->
  (forall x, x ∈ L -> l_GoalID x = g_GoalID s -> l_LedgerRevision x <= g_UsageLedgerRevision s) ->
  g_Revision s < MaxUint64 ->
  (reconcileGoalUsageState s (Some (false, L)) now).1 = (uncovered now s, true).
Proof.
  intros Hok Hc Hp Hno Hm. unfold reconcileGoalUsageState. rewrite (inspect_covers L s Hok Hc).
  destruct (g_PendingUsageAdmission s) as [a|] eqn:Ha; [|done].
  destruct (ok_admission s Hok a Ha) as (_ & _ & _ & Hrev & _). rewrite enter_other.
  - unfold nextGoalRevision. rewrite lookup_empty, (proj2 (Z.eqb_neq _ _)) by lia. done.
  - intros r Hr. apply records_of_elem in Hr as [Hin Hid]. specialize (Hno r Hin Hid). lia.
Qed.

(** C7: a restart loses nothing.  A saved goal is the record of a goal in good
    order.  If the record is not one that a restart accepts (its texts are normal
    and its continuation, if any, describes it), the goal is not available and
    keeps its record.  If it is, then with a readable transcript:
    - a goal that waits for no call is restored exactly, but it is paused when it
      was active and nothing is queued to continue it (and is not available when
      its revisions are exhausted, so that it cannot be paused);
    - a goal that waits for a call whose record the ledger has, because the
      process stopped between the two writes, counts that record, once, and keeps
      its identity, objective and budget, as long as neither the token counter
      nor the revisions overflow;
    - a goal that waits for a call that the ledger knows nothing of is stopped as
      usage-limited, with its accounts as they were and the call still noted, as
      long as the revisions are not exhausted. *)
Theorem restart_restores w q r :
  reachable clock cfg q -> clock_ok w q -> q_saved q = Some r -> w_transcript w = Some false ->
  exists s, goal_ok s /\ r = persisted_record s /\
  let now := w_clock w 0 in
  let restored := (restorePersistedGoalStateWithUsage (Some r) (cfg_AgentID cfg) now
                     (Some (loadGoalUsageLedger cfg w q))).1 in
  (~ restartable s -> restored = Some (unavailableGoalState r goalReasonCorruptState invalid_record_reason))
  /\ (restartable s -> g_PendingUsageAdmission s = None ->
      restored = Some (if idle s then
                         if g_Revision s =? MaxUint64
                         then unavailableGoalState r goalReasonCorruptState exhausted_record_reason
                         else cold_pause now s
                       else s))
  /\ (restartable s -> forall x, x ∈ q_ledger q -> l_GoalID x = g_GoalID s ->
      g_UsageLedgerRevision s < l_LedgerRevision x ->
      g_TokensUsed s + l_BillableTokens x <= MaxUint64 -> g_Revision s + 1 < MaxUint64 ->
      exists t, restored = Some t /\ g_unavailable t = false /\ identity_of t = identity_of s
        /\ accounts t = (g_TokensUsed s + l_BillableTokens x, l_LedgerRevision x, None))
  /\ (restartable s -> g_PendingUsageAdmission s <> None ->
      (forall x, x ∈ q_ledger q -> l_GoalID x = g_GoalID s -> l_LedgerRevision x <= g_UsageLedgerRevision s) ->
      g_Revision s < MaxUint64 -> restored = Some (uncovered now s)).
Proof.
  intros Hq (H0 & _ & Hl) Hr Ht. destruct (reachable_session clock cfg Hscope q Hq) as [[[_ Hsv] _] Hb _].
  destruct (saved_ok_record _ r Hsv Hr) as (s & Hok & ->). exists s. split_and!; [done|done|]. cbv zeta.
  assert (Hu : g_UpdatedAt s <= w_clock w 0) by (unfold last_time in Hl; rewrite Hr in Hl; cbn in Hl; lia).
  pose proof (books_saved _ _ Hb s Hok Hr) as Hc. rewrite (readable_ledger w q Ht).
  rewrite (restore_own s (cfg_AgentID cfg) (w_clock w 0) (Some (Some (false, q_ledger q))) Hok scope_agent).
  pose proof (goal_ok_record s Hok) as Hrec.
  destruct (validatePersistedGoalState (persisted_record s)) eqn:Hv.
  { split_and!; [done|intros Hre; apply Hrec in Hre; done..]. }
  split_and!; [intros Hn; destruct Hn; by apply Hrec| | |].
  - intros _ Hp. unfold reconcileGoalUsageState. rewrite (inspect_covers _ s Hok Hc), Hp. cbn [fst].
    unfold idle. destruct (_ && _); [|done]. by destruct (_ =? _).
  - intros _ x Hx Hid Hrev Hsum Hm.
    destruct (reconcile_counts _ s x (w_clock w 0) Hok Hc Hx Hid Hrev Hsum ltac:(lia)) as (t & Hap & ->). cbn [fst].
    destruct (applyGoalUsageRecord_evolves (HL := q_ledger q) s x (w_clock w 0) t Hok H0 Hu Hx Hap) as (He & Hut & Hacc).
    pose proof (evolves_frame _ _ _ He) as Hf. destruct_and!. pose proof (apply_record_identity _ _ _ _ Hap) as Hi.
    destruct (goal_active t && negb (has_open_continuation t)) eqn:Hcold; [|by exists t].
    rewrite (proj2 (Z.eqb_neq _ _)) by lia. by exists (cold_pause (w_clock w 0) t).
  - intros _ Hp Hno Hm. rewrite (reconcile_uncovered _ s _ Hok Hc Hp Hno Hm). cbv beta iota.
    by rewrite (eq_refl : goal_active (uncovered (w_clock w 0) s) = false).
Qed.

(** ** Completion *)

Lemma write_incomplete `{HL : !Ledger} K c c' s :
  completing ∉ K -> write K c c' -> (forall s, c.1 = Some s -> g_Status s <> goalStatusComplete) ->
  c'.1 = Some s -> g_Status s <> goalStatusComplete.
Proof.
  intros HK Hw Hc Hs. destruct Hw as [m p s' Hn|m p s' _|m p _|m p _|m p]; cbn in *; try done; try by apply Hc.
  injection Hs as <-. destruct Hn as [s0 s' (now & _ & _ & _ & _ & Hch)|m s' _ (_ & _ & _ & _ & _ & _ & Hst)|]; [|by rewrite Hst|done].
  intros Hst. apply (Hc s0 eq_refl). by apply (changes_completing _ _ _ HK Hch).
Qed.

Lemma writes_incomplete `{HL : !Ledger} K c c' s :
  completing ∉ K -> rtc (write K) c c' -> (forall s, c.1 = Some s -> g_Status s <> goalStatusComplete) ->
  c'.1 = Some s -> g_Status s <> goalStatusComplete.
Proof.
  intros HK Hw. revert s. induction Hw as [|c1 c2 c3 H1 _ IH]; intros s Hc; [apply Hc|].
  apply IH. intros s2 Hs2. by eapply write_incomplete.
Qed.

(** The goal is the same and complete, or gone, or another one, which the ledger
    does not know. *)
Definition settled_goal `{HL : !Ledger} (id : bytes) (m : option goalState) : Prop :=
  forall s, m = Some s -> g_unavailable s = false /\
  ((g_GoalID s = id /\ g_Status s = goalStatusComplete) \/ (forall r, r ∈ ledger -> l_GoalID r <> g_GoalID s)).

Lemma writes_settled `{HL : !Ledger} K id c c' :
  recovering ∉ K -> rtc (write K) c c' -> settled_goal id c.1 -> settled_goal id c'.1.
Proof.
  intros HK. induction 1 as [|c1 c2 c3 Hw _ IH]; [done|]. intros Hc. apply IH. clear IH.
  destruct Hw as [m p s Hn|m p s _|m p _|m p _|m p]; cbn in *; try done. intros t [= <-].
  destruct Hn as [s0 s He|m s _ (Hok & _ & _ & _ & _ & Hf & _)|s0 s Hu]; [| |by destruct (Hc s0 eq_refl); congruence].
  - destruct (Hc s0 eq_refl) as (_ & Hor). pose proof (evolves_frame _ _ _ He) as Hfr. destruct_and!.
    split; [done|]. destruct Hor as [[Hid Hst]|Hf]; [left|right; intros r Hr; specialize (Hf r Hr); congruence]. split; [congruence|].
    destruct He as (now & _ & _ & _ & _ & Hch). by apply (changes_complete _ _ _ HK Hch).
  - split; [by apply ok_available|by right].
Qed.

Lemma stop_interval_evidence t s now :
  let s' := (stopActiveInterval t s now).2 in
  g_PendingCompleteTurnID s' = g_PendingCompleteTurnID s
  /\ g_PendingCompleteObjectiveRevision s' = g_PendingCompleteObjectiveRevision s
  /\ g_PendingUsageAdmission s' = g_PendingUsageAdmission s /\ g_Status s' = g_Status s.
Proof. unfold stopActiveInterval. destruct (_ =? _); [done|]. cbv zeta. by destruct (_ && _). Qed.

Lemma settle_completion_complete terminal identity waiting input s :
  g_Status s <> goalStatusComplete ->
  g_Status (settle_completion cfg terminal identity waiting input s) = goalStatusComplete ->
  terminal = TerminalCompleted /\ g_PendingCompleteTurnID s = x_GoalTurnID identity
  /\ g_PendingCompleteObjectiveRevision s = x_ObjectiveRevision identity /\ g_PendingUsageAdmission s = None
  /\ (exists i, input = Some i /\ hasPendingGoalSteering (Snapshot (scope_of cfg) i) = false) /\ waiting = false.
Proof.
  intros Hs. unfold settle_completion. cbv zeta.
  destruct (bool_decide_reflect (terminal = TerminalCompleted)) as [->|Hn].
  - cbn [negb andb]. destruct (_ && _) eqn:E; [|done]. intros _. breflect.
    destruct (g_PendingUsageAdmission s); [done|]. destruct input as [i|]; [|done].
    repeat match goal with H : negb _ = true |- _ => apply negb_true_iff in H end.
    apply Z.eqb_eq in H3. split_and!; try done. by eexists.
  - rewrite andb_false_r. cbn [andb]. by destruct (_ && _).
Qed.

Lemma commit_goal_state {A} w i next (a : A) q q' r :
  commit_goal cfg w i next a q = (q', r) ->
  q_goalState q' = q_goalState q \/ q_goalState q' = Some next.
Proof.
  unfold commit_goal. destruct (persist_cases cfg Hscope w i (Some next) q) as [->|[->| ->]]; intros [= <- _]; auto.
Qed.

(** The goal that a terminal makes before a continuation is added. *)
Definition terminal_goal w identity sequence terminal t q s : goalState :=
  settle_completion cfg terminal identity (negb (bool_decide (t_waiting t = ∅))) (q_input q)
    ((stopActiveInterval t (bumped (w_clock w 0) s) (w_clock w 0)).2 <| g_LastTerminalSequence := sequence + 2 |>).

Lemma terminal_status w identity sequence terminal q q' r s :
  commitGoalTerminalEvents clock cfg w identity sequence terminal q = (q', r) -> q_goalState q = Some s ->
  q_goalState q' = Some s \/
  exists t n, q_goalTurnRuntime q = Some t /\ x_GoalTurnID (t_identity t) = x_GoalTurnID identity
    /\ g_ObjectiveRevision s = x_ObjectiveRevision identity /\ q_goalState q' = Some n
    /\ g_Status n = g_Status (terminal_goal w identity sequence terminal t q s).
Proof.
  unfold commitGoalTerminalEvents. intros E Hs. revert E. rewrite Hs. cbv zeta.
  assert (Hsame : forall e, (q, Err e) = (q', r) -> q_goalState q' = Some s) by (by intros e [= <- _]).
  destruct (q_goalTurnRuntime q) as [t|]; [|by intros ?%Hsame; left].
  destruct (_ || _) eqn:Eid; [by intros ?%Hsame; left|]. destruct (_ <? _); [by intros ?%Hsame; left|].
  destruct (bump s _) as [b|] eqn:Eb; [|by intros ?%Hsame; left]. apply bump_Ok in Eb as [-> _].
  fold (terminal_goal w identity sequence terminal t q s). set (n3 := terminal_goal _ _ _ _ _ _ _).
  match goal with |- match ?x with Ok _ => _ | Err _ => _ end = _ -> _ =>
    assert (Hcont : forall n, x = Ok n -> g_Status n = g_Status n3);
      [|destruct x as [n|e]; [|by intros ?%Hsame; left]] end.
  { intros n. destruct (goalContinuationEligible n3 t terminal); [|by intros [= <-]].
    destruct (q_input q); [|done]. destruct (newGoalContinuationCursor _ _ _ _ _ _); [|done]. by intros [= <-]. }
  specialize (Hcont n eq_refl). destruct (commit_goal _ _ _ _ _ _) as [y z] eqn:Ec.
  apply commit_goal_state in Ec. rewrite Hs in Ec.
  assert (Hdone : q_goalState q' = q_goalState y -> q_goalState q' = Some s \/
    exists t0 n0, Some t = Some t0 /\ x_GoalTurnID (t_identity t0) = x_GoalTurnID identity
      /\ g_ObjectiveRevision s = x_ObjectiveRevision identity /\ q_goalState q' = Some n0
      /\ g_Status n0 = g_Status (terminal_goal w identity sequence terminal t0 q s)).
  { intros Hy. destruct Ec as [Ec|Ec]; [left; congruence|right]. exists t, n. breflect.
    split_and!; try done; [|congruence]. by apply Z.eqb_eq. }
  destruct z as [sq|e]; [|intros [= <- _]; by apply Hdone].
  destruct (g_Continuation n) as [c|]; [|intros [= <- _]; by apply Hdone].
  destruct (q_input (y <| q_goalTurnRuntime := None |>)) as [input|]; [|intros [= <- _]; by apply Hdone].
  destruct (bool_decide (k_Disposition c = _)); [|intros [= <- _]; by apply Hdone].
  destruct (enqueueDormantGoalContinuation _ _ _ _). intros [= <- _]. by apply Hdone.
Qed.

(** C9: completion is earned and final.  Only the end of a turn completes a goal,
    and only a turn that completed, that nothing was waiting for, in which
    completion had been requested for the current objective, with no call
    pending and no message of the user in the queue.  A complete goal stays
    complete until it is cleared or replaced by a new one, which the ledger does
    not know; a restart alone may undo it. *)
Theorem completion_earned_and_final w o q s :
  reachable clock cfg q -> honest w o q -> is_restart o = false -> q_goalState q = Some s ->
  (forall s', g_Status s <> goalStatusComplete -> q_goalState (run_op clock cfg w o q) = Some s' ->
     g_Status s' = goalStatusComplete ->
     exists identity sequence t input,
       o = OpTerminal identity sequence TerminalCompleted /\ q_goalTurnRuntime q = Some t
       /\ x_GoalTurnID (t_identity t) = x_GoalTurnID identity /\ t_waiting t = ∅
       /\ g_PendingCompleteTurnID s = x_GoalTurnID identity
       /\ g_PendingCompleteObjectiveRevision s = g_ObjectiveRevision s
       /\ g_PendingUsageAdmission s = None /\ q_input q = Some input
       /\ hasPendingGoalSteering (Snapshot (scope_of cfg) input) = false)
  /\ (g_Status s = goalStatusComplete -> settled_goal (HL := q_ledger (run_op clock cfg w o q)) (g_GoalID s)
        (q_goalState (run_op clock cfg w o q))).
Proof.
  intros Hq Hh Hr Hs. pose proof (reachable_session clock cfg Hscope q Hq) as Hses.
  pose proof (op_writes clock cfg Hscope w o q Hses Hh Hr) as Hw. split.
  - intros s' Hst Hs' Hst'. destruct (bool_decide_reflect (completing ∈ kinds_of o)) as [Hk|Hk].
    2: { destruct (writes_incomplete (HL := q_ledger (run_op clock cfg w o q)) _ _ _ s' Hk Hw) as []; try done.
         intros x Hx. cbn in Hx. congruence. }
    destruct o; cbn in Hk; try by (exfalso; revert Hk; rewrite ?elem_of_cons, ?elem_of_nil; intuition congruence).
    cbn [run_op] in Hs'. destruct (commitGoalTerminalEvents _ _ _ _ _ _ _) as [q' r] eqn:E. cbn [fst] in Hs'.
    destruct (terminal_status w identity sequence terminal q q' r s E Hs) as [Hc|(t & n & Ht & Hid & Hor & Hc & Hn)];
      [congruence|].
    assert (s' = n) as -> by congruence. rewrite Hst' in Hn. symmetry in Hn.
    destruct (stop_interval_evidence t (bumped (w_clock w 0) s) (w_clock w 0)) as (He1 & He2 & He3 & He4).
    apply settle_completion_complete in Hn as (-> & H1 & H2 & H3 & (input & Hi & H4) & H5); [|cbn; by rewrite He4].
    cbn in H1, H2, H3. rewrite He1 in H1. rewrite He2 in H2. rewrite He3 in H3. cbn in H1, H2, H3.
    apply negb_false_iff, bool_decide_eq_true in H5.
    exists identity, sequence, t, input. split_and!; try done. congruence.
  - intros Hst. assert (HK : recovering ∉ kinds_of o).
    { destruct o; try done; cbn; try apply not_elem_of_nil; by intros ?%list_elem_of_singleton. }
    apply (writes_settled (HL := q_ledger (run_op clock cfg w o q)) _ (g_GoalID s) _ _ HK Hw).
    intros x Hx. cbn in Hx. assert (x = s) as -> by congruence. split; [|by left].
    destruct (good_mem q s (session_good q Hses) Hs s eq_refl) as [Hok|(_ & Hn & _)]; [by apply ok_available|done].
Qed.

(** ** Control requests *)

(** A change that succeeds is in memory and on disk, or there was nothing to
    change. *)
Definition installed (q q' : engine) (s : goalState) : Prop :=
  q_goalState q' = Some s /\ (q_saved q' = persistedGoalState s \/ q_goalState q = Some s).

Lemma commit_installed w i next q q' s :
  commit_goal cfg w i next next q = (q', Ok s) -> installed q q' s.
Proof.
  unfold commit_goal. destruct (persist_cases cfg Hscope w i (Some next) q) as [->|[->| ->]]; intros [= <- <-].
  by split; [|left].
Qed.

Lemma transition_installed w phase owner build q q' s :
  transition clock cfg w phase owner build q = (q', Ok s) -> installed q q' s.
Proof.
  unfold transition. destruct (negb _); [done|]. destruct (in_flight _ _); [done|].
  destruct (build _ _ _) as [next|e]; [|done]. destruct (q_goalState q) as [t|] eqn:Ht; [|apply commit_installed].
  destruct (_ && _); [intros [= <- <-]; split; [done|by right]|].
  destruct (open_continuation t) as [c|]; [|apply commit_installed].
  destruct (negb _); [done|]. cbv zeta. destruct (commit_goal _ _ _ _ _ _) as [x [y|e]] eqn:Ec; [|done].
  apply commit_installed in Ec as [Hg Hs]. intros [= <- <-].
  unfold retire. destruct (retireGoalContinuationItem _ _ _ _ _ _ _). by split.
Qed.

Lemma clear_erased w q q' : clear clock cfg w q = (q', Ok tt) -> q_goalState q' = None /\ (q_goalState q = None \/ q_saved q' = None).
Proof.
  unfold clear, clearForTurn. destruct (_ && _); [done|]. destruct (q_goalState q) as [s|] eqn:Hs; [|intros [= <-]; auto].
  destruct (is_some _); [done|]. destruct (negb _); [done|]. cbv zeta.
  assert (He : forall i x, (let '(q, ok) := persist cfg w i None x in
      if ok then (q <| q_goalState := None |> <| q_goalTurnRuntime := None |>, Ok tt) else (q, Err PersistGoalFailed)) = (q', Ok tt) ->
    q_goalState q' = None /\ (Some s = None \/ q_saved q' = None)).
  { intros i x. destruct (persist_cases cfg Hscope w i None x) as [->|[->| ->]]; intros [= <-].
    by split; [|right]. }
  destruct (open_continuation s) as [c|]; [|apply He]. destruct (negb _); [done|]. destruct (bump _ _); [|done].
  destruct (commit_goal _ _ _ _ _ _) as [x [y|e]]; [|done]. destruct (retire _ _ _ _ _) as [z [e|]]; [done|apply He].
Qed.

(** The goal that a request names: none for a creation. *)
Definition names_goal (r : GoalControlRequest) (current : option goalState) : Prop :=
  match current with
  | None => c_Operation r = GoalControlCreate
  | Some s => c_ExpectedGoalID r = g_GoalID s /\ c_ExpectedRevision r = g_Revision s
  end.

Lemma expectation_names r current :
  validateGoalControlExpectation r current = None ->
  names_goal r current /\ (c_Operation r = GoalControlCreate <-> current = None).
Proof.
  unfold validateGoalControlExpectation. destruct (bool_decide_reflect (c_Operation r = GoalControlCreate)) as [Hc|Hc].
  - destruct (_ || _); [done|]. by destruct current.
  - destruct (_ || _); [done|]. destruct current as [s|]; [|done]. destruct (_ || _) eqn:E; [done|]. intros _. breflect.
    split; [|done]. split; [done|by apply Z.eqb_eq].
Qed.

(** The same request is refused by a goal of another revision, by a goal when it
    is a creation, and without a goal when it is not. *)
Lemma expectation_refuses r current after :
  validateGoalControlExpectation r current = None ->
  match after with
  | None => c_Operation r <> GoalControlCreate
  | Some s' => forall s, current = Some s -> g_Revision s' <> g_Revision s
  end ->
  exists e, validateGoalControlExpectation r after = Some e.
Proof.
  unfold validateGoalControlExpectation. destruct (bool_decide_reflect (c_Operation r = GoalControlCreate)) as [Hc|Hc].
  - destruct (_ || _); [done|]. intros _ Ha. destruct after; [by eexists|done].
  - destruct (_ || _); [done|]. destruct current as [s|]; [|done]. destruct (_ || _) eqn:E; [done|]. intros _ Ha.
    destruct after as [s'|]; [|by eexists]. specialize (Ha s eq_refl). breflect. apply Z.eqb_eq in H0.
    assert (Hz : (c_ExpectedRevision r =? g_Revision s') = false) by (apply Z.eqb_neq; congruence).
    rewrite Hz, orb_true_r. by eexists.
Qed.

(** What a change that succeeds leaves. *)
Definition changed_from (r : GoalControlRequest) (current : option goalState) (q q' : engine) (res : GoalControlResult)
    : Prop :=
  q_goalState q' = cr_Goal res
  /\ (q_saved q' = cr_Goal res ≫= persistedGoalState \/ q_goalState q' = q_goalState q)
  /\ (forall s s', cr_Goal res = Some s' -> current = Some s -> g_Revision s' <> g_Revision s)
  /\ (c_Operation r = GoalControlClear <-> cr_Goal res = None)
  /\ (c_Operation r = GoalControlCreate -> forall s, q_goalState q = Some s -> g_Status s = goalStatusComplete).

Lemma create_replaces w objective budget owner q q' s :
  create clock cfg w objective budget owner q = (q', Ok s) ->
  installed q q' s /\ forall t, q_goalState q = Some t -> g_Status t = goalStatusComplete.
Proof.
  unfold create. destruct (normalizeGoalObjective _); [|done]. destruct (bool_decide (budget = Some 0)); [done|].
  intros E. split; [by eapply transition_installed|]. intros t Ht. revert E. unfold transition. rewrite Ht.
  destruct (negb _); [done|]. destruct (in_flight _ _); [done|]. destruct (q_planContained q); [done|].
  destruct (bool_decide_reflect (g_Status t = goalStatusComplete)); [done|]. done.
Qed.

Lemma commit_change w r current q q' res :
  c_Operation r <> GoalControlContinue -> commitGoalControl clock cfg w r current q = (q', Ok res) ->
  changed_from r current q q' res.
Proof.
  intros Hop. unfold commitGoalControl. cbv zeta.
  assert (Hch : forall x : engine * result goal_error goalState,
    (forall s, x.2 = Ok s -> installed q x.1 s
       /\ (c_Operation r = GoalControlCreate -> forall s, q_goalState q = Some s -> g_Status s = goalStatusComplete)) ->
    c_Operation r <> GoalControlClear ->
    match x with
    | (q, Err e) => (q, Err e)
    | (q1, Ok s) =>
        if match current with Some c => g_Revision s =? g_Revision c | None => false end
        then (q1, Err (ControlConflict (lit "operation would not change Goal state")))
        else (q1, Ok {| cr_Goal := Some s; cr_Cleared := false;
                        cr_RequiresPrompt := ((c_Operation r ==b GoalControlCreate)
                          || (c_Operation r ==b GoalControlResume)) && goal_active s |})
    end = (q', Ok res) -> changed_from r current q q' res).
  { intros [x [s|e]] Hx Hc; [|done]. destruct (Hx s eq_refl) as [[Hg Hs] Hcr]. cbn in Hg, Hs.
    destruct (match current with Some _ => _ | None => _ end) eqn:Er; intros [= <- <-]. unfold changed_from. cbn.
    split_and!; [done| | |done|done].
    - destruct Hs as [Hs|Hs]; [by left|right; congruence].
    - intros t t' [= <-] ->. by apply Z.eqb_neq. }
  destruct (c_Operation r) as [| | | | | | |b] eqn:Eop; try done.
  - apply Hch; [|done]. intros s. destruct (create _ _ _ _ _ _ _) as [x y] eqn:E. cbn. intros ->. revert E.
    intros Hcr%create_replaces. split; [apply Hcr|]. intros _. apply Hcr.
  - apply Hch; [|done]. intros s. destruct (edit _ _ _ _ _ _) as [x y] eqn:E. cbn. intros ->. revert E.
    unfold edit. destruct (normalizeGoalObjective _); [|done]. intros Htr. split; [by eapply transition_installed|done].
  - apply Hch; [|done]. intros s. destruct (pause _ _ _ _ _) as [x y] eqn:E. cbn. intros ->. revert E.
    intros Htr. split; [by eapply transition_installed|done].
  - apply Hch; [|done]. intros s. destruct (resume _ _ _ _ _) as [x y] eqn:E. cbn. intros ->. revert E.
    intros Htr. split; [by eapply transition_installed|done].
  - assert (Hset : forall budget s, (setBudget clock cfg w budget [] q).2 = Ok s ->
      installed q (setBudget clock cfg w budget [] q).1 s
      /\ (GoalControlBudget = GoalControlCreate -> forall s, q_goalState q = Some s -> g_Status s = goalStatusComplete)).
    { intros budget s. destruct (setBudget _ _ _ _ _ _) as [x y] eqn:E. cbn. intros ->. revert E.
      unfold setBudget. destruct (_ =? _); [done|]. intros Htr. split; [by eapply transition_installed|done]. }
    destruct (c_TokenBudget r) as [[|b|b]|]; try done; (apply Hch; [apply Hset|done]).
  - destruct (clear _ _ _ _) as [x [[]|e]] eqn:E; [|done]. intros [= <- <-].
    destruct (clear_erased w q x E) as [Hg Hs]. unfold changed_from. cbn. split_and!; try done.
    + destruct Hs as [Hs|Hs]; [right; congruence|by left].
    + by rewrite Eop.
Qed.

(** C18: control requests are compare-and-set in two steps, between which the
    rest of the session may run.  A request that succeeds has been compared with
    the goal as it was at its first step, and names it (a creation: there was
    none); the result is the goal in memory, and the same request sent again is
    refused, whatever happened in between.  A request to continue is compared
    again and names the goal as it is at its end, which it leaves alone; a
    creation never replaces a goal that is not complete.  When the goal is still
    the one of the first step, the request is an exact compare-and-set: it changes
    the goal that it names, and the change is on disk. *)
Theorem control_compare_and_set w w' r q0 current q q' res :
  checkGoalControl cfg r q0 = Ok current -> commitGoalControl clock cfg w r current q = (q', Ok res) ->
  current = q_goalState q0 /\ names_goal r current /\
  if c_Operation r ==b GoalControlContinue
  then q' = q /\ cr_Goal res = q_goalState q /\ names_goal r (q_goalState q)
  else q_goalState q' = cr_Goal res
       /\ (exists e, ApplyGoalControl clock cfg w' r q' = (q', Err e))
       /\ (c_Operation r = GoalControlCreate -> forall s, q_goalState q = Some s -> g_Status s = goalStatusComplete)
       /\ (q_goalState q = q_goalState q0 ->
           names_goal r (q_goalState q) /\ q_goalState q' <> q_goalState q
           /\ q_saved q' = cr_Goal res ≫= persistedGoalState).
Proof.
  unfold checkGoalControl. destruct (negb _); [done|]. cbv zeta.
  destruct (validateGoalControlExpectation r (q_goalState q0)) eqn:Hv; [done|]. intros [= <-] E.
  destruct (expectation_names _ _ Hv) as [Hn Hcr]. split_and!; [done|done|].
  destruct (bool_decide_reflect (c_Operation r = GoalControlContinue)) as [Hop|Hop].
  - revert E. unfold commitGoalControl. rewrite Hop. cbv zeta. destruct (mutableGoalStateError _); [done|].
    destruct (validateGoalControlExpectation r (q_goalState q)) eqn:Hv'; [done|].
    apply expectation_names in Hv' as [Hn' _]. destruct (_ || _); [done|]. destruct (negb _); [done|].
    by intros [= <- <-].
  - destruct (commit_change w r _ q q' res Hop E) as (Hg & Hs & Hrev & Hcl & Hc). split_and!; [done| |done|].
    + destruct (expectation_refuses r _ (q_goalState q') Hv) as [e He].
      { rewrite Hg. destruct (cr_Goal res) as [s'|]; [intros s; by apply Hrev|]. by rewrite (proj2 Hcl eq_refl). }
      unfold ApplyGoalControl, checkGoalControl. rewrite He.
      destruct (negb (goal_command_available cfg q')); eexists; reflexivity.
    + intros Hsame. rewrite Hsame in Hs |- *.
      assert (Hne : q_goalState q' <> q_goalState q0).
      { rewrite Hg. destruct (cr_Goal res) as [s'|].
        - intros Heq. by apply (Hrev s' s').
        - intros Heq. symmetry in Heq. apply Hcr in Heq. by rewrite (proj2 Hcl eq_refl) in Heq. }
      split_and!; [done|done|]. by destruct Hs.
Qed.

(** ** A goal that a restart refuses *)

(** a goal whose model made a call after a continuation had been planned is
    lost at the next restart.  The cursor of the continuation stays in the goal
    when it is delivered or rejected, and the reader of the saved goal requires
    that the cursor, whatever its disposition, counts as many calls as the
    goal. *)
Theorem used_continuation_refused s c agentID now loaded :
  goal_ok s -> blank agentID = true -> g_Continuation s = Some c ->
  k_UsageLedgerRevision c <> g_UsageLedgerRevision s ->
  (restorePersistedGoalStateWithUsage (Some (persisted_record s)) agentID now (Some loaded)).1
  = Some (unavailableGoalState (persisted_record s) goalReasonCorruptState invalid_record_reason).
Proof.
  intros Hok Hb Hc Hk. rewrite (restore_own s agentID now (Some loaded) Hok Hb).
  destruct (validatePersistedGoalState (persisted_record s)) eqn:Hv; [done|exfalso].
  apply goal_ok_record in Hv as (_ & _ & Hcur); [|done]. specialize (Hcur c Hc). unfold continuation_current in Hcur.
  breflect. lia.
Qed.
End properties.

(** ** A session *)

Module Example_goal.

Definition digits : bytes := replicate 64 "0"%char.
Lemma goal_digits_hex (s : bytes) : hex32 digits = true.
Proof. reflexivity. Qed.
#[local] Instance digest : Digests := {| sha256_hex := fun _ => digits; sha256_hex_32 := goal_digits_hex |}.
#[local] Instance identity_text : GoalIdentityText := {| goal_identity_json := fun _ => [] |}.
#[local] Instance checks : ItemChecks := {|
  validateUserImages _ := true; prompt_Validate _ := true; validateRuntimeGoalContinuation := validateGoalItem;
  payload_digest _ := digits; payload_digest_hex _ := goal_digits_hex [] |}.

Definition cfg : goalConfig := {|
  cfg_SessionID := lit "s"; cfg_ThreadID := lit "t"; cfg_AgentID := []; cfg_administrationOnly := false;
  cfg_transcriptPath := Some (lit "p"); cfg_GoalCapability := Some true; cfg_entrypoint := true |}.
Definition clock (n : Z) : Z := n + 1.

(** The [n]th operation, with every write acknowledged. *)
Definition calm (n : Z) : world := {|
  w_clock i := n * 1000 + Z.of_nat i; w_checkpoint _ := Written; w_ledger := Written; w_disk _ := true;
  w_id := lit "g"; w_transcript := Some false |}.

(** The same, but the checkpoint that follows a usage record does not reach the
    disk. *)
Definition crash (n : Z) : world := {|
  w_clock i := n * 1000 + Z.of_nat i; w_checkpoint _ := NotWritten; w_ledger := Written; w_disk _ := true;
  w_id := lit "g"; w_transcript := Some false |}.

Definition queue : system := InputRun.fresh (scope_of cfg) (lit "q") 0 ∅.

Definition identity (turn : bytes) : goalExecutionIdentity := {|
  x_GoalID := lit "g"; x_ObjectiveRevision := 1; x_RootSessionID := lit "s"; x_RootThreadID := lit "t";
  x_RootAgentID := []; x_GoalTurnID := turn |}.
Definition reporter (turn : bytes) : goalUsageReporter := {|
  r_service := true; r_binding := identity turn;
  r_subject := {| sub_SessionID := lit "s"; sub_ThreadID := lit "t"; sub_AgentID := []; sub_AgentGeneration := 0 |};
  r_revoked := false |}.
Definition round : ProviderUsageDescriptor := {|
  d_LogicalRoundID := lit "r"; d_LogicalRequestID := []; d_ModelAttemptID := []; d_ModelAttemptIndex := 0;
  d_ModelRetryIndex := 0; d_Model := []; d_Provider := []; d_QuerySource := []; d_ModelRole := [];
  d_ModelProfile := []; d_ReasoningEffort := []; d_CostBound := None; d_Request := true |}.
Definition usage : TokenUsage := {|
  u_PromptTokens := 70; u_CompletionTokens := 30; u_TotalTokens := 100; u_CachedTokens := 20;
  u_CacheWriteTokens := 0; u_ReasoningTokens := 10 |}.

Definition t1 : bytes := lit "t1".
Definition t2 : bytes := lit "t2".

(** A turn of the goal begins and its model is called. *)
Definition called : list (world * op) := [
  (calm 1, OpCreate (lit "ship it") (Some 1000) []); (calm 2, OpBoundary t1 false);
  (calm 3, OpBeginTurn t1 true None 0); (calm 4, OpAdmit false (reporter t1) round) ].
(** The reply is recorded, but its checkpoint is lost. *)
Definition interrupted : list (world * op) := called ++ [ (crash 5, OpSettle 0 (CompleteProviderUsage (Some usage))) ].
(** The reply is counted; the model then asks for completion. *)
Definition counted : list (world * op) := called ++ [
  (calm 5, OpSettle 0 (CompleteProviderUsage (Some usage)));
  (calm 6, OpRequestCompletion (lit "g") 1 t1 0) ].
(** The first turn plans a continuation; the user comes first, and the model is
    called. *)
Definition superseded : list (world * op) := [
  (calm 1, OpCreate (lit "ship it") (Some 1000) []); (calm 2, OpBoundary t1 false);
  (calm 3, OpBeginTurn t1 true None 0); (calm 4, OpTerminal (identity t1) 1 TerminalCompleted);
  (calm 5, OpBoundary t2 false); (calm 6, OpBeginTurn t2 true None 0);
  (calm 7, OpAdmit false (reporter t2) round);
  (calm 8, OpSettle 0 (CompleteProviderUsage (Some usage))) ].

Definition after (l : list (world * op)) : engine := run_ops clock cfg (GoalCalls.fresh (Some queue)) l.

(** Whether an operation is honest. *)
Definition creation_b (w : world) (tokenBudget : option Z) (q : engine) : bool :=
  validateGoalTurnID (w_id w) && forallb (fun r => l_GoalID r <>b w_id w) (q_ledger q)
  && match tokenBudget with Some b => 0 <=? b | None => true end.

Definition op_b (w : world) (o : op) (q : engine) : bool :=
  match o with
  | OpCreate _ tokenBudget _ => creation_b w tokenBudget q
  | OpControl r | OpControlCommit r _ => creation_b w (c_TokenBudget r) q
  | OpSetBudget tokenBudget _ => 0 <=? tokenBudget
  | OpBeginTurn _ _ _ now | OpRequestCompletion _ _ _ now | OpReportBlocker _ _ _ _ _ now | OpPauseTurn _ now
  | OpResumeTurn _ now | OpCancel now | OpDelivered _ _ now => (now =? 0) || (0 <? now) && (last_time q <=? now)
  | _ => true
  end.

Definition honest_b (w : world) (o : op) (q : engine) : bool :=
  (0 <? w_clock w 0) && (w_clock w 0 <=? w_clock w 1) && (last_time q <=? w_clock w 0) && op_b w o q.

Lemma creation_b_ok w tokenBudget q : creation_b w tokenBudget q = true -> creation_ok w tokenBudget q.
Proof.
  unfold creation_b. rewrite !andb_true_iff, forallb_forall. intros [[Hi Hf] Hb]. split_and!; [done| |].
  - intros r Hr. rewrite list_elem_of_In in Hr. specialize (Hf r Hr). by apply negb_true_iff, bool_decide_eq_false in Hf.
  - intros b ->. by apply Z.leb_le.
Qed.

Lemma honest_b_ok w o q : honest_b w o q = true -> honest w o q.
Proof.
  unfold honest_b. rewrite !andb_true_iff, Z.ltb_lt, !Z.leb_le. intros [[[H0 H1] H2] Ho]. split; [by split_and!|].
  assert (Hnow : forall now, (now =? 0) || (0 <? now) && (last_time q <=? now) = true -> now_ok now q).
  { intros now. rewrite orb_true_iff, andb_true_iff, Z.eqb_eq, Z.ltb_lt, Z.leb_le. intros [|[]]; [by left|by right]. }
  destruct o; cbn in *; auto using creation_b_ok. by apply Z.leb_le.
Qed.

Fixpoint honest_run (q : engine) (l : list (world * op)) : bool :=
  match l with [] => true | (w, o) :: l => honest_b w o q && honest_run (run_op clock cfg w o q) l end.

Lemma reachable_run q l : reachable clock cfg q -> honest_run q l = true -> reachable clock cfg (run_ops clock cfg q l).
Proof.
  revert q. induction l as [|[w o] l IH]; intros q Hq; [done|]. cbn. intros [Hh Hl]%andb_true_iff.
  apply IH; [|done]. apply reachable_op; [done|by apply honest_b_ok].
Qed.

Lemma reachable_after l : honest_run (GoalCalls.fresh (Some queue)) l = true -> reachable clock cfg (after l).
Proof. apply reachable_run, reachable_fresh. Qed.

Lemma called_reachable : reachable clock cfg (after called).
Proof. apply reachable_after. by vm_compute. Qed.
Lemma interrupted_reachable : reachable clock cfg (after interrupted).
Proof. apply reachable_after. by vm_compute. Qed.
Lemma counted_reachable : reachable clock cfg (after counted).
Proof. apply reachable_after. by vm_compute. Qed.
Lemma superseded_reachable : reachable clock cfg (after superseded).
Proof. apply reachable_after. by vm_compute. Qed.

Lemma terminal_honest : honest (calm 9) (OpTerminal (identity t1) 1 TerminalCompleted) (after counted).
Proof. apply honest_b_ok. by vm_compute. Qed.

(** A field of a value that is known only by the computation that gives it. *)
Lemma field_of {A B} (f : A -> B) (o : option A) x b : o = Some x -> f <$> o = Some b -> f x = b.
Proof. intros ->. by intros [= <-]. Qed.

Lemma goal_service_refines_witness :
  rtc (write (HL := q_ledger (after counted)) [completing]) (core_of (after counted))
    (core_of (run_op clock cfg (calm 9) (OpTerminal (identity t1) 1 TerminalCompleted) (after counted))).
Proof.
  exact (goal_service_refines clock cfg eq_refl (calm 9) (OpTerminal (identity t1) 1 TerminalCompleted) (after counted)
    counted_reachable terminal_honest).
Defined.

Lemma goal_books_balance_witness :
  exists s, q_goalState (after counted) = Some s /\ g_TokensUsed s = 80
    /\ total (take (Z.to_nat (g_UsageLedgerRevision s)) (records_of (q_ledger (after counted)) (g_GoalID s))) = 80.
Proof.
  destruct (q_goalState (after counted)) as [s|] eqn:E; [|by vm_compute in E].
  assert (Hs : g_TokensUsed s = 80) by (apply (field_of _ _ _ _ E); by vm_compute).
  assert (Ha : g_unavailable s = false) by (apply (field_of _ _ _ _ E); by vm_compute).
  destruct (goal_books_balance clock cfg eq_refl (after counted) s counted_reachable (or_introl (conj E Ha)))
    as (_ & Ht & _).
  exists s. split_and!; [done|done|]. by rewrite <- Ht.
Defined.

Lemma one_call_at_a_time_witness :
  exists c, q_calls (after called) !! 0%nat = Some c /\ pc_settled c = false /\ q_usageGate (after called) = false.
Proof.
  destruct (q_calls (after called) !! 0%nat) as [c|] eqn:E; [|by vm_compute in E].
  assert (Hst : pc_settled c = false) by (apply (field_of _ _ _ _ E); by vm_compute).
  destruct (one_call_at_a_time clock cfg eq_refl (after called) 0 c called_reachable E Hst) as (Hg & _).
  exists c. by split_and!.
Defined.

(** The reply that the lost checkpoint had not counted is counted by the
    restart. *)
Lemma restart_restores_witness :
  exists r t, q_saved (after interrupted) = Some r /\ p_TokensUsed r = 0
    /\ (restorePersistedGoalStateWithUsage (Some r) (cfg_AgentID cfg) 9000
          (Some (loadGoalUsageLedger cfg (calm 9) (after interrupted)))).1 = Some t
    /\ g_TokensUsed t = 80.
Proof.
  destruct (q_saved (after interrupted)) as [r|] eqn:E; [|by vm_compute in E].
  destruct (head (q_ledger (after interrupted))) as [x|] eqn:El; [|by vm_compute in El].
  assert (Hx : (l_BillableTokens x, l_GoalID x, l_LedgerRevision x) = (80, lit "g", 1))
    by (apply (field_of (fun x => (l_BillableTokens x, l_GoalID x, l_LedgerRevision x)) _ _ _ El); by vm_compute).
  assert (Hr : (p_TokensUsed r, p_GoalID r, p_UsageLedgerRevision r, p_Revision r, validatePersistedGoalState r)
    = (0, lit "g", 0, 3, None)).
  { apply (field_of (fun r => (p_TokensUsed r, p_GoalID r, p_UsageLedgerRevision r, p_Revision r,
      validatePersistedGoalState r)) _ _ _ E). by vm_compute. }
  apply pair_equal_spec in Hx as [[Hx1 Hx2]%pair_equal_spec Hx3].
  apply pair_equal_spec in Hr as [[[[Hr1 Hr2]%pair_equal_spec Hr3]%pair_equal_spec Hr4]%pair_equal_spec Hr5].
  assert (Hck : clock_ok (calm 9) (after interrupted)) by (apply (honest_b_ok (calm 9) OpCheckpoint); by vm_compute).
  destruct (restart_restores clock cfg eq_refl (calm 9) (after interrupted) r interrupted_reachable Hck E eq_refl)
    as (s & Hok & -> & _ & _ & H3 & _). change (g_TokensUsed s = 0) in Hr1. change (g_GoalID s = lit "g") in Hr2.
  change (g_UsageLedgerRevision s = 0) in Hr3. change (g_Revision s = 3) in Hr4.
  destruct (H3 (proj1 (goal_ok_record s Hok) Hr5) x) as (t & Ht & _ & _ & Ha).
  - destruct (q_ledger (after interrupted)); [done|]. injection El as ->. by left.
  - congruence.
  - lia.
  - rewrite Hr1, Hx1. by vm_compute.
  - rewrite Hr4. by vm_compute.
  - exists (persisted_record s), t. split_and!; [done|exact Hr1|exact Ht|]. unfold accounts in Ha.
    injection Ha as Ha _ _. lia.
Defined.

Lemma completion_earned_and_final_witness :
  exists s', q_goalState (run_op clock cfg (calm 9) (OpTerminal (identity t1) 1 TerminalCompleted) (after counted)) = Some s'
    /\ g_Status s' = goalStatusComplete
    /\ exists s, q_goalState (after counted) = Some s /\ g_PendingCompleteTurnID s = t1.
Proof.
  destruct (q_goalState (after counted)) as [s|] eqn:E; [|by vm_compute in E].
  assert (Hs : g_Status s = goalStatusActive) by (apply (field_of _ _ _ _ E); by vm_compute).
  destruct (q_goalState (run_op clock cfg (calm 9) (OpTerminal (identity t1) 1 TerminalCompleted) (after counted)))
    as [s'|] eqn:E'; [|by vm_compute in E'].
  assert (Hs' : g_Status s' = goalStatusComplete) by (apply (field_of _ _ _ _ E'); by vm_compute).
  destruct (completion_earned_and_final clock cfg eq_refl (calm 9) (OpTerminal (identity t1) 1 TerminalCompleted)
    (after counted) s counted_reachable terminal_honest eq_refl E) as [H _].
  destruct (H s' ltac:(by rewrite Hs) E' Hs') as (i & sequence & t & input & Ho & _ & _ & _ & Hp & _).
  exists s'. split_and!; [done|done|]. exists s. split; [done|]. rewrite Hp. by injection Ho as <- _.
Defined.

Definition creation : GoalControlRequest := {|
  c_Operation := GoalControlCreate; c_ExpectedGoalID := []; c_ExpectedRevision := 0; c_Objective := lit "ship it";
  c_TokenBudget := None |}.

Lemma control_compare_and_set_witness :
  exists q' e, q_goalState q' <> None /\ ApplyGoalControl clock cfg (calm 2) creation q' = (q', Err e).
Proof.
  destruct (commitGoalControl clock cfg (calm 1) creation None (GoalCalls.fresh None)) as [q' [res|e]] eqn:E;
    [|by vm_compute in E].
  destruct (control_compare_and_set clock cfg eq_refl (calm 1) (calm 2) creation (GoalCalls.fresh None) None
    (GoalCalls.fresh None) q' res eq_refl E) as (_ & _ & Hg & [e He] & _ & Hset).
  exists q', e. split; [|done]. exact (proj1 (proj2 (Hset eq_refl))).
Defined.

Lemma used_continuation_refused_witness :
  exists s t, q_goalState (after superseded) = Some s /\ g_Status s = goalStatusActive
    /\ (restorePersistedGoalStateWithUsage (Some (persisted_record s)) [] 9000 (Some None)).1 = Some t
    /\ g_unavailable t = true.
Proof.
  destruct (q_goalState (after superseded)) as [s|] eqn:E; [|by vm_compute in E].
  assert (Hs : (g_Status s, g_unavailable s, g_UsageLedgerRevision s) = (goalStatusActive, false, 1))
    by (apply (field_of (fun s => (g_Status s, g_unavailable s, g_UsageLedgerRevision s)) _ _ _ E); by vm_compute).
  apply pair_equal_spec in Hs as [[H1 H2]%pair_equal_spec H3].
  destruct (g_Continuation s) as [c|] eqn:Hc.
  2: { assert (Hx : is_some (g_Continuation s) = true); [|by rewrite Hc in Hx].
       apply (field_of (fun s => is_some (g_Continuation s)) _ _ _ E). by vm_compute. }
  assert (Hk : k_UsageLedgerRevision c = 0).
  { apply (field_of _ (q_goalState (after superseded) ≫= g_Continuation)); [by rewrite E|by vm_compute]. }
  assert (Hok : goal_ok s).
  { eapply good_ok; [|exact E|exact H2]. by apply (reachable_session clock cfg eq_refl), superseded_reachable. }
  exists s, (unavailableGoalState (persisted_record s) goalReasonCorruptState invalid_record_reason).
  split_and!; [done|done| |done].
  apply (used_continuation_refused s c [] 9000 None Hok eq_refl Hc). rewrite Hk, H3. done.
Defined.

(** ** Findings *)

(** A carriage return before a CRLF: the objective that is stored is not its own
    normal form, so the goal is refused by the next restart. *)
Definition cr : ascii := "013".
Definition lf : ascii := "010".
Definition twice : bytes := lit "a" ++ [cr; cr; lf] ++ lit "b".

Example normalisation_not_idempotent :
  normalizeGoalObjective twice = Ok (lit "a" ++ [cr; lf] ++ lit "b")
  /\ normalizeGoalObjective (lit "a" ++ [cr; lf] ++ lit "b") = Ok (lit "a" ++ [lf] ++ lit "b").
Proof. split; by vm_compute. Qed.

Example accepted_objective_lost :
  g_unavailable <$> q_goalState (run_op clock cfg (calm 2) (OpRestart (Some queue) None)
    (run_op clock cfg (calm 1) (OpCreate twice None []) (GoalCalls.fresh (Some queue)))) = Some true.
Proof. by vm_compute. Qed.

(** The third report of a blocker stops the clock of the turn before the write;
    when the write fails the turn goes on, and its time is not counted any more. *)
Definition blocked_turns : list (world * op) := [
  (calm 1, OpCreate (lit "ship it") None []);
  (calm 2, OpBoundary (lit "a") false); (calm 3, OpBeginTurn (lit "a") false None 0);
  (calm 4, OpReportBlocker (lit "g") 1 (lit "a") (lit "no key") (lit "key") 0); (calm 5, OpAbandonTurn (lit "a"));
  (calm 6, OpBoundary (lit "b") false); (calm 7, OpBeginTurn (lit "b") false None 0);
  (calm 8, OpReportBlocker (lit "g") 1 (lit "b") (lit "no key") (lit "key") 0); (calm 9, OpAbandonTurn (lit "b"));
  (calm 10, OpBoundary (lit "c") false); (calm 11, OpBeginTurn (lit "c") false None 0) ].

Example third_blocker_stops_clock :
  let q := run_op clock cfg (crash 12) (OpReportBlocker (lit "g") 1 (lit "c") (lit "no key") (lit "key") 0)
             (after blocked_turns) in
  (g_Status <$> q_goalState q, t_activeSince <$> q_goalTurnRuntime q) = (Some goalStatusActive, Some 0)
  /\ t_activeSince <$> q_goalTurnRuntime (after blocked_turns) = Some 11000.
Proof. split; by vm_compute. Qed.

(** A call whose outcome is not known leaves its admission, and the goal can then
    be neither edited nor cleared. *)
Example ambiguous_goal_stuck :
  let q := run_op clock cfg (calm 5) (OpSettle 0 (MarkProviderUsageAmbiguous true)) (after called) in
  (clear clock cfg (calm 6) (run_op clock cfg (calm 6) (OpAbandonTurn t1) q <| q_planActiveTurnID := [] |>)).2
  = Err GoalUsageAdmissionPending.
Proof. by vm_compute. Qed.

(** A request to clear the goal is compared with revision 5, while a turn is
    running; the turn ends and completes the goal with revision 6 before the change
    is made, and the completed goal is erased. *)
Definition stale_clear : GoalControlRequest := {|
  c_Operation := GoalControlClear; c_ExpectedGoalID := lit "g"; c_ExpectedRevision := 5; c_Objective := [];
  c_TokenBudget := None |}.
Definition ended : engine :=
  run_op clock cfg (calm 8) (OpBoundary [] false)
    (run_op clock cfg (calm 7) (OpTerminal (identity t1) 1 TerminalCompleted) (after counted)).

Example control_not_atomic :
  checkGoalControl cfg stale_clear (after counted) = Ok (q_goalState (after counted))
  /\ (fun s => (g_Revision s, g_Status s)) <$> q_goalState ended = Some (6, goalStatusComplete)
  /\ is_some (q_goalState (run_op clock cfg (calm 9) (OpControlCommit stale_clear (q_goalState (after counted))) ended)) = false.
Proof. split_and!; vm_compute; reflexivity. Qed.

(** The Kelvin sign, outside ASCII, is accepted in the key of a blocker. *)
Example kelvin_key : normalizeGoalBlockerKey (map chr [226; 132; 170]%N) = Some (lit "k").
Proof. by vm_compute. Qed.
End Example_goal.
