(* ===== verification/RuntimeEvents.v ===== *)
(** * The events of a runtime and the snapshots made of them

    [src/engine/events.go], the canonical projections of
    [src/engine/projection_lifecycle.go], the durable worktree records of
    [src/engine/worktree/types.go], and the snapshot types and the selectors of
    texts of [src/engine/runtime_state.go].

    A query publishes its events one by one; the store of [RuntimeStore] folds
    them into bounded snapshots.  A [time.Time] is the number of nanoseconds
    since the zero time.  A payload that may be nil is an option; of the
    payloads that the store only passes over, the model keeps the field from
    which it derives a causation.  Modes, phases of a plan, reasons and
    categories are their texts. *)

From S2P Require Import Prelude GoStrings GoBase RunUsage RuntimeItem ToolSchedule Messages GoalData GoalPersistence GoalService.

Open Scope Z_scope.

(** ** What the store uses of [encoding/json] and [fmt] *)

Class RuntimeJSON := {
  json_valid : bytes -> bool;                       (* json.Valid *)
  json_object : bytes -> bool;                      (* Unmarshal into a map, which is not nil *)
  json_marshal : any -> option bytes;
  json_unmarshal : bytes -> option any;
  json_marshal_map : gmap bytes any -> option bytes;
  go_sprint : any -> bytes
}.

(** How a type switch sees a value that is neither a text nor a truth value:
    the numbers it distinguishes, a float by its integral part. *)
Inductive go_number := NUint64 (n : Z) | NUint (n : Z) | NInt (n : Z) | NInt64 (n : Z) | NFloat64 (positive : bool) (part : Z).
Class AnyNumbers := { other_number : bytes -> option go_number }.

(** ** Texts *)

(** Lengths of the valid rune at the head of a text, [None] when the first byte
    starts none. *)
Definition rune_length (s : bytes) : option nat :=
  match s with
  | [] => None
  | a :: s1 =>
      if is_ascii_byte a then Some 1%nat else
      match s1 with
      | [] => None
      | b :: s2 =>
          if lead2 a b then Some 2%nat else
          match s2 with
          | [] => None
          | c :: s3 =>
              if lead3 a b && cont c then Some 3%nat else
              match s3 with
              | [] => None
              | d :: _ => if lead4 a b && cont c && cont d then Some 4%nat else None
              end
          end
      end
  end.

(** The text of the replacement character U+FFFD. *)
Definition replacement : bytes := chr 239 :: chr 191 :: chr 189 :: [].

(** [string([]rune(s)[:n])]: the first [n] runes, where a byte that starts no
    rune has become the replacement character. *)
Fixpoint take_runes (n : nat) (s : bytes) : bytes :=
  match n, s with
  | O, _ | _, [] => []
  | S n, _ :: rest =>
      match rune_length s with
      | Some k => take k s ++ take_runes n (drop k s)
      | None => replacement ++ take_runes n rest
      end
  end.

Definition truncateRuntimeText (value : bytes) (maxRunes : nat) : bytes :=
  if (maxRunes =? 0)%nat || (value ==b []) then [] else
  if (RuneCountInString value <=? maxRunes)%nat then value else take_runes maxRunes value.

Fixpoint firstNonEmptyString (values : list bytes) : bytes :=
  match values with
  | [] => []
  | value :: values => if blank value then firstNonEmptyString values else value
  end.

Definition maxRuntimeEventSummaryRunes : nat := 512.
Definition maxRuntimeMessageRunes : nat := Z.to_nat 4096.
Definition maxRuntimeReasoningRunes : nat := Z.to_nat 2048.
Definition maxRuntimeToolPreviewRunes : nat := Z.to_nat 2048.
Definition maxRuntimeInteractionRunes : nat := Z.to_nat 1024.
Definition maxRuntimeInteractionInputBytes : Z := 16 * 1024.
Definition maxRuntimeMessageToolCalls : nat := 16.
Definition maxRuntimeAgentActivities : nat := 5.

(** [a.Sub(b)] of two times: a duration has 64 bits, the difference saturates. *)
Definition time_sub (a b : Z) : Z := Z.max (- 2 ^ 63) (Z.min MaxInt64 (a - b)).

(** ** Types of events *)

Inductive QueryEventType :=
| EventStreamRequestStart | EventAssistant | EventToolResult | EventAttachment | EventCompactBoundary
| EventTombstone | EventUserInterruption | EventMaxTurnsReached | EventStream | EventToolUseSummary
| EventCommandLifecycle | EventCommandResult | EventToolProgress | EventTaskProgress | EventAgentLifecycle
| EventTaskLifecycle | EventWorktreeLifecycle | EventPermissionRequest | EventPermissionResolved
| EventTerminal | EventHookStatus | EventHookResponse | EventClassifierStatus | EventPermissionReview
| EventPlanStateTransition | EventGoalLifecycle | EventCanonicalProjection | EventModelAttempt
| EventTypeOther (s : bytes).
#[export] Instance QueryEventType_eq_dec : EqDecision QueryEventType.
Proof. solve_decision. Defined.

Record RuntimeEventEnvelope := {
  v_SessionID : bytes; v_ThreadID : bytes; v_TurnID : bytes; v_AgentID : bytes;
  v_ParentSessionID : bytes; v_ParentThreadID : bytes; v_ParentAgentID : bytes; v_ParentToolUseID : bytes;
  v_Sequence : Z; v_Timestamp : Z; v_CausationID : bytes; v_AgentGeneration : Z;
  v_GoalID : bytes; v_GoalObjectiveRevision : Z; v_GoalRootSessionID : bytes; v_GoalRootThreadID : bytes;
  v_GoalRootAgentID : bytes; v_GoalTurnID : bytes
}.
#[export] Instance eta_RuntimeEventEnvelope : Eta RuntimeEventEnvelope := fun x =>
  Build_RuntimeEventEnvelope (v_SessionID x) (v_ThreadID x) (v_TurnID x) (v_AgentID x)
    (v_ParentSessionID x) (v_ParentThreadID x) (v_ParentAgentID x) (v_ParentToolUseID x)
    (v_Sequence x) (v_Timestamp x) (v_CausationID x) (v_AgentGeneration x)
    (v_GoalID x) (v_GoalObjectiveRevision x) (v_GoalRootSessionID x) (v_GoalRootThreadID x)
    (v_GoalRootAgentID x) (v_GoalTurnID x).

Definition empty_envelope : RuntimeEventEnvelope := {|
  v_SessionID := []; v_ThreadID := []; v_TurnID := []; v_AgentID := [];
  v_ParentSessionID := []; v_ParentThreadID := []; v_ParentAgentID := []; v_ParentToolUseID := [];
  v_Sequence := 0; v_Timestamp := 0; v_CausationID := []; v_AgentGeneration := 0;
  v_GoalID := []; v_GoalObjectiveRevision := 0; v_GoalRootSessionID := []; v_GoalRootThreadID := [];
  v_GoalRootAgentID := []; v_GoalTurnID := [] |}.

(** ** Canonical projections *)

Definition CanonicalProjectionVersion : Z := 1.

Inductive CanonicalProjectionKind :=
| CanonicalProjectionAssistantDelta | CanonicalProjectionToolStart | CanonicalProjectionToolInput
| CanonicalProjectionToolProgress | CanonicalProjectionToolTerminal | CanonicalProjectionOther (s : bytes).
#[export] Instance CanonicalProjectionKind_eq_dec : EqDecision CanonicalProjectionKind.
Proof. solve_decision. Defined.

Definition projection_kind_string (k : CanonicalProjectionKind) : bytes :=
  match k with
  | CanonicalProjectionAssistantDelta => lit "assistant_delta" | CanonicalProjectionToolStart => lit "tool_start"
  | CanonicalProjectionToolInput => lit "tool_input" | CanonicalProjectionToolProgress => lit "tool_progress"
  | CanonicalProjectionToolTerminal => lit "tool_terminal" | CanonicalProjectionOther s => s
  end.

Record CanonicalAssistantPayload := { ca_MessageID : bytes; ca_Delta : bytes }.
Record CanonicalToolPayload := {
  ct_ToolCallID : bytes; ct_ToolName : bytes; ct_EffectiveInput : bytes; ct_Content : bytes; ct_Outcome : bytes;
  ct_RawOutput : bytes
}.
Record CanonicalProjectionEvent := {
  cp_Version : Z; cp_Kind : CanonicalProjectionKind; cp_Assistant : option CanonicalAssistantPayload;
  cp_Tool : option CanonicalToolPayload
}.

Inductive projection_error :=
| ProjectionVersion | ProjectionKind | ProjectionPayloadUnion | ProjectionMessageID | ProjectionDelta
| ProjectionToolCallID | ProjectionToolName | ProjectionOutcome | ProjectionEffectiveInput | ProjectionRawOutput
| ProjectionIrrelevantField.

Section projection.
Context `{RuntimeJSON}.

Definition canonicalProjectionJSONObject (raw : bytes) : bool :=
  negb (raw ==b []) && json_valid raw && json_object raw.

Definition CanonicalAssistantPayload_validate (p : CanonicalAssistantPayload) : option projection_error :=
  first_error [(ca_MessageID p ==b [], ProjectionMessageID); (ca_Delta p ==b [], ProjectionDelta)].

Definition CanonicalToolPayload_validate (p : CanonicalToolPayload) (kind : CanonicalProjectionKind)
    : option projection_error :=
  if ct_ToolCallID p ==b [] then Some ProjectionToolCallID else
  match kind with
  | CanonicalProjectionToolStart => first_error [
      (ct_ToolName p ==b [], ProjectionToolName);
      ((ct_EffectiveInput p <>b []) && negb (canonicalProjectionJSONObject (ct_EffectiveInput p)),
       ProjectionEffectiveInput);
      ((ct_Content p <>b []) || (ct_Outcome p <>b []) || (ct_RawOutput p <>b []), ProjectionIrrelevantField)]
  | CanonicalProjectionToolInput => first_error [
      (negb (canonicalProjectionJSONObject (ct_EffectiveInput p)), ProjectionEffectiveInput);
      ((ct_ToolName p <>b []) || (ct_Content p <>b []) || (ct_Outcome p <>b []) || (ct_RawOutput p <>b []),
       ProjectionIrrelevantField)]
  | CanonicalProjectionToolProgress => first_error [
      ((ct_ToolName p <>b []) || (ct_EffectiveInput p <>b []) || (ct_Outcome p <>b []) || (ct_RawOutput p <>b []),
       ProjectionIrrelevantField)]
  | CanonicalProjectionToolTerminal => first_error [
      ((ct_Outcome p <>b lit "completed") && (ct_Outcome p <>b lit "failed"), ProjectionOutcome);
      ((ct_RawOutput p <>b []) && negb (json_valid (ct_RawOutput p)), ProjectionRawOutput);
      ((ct_ToolName p <>b []) || (ct_EffectiveInput p <>b []) || (ct_Content p <>b []), ProjectionIrrelevantField)]
  | _ => None
  end.

Definition CanonicalProjectionEvent_Validate (e : CanonicalProjectionEvent) : option projection_error :=
  if negb (cp_Version e =? CanonicalProjectionVersion) then Some ProjectionVersion else
  match cp_Kind e with
  | CanonicalProjectionAssistantDelta =>
      match cp_Assistant e, cp_Tool e with
      | Some a, None => CanonicalAssistantPayload_validate a
      | _, _ => Some ProjectionPayloadUnion
      end
  | CanonicalProjectionOther _ => Some ProjectionKind
  | kind =>
      match cp_Tool e, cp_Assistant e with
      | Some t, None => CanonicalToolPayload_validate t kind
      | _, _ => Some ProjectionPayloadUnion
      end
  end.
End projection.

(** ** Worktrees *)

Inductive WorktreeState :=
| StateCreating | StateReady | StateRetained | StateRemoving | StateRemoved | StateFailed | StateCleanupFailed
| WorktreeStateOther (s : bytes).
#[export] Instance WorktreeState_eq_dec : EqDecision WorktreeState.
Proof. solve_decision. Defined.

Definition worktree_state_string (s : WorktreeState) : bytes :=
  match s with
  | StateCreating => lit "Creating" | StateReady => lit "Ready" | StateRetained => lit "Retained"
  | StateRemoving => lit "Removing" | StateRemoved => lit "Removed" | StateFailed => lit "Failed"
  | StateCleanupFailed => lit "CleanupFailed" | WorktreeStateOther s => s
  end.

Definition OwnerAgent : bytes := lit "agent".
Definition RecoveryInspectOnly : bytes := lit "inspect_only".
Definition RecordVersion : Z := 1.

Record Owner := {
  o_Kind : bytes; o_ID : bytes; o_SessionID : bytes; o_ThreadID : bytes; o_ParentSessionID : bytes;
  o_ParentThreadID : bytes; o_ParentAgentID : bytes; o_ParentToolUseID : bytes
}.

(** The dirty reports of a record are not read by its checks. *)
Record WorktreeRecord := {
  w_Version : Z; w_ID : bytes; w_Owner : Owner; w_RepositoryIdentity : bytes; w_RepoRoot : bytes; w_Path : bytes;
  w_Branch : bytes; w_BaseCommit : bytes; w_State : WorktreeState; w_Revision : Z; w_CreatedAt : Z; w_UpdatedAt : Z;
  w_LastErrorCategory : bytes; w_LastError : bytes
}.

Record RecoveryRecord := { rr_Record : WorktreeRecord; rr_Disposition : bytes; rr_Diagnostic : bytes }.

Inductive worktree_error :=
| OwnerKindUnsupported | OwnerIDRequired | OwnerSessionRequired | OwnerThreadRequired | RecordVersionUnsupported
| RecordIDRequired | RepoRootRequired | PathRequired | BranchRequired | StateUnknown | RevisionRequired
| TimestampsRequired | RepositoryIdentityIncomplete.

Definition Owner_Validate (o : Owner) : option worktree_error :=
  first_error [
    (o_Kind o <>b OwnerAgent, OwnerKindUnsupported); (blank (o_ID o), OwnerIDRequired);
    (blank (o_SessionID o), OwnerSessionRequired); (blank (o_ThreadID o), OwnerThreadRequired)].

Definition knownState (s : WorktreeState) : bool :=
  match s with WorktreeStateOther _ => false | _ => true end.

Definition WorktreeRecord_Validate (r : WorktreeRecord) : option worktree_error :=
  if negb (w_Version r =? RecordVersion) then Some RecordVersionUnsupported else
  if blank (w_ID r) then Some RecordIDRequired else
  match Owner_Validate (w_Owner r) with
  | Some e => Some e
  | None => first_error [
      (blank (w_RepoRoot r), RepoRootRequired); (blank (w_Path r), PathRequired); (blank (w_Branch r), BranchRequired);
      (negb (knownState (w_State r)), StateUnknown); (w_Revision r =? 0, RevisionRequired);
      ((w_CreatedAt r =? 0) || (w_UpdatedAt r =? 0), TimestampsRequired);
      (match w_State r with
       | StateReady | StateRetained | StateRemoving | StateRemoved | StateCleanupFailed =>
           (w_RepositoryIdentity r ==b []) || (w_BaseCommit r ==b [])
       | _ => false
       end, RepositoryIdentityIncomplete)]
  end.

(** The lifecycle of a durable record; the empty state precedes its creation. *)
Definition validTransition (from to : WorktreeState) : bool :=
  match from with
  | WorktreeStateOther s => (s ==b []) && (to ==b StateCreating)
  | StateCreating => (to ==b StateReady) || (to ==b StateFailed)
  | StateReady => (to ==b StateRetained) || (to ==b StateRemoving)
  | StateRetained => to ==b StateRemoving
  | StateRemoving => (to ==b StateRemoved) || (to ==b StateCleanupFailed)
  | StateCleanupFailed => to ==b StateRemoving
  | StateRemoved | StateFailed => false
  end.

(** ** The goal an event carries *)

(** The phases that control requests publish are those of [GoalService]. *)
Inductive RuntimeGoalPhase :=
| ControlPhase (p : GoalLifecyclePhase)
| GoalLifecycleTurnStarted | GoalLifecyclePermissionWaiting | GoalLifecyclePermissionResumed
| GoalLifecycleChildWaiting | GoalLifecycleChildResumed | GoalLifecycleCompletionRequested
| GoalLifecycleBlockerReported | GoalLifecycleBlocked | GoalLifecycleTurnFinished | GoalLifecycleUsageRecorded
| GoalLifecycleUsageLimited | GoalLifecycleBudgetLimited | GoalLifecycleUsageAdmissionReleased
| GoalPhaseOther (s : bytes).

#[export] Instance GoalLifecyclePhase_eq_dec : EqDecision GoalLifecyclePhase.
Proof. solve_decision. Defined.
#[export] Instance RuntimeGoalPhase_eq_dec : EqDecision RuntimeGoalPhase.
Proof. solve_decision. Defined.

Definition goal_phase_string (p : RuntimeGoalPhase) : bytes :=
  match p with
  | ControlPhase GoalLifecycleCreated => lit "created"
  | ControlPhase GoalLifecycleObjectiveEdited => lit "objective_edited"
  | ControlPhase GoalLifecyclePaused => lit "paused" | ControlPhase GoalLifecycleResumed => lit "resumed"
  | ControlPhase GoalLifecycleBudgetUpdated => lit "budget_updated"
  | ControlPhase GoalLifecycleCleared => lit "cleared" | GoalLifecycleTurnStarted => lit "turn_started"
  | GoalLifecyclePermissionWaiting => lit "permission_waiting"
  | GoalLifecyclePermissionResumed => lit "permission_resumed" | GoalLifecycleChildWaiting => lit "child_waiting"
  | GoalLifecycleChildResumed => lit "child_resumed" | GoalLifecycleCompletionRequested => lit "completion_requested"
  | GoalLifecycleBlockerReported => lit "blocker_reported" | GoalLifecycleBlocked => lit "blocked"
  | GoalLifecycleTurnFinished => lit "turn_finished" | GoalLifecycleUsageRecorded => lit "usage_recorded"
  | GoalLifecycleUsageLimited => lit "usage_limited" | GoalLifecycleBudgetLimited => lit "budget_limited"
  | GoalLifecycleUsageAdmissionReleased => lit "usage_admission_released" | GoalPhaseOther s => s
  end.

Record GoalUsageAdmissionSnapshot := {
  as_Version : Z; as_LedgerRevision : Z; as_GoalID : bytes; as_ObjectiveRevision : Z;
  as_RootSessionID : bytes; as_RootThreadID : bytes; as_RootAgentID : bytes;
  as_ExecutingSessionID : bytes; as_ExecutingThreadID : bytes; as_ExecutingAgentID : bytes;
  as_ExecutingAgentGeneration : Z; as_GoalTurnID : bytes; as_LogicalRoundID : bytes; as_ProviderCallID : bytes;
  as_AdmittedAt : Z
}.

Record GoalSnapshot := {
  n_GoalID : bytes; n_Objective : bytes; n_ObjectiveRevision : Z; n_Status : bytes; n_StatusReasonCode : bytes;
  n_StatusReason : bytes; n_Revision : Z; n_TokenBudget : option Z; n_TokensUsed : Z; n_UsageLedgerRevision : Z;
  n_UsageCoverage : bytes; n_PendingUsageAdmission : option GoalUsageAdmissionSnapshot; n_RootActiveTimeMillis : Z;
  n_ContinuationOrdinal : Z; n_LastGoalTurnID : bytes; n_LastTerminalSequence : Z; n_PendingCompleteTurnID : bytes;
  n_PendingCompleteObjectiveRevision : Z; n_BlockerKey : bytes; n_BlockerTurnIDs : list bytes; n_CreatedAt : Z;
  n_UpdatedAt : Z; n_Available : bool
}.

Definition goalUsageCoverage (s : goalState) : bytes :=
  if g_unavailable s then lit "unavailable" else
  if bool_decide (is_Some (g_PendingUsageAdmission s)) then lit "pending" else
  if g_Status s ==b goalStatusUsageLimited then lit "incomplete" else lit "complete".

Definition goalUsageAdmissionSnapshot (a : goalUsageAdmission) : GoalUsageAdmissionSnapshot := {|
  as_Version := a_Version a; as_LedgerRevision := a_LedgerRevision a; as_GoalID := a_GoalID a;
  as_ObjectiveRevision := a_ObjectiveRevision a; as_RootSessionID := a_RootSessionID a;
  as_RootThreadID := a_RootThreadID a; as_RootAgentID := a_RootAgentID a;
  as_ExecutingSessionID := a_ExecutingSessionID a; as_ExecutingThreadID := a_ExecutingThreadID a;
  as_ExecutingAgentID := a_ExecutingAgentID a; as_ExecutingAgentGeneration := a_ExecutingAgentGeneration a;
  as_GoalTurnID := a_GoalTurnID a; as_LogicalRoundID := a_LogicalRoundID a; as_ProviderCallID := a_ProviderCallID a;
  as_AdmittedAt := a_AdmittedAt a |}.

Definition goalUsageAdmissionFromSnapshot (a : GoalUsageAdmissionSnapshot) : goalUsageAdmission := {|
  a_Version := as_Version a; a_LedgerRevision := as_LedgerRevision a; a_GoalID := as_GoalID a;
  a_ObjectiveRevision := as_ObjectiveRevision a; a_RootSessionID := as_RootSessionID a;
  a_RootThreadID := as_RootThreadID a; a_RootAgentID := as_RootAgentID a;
  a_ExecutingSessionID := as_ExecutingSessionID a; a_ExecutingThreadID := as_ExecutingThreadID a;
  a_ExecutingAgentID := as_ExecutingAgentID a; a_ExecutingAgentGeneration := as_ExecutingAgentGeneration a;
  a_GoalTurnID := as_GoalTurnID a; a_LogicalRoundID := as_LogicalRoundID a; a_LogicalRequestID := [];
  a_ModelAttemptID := []; a_ModelAttemptIndex := 0; a_ModelProfile := []; a_ModelRetryIndex := 0;
  a_ProviderCallID := as_ProviderCallID a; a_AdmittedAt := as_AdmittedAt a |}.

Definition goalSnapshotFromState (s : goalState) : GoalSnapshot := {|
  n_GoalID := g_GoalID s; n_Objective := g_Objective s; n_ObjectiveRevision := g_ObjectiveRevision s;
  n_Status := goalStatus_string (g_Status s); n_StatusReasonCode := g_StatusReasonCode s;
  n_StatusReason := g_StatusReason s; n_Revision := g_Revision s; n_TokenBudget := g_TokenBudget s;
  n_TokensUsed := g_TokensUsed s; n_UsageLedgerRevision := g_UsageLedgerRevision s;
  n_UsageCoverage := goalUsageCoverage s;
  n_PendingUsageAdmission := goalUsageAdmissionSnapshot <$> g_PendingUsageAdmission s;
  n_RootActiveTimeMillis := g_RootActiveTimeMillis s; n_ContinuationOrdinal := g_ContinuationOrdinal s;
  n_LastGoalTurnID := g_LastGoalTurnID s; n_LastTerminalSequence := g_LastTerminalSequence s;
  n_PendingCompleteTurnID := g_PendingCompleteTurnID s;
  n_PendingCompleteObjectiveRevision := g_PendingCompleteObjectiveRevision s; n_BlockerKey := g_BlockerKey s;
  n_BlockerTurnIDs := g_BlockerTurnIDs s; n_CreatedAt := g_CreatedAt s; n_UpdatedAt := g_UpdatedAt s;
  n_Available := negb (g_unavailable s) |}.

Definition goalStateFromSnapshot (n : GoalSnapshot) : goalState := {|
  g_GoalID := n_GoalID n; g_Objective := n_Objective n; g_ObjectiveRevision := n_ObjectiveRevision n;
  g_Status := goalStatus_of (n_Status n); g_StatusReasonCode := n_StatusReasonCode n;
  g_StatusReason := n_StatusReason n; g_Revision := n_Revision n; g_TokenBudget := n_TokenBudget n;
  g_TokensUsed := n_TokensUsed n; g_UsageLedgerRevision := n_UsageLedgerRevision n;
  g_RootActiveTimeMillis := n_RootActiveTimeMillis n; g_ContinuationOrdinal := n_ContinuationOrdinal n;
  g_Continuation := None; g_LastGoalTurnID := n_LastGoalTurnID n; g_LastTerminalSequence := n_LastTerminalSequence n;
  g_PendingCompleteTurnID := n_PendingCompleteTurnID n;
  g_PendingCompleteObjectiveRevision := n_PendingCompleteObjectiveRevision n;
  g_PendingUsageAdmission := goalUsageAdmissionFromSnapshot <$> n_PendingUsageAdmission n;
  g_BlockerKey := n_BlockerKey n; g_BlockerTurnIDs := n_BlockerTurnIDs n; g_CreatedAt := n_CreatedAt n;
  g_UpdatedAt := n_UpdatedAt n; g_unavailable := negb (n_Available n);
  g_unavailablePersistedRepresentation := None |}.

Record GoalLifecycleEvent := { gl_Phase : RuntimeGoalPhase; gl_Goal : GoalSnapshot }.
Definition goalStateFromLifecycleEvent (e : GoalLifecycleEvent) : goalState := goalStateFromSnapshot (gl_Goal e).

(** ** Payloads *)

Record ModelAttemptEvent := {
  ma_AttemptID : bytes; ma_AttemptIndex : Z; ma_Profile : bytes; ma_Phase : bytes; ma_FailureClass : bytes
}.

Inductive CommandResultStatus :=
| CommandResultSucceeded | CommandResultFailed | CommandResultUnsupported | CommandStatusOther (s : bytes).
Definition command_status_string (s : CommandResultStatus) : bytes :=
  match s with
  | CommandResultSucceeded => lit "succeeded" | CommandResultFailed => lit "failed"
  | CommandResultUnsupported => lit "unsupported" | CommandStatusOther s => s
  end.
Record CommandResultEvent := {
  cr_Command : bytes; cr_Action : bytes; cr_Status : CommandResultStatus; cr_Output : bytes; cr_Error : bytes;
  cr_FollowUpPrompt : bytes
}.

Record ToolProgressEvent := { tp_ToolName : bytes; tp_ToolUseID : bytes; tp_Content : bytes; tp_IsFinal : bool }.

Record TaskProgressActivity := { ac_ToolName : bytes; ac_Description : bytes; ac_IsSearch : bool; ac_IsRead : bool }.
Record TaskProgressEvent := {
  pr_TaskID : bytes; pr_ToolUseID : bytes; pr_Description : bytes; pr_TotalTokens : Z; pr_ToolUses : Z;
  pr_DurationMS : Z; pr_LastToolName : bytes; pr_Summary : bytes; pr_RecentActivities : list TaskProgressActivity
}.

Record AgentLifecycleEvent := {
  al_Phase : bytes; al_Name : bytes; al_Task : bytes; al_Description : bytes; al_AgentType : bytes; al_Model : bytes;
  al_PermissionMode : bytes; al_Isolation : bytes; al_CWD : bytes; al_WorktreePath : bytes;
  al_WorktreeBranch : bytes; al_TranscriptPath : bytes; al_OutputFile : bytes; al_Status : bytes; al_Error : bytes;
  al_Generation : Z; al_StartedAt : Z
}.

Record TaskLifecycleEvent := {
  tl_TaskID : bytes; tl_Subject : bytes; tl_Description : bytes; tl_ActiveForm : bytes; tl_Status : bytes;
  tl_Owner : bytes; tl_UpdatedAt : Z
}.

Record WorktreeLifecycleEvent := {
  wl_RecordID : bytes; wl_OwnerKind : bytes; wl_OwnerID : bytes; wl_FromState : WorktreeState;
  wl_State : WorktreeState; wl_RecordRevision : Z; wl_RepositoryIdentity : bytes; wl_RepoRoot : bytes;
  wl_Path : bytes; wl_Branch : bytes; wl_BaseCommit : bytes; wl_LastErrorCategory : bytes; wl_LastError : bytes
}.

Inductive PermissionDecisionConstraint :=
| PermissionDecisionUnconstrained | PermissionAllowOnceOnly | DecisionConstraintOther (s : bytes).
#[export] Instance PermissionDecisionConstraint_eq_dec : EqDecision PermissionDecisionConstraint.
Proof. solve_decision. Defined.
Definition PermissionDecisionConstraint_valid (c : PermissionDecisionConstraint) : bool :=
  (c ==b PermissionDecisionUnconstrained) || (c ==b PermissionAllowOnceOnly).

Definition PermissionInteractionKindPermission : bytes := lit "permission".
Definition PermissionInteractionKindPlanApproval : bytes := lit "plan_approval".

Record PlanApprovalRequest := {
  pa_RequestID : bytes; pa_PlanRevision : Z; pa_PlanFileIdentity : bytes; pa_InitialPlanDigest : bytes;
  pa_ReturnMode : bytes
}.
Record PermissionRequestEvent := {
  pq_ToolName : bytes; pq_CanonicalToolName : bytes; pq_ToolUseID : bytes; pq_Input : gmap bytes any;
  pq_Message : bytes; pq_Source : bytes; pq_Kind : bytes; pq_Attempt : Z;
  pq_PlanApproval : option PlanApprovalRequest; pq_DecisionConstraint : PermissionDecisionConstraint
}.
(** Of the decision about a plan, its request and its revision. *)
Record PlanApprovalDecision := { pd_RequestID : bytes; pd_PlanRevision : Z }.
Record PermissionResolvedEvent := {
  ps_ToolUseID : bytes; ps_Decision : bytes; ps_Message : bytes; ps_Kind : bytes;
  ps_PlanApproval : option PlanApprovalDecision
}.

Record HookResponseEvent := { hr_HookID : bytes; hr_HookName : bytes; hr_StatusMessage : bytes; hr_Outcome : bytes }.
Record ClassifierStatusEvent := { cs_ToolName : bytes; cs_ToolUseID : bytes }.

Record PlanStateTransitionEvent := {
  pt_FromPhase : bytes; pt_Phase : bytes; pt_PermissionMode : bytes; pt_PlanFileIdentity : bytes;
  pt_ReturnMode : bytes; pt_ApprovalRequestID : bytes; pt_RequestID : bytes; pt_Revision : Z; pt_Source : bytes
}.

(** The error of a terminal by its text. *)
Record Terminal := { tm_Reason : bytes; tm_TurnCount : Z; tm_MaxTurns : Z; tm_Err : option bytes }.

Record QueryEvent := {
  q_Envelope :> RuntimeEventEnvelope; q_Type : QueryEventType; q_Message : option Message;
  q_TranscriptEntryID : bytes; q_AssistantMessage : option Message; q_ToolResultMessage : option Message;
  q_AttachmentMessage : option Message; q_CompactBoundaryMessage : option Message; q_TombstoneUUID : bytes;
  q_ModelAttempt : option ModelAttemptEvent; q_StreamEvent : option Message; q_ToolUseSummary : option bytes;
  q_CommandLifecycle : option bytes; q_CommandResult : option CommandResultEvent;
  q_ToolProgress : option ToolProgressEvent; q_TaskProgress : option TaskProgressEvent;
  q_AgentLifecycle : option AgentLifecycleEvent; q_TaskLifecycle : option TaskLifecycleEvent;
  q_WorktreeLifecycle : option WorktreeLifecycleEvent; q_PermissionRequest : option PermissionRequestEvent;
  q_PermissionResolved : option PermissionResolvedEvent; q_HookResponse : option HookResponseEvent;
  q_ClassifierStatus : option ClassifierStatusEvent; q_PlanStateTransition : option PlanStateTransitionEvent;
  q_GoalLifecycle : option GoalLifecycleEvent; q_TerminalInfo : option Terminal;
  q_CanonicalProjection : option CanonicalProjectionEvent
}.
#[export] Instance eta_QueryEvent : Eta QueryEvent := fun x =>
  Build_QueryEvent (q_Envelope x) (q_Type x) (q_Message x)
    (q_TranscriptEntryID x) (q_AssistantMessage x) (q_ToolResultMessage x)
    (q_AttachmentMessage x) (q_CompactBoundaryMessage x) (q_TombstoneUUID x)
    (q_ModelAttempt x) (q_StreamEvent x) (q_ToolUseSummary x)
    (q_CommandLifecycle x) (q_CommandResult x)
    (q_ToolProgress x) (q_TaskProgress x)
    (q_AgentLifecycle x) (q_TaskLifecycle x)
    (q_WorktreeLifecycle x) (q_PermissionRequest x)
    (q_PermissionResolved x) (q_HookResponse x)
    (q_ClassifierStatus x) (q_PlanStateTransition x)
    (q_GoalLifecycle x) (q_TerminalInfo x)
    (q_CanonicalProjection x).

(** An event without a payload. *)
Definition bare_event (v : RuntimeEventEnvelope) (type : QueryEventType) : QueryEvent := {|
  q_Envelope := v; q_Type := type; q_Message := None;
  q_TranscriptEntryID := []; q_AssistantMessage := None; q_ToolResultMessage := None;
  q_AttachmentMessage := None; q_CompactBoundaryMessage := None; q_TombstoneUUID := [];
  q_ModelAttempt := None; q_StreamEvent := None; q_ToolUseSummary := None;
  q_CommandLifecycle := None; q_CommandResult := None; q_ToolProgress := None; q_TaskProgress := None;
  q_AgentLifecycle := None; q_TaskLifecycle := None; q_WorktreeLifecycle := None; q_PermissionRequest := None;
  q_PermissionResolved := None; q_HookResponse := None; q_ClassifierStatus := None; q_PlanStateTransition := None;
  q_GoalLifecycle := None; q_TerminalInfo := None; q_CanonicalProjection := None |}.

(** ** Families *)

Inductive RuntimeEventFamily :=
| RuntimeFamilyThread | RuntimeFamilyTurnMessage | RuntimeFamilyTool | RuntimeFamilyAgent | RuntimeFamilyInteractive
| RuntimeFamilyPlanUsage | RuntimeFamilyTerminal | RuntimeFamilyOther.

Definition Family (e : QueryEvent) : RuntimeEventFamily :=
  if (q_Type e ==b EventCanonicalProjection)
     && match q_CanonicalProjection e with
        | Some p => cp_Kind p ==b CanonicalProjectionAssistantDelta
        | None => false
        end
  then RuntimeFamilyTurnMessage else
  match q_Type e with
  | EventStreamRequestStart => RuntimeFamilyThread
  | EventAssistant | EventStream | EventAttachment | EventTombstone | EventModelAttempt | EventCommandResult =>
      RuntimeFamilyTurnMessage
  | EventToolResult | EventToolProgress | EventToolUseSummary | EventCanonicalProjection => RuntimeFamilyTool
  | EventTaskProgress | EventAgentLifecycle | EventTaskLifecycle | EventWorktreeLifecycle => RuntimeFamilyAgent
  | EventPermissionRequest | EventPermissionResolved | EventPermissionReview => RuntimeFamilyInteractive
  | EventCompactBoundary | EventMaxTurnsReached | EventPlanStateTransition | EventGoalLifecycle =>
      RuntimeFamilyPlanUsage
  | EventTerminal | EventUserInterruption => RuntimeFamilyTerminal
  | _ => RuntimeFamilyOther
  end.

(** What adapters must not drop, and what they may replace by a newer event. *)
Definition IsLosslessRuntimeEvent (t : QueryEventType) : bool :=
  match t with
  | EventAgentLifecycle | EventCommandResult | EventPermissionRequest | EventPermissionResolved
  | EventPlanStateTransition | EventGoalLifecycle | EventWorktreeLifecycle | EventCanonicalProjection
  | EventModelAttempt | EventTerminal => true
  | _ => false
  end.

Definition IsCoalescibleRuntimeEvent (t : QueryEventType) : bool :=
  match t with
  | EventStream | EventToolProgress | EventTaskProgress | EventHookStatus | EventClassifierStatus => true
  | _ => false
  end.

Lemma lossless_not_coalescible t : IsLosslessRuntimeEvent t && IsCoalescibleRuntimeEvent t = false.
Proof. by destruct t. Qed.
