(* ===== verification/RuntimeStore.v ===== *)
(** * The store of runtime snapshots

    [RuntimeStateStore] of [src/engine/runtime_state.go]: it folds the ordered
    events of every thread into snapshots of the threads, of the agents and
    their executions, of the tasks and of the worktrees, each kept within a
    limit.  [Apply] first checks the event against the snapshots and then
    reduces it; the restore operations install what was saved elsewhere.  The
    sequencer of [src/engine/runtime_events.go] numbers the events.

    The operations hold a lock from their first access to their last, so each
    is one step; a store that is nil is not modelled.  Snapshots are handed out
    as copies, which a value is.  [sort.Slice] followed by the first element is
    [least]: the orders are strict and total on the keys, so neither the order
    in which a map is traversed nor the sort matters
    ([RuntimeStoreFacts.least_perm]). *)

From S2P Require Import Prelude GoStrings GoBase RunUsage InputCoordinator RuntimeItem ToolSchedule Messages GoalData GoalPersistence GoalService RuntimeEvents.

Open Scope Z_scope.

(** ** Snapshots *)

Record RuntimeStoreLimits := {
  EventsPerThread : Z; MessagesPerThread : Z; ToolsPerThread : Z; InteractionsPerThread : Z; Threads : Z; Agents : Z;
  Tasks : Z; Worktrees : Z
}.

Inductive RuntimeThreadStatus :=
| RuntimeThreadRunning | RuntimeThreadPaused | RuntimeThreadWaitingInput | RuntimeThreadCompleted
| RuntimeThreadFailed | RuntimeThreadAborted | RuntimeThreadUnset.
#[export] Instance RuntimeThreadStatus_eq_dec : EqDecision RuntimeThreadStatus.
Proof. solve_decision. Defined.

Definition thread_status_string (s : RuntimeThreadStatus) : bytes :=
  match s with
  | RuntimeThreadRunning => lit "running" | RuntimeThreadPaused => lit "paused"
  | RuntimeThreadWaitingInput => lit "waiting_input" | RuntimeThreadCompleted => lit "completed"
  | RuntimeThreadFailed => lit "failed" | RuntimeThreadAborted => lit "aborted" | RuntimeThreadUnset => []
  end.

Record RuntimeTerminalSnapshot := {
  rt_TurnID : bytes; rt_Reason : bytes; rt_TurnCount : Z; rt_MaxTurns : Z; rt_Error : bytes; rt_Sequence : Z;
  rt_Timestamp : Z
}.

Record RuntimeInteractionSnapshot := {
  ri_ID : bytes; ri_Kind : bytes; ri_ToolName : bytes; ri_CanonicalToolName : bytes; ri_Source : bytes;
  ri_Message : bytes; ri_Input : gmap bytes any; ri_InputTruncated : bool; ri_Attempt : Z; ri_PlanRevision : Z;
  ri_PlanFile : bytes; ri_PlanInitialDigest : bytes; ri_PlanReturnMode : bytes;
  ri_DecisionConstraint : PermissionDecisionConstraint; ri_TurnID : bytes; ri_Sequence : Z; ri_RequestedAt : Z
}.

Record RuntimeToolCallSnapshot := { rc_ID : bytes; rc_Name : bytes; rc_InputPreview : bytes }.

Record RuntimeMessageSnapshot := {
  rm_ID : bytes; rm_TranscriptEntryID : bytes; rm_ModelAttemptID : bytes; rm_TurnID : bytes; rm_Sequence : Z;
  rm_Role : bytes; rm_Content : bytes; rm_ReasoningContent : bytes; rm_ToolCallID : bytes; rm_ToolName : bytes;
  rm_ToolCalls : list RuntimeToolCallSnapshot; rm_Completed : bool; rm_Timestamp : Z
}.
#[export] Instance eta_RuntimeMessageSnapshot : Eta RuntimeMessageSnapshot := fun x =>
  Build_RuntimeMessageSnapshot (rm_ID x) (rm_TranscriptEntryID x) (rm_ModelAttemptID x) (rm_TurnID x) (rm_Sequence x)
    (rm_Role x) (rm_Content x) (rm_ReasoningContent x) (rm_ToolCallID x) (rm_ToolName x) (rm_ToolCalls x)
    (rm_Completed x) (rm_Timestamp x).

Record RuntimeToolSnapshot := {
  ro_ID : bytes; ro_Name : bytes; ro_Status : bytes; ro_InputPreview : bytes; ro_ProgressPreview : bytes;
  ro_OutputPreview : bytes; ro_TurnID : bytes; ro_Sequence : Z; ro_UpdatedAt : Z
}.
#[export] Instance eta_RuntimeToolSnapshot : Eta RuntimeToolSnapshot := fun x =>
  Build_RuntimeToolSnapshot (ro_ID x) (ro_Name x) (ro_Status x) (ro_InputPreview x) (ro_ProgressPreview x)
    (ro_OutputPreview x) (ro_TurnID x) (ro_Sequence x) (ro_UpdatedAt x).
Definition no_tool : RuntimeToolSnapshot := {|
  ro_ID := []; ro_Name := []; ro_Status := []; ro_InputPreview := []; ro_ProgressPreview := [];
  ro_OutputPreview := []; ro_TurnID := []; ro_Sequence := 0; ro_UpdatedAt := 0 |}.

Record RuntimePlanSnapshot := {
  rp_Phase : bytes; rp_PermissionMode : bytes; rp_PlanFileIdentity : bytes; rp_ReturnMode : bytes;
  rp_ApprovalRequestID : bytes; rp_RequestID : bytes; rp_Revision : Z; rp_Sequence : Z; rp_UpdatedAt : Z
}.

Record RuntimeAgentProgressSnapshot := {
  rg_ToolUses : Z; rg_TotalTokens : Z; rg_DurationMS : Z; rg_LastToolName : bytes; rg_Summary : bytes;
  rg_RecentActivities : list TaskProgressActivity
}.

Record RuntimeAgentSnapshot := {
  ra_AgentID : bytes; ra_SessionID : bytes; ra_ThreadID : bytes; ra_ParentSessionID : bytes;
  ra_ParentThreadID : bytes; ra_ParentAgentID : bytes; ra_ParentToolUseID : bytes; ra_Name : bytes; ra_Task : bytes;
  ra_AgentType : bytes; ra_Model : bytes; ra_PermissionMode : bytes; ra_Isolation : bytes; ra_CWD : bytes;
  ra_WorktreePath : bytes; ra_WorktreeBranch : bytes; ra_TranscriptPath : bytes; ra_OutputFile : bytes;
  ra_Description : bytes; ra_Status : bytes; ra_DisplayMode : bytes; ra_Error : bytes; ra_Generation : Z;
  ra_GoalID : bytes; ra_GoalObjectiveRevision : Z; ra_GoalRootSessionID : bytes; ra_GoalRootThreadID : bytes;
  ra_GoalRootAgentID : bytes; ra_GoalTurnID : bytes; ra_DeliveredCompletionID : bytes;
  ra_DeliveredTerminalSequence : Z; ra_Progress : RuntimeAgentProgressSnapshot; ra_StartedAt : Z; ra_UpdatedAt : Z;
  ra_CompletedAt : Z
}.
#[export] Instance eta_RuntimeAgentSnapshot : Eta RuntimeAgentSnapshot := fun x =>
  Build_RuntimeAgentSnapshot (ra_AgentID x) (ra_SessionID x) (ra_ThreadID x) (ra_ParentSessionID x)
    (ra_ParentThreadID x) (ra_ParentAgentID x) (ra_ParentToolUseID x) (ra_Name x) (ra_Task x)
    (ra_AgentType x) (ra_Model x) (ra_PermissionMode x) (ra_Isolation x) (ra_CWD x)
    (ra_WorktreePath x) (ra_WorktreeBranch x) (ra_TranscriptPath x) (ra_OutputFile x)
    (ra_Description x) (ra_Status x) (ra_DisplayMode x) (ra_Error x) (ra_Generation x)
    (ra_GoalID x) (ra_GoalObjectiveRevision x) (ra_GoalRootSessionID x) (ra_GoalRootThreadID x)
    (ra_GoalRootAgentID x) (ra_GoalTurnID x) (ra_DeliveredCompletionID x)
    (ra_DeliveredTerminalSequence x) (ra_Progress x) (ra_StartedAt x) (ra_UpdatedAt x)
    (ra_CompletedAt x).
Definition no_agent : RuntimeAgentSnapshot := {|
  ra_AgentID := []; ra_SessionID := []; ra_ThreadID := []; ra_ParentSessionID := [];
  ra_ParentThreadID := []; ra_ParentAgentID := []; ra_ParentToolUseID := []; ra_Name := []; ra_Task := [];
  ra_AgentType := []; ra_Model := []; ra_PermissionMode := []; ra_Isolation := []; ra_CWD := [];
  ra_WorktreePath := []; ra_WorktreeBranch := []; ra_TranscriptPath := []; ra_OutputFile := [];
  ra_Description := []; ra_Status := []; ra_DisplayMode := []; ra_Error := []; ra_Generation := 0;
  ra_GoalID := []; ra_GoalObjectiveRevision := 0; ra_GoalRootSessionID := []; ra_GoalRootThreadID := [];
  ra_GoalRootAgentID := []; ra_GoalTurnID := []; ra_DeliveredCompletionID := [];
  ra_DeliveredTerminalSequence := 0;
  ra_Progress := {| rg_ToolUses := 0; rg_TotalTokens := 0; rg_DurationMS := 0; rg_LastToolName := []; rg_Summary := [];
                    rg_RecentActivities := [] |};
  ra_StartedAt := 0; ra_UpdatedAt := 0; ra_CompletedAt := 0 |}.

(** The agent and the generation of an execution. *)
Definition RuntimeExecutionKey : Type := bytes * Z.

(** [Predispatch] is never set by the store. *)
Record RuntimeExecutionSnapshot := {
  rx_Key : RuntimeExecutionKey; rx_Agent : RuntimeAgentSnapshot; rx_ObservationOrdinal : Z; rx_OrdinalPresent : bool;
  rx_ReplayOnly : bool
}.
Definition no_execution : RuntimeExecutionSnapshot := {|
  rx_Key := ([], 0); rx_Agent := no_agent; rx_ObservationOrdinal := 0; rx_OrdinalPresent := false;
  rx_ReplayOnly := false |}.

Record runtimeExecutionLineage := {
  xl_SessionID : bytes; xl_ThreadID : bytes; xl_ParentSessionID : bytes; xl_ParentThreadID : bytes;
  xl_ParentAgentID : bytes; xl_ParentToolUseID : bytes
}.
#[export] Instance lineage_eq_dec : EqDecision runtimeExecutionLineage.
Proof. solve_decision. Defined.

Record RuntimeTaskSnapshot := {
  rk_TaskID : bytes; rk_Subject : bytes; rk_Description : bytes; rk_ActiveForm : bytes; rk_Status : bytes;
  rk_Owner : bytes; rk_CreatedAt : Z; rk_UpdatedAt : Z; rk_CompletedAt : Z
}.
Definition no_task : RuntimeTaskSnapshot := {|
  rk_TaskID := []; rk_Subject := []; rk_Description := []; rk_ActiveForm := []; rk_Status := []; rk_Owner := [];
  rk_CreatedAt := 0; rk_UpdatedAt := 0; rk_CompletedAt := 0 |}.

Record RuntimeWorktreeSnapshot := {
  rw_RecordID : bytes; rw_OwnerKind : bytes; rw_OwnerID : bytes; rw_State : WorktreeState;
  rw_RecoveryDisposition : bytes; rw_RecoveryDiagnostic : bytes; rw_RecordRevision : Z;
  rw_RepositoryIdentity : bytes; rw_RepoRoot : bytes; rw_Path : bytes; rw_Branch : bytes; rw_BaseCommit : bytes;
  rw_LastErrorCategory : bytes; rw_LastError : bytes; rw_Sequence : Z; rw_UpdatedAt : Z
}.
#[export] Instance RuntimeWorktreeSnapshot_eq_dec : EqDecision RuntimeWorktreeSnapshot.
Proof. solve_decision. Defined.

Record RuntimeEventRecord := {
  er_Envelope :> RuntimeEventEnvelope; er_Type : QueryEventType; er_Family : RuntimeEventFamily; er_ToolName : bytes;
  er_ToolUseID : bytes; er_Summary : bytes; er_TerminalReason : bytes; er_Command : bytes; er_CommandAction : bytes;
  er_CommandStatus : bytes; er_CommandError : bytes; er_CommandPrompt : bytes; er_ModelAttemptID : bytes;
  er_ModelProfile : bytes; er_ModelPhase : bytes; er_FailureClass : bytes
}.

Record RuntimeThread := {
  th_SessionID : bytes; th_ThreadID : bytes; th_AgentID : bytes; th_ParentSessionID : bytes;
  th_ParentThreadID : bytes; th_ParentAgentID : bytes; th_ParentToolUseID : bytes; th_AgentGeneration : Z;
  th_Status : RuntimeThreadStatus; th_ActiveTurnID : bytes; th_Revision : Z; th_LastSequence : Z; th_StartedAt : Z;
  th_TurnStartedAt : Z; th_ActiveDuration : Z; th_ActiveSince : Z; th_UpdatedAt : Z; th_CompletedAt : Z;
  th_DroppedEvents : Z; th_DroppedMessages : Z; th_Events : list RuntimeEventRecord;
  th_Messages : list RuntimeMessageSnapshot; th_LiveMessage : option RuntimeMessageSnapshot;
  th_Tools : gmap bytes RuntimeToolSnapshot; th_ToolOrder : list bytes;
  th_PendingInteractions : gmap bytes RuntimeInteractionSnapshot; th_Plan : option RuntimePlanSnapshot;
  th_Goal : option GoalSnapshot; th_LastTerminal : option RuntimeTerminalSnapshot
}.
#[export] Instance eta_RuntimeThread : Eta RuntimeThread := fun x =>
  Build_RuntimeThread (th_SessionID x) (th_ThreadID x) (th_AgentID x) (th_ParentSessionID x)
    (th_ParentThreadID x) (th_ParentAgentID x) (th_ParentToolUseID x) (th_AgentGeneration x)
    (th_Status x) (th_ActiveTurnID x) (th_Revision x) (th_LastSequence x) (th_StartedAt x)
    (th_TurnStartedAt x) (th_ActiveDuration x) (th_ActiveSince x) (th_UpdatedAt x) (th_CompletedAt x)
    (th_DroppedEvents x) (th_DroppedMessages x) (th_Events x)
    (th_Messages x) (th_LiveMessage x)
    (th_Tools x) (th_ToolOrder x)
    (th_PendingInteractions x) (th_Plan x)
    (th_Goal x) (th_LastTerminal x).
(** The zero value, from which the literals of the source start. *)
Definition no_thread : RuntimeThread := {|
  th_SessionID := []; th_ThreadID := []; th_AgentID := []; th_ParentSessionID := [];
  th_ParentThreadID := []; th_ParentAgentID := []; th_ParentToolUseID := []; th_AgentGeneration := 0;
  th_Status := RuntimeThreadUnset; th_ActiveTurnID := []; th_Revision := 0; th_LastSequence := 0; th_StartedAt := 0;
  th_TurnStartedAt := 0; th_ActiveDuration := 0; th_ActiveSince := 0; th_UpdatedAt := 0; th_CompletedAt := 0;
  th_DroppedEvents := 0; th_DroppedMessages := 0; th_Events := [];
  th_Messages := []; th_LiveMessage := None;
  th_Tools := ∅; th_ToolOrder := [];
  th_PendingInteractions := ∅; th_Plan := None; th_Goal := None; th_LastTerminal := None |}.

Record RuntimeStateStore := {
  limits : RuntimeStoreLimits; store_revision : Z; droppedThreads : Z; executionOrdinal : Z;
  evictedExecutionGenerations : Z; threads : gmap bytes RuntimeThread; agents : gmap bytes RuntimeAgentSnapshot;
  executions : gmap RuntimeExecutionKey RuntimeExecutionSnapshot;
  hiddenLiveExecutions : gmap RuntimeExecutionKey runtimeExecutionLineage; tasks : gmap bytes RuntimeTaskSnapshot;
  worktrees : gmap bytes RuntimeWorktreeSnapshot
}.
#[export] Instance eta_RuntimeStateStore : Eta RuntimeStateStore := fun x =>
  Build_RuntimeStateStore (limits x) (store_revision x) (droppedThreads x) (executionOrdinal x)
    (evictedExecutionGenerations x) (threads x) (agents x)
    (executions x)
    (hiddenLiveExecutions x) (tasks x)
    (worktrees x).

(** [normalizeRuntimeStoreLimits]: a limit is positive. *)
Definition limit_or (n d : Z) : Z := if n <=? 0 then d else n.
Definition normalizeRuntimeStoreLimits (l : RuntimeStoreLimits) : RuntimeStoreLimits := {|
  EventsPerThread := limit_or (EventsPerThread l) 256; MessagesPerThread := limit_or (MessagesPerThread l) 128;
  ToolsPerThread := limit_or (ToolsPerThread l) 64; InteractionsPerThread := limit_or (InteractionsPerThread l) 32;
  Threads := limit_or (Threads l) 128; Agents := limit_or (Agents l) 128; Tasks := limit_or (Tasks l) 128;
  Worktrees := limit_or (Worktrees l) 128 |}.

Definition NewRuntimeStateStore (l : RuntimeStoreLimits) : RuntimeStateStore := {|
  limits := normalizeRuntimeStoreLimits l; store_revision := 0; droppedThreads := 0; executionOrdinal := 0;
  evictedExecutionGenerations := 0; threads := ∅; agents := ∅; executions := ∅; hiddenLiveExecutions := ∅;
  tasks := ∅; worktrees := ∅ |}.

Inductive runtime_error :=
| NoSessionID | NoThreadID | NoTurnID | ZeroSequence | ZeroTimestamp | NoEventType
| IncompleteGoalIdentity | GoalChildWithoutGeneration | GoalRootWithGeneration | InvalidGoalTurnIdentity
| PermissionWithoutToolUse | InvalidDecisionConstraint | ConstraintForKind | IncompletePlanApproval
| ResolutionWithoutToolUse | IncompletePlanResolution | IncompletePlanTransition | IncompleteGoalLifecycle
| InvalidGoalSnapshot (e : goal_record_error) | GoalTurnConflict | GoalPhaseConflict | UnknownGoalPhase
| CommandWithoutIdentity | InvalidCommandStatus | NoProjection | InvalidProjection (e : projection_error)
| NoTerminalInfo | NoAgentMetadata | NoAgentGeneration | IncompleteWorktree
| FirstSequence | ResolvedBeforeRequest | ThreadIdentityChanged | GenerationChanged | SequenceGap
| TurnStillActive | FollowsTerminal | NotPending
| WorktreeNotFirst | WorktreeOwnerChanged | WorktreeLocationChanged | WorktreeRootChanged
| WorktreeRepositoryChanged | WorktreeBaseChanged | WorktreeFromState | WorktreeRevision | WorktreeRepeats
| InvalidWorktreeTransition
| StaleGoalAgent | StaleGoalClear | GoalReplaced | GoalRevisionNotNewer | GoalObjectiveRevisionJump
| GoalObjectiveOutsideEdit | GoalTimeBackwards
| TooManyInteractions | ThreadCapacity | ExpectedAgentLifecycle
| IncompleteAgentRestore | LineageChanged | InvalidWorktreeRecord (e : worktree_error) | RestoredWorktreeChanged
| IncompletePlanRestore | RestoreIdentity | PlanRestoreSession | ChildOwnsGoal | GoalRestoreIdentity.

(** ** The checks of an event on its own *)

Section validate.
Context `{!Digests, !GoalIdentityText, !RuntimeJSON}.

Definition validateGoalRuntimeIdentity (evt : QueryEvent) : option runtime_error :=
  let hasGoalIdentity := (v_GoalID evt <>b []) || negb (v_GoalObjectiveRevision evt =? 0)
    || (v_GoalRootSessionID evt <>b []) || (v_GoalRootThreadID evt <>b [])
    || (v_GoalRootAgentID evt <>b []) || (v_GoalTurnID evt <>b []) in
  if negb hasGoalIdentity then None else
  first_error [
    (negb (validGoalBindingText (v_GoalID evt) true) || (v_GoalObjectiveRevision evt =? 0)
     || negb (validGoalBindingText (v_GoalRootSessionID evt) true)
     || negb (validGoalBindingText (v_GoalRootThreadID evt) true)
     || negb (validGoalBindingText (v_GoalRootAgentID evt) false), IncompleteGoalIdentity);
    ((v_AgentID evt <>b []) && (v_AgentGeneration evt <=? 0), GoalChildWithoutGeneration);
    ((v_AgentID evt ==b []) && negb (v_AgentGeneration evt =? 0), GoalRootWithGeneration);
    ((v_GoalTurnID evt <>b []) && negb (validateGoalTurnID (v_GoalTurnID evt)), InvalidGoalTurnIdentity)].

Definition has_admission (goal : GoalSnapshot) : bool := bool_decide (is_Some (n_PendingUsageAdmission goal)).

(** Whether the snapshot agrees with the phase that is said to have led to it. *)
Definition goal_phase_agrees (evt : QueryEvent) (phase : RuntimeGoalPhase) (goal : GoalSnapshot) : bool :=
  let turn := v_GoalTurnID evt in
  let status s := n_Status goal ==b goalStatus_string s in
  let turns := n_BlockerTurnIDs goal in
  match phase with
  | ControlPhase GoalLifecyclePaused => status goalStatusPaused
  | ControlPhase GoalLifecycleResumed => status goalStatusActive
  | ControlPhase _ => true
  | GoalLifecycleTurnStarted | GoalLifecyclePermissionWaiting | GoalLifecyclePermissionResumed
  | GoalLifecycleChildWaiting | GoalLifecycleChildResumed => turn <>b []
  | GoalLifecycleCompletionRequested =>
      (turn <>b []) && (n_PendingCompleteTurnID goal ==b turn)
      && (n_PendingCompleteObjectiveRevision goal =? n_ObjectiveRevision goal)
  | GoalLifecycleBlockerReported =>
      (turn <>b []) && negb (status goalStatusBlocked) && (n_BlockerKey goal <>b []) && (last turns ==b Some turn)
  | GoalLifecycleBlocked =>
      (turn <>b []) && status goalStatusBlocked && (n_BlockerKey goal <>b []) && (length turns =? 3)%nat
      && (turns !! 2%nat ==b Some turn)
  | GoalLifecycleUsageRecorded | GoalLifecycleUsageAdmissionReleased =>
      (turn <>b []) && negb (has_admission goal) && (n_UsageCoverage goal ==b lit "complete")
      && negb ((phase ==b GoalLifecycleUsageRecorded) && (n_UsageLedgerRevision goal =? 0))
  | GoalLifecycleUsageLimited =>
      (turn <>b []) && status goalStatusUsageLimited && has_admission goal && (n_UsageCoverage goal ==b lit "pending")
  | GoalLifecycleBudgetLimited =>
      (turn <>b []) && status goalStatusBudgetLimited
      && match n_TokenBudget goal with Some budget => negb (n_TokensUsed goal <? budget) | None => false end
      && negb (has_admission goal) && (n_UsageCoverage goal ==b lit "complete")
  | GoalLifecycleTurnFinished =>
      (turn <>b []) && negb (v_Sequence evt =? MaxUint64) && (n_LastTerminalSequence goal =? v_Sequence evt + 1)
  | GoalPhaseOther _ => true
  end.

Definition validateGoalLifecycleEvent (evt : QueryEvent) (lifecycle : GoalLifecycleEvent) : option runtime_error :=
  first_error [
    (n_LastGoalTurnID (gl_Goal lifecycle) <>b v_GoalTurnID evt, GoalTurnConflict);
    (match gl_Phase lifecycle with GoalPhaseOther _ => true | _ => false end, UnknownGoalPhase);
    (negb (goal_phase_agrees evt (gl_Phase lifecycle) (gl_Goal lifecycle)), GoalPhaseConflict)].

Definition validateGoalEvent (evt : QueryEvent) (lifecycle : GoalLifecycleEvent) : option runtime_error :=
  let goal := gl_Goal lifecycle in
  if (gl_Phase lifecycle ==b GoalPhaseOther []) || blank (n_GoalID goal) || (n_ObjectiveRevision goal =? 0)
     || (n_Revision goal =? 0) || negb (n_Available goal) || (n_GoalID goal <>b v_GoalID evt)
     || negb (n_ObjectiveRevision goal =? v_GoalObjectiveRevision evt)
     || (v_SessionID evt <>b v_GoalRootSessionID evt) || (v_ThreadID evt <>b v_GoalRootThreadID evt)
     || (v_AgentID evt <>b v_GoalRootAgentID evt)
  then Some IncompleteGoalLifecycle else
  match persistedGoalState (goalStateFromLifecycleEvent lifecycle) ≫= validatePersistedGoalState with
  | Some e => Some (InvalidGoalSnapshot e)
  | None => validateGoalLifecycleEvent evt lifecycle
  end.

Definition validatePermissionRequest (r : PermissionRequestEvent) : option runtime_error :=
  first_error [
    (blank (pq_ToolUseID r), PermissionWithoutToolUse);
    (negb (PermissionDecisionConstraint_valid (pq_DecisionConstraint r)), InvalidDecisionConstraint);
    ((pq_Kind r <>b []) && (pq_Kind r <>b PermissionInteractionKindPermission)
     && (pq_DecisionConstraint r <>b PermissionDecisionUnconstrained), ConstraintForKind);
    ((pq_Kind r ==b PermissionInteractionKindPlanApproval)
     && match pq_PlanApproval r with
        | None => true
        | Some a => (pa_RequestID a <>b pq_ToolUseID r) || (pa_PlanRevision a =? 0) || blank (pa_PlanFileIdentity a)
        end, IncompletePlanApproval)].

Definition validatePermissionResolved (r : PermissionResolvedEvent) : option runtime_error :=
  first_error [
    (blank (ps_ToolUseID r), ResolutionWithoutToolUse);
    ((ps_Kind r ==b PermissionInteractionKindPlanApproval)
     && match ps_PlanApproval r with
        | None => true
        | Some a => (pd_RequestID a <>b ps_ToolUseID r) || (pd_PlanRevision a =? 0)
        end, IncompletePlanResolution)].

(** The payload of the type of the event. *)
Definition validatePayload (evt : QueryEvent) : option runtime_error :=
  match q_Type evt with
  | EventPermissionRequest =>
      match q_PermissionRequest evt with None => Some PermissionWithoutToolUse | Some r => validatePermissionRequest r end
  | EventPermissionResolved =>
      match q_PermissionResolved evt with
      | None => Some ResolutionWithoutToolUse
      | Some r => validatePermissionResolved r
      end
  | EventPlanStateTransition =>
      match q_PlanStateTransition evt with
      | None => Some IncompletePlanTransition
      | Some t => first_error [(blank (pt_RequestID t) || (pt_Revision t =? 0) || (pt_Phase t ==b []),
                                IncompletePlanTransition)]
      end
  | EventGoalLifecycle =>
      match q_GoalLifecycle evt with None => Some IncompleteGoalLifecycle | Some l => validateGoalEvent evt l end
  | EventCommandResult =>
      match q_CommandResult evt with
      | None => Some CommandWithoutIdentity
      | Some r => first_error [
          (blank (cr_Command r), CommandWithoutIdentity);
          (match cr_Status r with CommandStatusOther _ => true | _ => false end, InvalidCommandStatus)]
      end
  | EventCanonicalProjection =>
      match q_CanonicalProjection evt with
      | None => Some NoProjection
      | Some p => InvalidProjection <$> CanonicalProjectionEvent_Validate p
      end
  | EventTerminal => match q_TerminalInfo evt with None => Some NoTerminalInfo | Some _ => None end
  | EventAgentLifecycle =>
      match q_AgentLifecycle evt with
      | None => Some NoAgentMetadata
      | Some l => first_error [
          (blank (v_AgentID evt), NoAgentMetadata);
          ((v_GoalID evt <>b []) && ((al_Generation l <=? 0) || negb (v_AgentGeneration evt =? al_Generation l)),
           NoAgentGeneration)]
      end
  | EventWorktreeLifecycle =>
      match q_WorktreeLifecycle evt with
      | None => Some IncompleteWorktree
      | Some l => first_error [
          (blank (wl_RecordID l) || (wl_OwnerKind l <>b OwnerAgent) || blank (wl_OwnerID l)
           || (wl_OwnerID l <>b v_AgentID evt) || (wl_RecordRevision l =? 0) || blank (wl_Path l)
           || blank (wl_Branch l), IncompleteWorktree)]
      end
  | _ => None
  end.

Definition validateRuntimeEventEnvelope (evt : QueryEvent) : option runtime_error :=
  orElse (first_error [
    (blank (v_SessionID evt), NoSessionID); (blank (v_ThreadID evt), NoThreadID); (blank (v_TurnID evt), NoTurnID);
    (v_Sequence evt =? 0, ZeroSequence); (v_Timestamp evt =? 0, ZeroTimestamp);
    (q_Type evt ==b EventTypeOther [], NoEventType)])
  (orElse (validateGoalRuntimeIdentity evt) (validatePayload evt)).
End validate.

(** ** Kinds of events *)

Definition isExternalWorktreeLifecycle (evt : QueryEvent) : bool :=
  (q_Type evt ==b EventWorktreeLifecycle) && bool_decide (is_Some (q_WorktreeLifecycle evt)).

Definition isExternalPlanStateTransition (evt : QueryEvent) : bool :=
  (q_Type evt ==b EventPlanStateTransition)
  && match q_PlanStateTransition evt with
     | Some t => (pt_Source t ==b lit "external") || (pt_Source t ==b lit "user_confirmed")
     | None => false
     end.

Definition goal_phase (evt : QueryEvent) : option RuntimeGoalPhase :=
  if q_Type evt ==b EventGoalLifecycle then gl_Phase <$> q_GoalLifecycle evt else None.

Definition isExternalGoalLifecycle (evt : QueryEvent) : bool :=
  match goal_phase evt with Some (ControlPhase _) => true | _ => false end.

Definition isGoalUsageLifecycle (evt : QueryEvent) : bool :=
  match goal_phase evt with
  | Some (GoalLifecycleUsageRecorded | GoalLifecycleUsageAdmissionReleased | GoalLifecycleUsageLimited
          | GoalLifecycleBudgetLimited) => true
  | _ => false
  end.

Definition isGoalTurnFinished (evt : QueryEvent) : bool := goal_phase evt ==b Some GoalLifecycleTurnFinished.

Definition isRuntimeAgentLifecycleEvent (evt : QueryEvent) : option AgentLifecycleEvent :=
  if q_Type evt ==b EventAgentLifecycle then q_AgentLifecycle evt else None.

Definition isRuntimeAgentLaunchBoundary (evt : QueryEvent) : bool :=
  match isRuntimeAgentLifecycleEvent evt with
  | None => false
  | Some l =>
      let phase := TrimSpace (al_Phase l) in
      if (phase ==b lit "launched") || (phase ==b lit "resumed") || (phase ==b lit "launch_failed") then true else
      if (phase ==b lit "paused") || (phase ==b lit "resumed_control") || (phase ==b lit "backgrounded") then false else
      HasPrefix (v_TurnID evt) (lit "agent-launch:")
  end.

Definition isRuntimeAgentBackgroundedTransition (evt : QueryEvent) : bool :=
  match isRuntimeAgentLifecycleEvent evt with
  | None => false
  | Some l => TrimSpace (al_Phase l) ==b lit "backgrounded"
  end.

Definition isRuntimeTerminalStatus (s : RuntimeThreadStatus) : bool :=
  match s with RuntimeThreadCompleted | RuntimeThreadFailed | RuntimeThreadAborted => true | _ => false end.

Definition isRuntimeTerminalAgentStatus (status : bytes) : bool :=
  bool_decide (TrimSpace status ∈ [lit "completed"; lit "failed"; lit "aborted"; lit "killed"]).

Definition isTerminalRuntimeTaskStatus (status : bytes) : bool :=
  bool_decide (TrimSpace status ∈ [lit "completed"; lit "failed"; lit "aborted"; lit "killed"; lit "stopped"]).

Definition runtimeStatusForAgentLifecycle (status : bytes) : RuntimeThreadStatus :=
  let s := TrimSpace status in
  if s ==b lit "paused" then RuntimeThreadPaused else
  if s ==b lit "failed" then RuntimeThreadFailed else
  if (s ==b lit "aborted") || (s ==b lit "killed") then RuntimeThreadAborted else
  if s ==b lit "completed" then RuntimeThreadCompleted else RuntimeThreadRunning.

Definition runtimeStatusForTerminal (reason : bytes) : RuntimeThreadStatus :=
  if reason ==b lit "waiting_input" then RuntimeThreadWaitingInput else
  if reason ==b lit "completed" then RuntimeThreadCompleted else
  if (reason ==b lit "aborted_streaming") || (reason ==b lit "aborted_tools") then RuntimeThreadAborted
  else RuntimeThreadFailed.

(** ** The checks of an event against the snapshots *)

Definition validateRuntimeTransition (thread : option RuntimeThread) (evt : QueryEvent) : option runtime_error :=
  match thread with
  | None => first_error [
      (negb (v_Sequence evt =? 1), FirstSequence);
      (q_Type evt ==b EventPermissionResolved, ResolvedBeforeRequest)]
  | Some t =>
      let outside := isExternalPlanStateTransition evt || isExternalWorktreeLifecycle evt
                     || isExternalGoalLifecycle evt || isGoalUsageLifecycle evt in
      first_error [
        ((v_SessionID evt <>b th_SessionID t) || (v_AgentID evt <>b th_AgentID t)
         || (v_ParentSessionID evt <>b th_ParentSessionID t) || (v_ParentThreadID evt <>b th_ParentThreadID t)
         || (v_ParentAgentID evt <>b th_ParentAgentID t) || (v_ParentToolUseID evt <>b th_ParentToolUseID t),
         ThreadIdentityChanged);
        (negb (v_AgentGeneration evt =? th_AgentGeneration t)
         && ((v_GoalID evt <>b []) || (q_Type evt ==b EventAgentLifecycle) && (0 <? v_AgentGeneration evt))
         && (match isRuntimeAgentLifecycleEvent evt with
             | None => true
             | Some l => (al_Phase l <>b lit "launched") && (al_Phase l <>b lit "resumed")
             end || (v_AgentGeneration evt <=? th_AgentGeneration t) || negb (isRuntimeTerminalStatus (th_Status t))),
         GenerationChanged);
        (negb (v_Sequence evt =? u64 (th_LastSequence t + 1)), SequenceGap);
        ((th_ActiveTurnID t <>b []) && (th_ActiveTurnID t <>b v_TurnID evt)
         && negb (isRuntimeTerminalStatus (th_Status t)) && (th_Status t <>b RuntimeThreadWaitingInput)
         && negb outside, TurnStillActive);
        ((th_ActiveTurnID t ==b v_TurnID evt) && isRuntimeTerminalStatus (th_Status t)
         && (q_Type evt <>b EventTerminal) && (q_Type evt <>b EventPermissionResolved)
         && (q_Type evt <>b EventHookResponse) && negb outside && negb (isGoalTurnFinished evt), FollowsTerminal);
        ((q_Type evt ==b EventPermissionResolved)
         && match q_PermissionResolved evt with
            | Some r => bool_decide (th_PendingInteractions t !! ps_ToolUseID r = None)
            | None => true
            end, NotPending)]
  end.

Definition validRuntimeWorktreeTransition (from to : WorktreeState) : bool :=
  match from with
  | StateCreating => (to ==b StateReady) || (to ==b StateFailed)
  | StateReady => (to ==b StateRetained) || (to ==b StateRemoving)
  | StateRetained => to ==b StateRemoving
  | StateRemoving => (to ==b StateRemoved) || (to ==b StateCleanupFailed)
  | StateCleanupFailed => to ==b StateRemoving
  | _ => false
  end.

Definition worktree_event (evt : QueryEvent) : option WorktreeLifecycleEvent :=
  if q_Type evt ==b EventWorktreeLifecycle then q_WorktreeLifecycle evt else None.

Definition validateWorktreeTransitionLocked (s : RuntimeStateStore) (evt : QueryEvent) : option runtime_error :=
  match worktree_event evt with
  | None => None
  | Some next =>
      match worktrees s !! wl_RecordID next with
      | None => first_error [
          ((wl_FromState next <>b WorktreeStateOther []) || (wl_State next <>b StateCreating)
           || negb (wl_RecordRevision next =? 1), WorktreeNotFirst)]
      | Some current => first_error [
          ((wl_OwnerKind next <>b rw_OwnerKind current) || (wl_OwnerID next <>b rw_OwnerID current),
           WorktreeOwnerChanged);
          ((wl_Path next <>b rw_Path current) || (wl_Branch next <>b rw_Branch current), WorktreeLocationChanged);
          ((wl_RepoRoot next <>b rw_RepoRoot current)
           && ((rw_State current <>b StateCreating) || (rw_RepositoryIdentity current <>b [])
               || (rw_BaseCommit current <>b [])), WorktreeRootChanged);
          ((rw_RepositoryIdentity current <>b []) && (wl_RepositoryIdentity next <>b rw_RepositoryIdentity current),
           WorktreeRepositoryChanged);
          ((rw_BaseCommit current <>b []) && (wl_BaseCommit next <>b rw_BaseCommit current), WorktreeBaseChanged);
          (wl_FromState next <>b rw_State current, WorktreeFromState);
          (negb (wl_RecordRevision next =? u64 (rw_RecordRevision current + 1)), WorktreeRevision);
          ((wl_State next ==b rw_State current) && (wl_State next <>b StateCreating), WorktreeRepeats);
          ((wl_State next <>b rw_State current)
           && negb (validRuntimeWorktreeTransition (rw_State current) (wl_State next)), InvalidWorktreeTransition)]
      end
  end.

Definition goal_event (evt : QueryEvent) : option GoalLifecycleEvent :=
  if q_Type evt ==b EventGoalLifecycle then q_GoalLifecycle evt else None.

(** A change of the goal of a thread. *)
Definition validateGoalChange (current : GoalSnapshot) (l : GoalLifecycleEvent) : option runtime_error :=
  let next := gl_Goal l in
  let phase p := gl_Phase l ==b ControlPhase p in
  if phase GoalLifecycleCleared then
    first_error [((n_GoalID current <>b n_GoalID next)
                  || negb (n_ObjectiveRevision current =? n_ObjectiveRevision next)
                  || negb (n_Revision current =? n_Revision next), StaleGoalClear)]
  else if n_GoalID current <>b n_GoalID next then
    first_error [(negb (phase GoalLifecycleCreated) || (n_Status current <>b goalStatus_string goalStatusComplete),
                  GoalReplaced)]
  else first_error [
    (n_Revision next <=? n_Revision current, GoalRevisionNotNewer);
    ((n_ObjectiveRevision next <? n_ObjectiveRevision current)
     || (u64 (n_ObjectiveRevision current + 1) <? n_ObjectiveRevision next), GoalObjectiveRevisionJump);
    ((n_ObjectiveRevision current <? n_ObjectiveRevision next) && negb (phase GoalLifecycleObjectiveEdited),
     GoalObjectiveOutsideEdit);
    (n_RootActiveTimeMillis next <? n_RootActiveTimeMillis current, GoalTimeBackwards)].

Definition validateGoalTransitionLocked (s : RuntimeStateStore) (thread : option RuntimeThread) (evt : QueryEvent)
    : option runtime_error :=
  match goal_event evt with
  | None =>
      if (v_GoalID evt ==b []) || (v_AgentID evt ==b []) then None else
      match agents s !! v_AgentID evt with
      | None => None
      | Some current =>
          if ra_Generation current <? v_AgentGeneration evt then None else
          first_error [
            ((v_AgentGeneration evt <? ra_Generation current) || (ra_GoalID current <>b v_GoalID evt)
             || negb (ra_GoalObjectiveRevision current =? v_GoalObjectiveRevision evt)
             || (ra_GoalRootSessionID current <>b v_GoalRootSessionID evt)
             || (ra_GoalRootThreadID current <>b v_GoalRootThreadID evt)
             || (ra_GoalRootAgentID current <>b v_GoalRootAgentID evt)
             || (ra_GoalTurnID current <>b v_GoalTurnID evt), StaleGoalAgent)]
      end
  | Some l =>
      match thread ≫= th_Goal with
      | None => None
      | Some current => validateGoalChange current l
      end
  end.

Definition string_extra (extra : gmap bytes any) (key : bytes) : bytes :=
  match extra !! key with Some (AnyString v) => v | _ => [] end.

(** The notification of a task that an attachment carries, with the agent it is
    about. *)
Definition isDuplicateAgentCompletionLocked (s : RuntimeStateStore) (evt : QueryEvent) : bool :=
  match q_AttachmentMessage evt with
  | None => false
  | Some m =>
      let extra := m_Extra m in
      let completionID := string_extra extra (lit "agent_completion_id") in
      let agentID := string_extra extra (lit "task_notification_agent_id") in
      if (string_extra extra (lit "command_mode") <>b lit "task-notification") || blank completionID || blank agentID
      then false
      else ra_DeliveredCompletionID (default no_agent (agents s !! agentID)) ==b completionID
  end.

(** ** Keeping within a limit *)

Definition zlen {A} (l : list A) : Z := Z.of_nat (length l).
Definition map_len {K} `{Countable K} {A} (m : gmap K A) : Z := Z.of_nat (size m).

(** [sort.Slice(l, before); l[0]]. *)
Definition least {A} (before : A -> A -> bool) (l : list A) : option A := head (stable_sort before l).

(** [for len(m) > limit { ...; delete(m, ids[0]) }]; every turn removes a key,
    so as many turns as there are keys are enough. *)
Section enforce.
Context {K V : Type} `{Countable K} (before : K * V -> K * V -> bool) (limit : Z).
Fixpoint enforce_limit (fuel : nat) (m : gmap K V) : gmap K V :=
  match fuel with
  | O => m
  | S fuel =>
      if limit <? map_len m then
        match least before (map_to_list m) with
        | Some kv => enforce_limit fuel (delete kv.1 m)
        | None => m
        end
      else m
  end.
End enforce.

(** The order in which entries are given up: those that are over first, then
    the oldest, then by identifier. *)
Definition eviction_order {V} (terminal : V -> bool) (updatedAt : V -> Z) (a b : bytes * V) : bool :=
  if negb (eqb (terminal a.2) (terminal b.2)) then terminal a.2 else
  if updatedAt a.2 =? updatedAt b.2 then bytes_ltb a.1 b.1 else updatedAt a.2 <? updatedAt b.2.

Definition enforceTaskLimitLocked (s : RuntimeStateStore) : RuntimeStateStore :=
  s <| tasks ::= fun m => enforce_limit (eviction_order (isTerminalRuntimeTaskStatus ∘ rk_Status) rk_UpdatedAt)
                            (Tasks (limits s)) (size m) m |>.

Definition agent_not_running (a : RuntimeAgentSnapshot) : bool :=
  (ra_Status a <>b []) && (ra_Status a <>b lit "running") && (ra_Status a <>b thread_status_string RuntimeThreadWaitingInput).

Definition enforceAgentLimitLocked (s : RuntimeStateStore) : RuntimeStateStore :=
  s <| agents ::= fun m => enforce_limit (eviction_order agent_not_running ra_UpdatedAt)
                             (Agents (limits s)) (size m) m |>.

Definition worktree_over (w : RuntimeWorktreeSnapshot) : bool :=
  (rw_State w ==b StateRemoved) || (rw_State w ==b StateFailed).

Definition enforceWorktreeLimitLocked (s : RuntimeStateStore) : RuntimeStateStore :=
  s <| worktrees ::= fun m => enforce_limit (eviction_order worktree_over rw_UpdatedAt)
                                (Worktrees (limits s)) (size m) m |>.

Definition execution_order (a b : RuntimeExecutionKey * RuntimeExecutionSnapshot) : bool :=
  let terminal x := isRuntimeTerminalAgentStatus (ra_Status (rx_Agent x)) in
  let (ka, xa) := a in let (kb, xb) := b in
  if negb (eqb (terminal xa) (terminal xb)) then terminal xa else
  if negb (eqb (rx_OrdinalPresent xa) (rx_OrdinalPresent xb)) then negb (rx_OrdinalPresent xa) else
  if negb (rx_ObservationOrdinal xa =? rx_ObservationOrdinal xb)
  then rx_ObservationOrdinal xa <? rx_ObservationOrdinal xb else
  if ka.1 <>b kb.1 then bytes_ltb ka.1 kb.1 else ka.2 <? kb.2.

Definition runtimeExecutionLineageFromAgent (a : RuntimeAgentSnapshot) : runtimeExecutionLineage := {|
  xl_SessionID := ra_SessionID a; xl_ThreadID := ra_ThreadID a; xl_ParentSessionID := ra_ParentSessionID a;
  xl_ParentThreadID := ra_ParentThreadID a; xl_ParentAgentID := ra_ParentAgentID a;
  xl_ParentToolUseID := ra_ParentToolUseID a |}.

Fixpoint enforce_executions (fuel : nat) (s : RuntimeStateStore) : RuntimeStateStore :=
  match fuel with
  | O => s
  | S fuel =>
      if Agents (limits s) <? map_len (executions s) then
        match least execution_order (map_to_list (executions s)) with
        | Some (key, removed) =>
            let s := if isRuntimeTerminalAgentStatus (ra_Status (rx_Agent removed)) then s else
              s <| hiddenLiveExecutions ::= <[key := runtimeExecutionLineageFromAgent (rx_Agent removed)]> |> in
            enforce_executions fuel
              (s <| executions ::= delete key |>
                 <| evictedExecutionGenerations := u64 (evictedExecutionGenerations s + 1) |>)
        | None => s
        end
      else s
  end.

Definition enforceExecutionLimitLocked (s : RuntimeStateStore) : RuntimeStateStore :=
  enforce_executions (size (executions s)) s.

Definition thread_order (a b : bytes * RuntimeThread) : bool :=
  if th_UpdatedAt a.2 =? th_UpdatedAt b.2 then bytes_ltb a.1 b.1 else th_UpdatedAt a.2 <? th_UpdatedAt b.2.

(** A thread that may be given up: it is over and nothing in it waits. *)
Definition evictable (t : RuntimeThread) : bool :=
  isRuntimeTerminalStatus (th_Status t) && (size (th_PendingInteractions t) =? 0)%nat.

Definition ensureThreadCapacityLocked (s : RuntimeStateStore) : result runtime_error RuntimeStateStore :=
  if map_len (threads s) <? Threads (limits s) then Ok s else
  match least thread_order (filter (fun kt => evictable kt.2 = true) (map_to_list (threads s))) with
  | None => Err ThreadCapacity
  | Some kt => Ok (s <| threads ::= delete kt.1 |> <| droppedThreads := u64 (droppedThreads s + 1) |>)
  end.

(** ** The record of an event *)

Definition runtimeEventToolIdentity (evt : QueryEvent) : bytes * bytes :=
  match q_CanonicalProjection evt ≫= cp_Tool with
  | Some t => (ct_ToolName t, ct_ToolCallID t)
  | None =>
  match q_ToolProgress evt with Some p => (tp_ToolName p, tp_ToolUseID p) | None =>
  match q_TaskProgress evt with Some p => (pr_LastToolName p, pr_ToolUseID p) | None =>
  match q_PermissionRequest evt with Some r => (pq_ToolName r, pq_ToolUseID r) | None =>
  match q_PermissionResolved evt with Some r => ([], ps_ToolUseID r) | None =>
  match q_PlanStateTransition evt with Some t => ([], pt_RequestID t) | None =>
  match q_GoalLifecycle evt with Some l => ([], n_GoalID (gl_Goal l)) | None =>
  match q_WorktreeLifecycle evt with Some l => ([], wl_RecordID l) | None =>
  match q_ClassifierStatus evt with Some c => (cs_ToolName c, cs_ToolUseID c) | None =>
  match q_ToolResultMessage evt with Some m => (m_ToolName m, m_ToolCallID m) | None => ([], [])
  end end end end end end end end end end.

Definition runtimeEventSummary (evt : QueryEvent) : bytes :=
  match q_CanonicalProjection evt with Some p => projection_kind_string (cp_Kind p) | None =>
  match q_AgentLifecycle evt with
  | Some l => if al_Phase l ==b lit "backgrounded" then lit "backgrounded"
              else firstNonEmptyString [al_Error l; al_Description l; al_Task l; al_Phase l]
  | None =>
  match q_PermissionRequest evt with Some r => pq_Message r | None =>
  match q_PermissionResolved evt with Some r => firstNonEmptyString [ps_Message r; ps_Decision r] | None =>
  match q_PlanStateTransition evt with
  | Some t => pt_FromPhase t ++ lit " -> " ++ pt_Phase t ++ lit " (" ++ pt_PermissionMode t ++ lit ", revision "
              ++ Z_String (pt_Revision t) ++ lit ")"
  | None =>
  match q_GoalLifecycle evt with
  | Some l => goal_phase_string (gl_Phase l) ++ lit " (" ++ n_Status (gl_Goal l) ++ lit ", revision "
              ++ Z_String (n_Revision (gl_Goal l)) ++ lit ")"
  | None =>
  match q_WorktreeLifecycle evt with
  | Some l => worktree_state_string (wl_FromState l) ++ lit " -> " ++ worktree_state_string (wl_State l)
              ++ lit " (record revision " ++ Z_String (wl_RecordRevision l) ++ lit ")"
  | None =>
  match q_ModelAttempt evt with
  | Some a => ma_Phase a ++ lit " attempt " ++ Z_String (ma_AttemptIndex a) ++ lit " profile " ++ ma_Profile a
  | None =>
  match q_CommandResult evt with
  | Some r => firstNonEmptyString [cr_Output r; cr_Error r; command_status_string (cr_Status r)]
  | None =>
  match q_ToolProgress evt with Some p => tp_Content p | None =>
  match q_TaskProgress evt with Some p => firstNonEmptyString [pr_Summary p; pr_Description p] | None =>
  match q_TaskLifecycle evt with
  | Some l => firstNonEmptyString [tl_Subject l; tl_Description l; tl_Status l]
  | None =>
  match q_HookResponse evt with
  | Some h => firstNonEmptyString [hr_StatusMessage h; hr_Outcome h; hr_HookName h]
  | None =>
  match q_ToolResultMessage evt with Some m => m_Content m | None =>
  match q_AssistantMessage evt with Some m => m_Content m | None =>
  match q_StreamEvent evt with Some m => m_Content m | None =>
  match q_AttachmentMessage evt with Some m => m_Content m | None =>
  match q_Message evt with Some m => m_Content m | None =>
  match q_TerminalInfo evt with
  | Some t => match tm_Err t with Some e => tm_Reason t ++ lit ": " ++ e | None => tm_Reason t end
  | None => []
  end end end end end end end end end end end end end end end end end end end.

(** A field of a payload, the zero value when there is none. *)
Definition field_or {A} (o : option A) (f : A -> bytes) : bytes := match o with Some a => f a | None => [] end.

Definition runtimeEventRecord (evt : QueryEvent) : RuntimeEventRecord :=
  let (toolName, toolUseID) := runtimeEventToolIdentity evt in {|
  er_Envelope := q_Envelope evt; er_Type := q_Type evt; er_Family := Family evt; er_ToolName := toolName;
  er_ToolUseID := toolUseID;
  er_Summary := truncateRuntimeText (runtimeEventSummary evt) maxRuntimeEventSummaryRunes;
  er_TerminalReason := field_or (q_TerminalInfo evt) tm_Reason;
  er_Command := field_or (q_CommandResult evt) cr_Command;
  er_CommandAction := field_or (q_CommandResult evt) cr_Action;
  er_CommandStatus := field_or (q_CommandResult evt) (command_status_string ∘ cr_Status);
  er_CommandError := field_or (q_CommandResult evt)
                       (fun r => truncateRuntimeText (cr_Error r) maxRuntimeEventSummaryRunes);
  er_CommandPrompt := field_or (q_CommandResult evt)
                        (fun r => truncateRuntimeText (cr_FollowUpPrompt r) maxRuntimeEventSummaryRunes);
  er_ModelAttemptID := field_or (q_ModelAttempt evt) ma_AttemptID;
  er_ModelProfile := field_or (q_ModelAttempt evt) ma_Profile;
  er_ModelPhase := field_or (q_ModelAttempt evt) ma_Phase;
  er_FailureClass := field_or (q_ModelAttempt evt) ma_FailureClass |}.

(** [append(nil, l[overflow:]...)]: the newest entries. *)
Definition overflow {A} (limit : Z) (l : list A) : nat := Z.to_nat (zlen l - limit).

Definition appendEventLocked (lim : RuntimeStoreLimits) (t : RuntimeThread) (record : RuntimeEventRecord) : RuntimeThread :=
  let events := th_Events t ++ [record] in
  let over := overflow (EventsPerThread lim) events in
  t <| th_Events := drop over events |> <| th_DroppedEvents := u64 (th_DroppedEvents t + Z.of_nat over) |>.

(** ** Messages *)

Definition runtimeMessageForEvent (evt : QueryEvent) : option Message * bool :=
  match q_Type evt with
  | EventAssistant =>
      match q_AssistantMessage evt with Some m => (Some m, true) | None => (q_Message evt, false) end
  | EventStream => (q_StreamEvent evt, false)
  | EventToolResult =>
      match q_ToolResultMessage evt with Some m => (Some m, true) | None => (q_Message evt, true) end
  | EventAttachment => (q_AttachmentMessage evt, true)
  | EventCompactBoundary => (q_CompactBoundaryMessage evt, true)
  | EventCommandResult =>
      match q_CommandResult evt with
      | Some r => if cr_Output r ==b [] then (None, false) else (Some (text_message Assistant (cr_Output r)), true)
      | None => (None, false)
      end
  | EventTerminal => (q_Message evt, true)
  | _ => (None, false)
  end.

Definition runtimeModelAttemptID (evt : QueryEvent) : bytes :=
  match q_ModelAttempt evt with Some a => TrimSpace (ma_AttemptID a) | None => [] end.

Definition runtimeMessageID (evt : QueryEvent) (msg : Message) : bytes :=
  match filter (fun id => blank id = false)
          (string_extra (m_Extra msg) <$> [lit "uuid"; lit "message_id"; lit "id"; lit "command_uuid"]) with
  | id :: _ => id
  | [] => v_ThreadID evt ++ lit ":" ++ Z_String (v_Sequence evt)
  end.

Definition tool_call_snapshot (call : ToolCall) : RuntimeToolCallSnapshot := {|
  rc_ID := tc_ID call; rc_Name := fn_Name (tc_Function call);
  rc_InputPreview := truncateRuntimeText (fn_Arguments (tc_Function call)) maxRuntimeToolPreviewRunes |}.

Definition newRuntimeMessageSnapshot (evt : QueryEvent) (msg : Message) (completed : bool) : RuntimeMessageSnapshot := {|
  rm_ID := runtimeMessageID evt msg; rm_TranscriptEntryID := q_TranscriptEntryID evt;
  rm_ModelAttemptID := runtimeModelAttemptID evt; rm_TurnID := v_TurnID evt; rm_Sequence := v_Sequence evt;
  rm_Role := role_string (m_Role msg); rm_Content := truncateRuntimeText (m_Content msg) maxRuntimeMessageRunes;
  rm_ReasoningContent := truncateRuntimeText (m_ReasoningContent msg) maxRuntimeReasoningRunes;
  rm_ToolCallID := m_ToolCallID msg; rm_ToolName := m_ToolName msg;
  rm_ToolCalls := tool_call_snapshot <$> take maxRuntimeMessageToolCalls (m_ToolCalls msg);
  rm_Completed := completed; rm_Timestamp := v_Timestamp evt |}.

(** One call of a delta: it replaces the call with its identifier, or is
    appended while there is room. *)
Fixpoint replace_call (id : bytes) (c : RuntimeToolCallSnapshot) (l : list RuntimeToolCallSnapshot)
    : option (list RuntimeToolCallSnapshot) :=
  match l with
  | [] => None
  | x :: l => if rc_ID x ==b id then Some ({| rc_ID := rc_ID x; rc_Name := rc_Name c;
                                             rc_InputPreview := rc_InputPreview c |} :: l)
              else (fun l => x :: l) <$> replace_call id c l
  end.

Definition merge_call (l : list RuntimeToolCallSnapshot) (call : ToolCall) : list RuntimeToolCallSnapshot :=
  let c := tool_call_snapshot call in
  match (if tc_ID call <>b [] then replace_call (tc_ID call) c l else None) with
  | Some l' => l'
  | None => if (length l <? maxRuntimeMessageToolCalls)%nat then l ++ [c] else l
  end.

Definition mergeRuntimeToolCalls (m : RuntimeMessageSnapshot) (calls : list ToolCall) : RuntimeMessageSnapshot :=
  m <| rm_ToolCalls := foldl merge_call (rm_ToolCalls m) calls |>.

Definition reduceLiveAssistantLocked (t : RuntimeThread) (evt : QueryEvent) (msg : Message) : RuntimeThread :=
  let attemptID := runtimeModelAttemptID evt in
  match th_LiveMessage t with
  | None => t <| th_LiveMessage := Some (newRuntimeMessageSnapshot evt msg false) |>
  | Some live =>
      if (rm_TurnID live <>b v_TurnID evt) || ((attemptID <>b []) && (rm_ModelAttemptID live <>b attemptID))
      then t <| th_LiveMessage := Some (newRuntimeMessageSnapshot evt msg false) |>
      else
        let live := live
          <| rm_Content := truncateRuntimeText (rm_Content live ++ m_Content msg) maxRuntimeMessageRunes |>
          <| rm_ReasoningContent :=
               truncateRuntimeText (rm_ReasoningContent live ++ m_ReasoningContent msg) maxRuntimeReasoningRunes |>
          <| rm_Timestamp := v_Timestamp evt |> in
        let live := if q_TranscriptEntryID evt <>b []
                    then live <| rm_TranscriptEntryID := q_TranscriptEntryID evt |> else live in
        t <| th_LiveMessage := Some (mergeRuntimeToolCalls live (m_ToolCalls msg)) |>
  end.

Definition boundMessagesLocked (lim : RuntimeStoreLimits) (t : RuntimeThread) : RuntimeThread :=
  let over := overflow (MessagesPerThread lim) (th_Messages t) in
  t <| th_Messages ::= drop over |> <| th_DroppedMessages := u64 (th_DroppedMessages t + Z.of_nat over) |>.

(** A message that is complete takes the place of the one that is streamed. *)
Definition complete_message (lim : RuntimeStoreLimits) (t : RuntimeThread) (m : RuntimeMessageSnapshot) : RuntimeThread :=
  boundMessagesLocked lim (t <| th_Messages ::= fun l => l ++ [m] |> <| th_LiveMessage := None |>).

Definition tombstone_attempt (evt : QueryEvent) : bytes :=
  let attempt := runtimeModelAttemptID evt in
  if attempt <>b [] then attempt else TrimSpace (q_TombstoneUUID evt).

Definition reduceMessageLocked (lim : RuntimeStoreLimits) (t : RuntimeThread) (evt : QueryEvent) : RuntimeThread :=
  if q_Type evt ==b EventTombstone then
    let attemptID := tombstone_attempt evt in
    if attemptID ==b [] then t else
    t <| th_LiveMessage ::= fun live =>
           match live with
           | Some m => if rm_ModelAttemptID m ==b attemptID then None else Some m
           | None => None
           end |>
      <| th_Messages ::= filter (fun m => rm_ModelAttemptID m <> attemptID) |>
  else
  let (msg, completed) := runtimeMessageForEvent evt in
  let t := match msg with
           | None => t
           | Some m =>
               if completed then complete_message lim t (newRuntimeMessageSnapshot evt m true)
               else if m_Role m ==b Assistant then reduceLiveAssistantLocked t evt m else t
           end in
  match th_LiveMessage t with
  | Some live => if q_Type evt ==b EventTerminal then complete_message lim t (live <| rm_Completed := true |>) else t
  | None => t
  end.

(** ** Tools *)

Definition tool_settled (tools : gmap bytes RuntimeToolSnapshot) (id : bytes) : bool :=
  let status := ro_Status (default no_tool (tools !! id)) in (status ==b lit "completed") || (status ==b lit "failed").

(** The first tool that has settled, or else the oldest. *)
Fixpoint bound_tools (fuel : nat) (limit : Z) (tools : gmap bytes RuntimeToolSnapshot) (order : list bytes)
    : gmap bytes RuntimeToolSnapshot * list bytes :=
  match fuel with
  | O => (tools, order)
  | S fuel =>
      if limit <? zlen order then
        let index := default 0%nat (fst <$> list_find (fun id => tool_settled tools id = true) order) in
        match order !! index with
        | Some id => bound_tools fuel limit (delete id tools) (delete index order)
        | None => (tools, order)
        end
      else (tools, order)
  end.

Definition upsertToolLocked (lim : RuntimeStoreLimits) (t : RuntimeThread) (tool : RuntimeToolSnapshot) : RuntimeThread :=
  let order := match th_Tools t !! ro_ID tool with
               | None => th_ToolOrder t ++ [ro_ID tool]
               | Some _ => th_ToolOrder t
               end in
  let '(tools, order) := bound_tools (length order) (ToolsPerThread lim) (<[ro_ID tool := tool]> (th_Tools t)) order in
  t <| th_Tools := tools |> <| th_ToolOrder := order |>.

Definition called_tool (evt : QueryEvent) (call : ToolCall) : RuntimeToolSnapshot := {|
  ro_ID := tc_ID call; ro_Name := fn_Name (tc_Function call); ro_Status := lit "running";
  ro_InputPreview := truncateRuntimeText (fn_Arguments (tc_Function call)) maxRuntimeToolPreviewRunes;
  ro_ProgressPreview := []; ro_OutputPreview := []; ro_TurnID := v_TurnID evt; ro_Sequence := v_Sequence evt;
  ro_UpdatedAt := v_Timestamp evt |}.

(** The changes that a progress and a result make to a tool. *)
Definition touch_tool (evt : QueryEvent) (id name status : bytes) (tool : RuntimeToolSnapshot) : RuntimeToolSnapshot :=
  tool <| ro_ID := id |> <| ro_Name := firstNonEmptyString [name; ro_Name tool] |> <| ro_Status := status |>
       <| ro_TurnID := v_TurnID evt |> <| ro_Sequence := v_Sequence evt |> <| ro_UpdatedAt := v_Timestamp evt |>.

Definition reduceToolLocked (lim : RuntimeStoreLimits) (t : RuntimeThread) (evt : QueryEvent) : RuntimeThread :=
  let t := match (runtimeMessageForEvent evt).1 with
           | None => t
           | Some m => foldl (fun t call => if blank (tc_ID call) then t else upsertToolLocked lim t (called_tool evt call))
                         t (m_ToolCalls m)
           end in
  let t := match q_ToolProgress evt with
           | None => t
           | Some p =>
               if blank (tp_ToolUseID p) then t else
               let tool := default no_tool (th_Tools t !! tp_ToolUseID p) in
               upsertToolLocked lim t
                 (touch_tool evt (tp_ToolUseID p) (tp_ToolName p)
                    (if tp_IsFinal p then lit "completed" else lit "running") tool
                  <| ro_ProgressPreview := truncateRuntimeText (tp_Content p) maxRuntimeToolPreviewRunes |>)
           end in
  if q_Type evt ==b EventToolResult then
    match (match q_ToolResultMessage evt with Some m => Some m | None => q_Message evt end) with
    | None => t
    | Some m =>
        if blank (m_ToolCallID m) then t else
        let tool := default no_tool (th_Tools t !! m_ToolCallID m) in
        upsertToolLocked lim t
          (touch_tool evt (m_ToolCallID m) (m_ToolName m)
             (if bool_decide (is_Some (m_Extra m !! lit "is_error")) then lit "failed" else lit "completed") tool
           <| ro_OutputPreview := truncateRuntimeText (m_Content m) maxRuntimeToolPreviewRunes |>)
    end
  else t.

(** ** Interactions, plans, goals and terminals *)

Section input.
Context `{!RuntimeJSON}.

Definition cloneRuntimeValue (value : any) : any :=
  match json_marshal value ≫= json_unmarshal with
  | Some cloned => cloned
  | None => AnyString (truncateRuntimeText (go_sprint value) maxRuntimeInteractionRunes)
  end.

(** The entries, in the order of their keys, as long as the JSON stays within
    the limit; and whether one was left out. *)
Definition boundedRuntimeInput (input : gmap bytes any) : gmap bytes any * bool :=
  if (size input =? 0)%nat then (∅, false) else
  foldl (fun '(out, truncated) kv =>
    let out' := <[kv.1 := cloneRuntimeValue kv.2]> out in
    match json_marshal_map out' with
    | Some encoded => if maxRuntimeInteractionInputBytes <? zlen encoded then (delete kv.1 out', true) else (out', truncated)
    | None => (delete kv.1 out', true)
    end) (∅, false) (stable_sort (fun a b => bytes_ltb a.1 b.1) (map_to_list input)).

Definition requested_interaction (evt : QueryEvent) (r : PermissionRequestEvent) : RuntimeInteractionSnapshot :=
  let kind := TrimSpace (pq_Kind r) in
  let (input, truncated) := boundedRuntimeInput (pq_Input r) in {|
  ri_ID := pq_ToolUseID r; ri_Kind := if kind ==b [] then lit "permission" else kind; ri_ToolName := pq_ToolName r;
  ri_CanonicalToolName := pq_CanonicalToolName r; ri_Source := pq_Source r;
  ri_Message := truncateRuntimeText (pq_Message r) maxRuntimeInteractionRunes; ri_Input := input;
  ri_InputTruncated := truncated; ri_Attempt := pq_Attempt r;
  ri_PlanRevision := match pq_PlanApproval r with Some a => pa_PlanRevision a | None => 0 end;
  ri_PlanFile := field_or (pq_PlanApproval r) pa_PlanFileIdentity;
  ri_PlanInitialDigest := field_or (pq_PlanApproval r) pa_InitialPlanDigest;
  ri_PlanReturnMode := field_or (pq_PlanApproval r) pa_ReturnMode; ri_DecisionConstraint := pq_DecisionConstraint r;
  ri_TurnID := v_TurnID evt; ri_Sequence := v_Sequence evt; ri_RequestedAt := v_Timestamp evt |}.

Definition reduceInteractionLocked (t : RuntimeThread) (evt : QueryEvent) : RuntimeThread :=
  match q_Type evt, q_PermissionRequest evt, q_PermissionResolved evt with
  | EventPermissionRequest, Some r, _ =>
      t <| th_PendingInteractions ::= <[pq_ToolUseID r := requested_interaction evt r]> |>
        <| th_Status := RuntimeThreadWaitingInput |>
  | EventPermissionResolved, _, Some r =>
      let t := t <| th_PendingInteractions ::= delete (ps_ToolUseID r) |> in
      if (size (th_PendingInteractions t) =? 0)%nat
         && (negb (isRuntimeTerminalStatus (th_Status t)) || (th_Status t ==b RuntimeThreadWaitingInput))
      then t <| th_Status := RuntimeThreadRunning |> <| th_CompletedAt := 0 |> else t
  | _, _, _ => t
  end.
End input.

Definition reducePlanLocked (t : RuntimeThread) (evt : QueryEvent) : RuntimeThread :=
  match (if q_Type evt ==b EventPlanStateTransition then q_PlanStateTransition evt else None) with
  | None => t
  | Some p => t <| th_Plan := Some {|
      rp_Phase := pt_Phase p; rp_PermissionMode := pt_PermissionMode p; rp_PlanFileIdentity := pt_PlanFileIdentity p;
      rp_ReturnMode := pt_ReturnMode p; rp_ApprovalRequestID := pt_ApprovalRequestID p;
      rp_RequestID := pt_RequestID p; rp_Revision := pt_Revision p; rp_Sequence := v_Sequence evt;
      rp_UpdatedAt := v_Timestamp evt |} |>
  end.

Definition reduceGoalLocked (t : RuntimeThread) (evt : QueryEvent) : RuntimeThread :=
  match goal_event evt with
  | None => t
  | Some l => t <| th_Goal := if gl_Phase l ==b ControlPhase GoalLifecycleCleared then None else Some (gl_Goal l) |>
  end.

Definition reduceTerminalLocked (t : RuntimeThread) (evt : QueryEvent) : RuntimeThread :=
  match (if q_Type evt ==b EventTerminal then q_TerminalInfo evt else None) with
  | None => t
  | Some info => t <| th_LastTerminal := Some {|
      rt_TurnID := v_TurnID evt; rt_Reason := tm_Reason info; rt_TurnCount := tm_TurnCount info;
      rt_MaxTurns := tm_MaxTurns info;
      rt_Error := field_or (tm_Err info) (fun e => truncateRuntimeText e maxRuntimeInteractionRunes);
      rt_Sequence := v_Sequence evt; rt_Timestamp := v_Timestamp evt |} |>
      <| th_CompletedAt := v_Timestamp evt |> <| th_Status := runtimeStatusForTerminal (tm_Reason info) |>
  end.

(** ** Agents *)

(** The agent of the thread follows the thread. *)
Definition follow_thread (t : RuntimeThread) (evt : QueryEvent) (a : RuntimeAgentSnapshot) : RuntimeAgentSnapshot :=
  let a := a <| ra_AgentID := v_AgentID evt |> <| ra_SessionID := v_SessionID evt |>
    <| ra_ThreadID := v_ThreadID evt |> <| ra_ParentSessionID := v_ParentSessionID evt |>
    <| ra_ParentThreadID := v_ParentThreadID evt |> <| ra_ParentAgentID := v_ParentAgentID evt |>
    <| ra_ParentToolUseID := v_ParentToolUseID evt |> in
  let a := if (ra_Generation a <? v_AgentGeneration evt) && (v_GoalID evt ==b [])
           then a <| ra_GoalID := [] |> <| ra_GoalObjectiveRevision := 0 |> <| ra_GoalRootSessionID := [] |>
                  <| ra_GoalRootThreadID := [] |> <| ra_GoalRootAgentID := [] |> <| ra_GoalTurnID := [] |>
           else a in
  let a := if 0 <? v_AgentGeneration evt then a <| ra_Generation := v_AgentGeneration evt |> else a in
  let a := if v_GoalID evt <>b []
           then a <| ra_GoalID := v_GoalID evt |> <| ra_GoalObjectiveRevision := v_GoalObjectiveRevision evt |>
                  <| ra_GoalRootSessionID := v_GoalRootSessionID evt |>
                  <| ra_GoalRootThreadID := v_GoalRootThreadID evt |>
                  <| ra_GoalRootAgentID := v_GoalRootAgentID evt |> <| ra_GoalTurnID := v_GoalTurnID evt |>
           else a in
  let a := a <| ra_Status := thread_status_string (th_Status t) |> <| ra_UpdatedAt := v_Timestamp evt |> in
  if isRuntimeTerminalStatus (th_Status t) then a <| ra_CompletedAt := v_Timestamp evt |> else a.

(** [fillRuntimeAgentText]. *)
Definition fill (current value : bytes) (maxRunes : nat) : bytes :=
  if blank value then current else truncateRuntimeText value maxRunes.

Definition follow_lifecycle (evt : QueryEvent) (l : AgentLifecycleEvent) (a : RuntimeAgentSnapshot) : RuntimeAgentSnapshot :=
  let short := maxRuntimeEventSummaryRunes in
  let long := maxRuntimeInteractionRunes in
  let a := a <| ra_Name ::= fun x => fill x (al_Name l) short |> <| ra_Task ::= fun x => fill x (al_Task l) long |>
    <| ra_Description ::= fun x => fill x (al_Description l) long |>
    <| ra_AgentType ::= fun x => fill x (al_AgentType l) short |>
    <| ra_Model ::= fun x => fill x (al_Model l) short |>
    <| ra_PermissionMode ::= fun x => fill x (al_PermissionMode l) short |>
    <| ra_Isolation ::= fun x => fill x (al_Isolation l) short |>
    <| ra_CWD ::= fun x => fill x (al_CWD l) long |>
    <| ra_WorktreePath ::= fun x => fill x (al_WorktreePath l) long |>
    <| ra_WorktreeBranch ::= fun x => fill x (al_WorktreeBranch l) short |>
    <| ra_TranscriptPath ::= fun x => fill x (al_TranscriptPath l) long |>
    <| ra_OutputFile ::= fun x => fill x (al_OutputFile l) long |>
    <| ra_Error ::= fun x => fill x (al_Error l) long |> in
  let a := if blank (al_Status l) then a else a <| ra_Status := al_Status l |> in
  let a := if 0 <? al_Generation l then a <| ra_Generation := al_Generation l |> else a in
  let a := if al_StartedAt l =? 0 then a else a <| ra_StartedAt := al_StartedAt l |> in
  a <| ra_UpdatedAt := v_Timestamp evt |>
    <| ra_CompletedAt := if isRuntimeTerminalAgentStatus (ra_Status a) then v_Timestamp evt else 0 |>.

Definition runtimeAgentActivities (l : list TaskProgressActivity) : list TaskProgressActivity :=
  (fun a => {| ac_ToolName := truncateRuntimeText (ac_ToolName a) maxRuntimeEventSummaryRunes;
               ac_Description := truncateRuntimeText (ac_Description a) maxRuntimeEventSummaryRunes;
               ac_IsSearch := ac_IsSearch a; ac_IsRead := ac_IsRead a |})
  <$> drop (length l - maxRuntimeAgentActivities) l.

Definition follow_progress (evt : QueryEvent) (p : TaskProgressEvent) (a : RuntimeAgentSnapshot) : RuntimeAgentSnapshot :=
  let a := a <| ra_AgentID := pr_TaskID p |> in
  let a := if v_AgentID evt <>b pr_TaskID p
           then a <| ra_ParentSessionID := v_SessionID evt |> <| ra_ParentThreadID := v_ThreadID evt |>
                  <| ra_ParentAgentID := v_AgentID evt |> <| ra_ParentToolUseID := pr_ToolUseID p |>
           else a in
  a <| ra_Description := truncateRuntimeText (pr_Description p) maxRuntimeInteractionRunes |>
    <| ra_Status := lit "running" |>
    <| ra_Progress := {|
      rg_ToolUses := pr_ToolUses p; rg_TotalTokens := pr_TotalTokens p; rg_DurationMS := pr_DurationMS p;
      rg_LastToolName := pr_LastToolName p;
      rg_Summary := truncateRuntimeText (pr_Summary p) maxRuntimeEventSummaryRunes;
      rg_RecentActivities := runtimeAgentActivities (pr_RecentActivities p) |} |>
    <| ra_UpdatedAt := v_Timestamp evt |>.

Section agents.
Context `{!AnyNumbers}.

(** A float beyond 64 bits converts to a value that depends on the machine; the
    model takes the low bits. *)
Definition runtimeUint64Extra (value : option any) : Z :=
  match value with
  | Some (AnyOther encoding) =>
      match other_number encoding with
      | Some (NUint64 n) | Some (NUint n) => n
      | Some (NInt n) | Some (NInt64 n) => if 0 <? n then n else 0
      | Some (NFloat64 positive part) => if positive then u64 part else 0
      | None => 0
      end
  | _ => 0
  end.

Definition follow_notification (evt : QueryEvent) (extra : gmap bytes any) (agentID : bytes) (a : RuntimeAgentSnapshot)
    : RuntimeAgentSnapshot :=
  let a := a <| ra_AgentID := agentID |> <| ra_ParentSessionID := v_SessionID evt |>
    <| ra_ParentThreadID := v_ThreadID evt |> <| ra_ParentAgentID := v_AgentID evt |>
    <| ra_Status := string_extra extra (lit "task_notification_status") |>
    <| ra_Description := truncateRuntimeText (string_extra extra (lit "task_notification_description"))
                           maxRuntimeInteractionRunes |>
    <| ra_ParentToolUseID := string_extra extra (lit "task_notification_tool_use_id") |>
    <| ra_DeliveredCompletionID := string_extra extra (lit "agent_completion_id") |>
    <| ra_DeliveredTerminalSequence := runtimeUint64Extra (extra !! lit "agent_completion_terminal_sequence") |>
    <| ra_UpdatedAt := v_Timestamp evt |> in
  if ra_Status a <>b lit "running" then a <| ra_CompletedAt := v_Timestamp evt |> else a.

(** The updates of agents that an event makes, in order: the agent and what
    becomes of its snapshot. *)
Definition agent_updates (t : RuntimeThread) (evt : QueryEvent) : list (bytes * (RuntimeAgentSnapshot -> RuntimeAgentSnapshot)) :=
  (if blank (v_AgentID evt) then [] else [(v_AgentID evt, follow_thread t evt)])
  ++ match q_AgentLifecycle evt with
     | Some l => if blank (v_AgentID evt) then [] else [(v_AgentID evt, follow_lifecycle evt l)]
     | None => []
     end
  ++ match q_TaskProgress evt with
     | Some p => if blank (pr_TaskID p) then [] else [(pr_TaskID p, follow_progress evt p)]
     | None => []
     end
  ++ match q_AttachmentMessage evt with
     | Some m =>
         let agentID := string_extra (m_Extra m) (lit "task_notification_agent_id") in
         if (string_extra (m_Extra m) (lit "command_mode") ==b lit "task-notification") && negb (blank agentID)
         then [(agentID, follow_notification evt (m_Extra m) agentID)] else []
     | None => []
     end.

Definition recordExecutionObservationLocked (s : RuntimeStateStore) (agentID : bytes) (ordinalPresent replayOnly : bool)
    : RuntimeStateStore :=
  match agents s !! agentID with
  | None => s
  | Some agent =>
      if blank (ra_AgentID agent) || (ra_Generation agent <=? 0) then s else
      let key := (ra_AgentID agent, ra_Generation agent) in
      let execution := default no_execution (executions s !! key) in
      let ordinal := if ordinalPresent then u64 (executionOrdinal s + 1) else executionOrdinal s in
      enforceExecutionLimitLocked
        (s <| hiddenLiveExecutions ::= delete key |> <| executionOrdinal := ordinal |>
           <| executions ::= <[key := {|
             rx_Key := key; rx_Agent := agent;
             rx_ObservationOrdinal := if ordinalPresent then ordinal else rx_ObservationOrdinal execution;
             rx_OrdinalPresent := ordinalPresent || rx_OrdinalPresent execution; rx_ReplayOnly := replayOnly |}]> |>)
  end.

(** [sort.Strings] of a set. *)
Definition sorted_keys (s : gset bytes) : list bytes := stable_sort bytes_ltb (elements s).

Definition reduceAgentLocked (s : RuntimeStateStore) (t : RuntimeThread) (evt : QueryEvent) : RuntimeStateStore :=
  let updates := agent_updates t evt in
  let s := s <| agents ::= fun m => foldl (fun m u => <[u.1 := u.2 (default no_agent (m !! u.1))]> m) m updates |> in
  let s := foldl (fun s agentID => recordExecutionObservationLocked s agentID true false) s
             (sorted_keys (list_to_set updates.*1)) in
  enforceAgentLimitLocked s.
End agents.

(** ** Tasks and worktrees *)

Definition reduceTaskLocked (s : RuntimeStateStore) (evt : QueryEvent) : RuntimeStateStore :=
  match q_TaskLifecycle evt with
  | None => s
  | Some l =>
      if blank (tl_TaskID l) then s else
      let task := default no_task (tasks s !! tl_TaskID l) in
      let text new old n := if new <>b [] then truncateRuntimeText new n else old in
      let status := if tl_Status l <>b [] then tl_Status l else rk_Status task in
      let updatedAt := if tl_UpdatedAt l =? 0 then v_Timestamp evt else tl_UpdatedAt l in
      enforceTaskLimitLocked (s <| tasks ::= <[tl_TaskID l := {|
        rk_TaskID := tl_TaskID l; rk_Subject := text (tl_Subject l) (rk_Subject task) maxRuntimeInteractionRunes;
        rk_Description := text (tl_Description l) (rk_Description task) maxRuntimeInteractionRunes;
        rk_ActiveForm := text (tl_ActiveForm l) (rk_ActiveForm task) maxRuntimeInteractionRunes;
        rk_Status := status; rk_Owner := text (tl_Owner l) (rk_Owner task) maxRuntimeEventSummaryRunes;
        rk_CreatedAt := if rk_CreatedAt task =? 0 then updatedAt else rk_CreatedAt task;
        rk_UpdatedAt := if (rk_UpdatedAt task =? 0) || (rk_UpdatedAt task <? updatedAt) then updatedAt
                        else rk_UpdatedAt task;
        rk_CompletedAt := if isTerminalRuntimeTaskStatus status then updatedAt else 0 |}]> |>)
  end.

Definition worktree_snapshot (evt : QueryEvent) (l : WorktreeLifecycleEvent) : RuntimeWorktreeSnapshot := {|
  rw_RecordID := wl_RecordID l; rw_OwnerKind := wl_OwnerKind l; rw_OwnerID := wl_OwnerID l; rw_State := wl_State l;
  rw_RecoveryDisposition := RecoveryInspectOnly; rw_RecoveryDiagnostic := []; rw_RecordRevision := wl_RecordRevision l;
  rw_RepositoryIdentity := wl_RepositoryIdentity l; rw_RepoRoot := wl_RepoRoot l; rw_Path := wl_Path l;
  rw_Branch := wl_Branch l; rw_BaseCommit := wl_BaseCommit l; rw_LastErrorCategory := wl_LastErrorCategory l;
  rw_LastError := truncateRuntimeText (wl_LastError l) maxRuntimeInteractionRunes; rw_Sequence := v_Sequence evt;
  rw_UpdatedAt := v_Timestamp evt |}.

Definition reduceWorktreeLocked (s : RuntimeStateStore) (evt : QueryEvent) : RuntimeStateStore :=
  match worktree_event evt with
  | None => s
  | Some l => enforceWorktreeLimitLocked (s <| worktrees ::= <[wl_RecordID l := worktree_snapshot evt l]> |>)
  end.

(** ** The clock of a thread *)

Definition updateRuntimeThreadTiming (t : RuntimeThread) (previousTurnID : bytes) (previousStatus : RuntimeThreadStatus)
    (now : Z) : RuntimeThread :=
  let wasActive := (previousTurnID <>b []) && (previousStatus ==b RuntimeThreadRunning) && negb (th_ActiveSince t =? 0) in
  let isActive := (th_ActiveTurnID t <>b []) && (th_Status t ==b RuntimeThreadRunning) in
  let continuesInterval := wasActive && isActive && (th_ActiveTurnID t ==b previousTurnID) in
  let t :=
    if wasActive && negb continuesInterval then
      (if th_ActiveSince t <? now then
         let active := time_sub now (th_ActiveSince t) in
         t <| th_ActiveDuration ::= fun d => if MaxInt64 - active <? d then MaxInt64 else d + active |>
       else t) <| th_ActiveSince := 0 |>
    else t in
  if negb isActive then t <| th_ActiveSince := 0 |> else
  if negb continuesInterval || (th_ActiveSince t =? 0) then t <| th_ActiveSince := now |> else t.

(** ** Apply *)

Section apply.
Context `{!Digests, !GoalIdentityText, !RuntimeJSON, !AnyNumbers}.

Definition new_thread (evt : QueryEvent) : RuntimeThread :=
  let t := no_thread <| th_SessionID := v_SessionID evt |> <| th_ThreadID := v_ThreadID evt |>
    <| th_AgentID := v_AgentID evt |> <| th_ParentSessionID := v_ParentSessionID evt |>
    <| th_ParentThreadID := v_ParentThreadID evt |> <| th_ParentAgentID := v_ParentAgentID evt |>
    <| th_ParentToolUseID := v_ParentToolUseID evt |> <| th_AgentGeneration := v_AgentGeneration evt |>
    <| th_Status := RuntimeThreadRunning |> <| th_StartedAt := v_Timestamp evt |> in
  if isGoalUsageLifecycle evt
  then t <| th_Status := RuntimeThreadCompleted |> <| th_CompletedAt := v_Timestamp evt |> else t.

(** What an event does to the turn and the status of its thread. *)
Definition enter_turn (t : RuntimeThread) (evt : QueryEvent) : RuntimeThread :=
  let now := v_Timestamp evt in
  if isGoalUsageLifecycle evt then t else
  if isExternalPlanStateTransition evt || isExternalGoalLifecycle evt then
    let t := t <| th_ActiveTurnID := [] |> <| th_LiveMessage := None |> in
    if (th_Status t ==b RuntimeThreadUnset) || (th_Status t ==b RuntimeThreadRunning)
    then t <| th_Status := RuntimeThreadCompleted |> <| th_CompletedAt := now |> else t
  else if q_Type evt ==b EventWorktreeLifecycle then
    if th_ActiveTurnID t ==b [] then t <| th_Status := RuntimeThreadCompleted |> <| th_CompletedAt := now |> else t
  else if isRuntimeAgentBackgroundedTransition evt then
    t <| th_Status := RuntimeThreadRunning |> <| th_CompletedAt := 0 |>
  else if q_Type evt ==b EventHookResponse then t
  else if isRuntimeAgentLaunchBoundary evt then
    t <| th_ActiveTurnID := [] |> <| th_LiveMessage := None |> <| th_CompletedAt := 0 |>
      <| th_Status := match q_AgentLifecycle evt with
                      | Some l => runtimeStatusForAgentLifecycle (al_Status l)
                      | None => th_Status t
                      end |>
      <| th_AgentGeneration := v_AgentGeneration evt |>
  else if isGoalTurnFinished evt && isRuntimeTerminalStatus (th_Status t) then t
  else
    let t :=
      if th_ActiveTurnID t <>b v_TurnID evt then
        t <| th_ActiveTurnID := v_TurnID evt |> <| th_TurnStartedAt := now |> <| th_CompletedAt := 0 |>
          <| th_Status := RuntimeThreadRunning |> <| th_LiveMessage := None |>
      else t in
    match isRuntimeAgentLifecycleEvent evt with
    | Some l => t <| th_Status := runtimeStatusForAgentLifecycle (al_Status l) |>
    | None => t
    end.

(** The thread consumes the number of the event. *)
Definition count_event (t : RuntimeThread) (evt : QueryEvent) : RuntimeThread :=
  t <| th_LastSequence := v_Sequence evt |> <| th_UpdatedAt := v_Timestamp evt |>
    <| th_Revision ::= fun r => u64 (r + 1) |>.

(** The reductions of the thread itself, in order. *)
Definition reduce_thread (lim : RuntimeStoreLimits) (t : RuntimeThread) (evt : QueryEvent) : RuntimeThread :=
  let t := reduceMessageLocked lim t evt in
  let t := reduceToolLocked lim t evt in
  let t := reduceInteractionLocked t evt in
  let t := reducePlanLocked t evt in
  let t := reduceGoalLocked t evt in
  reduceTerminalLocked t evt.

(** The thread after an event that is accepted, from the thread before, which is
    a new one for the first event. *)
Definition thread_after (lim : RuntimeStoreLimits) (t : RuntimeThread) (previousTurnID : bytes)
    (previousStatus : RuntimeThreadStatus) (evt : QueryEvent) : RuntimeThread :=
  let t := appendEventLocked lim (count_event (enter_turn t evt) evt) (runtimeEventRecord evt) in
  if isGoalUsageLifecycle evt then reduceGoalLocked t evt else
  updateRuntimeThreadTiming (reduce_thread lim t evt) previousTurnID previousStatus (v_Timestamp evt).

(** The reductions of the rest of the store; they look at the thread before its
    clock is brought up to date, which leaves its status alone. *)
Definition reduce_store (s : RuntimeStateStore) (t : RuntimeThread) (evt : QueryEvent) : RuntimeStateStore :=
  reduceWorktreeLocked (reduceTaskLocked (reduceAgentLocked s t evt) evt) evt.

Definition too_many_interactions (lim : RuntimeStoreLimits) (thread : option RuntimeThread) (evt : QueryEvent) : bool :=
  match (if q_Type evt ==b EventPermissionRequest then q_PermissionRequest evt else None), thread with
  | Some r, Some t =>
      bool_decide (th_PendingInteractions t !! pq_ToolUseID r = None)
      && (InteractionsPerThread lim <=? map_len (th_PendingInteractions t))
  | _, _ => false
  end.

(** The checks of an event against the store, in the order of the source. *)
Definition admission_error (s : RuntimeStateStore) (evt : QueryEvent) : option runtime_error :=
  let thread := threads s !! v_ThreadID evt in
  orElse (validateWorktreeTransitionLocked s evt)
    (orElse (validateGoalTransitionLocked s thread evt)
       (if too_many_interactions (limits s) thread evt then Some TooManyInteractions else None)).

Definition bump_revision (s : RuntimeStateStore) : RuntimeStateStore := s <| store_revision ::= fun r => u64 (r + 1) |>.

(** [s.threads[id] = thread]. *)
Definition put_thread (s : RuntimeStateStore) (id : bytes) (t : RuntimeThread) : RuntimeStateStore :=
  s <| threads ::= <[id := t]> |>.

(** An accepted event, given the store with room for its thread. *)
Definition reduce_event (s : RuntimeStateStore) (thread : option RuntimeThread) (evt : QueryEvent) : RuntimeStateStore :=
  let '(previousTurnID, previousStatus) :=
    match thread with Some t => (th_ActiveTurnID t, th_Status t) | None => ([], RuntimeThreadUnset) end in
  let t := thread_after (limits s) (default (new_thread evt) thread) previousTurnID previousStatus evt in
  let s := bump_revision (put_thread s (v_ThreadID evt) t) in
  if isGoalUsageLifecycle evt then s else reduce_store s t evt.

Definition Apply (evt : QueryEvent) (s : RuntimeStateStore) : result runtime_error RuntimeStateStore :=
  match validateRuntimeEventEnvelope evt with
  | Some e => Err e
  | None =>
  let thread := threads s !! v_ThreadID evt in
  match validateRuntimeTransition thread evt with
  | Some e => Err e
  | None =>
  match (if isDuplicateAgentCompletionLocked s evt then thread else None) with
  | Some t => Ok (bump_revision (put_thread s (v_ThreadID evt) (count_event t evt)))
  | None =>
  match admission_error s evt with
  | Some e => Err e
  | None =>
  match thread with
  | Some t => Ok (reduce_event s thread evt)
  | None => match ensureThreadCapacityLocked s with Err e => Err e | Ok s => Ok (reduce_event s None evt) end
  end end end end end.

(** [applyNextAgentLifecycle]: a transition of an agent that was asked for from
    outside takes the next number of its thread. *)
Definition applyNextAgentLifecycle (evt : QueryEvent) (s : RuntimeStateStore) : result runtime_error RuntimeStateStore :=
  match isRuntimeAgentLifecycleEvent evt with
  | None => Err ExpectedAgentLifecycle
  | Some _ =>
      let v := q_Envelope evt in
      let v := match threads s !! v_ThreadID evt with
               | None => v <| v_Sequence := 1 |>
               | Some t =>
                   let v := v <| v_Sequence := u64 (th_LastSequence t + 1) |> in
                   if isRuntimeAgentBackgroundedTransition evt && (th_ActiveTurnID t <>b [])
                   then v <| v_TurnID := th_ActiveTurnID t |> else v
               end in
      Apply (evt <| q_Envelope := v |>) s
  end.

(** [Replay]: the events before the first that is refused have been applied. *)
Fixpoint Replay (events : list QueryEvent) (s : RuntimeStateStore) : option runtime_error * RuntimeStateStore :=
  match events with
  | [] => (None, s)
  | evt :: events =>
      match Apply evt s with
      | Err e => (Some e, s)
      | Ok s => Replay events s
      end
  end.
End apply.

(** ** Installing what was saved *)

Section restore.
Context `{!RuntimeJSON}.

Definition validateRestoredExecutionIdentityLocked (s : RuntimeStateStore) (agent : RuntimeAgentSnapshot)
    : option runtime_error :=
  if ra_Generation agent <=? 0 then None else
  let key := (ra_AgentID agent, ra_Generation agent) in
  let known := match executions s !! key with
               | Some x => Some (runtimeExecutionLineageFromAgent (rx_Agent x))
               | None => hiddenLiveExecutions s !! key
               end in
  match known with
  | Some lineage => if lineage ==b runtimeExecutionLineageFromAgent agent then None else Some LineageChanged
  | None => None
  end.

(** The first time that is set; [clock] is what [time.Now] returns. *)
Definition restore_time (agent : RuntimeAgentSnapshot) (clock : Z) : Z :=
  if negb (ra_UpdatedAt agent =? 0) then ra_UpdatedAt agent else
  if negb (ra_CompletedAt agent =? 0) then ra_CompletedAt agent else
  if negb (ra_StartedAt agent =? 0) then ra_StartedAt agent else clock.

Definition interrupted_text : bytes := lit "Agent execution was interrupted before this process restored the transcript".

(** The messages with their numbers; a nil message takes a number. *)
Definition restored_messages (agent : RuntimeAgentSnapshot) (now : Z) (messages : list (option Message))
    : list RuntimeMessageSnapshot :=
  concat (imap (fun index message =>
    match message with
    | None => []
    | Some m =>
        let v := empty_envelope <| v_SessionID := ra_SessionID agent |> <| v_ThreadID := ra_ThreadID agent |>
          <| v_TurnID := lit "restored" |> <| v_Sequence := Z.of_nat index + 1 |> <| v_Timestamp := now |> in
        [newRuntimeMessageSnapshot (bare_event v (EventTypeOther [])) m true]
    end) messages).

Definition restored_thread (lim : RuntimeStoreLimits) (agent : RuntimeAgentSnapshot) (status : RuntimeThreadStatus)
    (now : Z) (messages : list (option Message)) : RuntimeThread :=
  let t := no_thread <| th_SessionID := ra_SessionID agent |> <| th_ThreadID := ra_ThreadID agent |>
    <| th_AgentID := ra_AgentID agent |> <| th_ParentSessionID := ra_ParentSessionID agent |>
    <| th_ParentThreadID := ra_ParentThreadID agent |> <| th_ParentAgentID := ra_ParentAgentID agent |>
    <| th_ParentToolUseID := ra_ParentToolUseID agent |> <| th_AgentGeneration := ra_Generation agent |>
    <| th_Status := status |> <| th_StartedAt := ra_StartedAt agent |> <| th_UpdatedAt := now |>
    <| th_CompletedAt := ra_CompletedAt agent |> <| th_Messages := restored_messages agent now messages |> in
  let t := boundMessagesLocked lim t <| th_LastSequence := zlen messages |> <| th_Revision := 1 |> in
  if isRuntimeTerminalStatus status && (th_CompletedAt t =? 0) then t <| th_CompletedAt := now |> else t.

Definition install_agent (s : RuntimeStateStore) (agent : RuntimeAgentSnapshot) (now : Z) (ordinalPresent replayOnly : bool)
    : RuntimeStateStore :=
  let s := s <| agents ::= <[ra_AgentID agent := agent <| ra_UpdatedAt := now |>]> |> in
  bump_revision (enforceAgentLimitLocked
    (recordExecutionObservationLocked s (ra_AgentID agent) ordinalPresent replayOnly)).

Definition RestoreAgentSnapshot (clock : Z) (agent : RuntimeAgentSnapshot) (messages : list (option Message)) (live : bool)
    (s : RuntimeStateStore) : result runtime_error RuntimeStateStore :=
  let agent := agent <| ra_AgentID ::= TrimSpace |> <| ra_ThreadID ::= TrimSpace |> <| ra_SessionID ::= TrimSpace |> in
  if (ra_AgentID agent ==b []) || (ra_ThreadID agent ==b []) || (ra_SessionID agent ==b [])
  then Err IncompleteAgentRestore else
  let now := restore_time agent clock in
  let status := runtimeStatusForAgentLifecycle (ra_Status agent) in
  let '(status, agent) :=
    if negb live && negb (isRuntimeTerminalStatus status) then
      (RuntimeThreadAborted,
       agent <| ra_Status := thread_status_string RuntimeThreadAborted |>
             <| ra_Error ::= fun e => if blank e then interrupted_text else e |>
             <| ra_CompletedAt := now |>)
    else (status, agent) in
  match validateRestoredExecutionIdentityLocked s agent with
  | Some e => Err e
  | None =>
      let existing := threads s !! ra_ThreadID agent in
      if live && bool_decide (is_Some existing) then Ok (install_agent s agent now true false) else
      match (if bool_decide (is_Some existing) then Ok s else ensureThreadCapacityLocked s) with
      | Err e => Err e
      | Ok s =>
          let t := restored_thread (limits s) agent status now messages in
          Ok (install_agent (put_thread s (ra_ThreadID agent) t) agent now live (negb live))
      end
  end.

Definition restored_worktree (r : RecoveryRecord) : RuntimeWorktreeSnapshot :=
  let record := rr_Record r in {|
  rw_RecordID := w_ID record; rw_OwnerKind := o_Kind (w_Owner record); rw_OwnerID := o_ID (w_Owner record);
  rw_State := w_State record; rw_RecoveryDisposition := rr_Disposition r;
  rw_RecoveryDiagnostic := truncateRuntimeText (rr_Diagnostic r) maxRuntimeInteractionRunes;
  rw_RecordRevision := w_Revision record; rw_RepositoryIdentity := w_RepositoryIdentity record;
  rw_RepoRoot := w_RepoRoot record; rw_Path := w_Path record; rw_Branch := w_Branch record;
  rw_BaseCommit := w_BaseCommit record; rw_LastErrorCategory := w_LastErrorCategory record;
  rw_LastError := truncateRuntimeText (w_LastError record) maxRuntimeInteractionRunes; rw_Sequence := 0;
  rw_UpdatedAt := w_UpdatedAt record |}.

(** A record that is refused ends the loop: the records before it have been
    installed, but neither the limit nor the revision has been looked after. *)
Fixpoint restore_worktrees (records : list RecoveryRecord) (changed : bool) (s : RuntimeStateStore)
    : option runtime_error * RuntimeStateStore :=
  match records with
  | [] => (None, if changed then bump_revision (enforceWorktreeLimitLocked s) else s)
  | r :: records =>
      match WorktreeRecord_Validate (rr_Record r) with
      | Some e => (Some (InvalidWorktreeRecord e), s)
      | None =>
          let next := restored_worktree r in
          let install := restore_worktrees records true (s <| worktrees ::= <[rw_RecordID next := next]> |>) in
          match worktrees s !! rw_RecordID next with
          | None => install
          | Some current =>
              if (rw_OwnerKind current <>b rw_OwnerKind next) || (rw_OwnerID current <>b rw_OwnerID next)
                 || (rw_Path current <>b rw_Path next) || (rw_Branch current <>b rw_Branch next)
              then (Some RestoredWorktreeChanged, s) else
              if (rw_RecordRevision next <? rw_RecordRevision current)
                 || (rw_RecordRevision current =? rw_RecordRevision next)
                    && ((0 <? rw_Sequence current) || (current ==b next))
              then restore_worktrees records changed s
              else install
          end
      end
  end.

Definition RestoreWorktreeSnapshots (records : list RecoveryRecord) (s : RuntimeStateStore)
    : option runtime_error * RuntimeStateStore :=
  restore_worktrees records false s.

(** The parts of a plan state that are restored. *)
Record RestoredPlan := {
  pl_Phase : bytes; pl_PlanFileIdentity : bytes; pl_ReturnMode : bytes; pl_ApprovalRequestID : bytes; pl_Revision : Z
}.

(** The thread a restored projection is installed in when there is none. *)
Definition idle_thread (sessionID threadID agentID : bytes) (now : Z) : RuntimeThread :=
  no_thread <| th_SessionID := sessionID |> <| th_ThreadID := threadID |> <| th_AgentID := agentID |>
    <| th_Status := RuntimeThreadCompleted |> <| th_StartedAt := now |> <| th_UpdatedAt := now |>.

Definition touch_thread (t : RuntimeThread) (now : Z) : RuntimeThread :=
  t <| th_UpdatedAt := now |> <| th_Revision ::= fun r => u64 (r + 1) |>.

(** The thread, an idle one when there is none, with the store that has room
    for it. *)
Definition ensure_thread (sessionID threadID agentID : bytes) (now : Z) (s : RuntimeStateStore)
    : result runtime_error (RuntimeThread * RuntimeStateStore) :=
  match threads s !! threadID with
  | Some t => Ok (t, s)
  | None =>
      match ensureThreadCapacityLocked s with
      | Err e => Err e
      | Ok s => Ok (idle_thread sessionID threadID agentID now, s)
      end
  end.

Definition is_plan_interaction (i : RuntimeInteractionSnapshot) : bool :=
  (ri_Kind i ==b PermissionInteractionKindPlanApproval) || EqualFold (ri_ToolName i) (lit "ExitPlanMode").

Definition RestorePlanSnapshot (clock : Z) (sessionID threadID agentID : bytes) (state : RestoredPlan) (mode : bytes)
    (updatedAt : Z) (s : RuntimeStateStore) : result runtime_error RuntimeStateStore :=
  let sessionID := TrimSpace sessionID in
  let threadID := TrimSpace threadID in
  if (sessionID ==b []) || (threadID ==b []) then Err RestoreIdentity else
  if (pl_Phase state ==b []) || blank (pl_PlanFileIdentity state) then Err IncompletePlanRestore else
  let now := if updatedAt =? 0 then clock else updatedAt in
  match ensure_thread sessionID threadID agentID now s with
  | Err e => Err e
  | Ok (t, s) =>
      if th_SessionID t <>b sessionID then Err PlanRestoreSession else
      let t := t <| th_PendingInteractions ::= filter (fun kv => is_plan_interaction kv.2 = false) |>
        <| th_Plan := Some {|
          rp_Phase := pl_Phase state; rp_PermissionMode := mode; rp_PlanFileIdentity := pl_PlanFileIdentity state;
          rp_ReturnMode := pl_ReturnMode state; rp_ApprovalRequestID := pl_ApprovalRequestID state; rp_RequestID := [];
          rp_Revision := pl_Revision state; rp_Sequence := th_LastSequence t; rp_UpdatedAt := now |} |> in
      Ok (bump_revision (put_thread s threadID (touch_thread t now)))
  end.

Definition RestoreGoalSnapshot (clock : Z) (sessionID threadID agentID : bytes) (state : option goalState)
    (updatedAt : Z) (s : RuntimeStateStore) : result runtime_error RuntimeStateStore :=
  let sessionID := TrimSpace sessionID in
  let threadID := TrimSpace threadID in
  if (sessionID ==b []) || (threadID ==b []) then Err RestoreIdentity else
  if negb (blank agentID) && bool_decide (is_Some state) then Err ChildOwnsGoal else
  let now := if updatedAt =? 0 then clock else updatedAt in
  match ensure_thread sessionID threadID agentID now s with
  | Err e => Err e
  | Ok (t, s) =>
      if (th_SessionID t <>b sessionID) || (th_AgentID t <>b agentID) then Err GoalRestoreIdentity else
      let t := t <| th_Goal := goalSnapshotFromState <$> state |> in
      Ok (bump_revision (put_thread s threadID (touch_thread t now)))
  end.
End restore.

(** ** Selectors *)

Definition LastSequence (s : RuntimeStateStore) (threadID : bytes) : Z :=
  match threads s !! threadID with Some t => th_LastSequence t | None => 0 end.

Record RuntimeThreadTimingSnapshot := {
  ts_ThreadID : bytes; ts_TurnID : bytes; ts_Status : RuntimeThreadStatus; ts_ActiveDuration : Z; ts_ActiveSince : Z
}.

Definition ThreadTimingSnapshot (s : RuntimeStateStore) (threadID : bytes) : option RuntimeThreadTimingSnapshot :=
  t ← threads s !! threadID;
  if (th_ActiveTurnID t ==b []) && (th_ActiveDuration t =? 0) && (th_ActiveSince t =? 0) then None else
  Some {| ts_ThreadID := th_ThreadID t; ts_TurnID := th_ActiveTurnID t; ts_Status := th_Status t;
          ts_ActiveDuration := th_ActiveDuration t; ts_ActiveSince := th_ActiveSince t |}.

Definition Elapsed (x : RuntimeThreadTimingSnapshot) (now : Z) : Z :=
  let elapsed := ts_ActiveDuration x in
  if (ts_Status x <>b RuntimeThreadRunning) || (ts_ActiveSince x =? 0) || (now <=? ts_ActiveSince x) then elapsed else
  let active := time_sub now (ts_ActiveSince x) in
  if (0 <? active) && (MaxInt64 - active <? elapsed) then MaxInt64 else elapsed + active.

Record RuntimeSnapshot := {
  sn_SessionID : bytes; sn_ActiveThreadID : bytes; sn_Revision : Z; sn_Threads : gmap bytes RuntimeThread;
  sn_Agents : gmap bytes RuntimeAgentSnapshot; sn_Tasks : gmap bytes RuntimeTaskSnapshot;
  sn_Worktrees : gmap bytes RuntimeWorktreeSnapshot; sn_UnresolvedCount : Z; sn_DroppedThreads : Z
}.

Definition Snapshot (s : RuntimeStateStore) (activeThreadID : bytes) : RuntimeSnapshot := {|
  sn_SessionID := field_or (threads s !! activeThreadID) th_SessionID; sn_ActiveThreadID := activeThreadID;
  sn_Revision := store_revision s; sn_Threads := threads s; sn_Agents := agents s; sn_Tasks := tasks s;
  sn_Worktrees := worktrees s;
  sn_UnresolvedCount := foldr Z.add 0 ((fun kt => map_len (th_PendingInteractions kt.2)) <$> map_to_list (threads s));
  sn_DroppedThreads := droppedThreads s |}.

Definition AgentThreadSnapshot (s : RuntimeStateStore) (agentID : bytes)
    : option (RuntimeAgentSnapshot * RuntimeThread * Z) :=
  if blank agentID then None else
  agent ← agents s !! agentID;
  Some (agent, default no_thread (threads s !! ra_ThreadID agent), store_revision s).

(** The rows of a thread that the task explorer shows. *)
Definition explorer_thread (t : RuntimeThread) : RuntimeThread :=
  no_thread <| th_SessionID := th_SessionID t |> <| th_ThreadID := th_ThreadID t |> <| th_AgentID := th_AgentID t |>
    <| th_Status := th_Status t |> <| th_StartedAt := th_StartedAt t |> <| th_TurnStartedAt := th_TurnStartedAt t |>
    <| th_ActiveDuration := th_ActiveDuration t |> <| th_ActiveSince := th_ActiveSince t |>
    <| th_UpdatedAt := th_UpdatedAt t |> <| th_CompletedAt := th_CompletedAt t |>
    <| th_LastSequence := th_LastSequence t |> <| th_ActiveTurnID := th_ActiveTurnID t |>.

Definition taskExplorerRuntimeSnapshotLocked (s : RuntimeStateStore) (activeThreadID : bytes) : RuntimeSnapshot := {|
  sn_SessionID := field_or (threads s !! activeThreadID) th_SessionID; sn_ActiveThreadID := activeThreadID;
  sn_Revision := store_revision s;
  sn_Threads := foldr (fun ka m => match threads s !! ra_ThreadID ka.2 with
                                   | Some t => <[ra_ThreadID ka.2 := explorer_thread t]> m
                                   | None => m
                                   end) ∅ (map_to_list (agents s));
  sn_Agents := agents s; sn_Tasks := tasks s; sn_Worktrees := worktrees s; sn_UnresolvedCount := 0;
  sn_DroppedThreads := 0 |}.

Record RuntimeTaskExplorerSnapshot := {
  te_Runtime : RuntimeSnapshot; te_Executions : gmap RuntimeExecutionKey RuntimeExecutionSnapshot;
  te_DroppedEvents : Z; te_EvictedExecutionGenerations : Z; te_HiddenLiveExecutions : Z
}.

Definition TaskExplorerSnapshot (s : RuntimeStateStore) (activeThreadID : bytes) : RuntimeTaskExplorerSnapshot := {|
  te_Runtime := taskExplorerRuntimeSnapshotLocked s activeThreadID; te_Executions := executions s;
  te_DroppedEvents := u64 (foldr Z.add 0 ((th_DroppedEvents ∘ snd) <$> map_to_list (threads s)));
  te_EvictedExecutionGenerations := evictedExecutionGenerations s;
  te_HiddenLiveExecutions := map_len (hiddenLiveExecutions s) |}.

Definition request_order (a b : RuntimeInteractionSnapshot) : bool :=
  if ri_Sequence a =? ri_Sequence b then bytes_ltb (ri_ID a) (ri_ID b) else ri_Sequence a <? ri_Sequence b.

Definition UnresolvedRequests (x : RuntimeSnapshot) (threadID : bytes) : list RuntimeInteractionSnapshot :=
  match sn_Threads x !! threadID with
  | None => []
  | Some t => stable_sort request_order (map_to_list (th_PendingInteractions t)).*2
  end.

(** The requests that a saved session names and that still wait in this
    process. *)
Definition ActionableRequestIDs (s : RuntimeStateStore) (sessionID : bytes) (persisted : list bytes) : list bytes :=
  let wanted := list_to_set (filter (fun id => id <> []) (TrimSpace <$> persisted)) : gset bytes in
  let ours t := bool_decide (th_SessionID t = sessionID) || bool_decide (th_ParentSessionID t = sessionID) in
  let pending := ⋃ ((fun kt => dom (th_PendingInteractions kt.2)) <$> filter (fun kt => ours kt.2 = true) (map_to_list (threads s))) in
  sorted_keys (wanted ∩ pending).

Record PersistedPlanApproval := {
  pp_ApprovalRequestID : bytes; pp_Revision : Z; pp_PlanFileIdentity : bytes; pp_ApprovalInitialDigest : bytes;
  pp_ReturnMode : bytes
}.

Definition HasLivePlanApproval (s : RuntimeStateStore) (sessionID threadID : bytes) (record : PersistedPlanApproval) : bool :=
  negb (blank (pp_ApprovalRequestID record))
  && match threads s !! threadID with
     | None => false
     | Some t =>
         (th_SessionID t ==b sessionID)
         && match th_PendingInteractions t !! pp_ApprovalRequestID record with
            | None => false
            | Some r =>
                (ri_Kind r ==b PermissionInteractionKindPlanApproval) && (ri_PlanRevision r =? pp_Revision record)
                && (ri_PlanFile r ==b pp_PlanFileIdentity record)
                && (ri_PlanInitialDigest r ==b pp_ApprovalInitialDigest record)
                && (ri_PlanReturnMode r ==b pp_ReturnMode record)
            end
     end.

(** ** The sequencer *)

Definition runtimeEventCausationID (evt : QueryEvent) : bytes :=
  let toolUseID := (runtimeEventToolIdentity evt).2 in
  if toolUseID <>b [] then toolUseID else
  let task_progress := match q_TaskProgress evt with Some p => pr_TaskID p | None => [] end in
  let task_lifecycle := match q_TaskLifecycle evt with Some l => tl_TaskID l | None => [] end in
  if task_progress <>b [] then task_progress else
  if task_lifecycle <>b [] then task_lifecycle else
  match q_CommandLifecycle evt with Some uuid => uuid | None =>
  match q_CommandResult evt with Some r => lit "command:" ++ cr_Command r | None =>
  match q_HookResponse evt with Some h => hr_HookID h | None =>
  match q_ToolUseSummary evt with Some uuid => uuid | None =>
  match q_PlanStateTransition evt with Some t => pt_RequestID t | None =>
  match q_GoalLifecycle evt with
  | Some l => lit "goal:" ++ n_GoalID (gl_Goal l) ++ lit ":" ++ Z_String (n_Revision (gl_Goal l))
  | None =>
  match q_WorktreeLifecycle evt with Some l => wl_RecordID l | None =>
  let attempt := match q_ModelAttempt evt with Some a => ma_AttemptID a | None => [] end in
  if attempt <>b [] then attempt else q_TombstoneUUID evt
  end end end end end end end.

(** What an engine keeps to number the events of its threads: the numbers it
    gave last, and the first refusal. *)
Record Sequencer := { runtimeSequences : gmap bytes Z; runtimeStateErr : option runtime_error }.
#[export] Instance eta_Sequencer : Eta Sequencer := fun x => Build_Sequencer (runtimeSequences x) (runtimeStateErr x).

Section sequencer.
Context `{!Digests, !GoalIdentityText, !RuntimeJSON, !AnyNumbers}.

Definition next_sequence (q : Sequencer) (s : RuntimeStateStore) (threadID : bytes) : Z :=
  u64 (Z.max (default 0 (runtimeSequences q !! threadID)) (LastSequence s threadID) + 1).

Definition decorate (turnID : bytes) (identity : RuntimeEventEnvelope) (clock sequence : Z) (evt : QueryEvent) : QueryEvent :=
  let causation := TrimSpace (v_CausationID evt) in
  let causation := if causation ==b [] then runtimeEventCausationID evt else causation in
  let causation := if causation ==b [] then v_ParentToolUseID identity else causation in
  evt <| q_Envelope := identity <| v_TurnID := turnID |> <| v_Sequence := sequence |> <| v_Timestamp := clock |>
                                <| v_CausationID := causation |> |>.

(** The event with its envelope, the sequencer and the store, and whether the
    store accepted. *)
Definition decorateRuntimeEventWithIdentityLocked (turnID : bytes) (identity : RuntimeEventEnvelope) (clock : Z)
    (evt : QueryEvent) (q : Sequencer) (s : RuntimeStateStore) : QueryEvent * bool * Sequencer * RuntimeStateStore :=
  let sequence := next_sequence q s (v_ThreadID identity) in
  let evt := decorate turnID identity clock sequence evt in
  match Apply evt s with
  | Err e => (evt, false, q <| runtimeStateErr ::= fun first => match first with Some earlier => Some earlier | None => Some e end |>, s)
  | Ok s => (evt, true, q <| runtimeSequences ::= <[v_ThreadID identity := sequence]> |>, s)
  end.
End sequencer.
