(* ===== verification/RuntimeStoreFacts.v ===== *)
(** * Facts on the runtime store

    The orders by which entries are given up and the loops that keep maps
    within a limit; what each reduction of [RuntimeStore] leaves alone; and the
    invariant of the threads and of the store that every operation keeps. *)

From S2P Require Import Prelude GoStrings GoBase RunUsage InputCoordinator InputFacts RuntimeItem ToolSchedule Messages GoalData GoalPersistence GoalService GoalFacts RuntimeEvents RuntimeStore.

Open Scope Z_scope.

(** ** Orders *)

Lemma byte_val_inj a b : byte_val a = byte_val b -> a = b.
Proof.
  unfold byte_val. intros H. by rewrite <- (ascii_N_embedding a), <- (ascii_N_embedding b), H.
Qed.

Lemma bytes_ltb_irrefl a : bytes_ltb a a = false.
Proof.
  induction a as [|x a IH]; [done|]. cbn [bytes_ltb]. by rewrite N.ltb_irrefl, N.eqb_refl, IH.
Qed.

Lemma bytes_ltb_total a b : bytes_ltb a b = false -> bytes_ltb b a = false -> a = b.
Proof.
  revert b; induction a as [|x a IH]; intros [|y b]; try done. cbn [bytes_ltb]. intros H1 H2. breflect.
  rewrite N.ltb_ge in *. assert (byte_val x = byte_val y) as E by lia. rewrite E, N.eqb_refl in *.
  apply byte_val_inj in E as ->. f_equal. by apply IH.
Qed.

Lemma bytes_ltb_asym a b : bytes_ltb a b = true -> bytes_ltb b a = false.
Proof.
  revert b; induction a as [|x a IH]; intros [|y b]; try done. cbn [bytes_ltb].
  rewrite orb_true_iff, andb_true_iff, N.ltb_lt, N.eqb_eq. intros [Hlt|[E Hab]].
  - apply orb_false_iff; split; [apply N.ltb_ge; lia|]. apply andb_false_iff. left. apply N.eqb_neq. lia.
  - rewrite E, N.ltb_irrefl, N.eqb_refl, IH; done.
Qed.

Lemma bytes_ltb_weak a b c : bytes_ltb b a = false -> bytes_ltb c b = false -> bytes_ltb c a = false.
Proof.
  revert b c; induction a as [|x a IH]; intros [|y b] [|z c]; try done. cbn [bytes_ltb]. intros H1 H2. breflect.
  rewrite N.ltb_ge, andb_false_iff, N.eqb_neq in *. apply orb_false_iff. split; [apply N.ltb_ge; lia|].
  apply andb_false_iff. destruct (N.eqb_spec (byte_val z) (byte_val x)) as [E|]; [right|by left].
  destruct H0 as [?|H0]; [lia|]. destruct H2 as [?|H2]; [lia|]. by apply IH with b.
Qed.

(** A comparison that sorts: what is not before is transitive, and nothing
    comes before and after. *)
Class WeakOrder {A} (before : A -> A -> bool) := {
  weak_trans x y z : before y x = false -> before z y = false -> before z x = false;
  weak_asym x y : before x y = true -> before y x = false
}.

Ltac order := repeat (case_match; breflect); rewrite ?eqb_true_iff, ?eqb_false_iff, ?Z.eqb_eq, ?Z.eqb_neq, ?Z.ltb_lt, ?Z.ltb_ge in *;
  try lia; try congruence; eauto using bytes_ltb_weak, bytes_ltb_asym.

#[export] Instance eviction_order_weak {V} (terminal : V -> bool) (updatedAt : V -> Z) : WeakOrder (eviction_order terminal updatedAt).
Proof.
  split; unfold eviction_order; intros [a x] [b y].
  - intros [c z]. cbn. destruct (terminal x), (terminal y), (terminal z); cbn; order.
  - cbn. destruct (terminal x), (terminal y); cbn; order.
Qed.

#[export] Instance thread_order_weak : WeakOrder thread_order.
Proof.
  split; unfold thread_order; intros [a x] [b y].
  - intros [c z]. cbn. order.
  - cbn. order.
Qed.

#[export] Instance execution_order_weak : WeakOrder execution_order.
Proof.
  split; unfold execution_order; intros [[a n] x] [[b m] y].
  - intros [[c k] z]. cbn.
    destruct (isRuntimeTerminalAgentStatus (ra_Status (rx_Agent x))), (isRuntimeTerminalAgentStatus (ra_Status (rx_Agent y))),
      (isRuntimeTerminalAgentStatus (ra_Status (rx_Agent z))); cbn; try congruence;
    destruct (rx_OrdinalPresent x), (rx_OrdinalPresent y), (rx_OrdinalPresent z); cbn; order;
    intros; subst; exfalso; eauto using bytes_ltb_total.
  - cbn. destruct (isRuntimeTerminalAgentStatus (ra_Status (rx_Agent x))), (isRuntimeTerminalAgentStatus (ra_Status (rx_Agent y)));
      cbn; try congruence; destruct (rx_OrdinalPresent x), (rx_OrdinalPresent y); cbn; order.
Qed.

Section least.
Context {A : Type} (before : A -> A -> bool) `{!WeakOrder before}.

Lemma least_None l : least before l = None -> l = [].
Proof.
  unfold least. intros H. apply Permutation_nil. rewrite <- (stable_sort_perm before l).
  by destruct (stable_sort before l).
Qed.

Lemma least_Some l x : least before l = Some x -> x ∈ l /\ forall y, y ∈ l -> before y x = false.
Proof.
  unfold least. intros H. pose proof (stable_sort_perm before l) as Hp.
  pose proof (stable_sort_order before weak_trans weak_asym l) as Ho.
  destruct (stable_sort before l) as [|z r] eqn:E; [done|]. injection H as ->.
  split; [rewrite <- Hp; set_solver|]. intros y Hy. rewrite <- Hp in Hy.
  apply StronglySorted_inv in Ho as [_ Ho]. rewrite Forall_forall in Ho.
  apply elem_of_cons in Hy as [->|Hy]; [|by apply Ho].
  destruct (before x x) eqn:Ex; [|done]. by rewrite (weak_asym _ _ Ex) in Ex.
Qed.

(** When two entries that neither comes before the other are the same, the
    least one does not depend on the order of the list. *)
Lemma least_perm l l' :
  l ≡ₚ l' -> (forall x y, x ∈ l -> y ∈ l -> before x y = false -> before y x = false -> x = y) ->
  least before l = least before l'.
Proof.
  intros Hp Htotal. destruct (least before l) as [x|] eqn:E, (least before l') as [y|] eqn:E'.
  - apply least_Some in E as [Hx Hlx]. apply least_Some in E' as [Hy Hly]. rewrite <- Hp in Hy.
    f_equal. apply Htotal; [done..| |by apply Hlx]. apply Hly. by rewrite <- Hp.
  - apply least_None in E' as ->. apply Permutation_sym, Permutation_nil in Hp as ->. done.
  - apply least_None in E as ->. apply Permutation_nil in Hp as ->. done.
  - done.
Qed.
End least.

(** The entries of a map are told apart by their keys. *)
Lemma eviction_order_total {V} (terminal : V -> bool) (updatedAt : V -> Z) (m : gmap bytes V) x y :
  x ∈ map_to_list m -> y ∈ map_to_list m -> eviction_order terminal updatedAt x y = false ->
  eviction_order terminal updatedAt y x = false -> x = y.
Proof.
  destruct x as [a x], y as [b y]. rewrite !elem_of_map_to_list. intros Hx Hy. unfold eviction_order; cbn.
  destruct (terminal x) eqn:E1, (terminal y) eqn:E2; cbn; try congruence; rewrite (Z.eqb_sym (updatedAt y));
    destruct (Z.eqb_spec (updatedAt x) (updatedAt y)); rewrite ?Z.ltb_ge; intros H1 H2; try lia;
    assert (a = b) as -> by (by apply bytes_ltb_total); congruence.
Qed.

(** ** Keeping within a limit *)

Section enforce.
Context {K V : Type} `{Countable K} (before : K * V -> K * V -> bool) (limit : Z).

Lemma enforce_limit_subseteq fuel (m : gmap K V) : enforce_limit before limit fuel m ⊆ m.
Proof.
  revert m; induction fuel as [|fuel IH]; intros m; [done|]. cbn [enforce_limit]. repeat case_match; try done.
  etrans; [apply IH|]. apply delete_subseteq.
Qed.

Lemma enforce_limit_bound fuel (m : gmap K V) :
  0 <= limit -> (size m <= fuel)%nat -> map_len (enforce_limit before limit fuel m) <= limit.
Proof.
  intros Hl. revert m; induction fuel as [|fuel IH]; intros m Hm; cbn [enforce_limit].
  - unfold map_len. lia.
  - destruct (Z.ltb_spec limit (map_len m)); [|done]. destruct (least before (map_to_list m)) as [kv|] eqn:E.
    + apply IH. assert (is_Some (m !! kv.1)) as [v Hv].
      { apply (f_equal (fmap fst)) in E. unfold least in E. destruct (stable_sort before _) as [|x r] eqn:Es; [done|].
        injection E as <-. assert (x ∈ map_to_list m) as Hx by (rewrite <- (stable_sort_perm before), Es; set_solver).
        destruct x as [k v]. apply elem_of_map_to_list in Hx. by exists v. }
      rewrite map_size_delete_Some by (by exists v). lia.
    + exfalso. unfold least in E. pose proof (stable_sort_perm before (map_to_list m)) as Hp.
      destruct (stable_sort before _); [|done]. apply Permutation_nil in Hp.
      apply map_to_list_empty_iff in Hp as ->. unfold map_len in *. rewrite map_size_empty in *. lia.
Qed.
End enforce.

Lemma enforce_executions_frame fuel s :
  exists hidden evicted kept, kept ⊆ executions s /\
    enforce_executions fuel s =
      s <| hiddenLiveExecutions := hidden |> <| evictedExecutionGenerations := evicted |> <| executions := kept |>.
Proof.
  revert s; induction fuel as [|fuel IH]; intros s; cbn [enforce_executions].
  - exists (hiddenLiveExecutions s), (evictedExecutionGenerations s), (executions s). by destruct s.
  - case_match; [|exists (hiddenLiveExecutions s), (evictedExecutionGenerations s), (executions s); by destruct s].
    destruct (least _ _) as [[key removed]|];
      [|exists (hiddenLiveExecutions s), (evictedExecutionGenerations s), (executions s); by destruct s].
    edestruct IH as (h & e & k & Hk & ->). exists h, e, k. split.
    + etrans; [exact Hk|]. case_match; cbn; apply delete_subseteq.
    + by case_match.
Qed.

Lemma least_elem {A} (before : A -> A -> bool) l x : least before l = Some x -> x ∈ l.
Proof.
  unfold least. intros E. rewrite <- (stable_sort_perm before l). destruct (stable_sort before l); [done|].
  injection E as ->. set_solver.
Qed.

Lemma enforce_executions_bound fuel s :
  0 <= Agents (limits s) -> (size (executions s) <= fuel)%nat ->
  map_len (executions (enforce_executions fuel s)) <= Agents (limits s).
Proof.
  intros Hl. revert s Hl; induction fuel as [|fuel IH]; intros s Hl Hm; cbn [enforce_executions].
  - unfold map_len. lia.
  - destruct (Z.ltb_spec (Agents (limits s)) (map_len (executions s))); [|done].
    destruct (least execution_order _) as [[key removed]|] eqn:E.
    + apply least_elem, elem_of_map_to_list in E. set (s1 := _ <| evictedExecutionGenerations := _ |>).
      assert (limits s1 = limits s /\ executions s1 = delete key (executions s)) as [Hlim Hex]
        by (subst s1; by case_match).
      rewrite <- Hlim. apply IH; [by rewrite Hlim|]. rewrite Hex, map_size_delete_Some by (by exists removed). lia.
    + exfalso. apply (least_None execution_order), map_to_list_empty_iff in E.
      rewrite E in *. unfold map_len in *. rewrite map_size_empty in *. lia.
Qed.

(** ** What the reductions of a thread leave alone *)

(** Proves that a function changes only the fields of the statement, given their
    values. *)
Ltac frame t := destruct t; repeat case_match; reflexivity.

Lemma appendEventLocked_frame lim t record :
  exists events dropped, appendEventLocked lim t record = t <| th_Events := events |> <| th_DroppedEvents := dropped |>.
Proof.
  exists (th_Events (appendEventLocked lim t record)), (th_DroppedEvents (appendEventLocked lim t record)).
  unfold appendEventLocked. frame t.
Qed.

Lemma complete_message_frame lim t m :
  exists messages dropped, complete_message lim t m =
    t <| th_Messages := messages |> <| th_LiveMessage := None |> <| th_DroppedMessages := dropped |>.
Proof. repeat eexists. Qed.

Lemma reduceLiveAssistantLocked_frame t evt m :
  exists live, reduceLiveAssistantLocked t evt m = t <| th_LiveMessage := live |>.
Proof. unfold reduceLiveAssistantLocked. repeat case_match; eexists; reflexivity. Qed.

Lemma same_messages t :
  t = t <| th_Messages := th_Messages t |> <| th_LiveMessage := th_LiveMessage t |>
        <| th_DroppedMessages := th_DroppedMessages t |>.
Proof. by destruct t. Qed.

Lemma reduceMessageLocked_frame lim t evt :
  exists messages live dropped,
    reduceMessageLocked lim t evt =
      t <| th_Messages := messages |> <| th_LiveMessage := live |> <| th_DroppedMessages := dropped |>.
Proof.
  unfold reduceMessageLocked. destruct (q_Type evt ==b EventTombstone) eqn:Et.
  { case_match; repeat eexists; [apply same_messages|]. etrans; [apply same_messages|reflexivity]. }
  destruct (runtimeMessageForEvent evt) as [msg completed].
  match goal with |- context [match th_LiveMessage ?x with _ => _ end] => set (t1 := x) end.
  assert (exists messages live dropped, t1 =
    t <| th_Messages := messages |> <| th_LiveMessage := live |> <| th_DroppedMessages := dropped |>)
    as (ms & l & d & ->).
  { subst t1. destruct msg as [m|]; [|repeat eexists; apply same_messages]. destruct completed.
    - edestruct complete_message_frame as (? & ? & ->). by repeat eexists.
    - case_match; [|repeat eexists; apply same_messages].
      edestruct reduceLiveAssistantLocked_frame as (live & ->). exists (th_Messages t), live, (th_DroppedMessages t).
      by destruct t. }
  repeat case_match; [|by repeat eexists..]. edestruct complete_message_frame as (? & ? & ->). by repeat eexists.
Qed.

Lemma upsertToolLocked_frame lim t tool :
  exists tools order, upsertToolLocked lim t tool = t <| th_Tools := tools |> <| th_ToolOrder := order |>.
Proof.
  exists (th_Tools (upsertToolLocked lim t tool)), (th_ToolOrder (upsertToolLocked lim t tool)).
  unfold upsertToolLocked. frame t.
Qed.

Lemma reduceInteractionLocked_frame `{!RuntimeJSON} t evt :
  exists pending status completed,
    reduceInteractionLocked t evt =
      t <| th_PendingInteractions := pending |> <| th_Status := status |> <| th_CompletedAt := completed |>.
Proof.
  exists (th_PendingInteractions (reduceInteractionLocked t evt)), (th_Status (reduceInteractionLocked t evt)), (th_CompletedAt (reduceInteractionLocked t evt)).
  unfold reduceInteractionLocked. frame t.
Qed.

Lemma reducePlanLocked_frame t evt : exists plan, reducePlanLocked t evt = t <| th_Plan := plan |>.
Proof.
  exists (th_Plan (reducePlanLocked t evt)).
  unfold reducePlanLocked. frame t.
Qed.

Lemma reduceGoalLocked_frame t evt : exists goal, reduceGoalLocked t evt = t <| th_Goal := goal |>.
Proof.
  exists (th_Goal (reduceGoalLocked t evt)).
  unfold reduceGoalLocked. frame t.
Qed.

Lemma reduceTerminalLocked_frame t evt :
  exists terminal completed status,
    reduceTerminalLocked t evt = t <| th_LastTerminal := terminal |> <| th_CompletedAt := completed |> <| th_Status := status |>.
Proof.
  exists (th_LastTerminal (reduceTerminalLocked t evt)), (th_CompletedAt (reduceTerminalLocked t evt)), (th_Status (reduceTerminalLocked t evt)).
  unfold reduceTerminalLocked. frame t.
Qed.

Lemma enter_turn_frame t evt :
  exists turn live status completed started generation,
    enter_turn t evt =
      t <| th_ActiveTurnID := turn |> <| th_LiveMessage := live |> <| th_Status := status |>
        <| th_CompletedAt := completed |> <| th_TurnStartedAt := started |> <| th_AgentGeneration := generation |>.
Proof.
  exists (th_ActiveTurnID (enter_turn t evt)), (th_LiveMessage (enter_turn t evt)), (th_Status (enter_turn t evt)), (th_CompletedAt (enter_turn t evt)), (th_TurnStartedAt (enter_turn t evt)), (th_AgentGeneration (enter_turn t evt)).
  unfold enter_turn. frame t.
Qed.

Lemma updateRuntimeThreadTiming_frame t turn status now :
  exists duration since,
    updateRuntimeThreadTiming t turn status now = t <| th_ActiveDuration := duration |> <| th_ActiveSince := since |>.
Proof.
  exists (th_ActiveDuration (updateRuntimeThreadTiming t turn status now)), (th_ActiveSince (updateRuntimeThreadTiming t turn status now)).
  unfold updateRuntimeThreadTiming. frame t.
Qed.

(** ** The invariant of a thread *)

(** Whether the clock of a thread runs. *)
Definition active (t : RuntimeThread) : bool := (th_ActiveTurnID t <>b []) && (th_Status t ==b RuntimeThreadRunning).

(** The order of the tools lists the tools, each once. *)
Record tools_ok (limit : Z) (tools : gmap bytes RuntimeToolSnapshot) (order : list bytes) : Prop := {
  ok_tools_distinct : NoDup order;
  ok_tools_listed id : id ∈ order <-> is_Some (tools !! id);
  ok_tools_limit : zlen order <= limit
}.

(** The clock has a start exactly when it runs, and a duration of 64 bits. *)
Record clock_ok (t : RuntimeThread) : Prop := {
  ok_since : th_ActiveSince t <> 0 <-> active t = true;
  ok_duration : 0 <= th_ActiveDuration t <= MaxInt64
}.

Record body_ok (lim : RuntimeStoreLimits) (id : bytes) (t : RuntimeThread) : Prop := {
  ok_id : th_ThreadID t = id;
  ok_sequence : is_u64 (th_LastSequence t);
  ok_events : zlen (th_Events t) <= EventsPerThread lim;
  ok_messages : zlen (th_Messages t) <= MessagesPerThread lim;
  ok_tools : tools_ok (ToolsPerThread lim) (th_Tools t) (th_ToolOrder t);
  ok_pending : map_len (th_PendingInteractions t) <= InteractionsPerThread lim
}.

Definition thread_ok (lim : RuntimeStoreLimits) (id : bytes) (t : RuntimeThread) : Prop := body_ok lim id t /\ clock_ok t.

Record limits_ok (lim : RuntimeStoreLimits) : Prop := {
  ok_lim_events : 0 < EventsPerThread lim; ok_lim_messages : 0 < MessagesPerThread lim;
  ok_lim_tools : 0 < ToolsPerThread lim; ok_lim_interactions : 0 < InteractionsPerThread lim;
  ok_lim_threads : 0 < Threads lim; ok_lim_agents : 0 < Agents lim; ok_lim_tasks : 0 < Tasks lim;
  ok_lim_worktrees : 0 < Worktrees lim
}.

Lemma normalize_ok l : limits_ok (normalizeRuntimeStoreLimits l).
Proof. split; cbn; unfold limit_or; case_match; rewrite ?Z.leb_gt in *; lia. Qed.

Lemma overflow_drop {A} limit (l : list A) : 0 <= limit -> zlen (drop (overflow limit l) l) <= limit.
Proof. unfold zlen, overflow, zlen. rewrite length_drop. lia. Qed.

(** *** Tools *)

Lemma elem_of_delete_NoDup {A} (l : list A) i x y : NoDup l -> l !! i = Some x -> y ∈ delete i l <-> y ∈ l /\ y <> x.
Proof.
  intros Hnd Hi. pose proof (delete_Permutation l i x Hi) as Hp. generalize dependent (delete i l). intros d Hp.
  rewrite Hp in Hnd |- *.
  apply NoDup_cons in Hnd as [Hx _]. rewrite elem_of_cons. naive_solver.
Qed.

Lemma bound_tools_ok fuel limit tools order :
  0 <= limit -> NoDup order -> (forall id, id ∈ order <-> is_Some (tools !! id)) -> (length order <= fuel)%nat ->
  tools_ok limit (bound_tools fuel limit tools order).1 (bound_tools fuel limit tools order).2.
Proof.
  intros Hl. revert tools order; induction fuel as [|fuel IH]; intros tools order Hnd Hin Hlen; cbn [bound_tools].
  { split; cbn; [done..|]. unfold zlen. lia. }
  destruct (Z.ltb_spec limit (zlen order)); [|by split]. set (index := default _ _).
  assert (is_Some (order !! index)) as [id Hid].
  { subst index. destruct (list_find _ _) as [[i x]|] eqn:E; cbn.
    - apply list_find_Some in E as [E _]. by rewrite E.
    - apply lookup_lt_is_Some_2. unfold zlen in *. lia. }
  rewrite Hid. apply IH.
  - eapply sublist_NoDup; [exact Hnd|apply sublist_delete].
  - intros y. rewrite (elem_of_delete_NoDup _ _ id) by done. rewrite Hin, lookup_delete_is_Some. naive_solver.
  - apply lookup_lt_Some in Hid. rewrite length_delete by (by apply lookup_lt_is_Some_2). lia.
Qed.

Lemma upsertToolLocked_ok lim t tool :
  0 <= ToolsPerThread lim -> tools_ok (ToolsPerThread lim) (th_Tools t) (th_ToolOrder t) ->
  tools_ok (ToolsPerThread lim) (th_Tools (upsertToolLocked lim t tool)) (th_ToolOrder (upsertToolLocked lim t tool)).
Proof.
  intros Hl [Hnd Hin _]. unfold upsertToolLocked.
  set (order := match th_Tools t !! ro_ID tool with None => _ | Some _ => _ end).
  pose proof (bound_tools_ok (length order) (ToolsPerThread lim) (<[ro_ID tool := tool]> (th_Tools t)) order Hl) as H.
  destruct (bound_tools _ _ _ _) as [tools' order']. cbn. apply H; [| |done]; subst order.
  - destruct (th_Tools t !! ro_ID tool) eqn:E; [done|]. apply NoDup_app; split; [done|]. split.
    + intros x Hx ->%list_elem_of_singleton. apply Hin in Hx as [? ?]. congruence.
    + apply NoDup_singleton.
  - intros id. rewrite lookup_insert_is_Some. destruct (th_Tools t !! ro_ID tool) eqn:E.
    + rewrite Hin. split; [|intros [<-|[_ ?]]; [by rewrite E|done]].
      intros ?. destruct (decide (ro_ID tool = id)); [by left|by right].
    + rewrite elem_of_app, Hin, list_elem_of_singleton. split.
      * intros [?| ->]; [|by left]. destruct (decide (ro_ID tool = id)); [by left|by right].
      * intros [ ->|[_ ?]]; [by right|by left].
Qed.

(** The reduction of the tools changes only the tools, and keeps them in order. *)
Definition tools_step (lim : RuntimeStoreLimits) (t t' : RuntimeThread) : Prop :=
  (exists tools order, t' = t <| th_Tools := tools |> <| th_ToolOrder := order |>)
  /\ (tools_ok (ToolsPerThread lim) (th_Tools t) (th_ToolOrder t) ->
      tools_ok (ToolsPerThread lim) (th_Tools t') (th_ToolOrder t')).

Lemma tools_step_refl lim t : tools_step lim t t.
Proof. split; [|done]. exists (th_Tools t), (th_ToolOrder t). by destruct t. Qed.

Lemma tools_step_trans lim t t' t'' : tools_step lim t t' -> tools_step lim t' t'' -> tools_step lim t t''.
Proof. intros [(a & b & ->) H1] [(c & d & ->) H2]. split; [by repeat eexists|auto]. Qed.

Lemma tools_step_upsert lim t tool : 0 <= ToolsPerThread lim -> tools_step lim t (upsertToolLocked lim t tool).
Proof. intros Hl. split; [apply upsertToolLocked_frame|by apply upsertToolLocked_ok]. Qed.

Lemma reduceToolLocked_step lim t evt : 0 <= ToolsPerThread lim -> tools_step lim t (reduceToolLocked lim t evt).
Proof.
  intros Hl. unfold reduceToolLocked.
  set (t1 := match (runtimeMessageForEvent evt).1 with None => _ | Some _ => _ end).
  assert (tools_step lim t t1) as H1.
  { subst t1. destruct (runtimeMessageForEvent evt).1 as [m|]; [|apply tools_step_refl].
    generalize (m_ToolCalls m); intros calls. clear m. revert t; induction calls as [|call calls IH]; intros t;
      [apply tools_step_refl|]. cbn [foldl]. eapply tools_step_trans; [|apply IH].
    case_match; [apply tools_step_refl|by apply tools_step_upsert]. }
  set (t2 := match q_ToolProgress evt with None => _ | Some _ => _ end).
  assert (tools_step lim t t2) as H2.
  { eapply tools_step_trans; [exact H1|]. subst t2. repeat case_match; [apply tools_step_refl|..|apply tools_step_refl];
      by apply tools_step_upsert. }
  eapply tools_step_trans; [exact H2|]. repeat case_match; first [apply tools_step_refl|by apply tools_step_upsert].
Qed.

(** *** The clock *)

Lemma time_sub_range a b : b < a -> 0 < time_sub a b <= MaxInt64.
Proof. unfold time_sub, MaxInt64. lia. Qed.

Lemma saturating_add d a : (if MaxInt64 - a <? d then MaxInt64 else d + a) = Z.min MaxInt64 (d + a).
Proof. destruct (Z.ltb_spec (MaxInt64 - a) d); lia. Qed.

Lemma updateRuntimeThreadTiming_active t turn status now :
  active (updateRuntimeThreadTiming t turn status now) = active t.
Proof. destruct (updateRuntimeThreadTiming_frame t turn status now) as (d & x & ->). done. Qed.

(** The clock of a thread after an event, when its start tells whether it ran
    before. *)
Lemma updateRuntimeThreadTiming_ok t turn status now :
  now <> 0 -> (th_ActiveSince t <> 0 <-> (turn <>b []) && (status ==b RuntimeThreadRunning) = true) ->
  0 <= th_ActiveDuration t <= MaxInt64 -> clock_ok (updateRuntimeThreadTiming t turn status now).
Proof.
  intros Hnow Hsince Hd. split; rewrite ?updateRuntimeThreadTiming_active.
  - unfold updateRuntimeThreadTiming, active in *. cbv zeta.
    set (was := (turn <>b []) && (status ==b RuntimeThreadRunning)) in *.
    set (runs := (th_ActiveTurnID t <>b []) && (th_Status t ==b RuntimeThreadRunning)) in *.
    set (same := th_ActiveTurnID t ==b turn).
    destruct (Z.eqb_spec (th_ActiveSince t) 0) as [E|E], was, runs eqn:Ei, same; subst runs; cbn;
      try rewrite Ei; try tauto; repeat case_match; cbn; try rewrite Ei in *; cbn in *; try done; try tauto;
      rewrite ?E in *; cbn in *; try done; try tauto; lia.
  - unfold updateRuntimeThreadTiming. cbv zeta. repeat case_match; cbn; try lia; rewrite Z.ltb_lt in *;
      match goal with H : th_ActiveSince t < now |- _ => pose proof (time_sub_range _ _ H) end;
      rewrite saturating_add; unfold MaxInt64 in *; lia.
Qed.

(** ** An event keeps the invariant of its thread *)

Section thread_after.
Context `{!Digests, !GoalIdentityText, !RuntimeJSON, !AnyNumbers}.
Context (lim : RuntimeStoreLimits) (Hlim : limits_ok lim) (id : bytes).
Implicit Types (t : RuntimeThread) (evt : QueryEvent).

Lemma enter_turn_body t evt : body_ok lim id t -> body_ok lim id (enter_turn t evt).
Proof. destruct (enter_turn_frame t evt) as (? & ? & ? & ? & ? & ? & ->). by intros []. Qed.

Lemma count_event_body t evt : is_u64 (v_Sequence evt) -> body_ok lim id t -> body_ok lim id (count_event t evt).
Proof. by intros ? []. Qed.

Lemma appendEventLocked_body t record : body_ok lim id t -> body_ok lim id (appendEventLocked lim t record).
Proof.
  intros [? ? ? ? ? ?]. split; try done. unfold appendEventLocked; cbn. apply overflow_drop. pose proof (ok_lim_events lim Hlim). lia.
Qed.

Lemma complete_message_body t m : body_ok lim id t -> body_ok lim id (complete_message lim t m).
Proof.
  intros [? ? ? ? ? ?]. split; try done. unfold complete_message, boundMessagesLocked; cbn. apply overflow_drop.
  pose proof (ok_lim_messages lim Hlim). lia.
Qed.

Lemma zlen_filter {A} (P : A -> Prop) `{forall x, Decision (P x)} l : zlen (filter P l) <= zlen l.
Proof. unfold zlen. pose proof (length_filter P l). lia. Qed.

Lemma reduceMessageLocked_body t evt : body_ok lim id t -> body_ok lim id (reduceMessageLocked lim t evt).
Proof.
  intros Hok. unfold reduceMessageLocked. destruct (q_Type evt ==b EventTombstone).
  { case_match; [done|]. destruct Hok as [? ? ? ? ? ?]. split; try done. cbn. etrans; [apply zlen_filter|done]. }
  destruct (runtimeMessageForEvent evt) as [msg completed].
  match goal with |- context [match th_LiveMessage ?x with _ => _ end] => assert (body_ok lim id x) as Hstep end.
  { destruct msg as [m|]; [|done]. destruct completed; [by apply complete_message_body|]. case_match; [|done].
    destruct (reduceLiveAssistantLocked_frame t evt m) as (? & ->). by destruct Hok. }
  revert Hstep. match goal with |- body_ok _ _ ?x -> _ => generalize x end. intros t1 Hstep.
  destruct (th_LiveMessage t1) as [live|]; [|done]. case_match; [|done]. by apply complete_message_body.
Qed.

Lemma reduceToolLocked_body t evt : body_ok lim id t -> body_ok lim id (reduceToolLocked lim t evt).
Proof.
  intros [? ? ? ? Ht ?]. pose proof (ok_lim_tools lim Hlim).
  destruct (reduceToolLocked_step lim t evt) as [(a & b & Ef) Hs]; [lia|]. specialize (Hs Ht).
  rewrite Ef in *. by split.
Qed.

(** There is room for the request of the event. *)
Definition room t evt : Prop := too_many_interactions lim (Some t) evt = false.

Lemma reduceInteractionLocked_body t evt : room t evt -> body_ok lim id t -> body_ok lim id (reduceInteractionLocked t evt).
Proof.
  unfold room, too_many_interactions. intros Hroom Hok. unfold reduceInteractionLocked.
  destruct (q_Type evt) eqn:Et; try done.
  - rewrite bool_decide_eq_true_2 in Hroom by done. destruct (q_PermissionRequest evt) as [r|]; [|done].
    destruct Hok as [? ? ? ? ? Hp]. split; try done. cbn. unfold map_len in *.
    destruct (th_PendingInteractions t !! pq_ToolUseID r) eqn:E.
    + rewrite map_size_insert_Some by done. done.
    + rewrite map_size_insert_None by done. rewrite bool_decide_eq_true_2 in Hroom by done. cbn in Hroom.
      apply Z.leb_gt in Hroom. lia.
  - clear Hroom. destruct (q_PermissionRequest evt), (q_PermissionResolved evt) as [r|]; try done;
    (destruct Hok as [? ? ? ? ? Hp];
     assert (map_len (delete (ps_ToolUseID r) (th_PendingInteractions t)) <= InteractionsPerThread lim)
       by (unfold map_len in *; pose proof (map_subseteq_size _ _ (delete_subseteq (th_PendingInteractions t) (ps_ToolUseID r))); lia);
     cbv zeta; match goal with |- context [if ?b then _ else _] => destruct b end; by split).
Qed.

Lemma reduce_rest_body t evt :
  body_ok lim id t -> body_ok lim id (reduceTerminalLocked (reduceGoalLocked (reducePlanLocked t evt) evt) evt).
Proof.
  intros Hok. destruct (reducePlanLocked_frame t evt) as (? & ->).
  match goal with |- context [reduceGoalLocked ?x evt] => destruct (reduceGoalLocked_frame x evt) as (? & ->) end.
  match goal with |- context [reduceTerminalLocked ?x evt] => destruct (reduceTerminalLocked_frame x evt) as (? & ? & ? & ->) end.
  by destruct Hok.
Qed.

(** The fields that the reductions of a thread leave alone. *)
Definition kept t :=
  (th_ThreadID t, th_ActiveTurnID t, th_LastSequence t, th_ActiveDuration t, th_ActiveSince t, th_Events t,
   th_DroppedEvents t, th_SessionID t, th_AgentID t).

Lemma kept_clock t t' :
  kept t = kept t' -> th_ActiveDuration t = th_ActiveDuration t' /\ th_ActiveSince t = th_ActiveSince t'.
Proof. unfold kept. by intros [= ]. Qed.

Lemma reduce_thread_kept t evt : kept (reduce_thread lim t evt) = kept t.
Proof.
  unfold reduce_thread. destruct (reduceMessageLocked_frame lim t evt) as (? & ? & ? & ->).
  match goal with |- context [reduceToolLocked lim ?x evt] =>
    destruct (reduceToolLocked_step lim x evt) as [(? & ? & ->) _] end.
  { pose proof (ok_lim_tools lim Hlim). lia. }
  match goal with |- context [reduceInteractionLocked ?x evt] => destruct (reduceInteractionLocked_frame x evt) as (? & ? & ? & ->) end.
  match goal with |- context [reducePlanLocked ?x evt] => destruct (reducePlanLocked_frame x evt) as (? & ->) end.
  match goal with |- context [reduceGoalLocked ?x evt] => destruct (reduceGoalLocked_frame x evt) as (? & ->) end.
  match goal with |- context [reduceTerminalLocked ?x evt] => destruct (reduceTerminalLocked_frame x evt) as (? & ? & ? & ->) end.
  reflexivity.
Qed.

Lemma reduce_thread_body t evt : room t evt -> body_ok lim id t -> body_ok lim id (reduce_thread lim t evt).
Proof.
  intros Hroom Hok. unfold reduce_thread. apply reduce_rest_body, reduceInteractionLocked_body.
  - unfold room, too_many_interactions in *. pose proof (ok_lim_tools lim Hlim).
    destruct (reduceToolLocked_step lim (reduceMessageLocked lim t evt) evt) as [(? & ? & ->) _]; [lia|].
    by destruct (reduceMessageLocked_frame lim t evt) as (? & ? & ? & ->).
  - by apply reduceToolLocked_body, reduceMessageLocked_body.
Qed.

Lemma body_goal t g : body_ok lim id t -> body_ok lim id (t <| th_Goal := g |>).
Proof. by intros []. Qed.

Lemma body_clock t d x : body_ok lim id t -> body_ok lim id (t <| th_ActiveDuration := d |> <| th_ActiveSince := x |>).
Proof. by intros []. Qed.

Lemma clock_goal t g : clock_ok t -> clock_ok (t <| th_Goal := g |>).
Proof. by intros []. Qed.

(** The thread that is entered, with its number and its record. *)
Definition entered t evt : RuntimeThread :=
  appendEventLocked lim (count_event (enter_turn t evt) evt) (runtimeEventRecord evt).

Lemma entered_clock t evt :
  th_ActiveSince (entered t evt) = th_ActiveSince t /\ th_ActiveDuration (entered t evt) = th_ActiveDuration t.
Proof.
  unfold entered. destruct (appendEventLocked_frame lim (count_event (enter_turn t evt) evt) (runtimeEventRecord evt)) as (? & ? & ->).
  by destruct (enter_turn_frame t evt) as (? & ? & ? & ? & ? & ? & ->).
Qed.

Lemma entered_body t evt : is_u64 (v_Sequence evt) -> body_ok lim id t -> body_ok lim id (entered t evt).
Proof. intros. by apply appendEventLocked_body, count_event_body, enter_turn_body. Qed.

Lemma thread_after_ok t turn status evt :
  thread_ok lim id t -> (th_ActiveSince t <> 0 <-> (turn <>b []) && (status ==b RuntimeThreadRunning) = true) ->
  v_Timestamp evt <> 0 -> is_u64 (v_Sequence evt) -> room t evt -> thread_ok lim id (thread_after lim t turn status evt).
Proof.
  intros [Hok Hc] Hsince Hnow Hseq Hroom. unfold thread_after. fold (entered t evt).
  pose proof (entered_body t evt Hseq Hok) as He. pose proof (entered_clock t evt) as [Es Ed].
  destruct (isGoalUsageLifecycle evt) eqn:Eu.
  - destruct (reduceGoalLocked_frame (entered t evt) evt) as (? & ->). split; [by apply body_goal|]. apply clock_goal.
    unfold entered, enter_turn. rewrite Eu.
    destruct (appendEventLocked_frame lim (count_event t evt) (runtimeEventRecord evt)) as (? & ? & ->). by destruct Hc.
  - assert (room (entered t evt) evt) as Hroom'.
    { unfold room, too_many_interactions, entered in *.
      destruct (appendEventLocked_frame lim (count_event (enter_turn t evt) evt) (runtimeEventRecord evt)) as (? & ? & ->).
      by destruct (enter_turn_frame t evt) as (? & ? & ? & ? & ? & ? & ->). }
    pose proof (reduce_thread_body _ _ Hroom' He) as Hr. pose proof (reduce_thread_kept (entered t evt) evt) as Hk.
    assert (th_ActiveDuration (reduce_thread lim (entered t evt) evt) = th_ActiveDuration t
            /\ th_ActiveSince (reduce_thread lim (entered t evt) evt) = th_ActiveSince t) as [Kd Ks]
      by (rewrite <- Es, <- Ed; apply (kept_clock _ _ Hk)). split.
    + destruct (updateRuntimeThreadTiming_frame (reduce_thread lim (entered t evt) evt) turn status (v_Timestamp evt))
        as (? & ? & ->). by apply body_clock.
    + apply updateRuntimeThreadTiming_ok; [done|by rewrite Ks|rewrite Kd; apply Hc].
Qed.

Lemma new_thread_ok evt : v_ThreadID evt = id -> thread_ok lim id (new_thread evt).
Proof.
  intros Hid. pose proof Hlim as []. unfold new_thread.
  split; [|case_match; split; cbn; unfold active, MaxInt64; cbn; try lia; done].
  split; try (case_match; cbn; unfold zlen, map_len, is_u64, MaxUint64; cbn; rewrite ?map_size_empty; lia || done).
  case_match; (split; cbn; [constructor|intros x; rewrite lookup_empty; split; [by intros ?%elem_of_nil|by intros []]|unfold zlen; cbn; lia]).
Qed.
End thread_after.

(** ** The invariant of the store *)

Record store_ok (s : RuntimeStateStore) : Prop := {
  ok_limits : limits_ok (limits s);
  ok_thread id t : threads s !! id = Some t -> thread_ok (limits s) id t;
  ok_threads : map_len (threads s) <= Threads (limits s);
  ok_agents : map_len (agents s) <= Agents (limits s);
  ok_executions : map_len (executions s) <= Agents (limits s);
  ok_tasks : map_len (tasks s) <= Tasks (limits s)
}.

(** What the reductions of the rest of the store leave alone. *)
Definition core (s : RuntimeStateStore) := (limits s, store_revision s, droppedThreads s, threads s).

Section store.
Context `{!Digests, !GoalIdentityText, !RuntimeJSON, !AnyNumbers}.
Implicit Types (s : RuntimeStateStore) (evt : QueryEvent).

Lemma recordExecutionObservationLocked_frame s agentID present replay :
  exists ordinal evicted kept hidden,
    recordExecutionObservationLocked s agentID present replay =
      s <| executionOrdinal := ordinal |> <| evictedExecutionGenerations := evicted |> <| executions := kept |>
        <| hiddenLiveExecutions := hidden |>.
Proof.
  assert (exists ordinal evicted kept hidden, s = s <| executionOrdinal := ordinal |>
    <| evictedExecutionGenerations := evicted |> <| executions := kept |> <| hiddenLiveExecutions := hidden |>) as Hs.
  { exists (executionOrdinal s), (evictedExecutionGenerations s), (executions s), (hiddenLiveExecutions s). by destruct s. }
  unfold recordExecutionObservationLocked. destruct (agents s !! agentID) as [a|]; [|done]. case_match; [done|].
  unfold enforceExecutionLimitLocked.
  match goal with |- context [enforce_executions ?n ?x] => destruct (enforce_executions_frame n x) as (? & ? & ? & _ & ->) end.
  by repeat eexists.
Qed.

(** A record of an observation keeps the executions within their limit. *)
Lemma recordExecutionObservationLocked_bound s agentID present replay :
  0 <= Agents (limits s) -> map_len (executions s) <= Agents (limits s) ->
  map_len (executions (recordExecutionObservationLocked s agentID present replay)) <= Agents (limits s).
Proof.
  intros Hl Hx. unfold recordExecutionObservationLocked. destruct (agents s !! agentID) as [a|]; [|done].
  case_match; [done|]. unfold enforceExecutionLimitLocked.
  match goal with |- context [enforce_executions ?n ?x] => pose proof (enforce_executions_bound n x Hl (le_n _)) as Hb end.
  exact Hb.
Qed.

(** Any sequence of observations. *)
Lemma observations s ids :
  let s' := foldl (fun s agentID => recordExecutionObservationLocked s agentID true false) s ids in
  core s' = core s /\ agents s' = agents s /\ tasks s' = tasks s /\ worktrees s' = worktrees s
  /\ (0 <= Agents (limits s) -> map_len (executions s) <= Agents (limits s) -> map_len (executions s') <= Agents (limits s)).
Proof.
  revert s; induction ids as [|id ids IH]; intros s; cbn; [done|].
  destruct (IH (recordExecutionObservationLocked s id true false)) as (Hc & Ha & Ht & Hw & Hx).
  pose proof (recordExecutionObservationLocked_bound s id true false) as Hb.
  destruct (recordExecutionObservationLocked_frame s id true false) as (? & ? & ? & ? & E). rewrite E in *.
  split_and!; try done. intros Hl Hs. apply Hx; [done|]. by apply Hb.
Qed.

(** The bounds of the rest of the store. *)
Record rest_ok s : Prop := {
  rest_limits : limits_ok (limits s);
  rest_agents : map_len (agents s) <= Agents (limits s);
  rest_executions : map_len (executions s) <= Agents (limits s);
  rest_tasks : map_len (tasks s) <= Tasks (limits s)
}.

Lemma reduceAgentLocked_ok s t evt :
  rest_ok s -> core (reduceAgentLocked s t evt) = core s /\ worktrees (reduceAgentLocked s t evt) = worktrees s
               /\ rest_ok (reduceAgentLocked s t evt).
Proof.
  intros [Hl Ha Hx Ht]. unfold reduceAgentLocked.
  match goal with |- context [foldl ?f ?s0 ?ids] =>
    destruct (observations s0 ids) as (Hc & Ha' & Ht' & Hw & Hx'); generalize dependent (foldl f s0 ids); intros s1 Hc _ Ht' Hw Hx' end.
  pose proof (ok_lim_agents _ Hl). unfold core in Hc. cbn in Hc, Ht', Hw, Hx'. injection Hc as El Er Ed Et.
  unfold core. split_and!; [by cbn; rewrite El, Er, Ed, Et|done|].
  split; cbn; rewrite ?El; try done.
  - apply enforce_limit_bound; [lia|done].
  - apply Hx'; [lia|done].
  - by rewrite Ht'.
Qed.

Lemma reduceTaskLocked_ok s evt :
  rest_ok s -> core (reduceTaskLocked s evt) = core s /\ worktrees (reduceTaskLocked s evt) = worktrees s
               /\ rest_ok (reduceTaskLocked s evt).
Proof.
  intros Hs. unfold reduceTaskLocked. destruct (q_TaskLifecycle evt) as [l|]; [|done].
  destruct (blank (tl_TaskID l)); [done|]. destruct Hs as [Hl Ha Hx Ht]. unfold enforceTaskLimitLocked.
  match goal with |- context [enforce_limit ?b] => generalize b; intros before end.
  split_and!; [done..|]. split; try done. apply enforce_limit_bound; [cbn; pose proof (ok_lim_tasks _ Hl); lia|done].
Qed.

Lemma reduceWorktreeLocked_ok s evt :
  rest_ok s -> core (reduceWorktreeLocked s evt) = core s /\ rest_ok (reduceWorktreeLocked s evt).
Proof. intros []. unfold reduceWorktreeLocked. by case_match. Qed.

Lemma reduce_store_ok s t evt : rest_ok s -> core (reduce_store s t evt) = core s /\ rest_ok (reduce_store s t evt).
Proof.
  intros Hs. unfold reduce_store. destruct (reduceAgentLocked_ok s t evt Hs) as (<- & _ & Ha).
  destruct (reduceTaskLocked_ok _ evt Ha) as (<- & _ & Ht). by apply reduceWorktreeLocked_ok.
Qed.
Definition worktrees_ok s : Prop := map_len (worktrees s) <= Worktrees (limits s).

Lemma reduceWorktreeLocked_bound s evt : limits_ok (limits s) -> worktrees_ok s -> worktrees_ok (reduceWorktreeLocked s evt).
Proof.
  intros Hl Hw. unfold reduceWorktreeLocked. destruct (worktree_event evt); [|done].
  unfold worktrees_ok, enforceWorktreeLimitLocked; cbn. apply enforce_limit_bound; [pose proof (ok_lim_worktrees _ Hl); lia|done].
Qed.

Lemma reduce_store_worktrees s t evt : rest_ok s -> worktrees_ok s -> worktrees_ok (reduce_store s t evt).
Proof.
  intros Hs Hw. unfold reduce_store. destruct (reduceAgentLocked_ok s t evt Hs) as (Ca & Wa & Ha).
  destruct (reduceTaskLocked_ok _ evt Ha) as (Ct & Wt & Ht). apply reduceWorktreeLocked_bound; [apply Ht|].
  unfold worktrees_ok. rewrite Wt, Wa. unfold core in *. replace (limits (reduceTaskLocked _ _)) with (limits s) by congruence.
  exact Hw.
Qed.

Lemma store_rest s : store_ok s -> rest_ok s.
Proof. by intros []. Qed.

Lemma store_of_core s s' : core s' = core s -> rest_ok s' -> store_ok s -> store_ok s'.
Proof.
  unfold core. intros [= El _ _ Et] [Hl Ha Hx Hk] [? ? ? _ _ _]. rewrite El in *. split; rewrite ?Et, ?El; done.
Qed.

(** *** Threads come and go *)

Lemma put_thread_ok s id t :
  store_ok s -> thread_ok (limits s) id t -> (is_Some (threads s !! id) \/ map_len (threads s) < Threads (limits s)) ->
  store_ok (put_thread s id t).
Proof.
  intros [? Ht Hn ? ? ?] Hok Hroom. split; cbn; try done.
  - intros id' t'. rewrite lookup_insert_Some. intros [[<- <-]|[_ ?]]; [done|by apply Ht].
  - unfold map_len in *. destruct (threads s !! id) eqn:E.
    + by rewrite map_size_insert_Some.
    + destruct Hroom as [[? ?]|]; [done|]. rewrite map_size_insert_None by done. lia.
Qed.

Lemma bump_revision_ok s : store_ok s -> store_ok (bump_revision s).
Proof. by intros []. Qed.

(** Room is made by giving up a thread that is over and in which nothing waits. *)
Lemma ensureThreadCapacityLocked_frame s s' :
  ensureThreadCapacityLocked s = Ok s' ->
  exists threads' dropped, s' = s <| threads := threads' |> <| droppedThreads := dropped |> /\ threads' ⊆ threads s
    /\ (map_len (threads s) <= Threads (limits s) -> map_len threads' < Threads (limits s))
    /\ (forall id t, threads s !! id = Some t -> threads' !! id = Some t \/ threads' !! id = None /\ evictable t = true).
Proof.
  unfold ensureThreadCapacityLocked. destruct (Z.ltb_spec (map_len (threads s)) (Threads (limits s))) as [Hlt|Hge].
  - intros [= <-]. exists (threads s), (droppedThreads s). split_and!; [by destruct s|done|done|by left].
  - destruct (least _ _) as [[id0 t0]|] eqn:E; [|done]. intros [= <-]. cbn [fst].
    apply (least_Some thread_order) in E as [Hin _]. apply list_elem_of_filter in Hin as [Hev Hin].
    apply elem_of_map_to_list in Hin. exists (delete id0 (threads s)). eexists. split_and!; [reflexivity|apply delete_subseteq|..].
    + unfold map_len in *. rewrite map_size_delete_Some by (by exists t0).
      assert (size (threads s) <> 0%nat) by (intros E%map_size_empty_inv; by rewrite E, lookup_empty in Hin). lia.
    + intros id t Ht. destruct (decide (id0 = id)) as [<-|].
      * right. rewrite lookup_delete_eq. split; [done|]. by assert (t = t0) as -> by congruence.
      * left. by rewrite lookup_delete_ne.
Qed.

Lemma ensureThreadCapacityLocked_ok s s' :
  ensureThreadCapacityLocked s = Ok s' -> store_ok s ->
  store_ok s' /\ limits s' = limits s /\ worktrees s' = worktrees s /\ map_len (threads s') < Threads (limits s').
Proof.
  intros (ts & d & -> & Hsub & Hn & _)%ensureThreadCapacityLocked_frame [? Ht Hle ? ? ?].
  split_and!; cbn; [|done|done|by apply Hn]. split; cbn; try done.
  - intros id t E. apply Ht. by eapply lookup_weaken.
  - specialize (Hn Hle). lia.
Qed.
(** *** What an event that is accepted satisfies *)

Lemma accepted_sequence thread evt :
  validateRuntimeTransition thread evt = None ->
  v_Sequence evt = match thread with Some t => u64 (th_LastSequence t + 1) | None => 1 end.
Proof.
  unfold validateRuntimeTransition. destruct thread as [t|]; rewrite first_error_None, !Forall_cons; cbn [fst];
    rewrite !negb_false_iff, !Z.eqb_eq; tauto.
Qed.

Lemma accepted_sequence_u64 thread evt : validateRuntimeTransition thread evt = None -> is_u64 (v_Sequence evt).
Proof.
  intros ->%accepted_sequence. destruct thread; [apply u64_range|]. unfold is_u64, MaxUint64. lia.
Qed.

Lemma accepted_timestamp evt : validateRuntimeEventEnvelope evt = None -> v_Timestamp evt <> 0.
Proof.
  unfold validateRuntimeEventEnvelope. rewrite orElse_None, first_error_None, !Forall_cons; cbn [fst].
  rewrite !Z.eqb_neq. tauto.
Qed.
(** How an event is accepted. *)
Inductive accepts s evt : RuntimeStateStore -> Prop :=
| accepts_duplicate t :
    threads s !! v_ThreadID evt = Some t -> isDuplicateAgentCompletionLocked s evt = true ->
    accepts s evt (bump_revision (put_thread s (v_ThreadID evt) (count_event t evt)))
| accepts_event t :
    threads s !! v_ThreadID evt = Some t -> isDuplicateAgentCompletionLocked s evt = false ->
    too_many_interactions (limits s) (Some t) evt = false -> accepts s evt (reduce_event s (Some t) evt)
| accepts_first s0 :
    threads s !! v_ThreadID evt = None -> ensureThreadCapacityLocked s = Ok s0 ->
    accepts s evt (reduce_event s0 None evt).

Lemma Apply_accepts evt s s' :
  Apply evt s = Ok s' ->
  validateRuntimeEventEnvelope evt = None /\ validateRuntimeTransition (threads s !! v_ThreadID evt) evt = None /\ accepts s evt s'.
Proof.
  unfold Apply. destruct (validateRuntimeEventEnvelope evt); [done|]. cbv zeta.
  destruct (validateRuntimeTransition _ evt) eqn:Et; [done|].
  destruct (if isDuplicateAgentCompletionLocked s evt then _ else _) as [t|] eqn:Ed.
  { intros [= <-]. destruct (isDuplicateAgentCompletionLocked s evt) eqn:E; [|done]. split_and!; [done..|by apply accepts_duplicate]. }
  destruct (admission_error s evt) eqn:Ea; [done|].
  unfold admission_error in Ea. rewrite !orElse_None in Ea. destruct Ea as (_ & _ & Ea).
  destruct (threads s !! v_ThreadID evt) as [t|] eqn:E.
  - intros [= <-]. split_and!; [done..|]. destruct (isDuplicateAgentCompletionLocked s evt) eqn:E'; [done|].
    apply accepts_event; [done..|]. by case_match.
  - destruct (ensureThreadCapacityLocked s) as [s0|] eqn:E0; [|done]. intros [= <-]. split_and!; [done..|].
    by apply accepts_first.
Qed.

(** The thread that an event leaves. *)
Definition next_thread s (thread : option RuntimeThread) evt : RuntimeThread :=
  thread_after (limits s) (default (new_thread evt) thread) (match thread with Some t => th_ActiveTurnID t | None => [] end)
    (match thread with Some t => th_Status t | None => RuntimeThreadUnset end) evt.

Lemma reduce_event_eq s thread evt :
  reduce_event s thread evt =
    let s1 := bump_revision (put_thread s (v_ThreadID evt) (next_thread s thread evt)) in
    if isGoalUsageLifecycle evt then s1 else reduce_store s1 (next_thread s thread evt) evt.
Proof. unfold reduce_event, next_thread. by destruct thread. Qed.

Lemma next_thread_ok s thread evt :
  store_ok s -> (forall t, thread = Some t -> thread_ok (limits s) (v_ThreadID evt) t /\ too_many_interactions (limits s) (Some t) evt = false) ->
  v_Timestamp evt <> 0 -> is_u64 (v_Sequence evt) -> thread_ok (limits s) (v_ThreadID evt) (next_thread s thread evt).
Proof.
  intros Hs Ht Hnow Hseq. pose proof (ok_limits s Hs) as Hl. unfold next_thread. destruct thread as [t|].
  - destruct (Ht t eq_refl) as [Hok Hroom]. apply thread_after_ok; [done|done| |done..]. apply Hok.
  - apply thread_after_ok; [done|by apply new_thread_ok| |done..|].
    + cbn. unfold new_thread. case_match; cbn; split; done.
    + unfold room, too_many_interactions, new_thread. match goal with |- context [match ?o with Some _ => _ | None => _ end] => destruct o as [r|]; [|done] end.
      pose proof (ok_lim_interactions _ Hl). case_match; cbn; unfold map_len; rewrite map_size_empty; by apply Z.leb_gt.
Qed.

(** The event changes its thread alone, and keeps the rest within its bounds. *)
Lemma reduce_event_threads s thread evt :
  store_ok s -> limits (reduce_event s thread evt) = limits s /\ store_revision (reduce_event s thread evt) = u64 (store_revision s + 1)
    /\ threads (reduce_event s thread evt) = <[v_ThreadID evt := next_thread s thread evt]> (threads s).
Proof.
  intros Hs. rewrite reduce_event_eq. cbv zeta. case_match; [done|].
  match goal with |- context [reduce_store ?x ?t evt] => destruct (reduce_store_ok x t evt) as [Hc _]; [by destruct Hs|] end.
  unfold core in Hc. injection Hc as -> -> _ ->. done.
Qed.

Lemma reduce_event_ok s thread evt :
  store_ok s -> thread_ok (limits s) (v_ThreadID evt) (next_thread s thread evt) ->
  (is_Some (threads s !! v_ThreadID evt) \/ map_len (threads s) < Threads (limits s)) -> store_ok (reduce_event s thread evt).
Proof.
  intros Hs Ht Hroom. rewrite reduce_event_eq. cbv zeta.
  assert (store_ok (bump_revision (put_thread s (v_ThreadID evt) (next_thread s thread evt)))) as Hput
    by (by apply bump_revision_ok, put_thread_ok).
  case_match; [done|]. destruct (reduce_store_ok _ (next_thread s thread evt) evt (store_rest _ Hput)) as [Hc Hr].
  by eapply store_of_core.
Qed.

Lemma reduce_event_worktrees s thread evt : store_ok s -> worktrees_ok s -> worktrees_ok (reduce_event s thread evt).
Proof.
  intros Hs Hw. rewrite reduce_event_eq. cbv zeta. case_match; [done|]. apply reduce_store_worktrees; [|done]. by destruct Hs.
Qed.

Lemma accepts_ok s evt s' :
  validateRuntimeEventEnvelope evt = None -> validateRuntimeTransition (threads s !! v_ThreadID evt) evt = None ->
  accepts s evt s' -> store_ok s -> store_ok s' /\ limits s' = limits s /\ (worktrees_ok s -> worktrees_ok s').
Proof.
  intros Henv Htr Hacc Hs. pose proof (accepted_timestamp _ Henv) as Hnow. pose proof (accepted_sequence_u64 _ _ Htr) as Hseq.
  destruct Hacc as [t Et _|t Et _ Hroom|s0 Et E0].
  - split_and!; [|done..]. apply bump_revision_ok, put_thread_ok; [done| |by eauto].
    destruct (ok_thread s Hs _ _ Et) as [[] []]. by split; split.
  - split_and!; [apply reduce_event_ok; [done| |by eauto]|by apply reduce_event_threads|by apply reduce_event_worktrees].
    apply next_thread_ok; [done| |done..]. intros ? [= <-]. split; [by apply (ok_thread s Hs)|done].
  - destruct (ensureThreadCapacityLocked_ok _ _ E0 Hs) as (Hs0 & El & Ew & Hn). rewrite <- El.
    split_and!; [apply reduce_event_ok; [done| |by right]|by apply reduce_event_threads|].
    + by apply next_thread_ok.
    + intros Hw. apply reduce_event_worktrees; [done|]. unfold worktrees_ok in *. by rewrite Ew, El.
Qed.
End store.
