(* ===== verification/RuntimeStoreProperties.v ===== *)
(** * What the store of runtime snapshots promises

    The operations of [RuntimeStore] as one type, the runs they make, and the
    properties of every run: the store stays within its limits; the requests
    that wait for the user are those that were asked and not answered; the
    recent events of a thread are the newest of its log; the time a thread has
    run is the sum of the times in which it ran; a turn that is over stays over. *)

From S2P Require Import Prelude GoStrings GoBase RunUsage InputCoordinator InputFacts RuntimeItem ToolSchedule Messages GoalData GoalPersistence GoalService GoalFacts RuntimeEvents RuntimeStore RuntimeStoreFacts.

Open Scope Z_scope.

Section operations.
Context `{!Digests, !GoalIdentityText, !RuntimeJSON, !AnyNumbers}.
Implicit Types (s : RuntimeStateStore) (t : RuntimeThread) (evt : QueryEvent).

(** The operations that change a store; [clock] is what [time.Now] returns. *)
Inductive operation :=
| OpApply (evt : QueryEvent)
| OpNextAgentLifecycle (evt : QueryEvent)
| OpRestoreAgent (clock : Z) (agent : RuntimeAgentSnapshot) (messages : list (option Message)) (live : bool)
| OpRestoreWorktrees (records : list RecoveryRecord)
| OpRestorePlan (clock : Z) (sessionID threadID agentID : bytes) (state : RestoredPlan) (mode : bytes) (updatedAt : Z)
| OpRestoreGoal (clock : Z) (sessionID threadID agentID : bytes) (state : option goalState) (updatedAt : Z).

(** The error of an operation, and the store it leaves. *)
Definition outcome (s : RuntimeStateStore) (r : result runtime_error RuntimeStateStore) : option runtime_error * RuntimeStateStore :=
  match r with Ok s' => (None, s') | Err e => (Some e, s) end.

Definition run (o : operation) (s : RuntimeStateStore) : option runtime_error * RuntimeStateStore :=
  match o with
  | OpApply evt => outcome s (Apply evt s)
  | OpNextAgentLifecycle evt => outcome s (applyNextAgentLifecycle evt s)
  | OpRestoreAgent clock agent messages live => outcome s (RestoreAgentSnapshot clock agent messages live s)
  | OpRestoreWorktrees records => RestoreWorktreeSnapshots records s
  | OpRestorePlan clock sid tid aid state mode at_ => outcome s (RestorePlanSnapshot clock sid tid aid state mode at_ s)
  | OpRestoreGoal clock sid tid aid state at_ => outcome s (RestoreGoalSnapshot clock sid tid aid state at_ s)
  end.

Fixpoint run_all (ops : list operation) (s : RuntimeStateStore) : RuntimeStateStore :=
  match ops with
  | [] => s
  | o :: ops => run_all ops (run o s).2
  end.

(** Go bounds the length of a slice. *)
Definition fits (o : operation) : Prop :=
  match o with OpRestoreAgent _ _ messages _ => zlen messages <= MaxInt64 | _ => True end.

(** Whether a restore of worktrees is refused somewhere in a run. *)
Fixpoint worktrees_refused (ops : list operation) (s : RuntimeStateStore) : bool :=
  match ops with
  | [] => false
  | o :: ops => match o, (run o s).1 with OpRestoreWorktrees _, Some _ => true | _, _ => worktrees_refused ops (run o s).2 end
  end.

(** ** Every operation keeps the store in order *)

Definition kept_in_order (s s' : RuntimeStateStore) : Prop :=
  store_ok s' /\ limits s' = limits s /\ (worktrees_ok s -> worktrees_ok s').

Lemma kept_refl s : store_ok s -> kept_in_order s s.
Proof. by intros; split. Qed.

Lemma Apply_ok evt s s' : Apply evt s = Ok s' -> store_ok s -> kept_in_order s s'.
Proof. intros (He & Ht & Ha)%Apply_accepts Hs. by eapply accepts_ok. Qed.

Lemma map_len_empty {K} `{Countable K} {A} : map_len (∅ : gmap K A) = 0.
Proof. unfold map_len. by rewrite map_size_empty. Qed.

Lemma no_tools_ok limit : 0 <= limit -> tools_ok limit ∅ [].
Proof.
  intros. split; [constructor|intros x; rewrite lookup_empty; split; [by intros ?%elem_of_nil|by intros []]|done].
Qed.

Lemma restored_thread_ok lim agent status now messages :
  limits_ok lim -> zlen messages <= MaxInt64 -> thread_ok lim (ra_ThreadID agent) (restored_thread lim agent status now messages).
Proof.
  intros Hl Hm. pose proof Hl as []. unfold restored_thread, boundMessagesLocked. cbn. set (l := restored_messages _ _ _).
  assert (is_u64 (zlen messages)) by (unfold is_u64, zlen, MaxInt64, MaxUint64 in *; lia).
  assert (zlen (drop (overflow (MessagesPerThread lim) l) l) <= MessagesPerThread lim) by (apply overflow_drop; lia).
  assert (thread_ok lim (ra_ThreadID agent) (no_thread <| th_ThreadID := ra_ThreadID agent |>
    <| th_LastSequence := zlen messages |> <| th_Messages := drop (overflow (MessagesPerThread lim) l) l |>)) as [[] []].
  { split; [split; cbn; try done; rewrite ?map_len_empty; unfold zlen; cbn; lia || apply no_tools_ok; lia|].
    split; cbn; unfold active, MaxInt64; [done|lia]. }
  case_match; (split; split; cbn in *; try done; by unfold active).
Qed.

Lemma install_agent_ok s agent now present replay : store_ok s -> kept_in_order s (install_agent s agent now present replay).
Proof.
  intros Hs. unfold install_agent. pose proof (ok_limits s Hs) as Hl. pose proof (ok_lim_agents _ Hl).
  set (s1 := s <| agents ::= _ |>).
  assert (map_len (executions (recordExecutionObservationLocked s1 (ra_AgentID agent) present replay)) <= Agents (limits s)) as Hx
    by (apply (recordExecutionObservationLocked_bound s1); cbn; [lia|by destruct Hs]).
  destruct (recordExecutionObservationLocked_frame s1 (ra_AgentID agent) present replay) as (a & b & c & d & E).
  rewrite E in *. cbn in Hx. destruct Hs. split_and!; [|done|done]. split; cbn; try done. apply enforce_limit_bound; [lia|done].
Qed.

Lemma kept_trans s s' s'' : kept_in_order s s' -> kept_in_order s' s'' -> kept_in_order s s''.
Proof. intros (? & E & ?) (? & E' & ?). split_and!; [done|by rewrite E', E|auto]. Qed.

Lemma put_thread_kept s id t :
  store_ok s -> thread_ok (limits s) id t -> (is_Some (threads s !! id) \/ map_len (threads s) < Threads (limits s)) ->
  kept_in_order s (put_thread s id t).
Proof. intros. split; [by apply put_thread_ok|done]. Qed.

Lemma ensureThreadCapacityLocked_kept s s' :
  ensureThreadCapacityLocked s = Ok s' -> store_ok s ->
  kept_in_order s s' /\ map_len (threads s') < Threads (limits s').
Proof.
  intros E Hs. destruct (ensureThreadCapacityLocked_ok _ _ E Hs) as (? & El & Ew & ?). split; [|done].
  split_and!; [done..|]. unfold worktrees_ok. by rewrite El, Ew.
Qed.

Lemma RestoreAgentSnapshot_ok clock agent messages live s s' :
  zlen messages <= MaxInt64 -> RestoreAgentSnapshot clock agent messages live s = Ok s' -> store_ok s -> kept_in_order s s'.
Proof.
  intros Hm. unfold RestoreAgentSnapshot. cbv zeta. case_match; [done|].
  destruct (if negb live && _ then _ else _) as [status agent'].
  case_match; [done|]. case_match; [intros [= <-]; apply install_agent_ok|].
  intros E Hs. destruct (threads s !! ra_ThreadID agent') as [t|] eqn:Et.
  - rewrite bool_decide_eq_true_2 in E by done. injection E as <-.
    pose proof (restored_thread_ok (limits s) agent' status (restore_time agent clock) messages (ok_limits s Hs) Hm) as Ht.
    eapply kept_trans; [apply put_thread_kept; [done|exact Ht|by rewrite Et; left]|]. apply install_agent_ok.
    apply put_thread_ok; [done|exact Ht|by rewrite Et; left].
  - rewrite bool_decide_eq_false_2 in E by (by intros []). destruct (ensureThreadCapacityLocked s) as [s0|] eqn:E0; [|done].
    injection E as <-. destruct (ensureThreadCapacityLocked_kept _ _ E0 Hs) as [Hk Hn]. pose proof Hk as (Hs0 & _ & _).
    eapply kept_trans; [exact Hk|].
    pose proof (restored_thread_ok (limits s0) agent' status (restore_time agent clock) messages (ok_limits s0 Hs0) Hm) as Ht.
    eapply kept_trans; [apply put_thread_kept; [done|exact Ht|by right]|]. apply install_agent_ok.
    apply put_thread_ok; [done|exact Ht|by right].
Qed.

(** The thread that a plan or a goal is restored in, which is then touched. *)
Lemma ensure_thread_ok sid tid aid now s t s1 :
  ensure_thread sid tid aid now s = Ok (t, s1) -> store_ok s ->
  kept_in_order s s1 /\ thread_ok (limits s1) tid t
  /\ (is_Some (threads s1 !! tid) \/ map_len (threads s1) < Threads (limits s1)).
Proof.
  unfold ensure_thread. intros E Hs. destruct (threads s !! tid) as [t0|] eqn:Et.
  - injection E as <- <-. split_and!; [done..| |by eauto]. by apply (ok_thread s Hs).
  - destruct (ensureThreadCapacityLocked s) as [s0|] eqn:E0; [|done]. injection E as <- <-.
    destruct (ensureThreadCapacityLocked_kept _ _ E0 Hs) as [Hk Hn]. split_and!; [apply Hk..| |by right].
    destruct Hk as ([Hl _ _ _ _ _] & _ & _). destruct Hl. split; [split|split]; cbn; try done;
      rewrite ?map_len_empty; unfold zlen, active, MaxInt64; cbn; try lia; try done. by apply no_tools_ok; lia.
Qed.

Lemma touch_thread_kept s1 tid t now :
  store_ok s1 -> thread_ok (limits s1) tid t ->
  (is_Some (threads s1 !! tid) \/ map_len (threads s1) < Threads (limits s1)) ->
  kept_in_order s1 (bump_revision (put_thread s1 tid (touch_thread t now))).
Proof.
  intros Hs [[] []] Hr. eapply (kept_trans _ (put_thread s1 tid (touch_thread t now))).
  - apply put_thread_kept; [done| |done]. by split; split.
  - split; [|done]. apply bump_revision_ok, put_thread_ok; [done| |done]. by split; split.
Qed.

Lemma RestorePlanSnapshot_ok clock sid tid aid state mode at_ s s' :
  RestorePlanSnapshot clock sid tid aid state mode at_ s = Ok s' -> store_ok s -> kept_in_order s s'.
Proof.
  unfold RestorePlanSnapshot. cbv zeta. generalize (if at_ =? 0 then clock else at_); intros now. repeat (case_match; [done|]). destruct (ensure_thread _ _ _ _ s) as [[t s1]|] eqn:E; [|done].
  match goal with |- context [if ?b then Err _ else _] => destruct b; [done|] end. intros [= <-] Hs.
  destruct (ensure_thread_ok _ _ _ _ _ _ _ E Hs) as (Hk & Ht & Hr).
  eapply kept_trans; [exact Hk|]. apply touch_thread_kept; [apply Hk| |done]. destruct Ht as [[] []].
  split; split; cbn; try done. etrans; [|eassumption]. unfold map_len. apply inj_le, map_subseteq_size, map_filter_subseteq.
Qed.

Lemma RestoreGoalSnapshot_ok clock sid tid aid state at_ s s' :
  RestoreGoalSnapshot clock sid tid aid state at_ s = Ok s' -> store_ok s -> kept_in_order s s'.
Proof.
  unfold RestoreGoalSnapshot. cbv zeta. generalize (if at_ =? 0 then clock else at_); intros now. repeat (case_match; [done|]). destruct (ensure_thread _ _ _ _ s) as [[t s1]|] eqn:E; [|done].
  match goal with |- context [if ?b then Err _ else _] => destruct b; [done|] end. intros [= <-] Hs.
  destruct (ensure_thread_ok _ _ _ _ _ _ _ E Hs) as (Hk & Ht & Hr).
  eapply kept_trans; [exact Hk|]. apply touch_thread_kept; [apply Hk| |done]. by destruct Ht as [[] []]; split; split.
Qed.

(** A record that is refused ends a restore of worktrees before the limit is
    looked after. *)
Lemma restore_worktrees_ok records changed s :
  store_ok s ->
  let r := restore_worktrees records changed s in
  store_ok r.2 /\ limits r.2 = limits s /\ (r.1 = None -> changed = true \/ worktrees_ok s -> worktrees_ok r.2).
Proof.
  revert changed s; induction records as [|r records IH]; intros changed s Hs; cbn.
  - destruct changed; [|split_and!; [done..|by intros _ []]]. pose proof (ok_limits s Hs). destruct Hs. split_and!; [by split|done|].
    intros _ _.
    unfold worktrees_ok. cbn. apply enforce_limit_bound; [pose proof (ok_lim_worktrees (limits s)); intuition lia|done].
  - destruct (WorktreeRecord_Validate (rr_Record r)); [by split_and!|].
    assert (let r' := restore_worktrees records true (s <| worktrees ::= <[w_ID (rr_Record r) := restored_worktree r]> |>) in
            store_ok r'.2 /\ limits r'.2 = limits s /\ (r'.1 = None -> changed = true \/ worktrees_ok s -> worktrees_ok r'.2)) as Hinstall.
    { destruct (IH true (s <| worktrees ::= <[w_ID (rr_Record r) := restored_worktree r]> |>)) as (? & ? & ?);
        [by destruct Hs|]. split_and!; [done..|]. intros. auto. }
    repeat match goal with |- context [if ?b then (Some _, s) else _] => destruct b; [by split_and!|] end.
    destruct (worktrees s !! w_ID (rr_Record r)) as [current|]; [|exact Hinstall].
    match goal with |- context [if ?b then (Some _, s) else _] => destruct b; [by split_and!|] end.
    match goal with |- context [if ?b then _ else _] => destruct b; [by apply IH|exact Hinstall] end.
Qed.

Lemma outcome_kept s r : (forall s', r = Ok s' -> kept_in_order s s') -> store_ok s -> kept_in_order s (outcome s r).2.
Proof. intros H' Hs. destruct r; [by apply H'|by apply kept_refl]. Qed.

Lemma run_ok o s :
  fits o -> store_ok s ->
  store_ok (run o s).2 /\ limits (run o s).2 = limits s
  /\ (match o with OpRestoreWorktrees _ => (run o s).1 = None | _ => True end -> worktrees_ok s -> worktrees_ok (run o s).2).
Proof.
  intros Hf Hs. assert (forall r, kept_in_order s r -> store_ok r /\ limits r = limits s /\ (True -> worktrees_ok s -> worktrees_ok r)) as Hk
    by (intros r (? & ? & ?); auto).
  destruct o as [evt|evt|clock agent messages live|records|clock sid tid aid state mode at_|clock sid tid aid state at_]; cbn [run];
    try apply Hk, outcome_kept; try done.
  - intros s' E. by eapply Apply_ok.
  - intros s' E. unfold applyNextAgentLifecycle in E. destruct (isRuntimeAgentLifecycleEvent evt); [|done]. by eapply Apply_ok.
  - intros s' E. by eapply RestoreAgentSnapshot_ok.
  - destruct (restore_worktrees_ok records false s Hs) as (? & ? & ?). unfold RestoreWorktreeSnapshots. auto.
  - intros s' E. by eapply RestorePlanSnapshot_ok.
  - intros s' E. by eapply RestoreGoalSnapshot_ok.
Qed.

Lemma new_store_ok l : store_ok (NewRuntimeStateStore l) /\ worktrees_ok (NewRuntimeStateStore l).
Proof.
  pose proof (normalize_ok l) as Hl. pose proof Hl as [].
  unfold worktrees_ok; split; [split|]; cbn -[normalizeRuntimeStoreLimits]; rewrite ?map_len_empty; try done; lia.
Qed.

Lemma run_all_ok ops s :
  Forall fits ops -> store_ok s ->
  store_ok (run_all ops s) /\ limits (run_all ops s) = limits s
  /\ (worktrees_refused ops s = false -> worktrees_ok s -> worktrees_ok (run_all ops s)).
Proof.
  revert s; induction ops as [|o ops IH]; intros s Hf Hs; cbn [run_all worktrees_refused]; [by auto|]. apply Forall_cons in Hf as [Hf Hfs].
  destruct (run_ok o s Hf Hs) as (Hs' & El & Hw). destruct (IH _ Hfs Hs') as (? & El' & Hw'). split_and!; [done|congruence|].
  intros Hr Hws. destruct o; try (apply Hw'; [exact Hr|by apply Hw]). destruct (run _ s).1 eqn:E in Hr; [done|]. apply Hw'; [exact Hr|].
  by apply Hw.
Qed.

(** ** The requests that wait *)

Definition pending (s : RuntimeStateStore) (id : bytes) : gmap bytes RuntimeInteractionSnapshot :=
  match threads s !! id with Some t => th_PendingInteractions t | None => ∅ end.

(** A request is asked, or answered. *)
Definition asked_or_answered (evt : QueryEvent) (m : gmap bytes RuntimeInteractionSnapshot) : gmap bytes RuntimeInteractionSnapshot :=
  match q_Type evt, q_PermissionRequest evt, q_PermissionResolved evt with
  | EventPermissionRequest, Some r, _ => <[pq_ToolUseID r := requested_interaction evt r]> m
  | EventPermissionResolved, _, Some r => delete (ps_ToolUseID r) m
  | _, _, _ => m
  end.

(** What an operation that succeeds does to the requests of a thread. *)
Definition pending_change (o : operation) (s : RuntimeStateStore) (id : bytes) :=
  let known := bool_decide (is_Some (threads s !! id)) in
  match o with
  | OpApply evt =>
      if (v_ThreadID evt ==b id) && negb (isDuplicateAgentCompletionLocked s evt && known)
      then asked_or_answered evt (pending s id) else pending s id
  | OpRestoreAgent _ agent _ live =>
      if (TrimSpace (ra_ThreadID agent) ==b id) && negb (live && known) then ∅ else pending s id
  | OpRestorePlan _ _ tid _ _ _ _ =>
      if TrimSpace tid ==b id then filter (fun kv => is_plan_interaction kv.2 = false) (pending s id) else pending s id
  | OpNextAgentLifecycle _ | OpRestoreWorktrees _ | OpRestoreGoal _ _ _ _ _ _ => pending s id
  end.

Definition pending_after (o : operation) (s : RuntimeStateStore) (id : bytes) :=
  match (run o s).1 with Some _ => pending s id | None => pending_change o s id end.

Lemma pending_threads s s' id : threads s' = threads s -> pending s' id = pending s id.
Proof. unfold pending. by intros ->. Qed.

Lemma pending_put s s' id id' t :
  threads s' = <[id' := t]> (threads s) -> pending s' id = if id' ==b id then th_PendingInteractions t else pending s id.
Proof.
  unfold pending. intros ->. case_bool_decide as E; [by rewrite E, lookup_insert_eq|by rewrite lookup_insert_ne].
Qed.

(** A thread in which a request waits is not given up. *)
Lemma pending_capacity s s' id : ensureThreadCapacityLocked s = Ok s' -> pending s' id = pending s id.
Proof.
  intros (ts & d & -> & Hsub & _ & Hev)%ensureThreadCapacityLocked_frame. unfold pending; cbn.
  destruct (threads s !! id) as [t|] eqn:E.
  - destruct (Hev id t E) as [->|[-> He]]; [done|]. unfold evictable in He. rewrite andb_true_iff, Nat.eqb_eq in He.
    destruct He as [_ He]. by apply map_size_empty_inv in He.
  - destruct (ts !! id) eqn:E'; [|done]. eapply lookup_weaken in E'; [|exact Hsub]. congruence.
Qed.

Lemma reduce_thread_pending lim t evt :
  limits_ok lim -> th_PendingInteractions (reduce_thread lim t evt) = asked_or_answered evt (th_PendingInteractions t).
Proof.
  intros Hl. unfold reduce_thread. destruct (reduceMessageLocked_frame lim t evt) as (a & b & c & ->).
  match goal with |- context [reduceToolLocked lim ?x evt] =>
    destruct (reduceToolLocked_step lim x evt) as [(d & e & ->) _]; [pose proof (ok_lim_tools lim Hl); lia|] end.
  match goal with |- context [reducePlanLocked ?x evt] => destruct (reducePlanLocked_frame x evt) as (f & ->) end.
  match goal with |- context [reduceGoalLocked ?x evt] => destruct (reduceGoalLocked_frame x evt) as (g & ->) end.
  match goal with |- context [reduceTerminalLocked ?x evt] => destruct (reduceTerminalLocked_frame x evt) as (h & i & j & ->) end.
  cbn. unfold reduceInteractionLocked, asked_or_answered.
  destruct (q_Type evt), (q_PermissionRequest evt), (q_PermissionResolved evt); try done; cbv zeta; by case_match.
Qed.

Lemma entered_pending lim t evt : th_PendingInteractions (entered lim t evt) = th_PendingInteractions t.
Proof.
  unfold entered. destruct (appendEventLocked_frame lim (count_event (enter_turn t evt) evt) (runtimeEventRecord evt)) as (? & ? & ->).
  by destruct (enter_turn_frame t evt) as (? & ? & ? & ? & ? & ? & ->).
Qed.

Lemma usage_asks_nothing evt m : isGoalUsageLifecycle evt = true -> asked_or_answered evt m = m.
Proof.
  unfold isGoalUsageLifecycle, goal_phase, asked_or_answered. destruct (q_Type evt ==b EventGoalLifecycle) eqn:E; [|done].
  breflect. by rewrite E.
Qed.

Lemma thread_after_pending lim t turn status evt :
  limits_ok lim -> th_PendingInteractions (thread_after lim t turn status evt) = asked_or_answered evt (th_PendingInteractions t).
Proof.
  intros Hl. unfold thread_after. fold (entered lim t evt). pose proof (entered_pending lim t evt) as Ep.
  generalize dependent (entered lim t evt). intros x <-. destruct (isGoalUsageLifecycle evt) eqn:Eu.
  - rewrite usage_asks_nothing by done. by destruct (reduceGoalLocked_frame x evt) as (? & ->).
  - rewrite <- (reduce_thread_pending lim) by done. generalize (reduce_thread lim x evt). intros y.
    by destruct (updateRuntimeThreadTiming_frame y turn status (v_Timestamp evt)) as (? & ? & ->).
Qed.

Lemma new_thread_pending evt : th_PendingInteractions (new_thread evt) = ∅.
Proof. unfold new_thread. by case_match. Qed.

Lemma next_thread_pending s evt :
  store_ok s -> th_PendingInteractions (next_thread s (threads s !! v_ThreadID evt) evt) = asked_or_answered evt (pending s (v_ThreadID evt)).
Proof.
  intros Hs. unfold next_thread, pending. rewrite thread_after_pending by apply Hs.
  destruct (threads s !! v_ThreadID evt); cbn; by rewrite ?new_thread_pending.
Qed.

(** *** What each operation does to the threads *)

Lemma install_agent_threads s agent now present replay : threads (install_agent s agent now present replay) = threads s.
Proof.
  unfold install_agent. set (s1 := s <| agents ::= _ |>).
  by destruct (recordExecutionObservationLocked_frame s1 (ra_AgentID agent) present replay) as (a & b & c & d & ->).
Qed.

Lemma restore_worktrees_threads records changed s : threads (restore_worktrees records changed s).2 = threads s.
Proof.
  revert changed s; induction records as [|r records IH]; intros changed s; cbn; [by destruct changed|].
  destruct (WorktreeRecord_Validate (rr_Record r)); [done|]. cbv zeta.
  destruct (worktrees s !! w_ID (rr_Record r)) as [current|]; [|by rewrite IH].
  match goal with |- context [if ?b then (Some _, s) else _] => destruct b; [done|] end.
  match goal with |- context [if ?b then _ else _] => destruct b; by rewrite IH end.
Qed.

(** The agent whose restore succeeds. *)
Lemma RestoreAgentSnapshot_threads clock agent messages live s s' :
  RestoreAgentSnapshot clock agent messages live s = Ok s' ->
  let id := TrimSpace (ra_ThreadID agent) in
  if live && bool_decide (is_Some (threads s !! id)) then threads s' = threads s else
  exists agent' status now s0, ra_ThreadID agent' = id
    /\ (s0 = s /\ is_Some (threads s !! id) \/ threads s !! id = None /\ ensureThreadCapacityLocked s = Ok s0)
    /\ threads s' = <[id := restored_thread (limits s0) agent' status now messages]> (threads s0).
Proof.
  unfold RestoreAgentSnapshot. cbv zeta. case_match; [done|].
  destruct (if negb live && _ then _ else _) as [status agent'] eqn:Ea.
  assert (ra_ThreadID agent' = TrimSpace (ra_ThreadID agent)) as Eid by (by revert Ea; case_match; intros [= _ <-]).
  rewrite Eid. destruct (validateRestoredExecutionIdentityLocked s agent'); [done|]. destruct (live && bool_decide (is_Some (threads s !! TrimSpace (ra_ThreadID agent)))).
  { intros [= <-]. apply install_agent_threads. }
  intros E. destruct (if bool_decide (is_Some (threads s !! _)) then _ else _) as [s0|] eqn:E0; [|done]. injection E as <-.
  exists agent', status, (restore_time (agent <| ra_AgentID ::= TrimSpace |> <| ra_ThreadID ::= TrimSpace |> <| ra_SessionID ::= TrimSpace |>) clock), s0.
  split_and!; [done| |apply install_agent_threads].
  case_bool_decide as Hk; [left; by injection E0 as ->|right]. split; [by apply eq_None_not_Some|done].
Qed.

Lemma ensure_thread_threads sid tid aid now s t s1 :
  ensure_thread sid tid aid now s = Ok (t, s1) ->
  threads s !! tid = Some t /\ s1 = s
  \/ threads s !! tid = None /\ t = idle_thread sid tid aid now /\ ensureThreadCapacityLocked s = Ok s1.
Proof.
  unfold ensure_thread. destruct (threads s !! tid); [intros [= <- <-]; by left|].
  destruct (ensureThreadCapacityLocked s); [|done]. intros [= <- <-]. by right.
Qed.

Lemma ensure_thread_pending sid tid aid now s t s1 :
  ensure_thread sid tid aid now s = Ok (t, s1) ->
  th_PendingInteractions t = pending s tid /\ forall id, pending s1 id = pending s id.
Proof.
  intros [[E ->]|(E & -> & Ec)]%ensure_thread_threads.
  - split; [|done]. unfold pending. by rewrite E.
  - split; [|intros; by apply pending_capacity]. unfold pending. by rewrite E.
Qed.

Lemma Apply_pending evt s s' id :
  store_ok s -> Apply evt s = Ok s' -> pending s' id = pending_change (OpApply evt) s id.
Proof.
  intros Hs (_ & _ & Hacc)%Apply_accepts. cbn [pending_change]. cbv zeta.
  destruct Hacc as [t Et Ed|t Et Ed _|s0 Et E0].
  - rewrite Ed, andb_true_l. rewrite (pending_put s _ _ (v_ThreadID evt) (count_event t evt)) by done.
    case_bool_decide as E; [|done]. rewrite <- E, bool_decide_eq_true_2 by done. cbn. unfold pending. by rewrite Et.
  - rewrite Ed. cbn [andb negb]. rewrite andb_true_r, <- Et.
    destruct (reduce_event_threads s (threads s !! v_ThreadID evt) evt Hs) as (_ & _ & E).
    rewrite (pending_put _ _ _ _ _ E), next_thread_pending by done. by case_bool_decide; subst.
  - destruct (ensureThreadCapacityLocked_kept _ _ E0 Hs) as [[Hs0 _] _].
    destruct (reduce_event_threads s0 None evt Hs0) as (_ & _ & E).
    rewrite (pending_put _ _ _ _ _ E). assert (threads s0 !! v_ThreadID evt = None) as En.
    { apply ensureThreadCapacityLocked_frame in E0 as (ts & d & -> & Hsub & _). cbn.
      destruct (ts !! v_ThreadID evt) eqn:E'; [|done]. eapply lookup_weaken in E'; [|exact Hsub]. congruence. }
    rewrite <- En, next_thread_pending, !(pending_capacity _ _ _ E0) by done. case_bool_decide as Ei; [|done].
    rewrite <- Ei, Et. rewrite bool_decide_eq_false_2 by (by intros []). by rewrite andb_false_r.
Qed.

Lemma outcome_pending s r o id :
  run o s = outcome s r -> (forall s', r = Ok s' -> pending s' id = pending_change o s id) ->
  pending (run o s).2 id = pending_after o s id.
Proof. intros E H'. unfold pending_after. rewrite E. destruct r; [by apply H'|done]. Qed.

Lemma applyNextAgentLifecycle_pending evt s s' id :
  store_ok s -> applyNextAgentLifecycle evt s = Ok s' -> pending s' id = pending s id.
Proof.
  intros Hs. unfold applyNextAgentLifecycle. destruct (isRuntimeAgentLifecycleEvent evt) eqn:El; [|done]. intros E.
  rewrite (Apply_pending _ _ _ _ Hs E). cbn [pending_change]. cbv zeta.
  match goal with |- context [asked_or_answered ?x _] => assert (q_Type x = EventAgentLifecycle) as Et end.
  { cbn. unfold isRuntimeAgentLifecycleEvent in El. destruct (q_Type evt ==b EventAgentLifecycle) eqn:Et; [|done]. by breflect. }
  unfold asked_or_answered. rewrite Et. match goal with |- (if ?b then _ else _) = _ => by destruct b end.
Qed.

Lemma touched_pending s1 tid t now id :
  pending (bump_revision (put_thread s1 tid (touch_thread t now))) id = if tid ==b id then th_PendingInteractions t else pending s1 id.
Proof. by rewrite (pending_put s1 _ _ tid (touch_thread t now)). Qed.

Lemma RestorePlanSnapshot_pending clock sid tid aid state mode at_ s s' id :
  RestorePlanSnapshot clock sid tid aid state mode at_ s = Ok s' ->
  pending s' id = pending_change (OpRestorePlan clock sid tid aid state mode at_) s id.
Proof.
  unfold RestorePlanSnapshot. cbv zeta. generalize (if at_ =? 0 then clock else at_); intros now. repeat (case_match; [done|]).
  destruct (ensure_thread _ _ _ _ s) as [[t s1]|] eqn:E; [|done].
  match goal with |- context [if ?b then Err _ else _] => destruct b; [done|] end. intros [= <-].
  destruct (ensure_thread_pending _ _ _ _ _ _ _ E) as [Ep Eo]. rewrite touched_pending, Eo. cbn. rewrite Ep.
  destruct (decide (TrimSpace tid = id)) as [<-|]; [by rewrite !bool_decide_eq_true_2|by rewrite !(bool_decide_eq_false_2 (_ = id))].
Qed.

Lemma RestoreGoalSnapshot_pending clock sid tid aid state at_ s s' id :
  RestoreGoalSnapshot clock sid tid aid state at_ s = Ok s' -> pending s' id = pending s id.
Proof.
  unfold RestoreGoalSnapshot. cbv zeta. generalize (if at_ =? 0 then clock else at_); intros now. repeat (case_match; [done|]).
  destruct (ensure_thread _ _ _ _ s) as [[t s1]|] eqn:E; [|done].
  match goal with |- context [if ?b then Err _ else _] => destruct b; [done|] end. intros [= <-].
  destruct (ensure_thread_pending _ _ _ _ _ _ _ E) as [Ep Eo]. rewrite touched_pending, Eo. cbn. rewrite Ep.
  destruct (decide (TrimSpace tid = id)) as [<-|]; [by rewrite bool_decide_eq_true_2|by rewrite (bool_decide_eq_false_2 (_ = id))].
Qed.

Lemma restored_thread_pending lim agent status now messages : th_PendingInteractions (restored_thread lim agent status now messages) = ∅.
Proof. unfold restored_thread, boundMessagesLocked. by case_match. Qed.

Lemma RestoreAgentSnapshot_pending clock agent messages live s s' id :
  RestoreAgentSnapshot clock agent messages live s = Ok s' ->
  pending s' id = pending_change (OpRestoreAgent clock agent messages live) s id.
Proof.
  intros E%RestoreAgentSnapshot_threads. cbn [pending_change]. cbv zeta in E |- *. set (tid := TrimSpace (ra_ThreadID agent)) in *.
  destruct (live && bool_decide (is_Some (threads s !! tid))) eqn:El.
  - rewrite (pending_threads _ _ _ E). destruct (decide (tid = id)) as [<-|]; [|by rewrite (bool_decide_eq_false_2 (tid = id))].
    by rewrite El, andb_false_r.
  - destruct E as (agent' & status & now & s0 & _ & Hs0 & E). rewrite (pending_put _ _ _ _ _ E), restored_thread_pending.
    destruct (decide (tid = id)) as [<-|]; [by rewrite El, bool_decide_eq_true_2|].
    rewrite (bool_decide_eq_false_2 (tid = id)) by done. destruct Hs0 as [[-> _]|[_ Ec]]; [done|by apply pending_capacity].
Qed.

Lemma run_pending o s id : store_ok s -> pending (run o s).2 id = pending_after o s id.
Proof.
  intros Hs. destruct o as [evt|evt|clock agent messages live|records|clock sid tid aid state mode at_|clock sid tid aid state at_].
  - eapply outcome_pending; [done|]. intros. by apply Apply_pending.
  - eapply outcome_pending; [done|]. intros. by eapply applyNextAgentLifecycle_pending.
  - eapply outcome_pending; [done|]. intros. by apply RestoreAgentSnapshot_pending.
  - unfold pending_after. cbn [pending_change]. rewrite (pending_threads s) by apply restore_worktrees_threads. by case_match.
  - eapply outcome_pending; [done|]. intros. by apply RestorePlanSnapshot_pending.
  - eapply outcome_pending; [done|]. intros. by eapply RestoreGoalSnapshot_pending.
Qed.

(** ** The time that a thread has run *)

(** What the clock of a thread shows at a time at which it has started. *)
Definition elapsed t (now : Z) : Z :=
  Z.min MaxInt64 (th_ActiveDuration t + if th_ActiveSince t =? 0 then 0 else now - th_ActiveSince t).

(** The clock shows what it showed at the event, and the time since when the
    thread runs. *)
Lemma updateRuntimeThreadTiming_elapsed t turn status at_ now :
  (th_ActiveSince t <> 0 <-> (turn <>b []) && (status ==b RuntimeThreadRunning) = true) ->
  0 <= th_ActiveDuration t -> at_ <> 0 -> th_ActiveSince t <= at_ \/ th_ActiveSince t = 0 -> at_ <= now ->
  let t' := updateRuntimeThreadTiming t turn status at_ in
  elapsed t' now = Z.min MaxInt64 (elapsed t at_ + if active t then now - at_ else 0)
  /\ (th_ActiveSince t' <= at_ \/ th_ActiveSince t' = 0).
Proof.
  intros Hwas Hd Hat Hsince Hnow. unfold updateRuntimeThreadTiming. cbv zeta. fold (active t).
  assert ((turn <>b []) && (status ==b RuntimeThreadRunning) = negb (th_ActiveSince t =? 0)) as ->.
  { destruct (Z.eqb_spec (th_ActiveSince t) 0) as [E|E]; cbn; [|tauto].
    destruct (_ && _); [|done]. exfalso. by apply Hwas. }
  unfold elapsed. destruct (Z.eqb_spec (th_ActiveSince t) 0) as [E|E], (active t), (th_ActiveTurnID t ==b turn); cbn;
    rewrite ?E; cbn; repeat case_match; cbn in *; rewrite ?Z.eqb_eq, ?Z.eqb_neq, ?Z.ltb_lt, ?Z.ltb_ge in *;
    rewrite ?saturating_add; unfold time_sub, MaxInt64 in *; lia.
Qed.

Definition clock_of t := (th_ActiveSince t, th_ActiveDuration t, th_ActiveTurnID t, th_Status t).

Lemma clock_of_active t t' : clock_of t' = clock_of t -> active t' = active t.
Proof. unfold clock_of, active. by intros [= _ _ -> ->]. Qed.

Lemma same_clock_elapsed t t' at_ now :
  clock_of t' = clock_of t -> clock_ok t -> at_ <= now ->
  elapsed t' now = Z.min MaxInt64 (elapsed t at_ + if active t' then now - at_ else 0).
Proof.
  intros E [Hs Hd] Hn. rewrite (clock_of_active _ _ E). unfold clock_of in E. injection E as Es Ed _ _.
  unfold elapsed. rewrite Es, Ed. destruct (Z.eqb_spec (th_ActiveSince t) 0) as [E|E].
  - destruct (active t); [exfalso; by apply Hs|lia].
  - destruct (active t); [unfold MaxInt64 in *; lia|]. by apply Hs in E.
Qed.

Lemma entered_clock_of lim t evt : isGoalUsageLifecycle evt = true -> clock_of (entered lim t evt) = clock_of t.
Proof.
  intros Eu. unfold entered, enter_turn. rewrite Eu.
  by destruct (appendEventLocked_frame lim (count_event t evt) (runtimeEventRecord evt)) as (? & ? & ->).
Qed.

Lemma thread_after_elapsed lim t turn status evt now :
  limits_ok lim -> clock_ok t -> (th_ActiveSince t <> 0 <-> (turn <>b []) && (status ==b RuntimeThreadRunning) = true) ->
  v_Timestamp evt <> 0 -> th_ActiveSince t <= v_Timestamp evt \/ th_ActiveSince t = 0 -> v_Timestamp evt <= now ->
  let t' := thread_after lim t turn status evt in
  elapsed t' now = Z.min MaxInt64 (elapsed t (v_Timestamp evt) + if active t' then now - v_Timestamp evt else 0)
  /\ (th_ActiveSince t' <= v_Timestamp evt \/ th_ActiveSince t' = 0).
Proof.
  intros Hl Hc Hwas Hat Hsince Hnow. unfold thread_after. fold (entered lim t evt).
  pose proof (entered_clock lim t evt) as [Es Ed]. pose proof (entered_clock_of lim t evt) as Ec.
  generalize dependent (entered lim t evt). intros x Es Ed Ec. cbv zeta. destruct (isGoalUsageLifecycle evt) eqn:Eu.
  - specialize (Ec eq_refl). destruct (reduceGoalLocked_frame x evt) as (g & ->). split; [|cbn; by rewrite Es].
    apply same_clock_elapsed; done.
  - pose proof (kept_clock _ _ (reduce_thread_kept lim Hl x evt)) as [Kd Ks]. generalize dependent (reduce_thread lim x evt).
    intros y Kd Ks. rewrite updateRuntimeThreadTiming_active. assert (elapsed t (v_Timestamp evt) = elapsed y (v_Timestamp evt)) as ->
      by (unfold elapsed; by rewrite Kd, Ks, Es, Ed).
    apply updateRuntimeThreadTiming_elapsed; rewrite ?Kd, ?Ks, ?Es, ?Ed; try done. apply Hc.
Qed.

(** What the clock of a thread of the store shows, and whether it runs. *)
Definition shown s (id : bytes) (now : Z) : Z := match threads s !! id with Some t => elapsed t now | None => 0 end.
Definition runs s (id : bytes) : bool := match threads s !! id with Some t => active t | None => false end.
Definition started_by s (id : bytes) (at_ : Z) : Prop :=
  forall t, threads s !! id = Some t -> th_ActiveSince t <= at_ \/ th_ActiveSince t = 0.

Lemma shown_put s s' id t now : threads s' = <[id := t]> (threads s) -> shown s' id now = elapsed t now /\ runs s' id = active t.
Proof. unfold shown, runs. intros ->. by rewrite lookup_insert_eq. Qed.

Lemma next_thread_elapsed s thread evt now :
  store_ok s -> (forall t, thread = Some t -> clock_ok t /\ (th_ActiveSince t <= v_Timestamp evt \/ th_ActiveSince t = 0)) ->
  v_Timestamp evt <> 0 -> v_Timestamp evt <= now ->
  let t' := next_thread s thread evt in
  elapsed t' now = Z.min MaxInt64 (match thread with Some t => elapsed t (v_Timestamp evt) | None => 0 end
                                   + if active t' then now - v_Timestamp evt else 0)
  /\ (th_ActiveSince t' <= v_Timestamp evt \/ th_ActiveSince t' = 0).
Proof.
  intros Hs Ht Hat Hnow. unfold next_thread. pose proof (ok_limits s Hs) as Hl. destruct thread as [t|]; cbn [default].
  - destruct (Ht t eq_refl) as [Hc Hsince]. apply thread_after_elapsed; [done|done| |done..]. apply Hc.
  - assert (elapsed (new_thread evt) (v_Timestamp evt) = 0 /\ th_ActiveSince (new_thread evt) = 0) as [E0 E]
      by (unfold new_thread; by case_match).
    pose proof (new_thread_ok (limits s) Hl (v_ThreadID evt) evt eq_refl) as [_ Hc].
    pose proof (thread_after_elapsed (limits s) (new_thread evt) [] RuntimeThreadUnset evt now Hl Hc) as Hafter.
    cbv zeta in Hafter. rewrite E0, E in Hafter. apply Hafter; [by split|done|by right|done].
Qed.

Lemma Apply_shown evt s s' now :
  store_ok s -> Apply evt s = Ok s' -> started_by s (v_ThreadID evt) (v_Timestamp evt) -> v_Timestamp evt <= now ->
  shown s' (v_ThreadID evt) now
    = Z.min MaxInt64 (shown s (v_ThreadID evt) (v_Timestamp evt) + if runs s' (v_ThreadID evt) then now - v_Timestamp evt else 0)
  /\ started_by s' (v_ThreadID evt) (v_Timestamp evt).
Proof.
  intros Hs (He & Htr & Hacc)%Apply_accepts Hst Hnow. apply accepted_timestamp in He.
  assert (exists t', threads s' !! v_ThreadID evt = Some t' /\
    elapsed t' now = Z.min MaxInt64 (shown s (v_ThreadID evt) (v_Timestamp evt) + if active t' then now - v_Timestamp evt else 0)
    /\ (th_ActiveSince t' <= v_Timestamp evt \/ th_ActiveSince t' = 0)) as (t' & Et' & Hel & Hsi).
  { destruct Hacc as [t Et _|t Et _ _|s0 Et E0].
    - exists (count_event t evt). split; [apply lookup_insert_eq|]. unfold shown. rewrite Et. split; [|by apply (Hst t)].
      apply same_clock_elapsed; [done|apply (ok_thread s Hs _ _ Et)|done].
    - destruct (reduce_event_threads s (Some t) evt Hs) as (_ & _ & E). eexists. rewrite E. split; [apply lookup_insert_eq|].
      unfold shown. rewrite Et. apply (next_thread_elapsed s (Some t)); [done| |done..].
      intros ? [= <-]. split; [apply (ok_thread s Hs _ _ Et)|by apply Hst].
    - destruct (ensureThreadCapacityLocked_kept _ _ E0 Hs) as [[Hs0 _] _].
      destruct (reduce_event_threads s0 None evt Hs0) as (_ & _ & E). eexists. rewrite E. split; [apply lookup_insert_eq|].
      unfold shown. rewrite Et. by apply (next_thread_elapsed s0 None). }
  unfold shown at 1, runs, started_by. rewrite Et'. split; [done|]. by intros ? [= <-].
Qed.

(** The time at which the events go on. *)
Definition next_time (events : list QueryEvent) (now : Z) : Z :=
  match events with [] => now | evt :: _ => v_Timestamp evt end.

(** The time from each event to the next, and from the last one to now, in which
    the thread has run since it is in the store: [acc] is the time it has run
    before, which is forgotten when the thread is given up. *)
Fixpoint time_run (id : bytes) (events : list QueryEvent) s (now acc : Z) : Z :=
  match events with
  | [] => acc
  | evt :: events =>
      let s' := (run (OpApply evt) s).2 in
      let acc := match threads s' !! id with
                 | None => 0
                 | Some t => acc + if active t then next_time events now - v_Timestamp evt else 0
                 end in
      time_run id events s' now acc
  end.

Definition timestamps (events : list QueryEvent) (now : Z) : list Z := (v_Timestamp <$> (q_Envelope <$> events)) ++ [now].

Lemma next_time_elem events now : next_time events now ∈ timestamps events now.
Proof. destruct events; cbn; left. Qed.

Lemma timestamps_cons evt events now :
  StronglySorted Z.le (timestamps (evt :: events) now) ->
  v_Timestamp evt <= next_time events now /\ StronglySorted Z.le (timestamps events now).
Proof.
  intros [Hs Hf]%StronglySorted_inv. split; [|done]. rewrite Forall_forall in Hf. apply Hf, next_time_elem.
Qed.

(** An event of another thread leaves a thread alone, or gives it up. *)
Lemma Apply_other evt s s' id :
  store_ok s -> Apply evt s = Ok s' -> v_ThreadID evt <> id -> threads s' !! id = threads s !! id \/ threads s' !! id = None.
Proof.
  intros Hs (_ & _ & Hacc)%Apply_accepts Hne. destruct Hacc as [t Et _|t Et _ _|s0 Et E0].
  - left. by apply lookup_insert_ne.
  - left. destruct (reduce_event_threads s (Some t) evt Hs) as (_ & _ & ->). by apply lookup_insert_ne.
  - destruct (ensureThreadCapacityLocked_kept _ _ E0 Hs) as [[Hs0 _] _].
    destruct (reduce_event_threads s0 None evt Hs0) as (_ & _ & ->). rewrite lookup_insert_ne by done.
    apply ensureThreadCapacityLocked_frame in E0 as (ts & d & -> & Hsub & _ & Hkeep). cbn.
    destruct (threads s !! id) as [t|] eqn:E; [destruct (Hkeep id t E) as [?|[? _]]; auto|].
    destruct (ts !! id) eqn:E'; [|by left]. eapply lookup_weaken in E'; [|exact Hsub]. congruence.
Qed.

(** A replay that succeeds is the run of its events. *)
Lemma Replay_run events s s' : Replay events s = (None, s') -> run_all (OpApply <$> events) s = s'.
Proof.
  revert s; induction events as [|evt events IH]; intros s; cbn; [by intros [= ->]|].
  destruct (Apply evt s) as [s1|]; [apply IH|done].
Qed.

(** What any event, accepted or not, of any thread makes of the clock of a thread. *)
Lemma event_shown evt s id now :
  store_ok s -> started_by s id (v_Timestamp evt) -> v_Timestamp evt <= now ->
  let s' := (run (OpApply evt) s).2 in
  shown s' id now = match threads s' !! id with
                    | None => 0
                    | Some t => Z.min MaxInt64 (shown s id (v_Timestamp evt) + if active t then now - v_Timestamp evt else 0)
                    end
  /\ started_by s' id (v_Timestamp evt).
Proof.
  intros Hs Hst Hnow. assert (forall t, threads s !! id = Some t ->
    elapsed t now = Z.min MaxInt64 (shown s id (v_Timestamp evt) + if active t then now - v_Timestamp evt else 0)) as Hsame.
  { intros t E. unfold shown. rewrite E. apply same_clock_elapsed; [done|apply (ok_thread s Hs _ _ E)|done]. }
  assert (forall s', threads s' !! id = threads s !! id \/ threads s' !! id = None ->
    shown s' id now = match threads s' !! id with
                      | None => 0
                      | Some t => Z.min MaxInt64 (shown s id (v_Timestamp evt) + if active t then now - v_Timestamp evt else 0)
                      end /\ started_by s' id (v_Timestamp evt)) as Hother.
  { intros s' [E|E]; (split; [unfold shown at 1|intros t]); rewrite E; [|by apply Hst|done..].
    destruct (threads s !! id) as [t|]; [by apply Hsame|done]. }
  cbn [run]. destruct (Apply evt s) as [s'|e] eqn:E; cbn [outcome snd]; [|by apply Hother; left].
  destruct (decide (v_ThreadID evt = id)) as [<-|Hne]; [|apply Hother; by eapply Apply_other].
  destruct (Apply_shown evt s s' now Hs E Hst Hnow) as [Hsh Hst']. split; [|done]. rewrite Hsh. unfold runs.
  destruct (threads s' !! v_ThreadID evt) as [t|] eqn:Et; [done|]. unfold shown in Hsh at 1. rewrite Et in Hsh.
  unfold runs in Hsh. rewrite Et in Hsh. by symmetry.
Qed.

Lemma events_shown id events s now acc :
  store_ok s -> StronglySorted Z.le (timestamps events now) -> started_by s id (next_time events now) -> 0 <= acc ->
  shown s id (next_time events now) = Z.min MaxInt64 acc ->
  let s' := run_all (OpApply <$> events) s in
  shown s' id now = Z.min MaxInt64 (time_run id events s now acc) /\ store_ok s' /\ started_by s' id now.
Proof.
  revert s acc; induction events as [|evt events IH]; intros s acc Hs Hts Hst Hacc Hsh; [done|].
  apply timestamps_cons in Hts as [Hle Hts]. cbn [next_time] in Hst, Hsh.
  destruct (event_shown evt s id (next_time events now) Hs Hst Hle) as [Hsh1 Hst1].
  assert (store_ok (run (OpApply evt) s).2) as Hs1 by (by apply run_ok).
  change (run_all (OpApply <$> evt :: events) s) with (run_all (OpApply <$> events) (run (OpApply evt) s).2).
  cbn [time_run]. apply IH; [done|done| | |].
  - intros t E. destruct (Hst1 t E); [left; lia|by right].
  - case_match; [|lia]. case_match; lia.
  - rewrite Hsh1. case_match; [|done]. rewrite Hsh. case_match; lia.
Qed.

Lemma timing_shown s id now :
  store_ok s -> started_by s id now ->
  match ThreadTimingSnapshot s id with Some x => Elapsed x now | None => 0 end = shown s id now.
Proof.
  intros Hs Hst. unfold ThreadTimingSnapshot, shown. destruct (threads s !! id) as [t|] eqn:Et; cbn; [|done].
  destruct (ok_thread s Hs _ _ Et) as [_ [Hc Hd]]. specialize (Hst t Et).
  match goal with |- context [if ?b then None else _] => destruct b eqn:Ez end.
  - rewrite !andb_true_iff, !Z.eqb_eq in Ez. destruct Ez as [[_ Ed] Es]. unfold elapsed. by rewrite Ed, Es.
  - clear Ez. unfold Elapsed, elapsed; cbn. destruct (Z.eqb_spec (th_ActiveSince t) 0) as [E|E].
    + rewrite orb_true_r. cbn. lia.
    + apply Hc in E as Ha. unfold active in Ha. breflect. rewrite orb_false_r.
      rewrite bool_decide_eq_true_2 by done. cbn [negb orb].
      destruct (Z.leb_spec now (th_ActiveSince t)); [lia|]. pose proof (time_sub_range now (th_ActiveSince t)) as Hr.
      destruct (Z.ltb_spec 0 (time_sub now (th_ActiveSince t))); [|lia]. cbn [andb]. rewrite saturating_add.
      unfold time_sub, MaxInt64 in *. lia.
Qed.

(** ** A turn that is over *)

Definition over t : Prop := isRuntimeTerminalStatus (th_Status t) = true.

(** The events that a turn still accepts when it is over. *)
Definition epilogue evt : Prop :=
  q_Type evt = EventTerminal \/ q_Type evt = EventPermissionResolved \/ q_Type evt = EventHookResponse
  \/ isExternalPlanStateTransition evt = true \/ isExternalWorktreeLifecycle evt = true
  \/ isExternalGoalLifecycle evt = true \/ isGoalUsageLifecycle evt = true \/ isGoalTurnFinished evt = true.

Lemma accepted_epilogue t evt :
  validateRuntimeTransition (Some t) evt = None -> over t -> th_ActiveTurnID t = v_TurnID evt -> epilogue evt.
Proof.
  unfold validateRuntimeTransition, over. rewrite first_error_None, !Forall_cons; cbn [fst]. intros (_ & _ & _ & _ & Hf & _) Ho Et.
  rewrite Ho, bool_decide_eq_true_2 in Hf by done. cbn [andb] in Hf. unfold epilogue.
  rewrite !andb_false_iff, !negb_false_iff, !orb_true_iff, !bool_decide_eq_true in Hf. tauto.
Qed.

Lemma not_agent_lifecycle evt : q_Type evt <> EventAgentLifecycle ->
  isRuntimeAgentLifecycleEvent evt = None /\ isRuntimeAgentBackgroundedTransition evt = false /\ isRuntimeAgentLaunchBoundary evt = false.
Proof.
  intros Hne. assert (isRuntimeAgentLifecycleEvent evt = None) as E
    by (unfold isRuntimeAgentLifecycleEvent; by rewrite bool_decide_eq_false_2).
  unfold isRuntimeAgentBackgroundedTransition, isRuntimeAgentLaunchBoundary. by rewrite E.
Qed.

Lemma epilogue_type evt : epilogue evt ->
  q_Type evt <> EventAgentLifecycle /\ q_Type evt <> EventPermissionRequest.
Proof.
  unfold epilogue, isExternalPlanStateTransition, isExternalWorktreeLifecycle, isExternalGoalLifecycle, isGoalUsageLifecycle,
    isGoalTurnFinished, goal_phase.
  intros Hep. split; intros E; rewrite E in Hep; repeat rewrite (bool_decide_eq_false_2 (_ = EventPlanStateTransition)) in Hep by done;
    repeat rewrite (bool_decide_eq_false_2 (_ = EventWorktreeLifecycle)) in Hep by done;
    repeat rewrite (bool_decide_eq_false_2 (_ = EventGoalLifecycle)) in Hep by done; cbn in Hep;
    repeat destruct Hep as [Hep|Hep]; done.
Qed.

Lemma enter_turn_over t evt :
  epilogue evt -> over t -> th_ActiveTurnID t = v_TurnID evt -> v_TurnID evt <> [] ->
  th_Status (enter_turn t evt) = th_Status t
  /\ (th_ActiveTurnID (enter_turn t evt) = th_ActiveTurnID t
      \/ isExternalPlanStateTransition evt || isExternalGoalLifecycle evt = true /\ th_ActiveTurnID (enter_turn t evt) = []).
Proof.
  intros Hep Ho Et Hne. destruct (not_agent_lifecycle evt) as (E1 & E2 & E3); [by apply epilogue_type|]. unfold enter_turn, over in *.
  rewrite E1, E2, E3, Ho, andb_true_r.
  destruct (isGoalUsageLifecycle evt); [auto|].
  destruct (isExternalPlanStateTransition evt || isExternalGoalLifecycle evt).
  { destruct (th_Status t) eqn:Es; try done; cbn; rewrite Es; cbn; auto. }
  destruct (q_Type evt ==b EventWorktreeLifecycle).
  { rewrite bool_decide_eq_false_2 by congruence. auto. }
  repeat match goal with |- context [if ?b then t else _] => destruct b; [auto|] end.
  rewrite bool_decide_eq_true_2 by done. cbn. auto.
Qed.

Lemma reduce_thread_over lim t evt :
  limits_ok lim -> over t -> q_Type evt <> EventPermissionRequest ->
  over (reduce_thread lim t evt) \/ q_Type evt = EventTerminal /\ th_Status (reduce_thread lim t evt) = RuntimeThreadWaitingInput.
Proof.
  intros Hl Ho Hne. unfold reduce_thread. destruct (reduceMessageLocked_frame lim t evt) as (a & b & c & ->).
  match goal with |- context [reduceToolLocked lim ?x evt] =>
    destruct (reduceToolLocked_step lim x evt) as [(d & e & ->) _]; [pose proof (ok_lim_tools lim Hl); lia|] end.
  match goal with |- context [reduceInteractionLocked ?x evt] =>
    assert (over (reduceInteractionLocked x evt)) as Hi; [|generalize dependent (reduceInteractionLocked x evt)] end.
  { unfold over, reduceInteractionLocked in *. destruct (q_Type evt), (q_PermissionRequest evt), (q_PermissionResolved evt); try done;
      cbv zeta; cbn [th_Status]; match goal with |- context [if ?b then _ else _] => destruct b eqn:Eb end; try done; cbn in Eb;
      rewrite Ho in Eb; cbn in Eb; rewrite andb_true_iff in Eb; destruct Eb as [_ Eb]; breflect; by rewrite Eb in Ho. }
  intros x Hi. destruct (reducePlanLocked_frame x evt) as (f & ->).
  match goal with |- context [reduceGoalLocked ?y evt] => destruct (reduceGoalLocked_frame y evt) as (g & ->) end.
  unfold reduceTerminalLocked. destruct (q_Type evt ==b EventTerminal) eqn:Et; [|by left]. breflect.
  destruct (q_TerminalInfo evt) as [info|]; [|by left]. unfold over; cbn. unfold runtimeStatusForTerminal.
  repeat case_match; auto.
Qed.

(** ** The log of a thread *)

(** The complete records of each thread, since it is in the store. *)
Definition logs : Type := bytes -> list RuntimeEventRecord.

(** The event as it is given a number. *)
Definition numbered evt s : QueryEvent :=
  let v := q_Envelope evt in
  let v := match threads s !! v_ThreadID evt with
           | None => v <| v_Sequence := 1 |>
           | Some t =>
               let v := v <| v_Sequence := u64 (th_LastSequence t + 1) |> in
               if isRuntimeAgentBackgroundedTransition evt && (th_ActiveTurnID t <>b [])
               then v <| v_TurnID := th_ActiveTurnID t |> else v
           end in
  evt <| q_Envelope := v |>.

Definition logged_event evt s (l : logs) : logs := fun id =>
  if v_ThreadID evt ==b id then
    match threads s !! id with
    | None => [runtimeEventRecord evt]
    | Some _ => if isDuplicateAgentCompletionLocked s evt then l id else l id ++ [runtimeEventRecord evt]
    end
  else l id.

(** The log of a thread that is put in the store starts anew. *)
Definition logged (o : operation) s (l : logs) : logs :=
  match (run o s).1 with
  | Some _ => l
  | None =>
      match o with
      | OpApply evt => logged_event evt s l
      | OpNextAgentLifecycle evt => logged_event (numbered evt s) s l
      | OpRestoreAgent _ agent _ live => fun id =>
          if (TrimSpace (ra_ThreadID agent) ==b id) && negb (live && bool_decide (is_Some (threads s !! id))) then [] else l id
      | OpRestorePlan _ _ tid _ _ _ _ | OpRestoreGoal _ _ tid _ _ _ => fun id =>
          if (TrimSpace tid ==b id) && bool_decide (threads s !! id = None) then [] else l id
      | OpRestoreWorktrees _ => l
      end
  end.

Fixpoint log_all (ops : list operation) s (l : logs) : logs :=
  match ops with
  | [] => l
  | o :: ops => log_all ops (run o s).2 (logged o s l)
  end.

(** The recent events of a thread are the newest of its log, which is in the
    order of its numbers. *)
Record ring (lim : RuntimeStoreLimits) (log : list RuntimeEventRecord) t : Prop := {
  ring_events : th_Events t = drop (overflow (EventsPerThread lim) log) log;
  ring_dropped : th_DroppedEvents t = u64 (zlen log - zlen (th_Events t));
  ring_order : StronglySorted Z.lt ((fun r => v_Sequence (er_Envelope r)) <$> log);
  ring_last : Forall (fun r => v_Sequence (er_Envelope r) <= th_LastSequence t) log
}.

Definition rings s (l : logs) : Prop := forall id t, threads s !! id = Some t -> ring (limits s) (l id) t.

Definition ring_of t := (th_Events t, th_DroppedEvents t, th_LastSequence t).

Lemma ring_same lim log t t' : ring_of t' = ring_of t -> ring lim log t -> ring lim log t'.
Proof. unfold ring_of. intros [= Ee Ed El] []. split; rewrite ?Ee, ?Ed, ?El; done. Qed.

Lemma ring_empty lim t : th_Events t = [] -> th_DroppedEvents t = 0 -> ring lim [] t.
Proof. intros Ee Ed. split; rewrite ?Ee, ?Ed; try done; [by rewrite drop_nil|constructor]. Qed.

Lemma zlen_app {A} (l k : list A) : zlen (l ++ k) = zlen l + zlen k.
Proof. unfold zlen. rewrite length_app. lia. Qed.

Lemma zlen_drop {A} n (l : list A) : zlen (drop n l) = zlen l - Z.min (Z.of_nat n) (zlen l).
Proof. unfold zlen. rewrite length_drop. lia. Qed.

(** Keeping the newest entries one at a time keeps the newest ones. *)
Lemma drop_newest {A} limit (log : list A) r :
  0 <= limit ->
  drop (overflow limit (drop (overflow limit log) log ++ [r])) (drop (overflow limit log) log ++ [r])
    = drop (overflow limit (log ++ [r])) (log ++ [r]).
Proof.
  intros Hl. rewrite <- (drop_app_le log [r] (overflow limit log)) by (unfold overflow, zlen; lia).
  rewrite drop_drop. f_equal. unfold overflow. rewrite !zlen_drop, zlen_app. unfold zlen; cbn. lia.
Qed.

Lemma runtimeEventRecord_envelope evt : er_Envelope (runtimeEventRecord evt) = q_Envelope evt.
Proof. unfold runtimeEventRecord. by destruct (runtimeEventToolIdentity evt). Qed.

Lemma ring_append lim log t evt :
  0 <= EventsPerThread lim -> ring lim log t -> th_LastSequence t < v_Sequence evt ->
  ring lim (log ++ [runtimeEventRecord evt]) (appendEventLocked lim (count_event t evt) (runtimeEventRecord evt)).
Proof.
  intros Hl [He Hd Ho Hlast] Hseq. unfold appendEventLocked. split; cbn.
  - rewrite He. by apply drop_newest.
  - rewrite Hd, He, u64_add_l. f_equal. rewrite !zlen_drop, !zlen_app, zlen_drop. unfold overflow.
    rewrite zlen_app, zlen_drop. unfold zlen, overflow; cbn. lia.
  - rewrite fmap_app. apply StronglySorted_app_2; [|done|cbn; by repeat constructor]. rewrite Forall_forall in Hlast.
    intros x y (r & -> & Hr)%list_elem_of_fmap Hy. cbn in Hy. apply list_elem_of_singleton in Hy as ->.
    rewrite runtimeEventRecord_envelope. specialize (Hlast r Hr). cbn in Hlast. lia.
  - apply Forall_app; split; [|constructor; [|done]].
    + eapply Forall_impl; [exact Hlast|]. cbn. intros r Hr. lia.
    + rewrite runtimeEventRecord_envelope. lia.
Qed.

(** The number of an event that is accepted is the next one of its thread. *)
Lemma accepted_number thread evt :
  validateRuntimeEventEnvelope evt = None -> validateRuntimeTransition thread evt = None ->
  (forall t, thread = Some t -> is_u64 (th_LastSequence t)) ->
  v_Sequence evt = match thread with Some t => th_LastSequence t | None => 0 end + 1.
Proof.
  unfold validateRuntimeEventEnvelope. rewrite orElse_None, first_error_None, !Forall_cons; cbn [fst]. rewrite !Z.eqb_neq.
  intros [(_ & _ & _ & Hz & _) _] Es%accepted_sequence Hr. destruct thread as [t|]; [|done].
  specialize (Hr t eq_refl). unfold is_u64, MaxUint64, u64 in *. rewrite Es in Hz |- *.
  destruct (decide (th_LastSequence t + 1 = 2 ^ 64)) as [E|]; [exfalso; apply Hz; by rewrite E|]. rewrite Z.mod_small; lia.
Qed.

Lemma kept_ring t t' : kept t = kept t' -> ring_of t = ring_of t'.
Proof. unfold kept, ring_of. by intros [= _ _ -> _ _ -> -> _ _]. Qed.

Lemma thread_after_ring lim log t turn status evt :
  limits_ok lim -> ring lim log t -> th_LastSequence t < v_Sequence evt ->
  ring lim (log ++ [runtimeEventRecord evt]) (thread_after lim t turn status evt).
Proof.
  intros Hl Hr Hseq. unfold thread_after. assert (ring_of (enter_turn t evt) = ring_of t) as Ee
    by (by destruct (enter_turn_frame t evt) as (? & ? & ? & ? & ? & ? & ->)).
  assert (th_LastSequence (enter_turn t evt) < v_Sequence evt) as Hseq'
    by (unfold ring_of in Ee; injection Ee as _ _ ->; done).
  apply (ring_same _ _ _ _ Ee) in Hr.
  apply (ring_append _ _ _ _ (Z.lt_le_incl _ _ (ok_lim_events lim Hl)) Hr) in Hseq'.
  generalize dependent (appendEventLocked lim (count_event (enter_turn t evt) evt) (runtimeEventRecord evt)). intros x Hx.
  destruct (isGoalUsageLifecycle evt).
  - by destruct (reduceGoalLocked_frame x evt) as (g & ->); destruct Hx.
  - pose proof (kept_ring _ _ (reduce_thread_kept lim Hl x evt)) as Ek. generalize dependent (reduce_thread lim x evt). intros y Ey.
    apply (ring_same _ _ _ _ Ey) in Hx.
    destruct (updateRuntimeThreadTiming_frame y turn status (v_Timestamp evt)) as (? & ? & ->). by destruct Hx.
Qed.

Lemma rings_put s s' id t l l' :
  threads s' = <[id := t]> (threads s) -> limits s' = limits s -> rings s l -> ring (limits s) (l' id) t ->
  (forall id', id' <> id -> l' id' = l id') -> rings s' l'.
Proof.
  intros Et El Hr Ht Hl id' t'. rewrite Et, El, lookup_insert_Some. intros [[<- <-]|[Hne Hid]]; [done|].
  rewrite Hl by done. by apply Hr.
Qed.

Lemma rings_capacity s s' l : ensureThreadCapacityLocked s = Ok s' -> rings s l -> rings s' l /\ limits s' = limits s.
Proof.
  intros (ts & d & -> & Hsub & _)%ensureThreadCapacityLocked_frame Hr. split; [|done]. intros id t E. apply Hr.
  by eapply lookup_weaken.
Qed.

Lemma Apply_rings evt s s' l : store_ok s -> rings s l -> Apply evt s = Ok s' -> rings s' (logged_event evt s l).
Proof.
  intros Hs Hr (He & Htr & Hacc)%Apply_accepts.
  assert (forall t, threads s !! v_ThreadID evt = Some t -> is_u64 (th_LastSequence t)) as Hu
    by (intros t E; by apply (ok_thread s Hs _ _ E)).
  pose proof (accepted_number _ _ He Htr Hu) as Hseq.
  assert (forall id', id' <> v_ThreadID evt -> logged_event evt s l id' = l id') as Hother
    by (intros; unfold logged_event; by rewrite bool_decide_eq_false_2).
  destruct Hacc as [t Et Ed|t Et Ed _|s0 Et E0]; rewrite Et in Hseq.
  - eapply (rings_put s); [done..| |exact Hother]. unfold logged_event. rewrite bool_decide_eq_true_2, Et, Ed by done.
    specialize (Hr _ _ Et). destruct Hr as [? ? ? Hlast]. split; cbn; try done. eapply Forall_impl; [exact Hlast|]. cbn. lia.
  - destruct (reduce_event_threads s (Some t) evt Hs) as (El & _ & E). eapply (rings_put s); [exact E|exact El|exact Hr| |exact Hother].
    unfold logged_event. rewrite bool_decide_eq_true_2, Et, Ed by done. apply thread_after_ring; [apply Hs|by apply Hr|cbn; lia].
  - destruct (rings_capacity _ _ _ E0 Hr) as [Hr0 El0]. destruct (ensureThreadCapacityLocked_kept _ _ E0 Hs) as [[Hs0 _] _].
    destruct (reduce_event_threads s0 None evt Hs0) as (El & _ & E).
    eapply (rings_put s0); [exact E|exact El|exact Hr0| |exact Hother].
    unfold logged_event. rewrite bool_decide_eq_true_2, Et by done. apply (thread_after_ring _ []); [apply Hs0| |].
    + unfold new_thread; cbn. case_match; by apply ring_empty.
    + cbn. unfold new_thread. case_match; cbn; lia.
Qed.

Lemma rings_threads s s' l : threads s' = threads s -> limits s' = limits s -> rings s l -> rings s' l.
Proof. unfold rings. by intros -> ->. Qed.

Lemma restored_thread_ring lim agent status now messages : ring lim [] (restored_thread lim agent status now messages).
Proof. unfold restored_thread, boundMessagesLocked. case_match; by apply ring_empty. Qed.

Lemma RestoreAgentSnapshot_rings clock agent messages live s s' l :
  store_ok s -> limits s' = limits s -> rings s l -> RestoreAgentSnapshot clock agent messages live s = Ok s' ->
  rings s' (fun id => if (TrimSpace (ra_ThreadID agent) ==b id) && negb (live && bool_decide (is_Some (threads s !! id))) then [] else l id).
Proof.
  intros Hs El Hr E%RestoreAgentSnapshot_threads. cbv zeta in E. set (tid := TrimSpace (ra_ThreadID agent)) in *.
  destruct (live && bool_decide (is_Some (threads s !! tid))) eqn:Eb.
  - intros id t Et. rewrite E in Et. rewrite El. destruct (decide (tid = id)) as [<-|];
      [rewrite Eb, andb_false_r|rewrite (bool_decide_eq_false_2 (tid = id)) by done]; by apply Hr.
  - destruct E as (agent' & status & now & s0 & _ & Hs0 & E).
    assert (rings s0 l /\ limits s0 = limits s) as [Hr0 El0]
      by (destruct Hs0 as [[-> _]|[_ Ec]]; [done|by eapply rings_capacity]).
    eapply (rings_put s0); [exact E|congruence|exact Hr0| |].
    + cbn. rewrite bool_decide_eq_true_2, Eb by done. apply restored_thread_ring.
    + intros id Hne. cbn. by rewrite (bool_decide_eq_false_2 (tid = id)).
Qed.

(** A thread in which a plan or a goal is restored keeps its events. *)
Lemma touched_rings sid tid aid now s t t' s1 at_ l :
  ensure_thread sid tid aid now s = Ok (t, s1) -> ring_of t' = ring_of t -> rings s l ->
  rings (bump_revision (put_thread s1 tid (touch_thread t' at_)))
    (fun id => if (tid ==b id) && bool_decide (threads s !! id = None) then [] else l id).
Proof.
  intros E Et' Hr. assert (ring_of (touch_thread t' at_) = ring_of t) as Er by exact Et'.
  destruct (ensure_thread_threads _ _ _ _ _ _ _ E) as [[Ei ->]|(Ei & -> & Ec)].
  - eapply (rings_put s); [done..| |].
    + cbn. rewrite Ei, (bool_decide_eq_false_2 (_ = None)), andb_false_r by done. eapply ring_same; [exact Er|]. by apply Hr.
    + intros id Hne. cbn. by rewrite (bool_decide_eq_false_2 (tid = id)).
  - destruct (rings_capacity _ _ _ Ec Hr) as [Hr0 El0]. eapply (rings_put s1); [done..| |].
    + cbn. rewrite !bool_decide_eq_true_2 by done. eapply ring_same; [exact Er|]. by apply ring_empty.
    + intros id Hne. cbn. by rewrite (bool_decide_eq_false_2 (tid = id)).
Qed.

Lemma outcome_rings s r o l l' :
  run o s = outcome s r -> logged o s l = match (run o s).1 with Some _ => l | None => l' end ->
  (forall s', r = Ok s' -> rings s' l') -> rings s l -> rings (run o s).2 (logged o s l).
Proof. intros E El Hok Hr. rewrite El, E. destruct r; [by apply Hok|done]. Qed.

Lemma run_rings o s l : fits o -> store_ok s -> rings s l -> rings (run o s).2 (logged o s l).
Proof.
  intros Hf Hs Hr. destruct o as [evt|evt|clock agent messages live|records|clock sid tid aid state mode at_|clock sid tid aid state at_].
  - eapply outcome_rings; [done|reflexivity| |done]. intros s' E. by eapply Apply_rings.
  - eapply outcome_rings; [done|reflexivity| |done]. intros s' E. unfold applyNextAgentLifecycle in E.
    destruct (isRuntimeAgentLifecycleEvent evt); [|done]. by eapply Apply_rings.
  - eapply outcome_rings; [done|reflexivity| |done]. intros s' E.
    eapply RestoreAgentSnapshot_rings; [done| |done..]. by apply (RestoreAgentSnapshot_ok _ _ _ _ _ _ Hf E Hs).
  - unfold logged. destruct (run_ok (OpRestoreWorktrees records) s Hf Hs) as (_ & El & _).
    assert (rings (run (OpRestoreWorktrees records) s).2 l) by (apply (rings_threads s); [apply restore_worktrees_threads|done..]).
    by case_match.
  - eapply outcome_rings; [done|reflexivity| |done]. intros s' E. unfold RestorePlanSnapshot in E. cbv zeta in E.
    generalize dependent (if at_ =? 0 then clock else at_); intros now E. repeat (case_match; [done|]).
    destruct (ensure_thread _ _ _ _ s) as [[t s1]|] eqn:Ee; [|done].
    match type of E with context [if ?b then Err _ else _] => destruct b; [done|] end. injection E as <-.
    by eapply (touched_rings _ _ _ _ _ t).
  - eapply outcome_rings; [done|reflexivity| |done]. intros s' E. unfold RestoreGoalSnapshot in E. cbv zeta in E.
    generalize dependent (if at_ =? 0 then clock else at_); intros now E. repeat (case_match; [done|]).
    destruct (ensure_thread _ _ _ _ s) as [[t s1]|] eqn:Ee; [|done].
    match type of E with context [if ?b then Err _ else _] => destruct b; [done|] end. injection E as <-.
    by eapply (touched_rings _ _ _ _ _ t).
Qed.

Lemma run_all_rings ops s l : Forall fits ops -> store_ok s -> rings s l -> rings (run_all ops s) (log_all ops s l).
Proof.
  revert s l; induction ops as [|o ops IH]; intros s l Hf Hs Hr; cbn; [done|]. apply Forall_cons in Hf as [Hf Hfs].
  apply IH; [done|by apply run_ok|by apply run_rings].
Qed.

Lemma not_running t : over t \/ th_Status t = RuntimeThreadWaitingInput -> active t = false.
Proof. unfold over, active. intros [Ho|Ho]; [destruct (th_Status t); try done|rewrite Ho]; by rewrite andb_false_r. Qed.

Lemma over_stopped t : clock_ok t -> over t -> th_ActiveSince t = 0.
Proof.
  intros [Hs _] Ho. destruct (decide (th_ActiveSince t = 0)) as [|E]; [done|]. apply Hs in E.
  rewrite not_running in E by (by left). done.
Qed.

Lemma entered_turn lim t evt :
  th_Status (entered lim t evt) = th_Status (enter_turn t evt)
  /\ th_ActiveTurnID (entered lim t evt) = th_ActiveTurnID (enter_turn t evt).
Proof.
  unfold entered. by destruct (appendEventLocked_frame lim (count_event (enter_turn t evt) evt) (runtimeEventRecord evt)) as (? & ? & ->).
Qed.

Lemma updateRuntimeThreadTiming_stopped t turn status now :
  th_ActiveSince t = 0 -> active t = false ->
  th_ActiveSince (updateRuntimeThreadTiming t turn status now) = 0
  /\ th_ActiveDuration (updateRuntimeThreadTiming t turn status now) = th_ActiveDuration t.
Proof.
  intros Hz Ha. unfold updateRuntimeThreadTiming. cbv zeta. fold (active t). rewrite Ha, Hz. cbn.
  by rewrite andb_false_r.
Qed.

Lemma accepted_turn evt : validateRuntimeEventEnvelope evt = None -> v_TurnID evt <> [].
Proof.
  unfold validateRuntimeEventEnvelope. rewrite orElse_None, first_error_None, !Forall_cons; cbn [fst].
  intros [(_ & _ & Hb & _) _] E. by rewrite E in Hb.
Qed.

Lemma next_thread_ended s t evt :
  store_ok s -> clock_ok t -> epilogue evt -> over t -> th_ActiveTurnID t = v_TurnID evt -> v_TurnID evt <> [] ->
  let t' := next_thread s (Some t) evt in
  (over t' \/ q_Type evt = EventTerminal /\ th_Status t' = RuntimeThreadWaitingInput)
  /\ (th_ActiveTurnID t' = v_TurnID evt
      \/ isExternalPlanStateTransition evt || isExternalGoalLifecycle evt = true /\ th_ActiveTurnID t' = [])
  /\ th_ActiveSince t' = 0 /\ th_ActiveDuration t' = th_ActiveDuration t.
Proof.
  intros Hs Hc Hep Ho Et Hne. pose proof (ok_limits s Hs) as Hl.
  change (next_thread s (Some t) evt) with (thread_after (limits s) t (th_ActiveTurnID t) (th_Status t) evt). unfold thread_after.
  assert (th_ActiveSince t = 0) as Hz by (by apply over_stopped).
  destruct (enter_turn_over t evt Hep Ho Et Hne) as [Es Ea]. rewrite Et in Ea. fold (entered (limits s) t evt).
  pose proof (entered_clock (limits s) t evt) as [Xs Xd]. pose proof (entered_turn (limits s) t evt) as [Xt Xa].
  generalize dependent (entered (limits s) t evt). intros x Xs Xd Xt Xa.
  assert (over x) as Hox by (unfold over in *; congruence). rewrite <- Xa in Ea. rewrite Hz in Xs. cbv zeta.
  destruct (isGoalUsageLifecycle evt).
  { destruct (reduceGoalLocked_frame x evt) as (g & ->). split_and!; [by left|done..]. }
  pose proof (reduce_thread_over (limits s) x evt Hl Hox (proj2 (epilogue_type evt Hep))) as Hr.
  pose proof (reduce_thread_kept (limits s) Hl x evt) as Hk. generalize dependent (reduce_thread (limits s) x evt). intros y Hr Hk.
  unfold kept in Hk. injection Hk as _ Ka _ Kd Ks _ _ _ _.
  assert (active y = false) as Hay by (apply not_running; destruct Hr as [Hr|[_ Hr]]; [by left|by right]).
  destruct (updateRuntimeThreadTiming_stopped y (th_ActiveTurnID t) (th_Status t) (v_Timestamp evt)) as [Us Ud]; [congruence|done|].
  destruct (updateRuntimeThreadTiming_frame y (th_ActiveTurnID t) (th_Status t) (v_Timestamp evt)) as (d & u & E).
  rewrite E in *. cbn in Us, Ud. unfold over; cbn. rewrite Us, Ud. split_and!; [exact Hr|by rewrite Ka|done|congruence].
Qed.

Lemma Apply_ended evt s s' t :
  store_ok s -> threads s !! v_ThreadID evt = Some t -> over t -> th_ActiveTurnID t = v_TurnID evt -> Apply evt s = Ok s' ->
  epilogue evt
  /\ exists t', threads s' !! v_ThreadID evt = Some t'
     /\ (over t' \/ q_Type evt = EventTerminal /\ th_Status t' = RuntimeThreadWaitingInput)
     /\ (th_ActiveTurnID t' = v_TurnID evt
         \/ isExternalPlanStateTransition evt || isExternalGoalLifecycle evt = true /\ th_ActiveTurnID t' = [])
     /\ th_ActiveSince t' = 0 /\ th_ActiveDuration t' = th_ActiveDuration t.
Proof.
  intros Hs Et Ho Eturn (He & Htr & Hacc)%Apply_accepts. rewrite Et in Htr. pose proof (accepted_epilogue t evt Htr Ho Eturn) as Hep.
  destruct (ok_thread s Hs _ _ Et) as [_ Hc]. apply accepted_turn in He. split; [done|].
  destruct Hacc as [t0 Et0 _|t0 Et0 _ _|s0 Et0 _]; rewrite Et in Et0; [injection Et0 as <-..|done].
  - exists (count_event t evt). split; [apply lookup_insert_eq|]. split_and!; [by left|by left|exact (over_stopped t Hc Ho)|done].
  - destruct (reduce_event_threads s (Some t) evt Hs) as (_ & _ & E). eexists. rewrite E. split; [apply lookup_insert_eq|].
    by apply next_thread_ended.
Qed.

(** ** The properties *)

(** C23: the store stays in order. Whatever operations run, accepted or refused,
    the store holds at most as many threads, agents, executions and tasks as its
    limits say, each thread at most as many events, messages, tools and requests,
    and its clock has a start exactly when it runs; the worktrees too are within
    their limit, unless a restore of worktrees was refused half-way. *)
Theorem store_within_limits (l : RuntimeStoreLimits) (ops : list operation) :
  Forall fits ops ->
  let s := run_all ops (NewRuntimeStateStore l) in
  store_ok s /\ limits s = normalizeRuntimeStoreLimits l
  /\ (worktrees_refused ops (NewRuntimeStateStore l) = false -> map_len (worktrees s) <= Worktrees (limits s)).
Proof.
  intros Hf s. destruct (new_store_ok l) as [Hs Hw]. destruct (run_all_ok ops _ Hf Hs) as (? & ? & Hk).
  split_and!; [done..|]. intros Hr. by apply Hk.
Qed.

(** C19: a request waits until it is answered. After any operations, the requests
    that wait in a thread change only as the next operation says: a request event
    adds its request, a resolution removes the one it names, a restored plan
    removes those about plans, a restored transcript replaces the thread; nothing
    else, the making of room for other threads included, takes one away. *)
Theorem requests_wait (l : RuntimeStoreLimits) (ops : list operation) (o : operation) (id : bytes) :
  Forall fits ops ->
  let s := run_all ops (NewRuntimeStateStore l) in
  pending (run o s).2 id = pending_after o s id.
Proof. intros Hf s. apply run_pending. by apply run_all_ok; [|apply new_store_ok]. Qed.

(** C21: the recent events of a thread are the newest records of its complete log,
    as many as the limit allows; the others are counted as dropped; and the
    records come in the order of their numbers, none of which was given twice. *)
Theorem events_are_newest (l : RuntimeStoreLimits) (ops : list operation) (id : bytes) (t : RuntimeThread) :
  Forall fits ops ->
  let s := run_all ops (NewRuntimeStateStore l) in
  let log := log_all ops (NewRuntimeStateStore l) (fun _ => []) id in
  threads s !! id = Some t ->
  th_Events t = drop (overflow (EventsPerThread (limits s)) log) log
  /\ th_DroppedEvents t = u64 (zlen log - zlen (th_Events t))
  /\ StronglySorted Z.lt ((fun r => v_Sequence (er_Envelope r)) <$> log)
  /\ Forall (fun r => v_Sequence (er_Envelope r) <= th_LastSequence t) log.
Proof.
  intros Hf s log Ht. assert (rings s (log_all ops (NewRuntimeStateStore l) (fun _ => []))) as Hr.
  { apply run_all_rings; [done|apply new_store_ok|]. intros id' t' E. cbn in E. by rewrite lookup_empty in E. }
  by destruct (Hr id t Ht).
Qed.

(** C20: the clock of a thread is exact.  For events of any threads whose times do
    not decrease, accepted or refused, the time that the store shows for a thread
    is the sum of the times, from each event to the next and from the last to now,
    in which the thread ran a turn since it is in the store, at most the greatest
    duration; a thread that was given up to make room starts again from nothing. *)
Theorem running_time_exact (l : RuntimeStoreLimits) (id : bytes) (events : list QueryEvent) (now : Z) :
  StronglySorted Z.le (timestamps events now) ->
  let s := run_all (OpApply <$> events) (NewRuntimeStateStore l) in
  match ThreadTimingSnapshot s id with Some x => Elapsed x now | None => 0 end
    = Z.min MaxInt64 (time_run id events (NewRuntimeStateStore l) now 0).
Proof.
  intros Hts s. destruct (new_store_ok l) as [Hs _].
  destruct (events_shown id events _ now 0 Hs Hts) as (Hsh & Hs' & Hst); [|done|by unfold shown; cbn; rewrite lookup_empty|].
  { intros t E. cbn in E. by rewrite lookup_empty in E. }
  etransitivity; [by apply timing_shown|exact Hsh].
Qed.

(** C22: a turn that is over stays over. When the thread has ended the turn of an
    event and the event is accepted, the event is one of the few kinds that may
    still come; the thread remains ended, unless the event is a terminal that
    waits for input; its clock does not run and shows what it showed; and the
    thread forgets the turn only for a change of the plan or the goal from
    outside. *)
Theorem ended_turn_stays_ended (l : RuntimeStoreLimits) (ops : list operation) (evt : QueryEvent) (t : RuntimeThread) (s' : RuntimeStateStore) :
  Forall fits ops ->
  let s := run_all ops (NewRuntimeStateStore l) in
  threads s !! v_ThreadID evt = Some t -> isRuntimeTerminalStatus (th_Status t) = true -> th_ActiveTurnID t = v_TurnID evt ->
  Apply evt s = Ok s' ->
  epilogue evt
  /\ exists t', threads s' !! v_ThreadID evt = Some t'
     /\ (isRuntimeTerminalStatus (th_Status t') = true \/ q_Type evt = EventTerminal /\ th_Status t' = RuntimeThreadWaitingInput)
     /\ (th_ActiveTurnID t' = v_TurnID evt
         \/ isExternalPlanStateTransition evt || isExternalGoalLifecycle evt = true /\ th_ActiveTurnID t' = [])
     /\ th_ActiveSince t' = 0 /\ th_ActiveDuration t' = th_ActiveDuration t.
Proof.
  intros Hf s Et Ho Eturn HA. assert (store_ok s) as Hs by (by apply run_all_ok; [|apply new_store_ok]).
  by apply (Apply_ended evt s).
Qed.
End operations.

(** ** A session *)

Section Example_store.

#[local] Existing Instance Example_schedule.zero_digests.
#[local] Instance plain_json : RuntimeJSON := {|
  json_valid := fun _ => true; json_object := fun _ => true; json_marshal := fun _ => None; json_unmarshal := fun _ => None;
  json_marshal_map := fun _ => Some []; go_sprint := fun _ => [] |}.
#[local] Instance no_numbers : AnyNumbers := {| other_number := fun _ => None |}.
#[local] Instance no_identity : GoalIdentityText := {| goal_identity_json := fun _ => [] |}.

(** Two entries of everything, and one thread. *)
Definition small : RuntimeStoreLimits := {|
  EventsPerThread := 2; MessagesPerThread := 2; ToolsPerThread := 2; InteractionsPerThread := 2; Threads := 1; Agents := 2;
  Tasks := 2; Worktrees := 2 |}.

Definition event (thread turn : bytes) (n at_ : Z) (type : QueryEventType) : QueryEvent :=
  bare_event (empty_envelope <| v_SessionID := lit "s" |> <| v_ThreadID := thread |> <| v_TurnID := turn |>
                             <| v_Sequence := n |> <| v_Timestamp := at_ |>) type.
Definition says (thread turn : bytes) (n at_ : Z) : QueryEvent :=
  (event thread turn n at_ EventAssistant) <| q_AssistantMessage := Some (text_message Assistant (lit "hi")) |>.
Definition asks (thread turn : bytes) (n at_ : Z) (tool : bytes) : QueryEvent :=
  (event thread turn n at_ EventPermissionRequest) <| q_PermissionRequest := Some {|
    pq_ToolName := lit "Bash"; pq_CanonicalToolName := []; pq_ToolUseID := tool; pq_Input := ∅; pq_Message := []; pq_Source := [];
    pq_Kind := []; pq_Attempt := 0; pq_PlanApproval := None; pq_DecisionConstraint := PermissionDecisionUnconstrained |} |>.
Definition answers (thread turn : bytes) (n at_ : Z) (tool : bytes) : QueryEvent :=
  (event thread turn n at_ EventPermissionResolved) <| q_PermissionResolved := Some {|
    ps_ToolUseID := tool; ps_Decision := lit "allow"; ps_Message := []; ps_Kind := []; ps_PlanApproval := None |} |>.
Definition ends (thread turn : bytes) (n at_ : Z) : QueryEvent :=
  (event thread turn n at_ EventTerminal) <| q_TerminalInfo := Some {|
    tm_Reason := lit "completed"; tm_TurnCount := 1; tm_MaxTurns := 0; tm_Err := None |} |>.

Definition root : bytes := lit "root".
Definition one : bytes := lit "1".
Definition two : bytes := lit "2".

(** A turn with a request that is answered, and a second turn. *)
Definition turn_one : list QueryEvent := [says root one 1 10; asks root one 2 20 (lit "t"); answers root one 3 50 (lit "t"); ends root one 4 60].
Definition turn_two : list QueryEvent := [says root two 5 100].
Definition apply_all (events : list QueryEvent) : list operation := OpApply <$> events.
#[local] Abbreviation after events := (run_all (apply_all events) (NewRuntimeStateStore small)).

Lemma apply_all_fits events : Forall fits (apply_all events).
Proof. apply Forall_forall. intros o (evt & -> & _)%list_elem_of_fmap. done. Qed.

Lemma store_within_limits_witness :
  zlen (apply_all turn_one) = 4 /\ (th_LastSequence <$> threads (after turn_one) !! root) = Some 4
  /\ store_ok (after turn_one).
Proof.
  split; [by vm_compute|]. split; [by vm_compute|]. exact (proj1 (store_within_limits small (apply_all turn_one) (apply_all_fits _))).
Defined.

Lemma requests_wait_witness :
  size (pending (after (take 2 turn_one)) root) = 1%nat
  /\ pending (run (OpApply (says root one 3 30)) (after (take 2 turn_one))).2 root = pending (after (take 2 turn_one)) root.
Proof.
  split; [by vm_compute|].
  etransitivity; [exact (requests_wait small (apply_all (take 2 turn_one)) (OpApply (says root one 3 30)) root (apply_all_fits _))|].
  by vm_compute.
Defined.

Lemma events_are_newest_witness :
  exists t, threads (after turn_one) !! root = Some t /\ th_DroppedEvents t = 2 /\ zlen (th_Events t) = 2
    /\ th_Events t = drop 2 (runtimeEventRecord <$> turn_one).
Proof.
  destruct (threads (after turn_one) !! root) as [t|] eqn:E; [|by vm_compute in E]. exists t.
  destruct (events_are_newest small (apply_all turn_one) root t (apply_all_fits _) E) as (He & Hd & _).
  assert (th_Events t = drop 2 (runtimeEventRecord <$> turn_one)) as Ev by (rewrite He; by vm_compute).
  split; [done|]. split; [rewrite Hd, Ev; by vm_compute|]. split; [rewrite Ev; by vm_compute|exact Ev].
Defined.

(** An event of a child, refused for want of room, changes nothing; the root runs
    from 10 to 20, from 50 to 60 and from 100 on. *)
Definition mixed : list QueryEvent := take 2 turn_one ++ [says (lit "child") one 1 40] ++ drop 2 turn_one ++ turn_two.

Lemma running_time_exact_witness :
  match ThreadTimingSnapshot (run_all (OpApply <$> mixed) (NewRuntimeStateStore small)) root with
  | Some x => Elapsed x 130
  | None => 0
  end = 50 /\ map_len (threads (run_all (OpApply <$> mixed) (NewRuntimeStateStore small))) = 1.
Proof.
  split; [|by vm_compute]. etransitivity; [apply (running_time_exact small root mixed 130)|by vm_compute].
  by repeat constructor.
Defined.

Definition late : QueryEvent := event root one 5 70 EventHookResponse.

Lemma ended_turn_stays_ended_witness :
  exists t s', threads (after turn_one) !! v_ThreadID late = Some t /\ Apply late (after turn_one) = Ok s' /\ epilogue late.
Proof.
  assert ((fun t => (th_Status t, th_ActiveTurnID t)) <$> threads (after turn_one) !! v_ThreadID late
          = Some (RuntimeThreadCompleted, v_TurnID late)) as Ht by (by vm_compute).
  destruct (threads (after turn_one) !! v_ThreadID late) as [t|] eqn:Et; [|done]. injection Ht as Hs Ha.
  destruct (Apply late (after turn_one)) as [s'|e] eqn:E; [|by vm_compute in E].
  exists t, s'. split; [done|]. split; [done|].
  assert (isRuntimeTerminalStatus (th_Status t) = true) as Ho by (by rewrite Hs).
  exact (proj1 (ended_turn_stays_ended small (apply_all turn_one) late t s' (apply_all_fits _) Et Ho Ha E)).
Defined.

(** ** Findings *)

(** The thread of the session is over and given up for the thread of a child; the
    sequencer goes on with the number after the one it gave last, the store wants
    the first: no event of the session is accepted any more. *)
Definition root_envelope : RuntimeEventEnvelope := empty_envelope <| v_SessionID := lit "s" |> <| v_ThreadID := root |>.
Definition child_envelope : RuntimeEventEnvelope := empty_envelope <| v_SessionID := lit "s" |> <| v_ThreadID := lit "child" |>.
Definition publish (x : bytes * RuntimeEventEnvelope * Z * QueryEvent) (qs : Sequencer * RuntimeStateStore) : Sequencer * RuntimeStateStore :=
  let '(turn, identity, clock, evt) := x in
  let '(_, _, q, s) := decorateRuntimeEventWithIdentityLocked turn identity clock evt qs.1 qs.2 in (q, s).
Definition accepted (x : bytes * RuntimeEventEnvelope * Z * QueryEvent) (qs : Sequencer * RuntimeStateStore) : bool :=
  let '(turn, identity, clock, evt) := x in
  (decorateRuntimeEventWithIdentityLocked turn identity clock evt qs.1 qs.2).1.1.2.
Definition evicted : Sequencer * RuntimeStateStore :=
  foldl (fun qs x => publish x qs) ({| runtimeSequences := ∅; runtimeStateErr := None |}, NewRuntimeStateStore small)
    [(one, root_envelope, 10, says root one 0 0); (one, root_envelope, 20, ends root one 0 0);
     (one, child_envelope, 30, says root one 0 0)].

Example given_up_thread_refused :
  accepted (two, root_envelope, 40, says root two 0 0) evicted = false
  /\ accepted (two, root_envelope, 50, says root two 0 0) (publish (two, root_envelope, 40, says root two 0 0) evicted) = false.
Proof. split; by vm_compute. Qed.

(** A change of the plan from outside makes the thread forget its turn; an event
    of the turn that is over then opens it again. *)
Definition plan_changed : QueryEvent := (event root (lit "p") 5 70 EventPlanStateTransition) <| q_PlanStateTransition := Some {|
  pt_FromPhase := []; pt_Phase := lit "plan"; pt_PermissionMode := []; pt_PlanFileIdentity := []; pt_ReturnMode := [];
  pt_ApprovalRequestID := []; pt_RequestID := lit "r"; pt_Revision := 1; pt_Source := lit "external" |} |>.

Example ended_turn_opens_again :
  (th_Status <$> threads (after (turn_one ++ [says root one 5 70])) !! root) = Some RuntimeThreadCompleted
  /\ (th_Status <$> threads (after (turn_one ++ [plan_changed; says root one 6 80])) !! root) = Some RuntimeThreadRunning.
Proof. split; by vm_compute. Qed.

(** A restore of worktrees that is refused has installed the records before the
    one that is refused, beyond the limit and without a new revision. *)
Definition saved_record (id : bytes) (revision : Z) : RecoveryRecord := {|
  rr_Record := {|
    w_Version := 1; w_ID := id;
    w_Owner := {| o_Kind := OwnerAgent; o_ID := lit "a"; o_SessionID := lit "s"; o_ThreadID := lit "child"; o_ParentSessionID := [];
                  o_ParentThreadID := []; o_ParentAgentID := []; o_ParentToolUseID := [] |};
    w_RepositoryIdentity := []; w_RepoRoot := lit "/r"; w_Path := lit "/w"; w_Branch := lit "b"; w_BaseCommit := [];
    w_State := StateCreating; w_Revision := revision; w_CreatedAt := 1; w_UpdatedAt := 1; w_LastErrorCategory := [];
    w_LastError := [] |};
  rr_Disposition := RecoveryInspectOnly; rr_Diagnostic := [] |}.

Example refused_restore_installs :
  let r := RestoreWorktreeSnapshots [saved_record (lit "1") 1; saved_record (lit "2") 1; saved_record (lit "3") 1;
                                     saved_record (lit "4") 0] (NewRuntimeStateStore small) in
  r.1 = Some (InvalidWorktreeRecord RevisionRequired) /\ map_len (worktrees r.2) = 3 /\ store_revision r.2 = 0.
Proof. split_and!; by vm_compute. Qed.
End Example_store.
